(* ===== verification/_CoqProject ===== *)
-Q . S2P
Prelude.v
Python.v
BoundedMap.v
Resilience.v
Circuit.v
Backoff.v
Retry.v
Bulkhead.v
AsyncCircuit.v
Timeout.v
Pipeline.v
CacheCore.v
SyncCache.v
AsyncCache.v
AsyncCacheLaws.v
Leader.v
LeaseRecord.v
RedisScripts.v
RedisKeys.v
RedisTiming.v
RedisClient.v
RedisLock.v
RedisLockLaws.v
AsyncRedisLock.v
AsyncRedisLockLaws.v
Ids.v
Utf8.v
Codec.v
PyObject.v
JsonText.v
JsonTextLaws.v
JsonGrammar.v
Decimal.v
DecimalLaws.v
DecimalText.v
MoneyTable.v
MoneyValue.v
MoneyLaws.v
Measure.v
AuditEvent.v
JwtClaims.v
JwtClaimsLaws.v
JwtKeys.v
JwtRepository.v
JwtRepositoryLaws.v
JwtProfiles.v
JwtProfilesLaws.v
JwtCache.v
JwtCacheLaws.v
JwtProvider.v
JwtProviderLaws.v
JwtProviderErrors.v
JwtIssueLaws.v
JwtDemo.v
EnvelopeFormat.v
SerdeJson.v
SerdeJsonCheck.v
SerdeJsonLaws.v
SerdeJsonSound.v
EnvelopeCodec.v
EnvelopeJson.v
RedisProvider.v
RedisProviderLaws.v
ProviderClosing.v
AsyncRedisProvider.v
CoordinationScripts.v
RedisCoordination.v
CoordinationProtocol.v
ProviderStore.v
CoordinationDemo.v
RedisCoordinationLaws.v
CoordinationBudget.v
AsyncRedisCoordination.v
