(* ===== verification/Prelude.v ===== *)
(** * bluetape-py: a verification development

    bluetape-py (src/) is a monorepo of small Python packages under
    src/packages/bluetape-<package>/src/bluetape/.  This library models the
    packages with logic of their own: resilience policies, local caches, a
    distributed lock and elector over Redis, a byte provider and coordinated
    loads over Redis, signed tokens, strict codecs, money, measures, audit
    events, identifiers and a bounded concurrent map.

    ** How the program is modelled

    - A string is the list of its code points, [bytes] the list of its bytes, an
      [int] a [Z], a [float] an IEEE 754 binary64 number ([spec_float]), a
      [timedelta] its microseconds, an [OrderedDict] or a [dict] whose order
      matters the list of its items, another [dict] a [gmap] (Python.v, PyObject.v).
    - Exceptions are values ([exn], [outcome]).  Statements that read or write
      objects or call back are computations of the monad [M W] over the world [W] of
      all objects; a callback is an arbitrary computation of the world, so that
      whatever it does to the objects of the package, re-entrant calls and other
      threads included, is covered by a theorem about all callbacks.
    - A section of the code that holds a lock, or the stretch of a coroutine between
      two awaits, is one executable step.  Interleavings are step relations over
      those steps (BoundedMap.v, SyncCache.v, AsyncCache.v, RedisScripts.v,
      CoordinationProtocol.v) or worlds that other parties change between them
      (Circuit.v, Bulkhead.v, ProviderClosing.v, RedisLock.v, AsyncRedisLock.v,
      JwtProviderLaws.v), and the properties are invariants of every reachable state.
    - What calls hold of a shared counter (half-open slots, places, running commands,
      the lead of a close) is entered in a book kept beside the world ([others], left
      alone by the objects' own sections: class [Framed]).  A theorem then states the
      counter exactly, as what the book of the others and the calls around hold, so
      that a slot that is kept or given back twice breaks it (Circuit.v, Bulkhead.v,
      Pipeline.v, ProviderClosing.v).
    - An argument that must be of an exact class is [Exact a] or [AnotherClass]; one
      whose class the code inspects is a [pyval], a [pyobj] or a [RedisClient.value].
    - Code outside src/ is a parameter: a Redis server is a class of commands with
      their documented laws, a redis-py client, a clock, an observer, a loader and a
      compressor are callbacks, the signature library is the class [Jose] with the laws
      [JoseLaws], SHA-256, the text of a float, the power of two floats and the time zone
      database are functions.  The demonstration files give an instance of each class.

    ** The files

    Foundations:
    - Prelude.v: notations, tactics, hint databases and shared lemmas.
    - Python.v: floats, exceptions, the monads [outcome] and [M W] and their laws.
    - Utf8.v, PyObject.v, JsonText.v, JsonTextLaws.v, JsonGrammar.v: [str.encode] and
      [bytes.decode], the objects and JSON values, [json.dumps] and [json.loads] with
      hooks, that what was written is read back and that reading ends.
    - Decimal.v, DecimalLaws.v, DecimalText.v: [decimal.Decimal] in a context, its
      exactness, rounding modes and text.

    resilience (_core, _circuit, _backoff, _retry, _bulkhead, _timeout, _pipeline):
    - Resilience.v, Circuit.v, AsyncCircuit.v, Backoff.v, Retry.v, Bulkhead.v,
      Timeout.v, Pipeline.v.  The half-open slots of a breaker are accounted for under
      any interference, calls without interference refine a specification, delays stay
      in their bounds, a bulkhead that its constructor made admits no more than its
      capacity, and a pipeline gives back exactly what it took, while other threads use
      its policies ([Preserves] is the interface between policies and pipelines).

    cache (_core, _sync, _async):
    - CacheCore.v, SyncCache.v, AsyncCache.v, AsyncCacheLaws.v.  The state refines an
      LRU map with expiry; no load publishes over a value set, deleted or cleared
      meanwhile, synchronously or under asyncio.

    leader and leader-redis (_values, _options, _results; _support, _keys, _scripts,
    _lock, _elector, _async_lock, _async_elector):
    - Leader.v, LeaseRecord.v, RedisKeys.v, RedisTiming.v, RedisClient.v, RedisScripts.v,
      RedisLock.v, RedisLockLaws.v, AsyncRedisLock.v, AsyncRedisLockLaws.v.  At most one
      record holds a lock and fences grow; handles follow their lifecycle; what an elector
      reports is what happened: acquired, proved, run once, released; the asyncio handle
      agrees with the synchronous one but for a renewal of an invalid duration; a
      client is accepted only with the timing bounds the lock relies on.

    cache-redis (_contracts, _formats, _envelope, _provider, _coordination and the
    asyncio counterparts) and serde (_contracts, _json):
    - EnvelopeFormat.v, EnvelopeJson.v (the two envelope formats), EnvelopeCodec.v (the
      result codec; [ReadsBack] is the interface between it and a format), SerdeJson.v,
      SerdeJsonCheck.v, SerdeJsonLaws.v, SerdeJsonSound.v (JSON payloads), RedisProvider.v,
      RedisProviderLaws.v, ProviderClosing.v, AsyncRedisProvider.v,
      CoordinationScripts.v, RedisCoordination.v, CoordinationProtocol.v,
      ProviderStore.v, CoordinationDemo.v, RedisCoordinationLaws.v,
      CoordinationBudget.v, AsyncRedisCoordination.v.  Formats and codecs round-trip and
      fail only with their own errors, but for the [RecursionError] of the JSON envelope;
      a client is closed once, only by its owner and never under a command, and no closer
      waits for ever (ProviderClosing.v); in every history of the scripts only the holder
      of the lease publishes (CoordinationProtocol.v); a coordinated load returns only values a loader of
      its key returned, over any store that keeps the promises of [CoordinationStore],
      which the provider keeps (ProviderStore.v), and it ends within its budget.

    jwt (_algorithms, _claims, _keys, _repository, _profiles, _issuance, _cache,
    _provider) and codec:
    - Codec.v, JwtClaims.v, JwtClaimsLaws.v, JwtKeys.v, JwtRepository.v,
      JwtRepositoryLaws.v, JwtProfiles.v, JwtProfilesLaws.v, JwtCache.v, JwtCacheLaws.v,
      JwtProvider.v, JwtProviderLaws.v, JwtProviderErrors.v, JwtIssueLaws.v, JwtDemo.v.  A
      token that verifies was signed under a key that is neither unknown nor revoked and
      is within the policy, cached or not; issued tokens verify; errors are the
      package's.  [CacheBackend] is the interface to the cache, SyncCache.v its instance.

    The other packages:
    - BoundedMap.v (async), Ids.v (id), MoneyTable.v, MoneyValue.v, MoneyLaws.v (money),
      Measure.v (measure), AuditEvent.v (audit).

    ** Fuel and bounds

    Every loop of the code is structural or has fuel with a theorem that the fuel is
    enough: a retry has [max_attempts] rounds ([Retry.retry_terminates]), a reader of
    JSON two calls a character ([JsonTextLaws.scan_reads]), a flight its attempts and polls
    ([CoordinationBudget.coordinated_load_ends]), a bulkhead's release one round more than
    there are cancellations, the check of an object graph its number of values
    ([SerdeJsonCheck]), the purge of a cache the length of its heap.  The renewal loops
    of the lock run until they are told to stop; their theorems hold for every fuel.
    A leader that closes the provider looks twice, a
    follower three times ([ProviderClosing.provider_close_ends]).  32-bit lengths, 48-bit timestamps, 80-bit randomness, 63-bit fences and binary64
    numbers keep their width, with the overflow the code meets.

    ** What is left out

    - The text of error messages and the notes added to exceptions; [__repr__].
    - What the interpreter does when its memory is reached, or its recursion limit, except
      where the code handles [RecursionError] and in the reader of the JSON envelope,
      whose room for nested brackets is the class [RecursionRoom].
    - An interrupt of [Condition.wait] itself in the close of the provider.
    - serde/fory.py, compression and its native adapters, testcontainers, observability and
      logging wrap third-party packages whose behaviour is not in the repository; a
      compressor appears as a record of callbacks in EnvelopeCodec.v.
    - collections and core are one-line helpers over arbitrary iterables that no modelled
      package calls; benchmark and the scripts are tools of the repository's maintainers;
      bluetape.testing provides fixtures.
    - Of leader/_contracts.py and serde's protocols, whose methods have no body, nothing. *)

From stdpp Require Export prelude strings gmap list.
From Stdlib Require Export ZArith Lia.

(** ** Automation shared by every component *)

(** Case analysis on every [match] and [if] of the goal, keeping equations. *)
Ltac split_matches :=
  repeat (case_match; simplify_eq/=).

(** Turns the boolean tests of executable code into propositions. *)
Ltac bool_to_prop :=
  repeat match goal with
  | H : andb _ _ = true |- _ => apply andb_true_iff in H; destruct H
  | H : andb _ _ = false |- _ => apply andb_false_iff in H
  | H : orb _ _ = true |- _ => apply orb_true_iff in H
  | H : orb _ _ = false |- _ => apply orb_false_iff in H; destruct H
  | H : negb _ = true |- _ => apply negb_true_iff in H
  | H : negb _ = false |- _ => apply negb_false_iff in H
  | H : (_ <? _)%Z = true |- _ => apply Z.ltb_lt in H
  | H : (_ <? _)%Z = false |- _ => apply Z.ltb_ge in H
  | H : (_ <=? _)%Z = true |- _ => apply Z.leb_le in H
  | H : (_ <=? _)%Z = false |- _ => apply Z.leb_gt in H
  | H : (_ =? _)%Z = true |- _ => apply Z.eqb_eq in H
  | H : (_ =? _)%Z = false |- _ => apply Z.eqb_neq in H
  | H : bool_decide _ = true |- _ => apply bool_decide_eq_true in H
  | H : bool_decide _ = false |- _ => apply bool_decide_eq_false in H
  end.

Create HintDb bluetape.
Create Rewrite HintDb bluetape.

(** ** Lists *)

(** Number of elements of [l] that satisfy [p]. *)
Definition count {A} (p : A -> bool) (l : list A) : Z :=
  Z.of_nat (length (List.filter p l)).

Section Count.
Context {A : Type}.
Implicit Types (p q : A -> bool) (l : list A).

Lemma count_nil p : count p [] = 0%Z.
Proof. done. Qed.

Lemma count_cons p a l :
  count p (a :: l) = ((if p a then 1 else 0) + count p l)%Z.
Proof. unfold count; cbn. destruct (p a); cbn; lia. Qed.

Lemma count_app p l1 l2 : count p (l1 ++ l2) = (count p l1 + count p l2)%Z.
Proof. unfold count. rewrite List.filter_app, length_app. lia. Qed.

Lemma count_nonneg p l : (0 <= count p l)%Z.
Proof. unfold count. lia. Qed.

Lemma count_zero p l : Forall (fun a => p a = false) l -> count p l = 0%Z.
Proof. induction 1 as [|a l Ha _ IH]; [done|]. by rewrite count_cons, Ha, IH. Qed.

Lemma count_ext p q l : Forall (fun a => p a = q a) l -> count p l = count q l.
Proof.
  induction 1 as [|a l Ha _ IH]; [done|]. by rewrite !count_cons, Ha, IH.
Qed.

Lemma count_perm p l1 l2 : l1 ≡ₚ l2 -> count p l1 = count p l2.
Proof. induction 1; rewrite ?count_cons; lia. Qed.
End Count.

#[export] Hint Rewrite @count_nil @count_cons @count_app : bluetape.
#[export] Hint Resolve count_nonneg : bluetape.

(** ** Reachability *)

(** Rule induction on reachability: an invariant of the steps. *)
Lemma rtc_invariant {A} (R : relation A) (I : A -> Prop) x y :
  (forall a b, R a b -> I a -> I b) -> rtc R x y -> I x -> I y.
Proof. intros HR. induction 1; eauto. Qed.
