(* ===== verification/Python.v ===== *)
(** * Python: the values, floats, exceptions and effects the sources use

    Values that a caller or a callback supplies are dynamic ([pyval]); the
    validators of the packages inspect their class.  A [float] is an IEEE 754
    binary64 number ([spec_float] of the Standard Library, radix 2, precision
    53, exponent bound 1024), with its rounding, infinities and NaN.  A [str]
    is its list of code points; a [bytes] object is its list of bytes, from 0
    to 255.  A statement that reads or writes objects, calls a callback or
    raises is a computation of the monad [M W]: it maps the world [W] (every
    object the program can reach) to an outcome and a new world. *)

From Stdlib Require Import SpecFloat.
From S2P Require Import Prelude.

Declare Scope py_scope.
Delimit Scope py_scope with py.

(** ** Floats *)

Abbreviation float := spec_float.

Definition is_finite (f : float) : bool :=
  match f with S754_zero _ | S754_finite _ _ _ => true | _ => false end.

Definition f0 : float := S754_zero false.
Definition f1 : float := SFone 53 1024.
Definition finf : float := S754_infinity false.

Definition flt : float -> float -> bool := SFltb.
Definition fle : float -> float -> bool := SFleb.
Definition feq : float -> float -> bool := SFeqb.
Definition fadd : float -> float -> float := SFadd 53 1024.
Definition fsub : float -> float -> float := SFsub 53 1024.
Definition fmul : float -> float -> float := SFmul 53 1024.
Definition fdiv : float -> float -> float := SFdiv 53 1024.

(** [float(z)] for an [int]: rounds to nearest even; [None] is the
    [OverflowError] of a result that does not fit. *)
Definition float_of_int (z : Z) : option float :=
  let f := binary_normalize 53 1024 z 0 false in
  if is_finite f then Some f else None.

(** [min(a, b)] of two [float]s. *)
Definition fmin (a b : float) : float := if flt b a then b else a.

Lemma flt_irrefl (f : float) : flt f f = false.
Proof.
  unfold flt, SFltb. destruct f as [[]|[]| |[] m e]; try done; cbn;
    rewrite Z.compare_refl, Pos.compare_refl; done.
Qed.

(** ** Strings *)

Abbreviation pystr := (list Z).
Abbreviation pybytes := (list Z).

(** A [str] literal of ASCII characters. *)
Fixpoint py (s : string) : pystr :=
  match s with
  | EmptyString => []
  | String c s' => Z.of_N (Ascii.N_of_ascii c) :: py s'
  end.

(** [str.isspace] of one character: the whitespace of Unicode. *)
Definition is_space (c : Z) : bool :=
  ((9 <=? c) && (c <=? 13) || (28 <=? c) && (c <=? 32) || (c =? 133) || (c =? 160)
   || (c =? 5760) || (8192 <=? c) && (c <=? 8202) || (c =? 8232) || (c =? 8233)
   || (c =? 8239) || (c =? 8287) || (c =? 12288))%Z.

Fixpoint lstrip (s : pystr) : pystr :=
  match s with
  | c :: s' => if is_space c then lstrip s' else s
  | [] => []
  end.

Definition strip (s : pystr) : pystr := rev (lstrip (rev (lstrip s))).

(** ** Dynamic values *)

Inductive pyval : Type :=
| PyNone
| PyBool (b : bool)
| PyInt (z : Z)
| PyFloat (f : float)
| PyStr (s : pystr)
| PyBytes (b : pybytes)
| PyObject (n : Z).

(** [isinstance(value, bool)], [isinstance(value, int)] ([bool] is a subclass
    of [int]) and [isinstance(value, (int, float))]. *)
Definition is_bool (v : pyval) : bool :=
  match v with PyBool _ => true | _ => false end.

Definition is_int (v : pyval) : bool :=
  match v with PyBool _ | PyInt _ => true | _ => false end.

Definition is_int_or_float (v : pyval) : bool :=
  match v with PyBool _ | PyInt _ | PyFloat _ => true | _ => false end.

(** ** Exceptions *)

Inductive CircuitState : Type := CLOSED | OPEN | HALF_OPEN.

#[export] Instance CircuitState_eq_dec : EqDecision CircuitState.
Proof. solve_decision. Defined.

(** The codes the errors of [bluetape/cache/redis/_contracts.py] carry. *)
Module Envelope.
Inductive EnvelopeErrorCode : Type :=
| INVALID_INPUT | ENCODED_SIZE_LIMIT | MALFORMED_ENVELOPE | UNSUPPORTED_VERSION
| UNSUPPORTED_FORMAT | UNKNOWN_ALGORITHM | COMPRESSION_FAILURE | PAYLOAD_CODEC_FAILURE.

#[global] Instance EnvelopeErrorCode_eq_dec : EqDecision EnvelopeErrorCode.
Proof. solve_decision. Defined.
End Envelope.

Module Redis.
Inductive RedisOperation : Type :=
| CREATE | GET | SET | SET_IF_ABSENT | DELETE | DELETE_IF_VALUE | COORDINATION_SNAPSHOT
| PUBLISH_IF_VALUE | CLOSE.

Inductive RedisErrorCode : Type :=
| CLOSED | INVALID_INPUT | CONNECTION | TIMEOUT | PROVIDER_FAILURE | INVALID_RESPONSE.

#[global] Instance RedisOperation_eq_dec : EqDecision RedisOperation.
Proof. solve_decision. Defined.
#[global] Instance RedisErrorCode_eq_dec : EqDecision RedisErrorCode.
Proof. solve_decision. Defined.
End Redis.

Module Coordination.
Inductive RedisCoordinationErrorCode : Type :=
| ATTEMPTS_EXHAUSTED | POLLS_EXHAUSTED | DEADLINE_EXCEEDED | INVALID_ARTIFACT
| PROVIDER_FAILURE | ENVELOPE_FAILURE | LOADER_FAILURE.

#[global] Instance RedisCoordinationErrorCode_eq_dec : EqDecision RedisCoordinationErrorCode.
Proof. solve_decision. Defined.
End Coordination.

(** The classes of [bluetape/jwt/_errors.py], and those of [joserfc.errors] that
    its provider tells apart. *)
Module Jwt.
Inductive JWTErrorKind : Type :=
| Key | KeyState | KeyUnavailable | Token | MalformedToken | UnsupportedToken
| Signature | Expired | NotYetValid | Claim | Cache.

Inductive JoseErrorKind : Type := BadSignature | Decode | InvalidPayload | AnotherJose.

#[global] Instance JWTErrorKind_eq_dec : EqDecision JWTErrorKind.
Proof. solve_decision. Defined.
#[global] Instance JoseErrorKind_eq_dec : EqDecision JoseErrorKind.
Proof. solve_decision. Defined.
End Jwt.

(** The classes and codes of [bluetape/serde/_contracts.py], and the private
    exceptions of [bluetape/serde/_json.py]. *)
Module Serde.
Inductive SerdeErrorCode : Type :=
| INVALID_METADATA | FORMAT_MISMATCH | CONTENT_TYPE_MISMATCH | UNSUPPORTED_VERSION
| TRUST_PROFILE_MISMATCH | INPUT_LIMIT | OUTPUT_LIMIT | NESTING_LIMIT | INTEGER_DIGIT_LIMIT
| INVALID_UTF8 | DUPLICATE_KEY | DECODE_NON_FINITE_NUMBER | INVALID_JSON | UNSUPPORTED_VALUE
| CIRCULAR_REFERENCE | ENCODE_NON_FINITE_NUMBER | ENCODE_RECURSION | SCHEMA_MISMATCH
| TYPE_MISMATCH | FORY_REGISTRATION | INVALID_FORY | FORY_ENCODE | FORY_CONCURRENCY_LIMIT.

Inductive SerdeErrorKind : Type :=
| FormatMismatch | ContentTypeMismatch | UnsupportedVersion | TrustProfileMismatch
| PayloadLimit | MalformedPayload | SerdeEncode.

Inductive JsonSignal : Type :=
| DuplicateKey | NonFiniteNumber | NestingLimit | IntegerDigitLimit | UnpairedSurrogate.

#[global] Instance SerdeErrorCode_eq_dec : EqDecision SerdeErrorCode.
Proof. solve_decision. Defined.
#[global] Instance SerdeErrorKind_eq_dec : EqDecision SerdeErrorKind.
Proof. solve_decision. Defined.
#[global] Instance JsonSignal_eq_dec : EqDecision JsonSignal.
Proof. solve_decision. Defined.
End Serde.

(** The classes of [bluetape/money/_errors.py], [bluetape/measure/_errors.py] and
    [bluetape/audit/_errors.py]. *)
Module Money.
Inductive MoneyErrorKind : Type := InvalidCurrency | InvalidAmount | CurrencyMismatch | InvalidExchangeRate.

#[global] Instance MoneyErrorKind_eq_dec : EqDecision MoneyErrorKind.
Proof. solve_decision. Defined.
End Money.

Module Measure.
Inductive MeasureErrorKind : Type := InvalidUnit | InvalidMeasure | IncompatibleUnit.

#[global] Instance MeasureErrorKind_eq_dec : EqDecision MeasureErrorKind.
Proof. solve_decision. Defined.
End Measure.

Module Audit.
Inductive AuditErrorKind : Type := InvalidIdentity | InvalidPayload | InvalidEvent | InvalidLimits.

#[global] Instance AuditErrorKind_eq_dec : EqDecision AuditErrorKind.
Proof. solve_decision. Defined.
End Audit.

(** The exceptions the sources raise, catch or let through.  [UserException]
    and [UserBaseException] stand for any other exception of a caller's code
    below [Exception] and outside it.  [FuelExhausted] is no exception of
    Python: a loop of the model that ran out of fuel ends with it. *)
Inductive exn : Type :=
| CancelledError
| KeyboardInterrupt
| SystemExit
| GeneratorExit
| UserBaseException (n : Z)
| UserException (n : Z)
| TypeError (message : string)
| ValueError (message : string)
| RuntimeError (message : string)
| AssertionError
| OverflowError
| KeyError
| AttributeError
| TimeoutError
| SyncResultContractError
| RetryExhaustedError (name : pystr) (attempts : Z) (cause : exn)
| PolicyTimeoutError (name : pystr) (timeout : float)
| CircuitOpenError (name : pystr) (state : CircuitState)
| BulkheadRejectedError (name : pystr)
| RecursiveLoadError
| CacheLoadLimitError
| LeaderBackendError
| LeaderLeaseLostError
| LeaderReleaseError
| InvalidLeaderOptionsError
| InvalidLockNameError
| LeaderExecutionError (action_cause lifecycle_cause : exn)
| RedisConnectionError
| RedisTimeoutError
| RedisResponseError
| NoScriptError
| UnicodeError
| StructError
| InvalidIDError (message : string)
| IDOverflowError (message : string)
| CodecError (message : string)
| InvalidMetadataError
| EnvelopeSizeError (code : Envelope.EnvelopeErrorCode)
| EnvelopeEncodeError (code : Envelope.EnvelopeErrorCode)
| EnvelopeDecodeError (code : Envelope.EnvelopeErrorCode)
| RedisProviderError (operation : Redis.RedisOperation) (code : Redis.RedisErrorCode)
| ProviderClosedError (operation : Redis.RedisOperation)
| RedisCoordinationError (code : Coordination.RedisCoordinationErrorCode)
| RedisCoordinationTimeoutError (code : Coordination.RedisCoordinationErrorCode)
| JWTError (kind : Jwt.JWTErrorKind)
| JWTConfigurationError
| JWTIssuancePolicyError
| JoseError (kind : Jwt.JoseErrorKind)
| JSONDecodeError
| RecursionError
| SerdeError (kind : Serde.SerdeErrorKind) (code : Serde.SerdeErrorCode)
| JsonSignalError (signal : Serde.JsonSignal)
| ZeroDivisionError
| DecimalException
| MoneyError (kind : Money.MoneyErrorKind)
| MeasureError (kind : Measure.MeasureErrorKind)
| AuditError (kind : Audit.AuditErrorKind)
| AuditLimitExceededError (field_category limit_name : string)
| FieldNotPreserved (category : string)
| InvocationCancelledError
| FuelExhausted.

#[export] Instance float_eq_dec : EqDecision float.
Proof. solve_decision. Defined.

#[export] Instance pyval_eq_dec : EqDecision pyval.
Proof. solve_decision. Defined.

#[export] Instance exn_eq_dec : EqDecision exn.
Proof.
  unfold EqDecision, Decision. fix go 1.
  decide equality; solve [apply go | match goal with |- {?x = ?y} + {_} => apply (decide (x = y)) end].
Defined.

(** [isinstance(e, Exception)]. *)
Definition is_Exception (e : exn) : bool :=
  match e with
  | CancelledError | KeyboardInterrupt | SystemExit | GeneratorExit
  | UserBaseException _ | FuelExhausted => false
  | _ => true
  end.

(** [isinstance(e, (TypeError, ValueError))]. *)
Definition is_TypeError_or_ValueError (e : exn) : bool :=
  match e with
  | TypeError _ | SyncResultContractError | ValueError _ | UnicodeError
  | InvalidLeaderOptionsError | InvalidLockNameError | InvalidIDError _ | IDOverflowError _
  | CodecError _ | InvalidMetadataError | EnvelopeSizeError _ | EnvelopeEncodeError _
  | EnvelopeDecodeError _ | JSONDecodeError | SerdeError _ _ | JsonSignalError _
  | JWTConfigurationError
  | JWTIssuancePolicyError
  | MoneyError _ | MeasureError _ | AuditError _ | AuditLimitExceededError _ _ => true
  | _ => false
  end.

(** [isinstance(e, ValueError)]. *)
Definition is_ValueError (e : exn) : bool :=
  is_TypeError_or_ValueError e &&
  match e with TypeError _ | SyncResultContractError => false | _ => true end.

(** [isinstance(e, JWTError)]. *)
Definition is_JWTError (e : exn) : bool :=
  match e with JWTError _ | JWTConfigurationError | JWTIssuancePolicyError => true | _ => false end.

(** [isinstance(e, EnvelopeError)]. *)
Definition is_EnvelopeError (e : exn) : bool :=
  match e with
  | EnvelopeSizeError _ | EnvelopeEncodeError _ | EnvelopeDecodeError _ => true
  | _ => false
  end.

(** [isinstance(e, TimeoutError)]: the built-in class, its subclass
    [PolicyTimeoutError]; the class of redis-py derives from [RedisError]. *)
Definition is_TimeoutError (e : exn) : bool :=
  match e with TimeoutError | PolicyTimeoutError _ _ => true | _ => false end.

(** ** Computations *)

Inductive outcome (A : Type) : Type :=
| Returned (a : A)
| Raised (e : exn).
Arguments Returned {A} a.
Arguments Raised {A} e.

(** [n / d] of two [int]s, [d] positive: the nearest [float]. *)
Definition true_divide (n d : Z) : float :=
  match n with
  | Z0 => f0
  | Zpos p => fdiv (S754_finite false p 0) (S754_finite false (Z.to_pos d) 0)
  | Zneg p => fdiv (S754_finite true p 0) (S754_finite false (Z.to_pos d) 0)
  end.

(** [timedelta.total_seconds], of microseconds. *)
Definition total_seconds (d : Z) : float := true_divide d 1000000%Z.

(** [int(f)] of a [float]: cut towards zero. *)
Definition int_of_float (f : float) : outcome Z :=
  match f with
  | S754_zero _ => Returned 0%Z
  | S754_finite sign m e =>
      let magnitude := (if 0 <=? e then Z.pos m * 2 ^ e else Z.pos m / 2 ^ (- e))%Z in
      Returned (if sign then - magnitude else magnitude)%Z
  | S754_infinity _ => Raised OverflowError
  | S754_nan => Raised (ValueError "cannot convert float NaN to integer")
  end.

(** [float(value)] of an [int] or a [float]. *)
Definition to_float (value : pyval) : outcome float :=
  match value with
  | PyInt z => match float_of_int z with Some f => Returned f | None => Raised OverflowError end
  | PyFloat f => Returned f
  | _ => Raised (TypeError "float() argument must be a string or a real number")
  end.

Definition M (W A : Type) : Type := W -> outcome A * W.

Section Computations.
Context {W : Type}.

Definition ret {A} (a : A) : M W A := fun w => (Returned a, w).

Definition raise {A} (e : exn) : M W A := fun w => (Raised e, w).

Definition bind {A B} (m : M W A) (k : A -> M W B) : M W B := fun w =>
  match m w with
  | (Returned a, w') => k a w'
  | (Raised e, w') => (Raised e, w')
  end.

(** [try: m except ...]: [handle] answers [None] when no clause names the
    exception.  No clause sees [FuelExhausted]. *)
Definition try_except {A} (m : M W A) (handle : exn -> option (M W A)) : M W A :=
  fun w =>
    match m w with
    | (Returned a, w') => (Returned a, w')
    | (Raised FuelExhausted, w') => (Raised FuelExhausted, w')
    | (Raised e, w') =>
        match handle e with
        | Some h => h w'
        | None => (Raised e, w')
        end
    end.

(** [try: m finally: f]: an exception of [f] replaces the outcome of [m]. *)
Definition try_finally {A} (m : M W A) (f : M W unit) : M W A := fun w =>
  match m w with
  | (Raised FuelExhausted, w') => (Raised FuelExhausted, w')
  | (r, w') =>
      match f w' with
      | (Returned _, w'') => (r, w'')
      | (Raised e, w'') => (Raised e, w'')
      end
  end.

(** [try: result = loader(key) except BaseException as caught: error = caught]. *)
Definition capture {A} (m : M W A) : M W (outcome A) := fun w =>
  match m w with
  | (Raised FuelExhausted, w') => (Raised FuelExhausted, w')
  | (r, w') => (Returned r, w')
  end.

(** [if c: raise e]. *)
Definition raise_if (c : bool) (e : exn) : M W unit :=
  if c then raise e else ret tt.
End Computations.

Notation "x <- m ;; k" := (bind m (fun x => k))
  (at level 100, m at next level, right associativity) : py_scope.
Notation "'let*' p := m 'in' k" := (bind m (fun x => match x with p => k end))
  (at level 10, p pattern, m at level 100, k at level 200) : py_scope.
Notation "m ;; k" := (bind m (fun _ => k))
  (at level 100, right associativity) : py_scope.

(** An object's state inside the world. *)
Record lens (W S : Type) := Lens {
  lget : W -> S;
  lput : S -> W -> W;
}.
Arguments lget {W S} l w.
Arguments lput {W S} l s w.

Class LensLaws {W S} (l : lens W S) : Prop := {
  lget_lput s w : lget l (lput l s w) = s;
  lput_lget w : lput l (lget l w) w = w;
  lput_lput s s' w : lput l s (lput l s' w) = lput l s w;
}.

(** A part [g] of the world, or of a history kept beside it, that writing the
    object leaves as it is. *)
Class Framed {W S G} (l : lens W S) (g : W -> G) : Prop := framed s w : g (lput l s w) = g w.

#[export] Instance framed_constant {W S G} (l : lens W S) (x : G) : Framed l (fun _ => x).
Proof. by intros s w. Qed.

(** A critical section: reads and replaces the state of one object in one
    step, as code under that object's lock does. *)
Definition locked {W S A} (l : lens W S) (f : S -> A * S) : M W A := fun w =>
  let '(a, s) := f (lget l w) in (Returned a, lput l s w).

(** The whole world as one object. *)
Definition id_lens {W} : lens W W := Lens W W (fun w => w) (fun s _ => s).

#[export] Instance id_lens_laws {W} : LensLaws (@id_lens W).
Proof. by constructor. Qed.

(** ** Hoare triples over outcomes *)

Definition triple {W A} (P : W -> Prop) (m : M W A) (Q : outcome A -> W -> Prop) : Prop :=
  forall w, P w -> Q (fst (m w)) (snd (m w)).

(** [I] holds at the end, unless a loop of the model ran out of fuel. *)
Definition settled {W A} (I : W -> Prop) (r : outcome A) (w : W) : Prop :=
  r = Raised FuelExhausted \/ I w.

(** As [settled], of a computation that never returns. *)
Definition raised {W A} (I : W -> Prop) (r : outcome A) (w : W) : Prop :=
  match r with Returned _ => False | Raised _ => settled I r w end.

(** [m] keeps [I], whatever its outcome. *)
Definition keeps {W A} (I : W -> Prop) (m : M W A) : Prop := triple I m (settled I).

Section Triples.
Context {W : Type}.
Implicit Types (P I : W -> Prop).

Lemma triple_conseq {A} P P' (m : M W A) (Q Q' : outcome A -> W -> Prop) :
  triple P' m Q' -> (forall w, P w -> P' w) -> (forall r w, Q' r w -> Q r w) ->
  triple P m Q.
Proof. intros H HP HQ w Hw. by apply HQ, H, HP. Qed.

Lemma triple_pure {A} P (m : M W A) Q (φ : Prop) :
  (φ -> triple P m Q) -> triple (fun w => φ /\ P w) m Q.
Proof. intros H w [Hφ Hw]. by apply H. Qed.

Lemma triple_ret {A} P (a : A) Q : (forall w, P w -> Q (Returned a) w) -> triple P (ret a) Q.
Proof. intros H w Hw. by apply H. Qed.

Lemma triple_raise {A} P e (Q : outcome A -> W -> Prop) :
  (forall w, P w -> Q (Raised e) w) -> triple P (raise e) Q.
Proof. intros H w Hw. by apply H. Qed.

Lemma triple_bind {A B} P (R : A -> W -> Prop) (m : M W A) (k : A -> M W B) Q :
  triple P m (fun r w => match r with Returned a => R a w | Raised e => Q (Raised e) w end) ->
  (forall a, triple (R a) (k a) Q) -> triple P (bind m k) Q.
Proof.
  intros Hm Hk w Hw. unfold bind. specialize (Hm w Hw).
  destruct (m w) as [[a|e] w']; cbn in *; [by apply Hk|done].
Qed.

(** Exceptions that a handler takes satisfy [E]; the others end the statement. *)
Lemma triple_try_except {A} P (E : exn -> W -> Prop) (m : M W A) handle Q :
  triple P m (fun r w => match r with Returned a => Q (Returned a) w | Raised e => E e w end) ->
  (forall e h, e <> FuelExhausted -> handle e = Some h -> triple (E e) h Q) ->
  (forall e w, handle e = None \/ e = FuelExhausted -> E e w -> Q (Raised e) w) ->
  triple P (try_except m handle) Q.
Proof.
  intros Hm Hh Hn w Hw. unfold try_except. specialize (Hm w Hw).
  destruct (m w) as [[a|e] w']; cbn in *; [done|].
  assert (forall h, handle e = Some h -> e <> FuelExhausted ->
            Q (fst (h w')) (snd (h w'))) as Hrun by (intros; by eapply Hh).
  assert (handle e = None \/ e = FuelExhausted -> Q (Raised e) w') as Hpass by auto.
  destruct e, (handle _); cbn; auto; by apply Hrun.
Qed.

Lemma triple_locked {S A} P (l : lens W S) (f : S -> A * S) Q :
  (forall w, P w ->
     Q (Returned (fst (f (lget l w)))) (lput l (snd (f (lget l w))) w)) ->
  triple P (locked l f) Q.
Proof.
  intros H w Hw. specialize (H w Hw). unfold locked.
  by destruct (f (lget l w)).
Qed.

Lemma triple_try_finally {A} P (m : M W A) f Q (R : outcome A -> W -> Prop) :
  triple P m (fun r w => (r = Raised FuelExhausted -> Q r w) /\
                         (r <> Raised FuelExhausted -> R r w)) ->
  (forall r, triple (R r) f (fun r' w =>
     match r' with Returned _ => Q r w | Raised e => Q (Raised e) w end)) ->
  triple P (try_finally m f) Q.
Proof.
  intros Hm Hf w Hw. unfold try_finally. specialize (Hm w Hw).
  destruct (m w) as [r w']; cbn in *. destruct Hm as [Hq Hr].
  assert (r = Raised FuelExhausted \/ r <> Raised FuelExhausted) as [->|Hne]
    by (destruct r as [|[]]; auto); [by apply Hq|].
  specialize (Hf r w' (Hr Hne)).
  destruct (f w') as [[[]|e'] w''], r as [a|[]]; cbn in *; done.
Qed.

Lemma settled_intro {A} I (r : outcome A) w : I w -> settled I r w.
Proof. by right. Qed.

Lemma settled_returned {A} I (a : A) w : settled I (Returned a) w -> I w.
Proof. by intros [|]. Qed.

Lemma keeps_ret {A} I (a : A) : keeps I (ret a).
Proof. intros w Hw. by right. Qed.

Lemma keeps_raise {A} I e : keeps I (@raise W A e).
Proof. intros w Hw. by right. Qed.

Lemma keeps_raise_if I c e : keeps I (raise_if c e).
Proof. intros w Hw. destruct c; by right. Qed.

(** A statement that keeps [I], before one that starts from [I]. *)
Lemma triple_keeps_bind {A B} I (m : M W A) (k : A -> M W B) (Q : outcome B -> W -> Prop) :
  keeps I m -> (forall e w, settled I (@Raised A e) w -> Q (Raised e) w) ->
  (forall a, triple I (k a) Q) -> triple I (bind m k) Q.
Proof.
  intros Hm He Hk. apply triple_bind with (R := fun _ => I); [|done].
  eapply triple_conseq; [apply Hm|done|].
  intros [a|e] w; [apply settled_returned|apply He].
Qed.

Lemma settled_raised {A B} I e w : settled I (@Raised A e) w -> settled I (@Raised B e) w.
Proof. intros [[= ->]|]; [by left|by right]. Qed.

Lemma keeps_bind {A B} I (m : M W A) (k : A -> M W B) :
  keeps I m -> (forall a, keeps I (k a)) -> keeps I (bind m k).
Proof. intros Hm Hk. apply triple_keeps_bind; eauto using settled_raised. Qed.

Lemma keeps_try_except {A} I (m : M W A) handle :
  keeps I m -> (forall e h, handle e = Some h -> keeps I h) -> keeps I (try_except m handle).
Proof.
  intros Hm Hh w Hw. unfold try_except. specialize (Hm w Hw).
  destruct (m w) as [[a|e] w']; cbn in *; [done|].
  destruct (decide (e = FuelExhausted)) as [->|Hne]; [done|].
  destruct Hm as [[= ->]|Hm]; [done|].
  assert (settled I (fst (match handle e with Some h => h w' | None => (Raised e, w') end))
            (snd (match handle e with Some h => h w' | None => (Raised e, w') end))) as Hres.
  { destruct (handle e) as [h|] eqn:E; [by eapply Hh|by right]. }
  by destruct e.
Qed.

Lemma keeps_try_finally {A} I (m : M W A) f :
  keeps I m -> keeps I f -> keeps I (try_finally m f).
Proof.
  intros Hm Hf. apply triple_try_finally with (R := fun _ => I).
  - eapply triple_conseq; [apply Hm|done|]. intros r w [->|H]; split; try done.
    + by left.
    + by right.
  - intros r. eapply triple_conseq; [apply Hf|done|].
    intros [[]|e] w Hs; [right; by apply settled_returned in Hs|by eapply settled_raised].
Qed.
End Triples.

#[export] Hint Resolve keeps_ret keeps_raise keeps_raise_if keeps_bind keeps_try_except
  keeps_try_finally : bluetape.

(** Outcomes of a computation that only raises when it must. *)
Lemma bind_returned {W A B} (m : M W A) (k : A -> M W B) w a w' :
  m w = (Returned a, w') -> bind m k w = k a w'.
Proof. unfold bind. by intros ->. Qed.

Lemma bind_raised {W A B} (m : M W A) (k : A -> M W B) w e w' :
  m w = (Raised e, w') -> bind m k w = (Raised e, w').
Proof. unfold bind. by intros ->. Qed.

(** A computation that neither reads nor changes the world. *)
Definition pure_outcome {W A} (r : outcome A) : M W A := fun w => (r, w).

Lemma keeps_pure_outcome {W A} (I : W -> Prop) (r : outcome A) : keeps I (pure_outcome r).
Proof. intros w Hw. by right. Qed.
#[export] Hint Resolve keeps_pure_outcome : bluetape.

(** ** Computations that move the world along a preorder

    [respects R m]: whatever its outcome, [m] leaves a world that [R] relates to
    the one it started from. *)
Definition respects {W A} (R : relation W) (m : M W A) : Prop := forall w, R w (snd (m w)).

Section Respects.
Context {W : Type} (R : relation W) `{!PreOrder R}.

Lemma respects_ret {A} (a : A) : respects R (ret a).
Proof. intros w. cbn. reflexivity. Qed.

Lemma respects_raise {A} e : respects R (@raise W A e).
Proof. intros w. cbn. reflexivity. Qed.

Lemma respects_raise_if c e : respects R (raise_if c e).
Proof. destruct c; intros w; cbn; reflexivity. Qed.

Lemma respects_pure_outcome {A} (r : outcome A) : respects R (pure_outcome r).
Proof. intros w. cbn. reflexivity. Qed.

Lemma respects_bind {A B} (m : M W A) (k : A -> M W B) :
  respects R m -> (forall a, respects R (k a)) -> respects R (bind m k).
Proof.
  intros Hm Hk w. unfold bind. specialize (Hm w). destruct (m w) as [[a|e] w']; cbn in *; [|done].
  etrans; [exact Hm|apply Hk].
Qed.

Lemma respects_try_except {A} (m : M W A) handle :
  respects R m -> (forall e h, handle e = Some h -> respects R h) ->
  respects R (try_except m handle).
Proof.
  intros Hm Hh w. unfold try_except. specialize (Hm w). destruct (m w) as [[a|e] w']; cbn in *; [done|].
  assert (R w (snd (match handle e with Some h => h w' | None => (Raised e, w') end))) as Hd.
  { destruct (handle e) as [h|] eqn:E; [|done]. etrans; [exact Hm|by eapply Hh]. }
  by destruct e.
Qed.

Lemma respects_capture {A} (m : M W A) : respects R m -> respects R (capture m).
Proof. intros Hm w. specialize (Hm w). unfold capture. by destruct (m w) as [[|[]] w']. Qed.

Lemma respects_try_finally {A} (m : M W A) f :
  respects R m -> respects R f -> respects R (try_finally m f).
Proof.
  intros Hm Hf w. specialize (Hm w). unfold try_finally.
  destruct (m w) as [r w1]; cbn in *. specialize (Hf w1).
  destruct r as [a|[]]; try done; destruct (f w1) as [[|] w2]; cbn in *; by etrans.
Qed.
End Respects.

#[export] Hint Resolve respects_ret respects_raise respects_raise_if respects_pure_outcome
  respects_bind respects_try_except respects_capture respects_try_finally : bluetape.

(** ** Outcomes in sequence *)

Definition obind {A B} (r : outcome A) (k : A -> outcome B) : outcome B :=
  match r with Returned a => k a | Raised e => Raised e end.

Notation "'let?' p := r 'in' k" := (obind r (fun x => match x with p => k end))
  (at level 10, p pattern, r at level 100, k at level 200) : py_scope.

Definition orequire (c : bool) (e : exn) : outcome unit := if c then Returned tt else Raised e.

(** [try: ... except <the encoding's error>: raise e]. *)
Definition oget {A} (x : option A) (e : exn) : outcome A :=
  match x with Some a => Returned a | None => Raised e end.

Lemma obind_returned {A B} (r : outcome A) (k : A -> outcome B) b :
  obind r k = Returned b <-> exists a, r = Returned a /\ k a = Returned b.
Proof. destruct r as [a|e]; cbn; split; try done; [eauto|by intros (? & [= <-] & ?)|by intros (? & ? & _)]. Qed.

Lemma obind_raised {A B} (r : outcome A) (k : A -> outcome B) e :
  obind r k = Raised e -> r = Raised e \/ exists a, r = Returned a /\ k a = Raised e.
Proof. destruct r as [a|e']; cbn; [eauto|]. intros [= ->]. by left. Qed.

Lemma orequire_returned c e u : orequire c e = Returned u <-> c = true.
Proof. unfold orequire. destruct c, u; by split. Qed.

Lemma oget_returned {A} (x : option A) e a : oget x e = Returned a <-> x = Some a.
Proof. destruct x; cbn; split; congruence. Qed.

Lemma obind_assoc {A B C} (r : outcome A) (f : A -> outcome B) (g : B -> outcome C) :
  obind (obind r f) g = obind r (fun a => obind (f a) g).
Proof. by destruct r. Qed.

Lemma obind_ext {A B} (r : outcome A) (f g : A -> outcome B) :
  (forall a, r = Returned a -> f a = g a) -> obind r f = obind r g.
Proof. destruct r; cbn; auto. Qed.

(** Statements in sequence raise what one of them raises. *)
Lemma obind_closed {A B} (ok : exn -> bool) (r : outcome A) (k : A -> outcome B) :
  (forall e, r = Raised e -> ok e = true) -> (forall a e, k a = Raised e -> ok e = true) ->
  forall e, obind r k = Raised e -> ok e = true.
Proof. intros Hr Hk e [H1|(a & _ & H1)]%obind_raised; eauto. Qed.

Lemma orequire_raised c e0 e : orequire c e0 = Raised e -> e = e0.
Proof. by destruct c; [|intros [= <-]]. Qed.

Lemma oget_raised {A} (x : option A) e0 e : oget x e0 = Raised e -> e = e0.
Proof. by destruct x; [|intros [= <-]]. Qed.
