(* ===== verification/BoundedMap.v ===== *)
(** * Bounded concurrent map ([bluetape/asyncio/__init__.py])

    [map_bounded] and its workers as a state with one executable function per
    stretch of a worker between two suspensions, and a step relation that lets the
    workers, cancellations of them and of the owner, and the deadline come in any
    order.  Every interleaving starts at most [limit] mapper calls at a time, and
    what it returns is the mapped items in order. *)

From S2P Require Import Prelude Python.
Open Scope Z_scope.
Open Scope py_scope.

(** ** Arguments *)

Definition MAX_LIMIT : Z := 1024.

Definition require_limit (limit : pyval) : outcome Z :=
  match limit with
  | PyInt z =>
      if z <=? 0 then Raised (ValueError "limit must be greater than 0")
      else if MAX_LIMIT <? z then Raised (ValueError "limit must be less than or equal to 1024")
      else Returned z
  | _ => Raised (TypeError "limit must be an integer")
  end.

(** Whether there is a deadline. *)
Definition require_timeout (timeout : pyval) : outcome bool :=
  match timeout with
  | PyNone => Returned false
  | PyInt z =>
      if z <? 0 then Raised (ValueError "timeout must be a finite non-negative number")
      else let? _ := oget (float_of_int z) OverflowError in Returned true
  | PyFloat f =>
      if flt f f0 || negb (is_finite f) then Raised (ValueError "timeout must be a finite non-negative number")
      else Returned true
  | _ => Raised (TypeError "timeout must be a finite non-negative number")
  end.

Section BoundedMap.
Context {T R : Type}.

(** ** State *)

Inductive phase : Type :=
(** At the top of the loop. *)
| Looping
(** Awaiting the mapper's answer for the item with this index. *)
| Mapping (index : nat) (item : T)
(** The task returned, raised an error, or ended cancelled. *)
| Finished
| Failed (e : exn)
| Stopped.

Record worker : Type := { w_phase : phase; w_cancelling : bool }.

Record state : Type := {
  (** What [next] on the iterator will give. *)
  st_source : list (outcome T);
  st_results : list (option R);
  st_terminal : bool;
  (** [owner.cancelling() > owner_cancellation_baseline]: by others and by the deadline. *)
  st_cancelled : bool;
  st_expired : bool;
  st_workers : list worker;
  (** The errors of tasks, as they came. *)
  st_failures : list exn;
}.

Definition owner_cancelled (s : state) : bool := st_cancelled s || st_expired s.

Definition set_phase (i : nat) (p : phase) (s : state) : state :=
  {| st_source := st_source s; st_results := st_results s; st_terminal := st_terminal s; st_cancelled := st_cancelled s;
     st_expired := st_expired s;
     st_workers := alter (fun w => {| w_phase := p; w_cancelling := w_cancelling w |}) i (st_workers s);
     st_failures := st_failures s |}.

(** The task group hears of a task's error; the invocation is terminal by then. *)
Definition add_failure (e : exn) (s : state) : state :=
  {| st_source := st_source s; st_results := st_results s; st_terminal := true; st_cancelled := st_cancelled s;
     st_expired := st_expired s; st_workers := st_workers s; st_failures := st_failures s ++ [e] |}.

Definition cancel_worker (i : nat) (s : state) : state :=
  {| st_source := st_source s; st_results := st_results s; st_terminal := st_terminal s; st_cancelled := st_cancelled s;
     st_expired := st_expired s;
     st_workers := alter (fun w => {| w_phase := w_phase w; w_cancelling := true |}) i (st_workers s);
     st_failures := st_failures s |}.

Definition cancel_owner (s : state) : state :=
  {| st_source := st_source s; st_results := st_results s; st_terminal := st_terminal s; st_cancelled := true;
     st_expired := st_expired s; st_workers := st_workers s; st_failures := st_failures s |}.

Definition expire (s : state) : state :=
  {| st_source := st_source s; st_results := st_results s; st_terminal := st_terminal s; st_cancelled := st_cancelled s;
     st_expired := true; st_workers := st_workers s; st_failures := st_failures s |}.

(** [next(iterator)] has given what was first. *)
Definition drop_source (s : state) : state :=
  {| st_source := tail (st_source s); st_results := st_results s; st_terminal := st_terminal s; st_cancelled := st_cancelled s;
     st_expired := st_expired s; st_workers := st_workers s; st_failures := st_failures s |}.

Definition set_results (results : list (option R)) (s : state) : state :=
  {| st_source := st_source s; st_results := results; st_terminal := st_terminal s; st_cancelled := st_cancelled s;
     st_expired := st_expired s; st_workers := st_workers s; st_failures := st_failures s |}.

Definition worker_cancelling (i : nat) (s : state) : bool :=
  match st_workers s !! i with Some w => w_cancelling w | None => false end.

(** ** Workers *)

(** The task ends with an exception; every one but a cancellation of the owner
    makes the invocation terminal first. *)
Definition fail (i : nat) (e : exn) (s : state) : state :=
  match e with
  | CancelledError =>
      if owner_cancelled s then set_phase i Stopped s else set_phase i (Failed InvocationCancelledError) (add_failure InvocationCancelledError s)
  | _ => set_phase i (Failed e) (add_failure e s)
  end.

(** [_raise_if_worker_cancelled], then the rest. *)
Definition unless_cancelled (i : nat) (s : state) (rest : state -> state) : state :=
  if worker_cancelling i s then fail i CancelledError s else rest s.

(** From the top of the loop to the mapper call or the end of the task.  Code that
    [next] runs may cancel the owner or the worker. *)
Definition loop_section (i : nat) (owner self : bool) (s : state) : state :=
  if st_terminal s then set_phase i Finished s
  else
    let next := head (st_source s) in
    let s := drop_source s in
    let s := if owner then cancel_owner s else s in
    let s := if self then cancel_worker i s else s in
    match next with
    | None => unless_cancelled i s (set_phase i Finished)
    | Some (Raised e) => fail i e s
    | Some (Returned item) =>
        unless_cancelled i s (fun s =>
          let index := length (st_results s) in
          set_phase i (Mapping index item) (set_results (st_results s ++ [None]) s))
    end.

(** The mapper has answered: [_invoke_mapper], and the result is stored. *)
Definition resume_section (i index : nat) (answer : outcome R) (s : state) : state :=
  match answer with
  | Returned r => unless_cancelled i s (fun s => set_phase i Looping (set_results (<[index := Some r]> (st_results s)) s))
  | Raised e => fail i e s
  end.

(** ** The invocation *)

(** The state after [limit] workers were created. *)
Definition start (limit : Z) (source : list (outcome T)) : state :=
  {| st_source := source; st_results := []; st_terminal := false; st_cancelled := false; st_expired := false;
     st_workers := repeat {| w_phase := Looping; w_cancelling := false |} (Z.to_nat limit);
     st_failures := [] |}.

Definition settled_phase (p : phase) : bool := match p with Looping | Mapping _ _ => false | _ => true end.
Definition all_settled (s : state) : bool := forallb (fun w => settled_phase (w_phase w)) (st_workers s).

(** The errors a task group passes on as they are. *)
Definition is_base_error (e : exn) : bool := match e with KeyboardInterrupt | SystemExit => true | _ => false end.

Inductive result : Type :=
| MapReturned (results : list (option R))
| MapRaised (e : exn)
| MapGroup (es : list exn)
(** The group of a cancellation and of the group of the other errors. *)
| MapCancelledGroup (es : list exn).

(** The end of the task group, of the deadline's scope and of [except*], once every
    task is done. *)
Definition finish (s : state) : result :=
  match st_failures s, List.find is_base_error (st_failures s) with
  | [], _ =>
      if st_cancelled s then MapRaised CancelledError
      else if st_expired s then MapRaised TimeoutError
      else MapReturned (st_results s)
  | _, Some e => MapRaised e
  | errors, None =>
      let others := filter (fun e => e <> InvocationCancelledError) errors in
      if decide (InvocationCancelledError ∈ errors) then
        match others with [] => MapRaised CancelledError | _ => MapCancelledGroup others end
      else MapGroup others
  end.

(** [map_bounded] up to the creation of the workers.  [iter(items)] gives the
    iterator or raises, and its code may cancel the owner. *)
Definition map_bounded (limit : pyval) (mapper_callable : bool) (timeout : pyval) (in_task : bool)
    (iterator : outcome (list (outcome T))) (cancelled : bool) : outcome state :=
  let? limit := require_limit limit in
  let? _ := orequire mapper_callable (TypeError "mapper must be callable") in
  let? _ := require_timeout timeout in
  let? _ := orequire in_task (RuntimeError "map_bounded requires an active asyncio task") in
  let? source := iterator in
  let? _ := orequire (negb cancelled) CancelledError in
  Returned (start limit source).

(** ** Interleavings *)

(** The answers the mapper may give for an item. *)
Variable maps : T -> R -> Prop.

Inductive step : state -> state -> Prop :=
| step_loop i owner self s w :
    st_workers s !! i = Some w -> w_phase w = Looping -> step s (loop_section i owner self s)
| step_resume i index item answer s w :
    st_workers s !! i = Some w -> w_phase w = Mapping index item ->
    (forall r, answer = Returned r -> maps item r) -> step s (resume_section i index answer s)
| step_cancel_worker i s : step s (cancel_worker i s)
| step_cancel_owner s : step s (cancel_owner s)
| step_expire s : step s (expire s).

(** ** Invariants *)

Section Invariants.
Variable source0 : list (outcome T).
Variable limit : nat.

(** Neither ended by an error nor cancelled. *)
Definition clean (s : state) : Prop := st_terminal s = false /\ owner_cancelled s = false.

(** What holds in every reachable state, with the items whose mapping was started. *)
Record consistent (s : state) (started : list T) : Prop := {
  co_workers : length (st_workers s) = limit;
  co_started : length started = length (st_results s);
  co_mapping i w index item : st_workers s !! i = Some w -> w_phase w = Mapping index item ->
    started !! index = Some item /\ st_results s !! index = Some None;
  co_distinct i j w w' index item item' : st_workers s !! i = Some w -> st_workers s !! j = Some w' ->
    w_phase w = Mapping index item -> w_phase w' = Mapping index item' -> i = j;
  co_results index r : st_results s !! index = Some (Some r) -> exists item, started !! index = Some item /\ maps item r;
  co_terminal : st_terminal s = true -> st_failures s <> [];
  co_stopped i w : st_workers s !! i = Some w -> w_phase w = Stopped -> owner_cancelled s = true;
}.

(** What holds besides as long as nothing has gone wrong. *)
Record undisturbed (s : state) (started : list T) : Prop := {
  un_source : source0 = (Returned <$> started) ++ st_source s;
  un_open index : st_results s !! index = Some None -> exists i w item, st_workers s !! i = Some w /\ w_phase w = Mapping index item;
  un_worker i w : st_workers s !! i = Some w ->
    match w_phase w with Finished => st_source s = [] | Failed _ | Stopped => False | _ => True end;
}.

Definition sound_state (s : state) : Prop := exists started, consistent s started /\ (clean s -> undisturbed s started).

Lemma lookup_set_phase i p s j w :
  st_workers (set_phase i p s) !! j = Some w ->
  (j = i /\ w_phase w = p /\ exists w0, st_workers s !! i = Some w0) \/ (j <> i /\ st_workers s !! j = Some w).
Proof.
  cbn. destruct (decide (j = i)) as [->|Hne].
  - rewrite list_lookup_alter_eq. intros (w0 & Hw & ->)%fmap_Some. left. eauto.
  - rewrite list_lookup_alter_ne by done. by right.
Qed.

Lemma lookup_set_phase_self i p s w : st_workers s !! i = Some w ->
  exists w', st_workers (set_phase i p s) !! i = Some w' /\ w_phase w' = p.
Proof. intros Hw. cbn. rewrite list_lookup_alter_eq, Hw. eexists. by split. Qed.

Lemma lookup_set_phase_other i p s j w : j <> i -> st_workers s !! j = Some w -> st_workers (set_phase i p s) !! j = Some w.
Proof. intros Hne Hw. cbn. by rewrite list_lookup_alter_ne. Qed.

(** Ending a task. *)
Lemma consistent_settle i p s started w :
  consistent s started -> st_workers s !! i = Some w -> settled_phase (w_phase w) = false -> settled_phase p = true ->
  (p = Stopped -> owner_cancelled s = true) -> consistent (set_phase i p s) started.
Proof.
  intros [H1 H2 H3 H4 H5 H6 H7] Hw Hu Hp Hs. constructor.
  - cbn. by rewrite length_alter.
  - done.
  - intros j w' index item [(-> & Hph & _)|[_ Hj]]%lookup_set_phase Hm; [by rewrite <-Hph, Hm in Hp|by eapply H3].
  - intros j k wj wk index a b [(-> & Hph & _)|[_ Hj]]%lookup_set_phase [(-> & Hph' & _)|[_ Hk]]%lookup_set_phase Hm Hm';
      try done; [by rewrite <-Hph, Hm in Hp|by rewrite <-Hph', Hm' in Hp|by eapply H4].
  - done.
  - done.
  - intros j w' [(-> & Hph & _)|[_ Hj]]%lookup_set_phase Hm; [apply Hs; congruence|by eapply H7].
Qed.
Lemma lookup_cancel_worker i s j w :
  st_workers (cancel_worker i s) !! j = Some w -> exists w0, st_workers s !! j = Some w0 /\ w_phase w0 = w_phase w.
Proof.
  cbn. destruct (decide (j = i)) as [->|Hne].
  - rewrite list_lookup_alter_eq. intros (w0 & Hw & ->)%fmap_Some. by exists w0.
  - rewrite list_lookup_alter_ne by done. by exists w.
Qed.

Lemma phase_cancel_worker i s j w :
  st_workers s !! j = Some w -> exists w', st_workers (cancel_worker i s) !! j = Some w' /\ w_phase w' = w_phase w.
Proof.
  intros Hw. cbn. destruct (decide (j = i)) as [->|Hne].
  - rewrite list_lookup_alter_eq, Hw. eexists. by split.
  - rewrite list_lookup_alter_ne by done. by exists w.
Qed.

Lemma consistent_cancel_worker i s started : consistent s started -> consistent (cancel_worker i s) started.
Proof.
  intros [H1 H2 H3 H4 H5 H6 H7]. constructor.
  - cbn. by rewrite length_alter.
  - done.
  - intros j w index item (w0 & Hw & E)%lookup_cancel_worker Hm. eapply H3; [done|by rewrite E].
  - intros j k wj wk index a b (w0 & Hw & E)%lookup_cancel_worker (w1 & Hw1 & E1)%lookup_cancel_worker Hm Hm1.
    eapply H4; [exact Hw|exact Hw1|by rewrite E|by rewrite E1].
  - done.
  - done.
  - intros j w (w0 & Hw & E)%lookup_cancel_worker Hm. eapply H7; [exact Hw|by rewrite E].
Qed.

Lemma consistent_flags s s' started :
  consistent s started -> st_workers s' = st_workers s -> st_results s' = st_results s -> st_terminal s' = st_terminal s ->
  st_failures s' = st_failures s -> (owner_cancelled s = true -> owner_cancelled s' = true) -> consistent s' started.
Proof.
  intros [H1 H2 H3 H4 H5 H6 H7] Hw Hr Ht Hf Ho. constructor; rewrite ?Hw, ?Hr, ?Ht, ?Hf; try done. intros. by eapply Ho, H7.
Qed.

(** A failing task. *)
Lemma consistent_fail i e s started w :
  consistent s started -> st_workers s !! i = Some w -> settled_phase (w_phase w) = false ->
  consistent (fail i e s) started /\ ~ clean (fail i e s).
Proof.
  intros Hc Hw Hu.
  assert (forall e', consistent (set_phase i (Failed e') (add_failure e' s)) started) as Hfail.
  { intros e'. destruct (consistent_settle i (Failed e') s started w Hc Hw Hu eq_refl ltac:(discriminate)) as [H1 H2 H3 H4 H5 H6 H7].
    constructor; [exact H1|exact H2|exact H3|exact H4|exact H5| |exact H7]. intros _. cbn. by destruct (st_failures s). }
  unfold fail. assert (forall p e', ~ clean (set_phase i p (add_failure e' s))) as Hdirty by (intros p e' [? _]; done).
  destruct e; try (by split). destruct (owner_cancelled s) eqn:Eo; [|by split]. split.
  - by eapply consistent_settle.
  - intros [_ Hn]. unfold owner_cancelled in *. cbn in Hn. congruence.
Qed.

(** The next item is taken up. *)
Lemma consistent_begin i item s started w :
  consistent s started -> st_workers s !! i = Some w -> w_phase w = Looping ->
  consistent (set_phase i (Mapping (length (st_results s)) item) (set_results (st_results s ++ [None]) s)) (started ++ [item]).
Proof.
  intros [H1 H2 H3 H4 H5 H6 H7] Hw Hl. constructor.
  - cbn. by rewrite length_alter.
  - cbn. rewrite !length_app. cbn. lia.
  - intros j w' index it [(-> & Hph & _)|[_ Hj]]%lookup_set_phase Hm; cbn [st_results set_phase set_results].
    + rewrite Hph in Hm. injection Hm as <- <-. rewrite !lookup_app_r, <-?H2, Nat.sub_diag by lia. done.
    + destruct (H3 j w' index it Hj Hm) as [Ha Hb]. split; by apply lookup_app_l_Some.
  - intros j k wj wk index a b [(-> & Hph & _)|[Hj' Hj]]%lookup_set_phase [(-> & Hph' & _)|[Hk' Hk]]%lookup_set_phase Hm Hm';
      [done| | |by eapply H4].
    + destruct (H3 k wk index b Hk Hm') as [_ Hb%lookup_lt_Some]. rewrite Hph in Hm. injection Hm as <- _. lia.
    + destruct (H3 j wj index a Hj Hm) as [_ Hb%lookup_lt_Some]. rewrite Hph' in Hm'. injection Hm' as <- _. lia.
  - intros index r. cbn [st_results set_phase set_results]. intros [Hr|[_ Hr]]%lookup_app_Some.
    + destruct (H5 index r Hr) as (it & Hi & Hm). exists it. split; [by apply lookup_app_l_Some|done].
    + by apply list_lookup_singleton_Some in Hr as [_ ?].
  - done.
  - intros j w' [(-> & Hph & _)|[_ Hj]]%lookup_set_phase Hm; [by rewrite Hph in Hm|by eapply H7].
Qed.

(** An answer is stored. *)
Lemma consistent_store i index item r s started w :
  consistent s started -> st_workers s !! i = Some w -> w_phase w = Mapping index item -> maps item r ->
  consistent (set_phase i Looping (set_results (<[index := Some r]> (st_results s)) s)) started.
Proof.
  intros [H1 H2 H3 H4 H5 H6 H7] Hw Hl Hr. destruct (H3 i w index item Hw Hl) as [Hi Hnone]. constructor.
  - cbn. by rewrite length_alter.
  - cbn. by rewrite length_insert.
  - intros j w' k it [(-> & Hph & _)|[Hne Hj]]%lookup_set_phase Hm; [by rewrite Hph in Hm|].
    destruct (H3 j w' k it Hj Hm) as [Ha Hb]. split; [done|]. cbn. rewrite list_lookup_insert_ne; [done|].
    intros ->. apply Hne. by eapply H4.
  - intros j k wj wk x a b [(-> & Hph & _)|[Hj' Hj]]%lookup_set_phase [(-> & Hph' & _)|[Hk' Hk]]%lookup_set_phase Hm Hm';
      [done|by rewrite Hph in Hm|by rewrite Hph' in Hm'|by eapply H4].
  - intros k r'. cbn. intros [(-> & [= <-] & _)|[Hne Hk]]%list_lookup_insert_Some; [by exists item|by eapply H5].
  - done.
  - intros j w' [(-> & Hph & _)|[_ Hj]]%lookup_set_phase Hm; [by rewrite Hph in Hm|by eapply H7].
Qed.
(** ** Every interleaving *)

Lemma undisturbed_cancel_worker i s started : undisturbed s started -> undisturbed (cancel_worker i s) started.
Proof.
  intros [H1 H2 H3]. constructor; [done| |].
  - intros index (j & w & item & Hj & Hm)%H2. destruct (phase_cancel_worker i s j w Hj) as (w' & Hw' & E).
    exists j, w', item. by rewrite E.
  - intros j w (w0 & Hw & E)%lookup_cancel_worker. specialize (H3 j w0 Hw). by rewrite E in H3.
Qed.

Lemma sound_fail i e s started w :
  consistent s started -> st_workers s !! i = Some w -> settled_phase (w_phase w) = false -> sound_state (fail i e s).
Proof. intros Hc Hw Hu. destruct (consistent_fail i e s started w Hc Hw Hu). by exists started. Qed.

Lemma sound_unless_cancelled i s started w rest :
  consistent s started -> st_workers s !! i = Some w -> settled_phase (w_phase w) = false ->
  sound_state (rest s) -> sound_state (unless_cancelled i s rest).
Proof. intros Hc Hw Hu Hr. unfold unless_cancelled. case_match; [by eapply sound_fail|done]. Qed.

(** The state right after [next]. *)
Definition after_next (i : nat) (owner self : bool) (s : state) : state :=
  let s := drop_source s in
  let s := if owner then cancel_owner s else s in
  if self then cancel_worker i s else s.

Lemma after_next_spec i owner self s started w :
  consistent s started -> st_workers s !! i = Some w ->
  consistent (after_next i owner self s) started /\
  (exists w', st_workers (after_next i owner self s) !! i = Some w' /\ w_phase w' = w_phase w) /\
  st_source (after_next i owner self s) = tail (st_source s) /\
  st_results (after_next i owner self s) = st_results s /\
  (clean (after_next i owner self s) -> clean s) /\
  (forall j w', st_workers (after_next i owner self s) !! j = Some w' ->
     exists w0, st_workers s !! j = Some w0 /\ w_phase w0 = w_phase w') /\
  (forall j w0, st_workers s !! j = Some w0 ->
     exists w', st_workers (after_next i owner self s) !! j = Some w' /\ w_phase w' = w_phase w0).
Proof.
  intros Hc Hw. unfold after_next.
  set (s1 := if owner then cancel_owner (drop_source s) else drop_source s).
  assert (consistent s1 started) as Hc1.
  { apply (consistent_flags s); [done|by destruct owner..|]. unfold owner_cancelled. intros Ho. destruct owner; cbn; [done|exact Ho]. }
  assert (st_workers s1 = st_workers s /\ st_source s1 = tail (st_source s) /\ st_results s1 = st_results s /\ (clean s1 -> clean s))
    as (Hws & Hsrc & Hres & Hcl).
  { destruct owner; split_and!; try done. by intros [_ ?]. }
  destruct self.
  - split_and!; [by apply consistent_cancel_worker| |done|done|done| |].
    + apply phase_cancel_worker. by rewrite Hws.
    + intros j w' H%lookup_cancel_worker. by rewrite Hws in H.
    + intros j w0 H. apply phase_cancel_worker. by rewrite Hws.
  - split_and!; [done| |done|done|done| |]; rewrite ?Hws; eauto.
Qed.

Lemma loop_section_next i owner self s :
  st_terminal s = false ->
  loop_section i owner self s =
  let s' := after_next i owner self s in
  match head (st_source s) with
  | None => unless_cancelled i s' (set_phase i Finished)
  | Some (Raised e) => fail i e s'
  | Some (Returned item) => unless_cancelled i s' (fun s =>
      set_phase i (Mapping (length (st_results s)) item) (set_results (st_results s ++ [None]) s))
  end.
Proof. intros Ht. unfold loop_section. by rewrite Ht. Qed.

Lemma sound_loop i owner self s w :
  sound_state s -> st_workers s !! i = Some w -> w_phase w = Looping -> sound_state (loop_section i owner self s).
Proof.
  intros (started & Hc & Hu) Hw Hl. destruct (st_terminal s) eqn:Et.
  { unfold loop_section. rewrite Et. exists started. split; [by eapply consistent_settle; rewrite ?Hl|].
    intros [Ht _]. cbn in Ht. congruence. }
  rewrite loop_section_next by done. cbv zeta.
  destruct (after_next_spec i owner self s started w Hc Hw) as (Hc1 & (w' & Hw' & Hph) & Hsrc & Hres & Hcl & Hback & Hforth).
  rewrite Hl in Hph. assert (settled_phase (w_phase w') = false) as Hset by (by rewrite Hph).
  destruct (head (st_source s)) as [[item|e]|] eqn:Eh; [|by eapply sound_fail|];
    (eapply sound_unless_cancelled; [done|done|done|]).
  - exists (started ++ [item]). split; [by eapply consistent_begin|]. intros Hclean.
    destruct (Hu (Hcl Hclean)) as [H1 H2 H3]. destruct (st_source s) as [|next source] eqn:Es; [done|]. injection Eh as ->.
    constructor.
    + cbn. rewrite Hsrc, fmap_app, <-app_assoc. exact H1.
    + cbn [st_results set_phase set_results]. intros index [Hi|[Hlen Hi]]%lookup_app_Some.
      * rewrite Hres in Hi. destruct (H2 index Hi) as (j & wj & it & Hj & Hm). destruct (Hforth j wj Hj) as (wj' & Hj' & E).
        exists j, wj', it. split; [|by rewrite E]. apply lookup_set_phase_other; [|done]. intros ->. congruence.
      * apply list_lookup_singleton_Some in Hi as [Hz _].
        destruct (lookup_set_phase_self i (Mapping (length (st_results (after_next i owner self s))) item)
          (set_results (st_results (after_next i owner self s) ++ [None]) (after_next i owner self s)) w' Hw') as (wi & Hwi & E).
        exists i, wi, item. split; [done|]. rewrite E. f_equal. lia.
    + intros j wj [(-> & -> & _)|[_ (w0 & Hj & E)%Hback]]%lookup_set_phase; [done|]. specialize (H3 j w0 Hj). rewrite E in H3.
      by destruct (w_phase wj).
  - exists started. split; [by eapply consistent_settle|]. intros Hclean.
    destruct (Hu (Hcl Hclean)) as [H1 H2 H3]. destruct (st_source s) as [|next source] eqn:Es; [|done].
    constructor.
    + cbn. by rewrite Hsrc.
    + cbn [st_results set_phase]. rewrite Hres. intros index (j & wj & it & Hj & Hm)%H2. destruct (Hforth j wj Hj) as (wj' & Hj' & E).
      exists j, wj', it. split; [|by rewrite E]. apply lookup_set_phase_other; [|done]. intros ->. congruence.
    + intros j wj [(-> & -> & _)|[_ (w0 & Hj & E)%Hback]]%lookup_set_phase; [done|]. specialize (H3 j w0 Hj). rewrite E in H3.
      by destruct (w_phase wj).
Qed.

Lemma sound_resume i index item answer s w :
  sound_state s -> st_workers s !! i = Some w -> w_phase w = Mapping index item ->
  (forall r, answer = Returned r -> maps item r) -> sound_state (resume_section i index answer s).
Proof.
  intros (started & Hc & Hu) Hw Hl Hans. assert (settled_phase (w_phase w) = false) as Hset by (by rewrite Hl).
  destruct answer as [r|e]; cbn [resume_section]; [|by eapply sound_fail].
  eapply sound_unless_cancelled; [done|done|done|]. exists started. split; [by eapply consistent_store; eauto|].
  intros Hclean. destruct (Hu Hclean) as [H1 H2 H3]. constructor; [done| |].
  - cbn [st_results set_phase set_results]. intros k [(_ & [=] & _)|[Hne Hk]]%list_lookup_insert_Some.
    destruct (H2 k Hk) as (j & wj & it & Hj & Hm). exists j, wj, it. split; [|done].
    apply lookup_set_phase_other; [|done]. intros ->. congruence.
  - intros j wj [(-> & -> & _)|[_ Hj]]%lookup_set_phase; [done|]. apply (H3 j wj Hj).
Qed.

Lemma sound_step s s' : step s s' -> sound_state s -> sound_state s'.
Proof.
  intros [i owner self s1 w Hw Hl|i index item answer s1 w Hw Hl Hans|i s1|s1|s1] Hs.
  - by eapply sound_loop.
  - by eapply sound_resume.
  - destruct Hs as (started & Hc & Hu). exists started. split; [by apply consistent_cancel_worker|].
    intros H. by apply undisturbed_cancel_worker, Hu.
  - destruct Hs as (started & Hc & Hu). exists started. split; [|by intros [_ ?]]. by apply (consistent_flags s1).
  - destruct Hs as (started & Hc & Hu). exists started. split.
    + apply (consistent_flags s1); try done. unfold owner_cancelled. cbn. by rewrite orb_true_r.
    + unfold clean, owner_cancelled. cbn. rewrite orb_true_r. by intros [_ ?].
Qed.
End Invariants.

(** ** What an invocation does *)

Lemma sound_start source n : sound_state source n (start (Z.of_nat n) source).
Proof.
  assert (forall i w, st_workers (start (Z.of_nat n) source) !! i = Some w -> w_phase w = Looping) as Hl.
  { cbn. intros i w H%list_elem_of_lookup_2. apply list_elem_of_In, repeat_spec in H. by subst w. }
  exists []. split.
  - constructor; try done.
    + cbn. rewrite repeat_length. lia.
    + intros i w index item Hw. by rewrite (Hl i w Hw).
    + intros i j w w' index item item' Hw. by rewrite (Hl i w Hw).
    + intros i w Hw. by rewrite (Hl i w Hw).
  - intros _. constructor; [done|done|]. intros i w Hw. by rewrite (Hl i w Hw).
Qed.

Lemma settled_worker s i w : all_settled s = true -> st_workers s !! i = Some w -> settled_phase (w_phase w) = true.
Proof.
  unfold all_settled. rewrite forallb_forall. intros H Hw. apply H, list_elem_of_In, list_elem_of_lookup. by exists i.
Qed.

(** Workers that await an answer. *)
Definition in_flight (s : state) : nat :=
  length (List.filter (fun w => match w_phase w with Mapping _ _ => true | _ => false end) (st_workers s)).

Lemma map_bounded_start limit callable timeout in_task iterator cancelled s0 :
  map_bounded limit callable timeout in_task iterator cancelled = Returned s0 ->
  exists n source, limit = PyInt (Z.of_nat n) /\ (1 <= n)%nat /\ Z.of_nat n <= MAX_LIMIT /\
    iterator = Returned source /\ s0 = start (Z.of_nat n) source.
Proof.
  unfold map_bounded. intros (z & Hz & (u1 & _ & (u2 & _ & (u3 & _ & (source & -> & (u4 & _ & [= <-])%obind_returned)%obind_returned)%obind_returned)%obind_returned)%obind_returned)%obind_returned.
  destruct limit; cbn in Hz; try done. destruct (Z.leb_spec z0 0); [done|]. destruct (Z.ltb_spec MAX_LIMIT z0); [done|].
  injection Hz as ->. exists (Z.to_nat z), source. rewrite Z2Nat.id by lia. split_and!; [done|lia|lia|done|done].
Qed.

(** [C33] In every interleaving of the workers, with cancellations and the deadline
    anywhere, no more than [limit] mapper calls are awaited at a time and no two for
    one index; and when the invocation returns, every item of the input was mapped
    and the results are the answers in the order of the items. *)
Theorem map_bounded_sound limit callable timeout in_task iterator cancelled s0 s :
  map_bounded limit callable timeout in_task iterator cancelled = Returned s0 -> rtc step s0 s ->
  (exists n, limit = PyInt (Z.of_nat n) /\ (in_flight s <= n)%nat /\ Z.of_nat n <= MAX_LIMIT) /\
  (forall i j w w' index item item', st_workers s !! i = Some w -> st_workers s !! j = Some w' ->
     w_phase w = Mapping index item -> w_phase w' = Mapping index item' -> i = j) /\
  (forall results, all_settled s = true -> finish s = MapReturned results ->
     exists items answers, iterator = Returned (Returned <$> items) /\ results = Some <$> answers /\ Forall2 maps items answers).
Proof.
  intros (n & source & -> & Hn & Hmax & -> & ->)%map_bounded_start Hrun.
  assert (sound_state source n s) as (started & Hc & Hu).
  { eapply rtc_invariant; [|exact Hrun|apply sound_start]. intros a b. by apply sound_step. }
  split_and!.
  - exists n. split_and!; [done| |done]. unfold in_flight. rewrite <-(co_workers _ _ _ Hc). apply List.filter_length_le.
  - intros i j w w' index item item'. by apply (co_distinct _ _ _ Hc).
  - intros results Hset Hfin. unfold finish in Hfin.
    destruct (st_failures s) eqn:He; [|repeat case_match; done].
    destruct (st_cancelled s) eqn:Ecan; [done|]. destruct (st_expired s) eqn:Eexp; [done|]. injection Hfin as <-.
    assert (clean s) as Hclean.
    { split; [|unfold owner_cancelled; by rewrite Ecan, Eexp]. destruct (st_terminal s) eqn:Et; [|done].
      by destruct (co_terminal _ _ _ Hc Et). }
    destruct (Hu Hclean) as [H1 H2 H3].
    assert (st_source s = []) as Hsrc.
    { destruct (lookup_lt_is_Some_2 (st_workers s) 0) as [w Hw]; [rewrite (co_workers _ _ _ Hc); lia|].
      specialize (H3 0%nat w Hw). pose proof (settled_worker s 0 w Hset Hw). by destruct (w_phase w). }
    rewrite Hsrc, app_nil_r in H1.
    assert (Forall2 (fun item o => exists r, o = Some r /\ maps item r) started (st_results s)) as Hall.
    { apply Forall2_same_length_lookup. split; [apply (co_started _ _ _ Hc)|]. intros k item o Hk Ho. destruct o as [r|].
      - exists r. split; [done|]. destruct (co_results _ _ _ Hc k r Ho) as (it & Hi & Hm). congruence.
      - destruct (H2 k Ho) as (i & w & it & Hw & Hp). pose proof (settled_worker s i w Hset Hw) as Hst. by rewrite Hp in Hst. }
    exists started. assert (exists answers, st_results s = Some <$> answers /\ Forall2 maps started answers) as (answers & Ha & Hm).
    { clear -Hall. induction Hall as [|item o started l (r & -> & Hm) _ (answers & -> & IH)]; [by exists []|].
      exists (r :: answers). by split; [|constructor]. }
    exists answers. split_and!; [by rewrite H1|done|done].
Qed.
(** ** Termination *)

Definition weight (p : phase) : nat := match p with Looping => 1 | Mapping _ _ => 2 | _ => 0 end.
Fixpoint load (ws : list worker) : nat := match ws with [] => 0 | w :: ws => weight (w_phase w) + load ws end.

(** Three for an item that is to come, two for a call, one for a task in its loop. *)
Definition measure (s : state) : nat := (3 * length (st_source s) + load (st_workers s))%nat.

Lemma load_alter i f ws w : ws !! i = Some w ->
  (load (alter f i ws) + weight (w_phase w) = load ws + weight (w_phase (f w)))%nat.
Proof.
  revert i. induction ws as [|w0 ws IH]; intros [|i] Hw; try done; cbn in *.
  - injection Hw as ->. lia.
  - specialize (IH i Hw). change (list_alter f i ws) with (alter f i ws). lia.
Qed.

Lemma load_same i f ws : (forall w, w_phase (f w) = w_phase w) -> load (alter f i ws) = load ws.
Proof.
  intros Hf. revert i. induction ws as [|w0 ws IH]; intros [|i]; cbn; [done|done|by rewrite Hf|].
  change (list_alter f i ws) with (alter f i ws). by rewrite IH.
Qed.

Lemma measure_set_phase i p s w : st_workers s !! i = Some w ->
  (measure (set_phase i p s) + weight (w_phase w) = measure s + weight p)%nat.
Proof.
  intros Hw. unfold measure. cbn [st_source st_workers set_phase].
  pose proof (load_alter i (fun w => {| w_phase := p; w_cancelling := w_cancelling w |}) (st_workers s) w Hw) as H.
  cbn [w_phase] in H. lia.
Qed.

Lemma fail_shape i e s : exists p t, fail i e s = set_phase i p t /\ weight p = 0%nat /\
  st_source t = st_source s /\ st_workers t = st_workers s.
Proof.
  unfold fail. destruct e; try (eexists _, (add_failure _ s); split; [reflexivity|done]).
  destruct (owner_cancelled s); eexists _, _; (split; [reflexivity|done]).
Qed.

Lemma measure_fail i e s w : st_workers s !! i = Some w -> (measure (fail i e s) + weight (w_phase w) = measure s)%nat.
Proof.
  intros Hw. destruct (fail_shape i e s) as (p & t & -> & Hp & Hs & Hws). rewrite <-Hws in Hw.
  pose proof (measure_set_phase i p t w Hw) as H. rewrite Hp in H. unfold measure in *. rewrite Hs, Hws in H.
  cbn [st_source st_workers set_phase] in *. rewrite Hs, Hws in *. lia.
Qed.

Lemma measure_cancel_worker i s : measure (cancel_worker i s) = measure s.
Proof. unfold measure. cbn [st_source st_workers cancel_worker]. by rewrite load_same. Qed.

Lemma measure_unless_cancelled i s w rest : st_workers s !! i = Some w -> (0 < weight (w_phase w))%nat ->
  (measure (rest s) < measure s)%nat -> (measure (unless_cancelled i s rest) < measure s)%nat.
Proof.
  intros Hw Hp Hr. unfold unless_cancelled. case_match; [|done]. pose proof (measure_fail i CancelledError s w Hw). lia.
Qed.

Lemma measure_after_next i owner self s :
  measure (after_next i owner self s) = (measure s - 3 * min 1 (length (st_source s)))%nat.
Proof.
  unfold after_next. set (s1 := if owner then cancel_owner (drop_source s) else drop_source s).
  assert (measure s1 = (measure s - 3 * min 1 (length (st_source s)))%nat) as Hs.
  { unfold s1, measure. destruct owner, s as [[|o l] ? ? ? ? ?]; cbn; lia. }
  destruct self; [by rewrite measure_cancel_worker|done].
Qed.

Lemma after_next_worker i owner self s w : st_workers s !! i = Some w ->
  exists w', st_workers (after_next i owner self s) !! i = Some w' /\ w_phase w' = w_phase w.
Proof.
  intros Hw. unfold after_next. destruct self; [apply phase_cancel_worker|exists w]; by destruct owner.
Qed.

Lemma loop_decreases i owner self s w :
  st_workers s !! i = Some w -> w_phase w = Looping -> (measure (loop_section i owner self s) < measure s)%nat.
Proof.
  intros Hw Hl. destruct (st_terminal s) eqn:Et.
  { unfold loop_section. rewrite Et. pose proof (measure_set_phase i Finished s w Hw) as H. rewrite Hl in H. cbn [weight] in H. lia. }
  rewrite loop_section_next by done. cbv zeta. destruct (after_next_worker i owner self s w Hw) as (w' & Hw' & Hp).
  rewrite Hl in Hp. assert (0 < weight (w_phase w'))%nat as Hpos by (rewrite Hp; cbn; lia).
  pose proof (measure_after_next i owner self s) as Hm. set (s' := after_next i owner self s) in *.
  assert (measure s' <= measure s)%nat as Hle by lia.
  destruct (head (st_source s)) as [[item|e]|] eqn:Eh.
  - destruct (st_source s) as [|o l] eqn:Es; [done|]. cbn [length] in Hm.
    assert (3 <= measure s)%nat by (unfold measure; rewrite Es; cbn [length]; lia).
    assert (measure (set_phase i (Mapping (length (st_results s')) item) (set_results (st_results s' ++ [None]) s')) = measure s' + 1)%nat as Hnew.
    { pose proof (measure_set_phase i (Mapping (length (st_results s')) item) (set_results (st_results s' ++ [None]) s') w' Hw') as H0.
      rewrite Hp in H0. cbn [weight] in H0. change (measure (set_results (st_results s' ++ [None]) s')) with (measure s') in H0. lia. }
    unfold unless_cancelled. case_match; [pose proof (measure_fail i CancelledError s' w' Hw')|]; lia.
  - pose proof (measure_fail i e s' w' Hw'). lia.
  - eapply Nat.lt_le_trans; [|exact Hle]. eapply measure_unless_cancelled; [done|done|].
    pose proof (measure_set_phase i Finished s' w' Hw') as H. rewrite Hp in H. cbn [weight] in H. lia.
Qed.

Lemma resume_decreases i index item answer s w :
  st_workers s !! i = Some w -> w_phase w = Mapping index item -> (measure (resume_section i index answer s) < measure s)%nat.
Proof.
  intros Hw Hl. assert (0 < weight (w_phase w))%nat as Hpos by (rewrite Hl; cbn; lia).
  destruct answer as [r|e]; cbn [resume_section]; [|pose proof (measure_fail i e s w Hw); lia].
  eapply measure_unless_cancelled; [done|done|].
  pose proof (measure_set_phase i Looping (set_results (<[index:=Some r]> (st_results s)) s) w Hw) as H.
  rewrite Hl in H. cbn [weight] in H. change (measure (set_results (<[index:=Some r]> (st_results s)) s)) with (measure s) in H. lia.
Qed.

(** The stretches of workers in an execution. *)
Inductive runs : nat -> state -> state -> Prop :=
| runs_refl s : runs 0 s s
| runs_loop k i owner self s w s' :
    st_workers s !! i = Some w -> w_phase w = Looping -> runs k (loop_section i owner self s) s' -> runs (S k) s s'
| runs_resume k i index item answer s w s' :
    st_workers s !! i = Some w -> w_phase w = Mapping index item ->
    (forall r, answer = Returned r -> maps item r) -> runs k (resume_section i index answer s) s' -> runs (S k) s s'
| runs_cancel_worker k i s s' : runs k (cancel_worker i s) s' -> runs k s s'
| runs_cancel_owner k s s' : runs k (cancel_owner s) s' -> runs k s s'
| runs_expire k s s' : runs k (expire s) s' -> runs k s s'.

Lemma forallb_witness {A} (f : A -> bool) l : forallb f l = false -> exists i a, l !! i = Some a /\ f a = false.
Proof.
  induction l as [|a l IH]; [done|]. cbn. intros [H|H]%andb_false_iff; [by exists 0%nat, a|].
  destruct (IH H) as (i & b & Hb & Hf). by exists (S i), b.
Qed.

Lemma load_start n : load (st_workers (start (Z.of_nat n) [])) = n.
Proof. cbn. rewrite Nat2Z.id. induction n as [|n IH]; [done|]. cbn. by rewrite IH. Qed.

(** An invocation ends: in whatever order things happen, the workers run at most
    three stretches for each step of the input and one each, and a state in which no
    worker can run has every task done. *)
Theorem map_bounded_ends limit callable timeout in_task iterator cancelled s0 k s :
  map_bounded limit callable timeout in_task iterator cancelled = Returned s0 -> runs k s0 s ->
  exists n source, limit = PyInt (Z.of_nat n) /\ iterator = Returned source /\
    (k <= 3 * length source + n)%nat /\
    (all_settled s = true \/
     exists i w, st_workers s !! i = Some w /\
       (w_phase w = Looping \/ exists index item, w_phase w = Mapping index item)).
Proof.
  intros (n & source & -> & _ & _ & -> & ->)%map_bounded_start Hrun. exists n, source. split_and!; [done|done| |].
  - assert (k <= measure (start (Z.of_nat n) source))%nat as Hk.
    { induction Hrun as [|k i owner self s w s' Hw Hl _ IH|k i index item answer s w s' Hw Hl _ _ IH|k i s s' _ IH|k s s' _ IH|k s s' _ IH].
      - lia.
      - pose proof (loop_decreases i owner self s w Hw Hl). lia.
      - pose proof (resume_decreases i index item answer s w Hw Hl). lia.
      - rewrite measure_cancel_worker in IH. lia.
      - exact IH.
      - exact IH. }
    unfold measure in Hk. change (st_workers (start (Z.of_nat n) source)) with (st_workers (start (Z.of_nat n) [])) in Hk.
    rewrite load_start in Hk. exact Hk.
  - destruct (all_settled s) eqn:E; [by left|right]. apply forallb_witness in E as (i & w & Hw & Hp).
    exists i, w. split; [done|]. destruct (w_phase w); try done; eauto.
Qed.
(** ** Errors *)

(** The task group forgets no error. *)
Definition keeps_failures (s s' : state) : Prop := forall e, e ∈ st_failures s -> e ∈ st_failures s'.

Lemma fail_keeps i e s : keeps_failures s (fail i e s).
Proof.
  intros x Hx. unfold fail. destruct e; try (cbn; apply elem_of_app; by left).
  destruct (owner_cancelled s); [done|]. cbn. apply elem_of_app. by left.
Qed.

Lemma step_keeps s s' : step s s' -> keeps_failures s s'.
Proof.
  intros [i owner self t w Hw Hl|i index item answer t w Hw Hl _|i t|t|t] e He; try done.
  - destruct (st_terminal t) eqn:Et; [unfold loop_section; by rewrite Et|].
    rewrite loop_section_next by done. cbv zeta. set (t' := after_next i owner self t).
    assert (e ∈ st_failures t') as He' by (by destruct owner, self). unfold unless_cancelled.
    destruct (head (st_source t)) as [[item|x]|]; [|by apply fail_keeps|]; (case_match; [by apply fail_keeps|done]).
  - destruct answer; cbn [resume_section]; [|by apply fail_keeps]. unfold unless_cancelled.
    case_match; [by apply fail_keeps|done].
Qed.

Lemma unless_cancelled_terminal i s rest : st_terminal (rest s) = st_terminal s -> st_source (rest s) = st_source s ->
  length (st_results (rest s)) = length (st_results s) -> st_terminal s = true ->
  st_terminal (unless_cancelled i s rest) = true /\ st_source (unless_cancelled i s rest) = st_source s /\
  length (st_results (unless_cancelled i s rest)) = length (st_results s).
Proof.
  intros H1 H2 H3 Ht. unfold unless_cancelled. case_match; [|by rewrite H1].
  cbn [fail]. by destruct (owner_cancelled s).
Qed.

(** [C34] An invocation fails fast and loses no error: once it is terminal no item is
    taken from the input and no mapper is called, whatever happens, and an error of a
    mapper is in the group the invocation raises, unless a [KeyboardInterrupt] or a
    [SystemExit] is raised in its place. *)
Theorem map_bounded_fails_fast s s' :
  (st_terminal s = true -> rtc step s s' ->
     st_terminal s' = true /\ st_source s' = st_source s /\ length (st_results s') = length (st_results s)) /\
  (forall i index item e w, st_workers s !! i = Some w -> w_phase w = Mapping index item ->
     e <> CancelledError -> e <> InvocationCancelledError ->
     rtc step (resume_section i index (Raised e) s) s' ->
     match finish s' with
     | MapGroup es | MapCancelledGroup es => e ∈ es
     | MapRaised x => is_base_error x = true
     | MapReturned _ => False
     end).
Proof.
  split.
  - intros Ht Hrun. revert Ht. apply (@rtc_ind_r _ step (fun s' => st_terminal s = true -> st_terminal s' = true /\
      st_source s' = st_source s /\ length (st_results s') = length (st_results s)) s); [done| |done].
    intros t u _ Hstep IH Ht. destruct (IH Ht) as (Ht' & Hs & Hr). rewrite <-Hs, <-Hr. clear IH Hs Hr Hrun Ht.
    destruct Hstep as [i owner self t w Hw Hl|i index item answer t w Hw Hl _|i t|t|t]; try done.
    + unfold loop_section. by rewrite Ht'.
    + destruct answer as [r|e]; cbn [resume_section].
      * apply unless_cancelled_terminal; [done|done| |done]. cbn. by rewrite length_insert.
      * unfold fail. destruct e; try done. by destruct (owner_cancelled t).
  - intros i index item e w Hw Hp Hne Hni Hrun.
    assert (e ∈ st_failures s') as He.
    { refine (rtc_invariant step (fun s => e ∈ st_failures s) _ _ (fun a b H => step_keeps a b H e) Hrun _).
      assert (fail i e s = set_phase i (Failed e) (add_failure e s)) as Hf by (by destruct e).
      cbn [resume_section]. rewrite Hf. cbn. apply elem_of_app. right. by apply list_elem_of_singleton. }
    unfold finish. set (others := filter (fun e => e <> InvocationCancelledError) (st_failures s')).
    assert (e ∈ others) as Ho by (apply list_elem_of_filter; by split).
    destruct (st_failures s') eqn:Ees; [by apply elem_of_nil in He|]. fold others.
    destruct (List.find is_base_error _) as [x|] eqn:Ex; [by apply find_some in Ex as [_ Ex]|].
    case_decide; [|done]. destruct others; [by apply elem_of_nil in Ho|done].
Qed.
End BoundedMap.
Arguments phase : clear implicits.
Arguments worker : clear implicits.
Arguments state : clear implicits.

(** ** A run *)

Definition demo_source : list (outcome Z) := [Returned 1; Returned 2; Returned 3].

(** Two workers; the second answers first and takes the third item. *)
Definition run0 : state Z Z := Eval vm_compute in start 2 demo_source.
Definition run1 : state Z Z := Eval vm_compute in loop_section 0 false false run0.
Definition run2 : state Z Z := Eval vm_compute in loop_section 1 false false run1.
Definition run3 : state Z Z := Eval vm_compute in resume_section 1 1 (Returned 20) run2.
Definition run4 : state Z Z := Eval vm_compute in loop_section 1 false false run3.
Definition run5 : state Z Z := Eval vm_compute in resume_section 0 0 (Returned 10) run4.
Definition run6 : state Z Z := Eval vm_compute in loop_section 0 false false run5.
Definition run7 : state Z Z := Eval vm_compute in resume_section 1 2 (Returned 30) run6.
Definition run8 : state Z Z := Eval vm_compute in loop_section 1 false false run7.

Definition tenfold (item answer : Z) : Prop := answer = item * 10.

Lemma demo_start : map_bounded (R := Z) (PyInt 2) true PyNone true (Returned demo_source) false = Returned run0.
Proof. reflexivity. Qed.

Lemma demo_answer item answer : tenfold item answer -> forall r, Returned answer = Returned r -> tenfold item r.
Proof. by intros H r [= <-]. Qed.

Definition looping : worker Z := {| w_phase := Looping; w_cancelling := false |}.
Definition awaiting (index : nat) (item : Z) : worker Z := {| w_phase := Mapping index item; w_cancelling := false |}.

Lemma demo_steps : rtc (step tenfold) run0 run8.
Proof.
  apply rtc_l with run1; [exact (step_loop tenfold 0 false false run0 looping eq_refl eq_refl)|].
  apply rtc_l with run2; [exact (step_loop tenfold 1 false false run1 looping eq_refl eq_refl)|].
  apply rtc_l with run3; [exact (step_resume tenfold 1 1 2 (Returned 20) run2 (awaiting 1 2) eq_refl eq_refl (demo_answer 2 20 eq_refl))|].
  apply rtc_l with run4; [exact (step_loop tenfold 1 false false run3 looping eq_refl eq_refl)|].
  apply rtc_l with run5; [exact (step_resume tenfold 0 0 1 (Returned 10) run4 (awaiting 0 1) eq_refl eq_refl (demo_answer 1 10 eq_refl))|].
  apply rtc_l with run6; [exact (step_loop tenfold 0 false false run5 looping eq_refl eq_refl)|].
  apply rtc_l with run7; [exact (step_resume tenfold 1 2 3 (Returned 30) run6 (awaiting 2 3) eq_refl eq_refl (demo_answer 3 30 eq_refl))|].
  apply rtc_l with run8; [exact (step_loop tenfold 1 false false run7 looping eq_refl eq_refl)|]. apply rtc_refl.
Qed.

Lemma map_bounded_sound_witness : exists items answers,
  Returned (A := list (outcome Z)) demo_source = Returned (Returned <$> items) /\ [Some 10; Some 20; Some 30] = Some <$> answers /\
  Forall2 tenfold items answers.
Proof.
  destruct (map_bounded_sound tenfold (PyInt 2) true PyNone true (Returned demo_source) false _ run8 demo_start demo_steps)
    as (_ & _ & H). exact (H [Some 10; Some 20; Some 30] eq_refl eq_refl).
Defined.

Lemma demo_runs : runs tenfold 1 run0 run1.
Proof. apply (runs_loop tenfold 0 0 false false run0 looping); [done|done|]. apply (runs_refl tenfold run1). Qed.

Lemma map_bounded_ends_witness :
  exists i w, st_workers run1 !! i = Some w /\ (w_phase w = Looping \/ exists index item, w_phase w = Mapping index item).
Proof.
  destruct (map_bounded_ends tenfold (PyInt 2) true PyNone true (Returned demo_source) false _ 1 _ demo_start demo_runs)
    as (_ & _ & _ & _ & _ & [H|H]); [discriminate|exact H].
Defined.

(** The first item's mapper fails while the second is being mapped. *)
Lemma map_bounded_fails_fast_witness :
  match finish (resume_section 0 0 (Raised (UserException 7)) run2) with
  | MapGroup es | MapCancelledGroup es => UserException 7 ∈ es
  | MapRaised x => is_base_error x = true
  | MapReturned _ => False
  end.
Proof.
  destruct (map_bounded_fails_fast tenfold run2 (resume_section 0 0 (Raised (UserException 7)) run2)) as [_ H].
  exact (H 0%nat 0%nat 1 (UserException 7) (awaiting 0 1) eq_refl eq_refl ltac:(discriminate) ltac:(discriminate) (rtc_refl _ _)).
Defined.
