(* ===== verification/Resilience.v ===== *)
(** * Shared contracts of the resilience policies

    [bluetape/resilience/_core.py] and the operation checks of [_retry.py]:
    event and snapshot values, the validators of constructor arguments and of
    callback results, the classification of failures, and [_emit]. *)

From Stdlib Require Import SpecFloat.
From S2P Require Import Prelude Python.
Open Scope py_scope.

Inductive PolicyType : Type := RETRY | TIMEOUT | CIRCUIT_BREAKER | BULKHEAD.

Inductive EventKind : Type :=
| SUCCEEDED | FAILED | RETRY_SCHEDULED | TIMED_OUT | CIRCUIT_TRANSITIONED | ADMITTED | REJECTED.

Inductive PolicyOutcome : Type := SUCCESS | FAILURE | REJECTION.

Module Category.
Inductive FailureCategory : Type :=
| NONE | FAILURE | TIMEOUT | RETRY_EXHAUSTED | CIRCUIT_OPEN | BULKHEAD_REJECTED.
End Category.


Record PolicyEvent : Type := {
  ev_policy_name : pystr;
  ev_policy_type : PolicyType;
  ev_kind : EventKind;
  ev_outcome : option PolicyOutcome;
  ev_failure_category : Category.FailureCategory;
  ev_attempt : option Z;
  ev_delay : option float;
  ev_timeout : option float;
  ev_state : option CircuitState;
  ev_previous_state : option CircuitState;
  ev_in_flight : option Z;
  ev_waiters : option Z;
}.

Record CircuitSnapshot : Type := {
  cs_name : pystr;
  cs_state : CircuitState;
  cs_consecutive_failures : Z;
  cs_recovery_successes : Z;
  cs_half_open_in_flight : Z;
}.

Record BulkheadSnapshot : Type := {
  bs_name : pystr;
  bs_max_concurrency : Z;
  bs_in_flight : Z;
  bs_waiters : Z;
}.

(** ** Validators *)

(** The value a validator returns, or the exception it raises. *)
Definition validate_name (value : pyval) (parameter : string) : outcome pystr :=
  match value with
  | PyStr s =>
      if bool_decide (s = []) || negb (bool_decide (s = strip s))
      then Raised (ValueError (parameter +:+ " must be non-blank without surrounding whitespace"))
      else Returned s
  | _ => Raised (TypeError (parameter +:+ " must be a string"))
  end.

Definition positive_int (value : pyval) (parameter : string) : outcome Z :=
  match value with
  | PyInt z =>
      if (z <? 1)%Z then Raised (ValueError (parameter +:+ " must be greater than 0"))
      else Returned z
  | _ => Raised (TypeError (parameter +:+ " must be an integer"))
  end.

Definition finite_non_negative (value : pyval) (parameter : string) : outcome float :=
  if is_bool value || negb (is_int_or_float value)
  then Raised (TypeError (parameter +:+ " must be a finite non-negative number"))
  else
    match to_float value with
    | Raised e => Raised e
    | Returned result =>
        if negb (is_finite result) || flt result f0
        then Raised (ValueError (parameter +:+ " must be a finite non-negative number"))
        else Returned result
    end.

Definition finite_positive (value : pyval) (parameter : string) : outcome float :=
  if is_bool value || negb (is_int_or_float value)
  then Raised (TypeError (parameter +:+ " must be a finite positive number"))
  else
    match to_float value with
    | Raised e => Raised e
    | Returned result =>
        if negb (is_finite result) || fle result f0
        then Raised (ValueError (parameter +:+ " must be a finite positive number"))
        else Returned result
    end.

Definition failure_category (error : exn) : Category.FailureCategory :=
  match error with
  | PolicyTimeoutError _ _ => Category.TIMEOUT
  | RetryExhaustedError _ _ _ => Category.RETRY_EXHAUSTED
  | CircuitOpenError _ _ => Category.CIRCUIT_OPEN
  | BulkheadRejectedError _ => Category.BULKHEAD_REJECTED
  | _ => Category.FAILURE
  end.

Section Operations.
Context {W : Type}.

(** What [inspect] reports of a callable or of its [__call__]. *)
Record target : Type := {
  is_coroutine_function : bool;
  is_generator_function : bool;
  is_async_generator_function : bool;
}.

(** An object passed as an operation: whether it is callable, what [inspect]
    says of it and of its [__call__], and the effect of calling it (for an
    async operation: of calling it and awaiting the result). *)
Record operation (A : Type) : Type := Operation {
  op_callable : bool;
  op_targets : list target;
  op_run : M W A;
}.
Arguments Operation {A}.
Arguments op_callable {A}.
Arguments op_targets {A}.
Arguments op_run {A}.

Definition emit (observer : option (PolicyEvent -> M W unit)) (event : PolicyEvent) : M W unit :=
  match observer with
  | Some observe => observe event
  | None => ret tt
  end.

Definition validate_callable {A} (op : operation A) (parameter : string) : M W unit :=
  raise_if (negb (op_callable op)) (TypeError (parameter +:+ " must be callable")).

Definition ensure_sync_operation {A} (op : operation A) : M W unit :=
  raise_if (negb (op_callable op)) (TypeError "operation must be callable") ;;
  raise_if
    (existsb (fun t => is_coroutine_function t || is_generator_function t
                       || is_async_generator_function t) (op_targets op))
    (TypeError "sync resilience policy requires a non-generator sync callable").

Definition ensure_async_operation {A} (op : operation A) : M W unit :=
  raise_if (negb (op_callable op)) (TypeError "operation must be callable") ;;
  raise_if
    (negb (existsb is_coroutine_function (op_targets op))
     || existsb (fun t => is_generator_function t || is_async_generator_function t)
          (op_targets op))
    (TypeError "async resilience policy requires an async callable").

(** How [inspect.isawaitable] sees a result: [None] for an ordinary value,
    [Some close] for an awaitable and its callable [close], if it has one. *)
Class Awaitable (A : Type) := awaitable : A -> option (option (M W unit)).

Definition ensure_sync_result {A} `{!Awaitable A} (result : A) : M W A :=
  match awaitable result with
  | None => ret result
  | Some close =>
      (match close with Some c => c | None => ret tt end) ;;
      raise SyncResultContractError
  end.

(** A function made by [def] (the [wrapped] of a sync policy) and one made by
    [async def] (that of an async policy): [inspect] looks at the function and
    at its method-wrapper [__call__]. *)
Definition plain_target : target := Build_target false false false.
Definition coroutine_target : target := Build_target true false false.

Definition sync_function {A} (run : M W A) : operation A :=
  Operation true [plain_target; plain_target] run.

Definition async_function {A} (run : M W A) : operation A :=
  Operation true [coroutine_target; plain_target] run.

(** A callback's result, validated: [_finite_non_negative(callback(), name)]. *)
Definition checked {A B} (m : M W A) (check : A -> outcome B) : M W B :=
  a <- m ;; pure_outcome (check a).

(** ** What the validators keep *)

Lemma keeps_emit (I : W -> Prop) observer event :
  (forall observe, observer = Some observe -> keeps I (observe event)) ->
  keeps I (emit observer event).
Proof. destruct observer; cbn; auto with bluetape. Qed.

Lemma keeps_validate_callable {A} (I : W -> Prop) (op : operation A) p :
  keeps I (validate_callable op p).
Proof. apply keeps_raise_if. Qed.

Lemma keeps_ensure_sync_operation {A} (I : W -> Prop) (op : operation A) :
  keeps I (ensure_sync_operation op).
Proof. unfold ensure_sync_operation. auto with bluetape. Qed.

Lemma keeps_ensure_async_operation {A} (I : W -> Prop) (op : operation A) :
  keeps I (ensure_async_operation op).
Proof. unfold ensure_async_operation. auto with bluetape. Qed.

Lemma keeps_ensure_sync_result {A} `{!Awaitable A} (I : W -> Prop) (result : A) :
  (forall c, awaitable result = Some (Some c) -> keeps I c) ->
  keeps I (ensure_sync_result result).
Proof.
  intros Hc. unfold ensure_sync_result.
  destruct (awaitable result) as [[c|]|] eqn:E; auto with bluetape.
Qed.

Lemma keeps_checked {A B} (I : W -> Prop) (m : M W A) (check : A -> outcome B) :
  keeps I m -> keeps I (checked m check).
Proof. unfold checked. auto with bluetape. Qed.
End Operations.

Arguments target : clear implicits.
Arguments operation : clear implicits.
Arguments Operation {W A}.
Arguments op_callable {W A}.
Arguments op_targets {W A}.
Arguments op_run {W A}.
Arguments Awaitable : clear implicits.

#[export] Hint Resolve keeps_emit keeps_validate_callable keeps_ensure_sync_operation
  keeps_ensure_async_operation keeps_ensure_sync_result keeps_checked : bluetape.

(** ** Lemmas on the validators *)

Lemma positive_int_spec v p z :
  positive_int v p = Returned z <-> v = PyInt z /\ (1 <= z)%Z.
Proof.
  split.
  - unfold positive_int. intros H. split_matches; bool_to_prop. split; [done|lia].
  - intros [-> H]. cbn. by destruct (Z.ltb_spec z 1); [lia|].
Qed.

Lemma finite_non_negative_spec v p f :
  finite_non_negative v p = Returned f ->
  is_finite f = true /\ flt f f0 = false /\ is_bool v = false.
Proof.
  unfold finite_non_negative. intros H. split_matches; bool_to_prop; auto.
Qed.

Lemma finite_positive_spec v p f :
  finite_positive v p = Returned f ->
  is_finite f = true /\ fle f f0 = false /\ is_bool v = false.
Proof.
  unfold finite_positive. intros H. split_matches; bool_to_prop; auto.
Qed.
