(* ===== verification/Circuit.v ===== *)
(** * Circuit breakers ([bluetape/resilience/_circuit.py])

    [CircuitData] and its five transitions, the synchronous and the asynchronous
    [call], and the accounting of half-open slots.  A breaker's [_data] is one
    object of the world, reached through a lens; its lock makes each transition
    one step.  The clock, the observer, [failure_if] and the operation are
    arbitrary computations of the world: another thread, or a re-entrant call,
    acts on the breaker inside them. *)

From Stdlib Require Import SpecFloat.
From S2P Require Import Prelude Python Resilience.
Open Scope py_scope.
Open Scope Z_scope.

(** ** The data and its transitions *)

Record Admission : Type := {
  adm_generation : Z;
  adm_state : CircuitState;
  owns_half_open_slot : bool;
}.

Record Transition : Type := {
  tr_previous : CircuitState;
  tr_current : CircuitState;
}.

Record CircuitData : Type := {
  failure_threshold : Z;
  open_duration : float;
  half_open_max_calls : Z;
  recovery_success_threshold : Z;
  state : CircuitState;
  consecutive_failures : Z;
  recovery_successes : Z;
  half_open_in_flight : Z;
  open_until : float;
  generation : Z;
}.

Definition circuit_data (failure_threshold : Z) (open_duration : float)
    (half_open_max_calls recovery_success_threshold : Z) : CircuitData := {|
  failure_threshold := failure_threshold;
  open_duration := open_duration;
  half_open_max_calls := half_open_max_calls;
  recovery_success_threshold := recovery_success_threshold;
  state := CLOSED;
  consecutive_failures := 0;
  recovery_successes := 0;
  half_open_in_flight := 0;
  open_until := f0;
  generation := 0;
|}.

Definition snapshot (d : CircuitData) (name : pystr) : CircuitSnapshot := {|
  cs_name := name;
  cs_state := state d;
  cs_consecutive_failures := consecutive_failures d;
  cs_recovery_successes := recovery_successes d;
  cs_half_open_in_flight := half_open_in_flight d;
|}.

(** Assignments to the counters. *)
Definition set_counters (d : CircuitData) (failures successes in_flight : Z) : CircuitData := {|
  failure_threshold := failure_threshold d;
  open_duration := open_duration d;
  half_open_max_calls := half_open_max_calls d;
  recovery_success_threshold := recovery_success_threshold d;
  state := state d;
  consecutive_failures := failures;
  recovery_successes := successes;
  half_open_in_flight := in_flight;
  open_until := open_until d;
  generation := generation d;
|}.

Definition transition (d : CircuitData) (new_state : CircuitState) (now : float)
    : Transition * CircuitData :=
  ({| tr_previous := state d; tr_current := new_state |},
   {| failure_threshold := failure_threshold d;
      open_duration := open_duration d;
      half_open_max_calls := half_open_max_calls d;
      recovery_success_threshold := recovery_success_threshold d;
      state := new_state;
      consecutive_failures := 0;
      recovery_successes := 0;
      half_open_in_flight := 0;
      open_until :=
        if decide (new_state = OPEN) then fadd now (open_duration d) else open_until d;
      generation := generation d + 1 |}).

(** The part of [admit] after the test of [open_until]. *)
Definition admit_slot (d : CircuitData) (tr : option Transition)
    : option Admission * option Transition * CircuitData :=
  let owns_slot := bool_decide (state d = HALF_OPEN) in
  let admission := {| adm_generation := generation d; adm_state := state d;
                      owns_half_open_slot := owns_slot |} in
  if owns_slot then
    if half_open_max_calls d <=? half_open_in_flight d then (None, tr, d)
    else (Some admission, tr,
          set_counters d (consecutive_failures d) (recovery_successes d)
            (half_open_in_flight d + 1))
  else (Some admission, tr, d).

Definition admit_call (d : CircuitData) (now : float)
    : option Admission * option Transition * CircuitData :=
  if decide (state d = OPEN) then
    if flt now (open_until d) then (None, None, d)
    else let '(tr, d') := transition d HALF_OPEN now in admit_slot d' (Some tr)
  else admit_slot d None.

Definition ignore (d : CircuitData) (admission : Admission) : CircuitData :=
  if (adm_generation admission =? generation d) && owns_half_open_slot admission
     && bool_decide (state d = HALF_OPEN)
  then set_counters d (consecutive_failures d) (recovery_successes d) (half_open_in_flight d - 1)
  else d.

Definition succeed (d : CircuitData) (admission : Admission) (now : float)
    : option Transition * CircuitData :=
  if negb (adm_generation admission =? generation d) then (None, d)
  else if owns_half_open_slot admission && bool_decide (state d = HALF_OPEN) then
    let d' := set_counters d (consecutive_failures d) (recovery_successes d + 1)
                (half_open_in_flight d - 1) in
    if recovery_success_threshold d' <=? recovery_successes d'
    then let '(tr, d'') := transition d' CLOSED now in (Some tr, d'')
    else (None, d')
  else if decide (state d = CLOSED)
  then (None, set_counters d 0 (recovery_successes d) (half_open_in_flight d))
  else (None, d).

Definition fail (d : CircuitData) (admission : Admission) (now : float)
    : option Transition * CircuitData :=
  if negb (adm_generation admission =? generation d) then (None, d)
  else if owns_half_open_slot admission && bool_decide (state d = HALF_OPEN) then
    let d' := set_counters d (consecutive_failures d) (recovery_successes d)
                (half_open_in_flight d - 1) in
    let '(tr, d'') := transition d' OPEN now in (Some tr, d'')
  else if decide (state d = CLOSED) then
    let d' := set_counters d (consecutive_failures d + 1) (recovery_successes d)
                (half_open_in_flight d) in
    if failure_threshold d' <=? consecutive_failures d'
    then let '(tr, d'') := transition d' OPEN now in (Some tr, d'')
    else (None, d')
  else (None, d).

(** [_CircuitEvents.make]. *)
Definition make_event (name : pystr) (kind : EventKind) (out : option PolicyOutcome)
    (category : Category.FailureCategory) (snap : CircuitSnapshot) (tr : option Transition)
    : PolicyEvent := {|
  ev_policy_name := name;
  ev_policy_type := CIRCUIT_BREAKER;
  ev_kind := kind;
  ev_outcome := out;
  ev_failure_category := category;
  ev_attempt := None;
  ev_delay := None;
  ev_timeout := None;
  ev_state := Some (cs_state snap);
  ev_previous_state := tr_previous <$> tr;
  ev_in_flight := Some (cs_half_open_in_flight snap);
  ev_waiters := None;
|}.

(** ** The synchronous breaker *)

Section SyncCircuit.
Context {W : Type}.

Record CircuitBreaker : Type := {
  cb_name : pystr;
  cb_data : lens W CircuitData;
  cb_failure_if : option (exn -> M W pyval);
  cb_observer : option (PolicyEvent -> M W unit);
  cb_clock : M W pyval;
}.

(** The constructor's validation; a fresh [_data] goes with the breaker. *)
Definition make_circuit_breaker (name failure_threshold open_duration half_open_max_calls
    recovery_success_threshold : pyval) : outcome (pystr * CircuitData) :=
  match validate_name name "name" with
  | Raised e => Raised e
  | Returned n =>
    match positive_int failure_threshold "failure_threshold" with
    | Raised e => Raised e
    | Returned ft =>
      match finite_positive open_duration "open_duration" with
      | Raised e => Raised e
      | Returned od =>
        match positive_int half_open_max_calls "half_open_max_calls" with
        | Raised e => Raised e
        | Returned hm =>
          match positive_int recovery_success_threshold "recovery_success_threshold" with
          | Raised e => Raised e
          | Returned rt => Returned (n, circuit_data ft od hm rt)
          end
        end
      end
    end
  end.

Variable cb : CircuitBreaker.

Definition get_snapshot : M W CircuitSnapshot :=
  locked (cb_data cb) (fun d => (snapshot d (cb_name cb), d)).

Definition release (admission : Admission) : M W CircuitSnapshot :=
  locked (cb_data cb) (fun d =>
    let d' := ignore d admission in (snapshot d' (cb_name cb), d')).

Definition classify (error : exn) : M W bool :=
  match cb_failure_if cb with
  | None => ret true
  | Some failure_if =>
      result <- failure_if error ;;
      match result with
      | PyBool b => ret b
      | _ => raise (TypeError "failure_if must return bool")
      end
  end.

Definition read_clock : M W float :=
  checked (cb_clock cb) (fun v => finite_non_negative v "clock result").

Definition emit_event (kind : EventKind) (out : option PolicyOutcome)
    (category : Category.FailureCategory) (snap : CircuitSnapshot) (tr : option Transition)
    : M W unit :=
  emit (cb_observer cb) (make_event (cb_name cb) kind out category snap tr).

(** [if transition is not None: _emit(...)]. *)
Definition emit_transition (snap : CircuitSnapshot) (tr : option Transition) : M W unit :=
  match tr with
  | Some t => emit_event CIRCUIT_TRANSITIONED None Category.NONE snap (Some t)
  | None => ret tt
  end.

(** [try: m except BaseException: self._release(admission); raise]. *)
Definition releasing {A} (admission : Admission) (m : M W A) : M W A :=
  try_except m (fun e => Some (release admission ;; raise e)).

(** The [try] block that announces the decision on the call: the admission of
    an admitted call, or the [CircuitOpenError] of a rejected one. *)
Definition announce (admission : option Admission) (tr : option Transition)
    (snap : CircuitSnapshot) : M W Admission :=
  try_except
    (emit_transition snap tr ;;
     match admission with
     | None =>
         emit_event REJECTED (Some REJECTION) Category.CIRCUIT_OPEN snap None ;;
         raise (CircuitOpenError (cb_name cb) (cs_state snap))
     | Some a => emit_event ADMITTED None Category.NONE snap None ;; ret a
     end)
    (fun e => Some
      (match admission with
       | Some a => release a ;; raise e
       | None => raise e
       end)).

(** The [except Exception as error] clause of [call]. *)
Definition on_error {A} (admission : Admission) (error : exn) : M W A :=
  classified <- releasing admission (classify error) ;;
  now <- releasing admission read_clock ;;
  let* (changed, snap) :=
    locked (cb_data cb) (fun d =>
      let '(changed, d') := if classified then fail d admission now else (None, d) in
      let d'' := if classified then d' else ignore d' admission in
      ((changed, snapshot d'' (cb_name cb)), d'')) in
  emit_transition snap changed ;;
  emit_event FAILED (Some FAILURE) (failure_category error) snap None ;;
  raise error.

Definition on_success {A} (admission : Admission) (result : A) : M W A :=
  now <- releasing admission read_clock ;;
  let* (changed, snap) :=
    locked (cb_data cb) (fun d =>
      let '(changed, d') := succeed d admission now in
      ((changed, snapshot d' (cb_name cb)), d')) in
  emit_transition snap changed ;;
  emit_event SUCCEEDED (Some SUCCESS) Category.NONE snap None ;;
  ret result.

Definition call {A} `{!Awaitable W A} (op : operation W A) : M W A :=
  validate_callable op "operation" ;;
  ensure_sync_operation op ;;
  now <- read_clock ;;
  let* (admission, tr, snap) :=
    locked (cb_data cb) (fun d =>
      let '(admission, tr, d') := admit_call d now in
      ((admission, tr, snapshot d' (cb_name cb)), d')) in
  a <- announce admission tr snap ;;
  result <-
    try_except (x <- op_run op ;; ensure_sync_result x)
      (fun e => Some
        (match e with
         | SyncResultContractError => release a ;; raise e
         | _ => if is_Exception e then on_error a e else release a ;; raise e
         end)) ;;
  on_success a result.

(** [CircuitBreaker.__call__]: the wrapped operation. *)
Definition wrap {A} `{!Awaitable W A} (op : operation W A) : M W (operation W A) :=
  validate_callable op "operation" ;;
  ensure_sync_operation op ;;
  ret (sync_function (call op)).
End SyncCircuit.
Arguments CircuitBreaker : clear implicits.

(** ** Accounting of half-open slots *)

(** An admission that still holds a slot of the current generation. *)
Definition holds_slot (d : CircuitData) (a : Admission) : bool :=
  (adm_generation a =? generation d) && owns_half_open_slot a
  && bool_decide (state d = HALF_OPEN).

(** The counters fit the state. *)
Record well_formed (d : CircuitData) : Prop := {
  wf_thresholds : 1 <= failure_threshold d /\ 1 <= half_open_max_calls d
                  /\ 1 <= recovery_success_threshold d;
  wf_failures : 0 <= consecutive_failures d < failure_threshold d;
  wf_failures_closed : state d <> CLOSED -> consecutive_failures d = 0;
  wf_successes : 0 <= recovery_successes d < recovery_success_threshold d;
  wf_in_flight : 0 <= half_open_in_flight d <= half_open_max_calls d;
  wf_half_open : state d <> HALF_OPEN -> recovery_successes d = 0 /\ half_open_in_flight d = 0;
}.

(** [outstanding] lists the admissions of the calls in progress: the slots in
    use are exactly those held, no admission is from a future generation, and
    one of the present generation owns a slot just when the breaker is
    half-open. *)
Record accounts (outstanding : list Admission) (d : CircuitData) : Prop := {
  ac_well_formed : well_formed d;
  ac_slots : half_open_in_flight d = count (holds_slot d) outstanding;
  ac_generations : Forall (fun a => adm_generation a <= generation d) outstanding;
  ac_owners : Forall (fun a => adm_generation a = generation d ->
                      owns_half_open_slot a = bool_decide (state d = HALF_OPEN)) outstanding;
}.

(** What a client may rely on when it completes each admission exactly once. *)
Class CircuitProtocol (I : list Admission -> CircuitData -> Prop) : Prop := {
  cp_admit outs d now a tr d' :
    I outs d -> admit_call d now = (Some a, tr, d') -> I (a :: outs) d';
  cp_reject outs d now tr d' :
    I outs d -> admit_call d now = (None, tr, d') -> I outs d';
  cp_ignore outs d a : I (a :: outs) d -> I outs (ignore d a);
  cp_succeed outs d a now tr d' :
    I (a :: outs) d -> succeed d a now = (tr, d') -> I outs d';
  cp_fail outs d a now tr d' :
    I (a :: outs) d -> fail d a now = (tr, d') -> I outs d';
}.

Lemma holds_slot_next_generation d d' outs :
  Forall (fun a => adm_generation a <= generation d) outs ->
  generation d' = generation d + 1 -> count (holds_slot d') outs = 0.
Proof.
  intros Hg E. apply count_zero. eapply Forall_impl; [exact Hg|].
  intros a Ha; cbn in Ha. unfold holds_slot. rewrite E.
  by destruct (Z.eqb_spec (adm_generation a) (generation d + 1)); [lia|].
Qed.

(** Entering a state: a new generation, with the counters at zero. *)
Lemma transition_accounts outs d s now :
  accounts outs d -> accounts outs (snd (transition d s now)).
Proof.
  intros [[(? & ? & ?)] Hs Hg Ho]. constructor; cbn.
  - constructor; cbn; try done; try lia.
  - symmetry. by apply (holds_slot_next_generation d).
  - eapply Forall_impl; [exact Hg|]. intros; cbn in *; lia.
  - eapply Forall_impl; [exact Hg|]. intros; cbn in *; lia.
Qed.

(** Forgetting an admission that holds no slot. *)
Lemma accounts_drop a outs d :
  accounts (a :: outs) d -> holds_slot d a = false -> accounts outs d.
Proof.
  intros [Hw Hs Hg Ho] Ha. constructor; try done.
  - by rewrite Hs, count_cons, Ha.
  - by inversion Hg.
  - by inversion Ho.
Qed.

Lemma holds_slot_state d a : holds_slot d a = true -> state d = HALF_OPEN.
Proof. unfold holds_slot. intros H. by bool_to_prop. Qed.

Lemma count_set_counters d f s i outs :
  count (holds_slot (set_counters d f s i)) outs = count (holds_slot d) outs.
Proof. done. Qed.

(** Giving back the slot of an admission. *)
Lemma accounts_give_back a outs d successes :
  accounts (a :: outs) d -> holds_slot d a = true ->
  0 <= successes < recovery_success_threshold d ->
  accounts outs (set_counters d (consecutive_failures d) successes (half_open_in_flight d - 1)).
Proof.
  intros [[Ht Hf Hfc Hr Hi Hh] Hs Hg Ho] Ha Hsucc.
  rewrite count_cons, Ha in Hs. pose proof (count_nonneg (holds_slot d) outs).
  constructor; rewrite ?count_set_counters; cbn; [|lia|by inversion Hg|by inversion Ho].
  constructor; cbn; try done; try lia.
  intros E. by rewrite (holds_slot_state d a) in E.
Qed.

Lemma admit_slot_accounts outs d tr0 a tr d' :
  accounts outs d -> state d <> OPEN ->
  admit_slot d tr0 = (Some a, tr, d') -> accounts (a :: outs) d'.
Proof.
  intros [[Ht Hf Hfc Hr Hi Hh] Hs Hg Ho] Hopen. unfold admit_slot. intros E.
  destruct (bool_decide_reflect (state d = HALF_OPEN)) as [Hst|Hst].
  - destruct (Z.leb_spec (half_open_max_calls d) (half_open_in_flight d)); simplify_eq.
    constructor; cbn.
    + constructor; cbn; try done; lia.
    + rewrite count_cons. unfold holds_slot at 1; cbn.
      rewrite Z.eqb_refl, bool_decide_eq_true_2 by done.
      rewrite count_set_counters, <-Hs. cbn. lia.
    + constructor; [cbn; lia|done].
    + rewrite bool_decide_eq_true_2 by done. by constructor.
  - simplify_eq. constructor; cbn; try done.
    + rewrite count_cons. unfold holds_slot at 1; cbn.
      by rewrite andb_false_r.
    + constructor; [cbn; lia|done].
    + rewrite bool_decide_eq_false_2 by done. by constructor.
Qed.

Lemma admit_slot_reject d tr0 tr d' :
  admit_slot d tr0 = (None, tr, d') -> d' = d.
Proof. unfold admit_slot. intros H. by split_matches. Qed.

(** An outcome of a past generation holds nothing; one of the present generation
    takes the half-open branch just when it holds a slot. *)
Lemma holds_slot_stale d a :
  negb (adm_generation a =? generation d) = true -> holds_slot d a = false.
Proof. unfold holds_slot. by destruct (adm_generation a =? generation d). Qed.

Lemma holds_slot_current d a :
  negb (adm_generation a =? generation d) = false ->
  owns_half_open_slot a && bool_decide (state d = HALF_OPEN) = holds_slot d a.
Proof. unfold holds_slot. by destruct (adm_generation a =? generation d). Qed.

(** Counting the failures of a closed breaker below its threshold. *)
Lemma accounts_closed_failures outs d f :
  accounts outs d -> state d = CLOSED -> 0 <= f < failure_threshold d ->
  accounts outs (set_counters d f (recovery_successes d) (half_open_in_flight d)).
Proof.
  intros [[] Hs Hg Ho] Hst Hf. constructor; rewrite ?count_set_counters; cbn; try done.
Qed.

Lemma admit_call_accounts outs d now a tr d' :
  accounts outs d -> admit_call d now = (Some a, tr, d') -> accounts (a :: outs) d'.
Proof.
  intros HI. unfold admit_call.
  destruct (decide _) as [Hst|Hst]; [|by apply admit_slot_accounts].
  destruct (flt _ _); [done|].
  apply admit_slot_accounts; [by apply (transition_accounts _ d HALF_OPEN now)|done].
Qed.

Lemma reject_call_accounts outs d now tr d' :
  accounts outs d -> admit_call d now = (None, tr, d') -> accounts outs d'.
Proof.
  intros HI. unfold admit_call.
  destruct (decide _) as [Hst|Hst]; [destruct (flt _ _); [by intros; simplify_eq|]|].
  - intros ->%admit_slot_reject. by apply (transition_accounts _ d HALF_OPEN now).
  - by intros ->%admit_slot_reject.
Qed.

Lemma ignore_accounts outs d a : accounts (a :: outs) d -> accounts outs (ignore d a).
Proof.
  intros HI. unfold ignore. fold (holds_slot d a).
  destruct (holds_slot d a) eqn:Ha; [|by eapply accounts_drop].
  eapply accounts_give_back; [done..|]. by destruct HI as [[]].
Qed.

Lemma succeed_accounts outs d a now :
  accounts (a :: outs) d -> accounts outs (snd (succeed d a now)).
Proof.
  intros HI. unfold succeed. destruct (negb _) eqn:Hgen.
  { eapply accounts_drop; [done|]. by apply holds_slot_stale. }
  rewrite holds_slot_current by done. destruct (holds_slot d a) eqn:Ha.
  - pose proof (wf_successes _ (ac_well_formed _ _ HI)) as Hr. cbn.
    destruct (Z.leb_spec (recovery_success_threshold d) (recovery_successes d + 1)); cbn.
    + pose proof (accounts_give_back a outs d (recovery_successes d) HI Ha Hr) as HI'.
      apply (transition_accounts _ _ CLOSED now HI').
    + eapply accounts_give_back; [done..|lia].
  - apply accounts_drop in HI; [|done]. destruct (decide _); cbn; [|done].
    apply accounts_closed_failures; [done..|]. destruct HI as [[]]. lia.
Qed.

Lemma fail_accounts outs d a now :
  accounts (a :: outs) d -> accounts outs (snd (fail d a now)).
Proof.
  intros HI. unfold fail. destruct (negb _) eqn:Hgen.
  { eapply accounts_drop; [done|]. by apply holds_slot_stale. }
  rewrite holds_slot_current by done. destruct (holds_slot d a) eqn:Ha.
  - assert (accounts outs (set_counters d (consecutive_failures d) (recovery_successes d)
              (half_open_in_flight d - 1))) as HI'.
    { eapply accounts_give_back; [done..|]. by destruct HI as [[]]. }
    apply (transition_accounts _ _ OPEN now HI').
  - apply accounts_drop in HI; [|done]. destruct (decide _) as [Hst|]; cbn; [|done].
    destruct (Z.leb_spec (failure_threshold d) (consecutive_failures d + 1)); cbn.
    + by apply (transition_accounts _ d OPEN now).
    + apply accounts_closed_failures; [done..|]. destruct HI as [[]]. lia.
Qed.

#[export] Instance accounts_protocol : CircuitProtocol accounts.
Proof.
  constructor; eauto using admit_call_accounts, reject_call_accounts, ignore_accounts.
  - intros outs d a now tr d' HI H. pose proof (succeed_accounts outs d a now HI) as H'.
    by rewrite H in H'.
  - intros outs d a now tr d' HI H. pose proof (fail_accounts outs d a now HI) as H'.
    by rewrite H in H'.
Qed.

(** The same beside calls of other threads, whose admissions are [others]. *)
Definition accounts_beside (others mine : list Admission) (d : CircuitData) : Prop :=
  accounts (mine ++ others) d.

#[export] Instance accounts_beside_protocol others : CircuitProtocol (accounts_beside others).
Proof.
  constructor; unfold accounts_beside; intros outs d.
  - intros now a tr d' H E. by eapply (cp_admit (I := accounts)).
  - intros now tr d' H E. by eapply (cp_reject (I := accounts)).
  - intros a H. by apply (cp_ignore (I := accounts)).
  - intros a now tr d' H E. by eapply (cp_succeed (I := accounts)).
  - intros a now tr d' H E. by eapply (cp_fail (I := accounts)).
Qed.

(** ** [call] completes every admission once *)

(** An external computation, whoever runs inside it, keeps the admissions
    [mine] of the calls in progress around it. *)
Definition respects {W A} (I : list Admission -> CircuitData -> Prop) (l : lens W CircuitData)
    (m : M W A) : Prop :=
  forall mine, keeps (fun w => I mine (lget l w)) m.

(** The same when [others] keeps the book of what the other threads do. *)
Definition respects_beside {W G A} (others : W -> G) (I : G -> list Admission -> CircuitData -> Prop)
    (l : lens W CircuitData) (m : M W A) : Prop :=
  forall mine, keeps (fun w => I (others w) mine (lget l w)) m.

Section CallProtocol.
Context {W G : Type} (cb : CircuitBreaker W) `{!LensLaws (cb_data cb)}.
Context (others : W -> G) `{!Framed (cb_data cb) others}.
Context (I : G -> list Admission -> CircuitData -> Prop) `{Hprotocol : !forall g, CircuitProtocol (I g)}.

Abbreviation held mine := (fun w => I (others w) mine (lget (cb_data cb) w)).
Abbreviation polite := (respects_beside others I (cb_data cb)).

Hypothesis clock_polite : polite (cb_clock cb).
Hypothesis observer_polite : forall observe e, cb_observer cb = Some observe -> polite (observe e).
Hypothesis failure_if_polite : forall f e, cb_failure_if cb = Some f -> polite (f e).

Lemma read_clock_keeps mine : keeps (held mine) (read_clock cb).
Proof. apply keeps_checked, clock_polite. Qed.

Lemma emit_event_keeps mine k o c s t : keeps (held mine) (emit_event cb k o c s t).
Proof. apply keeps_emit. intros. by apply observer_polite. Qed.

Lemma emit_transition_keeps mine s t : keeps (held mine) (emit_transition cb s t).
Proof. destruct t; [apply emit_event_keeps|apply keeps_ret]. Qed.

Lemma classify_keeps mine e : keeps (held mine) (classify cb e).
Proof.
  unfold classify. destruct (cb_failure_if cb) as [f|] eqn:E; [|apply keeps_ret].
  apply keeps_bind; [by apply failure_if_polite|].
  intros []; auto with bluetape.
Qed.

(** A step on the data that completes [a], or keeps it. *)
Lemma locked_triple {A} P (f : CircuitData -> A * CircuitData) Q :
  (forall g d, P g d -> Q g (fst (f d)) (snd (f d))) ->
  triple (fun w => P (others w) (lget (cb_data cb) w)) (locked (cb_data cb) f)
    (fun r w => match r with Returned a => Q (others w) a (lget (cb_data cb) w)
                | Raised _ => False end).
Proof. intros H. apply triple_locked. intros w Hw. rewrite lget_lput, framed. by apply H. Qed.

(** [release; raise] gives the slot back, and raises. *)
Lemma release_raise_settled {A} a mine e :
  triple (settled (held (a :: mine)) (@Raised A e)) (release cb a ;; @raise W A e)
    (raised (held mine)).
Proof.
  intros w Hw. unfold bind, release, locked, raised, settled. cbn.
  destruct Hw as [[= ->]|Hw]; [by left|]. right. rewrite lget_lput, framed. by apply cp_ignore.
Qed.

(** The post-condition of a statement that completes [a] when it raises. *)
Definition kept_or_completed {A} a mine (r : outcome A) (w : W) : Prop :=
  match r with
  | Returned _ => held (a :: mine) w
  | Raised _ => settled (held mine) r w
  end.

Lemma releasing_held {A} a mine (m : M W A) :
  keeps (held (a :: mine)) m ->
  triple (held (a :: mine)) (releasing cb a m) (kept_or_completed a mine).
Proof.
  intros Hm. apply triple_try_except with
    (E := fun e => settled (held (a :: mine)) (@Raised A e)).
  - eapply triple_conseq; [apply Hm|done|]. by intros [] w; [intros [ [=] | ] | ].
  - intros e h _ [= <-]. eapply triple_conseq; [apply release_raise_settled|done|].
    by intros [] w.
  - intros e w [ [=] | -> ] ?. by left.
Qed.

Lemma releasing_bind_held {A B} a mine (m : M W A) (k : A -> M W B) Q :
  keeps (held (a :: mine)) m ->
  (forall e w, settled (held mine) (@Raised A e) w -> Q (Raised e) w) ->
  (forall x, triple (held (a :: mine)) (k x) Q) ->
  triple (held (a :: mine)) (bind (releasing cb a m) k) Q.
Proof.
  intros Hm HQ Hk. apply triple_bind with (R := fun _ => held (a :: mine)); [|done].
  eapply triple_conseq; [by apply releasing_held|done|].
  intros [] w; [done|apply HQ].
Qed.

(** A transition of the data that completes [a], then the events. *)
Lemma completing_bind {A B} a mine (f : CircuitData -> A * CircuitData) (k : A -> M W B) Q :
  (forall g d, I g (a :: mine) d -> I g mine (snd (f d))) ->
  (forall x, triple (held mine) (k x) Q) ->
  triple (held (a :: mine)) (bind (locked (cb_data cb) f) k) Q.
Proof.
  intros Hf Hk. apply triple_bind with (R := fun _ => held mine); [|done].
  eapply triple_conseq; [apply (locked_triple (fun g => I g (a :: mine)) f (fun g _ => I g mine))|done|].
  - intros g d H. by apply Hf.
  - by intros [] w.
Qed.

Lemma on_error_held {A} a mine e :
  triple (held (a :: mine)) (@on_error W cb A a e) (raised (held mine)).
Proof.
  unfold on_error.
  apply releasing_bind_held; [apply classify_keeps|intros ??; apply settled_raised|].
  intros classified.
  apply releasing_bind_held; [apply read_clock_keeps|intros ??; apply settled_raised|].
  intros now. apply completing_bind.
  { intros g d H. destruct classified; cbn; [|by apply cp_ignore].
    destruct (fail d a now) as [tr d'] eqn:E. by eapply cp_fail. }
  intros [changed snap].
  apply triple_keeps_bind; [apply emit_transition_keeps|intros ??; apply settled_raised|intros _].
  apply triple_keeps_bind; [apply emit_event_keeps|intros ??; apply settled_raised|intros _].
  apply triple_raise. by right.
Qed.

Lemma on_success_held {A} a mine (x : A) :
  triple (held (a :: mine)) (on_success cb a x) (settled (held mine)).
Proof.
  unfold on_success.
  apply releasing_bind_held; [apply read_clock_keeps|intros ??; apply settled_raised|].
  intros now. apply completing_bind.
  { intros g d H. destruct (succeed d a now) as [tr d'] eqn:E. by eapply cp_succeed. }
  intros [changed snap]. apply keeps_bind; [apply emit_transition_keeps|intros _].
  apply keeps_bind; [apply emit_event_keeps|intros _; apply keeps_ret].
Qed.

Lemma announce_held admission tr snap mine :
  triple (held (option_list admission ++ mine)) (announce cb admission tr snap)
    (fun r w => match r with
                | Returned a => admission = Some a /\ held (a :: mine) w
                | Raised _ => settled (held mine) r w
                end).
Proof.
  apply triple_try_except with
    (E := fun e => settled (held (option_list admission ++ mine)) (@Raised Admission e)).
  - apply triple_keeps_bind; [apply emit_transition_keeps|intros ??; apply settled_raised|]. intros _.
    destruct admission as [a|].
    + apply triple_keeps_bind; [apply emit_event_keeps|intros ??; apply settled_raised|]. intros _.
      by apply triple_ret.
    + apply triple_keeps_bind; [apply emit_event_keeps|intros ??; apply settled_raised|]. intros _.
      apply triple_raise. by right.
  - intros e h _ [= <-]. destruct admission as [a|]; cbn.
    + eapply triple_conseq; [apply release_raise_settled|done|]. by intros [] w.
    + by apply triple_raise.
  - intros e w [ [=] | -> ] ?. by left.
Qed.

(** [call] keeps the admissions of everyone else and leaves none of its own. *)
Lemma call_polite {A} `{!Awaitable W A} (op : operation W A) :
  polite (op_run op) ->
  (forall (x : A) c, awaitable x = Some (Some c) -> polite c) ->
  polite (call cb op).
Proof.
  intros Hop Haw mine. unfold call.
  apply keeps_bind; [apply keeps_validate_callable|intros _].
  apply keeps_bind; [apply keeps_ensure_sync_operation|intros _].
  apply keeps_bind; [apply read_clock_keeps|intros now].
  apply triple_bind with (R := fun p => held (option_list p.1.1 ++ mine)).
  { eapply triple_conseq; [apply (locked_triple (fun g => I g mine) _
      (fun g p => I g (option_list p.1.1 ++ mine)))|done|intros [] w H; [exact H|done]].
    intros g d H. destruct (admit_call d now) as [[[a|] tr] d'] eqn:E; cbn.
    - by eapply cp_admit.
    - by eapply cp_reject. }
  intros [[admission tr] snap]; cbn [fst].
  apply triple_bind with (R := fun a => held (a :: mine)).
  { eapply triple_conseq; [apply announce_held|intros w Hw; exact Hw|].
    intros [a|e] w; [intros [_ H]; exact H|apply settled_raised]. }
  intros a. apply triple_bind with (R := fun _ => held (a :: mine)); [|intros x; apply on_success_held].
  apply triple_try_except with (E := fun e => settled (held (a :: mine)) (@Raised A e)).
  - assert (keeps (held (a :: mine)) (x <- op_run op ;; ensure_sync_result x)) as Hk.
    { apply keeps_bind; [apply Hop|]. intros x. apply keeps_ensure_sync_result.
      intros c Hc. by eapply Haw. }
    eapply triple_conseq; [apply Hk|done|]. by intros [] w; [intros [ [=] | ] | ].
  - intros e h _ [= <-].
    assert (forall e', is_Exception e' = true ->
              triple (settled (held (a :: mine)) (@Raised A e')) (@on_error W cb A a e')
                (raised (held mine))) as Herr.
    { intros e' He' w [[= ->]|Hw]; [done|by apply on_error_held]. }
    apply triple_conseq with (P' := settled (held (a :: mine)) (@Raised A e))
      (Q' := raised (held mine)); [|done|by intros [] w].
    destruct e; cbn [is_Exception]; first [by apply Herr|apply release_raise_settled].
  - intros e w [ [=] | -> ] ?. by left.
Qed.
End CallProtocol.

(** ** Calls interleaved at the granularity of the lock *)

Lemma accounts_perm outs outs' d : outs ≡ₚ outs' -> accounts outs d -> accounts outs' d.
Proof.
  intros Hp [Hw Hs Hg Ho]. constructor; [done| |by rewrite <-Hp|by rewrite <-Hp].
  by rewrite Hs, (count_perm _ _ _ Hp).
Qed.

(** One critical section of some thread.  The second component of a
    configuration lists the admissions not completed yet. *)
Inductive circuit_step : CircuitData * list Admission -> CircuitData * list Admission -> Prop :=
| step_admitted d outs now a tr d' :
    admit_call d now = (Some a, tr, d') -> circuit_step (d, outs) (d', a :: outs)
| step_rejected d outs now tr d' :
    admit_call d now = (None, tr, d') -> circuit_step (d, outs) (d', outs)
| step_ignored d outs outs' a :
    outs ≡ₚ a :: outs' -> circuit_step (d, outs) (ignore d a, outs')
| step_succeeded d outs outs' a now :
    outs ≡ₚ a :: outs' -> circuit_step (d, outs) (snd (succeed d a now), outs')
| step_failed d outs outs' a now :
    outs ≡ₚ a :: outs' -> circuit_step (d, outs) (snd (fail d a now), outs').

Lemma circuit_step_accounts d outs d' outs' :
  circuit_step (d, outs) (d', outs') -> accounts outs d -> accounts outs' d'.
Proof.
  inversion 1; subst; intros HI.
  - by eapply admit_call_accounts.
  - by eapply reject_call_accounts.
  - apply ignore_accounts. by eapply accounts_perm.
  - apply succeed_accounts. by eapply accounts_perm.
  - apply fail_accounts. by eapply accounts_perm.
Qed.

Lemma circuit_data_accounts ft od hm rt :
  1 <= ft -> 1 <= hm -> 1 <= rt -> accounts [] (circuit_data ft od hm rt).
Proof. intros. constructor; cbn; try done. constructor; cbn; try done; lia. Qed.

(** [C5] In every interleaving of the threads that call a breaker, at the
    granularity of its lock, the half-open counter equals the number of calls
    in progress that hold a slot of the present generation; it never goes
    below zero nor above [half_open_max_calls], and the failure and success
    counters stay below their thresholds. *)
Theorem circuit_slots_accounted ft od hm rt d outs :
  1 <= ft -> 1 <= hm -> 1 <= rt ->
  rtc circuit_step (circuit_data ft od hm rt, []) (d, outs) ->
  half_open_in_flight d = count (holds_slot d) outs
  /\ 0 <= half_open_in_flight d <= half_open_max_calls d
  /\ 0 <= consecutive_failures d < failure_threshold d
  /\ 0 <= recovery_successes d < recovery_success_threshold d.
Proof.
  intros Hft Hhm Hrt Hreach.
  cut (accounts outs d); [intros [[] ?]; auto|].
  refine (rtc_invariant circuit_step (fun c => accounts c.2 c.1) _ (d, outs) _ Hreach _).
  - intros [] []. apply circuit_step_accounts.
  - by apply circuit_data_accounts.
Qed.

(** A synchronous [call], whatever the operation, the observer, the clock
    and [failure_if] return or raise, completes its admission exactly once: it
    leaves the slots exactly to the calls that were in progress around it,
    provided that those computations (which may run further calls) do so too.
    In particular no slot leaks on any path. *)
Theorem call_leaks_no_slot {W A} (cb : CircuitBreaker W) `{!LensLaws (cb_data cb)}
    `{!Awaitable W A} (op : operation W A) :
  respects accounts (cb_data cb) (cb_clock cb) ->
  (forall observe e, cb_observer cb = Some observe -> respects accounts (cb_data cb) (observe e)) ->
  (forall f e, cb_failure_if cb = Some f -> respects accounts (cb_data cb) (f e)) ->
  respects accounts (cb_data cb) (op_run op) ->
  (forall (x : A) c, awaitable x = Some (Some c) -> respects accounts (cb_data cb) c) ->
  forall mine w r w',
    accounts mine (lget (cb_data cb) w) ->
    call cb op w = (r, w') ->
    r = Raised FuelExhausted \/ accounts mine (lget (cb_data cb) w').
Proof.
  intros Hc Ho Hf Hop Haw mine w r w' HI E.
  pose proof (call_polite cb (fun _ => tt) (fun _ => accounts) Hc Ho Hf op Hop Haw mine w HI) as H.
  by rewrite E in H.
Qed.

(** [C11] The same under interference: when other threads admit and complete
    calls of their own during every callback and during the operation, a [call]
    still only ever completes its own admission, and completes it once.
    [others] keeps the book of the admissions of the other threads, and what
    they do to the breaker they enter in it; the call, which does not, leaves
    the slots in use exactly those that [others] and the calls around it hold. *)
Theorem call_safe_under_interference {W A} (cb : CircuitBreaker W) `{!LensLaws (cb_data cb)}
    (others : W -> list Admission) `{!Framed (cb_data cb) others}
    `{!Awaitable W A} (op : operation W A) :
  let considerate {B} := respects_beside (A := B) others accounts_beside (cb_data cb) in
  considerate (cb_clock cb) ->
  (forall observe e, cb_observer cb = Some observe -> considerate (observe e)) ->
  (forall f e, cb_failure_if cb = Some f -> considerate (f e)) ->
  considerate (op_run op) ->
  (forall (x : A) c, awaitable x = Some (Some c) -> considerate c) ->
  forall mine w r w',
    accounts (mine ++ others w) (lget (cb_data cb) w) ->
    call cb op w = (r, w') ->
    r = Raised FuelExhausted \/ accounts (mine ++ others w') (lget (cb_data cb) w').
Proof.
  intros considerate Hc Ho Hf Hop Haw mine w r w' HI E.
  pose proof (call_polite cb others accounts_beside Hc Ho Hf op Hop Haw mine w HI) as H.
  by rewrite E in H.
Qed.

(** ** A breaker without interference *)

Section Sequential.
Variables (name : pystr) (clock : pyval) (failure_if : option (exn -> pyval)).

(** A world with the breaker's data and the events its observer received. *)
Definition seq_world : Type := CircuitData * list PolicyEvent.

Definition seq_data : lens seq_world CircuitData := Lens _ _ fst (fun d w => (d, snd w)).

Definition seq_breaker : CircuitBreaker seq_world := {|
  cb_name := name;
  cb_data := seq_data;
  cb_failure_if := (fun f e => ret (f e)) <$> failure_if;
  cb_observer := Some (fun e w => (Returned tt, (fst w, snd w ++ [e])));
  cb_clock := ret clock;
|}.

#[export] Instance no_awaitable {A} : Awaitable seq_world A := fun _ => None.

#[export] Instance seq_data_laws : LensLaws seq_data.
Proof. constructor; [by intros ? []|by intros []|by intros ? ? []]. Qed.

#[export] Instance seq_breaker_laws : LensLaws (cb_data seq_breaker) := seq_data_laws.

(** An operation that ends with [r] and leaves the breaker alone. *)
Definition seq_operation {A} (r : outcome A) : operation seq_world A :=
  sync_function (pure_outcome r).

(** The events of a transition. *)
Definition transition_events (d : CircuitData) (tr : option Transition) : list PolicyEvent :=
  match tr with
  | Some t => [make_event name CIRCUIT_TRANSITIONED None Category.NONE (snapshot d name) (Some t)]
  | None => []
  end.

(** What a call promises: the outcome, the new data and the events. *)
Definition call_spec {A} (d : CircuitData) (now : float) (r : outcome A)
    : outcome A * CircuitData * list PolicyEvent :=
  match admit_call d now with
  | (None, tr, d1) =>
      (Raised (CircuitOpenError name (state d1)), d1,
       transition_events d1 tr
       ++ [make_event name REJECTED (Some REJECTION) Category.CIRCUIT_OPEN (snapshot d1 name) None])
  | (Some a, tr, d1) =>
      let admitted := transition_events d1 tr
        ++ [make_event name ADMITTED None Category.NONE (snapshot d1 name) None] in
      match r with
      | Returned x =>
          let '(tr2, d2) := succeed d1 a now in
          (Returned x, d2, admitted ++ transition_events d2 tr2
            ++ [make_event name SUCCEEDED (Some SUCCESS) Category.NONE (snapshot d2 name) None])
      | Raised e =>
          if is_Exception e && negb (bool_decide (e = SyncResultContractError)) then
            match (match failure_if with Some f => f e | None => PyBool true end) with
            | PyBool classified =>
                let '(tr2, d2) := if classified then fail d1 a now else (None, ignore d1 a) in
                (Raised e, d2, admitted ++ transition_events d2 tr2
                  ++ [make_event name FAILED (Some FAILURE) (failure_category e)
                        (snapshot d2 name) None])
            | _ => (Raised (TypeError "failure_if must return bool"), ignore d1 a, admitted)
            end
          else (Raised e, ignore d1 a, admitted)
      end
  end.

Lemma seq_emit_transition d log tr :
  emit_transition seq_breaker (snapshot d name) tr (d, log)
  = (Returned tt, (d, log ++ transition_events d tr)).
Proof. destruct tr; cbn; [done|]. by rewrite app_nil_r. Qed.

Lemma seq_announce a tr d log :
  announce seq_breaker (Some a) tr (snapshot d name) (d, log)
  = (Returned a, (d, log ++ transition_events d tr
       ++ [make_event name ADMITTED None Category.NONE (snapshot d name) None])).
Proof.
  unfold announce, try_except, bind. rewrite seq_emit_transition. cbn. by rewrite <-app_assoc.
Qed.

Lemma seq_announce_rejected tr d log :
  announce seq_breaker None tr (snapshot d name) (d, log)
  = (Raised (CircuitOpenError name (state d)), (d, log ++ transition_events d tr
       ++ [make_event name REJECTED (Some REJECTION) Category.CIRCUIT_OPEN
             (snapshot d name) None])).
Proof.
  unfold announce, try_except, bind. rewrite seq_emit_transition. cbn. by rewrite <-app_assoc.
Qed.

Lemma seq_on_success {A} a (x : A) d log now :
  finite_non_negative clock "clock result" = Returned now ->
  on_success seq_breaker a x (d, log)
  = let '(tr, d') := succeed d a now in
    (Returned x, (d', log ++ transition_events d' tr
       ++ [make_event name SUCCEEDED (Some SUCCESS) Category.NONE (snapshot d' name) None])).
Proof.
  intros Hnow. unfold on_success, releasing, try_except, bind, read_clock, checked, pure_outcome,
    locked. cbn -[succeed]. rewrite Hnow. cbn -[succeed].
  destruct (succeed d a now) as [tr d']. rewrite seq_emit_transition. cbn.
  by rewrite <-app_assoc.
Qed.

Lemma seq_classify e :
  classify seq_breaker e
  = match (match failure_if with Some f => f e | None => PyBool true end) with
    | PyBool b => ret b
    | _ => raise (TypeError "failure_if must return bool")
    end.
Proof. unfold classify. cbn. destruct failure_if as [f|]; cbn; [|done]. by destruct (f e). Qed.

Lemma seq_on_error {A} a e d log now :
  finite_non_negative clock "clock result" = Returned now ->
  @on_error _ seq_breaker A a e (d, log)
  = match (match failure_if with Some f => f e | None => PyBool true end) with
    | PyBool classified =>
        let '(tr, d') := if classified then fail d a now else (None, ignore d a) in
        (Raised e, (d', log ++ transition_events d' tr
           ++ [make_event name FAILED (Some FAILURE) (failure_category e) (snapshot d' name) None]))
    | _ => (Raised (TypeError "failure_if must return bool"), (ignore d a, log))
    end.
Proof.
  intros Hnow. unfold on_error. rewrite seq_classify.
  destruct (match failure_if with Some f => f e | None => PyBool true end); try done.
  unfold releasing, try_except, bind, read_clock, checked, pure_outcome, locked.
  cbn -[fail]. rewrite Hnow. cbn -[fail].
  destruct b; [destruct (fail d a now) as [tr d']|];
    [|set (tr := @None Transition); set (d' := ignore d a)];
    rewrite (seq_emit_transition d' log tr); cbn; by rewrite <-app_assoc.
Qed.

(** With no interference, a [call] implements [call_spec] on every
    branch: which outcome reaches the caller, how the data changes, and which
    events the observer receives, in order.  A rejected call does not run its
    operation; an exception outside [Exception], or an awaitable result, gives
    the slot back without counting. *)
Theorem call_sequential {A} d log now (r : outcome A) :
  finite_non_negative clock "clock result" = Returned now ->
  r <> Raised FuelExhausted ->
  call seq_breaker (seq_operation r) (d, log)
  = let '(out, d', events) := call_spec d now r in (out, (d', log ++ events)).
Proof.
  intros Hnow Hr.
  unfold call, call_spec, bind, validate_callable, ensure_sync_operation, raise_if, read_clock,
    checked, pure_outcome, locked.
  cbn -[admit_call announce on_error on_success]. rewrite Hnow.
  cbn -[admit_call announce on_error on_success].
  destruct (admit_call d now) as [[[a|] tr] d1].
  2: { by rewrite seq_announce_rejected. }
  rewrite seq_announce. unfold try_except. destruct r as [x|e]; cbn -[on_error on_success].
  - rewrite (seq_on_success _ _ _ _ now) by done.
    destruct (succeed d1 a now). by rewrite <-!app_assoc.
  - destruct e; cbn [is_Exception andb bool_decide negb]; rewrite ?(seq_on_error _ _ _ _ now) by done; cbn -[fail]; try done;
      destruct (match failure_if with Some f => _ | None => PyBool true end) as [|[]| | | | |];
      rewrite ?app_nil_r; try done; try (destruct (fail d1 a now); by rewrite <-!app_assoc);
      by rewrite <-!app_assoc.
Qed.
End Sequential.

(** ** Thresholds *)

(** Outcomes reported one after the other, each with its clock reading. *)
Fixpoint fail_all (d : CircuitData) (l : list (Admission * float)) : CircuitData :=
  match l with
  | [] => d
  | (a, now) :: l' => fail_all (snd (fail d a now)) l'
  end.

Fixpoint succeed_all (d : CircuitData) (l : list (Admission * float)) : CircuitData :=
  match l with
  | [] => d
  | (a, now) :: l' => succeed_all (snd (succeed d a now)) l'
  end.

Lemma fail_all_app d l l' : fail_all d (l ++ l') = fail_all (fail_all d l) l'.
Proof. revert d. induction l as [|[] l IH]; intros d; cbn; auto. Qed.

Lemma succeed_all_app d l l' : succeed_all d (l ++ l') = succeed_all (succeed_all d l) l'.
Proof. revert d. induction l as [|[] l IH]; intros d; cbn; auto. Qed.

(** A failure of the present generation on a closed breaker. *)
Lemma fail_closed d a now :
  state d = CLOSED -> adm_generation a = generation d ->
  snd (fail d a now) =
    (if failure_threshold d <=? consecutive_failures d + 1
     then snd (transition d OPEN now)
     else set_counters d (consecutive_failures d + 1) (recovery_successes d) (half_open_in_flight d)).
Proof.
  intros Hs Ha. unfold fail. rewrite Ha, Z.eqb_refl, Hs. cbn.
  rewrite andb_false_r. by destruct (failure_threshold d <=? consecutive_failures d + 1).
Qed.

(** Below the threshold the breaker stays closed and counts. *)
Lemma fail_all_closed d l :
  state d = CLOSED ->
  Forall (fun p => adm_generation (fst p) = generation d) l ->
  consecutive_failures d + Z.of_nat (length l) < failure_threshold d ->
  fail_all d l = set_counters d (consecutive_failures d + Z.of_nat (length l))
                   (recovery_successes d) (half_open_in_flight d).
Proof.
  revert d. induction l as [|[a now] l IH]; intros d Hs Hl Hn.
  - rewrite Z.add_0_r. by destruct d.
  - inversion Hl as [|? ? Ha Hl']; subst; cbn in Ha. cbn [fail_all length] in *.
    rewrite fail_closed by done.
    destruct (Z.leb_spec (failure_threshold d) (consecutive_failures d + 1)); [lia|].
    rewrite IH; cbn; try done; [f_equal; lia|lia].
Qed.

(** A success of the present generation that owns a slot of a half-open breaker. *)
Lemma succeed_half_open d a now :
  state d = HALF_OPEN -> adm_generation a = generation d -> owns_half_open_slot a = true ->
  snd (succeed d a now) =
    (if recovery_success_threshold d <=? recovery_successes d + 1
     then snd (transition d CLOSED now)
     else set_counters d (consecutive_failures d) (recovery_successes d + 1)
            (half_open_in_flight d - 1)).
Proof.
  intros Hs Ha Ho. unfold succeed. rewrite Ha, Z.eqb_refl, Ho, Hs. cbn.
  by destruct (recovery_success_threshold d <=? recovery_successes d + 1).
Qed.

Lemma succeed_all_half_open d l :
  state d = HALF_OPEN ->
  Forall (fun p => adm_generation (fst p) = generation d /\ owns_half_open_slot (fst p) = true) l ->
  recovery_successes d + Z.of_nat (length l) < recovery_success_threshold d ->
  succeed_all d l = set_counters d (consecutive_failures d)
      (recovery_successes d + Z.of_nat (length l)) (half_open_in_flight d - Z.of_nat (length l)).
Proof.
  revert d. induction l as [|[a now] l IH]; intros d Hs Hl Hn.
  - rewrite Z.add_0_r, Z.sub_0_r. by destruct d.
  - inversion Hl as [|? ? [Ha Ho] Hl']; subst; cbn in Ha, Ho. cbn [succeed_all length] in *.
    rewrite succeed_half_open by done.
    destruct (Z.leb_spec (recovery_success_threshold d) (recovery_successes d + 1)); [lia|].
    rewrite IH; cbn; try done; [f_equal; lia|lia].
Qed.

(** A closed breaker stays closed, counting, for fewer than
    [failure_threshold] consecutive failures of the present generation, and the
    failure that reaches the threshold opens it until [now + open_duration], in
    a new generation with the counters cleared. *)
Theorem opens_exactly_at_threshold d l a now :
  state d = CLOSED -> consecutive_failures d = 0 ->
  Forall (fun p => adm_generation (fst p) = generation d) (l ++ [(a, now)]) ->
  Z.of_nat (length l) + 1 = failure_threshold d ->
  state (fail_all d l) = CLOSED
  /\ consecutive_failures (fail_all d l) = Z.of_nat (length l)
  /\ (let d' := fail_all d (l ++ [(a, now)]) in
      state d' = OPEN /\ open_until d' = fadd now (open_duration d)
      /\ generation d' = generation d + 1 /\ consecutive_failures d' = 0).
Proof.
  intros Hs Hc Hl Hn. apply Forall_app in Hl as [Hl Ha]. apply Forall_inv in Ha. cbn in Ha.
  rewrite fail_all_app, (fail_all_closed d l) by (done || lia).
  cbn [fail_all]. rewrite fail_closed by first [exact Hs|exact Ha]. cbn.
  destruct (Z.leb_spec (failure_threshold d) (consecutive_failures d + Z.of_nat (length l) + 1));
    [|lia]. cbn. repeat split; try done; lia.
Qed.

(** A half-open breaker stays half-open for fewer than
    [recovery_success_threshold] successes of its slots and closes with the
    success that reaches it; one failure of a slot re-opens it at once. *)
Theorem recovers_exactly_at_threshold d l a now :
  state d = HALF_OPEN -> recovery_successes d = 0 ->
  Forall (fun p => adm_generation (fst p) = generation d /\ owns_half_open_slot (fst p) = true)
    (l ++ [(a, now)]) ->
  Z.of_nat (length l) + 1 = recovery_success_threshold d ->
  state (succeed_all d l) = HALF_OPEN
  /\ state (succeed_all d (l ++ [(a, now)])) = CLOSED
  /\ generation (succeed_all d (l ++ [(a, now)])) = generation d + 1
  /\ state (snd (fail (succeed_all d l) a now)) = OPEN
  /\ open_until (snd (fail (succeed_all d l) a now)) = fadd now (open_duration d).
Proof.
  intros Hs Hc Hl Hn. apply Forall_app in Hl as [Hl Ha].
  apply Forall_inv in Ha as [Ha Ho]. cbn in Ha, Ho.
  rewrite succeed_all_app, (succeed_all_half_open d l) by (done || lia).
  cbn [succeed_all]. rewrite succeed_half_open by first [exact Hs|exact Ha|exact Ho]. unfold fail. cbn.
  destruct (Z.leb_spec (recovery_success_threshold d)
    (recovery_successes d + Z.of_nat (length l) + 1)); [|lia].
  rewrite Ha, Z.eqb_refl, Ho, Hs. done.
Qed.

(** ** Witnesses *)

Section Witnesses.
Abbreviation w_data := (circuit_data 2 f1 1 1).

Lemma circuit_slots_accounted_witness :
  1 <= 2 /\ half_open_in_flight w_data = count (holds_slot w_data) []
  /\ 0 <= half_open_in_flight w_data <= half_open_max_calls w_data
  /\ 0 <= consecutive_failures w_data < failure_threshold w_data
  /\ 0 <= recovery_successes w_data < recovery_success_threshold w_data.
Proof.
  split; [lia|].
  apply (circuit_slots_accounted 2 f1 1 1 w_data []); [lia..|constructor].
Defined.

Abbreviation w_breaker := (seq_breaker (py "db") (PyInt 5) None).
Abbreviation w_operation := (seq_operation (Returned true)).

(** The parts of [w_breaker] leave the data alone. *)
Lemma w_respects (I : list Admission -> CircuitData -> Prop) {A} (m : M seq_world A) :
  (forall w, fst (snd (m w)) = fst w) -> respects I seq_data m.
Proof. intros Hm mine w Hw. right. unfold seq_data in *; cbn in *. by rewrite Hm. Qed.

Lemma call_leaks_no_slot_witness :
  exists r w', call w_breaker w_operation (w_data, []) = (r, w')
    /\ accounts [] (lget (cb_data w_breaker) (w_data, []))
    /\ (r = Raised FuelExhausted \/ accounts [] (lget (cb_data w_breaker) w')).
Proof.
  eexists _, _. split; [reflexivity|].
  assert (accounts [] w_data) as Hacc by (apply circuit_data_accounts; lia).
  split; [exact Hacc|].
  refine (call_leaks_no_slot w_breaker w_operation _ _ _ _ _ [] (w_data, []) _ _ Hacc eq_refl).
  - by apply w_respects.
  - intros observe e [= <-]. by apply w_respects.
  - done.
  - by apply w_respects.
  - done.
Defined.

(** A world with the admissions of other threads, one more of which is admitted
    while the operation runs. *)
Definition w_shared : Type := CircuitData * list Admission.

Definition w_shared_breaker : CircuitBreaker w_shared := {|
  cb_name := py "db";
  cb_data := Lens _ _ fst (fun d w => (d, snd w));
  cb_failure_if := None;
  cb_observer := None;
  cb_clock := ret (PyInt 5);
|}.

Definition w_visited : operation w_shared bool := sync_function (fun w =>
  match admit_call (fst w) f0 with
  | (Some a, _, d) => (Raised (UserException 1), (d, a :: snd w))
  | (None, _, d) => (Raised (UserException 1), (d, snd w))
  end).

#[export] Instance w_shared_awaitable : Awaitable w_shared bool := fun _ => None.
#[export] Instance w_shared_laws : LensLaws (cb_data w_shared_breaker).
Proof. constructor; [by intros ? []|by intros []|by intros ? ? []]. Qed.
#[export] Instance w_shared_framed : Framed (cb_data w_shared_breaker) snd.
Proof. by intros ? []. Qed.

Definition w_slot_taken : CircuitData := snd (transition (circuit_data 2 f1 3 2) HALF_OPEN f0).

Lemma call_safe_under_interference_witness :
  exists w', call w_shared_breaker w_visited (w_slot_taken, []) = (Raised (UserException 1), w')
    /\ length (snd w') = 1%nat /\ accounts ([] ++ snd w') (fst w').
Proof.
  assert (accounts [] w_slot_taken) as Hacc.
  { apply transition_accounts. apply circuit_data_accounts; lia. }
  eexists. split; [reflexivity|]. split; [reflexivity|].
  assert (forall B (m : M w_shared B), (forall w, snd (m w) = w) ->
    respects_beside snd accounts_beside (cb_data w_shared_breaker) m) as Hstill.
  { intros B m Hm mine w Hw. right. by rewrite Hm. }
  edestruct (call_safe_under_interference w_shared_breaker snd w_visited) with (mine := @nil Admission)
    (w := (w_slot_taken, @nil Admission)) as [H|H];
    [by apply Hstill|done|done| |done|exact Hacc|reflexivity|discriminate H|exact H].
  intros mine [d outs] Hw. right. cbn in *. unfold accounts_beside in *.
  destruct (admit_call d f0) as [[[a|] tr] d'] eqn:E; cbn.
  - eapply accounts_perm; [|by eapply admit_call_accounts]. by rewrite Permutation_middle.
  - by eapply reject_call_accounts.
Defined.

(** A failure below the threshold of two. *)
Lemma call_sequential_witness :
  finite_non_negative (PyInt 5) "clock result" = Returned (SFmul 53 1024 f1 (binary_normalize 53 1024 5 0 false))
  /\ call w_breaker (seq_operation (Raised (A := bool) (UserException 1))) (w_data, [])
     = let '(out, d', events) := call_spec (py "db") None w_data
           (SFmul 53 1024 f1 (binary_normalize 53 1024 5 0 false))
           (Raised (A := bool) (UserException 1)) in (out, (d', [] ++ events)).
Proof.
  split; [vm_compute; reflexivity|].
  apply (call_sequential (py "db") (PyInt 5) None); [vm_compute; reflexivity|done].
Defined.

Abbreviation w_admission := {| adm_generation := 0; adm_state := CLOSED; owns_half_open_slot := false |}.

Lemma opens_exactly_at_threshold_witness :
  state (fail_all w_data [(w_admission, f0); (w_admission, f1)]) = OPEN.
Proof.
  destruct (opens_exactly_at_threshold w_data [(w_admission, f0)] w_admission f1)
    as (_ & _ & H & _); [reflexivity..|by repeat constructor|reflexivity|exact H].
Defined.

Abbreviation w_half_open := (snd (transition (circuit_data 2 f1 2 2) HALF_OPEN f0)).
Abbreviation w_slot := {| adm_generation := 1; adm_state := HALF_OPEN; owns_half_open_slot := true |}.

Lemma recovers_exactly_at_threshold_witness :
  state (succeed_all w_half_open [(w_slot, f0); (w_slot, f1)]) = CLOSED.
Proof.
  destruct (recovers_exactly_at_threshold w_half_open [(w_slot, f0)] w_slot f1)
    as (_ & H & _); [reflexivity..|by repeat constructor|reflexivity|exact H].
Defined.
End Witnesses.
