(* ===== verification/Backoff.v ===== *)
(** * Backoff strategies ([bluetape/resilience/_backoff.py])

    A strategy maps the number of the failed attempt to a delay.  The float
    power [x ** n] of the platform is the parameter [fpow]; [None] is its
    [OverflowError]. *)

From Stdlib Require Import SpecFloat.
From S2P Require Import Prelude Python Resilience.
Open Scope py_scope.
Open Scope Z_scope.

Section Backoff.
Context {W : Type}.
Variable fpow : float -> Z -> option float.

Record ExponentialBackoff : Type := {
  initial_delay : float;
  multiplier : float;
  max_delay : option float;
  jitter : float;
  random_source : M W pyval;
}.

Inductive Backoff : Type :=
| ConstantBackoff (delay : float)
| Exponential (b : ExponentialBackoff).

(** [constant_backoff(delay)]. *)
Definition constant_backoff (delay : pyval) : outcome Backoff :=
  match finite_non_negative delay "delay" with
  | Returned d => Returned (ConstantBackoff d)
  | Raised e => Raised e
  end.

(** [exponential_backoff(...)]; [random_source] is taken to be callable. *)
Definition exponential_backoff (initial multiplier : pyval) (max_delay : option pyval)
    (jitter : pyval) (source : M W pyval) : outcome Backoff :=
  match finite_positive initial "initial_delay" with
  | Raised e => Raised e
  | Returned initial =>
    match finite_positive multiplier "multiplier" with
    | Raised e => Raised e
    | Returned factor =>
      match (match max_delay with
             | None => Returned None
             | Some v => match finite_positive v "max_delay" with
                         | Returned f => Returned (Some f)
                         | Raised e => Raised e
                         end
             end) with
      | Raised e => Raised e
      | Returned maximum =>
        match finite_non_negative jitter "jitter" with
        | Raised e => Raised e
        | Returned j =>
            if flt f1 j then Raised (ValueError "jitter must be in the range 0..1")
            else Returned (Exponential {| initial_delay := initial; multiplier := factor;
                             max_delay := maximum; jitter := j; random_source := source |})
        end
      end
    end
  end.

(** The delay before jitter. *)
Definition base_delay (b : ExponentialBackoff) (attempt : Z) : float :=
  let base := match fpow (multiplier b) (attempt - 1) with
              | Some p => fmul (initial_delay b) p
              | None => finf
              end in
  match max_delay b with
  | Some maximum => fmin base maximum
  | None => base
  end.

Definition two : float := fadd f1 f1.

(** [strategy(failed_attempt)]. *)
Definition next_delay (s : Backoff) (failed_attempt : pyval) : M W pyval :=
  attempt <- pure_outcome (positive_int failed_attempt "failed_attempt") ;;
  match s with
  | ConstantBackoff delay => ret (PyFloat delay)
  | Exponential b =>
      let base := base_delay b attempt in
      if feq (jitter b) f0 then
        d <- pure_outcome (finite_non_negative (PyFloat base) "backoff result") ;;
        ret (PyFloat d)
      else
        random_value <- random_source b ;;
        raise_if (is_bool random_value || negb (is_int_or_float random_value))
          (TypeError "random_source result must be a finite number in the range 0..1") ;;
        random_result <- pure_outcome (to_float random_value) ;;
        raise_if (negb (fle f0 random_result && fle random_result f1))
          (ValueError "random_source result must be a finite number in the range 0..1") ;;
        let factor := fadd (fsub f1 (jitter b)) (fmul (fmul two (jitter b)) random_result) in
        d <- pure_outcome (finite_non_negative (PyFloat (fmul base factor)) "backoff result") ;;
        ret (PyFloat d)
  end.
End Backoff.

(** ** Bounds *)

(** The order of finite floats is total. *)
Lemma fle_of_not_flt (x y : float) :
  is_finite x = true -> is_finite y = true -> flt y x = false -> fle x y = true.
Proof.
  unfold flt, fle, SFltb, SFleb.
  destruct x as [[]| | |[] mx ex], y as [[]| | |[] my ey]; try done; intros _ _; cbn;
    rewrite (Z.compare_antisym ex ey); change (Pos.compare_cont Eq) with Pos.compare;
    rewrite ?(Pos.compare_antisym mx my); destruct (ex ?= ey), (mx ?= my)%positive; done.
Qed.

(** [C19] Every delay an exponential strategy returns is finite and not negative,
    and without jitter it never exceeds [max_delay]; overflow of the power is
    absorbed by the cap. *)
Theorem exponential_delay_bounded {W} fpow (b : ExponentialBackoff (W := W)) attempt w v w' :
  next_delay fpow (Exponential b) attempt w = (Returned v, w') ->
  exists d, v = PyFloat d /\ is_finite d = true /\ flt d f0 = false
    /\ (forall m, max_delay b = Some m -> is_finite m = true -> feq (jitter b) f0 = true ->
          fle d m = true).
Proof.
  unfold next_delay, bind, pure_outcome. intros H.
  destruct (positive_int attempt _) as [n|]; [|done].
  destruct (feq (jitter b) f0) eqn:Hj.
  - destruct (finite_non_negative (PyFloat (base_delay fpow b n)) _) as [d|] eqn:Hd; [|done].
    unfold ret in H. simplify_eq. exists d.
    pose proof (finite_non_negative_spec _ _ _ Hd) as (Hf & Hn & _).
    split; [done|]. split; [exact Hf|]. split; [exact Hn|]. intros m Hm Hmf _.
    assert (d = base_delay fpow b n) as ->.
    { unfold finite_non_negative in Hd. cbn in Hd. by split_matches. }
    unfold base_delay in *. rewrite Hm in *. unfold fmin in *.
    destruct (flt m _) eqn:Hlt; [by apply fle_of_not_flt; [..|apply flt_irrefl]|].
    by apply fle_of_not_flt.
  - destruct (random_source b w) as [[r|] w1]; [|done].
    destruct (raise_if _ _ w1) as [[[]|] w2]; [|done].
    destruct (to_float r) as [rr|]; [|done].
    destruct (raise_if _ _ w2) as [[[]|] w3]; [|done].
    destruct (finite_non_negative _ _) as [d|] eqn:Hd; [|done].
    unfold ret in H. simplify_eq. exists d.
    by pose proof (finite_non_negative_spec _ _ _ Hd) as (Hf & Hn & _).
Qed.

(** A constant power that always overflows, capped at one second. *)
Lemma exponential_delay_bounded_witness :
  let b := {| initial_delay := f1; multiplier := two; max_delay := Some f1; jitter := f0;
              random_source := ret PyNone |} in
  next_delay (W := unit) (fun _ _ => None) (Exponential b) (PyInt 3) tt = (Returned (PyFloat f1), tt)
  /\ exists d, PyFloat f1 = PyFloat d /\ is_finite d = true /\ flt d f0 = false
    /\ (forall m, Some f1 = Some m -> is_finite m = true -> feq f0 f0 = true -> fle d m = true).
Proof.
  intros b.
  assert (next_delay (W := unit) (fun _ _ => None) (Exponential b) (PyInt 3) tt
          = (Returned (PyFloat f1), tt)) as H by (vm_compute; reflexivity).
  split; [exact H|]. exact (exponential_delay_bounded (fun _ _ => None) b (PyInt 3) tt _ tt H).
Defined.
