(* ===== verification/Retry.v ===== *)
(** * Retry policies ([bluetape/resilience/_retry.py])

    The synchronous and the asynchronous retry loops.  A loop runs the operation
    at most [max_attempts] times; the model gives it that many rounds of fuel
    and [retry_terminates] shows that they are enough. *)

From Stdlib Require Import SpecFloat.
From S2P Require Import Prelude Python Resilience.
Open Scope py_scope.
Open Scope Z_scope.

(** [_event] of the module. *)
Definition retry_event (name : pystr) (kind : EventKind) (out : option PolicyOutcome)
    (category : Category.FailureCategory) (attempt : Z) (delay : option float) : PolicyEvent := {|
  ev_policy_name := name;
  ev_policy_type := RETRY;
  ev_kind := kind;
  ev_outcome := out;
  ev_failure_category := category;
  ev_attempt := Some attempt;
  ev_delay := delay;
  ev_timeout := None;
  ev_state := None;
  ev_previous_state := None;
  ev_in_flight := None;
  ev_waiters := None;
|}.

Section Retry.
Context {W : Type}.

(** The attributes of a [Retry] and of an [AsyncRetry]; awaiting the sleeper of
    the latter is part of its effect. *)
Record Retry : Type := {
  rt_name : pystr;
  rt_max_attempts : Z;
  rt_backoff : pyval -> M W pyval;
  rt_retry_if : option (exn -> M W pyval);
  rt_observer : option (PolicyEvent -> M W unit);
  rt_sleeper : float -> M W unit;
}.

(** The constructor's validation of [name] and [max_attempts]. *)
Definition make_retry (name max_attempts : pyval) : outcome (pystr * Z) :=
  match validate_name name "name" with
  | Raised e => Raised e
  | Returned n =>
    match positive_int max_attempts "max_attempts" with
    | Raised e => Raised e
    | Returned k => Returned (n, k)
    end
  end.

Variable rt : Retry.

Definition is_retryable (error : exn) : M W bool :=
  match rt_retry_if rt with
  | None =>
      ret (match error with
           | CircuitOpenError _ _ | BulkheadRejectedError _ | PolicyTimeoutError _ _ => false
           | _ => true
           end)
  | Some retry_if =>
      result <- retry_if error ;;
      match result with
      | PyBool b => ret b
      | _ => raise (TypeError "retry_if must return bool")
      end
  end.

Definition emit_retry (kind : EventKind) (out : option PolicyOutcome)
    (category : Category.FailureCategory) (attempt : Z) (delay : option float) : M W unit :=
  emit (rt_observer rt) (retry_event (rt_name rt) kind out category attempt delay).

(** The [except Exception as error] clause: raises, or sleeps before the next
    attempt. *)
Definition on_failure (attempt : Z) (error : exn) : M W unit :=
  retryable <- is_retryable error ;;
  if negb retryable then
    emit_retry FAILED (Some FAILURE) (failure_category error) attempt None ;;
    raise error
  else if rt_max_attempts rt <=? attempt then
    emit_retry FAILED (Some FAILURE) Category.RETRY_EXHAUSTED attempt None ;;
    raise (RetryExhaustedError (rt_name rt) attempt error)
  else
    delay <- checked (rt_backoff rt (PyInt attempt))
               (fun v => finite_non_negative v "backoff result") ;;
    emit_retry RETRY_SCHEDULED None (failure_category error) attempt (Some delay) ;;
    rt_sleeper rt delay.

(** The [while True] loop of [Retry.call]. *)
Fixpoint retry_loop {A} `{!Awaitable W A} (op : operation W A) (fuel : nat) (attempt : Z)
    : M W A :=
  match fuel with
  | O => raise FuelExhausted
  | S fuel' =>
      attempted <-
        try_except (x <- op_run op ;; ret (Some x))
          (fun e =>
             match e with
             | SyncResultContractError => None
             | _ => if is_Exception e then Some (on_failure attempt e ;; ret None) else None
             end) ;;
      match attempted with
      | None => retry_loop op fuel' (attempt + 1)
      | Some x =>
          result <- ensure_sync_result x ;;
          emit_retry SUCCEEDED (Some SUCCESS) Category.NONE attempt None ;;
          ret result
      end
  end.

Definition call {A} `{!Awaitable W A} (op : operation W A) : M W A :=
  validate_callable op "operation" ;;
  ensure_sync_operation op ;;
  retry_loop op (Z.to_nat (rt_max_attempts rt)) 1.

(** [Retry.__call__]. *)
Definition wrap {A} `{!Awaitable W A} (op : operation W A) : M W (operation W A) :=
  validate_callable op "operation" ;;
  ensure_sync_operation op ;;
  ret (sync_function (call op)).

(** The loop of [AsyncRetry.call]: a cancellation passes through, and there is
    no result contract. *)
Fixpoint async_retry_loop {A} (op : operation W A) (fuel : nat) (attempt : Z) : M W A :=
  match fuel with
  | O => raise FuelExhausted
  | S fuel' =>
      attempted <-
        try_except (x <- op_run op ;; ret (Some x))
          (fun e =>
             match e with
             | CancelledError => None
             | _ => if is_Exception e then Some (on_failure attempt e ;; ret None) else None
             end) ;;
      match attempted with
      | None => async_retry_loop op fuel' (attempt + 1)
      | Some result =>
          emit_retry SUCCEEDED (Some SUCCESS) Category.NONE attempt None ;;
          ret result
      end
  end.

Definition async_call {A} (op : operation W A) : M W A :=
  validate_callable op "operation" ;;
  ensure_async_operation op ;;
  async_retry_loop op (Z.to_nat (rt_max_attempts rt)) 1.

(** [AsyncRetry.__call__]. *)
Definition async_wrap {A} (op : operation W A) : M W (operation W A) :=
  validate_callable op "operation" ;;
  ensure_async_operation op ;;
  ret (async_function (async_call op)).

(** ** What the loops keep *)

Section Keeps.
Context (I : W -> Prop).
Hypothesis backoff_keeps : forall v, keeps I (rt_backoff rt v).
Hypothesis retry_if_keeps : forall f e, rt_retry_if rt = Some f -> keeps I (f e).
Hypothesis observer_keeps : forall f e, rt_observer rt = Some f -> keeps I (f e).
Hypothesis sleeper_keeps : forall d, keeps I (rt_sleeper rt d).

Lemma emit_retry_keeps k o c n d : keeps I (emit_retry k o c n d).
Proof. apply keeps_emit. intros. by apply observer_keeps. Qed.

Lemma is_retryable_keeps e : keeps I (is_retryable e).
Proof.
  unfold is_retryable. destruct (rt_retry_if rt) as [f|] eqn:E; [|apply keeps_ret].
  apply keeps_bind; [by apply retry_if_keeps|]. intros []; auto with bluetape.
Qed.

Lemma on_failure_keeps n e : keeps I (on_failure n e).
Proof.
  apply keeps_bind; [apply is_retryable_keeps|intros []; cbn].
  - destruct (_ <=? _).
    + apply keeps_bind; [apply emit_retry_keeps|auto with bluetape].
    + apply keeps_bind; [apply keeps_checked, backoff_keeps|intros d].
      apply keeps_bind; [apply emit_retry_keeps|intros _; apply sleeper_keeps].
  - apply keeps_bind; [apply emit_retry_keeps|auto with bluetape].
Qed.

Lemma retry_loop_keeps {A} `{!Awaitable W A} (op : operation W A) fuel n :
  keeps I (op_run op) -> (forall (x : A) c, awaitable x = Some (Some c) -> keeps I c) ->
  keeps I (retry_loop op fuel n).
Proof.
  intros Hop Haw. revert n. induction fuel as [|fuel IH]; intros n; cbn; [apply keeps_raise|].
  apply keeps_bind.
  - apply keeps_try_except; [apply keeps_bind; auto with bluetape|].
    intros e h Hh. assert (h = (on_failure n e ;; ret None)) as ->
      by (destruct e; cbn in Hh; by simplify_eq).
    apply keeps_bind; [apply on_failure_keeps|auto with bluetape].
  - intros [x|]; [|apply IH].
    apply keeps_bind; [apply keeps_ensure_sync_result; eauto|intros y].
    apply keeps_bind; [apply emit_retry_keeps|auto with bluetape].
Qed.

Lemma call_keeps {A} `{!Awaitable W A} (op : operation W A) :
  keeps I (op_run op) -> (forall (x : A) c, awaitable x = Some (Some c) -> keeps I c) ->
  keeps I (call op).
Proof. intros. unfold call. auto using retry_loop_keeps with bluetape. Qed.
End Keeps.
End Retry.
Arguments Retry : clear implicits.

(** ** Termination *)

(** [m] never runs out of fuel of its own. *)
Definition terminates {W A} (m : M W A) : Prop := forall w, fst (m w) <> Raised FuelExhausted.

Lemma terminates_ret {W A} (a : A) : terminates (W := W) (ret a).
Proof. done. Qed.

Lemma terminates_raise {W A} e : e <> FuelExhausted -> terminates (@raise W A e).
Proof. intros He w [=]. done. Qed.

Lemma terminates_raise_if {W} c e : e <> FuelExhausted -> terminates (@raise_if W c e).
Proof. intros He w. destruct c; [intros [=]|]; done. Qed.

Lemma terminates_pure_outcome {W A} (r : outcome A) :
  r <> Raised FuelExhausted -> terminates (W := W) (pure_outcome r).
Proof. intros Hr w. done. Qed.

Lemma terminates_bind {W A B} (m : M W A) (k : A -> M W B) :
  terminates m -> (forall a, terminates (k a)) -> terminates (bind m k).
Proof.
  intros Hm Hk w. unfold bind. specialize (Hm w). destruct (m w) as [[a|e] w']; [apply Hk|].
  cbn in *. congruence.
Qed.

Lemma finite_non_negative_terminates v p : finite_non_negative v p <> Raised FuelExhausted.
Proof.
  unfold finite_non_negative, to_float. intros H. by split_matches.
Qed.

#[export] Hint Resolve terminates_ret terminates_raise terminates_raise_if
  terminates_pure_outcome terminates_bind finite_non_negative_terminates : bluetape.

Section Termination.
Context {W : Type} (rt : Retry W).
Hypothesis backoff_terminates : forall v, terminates (rt_backoff rt v).
Hypothesis retry_if_terminates : forall f e, rt_retry_if rt = Some f -> terminates (f e).
Hypothesis observer_terminates : forall f e, rt_observer rt = Some f -> terminates (f e).
Hypothesis sleeper_terminates : forall d, terminates (rt_sleeper rt d).

Lemma emit_retry_terminates k o c n d : terminates (emit_retry rt k o c n d).
Proof.
  unfold emit_retry, emit. destruct (rt_observer rt) as [f|] eqn:E; [|auto with bluetape].
  by apply observer_terminates.
Qed.

Lemma is_retryable_terminates e : terminates (is_retryable rt e).
Proof.
  unfold is_retryable. destruct (rt_retry_if rt) as [f|] eqn:E; [|auto with bluetape].
  apply terminates_bind; [by apply retry_if_terminates|].
  intros []; auto with bluetape.
Qed.

(** The clause returns only when another attempt is left. *)
Lemma on_failure_terminates n e :
  e <> FuelExhausted ->
  terminates (on_failure rt n e)
  /\ (rt_max_attempts rt <= n -> forall w w', on_failure rt n e w <> (Returned tt, w')).
Proof.
  intros He. split.
  - apply terminates_bind; [apply is_retryable_terminates|intros []; cbn].
    + destruct (_ <=? _).
      * apply terminates_bind; [apply emit_retry_terminates|auto with bluetape].
      * apply terminates_bind.
        { apply terminates_bind; [apply backoff_terminates|auto with bluetape]. }
        intros d. apply terminates_bind; [apply emit_retry_terminates|auto].
    + apply terminates_bind; [apply emit_retry_terminates|auto with bluetape].
  - intros Hn w w'. unfold on_failure, bind at 1.
    destruct (is_retryable rt e w) as [[[]|] w1]; cbn; [| |done].
    + destruct (Z.leb_spec (rt_max_attempts rt) n); [|lia].
      unfold bind. by destruct (emit_retry _ _ _ _ _ _ w1) as [[[]|] w2].
    + unfold bind. by destruct (emit_retry _ _ _ _ _ _ w1) as [[[]|] w2].
Qed.

Lemma retry_loop_terminates {A} `{!Awaitable W A} (op : operation W A) fuel n :
  terminates (op_run op) -> (forall (x : A) c, awaitable x = Some (Some c) -> terminates c) ->
  rt_max_attempts rt < n + Z.of_nat fuel -> n <= rt_max_attempts rt ->
  terminates (retry_loop rt op fuel n).
Proof.
  intros Hop Haw. revert n. induction fuel as [|fuel IH]; intros n Hfuel Hn; [lia|].
  cbn. intros w. unfold bind at 1, try_except, bind at 1.
  specialize (Hop w). destruct (op_run op w) as [[x|e] w1]; cbn.
  - unfold bind at 1, ensure_sync_result. destruct (awaitable x) as [c|] eqn:Ha; cbn.
    + assert (terminates (match c with Some c => c | None => ret tt end)) as Hc
        by (destruct c; [by eapply Haw|auto with bluetape]).
      unfold bind at 1. specialize (Hc w1).
      destruct (match c with Some c => c | None => ret tt end w1) as [[]w2]; cbn in *; [done|congruence].
    + exact (terminates_bind _ _ (emit_retry_terminates _ _ _ _ _)
        (fun _ => terminates_ret (W := W) x) w1).
  - assert (e <> FuelExhausted) as He by (intros ->; done).
    destruct (on_failure_terminates n e He) as [Ht Hlast].
    assert (forall w', fst (match (bind (on_failure rt n e) (fun _ => ret (@None A))) w' with
              | (Returned None, w2) => retry_loop rt op fuel (n + 1) w2
              | (Returned (Some x), w2) =>
                  (result <- ensure_sync_result x ;;
                   emit_retry rt SUCCEEDED (Some SUCCESS) Category.NONE n None ;;
                   ret result) w2
              | (Raised e0, w2) => (Raised e0, w2)
              end) <> Raised FuelExhausted) as Hhandled.
    { intros w'. unfold bind at 1. specialize (Ht w'). specialize (Hlast).
      destruct (on_failure rt n e w') as [[[]|e2] w2] eqn:E; cbn in *; [|congruence].
      destruct (Z.le_gt_cases (rt_max_attempts rt) n) as [Hle|Hgt].
      - by specialize (Hlast Hle w' w2).
      - apply IH; lia. }
    specialize (Hhandled w1).
    destruct e; cbn [is_Exception] in *; try done;
      destruct (bind (on_failure rt n _) _ w1) as [[[|]|] ?]; done.
Qed.
End Termination.

(** A retry policy always ends: when the operation and the callbacks do,
    the loop's fuel of [max_attempts] rounds is never exhausted, so every call
    returns or raises. *)
Theorem retry_terminates {W A} (rt : Retry W) `{!Awaitable W A} (op : operation W A) w :
  1 <= rt_max_attempts rt ->
  (forall v, terminates (rt_backoff rt v)) ->
  (forall f e, rt_retry_if rt = Some f -> terminates (f e)) ->
  (forall f e, rt_observer rt = Some f -> terminates (f e)) ->
  (forall d, terminates (rt_sleeper rt d)) ->
  terminates (op_run op) -> (forall (x : A) c, awaitable x = Some (Some c) -> terminates c) ->
  fst (call rt op w) <> Raised FuelExhausted.
Proof.
  intros Hmax Hb Hr Ho Hs Hop Haw. revert w.
  apply terminates_bind; [by apply terminates_raise_if|intros _].
  apply terminates_bind; [unfold ensure_sync_operation; auto with bluetape|intros _].
  apply retry_loop_terminates; auto; lia.
Qed.

(** ** Scripted operations *)

Section Scripted.
Context {A : Type}.
Variables (name : pystr) (max_attempts : Z) (retry_if : option (exn -> bool)) (backoff : Z -> float).

(** A world with the outcomes of the next runs of the operation, the events
    observed and the delays slept. *)
Record script_world : Type := {
  sc_script : list (outcome A);
  sc_events : list PolicyEvent;
  sc_sleeps : list float;
}.

Definition scripted_operation : operation script_world A :=
  sync_function (fun w =>
    match sc_script w with
    | [] => (Raised (UserBaseException 0), w)
    | r :: s => (r, {| sc_script := s; sc_events := sc_events w; sc_sleeps := sc_sleeps w |})
    end).

Definition scripted_retry : Retry script_world := {|
  rt_name := name;
  rt_max_attempts := max_attempts;
  rt_backoff v := ret (match v with PyInt n => PyFloat (backoff n) | _ => PyNone end);
  rt_retry_if := (fun f e => ret (PyBool (f e))) <$> retry_if;
  rt_observer := Some (fun e w => (Returned tt,
    {| sc_script := sc_script w; sc_events := sc_events w ++ [e]; sc_sleeps := sc_sleeps w |}));
  rt_sleeper d := fun w => (Returned tt,
    {| sc_script := sc_script w; sc_events := sc_events w; sc_sleeps := sc_sleeps w ++ [d] |});
|}.

#[export] Instance script_awaitable : Awaitable script_world A := fun _ => None.

(** What the policy retries. *)
Definition retries (e : exn) : bool :=
  is_Exception e && negb (bool_decide (e = SyncResultContractError)) &&
  match retry_if with
  | Some f => f e
  | None =>
      match e with
      | CircuitOpenError _ _ | BulkheadRejectedError _ | PolicyTimeoutError _ _ => false
      | _ => true
      end
  end.

(** The events of scheduling a retry after each of [errors], from attempt [n]. *)
Fixpoint scheduled (n : Z) (errors : list exn) : list PolicyEvent :=
  match errors with
  | [] => []
  | e :: errors' =>
      retry_event name RETRY_SCHEDULED None (failure_category e) n (Some (backoff n))
      :: scheduled (n + 1) errors'
  end.

Fixpoint delays (n : Z) (errors : list exn) : list float :=
  match errors with
  | [] => []
  | _ :: errors' => backoff n :: delays (n + 1) errors'
  end.

Hypothesis backoff_valid : forall n, is_finite (backoff n) = true /\ flt (backoff n) f0 = false.

Lemma scripted_is_retryable e w :
  is_Exception e = true -> e <> SyncResultContractError ->
  is_retryable scripted_retry e w = (Returned (retries e), w).
Proof.
  intros He Hs. unfold is_retryable, retries. rewrite He, bool_decide_eq_false_2 by done. cbn.
  by destruct retry_if.
Qed.

(** One failed attempt that is retried. *)
Lemma retry_loop_retry e s events sleeps fuel n :
  retries e = true -> n < max_attempts ->
  retry_loop scripted_retry scripted_operation (S fuel) n
    {| sc_script := Raised e :: s; sc_events := events; sc_sleeps := sleeps |}
  = retry_loop scripted_retry scripted_operation fuel (n + 1)
      {| sc_script := s; sc_events := events ++ scheduled n [e];
         sc_sleeps := sleeps ++ delays n [e] |}.
Proof.
  intros He Hn. assert (is_Exception e = true /\ e <> SyncResultContractError) as [Hex Hs].
  { unfold retries in He. apply andb_true_iff in He as [[H1 H2]%andb_true_iff _].
    split; [done|]. by intros ->. }
  cbn [retry_loop]. unfold bind at 1, try_except, bind at 1. cbn [op_run scripted_operation sync_function sc_script].
  assert (forall w, (on_failure scripted_retry n e ;; ret (@None A)) w =
     (Returned None, {| sc_script := sc_script w; sc_events := sc_events w ++ scheduled n [e];
         sc_sleeps := sc_sleeps w ++ delays n [e] |})) as Hf.
  { intros w. unfold on_failure, bind. rewrite scripted_is_retryable by done. rewrite He. cbn.
    destruct (Z.leb_spec max_attempts n); [lia|].
    destruct (backoff_valid n) as [Hfin Hneg].
    unfold checked, bind, pure_outcome, finite_non_negative. cbn. by rewrite Hfin, Hneg. }
  destruct e; cbn in Hex, Hs; try done; cbn [is_Exception]; by rewrite Hf.
Qed.

Lemma retry_loop_prefix errors s events sleeps fuel n :
  Forall (fun e => retries e = true) errors -> n + Z.of_nat (length errors) <= max_attempts ->
  retry_loop scripted_retry scripted_operation (length errors + fuel) n
    {| sc_script := (Raised <$> errors) ++ s; sc_events := events; sc_sleeps := sleeps |}
  = retry_loop scripted_retry scripted_operation fuel (n + Z.of_nat (length errors))
      {| sc_script := s; sc_events := events ++ scheduled n errors;
         sc_sleeps := sleeps ++ delays n errors |}.
Proof.
  revert n events sleeps. induction errors as [|e errors IH]; intros n events sleeps He Hn.
  - by rewrite Z.add_0_r, !app_nil_r.
  - inversion He as [|? ? He1 He2]; subst.
    cbn [length Nat.add] in *. rewrite fmap_cons. cbn [app].
    rewrite retry_loop_retry by (done || lia). rewrite IH by (done || lia).
    cbn. rewrite <-!app_assoc. f_equal; lia.
Qed.
End Scripted.

Section ScriptedTheorems.
Context {A : Type}.
Variables (name : pystr) (max_attempts : Z) (retry_if : option (exn -> bool)) (backoff : Z -> float).
Hypothesis backoff_valid : forall n, is_finite (backoff n) = true /\ flt (backoff n) f0 = false.

Abbreviation policy := (scripted_retry (A := A) name max_attempts retry_if backoff).

(** The initial world of a script. *)
Definition script (s : list (outcome A)) : script_world :=
  {| sc_script := s; sc_events := []; sc_sleeps := [] |}.

Lemma call_scripted s errors r :
  Forall (fun e => retries retry_if e = true) errors ->
  1 + Z.of_nat (length errors) <= max_attempts ->
  call policy scripted_operation (script ((Raised <$> errors) ++ r :: s))
  = retry_loop policy scripted_operation
      (Z.to_nat (max_attempts - Z.of_nat (length errors))) (1 + Z.of_nat (length errors))
      {| sc_script := r :: s; sc_events := scheduled name backoff 1 errors;
         sc_sleeps := delays backoff 1 errors |}.
Proof.
  intros He Hn.
  change (call policy scripted_operation) with
    (retry_loop policy (scripted_operation (A := A)) (Z.to_nat max_attempts) 1).
  replace (Z.to_nat max_attempts) with
    (length errors + Z.to_nat (max_attempts - Z.of_nat (length errors)))%nat by lia.
  unfold script. by rewrite (retry_loop_prefix name max_attempts retry_if backoff).
Qed.

(** When the operation fails with errors the policy retries and then
    returns within [max_attempts] attempts, the call returns its value after
    exactly one more run than there were failures, having slept the backoff of
    each failed attempt in order; the observer sees one scheduling event per
    retry and then the success with its attempt number. *)
Theorem retry_returns_after_failures errors x s :
  Forall (fun e => retries retry_if e = true) errors ->
  1 + Z.of_nat (length errors) <= max_attempts ->
  call policy scripted_operation (script ((Raised <$> errors) ++ Returned x :: s))
  = (Returned x,
     {| sc_script := s;
        sc_events := scheduled name backoff 1 errors
          ++ [retry_event name SUCCEEDED (Some SUCCESS) Category.NONE
                (1 + Z.of_nat (length errors)) None];
        sc_sleeps := delays backoff 1 errors |}).
Proof.
  intros He Hn. rewrite call_scripted by done.
  by replace (Z.to_nat (max_attempts - Z.of_nat (length errors))) with
    (S (Z.to_nat (max_attempts - Z.of_nat (length errors) - 1))) by lia.
Qed.

(** When [max_attempts] runs fail with errors the policy retries, the call
    raises [RetryExhaustedError] with the number of attempts and the last error
    as its cause, after exactly [max_attempts] runs and one sleep fewer. *)
Theorem retry_exhausts errors last s :
  Forall (fun e => retries retry_if e = true) (errors ++ [last]) ->
  Z.of_nat (length errors) + 1 = max_attempts ->
  call policy scripted_operation (script ((Raised <$> errors) ++ Raised last :: s))
  = (Raised (RetryExhaustedError name max_attempts last),
     {| sc_script := s;
        sc_events := scheduled name backoff 1 errors
          ++ [retry_event name FAILED (Some FAILURE) Category.RETRY_EXHAUSTED max_attempts None];
        sc_sleeps := delays backoff 1 errors |})
  /\ length (delays backoff 1 errors) = Z.to_nat (max_attempts - 1).
Proof.
  intros [He Hl]%Forall_app Hn. apply Forall_inv in Hl. split.
  - rewrite call_scripted by (done || lia).
    replace (Z.to_nat (max_attempts - Z.of_nat (length errors))) with 1%nat by lia.
    replace (1 + Z.of_nat (length errors)) with max_attempts by lia.
    unfold retries in Hl. apply andb_true_iff in Hl as [[Hex Hc]%andb_true_iff Hr].
    assert (forall w, (on_failure policy max_attempts last ;; ret (@None A)) w =
      (Raised (RetryExhaustedError name max_attempts last),
       {| sc_script := sc_script w; sc_events := sc_events w ++
            [retry_event name FAILED (Some FAILURE) Category.RETRY_EXHAUSTED max_attempts None];
          sc_sleeps := sc_sleeps w |})) as Hf.
    { intros w. unfold on_failure, bind. rewrite scripted_is_retryable; [|done|by intros ->].
      unfold retries. rewrite Hex, Hc, Hr. cbn. by rewrite Z.leb_refl. }
    cbn [retry_loop]. unfold bind at 1, try_except, bind at 1.
    cbn [op_run scripted_operation sync_function sc_script].
    destruct last; cbn in Hex, Hc; try done; cbn [is_Exception]; by rewrite Hf.
  - rewrite <-Hn, Z.add_simpl_r, Nat2Z.id. clear. generalize 1.
    induction errors as [|e errors IH]; intros n; [done|]. cbn. by rewrite IH.
Qed.

(** An error the policy does not retry reaches the caller unchanged from
    the attempt that raised it: by default a rejection of a circuit breaker or
    of a bulkhead and a policy timeout, always an exception outside [Exception]
    and an awaitable result; only an [Exception] proper is announced. *)
Theorem retry_passes_through errors e s :
  Forall (fun e => retries retry_if e = true) errors ->
  1 + Z.of_nat (length errors) <= max_attempts ->
  retries retry_if e = false -> e <> FuelExhausted ->
  call policy scripted_operation (script ((Raised <$> errors) ++ Raised e :: s))
  = (Raised e,
     {| sc_script := s;
        sc_events := scheduled name backoff 1 errors
          ++ (if is_Exception e && negb (bool_decide (e = SyncResultContractError))
              then [retry_event name FAILED (Some FAILURE) (failure_category e)
                      (1 + Z.of_nat (length errors)) None]
              else []);
        sc_sleeps := delays backoff 1 errors |}).
Proof.
  intros He Hn Hr Hfuel. rewrite call_scripted by done.
  set (n := 1 + Z.of_nat (length errors)) in *.
  replace (Z.to_nat (max_attempts - Z.of_nat (length errors))) with
    (S (Z.to_nat (max_attempts - Z.of_nat (length errors) - 1))) by lia.
  assert (is_Exception e = true -> e <> SyncResultContractError ->
    forall w, (on_failure policy n e ;; ret (@None A)) w =
     (Raised e, {| sc_script := sc_script w; sc_events := sc_events w ++
         [retry_event name FAILED (Some FAILURE) (failure_category e) n None];
         sc_sleeps := sc_sleeps w |})) as Hf.
  { intros Hex Hc w. unfold on_failure, bind. rewrite scripted_is_retryable by done. by rewrite Hr. }
  cbn [retry_loop]. unfold bind at 1, try_except, bind at 1.
  cbn [op_run scripted_operation sync_function sc_script].
  destruct e; cbn [is_Exception andb negb bool_decide] in *; try done;
    rewrite ?Hf by done; rewrite ?app_nil_r; done.
Qed.
End ScriptedTheorems.

(** ** Witnesses *)

Section Witnesses.
Definition w_backoff (n : Z) : float := f1.
Definition w_name : pystr := py "fetch".

Lemma w_backoff_valid n : is_finite (w_backoff n) = true /\ flt (w_backoff n) f0 = false.
Proof. done. Qed.

Abbreviation w_policy := (scripted_retry (A := Z) w_name 3 None w_backoff).

(** An operation that always fails. *)
Abbreviation w_failing := (sync_function (pure_outcome (Raised (A := Z) (UserException 1)))).

Lemma retry_terminates_witness :
  fst (call w_policy w_failing (script [])) <> Raised FuelExhausted.
Proof.
  apply (retry_terminates w_policy w_failing); cbn; try done.
  by intros f e [= <-].
Defined.

Lemma retry_returns_after_failures_witness :
  fst (call w_policy scripted_operation (script [Raised (UserException 1); Returned 4]))
  = Returned 4.
Proof.
  refine (f_equal fst (retry_returns_after_failures w_name 3 None w_backoff w_backoff_valid
    [UserException 1] 4 [] _ _)); [by repeat constructor|cbn; lia].
Defined.

Lemma retry_exhausts_witness :
  fst (call w_policy scripted_operation
    (script [Raised (UserException 1); Raised (UserException 2); Raised TimeoutError]))
  = Raised (RetryExhaustedError w_name 3 TimeoutError).
Proof.
  refine (f_equal fst (proj1 (retry_exhausts w_name 3 None w_backoff w_backoff_valid
    [UserException 1; UserException 2] TimeoutError [] _ _)));
    [by repeat constructor|reflexivity].
Defined.

Lemma retry_passes_through_witness :
  fst (call w_policy scripted_operation
    (script [Raised (UserException 1); Raised (CircuitOpenError w_name OPEN)]))
  = Raised (CircuitOpenError w_name OPEN).
Proof.
  refine (f_equal fst (retry_passes_through w_name 3 None w_backoff w_backoff_valid
    [UserException 1] (CircuitOpenError w_name OPEN) [] _ _ _ _));
    [by repeat constructor|cbn; lia|reflexivity|done].
Defined.
End Witnesses.
