(* ===== verification/Bulkhead.v ===== *)
(** * Bulkheads ([bluetape/resilience/_bulkhead.py])

    A bulkhead counts the calls in flight and the callers that wait for a place.
    Every access holds the condition's lock, which only [wait] gives up: the
    counters are one object of the world, each stretch of code between two
    waits is a sequence of steps on it, and other threads or tasks act inside
    [wait], inside the entry of the asyncio condition, inside the operation and
    inside the observer.  What they hold is in a book beside the world. *)

From Stdlib Require Import SpecFloat.
From S2P Require Import Prelude Python Resilience.
Open Scope py_scope.
Open Scope Z_scope.

Record BulkheadData : Type := {
  max_concurrency : Z;
  in_flight : Z;
  waiters : Z;
}.

(** [_event] of the module. *)
Definition bulkhead_event (name : pystr) (kind : EventKind) (out : option PolicyOutcome)
    (category : Category.FailureCategory) (snap : BulkheadSnapshot) : PolicyEvent := {|
  ev_policy_name := name;
  ev_policy_type := BULKHEAD;
  ev_kind := kind;
  ev_outcome := out;
  ev_failure_category := category;
  ev_attempt := None;
  ev_delay := None;
  ev_timeout := None;
  ev_state := None;
  ev_previous_state := None;
  ev_in_flight := Some (bs_in_flight snap);
  ev_waiters := Some (bs_waiters snap);
|}.

Definition snapshot_of (name : pystr) (d : BulkheadData) : BulkheadSnapshot := {|
  bs_name := name;
  bs_max_concurrency := max_concurrency d;
  bs_in_flight := in_flight d;
  bs_waiters := waiters d;
|}.

(** [self._in_flight += n] and [self._waiters += n]. *)
Definition add_in_flight (n : Z) (d : BulkheadData) : BulkheadData :=
  {| max_concurrency := max_concurrency d; in_flight := in_flight d + n; waiters := waiters d |}.

Definition add_waiters (n : Z) (d : BulkheadData) : BulkheadData :=
  {| max_concurrency := max_concurrency d; in_flight := in_flight d; waiters := waiters d + n |}.

(** The constructor's validation, and the counters it starts with. *)
Definition make_bulkhead (name max_concurrency max_wait : pyval)
    : outcome (pystr * float * BulkheadData) :=
  match validate_name name "name" with
  | Raised e => Raised e
  | Returned n =>
    match positive_int max_concurrency "max_concurrency" with
    | Raised e => Raised e
    | Returned k =>
      match finite_non_negative max_wait "max_wait" with
      | Raised e => Raised e
      | Returned w =>
          Returned (n, w, {| max_concurrency := k; in_flight := 0; waiters := 0 |})
      end
    end
  end.

(** ** The critical sections

    [if self._in_flight < self._max_concurrency: self._in_flight += 1; return ...] *)
Definition acquire_section (name : pystr) (d : BulkheadData) : option BulkheadSnapshot * BulkheadData :=
  if max_concurrency d <=? in_flight d then (None, d)
  else (Some (snapshot_of name (add_in_flight 1 d)), add_in_flight 1 d).

(** [self._in_flight += 1; return self._snapshot_locked()]. *)
Definition enter_section (name : pystr) (d : BulkheadData) : option BulkheadSnapshot * BulkheadData :=
  (Some (snapshot_of name (add_in_flight 1 d)), add_in_flight 1 d).

(** [self._waiters += n]. *)
Definition waiters_section (n : Z) (d : BulkheadData) : unit * BulkheadData := (tt, add_waiters n d).

(** The body of [_release]. *)
Definition release_section (name : pystr) (d : BulkheadData) : BulkheadSnapshot * BulkheadData :=
  (snapshot_of name (add_in_flight (-1) d), add_in_flight (-1) d).

(** ** The synchronous bulkhead *)

Section Sync.
Context {W : Type}.

(** [bh_monotonic] is [time.monotonic], [bh_wait] is [Condition.wait] of the
    bulkhead's condition.  [bh_fuel] bounds the wake-ups of one wait. *)
Record Bulkhead : Type := {
  bh_name : pystr;
  bh_max_wait : float;
  bh_data : lens W BulkheadData;
  bh_observer : option (PolicyEvent -> M W unit);
  bh_monotonic : M W float;
  bh_wait : float -> M W unit;
  bh_fuel : nat;
}.

Variable bh : Bulkhead.

Definition snapshot : M W BulkheadSnapshot :=
  locked (bh_data bh) (fun d => (snapshot_of (bh_name bh) d, d)).

(** [self._in_flight >= self._max_concurrency]. *)
Definition is_full : M W bool :=
  locked (bh_data bh) (fun d => (max_concurrency d <=? in_flight d, d)).

(** The [while] loop of [_acquire]: whether a place became free. *)
Fixpoint wait_for_place (fuel : nat) (deadline : float) : M W bool :=
  match fuel with
  | O => raise FuelExhausted
  | S fuel' =>
      full <- is_full ;;
      if negb full then ret true
      else
        now <- bh_monotonic bh ;;
        let remaining := fsub deadline now in
        if fle remaining f0 then ret false
        else bh_wait bh remaining ;; wait_for_place fuel' deadline
  end.

Definition enter : M W (option BulkheadSnapshot) := locked (bh_data bh) (enter_section (bh_name bh)).

(** The part of [_acquire] for a bulkhead that is full. *)
Definition acquire_waiting : M W (option BulkheadSnapshot) :=
  if feq (bh_max_wait bh) f0 then ret None
  else
    now <- bh_monotonic bh ;;
    locked (bh_data bh) (waiters_section 1) ;;
    free <- try_finally (wait_for_place (bh_fuel bh) (fadd now (bh_max_wait bh)))
              (locked (bh_data bh) (waiters_section (-1))) ;;
    if (free : bool) then enter else ret None.

(** [_acquire].  The test and the entry of a bulkhead with a free place are one
    critical section. *)
Definition acquire : M W (option BulkheadSnapshot) :=
  entered <- locked (bh_data bh) (acquire_section (bh_name bh)) ;;
  match entered with
  | Some s => ret (Some s)
  | None => acquire_waiting
  end.

Definition release : M W BulkheadSnapshot := locked (bh_data bh) (release_section (bh_name bh)).

Definition emit_event (kind : EventKind) (out : option PolicyOutcome)
    (category : Category.FailureCategory) (snap : BulkheadSnapshot) : M W unit :=
  emit (bh_observer bh) (bulkhead_event (bh_name bh) kind out category snap).

(** [call] once its operation passed validation. *)
Definition guarded {A} `{!Awaitable W A} (op : operation W A) : M W A :=
  place <- acquire ;;
  match place with
  | None =>
      rejected <- snapshot ;;
      emit_event REJECTED (Some REJECTION) Category.BULKHEAD_REJECTED rejected ;;
      raise (BulkheadRejectedError (bh_name bh))
  | Some snap =>
      try_except (emit_event ADMITTED None Category.NONE snap)
        (fun e => Some (release ;; raise e)) ;;
      result <-
        try_except (x <- op_run op ;; ensure_sync_result x)
          (fun e => Some
            (match e with
             | SyncResultContractError => release ;; raise e
             | _ =>
                 if is_Exception e then
                   released <- release ;;
                   emit_event FAILED (Some FAILURE) (failure_category e) released ;;
                   raise e
                 else release ;; raise e
             end)) ;;
      released <- release ;;
      emit_event SUCCEEDED (Some SUCCESS) Category.NONE released ;;
      ret result
  end.

Definition call {A} `{!Awaitable W A} (op : operation W A) : M W A :=
  validate_callable op "operation" ;;
  ensure_sync_operation op ;;
  guarded op.

(** [Bulkhead.__call__]. *)
Definition wrap {A} `{!Awaitable W A} (op : operation W A) : M W (operation W A) :=
  validate_callable op "operation" ;;
  ensure_sync_operation op ;;
  ret (sync_function (call op)).
End Sync.
Arguments Bulkhead : clear implicits.

(** ** The asynchronous bulkhead *)

Section Async.
Context {W : Type}.

(** [ab_enter] is the entry of [async with self._condition], where the task may
    be cancelled; [ab_wait] is [self._condition.wait()], which holds the lock
    again when it ends, however it ends; [ab_expired] tells whether a
    cancellation that reached the timeout scope came from its deadline.
    [ab_bind_loop] raises for a foreign event loop.  [ab_fuel] bounds the
    wake-ups of one wait and the cancellations of one release. *)
Record AsyncBulkhead : Type := {
  ab_name : pystr;
  ab_max_wait : float;
  ab_data : lens W BulkheadData;
  ab_observer : option (PolicyEvent -> M W unit);
  ab_bind_loop : M W unit;
  ab_enter : M W unit;
  ab_wait : M W unit;
  ab_expired : M W bool;
  ab_fuel : nat;
}.

Variable ab : AsyncBulkhead.

Definition async_snapshot : M W BulkheadSnapshot :=
  ab_bind_loop ab ;;
  ab_enter ab ;;
  locked (ab_data ab) (fun d => (snapshot_of (ab_name ab) d, d)).

Fixpoint async_wait_loop (fuel : nat) : M W unit :=
  match fuel with
  | O => raise FuelExhausted
  | S fuel' =>
      full <- locked (ab_data ab) (fun d => (max_concurrency d <=? in_flight d, d)) ;;
      if (full : bool) then ab_wait ab ;; async_wait_loop fuel' else ret tt
  end.

(** [async with asyncio.timeout(...)]: the scope turns the cancellation of its
    own deadline into [TimeoutError]. *)
Definition timeout_scope {A} (expired : M W bool) (m : M W A) : M W A :=
  try_except m (fun e =>
    match e with
    | CancelledError =>
        Some (b <- expired ;; if (b : bool) then raise TimeoutError else raise CancelledError)
    | _ => None
    end).

Definition async_enter : M W (option BulkheadSnapshot) := locked (ab_data ab) (enter_section (ab_name ab)).

Definition async_acquire : M W (option BulkheadSnapshot) :=
  ab_enter ab ;;
  entered <- locked (ab_data ab) (acquire_section (ab_name ab)) ;;
  match entered with
  | Some s => ret (Some s)
  | None =>
      if feq (ab_max_wait ab) f0 then ret None
      else
        locked (ab_data ab) (waiters_section 1) ;;
        free <- try_finally
          (try_except
             (timeout_scope (ab_expired ab) (async_wait_loop (ab_fuel ab)) ;; ret true)
             (fun e => if is_TimeoutError e then Some (ret false) else None))
          (locked (ab_data ab) (waiters_section (-1))) ;;
        if (free : bool) then async_enter else ret None
  end.

Definition async_release : M W BulkheadSnapshot :=
  ab_enter ab ;;
  locked (ab_data ab) (release_section (ab_name ab)).

(** The loop of [_release_preserving_cancellation]. *)
Fixpoint release_loop (fuel : nat) (cancelled : bool) : M W (BulkheadSnapshot * bool) :=
  match fuel with
  | O => raise FuelExhausted
  | S fuel' =>
      released <- try_except (s <- async_release ;; ret (Some s))
        (fun e => match e with CancelledError => Some (ret None) | _ => None end) ;;
      match released with
      | Some s => ret (s, cancelled)
      | None => release_loop fuel' true
      end
  end.

Definition release_preserving_cancellation : M W (BulkheadSnapshot * bool) :=
  release_loop (ab_fuel ab) false.

Definition async_emit_event (kind : EventKind) (out : option PolicyOutcome)
    (category : Category.FailureCategory) (snap : BulkheadSnapshot) : M W unit :=
  emit (ab_observer ab) (bulkhead_event (ab_name ab) kind out category snap).

(** Release, then raise [e], or the cancellation the release absorbed. *)
Definition release_and_raise {A} (e : exn) : M W A :=
  let* (_, cancelled) := release_preserving_cancellation in
  if (cancelled : bool) then raise CancelledError else raise e.

(** [AsyncBulkhead.call] once its operation passed validation. *)
Definition async_guarded {A} (op : operation W A) : M W A :=
  place <- async_acquire ;;
  match place with
  | None =>
      rejected <- async_snapshot ;;
      async_emit_event REJECTED (Some REJECTION) Category.BULKHEAD_REJECTED rejected ;;
      raise (BulkheadRejectedError (ab_name ab))
  | Some snap =>
      try_except (async_emit_event ADMITTED None Category.NONE snap)
        (fun e => Some
          (match e with
           | CancelledError => release_preserving_cancellation ;; raise e
           | _ => release_and_raise e
           end)) ;;
      result <-
        try_except (op_run op)
          (fun e => Some
            (match e with
             | CancelledError => release_preserving_cancellation ;; raise e
             | _ =>
                 if is_Exception e then
                   let* (released, cancelled) := release_preserving_cancellation in
                   raise_if cancelled CancelledError ;;
                   async_emit_event FAILED (Some FAILURE) (failure_category e) released ;;
                   raise e
                 else release_and_raise e
             end)) ;;
      let* (released, cancelled) := release_preserving_cancellation in
      raise_if cancelled CancelledError ;;
      async_emit_event SUCCEEDED (Some SUCCESS) Category.NONE released ;;
      ret result
  end.

Definition async_call {A} (op : operation W A) : M W A :=
  validate_callable op "operation" ;;
  ensure_async_operation op ;;
  ab_bind_loop ab ;;
  async_guarded op.

(** [AsyncBulkhead.__call__]. *)
Definition async_wrap {A} (op : operation W A) : M W (operation W A) :=
  validate_callable op "operation" ;;
  ensure_async_operation op ;;
  ret (async_function (async_call op)).
End Async.
Arguments AsyncBulkhead : clear implicits.

(** ** Accounting of places and waiters *)

(** What a client may rely on when it pairs entering with leaving; [I h w] says
    that the client holds [h] places and has [w] waiters. *)
Class BulkheadProtocol (I : nat -> nat -> BulkheadData -> Prop) : Prop := {
  bp_enter h w d : I h w d -> in_flight d < max_concurrency d -> I (S h) w (add_in_flight 1 d);
  bp_leave h w d : I (S h) w d -> I h w (add_in_flight (-1) d);
  bp_wait h w d : I h w d -> I h (S w) (add_waiters 1 d);
  bp_unwait h w d : I h (S w) d -> I h w (add_waiters (-1) d);
}.

(** [h] calls are in flight and [w] callers wait, no more than allowed. *)
Record accounts (h w : nat) (d : BulkheadData) : Prop := {
  ac_in_flight : in_flight d = Z.of_nat h;
  ac_waiters : waiters d = Z.of_nat w;
  ac_bound : in_flight d <= max_concurrency d;
}.

#[export] Instance accounts_protocol : BulkheadProtocol accounts.
Proof.
  constructor.
  - intros h w d [] Hlt. constructor; cbn; lia.
  - intros h w d []. constructor; cbn; lia.
  - intros h w d []. constructor; cbn; lia.
  - intros h w d []. constructor; cbn; lia.
Qed.

(** The same beside calls of other threads, which hold [others] places and have
    as many waiters as it says. *)
Definition beside (I : nat -> nat -> BulkheadData -> Prop) (others : nat * nat) (h w : nat)
    (d : BulkheadData) : Prop :=
  I (h + others.1)%nat (w + others.2)%nat d.

#[export] Instance beside_protocol I `{!BulkheadProtocol I} others : BulkheadProtocol (beside I others).
Proof.
  constructor; unfold beside; intros h w d; cbn.
  - apply bp_enter.
  - apply bp_leave.
  - apply bp_wait.
  - apply bp_unwait.
Qed.

(** One critical section of some call.  A configuration is the counters, how many
    calls hold a place and how many wait. *)
Inductive bulkhead_step (name : pystr) : BulkheadData * nat * nat -> BulkheadData * nat * nat -> Prop :=
| step_acquired d d' h w s :
    acquire_section name d = (Some s, d') -> bulkhead_step name (d, h, w) (d', S h, w)
| step_full d d' h w :
    acquire_section name d = (None, d') -> bulkhead_step name (d, h, w) (d', h, w)
| step_waits d h w : bulkhead_step name (d, h, w) (snd (waiters_section 1 d), h, S w)
| step_wakes d h w : bulkhead_step name (d, h, S w) (snd (waiters_section (-1) d), h, w)
| step_released d h w : bulkhead_step name (d, S h, w) (snd (release_section name d), h, w).

(** What calls that interleave at the granularity of the lock make of [d0]. *)
Definition reachable (name : pystr) (d0 : BulkheadData) (h w : nat) (d : BulkheadData) : Prop :=
  rtc (bulkhead_step name) (d0, 0%nat, 0%nat) (d, h, w).

#[export] Instance reachable_protocol name d0 : BulkheadProtocol (reachable name d0).
Proof.
  constructor; intros h w d.
  - intros H Hlt. eapply rtc_r; [exact H|]. eapply step_acquired. unfold acquire_section.
    by rewrite (proj2 (Z.leb_gt _ _)).
  - intros H. eapply rtc_r; [exact H|]. apply step_released.
  - intros H. eapply rtc_r; [exact H|]. apply step_waits.
  - intros H. eapply rtc_r; [exact H|]. apply step_wakes.
Qed.

(** An external computation keeps the places and waiters of the calls around it,
    while [others] keeps the book of what the calls of other threads hold. *)
Definition respects_beside {W G A} (others : W -> G) (I : G -> nat -> nat -> BulkheadData -> Prop)
    (l : lens W BulkheadData) (m : M W A) : Prop :=
  forall h w, keeps (fun s => I (others s) h w (lget l s)) m.

Section Places.
Context {W G : Type} (l : lens W BulkheadData) `{!LensLaws l}.
Context (others : W -> G) `{!Framed l others}.
Context (I : G -> nat -> nat -> BulkheadData -> Prop) `{Hprotocol : !forall g, BulkheadProtocol (I g)}.

Abbreviation held h w := (fun s : W => I (others s) h w (lget l s)).

(** One step on the counters, then the rest. *)
Lemma locked_bind {A B} P (R : G -> A -> BulkheadData -> Prop) (f : BulkheadData -> A * BulkheadData)
    (k : A -> M W B) Q :
  (forall g d, P g d -> R g (fst (f d)) (snd (f d))) ->
  (forall a, triple (fun s => R (others s) a (lget l s)) (k a) Q) ->
  triple (fun s => P (others s) (lget l s)) (bind (locked l f) k) Q.
Proof.
  intros Hf Hk. apply triple_bind with (R := fun a s => R (others s) a (lget l s)); [|done].
  apply triple_locked. intros s Hs. rewrite lget_lput, framed. by apply Hf.
Qed.

(** The outcome of taking a place. *)
Definition taken {A} h w (r : outcome (option A)) (s : W) : Prop :=
  match r with
  | Returned (Some _) => held (S h) w s
  | Returned None => held h w s
  | Raised _ => settled (held h w) r s
  end.

(** Waiting for a place keeps it free until the next step. *)
Definition place_found h w (r : outcome bool) (s : W) : Prop :=
  match r with
  | Returned true => held h w s /\ in_flight (lget l s) < max_concurrency (lget l s)
  | Returned false => held h w s
  | Raised _ => settled (held h w) r s
  end.

(** [finally: self._waiters -= 1] around a wait. *)
Lemma unwait_place h w (m : M W bool) :
  triple (held h (S w)) m (place_found h (S w)) ->
  triple (held h (S w)) (try_finally m (locked l (waiters_section (-1))))
    (place_found h w).
Proof.
  intros Hm. apply triple_try_finally with (R := fun r s => place_found h (S w) r s /\ r <> Raised FuelExhausted).
  - eapply triple_conseq; [apply Hm|done|]. intros r s Hs; split; [intros ->; by left|done].
  - intros r. apply triple_locked. intros s [Hs Hr].
    destruct r as [[]|e]; cbn in *.
    + rewrite lget_lput, framed. destruct Hs. split; [by apply bp_unwait|done].
    + rewrite lget_lput, framed. by apply bp_unwait.
    + destruct Hs as [Hs|Hs]; [done|]. right. rewrite lget_lput, framed. by apply bp_unwait.
Qed.

(** Entering after a successful wait. *)
Lemma enter_taken P h w name (m : M W bool) :
  triple P m (place_found h w) ->
  triple P (free <- m ;; if (free : bool) then locked l (enter_section name) else ret None) (taken h w).
Proof.
  intros Hm.
  apply triple_bind with (R := fun (b : bool) s =>
    held h w s /\ (b = true -> in_flight (lget l s) < max_concurrency (lget l s))).
  - eapply triple_conseq; [apply Hm|done|].
    intros [[]|e] s; cbn; [by intros []|by split|]. apply settled_raised.
  - intros [].
    + apply triple_locked. intros s [Hs Hlt]. cbn. rewrite lget_lput, framed. apply bp_enter; auto.
    + by apply triple_ret; intros s [].
Qed.

(** The first critical section of an acquisition. *)
Lemma acquire_taken h w name (m : M W (option BulkheadSnapshot)) :
  triple (held h w) m (taken h w) ->
  triple (held h w)
    (entered <- locked l (acquire_section name) ;;
     match entered with Some s => ret (Some s) | None => m end)
    (taken h w).
Proof.
  intros Hm. apply (locked_bind (fun g => I g h w)
    (fun g (o : option BulkheadSnapshot) => I g (match o with Some _ => S h | None => h end) w)).
  - intros g d Hd. unfold acquire_section.
    destruct (Z.leb_spec (max_concurrency d) (in_flight d)); cbn; [done|]. by apply bp_enter.
  - intros [s|]; [by apply triple_ret|exact Hm].
Qed.

(** Giving a place back, then ending with an exception. *)
Lemma leave_then {B} h w name (k : BulkheadSnapshot -> M W B) Q :
  (forall a, triple (held h w) (k a) Q) ->
  triple (held (S h) w) (a <- locked l (release_section name) ;; k a) Q.
Proof.
  intros Hk. apply (locked_bind (fun g => I g (S h) w) (fun g _ => I g h w)); [|done].
  intros g d Hd. by apply bp_leave.
Qed.
End Places.

Section SyncProtocol.
Context {W G : Type} (bh : Bulkhead W) `{!LensLaws (bh_data bh)}.
Context (others : W -> G) `{!Framed (bh_data bh) others}.
Context (I : G -> nat -> nat -> BulkheadData -> Prop) `{Hprotocol : !forall g, BulkheadProtocol (I g)}.

Abbreviation held h w := (fun s : W => I (others s) h w (lget (bh_data bh) s)).
Abbreviation polite := (respects_beside others I (bh_data bh)).

(** [time.monotonic] and the observer leave the places alone; threads that run
    during [wait] keep those of this call. *)
Hypothesis monotonic_polite : polite (bh_monotonic bh).
Hypothesis wait_polite : forall remaining, polite (bh_wait bh remaining).
Hypothesis observer_polite : forall f e, bh_observer bh = Some f -> polite (f e).

Lemma bulkhead_emit_event_keeps h w k o c s : keeps (held h w) (emit_event bh k o c s).
Proof. apply keeps_emit. intros. by apply observer_polite. Qed.

Lemma wait_for_place_found fuel h w deadline :
  triple (held h w) (wait_for_place bh fuel deadline) (place_found (bh_data bh) others I h w).
Proof.
  induction fuel as [|fuel IH]; [apply triple_raise; by left|].
  cbn [wait_for_place].
  apply (locked_bind (bh_data bh) others (fun g => I g h w)
    (fun g full d => I g h w d /\ (full = false -> in_flight d < max_concurrency d))).
  { intros g d Hd; split; [done|]. cbn. intros Hlt. bool_to_prop. done. }
  intros []; cbn [negb].
  - apply triple_conseq with (P' := held h w)
      (Q' := place_found (bh_data bh) others I h w); [|by intros s []|done].
    apply triple_keeps_bind; [apply monotonic_polite|intros ??; apply settled_raised|intros now].
    destruct (fle _ _); [by apply triple_ret|].
    by apply triple_keeps_bind; [apply wait_polite|intros ??; apply settled_raised|intros _].
  - apply triple_ret. intros s []. split; auto.
Qed.

Lemma acquire_held h w : triple (held h w) (acquire bh) (taken (bh_data bh) others I h w).
Proof.
  apply acquire_taken; try apply _. unfold acquire_waiting.
  destruct (feq _ _); [by apply triple_ret|].
  apply triple_keeps_bind; [apply monotonic_polite|intros ??; apply settled_raised|intros now].
  apply (locked_bind (bh_data bh) others (fun g => I g h w) (fun g _ => I g h (S w))); [intros g d Hd; by apply bp_wait|].
  intros _. apply enter_taken; try apply _.
  apply unwait_place; try apply _. apply wait_for_place_found.
Qed.

(** The handlers of [call]: the place is given back, and an exception leaves. *)
Lemma release_raise_held {A} h w e :
  triple (settled (held (S h) w) (@Raised A e)) (release bh ;; @raise W A e) (raised (held h w)).
Proof.
  intros s [[= ->]|Hs]; [by left|].
  revert s Hs. apply leave_then; try apply _. intros _. apply triple_raise. by right.
Qed.

Lemma release_emit_raise_held {A} h w e k o c :
  triple (held (S h) w)
    (released <- release bh ;; emit_event bh k o c released ;; @raise W A e) (raised (held h w)).
Proof.
  apply leave_then; try apply _. intros sn.
  apply triple_keeps_bind; [apply bulkhead_emit_event_keeps|intros ??; apply settled_raised|intros _].
  apply triple_raise. by right.
Qed.

Lemma guarded_polite {A} `{!Awaitable W A} (op : operation W A) :
  polite (op_run op) -> (forall (x : A) c, awaitable x = Some (Some c) -> polite c) ->
  polite (guarded bh op).
Proof.
  intros Hop Haw h w. unfold guarded.
  apply triple_bind with (R := fun o => held (match o with Some _ => S h | None => h end) w).
  { eapply triple_conseq; [apply acquire_held|intros s Hs; exact Hs|].
    intros [[]|] s; [by cbn..|apply settled_raised]. }
  intros [sn|]; cbv beta iota.
  2: { apply (locked_bind (bh_data bh) others (fun g => I g h w) (fun g _ => I g h w)); [done|intros rejected].
       apply keeps_bind; [apply bulkhead_emit_event_keeps|auto with bluetape]. }
  apply triple_bind with (R := fun _ => held (S h) w).
  { apply triple_try_except with (E := fun e => settled (held (S h) w) (@Raised unit e)).
    - eapply triple_conseq; [apply (bulkhead_emit_event_keeps (S h) w)|done|]. by intros [] s; [intros [ [=] | ]|].
    - intros e k _ [= <-]. eapply triple_conseq; [apply (release_raise_held h w)|done|].
      intros [] s; [done|]. apply settled_raised.
    - intros e s [ [=] | -> ] ?. by left. }
  intros _. apply triple_bind with (R := fun _ => held (S h) w).
  2: { intros x. apply leave_then; try apply _. intros released.
       apply keeps_bind; [apply bulkhead_emit_event_keeps|auto with bluetape]. }
  apply triple_try_except with (E := fun e => settled (held (S h) w) (@Raised A e)).
  - assert (keeps (held (S h) w) (x <- op_run op ;; ensure_sync_result x)) as Hk.
    { apply keeps_bind; [apply Hop|]. intros x. apply keeps_ensure_sync_result.
      intros c Hc. by eapply Haw. }
    eapply triple_conseq; [apply Hk|done|]. by intros [] s; [intros [ [=] | ]|].
  - intros e k _ [= <-].
    apply triple_conseq with (P' := settled (held (S h) w) (@Raised A e))
      (Q' := raised (held h w)); [|done|by intros [] s].
    destruct e; cbn [is_Exception]; first [by apply release_raise_held|
      intros s [[=]|Hs]; by apply release_emit_raise_held].
  - intros e s [ [=] | -> ] ?. by left.
Qed.

Lemma bulkhead_call_polite {A} `{!Awaitable W A} (op : operation W A) :
  polite (op_run op) -> (forall (x : A) c, awaitable x = Some (Some c) -> polite c) ->
  polite (call bh op).
Proof.
  intros Hop Haw h w. unfold call.
  apply keeps_bind; [apply keeps_validate_callable|intros _].
  apply keeps_bind; [apply keeps_ensure_sync_operation|intros _].
  by apply guarded_polite.
Qed.
End SyncProtocol.

Section AsyncProtocol.
Context {W G : Type} (ab : AsyncBulkhead W) `{!LensLaws (ab_data ab)}.
Context (others : W -> G) `{!Framed (ab_data ab) others}.
Context (I : G -> nat -> nat -> BulkheadData -> Prop) `{Hprotocol : !forall g, BulkheadProtocol (I g)}.

Abbreviation held h w := (fun s : W => I (others s) h w (lget (ab_data ab) s)).
Abbreviation polite := (respects_beside others I (ab_data ab)).

Hypothesis bind_loop_polite : polite (ab_bind_loop ab).
Hypothesis enter_polite : polite (ab_enter ab).
Hypothesis wait_polite : polite (ab_wait ab).
Hypothesis expired_polite : polite (ab_expired ab).
Hypothesis observer_polite : forall f e, ab_observer ab = Some f -> polite (f e).

(** Entering the condition on the bound loop fails only by cancellation. *)
Hypothesis enter_raises : forall s e s', ab_enter ab s = (Raised e, s') ->
  e = CancelledError \/ e = FuelExhausted.

Lemma async_emit_event_keeps h w k o c s : keeps (held h w) (async_emit_event ab k o c s).
Proof. apply keeps_emit. intros. by apply observer_polite. Qed.

(** The loop ends with the lock held and a free place, or raises. *)
Definition place_ready h w (r : outcome unit) (s : W) : Prop :=
  match r with
  | Returned _ => held h w s /\ in_flight (lget (ab_data ab) s) < max_concurrency (lget (ab_data ab) s)
  | Raised _ => settled (held h w) r s
  end.

Lemma async_wait_loop_ready fuel h w :
  triple (held h w) (async_wait_loop ab fuel) (place_ready h w).
Proof.
  induction fuel as [|fuel IH]; [apply triple_raise; by left|].
  cbn [async_wait_loop].
  apply (locked_bind (ab_data ab) others (fun g => I g h w)
    (fun g full d => I g h w d /\ (full = false -> in_flight d < max_concurrency d))).
  { intros g d Hd; split; [done|]. cbn. intros Hlt. by bool_to_prop. }
  intros [].
  - apply triple_conseq with (P' := held h w) (Q' := place_ready h w); [|by intros s []|done].
    by apply triple_keeps_bind; [apply wait_polite|intros ??; apply settled_raised|intros _].
  - apply triple_ret. intros s []. split; auto.
Qed.

(** The wait under its timeout: an expired deadline finds no place. *)
Lemma timed_wait_found fuel h w :
  triple (held h w)
    (try_except (timeout_scope (ab_expired ab) (async_wait_loop ab fuel) ;; ret true)
       (fun e => if is_TimeoutError e then Some (ret false) else None))
    (place_found (ab_data ab) others I h w).
Proof.
  assert (triple (held h w) (timeout_scope (ab_expired ab) (async_wait_loop ab fuel))
            (place_ready h w)) as Hscope.
  { apply triple_try_except with (E := fun e => settled (held h w) (@Raised unit e)).
    - eapply triple_conseq; [apply (async_wait_loop_ready fuel h w)|done|]. by intros [[]|] s.
    - intros e k He Hk. destruct e; simplify_eq.
      apply triple_conseq with (P' := held h w) (Q' := raised (held h w));
        [|by intros s [ [=] | ]|by intros [[]|] s].
      apply triple_keeps_bind; [apply expired_polite|intros ??; apply settled_raised|].
      intros []; apply triple_raise; by right.
    - by intros e s _ Hs. }
  apply triple_try_except with (E := fun e => settled (held h w) (@Raised bool e)).
  - apply triple_bind with (R := fun _ s => held h w s /\
      in_flight (lget (ab_data ab) s) < max_concurrency (lget (ab_data ab) s)).
    + eapply triple_conseq; [apply Hscope|done|]. intros [[]|] s; [done|apply settled_raised].
    + intros _. by apply triple_ret.
  - intros e k He. destruct (is_TimeoutError e); [|done]. intros [= <-].
    apply triple_ret. by intros s [[= ->]|Hs].
  - by intros e s _ Hs.
Qed.

Lemma async_acquire_held h w : triple (held h w) (async_acquire ab) (taken (ab_data ab) others I h w).
Proof.
  unfold async_acquire.
  apply triple_keeps_bind; [apply enter_polite|intros ??; apply settled_raised|intros _].
  apply acquire_taken; try apply _. destruct (feq _ _); [by apply triple_ret|].
  apply (locked_bind (ab_data ab) others (fun g => I g h w) (fun g _ => I g h (S w))); [intros g d Hd; by apply bp_wait|].
  intros _. apply enter_taken; try apply _. apply unwait_place; try apply _.
  apply timed_wait_found.
Qed.

(** A release gives the place back, whatever cancellations reach it. *)
Lemma release_loop_held fuel h w c :
  triple (held (S h) w) (release_loop ab fuel c)
    (fun r s => match r with Returned _ => held h w s | Raised e => e = FuelExhausted end).
Proof.
  revert c. induction fuel as [|fuel IH]; intros c; [by apply triple_raise|].
  cbn [release_loop].
  apply triple_bind with (R := fun o => held (match o with Some _ => h | None => S h end) w).
  - intros s Hs. unfold try_except, async_release, bind, locked.
    pose proof (enter_polite (S h) w s Hs) as He. pose proof (enter_raises s) as Hr.
    destruct (ab_enter ab s) as [[[]|e] s'] eqn:E; cbn in *.
    + destruct He as [ [=] |He]. rewrite lget_lput, framed. by apply bp_leave.
    + destruct (Hr e s' eq_refl) as [->| ->]; cbn; [|done]. by destruct He as [ [=] |He].
  - intros [sn|]; [by apply triple_ret|apply IH].
Qed.

Lemma release_then {A} h w (k : BulkheadSnapshot * bool -> M W A) Q :
  (forall s, Q (Raised FuelExhausted) s) ->
  (forall p, triple (held h w) (k p) Q) ->
  triple (held (S h) w) (p <- release_preserving_cancellation ab ;; k p) Q.
Proof.
  intros HQ Hk. apply triple_bind with (R := fun _ => held h w); [|done].
  eapply triple_conseq; [apply (release_loop_held (ab_fuel ab) h w false)|done|].
  intros [p|e] s; [done|]. by intros ->.
Qed.

(** The handlers of [async_call]. *)
Lemma release_raise_async {A} h w e :
  triple (held (S h) w) (release_preserving_cancellation ab ;; @raise W A e) (raised (held h w)).
Proof.
  apply release_then; [by left|]. intros _. apply triple_raise. by right.
Qed.

Lemma release_and_raise_held {A} h w e :
  triple (held (S h) w) (@release_and_raise W ab A e) (raised (held h w)).
Proof.
  apply release_then; [by left|]. intros [sn []]; apply triple_raise; by right.
Qed.

Lemma release_emit_held {A} h w k o c (m : M W A) Q :
  (forall e s, settled (held h w) (@Raised A e) s -> Q (Raised e) s) -> triple (held h w) m Q ->
  triple (held (S h) w)
    (let* (released, cancelled) := release_preserving_cancellation ab in
     raise_if cancelled CancelledError ;; async_emit_event ab k o c released ;; m) Q.
Proof.
  intros HQ Hm. apply release_then; [intros s; apply HQ; by left|]. intros [sn c'].
  apply triple_keeps_bind; [apply keeps_raise_if|intros e s H; apply HQ; by eapply settled_raised|intros _].
  apply triple_keeps_bind; [apply async_emit_event_keeps|intros e s H; apply HQ; by eapply settled_raised|done].
Qed.

Lemma async_guarded_polite {A} (op : operation W A) :
  polite (op_run op) -> polite (async_guarded ab op).
Proof.
  intros Hop h w. unfold async_guarded.
  apply triple_bind with (R := fun o => held (match o with Some _ => S h | None => h end) w).
  { eapply triple_conseq; [apply async_acquire_held|intros s Hs; exact Hs|].
    intros [[]|] s; [by cbn..|apply settled_raised]. }
  intros [sn|]; cbv beta iota.
  2: { apply keeps_bind; [|intros rejected; apply keeps_bind; [apply async_emit_event_keeps|auto with bluetape]].
       apply keeps_bind; [apply bind_loop_polite|intros _].
       apply keeps_bind; [apply enter_polite|intros _].
       apply triple_locked. intros s Hs. right. by rewrite lget_lput, framed. }
  apply triple_bind with (R := fun _ => held (S h) w).
  { apply triple_try_except with (E := fun e => settled (held (S h) w) (@Raised unit e)).
    - eapply triple_conseq; [apply (async_emit_event_keeps (S h) w)|done|].
      by intros [] s; [intros [ [=] | ]|].
    - intros e k He [= <-].
      apply triple_conseq with (P' := held (S h) w) (Q' := raised (held h w));
        [|by intros s [ [= ->] | ]|intros [] s; [done|apply settled_raised]].
      destruct e; try apply release_and_raise_held. apply release_raise_async.
    - intros e s [ [=] | -> ] ?. by left. }
  intros _. apply triple_bind with (R := fun _ => held (S h) w).
  2: { intros x. apply (release_emit_held h w SUCCEEDED (Some SUCCESS) Category.NONE (ret x));
       [done|]. apply keeps_ret. }
  apply triple_try_except with (E := fun e => settled (held (S h) w) (@Raised A e)).
  - eapply triple_conseq; [apply (Hop (S h) w)|done|]. by intros [] s; [intros [ [=] | ]|].
  - intros e k He [= <-].
    apply triple_conseq with (P' := held (S h) w) (Q' := raised (held h w));
      [|by intros s [ [= ->] | ]|by intros [] s].
    assert (triple (held (S h) w)
      (let* (released, cancelled) := release_preserving_cancellation ab in
       raise_if cancelled CancelledError ;;
       async_emit_event ab FAILED (Some FAILURE) (failure_category e) released ;; @raise W A e)
      (raised (held h w))) as Herr.
    { apply release_emit_held; [done|]. apply triple_raise. by right. }
    destruct e; cbn [is_Exception] in *; first [apply release_raise_async
      | apply release_and_raise_held | exact Herr].
  - intros e s [ [=] | -> ] ?. by left.
Qed.

Lemma bulkhead_async_call_polite {A} (op : operation W A) :
  polite (op_run op) -> polite (async_call ab op).
Proof.
  intros Hop h w. unfold async_call.
  apply keeps_bind; [apply keeps_validate_callable|intros _].
  apply keeps_bind; [apply keeps_ensure_async_operation|intros _].
  apply keeps_bind; [apply bind_loop_polite|intros _].
  by apply async_guarded_polite.
Qed.
End AsyncProtocol.

(** ** Calls interleaved at the granularity of the lock *)

Lemma bulkhead_step_accounts name c c' :
  bulkhead_step name c c' -> accounts c.1.2 c.2 c.1.1 -> accounts c'.1.2 c'.2 c'.1.1.
Proof.
  intros Hs [].
  destruct Hs as [d d' h w s E|d d' h w E|d h w|d h w|d h w]; try (constructor; cbn in *; lia).
  - unfold acquire_section in E. destruct (Z.leb_spec (max_concurrency d) (in_flight d)); simplify_eq.
    constructor; cbn in *; lia.
  - unfold acquire_section in E. destruct (max_concurrency d <=? in_flight d); by simplify_eq.
Qed.

Lemma bulkhead_step_maximum name c c' :
  bulkhead_step name c c' -> max_concurrency c'.1.1 = max_concurrency c.1.1.
Proof.
  destruct 1 as [d d' h w s E|d d' h w E|d h w|d h w|d h w]; try done;
    unfold acquire_section in E; destruct (max_concurrency d <=? in_flight d); by simplify_eq.
Qed.

Lemma reachable_accounts name d0 h w d :
  1 <= max_concurrency d0 -> in_flight d0 = 0 -> waiters d0 = 0 ->
  reachable name d0 h w d -> accounts h w d /\ max_concurrency d = max_concurrency d0.
Proof.
  intros H1 H2 H3 Hr. split.
  - refine (rtc_invariant (bulkhead_step name) (fun c => accounts c.1.2 c.2 c.1.1) _ (d, h, w)
              (bulkhead_step_accounts name) Hr _). constructor; cbn; lia.
  - refine (rtc_invariant (bulkhead_step name) (fun c => max_concurrency c.1.1 = max_concurrency d0) _ (d, h, w)
              _ Hr eq_refl). intros c c' Hs <-. by eapply bulkhead_step_maximum.
Qed.

Lemma make_bulkhead_returned name k v n m d0 :
  make_bulkhead name k v = Returned (n, m, d0) ->
  1 <= max_concurrency d0 /\ in_flight d0 = 0 /\ waiters d0 = 0.
Proof.
  unfold make_bulkhead. intros H. repeat (case_match; simplify_eq/=).
  match goal with H : positive_int _ _ = _ |- _ => by apply positive_int_spec in H as [_ H] end.
Qed.

(** [C18] The capacity holds in every interleaving of the critical sections of
    [_acquire] and [_release], at the granularity of the lock: from the counters
    that the constructor makes, [in_flight] is the number of the calls that hold a
    place and never exceeds [max_concurrency], and [waiters] is the number of
    those that wait.  And these are the sections that the bulkhead runs: while
    other threads interleave theirs, of which [others] keeps the book, during the
    waits, the operation and the callbacks, an acquisition that succeeds has taken
    one place, one that fails none and leaves no waiter, and a whole [call] takes
    no place in the end, whatever its outcome. *)
Theorem bulkhead_capacity_respected {W A} (bh : Bulkhead W) `{!LensLaws (bh_data bh)}
    (others : W -> nat * nat) `{!Framed (bh_data bh) others} `{!Awaitable W A} (op : operation W A)
    name k v d0 :
  make_bulkhead name k v = Returned (bh_name bh, bh_max_wait bh, d0) ->
  let interleaved := reachable (bh_name bh) d0 in
  let considerate {B} := respects_beside (A := B) others (beside interleaved) (bh_data bh) in
  considerate (bh_monotonic bh) ->
  (forall t, considerate (bh_wait bh t)) ->
  (forall f e, bh_observer bh = Some f -> considerate (f e)) ->
  considerate (op_run op) ->
  (forall (x : A) c, awaitable x = Some (Some c) -> considerate c) ->
  (forall h w d, interleaved h w d ->
     in_flight d = Z.of_nat h /\ waiters d = Z.of_nat w /\ Z.of_nat h <= max_concurrency d0) /\
  (forall h w s,
     let at_most h w s' := interleaved (h + (others s').1)%nat (w + (others s').2)%nat (lget (bh_data bh) s') in
     at_most h w s ->
     match acquire bh s with
     | (Returned (Some _), s') => at_most (S h) w s'
     | (r, s') => r = Raised FuelExhausted \/ at_most h w s'
     end /\
     (let '(r, s') := call bh op s in r = Raised FuelExhausted \/ at_most h w s')).
Proof.
  intros Hmake interleaved considerate Hm Hw Ho Hop Haw. split.
  - intros h w d Hr. apply make_bulkhead_returned in Hmake as (H1 & H2 & H3).
    destruct (reachable_accounts _ _ _ _ _ H1 H2 H3 Hr) as [[] Hmax]. lia.
  - intros h w s at_most Hs. split.
    + pose proof (acquire_held bh others (beside interleaved) Hm Hw h w s Hs) as H.
      destruct (acquire bh s) as [[[]|] s']; cbn in H; [done|by right|done].
    + pose proof (bulkhead_call_polite bh others (beside interleaved) Hm Hw Ho op Hop Haw h w s Hs) as H.
      by destruct (call bh op s).
Qed.

(** A synchronous call returns its place exactly once on every path: when
    the operation, the observer and the threads that run during a wait keep the
    places and waiters of the calls around them, so does the call. *)
Theorem bulkhead_call_leaks_no_place {W A} (bh : Bulkhead W) `{!LensLaws (bh_data bh)}
    (others : W -> nat * nat) `{!Framed (bh_data bh) others} `{!Awaitable W A} (op : operation W A) :
  let considerate {B} := respects_beside (A := B) others (beside accounts) (bh_data bh) in
  considerate (bh_monotonic bh) ->
  (forall t, considerate (bh_wait bh t)) ->
  (forall f e, bh_observer bh = Some f -> considerate (f e)) ->
  considerate (op_run op) ->
  (forall (x : A) c, awaitable x = Some (Some c) -> considerate c) ->
  considerate (call bh op).
Proof.
  intros considerate Hm Hw Ho Hop Haw.
  exact (bulkhead_call_polite bh others (beside accounts) Hm Hw Ho op Hop Haw).
Qed.

(** An asynchronous call returns its place exactly once even when its task
    is cancelled at any await, including during the release itself: the release
    absorbs the cancellation, gives the place back and raises it again.  Other
    tasks may enter and leave at every await. *)
Theorem async_bulkhead_survives_cancellation {W A} (ab : AsyncBulkhead W)
    `{!LensLaws (ab_data ab)} (others : W -> nat * nat) `{!Framed (ab_data ab) others} (op : operation W A) :
  let considerate {B} := respects_beside (A := B) others (beside accounts) (ab_data ab) in
  considerate (ab_bind_loop ab) ->
  considerate (ab_enter ab) ->
  considerate (ab_wait ab) ->
  considerate (ab_expired ab) ->
  (forall f e, ab_observer ab = Some f -> considerate (f e)) ->
  (forall s e s', ab_enter ab s = (Raised e, s') -> e = CancelledError \/ e = FuelExhausted) ->
  considerate (op_run op) ->
  considerate (async_call ab op).
Proof.
  intros considerate Hb He Hw Hx Ho Hr Hop.
  exact (bulkhead_async_call_polite ab others (beside accounts) Hb He Hw Hx Ho Hr op Hop).
Qed.

(** ** Releases under cancellation *)

Section Cancelled.
Variables (name : pystr) (fuel : nat).

(** A world with the counters and the number of cancellations that reach the
    next entries of the condition. *)
Definition cancelled_world : Type := BulkheadData * nat.

Definition cancelled_bulkhead : AsyncBulkhead cancelled_world := {|
  ab_name := name;
  ab_max_wait := f0;
  ab_data := Lens _ _ fst (fun d w => (d, snd w));
  ab_observer := None;
  ab_bind_loop := ret tt;
  ab_enter := fun w => match snd w with
                       | O => (Returned tt, w)
                       | S n => (Raised CancelledError, (fst w, n))
                       end;
  ab_wait := ret tt;
  ab_expired := ret false;
  ab_fuel := fuel;
|}.

Lemma release_loop_cancelled n d k c :
  (n < k)%nat ->
  release_loop cancelled_bulkhead k c (d, n)
  = (Returned (snapshot_of name (add_in_flight (-1) d), c || bool_decide (n <> 0%nat)),
     (add_in_flight (-1) d, 0%nat)).
Proof.
  revert k c. induction n as [|n IH]; intros [|k] c Hk; try lia.
  - cbn. by rewrite orb_false_r.
  - cbn [release_loop]. unfold bind at 1, try_except, async_release, bind at 1, bind at 1.
    cbn. rewrite IH by lia.
    rewrite (bool_decide_eq_true_2 (S n <> 0%nat)) by done. by rewrite orb_true_r.
Qed.
End Cancelled.

(** [_release_preserving_cancellation] returns the place exactly once
    after any number of cancellations, and reports whether there was one; one
    round of fuel more than there are cancellations is enough. *)
Theorem release_absorbs_cancellations name fuel d n :
  (n < fuel)%nat ->
  release_preserving_cancellation (cancelled_bulkhead name fuel) (d, n)
  = (Returned (snapshot_of name (add_in_flight (-1) d), bool_decide (n <> 0%nat)),
     (add_in_flight (-1) d, 0%nat)).
Proof. exact (release_loop_cancelled name fuel n d fuel false). Qed.

(** A full bulkhead without waiting time rejects the call with
    [BulkheadRejectedError] and one event; the operation does not run and the
    counters do not change. *)
Theorem full_bulkhead_rejects {W A} (bh : Bulkhead W) `{!LensLaws (bh_data bh)}
    `{!Awaitable W A} (op : operation W A) s d :
  op_callable op = true -> Forall (fun t => t = plain_target) (op_targets op) ->
  lget (bh_data bh) s = d -> max_concurrency d <= in_flight d ->
  feq (bh_max_wait bh) f0 = true ->
  call bh op s
  = match emit (bh_observer bh) (bulkhead_event (bh_name bh) REJECTED (Some REJECTION)
              Category.BULKHEAD_REJECTED (snapshot_of (bh_name bh) d)) s with
    | (Returned _, s') => (Raised (BulkheadRejectedError (bh_name bh)), s')
    | (Raised e, s') => (Raised e, s')
    end.
Proof.
  intros Hc Ht Hd Hfull Hwait.
  assert (existsb (fun t => is_coroutine_function t || is_generator_function t
            || is_async_generator_function t) (op_targets op) = false) as Hk.
  { clear -Ht. induction Ht as [|t l -> _ IH]; [done|]. exact IH. }
  unfold call, validate_callable, ensure_sync_operation, raise_if, bind. rewrite Hc, Hk. cbn.
  unfold guarded, acquire, acquire_waiting, bind, locked, acquire_section. cbn. rewrite Hd.
  destruct (Z.leb_spec (max_concurrency d) (in_flight d)); [|lia].
  rewrite <-Hd, lput_lget. rewrite Hwait. cbn. by rewrite lput_lget.
Qed.

(** ** Waiting ends *)

(** The synchronous wait ends: if each wake-up that leaves time until the
    deadline brings some measure of the remaining time down, as the progress of
    [time.monotonic] does, then fuel above the measure is never exhausted. *)
Theorem waiting_terminates {W} (bh : Bulkhead W) `{!LensLaws (bh_data bh)} deadline
    (μ : W -> nat) fuel s :
  (forall s, exists now, bh_monotonic bh s = (Returned now, s)) ->
  (forall s now s', bh_monotonic bh s = (Returned now, s) ->
     fle (fsub deadline now) f0 = false ->
     bh_wait bh (fsub deadline now) s = (Returned tt, s') -> (μ s' < μ s)%nat) ->
  (forall t s, fst (bh_wait bh t s) <> Raised FuelExhausted) ->
  (μ s < fuel)%nat ->
  fst (wait_for_place bh fuel deadline s) <> Raised FuelExhausted.
Proof.
  intros Hclock Hprogress Hwait. revert s. induction fuel as [|fuel IH]; intros s Hμ; [lia|].
  cbn [wait_for_place]. unfold bind at 1, is_full, locked. cbn [fst]. rewrite lput_lget.
  destruct (max_concurrency _ <=? in_flight _); [|done]. cbn [negb].
  destruct (Hclock s) as [now Hnow]. unfold bind at 1. rewrite Hnow.
  destruct (fle (fsub deadline now) f0) eqn:Hle; [done|].
  unfold bind at 1. pose proof (Hwait (fsub deadline now) s) as Hw.
  destruct (bh_wait bh (fsub deadline now) s) as [[[]|e] s'] eqn:E; cbn in Hw |- *; [|congruence].
  apply IH. specialize (Hprogress s now s' Hnow Hle E). lia.
Qed.

(** ** Witnesses *)

Section Witnesses.
Abbreviation w_full := {| max_concurrency := 1; in_flight := 1; waiters := 0 |}.
Abbreviation w_free := {| max_concurrency := 1; in_flight := 0; waiters := 0 |}.

(** A bulkhead that is the whole world. *)
Definition w_bulkhead : Bulkhead BulkheadData := {|
  bh_name := py "pool";
  bh_max_wait := f0;
  bh_data := id_lens;
  bh_observer := None;
  bh_monotonic := ret f0;
  bh_wait := fun _ => ret tt;
  bh_fuel := 3;
|}.

#[export] Instance w_awaitable : Awaitable BulkheadData bool := fun _ => None.
#[export] Instance w_bulkhead_laws : LensLaws (bh_data w_bulkhead) := id_lens_laws.

Lemma bulkhead_call_leaks_no_place_witness :
  respects_beside (fun _ => (1%nat, 0%nat)) (beside accounts) (bh_data w_bulkhead)
    (call w_bulkhead (sync_function (pure_outcome (Raised (A := bool) KeyError)))).
Proof.
  assert (forall B (r : outcome B),
    respects_beside (fun _ => (1%nat, 0%nat)) (beside accounts) (bh_data w_bulkhead) (pure_outcome r)) as Hp
    by (intros B r h w; apply keeps_pure_outcome).
  apply (bulkhead_call_leaks_no_place w_bulkhead (fun _ => (1%nat, 0%nat))); try done.
  - apply (Hp _ (Returned f0)).
  - intros t. apply (Hp _ (Returned tt)).
  - apply (Hp _ (Raised KeyError)).
Defined.

(** A full bulkhead whose place another call gives back while a caller waits. *)
Definition w_shared : Type := BulkheadData * (nat * nat).

Definition w_yielding : Bulkhead w_shared := {|
  bh_name := py "pool";
  bh_max_wait := f1;
  bh_data := Lens _ _ fst (fun d w => (d, snd w));
  bh_observer := None;
  bh_monotonic := ret f0;
  bh_wait := fun _ s =>
    (Returned tt, match s with
                  | (d, (S h, w)) => (snd (release_section (py "pool") d), (h, w))
                  | _ => s
                  end);
  bh_fuel := 3;
|}.

#[export] Instance w_shared_awaitable : Awaitable w_shared bool := fun _ => None.
#[export] Instance w_yielding_laws : LensLaws (bh_data w_yielding).
Proof. constructor; [by intros ? []|by intros []|by intros ? ? []]. Qed.
#[export] Instance w_yielding_framed : Framed (bh_data w_yielding) snd.
Proof. by intros ? []. Qed.

Lemma bulkhead_capacity_respected_witness :
  exists s d, acquire w_yielding (w_full, (1%nat, 0%nat)) = (Returned (Some s), (d, (0%nat, 0%nat))) /\
    reachable (py "pool") w_free 1 0 d /\ in_flight d = 1.
Proof.
  assert (reachable (py "pool") w_free 1 0 w_full) as Hfull.
  { eapply rtc_r; [apply rtc_refl|]. by eapply step_acquired. }
  assert (forall B (m : M w_shared B), (forall w, snd (m w) = w) ->
    respects_beside snd (beside (reachable (py "pool") w_free)) (bh_data w_yielding) m) as Hstill.
  { intros B m Hm h w s Hs. right. by rewrite Hm. }
  edestruct (bulkhead_capacity_respected w_yielding snd (sync_function (ret true))
    (PyStr (py "pool")) (PyInt 1) (PyInt 1) w_free) as [Hcap Hrun]; [vm_compute; reflexivity|
    by apply Hstill| |done|by apply Hstill|done|].
  - intros t h w [d [[|oh] ow]] Hs; right; cbn in *; [exact Hs|]. unfold beside in *. cbn in *.
    rewrite Nat.add_succ_r in Hs. eapply rtc_r; [exact Hs|]. apply step_released.
  - destruct (Hrun 0%nat 0%nat (w_full, (1%nat, 0%nat)) Hfull) as [Hacq _].
    eexists _, w_full. split; [vm_compute; reflexivity|]. split; [|reflexivity].
    vm_compute acquire in Hacq. exact Hacq.
Defined.

Lemma w_cancelled_respects {A} (m : M cancelled_world A) :
  (forall w, fst (snd (m w)) = fst w) ->
  respects_beside (fun _ => (0%nat, 0%nat)) (beside accounts) (ab_data (cancelled_bulkhead (py "pool") 5)) m.
Proof. intros Hm h w s Hs. right. cbn in *. by rewrite Hm. Qed.

#[export] Instance w_cancelled_laws : LensLaws (ab_data (cancelled_bulkhead (py "pool") 5)).
Proof. constructor; [by intros ? []|by intros []|by intros ? ? []]. Qed.

Lemma async_bulkhead_survives_cancellation_witness :
  respects_beside (fun _ => (0%nat, 0%nat)) (beside accounts) (ab_data (cancelled_bulkhead (py "pool") 5))
    (async_call (cancelled_bulkhead (py "pool") 5)
       (async_function (pure_outcome (Raised (A := bool) CancelledError)))).
Proof.
  apply (async_bulkhead_survives_cancellation (cancelled_bulkhead (py "pool") 5) (fun _ => (0%nat, 0%nat))).
  - by apply w_cancelled_respects.
  - apply w_cancelled_respects. by intros [d []].
  - by apply w_cancelled_respects.
  - by apply w_cancelled_respects.
  - done.
  - intros [d []] e s' [=]; auto.
  - by apply w_cancelled_respects.
Defined.

Lemma release_absorbs_cancellations_witness :
  (2 < 5)%nat /\
  release_preserving_cancellation (cancelled_bulkhead (py "pool") 5) (w_full, 2%nat)
  = (Returned (snapshot_of (py "pool") w_free, true), (w_free, 0%nat)).
Proof. split; [lia|]. apply (release_absorbs_cancellations (py "pool") 5 w_full 2); lia. Defined.

Lemma full_bulkhead_rejects_witness :
  call w_bulkhead (sync_function (pure_outcome (Returned true))) w_full
  = (Raised (BulkheadRejectedError (py "pool")), w_full).
Proof.
  apply (full_bulkhead_rejects w_bulkhead (sync_function (pure_outcome (Returned true))) w_full w_full);
    [reflexivity|by repeat constructor|reflexivity|cbn; lia|reflexivity].
Defined.

(** A clock that reaches the deadline after as many waits as its counter. *)
Definition w_clock : Bulkhead (BulkheadData * nat) := {|
  bh_name := py "pool";
  bh_max_wait := f1;
  bh_data := Lens _ _ fst (fun d w => (d, snd w));
  bh_observer := None;
  bh_monotonic := fun s => (Returned (if decide (snd s = 0%nat) then f1 else f0), s);
  bh_wait := fun _ s => (Returned tt, (fst s, pred (snd s)));
  bh_fuel := 3;
|}.

#[export] Instance w_clock_laws : LensLaws (bh_data w_clock).
Proof. constructor; [by intros ? []|by intros []|by intros ? ? []]. Qed.

Lemma waiting_terminates_witness :
  fst (wait_for_place w_clock 3 f1 (w_full, 2%nat)) <> Raised FuelExhausted.
Proof.
  apply (waiting_terminates w_clock f1 snd 3 (w_full, 2%nat)); cbn.
  - intros s. by eexists.
  - intros [d n] now s' H Hle H'. cbn in *. injection H' as <-. cbn.
    destruct (decide (n = 0%nat)); [|lia]. injection H as <-. by vm_compute in Hle.
  - done.
  - lia.
Defined.
End Witnesses.
