(* ===== verification/AsyncCircuit.v ===== *)
(** * The asynchronous circuit breaker ([bluetape/resilience/_circuit.py])

    [AsyncCircuitBreaker] shares its data and its events with the synchronous
    breaker of [Circuit.v].  It takes its asyncio lock for every transition, and
    a task can be cancelled while it waits for that lock; a release therefore
    retries until it has given the slot back. *)

From Stdlib Require Import SpecFloat.
From S2P Require Import Prelude Python Resilience Circuit.
Open Scope py_scope.
Open Scope Z_scope.

Section AsyncCircuit.
Context {W : Type}.

(** [ac_enter] is the entry of [async with self._lock]; [ac_bind_loop] raises for
    a foreign event loop.  [ac_fuel] bounds the cancellations of one release. *)
Record AsyncCircuitBreaker : Type := {
  ac_breaker : CircuitBreaker W;
  ac_bind_loop : M W unit;
  ac_enter : M W unit;
  ac_fuel : nat;
}.

Variable ac : AsyncCircuitBreaker.
Abbreviation cb := (ac_breaker ac).

Definition async_snapshot : M W CircuitSnapshot :=
  ac_bind_loop ac ;; ac_enter ac ;;
  locked (cb_data cb) (fun d => (snapshot d (cb_name cb), d)).

Definition async_release (admission : Admission) : M W CircuitSnapshot :=
  ac_enter ac ;;
  locked (cb_data cb) (fun d =>
    let d' := ignore d admission in (snapshot d' (cb_name cb), d')).

(** The loop of [_release_preserving_cancellation]. *)
Fixpoint release_loop (admission : Admission) (fuel : nat) (cancelled : bool)
    : M W (CircuitSnapshot * bool) :=
  match fuel with
  | O => raise FuelExhausted
  | S fuel' =>
      released <- try_except (s <- async_release admission ;; ret (Some s))
        (fun e => match e with CancelledError => Some (ret None) | _ => None end) ;;
      match released with
      | Some s => ret (s, cancelled)
      | None => release_loop admission fuel' true
      end
  end.

Definition release_preserving_cancellation (admission : Admission) : M W (CircuitSnapshot * bool) :=
  release_loop admission (ac_fuel ac) false.

(** [await self._release_preserving_cancellation(admission); raise]. *)
Definition release_then_raise {A} (admission : Admission) (e : exn) : M W A :=
  release_preserving_cancellation admission ;; raise e.

(** The same, raising [CancelledError] when the release absorbed one. *)
Definition release_and_raise {A} (admission : Admission) (e : exn) : M W A :=
  let* (_, cancelled) := release_preserving_cancellation admission in
  if (cancelled : bool) then raise CancelledError else raise e.

(** [try: m except BaseException: <release_and_raise>]. *)
Definition async_releasing {A} (admission : Admission) (m : M W A) : M W A :=
  try_except m (fun e => Some (release_and_raise admission e)).

(** [try: async with self._lock: f except CancelledError: release, raise]. *)
Definition async_locked {A} (admission : Admission) (f : CircuitData -> A * CircuitData) : M W A :=
  try_except (ac_enter ac ;; locked (cb_data cb) f)
    (fun e => match e with
              | CancelledError => Some (release_then_raise admission e)
              | _ => None
              end).

Definition async_announce (admission : option Admission) (tr : option Transition)
    (snap : CircuitSnapshot) : M W Admission :=
  try_except
    (emit_transition cb snap tr ;;
     match admission with
     | None =>
         emit_event cb REJECTED (Some REJECTION) Category.CIRCUIT_OPEN snap None ;;
         raise (CircuitOpenError (cb_name cb) (cs_state snap))
     | Some a => emit_event cb ADMITTED None Category.NONE snap None ;; ret a
     end)
    (fun e => Some
      (match e, admission with
       | _, None => raise e
       | CancelledError, Some a => release_then_raise a e
       | _, Some a => release_and_raise a e
       end)).

Definition async_on_error {A} (admission : Admission) (error : exn) : M W A :=
  classified <- async_releasing admission (classify cb error) ;;
  now <- async_releasing admission (read_clock cb) ;;
  let* (changed, snap) :=
    async_locked admission (fun d =>
      let '(changed, d') := if classified then fail d admission now else (None, d) in
      let d'' := if classified then d' else ignore d' admission in
      ((changed, snapshot d'' (cb_name cb)), d'')) in
  emit_transition cb snap changed ;;
  emit_event cb FAILED (Some FAILURE) (failure_category error) snap None ;;
  raise error.

Definition async_on_success {A} (admission : Admission) (result : A) : M W A :=
  now <- async_releasing admission (read_clock cb) ;;
  let* (changed, snap) :=
    async_locked admission (fun d =>
      let '(changed, d') := succeed d admission now in
      ((changed, snapshot d' (cb_name cb)), d')) in
  emit_transition cb snap changed ;;
  emit_event cb SUCCEEDED (Some SUCCESS) Category.NONE snap None ;;
  ret result.

Definition async_call {A} (op : operation W A) : M W A :=
  validate_callable op "operation" ;;
  ensure_async_operation op ;;
  ac_bind_loop ac ;;
  now <- read_clock cb ;;
  ac_enter ac ;;
  let* (admission, tr, snap) :=
    locked (cb_data cb) (fun d =>
      let '(admission, tr, d') := admit_call d now in
      ((admission, tr, snapshot d' (cb_name cb)), d')) in
  a <- async_announce admission tr snap ;;
  result <-
    try_except (op_run op)
      (fun e => Some
        (match e with
         | CancelledError => release_then_raise a e
         | _ => if is_Exception e then async_on_error a e else release_and_raise a e
         end)) ;;
  async_on_success a result.

(** [AsyncCircuitBreaker.__call__]. *)
Definition async_wrap {A} (op : operation W A) : M W (operation W A) :=
  validate_callable op "operation" ;;
  ensure_async_operation op ;;
  ret (async_function (async_call op)).
End AsyncCircuit.
Arguments AsyncCircuitBreaker : clear implicits.

(** ** Every admission is completed once, under cancellation *)

Section AsyncProtocol.
Context {W : Type} (ac : AsyncCircuitBreaker W) `{!LensLaws (cb_data (ac_breaker ac))}.
Context {G : Type} (others : W -> G) `{!Framed (cb_data (ac_breaker ac)) others}.
Context (I : G -> list Admission -> CircuitData -> Prop) `{Hprotocol : !forall g, CircuitProtocol (I g)}.

Abbreviation cb := (ac_breaker ac).
Abbreviation held mine := (fun w => I (others w) mine (lget (cb_data cb) w)).
Abbreviation polite := (respects_beside others I (cb_data cb)).

Hypothesis clock_polite : polite (cb_clock cb).
Hypothesis observer_polite : forall observe e, cb_observer cb = Some observe -> polite (observe e).
Hypothesis failure_if_polite : forall f e, cb_failure_if cb = Some f -> polite (f e).
Hypothesis bind_loop_polite : polite (ac_bind_loop ac).
Hypothesis enter_polite : polite (ac_enter ac).

(** Entering the lock on the bound loop fails only by cancellation. *)
Hypothesis enter_raises : forall w e w', ac_enter ac w = (Raised e, w') ->
  e = CancelledError \/ e = FuelExhausted.

Lemma circuit_release_loop_held a mine fuel c :
  triple (held (a :: mine)) (release_loop ac a fuel c)
    (fun r w => match r with Returned _ => held mine w | Raised e => e = FuelExhausted end).
Proof.
  revert c. induction fuel as [|fuel IH]; intros c; [by apply triple_raise|].
  cbn [release_loop].
  apply triple_bind with (R := fun o => held (match o with Some _ => mine | None => a :: mine end)).
  - intros w Hw. unfold try_except, async_release, bind, locked.
    pose proof (enter_polite (a :: mine) w Hw) as He. pose proof (enter_raises w) as Hr.
    destruct (ac_enter ac w) as [[[]|e] w'] eqn:E; cbn in *.
    + destruct He as [ [=] |He]. rewrite lget_lput, framed. by apply cp_ignore.
    + destruct (Hr e w' eq_refl) as [->| ->]; cbn; [|done]. by destruct He as [ [=] |He].
  - intros [s|]; [by apply triple_ret|apply IH].
Qed.

Lemma circuit_release_then {A} a mine (k : CircuitSnapshot * bool -> M W A) Q :
  (forall w, Q (Raised FuelExhausted) w) ->
  (forall p, triple (held mine) (k p) Q) ->
  triple (held (a :: mine)) (p <- release_preserving_cancellation ac a ;; k p) Q.
Proof.
  intros HQ Hk. apply triple_bind with (R := fun _ => held mine); [|done].
  eapply triple_conseq; [apply (circuit_release_loop_held a mine (ac_fuel ac) false)|done|].
  intros [p|e] w; [done|]. by intros ->.
Qed.

Lemma release_then_raise_held {A} a mine e :
  triple (held (a :: mine)) (@release_then_raise W ac A a e) (raised (held mine)).
Proof. apply circuit_release_then; [by left|]. intros _. apply triple_raise. by right. Qed.

Lemma circuit_release_and_raise_held {A} a mine e :
  triple (held (a :: mine)) (@release_and_raise W ac A a e) (raised (held mine)).
Proof. apply circuit_release_then; [by left|]. intros [s []]; apply triple_raise; by right. Qed.

Lemma async_releasing_bind {A B} a mine (m : M W A) (k : A -> M W B) Q :
  keeps (held (a :: mine)) m ->
  (forall e w, settled (held mine) (@Raised A e) w -> Q (Raised e) w) ->
  (forall x, triple (held (a :: mine)) (k x) Q) ->
  triple (held (a :: mine)) (bind (async_releasing ac a m) k) Q.
Proof.
  intros Hm HQ Hk. apply triple_bind with (R := fun _ => held (a :: mine)); [|done].
  apply triple_try_except with (E := fun e => settled (held (a :: mine)) (@Raised A e)).
  - eapply triple_conseq; [apply Hm|done|]. by intros [] w; [intros [ [=] | ]|].
  - intros e h He [= <-].
    apply triple_conseq with (P' := held (a :: mine)) (Q' := raised (held mine));
      [apply circuit_release_and_raise_held|by intros w [ [= ->] | ]|].
    intros [] w; [done|apply HQ].
  - intros e w [ [=] | -> ] ?. apply HQ. by left.
Qed.

(** A transition that completes [a]: a cancelled entry of the lock completes it too. *)
Lemma async_locked_bind {A B} a mine (f : CircuitData -> A * CircuitData) (k : A -> M W B) Q :
  (forall g d, I g (a :: mine) d -> I g mine (snd (f d))) ->
  (forall e w, settled (held mine) (@Raised A e) w -> Q (Raised e) w) ->
  (forall x, triple (held mine) (k x) Q) ->
  triple (held (a :: mine)) (bind (async_locked ac a f) k) Q.
Proof.
  intros Hf HQ Hk. apply triple_bind with (R := fun _ => held mine); [|done].
  apply triple_try_except with (E := fun e w =>
    e = FuelExhausted \/ e = CancelledError /\ held (a :: mine) w).
  - intros w Hw. unfold bind, locked.
    pose proof (enter_polite (a :: mine) w Hw) as He. pose proof (enter_raises w) as Hr.
    destruct (ac_enter ac w) as [[[]|e] w'] eqn:E; cbn in *.
    + destruct He as [ [=] |He]. destruct (f _) as [x d] eqn:Ef; cbn. rewrite lget_lput, framed.
      specialize (Hf _ _ He). by rewrite Ef in Hf.
    + destruct (Hr e w' eq_refl) as [->| ->]; [|by left]. right. by destruct He as [ [=] |He].
  - intros e h He Hh. destruct e; simplify_eq.
    apply triple_conseq with (P' := held (a :: mine)) (Q' := raised (held mine));
      [apply release_then_raise_held|by intros w [|[]]|]. intros [] w; [done|apply HQ].
  - intros e w Hn [->|[-> _]]; [apply HQ; by left|]. by destruct Hn.
Qed.

Lemma emit_keeps_events mine s t k o c :
  keeps (held mine) (emit_transition cb s t ;; emit_event cb k o c s None).
Proof.
  apply keeps_bind; [by apply emit_transition_keeps|intros _; by apply emit_event_keeps].
Qed.

Lemma async_on_error_held {A} a mine e :
  triple (held (a :: mine)) (@async_on_error W ac A a e) (raised (held mine)).
Proof.
  apply async_releasing_bind; [by apply classify_keeps|intros ??; apply settled_raised|].
  intros classified.
  apply async_releasing_bind; [by apply read_clock_keeps|intros ??; apply settled_raised|].
  intros now. apply async_locked_bind; [|intros ??; apply settled_raised|].
  { intros g d H. destruct classified; cbn; [|by apply cp_ignore].
    destruct (fail d a now) as [tr d'] eqn:E. by eapply cp_fail. }
  intros [changed snap].
  apply triple_keeps_bind; [by apply emit_transition_keeps|intros ??; apply settled_raised|intros _].
  apply triple_keeps_bind; [by apply emit_event_keeps|intros ??; apply settled_raised|intros _].
  apply triple_raise. by right.
Qed.

Lemma async_on_success_held {A} a mine (x : A) :
  triple (held (a :: mine)) (async_on_success ac a x) (settled (held mine)).
Proof.
  apply async_releasing_bind; [by apply read_clock_keeps|intros ??; apply settled_raised|].
  intros now. apply async_locked_bind; [|intros ??; apply settled_raised|].
  { intros g d H. destruct (succeed d a now) as [tr d'] eqn:E. by eapply cp_succeed. }
  intros [changed snap].
  apply keeps_bind; [by apply emit_transition_keeps|intros _].
  apply keeps_bind; [by apply emit_event_keeps|intros _; apply keeps_ret].
Qed.

Lemma async_announce_held admission tr snap mine :
  triple (held (option_list admission ++ mine)) (async_announce ac admission tr snap)
    (fun r w => match r with
                | Returned a => held (a :: mine) w
                | Raised _ => settled (held mine) r w
                end).
Proof.
  apply triple_try_except with
    (E := fun e => settled (held (option_list admission ++ mine)) (@Raised Admission e)).
  - apply triple_keeps_bind; [by apply emit_transition_keeps|intros ??; apply settled_raised|].
    intros _. destruct admission as [a|].
    + apply triple_keeps_bind; [by apply emit_event_keeps|intros ??; apply settled_raised|].
      intros _. by apply triple_ret.
    + apply triple_keeps_bind; [by apply emit_event_keeps|intros ??; apply settled_raised|].
      intros _. apply triple_raise. by right.
  - intros e h He [= <-]. destruct admission as [a|]; cbn [option_list app].
    + apply triple_conseq with (P' := held (a :: mine)) (Q' := raised (held mine));
        [|by intros w [ [= ->] | ]|by intros [] w].
      destruct e; first [apply release_then_raise_held|apply circuit_release_and_raise_held].
    + apply triple_conseq with (P' := settled (held mine) (@Raised Admission e))
        (Q' := raised (held mine)); [|done|by intros [] w].
      by destruct e; apply triple_raise.
  - intros e w [ [=] | -> ] ?. by left.
Qed.

Lemma async_call_polite {A} (op : operation W A) :
  polite (op_run op) -> polite (async_call ac op).
Proof.
  intros Hop mine. unfold async_call.
  apply keeps_bind; [apply keeps_validate_callable|intros _].
  apply keeps_bind; [apply keeps_ensure_async_operation|intros _].
  apply keeps_bind; [apply bind_loop_polite|intros _].
  apply keeps_bind; [by apply read_clock_keeps|intros now].
  apply keeps_bind; [apply enter_polite|intros _].
  apply triple_bind with (R := fun p => held (option_list p.1.1 ++ mine)).
  { apply triple_locked. intros w Hw. rewrite lget_lput, framed.
    destruct (admit_call _ now) as [[[a|] tr] d'] eqn:E; cbn.
    - by eapply cp_admit.
    - by eapply cp_reject. }
  intros [[admission tr] snap]; cbn [fst].
  apply triple_bind with (R := fun a => held (a :: mine)).
  { eapply triple_conseq; [apply async_announce_held|intros w Hw; exact Hw|].
    intros [a|e] w; [intros H; exact H|apply settled_raised]. }
  intros a. apply triple_bind with (R := fun _ => held (a :: mine));
    [|intros x; apply async_on_success_held].
  apply triple_try_except with (E := fun e => settled (held (a :: mine)) (@Raised A e)).
  - eapply triple_conseq; [apply (Hop (a :: mine))|done|]. by intros [] w; [intros [ [=] | ]|].
  - intros e h He [= <-].
    apply triple_conseq with (P' := held (a :: mine)) (Q' := raised (held mine));
      [|by intros w [ [= ->] | ]|by intros [] w].
    destruct e; cbn [is_Exception]; first [apply release_then_raise_held
      |apply async_on_error_held|apply circuit_release_and_raise_held].
  - intros e w [ [=] | -> ] ?. by left.
Qed.
End AsyncProtocol.

(** An asynchronous call completes its admission exactly once even when
    its task is cancelled at any await: while it takes the lock to report the
    outcome, inside the operation, or repeatedly during the release.  Other
    tasks may admit and complete calls at every await, of which [others] keeps
    the book. *)
Theorem async_circuit_survives_cancellation {W A} (ac : AsyncCircuitBreaker W)
    `{!LensLaws (cb_data (ac_breaker ac))} (others : W -> list Admission)
    `{!Framed (cb_data (ac_breaker ac)) others} (op : operation W A) :
  let considerate {B} := respects_beside (A := B) others accounts_beside (cb_data (ac_breaker ac)) in
  considerate (cb_clock (ac_breaker ac)) ->
  (forall observe e, cb_observer (ac_breaker ac) = Some observe -> considerate (observe e)) ->
  (forall f e, cb_failure_if (ac_breaker ac) = Some f -> considerate (f e)) ->
  considerate (ac_bind_loop ac) ->
  considerate (ac_enter ac) ->
  (forall w e w', ac_enter ac w = (Raised e, w') -> e = CancelledError \/ e = FuelExhausted) ->
  considerate (op_run op) ->
  considerate (async_call ac op).
Proof.
  intros considerate Hc Ho Hf Hb He Hr Hop.
  exact (async_call_polite ac others accounts_beside Hc Ho Hf Hb He Hr op Hop).
Qed.

(** ** Witness *)

Section Witnesses.
(** A half-open breaker whose lock entries are cancelled as often as the
    counter of the world says. *)
Definition w_world : Type := CircuitData * nat.

Definition w_async_breaker : AsyncCircuitBreaker w_world := {|
  ac_breaker := {|
    cb_name := py "db";
    cb_data := Lens _ _ fst (fun d w => (d, snd w));
    cb_failure_if := None;
    cb_observer := None;
    cb_clock := ret (PyInt 5);
  |};
  ac_bind_loop := ret tt;
  ac_enter := fun w => match snd w with
                       | O => (Returned tt, w)
                       | S n => (Raised CancelledError, (fst w, n))
                       end;
  ac_fuel := 5;
|}.

#[export] Instance w_async_laws : LensLaws (cb_data (ac_breaker w_async_breaker)).
Proof. constructor; [by intros ? []|by intros []|by intros ? ? []]. Qed.

Lemma w_async_respects {A} (m : M w_world A) :
  (forall w, fst (snd (m w)) = fst w) ->
  respects_beside (fun _ => []) accounts_beside (cb_data (ac_breaker w_async_breaker)) m.
Proof. intros Hm mine w Hw. right. cbn in *. by rewrite Hm. Qed.

Lemma async_circuit_survives_cancellation_witness :
  respects_beside (fun _ => []) accounts_beside (cb_data (ac_breaker w_async_breaker))
    (async_call w_async_breaker (async_function (pure_outcome (Raised (A := bool) CancelledError)))).
Proof.
  apply (async_circuit_survives_cancellation w_async_breaker (fun _ => [])).
  - by apply w_async_respects.
  - done.
  - done.
  - by apply w_async_respects.
  - apply w_async_respects. by intros [d []].
  - intros [d []] e w' [=]; auto.
  - by apply w_async_respects.
Defined.
End Witnesses.
