(* ===== verification/Timeout.v ===== *)
(** * The asyncio timeout policy ([bluetape/resilience/_timeout.py])

    [AsyncTimeout.call] runs its operation inside [asyncio.timeout].  The
    standard library's scope turns the cancellation of its own deadline into
    [TimeoutError]; the policy turns that into [PolicyTimeoutError] and lets
    every other cancellation and failure through. *)

From Stdlib Require Import SpecFloat.
From S2P Require Import Prelude Python Resilience.
Open Scope py_scope.
Open Scope Z_scope.

Section Timeout.
Context {W : Type}.

(** The attributes of the policy and its [asyncio.timeout] scope: [to_enter]
    schedules the deadline, [to_expired] is [context.expired()] (the deadline
    has cancelled the task) and [to_sole] says that the task has no other
    pending cancellation ([uncancel] of the scope's exit). *)
Record AsyncTimeout : Type := {
  to_name : pystr;
  to_timeout : float;
  to_observer : option (PolicyEvent -> M W unit);
  to_enter : float -> M W unit;
  to_expired : M W bool;
  to_sole : M W bool;
}.

(** The constructor's validation. *)
Definition make_timeout (name timeout : pyval) : outcome (pystr * float) :=
  match validate_name name "name" with
  | Raised e => Raised e
  | Returned n =>
    match finite_positive timeout "timeout" with
    | Raised e => Raised e
    | Returned t => Returned (n, t)
    end
  end.

Variable policy : AsyncTimeout.

Definition timeout_event (kind : EventKind) (out : PolicyOutcome)
    (category : Category.FailureCategory) : PolicyEvent := {|
  ev_policy_name := to_name policy;
  ev_policy_type := TIMEOUT;
  ev_kind := kind;
  ev_outcome := Some out;
  ev_failure_category := category;
  ev_attempt := None;
  ev_delay := None;
  ev_timeout := Some (to_timeout policy);
  ev_state := None;
  ev_previous_state := None;
  ev_in_flight := None;
  ev_waiters := None;
|}.

Definition emit_timeout (kind : EventKind) (out : PolicyOutcome)
    (category : Category.FailureCategory) : M W unit :=
  emit (to_observer policy) (timeout_event kind out category).

(** [async with context]. *)
Definition scope {A} (m : M W A) : M W A :=
  to_enter policy (to_timeout policy) ;;
  try_except m (fun e =>
    match e with
    | CancelledError =>
        Some (expired <- to_expired policy ;; sole <- to_sole policy ;;
              raise (if (expired : bool) && (sole : bool) then TimeoutError else CancelledError))
    | _ => None
    end).

(** The [except] clauses of [call]. *)
Definition on_timeout_error {A} (e : exn) : option (M W A) :=
  match e with
  | CancelledError => None
  | _ =>
      if is_TimeoutError e then
        Some (expired <- to_expired policy ;;
              if (expired : bool) then
                emit_timeout TIMED_OUT FAILURE Category.TIMEOUT ;;
                raise (PolicyTimeoutError (to_name policy) (to_timeout policy))
              else
                emit_timeout FAILED FAILURE (failure_category e) ;; raise e)
      else if is_Exception e then
        Some (emit_timeout FAILED FAILURE (failure_category e) ;; raise e)
      else None
  end.

Definition timeout_call {A} (op : operation W A) : M W A :=
  validate_callable op "operation" ;;
  ensure_async_operation op ;;
  result <- try_except (scope (op_run op)) on_timeout_error ;;
  emit_timeout SUCCEEDED SUCCESS Category.NONE ;;
  ret result.

(** [AsyncTimeout.__call__]. *)
Definition timeout_wrap {A} (op : operation W A) : M W (operation W A) :=
  validate_callable op "operation" ;;
  ensure_async_operation op ;;
  ret (async_function (timeout_call op)).
End Timeout.
Arguments AsyncTimeout : clear implicits.

(** ** Behaviour *)

(** How a call ends, from how its operation ended and what its scope reports:
    the call's outcome and its only event, if it has one. *)
Definition timeout_result {A} (name : pystr) (timeout : float) (expired sole : bool)
    (r : outcome A) : outcome A * option (EventKind * PolicyOutcome * Category.FailureCategory) :=
  let timed_out := (Raised (PolicyTimeoutError name timeout),
                    Some (TIMED_OUT, FAILURE, Category.TIMEOUT)) in
  match r with
  | Returned x => (Returned x, Some (SUCCEEDED, SUCCESS, Category.NONE))
  | Raised CancelledError => if expired && sole then timed_out else (r, None)
  | Raised e =>
      if is_TimeoutError e && expired then timed_out
      else if is_Exception e then (r, Some (FAILED, FAILURE, failure_category e))
      else (r, None)
  end.

(** [AsyncTimeout.call] on every branch.  A cancellation becomes
    [PolicyTimeoutError] exactly when it is the deadline's and the task has no
    other; the caller's own cancellation passes through without an event; a
    [TimeoutError] of the operation is kept unless the deadline has passed; any
    other failure is announced once and raised unchanged; a result is returned
    even when the operation absorbed the deadline's cancellation. *)
Theorem timeout_call_result {W A} (policy : AsyncTimeout W) (op : operation W A)
    w w' r expired sole :
  op_callable op = true -> op_targets op = [coroutine_target; plain_target] ->
  to_enter policy (to_timeout policy) w = (Returned tt, w) ->
  op_run op w = (r, w') ->
  to_expired policy w' = (Returned expired, w') ->
  to_sole policy w' = (Returned sole, w') ->
  timeout_call policy op w =
  let '(result, event) := timeout_result (to_name policy) (to_timeout policy) expired sole r in
  match event with
  | None => (result, w')
  | Some (kind, out, category) =>
      match emit (to_observer policy) (timeout_event policy kind out category) w' with
      | (Returned _, w'') => (result, w'')
      | (Raised e, w'') => (Raised e, w'')
      end
  end.
Proof.
  intros Hc Ht He Hop Hx Hs.
  unfold timeout_call, validate_callable, ensure_async_operation, raise_if, bind.
  rewrite Hc, Ht. cbn -[emit]. unfold try_except, scope, bind. rewrite He.
  unfold try_except. rewrite Hop.
  destruct r as [x|e]; cbn -[emit].
  - unfold emit_timeout. destruct (emit _ _ w') as [[[]|] ?]; done.
  - destruct e; cbn -[emit]; rewrite ?Hx; try destruct expired; cbn -[emit]; rewrite ?Hs;
      try destruct sole; cbn -[emit]; unfold bind, raise, ret, emit_timeout; rewrite ?Hx;
      cbn -[emit]; try done; destruct (emit _ _ w') as [[[]|] ?]; done.
Qed.

Section Witnesses.
(** A world that records the events. *)
Definition w_timeout : AsyncTimeout (list PolicyEvent) := {|
  to_name := py "fetch";
  to_timeout := f1;
  to_observer := Some (fun e w => (Returned tt, w ++ [e]));
  to_enter := fun _ => ret tt;
  to_expired := ret true;
  to_sole := ret true;
|}.

Lemma timeout_call_result_witness :
  timeout_call w_timeout (async_function (pure_outcome (Raised (A := bool) CancelledError))) []
  = (Raised (PolicyTimeoutError (py "fetch") f1),
     [timeout_event w_timeout TIMED_OUT FAILURE Category.TIMEOUT]).
Proof.
  exact (timeout_call_result w_timeout (async_function (pure_outcome (Raised (A := bool) CancelledError)))
    [] [] (Raised CancelledError) true true eq_refl eq_refl eq_refl eq_refl eq_refl eq_refl).
Defined.
End Witnesses.
