(* ===== verification/Pipeline.v ===== *)
(** * Resilience pipelines ([bluetape/resilience/_pipeline.py])

    A pipeline wraps an operation with its policies in the order they were
    added, so that the last one added is the outermost.  The policies are those
    of [Retry.v], [Circuit.v], [AsyncCircuit.v], [Bulkhead.v] and [Timeout.v];
    [Preserves] is what a pipeline needs of each of them.  A book of what the
    other users of the breaker and the bulkhead hold is kept beside the world. *)

From Stdlib Require Import SpecFloat.
From S2P Require Import Prelude Python Resilience Circuit Retry Bulkhead AsyncCircuit Timeout.
Open Scope py_scope.
Open Scope Z_scope.

Section Pipeline.
Context {W : Type}.

Inductive SyncPolicy : Type :=
| SyncRetry (policy : Retry W)
| SyncCircuitBreaker (policy : CircuitBreaker W)
| SyncBulkhead (policy : Bulkhead W).

Inductive AsyncPolicy : Type :=
| PAsyncRetry (policy : Retry W)
| PAsyncCircuitBreaker (policy : AsyncCircuitBreaker W)
| PAsyncBulkhead (policy : AsyncBulkhead W)
| PAsyncTimeout (policy : AsyncTimeout W).

(** A pipeline is its tuple of policies. *)
Definition ResiliencePipeline : Type := list SyncPolicy.
Definition AsyncResiliencePipeline : Type := list AsyncPolicy.

(** An argument of a [with_] method: a policy, or an object of another class
    ([None]). *)
Definition with_retry (p : ResiliencePipeline) (policy : option SyncPolicy)
    : outcome ResiliencePipeline :=
  match policy with
  | Some (SyncRetry r) => Returned (p ++ [SyncRetry r])
  | _ => Raised (TypeError "policy must be Retry")
  end.

Definition with_circuit_breaker (p : ResiliencePipeline) (policy : option SyncPolicy)
    : outcome ResiliencePipeline :=
  match policy with
  | Some (SyncCircuitBreaker b) => Returned (p ++ [SyncCircuitBreaker b])
  | _ => Raised (TypeError "policy must be CircuitBreaker")
  end.

Definition with_bulkhead (p : ResiliencePipeline) (policy : option SyncPolicy)
    : outcome ResiliencePipeline :=
  match policy with
  | Some (SyncBulkhead b) => Returned (p ++ [SyncBulkhead b])
  | _ => Raised (TypeError "policy must be Bulkhead")
  end.

Definition async_with_retry (p : AsyncResiliencePipeline) (policy : option AsyncPolicy)
    : outcome AsyncResiliencePipeline :=
  match policy with
  | Some (PAsyncRetry r) => Returned (p ++ [PAsyncRetry r])
  | _ => Raised (TypeError "policy must be AsyncRetry")
  end.

Definition async_with_circuit_breaker (p : AsyncResiliencePipeline) (policy : option AsyncPolicy)
    : outcome AsyncResiliencePipeline :=
  match policy with
  | Some (PAsyncCircuitBreaker b) => Returned (p ++ [PAsyncCircuitBreaker b])
  | _ => Raised (TypeError "policy must be AsyncCircuitBreaker")
  end.

Definition async_with_bulkhead (p : AsyncResiliencePipeline) (policy : option AsyncPolicy)
    : outcome AsyncResiliencePipeline :=
  match policy with
  | Some (PAsyncBulkhead b) => Returned (p ++ [PAsyncBulkhead b])
  | _ => Raised (TypeError "policy must be AsyncBulkhead")
  end.

Definition async_with_timeout (p : AsyncResiliencePipeline) (policy : option AsyncPolicy)
    : outcome AsyncResiliencePipeline :=
  match policy with
  | Some (PAsyncTimeout t) => Returned (p ++ [PAsyncTimeout t])
  | _ => Raised (TypeError "policy must be AsyncTimeout")
  end.

Section Calls.
Context {A : Type} `{!Awaitable W A}.

(** [policy(wrapped)]. *)
Definition apply_policy (policy : SyncPolicy) (op : operation W A) : M W (operation W A) :=
  match policy with
  | SyncRetry p => Retry.wrap p op
  | SyncCircuitBreaker p => Circuit.wrap p op
  | SyncBulkhead p => Bulkhead.wrap p op
  end.

Definition async_apply_policy (policy : AsyncPolicy) (op : operation W A)
    : M W (operation W A) :=
  match policy with
  | PAsyncRetry p => Retry.async_wrap p op
  | PAsyncCircuitBreaker p => AsyncCircuit.async_wrap p op
  | PAsyncBulkhead p => Bulkhead.async_wrap p op
  | PAsyncTimeout p => timeout_wrap p op
  end.

(** [for policy in self._policies: wrapped = policy(wrapped)]. *)
Fixpoint wrap_all (policies : ResiliencePipeline) (op : operation W A) : M W (operation W A) :=
  match policies with
  | [] => ret op
  | policy :: policies' => wrapped <- apply_policy policy op ;; wrap_all policies' wrapped
  end.

Fixpoint async_wrap_all (policies : AsyncResiliencePipeline) (op : operation W A)
    : M W (operation W A) :=
  match policies with
  | [] => ret op
  | policy :: policies' =>
      wrapped <- async_apply_policy policy op ;; async_wrap_all policies' wrapped
  end.

Definition pipeline_call (p : ResiliencePipeline) (op : operation W A) : M W A :=
  ensure_sync_operation op ;;
  wrapped <- wrap_all p op ;;
  result <- op_run wrapped ;;
  ensure_sync_result result.

Definition pipeline_wrap (p : ResiliencePipeline) (op : operation W A) : M W (operation W A) :=
  ensure_sync_operation op ;;
  ret (sync_function (pipeline_call p op)).

Definition async_pipeline_call (p : AsyncResiliencePipeline) (op : operation W A) : M W A :=
  ensure_async_operation op ;;
  wrapped <- async_wrap_all p op ;;
  op_run wrapped.

Definition async_pipeline_wrap (p : AsyncResiliencePipeline) (op : operation W A)
    : M W (operation W A) :=
  ensure_async_operation op ;;
  ret (async_function (async_pipeline_call p op)).

(** ** Composition *)

(** [policy.call(op)]. *)
Definition policy_call (policy : SyncPolicy) (op : operation W A) : M W A :=
  match policy with
  | SyncRetry p => Retry.call p op
  | SyncCircuitBreaker p => Circuit.call p op
  | SyncBulkhead p => Bulkhead.call p op
  end.

Definition async_policy_call (policy : AsyncPolicy) (op : operation W A) : M W A :=
  match policy with
  | PAsyncRetry p => Retry.async_call p op
  | PAsyncCircuitBreaker p => AsyncCircuit.async_call p op
  | PAsyncBulkhead p => Bulkhead.async_call p op
  | PAsyncTimeout p => timeout_call p op
  end.

(** An operation every sync (async) policy accepts. *)
Definition sync_op (op : operation W A) : Prop :=
  op_callable op = true /\
  existsb (fun t => is_coroutine_function t || is_generator_function t
                    || is_async_generator_function t) (op_targets op) = false.

Definition async_op (op : operation W A) : Prop :=
  op_callable op = true /\
  existsb is_coroutine_function (op_targets op) = true /\
  existsb (fun t => is_generator_function t || is_async_generator_function t)
    (op_targets op) = false.

Lemma sync_op_ensured op w : sync_op op -> ensure_sync_operation op w = (Returned tt, w).
Proof. intros [Hc Ht]. unfold ensure_sync_operation, raise_if, bind. by rewrite Hc, Ht. Qed.

Lemma async_op_ensured op w : async_op op -> ensure_async_operation op w = (Returned tt, w).
Proof.
  intros (Hc & Hk & Ht). unfold ensure_async_operation, raise_if, bind. by rewrite Hc, Hk, Ht.
Qed.

Lemma apply_policy_sync policy op w :
  sync_op op ->
  apply_policy policy op w = (Returned (sync_function (policy_call policy op)), w).
Proof.
  intros H. destruct policy; cbn; unfold Retry.wrap, Circuit.wrap, Bulkhead.wrap,
    validate_callable, raise_if, bind; rewrite (proj1 H); cbn; by rewrite sync_op_ensured.
Qed.

Lemma apply_policy_async policy op w :
  async_op op ->
  async_apply_policy policy op w = (Returned (async_function (async_policy_call policy op)), w).
Proof.
  intros H. destruct policy; cbn; unfold Retry.async_wrap, AsyncCircuit.async_wrap,
    Bulkhead.async_wrap, timeout_wrap, validate_callable, raise_if, bind; rewrite (proj1 H);
    cbn; by rewrite async_op_ensured.
Qed.

(** The nested calls: the first policy is the innermost. *)
Definition nested (p : ResiliencePipeline) (op : operation W A) : operation W A :=
  fold_left (fun inner policy => sync_function (policy_call policy inner)) p op.

Definition async_nested (p : AsyncResiliencePipeline) (op : operation W A) : operation W A :=
  fold_left (fun inner policy => async_function (async_policy_call policy inner)) p op.

Lemma wrap_all_nested p op w : sync_op op -> wrap_all p op w = (Returned (nested p op), w).
Proof.
  revert op. induction p as [|policy p IH]; intros op H; [done|]. cbn.
  rewrite (bind_returned _ _ _ _ _ (apply_policy_sync policy op w H)). by apply IH.
Qed.

Lemma async_wrap_all_nested p op w :
  async_op op -> async_wrap_all p op w = (Returned (async_nested p op), w).
Proof.
  revert op. induction p as [|policy p IH]; intros op H; [done|]. cbn.
  rewrite (bind_returned _ _ _ _ _ (apply_policy_async policy op w H)). by apply IH.
Qed.
End Calls.
End Pipeline.
Arguments SyncPolicy : clear implicits.
Arguments AsyncPolicy : clear implicits.
Arguments ResiliencePipeline : clear implicits.
Arguments AsyncResiliencePipeline : clear implicits.

(** A pipeline's call is the nested calls of its policies, the last one
    added outermost, around the operation: for an operation the policies accept,
    every wrapper passes the checks of the policy around it and the pipeline
    adds nothing but the last result check. *)
Theorem pipeline_call_nests {W A} `{!Awaitable W A} (p : ResiliencePipeline W) policy
    (op : operation W A) w :
  sync_op op ->
  pipeline_call (p ++ [policy]) op w
  = (result <- policy_call policy (nested p op) ;; ensure_sync_result result) w
  /\ pipeline_call [] op w = (result <- op_run op ;; ensure_sync_result result) w.
Proof.
  intros H. unfold pipeline_call. split.
  - unfold bind at 1. rewrite sync_op_ensured by done.
    unfold bind at 1. rewrite wrap_all_nested by done.
    unfold nested. by rewrite fold_left_app.
  - unfold bind at 1. by rewrite sync_op_ensured.
Qed.

Theorem async_pipeline_call_nests {W A} (p : AsyncResiliencePipeline W) policy
    (op : operation W A) w :
  async_op op ->
  async_pipeline_call (p ++ [policy]) op w = async_policy_call policy (async_nested p op) w.
Proof.
  intros H. unfold async_pipeline_call.
  unfold bind at 1. rewrite async_op_ensured by done.
  unfold bind. rewrite async_wrap_all_nested by done.
  unfold async_nested. by rewrite fold_left_app.
Qed.

(** ** What a pipeline preserves *)

(** A family of invariants indexed by what the calls around hold. *)
Definition polite {W A X} (I : X -> W -> Prop) (m : M W A) : Prop := forall x, keeps (I x) m.

(** A policy preserves [I] when its call does for every operation that does. *)
Class Preserves {W} (A : Type) `{!Awaitable W A} {X} (I : X -> W -> Prop)
    (policy : SyncPolicy W) : Prop :=
  preserves (op : operation W A) : polite I (op_run op) -> polite I (policy_call policy op).

Section Preservation.
Context {W A : Type} `{!Awaitable W A} {X : Type} (I : X -> W -> Prop).
Hypothesis close_polite : forall (x : A) c, awaitable x = Some (Some c) -> polite I c.

Lemma nested_polite p op :
  Forall (Preserves A I) p -> polite I (op_run op) -> polite I (op_run (nested p op)).
Proof.
  intros Hp. revert op. induction Hp as [|policy p Hpolicy _ IH]; intros op Hop; [done|].
  cbn. apply IH. by apply Hpolicy.
Qed.

Lemma wrap_all_cases p op w :
  (exists e, wrap_all p op w = (Raised e, w)) \/
  wrap_all p op w = (Returned (nested p op), w).
Proof.
  revert op. induction p as [|policy p IH]; intros op; [by right|].
  assert ((exists e, apply_policy policy op w = (Raised e, w)) \/
          apply_policy policy op w = (Returned (sync_function (policy_call policy op)), w))
    as [[e He]|H].
  { destruct policy; cbn; unfold Retry.wrap, Circuit.wrap, Bulkhead.wrap, validate_callable,
      ensure_sync_operation, raise_if, bind; cbn;
      destruct (op_callable op); cbn; eauto; destruct (existsb _ _); cbn; eauto. }
  - left. exists e. cbn. unfold bind. by rewrite He.
  - cbn. rewrite (bind_returned _ _ _ _ _ H). apply IH.
Qed.

Lemma wrap_all_bind_polite {B} p op (k : operation W A -> M W B) :
  polite I (k (nested p op)) -> polite I (bind (wrap_all p op) k).
Proof.
  intros Hk x w Hw. unfold bind.
  destruct (wrap_all_cases p op w) as [[e ->]| ->]; [by right|]. by apply Hk.
Qed.

Lemma pipeline_polite p op :
  Forall (Preserves A I) p -> polite I (op_run op) -> polite I (pipeline_call p op).
Proof.
  intros Hp Hop x. unfold pipeline_call.
  apply keeps_bind; [apply keeps_ensure_sync_operation|intros _].
  apply wrap_all_bind_polite. intros y.
  apply keeps_bind; [by apply nested_polite|intros result].
  apply keeps_ensure_sync_result. intros c Hc. by apply (close_polite result).
Qed.

(** A retry preserves what its callbacks do. *)
Lemma retry_preserves rt :
  (forall v, polite I (rt_backoff rt v)) ->
  (forall f e, rt_retry_if rt = Some f -> polite I (f e)) ->
  (forall f e, rt_observer rt = Some f -> polite I (f e)) ->
  (forall d, polite I (rt_sleeper rt d)) ->
  Preserves A I (SyncRetry rt).
Proof.
  intros Hb Hr Ho Hs op Hop x. apply Retry.call_keeps; try done.
  - intros v; by apply Hb.
  - intros f e Hf; by apply (Hr f).
  - intros f e Hf; by apply (Ho f).
  - intros d; by apply Hs.
  - intros y c Hc. by apply (close_polite y).
Qed.

(** ** Policies whose state [I] does not read *)

Definition insensitive {S} (l : lens W S) : Prop := forall x s w, I x w -> I x (lput l s w).

Lemma keeps_locked_frame {S B} (l : lens W S) (f : S -> B * S) x :
  insensitive l -> keeps (I x) (locked l f).
Proof. intros H. apply triple_locked. intros w Hw. right. by apply H. Qed.

Lemma keeps_match_bool (b : bool) {B} (m1 m2 : M W B) x :
  keeps (I x) m1 -> keeps (I x) m2 -> keeps (I x) (if b then m1 else m2).
Proof. by destruct b. Qed.

(** Structural search through a computation whose leaves keep [I]. *)
Ltac keeps_search :=
  repeat first
    [ progress intros
    | solve [eauto 3]
    | apply keeps_ret | apply keeps_raise | apply keeps_raise_if | apply keeps_pure_outcome
    | apply keeps_validate_callable | apply keeps_ensure_sync_operation
    | apply keeps_bind | apply keeps_try_finally | apply keeps_checked
    | apply keeps_emit | apply keeps_locked_frame
    | apply keeps_ensure_sync_result | apply keeps_match_bool
    | apply keeps_try_except
    | match goal with
      | H : Some _ = Some _ |- _ => injection H as <-
      | |- context [match ?v with _ => _ end] => destruct v
      end ].

Lemma circuit_frame_preserves cb :
  insensitive (cb_data cb) -> polite I (cb_clock cb) ->
  (forall f e, cb_observer cb = Some f -> polite I (f e)) ->
  (forall f e, cb_failure_if cb = Some f -> polite I (f e)) ->
  Preserves A I (SyncCircuitBreaker cb).
Proof.
  intros Hl Hc Ho Hf op Hop x.
  assert (forall k o c s t, keeps (I x) (Circuit.emit_event cb k o c s t)) as Hemit.
  { intros. unfold Circuit.emit_event. apply keeps_emit. intros f E. by apply (Ho f). }
  assert (forall s t, keeps (I x) (emit_transition cb s t)) as Htr.
  { intros s [t|]; cbn; auto with bluetape. }
  assert (forall a, keeps (I x) (Circuit.release cb a)) as Hrel.
  { intros. unfold Circuit.release. by apply keeps_locked_frame. }
  assert (keeps (I x) (read_clock cb)) as Hclock.
  { unfold read_clock. apply keeps_checked, Hc. }
  assert (forall e, keeps (I x) (classify cb e)) as Hcl.
  { intros e. unfold classify. destruct (cb_failure_if cb) as [f|] eqn:E; keeps_search.
    by apply (Hf f). }
  assert (forall c r, @awaitable W A _ r = Some (Some c) -> keeps (I x) c) as Haw.
  { intros c r E. by apply (close_polite r). }
  cbn. unfold Circuit.call, announce, on_error, on_success, releasing. keeps_search.
Qed.

Lemma bulkhead_frame_preserves bh :
  insensitive (bh_data bh) -> polite I (bh_monotonic bh) ->
  (forall t, polite I (bh_wait bh t)) ->
  (forall f e, bh_observer bh = Some f -> polite I (f e)) ->
  Preserves A I (SyncBulkhead bh).
Proof.
  intros Hl Hm Hw Ho op Hop x.
  assert (keeps (I x) (bh_monotonic bh)) as Hmx by apply Hm.
  assert (forall t, keeps (I x) (bh_wait bh t)) as Hwx by (intros t; apply Hw).
  assert (keeps (I x) (op_run op)) as Hopx by apply Hop.
  assert (forall k o c s, keeps (I x) (Bulkhead.emit_event bh k o c s)) as Hemit.
  { intros. apply keeps_emit. intros f E. by apply (Ho f). }
  assert (forall fuel deadline, keeps (I x) (wait_for_place bh fuel deadline)) as Hloop.
  { intros fuel deadline. induction fuel as [|fuel IH]; cbn; [apply keeps_raise|].
    unfold is_full. keeps_search. }
  assert (keeps (I x) (Bulkhead.release bh)) as Hrel by (by apply keeps_locked_frame).
  assert (keeps (I x) (acquire bh)) as Hacq.
  { unfold acquire, acquire_waiting, enter. keeps_search. }
  assert (forall c r, @awaitable W A _ r = Some (Some c) -> keeps (I x) c) as Haw.
  { intros c r E. by apply (close_polite r). }
  cbn. unfold Bulkhead.call, guarded, Bulkhead.snapshot. keeps_search.
Qed.
End Preservation.

(** ** Pipelines over a breaker and a bulkhead *)

(** The book of what the calls of other threads hold: their admissions to the
    breaker, and how many of them hold a place of the bulkhead and wait for one. *)
Record ledger (W : Type) : Type := {
  lg_admissions : W -> list Admission;
  lg_places : W -> nat * nat;
}.
Arguments lg_admissions {W}.
Arguments lg_places {W}.

(** The slots of the breaker in use are those of the admissions [mine] and of the
    book, and no others; likewise the places and waiters of the bulkhead. *)
Definition breaker_accounts {W} (cb : CircuitBreaker W) (others : ledger W) (mine : list Admission)
    (w : W) : Prop :=
  Circuit.accounts_beside (lg_admissions others w) mine (lget (cb_data cb) w).

Definition bulkhead_accounts {W} (bh : Bulkhead W) (others : ledger W) (held : nat * nat) (w : W) : Prop :=
  Bulkhead.beside Bulkhead.accounts (lg_places others w) held.1 held.2 (lget (bh_data bh) w).

(** Writing one object leaves the other as it was, and the book too. *)
Record separate {W} (cb : CircuitBreaker W) (bh : Bulkhead W) (others : ledger W) : Prop := {
  sp_places s w : lget (bh_data bh) (lput (cb_data cb) s w) = lget (bh_data bh) w;
  sp_slots t w : lget (cb_data cb) (lput (bh_data bh) t w) = lget (cb_data cb) w;
  sp_breaker_admissions :: Framed (cb_data cb) (lg_admissions others);
  sp_breaker_places :: Framed (cb_data cb) (lg_places others);
  sp_bulkhead_admissions :: Framed (bh_data bh) (lg_admissions others);
  sp_bulkhead_places :: Framed (bh_data bh) (lg_places others);
}.

(** A computation that takes nothing of the calls around it, and in which other
    threads enter in the book what they take and give back. *)
Definition considerate {W A} (cb : CircuitBreaker W) (bh : Bulkhead W) (others : ledger W) (m : M W A) : Prop :=
  polite (breaker_accounts cb others) m /\ polite (bulkhead_accounts bh others) m.

(** The callbacks of the three policies leave the accounts alone. *)
Record considerate_policies {W} (cb : CircuitBreaker W) (bh : Bulkhead W) (rt : Retry W)
    (others : ledger W) : Prop := {
  cn_clock : considerate cb bh others (cb_clock cb);
  cn_breaker_observer f e : cb_observer cb = Some f -> considerate cb bh others (f e);
  cn_failure_if f e : cb_failure_if cb = Some f -> considerate cb bh others (f e);
  cn_monotonic : considerate cb bh others (bh_monotonic bh);
  cn_wait t : considerate cb bh others (bh_wait bh t);
  cn_bulkhead_observer f e : bh_observer bh = Some f -> considerate cb bh others (f e);
  cn_backoff v : considerate cb bh others (rt_backoff rt v);
  cn_retry_if f e : rt_retry_if rt = Some f -> considerate cb bh others (f e);
  cn_retry_observer f e : rt_observer rt = Some f -> considerate cb bh others (f e);
  cn_sleeper d : considerate cb bh others (rt_sleeper rt d);
}.

Section Integration.
Context {W A : Type} `{!Awaitable W A}.
Context (cb : CircuitBreaker W) (bh : Bulkhead W) (rt : Retry W).
Context (others : ledger W) `{!LensLaws (cb_data cb)} `{!LensLaws (bh_data bh)}.
Hypothesis apart : separate cb bh others.
Hypothesis callbacks : considerate_policies cb bh rt others.
Hypothesis close_considerate : forall (x : A) c, awaitable x = Some (Some c) -> considerate cb bh others c.

Lemma breaker_preserves_slots : Preserves A (breaker_accounts cb others) (SyncCircuitBreaker cb).
Proof.
  destruct callbacks, apart. intros op Hop. cbn. unfold polite, breaker_accounts.
  apply (Circuit.call_polite cb (lg_admissions others) Circuit.accounts_beside).
  - apply cn_clock0.
  - intros f e Hf. by apply (cn_breaker_observer0 f).
  - intros f e Hf. by apply (cn_failure_if0 f).
  - apply Hop.
  - intros x c Hc. by apply (close_considerate x).
Qed.

Lemma bulkhead_preserves_places : Preserves A (bulkhead_accounts bh others) (SyncBulkhead bh).
Proof.
  destruct callbacks, apart. intros op Hop [h w]. cbn. unfold bulkhead_accounts.
  apply (Bulkhead.bulkhead_call_polite bh (lg_places others) (Bulkhead.beside Bulkhead.accounts)).
  - intros h' w'. apply (proj2 cn_monotonic0 (h', w')).
  - intros t h' w'. apply (proj2 (cn_wait0 t) (h', w')).
  - intros f e Hf h' w'. apply (proj2 (cn_bulkhead_observer0 f e Hf) (h', w')).
  - intros h' w'. apply (Hop (h', w')).
  - intros x c Hc h' w'. apply (proj2 (close_considerate x c Hc) (h', w')).
Qed.

Lemma bulkhead_preserves_slots : Preserves A (breaker_accounts cb others) (SyncBulkhead bh).
Proof.
  destruct callbacks, apart. apply bulkhead_frame_preserves.
  - intros x c Hc. by apply (close_considerate x).
  - intros x s w. unfold breaker_accounts. rewrite sp_slots0, framed. done.
  - apply cn_monotonic0.
  - intros t. apply cn_wait0.
  - intros f e Hf. by apply (cn_bulkhead_observer0 f).
Qed.

Lemma breaker_preserves_places : Preserves A (bulkhead_accounts bh others) (SyncCircuitBreaker cb).
Proof.
  destruct callbacks, apart. apply circuit_frame_preserves.
  - intros x c Hc. by apply (close_considerate x).
  - intros x s w. unfold bulkhead_accounts. rewrite sp_places0, framed. done.
  - apply cn_clock0.
  - intros f e Hf. by apply (cn_breaker_observer0 f).
  - intros f e Hf. by apply (cn_failure_if0 f).
Qed.

Lemma retry_preserves_both :
  Preserves A (breaker_accounts cb others) (SyncRetry rt) /\ Preserves A (bulkhead_accounts bh others) (SyncRetry rt).
Proof.
  destruct callbacks. split; apply retry_preserves; intros;
    first [by apply cn_backoff0 | by eapply cn_retry_if0 | by eapply cn_retry_observer0
          | by apply cn_sleeper0 | by eapply close_considerate].
Qed.

Lemma pipeline_considerate (p : ResiliencePipeline W) (op : operation W A) :
  Forall (fun policy => policy = SyncRetry rt \/ policy = SyncCircuitBreaker cb
                        \/ policy = SyncBulkhead bh) p ->
  considerate cb bh others (op_run op) -> considerate cb bh others (pipeline_call p op).
Proof.
  intros Hp [Hc Hb]. destruct retry_preserves_both as [Hr1 Hr2].
  split; apply pipeline_polite; try done.
  - intros x c H. by apply (close_considerate x).
  - eapply Forall_impl; [exact Hp|]. cbn. intros policy [->|[->| ->]];
      auto using breaker_preserves_slots, bulkhead_preserves_slots.
  - intros x c H. by apply (close_considerate x).
  - eapply Forall_impl; [exact Hp|]. cbn. intros policy [->|[->| ->]];
      auto using breaker_preserves_places, bulkhead_preserves_places.
Qed.

(** [C13] A pipeline built in any order, and with any repetition, from a retry, a
    breaker and a bulkhead gives back every half-open slot and every bulkhead
    place it took, on every path of the call: each retry attempt, rejection,
    failure and exception of a callback included.  Other threads may call the same
    breaker and bulkhead at any time; [others] keeps the book of what they take
    and give back.  When the pipeline ends, the slots, places and waiters in use
    are exactly those of the book and of the calls around it, as they were when it
    started: one that was kept would be one too many. *)
Theorem pipeline_leaks_nothing (p : ResiliencePipeline W) (op : operation W A) :
  Forall (fun policy => policy = SyncRetry rt \/ policy = SyncCircuitBreaker cb
                        \/ policy = SyncBulkhead bh) p ->
  considerate cb bh others (op_run op) ->
  forall mine h n w r w',
    let slots w := half_open_in_flight (lget (cb_data cb) w)
                   = count (holds_slot (lget (cb_data cb) w)) (mine ++ lg_admissions others w) in
    let places w := in_flight (lget (bh_data bh) w) = Z.of_nat (h + (lg_places others w).1) /\
                    waiters (lget (bh_data bh) w) = Z.of_nat (n + (lg_places others w).2) in
    breaker_accounts cb others mine w -> bulkhead_accounts bh others (h, n) w ->
    pipeline_call p op w = (r, w') ->
    (slots w /\ places w) /\
    (r = Raised FuelExhausted \/
     (slots w' /\ places w') /\ breaker_accounts cb others mine w' /\ bulkhead_accounts bh others (h, n) w').
Proof.
  intros Hp Hop mine h n w r w' slots places Hc Hb E.
  assert (forall w, breaker_accounts cb others mine w -> slots w) as Hslots by (by intros w0 []).
  assert (forall w, bulkhead_accounts bh others (h, n) w -> places w) as Hplaces by (by intros w0 []).
  destruct (pipeline_considerate p op Hp Hop) as [H1 H2].
  specialize (H1 mine w Hc). specialize (H2 (h, n) w Hb). rewrite E in H1, H2. cbn in H1, H2.
  split; [auto|]. destruct H1 as [H1|H1]; [by left|]. destruct H2 as [H2|H2]; [by left|]. right. auto.
Qed.
End Integration.

(** A retry with the default predicate around a breaker does not repeat a
    call that the open breaker rejects: the operation does not run, no delay is
    slept, and the rejection reaches the caller as [CircuitOpenError] after the
    breaker's event and the retry's. *)
Theorem open_breaker_not_retried {W A} `{!Awaitable W A} (cb : CircuitBreaker W) (rt : Retry W)
    (op : operation W A) w w1 w2 d now v :
  sync_op op -> lget (cb_data cb) w = d -> lput (cb_data cb) d w = w ->
  cb_clock cb w = (Returned v, w) -> finite_non_negative v "clock result" = Returned now ->
  state d = OPEN -> flt now (open_until d) = true ->
  rt_retry_if rt = None -> 1 <= rt_max_attempts rt ->
  emit (cb_observer cb) (make_event (cb_name cb) REJECTED (Some REJECTION)
    Category.CIRCUIT_OPEN (Circuit.snapshot d (cb_name cb)) None) w = (Returned tt, w1) ->
  emit (rt_observer rt) (retry_event (rt_name rt) FAILED (Some FAILURE)
    Category.CIRCUIT_OPEN 1 None) w1 = (Returned tt, w2) ->
  pipeline_call [SyncCircuitBreaker cb; SyncRetry rt] op w
  = (Raised (CircuitOpenError (cb_name cb) OPEN), w2).
Proof.
  intros Hop Hd Hput Hclock Hnow Hopen Htime Hif Hmax Hev1 Hev2.
  assert (Circuit.call cb op w = (Raised (CircuitOpenError (cb_name cb) OPEN), w1)) as Hcall.
  { unfold Circuit.call, validate_callable. rewrite (proj1 Hop).
    unfold bind at 1. cbn [raise_if negb ret].
    unfold bind at 1. rewrite sync_op_ensured by done.
    unfold bind at 1, read_clock, checked, bind at 1. rewrite Hclock. unfold pure_outcome.
    rewrite Hnow. unfold bind at 1, locked. rewrite Hd. unfold admit_call.
    rewrite decide_True, Htime by done. rewrite Hput.
    unfold bind at 1, announce, try_except, emit_transition, bind at 1. cbn [ret].
    unfold bind at 1, Circuit.emit_event. rewrite Hev1. unfold raise, Circuit.snapshot. cbn. by rewrite Hopen. }
  rewrite (proj1 (pipeline_call_nests [SyncCircuitBreaker cb] (SyncRetry rt) op w Hop)).
  unfold bind at 1. cbn [policy_call nested fold_left].
  unfold Retry.call, validate_callable, ensure_sync_operation.
  unfold bind at 1. cbn [sync_function op_callable op_targets raise_if negb ret existsb].
  unfold bind at 1. cbn -[retry_loop].
  destruct (Z.to_nat (rt_max_attempts rt)) as [|fuel] eqn:E; [lia|].
  cbn [retry_loop]. unfold bind at 1, try_except, bind at 1. cbn [op_run sync_function].
  rewrite Hcall. cbn [is_Exception]. unfold bind at 1, on_failure, is_retryable.
  rewrite Hif. unfold bind at 1. cbn [ret negb]. unfold bind at 1, emit_retry. cbn [failure_category].
  by rewrite Hev2.
Qed.

(** ** Witnesses *)

Section Witnesses.
(** A world with a breaker and a bulkhead. *)
Definition pw_world : Type := CircuitData * BulkheadData.

Definition pw_breaker : CircuitBreaker pw_world := {|
  cb_name := py "db";
  cb_data := Lens _ _ fst (fun d w => (d, snd w));
  cb_failure_if := None;
  cb_observer := None;
  cb_clock := ret (PyInt 5);
|}.

Definition pw_bulkhead : Bulkhead pw_world := {|
  bh_name := py "pool";
  bh_max_wait := f0;
  bh_data := Lens _ _ snd (fun d w => (fst w, d));
  bh_observer := None;
  bh_monotonic := ret f0;
  bh_wait := fun _ => ret tt;
  bh_fuel := 3;
|}.

Definition pw_retry : Retry pw_world := {|
  rt_name := py "again";
  rt_max_attempts := 3;
  rt_backoff := fun _ => ret (PyInt 0);
  rt_retry_if := None;
  rt_observer := None;
  rt_sleeper := fun _ => ret tt;
|}.

#[export] Instance pw_breaker_laws : LensLaws (cb_data pw_breaker).
Proof. constructor; [by intros ? []|by intros []|by intros ? ? []]. Qed.
#[export] Instance pw_bulkhead_laws : LensLaws (bh_data pw_bulkhead).
Proof. constructor; [by intros ? []|by intros []|by intros ? ? []]. Qed.
#[export] Instance pw_awaitable : Awaitable pw_world bool := fun _ => None.

Abbreviation pw_failing := (sync_function (pure_outcome (Raised (A := bool) KeyError))).

(** A breaker that opened until second 10. *)
Definition pw_open : CircuitData :=
  snd (transition (circuit_data 1 f1 1 1) OPEN
    (match float_of_int 9 with Some f => f | None => f0 end)).

Lemma pipeline_call_nests_witness :
  pipeline_call ([SyncBulkhead pw_bulkhead] ++ [SyncRetry pw_retry]) pw_failing
    (pw_open, {| max_concurrency := 1; in_flight := 0; waiters := 0 |})
  = (result <- policy_call (SyncRetry pw_retry) (nested [SyncBulkhead pw_bulkhead] pw_failing) ;;
     ensure_sync_result result) (pw_open, {| max_concurrency := 1; in_flight := 0; waiters := 0 |}).
Proof.
  refine (proj1 (pipeline_call_nests [SyncBulkhead pw_bulkhead] (SyncRetry pw_retry) pw_failing _ _)).
  by split.
Defined.

(** No other thread holds anything of the policies. *)
Definition pw_alone : ledger pw_world := {| lg_admissions := fun _ => []; lg_places := fun _ => (0%nat, 0%nat) |}.

Lemma pw_pure_considerate {A} (r : outcome A) :
  considerate pw_breaker pw_bulkhead pw_alone (pure_outcome r).
Proof. split; intros x; apply keeps_pure_outcome. Qed.

(** A half-open breaker and an empty bulkhead; three attempts fail. *)
Definition pw_start : pw_world :=
  (snd (transition (circuit_data 1 f1 1 1) HALF_OPEN f0),
   {| max_concurrency := 1; in_flight := 0; waiters := 0 |}).

Lemma pipeline_leaks_nothing_witness :
  exists r w', pipeline_call [SyncBulkhead pw_bulkhead; SyncCircuitBreaker pw_breaker; SyncRetry pw_retry]
      pw_failing pw_start = (r, w') /\
    half_open_in_flight (fst w') = 0 /\ in_flight (snd w') = 0 /\ waiters (snd w') = 0.
Proof.
  eexists _, _. split; [vm_compute; reflexivity|].
  edestruct (pipeline_leaks_nothing pw_breaker pw_bulkhead pw_retry pw_alone) with
    (p := [SyncBulkhead pw_bulkhead; SyncCircuitBreaker pw_breaker; SyncRetry pw_retry])
    (op := sync_function (pure_outcome (W := pw_world) (Raised (A := bool) KeyError))) (mine := @nil Admission) (h := 0%nat) (n := 0%nat) (w := pw_start)
    as [_ [H|(H & _)]].
  - by split.
  - constructor; intros; try done; first
      [ apply (pw_pure_considerate (Returned (PyInt 5)))
      | apply (pw_pure_considerate (Returned f0))
      | apply (pw_pure_considerate (Returned tt))
      | apply (pw_pure_considerate (Returned (PyInt 0))) ].
  - done.
  - apply Forall_cons; split; [auto|]. apply Forall_cons; split; [auto|]. by repeat constructor.
  - apply pw_pure_considerate.
  - apply transition_accounts, circuit_data_accounts; lia.
  - constructor; cbn; lia.
  - vm_compute. reflexivity.
  - discriminate H.
  - destruct H as (H1 & H2 & H3). split; [exact H1|split; [exact H2|exact H3]].
Defined.

Lemma open_breaker_not_retried_witness :
  let w := (pw_open, {| max_concurrency := 1; in_flight := 0; waiters := 0 |}) in
  pipeline_call [SyncCircuitBreaker pw_breaker; SyncRetry pw_retry] pw_failing w
  = (Raised (CircuitOpenError (py "db") OPEN), w).
Proof.
  intros w. eapply (open_breaker_not_retried pw_breaker pw_retry pw_failing w w w);
    [by split|reflexivity|reflexivity|reflexivity|reflexivity|reflexivity|vm_compute; reflexivity
    |reflexivity|cbn; lia|reflexivity|reflexivity].
Defined.
End Witnesses.
