(* ===== verification/CacheCore.v ===== *)
(** * The state of a local cache ([bluetape/cache/_core.py])

    [_CacheState]: entries in recency order, the heap of expiry records, the
    version of each key, and the activity counters.  An [OrderedDict] is its
    list of items in order; a heap of [heapq] is the sorted list of its items,
    since the source only reads its minimum, pops it, pushes and counts. *)

From Stdlib Require Import SpecFloat.
From stdpp Require Import sorting.
From S2P Require Import Prelude Python.
Open Scope py_scope.
Open Scope Z_scope.

(** ** Validators *)

Definition nanoseconds_per_second : Z := 1000000000.

(** [value.as_integer_ratio()] in lowest terms, then
    [(numerator * 1_000_000_000) // denominator]; the quotient does not depend
    on the common factor, so the ratio is taken with a power of two below. *)
Definition float_ns (f : float) : Z :=
  match f with
  | S754_finite s m e =>
      let n := (if s then Z.neg m else Z.pos m) in
      if 0 <=? e then n * 2 ^ e * nanoseconds_per_second
      else (n * nanoseconds_per_second) / 2 ^ (- e)
  | _ => 0
  end.

(** The comparison [value <= 0] of an [int] or a [float]. *)
Definition number_le_zero (v : pyval) : bool :=
  match v with
  | PyInt z => z <=? 0
  | PyFloat f => fle f f0
  | _ => false
  end.

Definition ttl_ns (value : pyval) (parameter : string) : outcome Z :=
  match value with
  | PyInt _ | PyFloat _ =>
      if number_le_zero value
         || match value with PyFloat f => negb (is_finite f) | _ => false end
      then Raised (ValueError (parameter +:+ " must be a finite positive number"))
      else
        let nanoseconds :=
          match value with
          | PyInt z => z * nanoseconds_per_second
          | PyFloat f => float_ns f
          | _ => 0
          end in
        if nanoseconds <? 1
        then Raised (ValueError (parameter +:+ " must be at least one nanosecond"))
        else Returned nanoseconds
  | _ => Raised (TypeError (parameter +:+ " must be a finite positive number"))
  end.

Definition cache_positive_int (value : pyval) (parameter : string) : outcome Z :=
  match value with
  | PyInt z =>
      if z <? 1 then Raised (ValueError (parameter +:+ " must be greater than 0"))
      else Returned z
  | _ => Raised (TypeError (parameter +:+ " must be an integer"))
  end.

(** The counters of [_CacheState]. *)
Record Counters : Type := {
  hits : Z;
  misses : Z;
  loads : Z;
  load_failures : Z;
  load_rejections : Z;
  coalesced_waiters : Z;
  evictions : Z;
  expirations : Z;
  invalidations : Z;
  abandoned_loads : Z;
  superseded_loads : Z;
}.

Record CacheStats : Type := {
  st_counters : Counters;
  st_inflight_loads : Z;
}.

Definition no_counts : Counters := Build_Counters 0 0 0 0 0 0 0 0 0 0 0.

Definition count_hit (c : Counters) : Counters :=
  Build_Counters (hits c + 1) (misses c) (loads c) (load_failures c) (load_rejections c)
    (coalesced_waiters c) (evictions c) (expirations c) (invalidations c) (abandoned_loads c)
    (superseded_loads c).
Definition count_miss (c : Counters) : Counters :=
  Build_Counters (hits c) (misses c + 1) (loads c) (load_failures c) (load_rejections c)
    (coalesced_waiters c) (evictions c) (expirations c) (invalidations c) (abandoned_loads c)
    (superseded_loads c).
Definition count_load (c : Counters) : Counters :=
  Build_Counters (hits c) (misses c) (loads c + 1) (load_failures c) (load_rejections c)
    (coalesced_waiters c) (evictions c) (expirations c) (invalidations c) (abandoned_loads c)
    (superseded_loads c).
Definition count_load_failure (c : Counters) : Counters :=
  Build_Counters (hits c) (misses c) (loads c) (load_failures c + 1) (load_rejections c)
    (coalesced_waiters c) (evictions c) (expirations c) (invalidations c) (abandoned_loads c)
    (superseded_loads c).
Definition count_load_rejection (c : Counters) : Counters :=
  Build_Counters (hits c) (misses c) (loads c) (load_failures c) (load_rejections c + 1)
    (coalesced_waiters c) (evictions c) (expirations c) (invalidations c) (abandoned_loads c)
    (superseded_loads c).
Definition count_coalesced (c : Counters) : Counters :=
  Build_Counters (hits c) (misses c) (loads c) (load_failures c) (load_rejections c)
    (coalesced_waiters c + 1) (evictions c) (expirations c) (invalidations c) (abandoned_loads c)
    (superseded_loads c).
Definition count_eviction (c : Counters) : Counters :=
  Build_Counters (hits c) (misses c) (loads c) (load_failures c) (load_rejections c)
    (coalesced_waiters c) (evictions c + 1) (expirations c) (invalidations c) (abandoned_loads c)
    (superseded_loads c).
Definition count_expiration (c : Counters) : Counters :=
  Build_Counters (hits c) (misses c) (loads c) (load_failures c) (load_rejections c)
    (coalesced_waiters c) (evictions c) (expirations c + 1) (invalidations c) (abandoned_loads c)
    (superseded_loads c).
Definition count_invalidation (c : Counters) : Counters :=
  Build_Counters (hits c) (misses c) (loads c) (load_failures c) (load_rejections c)
    (coalesced_waiters c) (evictions c) (expirations c) (invalidations c + 1) (abandoned_loads c)
    (superseded_loads c).

Section State.
Context {K V : Type} `{Countable K}.

Record Entry : Type := {
  value : V;
  expires_at : Z;
  version : Z;
}.

(** The tuples of the heap. *)
Record heap_record : Type := {
  h_expires_at : Z;
  h_sequence : Z;
  h_key : K;
  h_version : Z;
}.

Record CacheState : Type := {
  max_size : Z;
  entries : list (K * Entry);
  expiry_heap : list heap_record;
  key_versions : gmap K Z;
  clear_epoch : Z;
  last_tick : Z;
  sequence : Z;
  counters : Counters;
}.

Definition cache_state (max_size : Z) : CacheState := {|
  max_size := max_size;
  entries := [];
  expiry_heap := [];
  key_versions := ∅;
  clear_epoch := 0;
  last_tick := 0;
  sequence := 0;
  counters := no_counts;
|}.

(** Assignments to the attributes. *)
Definition set_entries (st : CacheState) x : CacheState :=
  Build_CacheState (max_size st) x (expiry_heap st) (key_versions st) (clear_epoch st)
    (last_tick st) (sequence st) (counters st).
Definition set_heap (st : CacheState) x : CacheState :=
  Build_CacheState (max_size st) (entries st) x (key_versions st) (clear_epoch st)
    (last_tick st) (sequence st) (counters st).
Definition set_key_versions (st : CacheState) x : CacheState :=
  Build_CacheState (max_size st) (entries st) (expiry_heap st) x (clear_epoch st)
    (last_tick st) (sequence st) (counters st).
Definition set_clear_epoch (st : CacheState) x : CacheState :=
  Build_CacheState (max_size st) (entries st) (expiry_heap st) (key_versions st) x
    (last_tick st) (sequence st) (counters st).
Definition set_last_tick (st : CacheState) x : CacheState :=
  Build_CacheState (max_size st) (entries st) (expiry_heap st) (key_versions st) (clear_epoch st)
    x (sequence st) (counters st).
Definition set_sequence (st : CacheState) x : CacheState :=
  Build_CacheState (max_size st) (entries st) (expiry_heap st) (key_versions st) (clear_epoch st)
    (last_tick st) x (counters st).
Definition set_counters (st : CacheState) x : CacheState :=
  Build_CacheState (max_size st) (entries st) (expiry_heap st) (key_versions st) (clear_epoch st)
    (last_tick st) (sequence st) x.

(** ** The ordered dictionary *)

Fixpoint od_get (key : K) (l : list (K * Entry)) : option Entry :=
  match l with
  | [] => None
  | (k, e) :: l' => if decide (k = key) then Some e else od_get key l'
  end.

(** [del entries[key]] and [entries.pop(key, None)]. *)
Fixpoint od_delete (key : K) (l : list (K * Entry)) : list (K * Entry) :=
  match l with
  | [] => []
  | (k, e) :: l' => if decide (k = key) then l' else (k, e) :: od_delete key l'
  end.

(** [entries[key] = e]: in place, or at the end. *)
Fixpoint od_set (key : K) (e : Entry) (l : list (K * Entry)) : list (K * Entry) :=
  match l with
  | [] => [(key, e)]
  | (k, e') :: l' => if decide (k = key) then (k, e) :: l' else (k, e') :: od_set key e l'
  end.

(** [entries.move_to_end(key)], of a key that is present. *)
Definition od_move_to_end (key : K) (l : list (K * Entry)) : list (K * Entry) :=
  match od_get key l with
  | Some e => od_delete key l ++ [(key, e)]
  | None => l
  end.

(** ** The heap *)

Definition record_le (a b : heap_record) : Prop :=
  h_expires_at a < h_expires_at b
  \/ h_expires_at a = h_expires_at b /\ h_sequence a <= h_sequence b.

#[export] Instance record_le_dec : RelDecision record_le.
Proof. unfold RelDecision, record_le. intros a b. apply _. Defined.

Fixpoint heap_push (r : heap_record) (heap : list heap_record) : list heap_record :=
  match heap with
  | [] => [r]
  | r' :: heap' => if decide (record_le r r') then r :: heap else r' :: heap_push r heap'
  end.

Definition heapify (l : list heap_record) : list heap_record := foldr heap_push [] l.

(** ** Operations *)

Definition clamp_tick (st : CacheState) (tick : Z) : Z * CacheState :=
  let now := Z.max (last_tick st) tick in (now, set_last_tick st now).

Definition get_version (st : CacheState) (key : K) : Z := default 0 (key_versions st !! key).

Definition bump_version (st : CacheState) (key : K) : Z * CacheState :=
  let v := get_version st key + 1 in
  (v, set_key_versions st (<[key := v]> (key_versions st))).

Definition drop_unused_version (st : CacheState) (key : K) (owned_keys : gset K) : CacheState :=
  if decide (od_get key (entries st) = None /\ key ∉ owned_keys)
  then set_key_versions st (delete key (key_versions st))
  else st.

(** The body of the loop of [purge_expired] for a popped record. *)
Definition expire (st : CacheState) (r : heap_record) (owned_keys : gset K) : CacheState :=
  match od_get (h_key r) (entries st) with
  | None => st
  | Some e =>
      if version e =? h_version r then
        drop_unused_version
          (set_counters (set_entries st (od_delete (h_key r) (entries st)))
             (count_expiration (counters st)))
          (h_key r) owned_keys
      else st
  end.

(** The loop of [purge_expired] on the heap that is left. *)
Fixpoint purge_loop (heap : list heap_record) (st : CacheState) (now : Z) (owned_keys : gset K)
    : CacheState :=
  match heap with
  | [] => set_heap st []
  | r :: heap' =>
      if h_expires_at r <=? now
      then purge_loop heap' (expire st r owned_keys) now owned_keys
      else set_heap st heap
  end.

Definition purge_expired (st : CacheState) (now : Z) (owned_keys : gset K) : CacheState :=
  purge_loop (expiry_heap st) st now owned_keys.

Definition get (st : CacheState) (key : K) (now : Z) (owned_keys : gset K)
    : outcome V * CacheState :=
  let st := purge_expired st now owned_keys in
  match od_get key (entries st) with
  | None => (Raised KeyError, set_counters st (count_miss (counters st)))
  | Some e =>
      (Returned (value e),
       set_counters (set_entries st (od_move_to_end key (entries st))) (count_hit (counters st)))
  end.

(** The eviction loop of [store]; the fuel is the number of entries. *)
Fixpoint evict (fuel : nat) (st : CacheState) (owned_keys : gset K) : CacheState :=
  match fuel, entries st with
  | S fuel', (evicted_key, _) :: rest =>
      if max_size st <? Z.of_nat (length (entries st)) then
        evict fuel'
          (drop_unused_version
             (set_counters (set_entries st rest) (count_eviction (counters st)))
             evicted_key owned_keys)
          owned_keys
      else st
  | _, _ => st
  end.

(** The records of [rebuild_expiry_heap], numbered on from [seq]. *)
Fixpoint rebuilt (l : list (K * Entry)) (seq : Z) : list heap_record :=
  match l with
  | [] => []
  | (key, e) :: l' =>
      {| h_expires_at := expires_at e; h_sequence := seq + 1; h_key := key; h_version := version e |}
      :: rebuilt l' (seq + 1)
  end.

Definition rebuild_expiry_heap (st : CacheState) : CacheState :=
  set_heap (set_sequence st (sequence st + Z.of_nat (length (entries st))))
    (heapify (rebuilt (entries st) (sequence st))).

Definition store (st : CacheState) (key : K) (v : V) (ttl_ns now : Z) (owned_keys : gset K)
    : CacheState :=
  let st := purge_expired st now owned_keys in
  let '(ver, st) := bump_version st key in
  let e := {| value := v; expires_at := now + ttl_ns; version := ver |} in
  let st := set_entries st (od_move_to_end key (od_set key e (entries st))) in
  let st := set_sequence st (sequence st + 1) in
  let st := set_heap st (heap_push
    {| h_expires_at := expires_at e; h_sequence := sequence st; h_key := key; h_version := ver |}
    (expiry_heap st)) in
  let st := evict (length (entries st)) st owned_keys in
  if 2 * max_size st <? Z.of_nat (length (expiry_heap st)) then rebuild_expiry_heap st else st.

(** [invalidate], given the keys that [on_supersede] leaves owned. *)
Definition invalidate (st : CacheState) (key : K) (now : Z) (owned_keys : gset K)
    : bool * CacheState :=
  let st := purge_expired st now owned_keys in
  let e := od_get key (entries st) in
  let st := set_entries st (od_delete key (entries st)) in
  let '(_, st) := bump_version st key in
  let st := match e with
            | Some _ => set_counters st (count_invalidation (counters st))
            | None => st
            end in
  (bool_decide (is_Some e), drop_unused_version st key owned_keys).

Definition clear (st : CacheState) (owned_keys : gset K) : CacheState :=
  let st := set_clear_epoch st (clear_epoch st + 1) in
  let st := set_heap (set_entries st []) [] in
  set_key_versions st (filter (fun kv => kv.1 ∈ owned_keys) (key_versions st)).

Definition size (st : CacheState) (now : Z) (owned_keys : gset K) : Z * CacheState :=
  let st := purge_expired st now owned_keys in
  (Z.of_nat (length (entries st)), st).

(** [stats]: the two last counters come from the caller. *)
Definition stats (st : CacheState) (now : Z) (owned_keys : gset K)
    (inflight abandoned superseded : Z) : CacheStats * CacheState :=
  let st := purge_expired st now owned_keys in
  let c := counters st in
  ({| st_counters :=
        Build_Counters (hits c) (misses c) (loads c) (load_failures c) (load_rejections c)
          (coalesced_waiters c) (evictions c) (expirations c) (invalidations c)
          abandoned superseded;
      st_inflight_loads := inflight |}, st).
End State.
Arguments Entry : clear implicits.
Arguments heap_record : clear implicits.
Arguments CacheState K V {_ _}.

(** ** The ordered dictionary *)

Section OrderedDict.
Context {K V : Type} `{Countable K}.
Implicit Types (l : list (K * Entry V)) (e : Entry V).

Lemma od_get_elem l key e : od_get key l = Some e -> (key, e) ∈ l.
Proof.
  induction l as [|[k e'] l IH]; cbn; [done|]. destruct (decide (k = key)) as [->|].
  - intros [= ->]. left.
  - intros. right. auto.
Qed.

Lemma od_get_none l key : od_get key l = None <-> key ∉ l.*1.
Proof.
  induction l as [|[k e] l IH]; cbn; [by split; [intros _ Hk; inversion Hk|]|].
  rewrite not_elem_of_cons. destruct (decide (k = key)) as [->|Hne].
  - by split; [|intros []].
  - rewrite IH. split; [by split|by intros []].
Qed.

Lemma elem_of_keys l key e : (key, e) ∈ l -> key ∈ l.*1.
Proof. intros Hin. apply list_elem_of_fmap. by exists (key, e). Qed.

Lemma od_elem_get l key e : NoDup l.*1 -> (key, e) ∈ l -> od_get key l = Some e.
Proof.
  induction l as [|[k e'] l IH]; [intros _ []%elem_of_nil|].
  cbn. intros [Hk Hl]%NoDup_cons [[= -> ->]|Hin]%elem_of_cons; [by rewrite decide_True|].
  rewrite decide_False; [auto|]. intros ->. by apply elem_of_keys in Hin.
Qed.

Lemma od_delete_elem l key k e :
  NoDup l.*1 -> (k, e) ∈ od_delete key l <-> k <> key /\ (k, e) ∈ l.
Proof.
  induction l as [|[k' e'] l IH]; cbn; [by intros _; split; [intros Hk; inversion Hk|intros [_ Hk]]|].
  intros [Hk Hl]%NoDup_cons. rewrite elem_of_cons.
  destruct (decide (k' = key)) as [->|Hne].
  - split; [|intros [Hne [[= -> _]|Hin]]; done]. intros Hin. split; [|by right].
    intros ->. by apply elem_of_keys in Hin.
  - rewrite elem_of_cons, IH by done. split; [intros [[= -> ->]|[]]|intros [? []]]; auto.
Qed.

Lemma od_delete_sublist l key : sublist (od_delete key l) l.
Proof.
  induction l as [|[k e] l IH]; cbn; [done|].
  destruct (decide (k = key)); [by apply sublist_cons|by apply sublist_skip].
Qed.

Lemma od_delete_nodup l key : NoDup l.*1 -> NoDup (od_delete key l).*1.
Proof.
  intros Hl. eapply sublist_NoDup; [exact Hl|]. apply fmap_sublist, od_delete_sublist.
Qed.

Lemma od_delete_notin l key : NoDup l.*1 -> key ∉ (od_delete key l).*1.
Proof.
  intros Hl [[k e] [-> Hin]]%list_elem_of_fmap. by apply od_delete_elem in Hin as [? _].
Qed.

Lemma od_delete_keys l key k : NoDup l.*1 -> k ∈ (od_delete key l).*1 <-> k <> key /\ k ∈ l.*1.
Proof.
  intros Hl. rewrite !list_elem_of_fmap. split.
  - intros ([k' e] & -> & [Hne Hin]%od_delete_elem); eauto.
  - intros [Hne ([k' e] & -> & Hin)]. exists (k', e). by rewrite od_delete_elem.
Qed.

Lemma od_delete_absent l key : key ∉ l.*1 -> od_delete key l = l.
Proof.
  induction l as [|[k e] l IH]; cbn; [done|]. rewrite not_elem_of_cons.
  intros [Hne Hl]. rewrite decide_False by done. by rewrite IH.
Qed.

Lemma od_get_set l key e : od_get key (od_set key e l) = Some e.
Proof.
  induction l as [|[k e'] l IH]; cbn; [by rewrite decide_True|].
  destruct (decide (k = key)) as [->|]; cbn; [by rewrite decide_True|].
  by rewrite decide_False.
Qed.

Lemma od_delete_set l key e : od_delete key (od_set key e l) = od_delete key l.
Proof.
  induction l as [|[k e'] l IH]; cbn; [by rewrite decide_True|].
  destruct (decide (k = key)) as [->|]; cbn; [by rewrite decide_True|].
  rewrite decide_False by done. by rewrite IH.
Qed.

Lemma od_set_to_end l key e :
  od_move_to_end key (od_set key e l) = od_delete key l ++ [(key, e)].
Proof. unfold od_move_to_end. by rewrite od_get_set, od_delete_set. Qed.

Lemma od_append_nodup l key e : NoDup l.*1 -> NoDup (od_delete key l ++ [(key, e)]).*1.
Proof.
  intros Hl. rewrite fmap_app. apply NoDup_app. split; [by apply od_delete_nodup|].
  split; [|apply NoDup_singleton]. intros k Hk Hin.
  apply list_elem_of_singleton in Hin as ->. by apply od_delete_notin in Hk.
Qed.

Lemma od_move_elem l key k e : NoDup l.*1 -> (k, e) ∈ od_move_to_end key l <-> (k, e) ∈ l.
Proof.
  intros Hl. unfold od_move_to_end. destruct (od_get key l) as [e'|] eqn:E; [|done].
  apply od_get_elem in E as Hin. rewrite elem_of_app, od_delete_elem, list_elem_of_singleton by done.
  split; [intros [[_ ?]|[= -> ->]]; done|]. intros Hk.
  destruct (decide (k = key)) as [->|]; [|auto]. right.
  apply od_elem_get in Hk; [|done]. congruence.
Qed.

Lemma od_move_nodup l key : NoDup l.*1 -> NoDup (od_move_to_end key l).*1.
Proof.
  intros Hl. unfold od_move_to_end. destruct (od_get key l); [by apply od_append_nodup|done].
Qed.

Lemma od_delete_length l key e :
  od_get key l = Some e -> length l = S (length (od_delete key l)).
Proof.
  induction l as [|[k e'] l IH]; cbn; [done|].
  destruct (decide (k = key)); [done|]. intros E. cbn. by rewrite <-IH.
Qed.

Lemma od_move_length l key : length (od_move_to_end key l) = length l.
Proof.
  unfold od_move_to_end. destruct (od_get key l) as [e|] eqn:E; [|done].
  rewrite length_app. cbn. rewrite (od_delete_length l key e E). lia.
Qed.

Lemma od_delete_length_le l key : (length (od_delete key l) <= length l)%nat.
Proof. apply sublist_length, od_delete_sublist. Qed.
End OrderedDict.

(** ** The heap *)

Section Heap.
Context {K : Type}.
Implicit Types (heap : list (heap_record K)) (r : heap_record K).

Lemma record_le_total r r' : ~ record_le r r' -> record_le r' r.
Proof. unfold record_le. lia. Qed.

Lemma record_le_trans r1 r2 r3 : record_le r1 r2 -> record_le r2 r3 -> record_le r1 r3.
Proof. unfold record_le. lia. Qed.

Lemma heap_push_perm r heap : heap_push r heap ≡ₚ r :: heap.
Proof.
  induction heap as [|r' heap IH]; cbn; [done|]. destruct (decide (record_le r r')); [done|].
  rewrite IH. constructor.
Qed.

Lemma heap_push_sorted r heap :
  StronglySorted record_le heap -> StronglySorted record_le (heap_push r heap).
Proof.
  induction 1 as [|r' heap Hs IH Hr']; cbn; [by repeat constructor|].
  destruct (decide (record_le r r')) as [Hle|Hgt].
  - constructor; [by constructor|]. constructor; [done|].
    eapply Forall_impl; [exact Hr'|]. intros. by eapply record_le_trans.
  - constructor; [done|]. rewrite heap_push_perm. constructor; [by apply record_le_total|done].
Qed.

Lemma heapify_perm heap : heapify heap ≡ₚ heap.
Proof. induction heap as [|r l IH]; cbn; [done|]. by rewrite heap_push_perm, IH. Qed.

Lemma heapify_sorted heap : StronglySorted record_le (heapify heap).
Proof. induction heap; cbn; [constructor|by apply heap_push_sorted]. Qed.

(** Once the minimum has not expired, no record has. *)
Lemma sorted_head_min r heap r' now :
  StronglySorted record_le (r :: heap) -> now < h_expires_at r -> r' ∈ r :: heap ->
  now < h_expires_at r'.
Proof.
  intros [_ Hall]%StronglySorted_inv Hr [->|Hin]%elem_of_cons; [done|].
  rewrite Forall_forall in Hall. specialize (Hall r' Hin). unfold record_le in Hall. lia.
Qed.
End Heap.

(** ** The invariant *)

Section Invariant.
Context {K V : Type} `{Countable K}.
Implicit Types (st : CacheState K V) (heap : list (heap_record K)) (owned : gset K).

(** [r] is the record of the entry [e] of [key]. *)
Definition records (r : heap_record K) (key : K) (e : Entry V) : Prop :=
  h_key r = key /\ h_version r = version e /\ h_expires_at r = expires_at e.

(** The state between two steps of a loop, with the heap as given: at most
    [bound] entries under distinct keys, each with its record in the sorted
    heap and a version that is still known; the versions known are those of
    keys with an entry or an owned load. *)
Record state_ok (bound : Z) heap owned st : Prop := {
  ok_max_size : 1 <= max_size st;
  ok_distinct : NoDup (entries st).*1;
  ok_bound : Z.of_nat (length (entries st)) <= bound;
  ok_sorted : StronglySorted record_le heap;
  ok_recorded key e : (key, e) ∈ entries st -> exists r, r ∈ heap /\ records r key e;
  ok_versions key e : (key, e) ∈ entries st ->
    exists n, key_versions st !! key = Some n /\ version e <= n;
  ok_known key : is_Some (key_versions st !! key) -> key ∈ owned \/ key ∈ (entries st).*1;
}.

(** The invariant between operations. *)
Definition well_formed owned st : Prop :=
  state_ok (max_size st) (expiry_heap st) owned st
  /\ Z.of_nat (length (expiry_heap st)) <= 2 * max_size st.

(** After a purge at [now], nothing left has expired. *)
Definition unexpired (now : Z) st : Prop :=
  forall key e, (key, e) ∈ entries st -> now < expires_at e.

Lemma cache_state_ok n : 1 <= n -> well_formed ∅ (cache_state (K := K) (V := V) n).
Proof.
  intros Hn. split; [constructor; cbn|cbn; lia]; try done.
  - constructor.
  - lia.
  - constructor.
  - intros key e Hin. inversion Hin.
  - intros key e Hin. inversion Hin.
  - intros key Hs. rewrite lookup_empty in Hs. by destruct Hs.
Qed.

Lemma drop_unused_entries st key owned :
  entries (drop_unused_version st key owned) = entries st.
Proof. unfold drop_unused_version. by case_decide. Qed.

Lemma drop_unused_heap st key owned :
  expiry_heap (drop_unused_version st key owned) = expiry_heap st.
Proof. unfold drop_unused_version. by case_decide. Qed.

Lemma drop_unused_max st key owned : max_size (drop_unused_version st key owned) = max_size st.
Proof. unfold drop_unused_version. by case_decide. Qed.

(** The state once [key] lost its entry or its load, before its version is
    dropped. *)
Lemma drop_unused_ok bound heap owned owned' st key :
  state_ok bound heap owned' st -> owned' ⊆ {[key]} ∪ owned ->
  state_ok bound heap owned (drop_unused_version st key owned).
Proof.
  intros [] Hsub. unfold drop_unused_version. destruct (decide _) as [[Hnone Hno]|Hkeep].
  - constructor; cbn; try done.
    + intros k e Hin. destruct (ok_versions0 k e Hin) as (n & Hn & Hb). exists n.
      rewrite lookup_delete_ne; [done|]. intros ->.
      apply od_get_none in Hnone. by apply elem_of_keys in Hin.
    + intros k Hk. destruct (decide (key = k)) as [->|Hne];
        [rewrite lookup_delete_eq in Hk; by destruct Hk|].
      rewrite lookup_delete_ne in Hk by done.
      destruct (ok_known0 k Hk) as [Ho|]; [|by right]. left.
      apply Hsub in Ho. set_unfold in Ho. by destruct Ho as [->|].
  - constructor; try done. intros k Hk. destruct (ok_known0 k Hk) as [Ho|]; [|by right].
    apply Hsub in Ho. set_unfold in Ho. destruct Ho as [->|]; [|by left].
    destruct (decide (key ∈ owned)); [by left|]. right.
    destruct (decide (key ∈ (entries st).*1)); [done|]. exfalso. apply Hkeep.
    by rewrite od_get_none.
Qed.

(** Removing the entry of [key]. *)
Lemma remove_entry_ok bound heap heap' owned st key st' :
  state_ok bound heap owned st -> entries st' = od_delete key (entries st) ->
  max_size st' = max_size st -> key_versions st' = key_versions st ->
  StronglySorted record_le heap' ->
  (forall r k e, (k, e) ∈ entries st' -> r ∈ heap -> records r k e -> r ∈ heap') ->
  state_ok bound heap' ({[key]} ∪ owned) st'.
Proof.
  intros [] He Hm Hv Hs Hkeep. constructor; rewrite ?He, ?Hm, ?Hv; try done.
  - by apply od_delete_nodup.
  - pose proof (od_delete_length_le (entries st) key). lia.
  - intros k e Hin. assert ((k, e) ∈ entries st') as Hin' by (by rewrite He).
    apply od_delete_elem in Hin as [_ Hin]; [|done].
    destruct (ok_recorded0 k e Hin) as (r & Hr & Hrec). eauto.
  - intros k e Hin. apply od_delete_elem in Hin as [_ Hin]; [|done]. eauto.
  - intros k Hk. destruct (ok_known0 k Hk) as [Ho|Hin]; [left; by apply elem_of_union_r|].
    destruct (decide (k = key)) as [->|]; [left; by apply elem_of_union_l, elem_of_singleton|]. right. by apply od_delete_keys.
Qed.

Lemma expire_ok bound r heap owned st :
  state_ok bound (r :: heap) owned st -> state_ok bound heap owned (expire st r owned).
Proof.
  intros Hok. pose proof (ok_sorted _ _ _ _ Hok) as Hs. apply StronglySorted_inv in Hs as [Hs _].
  assert (forall st', entries st' = entries st -> key_versions st' = key_versions st ->
     max_size st' = max_size st ->
     (forall e, od_get (h_key r) (entries st) = Some e -> version e <> h_version r) ->
     state_ok bound heap owned st') as Hsame.
  { intros st' He Hv Hm Hne. destruct Hok. constructor; rewrite ?He, ?Hv, ?Hm; try done.
    intros k e Hin. destruct (ok_recorded0 k e Hin) as (r' & [->|Hr']%elem_of_cons & Hrec); [|eauto].
    exfalso. destruct Hrec as (<- & Hver & _). apply (Hne e); [|done]. by apply od_elem_get. }
  unfold expire. destruct (od_get (h_key r) (entries st)) as [e|] eqn:E.
  - destruct (Z.eqb_spec (version e) (h_version r)) as [Hv|Hv].
    + eapply drop_unused_ok; [|done].
      eapply remove_entry_ok; [exact Hok|done..|].
      intros r' k e' Hin Hr' Hrec. apply elem_of_cons in Hr' as [->|]; [|done].
      cbn in Hin. apply od_delete_elem in Hin as [Hne _]; [|apply Hok].
      by destruct Hrec as (? & _).
    + apply Hsame; try done; congruence.
  - apply Hsame; try done; congruence.
Qed.

(** What the loops leave alone. *)
Record same_frame owned st st' : Prop := {
  sf_max_size : max_size st' = max_size st;
  sf_clear_epoch : clear_epoch st' = clear_epoch st;
  sf_last_tick : last_tick st' = last_tick st;
  sf_versions key : key ∈ owned -> key_versions st' !! key = key_versions st !! key;
}.

Lemma same_frame_refl owned st : same_frame owned st st.
Proof. by constructor. Qed.

Lemma same_frame_trans owned st1 st2 st3 :
  same_frame owned st1 st2 -> same_frame owned st2 st3 -> same_frame owned st1 st3.
Proof. intros [] []. constructor; try congruence. intros k Hk. by rewrite sf_versions1, sf_versions0. Qed.

Lemma drop_unused_frame owned st key : same_frame owned st (drop_unused_version st key owned).
Proof.
  unfold drop_unused_version. destruct (decide _) as [[_ Hno]|]; [|apply same_frame_refl].
  constructor; try done. intros k Hk. cbn. apply lookup_delete_ne. by intros ->.
Qed.

Lemma expire_frame owned st r : same_frame owned st (expire st r owned).
Proof.
  unfold expire. destruct (od_get _ _); [|apply same_frame_refl].
  destruct (_ =? _); [|apply same_frame_refl].
  eapply same_frame_trans; [|apply drop_unused_frame]. by constructor.
Qed.

Lemma expire_sublist owned st r : sublist (entries (expire st r owned)) (entries st).
Proof.
  unfold expire. destruct (od_get _ _); [|done]. destruct (_ =? _); [|done].
  rewrite drop_unused_entries. apply od_delete_sublist.
Qed.

Lemma set_heap_ok bound heap owned st :
  state_ok bound heap owned st -> state_ok bound heap owned (set_heap st heap).
Proof. by intros []. Qed.

Lemma purge_loop_ok bound heap owned st now :
  state_ok bound heap owned st ->
  let st' := purge_loop heap st now owned in
  state_ok bound (expiry_heap st') owned st' /\ unexpired now st' /\
  same_frame owned st st' /\ sublist (entries st') (entries st) /\
  (length (expiry_heap st') <= length heap)%nat.
Proof.
  revert st. induction heap as [|r heap IH]; intros st Hok; cbn [purge_loop].
  - split; [by apply set_heap_ok|]. split; [|done]. intros key e Hin.
    destruct (ok_recorded _ _ _ _ Hok key e Hin) as (r & Hr & _). inversion Hr.
  - destruct (Z.leb_spec (h_expires_at r) now) as [Hle|Hgt].
    + destruct (IH _ (expire_ok _ _ _ _ _ Hok)) as (H1 & H2 & H3 & H4 & H5).
      split; [done|]. split; [done|]. split; [|split].
      * eapply same_frame_trans; [apply expire_frame|done].
      * etrans; [done|apply expire_sublist].
      * cbn. lia.
    + split; [by apply set_heap_ok|]. split; [|done]. intros key e Hin.
      destruct (ok_recorded _ _ _ _ Hok key e Hin) as (r' & Hr' & _ & _ & <-).
      eapply sorted_head_min; [apply Hok|done|done].
Qed.

(** A purge keeps the invariant and removes every entry that has expired. *)
Lemma purge_ok owned st now :
  well_formed owned st ->
  let st' := purge_expired st now owned in
  well_formed owned st' /\ unexpired now st' /\ same_frame owned st st' /\
  sublist (entries st') (entries st).
Proof.
  intros [Hok Hb]. unfold purge_expired.
  destruct (purge_loop_ok _ _ _ _ now Hok) as (H1 & H2 & H3 & H4 & H5).
  split; [|done]. split; rewrite (sf_max_size _ _ _ H3); [done|lia].
Qed.

(** Changing the counters, the clock or the sequence number. *)
Lemma counters_ok bound heap owned st c :
  state_ok bound heap owned st -> state_ok bound heap owned (set_counters st c).
Proof. by intros []. Qed.

Lemma move_to_end_ok bound heap owned st key :
  state_ok bound heap owned st ->
  state_ok bound heap owned (set_entries st (od_move_to_end key (entries st))).
Proof.
  intros []. constructor; cbn; rewrite ?od_move_length; try done.
  - by apply od_move_nodup.
  - intros k e. rewrite od_move_elem by done. auto.
  - intros k e. rewrite od_move_elem by done. auto.
  - intros k Hk. destruct (ok_known0 k Hk) as [|Hin]; [by left|right].
    apply list_elem_of_fmap in Hin as ([k' e] & -> & Hin). apply list_elem_of_fmap.
    exists (k', e). by rewrite od_move_elem.
Qed.

(** Evicting from the front. *)
Lemma evict_front_ok bound heap owned st key e rest c :
  state_ok bound heap owned st -> entries st = (key, e) :: rest ->
  state_ok (bound - 1) heap owned (drop_unused_version (set_counters (set_entries st rest) c) key owned).
Proof.
  intros Hok He. pose proof Hok as []. eapply drop_unused_ok; [|done].
  assert (rest = od_delete key (entries st)) as Hrest.
  { rewrite He. cbn. by rewrite decide_True. }
  assert (state_ok bound heap ({[key]} ∪ owned) (set_counters (set_entries st rest) c)) as [].
  { eapply remove_entry_ok; [exact Hok|done..|]. eauto. }
  constructor; try done. cbn. rewrite He in ok_bound0. cbn in ok_bound0. lia.
Qed.

Lemma evict_ok heap owned fuel st :
  state_ok (max_size st + Z.of_nat fuel) heap owned st ->
  let st' := evict fuel st owned in
  state_ok (max_size st) heap owned st' /\ same_frame owned st st' /\
  expiry_heap st' = expiry_heap st /\
  entries st' = drop (length (entries st) - Z.to_nat (max_size st)) (entries st).
Proof.
  revert st. induction fuel as [|fuel IH]; intros st Hok; cbn [evict].
  - rewrite Z.add_0_r in Hok. pose proof Hok as []. split; [done|].
    split; [apply same_frame_refl|]. split; [done|].
    by replace (length (entries st) - Z.to_nat (max_size st))%nat with 0%nat by lia.
  - destruct (entries st) as [|[key e] rest] eqn:He.
    { split; [|by split; [apply same_frame_refl|]]. destruct Hok. constructor; try done.
      rewrite He. cbn. lia. }
    destruct (Z.ltb_spec (max_size st) (Z.of_nat (length ((key, e) :: rest)))) as [Hlt|Hge].
    + set (st1 := drop_unused_version _ key owned).
      assert (max_size st1 = max_size st) as Hmax by (unfold st1; by rewrite drop_unused_max).
      assert (entries st1 = rest) as Hrest by (unfold st1; by rewrite drop_unused_entries).
      destruct (IH st1) as (H1 & H2 & H3 & H4).
      { rewrite Hmax. replace (max_size st + Z.of_nat fuel)
          with (max_size st + Z.of_nat (S fuel) - 1) by lia. by eapply evict_front_ok. }
      rewrite Hmax in *. split; [done|]. split; [|split].
      * eapply same_frame_trans; [|exact H2]. eapply same_frame_trans; [|apply drop_unused_frame].
        by constructor.
      * rewrite H3. unfold st1. by rewrite drop_unused_heap.
      * rewrite H4, Hrest. cbn in *. pose proof (ok_max_size _ _ _ _ Hok).
        by replace (S (length rest) - Z.to_nat (max_size st))%nat
          with (S (length rest - Z.to_nat (max_size st))) by lia.
    + split; [|split; [apply same_frame_refl|split; [done|]]].
      * destruct Hok. constructor; try done. rewrite He. lia.
      * by replace (length ((key, e) :: rest) - Z.to_nat (max_size st))%nat with 0%nat by lia.
Qed.

(** The records of a rebuilt heap are those of the entries. *)
Lemma rebuilt_records (l : list (K * Entry V)) seq key e :
  (key, e) ∈ l -> exists r, r ∈ rebuilt l seq /\ records r key e.
Proof.
  revert seq. induction l as [|[k e'] l IH]; intros seq Hin; [inversion Hin|].
  apply elem_of_cons in Hin as [[= <- <-]|Hin].
  - eexists. split; [by left|done].
  - destruct (IH (seq + 1) Hin) as (r & Hr & Hrec). exists r. split; [by right|done].
Qed.

Lemma rebuilt_length (l : list (K * Entry V)) seq : length (rebuilt l seq) = length l.
Proof. revert seq. induction l as [|[] l IH]; intros seq; cbn; [done|]. by rewrite IH. Qed.

Lemma rebuild_ok bound heap owned st :
  state_ok bound heap owned st ->
  let st' := rebuild_expiry_heap st in
  state_ok bound (expiry_heap st') owned st' /\
  length (expiry_heap st') = length (entries st).
Proof.
  intros []. split; [constructor; try done|]; cbn.
  - apply heapify_sorted.
  - intros key e Hin. destruct (rebuilt_records _ (sequence st) _ _ Hin) as (r & Hr & Hrec).
    exists r. split; [by rewrite heapify_perm|done].
  - rewrite (Permutation_length (heapify_perm _)). apply rebuilt_length.
Qed.

(** Adding the new entry of [store] to a purged state. *)
Lemma add_entry_ok bound owned st key v expires :
  state_ok bound (expiry_heap st) owned st ->
  let ver := get_version st key + 1 in
  let e := {| value := v; expires_at := expires; version := ver |} in
  forall st', max_size st' = max_size st ->
    entries st' = od_delete key (entries st) ++ [(key, e)] ->
    key_versions st' = <[key := ver]> (key_versions st) ->
    expiry_heap st' = heap_push
      {| h_expires_at := expires; h_sequence := sequence st + 1; h_key := key; h_version := ver |}
      (expiry_heap st) ->
    state_ok (bound + 1) (expiry_heap st') owned st'.
Proof.
  intros [] ver e st' Hm He Hv Hh. constructor; rewrite ?Hm, ?He, ?Hv, ?Hh; try done.
  - by apply od_append_nodup.
  - rewrite length_app. cbn. pose proof (od_delete_length_le (entries st) key). lia.
  - by apply heap_push_sorted.
  - intros k e' [Hin|Hin]%elem_of_app.
    + apply od_delete_elem in Hin as [_ Hin]; [|done].
      destruct (ok_recorded0 k e' Hin) as (r & Hr & Hrec). exists r.
      split; [|done]. rewrite heap_push_perm. by right.
    + apply list_elem_of_singleton in Hin as [= -> ->]. eexists. rewrite heap_push_perm.
      split; [by left|done].
  - intros k e' [Hin|Hin]%elem_of_app.
    + apply od_delete_elem in Hin as [Hne Hin]; [|done].
      rewrite lookup_insert_ne by done. eauto.
    + apply list_elem_of_singleton in Hin as [= -> ->]. rewrite lookup_insert_eq.
      exists ver. done.
  - intros k Hk. rewrite fmap_app. destruct (decide (k = key)) as [->|Hne].
    { right. apply elem_of_app. right. by left. }
    rewrite lookup_insert_ne in Hk by done. destruct (ok_known0 k Hk) as [|Hin]; [by left|].
    right. apply elem_of_app. left. by apply od_delete_keys.
Qed.

(** The versions of owned keys but [key] are kept. *)
Record same_frame_but owned key st st' : Prop := {
  sb_max_size : max_size st' = max_size st;
  sb_clear_epoch : clear_epoch st' = clear_epoch st;
  sb_versions k : k ∈ owned -> k <> key -> key_versions st' !! k = key_versions st !! k;
}.

(** The state of [store] before the eviction loop. *)
Definition stored (purged : CacheState K V) key v expires : CacheState K V :=
  let ver := get_version purged key + 1 in
  let e := {| value := v; expires_at := expires; version := ver |} in
  Build_CacheState (max_size purged) (od_delete key (entries purged) ++ [(key, e)])
    (heap_push {| h_expires_at := expires; h_sequence := sequence purged + 1; h_key := key;
                  h_version := ver |} (expiry_heap purged))
    (<[key := ver]> (key_versions purged)) (clear_epoch purged) (last_tick purged)
    (sequence purged + 1) (counters purged).

Lemma store_stored st key v ttl now owned :
  store st key v ttl now owned =
  let st1 := stored (purge_expired st now owned) key v (now + ttl) in
  let st2 := evict (length (entries st1)) st1 owned in
  if 2 * max_size st2 <? Z.of_nat (length (expiry_heap st2)) then rebuild_expiry_heap st2 else st2.
Proof.
  unfold store, bump_version. cbv zeta iota beta. unfold set_heap, set_sequence, set_entries,
    set_key_versions. cbn [max_size entries expiry_heap key_versions clear_epoch last_tick
    sequence counters expires_at]. by rewrite od_set_to_end.
Qed.

(** [store] on a state that satisfies the invariant: the state it leaves, and
    its entries in order. *)
Lemma store_ok owned st key v ttl now :
  well_formed owned st ->
  let purged := purge_expired st now owned in
  let st' := store st key v ttl now owned in
  let e := {| value := v; expires_at := now + ttl; version := get_version purged key + 1 |} in
  let l := od_delete key (entries purged) ++ [(key, e)] in
  well_formed owned st' /\ same_frame_but owned key st st' /\
  entries st' = drop (length l - Z.to_nat (max_size st)) l.
Proof.
  intros Hwf purged st' e l.
  destruct (purge_ok owned st now Hwf) as ([Hok Hb] & _ & [Hm He _ Hv] & _). fold purged in Hok, Hb, Hm, He, Hv.
  subst st'. rewrite store_stored. fold purged.
  set (st1 := stored purged key v (now + ttl)). cbv zeta.
  assert (state_ok (max_size st1 + 1) (expiry_heap st1) owned st1) as Hok1.
  { by eapply (add_entry_ok (max_size purged) owned purged key v (now + ttl)). }
  assert (max_size st1 = max_size st) as Hm1 by done.
  assert (length (expiry_heap st1) = S (length (expiry_heap purged))) as Hlen.
  { cbn. by rewrite (Permutation_length (heap_push_perm _ _)). }
  assert (entries st1 = l) as Hl by done.
  set (st2 := evict (length (entries st1)) st1 owned).
  destruct (evict_ok (expiry_heap st1) owned (length (entries st1)) st1) as (H1 & H2 & H3 & H4).
  { destruct Hok1. constructor; try done. rewrite Hl. pose proof ok_max_size0. lia. }
  fold st2 in H1, H2, H3, H4. destruct H2 as [Hm2 He2 _ Hv2].
  assert (same_frame_but owned key st st2) as Hf2.
  { constructor; [by rewrite Hm2|etrans; [exact He2|exact He]|]. intros k Hk Hne. rewrite Hv2, <-Hv by done.
    cbn. by rewrite lookup_insert_ne. }
  rewrite Hl, Hm1 in H4. rewrite Hm1 in Hm2.
  assert (state_ok (max_size st) (expiry_heap st2) owned st2) as Hok2.
  { rewrite H3, <-Hm1. exact H1. }
  destruct (Z.ltb_spec (2 * max_size st2) (Z.of_nat (length (expiry_heap st2)))) as [Hbig|Hsmall].
  - destruct (rebuild_ok _ _ _ _ Hok2) as [Hr1 Hr2]. split; [split|split].
    + change (max_size (rebuild_expiry_heap st2)) with (max_size st2). by rewrite Hm2.
    + change (max_size (rebuild_expiry_heap st2)) with (max_size st2). rewrite Hr2, Hm2.
      destruct Hok2. lia.
    + destruct Hf2. by constructor.
    + exact H4.
  - split; [split; [by rewrite Hm2|done]|by split].
Qed.

Lemma get_ok owned st key now :
  well_formed owned st ->
  let st' := snd (get st key now owned) in
  well_formed owned st' /\ same_frame owned st st'.
Proof.
  intros Hwf. destruct (purge_ok owned st now Hwf) as ([Hok Hb] & _ & Hf & _).
  unfold get. cbv zeta. set (p := purge_expired st now owned) in *.
  destruct (od_get key (entries p)); cbn [snd].
  - split; [split; [by apply counters_ok, move_to_end_ok|done]|]. destruct Hf. by constructor.
  - split; [split; [by apply counters_ok|done]|]. destruct Hf. by constructor.
Qed.

Lemma invalidate_ok owned st key now :
  well_formed owned st ->
  let st' := snd (invalidate st key now owned) in
  well_formed owned st' /\ same_frame_but owned key st st' /\ key ∉ (entries st').*1.
Proof.
  intros Hwf. destruct (purge_ok owned st now Hwf) as ([Hok Hb] & _ & Hf & _).
  unfold invalidate, bump_version. cbv zeta. set (p := purge_expired st now owned) in *.
  set (st1 := match od_get key (entries p) with Some _ => _ | None => _ end).
  assert (entries st1 = od_delete key (entries p) /\ expiry_heap st1 = expiry_heap p
    /\ max_size st1 = max_size p /\ clear_epoch st1 = clear_epoch p /\
    key_versions st1 = <[key := get_version p key + 1]> (key_versions p)) as (E1 & E2 & E3 & E4 & E5).
  { unfold st1. by destruct (od_get key (entries p)). }
  clearbody st1. destruct Hok.
  assert (state_ok (max_size p) (expiry_heap p) ({[key]} ∪ owned) st1) as Hok1.
  { constructor; rewrite ?E1, ?E3, ?E5; try done.
    - by apply od_delete_nodup.
    - pose proof (od_delete_length_le (entries p) key). lia.
    - intros k e [_ Hin]%od_delete_elem; auto.
    - intros k e [Hne Hin]%od_delete_elem; [|done]. rewrite lookup_insert_ne; auto.
    - intros k Hk. destruct (decide (k = key)) as [->|]; [left; by apply elem_of_union_l, elem_of_singleton|].
      rewrite lookup_insert_ne in Hk by done. destruct (ok_known0 k Hk); [left; by apply elem_of_union_r|].
      right. by apply od_delete_keys. }
  pose proof (drop_unused_ok _ _ owned _ _ key Hok1 (reflexivity _)) as Hok2. cbn [snd].
  rewrite <-E3, <-E2 in Hok2. rewrite <-E2, <-E3 in Hb.
  split; [split|split].
  - by rewrite drop_unused_max, drop_unused_heap.
  - by rewrite drop_unused_max, drop_unused_heap.
  - destruct (drop_unused_frame owned st1 key) as [F1 F2 _ F3], Hf as [G1 G2 _ G3].
    constructor; [congruence|congruence|]. intros k Hk Hne. rewrite F3, E5 by done.
    rewrite lookup_insert_ne by done. by apply G3.
  - rewrite drop_unused_entries, E1. by apply od_delete_notin.
Qed.

Lemma clear_ok owned st :
  well_formed owned st ->
  let st' := clear st owned in
  well_formed owned st' /\ entries st' = [] /\ clear_epoch st' = clear_epoch st + 1.
Proof.
  intros [[] Hb]. split; [split; [constructor|]|done]; cbn; try done.
  - constructor.
  - lia.
  - constructor.
  - intros k e Hin. inversion Hin.
  - intros k e Hin. inversion Hin.
  - intros k [n Hn]. left. by apply map_lookup_filter_Some in Hn as [_ ?].
  - lia.
Qed.

(** More owned keys, and a new reading of the clock. *)
Lemma well_formed_owned owned owned' st :
  owned ⊆ owned' -> well_formed owned st -> well_formed owned' st.
Proof.
  intros Hsub [[] Hb]. split; [|done]. constructor; try done.
  intros k Hk. destruct (ok_known0 k Hk); [left; by apply Hsub|by right].
Qed.

Lemma set_last_tick_ok owned st x : well_formed owned st -> well_formed owned (set_last_tick st x).
Proof. intros [[] Hb]. by split. Qed.

Lemma set_counters_ok owned st c : well_formed owned st -> well_formed owned (set_counters st c).
Proof. intros [[] Hb]. by split. Qed.

Lemma release_key_ok owned owned' st key :
  well_formed owned' st -> owned' ⊆ {[key]} ∪ owned ->
  well_formed owned (drop_unused_version st key owned).
Proof.
  intros [Hok Hb] Hsub. split; rewrite drop_unused_max, drop_unused_heap; [|done].
  by eapply drop_unused_ok.
Qed.

(** ** Refinement of a bounded map with expiry *)

(** The abstract cache: keys, values and expiry times, least recently used
    first. *)
Definition abstract_cache : Type := list (K * (V * Z)).

Definition abstraction st : abstract_cache :=
  (fun p => (p.1, (value p.2, expires_at p.2))) <$> entries st.

Definition spec_purge (now : Z) (a : abstract_cache) : abstract_cache :=
  filter (fun p => now < p.2.2) a.

Definition spec_remove (key : K) (a : abstract_cache) : abstract_cache :=
  filter (fun p => p.1 <> key) a.

Definition spec_store (capacity : nat) (key : K) (v : V) (expires : Z) (a : abstract_cache)
    : abstract_cache :=
  let l := spec_remove key a ++ [(key, (v, expires))] in drop (length l - capacity) l.

Fixpoint spec_lookup (key : K) (a : abstract_cache) : option (V * Z) :=
  match a with
  | [] => None
  | (k, x) :: a' => if decide (k = key) then Some x else spec_lookup key a'
  end.

Definition spec_get (key : K) (a : abstract_cache) : outcome V * abstract_cache :=
  match spec_lookup key a with
  | None => (Raised KeyError, a)
  | Some x => (Returned x.1, spec_remove key a ++ [(key, x)])
  end.

(** Every record that matches an entry is that entry's own. *)
Definition coherent_heap heap st : Prop :=
  forall r key e, r ∈ heap -> (key, e) ∈ entries st -> h_key r = key -> h_version r = version e ->
    h_expires_at r = expires_at e.

Definition coherent st : Prop := coherent_heap (expiry_heap st) st.

(** No record has the version the key's next entry gets. *)
Definition next_version_fresh key st : Prop :=
  forall r, r ∈ expiry_heap st -> h_key r = key -> h_version r <> get_version st key + 1.

Lemma abstraction_delete (l : list (K * Entry V)) key :
  NoDup l.*1 ->
  (fun p : K * Entry V => (p.1, (value p.2, expires_at p.2))) <$> od_delete key l
  = spec_remove key ((fun p => (p.1, (value p.2, expires_at p.2))) <$> l).
Proof.
  unfold spec_remove, abstract_cache. induction l as [|[k e] l IH]; [done|].
  rewrite !fmap_cons, filter_cons. intros [Hk Hl]%NoDup_cons. cbn [od_delete fst]. destruct (decide (k = key)) as [->|Hne].
  - rewrite decide_False by (intros Hn; by apply Hn). rewrite <-IH by done.
    by rewrite od_delete_absent.
  - rewrite decide_True by done. rewrite fmap_cons. cbn. by rewrite IH.
Qed.

Lemma abstraction_lookup (l : list (K * Entry V)) key :
  spec_lookup key ((fun p : K * Entry V => (p.1, (value p.2, expires_at p.2))) <$> l)
  = (fun e => (value e, expires_at e)) <$> od_get key l.
Proof. induction l as [|[k e] l IH]; cbn; [done|]. by destruct (decide (k = key)). Qed.

Lemma filter_true {A} (P : A -> Prop) `{!forall x, Decision (P x)} (l : list A) :
  (forall x, x ∈ l -> P x) -> filter P l = l.
Proof.
  induction l as [|x l IH]; intros Hl; [done|]. rewrite filter_cons, decide_True by (apply Hl; left).
  f_equal. apply IH. intros y Hy. apply Hl. by right.
Qed.

Lemma spec_purge_expired_entry now (l : list (K * Entry V)) key e :
  od_get key l = Some e -> expires_at e <= now ->
  spec_purge now ((fun p : K * Entry V => (p.1, (value p.2, expires_at p.2))) <$> od_delete key l)
  = spec_purge now ((fun p : K * Entry V => (p.1, (value p.2, expires_at p.2))) <$> l).
Proof.
  intros He Hexp. unfold spec_purge, abstract_cache. induction l as [|[k e'] l IH]; [done|].
  cbn [od_get od_delete] in *. destruct (decide (k = key)) as [->|Hne].
  - injection He as ->. rewrite fmap_cons, filter_cons, decide_False; [done|]. cbn. lia.
  - rewrite !fmap_cons, !filter_cons. by rewrite IH.
Qed.

Lemma coherent_sub heap heap' st st' :
  coherent_heap heap st -> heap' ⊆ heap -> entries st' ⊆ entries st -> coherent_heap heap' st'.
Proof. intros Hc Hh He r key e Hr Hin. apply Hc; auto. Qed.

Lemma sublist_subseteq {A} (l1 l2 : list A) : sublist l1 l2 -> l1 ⊆ l2.
Proof. intros Hs x Hx. by eapply elem_of_sublist. Qed.

(** A purge of a coherent state removes exactly the expired entries. *)
Lemma purge_loop_exact bound heap owned st now :
  state_ok bound heap owned st -> coherent_heap heap st ->
  let st' := purge_loop heap st now owned in
  abstraction st' = spec_purge now (abstraction st) /\ coherent st'.
Proof.
  revert st. induction heap as [|r heap IH]; intros st Hok Hc; cbn [purge_loop].
  - assert (entries st = []) as He.
    { destruct (entries st) as [|[k e] l] eqn:E; [done|].
      destruct (ok_recorded _ _ _ _ Hok k e) as (r & Hr & _); [rewrite E; by left|inversion Hr]. }
    unfold abstraction. cbn. rewrite He. split; [done|]. intros r key e Hr. inversion Hr.
  - destruct (Z.leb_spec (h_expires_at r) now) as [Hle|Hgt].
    + destruct (IH (expire st r owned)) as [-> Hc'].
      { by apply expire_ok. }
      { eapply coherent_sub; [exact Hc|by intros x; right|].
        apply sublist_subseteq, expire_sublist. }
      split; [|done]. unfold expire, abstraction.
      destruct (od_get (h_key r) (entries st)) as [e|] eqn:E; [|done].
      destruct (Z.eqb_spec (version e) (h_version r)) as [Hv|]; [|done].
      rewrite drop_unused_entries. apply (spec_purge_expired_entry now _ _ e); [done|].
      rewrite <-(Hc r (h_key r) e); [done|by left|by apply od_get_elem|done|done].
    + split; [|done]. unfold abstraction. cbn. unfold spec_purge. symmetry. apply filter_true.
      intros [k [v x]] Hin. apply list_elem_of_fmap in Hin as ([k' e] & [= -> -> ->] & Hin). cbn.
      destruct (ok_recorded _ _ _ _ Hok k' e Hin) as (r' & Hr' & _ & _ & <-).
      eapply sorted_head_min; [apply Hok|done|done].
Qed.

Lemma purge_exact owned st now :
  well_formed owned st -> coherent st ->
  abstraction (purge_expired st now owned) = spec_purge now (abstraction st) /\
  coherent (purge_expired st now owned).
Proof. intros [Hok _] Hc. by eapply purge_loop_exact. Qed.

Lemma get_refines owned st key now :
  well_formed owned st -> coherent st ->
  fst (get st key now owned) = fst (spec_get key (spec_purge now (abstraction st))) /\
  abstraction (snd (get st key now owned)) = snd (spec_get key (spec_purge now (abstraction st))) /\
  coherent (snd (get st key now owned)).
Proof.
  intros Hwf Hc. destruct (purge_exact owned st now Hwf Hc) as [Ha Hcp].
  destruct (purge_ok owned st now Hwf) as ([Hok _] & _). pose proof (ok_distinct _ _ _ _ Hok) as Hn.
  rewrite <-Ha. unfold get, spec_get. cbv zeta. set (p := purge_expired st now owned) in *.
  unfold abstraction. rewrite abstraction_lookup.
  destruct (od_get key (entries p)) as [e|] eqn:E; cbn [fmap option_fmap option_map fst snd]; [|done].
  split; [done|]. split.
  - cbn [entries set_counters set_entries]. unfold od_move_to_end. rewrite E, fmap_app.
    by rewrite abstraction_delete.
  - eapply coherent_sub; [exact Hcp|done|]. intros [k e'] Hin. cbn in Hin.
    by apply od_move_elem in Hin.
Qed.

Lemma invalidate_refines owned st key now :
  well_formed owned st -> coherent st ->
  abstraction (snd (invalidate st key now owned))
  = spec_remove key (spec_purge now (abstraction st)) /\
  (fst (invalidate st key now owned) = true <->
     spec_lookup key (spec_purge now (abstraction st)) <> None) /\
  coherent (snd (invalidate st key now owned)).
Proof.
  intros Hwf Hc. destruct (purge_exact owned st now Hwf Hc) as [Ha Hcp].
  destruct (purge_ok owned st now Hwf) as ([Hok _] & _). pose proof (ok_distinct _ _ _ _ Hok) as Hn.
  rewrite <-Ha. unfold invalidate, bump_version. cbv zeta. set (p := purge_expired st now owned) in *.
  set (st1 := match od_get key (entries p) with Some _ => _ | None => _ end).
  assert (entries st1 = od_delete key (entries p) /\ expiry_heap st1 = expiry_heap p) as (E1 & E2).
  { unfold st1. by destruct (od_get key (entries p)). }
  cbn [fst snd]. split; [|split].
  - unfold abstraction. rewrite drop_unused_entries, E1. by apply abstraction_delete.
  - unfold abstraction. rewrite abstraction_lookup, bool_decide_eq_true.
    destruct (od_get key (entries p)); cbn; [by split|]. split; [by intros []|done].
  - unfold coherent. rewrite drop_unused_heap. eapply coherent_sub; [exact Hcp|by rewrite E2|].
    rewrite drop_unused_entries, E1. apply sublist_subseteq, od_delete_sublist.
Qed.

Lemma evict_sub owned fuel st :
  entries (evict fuel st owned) ⊆ entries st /\ expiry_heap (evict fuel st owned) = expiry_heap st.
Proof.
  revert st. induction fuel as [|fuel IH]; intros st; cbn [evict]; [done|].
  destruct (entries st) as [|[k e] rest] eqn:E; [by rewrite E|].
  destruct (_ <? _); [|by rewrite E].
  destruct (IH (drop_unused_version (set_counters (set_entries st rest)
    (count_eviction (counters st))) k owned)) as [H1 H2].
  split; [|by rewrite H2, drop_unused_heap]. rewrite drop_unused_entries in H1. cbn in H1.
  intros x Hx. right. by apply H1.
Qed.

Lemma rebuilt_inv (l : list (K * Entry V)) seq r :
  r ∈ rebuilt l seq -> exists e, (h_key r, e) ∈ l /\ records r (h_key r) e.
Proof.
  revert seq. induction l as [|[k e] l IH]; intros seq Hin; [inversion Hin|].
  apply elem_of_cons in Hin as [->|Hin].
  - exists e. split; [by left|done].
  - destruct (IH _ Hin) as (e' & Hin' & Hr). exists e'. split; [by right|done].
Qed.

Lemma rebuild_coherent bound heap owned st :
  state_ok bound heap owned st -> coherent (rebuild_expiry_heap st).
Proof.
  intros Hok r key e Hr Hin Hk _. cbn in Hr, Hin. rewrite heapify_perm in Hr.
  destruct (rebuilt_inv _ _ _ Hr) as (e' & Hin' & _ & _ & Hexp). rewrite Hk in Hin'.
  apply od_elem_get in Hin, Hin'; [|apply Hok..]. congruence.
Qed.

Lemma stored_coherent p key v expires :
  NoDup (entries p).*1 -> coherent p -> next_version_fresh key p -> coherent (stored p key v expires).
Proof.
  intros Hn Hc Hf r k e Hr Hin Hk Hv. cbn in Hr, Hin. rewrite heap_push_perm in Hr.
  apply elem_of_cons in Hr as [->|Hr]; apply elem_of_app in Hin as [Hin|Hin].
  - cbn in Hk. subst k. apply od_delete_elem in Hin as [? _]; done.
  - apply list_elem_of_singleton in Hin as [= -> ->]. done.
  - apply od_delete_elem in Hin as [_ Hin]; [|done]. by eapply Hc.
  - apply list_elem_of_singleton in Hin as [= -> ->]. cbn in Hv. by destruct (Hf r Hr Hk).
Qed.

Lemma store_refines owned st key v ttl now :
  well_formed owned st -> coherent st ->
  abstraction (store st key v ttl now owned)
  = spec_store (Z.to_nat (max_size st)) key v (now + ttl) (spec_purge now (abstraction st)) /\
  (next_version_fresh key (purge_expired st now owned) -> coherent (store st key v ttl now owned)).
Proof.
  intros Hwf Hc. destruct (purge_exact owned st now Hwf Hc) as [Ha Hcp].
  destruct (purge_ok owned st now Hwf) as ([Hok _] & _ & [Hm _ _ _] & _).
  pose proof (ok_distinct _ _ _ _ Hok) as Hn.
  destruct (store_ok owned st key v ttl now Hwf) as (_ & _ & He). split.
  - unfold abstraction at 1. rewrite He, fmap_drop, fmap_app, abstraction_delete by done.
    unfold spec_store. rewrite <-Ha. cbv zeta. f_equal.
    unfold abstraction. rewrite <-abstraction_delete by done.
    rewrite !length_app, !length_fmap. done.
  - intros Hf. rewrite store_stored. cbv zeta.
    set (st1 := stored (purge_expired st now owned) key v (now + ttl)).
    assert (coherent st1) as Hc1 by (by apply stored_coherent).
    set (st2 := evict (length (entries st1)) st1 owned).
    assert (coherent st2) as Hc2.
    { destruct (evict_sub owned (length (entries st1)) st1) as [H1 H2].
      eapply coherent_sub; [exact Hc1| |exact H1]. unfold st2. by rewrite H2. }
    destruct (_ <? _); [|done].
    destruct (evict_ok (expiry_heap st1) owned (length (entries st1)) st1) as (H1 & _).
    { pose proof (add_entry_ok (max_size (purge_expired st now owned)) owned _ key v (now + ttl) Hok
        st1 eq_refl eq_refl eq_refl eq_refl) as []. constructor; try done. lia. }
    by eapply rebuild_coherent.
Qed.
End Invariant.

(** ** What a cache promises *)

Section Promises.
Context {K V : Type} `{Countable K}.
Implicit Types (st : CacheState K V) (owned : gset K).

(** [C8] Refinement.  On a coherent state, [get], [store] and [invalidate]
    implement the bounded map of keys with expiry in recency order: expired
    entries vanish exactly at their time, a read moves its key to the end, a
    store puts its key last and drops the least recently used keys beyond
    [max_size], and the outcomes are those of the map.  [get] and [invalidate]
    keep the state coherent; [store] does when no old heap record carries the
    version that the key gets. *)
Theorem cache_refines_lru owned st key v ttl now :
  well_formed owned st -> coherent st ->
  let a := spec_purge now (abstraction st) in
  let '(r, st1) := get st key now owned in
  let st2 := store st key v ttl now owned in
  let '(removed, st3) := invalidate st key now owned in
  (r, abstraction st1) = spec_get key a /\ coherent st1 /\
  abstraction st2 = spec_store (Z.to_nat (max_size st)) key v (now + ttl) a /\
  (next_version_fresh key (purge_expired st now owned) -> coherent st2) /\
  abstraction st3 = spec_remove key a /\ (removed = true <-> spec_lookup key a <> None) /\
  coherent st3.
Proof.
  intros Hwf Hc a. destruct (get_refines owned st key now Hwf Hc) as (H1 & H2 & H3).
  destruct (store_refines owned st key v ttl now Hwf Hc) as [H4 H5].
  destruct (invalidate_refines owned st key now Hwf Hc) as (H6 & H7 & H8).
  destruct (get st key now owned) as [r st1], (invalidate st key now owned) as [b st3].
  cbn [fst snd] in *. rewrite (surjective_pairing (spec_get key a)), H1, H2. done.
Qed.

(** A value that [get] returns has not expired, whatever the history of the
    cache: it is the value of an entry whose expiry is after [now], and reading
    it makes it the most recently used. *)
Theorem get_never_expired owned st key now v st' :
  well_formed owned st -> get st key now owned = (Returned v, st') ->
  exists e l, (key, e) ∈ entries st /\ value e = v /\ now < expires_at e /\
    entries st' = l ++ [(key, e)].
Proof.
  intros Hwf Hget. destruct (purge_ok owned st now Hwf) as (_ & Hlive & _ & Hsub).
  unfold get in Hget. destruct (od_get key _) as [e|] eqn:E; [|done].
  injection Hget as <- <-. apply od_get_elem in E as Hin.
  exists e, (od_delete key (entries (purge_expired st now owned))).
  split; [by eapply elem_of_sublist|]. split; [done|]. split; [by eapply Hlive|].
  cbn. unfold od_move_to_end. by rewrite E.
Qed.

Lemma spec_store_last capacity (key : K) (v : V) expires a now :
  (1 <= capacity)%nat -> now < expires ->
  exists l, spec_purge now (spec_store capacity key v expires a) = l ++ [(key, (v, expires))]
    /\ spec_lookup key l = None.
Proof.
  intros Hc Hlive. unfold spec_store. set (r := spec_remove key a).
  exists (spec_purge now (drop (length (r ++ [(key, (v, expires))]) - capacity) r)). split.
  - unfold spec_purge, abstract_cache. rewrite drop_app_le by (rewrite length_app; cbn; lia).
    rewrite filter_app. f_equal. rewrite filter_cons, decide_True by done. done.
  - assert (forall x, x ∈ r -> x.1 <> key) as Hr.
    { intros x Hx. unfold r, spec_remove in Hx. by apply list_elem_of_filter in Hx as [? _]. }
    set (n := (_ - capacity)%nat). clearbody n.
    assert (forall x, x ∈ spec_purge now (drop n r) -> x.1 <> key) as Hd.
    { intros x Hx. unfold spec_purge in Hx. apply list_elem_of_filter in Hx as [_ Hx].
      apply Hr. eapply elem_of_sublist; [exact Hx|apply sublist_drop]. }
    induction (spec_purge now (drop n r)) as [|[k x] l IH]; [done|]. cbn.
    rewrite decide_False by (apply (Hd (k, x)); left). apply IH. intros y Hy. apply Hd. by right.
Qed.

Lemma spec_lookup_app (key : K) (l l' : abstract_cache) :
  spec_lookup key l = None -> spec_lookup (V := V) key (l ++ l') = spec_lookup key l'.
Proof. induction l as [|[k x] l IH]; [done|]. cbn. destruct (decide (k = key)); [done|auto]. Qed.

(** A stored value is found until its time to live has passed, when no old
    heap record of the key carries its version: [get] returns it at every
    instant before [now + ttl]. *)
Theorem stored_value_found owned owned' st key v ttl now now' :
  well_formed owned st -> well_formed owned' (store st key v ttl now owned) -> coherent st ->
  next_version_fresh key (purge_expired st now owned) ->
  now' < now + ttl ->
  fst (get (store st key v ttl now owned) key now' owned') = Returned v.
Proof.
  intros Hwf Hwf' Hc Hf Hlive.
  destruct (store_refines owned st key v ttl now Hwf Hc) as [Ha Hc'].
  destruct (get_refines owned' _ key now' Hwf' (Hc' Hf)) as [-> _]. rewrite Ha.
  destruct (spec_store_last (Z.to_nat (max_size st)) key v (now + ttl)
    (spec_purge now (abstraction st)) now') as (l & -> & Hl); [|done|].
  { pose proof (ok_max_size _ _ _ _ (proj1 Hwf)). lia. }
  unfold spec_get. rewrite spec_lookup_app by done. cbn. by rewrite decide_True.
Qed.

(** A store that neither evicts nor rebuilds. *)
Lemma store_fits st (key : K) (v : V) ttl now owned st1 :
  stored (purge_expired st now owned) key v (now + ttl) = st1 ->
  Z.of_nat (length (entries st1)) <= max_size st1 ->
  Z.of_nat (length (expiry_heap st1)) <= 2 * max_size st1 ->
  store st key v ttl now owned = st1.
Proof.
  intros E Hl Hh. rewrite store_stored, E. cbv zeta.
  assert (forall fuel, evict fuel st1 owned = st1) as Hev.
  { intros [|fuel]; cbn [evict]; [done|]. destruct (entries st1) as [|[]] eqn:El; [done|].
    by rewrite (proj2 (Z.ltb_ge _ _)). }
  rewrite Hev. by destruct (Z.ltb_spec (2 * max_size st1) (Z.of_nat (length (expiry_heap st1)))); [lia|].
Qed.

(** A stale record expires a new entry early.  After a key is stored,
    invalidated and stored again for longer, its version starts again at 1 and
    the record of the first value, still in the heap, matches the second: when
    the first time to live has passed, the second value is gone although it has
    time left. *)
Theorem stale_record_expires_early n (key : K) (v1 v2 : V) ttl1 ttl2 now :
  1 <= n -> 0 < ttl1 < ttl2 -> ttl1 <= now < ttl2 ->
  let st1 := store (cache_state n) key v1 ttl1 0 ∅ in
  let st2 := snd (invalidate st1 key 0 ∅) in
  let st3 := store st2 key v2 ttl2 0 ∅ in
  (key, {| value := v2; expires_at := ttl2; version := 1 |}) ∈ entries st3 /\
  fst (get st3 key now ∅) = Raised KeyError.
Proof.
  intros Hn Ht Hnow st1 st2 st3.
  set (first := {| h_expires_at := ttl1; h_sequence := 1; h_key := key; h_version := 1 |}).
  set (second := {| h_expires_at := ttl2; h_sequence := 2; h_key := key; h_version := 1 |}).
  assert (st1 = Build_CacheState n [(key, {| value := v1; expires_at := ttl1; version := 1 |})]
            [first] (<[key := 1]> ∅) 0 0 1 no_counts) as E1.
  { apply store_fits; [done|cbn; lia..]. }
  assert (exists vs, st2 = Build_CacheState n [] [first] vs 0 0 1 (count_invalidation no_counts)
            /\ vs !! key = None) as (vs & E2 & Hvs).
  { unfold st2. rewrite E1. unfold invalidate, purge_expired. cbn.
    destruct (Z.leb_spec ttl1 0); [lia|]. cbn. rewrite !(decide_True (P := key = key)) by done. cbn.
    unfold drop_unused_version. cbn. rewrite decide_True by (split; [done|apply not_elem_of_empty]).
    eexists. split; [done|]. cbn. apply lookup_delete_eq. }
  assert (exists vs', st3 = Build_CacheState n
            [(key, {| value := v2; expires_at := ttl2; version := 1 |})] [first; second]
            vs' 0 0 2 (count_invalidation no_counts)) as (vs' & E3).
  { eexists. unfold st3. rewrite E2. apply store_fits; [|cbn; lia..].
    unfold purge_expired. cbn. destruct (Z.leb_spec ttl1 0); [lia|].
    unfold stored, get_version. cbn. rewrite Hvs. cbn.
    rewrite decide_False by (unfold record_le; cbn; lia).
    done. }
  rewrite E3. split; [by left|]. unfold get, purge_expired. cbn [purge_loop expiry_heap].
  cbn [h_expires_at first second]. destruct (Z.leb_spec ttl1 now); [|lia].
  destruct (Z.leb_spec ttl2 now); [lia|]. unfold expire. cbn. rewrite !(decide_True (P := key = key)) by done. cbn.
  unfold drop_unused_version. cbn. by rewrite decide_True by (split; [done|apply not_elem_of_empty]).
Qed.
End Promises.

(** ** Witnesses *)

Section Witnesses.
(** A cache of capacity two that holds one value until 10. *)
Definition w_state : CacheState Z Z := store (cache_state 2) 7 3 10 0 ∅.

Lemma w_empty_coherent : coherent (cache_state (K := Z) (V := Z) 2).
Proof. intros r key e Hr. inversion Hr. Qed.

Lemma w_empty_ok : well_formed ∅ (cache_state (K := Z) (V := Z) 2).
Proof. apply cache_state_ok. lia. Qed.

Lemma w_empty_fresh key : next_version_fresh key (purge_expired (cache_state (K := Z) (V := Z) 2) 0 ∅).
Proof. intros r Hr. inversion Hr. Qed.

Lemma w_state_ok : well_formed ∅ w_state /\ coherent w_state.
Proof.
  split; [apply store_ok, w_empty_ok|].
  apply store_refines; [apply w_empty_ok|apply w_empty_coherent|apply w_empty_fresh].
Qed.

Lemma cache_refines_lru_witness :
  fst (get w_state 7 4 ∅) = Returned 3 /\ abstraction (store w_state 8 5 2 4 ∅) = [(7, (3, 10)); (8, (5, 6))].
Proof.
  destruct w_state_ok as [Hok Hc].
  pose proof (cache_refines_lru ∅ w_state 7 3 1 4 Hok Hc) as H1.
  pose proof (cache_refines_lru ∅ w_state 8 5 2 4 Hok Hc) as H2. cbv zeta in H1, H2.
  destruct (get w_state 7 4 ∅) as [r st1], (invalidate w_state 7 4 ∅).
  destruct (get w_state 8 4 ∅), (invalidate w_state 8 4 ∅).
  destruct H1 as ([= -> _] & _), H2 as (_ & _ & -> & _). split; reflexivity.
Defined.

Lemma get_never_expired_witness :
  exists e l, (7, e) ∈ entries w_state /\ value e = 3 /\ 4 < expires_at e /\
    entries (snd (get w_state 7 4 ∅)) = l ++ [(7, e)].
Proof.
  apply (get_never_expired ∅ w_state 7 4 3 (snd (get w_state 7 4 ∅)) (proj1 w_state_ok)).
  reflexivity.
Defined.

Lemma stored_value_found_witness : fst (get w_state 7 9 ∅) = Returned 3.
Proof.
  apply (stored_value_found ∅ ∅ (cache_state 2) 7 3 10 0 9);
    [apply w_empty_ok|apply w_state_ok|apply w_empty_coherent|apply w_empty_fresh|lia].
Defined.

Lemma stale_record_expires_early_witness :
  fst (get (store (snd (invalidate w_state 7 0 ∅)) 7 4 100 0 ∅) 7 10 ∅) = Raised KeyError.
Proof. apply (stale_record_expires_early 2 7 3 4 10 100 10); lia. Defined.
End Witnesses.
