(* ===== verification/SyncCache.v ===== *)
(** * The synchronous local cache ([bluetape/cache/_sync.py])

    [TTLCache] guards its state with one re-entrant lock; a load runs its loader
    outside the lock, as a flight that other threads may wait for, supersede or
    outlive.  Flights are objects with identity: they live in a store and are
    named by their index.  Each lock-held section is a function of the cache and
    of what the clock gives there ([tick], a number or an exception); a clock is
    assumed not to use the cache it belongs to. *)

From stdpp Require Import fin_sets.
From S2P Require Import Prelude Python CacheCore.
Open Scope py_scope.
Open Scope Z_scope.

Section SyncCache.
Context {K V : Type} `{Countable K}.

Record SyncFlight : Type := {
  fl_key : K;
  fl_epoch : Z;
  fl_version : Z;
  fl_ttl_ns : Z;
  fl_owner_thread : Z;
  fl_terminal : bool;
  fl_superseded : bool;
  fl_result : option V;
  fl_error : option exn;
}.

Record TTLCache : Type := {
  default_ttl_ns : Z;
  max_inflight : Z;
  active_flights : gmap K nat;
  owned_flights : list nat;
  flights : list SyncFlight;
  tc_state : CacheState K V;
}.

(** The constructor, for [max_inflight] an integer or [None]. *)
Definition make_cache (default_ttl max_size max_inflight : pyval) : outcome TTLCache :=
  match ttl_ns default_ttl "default_ttl" with
  | Raised e => Raised e
  | Returned ttl =>
    match cache_positive_int max_size "max_size" with
    | Raised e => Raised e
    | Returned n =>
      match (match max_inflight with
             | PyNone => Returned n
             | _ => cache_positive_int max_inflight "max_inflight"
             end) with
      | Raised e => Raised e
      | Returned k =>
          Returned {| default_ttl_ns := ttl; max_inflight := k; active_flights := ∅;
                      owned_flights := []; flights := []; tc_state := cache_state n |}
      end
    end
  end.

(** Assignments to the attributes. *)
Definition set_active (c : TTLCache) x : TTLCache :=
  Build_TTLCache (default_ttl_ns c) (max_inflight c) x (owned_flights c) (flights c) (tc_state c).
Definition set_owned (c : TTLCache) x : TTLCache :=
  Build_TTLCache (default_ttl_ns c) (max_inflight c) (active_flights c) x (flights c) (tc_state c).
Definition set_flights (c : TTLCache) x : TTLCache :=
  Build_TTLCache (default_ttl_ns c) (max_inflight c) (active_flights c) (owned_flights c) x
    (tc_state c).
Definition set_state (c : TTLCache) x : TTLCache :=
  Build_TTLCache (default_ttl_ns c) (max_inflight c) (active_flights c) (owned_flights c)
    (flights c) x.

Definition supersede_flight (f : SyncFlight) : SyncFlight :=
  Build_SyncFlight (fl_key f) (fl_epoch f) (fl_version f) (fl_ttl_ns f) (fl_owner_thread f)
    (fl_terminal f) true (fl_result f) (fl_error f).

(** The end of a flight: its result, its error and [terminal = True]. *)
Definition end_flight (f : SyncFlight) (result : option V) (error : option exn) : SyncFlight :=
  Build_SyncFlight (fl_key f) (fl_epoch f) (fl_version f) (fl_ttl_ns f) (fl_owner_thread f)
    true (fl_superseded f) result error.

Definition owned_keys (c : TTLCache) : gset K :=
  list_to_set (omap (fun i => fl_key <$> flights c !! i) (owned_flights c)).

(** [self._now()], from the reading of the clock. *)
Definition read_now (c : TTLCache) (tick : Z) : Z * TTLCache :=
  let '(now, st) := clamp_tick (tc_state c) tick in (now, set_state c st).

(** [_supersede]. *)
Definition supersede (c : TTLCache) (key : K) : TTLCache :=
  match active_flights c !! key with
  | None => c
  | Some i =>
      set_flights (set_active c (delete key (active_flights c)))
        (alter supersede_flight i (flights c))
  end.

(** ** The lock-held sections *)

(** A section that reads the clock and then runs [f]. *)
Definition with_now {A} (c : TTLCache) (tick : outcome Z)
    (f : TTLCache -> Z -> outcome A * TTLCache) : outcome A * TTLCache :=
  match tick with
  | Raised e => (Raised e, c)
  | Returned t => let '(now, c') := read_now c t in f c' now
  end.

Definition cache_get (c : TTLCache) (key : K) (tick : outcome Z) : outcome V * TTLCache :=
  with_now c tick (fun c now =>
    let '(r, st) := get (tc_state c) key now (owned_keys c) in (r, set_state c st)).

(** [set], once its time to live is known; the clock is read after the flight of
    the key is superseded. *)
Definition cache_set (c : TTLCache) (key : K) (v : V) (ttl : Z) (tick : outcome Z)
    : outcome unit * TTLCache :=
  with_now (supersede c key) tick (fun c now =>
    (Returned tt, set_state c (store (tc_state c) key v ttl now (owned_keys c)))).

(** [invalidate]: the clock is an argument of the state's operation, so it is
    read before the flight is superseded. *)
Definition cache_invalidate (c : TTLCache) (key : K) (tick : outcome Z) : outcome bool * TTLCache :=
  with_now c tick (fun c now =>
    let c := supersede c key in
    let '(removed, st) := invalidate (tc_state c) key now (owned_keys c) in
    (Returned removed, set_state c st)).

Definition cache_clear (c : TTLCache) (tick : outcome Z) : outcome unit * TTLCache :=
  with_now c tick (fun c _ =>
    let superseded := foldr (fun i fs => alter supersede_flight i fs) (flights c)
                        (snd <$> map_to_list (active_flights c)) in
    let c := set_active (set_flights c superseded) ∅ in
    (Returned tt, set_state c (clear (tc_state c) (owned_keys c)))).

(** What the first section of [get_or_load] decides. *)
Inductive load_decision : Type :=
| Hit (v : V)
| WaitFor (flight : nat)
| Started (flight : nat).

Definition count_state (c : TTLCache) (f : Counters -> Counters) : TTLCache :=
  set_state c (set_counters (tc_state c) (f (counters (tc_state c)))).

Definition begin_load (c : TTLCache) (key : K) (ttl : Z) (thread : Z) (tick : outcome Z)
    : outcome load_decision * TTLCache :=
  match cache_get c key tick with
  | (Returned v, c) => (Returned (Hit v), c)
  | (Raised KeyError, c) =>
      match active_flights c !! key with
      | Some i => (Returned (WaitFor i), count_state c count_coalesced)
      | None =>
          if max_inflight c <=? Z.of_nat (length (owned_flights c)) then
            (Raised CacheLoadLimitError, count_state c count_load_rejection)
          else
            let i := length (flights c) in
            let flight := {|
              fl_key := key;
              fl_epoch := clear_epoch (tc_state c);
              fl_version := get_version (tc_state c) key;
              fl_ttl_ns := ttl;
              fl_owner_thread := thread;
              fl_terminal := false;
              fl_superseded := false;
              fl_result := None;
              fl_error := None;
            |} in
            let c := set_active (set_flights c (flights c ++ [flight]))
                       (<[key := i]> (active_flights c)) in
            (Returned (Started i), count_state (set_owned c (owned_flights c ++ [i])) count_load)
      end
  | (Raised e, c) => (Raised e, c)
  end.

Definition can_publish (c : TTLCache) (i : nat) (flight : SyncFlight) (loaded : outcome V) : bool :=
  match loaded with Returned _ => true | Raised _ => false end
  && negb (fl_superseded flight)
  && (clear_epoch (tc_state c) =? fl_epoch flight)
  && (get_version (tc_state c) (fl_key flight) =? fl_version flight)
  && bool_decide (active_flights c !! fl_key flight = Some i).

(** The publication of [_finish_flight]: the exception it raises, if any. *)
Definition publish (c : TTLCache) (i : nat) (flight : SyncFlight) (loaded : outcome V)
    (tick : outcome Z) : outcome unit * TTLCache :=
  match loaded with
  | Returned v =>
      if can_publish c i flight loaded then
        with_now c tick (fun c now =>
          (Returned tt, set_state c
             (store (tc_state c) (fl_key flight) v (fl_ttl_ns flight) now (owned_keys c))))
      else (Returned tt, c)
  | Raised e => (Raised e, c)
  end.

(** The end of [_finish_flight]: the flight becomes terminal and leaves the
    active and the owned flights. *)
Definition retire (c : TTLCache) (i : nat) (key : K) (result : option V) (error : option exn)
    : TTLCache :=
  let c := set_flights c (alter (fun f => end_flight f result error) i (flights c)) in
  let c := if decide (active_flights c !! key = Some i)
           then set_active c (delete key (active_flights c)) else c in
  let c := set_owned c (filter (fun j => j <> i) (owned_flights c)) in
  set_state c (drop_unused_version (tc_state c) key (owned_keys c)).

(** [_finish_flight] of the flight [i] whose loader ended with [loaded]. *)
Definition finish_flight (c : TTLCache) (i : nat) (loaded : outcome V) (tick : outcome Z)
    : TTLCache :=
  match flights c !! i with
  | None => c
  | Some flight =>
      let '(published, c) := publish c i flight loaded tick in
      let c := match loaded with
               | Raised _ => count_state c count_load_failure
               | Returned _ => c
               end in
      retire c i (fl_key flight)
        (match loaded with Returned v => Some v | Raised _ => None end)
        (match published with Raised e => Some e | Returned _ => None end)
  end.

Definition flight_outcome (flight : SyncFlight) : outcome V :=
  match fl_error flight with
  | Some e => Raised e
  | None =>
      match fl_result flight with
      | Some v => Returned v
      | None => Raised (RuntimeError "cache flight completed without an outcome")
      end
  end.

Definition cache_stats (c : TTLCache) (tick : outcome Z) : outcome CacheStats * TTLCache :=
  with_now c tick (fun c now =>
    let superseded := length (List.filter (fun i =>
      match flights c !! i with Some f => fl_superseded f | None => false end) (owned_flights c)) in
    let '(s, st) := stats (tc_state c) now (owned_keys c)
                      (Z.of_nat (length (owned_flights c))) 0 (Z.of_nat superseded) in
    (Returned s, set_state c st)).

Definition cache_len (c : TTLCache) (tick : outcome Z) : outcome Z * TTLCache :=
  with_now c tick (fun c now =>
    let '(n, st) := size (tc_state c) now (owned_keys c) in (Returned n, set_state c st)).

(** ** The methods of one thread *)

Section Methods.
Context {W : Type}.

(** [co_cache] is the cache object; [co_tokens] the keys whose loaders run in
    the current thread ([_loader_scope.tokens], of this cache); [co_wait]
    returns when the flight is terminal ([Condition.wait_for]). *)
Record cache_object : Type := {
  co_cache : lens W TTLCache;
  co_tokens : lens W (gset K);
  co_clock : M W Z;
  co_wait : nat -> M W unit;
  co_thread : Z;
}.

Variable o : cache_object.

(** A section under the lock: reads the clock, then runs on the cache. *)
Definition under_lock {A} (f : TTLCache -> outcome Z -> outcome A * TTLCache) : M W A := fun w =>
  let '(tick, w') := co_clock o w in
  let '(r, c) := f (lget (co_cache o) w') tick in
  (r, lput (co_cache o) c w').

(** [self._default_ttl_ns if ttl is None else _ttl_ns(ttl, "ttl")]. *)
Definition resolve_ttl (ttl : pyval) : M W Z :=
  match ttl with
  | PyNone => locked (co_cache o) (fun c => (default_ttl_ns c, c))
  | _ => pure_outcome (ttl_ns ttl "ttl")
  end.

Definition get_method (key : K) : M W V := under_lock (fun c tick => cache_get c key tick).

Definition set_method (key : K) (v : V) (ttl : pyval) : M W unit :=
  ttl' <- resolve_ttl ttl ;; under_lock (fun c tick => cache_set c key v ttl' tick).

Definition invalidate_method (key : K) : M W bool :=
  under_lock (fun c tick => cache_invalidate c key tick).

Definition clear_method : M W unit := under_lock cache_clear.

Definition stats_method : M W CacheStats := under_lock cache_stats.

Definition len_method : M W Z := under_lock cache_len.

(** [_flight_outcome] of a flight of the cache. *)
Definition outcome_of_flight (i : nat) : M W V := fun w =>
  match flights (lget (co_cache o) w) !! i with
  | Some flight => (flight_outcome flight, w)
  | None => (Raised (RuntimeError "no flight"), w)
  end.

(** The section of [_finish_flight]: only a publication reads the clock. *)
Definition finish_method (i : nat) (loaded : outcome V) : M W unit := fun w =>
  let c := lget (co_cache o) w in
  let publishes := match flights c !! i with
                   | Some flight => can_publish c i flight loaded
                   | None => false
                   end in
  if publishes then under_lock (fun c tick => (Returned tt, finish_flight c i loaded tick)) w
  else (Returned tt, lput (co_cache o) (finish_flight c i loaded (Returned 0)) w).

Definition get_or_load (key : K) (loader : K -> M W V) (ttl : pyval) : M W V :=
  recursive <- locked (co_tokens o) (fun s => (bool_decide (key ∈ s), s)) ;;
  raise_if recursive RecursiveLoadError ;;
  ttl' <- resolve_ttl ttl ;;
  decision <- under_lock (fun c tick => begin_load c key ttl' (co_thread o) tick) ;;
  match decision with
  | Hit v => ret v
  | WaitFor i => co_wait o i ;; outcome_of_flight i
  | Started i =>
      locked (co_tokens o) (fun s => (tt, {[key]} ∪ s)) ;;
      loaded <- capture (loader key) ;;
      locked (co_tokens o) (fun s => (tt, s ∖ {[key]})) ;;
      finish_method i loaded ;;
      outcome_of_flight i
  end.
End Methods.
End SyncCache.
Arguments SyncFlight : clear implicits.
Arguments TTLCache K V {_ _}.
Arguments load_decision : clear implicits.
Arguments cache_object K V {_ _} W.

(** ** The invariant *)

Section Invariant.
Context {K V : Type} `{Countable K}.
Implicit Types (c : TTLCache K V) (key : K) (i : nat).

(** Every flight that has begun and not finished owns a place; it stays active
    until it is superseded, with the epoch and version it began with. *)
Record cache_ok c : Prop := {
  co_state : well_formed (owned_keys c) (tc_state c);
  co_distinct : NoDup (owned_flights c);
  co_capacity : Z.of_nat (length (owned_flights c)) <= max_inflight c;
  co_active key i : active_flights c !! key = Some i ->
    exists f, flights c !! i = Some f /\ fl_key f = key /\ fl_superseded f = false /\
      i ∈ owned_flights c;
  co_owned i : i ∈ owned_flights c ->
    exists f, flights c !! i = Some f /\ fl_terminal f = false /\
      (fl_superseded f = false -> active_flights c !! fl_key f = Some i /\
         fl_epoch f = clear_epoch (tc_state c) /\
         fl_version f = get_version (tc_state c) (fl_key f));
  co_ended i f : flights c !! i = Some f -> i ∉ owned_flights c -> fl_terminal f = true;
}.

Lemma elem_of_owned_keys c key :
  key ∈ owned_keys c <-> exists i f, i ∈ owned_flights c /\ flights c !! i = Some f /\ fl_key f = key.
Proof.
  unfold owned_keys. rewrite elem_of_list_to_set, list_elem_of_omap. split.
  - intros (i & Hi & Hf). destruct (flights c !! i) as [f|] eqn:E; [|done]. injection Hf as <-. eauto.
  - intros (i & f & Hi & Hf & <-). exists i. by rewrite Hf.
Qed.

Lemma owned_keys_eq c c' :
  owned_flights c' = owned_flights c ->
  (forall i, i ∈ owned_flights c -> fl_key <$> flights c' !! i = fl_key <$> flights c !! i) ->
  owned_keys c' = owned_keys c.
Proof.
  intros Ho Hf. unfold owned_keys. rewrite Ho. f_equal.
  revert Hf. generalize (owned_flights c) as l. induction l as [|i l IH]; intros Hf; [done|].
  cbn. rewrite (Hf i) by left. rewrite IH; [done|]. intros j Hj. apply Hf. by right.
Qed.

Lemma make_cache_ok ttl n k c : make_cache ttl n k = Returned c -> cache_ok c.
Proof.
  unfold make_cache. intros Hm. destruct (ttl_ns ttl _) as [t|]; [|done].
  destruct (cache_positive_int n _) as [z|] eqn:En; [|done].
  assert (1 <= z) as Hz.
  { unfold cache_positive_int in En. destruct n; try done. destruct (Z.ltb_spec z0 1); [done|].
    by injection En as <-. }
  destruct (match k with PyNone => _ | _ => _ end) as [z'|] eqn:Ek; [|done].
  assert (1 <= z') as Hz'.
  { unfold cache_positive_int in Ek. destruct k; try done; [by injection Ek as <-|].
    destruct (Z.ltb_spec z0 1); [done|]. by injection Ek as <-. }
  injection Hm as <-. constructor; cbn; try done.
  - by apply cache_state_ok.
  - constructor.
  - lia.
  - intros i Hi. inversion Hi.
Qed.

(** A change of the state that keeps the epoch and the versions of the owned
    keys, with the flights as they are. *)
Lemma set_state_ok c st :
  cache_ok c -> well_formed (owned_keys c) st -> clear_epoch st = clear_epoch (tc_state c) ->
  (forall key i, active_flights c !! key = Some i ->
     get_version st key = get_version (tc_state c) key) ->
  cache_ok (set_state c st).
Proof.
  intros [] Hwf He Hv. constructor; cbn; try done.
  intros i Hi. destruct (co_owned0 i Hi) as (f & Hf & Ht & Hs). exists f.
  split; [done|]. split; [done|]. intros Hns. destruct (Hs Hns) as (Ha & Hep & Hver).
  rewrite He. split; [done|]. split; [done|]. rewrite Hver. symmetry. by eapply Hv.
Qed.

Lemma active_owned c key i : cache_ok c -> active_flights c !! key = Some i -> key ∈ owned_keys c.
Proof.
  intros [] Ha. destruct (co_active0 key i Ha) as (f & Hf & Hk & _ & Ho).
  apply elem_of_owned_keys. eauto.
Qed.

Lemma same_frame_version (owned : gset K) (st st' : CacheState K V) key :
  same_frame owned st st' -> key ∈ owned -> get_version st' key = get_version st key.
Proof. intros [] Hk. unfold get_version. by rewrite sf_versions. Qed.

Lemma set_state_frame c st :
  cache_ok c -> well_formed (owned_keys c) st -> same_frame (owned_keys c) (tc_state c) st ->
  cache_ok (set_state c st).
Proof.
  intros Hok Hwf Hf. apply set_state_ok; [done|done|by destruct Hf|].
  intros key i Ha. eapply same_frame_version; [exact Hf|by eapply active_owned].
Qed.

Lemma read_now_ok c tick now c' : read_now c tick = (now, c') -> cache_ok c -> cache_ok c'.
Proof.
  intros [= <- <-] Hok. apply set_state_ok; [done| |done|done].
  by apply set_last_tick_ok, co_state.
Qed.

(** A section that reads the clock keeps the invariant when its body does. *)
Lemma with_now_ok {A} c tick (f : TTLCache K V -> Z -> outcome A * TTLCache K V) :
  cache_ok c -> (forall c' now, cache_ok c' -> cache_ok (snd (f c' now))) ->
  cache_ok (snd (with_now c tick f)).
Proof.
  intros Hok Hf. unfold with_now. destruct tick as [t|]; [|done].
  destruct (read_now c t) as [now c'] eqn:E. apply Hf. by eapply read_now_ok.
Qed.

Lemma cache_get_ok c key tick : cache_ok c -> cache_ok (snd (cache_get c key tick)).
Proof.
  intros Hok. apply with_now_ok; [done|]. clear c Hok. intros c now Hok.
  destruct (get_ok (owned_keys c) (tc_state c) key now (co_state c Hok)) as [Hwf Hf].
  destruct (get (tc_state c) key now (owned_keys c)) as [r st]. by apply set_state_frame.
Qed.

Lemma supersede_owned_keys c key : owned_keys (supersede c key) = owned_keys c.
Proof.
  unfold supersede. destruct (active_flights c !! key) as [i|]; [|done].
  apply owned_keys_eq; [done|]. intros j _. cbn.
  destruct (decide (i = j)) as [->|]; [|by rewrite list_lookup_alter_ne].
  rewrite list_lookup_alter_eq. by destruct (flights c !! j).
Qed.

(** After [supersede] the key has no active flight. *)
Lemma supersede_ok c key :
  cache_ok c -> cache_ok (supersede c key) /\ active_flights (supersede c key) !! key = None.
Proof.
  intros Hok. pose proof (supersede_owned_keys c key) as Hkeys. unfold supersede in *.
  destruct (active_flights c !! key) as [i|] eqn:Ea; [|done].
  split; [|cbn; apply lookup_delete_eq].
  destruct Hok. destruct (co_active0 key i Ea) as (fi & Hfi & Hki & _ & Hoi).
  constructor; try done.
  - by rewrite Hkeys.
  - intros k j Hj. cbn in Hj. apply lookup_delete_Some in Hj as [Hne Hj].
    destruct (co_active0 k j Hj) as (f & Hf & Hk & Hs & Ho). exists f.
    cbn. rewrite list_lookup_alter_ne; [done|]. intros ->. congruence.
  - intros j Hj. cbn in Hj |- *. destruct (co_owned0 j Hj) as (f & Hf & Ht & Hs).
    destruct (decide (i = j)) as [->|Hne].
    + exists (supersede_flight f). rewrite list_lookup_alter_eq, Hf. done.
    + exists f. rewrite list_lookup_alter_ne by done. split; [done|]. split; [done|].
      intros Hns. destruct (Hs Hns) as (Ha & Hrest). split; [|done].
      rewrite lookup_delete_ne; [done|]. intros E. rewrite <-E in Ha. congruence.
  - intros j f Hj Hno. cbn in Hj, Hno. destruct (decide (i = j)) as [->|Hne]; [done|].
    rewrite list_lookup_alter_ne in Hj by done. eauto.
Qed.

Lemma same_but_version (owned : gset K) key (st st' : CacheState K V) k :
  same_frame_but owned key st st' -> k ∈ owned -> k <> key -> get_version st' k = get_version st k.
Proof. intros [] Hk Hne. unfold get_version. by rewrite sb_versions. Qed.

(** A change of the state at a key without an active flight. *)
Lemma set_state_but c key st :
  cache_ok c -> active_flights c !! key = None -> well_formed (owned_keys c) st ->
  same_frame_but (owned_keys c) key (tc_state c) st -> cache_ok (set_state c st).
Proof.
  intros Hok Hnone Hwf Hf. apply set_state_ok; [done|done|by destruct Hf|].
  intros k i Ha. eapply same_but_version; [exact Hf|by eapply active_owned|]. intros ->. congruence.
Qed.

Lemma cache_set_ok c key v ttl tick : cache_ok c -> cache_ok (snd (cache_set c key v ttl tick)).
Proof.
  intros Hok. destruct (supersede_ok c key Hok) as [Hs Hnone]. unfold cache_set, with_now.
  destruct tick as [t|]; [|done]. destruct (read_now _ t) as [now c'] eqn:E. cbn [snd].
  pose proof (read_now_ok _ _ _ _ E Hs) as Hok'. injection E as <- <-.
  destruct (store_ok _ _ key v ttl (Z.max (last_tick (tc_state (supersede c key))) t)
    (co_state _ Hok')) as (H1 & H2 & _).
  by eapply set_state_but.
Qed.

Lemma cache_invalidate_ok c key tick : cache_ok c -> cache_ok (snd (cache_invalidate c key tick)).
Proof.
  intros Hok. apply with_now_ok; [done|]. clear c Hok. intros c now Hok.
  destruct (supersede_ok c key Hok) as [Hs Hnone].
  destruct (invalidate_ok _ _ key now (co_state _ Hs)) as (H1 & H2 & _). cbv zeta.
  destruct (invalidate (tc_state (supersede c key)) key now _) as [removed st]. cbn in *.
  by eapply set_state_but.
Qed.

Lemma superseded_all_lookup (ids : list nat) (fs : list (SyncFlight K V)) i :
  foldr (fun i fs => alter supersede_flight i fs) fs ids !! i
  = if decide (i ∈ ids) then supersede_flight <$> fs !! i else fs !! i.
Proof.
  induction ids as [|j ids IH]; cbn [foldr].
  - by rewrite decide_False by apply not_elem_of_nil.
  - destruct (decide (j = i)) as [->|Hne].
    + rewrite list_lookup_alter_eq, IH, (decide_True (P := i ∈ i :: ids)) by left.
      destruct (decide (i ∈ ids)); [|done]. by destruct (fs !! i).
    + rewrite list_lookup_alter_ne, IH by done.
      destruct (decide (i ∈ ids)); [by rewrite decide_True by (by right)|].
      rewrite decide_False; [done|]. rewrite not_elem_of_cons. naive_solver.
Qed.

Lemma elem_of_active c i :
  i ∈ snd <$> map_to_list (active_flights c) <-> exists key, active_flights c !! key = Some i.
Proof.
  rewrite list_elem_of_fmap. split.
  - intros ([k j] & -> & Hin). exists k. by apply elem_of_map_to_list.
  - intros (k & Hk). exists (k, i). by rewrite elem_of_map_to_list.
Qed.

Lemma cache_clear_ok c tick : cache_ok c -> cache_ok (snd (cache_clear c tick)).
Proof.
  intros Hok. apply with_now_ok; [done|]. clear c Hok. intros c now Hok. cbv zeta.
  set (fs := foldr _ _ _). set (c1 := set_active (set_flights c fs) ∅).
  assert (forall i, flights c1 !! i = if decide (i ∈ snd <$> map_to_list (active_flights c))
            then supersede_flight <$> flights c !! i else flights c !! i) as Hfs.
  { intros i. apply superseded_all_lookup. }
  assert (owned_keys c1 = owned_keys c) as Hkeys.
  { apply owned_keys_eq; [done|]. intros i _. rewrite Hfs.
    destruct (decide _); [|done]. by destruct (flights c !! i). }
  destruct Hok. cbn [snd]. destruct (clear_ok _ _ co_state0) as (H1 & _ & _).
  constructor; try done.
  - change (owned_keys (set_state c1 (clear (tc_state c1) (owned_keys c1)))) with (owned_keys c1).
    rewrite Hkeys. exact H1.
  - intros i Hi. destruct (co_owned0 i Hi) as (f & Hf & Ht & Hs). specialize (Hfs i).
    destruct (decide (i ∈ _)) as [Hin|Hnin].
    + exists (supersede_flight f). cbn in Hfs |- *. by rewrite Hfs, Hf.
    + exists f. cbn in Hfs |- *. rewrite Hfs. split; [done|]. split; [done|]. intros Hns.
      destruct Hnin. apply elem_of_active. exists (fl_key f). by apply Hs.
  - intros i f Hi Hno. cbn in Hi, Hno. specialize (Hfs i). cbn in Hfs. rewrite Hfs in Hi.
    destruct (decide (i ∈ _)) as [Hin|Hnin]; [|eauto].
    apply elem_of_active in Hin as (k & Hk). destruct (co_active0 k i Hk) as (? & _ & _ & _ & ?). done.
Qed.

Lemma count_state_ok c g : cache_ok c -> cache_ok (count_state c g).
Proof.
  intros Hok. apply set_state_ok; [done| |done|done]. by apply set_counters_ok, co_state.
Qed.

Lemma begin_load_ok c key ttl thread tick :
  cache_ok c -> cache_ok (snd (begin_load c key ttl thread tick)).
Proof.
  intros Hok. unfold begin_load. pose proof (cache_get_ok c key tick Hok) as Hget.
  destruct (cache_get c key tick) as [[v|e] c1]; cbn [snd] in Hget; [done|].
  destruct e; try exact Hget. clear c Hok.
  destruct (active_flights c1 !! key) as [i|] eqn:Ea; [by apply count_state_ok|].
  destruct (Z.leb_spec (max_inflight c1) (Z.of_nat (length (owned_flights c1)))) as [|Hroom];
    [by apply count_state_ok|].
  cbn [snd]. apply count_state_ok. pose proof Hget as [].
  set (flight := Build_SyncFlight _ _ _ _ _ _ _ _ _).
  assert (forall j, j ∈ owned_flights c1 ->
            (flights c1 ++ [flight]) !! j = flights c1 !! j) as Hold.
  { intros j Hj. destruct (co_owned0 j Hj) as (f & Hf & _).
    apply lookup_app_l. by eapply lookup_lt_Some. }
  assert (length (flights c1) ∉ owned_flights c1) as Hnew.
  { intros Hj. destruct (co_owned0 _ Hj) as (f & Hf & _). apply lookup_lt_Some in Hf. lia. }
  assert ((flights c1 ++ [flight]) !! length (flights c1) = Some flight) as Hlast.
  { by rewrite lookup_app_r, Nat.sub_diag by lia. }
  constructor; cbn [default_ttl_ns max_inflight active_flights owned_flights flights tc_state
    set_active set_flights set_owned].
  - eapply well_formed_owned; [|exact co_state0]. intros k Hk.
    apply elem_of_owned_keys in Hk as (j & f & Hj & Hf & <-). apply elem_of_owned_keys.
    exists j, f. cbn. split; [apply elem_of_app; by left|]. by rewrite Hold.
  - apply NoDup_app. split; [done|]. split; [|apply NoDup_singleton].
    intros j Hj Hin. apply list_elem_of_singleton in Hin as ->. done.
  - rewrite length_app. cbn. lia.
  - intros k j Hj. destruct (decide (key = k)) as [<-|Hne].
    + rewrite lookup_insert_eq in Hj. injection Hj as <-. exists flight.
      split; [done|]. split; [done|]. split; [done|]. apply elem_of_app. right. by left.
    + rewrite lookup_insert_ne in Hj by done. destruct (co_active0 k j Hj) as (f & Hf & Hk & Hs & Ho).
      exists f. rewrite Hold by done. split; [done|]. split; [done|]. split; [done|].
      apply elem_of_app. by left.
  - intros j Hj. apply elem_of_app in Hj as [Hj|Hj].
    + destruct (co_owned0 j Hj) as (f & Hf & Ht & Hs). exists f. rewrite Hold by done.
      split; [done|]. split; [done|]. intros Hns. destruct (Hs Hns) as (Ha & Hrest).
      split; [|done]. rewrite lookup_insert_ne; [done|]. intros E. rewrite <-E in Ha. congruence.
    + apply list_elem_of_singleton in Hj as ->. exists flight. split; [done|]. split; [done|].
      intros _. by rewrite lookup_insert_eq.
  - intros j f Hj Hno. destruct (decide (j < length (flights c1))%nat) as [Hlt|Hge].
    + rewrite lookup_app_l in Hj by done. apply (co_ended0 j f Hj).
      intros Hin. apply Hno. apply elem_of_app. by left.
    + destruct (decide (j = length (flights c1))) as [->|Hne].
      * destruct Hno. apply elem_of_app. right. by left.
      * rewrite lookup_ge_None_2 in Hj; [done|]. rewrite length_app. cbn. lia.
Qed.

(** Ending a flight after its publication changed the state to [st]. *)
Lemma retire_ok c st i f result error :
  cache_ok c -> flights c !! i = Some f -> i ∈ owned_flights c ->
  well_formed (owned_keys c) st -> clear_epoch st = clear_epoch (tc_state c) ->
  (forall key j, active_flights c !! key = Some j -> j <> i ->
     get_version st key = get_version (tc_state c) key) ->
  cache_ok (retire (set_state c st) i (fl_key f) result error).
Proof.
  intros Hok Hf Hi Hwf He Hv. pose proof Hok as [].
  set (c' := retire _ _ _ _ _).
  assert (active_flights c' = if decide (active_flights c !! fl_key f = Some i)
            then delete (fl_key f) (active_flights c) else active_flights c) as Ha'.
  { unfold c', retire. cbn. by destruct (decide _). }
  assert (owned_flights c' = filter (fun j => j <> i) (owned_flights c)) as Ho'.
  { unfold c', retire. cbn. by destruct (decide _). }
  assert (flights c' = alter (fun f => end_flight f result error) i (flights c)) as Hf'.
  { unfold c', retire. cbn. by destruct (decide _). }
  assert (max_inflight c' = max_inflight c) as Hm'.
  { unfold c', retire. cbn. by destruct (decide _). }
  assert (tc_state c' = drop_unused_version st (fl_key f) (owned_keys c')) as Hst'.
  { unfold c', retire. cbn. by destruct (decide _). }
  clearbody c'.
  assert (forall j, j <> i -> flights c' !! j = flights c !! j) as Hfs.
  { intros j Hj. rewrite Hf'. by apply list_lookup_alter_ne. }
  assert (owned_keys c ⊆ {[fl_key f]} ∪ owned_keys c') as Hsub.
  { intros k Hk. apply elem_of_owned_keys in Hk as (j & fj & Hj & Hfj & <-).
    destruct (decide (j = i)) as [->|Hne].
    - apply elem_of_union_l, elem_of_singleton. congruence.
    - apply elem_of_union_r, elem_of_owned_keys. exists j, fj. rewrite Hfs, Ho' by done.
      split; [by apply list_elem_of_filter|done]. }
  assert (forall k j, active_flights c' !! k = Some j -> active_flights c !! k = Some j /\ j <> i)
    as Hact.
  { intros k j. rewrite Ha'. destruct (decide _) as [Hd|Hd].
    - intros [Hne Hj]%lookup_delete_Some. split; [done|]. intros ->.
      destruct (co_active0 k i Hj) as (f' & Hf2 & Hk2 & _). congruence.
    - intros Hj. split; [done|]. intros ->.
      destruct (co_active0 k i Hj) as (f' & Hf2 & Hk2 & _). apply Hd. congruence. }
  constructor.
  - rewrite Hst'. by eapply release_key_ok.
  - rewrite Ho'. by apply NoDup_filter.
  - rewrite Ho', Hm'. pose proof (length_filter (fun j => j <> i) (owned_flights c)). lia.
  - intros k j Hj. destruct (Hact k j Hj) as [Hj' Hne].
    destruct (co_active0 k j Hj') as (fj & Hfj & Hk & Hs & Ho). exists fj.
    rewrite Hfs, Ho' by done. split; [done|]. split; [done|]. split; [done|].
    by apply list_elem_of_filter.
  - intros j Hj. rewrite Ho' in Hj. apply list_elem_of_filter in Hj as [Hne Hj].
    destruct (co_owned0 j Hj) as (fj & Hfj & Ht & Hs). exists fj. rewrite Hfs by done.
    split; [done|]. split; [done|]. intros Hns. destruct (Hs Hns) as (Hja & Hep & Hver).
    assert (fl_key fj ∈ owned_keys c') as Hown.
    { apply elem_of_owned_keys. exists j, fj. rewrite Hfs, Ho' by done.
      split; [by apply list_elem_of_filter|done]. }
    destruct (drop_unused_frame (owned_keys c') st (fl_key f)) as [_ F2 _ F4].
    rewrite Hst', F2, He. split.
    + rewrite Ha'. destruct (decide _) as [Hd|]; [|done]. rewrite lookup_delete_ne; [done|].
      intros E. rewrite <-E in Hja. congruence.
    + split; [done|]. rewrite Hver, <-(Hv _ _ Hja Hne). unfold get_version. by rewrite F4.
  - intros j fj Hj Hno. destruct (decide (j = i)) as [->|Hne].
    + rewrite Hf', list_lookup_alter_eq, Hf in Hj. by injection Hj as <-.
    + rewrite Hfs in Hj by done. apply (co_ended0 j fj Hj). intros Hin. apply Hno.
      rewrite Ho'. by apply list_elem_of_filter.
Qed.

(** What a publication changes. *)
Lemma publish_state c i f loaded tick :
  cache_ok c -> flights c !! i = Some f -> i ∈ owned_flights c ->
  exists st, snd (publish c i f loaded tick) = set_state c st /\
    well_formed (owned_keys c) st /\ clear_epoch st = clear_epoch (tc_state c) /\
    (forall key j, active_flights c !! key = Some j -> j <> i ->
       get_version st key = get_version (tc_state c) key).
Proof.
  intros Hok Hf Hi. assert (exists st, snd (Returned tt, c) = set_state c st /\
    well_formed (owned_keys c) st /\ clear_epoch st = clear_epoch (tc_state c) /\
    (forall key j, active_flights c !! key = Some j -> j <> i ->
       get_version st key = get_version (tc_state c) key)) as Hsame.
  { exists (tc_state c). split; [by destruct c|]. split; [by apply co_state|done]. }
  unfold publish. destruct loaded as [v|e]; [|exact Hsame].
  destruct (can_publish c i f (Returned v)) eqn:Ec; [|exact Hsame].
  destruct tick as [t|]; [|exact Hsame]. cbn [with_now read_now clamp_tick].
  set (c1 := set_state c (set_last_tick (tc_state c) (Z.max (last_tick (tc_state c)) t))).
  assert (cache_ok c1) as Hok1 by (by eapply (read_now_ok c t)).
  destruct (store_ok _ _ (fl_key f) v (fl_ttl_ns f) (Z.max (last_tick (tc_state c)) t)
    (co_state c1 Hok1)) as (H1 & H2 & _).
  eexists. split; [done|]. split; [exact H1|]. split; [exact (sb_clear_epoch _ _ _ _ H2)|].
  intros key j Ha Hne. rewrite (same_but_version _ _ _ _ key H2).
  - done.
  - by eapply (active_owned c1).
  - intros ->. unfold can_publish in Ec. repeat apply andb_true_iff in Ec as [Ec ?].
    bool_to_prop. congruence.
Qed.

Lemma finish_flight_ok c i loaded tick :
  cache_ok c -> i ∈ owned_flights c -> cache_ok (finish_flight c i loaded tick).
Proof.
  intros Hok Hi. unfold finish_flight. destruct (flights c !! i) as [f|] eqn:Hf; [|done].
  destruct (publish_state c i f loaded tick Hok Hf Hi) as (st & E & Hwf & He & Hv).
  destruct (publish c i f loaded tick) as [published c1]. cbn [snd] in E. subst c1.
  destruct loaded as [v|e]; [by eapply retire_ok|].
  unfold count_state. cbn [set_state tc_state].
  eapply (retire_ok c (set_counters st _)); try done. by apply set_counters_ok.
Qed.

(** One lock-held section of some thread. *)
Inductive cache_step : TTLCache K V -> TTLCache K V -> Prop :=
| step_get c key tick : cache_step c (snd (cache_get c key tick))
| step_set c key v ttl tick : cache_step c (snd (cache_set c key v ttl tick))
| step_invalidate c key tick : cache_step c (snd (cache_invalidate c key tick))
| step_clear c tick : cache_step c (snd (cache_clear c tick))
| step_begin c key ttl thread tick : cache_step c (snd (begin_load c key ttl thread tick))
| step_finish c i loaded tick :
    i ∈ owned_flights c -> cache_step c (finish_flight c i loaded tick)
| step_stats c tick : cache_step c (snd (cache_stats c tick))
| step_len c tick : cache_step c (snd (cache_len c tick)).

Lemma cache_step_ok c c' : cache_step c c' -> cache_ok c -> cache_ok c'.
Proof.
  intros [] Hok; eauto using cache_get_ok, cache_set_ok, cache_invalidate_ok, cache_clear_ok,
    begin_load_ok, finish_flight_ok.
  - apply with_now_ok; [done|]. intros c1 now Hok1. unfold stats. cbn [snd fst].
    destruct (purge_ok _ _ now (co_state c1 Hok1)) as (H1 & _ & H2 & _). by apply set_state_frame.
  - apply with_now_ok; [done|]. intros c1 now Hok1. unfold size. cbn [snd fst].
    destruct (purge_ok _ _ now (co_state c1 Hok1)) as (H1 & _ & H2 & _). by apply set_state_frame.
Qed.

(** ** How flights evolve *)

(** A flight keeps its key; once superseded it stays so; once terminal it never
    changes. *)
Definition evolves (f f' : SyncFlight K V) : Prop :=
  fl_key f' = fl_key f /\ (fl_superseded f = true -> fl_superseded f' = true) /\
  (fl_terminal f = true -> f' = f).

Definition flights_evolve c c' : Prop :=
  forall i f, flights c !! i = Some f -> exists f', flights c' !! i = Some f' /\ evolves f f'.

Lemma evolves_refl (f : SyncFlight K V) : evolves f f.
Proof. done. Qed.

Lemma flights_evolve_same c c' : flights c' = flights c -> flights_evolve c c'.
Proof. intros E i f Hf. exists f. by rewrite E. Qed.

Lemma flights_evolve_trans c1 c2 c3 :
  flights_evolve c1 c2 -> flights_evolve c2 c3 -> flights_evolve c1 c3.
Proof.
  intros H1 H2 i f Hf. destruct (H1 i f Hf) as (f' & Hf' & K1 & S1 & T1).
  destruct (H2 i f' Hf') as (f'' & Hf'' & K2 & S2 & T2). exists f''. split; [done|].
  split; [congruence|]. split; [auto|]. intros Ht. rewrite <-(T1 Ht). apply T2. by rewrite (T1 Ht).
Qed.

(** Changing a flight that has not ended. *)
Lemma flights_evolve_alter c c' i g :
  cache_ok c -> i ∈ owned_flights c -> flights c' = alter g i (flights c) ->
  (forall f, fl_key (g f) = fl_key f /\ (fl_superseded f = true -> fl_superseded (g f) = true)) ->
  flights_evolve c c'.
Proof.
  intros Hok Hi E Hg j f Hf. rewrite E. destruct (decide (i = j)) as [->|Hne].
  - exists (g f). rewrite list_lookup_alter_eq, Hf. split; [done|].
    destruct (Hg f). split; [done|]. split; [done|]. intros Ht.
    destruct (co_owned c Hok j Hi) as (f' & Hf' & Ht' & _). congruence.
  - exists f. by rewrite list_lookup_alter_ne.
Qed.

Lemma supersede_evolves c key : cache_ok c -> flights_evolve c (supersede c key).
Proof.
  intros Hok. unfold supersede. destruct (active_flights c !! key) as [i|] eqn:Ea; [|by apply flights_evolve_same].
  destruct (co_active c Hok key i Ea) as (f & _ & _ & _ & Hi).
  by eapply flights_evolve_alter.
Qed.

Lemma with_now_flights {A} c tick (f : TTLCache K V -> Z -> outcome A * TTLCache K V) :
  (forall c' now, flights (snd (f c' now)) = flights c') ->
  flights (snd (with_now c tick f)) = flights c.
Proof. intros Hf. unfold with_now. destruct tick; [|done]. cbn. by rewrite Hf. Qed.

Lemma cache_get_flights c key tick : flights (snd (cache_get c key tick)) = flights c.
Proof. apply with_now_flights. intros c' now. by destruct (get (tc_state c') key now (owned_keys c')). Qed.

Lemma publish_flights c i f loaded tick : flights (snd (publish c i f loaded tick)) = flights c.
Proof.
  unfold publish. destruct loaded; [|done]. destruct (can_publish _ _ _ _); [|done].
  by apply with_now_flights.
Qed.

Lemma retire_flights c i key result error :
  flights (retire c i key result error) = alter (fun f => end_flight f result error) i (flights c).
Proof. unfold retire. cbn. by destruct (decide _). Qed.

Lemma finish_flights c i f loaded tick :
  flights c !! i = Some f ->
  flights (finish_flight c i loaded tick)
  = alter (fun f' => end_flight f'
             (match loaded with Returned v => Some v | Raised _ => None end)
             (match fst (publish c i f loaded tick) with Raised e => Some e | Returned _ => None end))
      i (flights c).
Proof.
  intros Hf. unfold finish_flight. rewrite Hf. pose proof (publish_flights c i f loaded tick) as Hp.
  destruct (publish c i f loaded tick) as [r c1]. cbn [fst snd] in *. rewrite retire_flights.
  by destruct loaded; cbn [count_state set_state flights]; rewrite Hp.
Qed.

Lemma begin_load_flights c key ttl thread tick :
  flights_evolve c (snd (begin_load c key ttl thread tick)).
Proof.
  unfold begin_load. pose proof (cache_get_flights c key tick) as Hg.
  destruct (cache_get c key tick) as [[v|e] c1]; cbn [snd] in Hg; [by apply flights_evolve_same|].
  destruct e; try (by apply flights_evolve_same).
  destruct (active_flights c1 !! key); [by apply flights_evolve_same|].
  destruct (_ <=? _); [by apply flights_evolve_same|]. cbn. rewrite Hg.
  intros i f Hf. exists f. split; [by apply lookup_app_l_Some|apply evolves_refl].
Qed.

Lemma clear_evolves c tick : cache_ok c -> flights_evolve c (snd (cache_clear c tick)).
Proof.
  intros Hok. unfold cache_clear, with_now. destruct tick as [t|]; [|by apply flights_evolve_same].
  cbn. intros i f Hf. cbn. rewrite superseded_all_lookup.
  destruct (decide (i ∈ _)) as [Hin|_]; [|exists f; by split].
  exists (supersede_flight f). rewrite Hf. split; [done|]. split; [done|]. split; [done|].
  intros Ht. apply elem_of_active in Hin as (k & Hk).
  destruct (co_active c Hok k i Hk) as (_ & _ & _ & _ & Hi).
  destruct (co_owned c Hok i Hi) as (f' & Hf' & Ht' & _). congruence.
Qed.

Lemma cache_step_evolves c c' : cache_step c c' -> cache_ok c -> flights_evolve c c'.
Proof.
  intros [] Hok.
  - apply flights_evolve_same, cache_get_flights.
  - eapply flights_evolve_trans; [by apply supersede_evolves|]. apply flights_evolve_same.
    by apply with_now_flights.
  - unfold cache_invalidate, with_now. destruct tick as [t|]; [|by apply flights_evolve_same].
    destruct (read_now c0 t) as [now c1] eqn:E. pose proof (read_now_ok _ _ _ _ E Hok) as Hok1.
    eapply flights_evolve_trans; [|eapply flights_evolve_trans; [by apply (supersede_evolves c1 key)|]].
    + injection E as _ <-. by apply flights_evolve_same.
    + apply flights_evolve_same. cbn zeta.
      by destruct (invalidate (tc_state (supersede c1 key)) key now (owned_keys (supersede c1 key))).
  - by apply clear_evolves.
  - apply begin_load_flights.
  - destruct (co_owned c0 Hok i) as (f & Hf & _); [done|].
    eapply flights_evolve_alter; [done|done|by apply finish_flights|done].
  - by apply flights_evolve_same, with_now_flights.
  - by apply flights_evolve_same, with_now_flights.
Qed.

Lemma cache_steps_evolve c c' :
  rtc cache_step c c' -> cache_ok c -> cache_ok c' /\ flights_evolve c c'.
Proof.
  induction 1 as [c|c1 c2 c3 H1 _ IH]; intros Hok; [split; [done|by apply flights_evolve_same]|].
  destruct (IH (cache_step_ok _ _ H1 Hok)) as [Hok3 Hev]. split; [done|].
  eapply flights_evolve_trans; [by apply cache_step_evolves|done].
Qed.

(** An owned flight publishes exactly when it has not been superseded. *)
Lemma can_publish_current c i f v :
  cache_ok c -> i ∈ owned_flights c -> flights c !! i = Some f ->
  can_publish c i f (Returned v) = negb (fl_superseded f).
Proof.
  intros Hok Hi Hf. unfold can_publish. destruct (co_owned c Hok i Hi) as (f' & Hf' & _ & Hs).
  assert (f' = f) as -> by congruence. destruct (fl_superseded f); [done|].
  destruct (Hs eq_refl) as (Ha & He & Hv). rewrite He, Hv, !Z.eqb_refl.
  by rewrite bool_decide_eq_true_2.
Qed.
End Invariant.

(** ** What the cache guarantees to its threads *)

Section Guarantees.
Context {K V : Type} `{Countable K}.
Implicit Types (c : TTLCache K V) (key : K) (i : nat).

(** A set made from a list is no larger. *)
Lemma list_to_set_size (l : list K) : (base.size (list_to_set l : gset K) <= length l)%nat.
Proof.
  induction l as [|k l IH]; cbn; [by rewrite size_empty|].
  rewrite size_union_alt, size_singleton.
  pose proof (subseteq_size (list_to_set l ∖ {[k]}) (list_to_set l : gset K)
    (subseteq_difference_l _ _ _ (reflexivity _))). lia.
Qed.

Lemma owned_keys_size c : (base.size (owned_keys c) <= length (owned_flights c))%nat.
Proof.
  unfold owned_keys. etrans; [apply list_to_set_size|].
  generalize (owned_flights c) as l. induction l as [|i l IH]; cbn; [done|].
  destruct (fl_key <$> flights c !! i); cbn; lia.
Qed.

(** The versions remembered are those of entries and of loads in flight. *)
Lemma key_versions_size c :
  cache_ok c ->
  Z.of_nat (base.size (key_versions (tc_state c)))
  <= max_size (tc_state c) + max_inflight c.
Proof.
  intros [[[] _] _ Hcap _ _ _].
  assert (dom (key_versions (tc_state c))
    ⊆ owned_keys c ∪ list_to_set (entries (tc_state c)).*1) as Hsub.
  { intros k Hk. apply elem_of_dom in Hk. apply elem_of_union.
    destruct (ok_known k Hk); [by left|right]. by apply elem_of_list_to_set. }
  apply subseteq_size in Hsub. rewrite size_dom in Hsub.
  pose proof (owned_keys_size c). pose proof (list_to_set_size (entries (tc_state c)).*1) as Hl.
  rewrite length_fmap in Hl. rewrite size_union_alt in Hsub.
  pose proof (subseteq_size (list_to_set (entries (tc_state c)).*1 ∖ owned_keys c)
    (list_to_set (entries (tc_state c)).*1 : gset K)
    (subseteq_difference_l _ _ _ (reflexivity _))). lia.
Qed.

(** The limits set by the constructor never change. *)
Definition same_limits c c' : Prop :=
  max_inflight c' = max_inflight c /\ max_size (tc_state c') = max_size (tc_state c).

Lemma drop_unused_limits (st : CacheState K V) key owned :
  max_size (drop_unused_version st key owned) = max_size st.
Proof. unfold drop_unused_version. by case_decide. Qed.

Lemma purge_limits heap (st : CacheState K V) now owned :
  max_size (purge_loop heap st now owned) = max_size st.
Proof.
  revert st. induction heap as [|r heap IH]; intros st; cbn; [done|].
  destruct (_ <=? _); [|done]. rewrite IH. unfold expire.
  destruct (od_get _ _); [|done]. destruct (_ =? _); [|done]. by rewrite drop_unused_limits.
Qed.

Lemma evict_limits fuel (st : CacheState K V) owned : max_size (evict fuel st owned) = max_size st.
Proof.
  revert st. induction fuel as [|fuel IH]; intros st; cbn; [done|].
  destruct (entries st) as [|[] ?]; [done|]. destruct (_ <? _); [|done].
  by rewrite IH, drop_unused_limits.
Qed.

Lemma store_limits (st : CacheState K V) key v ttl now owned :
  max_size (store st key v ttl now owned) = max_size st.
Proof.
  rewrite store_stored. cbv zeta. destruct (_ <? _); cbn -[evict]; rewrite evict_limits; cbn;
    apply purge_limits.
Qed.

Lemma invalidate_limits (st : CacheState K V) key now owned :
  max_size (snd (invalidate st key now owned)) = max_size st.
Proof.
  unfold invalidate, bump_version. cbn [snd]. rewrite drop_unused_limits.
  destruct (od_get key _); apply purge_limits.
Qed.

Lemma with_now_limits {A} c c0 tick (f : TTLCache K V -> Z -> outcome A * TTLCache K V) :
  same_limits c0 c -> (forall c' now, same_limits c0 c' -> same_limits c0 (snd (f c' now))) ->
  same_limits c0 (snd (with_now c tick f)).
Proof. intros Hs Hf. unfold with_now. destruct tick as [t|]; [|done]. by apply Hf. Qed.

Lemma supersede_limits c key : same_limits c (supersede c key).
Proof. unfold supersede. by destruct (_ !! _). Qed.

Lemma cache_get_limits c key tick : same_limits c (snd (cache_get c key tick)).
Proof.
  apply with_now_limits; [done|]. intros c' now [Hi Hs]. split; unfold get, purge_expired; cbv zeta;
    destruct (od_get _ _); cbn; try done; by rewrite purge_limits.
Qed.

Lemma retire_limits c i key r e : same_limits c (retire c i key r e).
Proof. unfold retire. split; cbn; destruct (decide _); cbn; try done; apply drop_unused_limits. Qed.

Lemma cache_step_limits c c' : cache_step c c' -> same_limits c c'.
Proof.
  intros Hstep. destruct Hstep as [c key tick|c key v ttl tick|c key tick|c tick
    |c key ttl thread tick|c i loaded tick Hown|c tick|c tick].
  - apply cache_get_limits.
  - apply with_now_limits; [apply supersede_limits|]. intros c1 now [Hi Hs].
    split; [done|]. cbn -[store]. by rewrite store_limits.
  - apply with_now_limits; [done|]. intros c1 now [Hi Hs].
    destruct (supersede_limits c1 key) as [Hi2 Hs2]. cbv zeta.
    pose proof (invalidate_limits (tc_state (supersede c1 key)) key now
      (owned_keys (supersede c1 key))) as Hl.
    destruct (invalidate _ key now _) as [r st]. cbn [snd] in *.
    split; cbn; congruence.
  - apply with_now_limits; [done|]. by intros c1 now [Hi Hs].
  - unfold begin_load. pose proof (cache_get_limits c key tick) as Hg.
    destruct (cache_get c key tick) as [[v|e] c1]; cbn [snd] in *; [done|].
    destruct e; try exact Hg. destruct (active_flights c1 !! key); [exact Hg|].
    by destruct (_ <=? _).
  - unfold finish_flight. destruct (flights c !! i) as [f|]; [|done].
    assert (same_limits c (snd (publish c i f loaded tick))) as Hp.
    { unfold publish. destruct loaded; [|done]. destruct (can_publish _ _ _ _); [|done].
      apply with_now_limits; [done|]. intros c1 now [Hi Hs]. split; [done|]. cbn -[store].
      by rewrite store_limits. }
    destruct (publish c i f loaded tick) as [r c1]. cbn [snd] in Hp.
    destruct Hp as [Hp1 Hp2]. destruct loaded as [v|e].
    + destruct (retire_limits c1 i (fl_key f) (Some v)
        (match r with Raised e => Some e | Returned _ => None end)). split; congruence.
    + destruct (retire_limits (count_state c1 count_load_failure) i (fl_key f) None
        (match r with Raised e => Some e | Returned _ => None end)) as [R1 R2].
      split; [rewrite R1|rewrite R2]; done.
  - apply with_now_limits; [done|]. intros c1 now [Hi Hs]. split; [done|]. cbn.
    unfold purge_expired. by rewrite purge_limits.
  - apply with_now_limits; [done|]. intros c1 now [Hi Hs]. split; [done|]. cbn.
    unfold purge_expired. by rewrite purge_limits.
Qed.

Lemma reachable_ok ttl n k c0 c : make_cache ttl n k = Returned c0 -> rtc cache_step c0 c -> cache_ok c.
Proof. intros Hm Hr. eapply cache_steps_evolve; [exact Hr|by eapply make_cache_ok]. Qed.

(** In every interleaving of the lock-held sections of any threads, from
    the constructor on, the cache stays bounded: at most [max_size] entries under
    distinct keys, at most twice as many heap records, at most [max_inflight]
    loads in flight, a remembered version only for an entry or a load in flight,
    and for each key at most one load that new callers join, which has not
    ended. *)
Theorem sync_cache_bounded ttl n k c0 c :
  make_cache ttl n k = Returned c0 -> rtc cache_step c0 c ->
  let st := tc_state c in
  same_limits c0 c /\ NoDup (entries st).*1 /\
  Z.of_nat (length (entries st)) <= max_size st /\
  Z.of_nat (length (expiry_heap st)) <= 2 * max_size st /\
  Z.of_nat (length (owned_flights c)) <= max_inflight c /\
  Z.of_nat (base.size (key_versions st)) <= max_size st + max_inflight c /\
  (forall key i, active_flights c !! key = Some i ->
     exists f, flights c !! i = Some f /\ fl_key f = key /\ fl_terminal f = false).
Proof.
  intros Hm Hr st. pose proof (reachable_ok _ _ _ _ _ Hm Hr) as Hok. split.
  { clear -Hr. induction Hr as [c|c1 c2 c3 H1 _ [I1 I2]]; [done|].
    destruct (cache_step_limits _ _ H1). split; congruence. }
  pose proof (key_versions_size c Hok) as Hv. destruct Hok as [[[] Hheap] _ Hcap Hact Hown _].
  do 5 (split; [done|]). intros key i Ha. destruct (Hact key i Ha) as (f & Hf & Hk & _ & Hi).
  destruct (Hown i Hi) as (f' & Hf' & Ht & _). exists f. split; [done|]. split; [done|]. congruence.
Qed.

Lemma retire_entries c i key result error :
  entries (tc_state (retire c i key result error)) = entries (tc_state c).
Proof.
  unfold retire. cbn. rewrite drop_unused_entries. by destruct (decide _).
Qed.

Lemma finish_entries c i f v tick :
  flights c !! i = Some f ->
  entries (tc_state (finish_flight c i (Returned v) tick))
  = entries (tc_state (snd (publish c i f (Returned v) tick))).
Proof.
  intros Hf. unfold finish_flight. rewrite Hf. destruct (publish c i f (Returned v) tick) as [r c1].
  by rewrite retire_entries.
Qed.

(** The newest entry survives the eviction. *)
Lemma store_last owned (st : CacheState K V) key v ttl now :
  well_formed owned st -> exists l ver,
    entries (store st key v ttl now owned)
    = l ++ [(key, {| value := v; expires_at := now + ttl; version := ver |})].
Proof.
  intros Hwf. destruct (store_ok owned st key v ttl now Hwf) as (_ & _ & ->).
  pose proof (ok_max_size _ _ _ _ (proj1 Hwf)). rewrite length_app. cbn [length].
  eexists _, _. rewrite drop_app_le by lia. done.
Qed.

(** A load that ends publishes its value exactly when it has not been
    superseded: the value becomes the most recently used entry of its key, due
    at the current time plus the load's time to live; a superseded load leaves
    the entries as they are. *)
Theorem load_publishes_unless_superseded c i f v t :
  cache_ok c -> i ∈ owned_flights c -> flights c !! i = Some f ->
  let c' := finish_flight c i (Returned v) (Returned t) in
  if fl_superseded f then entries (tc_state c') = entries (tc_state c)
  else exists l ver, entries (tc_state c') = l ++ [(fl_key f,
         {| value := v; expires_at := Z.max (last_tick (tc_state c)) t + fl_ttl_ns f;
            version := ver |})].
Proof.
  intros Hok Hi Hf c'. unfold c'. rewrite (finish_entries c i f v (Returned t) Hf).
  unfold publish. rewrite (can_publish_current c i f v Hok Hi Hf).
  destruct (fl_superseded f); cbn [negb]; [done|]. cbn [with_now read_now clamp_tick snd].
  set (c1 := set_state c (set_last_tick (tc_state c) (Z.max (last_tick (tc_state c)) t))).
  assert (cache_ok c1) as Hok1 by (by eapply (read_now_ok c t)).
  exact (store_last _ _ (fl_key f) v (fl_ttl_ns f) _ (co_state c1 Hok1)).
Qed.

(** A section that replaces what is cached under [key]. *)
Definition writes c key c1 : Prop :=
  (exists v ttl tick, c1 = snd (cache_set c key v ttl tick)) \/
  (exists t, c1 = snd (cache_invalidate c key (Returned t))) \/
  (exists t, c1 = snd (cache_clear c (Returned t))).

Lemma writes_step c key c1 : writes c key c1 -> cache_step c c1.
Proof. intros [(v & ttl & tick & ->)|[(t & ->)|(t & ->)]]; constructor. Qed.

Lemma supersede_flag c key i f :
  cache_ok c -> i ∈ owned_flights c -> flights c !! i = Some f -> fl_key f = key ->
  exists f', flights (supersede c key) !! i = Some f' /\ fl_superseded f' = true.
Proof.
  intros Hok Hi Hf Hk. destruct (co_owned c Hok i Hi) as (f' & Hf' & _ & Hs).
  assert (f' = f) as -> by congruence.
  destruct (fl_superseded f) eqn:E.
  - destruct (supersede_evolves c key Hok i f Hf) as (f2 & Hf2 & _ & S & _). eauto.
  - destruct (Hs eq_refl) as (Ha & _). unfold supersede. rewrite Hk in Ha. rewrite Ha. cbn.
    exists (supersede_flight f). by rewrite list_lookup_alter_eq, Hf.
Qed.

Lemma writes_supersedes c key c1 i f :
  cache_ok c -> i ∈ owned_flights c -> flights c !! i = Some f -> fl_key f = key ->
  writes c key c1 -> exists f', flights c1 !! i = Some f' /\ fl_superseded f' = true.
Proof.
  intros Hok Hi Hf Hk [(v & ttl & tick & ->)|[(t & ->)|(t & ->)]].
  - unfold cache_set. rewrite with_now_flights by done. by eapply supersede_flag.
  - unfold cache_invalidate, with_now. destruct (read_now c t) as [now c1] eqn:E.
    pose proof (read_now_ok _ _ _ _ E Hok) as Hok1. injection E as _ <-.
    destruct (supersede_flag _ key i f Hok1 Hi Hf Hk) as (f' & Hf' & Hs). exists f'.
    split; [|done]. by destruct (invalidate _ key _ _).
  - cbn. rewrite superseded_all_lookup. destruct (co_owned c Hok i Hi) as (f2 & Hf2 & _ & Hs).
    assert (f2 = f) as -> by congruence. destruct (decide (i ∈ _)) as [|Hnin].
    + exists (supersede_flight f). by rewrite Hf.
    + exists f. split; [done|]. destruct (fl_superseded f) eqn:E; [done|].
      destruct Hnin. apply elem_of_active. exists (fl_key f). by apply Hs.
Qed.

(** [C2] No stale publication.  When a key is set or invalidated, or the cache
    cleared, while a load of the key is in flight, then whatever the threads do
    next, the end of that load does not change the entries: it never overwrites
    the newer value and never brings back what was removed.  Its own callers
    still get the loaded value. *)
Theorem no_stale_publication c key c1 c2 i f v tick :
  cache_ok c -> i ∈ owned_flights c -> flights c !! i = Some f -> fl_key f = key ->
  writes c key c1 -> rtc cache_step c1 c2 -> i ∈ owned_flights c2 ->
  let c3 := finish_flight c2 i (Returned v) tick in
  entries (tc_state c3) = entries (tc_state c2) /\
  exists f3, flights c3 !! i = Some f3 /\ flight_outcome f3 = Returned v.
Proof.
  intros Hok Hi Hf Hk Hw Hr Hi2 c3.
  pose proof (cache_step_ok _ _ (writes_step _ _ _ Hw) Hok) as Hok1.
  destruct (writes_supersedes c key c1 i f Hok Hi Hf Hk Hw) as (f1 & Hf1 & Hs1).
  destruct (cache_steps_evolve c1 c2 Hr Hok1) as [Hok2 Hev].
  destruct (Hev i f1 Hf1) as (f2 & Hf2 & _ & Hs2 & _).
  assert (publish c2 i f2 (Returned v) tick = (Returned tt, c2)) as Hp.
  { unfold publish. rewrite (can_publish_current c2 i f2 v Hok2 Hi2 Hf2). by rewrite Hs2. }
  split.
  - unfold c3. by rewrite (finish_entries c2 i f2 v tick Hf2), Hp.
  - exists (end_flight f2 (Some v) None). split; [|done].
    unfold c3. rewrite (finish_flights c2 i f2 _ _ Hf2), Hp, list_lookup_alter_eq, Hf2. done.
Qed.

(** All callers of a load share its outcome: once the loader has ended, the
    flight is terminal and, whatever the threads do next, its outcome stays the
    loader's value or exception, so a caller that waited returns or raises the
    same as the one that ran the loader. *)
Theorem waiters_share_outcome c i loaded t c2 :
  cache_ok c -> i ∈ owned_flights c ->
  rtc cache_step (finish_flight c i loaded (Returned t)) c2 ->
  exists f, flights c2 !! i = Some f /\ fl_terminal f = true /\ flight_outcome f = loaded.
Proof.
  intros Hok Hi Hr. destruct (co_owned c Hok i Hi) as (f & Hf & _).
  assert (cache_ok (finish_flight c i loaded (Returned t))) as Hok1 by by apply finish_flight_ok.
  destruct (cache_steps_evolve _ c2 Hr Hok1) as [_ Hev].
  pose proof (finish_flights c i f loaded (Returned t) Hf) as Hfs.
  assert (flights (finish_flight c i loaded (Returned t)) !! i =
    Some (end_flight f (match loaded with Returned v => Some v | Raised _ => None end)
      (match fst (publish c i f loaded (Returned t)) with Raised e => Some e | Returned _ => None end)))
    as Hf1 by (by rewrite Hfs, list_lookup_alter_eq, Hf).
  destruct (Hev i _ Hf1) as (f2 & Hf2 & _ & _ & Ht). exists f2. rewrite (Ht eq_refl) in *.
  split; [done|]. split; [done|]. unfold publish. destruct loaded as [v|e]; [|done].
  by destruct (can_publish c i f (Returned v)).
Qed.
End Guarantees.

(** ** One call of [get_or_load] *)

Section GetOrLoad.
Context {K V W : Type} `{Countable K} (o : cache_object K V W).
Context `{!LensLaws (co_cache o)} `{!LensLaws (co_tokens o)}.
Hypothesis cache_apart : forall s w, lget (co_cache o) (lput (co_tokens o) s w) = lget (co_cache o) w.
Hypothesis tokens_apart : forall c w, lget (co_tokens o) (lput (co_cache o) c w) = lget (co_tokens o) w.
Variable t : Z.
Hypothesis clock_reads : forall w, co_clock o w = (Returned t, w).

Lemma under_lock_run {A} (f : TTLCache K V -> outcome Z -> outcome A * TTLCache K V) w :
  under_lock o f w = (fst (f (lget (co_cache o) w) (Returned t)),
                      lput (co_cache o) (snd (f (lget (co_cache o) w) (Returned t))) w).
Proof. unfold under_lock. rewrite clock_reads. by destruct (f _ _). Qed.

Lemma finish_flight_tick (c : TTLCache K V) i loaded t1 t2 :
  match flights c !! i with Some f => can_publish c i f loaded | None => false end = false ->
  finish_flight c i loaded t1 = finish_flight c i loaded t2.
Proof.
  unfold finish_flight. destruct (flights c !! i) as [f|]; [|done]. unfold publish.
  intros Hp. destruct loaded; [|done]. by rewrite Hp.
Qed.

Lemma finish_method_run i loaded w :
  finish_method o i loaded w =
  (Returned tt, lput (co_cache o) (finish_flight (lget (co_cache o) w) i loaded (Returned t)) w).
Proof.
  unfold finish_method. cbv zeta.
  destruct (match flights _ !! i with Some f => _ | None => _ end) eqn:E.
  - by rewrite under_lock_run.
  - by rewrite (finish_flight_tick _ _ _ (Returned 0) (Returned t)).
Qed.

(** The section of a miss that starts a load. *)
Lemma begin_load_miss (c : TTLCache K V) key ttl thread :
  cache_ok c ->
  let now := Z.max (last_tick (tc_state c)) t in
  od_get key (entries (purge_expired (set_last_tick (tc_state c) now) now (owned_keys c))) = None ->
  active_flights c !! key = None ->
  Z.of_nat (length (owned_flights c)) < max_inflight c ->
  exists c2 i f, begin_load c key ttl thread (Returned t) = (Returned (Started i), c2) /\
    flights c2 !! i = Some f /\ fl_key f = key /\ fl_ttl_ns f = ttl /\ fl_superseded f = false /\
    owned_flights c2 = owned_flights c ++ [i] /\ (i ∉ owned_flights c) /\
    active_flights c2 !! key = Some i /\ last_tick (tc_state c2) = now /\
    od_get key (entries (tc_state c2)) = None.
Proof.
  intros Hok now Hmiss Ha Hroom.
  set (st := purge_expired (set_last_tick (tc_state c) now) now (owned_keys c)) in *.
  assert (cache_get c key (Returned t)
    = (Raised KeyError, set_state c (set_counters st (count_miss (counters st))))) as Hget.
  { unfold cache_get. cbn [with_now read_now clamp_tick]. fold now.
    change (owned_keys (set_state c (set_last_tick (tc_state c) now))) with (owned_keys c).
    cbn [tc_state set_state]. unfold get. fold st. by rewrite Hmiss. }
  unfold begin_load. rewrite Hget. cbn [active_flights set_state max_inflight owned_flights flights].
  rewrite Ha. destruct (Z.leb_spec (max_inflight c) (Z.of_nat (length (owned_flights c)))); [lia|].
  assert (last_tick st = now) as Hlast.
  { destruct (purge_ok (owned_keys c) (set_last_tick (tc_state c) now) now) as (_ & _ & Hf & _).
    - by apply set_last_tick_ok, co_state.
    - exact (sf_last_tick _ _ _ Hf). }
  eexists _, _, _. split; [done|]. cbn.
  split; [by rewrite lookup_app_r, Nat.sub_diag by lia|].
  do 4 (split; [done|]). split; [|split; [by rewrite lookup_insert_eq|done]].
  intros Hj. destruct (co_owned c Hok _ Hj) as (f & Hf & _). apply lookup_lt_Some in Hf. lia.
Qed.

Lemma capture_run {A} (m : M W A) w w' r :
  m w = (r, w') -> r <> Raised FuelExhausted -> capture m w = (Returned r, w').
Proof. intros E Hr. unfold capture. rewrite E. destruct r as [|[]]; done. Qed.

Lemma filter_own (l : list nat) i : i ∉ l -> filter (fun j => j <> i) (l ++ [i]) = l.
Proof.
  intros Hi. rewrite filter_app, (filter_true _ l).
  - rewrite filter_cons, decide_False by (intros Hn; by apply Hn). apply app_nil_r.
  - intros j Hj ->. done.
Qed.

Lemma retire_active (c : TTLCache K V) i key r e :
  active_flights c !! key = Some i -> active_flights (retire c i key r e) !! key = None /\
  owned_flights (retire c i key r e) = filter (fun j => j <> i) (owned_flights c).
Proof.
  intros Ha. unfold retire. cbn. rewrite decide_True by done. cbn. by rewrite lookup_delete_eq.
Qed.

Lemma publish_active (c : TTLCache K V) i f loaded tick :
  active_flights (snd (publish c i f loaded tick)) = active_flights c /\
  owned_flights (snd (publish c i f loaded tick)) = owned_flights c.
Proof.
  unfold publish. destruct loaded; [|done]. destruct (can_publish _ _ _ _); [|done].
  by destruct tick.
Qed.

Lemma finish_leaves (c : TTLCache K V) i f loaded tick :
  flights c !! i = Some f -> active_flights c !! fl_key f = Some i ->
  active_flights (finish_flight c i loaded tick) !! fl_key f = None /\
  owned_flights (finish_flight c i loaded tick) = filter (fun j => j <> i) (owned_flights c).
Proof.
  intros Hf Ha. unfold finish_flight. rewrite Hf.
  destruct (publish_active c i f loaded tick) as [Pa Po].
  destruct (publish c i f loaded tick) as [r c1]. cbn [snd] in *. rewrite <-Po.
  rewrite <-Pa in Ha. destruct loaded as [v|e].
  - by apply retire_active.
  - by apply (retire_active (count_state c1 count_load_failure)).
Qed.

(** A miss loads once.  When no thread interferes, [get_or_load] of a key
    with no live entry and no load in flight runs the loader once and ends as
    the loader does; the loader's own keys and the loads in flight are what they
    were, on success and on failure.  A value is then the key's newest entry,
    due at the current time plus the time to live; a failure caches nothing. *)
Theorem get_or_load_miss key (loader : K -> M W V) ttl ttl' r w :
  let c := lget (co_cache o) w in
  let now := Z.max (last_tick (tc_state c)) t in
  cache_ok c -> key ∉ lget (co_tokens o) w ->
  resolve_ttl o ttl w = (Returned ttl', w) ->
  od_get key (entries (purge_expired (set_last_tick (tc_state c) now) now (owned_keys c))) = None ->
  active_flights c !! key = None ->
  Z.of_nat (length (owned_flights c)) < max_inflight c ->
  (forall w', lget (co_tokens o) w' = {[key]} ∪ lget (co_tokens o) w -> loader key w' = (r, w')) ->
  r <> Raised FuelExhausted ->
  exists w', get_or_load o key loader ttl w = (r, w') /\
    let c' := lget (co_cache o) w' in
    lget (co_tokens o) w' = lget (co_tokens o) w /\
    owned_flights c' = owned_flights c /\ active_flights c' !! key = None /\
    match r with
    | Returned v => exists l ver, entries (tc_state c')
        = l ++ [(key, {| value := v; expires_at := now + ttl'; version := ver |})]
    | Raised _ => od_get key (entries (tc_state c')) = None
    end.
Proof.
  intros c now Hok Htok Httl Hmiss Ha Hroom Hload Hr.
  destruct (begin_load_miss c key ttl' (co_thread o) Hok Hmiss Ha Hroom)
    as (c2 & i & f & Hbegin & Hf & Hk & Hfttl & Hns & Hown & Hni & Hact & Hlast & Hnone).
  pose proof (begin_load_ok c key ttl' (co_thread o) (Returned t) Hok) as Hok2.
  rewrite Hbegin in Hok2. cbn [snd] in Hok2.
  set (s := lget (co_tokens o) w) in *.
  set (w1 := lput (co_tokens o) ({[key]} ∪ s) (lput (co_cache o) c2 w)).
  set (w2 := lput (co_tokens o) s w1).
  set (c3 := finish_flight c2 i r (Returned t)).
  exists (lput (co_cache o) c3 w2).
  assert (lget (co_cache o) w2 = c2) as Hc2.
  { unfold w2, w1. by rewrite !cache_apart, lget_lput. }
  assert (flights c3 !! i = Some (end_flight f
    (match r with Returned v => Some v | Raised _ => None end)
    (match fst (publish c2 i f r (Returned t)) with Raised e => Some e | Returned _ => None end))) as Hf3.
  { unfold c3. rewrite (finish_flights c2 i f _ _ Hf), list_lookup_alter_eq, Hf. done. }
  assert (i ∈ owned_flights c2) as Hi by (rewrite Hown; apply elem_of_app; right; by left).
  split.
  - unfold get_or_load. unfold bind at 1, locked. cbv beta iota zeta.
    rewrite lput_lget. fold s. rewrite bool_decide_eq_false_2 by done.
    unfold bind at 1. cbn [raise_if ret]. unfold bind at 1. rewrite Httl.
    unfold bind at 1. rewrite under_lock_run. fold c. rewrite Hbegin. cbn [fst snd].
    unfold bind at 1, locked. rewrite tokens_apart. fold s. fold w1.
    unfold bind at 1. rewrite (capture_run _ w1 w1 r); [|apply Hload|done];
      [|unfold w1; by rewrite lget_lput].
    unfold bind at 1, locked.
    assert (lget (co_tokens o) w1 ∖ {[key]} = s) as ->.
    { unfold w1. rewrite lget_lput. apply set_eq. intros x. rewrite elem_of_difference, elem_of_union,
        elem_of_singleton. split; [by intros [[->|] ?]|]. intros Hx. split; [by right|]. by intros ->. }
    fold w2. unfold bind at 1. rewrite finish_method_run, Hc2. fold c3.
    unfold outcome_of_flight. rewrite lget_lput, Hf3. f_equal.
    unfold publish, flight_outcome. destruct r as [v|e]; [|done].
    by destruct (can_publish c2 i f (Returned v)).
  - rewrite lget_lput, tokens_apart. unfold w2. rewrite lget_lput.
    rewrite <-Hk in Hact. destruct (finish_leaves c2 i f r (Returned t) Hf Hact) as [La Lo].
    fold c3 in La, Lo. rewrite Hk in La. split; [done|].
    split; [by rewrite Lo, Hown, filter_own|]. split; [done|]. destruct r as [v|e].
    + pose proof (load_publishes_unless_superseded c2 i f v t Hok2 Hi Hf) as Hp. cbv zeta in Hp.
      rewrite Hns, Hk, Hfttl, Hlast in Hp.
      replace (Z.max (Z.max (last_tick (tc_state c)) t) t) with now in Hp by lia. exact Hp.
    + unfold c3, finish_flight. rewrite Hf. cbn [publish]. by rewrite retire_entries.
Qed.
End GetOrLoad.

(** ** Witnesses *)

Section Witnesses.
(** A cache of capacity two, and the same with a load of the key 7 in flight. *)
Definition w_cache : TTLCache Z Z :=
  {| default_ttl_ns := 1000000000; max_inflight := 2; active_flights := ∅; owned_flights := [];
     flights := []; tc_state := cache_state 2 |}.

Lemma w_cache_made : make_cache (PyInt 1) (PyInt 2) PyNone = Returned w_cache.
Proof. reflexivity. Qed.

Definition w_loading : TTLCache Z Z := snd (begin_load w_cache 7 10 0 (Returned 0)).

Lemma w_loading_ok : cache_ok w_loading.
Proof. apply begin_load_ok. by eapply make_cache_ok, w_cache_made. Qed.

Definition w_flight : SyncFlight Z Z :=
  {| fl_key := 7; fl_epoch := 0; fl_version := 0; fl_ttl_ns := 10; fl_owner_thread := 0;
     fl_terminal := false; fl_superseded := false; fl_result := None; fl_error := None |}.

Lemma sync_cache_bounded_witness :
  same_limits w_cache w_loading /\ NoDup (entries (tc_state w_loading)).*1.
Proof.
  destruct (sync_cache_bounded (PyInt 1) (PyInt 2) PyNone w_cache w_loading w_cache_made)
    as (H1 & H2 & _); [apply rtc_once, step_begin|]. by split.
Defined.

Lemma load_publishes_unless_superseded_witness :
  exists l ver, entries (tc_state (finish_flight w_loading 0 (Returned 3) (Returned 5)))
    = l ++ [(7, {| value := 3; expires_at := 15; version := ver |})].
Proof.
  apply (load_publishes_unless_superseded w_loading 0 w_flight 3 5 w_loading_ok);
    [by left|reflexivity].
Defined.

Lemma no_stale_publication_witness :
  let c1 := snd (cache_set w_loading 7 4 10 (Returned 1)) in
  entries (tc_state (finish_flight c1 0 (Returned 3) (Returned 5))) = entries (tc_state c1).
Proof.
  intros c1. refine (proj1 (no_stale_publication w_loading 7 c1 c1 0 w_flight 3 (Returned 5)
    w_loading_ok _ _ _ _ _ _)); [by left|reflexivity|reflexivity| |by apply rtc_refl|by left].
  left. by exists 4, 10, (Returned 1).
Defined.

Lemma waiters_share_outcome_witness :
  exists f, flights (finish_flight w_loading 0 (Raised KeyError) (Returned 5)) !! 0%nat = Some f
    /\ fl_terminal f = true /\ flight_outcome f = Raised (A := Z) KeyError.
Proof.
  apply (waiters_share_outcome w_loading 0 (Raised KeyError) 5 _ w_loading_ok);
    [by left|by apply rtc_refl].
Defined.

(** A world with the cache and the keys being loaded. *)
Definition w_object : cache_object Z Z (TTLCache Z Z * gset Z) := {|
  co_cache := Lens _ _ fst (fun c w => (c, snd w));
  co_tokens := Lens _ _ snd (fun s w => (fst w, s));
  co_clock := ret 5;
  co_wait := fun _ => ret tt;
  co_thread := 0;
|}.

#[export] Instance w_cache_laws : LensLaws (co_cache w_object).
Proof. constructor; [by intros ? []|by intros []|by intros ? ? []]. Qed.
#[export] Instance w_tokens_laws : LensLaws (co_tokens w_object).
Proof. constructor; [by intros ? []|by intros []|by intros ? ? []]. Qed.

Lemma get_or_load_miss_witness :
  exists w', get_or_load w_object 7 (fun _ => ret 3) PyNone (w_cache, ∅) = (Returned 3, w') /\
    lget (co_tokens w_object) w' = ∅.
Proof.
  destruct (get_or_load_miss w_object (fun _ _ => eq_refl) (fun _ _ => eq_refl) 5 (fun _ => eq_refl)
    7 (fun _ => ret 3) PyNone 1000000000 (Returned 3) (w_cache, ∅)) as (w' & H1 & H2 & _); try done.
  - by eapply make_cache_ok, w_cache_made.
  - by exists w'.
Defined.
End Witnesses.
