(* ===== verification/AsyncCache.v ===== *)
(** * The asyncio local cache ([bluetape/cache/_async.py])

    [AsyncTTLCache] belongs to one event loop.  A load is a task that its callers
    await through a shield: a caller that is cancelled leaves without cancelling
    the load, and the last caller to leave before it has ended abandons it.  No
    section under the lock awaits, so a section is one step of the loop.  Flights
    are objects with identity, named by their index, as in [SyncCache]. *)

From stdpp Require Import fin_sets.
From S2P Require Import Prelude Python CacheCore SyncCache.
Open Scope py_scope.
Open Scope Z_scope.

Section AsyncCache.
Context {K V : Type} `{Countable K}.

(** What the cache sees of a flight's task: [task.done()] and its outcome. *)
Inductive load_task : Type :=
| TaskRunning
| TaskDone (r : outcome V).

Record AsyncFlight : Type := {
  af_key : K;
  af_epoch : Z;
  af_version : Z;
  af_ttl_ns : Z;
  af_sequence : Z;
  af_task : option load_task;
  af_waiters : Z;
  af_abandoned : bool;
  af_superseded : bool;
}.

(** [ac_loop] is the event loop the cache was first used in. *)
Record AsyncTTLCache : Type := {
  ac_default_ttl_ns : Z;
  ac_max_inflight : Z;
  ac_loop : option Z;
  ac_active : gmap K nat;
  ac_owned : list nat;
  ac_sequence : Z;
  ac_flights : list AsyncFlight;
  ac_state : CacheState K V;
}.

Definition make_async_cache (default_ttl max_size max_inflight : pyval) : outcome AsyncTTLCache :=
  match ttl_ns default_ttl "default_ttl" with
  | Raised e => Raised e
  | Returned ttl =>
    match cache_positive_int max_size "max_size" with
    | Raised e => Raised e
    | Returned n =>
      match (match max_inflight with
             | PyNone => Returned n
             | _ => cache_positive_int max_inflight "max_inflight"
             end) with
      | Raised e => Raised e
      | Returned k =>
          Returned {| ac_default_ttl_ns := ttl; ac_max_inflight := k; ac_loop := None;
                      ac_active := ∅; ac_owned := []; ac_sequence := 0; ac_flights := [];
                      ac_state := cache_state n |}
      end
    end
  end.

(** Assignments to the attributes. *)
Definition ac_set_loop (c : AsyncTTLCache) x : AsyncTTLCache :=
  Build_AsyncTTLCache (ac_default_ttl_ns c) (ac_max_inflight c) x (ac_active c) (ac_owned c)
    (ac_sequence c) (ac_flights c) (ac_state c).
Definition ac_set_active (c : AsyncTTLCache) x : AsyncTTLCache :=
  Build_AsyncTTLCache (ac_default_ttl_ns c) (ac_max_inflight c) (ac_loop c) x (ac_owned c)
    (ac_sequence c) (ac_flights c) (ac_state c).
Definition ac_set_owned (c : AsyncTTLCache) x : AsyncTTLCache :=
  Build_AsyncTTLCache (ac_default_ttl_ns c) (ac_max_inflight c) (ac_loop c) (ac_active c) x
    (ac_sequence c) (ac_flights c) (ac_state c).
Definition ac_set_sequence (c : AsyncTTLCache) x : AsyncTTLCache :=
  Build_AsyncTTLCache (ac_default_ttl_ns c) (ac_max_inflight c) (ac_loop c) (ac_active c)
    (ac_owned c) x (ac_flights c) (ac_state c).
Definition ac_set_flights (c : AsyncTTLCache) x : AsyncTTLCache :=
  Build_AsyncTTLCache (ac_default_ttl_ns c) (ac_max_inflight c) (ac_loop c) (ac_active c)
    (ac_owned c) (ac_sequence c) x (ac_state c).
Definition ac_set_state (c : AsyncTTLCache) x : AsyncTTLCache :=
  Build_AsyncTTLCache (ac_default_ttl_ns c) (ac_max_inflight c) (ac_loop c) (ac_active c)
    (ac_owned c) (ac_sequence c) (ac_flights c) x.
Definition ac_count (c : AsyncTTLCache) (f : Counters -> Counters) : AsyncTTLCache :=
  ac_set_state c (set_counters (ac_state c) (f (counters (ac_state c)))).

Definition af_set_task (f : AsyncFlight) x : AsyncFlight :=
  Build_AsyncFlight (af_key f) (af_epoch f) (af_version f) (af_ttl_ns f) (af_sequence f) x
    (af_waiters f) (af_abandoned f) (af_superseded f).
Definition af_set_waiters (f : AsyncFlight) x : AsyncFlight :=
  Build_AsyncFlight (af_key f) (af_epoch f) (af_version f) (af_ttl_ns f) (af_sequence f)
    (af_task f) x (af_abandoned f) (af_superseded f).
Definition af_abandon (f : AsyncFlight) : AsyncFlight :=
  Build_AsyncFlight (af_key f) (af_epoch f) (af_version f) (af_ttl_ns f) (af_sequence f)
    (af_task f) (af_waiters f) true (af_superseded f).
Definition af_supersede (f : AsyncFlight) : AsyncFlight :=
  Build_AsyncFlight (af_key f) (af_epoch f) (af_version f) (af_ttl_ns f) (af_sequence f)
    (af_task f) (af_waiters f) (af_abandoned f) true.
Definition change_flight (c : AsyncTTLCache) (i : nat) (g : AsyncFlight -> AsyncFlight)
    : AsyncTTLCache := ac_set_flights c (alter g i (ac_flights c)).

(** [_owned_keys]. *)
Definition ac_owned_keys (c : AsyncTTLCache) : gset K :=
  list_to_set (omap (fun i => af_key <$> ac_flights c !! i) (ac_owned c)).

(** [_require_loop] in the running loop. *)
Definition require_loop (c : AsyncTTLCache) (running : Z) : outcome unit * AsyncTTLCache :=
  match ac_loop c with
  | None => (Returned tt, ac_set_loop c (Some running))
  | Some l =>
      if l =? running then (Returned tt, c)
      else (Raised (RuntimeError "AsyncTTLCache is bound to a different event loop"), c)
  end.

(** [self._now()], and the rest of the section. *)
Definition ac_with_now {A} (c : AsyncTTLCache) (tick : outcome Z)
    (f : AsyncTTLCache -> Z -> outcome A * AsyncTTLCache) : outcome A * AsyncTTLCache :=
  match tick with
  | Raised e => (Raised e, c)
  | Returned t =>
      let '(now, st) := clamp_tick (ac_state c) t in f (ac_set_state c st) now
  end.

(** [_supersede]. *)
Definition ac_supersede (c : AsyncTTLCache) (key : K) : AsyncTTLCache :=
  match ac_active c !! key with
  | None => c
  | Some i => change_flight (ac_set_active c (delete key (ac_active c))) i af_supersede
  end.

(** ** The sections under the lock *)

Definition ac_get (c : AsyncTTLCache) (key : K) (tick : outcome Z) : outcome V * AsyncTTLCache :=
  ac_with_now c tick (fun c now =>
    let '(r, st) := get (ac_state c) key now (ac_owned_keys c) in (r, ac_set_state c st)).

(** [set], once its time to live is known. *)
Definition ac_set (c : AsyncTTLCache) (key : K) (v : V) (ttl : Z) (tick : outcome Z)
    : outcome unit * AsyncTTLCache :=
  ac_with_now (ac_supersede c key) tick (fun c now =>
    (Returned tt, ac_set_state c (store (ac_state c) key v ttl now (ac_owned_keys c)))).

Definition ac_invalidate (c : AsyncTTLCache) (key : K) (tick : outcome Z)
    : outcome bool * AsyncTTLCache :=
  ac_with_now c tick (fun c now =>
    let c := ac_supersede c key in
    let '(removed, st) := invalidate (ac_state c) key now (ac_owned_keys c) in
    (Returned removed, ac_set_state c st)).

Definition ac_clear (c : AsyncTTLCache) (tick : outcome Z) : outcome unit * AsyncTTLCache :=
  ac_with_now c tick (fun c _ =>
    let superseded := foldr (fun i fs => alter af_supersede i fs) (ac_flights c)
                        (snd <$> map_to_list (ac_active c)) in
    let c := ac_set_active (ac_set_flights c superseded) ∅ in
    (Returned tt, ac_set_state c (clear (ac_state c) (ac_owned_keys c)))).

Definition ac_stats (c : AsyncTTLCache) (tick : outcome Z) : outcome CacheStats * AsyncTTLCache :=
  ac_with_now c tick (fun c now =>
    let owned p := Z.of_nat (length (List.filter (fun i =>
      match ac_flights c !! i with Some f => p f | None => false end) (ac_owned c))) in
    let '(s, st) := stats (ac_state c) now (ac_owned_keys c)
                      (Z.of_nat (length (ac_owned c))) (owned af_abandoned) (owned af_superseded) in
    (Returned s, ac_set_state c st)).

Definition ac_size (c : AsyncTTLCache) (tick : outcome Z) : outcome Z * AsyncTTLCache :=
  ac_with_now c tick (fun c now =>
    let '(n, st) := size (ac_state c) now (ac_owned_keys c) in (Returned n, ac_set_state c st)).

(** [_can_publish]. *)
Definition ac_can_publish (c : AsyncTTLCache) (i : nat) (flight : AsyncFlight) : bool :=
  negb (af_abandoned flight)
  && negb (af_superseded flight)
  && (clear_epoch (ac_state c) =? af_epoch flight)
  && (get_version (ac_state c) (af_key flight) =? af_version flight)
  && bool_decide (ac_active c !! af_key flight = Some i).

(** [if self._active_flights.get(flight.key) is flight: del ...]. *)
Definition ac_deactivate (c : AsyncTTLCache) (i : nat) (key : K) : AsyncTTLCache :=
  if decide (ac_active c !! key = Some i) then ac_set_active c (delete key (ac_active c)) else c.

(** The [finally] of [_complete_async_flight]. *)
Definition ac_retire (c : AsyncTTLCache) (i : nat) (key : K) : AsyncTTLCache :=
  let c := ac_deactivate c i key in
  let c := ac_set_owned c (filter (fun j => j <> i) (ac_owned c)) in
  ac_set_state c (drop_unused_version (ac_state c) key (ac_owned_keys c)).

(** [_complete_async_flight]; [published] is the result to publish, if any. *)
Definition complete_async_flight (c : AsyncTTLCache) (i : nat) (flight : AsyncFlight)
    (published : option V) (tick : outcome Z) : outcome unit * AsyncTTLCache :=
  let '(r, c) :=
    match published with
    | None => (Returned tt, c)
    | Some v =>
        ac_with_now c tick (fun c now =>
          (Returned tt, ac_set_state c
             (store (ac_state c) (af_key flight) v (af_ttl_ns flight) now (ac_owned_keys c))))
    end in
  (r, ac_retire c i (af_key flight)).

(** The end of [_run_loader] whose loader ended with [loaded]: the outcome of the
    task, which is done with it. *)
Definition finish_load (c : AsyncTTLCache) (i : nat) (loaded : outcome V) (tick : outcome Z)
    : outcome V * AsyncTTLCache :=
  match ac_flights c !! i with
  | None => (loaded, c)
  | Some flight =>
      let '(r, c) :=
        match loaded with
        | Raised e =>
            let '(_, c) := complete_async_flight (ac_count c count_load_failure) i flight None tick in
            (Raised e, c)
        | Returned v =>
            let published := if ac_can_publish c i flight then Some v else None in
            match complete_async_flight c i flight published tick with
            | (Returned _, c) => (Returned v, c)
            | (Raised e, c) => (Raised e, c)
            end
        end in
      (r, change_flight c i (fun f => af_set_task f (Some (TaskDone r))))
  end.

(** [_release_waiter_locked]: the task to cancel, if any. *)
Definition release_waiter_locked (c : AsyncTTLCache) (i : nat) : option nat * AsyncTTLCache :=
  let c := change_flight c i (fun f => af_set_waiters f (af_waiters f - 1)) in
  match ac_flights c !! i with
  | None => (None, c)
  | Some flight =>
      let done := match af_task flight with Some (TaskDone _) => true | _ => false end in
      if negb (af_waiters flight =? 0) || done then (None, c)
      else
        let c := ac_deactivate (change_flight c i af_abandon) i (af_key flight) in
        let '(_, st) := bump_version (ac_state c) (af_key flight) in
        (Some i, ac_set_state c st)
  end.

(** What the section of [get_or_load] decides; a load that begins has no task
    yet. *)
Inductive async_decision : Type :=
| AsyncHit (v : V)
| Join (flight : nat)
| Begin (flight : nat).

Definition ac_begin (c : AsyncTTLCache) (key : K) (ttl : Z) (tick : outcome Z)
    : outcome async_decision * AsyncTTLCache :=
  match ac_get c key tick with
  | (Returned v, c) => (Returned (AsyncHit v), c)
  | (Raised KeyError, c) =>
      match ac_active c !! key with
      | Some i =>
          (Returned (Join i),
           ac_count (change_flight c i (fun f => af_set_waiters f (af_waiters f + 1)))
             count_coalesced)
      | None =>
          if ac_max_inflight c <=? Z.of_nat (length (ac_owned c)) then
            (Raised CacheLoadLimitError, ac_count c count_load_rejection)
          else
            let c := ac_set_sequence c (ac_sequence c + 1) in
            let i := length (ac_flights c) in
            let flight := {|
              af_key := key;
              af_epoch := clear_epoch (ac_state c);
              af_version := get_version (ac_state c) key;
              af_ttl_ns := ttl;
              af_sequence := ac_sequence c;
              af_task := None;
              af_waiters := 1;
              af_abandoned := false;
              af_superseded := false;
            |} in
            let c := ac_set_active (ac_set_flights c (ac_flights c ++ [flight]))
                       (<[key := i]> (ac_active c)) in
            (Returned (Begin i), ac_set_owned c (ac_owned c ++ [i]))
      end
  | (Raised e, c) => (Raised e, c)
  end.

(** [asyncio.create_task] returned the task, or raised. *)
Definition task_created (c : AsyncTTLCache) (i : nat) : AsyncTTLCache :=
  ac_count (change_flight c i (fun f => af_set_task f (Some TaskRunning))) count_load.

Definition task_not_created (c : AsyncTTLCache) (i : nat) : AsyncTTLCache :=
  match ac_flights c !! i with
  | None => c
  | Some flight => snd (complete_async_flight c i flight None (Returned 0))
  end.

(** ** The methods *)

Section Methods.
Context {W : Type}.

(** [ao_loop] is the running loop, [ao_scope] the keys of this cache that are
    being loaded in the current context, [ao_set_scope] assigns it; creating,
    awaiting and cancelling the task of a load; creating and awaiting the task
    of a release; [ao_acquire] awaits the lock.  [ao_fuel] bounds the
    cancellations that a release absorbs. *)
Record async_object : Type := {
  ao_cache : lens W AsyncTTLCache;
  ao_loop : M W Z;
  ao_clock : M W Z;
  ao_scope : M W (gset K);
  ao_set_scope : gset K -> M W unit;
  ao_create_load : nat -> M W unit;
  ao_await_load : nat -> M W V;
  ao_cancel_load : nat -> M W unit;
  ao_create_release : nat -> M W unit;
  ao_release_done : nat -> M W bool;
  ao_await_release : nat -> M W unit;
  ao_release_result : nat -> M W unit;
  ao_acquire : M W unit;
  ao_fuel : nat;
}.

Variable o : async_object.

(** [self._bound_lock()]. *)
Definition bound_lock : M W unit := fun w =>
  let '(running, w) := ao_loop o w in
  match running with
  | Raised e => (Raised e, w)
  | Returned l =>
      let '(r, c) := require_loop (lget (ao_cache o) w) l in (r, lput (ao_cache o) c w)
  end.

(** A section under the lock that reads the clock, and one that does not. *)
Definition ac_section {A} (f : AsyncTTLCache -> outcome Z -> outcome A * AsyncTTLCache) : M W A :=
  fun w =>
    let '(tick, w) := ao_clock o w in
    let '(r, c) := f (lget (ao_cache o) w) tick in (r, lput (ao_cache o) c w).

Definition ac_quiet {A} (f : AsyncTTLCache -> A * AsyncTTLCache) : M W A := locked (ao_cache o) f.

Definition ac_resolve_ttl (ttl : pyval) : M W Z :=
  match ttl with
  | PyNone => ac_quiet (fun c => (ac_default_ttl_ns c, c))
  | _ => pure_outcome (ttl_ns ttl "ttl")
  end.

Definition get_async (key : K) : M W V :=
  bound_lock ;; ac_section (fun c tick => ac_get c key tick).

Definition set_async (key : K) (v : V) (ttl : pyval) : M W unit :=
  ttl' <- ac_resolve_ttl ttl ;; bound_lock ;; ac_section (fun c tick => ac_set c key v ttl' tick).

Definition invalidate_async (key : K) : M W bool :=
  bound_lock ;; ac_section (fun c tick => ac_invalidate c key tick).

Definition clear_async : M W unit := bound_lock ;; ac_section ac_clear.

Definition stats_async : M W CacheStats := bound_lock ;; ac_section ac_stats.

Definition size_async : M W Z := bound_lock ;; ac_section ac_size.

(** [_release_waiter]. *)
Definition release_waiter (i : nat) : M W unit :=
  task_to_cancel <- ac_quiet (fun c => release_waiter_locked c i) ;;
  match task_to_cancel with Some t => ao_cancel_load o t | None => ret tt end.

(** The loop of [_release_waiter_without_task]: awaits the lock. *)
Fixpoint acquire_through (fuel : nat) (cancelled : bool) : M W bool :=
  match fuel with
  | O => raise FuelExhausted
  | S fuel' =>
      got <- try_except (ao_acquire o ;; ret true)
        (fun e => match e with CancelledError => Some (ret false) | _ => None end) ;;
      if (got : bool) then ret cancelled else acquire_through fuel' true
  end.

Definition release_waiter_without_task (i : nat) (cancelled : bool) : M W unit :=
  cancelled <- acquire_through (ao_fuel o) cancelled ;;
  release_waiter i ;;
  raise_if cancelled CancelledError.

(** [while not release_task.done()]. *)
Fixpoint await_release (fuel : nat) (i : nat) (cancelled : bool) : M W bool :=
  match fuel with
  | O => raise FuelExhausted
  | S fuel' =>
      done <- ao_release_done o i ;;
      if (done : bool) then ret cancelled
      else
        cancelled <- try_except (ao_await_release o i ;; ret cancelled)
          (fun e => match e with CancelledError => Some (ret true) | _ => None end) ;;
        await_release fuel' i cancelled
  end.

(** [_release_waiter_cancellation_safe]. *)
Definition release_waiter_cancellation_safe (i : nat) : M W unit :=
  created <- capture (ao_create_release o i) ;;
  match created with
  | Raised e =>
      release_waiter_without_task i (bool_decide (e = CancelledError)) ;;
      if is_Exception e || bool_decide (e = CancelledError) then ret tt else raise e
  | Returned _ =>
      cancelled <- await_release (ao_fuel o) i false ;;
      ao_release_result o i ;;
      raise_if cancelled CancelledError
  end.

(** [get_or_load]. *)
Definition get_or_load_async (key : K) (ttl : pyval) : M W V :=
  scope <- ao_scope o ;;
  raise_if (bool_decide (key ∈ scope)) RecursiveLoadError ;;
  ttl' <- ac_resolve_ttl ttl ;;
  bound_lock ;;
  decision <- ac_section (fun c tick => ac_begin c key ttl' tick) ;;
  let await_load i :=
    try_finally (ao_await_load o i) (release_waiter_cancellation_safe i) in
  match decision with
  | AsyncHit v => ret v
  | Join i => await_load i
  | Begin i =>
      created <- capture (ao_create_load o i) ;;
      match created with
      | Raised e => ac_quiet (fun c => (tt, task_not_created c i)) ;; raise e
      | Returned _ => ac_quiet (fun c => (tt, task_created c i)) ;; await_load i
      end
  end.

(** [_run_loader], the body of a load's task. *)
Definition run_loader (i : nat) (key : K) (loader : K -> M W V) : M W V :=
  scope <- ao_scope o ;;
  ao_set_scope o ({[key]} ∪ scope) ;;
  try_finally
    (loaded <- capture (loader key) ;;
     bound_lock ;;
     fun w =>
       let c := lget (ao_cache o) w in
       let publishes := match loaded, ac_flights c !! i with
                        | Returned _, Some flight => ac_can_publish c i flight
                        | _, _ => false
                        end in
       if publishes then ac_section (fun c tick => finish_load c i loaded tick) w
       else let '(r, c') := finish_load c i loaded (Returned 0) in (r, lput (ao_cache o) c' w))
    (ao_set_scope o scope).
End Methods.
End AsyncCache.
Arguments load_task : clear implicits.
Arguments AsyncFlight : clear implicits.
Arguments AsyncTTLCache K V {_ _}.
Arguments async_decision : clear implicits.
Arguments async_object K V {_ _} W.
