(* ===== verification/AsyncCacheLaws.v ===== *)
(** * What the asyncio cache guarantees

    The invariant of the cache and of the callers that await its loads, kept by
    every section; what it says about cancellation and publication. *)

From stdpp Require Import fin_sets.
From S2P Require Import Prelude Python CacheCore SyncCache AsyncCache.
Open Scope Z_scope.

(** Two changes of one element. *)
Lemma alter_alter {A} (f g : A -> A) i (l : list A) :
  alter f i (alter g i l) = alter (fun x => f (g x)) i l.
Proof. revert i. induction l as [|x l IH]; intros [|i]; [done..|]. cbn. f_equal. apply IH. Qed.

Lemma alter_last {A} (g : A -> A) (l : list A) x : alter g (length l) (l ++ [x]) = l ++ [g x].
Proof. induction l as [|y l IH]; [done|]. cbn. f_equal. apply IH. Qed.

Lemma fmap_alter {A B} (h : A -> B) (g : A -> A) (g' : B -> B) i (l : list A) :
  (forall x, h (g x) = g' (h x)) -> h <$> alter g i l = alter g' i (h <$> l).
Proof.
  intros Hg. revert i. induction l as [|x l IH]; intros [|i]; cbn; [done|done| |].
  - f_equal. apply Hg.
  - f_equal. apply IH.
Qed.

Section Invariant.
Context {K V : Type} `{Countable K}.
Implicit Types (c : AsyncTTLCache K V) (key : K) (i : nat) (f : AsyncFlight K V).

(** A flight in flight: its task runs; it is abandoned exactly when nobody waits
    for it; until it is abandoned or superseded it is the active one, of the
    current epoch. *)
Record running c i f : Prop := {
  ru_task : af_task f = Some TaskRunning;
  ru_waiters : 0 <= af_waiters f;
  ru_abandoned : af_abandoned f = true <-> af_waiters f = 0;
  ru_active : af_abandoned f = false -> af_superseded f = false ->
    ac_active c !! af_key f = Some i /\ af_epoch f = clear_epoch (ac_state c);
}.

Record async_ok c : Prop := {
  ao_wf : well_formed (ac_owned_keys c) (ac_state c);
  ao_distinct : NoDup (ac_owned c);
  ao_capacity : Z.of_nat (length (ac_owned c)) <= ac_max_inflight c;
  ao_active key i : ac_active c !! key = Some i ->
    exists f, ac_flights c !! i = Some f /\ af_key f = key /\ af_superseded f = false /\
      af_abandoned f = false /\ i ∈ ac_owned c;
  ao_owned i : i ∈ ac_owned c -> exists f, ac_flights c !! i = Some f /\ running c i f;
  ao_ended i f : ac_flights c !! i = Some f -> i ∉ ac_owned c -> af_task f <> Some TaskRunning;
}.

Lemma elem_of_ac_owned_keys c key :
  key ∈ ac_owned_keys c <->
  exists i f, i ∈ ac_owned c /\ ac_flights c !! i = Some f /\ af_key f = key.
Proof.
  unfold ac_owned_keys. rewrite elem_of_list_to_set, list_elem_of_omap. split.
  - intros (i & Hi & Hf). destruct (ac_flights c !! i) as [f|] eqn:E; [|done]. injection Hf as <-. eauto.
  - intros (i & f & Hi & Hf & <-). exists i. by rewrite Hf.
Qed.

Lemma ac_owned_keys_eq c c' :
  ac_owned c' = ac_owned c ->
  (forall i, i ∈ ac_owned c -> af_key <$> ac_flights c' !! i = af_key <$> ac_flights c !! i) ->
  ac_owned_keys c' = ac_owned_keys c.
Proof.
  intros Ho Hf. unfold ac_owned_keys. rewrite Ho. f_equal.
  revert Hf. generalize (ac_owned c) as l. induction l as [|i l IH]; intros Hf; [done|].
  cbn. rewrite (Hf i) by left. rewrite IH; [done|]. intros j Hj. apply Hf. by right.
Qed.

Lemma alter_key_same c i g :
  (forall f, af_key (g f) = af_key f) -> ac_owned_keys (change_flight c i g) = ac_owned_keys c.
Proof.
  intros Hg. apply ac_owned_keys_eq; [done|]. intros j _. cbn.
  destruct (decide (i = j)) as [->|]; [|by rewrite list_lookup_alter_ne].
  rewrite list_lookup_alter_eq. destruct (ac_flights c !! j); cbn; [by rewrite Hg|done].
Qed.

Lemma make_async_ok ttl n k c : make_async_cache ttl n k = Returned c -> async_ok c.
Proof.
  unfold make_async_cache. intros Hm. destruct (ttl_ns ttl _) as [t|]; [|done].
  assert (forall v p z, cache_positive_int v p = Returned z -> 1 <= z) as Hpos.
  { intros v p z. unfold cache_positive_int. destruct v; try done.
    destruct (Z.ltb_spec z0 1); [done|]. by intros [= <-]. }
  destruct (cache_positive_int n _) as [z|] eqn:En; [|done]. apply Hpos in En.
  destruct (match k with PyNone => _ | _ => _ end) as [z'|] eqn:Ek; [|done].
  assert (1 <= z') as Hz' by (destruct k; try (by eapply Hpos); by injection Ek as <-).
  injection Hm as <-. constructor; cbn; try done.
  - by apply cache_state_ok.
  - constructor.
  - lia.
  - intros i Hi. inversion Hi.
Qed.

(** A change of the state within the epoch. *)
Lemma ac_set_state_ok c st :
  async_ok c -> well_formed (ac_owned_keys c) st -> clear_epoch st = clear_epoch (ac_state c) ->
  async_ok (ac_set_state c st).
Proof.
  intros [] Hwf He. constructor; cbn; try done.
  intros i Hi. destruct (ao_owned0 i Hi) as (f & Hf & []). exists f.
  split; [done|]. constructor; try done. cbn. intros Ha Hs. rewrite He. auto.
Qed.

Lemma ac_count_ok c g : async_ok c -> async_ok (ac_count c g).
Proof. intros Hok. apply ac_set_state_ok; [done| |done]. by apply set_counters_ok, ao_wf. Qed.

Lemma ac_tick_ok c x : async_ok c -> async_ok (ac_set_state c (set_last_tick (ac_state c) x)).
Proof. intros Hok. apply ac_set_state_ok; [done| |done]. by apply set_last_tick_ok, ao_wf. Qed.

Lemma ac_with_now_ok {A} c tick (f : AsyncTTLCache K V -> Z -> outcome A * AsyncTTLCache K V) :
  async_ok c -> (forall c' now, async_ok c' -> async_ok (snd (f c' now))) ->
  async_ok (snd (ac_with_now c tick f)).
Proof.
  intros Hok Hf. unfold ac_with_now. destruct tick as [t|]; [|done]. cbn.
  by apply Hf, ac_tick_ok.
Qed.

Lemma ac_get_ok c key tick : async_ok c -> async_ok (snd (ac_get c key tick)).
Proof.
  intros Hok. apply ac_with_now_ok; [done|]. clear c Hok. intros c now Hok.
  destruct (get_ok (ac_owned_keys c) (ac_state c) key now (ao_wf c Hok)) as [Hwf []].
  destruct (get (ac_state c) key now (ac_owned_keys c)) as [r st]. by apply ac_set_state_ok.
Qed.

Lemma ac_size_ok c tick : async_ok c -> async_ok (snd (ac_size c tick)).
Proof.
  intros Hok. apply ac_with_now_ok; [done|]. clear c Hok. intros c now Hok. cbn.
  destruct (purge_ok _ _ now (ao_wf c Hok)) as (H1 & _ & [] & _). by apply ac_set_state_ok.
Qed.

Lemma ac_stats_ok c tick : async_ok c -> async_ok (snd (ac_stats c tick)).
Proof.
  intros Hok. apply ac_with_now_ok; [done|]. clear c Hok. intros c now Hok. cbn.
  destruct (purge_ok _ _ now (ao_wf c Hok)) as (H1 & _ & [] & _). by apply ac_set_state_ok.
Qed.

(** Changing flights that are in flight: [g] keeps each one's key and leaves it
    running; the active ones stay so unless they were taken out of [active]. *)
Lemma change_flights_ok c fs active :
  async_ok c ->
  (forall i f', fs !! i = Some f' -> exists f, ac_flights c !! i = Some f /\ af_key f' = af_key f /\
     (i ∉ ac_owned c -> f' = f)) ->
  (forall i f, ac_flights c !! i = Some f -> i ∈ ac_owned c ->
     exists f', fs !! i = Some f' /\ af_key f' = af_key f /\
       running (ac_set_active (ac_set_flights c fs) active) i f') ->
  (forall key i, active !! key = Some i -> ac_active c !! key = Some i /\
     exists f', fs !! i = Some f' /\ af_superseded f' = false /\ af_abandoned f' = false) ->
  async_ok (ac_set_active (ac_set_flights c fs) active) /\
  ac_owned_keys (ac_set_active (ac_set_flights c fs) active) = ac_owned_keys c.
Proof.
  intros [] Hback Hown Hact. set (c' := ac_set_active (ac_set_flights c fs) active).
  assert (ac_owned_keys c' = ac_owned_keys c) as Hkeys.
  { apply ac_owned_keys_eq; [done|]. intros i Hi. destruct (ao_owned0 i Hi) as (f & Hf & _).
    destruct (Hown i f Hf Hi) as (f' & Hf' & Hk & _). cbn. rewrite Hf, Hf'. cbn. by rewrite Hk. }
  split; [|done]. constructor; try done.
  - by rewrite Hkeys.
  - intros key i Hi. destruct (Hact key i Hi) as (Ha & f' & Hf' & Hs & Hab). exists f'.
    destruct (ao_active0 key i Ha) as (f & Hf & Hk & _ & _ & Ho).
    destruct (Hown i f Hf Ho) as (f'' & Hf'' & Hk' & _). cbn.
    split; [done|]. split; [congruence|done].
  - intros i Hi. destruct (ao_owned0 i Hi) as (f & Hf & _).
    destruct (Hown i f Hf Hi) as (f' & Hf' & _ & Hr). eauto.
  - intros i f' Hf' Hno. destruct (Hback i f' Hf') as (f & Hf & _ & E). rewrite (E Hno). eauto.
Qed.

Lemma running_change c fs active i f :
  running (ac_set_active (ac_set_flights c fs) active) i f <->
  af_task f = Some TaskRunning /\ 0 <= af_waiters f /\
  (af_abandoned f = true <-> af_waiters f = 0) /\
  (af_abandoned f = false -> af_superseded f = false ->
   active !! af_key f = Some i /\ af_epoch f = clear_epoch (ac_state c)).
Proof. split; [by intros []|]. intros (? & ? & ? & ?). by constructor. Qed.

(** Changing one flight in flight; a flight that stays active is neither
    superseded nor abandoned by it, and the others stay active. *)
Lemma change_one_ok c i f g active :
  async_ok c -> ac_flights c !! i = Some f -> i ∈ ac_owned c -> af_key (g f) = af_key f ->
  running (ac_set_active (ac_set_flights c (alter g i (ac_flights c))) active) i (g f) ->
  (forall key j, active !! key = Some j -> ac_active c !! key = Some j /\
     (j = i -> af_superseded (g f) = false /\ af_abandoned (g f) = false)) ->
  (forall key j, ac_active c !! key = Some j -> j <> i -> active !! key = Some j) ->
  async_ok (ac_set_active (change_flight c i g) active) /\
  ac_owned_keys (ac_set_active (change_flight c i g) active) = ac_owned_keys c.
Proof.
  intros Hok Hf Hi Hk Hr Hsub Hkeep. apply change_flights_ok; [done| | |].
  - intros j f' Hf'. destruct (decide (i = j)) as [->|Hne].
    + rewrite list_lookup_alter_eq, Hf in Hf'. injection Hf' as <-. exists f. split; [done|].
      split; [done|]. by intros Hno.
    + rewrite list_lookup_alter_ne in Hf' by done. eauto.
  - intros j f' Hf' Hj. destruct (decide (i = j)) as [->|Hne].
    + assert (f' = f) as -> by congruence. exists (g f). by rewrite list_lookup_alter_eq, Hf.
    + exists f'. rewrite list_lookup_alter_ne by done. split; [done|]. split; [done|].
      destruct (ao_owned c Hok j Hj) as (f2 & Hf2 & []). assert (f2 = f') as -> by congruence.
      apply running_change. split; [done|]. split; [done|]. split; [done|].
      intros Ha Hs. destruct (ru_active0 Ha Hs) as [Hja He]. split; [|done]. by apply Hkeep.
  - intros key j Hj. destruct (Hsub key j Hj) as [Ha Hsame]. split; [done|].
    destruct (decide (j = i)) as [->|Hne].
    + exists (g f). rewrite list_lookup_alter_eq, Hf. split; [done|]. by apply Hsame.
    + destruct (ao_active c Hok key j Ha) as (f' & Hf' & _ & Hs & Hab & _). exists f'.
      by rewrite list_lookup_alter_ne.
Qed.

Lemma active_key c key i f :
  async_ok c -> ac_active c !! key = Some i -> ac_flights c !! i = Some f -> af_key f = key.
Proof. intros Hok Ha Hf. destruct (ao_active c Hok key i Ha) as (f' & Hf' & ? & _). congruence. Qed.

Lemma ac_supersede_ok c key :
  async_ok c -> async_ok (ac_supersede c key) /\ ac_owned_keys (ac_supersede c key) = ac_owned_keys c.
Proof.
  intros Hok. unfold ac_supersede. destruct (ac_active c !! key) as [i|] eqn:Ea; [|done].
  destruct (ao_active c Hok key i Ea) as (f & Hf & Hk & _ & _ & Hi).
  apply (change_one_ok c i f af_supersede (delete key (ac_active c))); try done.
  - destruct (ao_owned c Hok i Hi) as (f' & Hf' & []). assert (f' = f) as -> by congruence.
    by apply running_change.
  - intros k j [Hne Hj]%lookup_delete_Some. split; [done|]. intros ->.
    destruct Hne. rewrite <-Hk. by eapply active_key.
  - intros k j Hj Hne. rewrite lookup_delete_ne; [done|]. congruence.
Qed.

Lemma ac_set_ok c key v ttl tick : async_ok c -> async_ok (snd (ac_set c key v ttl tick)).
Proof.
  intros Hok. destruct (ac_supersede_ok c key Hok) as [Hs _]. unfold ac_set.
  apply ac_with_now_ok; [done|]. intros c' now Hok'.
  destruct (store_ok _ _ key v ttl now (ao_wf c' Hok')) as (H1 & [] & _). by apply ac_set_state_ok.
Qed.

Lemma ac_invalidate_ok c key tick : async_ok c -> async_ok (snd (ac_invalidate c key tick)).
Proof.
  intros Hok. apply ac_with_now_ok; [done|]. clear c Hok. intros c now Hok.
  destruct (ac_supersede_ok c key Hok) as [Hs _].
  destruct (invalidate_ok _ _ key now (ao_wf _ Hs)) as (H1 & [] & _). cbv zeta.
  destruct (invalidate (ac_state (ac_supersede c key)) key now _) as [removed st]. cbn in *.
  by apply ac_set_state_ok.
Qed.

Lemma alter_all_lookup (ids : list nat) (fs : list (AsyncFlight K V)) i :
  foldr (fun i fs => alter af_supersede i fs) fs ids !! i
  = if decide (i ∈ ids) then af_supersede <$> fs !! i else fs !! i.
Proof.
  induction ids as [|j ids IH]; cbn [foldr].
  - by rewrite decide_False by apply not_elem_of_nil.
  - destruct (decide (j = i)) as [->|Hne].
    + rewrite list_lookup_alter_eq, IH, (decide_True (P := i ∈ i :: ids)) by left.
      destruct (decide (i ∈ ids)); [|done]. by destruct (fs !! i).
    + rewrite list_lookup_alter_ne, IH by done.
      destruct (decide (i ∈ ids)); [by rewrite decide_True by (by right)|].
      rewrite decide_False; [done|]. rewrite not_elem_of_cons. naive_solver.
Qed.

Lemma elem_of_ac_active c i :
  i ∈ snd <$> map_to_list (ac_active c) <-> exists key, ac_active c !! key = Some i.
Proof.
  rewrite list_elem_of_fmap. split.
  - intros ([k j] & -> & Hin). exists k. by apply elem_of_map_to_list.
  - intros (k & Hk). exists (k, i). by rewrite elem_of_map_to_list.
Qed.

Lemma ac_clear_ok c tick : async_ok c -> async_ok (snd (ac_clear c tick)).
Proof.
  intros Hok. apply ac_with_now_ok; [done|]. clear c Hok. intros c now Hok. cbv zeta.
  set (fs := foldr _ _ _).
  assert (forall i, fs !! i = if decide (i ∈ snd <$> map_to_list (ac_active c))
            then af_supersede <$> ac_flights c !! i else ac_flights c !! i) as Hfs.
  { intros i. apply alter_all_lookup. }
  destruct (change_flights_ok c fs ∅ Hok) as [Hok1 Hkeys].
  - intros i f' Hf'. rewrite Hfs in Hf'. destruct (decide _) as [Hin|]; [|eauto].
    destruct (ac_flights c !! i) as [f|] eqn:Ef; [|done]. injection Hf' as <-. exists f.
    split; [done|]. split; [done|]. intros Hno. apply elem_of_ac_active in Hin as (k & Hk).
    by destruct (ao_active c Hok k i Hk) as (? & _ & _ & _ & _ & ?).
  - intros i f Hf Hi. destruct (ao_owned c Hok i Hi) as (f2 & Hf2 & []).
    assert (f2 = f) as -> by congruence. rewrite Hfs. destruct (decide _) as [Hin|Hnin].
    + exists (af_supersede f). rewrite Hf. by rewrite running_change.
    + exists f. rewrite running_change. split; [done|]. split; [done|]. split; [done|]. split; [done|].
      split; [done|]. intros Ha Hs. destruct Hnin. apply elem_of_ac_active.
      exists (af_key f). by apply ru_active0.
  - intros key i Hi. by rewrite lookup_empty in Hi.
  - set (c1 := ac_set_active (ac_set_flights c fs) ∅) in *. cbn [snd].
    destruct (clear_ok _ _ (ao_wf _ Hok1)) as (H1 & _ & _). destruct Hok1. constructor; try done.
    intros i Hi. destruct (ao_owned0 i Hi) as (f & Hf & []). exists f. split; [done|].
    constructor; try done. intros Ha Hs. by destruct (ru_active0 Ha Hs).
Qed.

(** Changing a flight that has ended. *)
Lemma change_ended_ok c i g :
  async_ok c -> i ∉ ac_owned c -> (forall f, af_task (g f) = af_task f) ->
  async_ok (change_flight c i g).
Proof.
  intros [] Hi Hg. assert (forall j, j ∈ ac_owned c -> ac_flights (change_flight c i g) !! j = ac_flights c !! j)
    as Hsame by (intros j Hj; cbn; rewrite list_lookup_alter_ne; [done|by intros ->]).
  constructor; try done.
  - rewrite (ac_owned_keys_eq c); [done|done|]. intros j Hj. by rewrite Hsame.
  - intros key j Hj. destruct (ao_active0 key j Hj) as (f & Hf & ? & ? & ? & Ho). exists f.
    by rewrite Hsame.
  - intros j Hj. destruct (ao_owned0 j Hj) as (f & Hf & []). exists f. by rewrite Hsame.
  - intros j f Hf Hno. cbn in Hf. destruct (decide (i = j)) as [->|Hne].
    + rewrite list_lookup_alter_eq in Hf. destruct (ac_flights c !! j) as [f0|] eqn:E; [|done].
      injection Hf as <-. rewrite Hg. eauto.
    + rewrite list_lookup_alter_ne in Hf by done. eauto.
Qed.

Lemma ac_deactivate_active c i key :
  ac_active (ac_deactivate c i key)
  = if decide (ac_active c !! key = Some i) then delete key (ac_active c) else ac_active c.
Proof. unfold ac_deactivate. by destruct (decide _). Qed.

Lemma ac_deactivate_eq c i key :
  ac_deactivate c i key = ac_set_active c (ac_active (ac_deactivate c i key)).
Proof. unfold ac_deactivate. destruct (decide _); [done|]. by destruct c. Qed.

(** No key's active flight is the one that was taken out. *)
Lemma deactivated c i f key j :
  async_ok c -> ac_flights c !! i = Some f ->
  ac_active (ac_deactivate c i (af_key f)) !! key = Some j -> ac_active c !! key = Some j /\ j <> i.
Proof.
  intros Hok Hf. rewrite ac_deactivate_active. destruct (decide _) as [Hd|Hd].
  - intros [Hne Hj]%lookup_delete_Some. split; [done|]. intros ->.
    destruct Hne. by eapply active_key.
  - intros Hj. split; [done|]. intros ->. apply Hd. by rewrite (active_key c key i f Hok Hj Hf).
Qed.

Lemma deactivated_keeps c i key k j :
  ac_active c !! k = Some j -> j <> i -> ac_active (ac_deactivate c i key) !! k = Some j.
Proof.
  intros Hj Hne. rewrite ac_deactivate_active. destruct (decide _) as [Hd|]; [|done].
  rewrite lookup_delete_ne; [done|]. intros ->. congruence.
Qed.

(** A flight ends after its publication changed the state to [st]. *)
Lemma retire_done_ok c st i f t :
  async_ok c -> ac_flights c !! i = Some f -> i ∈ ac_owned c ->
  well_formed (ac_owned_keys c) st -> clear_epoch st = clear_epoch (ac_state c) ->
  t <> Some TaskRunning ->
  async_ok (change_flight (ac_retire (ac_set_state c st) i (af_key f)) i (fun f => af_set_task f t)).
Proof.
  intros Hok Hf Hi Hwf He Ht. pose proof Hok as [].
  set (c' := change_flight _ _ _).
  assert (ac_active c' = ac_active (ac_deactivate c i (af_key f))) as Ha'.
  { unfold c', ac_retire, ac_deactivate. cbn. by destruct (decide _). }
  assert (ac_owned c' = filter (fun j => j <> i) (ac_owned c)) as Ho'.
  { unfold c', ac_retire, ac_deactivate. cbn. by destruct (decide _). }
  assert (ac_flights c' = alter (fun f => af_set_task f t) i (ac_flights c)) as Hf'.
  { unfold c', ac_retire, ac_deactivate. cbn. by destruct (decide _). }
  assert (ac_max_inflight c' = ac_max_inflight c) as Hm'.
  { unfold c', ac_retire, ac_deactivate. cbn. by destruct (decide _). }
  assert (ac_state c' = drop_unused_version st (af_key f) (ac_owned_keys c')) as Hst'.
  { unfold c'. rewrite alter_key_same by done. unfold ac_retire, ac_deactivate. cbn.
    by destruct (decide _). }
  clearbody c'.
  assert (forall j, j <> i -> ac_flights c' !! j = ac_flights c !! j) as Hfs.
  { intros j Hj. rewrite Hf'. by apply list_lookup_alter_ne. }
  assert (ac_owned_keys c ⊆ {[af_key f]} ∪ ac_owned_keys c') as Hsub.
  { intros k Hk. apply elem_of_ac_owned_keys in Hk as (j & fj & Hj & Hfj & <-).
    destruct (decide (j = i)) as [->|Hne].
    - apply elem_of_union_l, elem_of_singleton. congruence.
    - apply elem_of_union_r, elem_of_ac_owned_keys. exists j, fj. rewrite Hfs, Ho' by done.
      split; [by apply list_elem_of_filter|done]. }
  constructor.
  - rewrite Hst'. by eapply release_key_ok.
  - rewrite Ho'. by apply NoDup_filter.
  - rewrite Ho', Hm'. pose proof (length_filter (fun j => j <> i) (ac_owned c)). lia.
  - intros k j Hj. rewrite Ha' in Hj. destruct (deactivated c i f k j Hok Hf Hj) as [Hj' Hne].
    destruct (ao_active0 k j Hj') as (fj & Hfj & Hk & Hs & Hab & Ho). exists fj.
    rewrite Hfs, Ho' by done. do 4 (split; [done|]). by apply list_elem_of_filter.
  - intros j Hj. rewrite Ho' in Hj. apply list_elem_of_filter in Hj as [Hne Hj].
    destruct (ao_owned0 j Hj) as (fj & Hfj & []). exists fj. rewrite Hfs by done.
    split; [done|]. constructor; try done. intros Hab Hs. destruct (ru_active0 Hab Hs) as [Hja Hep].
    destruct (drop_unused_frame (ac_owned_keys c') st (af_key f)) as [_ F2 _ _].
    rewrite Ha', Hst', F2, He. split; [by apply deactivated_keeps|done].
  - intros j fj Hj Hno. destruct (decide (j = i)) as [->|Hne].
    + rewrite Hf', list_lookup_alter_eq, Hf in Hj. by injection Hj as <-.
    + rewrite Hfs in Hj by done. apply (ao_ended0 j fj Hj). intros Hin. apply Hno.
      rewrite Ho'. by apply list_elem_of_filter.
Qed.

(** What a publication changes. *)
Lemma complete_state c i f p tick :
  async_ok c -> exists r st,
    complete_async_flight c i f p tick = (r, ac_retire (ac_set_state c st) i (af_key f)) /\
    well_formed (ac_owned_keys c) st /\ clear_epoch st = clear_epoch (ac_state c).
Proof.
  intros Hok. assert (forall r, exists r0 st, (r : outcome unit, ac_retire c i (af_key f))
      = (r0, ac_retire (ac_set_state c st) i (af_key f)) /\
    well_formed (ac_owned_keys c) st /\ clear_epoch st = clear_epoch (ac_state c)) as Hsame.
  { intros r. exists r, (ac_state c). split; [by destruct c|]. split; [by apply ao_wf|done]. }
  unfold complete_async_flight. destruct p as [v|]; [|apply Hsame].
  destruct tick as [t|e]; [|apply Hsame]. cbn.
  set (c1 := ac_set_state c (set_last_tick (ac_state c) (Z.max (last_tick (ac_state c)) t))).
  assert (async_ok c1) as Hok1 by by apply ac_tick_ok.
  destruct (store_ok _ _ (af_key f) v (af_ttl_ns f) (Z.max (last_tick (ac_state c)) t)
    (ao_wf c1 Hok1)) as (H1 & [] & _).
  eexists _, _. split; [done|]. split; [exact H1|done].
Qed.

Lemma finish_load_ok c i loaded tick :
  async_ok c -> i ∈ ac_owned c -> async_ok (snd (finish_load c i loaded tick)).
Proof.
  intros Hok Hi. unfold finish_load. destruct (ao_owned c Hok i Hi) as (f & Hf & _). rewrite Hf.
  destruct loaded as [v|e].
  - destruct (complete_state c i f (if ac_can_publish c i f then Some v else None) tick Hok)
      as (r & st & -> & Hwf & He).
    destruct r; cbn [snd]; by apply retire_done_ok.
  - destruct (complete_state (ac_count c count_load_failure) i f None tick) as (r & st & -> & Hwf & He);
      [by apply ac_count_ok|].
    cbn [snd]. change (ac_set_state (ac_count c count_load_failure) st) with (ac_set_state c st).
    by apply retire_done_ok.
Qed.

Lemma bump_version_ok (owned : gset K) (st : CacheState K V) key :
  well_formed owned st -> key ∈ owned -> well_formed owned (snd (bump_version st key)).
Proof.
  intros [[] Hb] Hk. split; [|done]. constructor; cbn; try done.
  - intros k e Hin. destruct (ok_versions k e Hin) as (n & Hn & Hle).
    destruct (decide (key = k)) as [->|Hne].
    + rewrite lookup_insert_eq. eexists. split; [done|]. unfold get_version. rewrite Hn. cbn. lia.
    + rewrite lookup_insert_ne by done. eauto.
  - intros k Hs. destruct (decide (key = k)) as [->|Hne]; [by left|].
    rewrite lookup_insert_ne in Hs by done. auto.
Qed.

(** What a release finds: the flight's waiters after it left. *)
Lemma release_shape c i f :
  ac_flights c !! i = Some f ->
  release_waiter_locked c i =
  let g f := af_set_waiters f (af_waiters f - 1) in
  let done := match af_task f with Some (TaskDone _) => true | _ => false end in
  if negb (af_waiters f - 1 =? 0) || done then (None, change_flight c i g)
  else
    let c2 := ac_set_active (change_flight c i (fun f => af_abandon (g f)))
                (ac_active (ac_deactivate c i (af_key f))) in
    (Some i, ac_set_state c2 (snd (bump_version (ac_state c) (af_key f)))).
Proof.
  intros Hf. unfold release_waiter_locked. cbn [change_flight ac_set_flights ac_flights].
  rewrite list_lookup_alter_eq, Hf. cbn [fmap option_fmap option_map]. cbv zeta.
  cbn [af_set_waiters af_waiters af_task af_key].
  destruct (negb (af_waiters f - 1 =? 0) || _); [done|]. f_equal.
  rewrite ac_deactivate_eq, !ac_deactivate_active. unfold bump_version. cbn.
  unfold change_flight. cbn. unfold ac_set_active, ac_set_flights, ac_set_state. cbn.
  f_equal. by rewrite alter_alter.
Qed.

Lemma release_waiter_ok c i f :
  async_ok c -> ac_flights c !! i = Some f -> 1 <= af_waiters f -> af_task f <> None ->
  async_ok (snd (release_waiter_locked c i)).
Proof.
  intros Hok Hf Hw Ht. rewrite (release_shape c i f Hf). cbv zeta.
  destruct (decide (i ∈ ac_owned c)) as [Hi|Hi].
  - destruct (ao_owned c Hok i Hi) as (f' & Hf' & []). assert (f' = f) as -> by congruence.
    rewrite ru_task0, orb_false_r. destruct (Z.eqb_spec (af_waiters f - 1) 0) as [Hz|Hnz]; cbn [negb snd].
    + set (g := fun f0 : AsyncFlight K V => af_abandon (af_set_waiters f0 (af_waiters f0 - 1))).
      set (active := ac_active (ac_deactivate c i (af_key f))).
      destruct (change_one_ok c i f g active Hok Hf Hi) as [Hok2 Hkeys]; [done| | |..].
      * apply running_change. cbn. split; [done|]. split; [lia|]. split; [by rewrite Hz|done].
      * intros key j Hj. destruct (deactivated c i f key j Hok Hf Hj) as [? ?]. by split.
      * intros key j. apply deactivated_keeps.
      * apply ac_set_state_ok; [done| |done]. apply bump_version_ok.
        -- exact (ao_wf _ Hok2).
        -- rewrite Hkeys. apply elem_of_ac_owned_keys. eauto.
    + set (g := fun f0 : AsyncFlight K V => af_set_waiters f0 (af_waiters f0 - 1)).
      destruct (change_one_ok c i f g (ac_active c) Hok Hf Hi) as [Hok2 _]; [done| | |done|].
      * apply running_change. cbn. split; [done|]. split; [lia|].
        split; [|done]. rewrite ru_abandoned0. lia.
      * intros key j Hj. split; [done|]. intros ->.
        destruct (ao_active c Hok key i Hj) as (f2 & Hf2 & _ & ? & ? & _).
        by assert (f2 = f) as -> by congruence.
      * by destruct c.
  - pose proof (ao_ended c Hok i f Hf Hi) as He. destruct (af_task f) as [[|r]|]; try done.
    rewrite orb_true_r. by apply change_ended_ok.
Qed.

Lemma join_ok c key i :
  async_ok c -> ac_active c !! key = Some i ->
  async_ok (change_flight c i (fun f => af_set_waiters f (af_waiters f + 1))).
Proof.
  intros Hok Ha. destruct (ao_active c Hok key i Ha) as (f & Hf & Hk & Hs & Hab & Hi).
  destruct (ao_owned c Hok i Hi) as (f' & Hf' & []). assert (f' = f) as -> by congruence.
  assert (af_waiters f <> 0) as Hw by (intros E; apply ru_abandoned0 in E; congruence).
  set (g := fun f0 : AsyncFlight K V => af_set_waiters f0 (af_waiters f0 + 1)).
  destruct (change_one_ok c i f g (ac_active c) Hok Hf Hi) as [Hok2 _]; [done| | |done|].
  - apply running_change. cbn. split; [done|]. split; [lia|]. split; [|done].
    rewrite Hab. split; [done|lia].
  - intros k j Hj. split; [done|]. by intros ->.
  - by destruct c.
Qed.

(** The cache once a new flight is in place and its task runs. *)
Definition with_flight c f : AsyncTTLCache K V :=
  let i := length (ac_flights c) in
  ac_set_owned (ac_set_active (ac_set_flights c (ac_flights c ++ [f]))
    (<[af_key f := i]> (ac_active c))) (ac_owned c ++ [i]).

Lemma with_flight_ok c f :
  async_ok c -> ac_active c !! af_key f = None -> Z.of_nat (length (ac_owned c)) < ac_max_inflight c ->
  af_task f = Some TaskRunning -> af_waiters f = 1 -> af_abandoned f = false ->
  af_superseded f = false -> af_epoch f = clear_epoch (ac_state c) -> async_ok (with_flight c f).
Proof.
  intros Hok Ha Hroom Ht Hw Hab Hs He. pose proof Hok as []. unfold with_flight. cbv zeta.
  set (i := length (ac_flights c)).
  assert (forall j, j ∈ ac_owned c -> (ac_flights c ++ [f]) !! j = ac_flights c !! j) as Hold.
  { intros j Hj. destruct (ao_owned0 j Hj) as (fj & Hfj & _).
    apply lookup_app_l. by eapply lookup_lt_Some. }
  assert (i ∉ ac_owned c) as Hnew.
  { intros Hj. destruct (ao_owned0 _ Hj) as (fj & Hfj & _). apply lookup_lt_Some in Hfj. lia. }
  assert ((ac_flights c ++ [f]) !! i = Some f) as Hlast.
  { unfold i. by rewrite lookup_app_r, Nat.sub_diag by lia. }
  constructor; cbn [ac_max_inflight ac_active ac_owned ac_flights ac_state ac_set_active
    ac_set_flights ac_set_owned].
  - eapply well_formed_owned; [|exact ao_wf0]. intros k Hk.
    apply elem_of_ac_owned_keys in Hk as (j & fj & Hj & Hfj & <-). apply elem_of_ac_owned_keys.
    exists j, fj. cbn. split; [apply elem_of_app; by left|]. by rewrite Hold.
  - apply NoDup_app. split; [done|]. split; [|apply NoDup_singleton].
    intros j Hj Hin. apply list_elem_of_singleton in Hin as ->. done.
  - rewrite length_app. cbn. lia.
  - intros k j Hj. destruct (decide (af_key f = k)) as [<-|Hne].
    + rewrite lookup_insert_eq in Hj. injection Hj as <-. exists f.
      do 4 (split; [done|]). apply elem_of_app. right. by left.
    + rewrite lookup_insert_ne in Hj by done.
      destruct (ao_active0 k j Hj) as (fj & Hfj & Hk & Hsj & Habj & Ho).
      exists fj. rewrite Hold by done. do 4 (split; [done|]). apply elem_of_app. by left.
  - intros j Hj. apply elem_of_app in Hj as [Hj|Hj].
    + destruct (ao_owned0 j Hj) as (fj & Hfj & []). exists fj. rewrite Hold by done.
      split; [done|]. constructor; try done. intros Habj Hsj.
      destruct (ru_active0 Habj Hsj) as [Hja Hep]. split; [|done]. cbn.
      rewrite lookup_insert_ne; [done|]. intros E. rewrite <-E in Hja. congruence.
    + apply list_elem_of_singleton in Hj as ->. exists f. split; [done|].
      constructor; try done; [lia| |].
      * rewrite Hab, Hw. split; [done|lia].
      * intros _ _. cbn. by rewrite lookup_insert_eq.
  - intros j fj Hj Hno. destruct (decide (j < i)%nat) as [Hlt|Hge].
    + rewrite lookup_app_l in Hj by done. apply (ao_ended0 j fj Hj).
      intros Hin. apply Hno. apply elem_of_app. by left.
    + destruct (decide (j = i)) as [->|Hne].
      * destruct Hno. apply elem_of_app. right. by left.
      * rewrite lookup_ge_None_2 in Hj; [done|]. rewrite length_app. cbn. lia.
Qed.

(** ** Callers

    What a caller sees of a flight: its task, its waiters, whether it was
    abandoned. *)
Definition flight_view f : option (load_task V) * Z * bool :=
  (af_task f, af_waiters f, af_abandoned f).

Definition views c : list (option (load_task V) * Z * bool) := flight_view <$> ac_flights c.

(** The callers are those that await a load, by its flight; the loads asked to
    cancel are the abandoned ones, once each. *)
Record callers_ok (vs : list (option (load_task V) * Z * bool)) (callers cancelled : list nat) : Prop := {
  ca_waiters i t w b : vs !! i = Some (Some t, w, b) -> w = count (Nat.eqb i) callers;
  ca_awaits i : i ∈ callers -> exists t w b, vs !! i = Some (Some t, w, b);
  ca_nobody i t w : vs !! i = Some (t, w, true) -> w = 0;
  ca_cancelled i : i ∈ cancelled <-> exists t w, vs !! i = Some (t, w, true);
  ca_once : NoDup cancelled;
}.

(** The cache with its callers, and the cancellations of loads so far. *)
Record system : Type := {
  sy_cache : AsyncTTLCache K V;
  sy_callers : list nat;
  sy_cancelled : list nat;
}.

Definition system_ok (s : system) : Prop :=
  async_ok (sy_cache s) /\ callers_ok (views (sy_cache s)) (sy_callers s) (sy_cancelled s).

Lemma views_lookup c i f : ac_flights c !! i = Some f -> views c !! i = Some (flight_view f).
Proof. intros Hf. unfold views. by rewrite list_lookup_fmap, Hf. Qed.

Lemma views_inv c i v : views c !! i = Some v -> exists f, ac_flights c !! i = Some f /\ v = flight_view f.
Proof.
  unfold views. rewrite list_lookup_fmap. destruct (ac_flights c !! i) as [f|]; [|done].
  intros [= <-]. eauto.
Qed.

(** The new flight of a section that begins a load. *)
Definition new_flight c key ttl : AsyncFlight K V := {|
  af_key := key; af_epoch := clear_epoch (ac_state c); af_version := get_version (ac_state c) key;
  af_ttl_ns := ttl; af_sequence := ac_sequence c; af_task := None; af_waiters := 1;
  af_abandoned := false; af_superseded := false;
|}.

Lemma ac_begin_shape c key ttl tick :
  let c1 := snd (ac_get c key tick) in
  match ac_begin c key ttl tick with
  | (Returned (Join i), c') =>
      ac_active c1 !! key = Some i /\
      c' = ac_count (change_flight c1 i (fun f => af_set_waiters f (af_waiters f + 1))) count_coalesced
  | (Returned (Begin i), c') =>
      let c2 := ac_set_sequence c1 (ac_sequence c1 + 1) in
      ac_active c1 !! key = None /\ Z.of_nat (length (ac_owned c1)) < ac_max_inflight c1 /\
      i = length (ac_flights c1) /\ c' = with_flight c2 (new_flight c2 key ttl)
  | (Returned (AsyncHit _), c') => c' = c1
  | (Raised _, c') => c' = c1 \/ c' = ac_count c1 count_load_rejection
  end.
Proof.
  unfold ac_begin. destruct (ac_get c key tick) as [[v|e] c1]; cbn [snd]; [done|].
  destruct e; try (by left). destruct (ac_active c1 !! key) as [i|] eqn:Ea; [by split|].
  destruct (Z.leb_spec (ac_max_inflight c1) (Z.of_nat (length (ac_owned c1)))); [by right|].
  done.
Qed.

Lemma sequence_ok c n : async_ok c -> async_ok (ac_set_sequence c n).
Proof.
  intros []. constructor; try done. intros i Hi.
  destruct (ao_owned0 i Hi) as (f & Hf & []). exists f. split; [done|]. by constructor.
Qed.

(** [task_created] and [task_not_created] after a section that began a load. *)
Definition started c key ttl (t : load_task V) : AsyncTTLCache K V :=
  with_flight c (af_set_task (new_flight c key ttl) (Some t)).

Lemma created_eq c key ttl :
  task_created (with_flight c (new_flight c key ttl)) (length (ac_flights c))
  = ac_count (started c key ttl TaskRunning) count_load.
Proof.
  unfold task_created, started, with_flight. cbv zeta. f_equal. unfold change_flight. cbn.
  by rewrite alter_last.
Qed.

Lemma started_ok c key ttl :
  async_ok c -> ac_active c !! key = None -> Z.of_nat (length (ac_owned c)) < ac_max_inflight c ->
  async_ok (started c key ttl TaskRunning).
Proof. intros Hok Ha Hroom. by apply with_flight_ok. Qed.

Lemma not_created_eq c key ttl :
  let d := started c key ttl TaskRunning in
  let i := length (ac_flights c) in
  task_not_created (with_flight c (new_flight c key ttl)) i
  = change_flight (ac_retire (ac_set_state d (ac_state d)) i key) i (fun f => af_set_task f None).
Proof.
  intros d i. unfold task_not_created.
  assert (ac_flights (with_flight c (new_flight c key ttl)) !! i = Some (new_flight c key ttl)) as ->.
  { cbn. unfold i. by rewrite lookup_app_r, Nat.sub_diag by lia. }
  cbn [complete_async_flight snd af_key new_flight]. subst d. unfold ac_retire, ac_deactivate.
  unfold started, with_flight. cbn. rewrite !lookup_insert_eq. rewrite !decide_True by done. cbn.
  unfold change_flight, ac_set_flights, ac_set_state, ac_set_owned, ac_set_active. cbn. fold i.
  set (g := af_set_task (new_flight c key ttl) (Some TaskRunning)).
  assert (alter (fun f => af_set_task f None) i (ac_flights c ++ [g])
          = ac_flights c ++ [new_flight c key ttl]) as -> by (unfold i; by rewrite alter_last).
  assert (forall l : list nat, omap (fun j => af_key <$> (ac_flights c ++ [new_flight c key ttl]) !! j) l
    = omap (fun j => af_key <$> (ac_flights c ++ [g]) !! j) l) as Hkeys.
  { induction l as [|j l IH]; [done|]. cbn. rewrite IH.
    destruct (decide (j < length (ac_flights c))%nat).
    - by rewrite !lookup_app_l by done.
    - rewrite !lookup_app_r by lia. by destruct (j - length (ac_flights c))%nat. }
  unfold ac_owned_keys. cbn. by rewrite Hkeys.
Qed.

Lemma not_created_ok c key ttl :
  async_ok c -> ac_active c !! key = None -> Z.of_nat (length (ac_owned c)) < ac_max_inflight c ->
  async_ok (task_not_created (with_flight c (new_flight c key ttl)) (length (ac_flights c))).
Proof.
  intros Hok Ha Hroom. rewrite not_created_eq. cbv zeta.
  set (f := af_set_task (new_flight c key ttl) (Some TaskRunning)).
  set (d := started c key ttl TaskRunning).
  assert (async_ok d) as Hd by by apply started_ok.
  apply (retire_done_ok d (ac_state d) _ f); try done.
  - cbn. by rewrite lookup_app_r, Nat.sub_diag by lia.
  - cbn. apply elem_of_app. right. by left.
  - by apply ao_wf.
Qed.

(** ** One step of the event loop *)

Definition with_cache (s : system) c : system :=
  {| sy_cache := c; sy_callers := sy_callers s; sy_cancelled := sy_cancelled s |}.

(** The section of [get_or_load], with the creation of the task. *)
Definition load_section (s : system) key ttl (tick : outcome Z) (created : bool) : system :=
  match ac_begin (sy_cache s) key ttl tick with
  | (Returned (Join i), c) =>
      {| sy_cache := c; sy_callers := i :: sy_callers s; sy_cancelled := sy_cancelled s |}
  | (Returned (Begin i), c) =>
      if created then
        {| sy_cache := task_created c i; sy_callers := i :: sy_callers s;
           sy_cancelled := sy_cancelled s |}
      else with_cache s (task_not_created c i)
  | (_, c) => with_cache s c
  end.

(** A caller of the load [i] leaves; [callers] are the others. *)
Definition leave_section (s : system) (i : nat) (callers : list nat) : system :=
  let '(task, c) := release_waiter_locked (sy_cache s) i in
  {| sy_cache := c; sy_callers := callers;
     sy_cancelled := match task with Some t => t :: sy_cancelled s | None => sy_cancelled s end |}.

Inductive async_step : system -> system -> Prop :=
| as_get s key tick : async_step s (with_cache s (snd (ac_get (sy_cache s) key tick)))
| as_set s key v ttl tick : async_step s (with_cache s (snd (ac_set (sy_cache s) key v ttl tick)))
| as_invalidate s key tick : async_step s (with_cache s (snd (ac_invalidate (sy_cache s) key tick)))
| as_clear s tick : async_step s (with_cache s (snd (ac_clear (sy_cache s) tick)))
| as_stats s tick : async_step s (with_cache s (snd (ac_stats (sy_cache s) tick)))
| as_size s tick : async_step s (with_cache s (snd (ac_size (sy_cache s) tick)))
| as_load s key ttl tick created : async_step s (load_section s key ttl tick created)
| as_finish s i loaded tick : i ∈ ac_owned (sy_cache s) ->
    async_step s (with_cache s (snd (finish_load (sy_cache s) i loaded tick)))
| as_leave s i callers : sy_callers s ≡ₚ i :: callers -> async_step s (leave_section s i callers).

(** *** The views of the flights *)

Lemma views_change c i g g' :
  (forall f, flight_view (g f) = g' (flight_view f)) -> views (change_flight c i g) = alter g' i (views c).
Proof. apply fmap_alter. Qed.

Lemma views_change_same c i g :
  (forall f, flight_view (g f) = flight_view f) -> views (change_flight c i g) = views c.
Proof. intros Hg. rewrite (views_change c i g (fun v => v)) by done. by apply list_alter_id. Qed.

Lemma views_flights c c' : ac_flights c' = ac_flights c -> views c' = views c.
Proof. unfold views. by intros ->. Qed.

Lemma ac_with_now_views {A} c tick (f : AsyncTTLCache K V -> Z -> outcome A * AsyncTTLCache K V) :
  (forall c' now, views (snd (f c' now)) = views c') -> views (snd (ac_with_now c tick f)) = views c.
Proof. intros Hf. unfold ac_with_now. destruct tick; [|done]. cbn. by rewrite Hf. Qed.

Lemma ac_get_flights c key tick : ac_flights (snd (ac_get c key tick)) = ac_flights c.
Proof.
  unfold ac_get, ac_with_now. destruct tick; [|done]. cbn.
  by destruct (get _ key _ _).
Qed.

Lemma ac_supersede_views c key : views (ac_supersede c key) = views c.
Proof.
  unfold ac_supersede. destruct (ac_active c !! key); [|done].
  by apply (views_change_same (ac_set_active c (delete key (ac_active c)))).
Qed.

Lemma ac_set_views c key v ttl tick : views (snd (ac_set c key v ttl tick)) = views c.
Proof. unfold ac_set. rewrite ac_with_now_views by done. apply ac_supersede_views. Qed.

Lemma ac_invalidate_views c key tick : views (snd (ac_invalidate c key tick)) = views c.
Proof.
  apply ac_with_now_views. intros c' now. cbv zeta. rewrite <-(ac_supersede_views c' key).
  by destruct (invalidate _ key now _).
Qed.

Lemma ac_clear_views c tick : views (snd (ac_clear c tick)) = views c.
Proof.
  apply ac_with_now_views. intros c' now. unfold views. cbn.
  induction (snd <$> map_to_list (ac_active c')) as [|i l IH]; [done|]. cbn.
  rewrite <-IH. rewrite (fmap_alter flight_view af_supersede (fun v => v)) by done.
  by apply list_alter_id.
Qed.

Lemma complete_flights c i f p tick :
  ac_flights (snd (complete_async_flight c i f p tick)) = ac_flights c.
Proof.
  unfold complete_async_flight.
  assert (forall c' : AsyncTTLCache K V, ac_flights (ac_retire c' i (af_key f)) = ac_flights c') as Hr.
  { intros c'. unfold ac_retire, ac_deactivate. cbn. by destruct (decide _). }
  destruct p as [v|]; [|apply Hr]. unfold ac_with_now. destruct tick; cbn -[ac_retire]; by rewrite Hr.
Qed.

(** The end of a load marks its task done, and nothing else of the flights. *)
Lemma finish_load_flights c i f loaded tick :
  ac_flights c !! i = Some f ->
  ac_flights (snd (finish_load c i loaded tick))
  = alter (fun f => af_set_task f (Some (TaskDone (fst (finish_load c i loaded tick))))) i (ac_flights c).
Proof.
  intros Hf. unfold finish_load. rewrite Hf. destruct loaded as [v|e].
  - pose proof (complete_flights c i f (if ac_can_publish c i f then Some v else None) tick) as Hc.
    destruct (complete_async_flight c i f _ tick) as [[u|e] c']; cbn in *; by rewrite Hc.
  - pose proof (complete_flights (ac_count c count_load_failure) i f None tick) as Hc.
    destruct (complete_async_flight _ i f None tick) as [r c']; cbn in *; by rewrite Hc.
Qed.

(** *** The callers *)

Implicit Types (vs : list (option (load_task V) * Z * bool)).

Lemma lookup_alter_inv {A} (g : A -> A) i j (l : list A) y :
  alter g i l !! j = Some y ->
  exists x, l !! j = Some x /\ y = if decide (i = j) then g x else x.
Proof.
  destruct (decide (i = j)) as [->|Hne].
  - rewrite list_lookup_alter_eq. destruct (l !! j) as [x|]; [|done]. intros [= <-]. eauto.
  - rewrite list_lookup_alter_ne by done. eauto.
Qed.

Lemma lookup_alter_some {A} (g : A -> A) i j (l : list A) x :
  l !! j = Some x -> alter g i l !! j = Some (if decide (i = j) then g x else x).
Proof.
  intros Hl. destruct (decide (i = j)) as [->|Hne].
  - by rewrite list_lookup_alter_eq, Hl.
  - by rewrite list_lookup_alter_ne.
Qed.

(** A change of one flight's task and waiters, that leaves who was abandoned. *)
Lemma callers_alter vs callers callers' cancelled i g :
  callers_ok vs callers cancelled ->
  (forall v, (g v).2 = v.2) ->
  (forall v t w b, vs !! i = Some v -> g v = (Some t, w, b) -> w = count (Nat.eqb i) callers' /\ b = false
     \/ w = count (Nat.eqb i) callers' /\ w = 0) ->
  (forall v, vs !! i = Some v -> exists t w b, g v = (Some t, w, b)) ->
  (forall j, j <> i -> count (Nat.eqb j) callers' = count (Nat.eqb j) callers) ->
  (forall j, j ∈ callers' -> j = i \/ j ∈ callers) ->
  is_Some (vs !! i) ->
  callers_ok (alter g i vs) callers' cancelled.
Proof.
  intros [] Hb Hw Ht Hcount Hin Hi. constructor; [| | | |done].
  - intros j t w b (v & Hv & E)%lookup_alter_inv. destruct (decide (i = j)) as [->|Hne].
    + by destruct (Hw v t w b Hv (eq_sym E)) as [[? _]|[? _]].
    + rewrite Hcount by done. subst v. eauto.
  - intros j Hj. destruct (decide (i = j)) as [->|Hne].
    + destruct Hi as [v Hv]. destruct (Ht v Hv) as (t & w & b & E).
      exists t, w, b. by rewrite (lookup_alter_some _ _ _ _ _ Hv), decide_True, E.
    + destruct (Hin j Hj) as [->|Hj']; [done|]. destruct (ca_awaits0 j Hj') as (t & w & b & Hv).
      exists t, w, b. by rewrite (lookup_alter_some _ _ _ _ _ Hv), decide_False.
  - intros j t w (v & Hv & E)%lookup_alter_inv. destruct (decide (i = j)) as [->|Hne].
    + destruct (Ht v Hv) as (t' & w' & b' & E'). rewrite E' in E. injection E as -> -> <-.
      by destruct (Hw v t' w' true Hv E') as [[_ ?]|[_ ?]].
    + subst v. eauto.
  - intros j. rewrite ca_cancelled0. split.
    + intros (t & w & Hv). destruct (g (t, w, true)) as [[t' w'] b'] eqn:E.
      pose proof (Hb (t, w, true)) as Hb'. rewrite E in Hb'. cbn in Hb'. subst b'.
      destruct (decide (i = j)) as [->|Hne].
      * exists t', w'. by rewrite (lookup_alter_some _ _ _ _ _ Hv), decide_True, E.
      * exists t, w. by rewrite (lookup_alter_some _ _ _ _ _ Hv), decide_False.
    + intros (t & w & (v & Hv & E)%lookup_alter_inv). destruct (decide (i = j)) as [->|Hne].
      * destruct v as [[t' w'] b']. pose proof (Hb (t', w', b')) as Hb'. rewrite <-E in Hb'.
        cbn in Hb'. subst b'. eauto.
      * subst v. eauto.
Qed.

Lemma elem_of_count i (l : list nat) : i ∈ l <-> count (Nat.eqb i) l <> 0.
Proof.
  induction l as [|j l IH]; [split; [by inversion 1|done]|].
  rewrite elem_of_cons, count_cons, IH. pose proof (count_nonneg (Nat.eqb i) l).
  destruct (Nat.eqb_spec i j) as [->|Hne]; (split; [|try by left]).
  - lia.
  - intros [->|?]; [done|lia].
  - right. lia.
Qed.

Lemma count_other i j l : j <> i -> count (Nat.eqb j) (i :: l) = count (Nat.eqb j) l.
Proof. intros Hne. rewrite count_cons. destruct (Nat.eqb_spec j i); [done|lia]. Qed.

Lemma count_self i l : count (Nat.eqb i) (i :: l) = 1 + count (Nat.eqb i) l.
Proof. rewrite count_cons. destruct (Nat.eqb_spec i i); [lia|done]. Qed.

Lemma callers_join vs callers cancelled i t w :
  callers_ok vs callers cancelled -> vs !! i = Some (Some t, w, false) ->
  callers_ok (alter (fun v => (v.1.1, v.1.2 + 1, v.2)) i vs) (i :: callers) cancelled.
Proof.
  intros Hok Hi. eapply callers_alter; [exact Hok|done| | | | |by eexists].
  - intros v t' w' b' Hv E. rewrite Hi in Hv. injection Hv as <-. injection E as <- <- <-. left. split; [|done].
    rewrite count_self, (ca_waiters _ _ _ Hok i t w false Hi). cbn. lia.
  - intros v Hv. rewrite Hi in Hv. injection Hv as <-. eauto.
  - intros j Hne. by apply count_other.
  - intros j Hj. apply elem_of_cons in Hj. tauto.
Qed.

Lemma callers_finish vs callers cancelled i t w b r :
  callers_ok vs callers cancelled -> vs !! i = Some (Some t, w, b) ->
  callers_ok (alter (fun v => (Some (TaskDone r), v.1.2, v.2)) i vs) callers cancelled.
Proof.
  intros Hok Hi. eapply callers_alter; [exact Hok|done| | |done|by right|by eexists].
  - intros v t' w' b' Hv E. rewrite Hi in Hv. injection Hv as <-. injection E as <- <- <-. cbn.
    pose proof (ca_waiters _ _ _ Hok i t w b Hi) as Hw. destruct b; [|by left].
    right. split; [done|]. by eapply ca_nobody.
  - intros v Hv. eauto.
Qed.

Lemma callers_append vs callers cancelled v :
  callers_ok vs callers cancelled -> v.2 = false ->
  (forall t w b, v = (Some t, w, b) -> w = 1) ->
  callers_ok (vs ++ [v]) (match v.1.1 with Some _ => [length vs] | None => [] end ++ callers) cancelled.
Proof.
  intros [] Hb Hw.
  assert (forall j, j ∈ callers -> (j < length vs)%nat) as Hlt.
  { intros j Hj. destruct (ca_awaits0 j Hj) as (t & w & b & Hv). by eapply lookup_lt_Some. }
  assert (forall j x, (vs ++ [v]) !! j = Some x -> vs !! j = Some x \/ j = length vs /\ x = v) as Hinv.
  { intros j x Hj. apply lookup_app_Some in Hj as [Hj|[Hle Hj]]; [by left|right].
    destruct (j - length vs)%nat eqn:E; [|done]. injection Hj as <-. split; [lia|done]. }
  assert (count (Nat.eqb (length vs)) callers = 0) as Hzero.
  { apply count_zero, Forall_forall. intros j Hj. apply Nat.eqb_neq. pose proof (Hlt j Hj). lia. }
  assert (forall j, (j < length vs)%nat -> count (Nat.eqb j)
      (match v.1.1 with Some _ => [length vs] | None => [] end ++ callers) = count (Nat.eqb j) callers)
    as Hsame.
  { intros j Hj. destruct (v.1.1); [|done]. cbn. apply count_other. lia. }
  constructor; [| | | |done].
  - intros j t w b [Hj|[-> E]]%Hinv.
    + rewrite Hsame by by eapply lookup_lt_Some. eauto.
    + rewrite <-E. cbn [fst]. rewrite (Hw t w b (eq_sym E)). cbn. by rewrite count_self, Hzero.
  - intros j Hj. apply elem_of_app in Hj as [Hj|Hj].
    + destruct v as [[[t|] w] b]; [|by inversion Hj]. apply list_elem_of_singleton in Hj as ->.
      exists t, w, b. by rewrite lookup_app_r, Nat.sub_diag by lia.
    + destruct (ca_awaits0 j Hj) as (t & w & b & Hv). exists t, w, b. by apply lookup_app_l_Some.
  - intros j t w [Hj|[-> E]]%Hinv; [eauto|]. by subst v.
  - intros j. rewrite ca_cancelled0. split.
    + intros (t & w & Hj). exists t, w. by apply lookup_app_l_Some.
    + intros (t & w & [Hj|[-> E]]%Hinv); [eauto|]. by subst v.
Qed.

(** A caller that leaves a load that goes on. *)
Lemma callers_leave vs callers callers' cancelled i t w b :
  callers_ok vs callers cancelled -> callers ≡ₚ i :: callers' -> vs !! i = Some (Some t, w, b) ->
  b = false /\ w = 1 + count (Nat.eqb i) callers' /\
  callers_ok (alter (fun v => (v.1.1, v.1.2 - 1, v.2)) i vs) callers' cancelled.
Proof.
  intros Hok Hp Hi. pose proof (ca_waiters _ _ _ Hok i t w b Hi) as Hw.
  rewrite (count_perm _ _ _ Hp), count_self in Hw. pose proof (count_nonneg (Nat.eqb i) callers').
  assert (b = false) as ->.
  { destruct b; [|done]. pose proof (ca_nobody _ _ _ Hok i _ _ Hi). lia. }
  split; [done|]. split; [done|]. eapply callers_alter; [exact Hok|done| | | | |by eexists].
  - intros v t' w' b' Hv E. rewrite Hi in Hv. injection Hv as <-. injection E as <- <- <-. left. cbn. split; [lia|done].
  - intros v Hv. rewrite Hi in Hv. injection Hv as <-. eauto.
  - intros j Hne. by rewrite (count_perm _ _ _ Hp), count_other.
  - intros j Hj. right. rewrite Hp. by right.
Qed.

(** The last caller leaves a load before its end. *)
Lemma callers_abandon vs callers' cancelled i t :
  callers_ok vs callers' cancelled -> vs !! i = Some (Some t, 0, false) ->
  callers_ok (alter (fun v => (v.1, true)) i vs) callers' (i :: cancelled).
Proof.
  intros Hok Hi. pose proof Hok as []. constructor.
  - intros j t' w b (v & Hv & E)%lookup_alter_inv. destruct (decide (i = j)) as [->|Hne].
    + rewrite Hi in Hv. injection Hv as <-. injection E as -> -> ->. by eapply ca_waiters0.
    + subst v. eauto.
  - intros j Hj. destruct (ca_awaits0 j Hj) as (t' & w & b & Hv).
    exists t', w, (if decide (i = j) then true else b).
    rewrite (lookup_alter_some _ _ _ _ _ Hv). by destruct (decide (i = j)).
  - intros j t' w (v & Hv & E)%lookup_alter_inv. destruct (decide (i = j)) as [->|Hne].
    + rewrite Hi in Hv. injection Hv as <-. by injection E as -> ->.
    + subst v. eauto.
  - intros j. rewrite elem_of_cons, ca_cancelled0. split.
    + intros [->|(t' & w & Hv)].
      * exists (Some t), 0. by rewrite (lookup_alter_some _ _ _ _ _ Hi), decide_True.
      * exists t', w. rewrite (lookup_alter_some _ _ _ _ _ Hv). by destruct (decide (i = j)).
    + intros (t' & w & (v & Hv & E)%lookup_alter_inv). destruct (decide (i = j)) as [->|Hne]; [by left|].
      right. subst v. eauto.
  - apply NoDup_cons. split; [|done]. rewrite ca_cancelled0. intros (t' & w & Hv). congruence.
Qed.

(** *** Every step keeps the invariant *)

Lemma same_views_ok (s : system) c :
  system_ok s -> async_ok c -> views c = views (sy_cache s) -> system_ok (with_cache s c).
Proof. intros [_ Hc] Hok Hv. split; [done|]. cbn. by rewrite Hv. Qed.

Lemma load_section_ok s key ttl tick created :
  system_ok s -> system_ok (load_section s key ttl tick created).
Proof.
  intros [Hok Hc]. unfold load_section. pose proof (ac_begin_shape (sy_cache s) key ttl tick) as Hsh.
  pose proof (ac_get_ok (sy_cache s) key tick Hok) as Hok1.
  pose proof (ac_get_flights (sy_cache s) key tick) as Hfl.
  set (c1 := snd (ac_get (sy_cache s) key tick)) in *. cbv zeta in Hsh.
  rewrite <-(views_flights _ _ Hfl) in Hc.
  destruct (ac_begin (sy_cache s) key ttl tick) as [[[v|i|i]|e] c'].
  - subst c'. by split.
  - destruct Hsh as [Ha ->]. destruct (ao_active c1 Hok1 key i Ha) as (f & Hf & _ & _ & Hab & Hi).
    destruct (ao_owned c1 Hok1 i Hi) as (f' & Hf' & []). assert (f' = f) as -> by congruence.
    split; cbn [sy_cache sy_callers sy_cancelled]; [by eapply ac_count_ok, join_ok|].
    rewrite (views_flights (change_flight c1 i (fun f => af_set_waiters f (af_waiters f + 1)))) by done.
    rewrite (views_change c1 i _ (fun v => (v.1.1, v.1.2 + 1, v.2))) by done.
    eapply callers_join; [exact Hc|]. rewrite (views_lookup c1 i f Hf). unfold flight_view.
    by rewrite ru_task0, Hab.
  - destruct Hsh as (Ha & Hroom & -> & ->). set (c2 := ac_set_sequence c1 _) in *.
    assert (async_ok c2) as Hok2 by by apply sequence_ok.
    change (ac_flights c1) with (ac_flights c2) in *.
    change (views c1) with (views c2) in Hc.
    assert (length (ac_flights c2) = length (views c2)) as Hlen by (unfold views; by rewrite length_fmap).
    destruct created.
    + rewrite created_eq. split; cbn [sy_cache sy_callers sy_cancelled].
      { by apply ac_count_ok, started_ok. }
      rewrite Hlen. assert (views (ac_count (started c2 key ttl TaskRunning) count_load)
        = views c2 ++ [(Some TaskRunning, 1, false)]) as ->.
      { unfold views. cbn. by rewrite fmap_app. }
      apply (callers_append _ _ _ (Some TaskRunning, 1, false)); [done|done|]. by intros t w b [= _ <- _].
    + split; cbn [sy_cache sy_callers sy_cancelled]; [by apply not_created_ok|]. cbn [with_cache sy_cache].
      assert (views (task_not_created (with_flight c2 (new_flight c2 key ttl)) (length (ac_flights c2)))
        = views c2 ++ [(None, 1, false)]) as ->.
      { unfold task_not_created.
        assert (ac_flights (with_flight c2 (new_flight c2 key ttl)) !! length (ac_flights c2)
                = Some (new_flight c2 key ttl)) as -> by (cbn; by rewrite lookup_app_r, Nat.sub_diag by lia).
        unfold views. rewrite complete_flights. cbn. by rewrite fmap_app. }
      by apply (callers_append _ _ _ (None, 1, false)).
  - destruct Hsh as [-> | ->]; [by split|]. split; [by apply ac_count_ok|exact Hc].
Qed.

Lemma finish_section_ok s i loaded tick :
  system_ok s -> i ∈ ac_owned (sy_cache s) ->
  system_ok (with_cache s (snd (finish_load (sy_cache s) i loaded tick))).
Proof.
  intros [Hok Hc] Hi. destruct (ao_owned _ Hok i Hi) as (f & Hf & []).
  split; [by apply finish_load_ok|]. cbn. unfold views. rewrite (finish_load_flights _ i f) by done.
  set (r := fst _).
  rewrite (fmap_alter flight_view _ (fun v => (Some (TaskDone r), v.1.2, v.2))) by done.
  fold (views (sy_cache s)).
  eapply callers_finish; [exact Hc|]. rewrite (views_lookup _ i f Hf). unfold flight_view.
  by rewrite ru_task0.
Qed.

Lemma leave_section_ok s i callers :
  system_ok s -> sy_callers s ≡ₚ i :: callers -> system_ok (leave_section s i callers).
Proof.
  intros [Hok Hc] Hp.
  destruct (ca_awaits _ _ _ Hc i) as (t & w & b & Hv); [rewrite Hp; by left|].
  destruct (views_inv _ i _ Hv) as (f & Hf & E). unfold flight_view in E. injection E as Et Ew Eb.
  destruct (callers_leave _ _ _ _ i t w b Hc Hp Hv) as (-> & Hw & Hc').
  pose proof (count_nonneg (Nat.eqb i) callers).
  assert (async_ok (snd (release_waiter_locked (sy_cache s) i))) as Hok'.
  { apply (release_waiter_ok _ i f); [done|done|lia|by rewrite <-Et]. }
  unfold leave_section. rewrite (release_shape _ i f Hf) in *. cbv zeta in *. rewrite <-Et, <-Ew in *.
  set (g := fun f0 : AsyncFlight K V => af_set_waiters f0 (af_waiters f0 - 1)) in *.
  destruct (negb (w - 1 =? 0) || _) eqn:Ed; cbn [snd] in Hok'.
  - split; [exact Hok'|]. cbn [sy_cache sy_callers sy_cancelled].
    by rewrite (views_change _ i g (fun v => (v.1.1, v.1.2 - 1, v.2))).
  - split; [exact Hok'|]. cbn [sy_cache sy_callers sy_cancelled].
    set (c2 := ac_set_state _ _).
    assert (views c2 = alter (fun v => (v.1, true)) i
              (alter (fun v => (v.1.1, v.1.2 - 1, v.2)) i (views (sy_cache s)))) as ->.
    { rewrite alter_alter. unfold c2, views. cbn.
      by apply (fmap_alter flight_view _ (fun v => ((v.1.1, v.1.2 - 1), true))). }
    apply orb_false_iff in Ed as [Ez _]. apply negb_false_iff, Z.eqb_eq in Ez.
    apply (callers_abandon _ _ _ i t); [exact Hc'|].
    rewrite list_lookup_alter_eq, Hv. cbn. by rewrite Ez.
Qed.

Lemma async_step_ok s s' : async_step s s' -> system_ok s -> system_ok s'.
Proof.
  intros [] Hs; pose proof Hs as [Hok Hc].
  - apply same_views_ok; [done|by apply ac_get_ok|apply views_flights, ac_get_flights].
  - apply same_views_ok; [done|by apply ac_set_ok|apply ac_set_views].
  - apply same_views_ok; [done|by apply ac_invalidate_ok|apply ac_invalidate_views].
  - apply same_views_ok; [done|by apply ac_clear_ok|apply ac_clear_views].
  - apply same_views_ok; [done|by apply ac_stats_ok|by apply ac_with_now_views].
  - apply same_views_ok; [done|by apply ac_size_ok|by apply ac_with_now_views].
  - by apply load_section_ok.
  - by apply finish_section_ok.
  - by apply leave_section_ok.
Qed.

Lemma reachable_system_ok ttl n k c0 s :
  make_async_cache ttl n k = Returned c0 ->
  rtc async_step {| sy_cache := c0; sy_callers := []; sy_cancelled := [] |} s -> system_ok s.
Proof.
  intros Hm Hr. eapply (rtc_invariant _ system_ok); [apply async_step_ok|exact Hr|].
  split; [by eapply make_async_ok|]. cbn.
  assert (views c0 = []) as ->.
  { unfold make_async_cache in Hm. repeat (case_match; simplify_eq/=; try done). }
  constructor; try done.
  - intros i Hi. inversion Hi.
  - intros i. split; [by inversion 1|]. by intros (? & ? & ?).
  - constructor.
Qed.
End Invariant.

(** ** What the cache guarantees to its callers *)

Section Guarantees.
Context {K V : Type} `{Countable K}.
Implicit Types (s : system (K := K) (V := V)) (c : AsyncTTLCache K V) (i : nat).

(** Cancellation is counted right.  In every interleaving of the sections of
    any tasks, from the constructor on: a load that some caller still awaits has
    not been abandoned and its task was not asked to cancel; a load still in
    flight that nobody awaits was abandoned and asked to cancel; no task is
    asked twice; and the waiters recorded in a flight are exactly its callers. *)
Theorem async_cancellation_counted ttl n k c0 s :
  make_async_cache ttl n k = Returned c0 ->
  rtc async_step {| sy_cache := c0; sy_callers := []; sy_cancelled := [] |} s ->
  NoDup (sy_cancelled s) /\
  (forall i, i ∈ sy_callers s -> i ∉ sy_cancelled s) /\
  (forall i, i ∈ ac_owned (sy_cache s) -> exists f,
     ac_flights (sy_cache s) !! i = Some f /\
     af_waiters f = count (Nat.eqb i) (sy_callers s) /\
     (af_abandoned f = true <-> i ∉ sy_callers s) /\
     (i ∈ sy_cancelled s <-> i ∉ sy_callers s)).
Proof.
  intros Hm Hr. destruct (reachable_system_ok _ _ _ _ _ Hm Hr) as [Hok Hc]. pose proof Hc as [].
  assert (forall i, i ∈ sy_callers s <-> count (Nat.eqb i) (sy_callers s) <> 0) as Hcount.
  { intros i. apply elem_of_count. }
  split; [done|]. split.
  - intros i Hi Hcan. apply ca_cancelled0 in Hcan as (t & w & Hv).
    destruct (ca_awaits0 i Hi) as (t' & w' & b' & Hv'). assert (w = w') as -> by congruence.
    apply Hcount in Hi. apply Hi. rewrite <-(ca_waiters0 i t' w' b' Hv').
    eapply ca_nobody0. exact Hv.
  - intros i Hi. destruct (ao_owned _ Hok i Hi) as (f & Hf & [ru_t ru_w ru_ab _]). exists f. split; [done|].
    pose proof (views_lookup _ i f Hf) as Hv. unfold flight_view in Hv. rewrite ru_t in Hv.
    pose proof (ca_waiters0 _ _ _ _ Hv) as Hw. split; [done|].
    assert (af_abandoned f = true <-> i ∉ sy_callers s) as Hab.
    { rewrite ru_ab, Hcount, Hw. split; [by intros -> ?|].
      intros Hn. destruct (decide (count (Nat.eqb i) (sy_callers s) = 0)); tauto. }
    split; [done|]. rewrite <-Hab, ca_cancelled0. rewrite Hv. split.
    + intros (t & w & E). by injection E.
    + intros ->. eauto.
Qed.

(** The versions remembered are those of entries and of loads in flight. *)
Lemma ac_versions_size c :
  async_ok c ->
  Z.of_nat (base.size (key_versions (ac_state c))) <= max_size (ac_state c) + ac_max_inflight c.
Proof.
  intros [[[] _] _ Hcap _ _ _].
  assert (dom (key_versions (ac_state c))
    ⊆ ac_owned_keys c ∪ list_to_set (entries (ac_state c)).*1) as Hsub.
  { intros k Hk. apply elem_of_dom in Hk. apply elem_of_union.
    destruct (ok_known k Hk); [by left|right]. by apply elem_of_list_to_set. }
  apply subseteq_size in Hsub. rewrite size_dom in Hsub.
  assert (base.size (ac_owned_keys c) <= length (ac_owned c))%nat as Ho.
  { unfold ac_owned_keys. etrans; [apply list_to_set_size|].
    generalize (ac_owned c) as l. induction l as [|i l IH]; cbn; [done|].
    destruct (af_key <$> ac_flights c !! i); cbn; lia. }
  pose proof (list_to_set_size (entries (ac_state c)).*1) as Hl.
  rewrite length_fmap in Hl. rewrite size_union_alt in Hsub.
  pose proof (subseteq_size (list_to_set (entries (ac_state c)).*1 ∖ ac_owned_keys c)
    (list_to_set (entries (ac_state c)).*1 : gset K)
    (subseteq_difference_l _ _ _ (reflexivity _))). lia.
Qed.

(** In every interleaving the asyncio cache stays bounded: at most
    [max_size] entries under distinct keys, at most twice as many heap records,
    at most [max_inflight] loads in flight, abandoned and superseded ones among
    them, and a remembered version only for an entry or a load in flight. *)
Theorem async_cache_bounded ttl n k c0 s :
  make_async_cache ttl n k = Returned c0 ->
  rtc async_step {| sy_cache := c0; sy_callers := []; sy_cancelled := [] |} s ->
  let c := sy_cache s in
  let st := ac_state c in
  NoDup (entries st).*1 /\
  Z.of_nat (length (entries st)) <= max_size st /\
  Z.of_nat (length (expiry_heap st)) <= 2 * max_size st /\
  Z.of_nat (length (ac_owned c)) <= ac_max_inflight c /\
  Z.of_nat (base.size (key_versions st)) <= max_size st + ac_max_inflight c.
Proof.
  intros Hm Hr c st. destruct (reachable_system_ok _ _ _ _ _ Hm Hr) as [Hok _].
  pose proof (ac_versions_size c Hok) as Hv. by destruct Hok as [[[] Hheap] _ Hcap _ _ _].
Qed.

(** *** How flights evolve *)

(** A flight keeps its key; once superseded it stays so. *)
Definition evolves_to (f f' : AsyncFlight K V) : Prop :=
  af_key f' = af_key f /\ (af_superseded f = true -> af_superseded f' = true).

Definition flights_evolve_to c c' : Prop :=
  forall i f, ac_flights c !! i = Some f -> exists f', ac_flights c' !! i = Some f' /\ evolves_to f f'.

#[local] Instance flights_evolve_preorder : PreOrder flights_evolve_to.
Proof.
  split; [by intros c i f Hf; exists f|]. intros c1 c2 c3 H1 H2 i f Hf.
  destruct (H1 i f Hf) as (f' & Hf' & K1 & S1). destruct (H2 i f' Hf') as (f'' & Hf'' & K2 & S2).
  exists f''. split; [done|]. split; [congruence|auto].
Qed.

Lemma evolve_same c c' : ac_flights c' = ac_flights c -> flights_evolve_to c c'.
Proof. intros E i f Hf. exists f. by rewrite E. Qed.

Lemma evolve_change c c' i g :
  ac_flights c' = alter g i (ac_flights c) -> (forall f, evolves_to f (g f)) -> flights_evolve_to c c'.
Proof.
  intros E Hg j f Hf. rewrite E, (lookup_alter_some _ _ _ _ _ Hf). eexists. split; [done|].
  by destruct (decide (i = j)).
Qed.

Lemma evolve_with_now {A} c tick (f : AsyncTTLCache K V -> Z -> outcome A * AsyncTTLCache K V) :
  (forall c' now, flights_evolve_to c' (snd (f c' now))) -> flights_evolve_to c (snd (ac_with_now c tick f)).
Proof.
  intros Hf. unfold ac_with_now. destruct tick; [|done]. cbn. etrans; [|apply Hf]. by apply evolve_same.
Qed.

Lemma evolve_supersede c key : flights_evolve_to c (ac_supersede c key).
Proof.
  unfold ac_supersede. destruct (ac_active c !! key) as [i|]; [|done].
  by eapply (evolve_change _ _ i af_supersede).
Qed.

Lemma evolve_set c key v ttl tick : flights_evolve_to c (snd (ac_set c key v ttl tick)).
Proof.
  unfold ac_set. etrans; [apply (evolve_supersede c key)|]. apply evolve_with_now. intros.
  by apply evolve_same.
Qed.

Lemma evolve_invalidate c key tick : flights_evolve_to c (snd (ac_invalidate c key tick)).
Proof.
  apply evolve_with_now. intros c' now. cbv zeta. etrans; [apply (evolve_supersede c' key)|].
  apply evolve_same. by destruct (invalidate _ key now _).
Qed.

Lemma evolve_clear c tick : flights_evolve_to c (snd (ac_clear c tick)).
Proof.
  apply evolve_with_now. intros c' now i f Hf. cbn. rewrite alter_all_lookup, Hf.
  destruct (decide _); eexists; by split.
Qed.

Lemma evolve_finish c i loaded tick : flights_evolve_to c (snd (finish_load c i loaded tick)).
Proof.
  destruct (ac_flights c !! i) as [f|] eqn:Hf.
  - eapply evolve_change; [by apply finish_load_flights with (f := f)|done].
  - unfold finish_load. by rewrite Hf.
Qed.

Lemma evolve_release c i : flights_evolve_to c (snd (release_waiter_locked c i)).
Proof.
  destruct (ac_flights c !! i) as [f|] eqn:Hf.
  - rewrite (release_shape c i f Hf). cbv zeta. destruct (_ || _); cbn [snd].
    + by eapply evolve_change.
    + by eapply (evolve_change _ _ i (fun f => af_abandon (af_set_waiters f (af_waiters f - 1)))).
  - unfold release_waiter_locked. cbn. rewrite list_lookup_alter_eq, Hf. by eapply evolve_change.
Qed.

Lemma evolve_load s key ttl tick created :
  flights_evolve_to (sy_cache s) (sy_cache (load_section s key ttl tick created)).
Proof.
  unfold load_section. pose proof (ac_begin_shape (sy_cache s) key ttl tick) as Hsh.
  pose proof (ac_get_flights (sy_cache s) key tick) as Hfl. cbv zeta in Hsh.
  set (c1 := snd (ac_get (sy_cache s) key tick)) in *.
  assert (flights_evolve_to (sy_cache s) c1) as H1 by by apply evolve_same.
  etrans; [exact H1|]. destruct (ac_begin (sy_cache s) key ttl tick) as [[[v|i|i]|e] c'].
  - by subst c'.
  - destruct Hsh as [_ ->]. by eapply evolve_change.
  - destruct Hsh as (_ & _ & -> & ->).
    assert (forall c f, flights_evolve_to c (with_flight c f)) as Happ.
    { intros c f j fj Hj. exists fj. split; [by apply lookup_app_l_Some|done]. }
    set (c2 := ac_set_sequence c1 _). change (ac_flights c1) with (ac_flights c2).
    etrans; [exact (Happ c2 (new_flight c2 key ttl))|]. destruct created; cbn [sy_cache with_cache].
    + by eapply evolve_change.
    + apply evolve_same. unfold task_not_created. case_match; [apply complete_flights|done].
  - destruct Hsh as [-> | ->]; by apply evolve_same.
Qed.

Lemma async_step_evolves s s' : async_step s s' -> flights_evolve_to (sy_cache s) (sy_cache s').
Proof.
  intros []; cbn [sy_cache with_cache].
  - apply evolve_same, ac_get_flights.
  - apply evolve_set.
  - apply evolve_invalidate.
  - apply evolve_clear.
  - by apply evolve_with_now; intros; apply evolve_same.
  - by apply evolve_with_now; intros; apply evolve_same.
  - apply evolve_load.
  - apply evolve_finish.
  - unfold leave_section. pose proof (evolve_release (sy_cache s0) i) as He.
    by destruct (release_waiter_locked (sy_cache s0) i).
Qed.

Lemma async_steps_evolve s s' : rtc async_step s s' -> flights_evolve_to (sy_cache s) (sy_cache s').
Proof.
  induction 1 as [|s1 s2 s3 H1 _ IH]; [done|]. etrans; [by apply async_step_evolves|done].
Qed.

(** A section that replaces what is cached under [key]. *)
Definition rewrites c key c1 : Prop :=
  (exists v ttl tick, c1 = snd (ac_set c key v ttl tick)) \/
  (exists t, c1 = snd (ac_invalidate c key (Returned t))) \/
  (exists t, c1 = snd (ac_clear c (Returned t))).

Lemma rewrites_supersedes c key c1 i f :
  async_ok c -> ac_active c !! key = Some i -> ac_flights c !! i = Some f -> rewrites c key c1 ->
  exists f', ac_flights c1 !! i = Some f' /\ af_key f' = af_key f /\ af_superseded f' = true.
Proof.
  intros Hok Ha Hf Hw.
  assert (forall c' : AsyncTTLCache K V, ac_active c' = ac_active c -> ac_flights c' = ac_flights c ->
    exists f', ac_flights (ac_supersede c' key) !! i = Some f' /\ af_key f' = af_key f /\
               af_superseded f' = true) as Hs.
  { intros c' E1 E2. unfold ac_supersede. rewrite E1, Ha. cbn. rewrite E2, list_lookup_alter_eq, Hf.
    by eexists. }
  destruct Hw as [(v & ttl & tick & ->)|[(t & ->)|(t & ->)]].
  - destruct (Hs c eq_refl eq_refl) as (f' & Hf' & E). exists f'. split; [|exact E].
    unfold ac_set, ac_with_now. by destruct tick.
  - unfold ac_invalidate. cbn. set (c' := ac_set_state c _).
    destruct (Hs c' eq_refl eq_refl) as (f' & Hf' & E). exists f'. split; [|exact E].
    exact Hf'.
  - cbn. rewrite alter_all_lookup, decide_True, Hf by (apply elem_of_ac_active; eauto). by eexists.
Qed.

Lemma retire_keeps_entries c i key : entries (ac_state (ac_retire c i key)) = entries (ac_state c).
Proof.
  unfold ac_retire, ac_deactivate. cbn. rewrite drop_unused_entries. by destruct (decide _).
Qed.

(** A load that may not publish ends without a change of the entries. *)
Lemma finish_unpublished c i f loaded tick :
  ac_flights c !! i = Some f -> ac_can_publish c i f = false ->
  fst (finish_load c i loaded tick) = loaded /\
  entries (ac_state (snd (finish_load c i loaded tick))) = entries (ac_state c).
Proof.
  intros Hf Hp. unfold finish_load. rewrite Hf. destruct loaded as [v|e].
  - rewrite Hp. cbn -[ac_retire]. by rewrite retire_keeps_entries.
  - cbn -[ac_retire]. by rewrite retire_keeps_entries.
Qed.

(** [C22] No stale publication.  When a key is set or invalidated, or the cache
    cleared, while a load of the key is active, then whatever the tasks do next,
    the end of that load leaves the entries as they are, and its callers still
    get the loader's outcome. *)
Theorem async_no_stale_publication s key c1 s2 i loaded tick :
  system_ok s -> ac_active (sy_cache s) !! key = Some i -> rewrites (sy_cache s) key c1 ->
  rtc async_step (with_cache s c1) s2 ->
  let '(r, c3) := finish_load (sy_cache s2) i loaded tick in
  r = loaded /\ entries (ac_state c3) = entries (ac_state (sy_cache s2)).
Proof.
  intros [Hok _] Ha Hw Hr. destruct (ao_active _ Hok key i Ha) as (f & Hf & _).
  destruct (rewrites_supersedes _ key c1 i f Hok Ha Hf Hw) as (f1 & Hf1 & _ & Hs1).
  destruct (async_steps_evolve _ _ Hr i f1 Hf1) as (f2 & Hf2 & _ & Hs2).
  destruct (finish_unpublished (sy_cache s2) i f2 loaded tick Hf2) as [H1 H2].
  { unfold ac_can_publish. rewrite (Hs2 Hs1). by rewrite andb_false_r. }
  by destruct (finish_load (sy_cache s2) i loaded tick).
Qed.

(** A load that its callers abandoned is not published either. *)
Lemma abandoned_not_published c i f loaded tick :
  ac_flights c !! i = Some f -> af_abandoned f = true ->
  entries (ac_state (snd (finish_load c i loaded tick))) = entries (ac_state c).
Proof.
  intros Hf Hab. apply (finish_unpublished c i f loaded tick Hf).
  unfold ac_can_publish. by rewrite Hab.
Qed.
End Guarantees.

(** ** Witnesses *)

Section Witnesses.
Definition aw_cache : AsyncTTLCache Z Z :=
  {| ac_default_ttl_ns := 1000000000; ac_max_inflight := 2; ac_loop := None; ac_active := ∅;
     ac_owned := []; ac_sequence := 0; ac_flights := []; ac_state := cache_state 2 |}.

Lemma aw_cache_made : make_async_cache (PyInt 1) (PyInt 2) PyNone = Returned aw_cache.
Proof. reflexivity. Qed.

Definition aw_start : system := {| sy_cache := aw_cache; sy_callers := []; sy_cancelled := [] |}.

(** Two callers await a load of 7, then one leaves, then the other. *)
Definition aw_one : system (K := Z) (V := Z) := load_section aw_start 7 10 (Returned 0) true.
Definition aw_two : system (K := Z) (V := Z) := load_section aw_one 7 10 (Returned 1) true.
Definition aw_left : system (K := Z) (V := Z) := leave_section aw_two 0 [0%nat].
Definition aw_abandoned : system (K := Z) (V := Z) := leave_section aw_left 0 [].

Lemma aw_reach_left : rtc async_step aw_start aw_left.
Proof.
  eapply rtc_l; [exact (as_load aw_start 7 10 (Returned 0) true)|].
  eapply rtc_l; [exact (as_load aw_one 7 10 (Returned 1) true)|].
  apply rtc_once. by apply (as_leave aw_two 0 [0%nat]).
Qed.

Lemma async_cancellation_counted_witness :
  sy_callers aw_left = [0%nat] /\ (0%nat ∉ sy_cancelled aw_left).
Proof.
  split; [reflexivity|].
  apply (proj1 (proj2 (async_cancellation_counted (PyInt 1) (PyInt 2) PyNone aw_cache aw_left
    aw_cache_made aw_reach_left))). by left.
Defined.

Example aw_cancelled_once : sy_cancelled aw_abandoned = [0%nat].
Proof. reflexivity. Qed.

Lemma async_cache_bounded_witness :
  Z.of_nat (length (ac_owned (sy_cache aw_left))) <= ac_max_inflight (sy_cache aw_left).
Proof.
  exact (proj1 (proj2 (proj2 (proj2 (async_cache_bounded (PyInt 1) (PyInt 2) PyNone aw_cache aw_left
    aw_cache_made aw_reach_left))))).
Defined.

Lemma aw_one_ok : system_ok aw_one.
Proof.
  apply (reachable_system_ok (PyInt 1) (PyInt 2) PyNone aw_cache); [exact aw_cache_made|].
  apply rtc_once, (as_load aw_start).
Qed.

Lemma async_no_stale_publication_witness :
  let c := snd (ac_set (sy_cache aw_one) 7 4 10 (Returned 1)) in
  entries (ac_state (snd (finish_load c 0 (Returned 3) (Returned 5)))) = entries (ac_state c).
Proof.
  intros c. pose proof (async_no_stale_publication aw_one 7 c (with_cache aw_one c) 0 (Returned 3)
    (Returned 5) aw_one_ok eq_refl (or_introl (ex_intro _ 4 (ex_intro _ 10 (ex_intro _ (Returned 1) eq_refl))))
    (rtc_refl _ _)) as Hst.
  cbn [with_cache sy_cache] in Hst.
  destruct (finish_load c 0 (Returned 3) (Returned 5)) as [r c']. exact (proj2 Hst).
Defined.

(** A load of 7 is superseded by a [set] and an [invalidate]; a second load of 7
    begins; then the caller of the first leaves. *)
Definition aw_superseded : system (K := Z) (V := Z) :=
  let s := aw_one in
  let s := with_cache s (snd (ac_set (sy_cache s) 7 4 10 (Returned 1))) in
  with_cache s (snd (ac_invalidate (sy_cache s) 7 (Returned 1))).
Definition aw_second : system (K := Z) (V := Z) := load_section aw_superseded 7 10 (Returned 2) true.
Definition aw_first_left : system (K := Z) (V := Z) := leave_section aw_second 0 [1%nat].

(** Abandoning the superseded load moves the version of its key on, so that the
    second load, which nothing superseded and whose caller still waits, is not
    cached when it ends; without the first caller's cancellation it is. *)
Theorem old_abandon_blocks_new_load :
  sy_callers aw_first_left = [1%nat] /\
  entries (ac_state (snd (finish_load (sy_cache aw_second) 1 (Returned 3) (Returned 5))))
    = [(7, {| value := 3; expires_at := 15; version := 3 |})] /\
  entries (ac_state (snd (finish_load (sy_cache aw_first_left) 1 (Returned 3) (Returned 5)))) = [].
Proof. vm_compute. done. Qed.
End Witnesses.
