(* ===== verification/Leader.v ===== *)
(** * Leader values and options ([bluetape/leader/_values.py], [_options.py], [_results.py])

    The immutable values of the leader contracts and the checks of their
    constructors.  A [timedelta] is its length in microseconds, a [datetime] its
    distance from the epoch in microseconds with what its time zone says; an
    argument that must be of an exact class is [Exact] or of [AnotherClass]. *)

From S2P Require Import Prelude Python.
Open Scope Z_scope.

Inductive arg (A : Type) : Type :=
| Exact (a : A)
| AnotherClass.
Arguments Exact {A} a.
Arguments AnotherClass {A}.

(** ** Durations *)

Abbreviation timedelta := Z.

Definition MICROSECONDS_PER_DAY : Z := 86400000000.

(** The attributes of a normalised [timedelta]. *)
Definition td_days (d : timedelta) : Z := d / MICROSECONDS_PER_DAY.
Definition td_seconds (d : timedelta) : Z := (d mod MICROSECONDS_PER_DAY) / 1000000.
Definition td_microseconds (d : timedelta) : Z := (d mod MICROSECONDS_PER_DAY) mod 1000000.

(** [d / n]: to the nearest microsecond, ties to even. *)
Definition td_divide (d : timedelta) (n : Z) : timedelta :=
  let q := d / n in
  let r := d mod n in
  if (n <? 2 * r) || ((2 * r =? n) && Z.odd q) then q + 1 else q.

(** ** Lease values *)

(** The time zone of a [datetime]: none, an exact [timezone] or [ZoneInfo] with
    its offset at that time, or another class. *)
Inductive tzinfo : Type :=
| Naive
| KnownZone (utcoffset : timedelta)
| OtherZone.

Record datetime : Type := {
  dt_time : Z;
  dt_zone : tzinfo;
}.

(** The first and the last microsecond a [datetime] can name: the years 1 to 9999. *)
Definition MIN_DATETIME : Z := -62135596800000000.
Definition MAX_DATETIME : Z := 253402300799999999.

(** [d + delta]. *)
Definition datetime_add (d : datetime) (delta : timedelta) : outcome datetime :=
  let t := dt_time d + delta in
  if (t <? MIN_DATETIME) || (MAX_DATETIME <? t) then Raised OverflowError
  else Returned {| dt_time := t; dt_zone := dt_zone d |}.

Definition require_optional_utc_datetime (value : option (arg datetime)) (field_name : string)
    : outcome (option datetime) :=
  match value with
  | None => Returned None
  | Some AnotherClass => Raised (TypeError (field_name +:+ " must be an exact datetime or None"))
  | Some (Exact d) =>
      match dt_zone d with
      | KnownZone 0 => Returned (Some d)
      | _ => Raised (ValueError (field_name +:+ " must be an aware UTC datetime"))
      end
  end.

Definition require_exact {A} (value : arg A) (message : string) : outcome A :=
  match value with Exact a => Returned a | AnotherClass => Raised (TypeError message) end.

Definition require_optional {A} (value : option (arg A)) (message : string) : outcome (option A) :=
  match value with
  | None => Returned None
  | Some v => match require_exact v message with Returned a => Returned (Some a) | Raised e => Raised e end
  end.

Record LeaderLease : Type := {
  audit_leader_id : pystr;
  lease_node_id : option pystr;
  elected_at : option datetime;
  lease_until : option datetime;
}.

Definition make_leader_lease (leader_id : arg pystr) (node : option (arg pystr))
    (elected until : option (arg datetime)) : outcome LeaderLease :=
  match require_exact leader_id "audit_leader_id must be an exact str" with
  | Raised e => Raised e
  | Returned i =>
    match require_optional node "node_id must be an exact str" with
    | Raised e => Raised e
    | Returned n =>
      match require_optional_utc_datetime elected "elected_at" with
      | Raised e => Raised e
      | Returned at_ =>
        match require_optional_utc_datetime until "lease_until" with
        | Raised e => Raised e
        | Returned u =>
            Returned {| audit_leader_id := i; lease_node_id := n; elected_at := at_; lease_until := u |}
        end
      end
    end
  end.

Record FencedLeaderLease : Type := {
  fl_lease : LeaderLease;
  fl_fencing_token : Z;
}.

Definition make_fenced_lease (lease : outcome LeaderLease) (token : arg Z)
    : outcome FencedLeaderLease :=
  match lease with
  | Raised e => Raised e
  | Returned l =>
      match token with
      | AnotherClass => Raised (TypeError "fencing_token must be an exact int")
      | Exact n =>
          if n <? 1 then Raised (ValueError "fencing_token must be positive")
          else Returned {| fl_lease := l; fl_fencing_token := n |}
      end
  end.

(** ** Options *)

Record LeaderElectionOptions : Type := {
  wait_time : timedelta;
  lease_time : timedelta;
  node_id : option pystr;
  min_lease_time : timedelta;
  auto_renew : bool;
  renew_interval : option timedelta;
}.

Definition default_options : LeaderElectionOptions := {|
  wait_time := 5000000;
  lease_time := 60000000;
  node_id := None;
  min_lease_time := 0;
  auto_renew := false;
  renew_interval := None;
|}.

(** The bytes of one code point in UTF-8; [None] for a surrogate. *)
Definition utf8_length (c : Z) : option Z :=
  if (55296 <=? c) && (c <=? 57343) then None
  else Some (if c <? 128 then 1 else if c <? 2048 then 2 else if c <? 65536 then 3 else 4).

(** [len(s.encode())]. *)
Fixpoint encoded_length (s : pystr) : option Z :=
  match s with
  | [] => Some 0
  | c :: s' =>
      match utf8_length c, encoded_length s' with
      | Some n, Some m => Some (n + m)
      | _, _ => None
      end
  end.

Definition MAX_NODE_ID_BYTES : Z := 256.

Definition validate_node_id (node : pystr) : outcome unit :=
  match encoded_length node with
  | None => Raised InvalidLeaderOptionsError
  | Some n =>
      if bool_decide (node = []) || forallb is_space node || (MAX_NODE_ID_BYTES <? n)
      then Raised InvalidLeaderOptionsError else Returned tt
  end.

(** [__post_init__], on arguments of the exact classes. *)
Definition check_options (o : LeaderElectionOptions) : outcome LeaderElectionOptions :=
  if (wait_time o <? 0) || (lease_time o <=? 0) then Raised InvalidLeaderOptionsError
  else if negb ((0 <=? min_lease_time o) && (min_lease_time o <=? lease_time o))
  then Raised InvalidLeaderOptionsError
  else
    match (match node_id o with None => Returned tt | Some n => validate_node_id n end) with
    | Raised e => Raised e
    | Returned _ =>
        match renew_interval o with
        | None =>
            if auto_renew o then
              let derived := td_divide (lease_time o) 3 in
              if derived <=? 0 then Raised InvalidLeaderOptionsError
              else Returned {| wait_time := wait_time o; lease_time := lease_time o;
                               node_id := node_id o; min_lease_time := min_lease_time o;
                               auto_renew := true; renew_interval := Some derived |}
            else Returned o
        | Some interval =>
            if negb ((0 <? interval) && (interval <? lease_time o))
            then Raised InvalidLeaderOptionsError else Returned o
        end
    end.

(** The constructor, with its checks of the arguments' classes. *)
Definition make_options (wait lease : arg timedelta) (node : option (arg pystr))
    (min_lease : arg timedelta) (renew : arg bool) (interval : option (arg timedelta))
    : outcome LeaderElectionOptions :=
  match require_exact wait "wait_time must be an exact timedelta",
        require_exact lease "lease_time must be an exact timedelta",
        require_exact min_lease "min_lease_time must be an exact timedelta",
        require_exact renew "auto_renew must be an exact bool",
        require_optional interval "renew_interval must be an exact timedelta",
        require_optional node "node_id must be an exact str" with
  | Raised e, _, _, _, _, _ | _, Raised e, _, _, _, _ | _, _, Raised e, _, _, _
  | _, _, _, Raised e, _, _ | _, _, _, _, Raised e, _ | _, _, _, _, _, Raised e => Raised e
  | Returned w, Returned l, Returned m, Returned r, Returned i, Returned n =>
      check_options {| wait_time := w; lease_time := l; node_id := n; min_lease_time := m;
                       auto_renew := r; renew_interval := i |}
  end.

(** ** Results *)

Inductive LeaderRunResult (T LeaseT : Type) : Type :=
| Elected (value : T) (lease : LeaseT)
| Skipped
| ActionFailed (cause : exn) (lease : LeaseT).
Arguments Elected {T LeaseT}.
Arguments Skipped {T LeaseT}.
Arguments ActionFailed {T LeaseT}.

Inductive RenewOutcome : Type :=
| Renewed (observed_lease_until : option datetime)
| NotHeld
| RenewBackendFailure (cause : exn).

(** [isinstance(e, LeaderError)]. *)
Definition is_LeaderError (e : exn) : bool :=
  match e with
  | LeaderBackendError | LeaderLeaseLostError | LeaderReleaseError | InvalidLeaderOptionsError
  | InvalidLockNameError | LeaderExecutionError _ _ => true
  | _ => false
  end.

(** ** Lemmas *)

(** Options that the constructor accepts. *)
Record valid_options (o : LeaderElectionOptions) : Prop := {
  vo_wait : 0 <= wait_time o;
  vo_lease : 0 < lease_time o;
  vo_min : 0 <= min_lease_time o <= lease_time o;
  vo_interval i : renew_interval o = Some i -> 0 < i < lease_time o;
  vo_auto : auto_renew o = true -> is_Some (renew_interval o);
}.

Lemma td_divide_third d : 0 < d -> 0 < td_divide d 3 -> td_divide d 3 < d.
Proof.
  unfold td_divide. intros Hd Hq. pose proof (Z.div_mod d 3). pose proof (Z.mod_pos_bound d 3).
  destruct (_ || _) eqn:E; [|lia]. apply orb_true_iff in E.
  assert (3 < 2 * (d mod 3)) by (destruct E; lia). lia.
Qed.

Lemma check_options_valid o o' : check_options o = Returned o' -> valid_options o'.
Proof.
  unfold check_options. intros Hc.
  destruct ((wait_time o <? 0) || (lease_time o <=? 0)) eqn:E1; [done|].
  destruct (negb ((0 <=? min_lease_time o) && (min_lease_time o <=? lease_time o))) eqn:E2; [done|].
  destruct (match node_id o with None => _ | Some _ => _ end); [|done].
  destruct (renew_interval o) as [i|] eqn:Ei.
  - destruct (negb ((0 <? i) && (i <? lease_time o))) eqn:E3; [done|]. injection Hc as <-.
    constructor; try lia; rewrite Ei; [intros ? [= <-]; lia|by eexists].
  - destruct (auto_renew o) eqn:Ea.
    + destruct (Z.leb_spec (td_divide (lease_time o) 3) 0); [done|]. injection Hc as <-.
      constructor; cbn; try lia; [|by eexists]. intros i [= <-]. split; [done|].
      apply td_divide_third; lia.
    + injection Hc as <-. constructor; try lia; rewrite ?Ei; [done|]. intros; congruence.
Qed.
