(* ===== verification/LeaseRecord.v ===== *)
(** * Lease records ([bluetape/leader/redis/_support.py])

    The value a lock stores in Redis: [v1:<owner token>:<fencing token>].  The
    recognisers of owner tokens and of canonical decimal fences, the record with
    its printer and parser, and the decimal numerals they rest on. *)

From S2P Require Import Prelude Python.
Open Scope Z_scope.

(** ** Decimal numerals *)

Definition is_digit (c : Z) : bool := (48 <=? c) && (c <=? 57).

Fixpoint decimal_loop (fuel : nat) (n : Z) (acc : pystr) : pystr :=
  match fuel with
  | O => acc
  | S fuel' =>
      let acc := (48 + n mod 10) :: acc in
      if n <? 10 then acc else decimal_loop fuel' (n / 10) acc
  end.

(** [str(n)] of a non-negative [int]; a number has no more decimal digits than
    binary ones. *)
Definition decimal (n : Z) : pystr := decimal_loop (S (Z.to_nat (Z.log2 n))) n [].

(** [int(s)] of a string of digits. *)
Definition undecimal (s : pystr) : Z := foldl (fun acc c => acc * 10 + (c - 48)) 0 s.

(** Comparison of strings by code points. *)
Fixpoint str_le (s t : pystr) : bool :=
  match s, t with
  | [], _ => true
  | _ :: _, [] => false
  | c :: s', d :: t' => (c <? d) || ((c =? d) && str_le s' t')
  end.

(** [s.split(c)]. *)
Fixpoint split (c : Z) (s : pystr) : list pystr :=
  match s with
  | [] => [[]]
  | d :: s' =>
      match split c s' with
      | part :: parts => if d =? c then [] :: part :: parts else (d :: part) :: parts
      | [] => [[]]
      end
  end.

Definition is_ascii (s : pystr) : bool := forallb (fun c => (0 <=? c) && (c <? 128)) s.

(** ** Tokens and fences *)

Definition MAX_REDIS_INTEGER : Z := 9223372036854775807.
Definition MAX_REDIS_INTEGER_TEXT : pystr := py "9223372036854775807".

Definition owner_character (c : Z) : bool :=
  (65 <=? c) && (c <=? 90) || (97 <=? c) && (c <=? 122) || (48 <=? c) && (c <=? 57)
  || (c =? 45) || (c =? 95).

(** [_is_owner_token] of a [str]. *)
Definition is_owner_token (s : pystr) : bool :=
  (length s =? 32)%nat && forallb owner_character s.

(** [_is_canonical_fence]; [isdigit] of an ASCII string. *)
Definition is_canonical_fence (s : pystr) : bool :=
  match s with
  | [] => false
  | c :: _ =>
      (49 <=? c) && (c <=? 57) && is_ascii s && forallb is_digit s
      && ((length s <? length MAX_REDIS_INTEGER_TEXT)%nat
          || ((length s =? length MAX_REDIS_INTEGER_TEXT)%nat && str_le s MAX_REDIS_INTEGER_TEXT))
  end.

(** ** The record *)

Record LeaseRecord : Type := {
  owner_token : pystr;
  fencing_token : Z;
}.

#[export] Instance LeaseRecord_eq_dec : EqDecision LeaseRecord.
Proof. solve_decision. Defined.

Definition INVALID_RECORD : exn := ValueError "invalid Redis lease record".

(** [__post_init__]. *)
Definition make_record (owner : pystr) (fence : Z) : outcome LeaseRecord :=
  if negb (is_owner_token owner) then Raised INVALID_RECORD
  else if (fence <=? 0) || (MAX_REDIS_INTEGER <? fence) then Raised INVALID_RECORD
  else Returned {| owner_token := owner; fencing_token := fence |}.

Definition to_bytes (r : LeaseRecord) : pybytes :=
  py "v1:" ++ owner_token r ++ py ":" ++ decimal (fencing_token r).

(** [_LeaseRecord.parse] of a [bytes] object. *)
Definition parse (value : pybytes) : outcome LeaseRecord :=
  if negb (is_ascii value) then Raised INVALID_RECORD
  else
    match split 58 value with
    | [version; owner; fence] =>
        if negb (bool_decide (version = py "v1")) || negb (is_owner_token owner)
           || negb (is_canonical_fence fence)
        then Raised INVALID_RECORD
        else make_record owner (undecimal fence)
    | _ => Raised INVALID_RECORD
    end.

(** A record that the constructor accepts. *)
Definition valid_record (r : LeaseRecord) : Prop :=
  is_owner_token (owner_token r) = true /\ 1 <= fencing_token r <= MAX_REDIS_INTEGER.

(** ** Numerals *)

Lemma decimal_loop_step fuel n acc :
  decimal_loop (S fuel) n acc
  = if n <? 10 then (48 + n mod 10) :: acc
    else decimal_loop fuel (n / 10) ((48 + n mod 10) :: acc).
Proof. done. Qed.

Lemma log2_div10 n : 10 <= n -> Z.log2 (n / 10) < Z.log2 n.
Proof.
  intros Hn. assert (n / 10 <= n / 2) as Hle by (apply Z.div_le_compat_l; lia).
  apply Z.log2_le_mono in Hle. change (n / 2) with (n / 2 ^ 1) in Hle.
  rewrite <-Z.shiftr_div_pow2, Z.log2_shiftr in Hle by lia.
  pose proof (Z.log2_le_mono 2 n ltac:(lia)). change (Z.log2 2) with 1 in *. lia.
Qed.

(** The digits do not depend on the fuel, once it is enough. *)
Lemma decimal_loop_app fuel n acc :
  0 <= n -> (Z.to_nat (Z.log2 n) < fuel)%nat ->
  decimal_loop fuel n acc = decimal n ++ acc.
Proof.
  revert n acc. induction (lt_wf fuel) as [fuel _ IH]. intros n acc Hn Hf.
  destruct fuel as [|fuel]; [lia|]. unfold decimal. rewrite !decimal_loop_step.
  destruct (Z.ltb_spec n 10); [done|].
  pose proof (log2_div10 n ltac:(lia)). pose proof (Z.log2_nonneg (n / 10)).
  assert (0 <= n / 10) by (apply Z.div_pos; lia).
  rewrite (IH fuel) by lia. destruct (Z.to_nat (Z.log2 n)) as [|k] eqn:E; [lia|].
  destruct (decide (S k < S fuel)%nat) as [Hlt|Hge].
  - rewrite (IH (S k)) by lia. by rewrite <-app_assoc.
  - assert (S k = fuel) as -> by lia. rewrite (IH fuel) by lia. by rewrite <-app_assoc.
Qed.

Lemma decimal_small n : 0 <= n < 10 -> decimal n = [48 + n].
Proof.
  intros Hn. unfold decimal. rewrite decimal_loop_step.
  destruct (Z.ltb_spec n 10); [|lia]. by rewrite Z.mod_small.
Qed.

Lemma decimal_step n : 10 <= n -> decimal n = decimal (n / 10) ++ [48 + n mod 10].
Proof.
  intros Hn. unfold decimal at 1. rewrite decimal_loop_step.
  destruct (Z.ltb_spec n 10); [lia|]. pose proof (log2_div10 n Hn).
  pose proof (Z.log2_nonneg (n / 10)). rewrite decimal_loop_app; [done|apply Z.div_pos; lia|lia].
Qed.

Lemma undecimal_snoc s c : undecimal (s ++ [c]) = undecimal s * 10 + (c - 48).
Proof. unfold undecimal. by rewrite foldl_app. Qed.

(** Induction on the digits of a number. *)
Lemma decimal_ind (P : Z -> Prop) :
  (forall n, 0 <= n < 10 -> P n) -> (forall n, 10 <= n -> P (n / 10) -> P n) ->
  forall n, 0 <= n -> P n.
Proof.
  intros Hs Hstep n Hn. refine (Z_lt_induction (fun n => 0 <= n -> P n) _ n Hn Hn).
  clear n Hn. intros n IH Hn.
  destruct (Z.lt_ge_cases n 10); [by apply Hs|]. apply Hstep; [done|].
  apply IH; [split; [apply Z.div_pos|apply Z.div_lt]; lia|apply Z.div_pos; lia].
Qed.

Lemma undecimal_decimal n : 0 <= n -> undecimal (decimal n) = n.
Proof.
  revert n. apply decimal_ind.
  - intros n Hn. rewrite decimal_small by done. unfold undecimal. cbn. lia.
  - intros n Hn IH. rewrite decimal_step, undecimal_snoc, IH by done.
    pose proof (Z.div_mod n 10). lia.
Qed.

Lemma decimal_digits n : 0 <= n -> forallb is_digit (decimal n) = true.
Proof.
  revert n. apply decimal_ind.
  - intros n Hn. rewrite decimal_small by done. cbn. unfold is_digit. lia.
  - intros n Hn IH. rewrite decimal_step by done. rewrite forallb_app, IH. cbn. unfold is_digit.
    pose proof (Z.mod_pos_bound n 10). lia.
Qed.

Lemma decimal_head n : 1 <= n -> exists c s, decimal n = c :: s /\ 49 <= c <= 57.
Proof.
  intros Hn. assert (0 <= n) as H0 by lia. revert Hn.
  refine (decimal_ind (fun n => 1 <= n -> exists c s, decimal n = c :: s /\ 49 <= c <= 57) _ _ n H0);
    clear n H0.
  - intros n Hn H1. exists (48 + n), []. rewrite decimal_small by done. split; [done|lia].
  - intros n Hn IH _. destruct IH as (c & s & E & Hc); [apply Z.div_le_lower_bound; lia|].
    exists c, (s ++ [48 + n mod 10]). by rewrite decimal_step, E.
Qed.

(** A string of digits that does not start with zero is the numeral of its
    value. *)
Lemma decimal_undecimal c s :
  49 <= c <= 57 -> forallb is_digit s = true ->
  decimal (undecimal (c :: s)) = c :: s /\ 1 <= undecimal (c :: s).
Proof.
  intros Hc. induction s as [|d s IH] using rev_ind; intros Hs.
  - assert (undecimal [c] = c - 48) as -> by (unfold undecimal; cbn; lia).
    rewrite decimal_small by lia. split; [f_equal; lia|lia].
  - rewrite forallb_app in Hs. apply andb_true_iff in Hs as [Hs Hd]. cbn in Hd.
    unfold is_digit in Hd. destruct (IH Hs) as [E H1].
    rewrite app_comm_cons, undecimal_snoc.
    assert ((undecimal (c :: s) * 10 + (d - 48)) / 10 = undecimal (c :: s)) as Hdiv.
    { symmetry. apply (Z.div_unique _ _ _ (d - 48)); lia. }
    assert ((undecimal (c :: s) * 10 + (d - 48)) mod 10 = d - 48) as Hmod.
    { symmetry. apply (Z.mod_unique _ _ (undecimal (c :: s))); lia. }
    split; [|lia]. rewrite decimal_step by lia. rewrite Hdiv, Hmod, E. do 2 f_equal. lia.
Qed.

(** ** Canonical fences *)

Lemma is_digit_ascii s : forallb is_digit s = true -> is_ascii s = true.
Proof.
  intros Hs. unfold is_ascii. induction s as [|c s IH]; [done|]. cbn in *.
  apply andb_true_iff in Hs as [Hc Hs]. rewrite IH by done. unfold is_digit in Hc. lia.
Qed.

Lemma foldl_digits s acc :
  forallb is_digit s = true ->
  let v := foldl (fun acc c => acc * 10 + (c - 48)) acc s in
  acc * 10 ^ Z.of_nat (length s) <= v < (acc + 1) * 10 ^ Z.of_nat (length s).
Proof.
  revert acc. induction s as [|c s IH]; intros acc Hs; cbn [foldl length]; [cbn; lia|].
  cbn in Hs. apply andb_true_iff in Hs as [Hc Hs]. unfold is_digit in Hc.
  specialize (IH (acc * 10 + (c - 48)) Hs). cbv zeta in *.
  rewrite Nat2Z.inj_succ, Z.pow_succ_r by lia.
  pose proof (Z.pow_pos_nonneg 10 (Z.of_nat (length s))). nia.
Qed.

(** Comparing numerals of one length compares their values. *)
Lemma str_le_digits s t acc :
  length s = length t -> forallb is_digit s = true -> forallb is_digit t = true ->
  str_le s t = true <->
  foldl (fun acc c => acc * 10 + (c - 48)) acc s <= foldl (fun acc c => acc * 10 + (c - 48)) acc t.
Proof.
  revert t acc. induction s as [|c s IH]; intros [|d t] acc Hl Hs Ht; try done; cbn [foldl str_le].
  cbn in Hl, Hs, Ht. apply andb_true_iff in Hs as [Hc Hs], Ht as [Hd Ht]. injection Hl as Hl.
  pose proof (foldl_digits s (acc * 10 + (c - 48)) Hs) as B1.
  pose proof (foldl_digits t (acc * 10 + (d - 48)) Ht) as B2. cbv zeta in B1, B2. rewrite Hl in B1.
  pose proof (Z.pow_pos_nonneg 10 (Z.of_nat (length t))).
  rewrite orb_true_iff, andb_true_iff, Z.ltb_lt, Z.eqb_eq.
  destruct (Z.lt_trichotomy c d) as [Hlt|[->|Hgt]].
  - split; [intros _; nia|auto].
  - rewrite <-(IH t) by done. split; [intros [?|[_ ?]]; [lia|done]|auto].
  - split; [lia|]. intros Hle. exfalso. nia.
Qed.

(** The canonical fences are the numerals of the positive 64-bit integers. *)
Lemma is_canonical_fence_spec s :
  is_canonical_fence s = true <-> 1 <= undecimal s <= MAX_REDIS_INTEGER /\ s = decimal (undecimal s).
Proof.
  split.
  - destruct s as [|c s]; [done|]. unfold is_canonical_fence. intros Hf.
    apply andb_true_iff in Hf as [Hf Hlen]. apply andb_true_iff in Hf as [Hf Hdig].
    apply andb_true_iff in Hf as [Hf _]. assert (49 <= c <= 57) as Hc by lia.
    pose proof Hdig as Hds. cbn [forallb] in Hds. apply andb_true_iff in Hds as [_ Hds].
    destruct (decimal_undecimal c s Hc Hds) as [E H1]. split; [split; [done|]|done].
    apply orb_true_iff in Hlen as [Hlt|Heq].
    + apply Nat.ltb_lt in Hlt. change (length MAX_REDIS_INTEGER_TEXT) with 19%nat in Hlt.
      pose proof (foldl_digits (c :: s) 0 Hdig) as B. cbv zeta in B. unfold undecimal.
      assert (10 ^ Z.of_nat (length (c :: s)) <= 10 ^ 18) by (apply Z.pow_le_mono_r; lia).
      unfold MAX_REDIS_INTEGER. lia.
    + apply andb_true_iff in Heq as [Heq Hle]. apply Nat.eqb_eq in Heq.
      apply (str_le_digits _ _ 0) in Hle; [exact Hle|done..].
  - intros [[H1 Hmax] E]. destruct (decimal_head (undecimal s) H1) as (c & s' & Es & Hc).
    rewrite <-E in Es. pose proof (decimal_digits (undecimal s) ltac:(lia)) as Hdig.
    rewrite <-E in Hdig. rewrite Es in *. unfold is_canonical_fence.
    rewrite Hdig, is_digit_ascii by done.
    replace (49 <=? c) with true by lia. replace (c <=? 57) with true by lia. cbn [andb].
    pose proof (foldl_digits (c :: s') 0 Hdig) as B. cbv zeta in B. fold (undecimal (c :: s')) in B.
    cbn [forallb] in Hdig. apply andb_true_iff in Hdig as [Hd0 Hdig].
    change (length MAX_REDIS_INTEGER_TEXT) with 19%nat.
    destruct (Nat.lt_trichotomy (length (c :: s')) 19) as [Hlt|[Heq|Hgt]].
    + apply orb_true_iff. left. by apply Nat.ltb_lt.
    + apply orb_true_iff. right. rewrite (proj2 (Nat.eqb_eq _ _) Heq). cbn [andb].
      apply (str_le_digits _ _ 0); [done|cbn [forallb]; by rewrite Hd0|done|exact Hmax].
    + exfalso. unfold undecimal in Hmax. cbn [foldl] in Hmax.
      pose proof (foldl_digits s' (0 * 10 + (c - 48)) Hdig) as B'. cbv zeta in B'.
      assert (10 ^ 19 <= 10 ^ Z.of_nat (length s')) by (apply Z.pow_le_mono_r; cbn in Hgt; lia).
      unfold MAX_REDIS_INTEGER in Hmax. nia.
Qed.

Lemma canonical_decimal n : 1 <= n <= MAX_REDIS_INTEGER -> is_canonical_fence (decimal n) = true.
Proof.
  intros Hn. apply is_canonical_fence_spec. by rewrite undecimal_decimal by lia.
Qed.

(** ** Splitting *)

(** [sep.join(parts)]. *)
Fixpoint join (c : Z) (parts : list pystr) : pystr :=
  match parts with
  | [] => []
  | [part] => part
  | part :: parts' => part ++ c :: join c parts'
  end.

Lemma split_nonempty c s : split c s <> [].
Proof. destruct s as [|d s]; cbn; [done|]. destruct (split c s); [done|]. by destruct (d =? c). Qed.

Lemma join_split c s : join c (split c s) = s.
Proof.
  induction s as [|d s IH]; [done|]. cbn [split]. pose proof (split_nonempty c s) as Hne.
  destruct (split c s) as [|part parts]; [done|].
  destruct (Z.eqb_spec d c) as [->|_].
  - change (c :: join c (part :: parts) = c :: s). by rewrite IH.
  - assert (join c ((d :: part) :: parts) = d :: join c (part :: parts)) as -> by (by destruct parts).
    by rewrite IH.
Qed.

Lemma split_plain c s : c ∉ s -> split c s = [s].
Proof.
  induction s as [|d s IH]; [done|]. rewrite not_elem_of_cons. intros [Hne Hs].
  cbn. rewrite IH by done. by destruct (Z.eqb_spec d c) as [->|].
Qed.

Lemma split_app c s t : c ∉ s -> split c (s ++ c :: t) = s :: split c t.
Proof.
  induction s as [|d s IH]; intros Hs.
  - cbn. destruct (split c t) eqn:E; [by apply split_nonempty in E|]. by rewrite Z.eqb_refl.
  - rewrite not_elem_of_cons in Hs. destruct Hs as [Hne Hs]. cbn. rewrite IH by done.
    by destruct (Z.eqb_spec d c) as [->|].
Qed.

Lemma digits_plain s : forallb is_digit s = true -> 58 ∉ s.
Proof.
  intros Hs Hin. rewrite forallb_forall in Hs. apply list_elem_of_In in Hin.
  specialize (Hs 58 Hin). done.
Qed.

Lemma owner_plain s : forallb owner_character s = true -> (58 ∉ s) /\ is_ascii s = true.
Proof.
  intros Hs. rewrite forallb_forall in Hs. split.
  - intros Hin. apply list_elem_of_In in Hin. specialize (Hs 58 Hin). done.
  - apply forallb_forall. intros c Hc. specialize (Hs c Hc). unfold owner_character in Hs. lia.
Qed.

Lemma is_ascii_app s t : is_ascii (s ++ t) = is_ascii s && is_ascii t.
Proof. apply forallb_app. Qed.

(** What [parse] accepts, part by part. *)
Lemma parse_parts value r :
  parse value = Returned r <->
  exists fence, value = py "v1:" ++ owner_token r ++ 58 :: fence /\
    is_owner_token (owner_token r) = true /\ is_canonical_fence fence = true /\
    fencing_token r = undecimal fence.
Proof.
  split.
  - unfold parse. destruct (is_ascii value); [|done]. cbn [negb].
    destruct (split 58 value) as [|version [|owner [|fence [|]]]] eqn:E; try done.
    destruct (bool_decide_reflect (version = py "v1")) as [->|]; [|done]. cbn [negb orb].
    destruct (is_owner_token owner) eqn:Eo; [|done]. cbn [negb orb].
    destruct (is_canonical_fence fence) eqn:Ef; [|done]. cbn [negb].
    unfold make_record. rewrite Eo. cbn [negb].
    apply is_canonical_fence_spec in Ef as Hf. destruct Hf as [Hb _].
    replace (undecimal fence <=? 0) with false by lia.
    replace (MAX_REDIS_INTEGER <? undecimal fence) with false by lia. cbn [orb].
    intros [= <-]. exists fence. cbn [owner_token fencing_token].
    split; [|done]. rewrite <-(join_split 58 value), E. done.
  - destruct r as [owner n]. cbn [owner_token fencing_token].
    intros (fence & -> & Ho & Hf & ->). pose proof Ho as Ho'. unfold is_owner_token in Ho'.
    apply andb_true_iff in Ho' as [_ Hchars]. destruct (owner_plain owner Hchars) as [Hp Ha].
    apply is_canonical_fence_spec in Hf as Hspec. destruct Hspec as [Hb Hd].
    pose proof (decimal_digits (undecimal fence) ltac:(lia)) as Hdig. rewrite <-Hd in Hdig.
    unfold parse. change (58 :: fence) with ([58] ++ fence).
    rewrite !is_ascii_app, Ha, (is_digit_ascii fence) by done. cbn [negb andb is_ascii forallb].
    change (py "v1:" ++ owner ++ [58] ++ fence) with (py "v1" ++ 58 :: owner ++ 58 :: fence).
    rewrite split_app by (by apply owner_plain). rewrite split_app by done.
    rewrite (split_plain 58 fence) by (by apply digits_plain).
    rewrite bool_decide_eq_true_2, Ho, Hf by done. cbn [negb orb]. unfold make_record. rewrite Ho.
    replace (undecimal fence <=? 0) with false by lia.
    by replace (MAX_REDIS_INTEGER <? undecimal fence) with false by lia.
Qed.

Lemma lease_record_parse r : valid_record r -> parse (to_bytes r) = Returned r.
Proof.
  intros [Ho Hf]. apply parse_parts. exists (decimal (fencing_token r)).
  rewrite undecimal_decimal by lia. split; [done|]. split; [done|]. split; [|done].
  by apply canonical_decimal.
Qed.

Lemma lease_record_printed r value : parse value = Returned r -> value = to_bytes r.
Proof.
  intros (fence & -> & _ & Hc & E)%parse_parts. apply is_canonical_fence_spec in Hc as [_ Hd].
  unfold to_bytes. by rewrite E, <-Hd.
Qed.

(** Round trip.  Printing a valid record and parsing the bytes gives it
    back; and parsing accepts nothing but printed records: bytes that parse as a
    record are those the record prints, so equal records have equal bytes and
    the comparison of bytes that the scripts make is a comparison of records. *)
Theorem lease_record_roundtrip r value :
  valid_record r ->
  parse (to_bytes r) = Returned r /\
  (parse value = Returned r -> value = to_bytes r).
Proof. intros Hr. split; [by apply lease_record_parse|apply lease_record_printed]. Qed.

Lemma parse_valid value r : parse value = Returned r -> valid_record r.
Proof.
  intros (fence & _ & Ho & Hc & E)%parse_parts. split; [done|]. rewrite E.
  by apply is_canonical_fence_spec in Hc as [? _].
Qed.

Lemma to_bytes_inj r1 r2 : valid_record r1 -> valid_record r2 -> to_bytes r1 = to_bytes r2 -> r1 = r2.
Proof.
  intros H1 H2 E. pose proof (lease_record_parse r1 H1) as P1.
  pose proof (lease_record_parse r2 H2) as P2. congruence.
Qed.

(** ** Witness *)

Section Witnesses.
Definition w_owner : pystr := py "AAAAAAAAAAAAAAAAAAAAAAAAAAAAAAAA".
Definition w_record (n : Z) : LeaseRecord := {| owner_token := w_owner; fencing_token := n |}.

Lemma w_record_valid : valid_record (w_record 1).
Proof. split; [reflexivity|cbn; unfold MAX_REDIS_INTEGER; lia]. Qed.

Lemma lease_record_roundtrip_witness : parse (to_bytes (w_record 1)) = Returned (w_record 1).
Proof. exact (proj1 (lease_record_roundtrip (w_record 1) [] w_record_valid)). Defined.
End Witnesses.
