(* ===== verification/RedisScripts.v ===== *)
(** * The Lua scripts of the distributed lock ([bluetape/leader/redis/_scripts.py])

    The fixed scripts run on the Redis server, each atomically and at one
    instant.  The server is not part of the repository: it is a class of
    commands with their documented laws, stated on what its keys hold.  The
    module also checks the arguments it sends and parses the replies. *)

From stdpp Require Import sorting.
From S2P Require Import Prelude Python LeaseRecord.
Open Scope py_scope.
Open Scope Z_scope.

(** ** The server *)

(** The value of a key with its time to live in milliseconds, if it has one. *)
Inductive value_kind : Type := ListKind | SetKind | ZsetKind | HashKind | StreamKind.

Inductive redis_entry : Type :=
| StringValue (value : pybytes) (ttl : option Z)
| OtherValue (kind : value_kind) (ttl : option Z).

Definition entry_ttl (e : redis_entry) : option Z :=
  match e with StringValue _ ttl | OtherValue _ ttl => ttl end.

(** The reply of TYPE. *)
Definition type_name (e : option redis_entry) : pystr :=
  match e with
  | None => py "none"
  | Some (StringValue _ _) => py "string"
  | Some (OtherValue ListKind _) => py "list"
  | Some (OtherValue SetKind _) => py "set"
  | Some (OtherValue ZsetKind _) => py "zset"
  | Some (OtherValue HashKind _) => py "hash"
  | Some (OtherValue StreamKind _) => py "stream"
  end.

Abbreviation keyspace := (gmap pybytes redis_entry).

(** The commands the scripts call. *)
Class Redis (S : Type) := {
  view : S -> keyspace;
  px_limit : Z;
  redis_TYPE : pybytes -> M S pystr;
  redis_PTTL : pybytes -> M S Z;
  redis_GET : pybytes -> M S (option pybytes);
  redis_SET : pybytes -> pybytes -> M S unit;
  redis_SET_PX : pybytes -> pybytes -> pybytes -> M S unit;
  redis_INCR : pybytes -> M S unit;
  redis_PEXPIRE : pybytes -> pybytes -> M S unit;
  redis_DEL : pybytes -> M S unit;
}.

(** The documented behaviour of the commands: reads leave the keyspace alone;
    PTTL is -2 for no key and -1 for no expiry; SET drops an expiry, SET PX and
    PEXPIRE set one, up to the largest expiry the server takes; INCR counts up a
    decimal below the largest 64-bit integer, from 0 for no key, and keeps the
    expiry. *)
Class RedisLaws (S : Type) `{!Redis S} : Prop := {
  type_law k s : redis_TYPE k s = (Returned (type_name (view s !! k)), s);
  pttl_law k s :
    redis_PTTL k s = (Returned (match view s !! k with
                                | None => -2
                                | Some e => default (-1) (entry_ttl e)
                                end), s);
  ttl_law k s e t : view s !! k = Some e -> entry_ttl e = Some t -> 0 <= t;
  get_law k s v ttl : view s !! k = Some (StringValue v ttl) ->
    redis_GET k s = (Returned (Some v), s);
  set_law k v s : exists s', redis_SET k v s = (Returned tt, s') /\
    view s' = <[k := StringValue v None]> (view s);
  set_px_law k v n s : 1 <= n <= px_limit ->
    exists s', redis_SET_PX k v (decimal n) s = (Returned tt, s') /\
      view s' = <[k := StringValue v (Some n)]> (view s);
  incr_new_law k s : view s !! k = None ->
    exists s', redis_INCR k s = (Returned tt, s') /\
      view s' = <[k := StringValue (decimal 1) None]> (view s);
  incr_law k n ttl s : view s !! k = Some (StringValue (decimal n) ttl) ->
    0 <= n < MAX_REDIS_INTEGER ->
    exists s', redis_INCR k s = (Returned tt, s') /\
      view s' = <[k := StringValue (decimal (n + 1)) ttl]> (view s);
  pexpire_law k v ttl n s : view s !! k = Some (StringValue v ttl) -> 1 <= n <= px_limit ->
    exists s', redis_PEXPIRE k (decimal n) s = (Returned tt, s') /\
      view s' = <[k := StringValue v (Some n)]> (view s);
  del_law k s : exists s', redis_DEL k s = (Returned tt, s') /\ view s' = delete k (view s);
}.

(** ** Lua *)

(** [string.match(s, '^[1-9][0-9]*$')]. *)
Definition lua_positive (s : pybytes) : bool :=
  match s with
  | c :: s' => (49 <=? c) && (c <=? 57) && forallb is_digit s'
  | [] => false
  end.

Definition valid_fence (fence : pybytes) : bool :=
  if negb (lua_positive fence) then false
  else (length fence <? 19)%nat
       || ((length fence =? 19)%nat && str_le fence (py "9223372036854775807")).

(** The longest prefix of characters in [%w_-], and the rest. *)
Fixpoint span_owner (s : pybytes) : pybytes * pybytes :=
  match s with
  | c :: s' =>
      if owner_character c then let '(owner, rest) := span_owner s' in (c :: owner, rest)
      else ([], s)
  | [] => ([], [])
  end.

(** [string.match(s, '^v1:([%w_-]+):([1-9][0-9]* )$')] (without the
    space): the class does not contain
    the colon, so the first capture is the longest prefix. *)
Definition match_record (s : pybytes) : option (pybytes * pybytes) :=
  if negb (bool_decide (take 3 s = py "v1:")) then None
  else
    match span_owner (drop 3 s) with
    | (c :: owner, colon :: fence) =>
        if (colon =? 58) && lua_positive fence then Some (c :: owner, fence) else None
    | _ => None
    end.

(** An error of the Lua code itself. *)
Definition script_error : exn := RedisResponseError.

(** [local owner, fence = string.match(current, ...)] and the test of the
    captures that follows it in every script. *)
Definition lua_record (current : pybytes) : option (pybytes * pybytes) :=
  match match_record current with
  | Some (owner, fence) =>
      if negb (length owner =? 32)%nat || negb (valid_fence fence) then None
      else Some (owner, fence)
  | None => None
  end.

Section Scripts.
Context {S : Type} `{!Redis S}.

Abbreviation reply := (list pybytes).

Definition CORRUPT : reply := [py "CORRUPT"].

(** [redis.call('GET', k)] of a key whose type is string. *)
Definition get_string (k : pybytes) : M S pybytes :=
  v <- redis_GET k ;;
  match v with Some s => ret s | None => raise script_error end.

(** The checks of a key of type [t] that must be a string without expiry. *)
Definition persistent_ok (t : pystr) (k : pybytes) (check : pybytes -> bool)
    : M S (option pybytes) :=
  if negb (bool_decide (t = py "string")) then ret None
  else
    ttl <- redis_PTTL k ;;
    if negb (ttl =? -1) then ret None
    else
      v <- get_string k ;;
      ret (if check v then Some v else None).

(** The part of ACQUIRE after its checks. *)
Definition grant (lease fence history owner ttl : pybytes) (new : bool) : M S reply :=
  (if new then redis_SET history (py "v1") else ret tt) ;;
  redis_INCR fence ;;
  f <- get_string fence ;;
  if negb (valid_fence f) then ret CORRUPT
  else
    redis_SET_PX lease (py "v1:" ++ owner ++ py ":" ++ f) ttl ;;
    ret [py "ACQUIRED"; f].

(** The part of ACQUIRE that looks at the lease; [previous] is the fence, or
    [None] for a lock that was never acquired. *)
Definition check_lease (lease fence history owner ttl : pybytes) (previous : option pybytes)
    : M S reply :=
  lease_type <- redis_TYPE lease ;;
  if negb (bool_decide (lease_type = py "none")) then
    match previous with
    | None => ret CORRUPT
    | Some p =>
        if negb (bool_decide (lease_type = py "string")) then ret CORRUPT
        else
          current <- get_string lease ;;
          match lua_record current with
          | None => ret CORRUPT
          | Some (_, f) =>
              if negb (bool_decide (f = p)) then ret CORRUPT
              else
                pttl <- redis_PTTL lease ;;
                if pttl <=? 0 then ret CORRUPT else ret [py "CONTENDED"]
          end
    end
  else if bool_decide (previous = Some (py "9223372036854775807")) then ret CORRUPT
  else grant lease fence history owner ttl (bool_decide (previous = None)).

Definition acquire_script (lease fence history owner ttl : pybytes) : M S reply :=
  history_type <- redis_TYPE history ;;
  h <- (if bool_decide (history_type = py "none") then ret (Some [])
        else persistent_ok history_type history (fun v => bool_decide (v = py "v1"))) ;;
  match h with
  | None => ret CORRUPT
  | Some _ =>
      fence_type <- redis_TYPE fence ;;
      if bool_decide (fence_type = py "none") then
        if negb (bool_decide (history_type = py "none")) then ret CORRUPT
        else check_lease lease fence history owner ttl None
      else if bool_decide (history_type = py "none") then ret CORRUPT
      else
        p <- persistent_ok fence_type fence valid_fence ;;
        match p with
        | None => ret CORRUPT
        | Some previous => check_lease lease fence history owner ttl (Some previous)
        end
  end.

(** The part RENEW, PROBE and RELEASE share: [absent] replies for no lease or
    another owner's, [own] continues for the caller's. *)
Definition on_own_lease (lease record : pybytes) (own : M S reply) : M S reply :=
  lease_type <- redis_TYPE lease ;;
  if bool_decide (lease_type = py "none") then ret [py "NOT_HELD"]
  else if negb (bool_decide (lease_type = py "string")) then ret CORRUPT
  else
    current <- get_string lease ;;
    match lua_record current with
    | None => ret CORRUPT
    | Some _ =>
        ttl <- redis_PTTL lease ;;
        if ttl =? -1 then ret CORRUPT
        else if ttl <=? 0 then ret [py "NOT_HELD"]
        else if negb (bool_decide (current = record)) then ret [py "NOT_HELD"]
        else own
    end.

Definition renew_script (lease record ttl : pybytes) : M S reply :=
  on_own_lease lease record (redis_PEXPIRE lease ttl ;; ret [py "RENEWED"]).

Definition probe_script (lease record : pybytes) : M S reply :=
  on_own_lease lease record (ret [py "HELD"]).

Definition release_script (lease record ttl : pybytes) : M S reply :=
  on_own_lease lease record
    (if bool_decide (ttl = py "0") then redis_DEL lease ;; ret [py "DELETED"]
     else redis_PEXPIRE lease ttl ;; ret [py "MIN_TTL_APPLIED"]).

Definition reconcile_script (lease : pybytes) : M S reply :=
  lease_type <- redis_TYPE lease ;;
  if bool_decide (lease_type = py "none") then ret [py "ABSENT"]
  else if negb (bool_decide (lease_type = py "string")) then ret CORRUPT
  else
    current <- get_string lease ;;
    match lua_record current with
    | None => ret CORRUPT
    | Some _ =>
        ttl <- redis_PTTL lease ;;
        if ttl =? -1 then ret CORRUPT
        else if ttl <=? 0 then ret [py "ABSENT"]
        else ret [py "PRESENT"; current]
    end.
End Scripts.

(** ** Dispatch *)

Inductive script_name : Type :=
| ACQUIRE_SCRIPT | RENEW_SCRIPT | PROBE_SCRIPT | RECONCILE_SCRIPT | RELEASE_SCRIPT.

#[export] Instance script_name_eq_dec : EqDecision script_name.
Proof. solve_decision. Defined.

(** A value of a dispatch or a reply: [bytes], or an object of another class. *)
Abbreviation part := (option pybytes).

Inductive reply_value : Type :=
| ReplyParts (parts : list part)
| ReplyOther.

Definition INVALID_RESPONSE : exn := ValueError "invalid Redis script response".
Definition INVALID_ARGUMENT : exn := ValueError "Redis script argument is invalid".
Definition INVALID_DISPATCH : exn := TypeError "invalid Redis script dispatch".

Definition canonical_positive_decimal (value : pybytes) : bool :=
  if negb (is_ascii value) then false else is_canonical_fence value.

Definition validate_milliseconds (value : pybytes) (allow_zero : bool) : outcome unit :=
  if allow_zero && bool_decide (value = py "0") then Returned tt
  else if negb (canonical_positive_decimal value) then Raised INVALID_ARGUMENT
  else Returned tt.

Definition valid_owner_bytes (value : pybytes) : bool :=
  if negb (is_ascii value) then false else is_owner_token value.

Definition validate_bytes (value : part) : outcome unit :=
  match value with
  | None | Some [] => Raised INVALID_DISPATCH
  | Some _ => Returned tt
  end.

(** [for value in values: _validate_bytes(value)]: the values, when all are. *)
Fixpoint validate_all (values : list part) : outcome (list pybytes) :=
  match values with
  | [] => Returned []
  | v :: values' =>
      match v, validate_bytes v with
      | Some b, Returned _ =>
          match validate_all values' with
          | Returned bs => Returned (b :: bs)
          | Raised e => Raised e
          end
      | _, _ => Raised INVALID_DISPATCH
      end
  end.

Definition validate_record_argument (record : pybytes) : outcome unit :=
  match parse record with Returned _ => Returned tt | Raised _ => Raised INVALID_ARGUMENT end.

(** [_validate_dispatch]: the keys and arguments as [bytes]. *)
Definition validate_dispatch (script : script_name) (keys args : list part)
    : outcome (list pybytes * list pybytes) :=
  match validate_all (keys ++ args) with
  | Raised e => Raised e
  | Returned values =>
      let ks := take (length keys) values in
      let vs := drop (length keys) values in
      let checked (r : outcome unit) : outcome (list pybytes * list pybytes) :=
        match r with Returned _ => Returned (ks, vs) | Raised e => Raised e end in
      match script with
      | ACQUIRE_SCRIPT =>
          match ks, vs with
          | [_; _; _], [owner; ttl] =>
              if negb (valid_owner_bytes owner) then Raised INVALID_ARGUMENT
              else checked (validate_milliseconds ttl false)
          | _, _ => Raised INVALID_ARGUMENT
          end
      | PROBE_SCRIPT =>
          match ks, vs with
          | [_], [record] => checked (validate_record_argument record)
          | _, _ => Raised INVALID_ARGUMENT
          end
      | RENEW_SCRIPT | RELEASE_SCRIPT =>
          match ks, vs with
          | [_], [record; ttl] =>
              match validate_record_argument record with
              | Raised e => Raised e
              | Returned _ =>
                  checked (validate_milliseconds ttl (bool_decide (script = RELEASE_SCRIPT)))
              end
          | _, _ => Raised INVALID_ARGUMENT
          end
      | RECONCILE_SCRIPT => Raised INVALID_DISPATCH
      end
  end.

(** [_validated_script_args]. *)
Definition validated_script_args (owner : pystr) (ttl_ms : Z) : outcome (pybytes * pybytes) :=
  if negb (is_owner_token owner) then Raised INVALID_ARGUMENT
  else if (ttl_ms <=? 0) || (MAX_REDIS_INTEGER <? ttl_ms) then Raised INVALID_ARGUMENT
  else Returned (owner, decimal ttl_ms).

(** ** Replies *)

Definition response_parts (value : reply_value) : outcome (list pybytes) :=
  match value with
  | ReplyOther => Raised INVALID_RESPONSE
  | ReplyParts parts =>
      if bool_decide (parts = []) || negb (forallb (fun p => bool_decide (is_Some p)) parts)
      then Raised INVALID_RESPONSE
      else Returned (omap (fun p => p) parts)
  end.

Inductive acquire_status : Type := StatusAcquired (fence : Z) | StatusContended | StatusCorrupt.

Definition parse_acquire_response (value : reply_value) : outcome acquire_status :=
  match response_parts value with
  | Raised e => Raised e
  | Returned parts =>
      if bool_decide (parts = [py "CONTENDED"]) then Returned StatusContended
      else if bool_decide (parts = [py "CORRUPT"]) then Returned StatusCorrupt
      else
        match parts with
        | [tag; fence] =>
            if bool_decide (tag = py "ACQUIRED") && canonical_positive_decimal fence
            then Returned (StatusAcquired (undecimal fence)) else Raised INVALID_RESPONSE
        | _ => Raised INVALID_RESPONSE
        end
  end.

Definition parse_status_response (value : reply_value) (allowed : list pystr) : outcome pystr :=
  match response_parts value with
  | Raised e => Raised e
  | Returned [status] =>
      if negb (is_ascii status) then Raised INVALID_RESPONSE
      else if bool_decide (status ∈ allowed) then Returned status else Raised INVALID_RESPONSE
  | Returned _ => Raised INVALID_RESPONSE
  end.

Inductive reconcile_status : Type :=
| StatusPresent (record : LeaseRecord) | StatusAbsent | StatusReconcileCorrupt.

Definition parse_reconcile_response (value : reply_value) : outcome reconcile_status :=
  match response_parts value with
  | Raised e => Raised e
  | Returned parts =>
      if bool_decide (parts = [py "ABSENT"]) then Returned StatusAbsent
      else if bool_decide (parts = [py "CORRUPT"]) then Returned StatusReconcileCorrupt
      else
        match parts with
        | [tag; record] =>
            if bool_decide (tag = py "PRESENT") then
              match parse record with
              | Returned r => Returned (StatusPresent r)
              | Raised _ => Raised INVALID_RESPONSE
              end
            else Raised INVALID_RESPONSE
        | _ => Raised INVALID_RESPONSE
        end
  end.

(** ** Running a script *)

Section Run.
Context {W : Type}.

(** The client's EVALSHA and EVAL, which may raise as well before as after the
    server has run the script. *)
Record redis_commands : Type := {
  evalsha : script_name -> list pybytes -> list pybytes -> M W reply_value;
  eval : script_name -> list pybytes -> list pybytes -> M W reply_value;
}.

Variable commands : redis_commands.

Definition run_script (script : script_name) (keys args : list part) : M W reply_value :=
  let* (ks, vs) := pure_outcome (validate_dispatch script keys args) in
  try_except (evalsha commands script ks vs)
    (fun e => match e with NoScriptError => Some (eval commands script ks vs) | _ => None end).

Definition run_reconcile (lease_key : part) : M W reply_value :=
  pure_outcome (validate_bytes lease_key) ;;
  eval commands RECONCILE_SCRIPT (match lease_key with Some k => [k] | None => [] end) [].
End Run.
Arguments redis_commands : clear implicits.

(** ** The recognisers agree *)

Lemma valid_fence_canonical f : valid_fence f = is_canonical_fence f.
Proof.
  unfold valid_fence, is_canonical_fence, lua_positive. destruct f as [|c s]; [done|].
  change (length MAX_REDIS_INTEGER_TEXT) with 19%nat. fold MAX_REDIS_INTEGER_TEXT.
  destruct (forallb is_digit s) eqn:Hs.
  - destruct ((49 <=? c) && (c <=? 57)) eqn:Hc; [|done]. cbn [andb negb].
    assert (forallb is_digit (c :: s) = true) as Hd.
    { cbn [forallb]. rewrite Hs. unfold is_digit. lia. }
    by rewrite Hd, is_digit_ascii.
  - cbn [forallb]. rewrite Hs, andb_false_r. cbn [negb]. by rewrite !andb_false_r.
Qed.

Lemma span_owner_app s owner rest : span_owner s = (owner, rest) -> s = owner ++ rest.
Proof.
  revert owner rest. induction s as [|c s IH]; intros owner rest; cbn; [by intros [= <- <-]|].
  destruct (owner_character c); [|by intros [= <- <-]].
  destruct (span_owner s) as [o r]. intros [= <- <-]. by rewrite (IH o r).
Qed.

Lemma span_owner_chars s owner rest : span_owner s = (owner, rest) -> forallb owner_character owner = true.
Proof.
  revert owner rest. induction s as [|c s IH]; intros owner rest; cbn; [by intros [= <- <-]|].
  destruct (owner_character c) eqn:Ec; [|by intros [= <- <-]].
  destruct (span_owner s) as [o r]. intros [= <- <-]. cbn. by rewrite Ec, (IH o r).
Qed.

Lemma span_owner_max owner c rest :
  forallb owner_character owner = true -> owner_character c = false ->
  span_owner (owner ++ c :: rest) = (owner, c :: rest).
Proof.
  intros Ho Hc. induction owner as [|d owner IH]; cbn in *; [by rewrite Hc|].
  apply andb_true_iff in Ho as [Hd Ho]. by rewrite Hd, IH.
Qed.

Lemma lua_record_parts v owner fence :
  lua_record v = Some (owner, fence) <->
  v = py "v1:" ++ owner ++ 58 :: fence /\ is_owner_token owner = true /\
  is_canonical_fence fence = true.
Proof.
  unfold lua_record, is_owner_token. split.
  - destruct (match_record v) as [[o f]|] eqn:Hm; [|done].
    destruct (length o =? 32)%nat eqn:Hl; [|done]. destruct (valid_fence f) eqn:Hf; [|done].
    intros [= -> ->]. rewrite valid_fence_canonical in Hf.
    unfold match_record in Hm. destruct (bool_decide_reflect (take 3 v = py "v1:")) as [Ht|]; [|done].
    cbn [negb] in Hm. destruct (span_owner (drop 3 v)) as [[|c o] [|colon rest]] eqn:Es; try done.
    destruct ((colon =? 58) && lua_positive rest) eqn:Ec; [|done]. injection Hm as <- <-.
    apply andb_true_iff in Ec as [Ec%Z.eqb_eq _]. subst colon.
    rewrite Hl, (span_owner_chars _ _ _ Es). split; [|done].
    rewrite <-(take_drop 3 v), Ht. f_equal. by apply span_owner_app in Es.
  - intros (-> & Ho & Hf). apply andb_true_iff in Ho as [Hl Hc].
    assert (match_record (py "v1:" ++ owner ++ 58 :: fence) = Some (owner, fence)) as ->.
    { unfold match_record. change (take 3 (py "v1:" ++ owner ++ 58 :: fence)) with (py "v1:").
      change (drop 3 (py "v1:" ++ owner ++ 58 :: fence)) with (owner ++ 58 :: fence).
      rewrite bool_decide_eq_true_2, span_owner_max by done. cbn [negb].
      destruct owner as [|c owner]; [done|]. rewrite Z.eqb_refl. cbn [andb].
      rewrite <-valid_fence_canonical in Hf. unfold valid_fence in Hf.
      by destruct (lua_positive fence). }
    by rewrite Hl, valid_fence_canonical, Hf.
Qed.

(** The recogniser of the Lua scripts and the parser of the client accept
    the same records, and read the same owner and fence from them: what one side
    writes the other understands, and both call the same values corrupt. *)
Theorem lua_recogniser_agrees v r :
  parse v = Returned r <->
  exists fence, lua_record v = Some (owner_token r, fence) /\ undecimal fence = fencing_token r.
Proof.
  rewrite parse_parts. split.
  - intros (fence & -> & Ho & Hf & E). exists fence. by rewrite lua_record_parts.
  - intros (fence & (-> & Ho & Hf)%lua_record_parts & E). by exists fence.
Qed.

Lemma lua_record_printed r :
  valid_record r -> lua_record (to_bytes r) = Some (owner_token r, decimal (fencing_token r)).
Proof.
  intros [Ho Hf]. apply lua_record_parts. split; [done|]. split; [done|]. by apply canonical_decimal.
Qed.

(** ** What the scripts do to a lock *)

(** The state of one lock: never acquired; free, with the fence last issued; or
    held under a record with some time left. *)
Inductive lock_state : Type :=
| NeverUsed
| Free (fence : Z)
| Held (record : LeaseRecord) (ttl : Z).

Record lock_keys : Type := {
  k_lease : pybytes;
  k_fence : pybytes;
  k_history : pybytes;
}.

Definition distinct_keys (ks : lock_keys) : Prop :=
  k_lease ks <> k_fence ks /\ k_lease ks <> k_history ks /\ k_fence ks <> k_history ks.

(** The keyspace [m] holds the lock in state [st]. *)
Definition represents (m : keyspace) (ks : lock_keys) (st : lock_state) : Prop :=
  match st with
  | NeverUsed => m !! k_lease ks = None /\ m !! k_fence ks = None /\ m !! k_history ks = None
  | Free n =>
      1 <= n <= MAX_REDIS_INTEGER /\ m !! k_lease ks = None /\
      m !! k_fence ks = Some (StringValue (decimal n) None) /\
      m !! k_history ks = Some (StringValue (py "v1") None)
  | Held r ttl =>
      valid_record r /\ 0 <= ttl /\ m !! k_lease ks = Some (StringValue (to_bytes r) (Some ttl)) /\
      m !! k_fence ks = Some (StringValue (decimal (fencing_token r)) None) /\
      m !! k_history ks = Some (StringValue (py "v1") None)
  end.

(** The fence last issued. *)
Definition fence_of (st : lock_state) : Z :=
  match st with NeverUsed => 0 | Free n => n | Held r _ => fencing_token r end.

(** What ACQUIRE promises: it grants a free lock with the next fence, while there
    is one. *)
Definition acquire_spec (st : lock_state) (owner : pystr) (ms : Z) : list pybytes * lock_state :=
  match st with
  | Held _ ttl => (if ttl =? 0 then [py "CORRUPT"] else [py "CONTENDED"], st)
  | _ =>
      let fence := fence_of st + 1 in
      if MAX_REDIS_INTEGER <? fence then ([py "CORRUPT"], st)
      else ([py "ACQUIRED"; decimal fence],
            Held {| owner_token := owner; fencing_token := fence |} ms)
  end.

(** [r] is the record held, with time left. *)
Definition owns (r' : LeaseRecord) (ttl : Z) (r : LeaseRecord) : bool :=
  (0 <? ttl) && bool_decide (r' = r).

Definition renew_spec (st : lock_state) (r : LeaseRecord) (ms : Z) : list pybytes * lock_state :=
  match st with
  | Held r' ttl => if owns r' ttl r then ([py "RENEWED"], Held r ms) else ([py "NOT_HELD"], st)
  | _ => ([py "NOT_HELD"], st)
  end.

Definition probe_spec (st : lock_state) (r : LeaseRecord) : list pybytes * lock_state :=
  match st with
  | Held r' ttl => if owns r' ttl r then ([py "HELD"], st) else ([py "NOT_HELD"], st)
  | _ => ([py "NOT_HELD"], st)
  end.

(** RELEASE with the minimum time left, [0] for none. *)
Definition release_spec (st : lock_state) (r : LeaseRecord) (ms : Z) : list pybytes * lock_state :=
  match st with
  | Held r' ttl =>
      if owns r' ttl r then
        if ms =? 0 then ([py "DELETED"], Free (fencing_token r))
        else ([py "MIN_TTL_APPLIED"], Held r ms)
      else ([py "NOT_HELD"], st)
  | _ => ([py "NOT_HELD"], st)
  end.

Definition reconcile_spec (st : lock_state) : list pybytes * lock_state :=
  match st with
  | Held r ttl => (if ttl =? 0 then [py "ABSENT"] else [py "PRESENT"; to_bytes r], st)
  | _ => ([py "ABSENT"], st)
  end.

Section ScriptSpecs.
Context {S : Type} `{!Redis S} `{!RedisLaws S} (ks : lock_keys).
Hypothesis keys_distinct : distinct_keys ks.

(** A script's run does as its specification says. *)
Definition implements (s : S) (run : outcome (list pybytes) * S)
    (spec : list pybytes * lock_state) : Prop :=
  exists s', run = (Returned (fst spec), s') /\ represents (view s') ks (snd spec) /\
    (forall k, k <> k_lease ks -> k <> k_fence ks -> k <> k_history ks ->
       view s' !! k = view s !! k).

Lemma get_string_run k s v ttl :
  view s !! k = Some (StringValue v ttl) -> get_string k s = (Returned v, s).
Proof. intros Hk. unfold get_string, bind. by rewrite (get_law k s v ttl). Qed.

Lemma persistent_ok_run k s v check :
  view s !! k = Some (StringValue v None) ->
  persistent_ok (py "string") k check s = (Returned (if check v then Some v else None), s).
Proof.
  intros Hk. unfold persistent_ok. rewrite bool_decide_eq_true_2 by done. cbn [negb].
  unfold bind at 1. rewrite pttl_law, Hk. cbn. unfold bind. by rewrite (get_string_run k s v None).
Qed.

(** RENEW, PROBE and RELEASE on a lock in a known state. *)
Lemma on_own_lease_run s st r own :
  represents (view s) ks st -> valid_record r ->
  on_own_lease (k_lease ks) (to_bytes r) own s =
  match st with
  | Held r' ttl => if owns r' ttl r then own s else (Returned [py "NOT_HELD"], s)
  | _ => (Returned [py "NOT_HELD"], s)
  end.
Proof.
  intros Hst Hr. unfold on_own_lease. unfold bind at 1. rewrite type_law.
  destruct st as [|n|r' ttl].
  - destruct Hst as (-> & _). done.
  - destruct Hst as (_ & -> & _). done.
  - destruct Hst as (Hv & Ht & Hl & _). rewrite Hl.
    rewrite bool_decide_eq_false_2 by done. rewrite bool_decide_eq_true_2 by done. cbn [negb].
    unfold bind at 1. rewrite (get_string_run _ _ _ _ Hl), lua_record_printed by done.
    unfold bind at 1. rewrite pttl_law, Hl. cbn [entry_ttl default from_option id].
    destruct (Z.eqb_spec ttl (-1)); [lia|]. unfold owns.
    destruct (Z.leb_spec ttl 0), (Z.ltb_spec 0 ttl); try lia; [done|]. cbn [andb].
    rewrite (bool_decide_ext (to_bytes r' = to_bytes r) (r' = r)).
    + by destruct (bool_decide (r' = r)).
    + split; [|by intros ->]. intros E. by apply to_bytes_inj in E.
Qed.

Lemma owns_same r' ttl r : owns r' ttl r = true -> r' = r.
Proof. intros E. by apply andb_true_iff in E as [_ E%bool_decide_eq_true]. Qed.

Lemma implements_same s st reply :
  represents (view s) ks st -> implements s (Returned reply, s) (reply, st).
Proof. intros Hst. by exists s. Qed.

(** A new time to live for the record that is held. *)
Lemma pexpire_held s r ttl ms reply :
  represents (view s) ks (Held r ttl) -> 1 <= ms <= px_limit ->
  implements s ((redis_PEXPIRE (k_lease ks) (decimal ms) ;; ret reply) s) (reply, Held r ms).
Proof.
  intros (Hv & Ht & Hl & Hf & Hh) Hms. destruct keys_distinct as (D1 & D2 & D3).
  destruct (pexpire_law _ _ _ ms s Hl Hms) as (s' & E & Hview).
  exists s'. unfold bind. rewrite E. split; [done|]. cbn [snd represents]. rewrite Hview.
  split; [|intros k Hk _ _; by rewrite lookup_insert_ne].
  split; [done|]. split; [lia|]. rewrite lookup_insert_eq, !lookup_insert_ne by done. done.
Qed.

Lemma renew_implements s st r ms :
  represents (view s) ks st -> valid_record r -> 1 <= ms <= px_limit ->
  implements s (renew_script (k_lease ks) (to_bytes r) (decimal ms) s) (renew_spec st r ms).
Proof.
  intros Hst Hr Hms. unfold renew_script. rewrite (on_own_lease_run s st) by done.
  destruct st as [|n|r' ttl]; cbn; try by apply implements_same.
  destruct (owns r' ttl r) eqn:E; [|by apply implements_same].
  apply owns_same in E as ->. by eapply pexpire_held.
Qed.

Lemma probe_implements s st r :
  represents (view s) ks st -> valid_record r ->
  implements s (probe_script (k_lease ks) (to_bytes r) s) (probe_spec st r).
Proof.
  intros Hst Hr. unfold probe_script. rewrite (on_own_lease_run s st) by done.
  destruct st as [|n|r' ttl]; cbn; try by apply implements_same.
  destruct (owns r' ttl r); by apply implements_same.
Qed.

Lemma decimal_zero ms : 0 <= ms -> decimal ms = py "0" <-> ms = 0.
Proof.
  intros Hms. split; [|by intros ->]. intros E.
  by rewrite <-(undecimal_decimal ms), E by done.
Qed.

Lemma release_implements s st r ms :
  represents (view s) ks st -> valid_record r -> 0 <= ms <= px_limit ->
  implements s (release_script (k_lease ks) (to_bytes r) (decimal ms) s) (release_spec st r ms).
Proof.
  intros Hst Hr Hms. unfold release_script. rewrite (on_own_lease_run s st) by done.
  destruct st as [|n|r' ttl]; cbn; try by apply implements_same.
  destruct (owns r' ttl r) eqn:Eo; [|by apply implements_same].
  apply owns_same in Eo as ->. destruct (Z.eqb_spec ms 0) as [->|Hne].
  - rewrite bool_decide_eq_true_2 by done. destruct Hst as (Hv & Ht & Hl & Hf & Hh).
    destruct keys_distinct as (D1 & D2 & D3).
    destruct (del_law (k_lease ks) s) as (s' & E & Hview).
    exists s'. unfold bind. rewrite E. split; [done|]. cbn [snd represents]. rewrite Hview.
    split; [|intros k Hk _ _; by rewrite lookup_delete_ne].
    split; [apply Hv|]. by rewrite lookup_delete_eq, !lookup_delete_ne by done.
  - rewrite bool_decide_eq_false_2 by (intros E; apply decimal_zero in E; lia).
    eapply pexpire_held; [done|lia].
Qed.

Lemma reconcile_implements s st :
  represents (view s) ks st ->
  implements s (reconcile_script (k_lease ks) s) (reconcile_spec st).
Proof.
  intros Hst. unfold reconcile_script. unfold bind at 1. rewrite type_law.
  destruct st as [|n|r ttl].
  - destruct Hst as (Hl & Hrest). rewrite Hl. by apply implements_same.
  - pose proof Hst as (_ & Hl & _). rewrite Hl. by apply implements_same.
  - pose proof Hst as (Hv & Ht & Hl & _). rewrite Hl.
    rewrite bool_decide_eq_false_2 by done. rewrite bool_decide_eq_true_2 by done. cbn [negb].
    unfold bind at 1. rewrite (get_string_run _ _ _ _ Hl), lua_record_printed by done.
    unfold bind at 1. rewrite pttl_law, Hl. cbn [entry_ttl default from_option id].
    destruct (Z.eqb_spec ttl (-1)); [lia|]. unfold reconcile_spec.
    destruct (Z.leb_spec ttl 0), (Z.eqb_spec ttl 0); try lia; by apply implements_same.
Qed.

(** ** ACQUIRE *)

Lemma type_string e : type_name (Some e) = py "string" -> exists v ttl, e = StringValue v ttl.
Proof. destruct e as [v ttl|[] ttl]; try done. eauto. Qed.

Lemma type_present e : type_name (Some e) <> py "none".
Proof. by destruct e as [v ttl|[] ttl]. Qed.

(** The checks of a persistent key, whatever it holds. *)
Lemma persistent_ok_any k s e check :
  view s !! k = Some e ->
  persistent_ok (type_name (Some e)) k check s
  = (Returned (match e with
               | StringValue v None => if check v then Some v else None
               | _ => None
               end), s).
Proof.
  intros Hk. destruct (decide (type_name (Some e) = py "string")) as [Ht|Ht].
  - destruct (type_string e Ht) as (v & [t|] & ->); rewrite Ht.
    + unfold persistent_ok. rewrite bool_decide_eq_true_2 by done. cbn [negb].
      unfold bind at 1. rewrite pttl_law, Hk. cbn [entry_ttl default from_option id].
      pose proof (ttl_law k s _ t Hk eq_refl). by destruct (Z.eqb_spec t (-1)); [lia|].
    + by apply persistent_ok_run.
  - unfold persistent_ok. rewrite bool_decide_eq_false_2 by done.
    by destruct e as [v [t|]|[] ttl].
Qed.

(** Granting the lease to a new owner. *)
Lemma grant_run s owner ms n :
  is_owner_token owner = true -> 1 <= ms <= px_limit -> 0 <= n < MAX_REDIS_INTEGER ->
  view s !! k_fence ks = (if decide (n = 0) then None else Some (StringValue (decimal n) None)) ->
  (n <> 0 -> view s !! k_history ks = Some (StringValue (py "v1") None)) ->
  implements s (grant (k_lease ks) (k_fence ks) (k_history ks) owner (decimal ms)
                  (bool_decide (n = 0)) s)
    ([py "ACQUIRED"; decimal (n + 1)],
     Held {| owner_token := owner; fencing_token := n + 1 |} ms).
Proof.
  intros Ho Hms Hn Hf Hh. destruct keys_distinct as (D1 & D2 & D3).
  assert (exists s1, (if bool_decide (n = 0) then redis_SET (k_history ks) (py "v1") else ret tt) s
            = (Returned tt, s1) /\
          view s1 !! k_history ks = Some (StringValue (py "v1") None) /\
          (forall k, k <> k_history ks -> view s1 !! k = view s !! k)) as (s1 & E1 & V1 & V1').
  { destruct (bool_decide_reflect (n = 0)).
    - destruct (set_law (k_history ks) (py "v1") s) as (s1 & E & V). exists s1. rewrite V.
      split; [done|]. split; [by rewrite lookup_insert_eq|]. intros k Hk. by rewrite lookup_insert_ne.
    - exists s. auto. }
  assert (exists s2, redis_INCR (k_fence ks) s1 = (Returned tt, s2) /\
          view s2 = <[k_fence ks := StringValue (decimal (n + 1)) None]> (view s1)) as (s2 & E2 & V2).
  { rewrite <-V1' in Hf by done. destruct (decide (n = 0)) as [->|].
    - by apply incr_new_law.
    - apply incr_law; [done|lia]. }
  assert (view s2 !! k_fence ks = Some (StringValue (decimal (n + 1)) None)) as F2
    by (by rewrite V2, lookup_insert_eq).
  destruct (set_px_law (k_lease ks) (py "v1:" ++ owner ++ py ":" ++ decimal (n + 1)) ms s2 Hms)
    as (s3 & E3 & V3).
  exists s3. unfold grant. unfold bind at 1. rewrite E1. unfold bind at 1. rewrite E2.
  unfold bind at 1. rewrite (get_string_run _ _ _ _ F2).
  rewrite valid_fence_canonical, canonical_decimal by lia. cbn [negb]. unfold bind at 1.
  rewrite E3. split; [done|]. cbn [snd represents]. rewrite V3. split.
  - split; [split; [done|cbn; lia]|]. split; [lia|]. split; [by rewrite lookup_insert_eq|].
    rewrite !lookup_insert_ne by done. split; [done|]. by rewrite V2, lookup_insert_ne.
  - intros k K1 K2 K3. rewrite lookup_insert_ne, V2, lookup_insert_ne by done. by apply V1'.
Qed.

(** The fence that ACQUIRE has read when it looks at the lease. *)
Definition previous_of (st : lock_state) : option pybytes :=
  match st with NeverUsed => None | _ => Some (decimal (fence_of st)) end.

(** Looking at the lease of a lock in a known state. *)
Lemma check_lease_run s st owner ms :
  represents (view s) ks st -> is_owner_token owner = true -> 1 <= ms <= px_limit ->
  implements s (check_lease (k_lease ks) (k_fence ks) (k_history ks) owner (decimal ms)
                  (previous_of st) s)
    (acquire_spec st owner ms).
Proof.
  intros Hst Ho Hms. unfold check_lease. unfold bind at 1. rewrite type_law.
  destruct st as [|n|r ttl]; cbn [previous_of].
  - pose proof Hst as (Hl & Hf & Hh). rewrite Hl, bool_decide_eq_true_2 by done. cbn [negb].
    rewrite bool_decide_eq_false_2 by done.
    rewrite (bool_decide_ext (None = None) (0 = 0)) by done.
    by apply (grant_run s owner ms 0).
  - pose proof Hst as (Hn & Hl & Hf & Hh). rewrite Hl, bool_decide_eq_true_2 by done. cbn [negb].
    cbn [fence_of acquire_spec].
    destruct (Z.ltb_spec MAX_REDIS_INTEGER (n + 1)) as [Hmax|Hmax].
    + assert (n = MAX_REDIS_INTEGER) as -> by lia.
      rewrite bool_decide_eq_true_2 by (vm_compute; reflexivity). by apply implements_same.
    + rewrite bool_decide_eq_false_2.
      * rewrite (bool_decide_ext (Some (decimal n) = None) (n = 0)) by (split; [done|lia]).
        apply grant_run; [done|done|lia|by rewrite decide_False by lia|done].
      * intros [= E]. pose proof (undecimal_decimal n ltac:(lia)) as En. rewrite E in En.
        vm_compute in En. unfold MAX_REDIS_INTEGER in Hmax. lia.
  - pose proof Hst as (Hv & Ht & Hl & Hf & Hh). rewrite Hl.
    rewrite bool_decide_eq_false_2 by done. cbn [negb].
    rewrite bool_decide_eq_true_2 by done. cbn [negb].
    unfold bind at 1. rewrite (get_string_run _ _ _ _ Hl), lua_record_printed by done.
    cbn [fence_of]. rewrite bool_decide_eq_true_2 by done. cbn [negb].
    unfold bind at 1. rewrite pttl_law, Hl. cbn [entry_ttl default from_option id].
    unfold acquire_spec. destruct (Z.leb_spec ttl 0), (Z.eqb_spec ttl 0); try lia;
      by apply implements_same.
Qed.

Lemma acquire_implements s st owner ms :
  represents (view s) ks st -> is_owner_token owner = true -> 1 <= ms <= px_limit ->
  implements s (acquire_script (k_lease ks) (k_fence ks) (k_history ks) owner (decimal ms) s)
    (acquire_spec st owner ms).
Proof.
  intros Hst Ho Hms. pose proof (check_lease_run s st owner ms Hst Ho Hms) as Hcheck.
  unfold acquire_script. unfold bind at 1. rewrite type_law.
  assert (st = NeverUsed \/ st <> NeverUsed) as [->|Hused] by (destruct st; auto).
  - destruct Hst as (Hl & Hf & Hh). rewrite Hh, bool_decide_eq_true_2 by done.
    unfold bind at 1. cbn [ret]. unfold bind at 1. rewrite type_law, Hf.
    rewrite bool_decide_eq_true_2 by done. exact Hcheck.
  - assert (1 <= fence_of st <= MAX_REDIS_INTEGER /\
      view s !! k_fence ks = Some (StringValue (decimal (fence_of st)) None) /\
      view s !! k_history ks = Some (StringValue (py "v1") None)) as (Hn & Hf & Hh).
    { destruct st as [|n|r ttl]; [done| |].
      - by destruct Hst as (? & _ & ? & ?).
      - destruct Hst as ((_ & ?) & _ & _ & ? & ?). done. }
    rewrite Hh. cbn [type_name]. rewrite bool_decide_eq_false_2 by done.
    unfold bind at 1. rewrite (persistent_ok_run _ _ _ _ Hh), bool_decide_eq_true_2 by done.
    unfold bind at 1. rewrite type_law, Hf. cbn [type_name]. rewrite bool_decide_eq_false_2 by done.
    unfold bind at 1. rewrite (persistent_ok_run _ _ _ _ Hf).
    rewrite valid_fence_canonical, canonical_decimal by done.
    by destruct st.
Qed.

(** ** Corruption *)

Lemma canonical_fence_value f :
  valid_fence f = true -> 1 <= undecimal f <= MAX_REDIS_INTEGER /\ f = decimal (undecimal f).
Proof. rewrite valid_fence_canonical. by intros Hf%is_canonical_fence_spec. Qed.

(** Keys that hold no lock are reported as corrupt and left alone. *)
Lemma check_lease_corrupt s owner ms p :
  (forall st, ~ represents (view s) ks st) ->
  match p with
  | None => view s !! k_fence ks = None /\ view s !! k_history ks = None
  | Some f => valid_fence f = true /\ view s !! k_fence ks = Some (StringValue f None) /\
              view s !! k_history ks = Some (StringValue (py "v1") None)
  end ->
  check_lease (k_lease ks) (k_fence ks) (k_history ks) owner ms p s = (Returned CORRUPT, s).
Proof.
  intros Hno Hp. unfold check_lease. unfold bind at 1. rewrite type_law.
  destruct (view s !! k_lease ks) as [e|] eqn:Hl.
  - rewrite bool_decide_eq_false_2 by apply type_present. cbn [negb].
    destruct p as [f|]; [|done]. destruct Hp as (Hf & Hfence & Hh).
    destruct (bool_decide_reflect (type_name (Some e) = py "string")) as [Ht|]; [|done]. cbn [negb].
    destruct (type_string e Ht) as (v & ttl & ->).
    unfold bind at 1. rewrite (get_string_run _ _ _ _ Hl).
    destruct (lua_record v) as [[o f']|] eqn:Hr; [|done].
    destruct (bool_decide_reflect (f' = f)) as [->|]; [|done]. cbn [negb].
    apply lua_record_parts in Hr as (-> & Ho & Hc).
    unfold bind at 1. rewrite pttl_law, Hl. cbn [entry_ttl].
    destruct ttl as [t|]; cbn [default from_option id]; [|done].
    pose proof (ttl_law _ s _ t Hl eq_refl) as Ht0.
    destruct (canonical_fence_value f Hf) as [Hb Hd].
    destruct (Hno (Held {| owner_token := o; fencing_token := undecimal f |} t)).
    split; [by split|]. split; [done|]. unfold to_bytes. cbn [owner_token fencing_token].
    rewrite <-Hd. split; [exact Hl|done].
  - destruct p as [f|].
    + destruct Hp as (Hf & Hfence & Hh). destruct (canonical_fence_value f Hf) as [Hb Hd].
      destruct (Hno (Free (undecimal f))). split; [done|]. rewrite <-Hd. done.
    + destruct Hp as [Hfence Hh]. by destruct (Hno NeverUsed).
Qed.

Lemma acquire_corrupt s owner ms :
  (forall st, ~ represents (view s) ks st) ->
  acquire_script (k_lease ks) (k_fence ks) (k_history ks) owner ms s = (Returned CORRUPT, s).
Proof.
  intros Hno. unfold acquire_script. unfold bind at 1. rewrite type_law.
  destruct (view s !! k_history ks) as [h|] eqn:Hh.
  - rewrite bool_decide_eq_false_2 by apply type_present.
    unfold bind at 1. rewrite (persistent_ok_any _ _ h) by done.
    destruct h as [v [t|]|kind ttl]; try done.
    destruct (bool_decide_reflect (v = py "v1")) as [->|]; [|done].
    unfold bind at 1. rewrite type_law.
    destruct (view s !! k_fence ks) as [f|] eqn:Hf; [|done].
    rewrite bool_decide_eq_false_2 by apply type_present.
    unfold bind at 1. rewrite (persistent_ok_any _ _ f) by done.
    destruct f as [v [t|]|kind ttl]; try done. destruct (valid_fence v) eqn:Hv; [|done].
    by apply check_lease_corrupt.
  - rewrite bool_decide_eq_true_2 by done. unfold bind at 1. cbn [ret].
    unfold bind at 1. rewrite type_law.
    destruct (view s !! k_fence ks) as [f|] eqn:Hf.
    + by rewrite bool_decide_eq_false_2 by apply type_present.
    + rewrite bool_decide_eq_true_2 by done. cbn [negb]. by apply check_lease_corrupt.
Qed.

(** The acquire script is exact.  On keys that hold a lock it grants a free
    lock with the next fencing token and the caller's record, reports a held one
    as contended and changes nothing else; on keys that hold no lock (a wrong
    type, an unwanted or missing expiry, a malformed record, a fence that does
    not match, a missing marker) it reports corruption and changes nothing, so
    no damage is ever repaired by issuing a lower fence. *)
Theorem acquire_script_exact s owner ms :
  is_owner_token owner = true -> 1 <= ms <= px_limit ->
  (forall st, represents (view s) ks st ->
     implements s (acquire_script (k_lease ks) (k_fence ks) (k_history ks) owner (decimal ms) s)
       (acquire_spec st owner ms)) /\
  ((forall st, ~ represents (view s) ks st) ->
     acquire_script (k_lease ks) (k_fence ks) (k_history ks) owner (decimal ms) s
     = (Returned CORRUPT, s)).
Proof.
  intros Ho Hms. split; [|by apply acquire_corrupt]. intros st Hst. by apply acquire_implements.
Qed.

(** ** The lock under any clients *)

(** Time passes: an expiry comes closer, and at its end the key vanishes. *)
Definition elapsed (m m' : keyspace) : Prop :=
  forall k, m' !! k = m !! k \/
    exists v t, m !! k = Some (StringValue v (Some t)) /\
      (m' !! k = None \/ exists t', 0 <= t' <= t /\ m' !! k = Some (StringValue v (Some t'))).

(** The record that an acquire reply grants. *)
Definition granted (reply : list pybytes) (owner : pystr) : list LeaseRecord :=
  match reply with
  | [tag; fence] =>
      if bool_decide (tag = py "ACQUIRED")
      then [{| owner_token := owner; fencing_token := undecimal fence |}] else []
  | _ => []
  end.

(** One script of some client, or the passing of time; [issued] lists the
    records granted so far. *)
Inductive lock_step : S * list LeaseRecord -> S * list LeaseRecord -> Prop :=
| step_acquire s issued owner ms reply s' :
    is_owner_token owner = true -> 1 <= ms <= px_limit ->
    acquire_script (k_lease ks) (k_fence ks) (k_history ks) owner (decimal ms) s
      = (Returned reply, s') ->
    lock_step (s, issued) (s', issued ++ granted reply owner)
| step_renew s issued r ms reply s' :
    valid_record r -> 1 <= ms <= px_limit ->
    renew_script (k_lease ks) (to_bytes r) (decimal ms) s = (Returned reply, s') ->
    lock_step (s, issued) (s', issued)
| step_probe s issued r reply s' :
    valid_record r -> probe_script (k_lease ks) (to_bytes r) s = (Returned reply, s') ->
    lock_step (s, issued) (s', issued)
| step_release s issued r ms reply s' :
    valid_record r -> 0 <= ms <= px_limit ->
    release_script (k_lease ks) (to_bytes r) (decimal ms) s = (Returned reply, s') ->
    lock_step (s, issued) (s', issued)
| step_reconcile s issued reply s' :
    reconcile_script (k_lease ks) s = (Returned reply, s') ->
    lock_step (s, issued) (s', issued)
| step_time s issued s' : elapsed (view s) (view s') -> lock_step (s, issued) (s', issued).

(** The lock is in a state whose fence is the last one issued, fences were
    issued in increasing order, and a held record is the last one granted. *)
Definition lock_ok (c : S * list LeaseRecord) : Prop :=
  exists st, represents (view c.1) ks st /\
    StronglySorted Z.lt (fencing_token <$> c.2) /\
    Forall (fun r => fencing_token r <= fence_of st) c.2 /\
    match st with Held r _ => last c.2 = Some r | _ => True end.

Lemma represents_elapsed m m' st :
  represents m ks st -> elapsed m m' ->
  exists st', represents m' ks st' /\ fence_of st' = fence_of st /\
    match st' with Held r' _ => exists t, st = Held r' t | _ => True end.
Proof.
  intros Hst He. assert (forall k, (forall v t, m !! k <> Some (StringValue v (Some t))) ->
    m' !! k = m !! k) as Hkeep.
  { intros k Hk. destruct (He k) as [?|(v & t & Hv & _)]; [done|]. by destruct (Hk v t). }
  destruct st as [|n|r ttl].
  - destruct Hst as (Hl & Hf & Hh). exists NeverUsed. split; [|done].
    split; [|split]; rewrite Hkeep; congruence.
  - destruct Hst as (Hn & Hl & Hf & Hh). exists (Free n). split; [|done].
    split; [done|]. split; [|split]; rewrite Hkeep; congruence.
  - destruct Hst as (Hv & Ht & Hl & Hf & Hh).
    assert (m' !! k_fence ks = m !! k_fence ks) as Hf' by (apply Hkeep; congruence).
    assert (m' !! k_history ks = m !! k_history ks) as Hh' by (apply Hkeep; congruence).
    rewrite <-Hf' in Hf. rewrite <-Hh' in Hh.
    destruct (He (k_lease ks)) as [E|(v & t & E & [E'|(t' & Ht' & E')])].
    + rewrite <-E in Hl. exists (Held r ttl). split; [done|]. split; [done|]. by exists ttl.
    + exists (Free (fencing_token r)). split; [|done]. split; [apply Hv|done].
    + rewrite Hl in E. injection E as <- <-. exists (Held r t'). split; [|split; [done|by exists ttl]].
      split; [done|]. split; [lia|done].
Qed.

(** A script that neither issues a fence nor changes the holder. *)
Lemma lock_ok_same s issued st st' s' :
  represents (view s') ks st' -> fence_of st' = fence_of st ->
  match st' with Held r' _ => exists t, st = Held r' t | _ => True end ->
  represents (view s) ks st -> lock_ok (s, issued) -> lock_ok (s', issued).
Proof.
  intros Hst' Hf Hheld Hst (st0 & Hst0 & Hs & Hall & Hlast). cbn [fst snd] in *.
  assert (fence_of st0 = fence_of st /\
          match st with Held r _ => last issued = Some r | _ => True end) as [Hf0 Hl].
  { destruct st as [|n|r t], st0 as [|n0|r0 t0]; cbn [represents fence_of] in *;
      repeat match goal with H : _ /\ _ |- _ => destruct H end; try congruence; try by split.
    - assert (decimal n0 = decimal n) as E by congruence. split; [|done].
      rewrite <-(undecimal_decimal n0), <-(undecimal_decimal n) by lia. congruence.
    - assert (to_bytes r0 = to_bytes r) as E by congruence. apply to_bytes_inj in E as ->; done. }
  exists st'. split; [done|]. split; [done|]. split; [by rewrite Hf, <-Hf0|].
  destruct st' as [|n|r' t']; [done|done|]. by destruct Hheld as (t & ->).
Qed.

Lemma lock_ok_kept s issued st s' :
  represents (view s) ks st -> represents (view s') ks st -> lock_ok (s, issued) ->
  lock_ok (s', issued).
Proof.
  intros Hst Hst' Hok. refine (lock_ok_same s issued st st s' Hst' eq_refl _ Hst Hok).
  destruct st; eauto.
Qed.

Lemma granted_acquired owner n : 1 <= n ->
  granted [py "ACQUIRED"; decimal n] owner = [{| owner_token := owner; fencing_token := n |}].
Proof.
  intros Hn. unfold granted. rewrite bool_decide_eq_true_2 by done. by rewrite undecimal_decimal by lia.
Qed.

Lemma implements_state s reply s' spec :
  implements s (Returned reply, s') spec -> reply = fst spec /\ represents (view s') ks (snd spec).
Proof. by intros (s2 & [= -> ->] & H2 & _). Qed.

Lemma acquire_step_ok s issued owner ms reply s' :
  is_owner_token owner = true -> 1 <= ms <= px_limit ->
  acquire_script (k_lease ks) (k_fence ks) (k_history ks) owner (decimal ms) s = (Returned reply, s') ->
  lock_ok (s, issued) -> lock_ok (s', issued ++ granted reply owner).
Proof.
  intros Ho Hms E Hok. pose proof Hok as (st & Hst & Hs & Hall & Hlast). cbn [fst snd] in *.
  pose proof (acquire_implements s st owner ms Hst Ho Hms) as Himp. rewrite E in Himp.
  apply implements_state in Himp as [-> Hst'].
  assert (0 <= fence_of st) as Hpos.
  { destruct st as [|n|r ttl]; cbn [fence_of]; [lia|destruct Hst; lia|].
    destruct Hst as ([_ ?] & _). lia. }
  assert ((exists r ttl, st = Held r ttl) \/ ~ exists r ttl, st = Held r ttl) as [(r & ttl & ->)|Hfree].
  { destruct st as [|n|r ttl]; [right; by intros (? & ? & ?)..|left; eauto]. }
  - cbn [acquire_spec fst snd] in *.
    assert (granted (if ttl =? 0 then [py "CORRUPT"] else [py "CONTENDED"]) owner = []) as ->
      by by destruct (ttl =? 0).
    rewrite app_nil_r. exact (lock_ok_kept _ _ _ _ Hst Hst' Hok).
  - set (fence := fence_of st + 1).
    assert (acquire_spec st owner ms =
      if MAX_REDIS_INTEGER <? fence then ([py "CORRUPT"], st)
      else ([py "ACQUIRED"; decimal fence], Held {| owner_token := owner; fencing_token := fence |} ms))
      as Espec by (destruct st as [|n|r ttl]; [done|done|destruct Hfree; eauto]).
    rewrite Espec in Hst' |- *. destruct (MAX_REDIS_INTEGER <? fence); cbn [fst snd] in *.
    + cbn [granted]. rewrite app_nil_r. exact (lock_ok_kept _ _ _ _ Hst Hst' Hok).
    + rewrite granted_acquired by lia.
      eexists. split; [exact Hst'|]. cbn [fst snd fence_of fencing_token]. split; [|split].
      * rewrite fmap_app. apply StronglySorted_app. split; [|split; [done|by repeat constructor]].
        intros x y Hx Hy. apply list_elem_of_singleton in Hy as ->. cbn.
        apply list_elem_of_fmap in Hx as (r & -> & Hr). rewrite Forall_forall in Hall.
        specialize (Hall r Hr). lia.
      * apply Forall_app. split; [|repeat constructor; cbn; lia].
        eapply Forall_impl; [exact Hall|]. cbn. lia.
      * by rewrite last_snoc.
Qed.

Lemma renew_spec_state st r ms :
  fence_of (snd (renew_spec st r ms)) = fence_of st /\
  match snd (renew_spec st r ms) with Held r' _ => exists t, st = Held r' t | _ => True end.
Proof.
  destruct st as [|n|r' ttl]; try done. cbn. destruct (owns r' ttl r) eqn:E; cbn; [|eauto].
  apply owns_same in E as ->. eauto.
Qed.

Lemma release_spec_state st r ms :
  fence_of (snd (release_spec st r ms)) = fence_of st /\
  match snd (release_spec st r ms) with Held r' _ => exists t, st = Held r' t | _ => True end.
Proof.
  destruct st as [|n|r' ttl]; try done. cbn. destruct (owns r' ttl r) eqn:E; cbn; [|eauto].
  apply owns_same in E as ->. destruct (ms =? 0); cbn; eauto.
Qed.

Lemma lock_step_ok c c' : lock_step c c' -> lock_ok c -> lock_ok c'.
Proof.
  intros Hstep Hok. destruct Hstep; [by eapply acquire_step_ok|..];
    pose proof Hok as (st & Hst & _); cbn [fst snd] in Hst.
  - pose proof (renew_implements s st r ms Hst H H0) as Himp. rewrite H1 in Himp.
    apply implements_state in Himp as [_ Hst']. destruct (renew_spec_state st r ms).
    by eapply lock_ok_same.
  - pose proof (probe_implements s st r Hst H) as Himp. rewrite H0 in Himp.
    apply implements_state in Himp as [_ Hst'].
    assert (snd (probe_spec st r) = st) as E by (destruct st; cbn; [done..|by destruct (owns _ _ _)]).
    rewrite E in Hst'. exact (lock_ok_kept _ _ _ _ Hst Hst' Hok).
  - pose proof (release_implements s st r ms Hst H H0) as Himp. rewrite H1 in Himp.
    apply implements_state in Himp as [_ Hst']. destruct (release_spec_state st r ms).
    by eapply lock_ok_same.
  - pose proof (reconcile_implements s st Hst) as Himp. rewrite H in Himp.
    apply implements_state in Himp as [_ Hst'].
    assert (snd (reconcile_spec st) = st) as E by by destruct st.
    rewrite E in Hst'. exact (lock_ok_kept _ _ _ _ Hst Hst' Hok).
  - destruct (represents_elapsed _ _ st Hst H) as (st' & Hst' & Hf & Hheld).
    by eapply lock_ok_same.
Qed.

Lemma reachable_lock_ok s0 st0 c :
  represents (view s0) ks st0 -> (forall r t, st0 <> Held r t) ->
  rtc lock_step (s0, []) c -> lock_ok c.
Proof.
  intros Hst Hfree Hr. eapply (rtc_invariant lock_step lock_ok); [apply lock_step_ok|exact Hr|].
  exists st0. split; [done|]. split; [constructor|]. split; [constructor|].
  destruct st0; try done. by destruct (Hfree record ttl).
Qed.

(** [C1] Mutual exclusion and fencing.  Whatever scripts any clients run, in any
    order, and however time passes, the fencing tokens granted strictly
    increase, and only the record granted last can be the one the server holds:
    a probe that answers HELD is that of the latest holder, so two handles are
    never proven held at once. *)
Theorem lock_is_exclusive s0 st0 s issued r :
  represents (view s0) ks st0 -> (forall r t, st0 <> Held r t) ->
  rtc lock_step (s0, []) (s, issued) -> valid_record r ->
  StronglySorted Z.lt (fencing_token <$> issued) /\
  (fst (probe_script (k_lease ks) (to_bytes r) s) = Returned [py "HELD"] -> last issued = Some r).
Proof.
  intros Hst Hfree Hr Hv. destruct (reachable_lock_ok s0 st0 _ Hst Hfree Hr)
    as (st & Hst' & Hs & _ & Hlast). split; [done|]. intros Hp.
  destruct (probe_implements s st r Hst' Hv) as (s' & E & _). rewrite E in Hp.
  destruct st as [|n|r' ttl]; [done|done|]. cbn in Hp.
  destruct (owns r' ttl r) eqn:Eo; [|done]. by apply owns_same in Eo as <-.
Qed.

(** A stale handle is harmless.  Once a later record was granted, every
    script run with an earlier one answers NOT_HELD and leaves the server as it
    is: it can neither extend nor release nor confirm the lease of the new
    holder. *)
Theorem stale_handle_harmless s0 st0 s issued r ms :
  represents (view s0) ks st0 -> (forall r t, st0 <> Held r t) ->
  rtc lock_step (s0, []) (s, issued) -> valid_record r -> last issued <> Some r ->
  renew_script (k_lease ks) (to_bytes r) ms s = (Returned [py "NOT_HELD"], s) /\
  probe_script (k_lease ks) (to_bytes r) s = (Returned [py "NOT_HELD"], s) /\
  release_script (k_lease ks) (to_bytes r) ms s = (Returned [py "NOT_HELD"], s).
Proof.
  intros Hst Hfree Hr Hv Hstale. destruct (reachable_lock_ok s0 st0 _ Hst Hfree Hr)
    as (st & Hst' & _ & _ & Hlast). cbn [fst snd] in *.
  assert (forall own, on_own_lease (k_lease ks) (to_bytes r) own s = (Returned [py "NOT_HELD"], s))
    as Hrun; [|by split; [|split]; apply Hrun].
  intros own. rewrite (on_own_lease_run s st r own Hst' Hv). destruct st as [|n|r' ttl]; try done.
  destruct (owns r' ttl r) eqn:E; [|done]. apply owns_same in E as ->. done.
Qed.
End ScriptSpecs.

(** ** A server that satisfies the laws *)

Section MapServer.
(** A keyspace; entries whose time to live is negative count as expired. *)
Definition map_server : Type := keyspace.

Definition entry_live (kv : pybytes * redis_entry) : Prop :=
  match entry_ttl kv.2 with Some t => 0 <= t | None => True end.

#[export] Instance entry_live_dec kv : Decision (entry_live kv).
Proof. unfold entry_live. destruct (entry_ttl kv.2); apply _. Defined.

Definition live (s : map_server) : keyspace := filter entry_live s.

#[export] Instance map_redis : Redis map_server := {|
  view := live;
  px_limit := MAX_REDIS_INTEGER;
  redis_TYPE k := fun s => (Returned (type_name (live s !! k)), s);
  redis_PTTL k := fun s =>
    (Returned (match live s !! k with None => -2 | Some e => default (-1) (entry_ttl e) end), s);
  redis_GET k := fun s =>
    (match live s !! k with
     | None => Returned None
     | Some (StringValue v _) => Returned (Some v)
     | Some (OtherValue _ _) => Raised RedisResponseError
     end, s);
  redis_SET k v := fun s => (Returned tt, <[k := StringValue v None]> s);
  redis_SET_PX k v px := fun s =>
    if 1 <=? undecimal px then (Returned tt, <[k := StringValue v (Some (undecimal px))]> s)
    else (Raised RedisResponseError, s);
  redis_INCR k := fun s =>
    match live s !! k with
    | None => (Returned tt, <[k := StringValue (decimal 1) None]> s)
    | Some (StringValue v ttl) => (Returned tt, <[k := StringValue (decimal (undecimal v + 1)) ttl]> s)
    | Some (OtherValue _ _) => (Raised RedisResponseError, s)
    end;
  redis_PEXPIRE k px := fun s =>
    match live s !! k with
    | Some (StringValue v _) =>
        if 1 <=? undecimal px then (Returned tt, <[k := StringValue v (Some (undecimal px))]> s)
        else (Returned tt, delete k s)
    | _ => (Returned tt, s)
    end;
  redis_DEL k := fun s => (Returned tt, delete k s);
|}.

Lemma live_insert k e s : entry_live (k, e) -> live (<[k := e]> s) = <[k := e]> (live s).
Proof. intros He. by apply map_filter_insert_True. Qed.

Lemma live_lookup k e s : live s !! k = Some e -> entry_live (k, e).
Proof. intros Hk. by apply map_lookup_filter_Some in Hk as [_ ?]. Qed.

#[export] Instance map_redis_laws : RedisLaws map_server.
Proof.
  constructor; intros; cbn [view redis_TYPE redis_PTTL redis_GET redis_SET redis_SET_PX redis_INCR
    redis_PEXPIRE redis_DEL px_limit map_redis] in *.
  - done.
  - done.
  - apply live_lookup in H. unfold entry_live in H. cbn [snd] in H. by rewrite H0 in H.
  - by rewrite H.
  - eexists. split; [done|]. by apply live_insert.
  - rewrite undecimal_decimal by lia. destruct (Z.leb_spec 1 n); [|lia].
    eexists. split; [done|]. apply live_insert. unfold entry_live. cbn. lia.
  - rewrite H. eexists. split; [done|]. by apply live_insert.
  - rewrite H, undecimal_decimal by lia. eexists. split; [done|]. apply live_insert.
    exact (live_lookup _ _ _ H).
  - rewrite H, undecimal_decimal by lia. destruct (Z.leb_spec 1 n); [|lia].
    eexists. split; [done|]. apply live_insert. unfold entry_live. cbn. lia.
  - eexists. split; [done|]. apply map_filter_delete.
Qed.
End MapServer.

(** ** Witnesses *)

Section Witnesses.
Definition w_keys : lock_keys := {| k_lease := [1]; k_fence := [2]; k_history := [3] |}.

Lemma w_keys_distinct : distinct_keys w_keys.
Proof. by split. Qed.

Lemma w_never_used : represents (view (∅ : map_server)) w_keys NeverUsed.
Proof. by split. Qed.

Lemma w_limit : 1 <= 1000 <= px_limit (S := map_server).
Proof. cbn. unfold MAX_REDIS_INTEGER. lia. Qed.

Lemma acquire_script_exact_witness :
  implements w_keys ∅ (acquire_script [1] [2] [3] w_owner (decimal 1000) (∅ : map_server))
    (acquire_spec NeverUsed w_owner 1000).
Proof.
  exact (proj1 (acquire_script_exact w_keys w_keys_distinct (∅ : map_server) w_owner 1000 eq_refl w_limit)
    NeverUsed w_never_used).
Defined.

(** The server after one acquisition and after a release and another. *)
Definition w_acquired : map_server :=
  snd (acquire_script [1] [2] [3] w_owner (decimal 1000) (∅ : map_server)).
Definition w_released : map_server :=
  snd (release_script [1] (to_bytes (w_record 1)) (decimal 0) w_acquired).
Definition w_again : map_server :=
  snd (acquire_script [1] [2] [3] w_owner (decimal 1000) w_released).

Lemma w_steps : rtc (lock_step w_keys) ((∅ : map_server), []) (w_again, [w_record 1; w_record 2]).
Proof.
  eapply rtc_l; [apply (step_acquire w_keys _ [] w_owner 1000 [py "ACQUIRED"; py "1"] w_acquired);
    [reflexivity|apply w_limit|vm_compute; reflexivity]|].
  eapply rtc_l; [apply (step_release w_keys _ _ (w_record 1) 0 [py "DELETED"] w_released);
    [apply w_record_valid|cbn; unfold MAX_REDIS_INTEGER; lia|vm_compute; reflexivity]|].
  eapply rtc_l; [apply (step_acquire w_keys _ _ w_owner 1000 [py "ACQUIRED"; py "2"] w_again);
    [reflexivity|apply w_limit|vm_compute; reflexivity]|].
  apply rtc_refl.
Qed.

Lemma lock_is_exclusive_witness :
  StronglySorted Z.lt [1; 2] /\ last [w_record 1; w_record 2] = Some (w_record 2).
Proof.
  destruct (lock_is_exclusive w_keys w_keys_distinct (∅ : map_server) NeverUsed w_again
    [w_record 1; w_record 2] (w_record 2) w_never_used ltac:(done) w_steps) as [H1 H2].
  - split; [reflexivity|cbn; unfold MAX_REDIS_INTEGER; lia].
  - split; [exact H1|]. apply H2. vm_compute. reflexivity.
Defined.

Lemma stale_handle_harmless_witness :
  release_script [1] (to_bytes (w_record 1)) (py "0") w_again = (Returned [py "NOT_HELD"], w_again).
Proof.
  refine (proj2 (proj2 (stale_handle_harmless w_keys w_keys_distinct (∅ : map_server) NeverUsed w_again
    [w_record 1; w_record 2] (w_record 1) (py "0") w_never_used _ w_steps w_record_valid _))); done.
Defined.
End Witnesses.
