(* ===== verification/RedisKeys.v ===== *)
(** * Redis keys ([bluetape/leader/redis/_keys.py])

    The keys of a lock: [<prefix>:{<digest of the name>}:<part>].  SHA-256 is
    the standard library's; the model takes its hexadecimal digest as a
    function of the encoded name. *)

From S2P Require Import Prelude Python Leader LeaseRecord RedisScripts.
Open Scope Z_scope.

Definition MAX_LOCK_NAME_BYTES : Z := 1024.
Definition MAX_PREFIX_BYTES : nat := 64.

(** [[A-Za-z0-9._-]]. *)
Definition prefix_character (c : Z) : bool :=
  (65 <=? c) && (c <=? 90) || (97 <=? c) && (c <=? 122) || (48 <=? c) && (c <=? 57)
  || (c =? 46) || (c =? 95) || (c =? 45).

Definition INVALID_PREFIX : exn := ValueError "Redis key prefix is invalid".

(** [_validated_prefix]. *)
Definition validated_prefix (prefix : arg pystr) : outcome pystr :=
  match prefix with
  | AnotherClass => Raised INVALID_PREFIX
  | Exact p =>
      if negb ((1 <=? length p)%nat && (length p <=? MAX_PREFIX_BYTES)%nat)
         || negb (forallb prefix_character p)
      then Raised INVALID_PREFIX else Returned p
  end.

Section Keys.
(** The bytes of a name and the hexadecimal digest of bytes. *)
Variable encode : pystr -> pybytes.
Variable sha256 : pybytes -> pystr.

(** [_redis_keys]. *)
Definition redis_keys (lock_name prefix : arg pystr) : outcome lock_keys :=
  match validated_prefix prefix with
  | Raised e => Raised e
  | Returned safe_prefix =>
      match lock_name with
      | AnotherClass => Raised InvalidLockNameError
      | Exact name =>
          if bool_decide (strip name = []) then Raised InvalidLockNameError
          else
            match encoded_length name with
            | None => Raised InvalidLockNameError
            | Some n =>
                if MAX_LOCK_NAME_BYTES <? n then Raised InvalidLockNameError
                else
                  let hash_tag := safe_prefix ++ py ":{" ++ sha256 (encode name) ++ py "}" in
                  Returned {| k_lease := hash_tag ++ py ":lease";
                              k_fence := hash_tag ++ py ":fence";
                              k_history := hash_tag ++ py ":history" |}
            end
      end
  end.

(** The three keys of a lock differ. *)
Lemma redis_keys_distinct name prefix ks :
  redis_keys name prefix = Returned ks -> distinct_keys ks.
Proof.
  unfold redis_keys. destruct (validated_prefix prefix); [|done]. destruct name; [|done].
  destruct (bool_decide _); [done|]. destruct (encoded_length _); [|done].
  destruct (_ <? _); [done|]. intros [= <-].
  split; [|split]; intros E%(inj (app _)); done.
Qed.

(** Locks whose names have different digests share no key: with digests of one
    length, no key of one is a key of the other. *)
Lemma redis_keys_apart name1 name2 prefix ks1 ks2 :
  redis_keys (Exact name1) prefix = Returned ks1 -> redis_keys (Exact name2) prefix = Returned ks2 ->
  length (sha256 (encode name1)) = length (sha256 (encode name2)) ->
  sha256 (encode name1) <> sha256 (encode name2) ->
  forall k, k ∈ [k_lease ks1; k_fence ks1; k_history ks1] ->
            k ∉ [k_lease ks2; k_fence ks2; k_history ks2].
Proof.
  unfold redis_keys. intros H1 H2 Hl Hd. destruct (validated_prefix prefix) as [p|]; [|done].
  destruct (bool_decide (strip name1 = [])), (bool_decide (strip name2 = [])); try done.
  destruct (encoded_length name1), (encoded_length name2); try done.
  destruct (MAX_LOCK_NAME_BYTES <? z), (MAX_LOCK_NAME_BYTES <? z0); try done.
  injection H1 as <-. injection H2 as <-. cbn [k_lease k_fence k_history].
  assert (forall x y, (p ++ py ":{" ++ sha256 (encode name1) ++ py "}") ++ x
                 <> (p ++ py ":{" ++ sha256 (encode name2) ++ py "}") ++ y) as Hne.
  { intros x y E. rewrite <-!app_assoc in E. apply (inj (app p)) in E.
    apply (inj (app (py ":{"))) in E. apply app_inj_1 in E as [E _]; done. }
  intros k Hk Hin. repeat (apply elem_of_cons in Hk as [->|Hk] || apply elem_of_nil in Hk);
    try done; repeat (apply elem_of_cons in Hin as [Hin|Hin] || apply elem_of_nil in Hin);
    try done; by apply Hne in Hin.
Qed.
End Keys.
