(* ===== verification/RedisTiming.v ===== *)
(** * Durations and timing bounds of the Redis lock ([bluetape/leader/redis/_support.py])

    How long one command, one script and one operation of the lock may take,
    from the timeouts of the client's connection pool, and the check that a
    renewal interval leaves room for a renewal before the lease ends. *)

From Stdlib Require Import SpecFloat.
From S2P Require Import Prelude Python Leader.
Open Scope Z_scope.

(** ** Durations *)

Definition INVALID_DURATION : exn := ValueError "Redis duration is invalid".

(** [_duration_milliseconds] of a [timedelta]. *)
Definition duration_milliseconds (value : timedelta) : outcome Z :=
  if value <=? 0 then Raised INVALID_DURATION
  else
    let milliseconds := td_days value * 86400000 + td_seconds value * 1000
                        + td_microseconds value / 1000 in
    if milliseconds <=? 0 then Raised INVALID_DURATION else Returned milliseconds.

(** [_duration_nanoseconds]. *)
Definition duration_nanoseconds (value : timedelta) : Z :=
  td_days value * 86400000000000 + td_seconds value * 1000000000 + td_microseconds value * 1000.

Lemma duration_nanoseconds_value d : duration_nanoseconds d = d * 1000.
Proof.
  unfold duration_nanoseconds, td_days, td_seconds, td_microseconds, MICROSECONDS_PER_DAY.
  pose proof (Z.div_mod d 86400000000). pose proof (Z.div_mod (d mod 86400000000) 1000000). lia.
Qed.

Lemma duration_milliseconds_value d ms :
  duration_milliseconds d = Returned ms <-> ms = d / 1000 /\ 1 <= ms.
Proof.
  assert (td_days d * 86400000 + td_seconds d * 1000 + td_microseconds d / 1000 = d / 1000) as E.
  { unfold td_days, td_seconds, td_microseconds, MICROSECONDS_PER_DAY.
    pose proof (Z.div_mod d 86400000000). pose proof (Z.div_mod (d mod 86400000000) 1000000).
    pose proof (Z.div_mod ((d mod 86400000000) mod 1000000) 1000).
    pose proof (Z.div_mod d 1000). pose proof (Z.mod_pos_bound d 1000).
    pose proof (Z.mod_pos_bound ((d mod 86400000000) mod 1000000) 1000). lia. }
  unfold duration_milliseconds. rewrite E.
  destruct (Z.leb_spec d 0) as [Hd|Hd].
  - split; [done|]. intros [-> Hm]. assert (d / 1000 < 1) by (apply Z.div_lt_upper_bound; lia). lia.
  - destruct (Z.leb_spec (d / 1000) 0); (split; [|intros [-> Hm]]); try done; try lia.
    intros [= <-]. lia.
Qed.

(** ** Timing bounds *)

Record Timing : Type := {
  t_handshake_round_trips : Z;
  t_connect : float;
  t_command : float;
  t_script : float;
  t_acquire : float;
  t_probe : float;
  t_renew : float;
  t_release : float;
}.

Definition UNSUPPORTED_CLIENT : string := "unsupported Redis client configuration".

(** [type(value) in (int, float)]. *)
Definition is_number (v : pyval) : bool :=
  match v with PyInt _ | PyFloat _ => true | _ => false end.

(** [_positive_finite]. *)
Definition positive_finite (value : pyval) : outcome (option float) :=
  if negb (is_number value) then Returned None
  else
    match to_float value with
    | Raised e => Raised e
    | Returned converted =>
        Returned (if flt f0 converted && is_finite converted then Some converted else None)
    end.

(** [value < 0 or not math.isfinite(value)], of an [int] or a [float]. *)
Definition negative_or_infinite (value : pyval) : outcome bool :=
  match value with
  | PyInt z =>
      if z <? 0 then Returned true
      else match float_of_int z with Some _ => Returned false | None => Raised OverflowError end
  | PyFloat f => Returned (flt f f0 || negb (is_finite f))
  | _ => Returned true
  end.

Definition f2 : float := S754_finite false 4503599627370496 (-51).

(** [_timing]. *)
Definition timing (handshake_round_trips socket_connect_timeout socket_timeout pool_wait : pyval)
    : outcome Timing :=
  match handshake_round_trips with
  | PyInt trips =>
      if trips <? 0 then Raised (ValueError UNSUPPORTED_CLIENT)
      else
        match positive_finite socket_connect_timeout with
        | Raised e => Raised e
        | Returned None => Raised (ValueError UNSUPPORTED_CLIENT)
        | Returned (Some c) =>
          match positive_finite socket_timeout with
          | Raised e => Raised e
          | Returned None => Raised (ValueError UNSUPPORTED_CLIENT)
          | Returned (Some s) =>
            match (if negb (is_number pool_wait) then Returned true
                   else negative_or_infinite pool_wait) with
            | Raised e => Raised e
            | Returned true => Raised (ValueError UNSUPPORTED_CLIENT)
            | Returned false =>
              match to_float (PyInt trips), to_float pool_wait with
              | Returned n, Returned p =>
                  let connect := fadd c (fmul n s) in
                  let command := fadd (fadd p connect) s in
                  let script := fmul f2 command in
                  Returned {| t_handshake_round_trips := trips;
                              t_connect := connect;
                              t_command := command;
                              t_script := script;
                              t_acquire := fadd script command;
                              t_probe := script;
                              t_renew := script;
                              t_release := fadd (fmul f2 script) command |}
              | _, _ => Raised OverflowError
              end
            end
          end
        end
  | _ => Raised (ValueError UNSUPPORTED_CLIENT)
  end.

(** ** Options *)

(** [_validated_redis_options]: a derived interval is cut to milliseconds, and
    the interval must outlast one renewal and leave room for another within
    the lease. *)
Definition validated_redis_options (options : LeaderElectionOptions) (tm : Timing)
    : outcome LeaderElectionOptions :=
  if negb (auto_renew options) then Returned options
  else
    match renew_interval options with
    | None => Raised AssertionError
    | Some interval =>
        let adjusted :=
          if interval =? td_divide (lease_time options) 3 then
            match duration_milliseconds interval with
            | Raised _ => Raised InvalidLeaderOptionsError
            | Returned ms =>
                match check_options {| wait_time := wait_time options;
                                       lease_time := lease_time options;
                                       node_id := node_id options;
                                       min_lease_time := min_lease_time options;
                                       auto_renew := auto_renew options;
                                       renew_interval := Some (ms * 1000) |} with
                | Raised e => Raised e
                | Returned options' => Returned (ms * 1000, options')
                end
            end
          else Returned (interval, options) in
        match adjusted with
        | Raised e => Raised e
        | Returned (interval', options') =>
            match duration_milliseconds (lease_time options') with
            | Raised _ => Raised InvalidLeaderOptionsError
            | Returned lease_ms =>
                let effective_lease_seconds := true_divide lease_ms 1000 in
                let interval_seconds := total_seconds interval' in
                if negb (flt (t_renew tm) interval_seconds
                         && flt (fadd (t_renew tm) interval_seconds) effective_lease_seconds)
                then Raised InvalidLeaderOptionsError
                else Returned options'
            end
        end
    end.
