(* ===== verification/RedisClient.v ===== *)
(** * The inspection of redis-py clients ([bluetape/leader/redis/_support.py])

    The lock bounds how long its commands may take, so it accepts a client only
    when every part of it that could retry, wait or answer differently has the
    state it was made with.  The objects of a client are modelled as the checks
    look at them: their class, the attributes in their [__dict__], the contents of
    containers and the identity of classes and callbacks.  What redis-py itself
    answers (its default event dispatcher and response callbacks, its version,
    the properties of its classes) is a parameter. *)

From Stdlib Require Import SpecFloat.
From S2P Require Import Prelude Python Leader LeaseRecord RedisTiming.
Open Scope Z_scope.
Open Scope py_scope.

(** ** Objects *)

Inductive pyclass : Type :=
| T_NoneType | T_bool | T_int | T_float | T_str | T_bytes | T_list | T_tuple | T_set | T_dict | T_type
| T_RLock | T_AsyncLock
| C_Redis | C_AsyncRedis | C_ConnectionPool | C_AsyncConnectionPool
| C_Connection | C_UnixConnection | C_AsyncConnection | C_AsyncUnixConnection
| C_CaseInsensitiveDict | C_DriverInfo | C_EventDispatcher | C_MaintNotificationsConfig
| C_Retry | C_AsyncRetry | C_NoBackoff
| C_ConnectionError | C_RedisTimeoutError | C_TimeoutError
| C_Other (n : Z).

#[export] Instance pyclass_eq_dec : EqDecision pyclass.
Proof. solve_decision. Defined.

(** Who holds a [threading.RLock]. *)
Inductive holder : Type := Nobody | ThisThread | AnotherThread.

(** [VObject] has the [__dict__] of the object; [VDictOf] is a subclass of [dict];
    [VClass] has the class of the class. *)
Inductive value : Type :=
| VNone
| VBool (b : bool)
| VInt (z : Z)
| VFloat (f : float)
| VStr (s : pystr)
| VBytes (b : pybytes)
| VList (items : list value)
| VTuple (items : list value)
| VSet (items : list value)
| VDict (items : list (value * value))
| VDictOf (c : pyclass) (items : list (value * value))
| VClass (meta c : pyclass)
| VRLock (h : holder)
| VObject (id : Z) (c : pyclass) (state : list (value * value)).

Definition type_of (v : value) : pyclass :=
  match v with
  | VNone => T_NoneType | VBool _ => T_bool | VInt _ => T_int | VFloat _ => T_float | VStr _ => T_str
  | VBytes _ => T_bytes | VList _ => T_list | VTuple _ => T_tuple | VSet _ => T_set | VDict _ => T_dict
  | VDictOf c _ => c | VClass meta _ => meta | VRLock _ => T_RLock | VObject _ c _ => c
  end.

Definition is_type (c : pyclass) (v : value) : bool := bool_decide (type_of v = c).
Definition is_none (v : value) : bool := match v with VNone => true | _ => false end.
Definition is_true (v : value) : bool := match v with VBool b => b | _ => false end.
Definition is_false (v : value) : bool := match v with VBool b => negb b | _ => false end.
Definition is_class (c : pyclass) (v : value) : bool := match v with VClass _ c' => bool_decide (c' = c) | _ => false end.

(** [type(v) is str and v == s], [type(v) is int and v == z]. *)
Definition is_str (s : pystr) (v : value) : bool := match v with VStr t => bool_decide (t = s) | _ => false end.
Definition is_int (z : Z) (v : value) : bool := match v with VInt z' => z' =? z | _ => false end.

Definition unsupported : exn := TypeError UNSUPPORTED_CLIENT.

(** [if not c: raise TypeError(_UNSUPPORTED_CLIENT)]. *)
Definition require (c : bool) : outcome unit := orequire c unsupported.

(** The items of a [dict] by an exact string. *)
Fixpoint item (name : pystr) (items : list (value * value)) : option value :=
  match items with
  | [] => None
  | (key, v) :: items => if is_str name key then Some v else item name items
  end.

(** [vars(v)]; its [TypeError] for what has no [__dict__]. *)
Definition vars (v : value) : outcome (list (value * value)) :=
  match v with
  | VObject _ _ state => Returned state
  | _ => Raised (TypeError "vars() argument must have __dict__ attribute")
  end.

(** The loop over names: exact strings of the set. *)
Definition names_in (names : list pystr) (items : list (value * value)) : bool :=
  bool_decide (length items = length names) && forallb (fun m => existsb (fun name => is_str name m.1) names) items.

(** [_has_exact_attribute_names]. *)
Definition has_exact_attribute_names (v : value) (expected : list pystr) : outcome bool :=
  let? state := vars v in Returned (names_in expected state).

(** ** What redis-py answers *)

Class RedisPy : Type := {
  (** An attribute of the class, for an object that has none of its own. *)
  class_attribute : value -> pystr -> option value;
  (** The property [connection_kwargs] of a synchronous pool. *)
  pool_connection_kwargs : value -> value;
  (** [get_response_callbacks(protocol, legacy_responses)]: names and callbacks. *)
  get_response_callbacks : value -> value -> list (pystr * value);
  (** [name in callbacks], and [callbacks.get(name)] of a [CaseInsensitiveDict]. *)
  callbacks_contain : list (pystr * value) -> pystr -> bool;
  callbacks_get : list (value * value) -> pystr -> value;
  (** [EventDispatcher()], [DEFAULT_RESP_VERSION], [redis.__version__], [SENTINEL]. *)
  new_event_dispatcher : value;
  DEFAULT_RESP_VERSION : value;
  redis_version : pystr;
  is_SENTINEL : value -> bool;
  (** [os.getpid()]. *)
  getpid : Z;
  (** [a is b] of values that are neither constants, classes nor objects. *)
  same_value : value -> value -> bool;
}.

(** ** IP addresses ([ipaddress.ip_address] of a string) *)

Definition is_hex_digit (c : Z) : bool :=
  (48 <=? c) && (c <=? 57) || (97 <=? c) && (c <=? 102) || (65 <=? c) && (c <=? 70).

(** [IPv4Address._parse_octet]. *)
Definition octet_ok (octet : pystr) : bool :=
  match octet with
  | [] => false
  | c :: rest =>
      is_ascii octet && forallb is_digit octet && (length octet <=? 3)%nat
      && (bool_decide (rest = []) || negb (c =? 48)) && (undecimal octet <=? 255)
  end.

Definition is_ipv4 (text : pystr) : bool :=
  negb (existsb (fun c => c =? 47) text) && bool_decide (length (split 46 text) = 4%nat) && forallb octet_ok (split 46 text).

(** [IPv6Address._parse_hextet]. *)
Definition hextet_ok (hextet : pystr) : bool :=
  negb (bool_decide (hextet = [])) && forallb is_hex_digit hextet && (length hextet <=? 4)%nat.

(** The positions of the empty parts between the first and the last. *)
Definition empty_inside (parts : list pystr) : list nat :=
  List.filter (fun i => bool_decide (nth i parts [] = [])) (seq 1 (length parts - 2)).

Definition last_part (parts : list pystr) : pystr := List.last parts [].

(** [IPv6Address._ip_int_from_string]: whether it succeeds. *)
Definition is_ipv6_text (text : pystr) : bool :=
  let parts := split 58 text in
  if bool_decide (text = []) || (length parts <? 3)%nat then false
  else
    let dotted := existsb (fun c => c =? 46) (last_part parts) in
    let parts' := if dotted then removelast parts ++ [[48]; [48]] else parts in
    if (dotted && negb (is_ipv4 (last_part parts))) || (9 <? length parts')%nat then false
    else
      let n := Z.of_nat (length parts') in
      let no_first := bool_decide (nth 0 parts' [] = []) in
      let no_last := bool_decide (last_part parts' = []) in
      match empty_inside parts' with
      | [] => (n =? 8) && negb no_first && negb no_last && forallb hextet_ok parts'
      | [skip] =>
          let hi := Z.of_nat skip - (if no_first then 1 else 0) in
          let lo := n - Z.of_nat skip - 1 - (if no_last then 1 else 0) in
          negb (no_first && negb (hi =? 0)) && negb (no_last && negb (lo =? 0)) && (1 <=? 8 - (hi + lo))
          && forallb hextet_ok (take (Z.to_nat hi) parts')
          && forallb hextet_ok (drop (length parts' - Z.to_nat lo) parts')
      | _ => false
      end.

(** The address before the scope id, if that is well formed. *)
Definition split_scope (text : pystr) : option pystr :=
  match split 37 text with
  | [address] => Some address
  | [address; scope] => if bool_decide (scope = []) then None else Some address
  | _ => None
  end.

Definition is_ipv6 (text : pystr) : bool :=
  negb (existsb (fun c => c =? 47) text) && match split_scope text with Some address => is_ipv6_text address | None => false end.

Definition is_ip_address (text : pystr) : bool := is_ipv4 text || is_ipv6 text.

Example addresses :
  map (fun s => is_ip_address (py s))
    ["127.0.0.1"; "127.0.0.01"; "256.0.0.1"; "localhost"; "::1"; "::"; "1::"; "1:2:3:4:5:6:7:8"; "1:2:3:4:5:6:7::8";
     "1::2::3"; "fe80::1%eth0"; "fe80::1%"; "::ffff:10.0.0.1"; ":1:2:3:4:5:6:7"; "12345::"; "::1/64"]%string
  = [true; false; false; false; true; true; true; true; false; false; true; false; true; false; false; false].
Proof. vm_compute. reflexivity. Qed.

(** ** The sets of names *)

Definition SYNC_CLIENT_ATTRIBUTES : list pystr := map py
  ["_event_dispatcher"; "_single_connection_client"; "auto_close_connection_pool"; "connection"; "connection_pool";
   "response_callbacks"; "single_connection_lock"]%string.

Definition ASYNC_CLIENT_ATTRIBUTES : list pystr := map py
  ["_event_dispatcher"; "_single_conn_lock"; "_usage_counter"; "_usage_lock"; "auto_close_connection_pool"; "connection";
   "connection_pool"; "response_callbacks"; "single_connection_client"]%string.

Definition SYNC_POOL_ATTRIBUTES : list pystr := map py
  ["_available_connections"; "_cache_factory"; "_connection_kwargs"; "_created_connections"; "_event_dispatcher";
   "_fork_lock"; "_in_use_connections"; "_lock"; "_maint_notifications_pool_handler";
   "_oss_cluster_maint_notifications_handler"; "_pool_id"; "cache"; "connection_class"; "max_connections"; "pid"]%string.

Definition ASYNC_POOL_ATTRIBUTES : list pystr := map py
  ["_available_connections"; "_event_dispatcher"; "_in_use_connections"; "_lock"; "connection_class"; "connection_kwargs";
   "encoder_class"; "max_connections"]%string.

Definition common_keys : list pystr := map py
  ["client_name"; "credential_provider"; "db"; "decode_responses"; "driver_info"; "encoding"; "encoding_errors";
   "health_check_interval"; "legacy_responses"; "password"; "protocol"; "redis_connect_func"; "retry"; "retry_on_error";
   "socket_read_size"; "socket_timeout"; "username"]%string.

Definition tcp_keys : list pystr := map py
  ["host"; "port"; "socket_connect_timeout"; "socket_keepalive"; "socket_keepalive_options"]%string.

(** [_required_option_keys]. *)
Definition required_option_keys (connection_class : value) : list pystr :=
  if is_class C_Connection connection_class then common_keys ++ tcp_keys
  else if is_class C_AsyncConnection connection_class then common_keys ++ tcp_keys
  else common_keys ++ [py "path"].

Section Checks.
Context `{RedisPy}.

(** [a is b]. *)
Definition same (a b : value) : bool :=
  match a, b with
  | VNone, VNone => true
  | VBool x, VBool y => Bool.eqb x y
  | VClass _ c, VClass _ c' => bool_decide (c = c')
  | VObject i _ _, VObject j _ _ => i =? j
  | _, _ => same_value a b
  end.

(** [v.name], and [getattr(v, name, default)]. *)
Definition find_attribute (v : value) (name : pystr) : option value :=
  match v with
  | VObject _ _ state => match item name state with Some a => Some a | None => class_attribute v name end
  | _ => class_attribute v name
  end.

Definition attribute (v : value) (name : string) : outcome value := oget (find_attribute v (py name)) AttributeError.
Definition attribute_or (v : value) (name : string) (default_ : value) : value := default default_ (find_attribute v (py name)).

(** [options.get(name, default)]. *)
Definition get_option_or (options : list (value * value)) (name : string) (default_ : value) : value := default default_ (item (py name) options).
Definition get_option (options : list (value * value)) (name : string) : value := get_option_or options name VNone.

(** [_validate_sync_lock]: of the right class, and free; acquiring and releasing
    it leaves it free. *)
Definition validate_sync_lock (v : value) : outcome unit :=
  match v with
  | VRLock Nobody => Returned tt
  | _ => Raised unsupported
  end.

(** [v == False] and the truth of an attribute. *)
Definition equals_false (v : value) : bool :=
  match v with VBool b => negb b | VInt z => z =? 0 | VFloat f => feq f f0 | _ => false end.
Definition truth (v : value) : bool :=
  match v with
  | VNone => false | VBool b => b | VInt z => negb (z =? 0) | VFloat f => negb (feq f f0)
  | VStr s | VBytes s => negb (bool_decide (s = []))
  | VList l | VTuple l | VSet l => negb (bool_decide (length l = 0%nat))
  | VDict l | VDictOf _ l => negb (bool_decide (length l = 0%nat))
  | _ => true
  end.

(** [_validate_async_lock]. *)
Definition validate_async_lock (v : value) : outcome unit :=
  let? _ := require (is_type T_AsyncLock v) in
  let? locked := attribute v "_locked" in
  let? _ := require (negb (truth locked)) in
  let? state := vars v in
  require (bool_decide (length state = 2%nat)
           && match item (py "_waiters") state with Some w => is_none w | None => false end
           && match item (py "_locked") state with Some l => equals_false l | None => false end).

(** [type(v) is list and not v], and the like for a [set]. *)
Definition empty_list (v : value) : bool := match v with VList [] => true | _ => false end.
Definition empty_set (v : value) : bool := match v with VSet [] => true | _ => false end.

(** [_validate_empty_pool]. *)
Definition validate_empty_pool (pool : value) : outcome unit :=
  let available := attribute_or pool "_available_connections" VNone in
  let in_use := attribute_or pool "_in_use_connections" VNone in
  let? _ := require (empty_list available && empty_set in_use) in
  require (is_int 0 (attribute_or pool "_created_connections" (VInt 0))).

(** [_validate_sync_pool_identity]. *)
Definition validate_sync_pool_identity (pool : value) : outcome unit :=
  let? state := vars pool in
  let pid := get_option state "pid" in
  let pool_id := get_option state "_pool_id" in
  let? _ := require (is_int getpid pid) in
  let? _ := require (is_none (get_option state "_maint_notifications_pool_handler")
                     && is_none (get_option state "_oss_cluster_maint_notifications_handler")) in
  match pool_id with
  | VStr s => require (bool_decide (length s = 8%nat) && forallb (fun c => (48 <=? c) && (c <=? 57) || (97 <=? c) && (c <=? 102)) s)
  | _ => Raised unsupported
  end.

(** [_has_exact_default_state]. *)
Definition has_exact_default_state (actual expected : value) : outcome bool :=
  let? actual_state := vars actual in
  let? expected_state := vars expected in
  let names := map (fun m => match m.1 with VStr s => s | _ => [] end) expected_state in
  if negb (names_in names actual_state) then Returned false
  else Returned (forallb (fun name => match item name actual_state, item name expected_state with
                                      | Some a, Some b => same a b | _, _ => false end) names).

(** The listeners of one event, one by one. *)
Fixpoint check_listeners (actual expected : list value) : outcome unit :=
  match actual, expected with
  | a :: actual, e :: expected =>
      let? _ := require (bool_decide (type_of a = type_of e)) in
      let? ok := has_exact_default_state a e in
      let? _ := require ok in
      check_listeners actual expected
  | _, _ => Returned tt
  end.

(** [mapping.get(event)] by identity, for keys that are classes. *)
Fixpoint get_event (event : value) (mapping : list (value * value)) : value :=
  match mapping with
  | [] => VNone
  | (e, listeners) :: mapping => if same e event then listeners else get_event event mapping
  end.

Definition len (v : value) : outcome nat :=
  match v with
  | VList l | VTuple l | VSet l => Returned (length l)
  | VDict l | VDictOf _ l => Returned (length l)
  | VStr s | VBytes s => Returned (length s)
  | _ => Raised (TypeError "object has no len()")
  end.

Fixpoint check_events (actual expected : list (value * value)) : outcome unit :=
  match expected with
  | [] => Returned tt
  | (event, expected_listeners) :: expected =>
      match get_event event actual with
      | VList actual_listeners =>
          let? n := len expected_listeners in
          let? _ := require (bool_decide (length actual_listeners = n)) in
          let listeners := match expected_listeners with VList l | VTuple l => l | _ => [] end in
          let? _ := check_listeners actual_listeners listeners in
          check_events actual expected
      | _ => Raised unsupported
      end
  end.

(** [_validate_event_dispatcher]. *)
Definition validate_event_dispatcher (v : value) : outcome unit :=
  let? _ := require (is_type C_EventDispatcher v) in
  let? exact := has_exact_attribute_names v (map py ["_event_listeners_mapping"; "_lock"; "_async_lock"]%string) in
  let? _ := require exact in
  let? lock := attribute v "_lock" in
  let? _ := validate_sync_lock lock in
  let? async_lock := attribute v "_async_lock" in
  let? _ := require (is_none async_lock) in
  let? state := vars v in
  let? expected_state := vars new_event_dispatcher in
  match get_option state "_event_listeners_mapping", get_option expected_state "_event_listeners_mapping" with
  | VDict actual_mapping, VDict expected_mapping =>
      let? _ := require (bool_decide (length actual_mapping = length expected_mapping)) in
      let? _ := require (forallb (fun m => is_type T_type m.1) actual_mapping) in
      let? _ := require (forallb (fun m => existsb (fun m' => same m.1 m'.1) expected_mapping) actual_mapping) in
      check_events actual_mapping expected_mapping
  | _, _ => Raised unsupported
  end.

(** [_validate_response_callbacks]. *)
Definition validate_response_callbacks (client : value) (options : list (value * value)) : outcome unit :=
  match attribute_or client "response_callbacks" VNone with
  | VDictOf c actual =>
      let? _ := require (bool_decide (c = C_CaseInsensitiveDict)) in
      let expected := get_response_callbacks (get_option options "protocol") (get_option_or options "legacy_responses" (VBool true)) in
      let? _ := require (bool_decide (length actual = length expected)) in
      let? _ := require (forallb (fun m => is_type T_str m.1) actual) in
      let? _ := require (forallb (fun m => match m.1 with VStr name => callbacks_contain expected name | _ => false end) actual) in
      require (forallb (fun m => same (callbacks_get actual m.1) m.2) expected)
  | _ => Raised unsupported
  end.

(** [_validate_retry]. *)
Definition validate_retry (v : value) (sync : bool) : outcome unit :=
  let? _ := require (is_type (if sync then C_Retry else C_AsyncRetry) v) in
  let? exact := has_exact_attribute_names v (map py ["_backoff"; "_retries"; "_supported_errors"]%string) in
  let? _ := require exact in
  let? state := vars v in
  let backoff := get_option state "_backoff" in
  let? _ := require (is_int 0 (get_option state "_retries") && is_type C_NoBackoff backoff) in
  let? exact := has_exact_attribute_names backoff [py "_backoff"] in
  let? _ := require exact in
  let? backoff_state := vars backoff in
  let? _ := require (is_int 0 (get_option backoff_state "_backoff")) in
  let expected_errors :=
    if sync then [C_ConnectionError; C_RedisTimeoutError; C_TimeoutError] else [C_ConnectionError; C_RedisTimeoutError] in
  match get_option state "_supported_errors" with
  | VTuple errors =>
      let? _ := require (bool_decide (length errors = length expected_errors)) in
      require (forallb (fun m => is_class m.2 m.1) (zip errors expected_errors))
  | _ => Raised unsupported
  end.

(** [_nonempty_credential], [_safe_keepalive_options]. *)
Definition nonempty_credential (v : value) : bool :=
  match v with VStr s | VBytes s => negb (bool_decide (s = [])) | _ => false end.

Definition safe_keepalive_options (v : value) : bool :=
  match v with
  | VDict items => forallb (fun m => is_type T_int m.1 && (is_type T_int m.2 || is_type T_bytes m.2)) items
  | _ => false
  end.

(** [_maintenance_disabled], [_valid_driver_info]. *)
Definition maintenance_disabled (v : value) : outcome bool :=
  if is_none v then Returned true
  else if negb (is_type C_MaintNotificationsConfig v) then Returned false
  else
    let? exact := has_exact_attribute_names v (map py ["enabled"; "relaxed_timeout"; "proactive_reconnect"; "endpoint_type"]%string) in
    if negb exact then Returned false
    else
      let? state := vars v in
      Returned (is_false (get_option state "enabled") && is_false (get_option state "proactive_reconnect")
                && is_int (-1) (get_option state "relaxed_timeout") && is_none (get_option state "endpoint_type")).

Definition valid_driver_info (v : value) : outcome bool :=
  if negb (is_type C_DriverInfo v) then Returned false
  else
    let? exact := has_exact_attribute_names v (map py ["name"; "lib_version"; "_upstream"]%string) in
    if negb exact then Returned false
    else
      let? state := vars v in
      Returned (is_str (py "redis-py") (get_option state "name") && is_str redis_version (get_option state "lib_version")
                && empty_list (get_option state "_upstream")).

Definition as_pyval (v : value) : pyval :=
  match v with VInt z => PyInt z | VFloat f => PyFloat f | VStr s => PyStr s | VBytes b => PyBytes b | VNone => PyNone | _ => PyObject 0 end.

(** [_handshake_commands]. *)
Definition handshake_commands (options : list (value * value)) : outcome (list string) :=
  let username := get_option options "username" in
  let password := get_option options "password" in
  let has_auth := negb (is_none password) in
  let? protocol :=
    if is_none (get_option options "protocol")
    then let? _ := require (is_int 3 DEFAULT_RESP_VERSION) in Returned DEFAULT_RESP_VERSION
    else Returned (get_option options "protocol") in
  let auth :=
    if has_auth && is_int 3 protocol then ["HELLO AUTH"%string]
    else if has_auth then
      "AUTH"%string :: (if is_int 2 protocol && nonempty_credential username && nonempty_credential password then ["AUTH"%string] else [])
    else if is_int 3 protocol then ["HELLO"%string] else [] in
  Returned (auth ++ (if is_none (get_option options "client_name") then [] else ["CLIENT SETNAME"%string])
            ++ ["CLIENT SETINFO LIB-NAME"; "CLIENT SETINFO LIB-VER"]%string
            ++ (if truth (get_option_or options "db" (VInt 0)) then ["SELECT"%string] else [])).

(** The checks of the options that every connection has. *)
Definition validate_options (options : list (value * value)) (sync : bool) : outcome unit :=
  let? _ := require (is_int 0 (get_option options "health_check_interval")) in
  let? _ := require (is_none (get_option options "retry_on_error") || empty_list (get_option options "retry_on_error")) in
  let? _ := validate_retry (get_option options "retry") sync in
  let? _ := require (is_none (get_option options "redis_connect_func")) in
  let? _ := require (is_none (get_option options "credential_provider")) in
  let? _ := require (is_false (get_option options "decode_responses")) in
  let? _ := require (is_str (py "utf-8") (get_option options "encoding")) in
  let? _ := require (is_str (py "strict") (get_option options "encoding_errors")) in
  let? _ := require (is_true (get_option options "legacy_responses")) in
  let? _ := require (match get_option options "socket_read_size" with VInt n => 0 <? n | _ => false end) in
  let? known := valid_driver_info (get_option options "driver_info") in
  let? _ := require known in
  let? _ := require (match get_option options "protocol" with VNone => true | VInt p => (p =? 2) || (p =? 3) | _ => false end) in
  let? _ := require (match get_option_or options "db" (VInt 0) with VInt db => 0 <=? db | _ => false end) in
  let? _ := require (match get_option options "client_name" with VNone => true | VStr s => negb (bool_decide (s = [])) | _ => false end) in
  let username := get_option options "username" in
  let password := get_option options "password" in
  require (if is_none username then is_none password || nonempty_credential password
           else nonempty_credential username && nonempty_credential password).

(** Those of a TCP connection, and of a Unix socket. *)
Definition validate_address (options : list (value * value)) (tcp : bool) : outcome unit :=
  if tcp then
    let? _ := require (match get_option options "host" with VStr host => is_ip_address host | _ => false end) in
    let? _ := require (match get_option options "port" with VInt port => (1 <=? port) && (port <=? 65535) | _ => false end) in
    let? _ := require (is_type T_bool (get_option options "socket_keepalive")) in
    let keepalive_options := get_option options "socket_keepalive_options" in
    require (is_SENTINEL keepalive_options || safe_keepalive_options keepalive_options)
  else
    require (match get_option options "path" with VStr path => negb (bool_decide (path = [])) && negb (existsb (fun c => c =? 0) path) | _ => false end).

(** [_validate_pool]. *)
Definition validate_pool (connection_class options max_connections : value) (sync : bool) : outcome Timing :=
  let tcp := is_class (if sync then C_Connection else C_AsyncConnection) connection_class in
  let unix := is_class (if sync then C_UnixConnection else C_AsyncUnixConnection) connection_class in
  let? _ := require (tcp || unix) in
  match options with
  | VDict options =>
      let? _ := require (names_in (required_option_keys connection_class) options) in
      let? _ := require (match max_connections with VInt n => 0 <? n | _ => false end) in
      let? connect_timeout := positive_finite (as_pyval (
        if unix then get_option_or options "socket_connect_timeout" (VFloat (true_divide 5 1))
        else get_option options "socket_connect_timeout")) in
      let? socket_timeout := positive_finite (as_pyval (get_option options "socket_timeout")) in
      match connect_timeout, socket_timeout with
      | Some connect_timeout, Some socket_timeout =>
          let? _ := validate_options options sync in
          let? _ := validate_address options tcp in
          let? disabled := if sync then maintenance_disabled (get_option options "maint_notifications_config") else Returned true in
          let? _ := require disabled in
          let? commands := handshake_commands options in
          let handshake := Z.of_nat (length commands) * (if unix && negb sync then 2 else 1) in
          timing (PyInt handshake) (PyFloat connect_timeout) (PyFloat socket_timeout) (PyFloat f0)
      | _, _ => Raised unsupported
      end
  | _ => Raised unsupported
  end.

(** [_validated_sync_client]. *)
Definition validated_sync_client (client : value) : outcome Timing :=
  let? _ := require (is_type C_Redis client) in
  let? exact := has_exact_attribute_names client SYNC_CLIENT_ATTRIBUTES in
  let? _ := require exact in
  let? connection := attribute client "connection" in
  let? _ := require (is_none connection) in
  let? single := attribute client "_single_connection_client" in
  let? _ := require (is_false single) in
  let? lock := attribute client "single_connection_lock" in
  let? _ := validate_sync_lock lock in
  let? pool := attribute client "connection_pool" in
  let? _ := require (is_type C_ConnectionPool pool) in
  let? exact := has_exact_attribute_names pool SYNC_POOL_ATTRIBUTES in
  let? _ := require exact in
  let? cache := attribute pool "cache" in
  let? _ := require (is_none cache) in
  let? _ := validate_sync_pool_identity pool in
  let? fork_lock := attribute pool "_fork_lock" in
  let? _ := validate_sync_lock fork_lock in
  let? lock := attribute pool "_lock" in
  let? _ := validate_sync_lock lock in
  let? _ := validate_empty_pool pool in
  let? _ := validate_event_dispatcher (attribute_or client "_event_dispatcher" VNone) in
  let? _ := validate_event_dispatcher (attribute_or pool "_event_dispatcher" VNone) in
  let? connection_class := attribute pool "connection_class" in
  let? max_connections := attribute pool "max_connections" in
  let options := pool_connection_kwargs pool in
  let? tm := validate_pool connection_class options max_connections true in
  let? _ := validate_response_callbacks client (match options with VDict items => items | _ => [] end) in
  Returned tm.

(** [_validated_async_client]. *)
Definition validated_async_client (client : value) : outcome Timing :=
  let? _ := require (is_type C_AsyncRedis client) in
  let? exact := has_exact_attribute_names client ASYNC_CLIENT_ATTRIBUTES in
  let? _ := require exact in
  let? connection := attribute client "connection" in
  let? _ := require (is_none connection) in
  let? single := attribute client "single_connection_client" in
  let? _ := require (is_false single) in
  let? conn_lock := attribute client "_single_conn_lock" in
  let? _ := validate_async_lock conn_lock in
  let? usage_lock := attribute client "_usage_lock" in
  let? _ := validate_async_lock usage_lock in
  let? pool := attribute client "connection_pool" in
  let? _ := require (is_type C_AsyncConnectionPool pool) in
  let? exact := has_exact_attribute_names pool ASYNC_POOL_ATTRIBUTES in
  let? _ := require exact in
  let? lock := attribute pool "_lock" in
  let? _ := validate_async_lock lock in
  let? _ := validate_empty_pool pool in
  let? _ := validate_event_dispatcher (attribute_or client "_event_dispatcher" VNone) in
  let? _ := validate_event_dispatcher (attribute_or pool "_event_dispatcher" VNone) in
  let? connection_class := attribute pool "connection_class" in
  let? _ := require (is_class C_AsyncConnection connection_class || is_class C_AsyncUnixConnection connection_class) in
  let? options := attribute pool "connection_kwargs" in
  let? max_connections := attribute pool "max_connections" in
  let? tm := validate_pool connection_class options max_connections false in
  let? _ := validate_response_callbacks client (match options with VDict items => items | _ => [] end) in
  Returned tm.
End Checks.

(** ** Well-formed objects *)

Definition key_text (m : value * value) : option pystr := match m.1 with VStr s => Some s | _ => None end.

(** A [__dict__] has every name once, an [asyncio.Lock] its flag. *)
Fixpoint well_formed (v : value) : bool :=
  match v with
  | VObject _ c state =>
      bool_decide (NoDup (omap key_text state)) && forallb (fun m => well_formed m.2) state
      && (negb (bool_decide (c = T_AsyncLock)) || bool_decide (is_Some (item (py "_locked") state)))
  | VDictOf c _ | VClass c _ => negb (bool_decide (c = T_AsyncLock))
  | _ => true
  end.

Lemma is_str_spec s v : is_str s v = true <-> v = VStr s.
Proof. destruct v; cbn; try (by split); rewrite bool_decide_eq_true. split; [by intros ->|by intros [= ->]]. Qed.

Lemma item_found name items a : item name items = Some a -> (VStr name, a) ∈ items.
Proof.
  induction items as [|[k v] items IH]; cbn; [done|]. rewrite elem_of_cons.
  destruct (is_str name k) eqn:E; [apply is_str_spec in E as ->; intros [= ->]; by left|auto].
Qed.

Lemma item_some name items : name ∈ omap key_text items -> exists a, item name items = Some a.
Proof.
  induction items as [|[k v] items IH]; cbn; [by rewrite elem_of_nil|]. destruct (is_str name k) eqn:E; [eauto|].
  destruct k; cbn; try exact IH. rewrite elem_of_cons. intros [->|Hin]; [|auto].
  cbn in E. by rewrite bool_decide_true in E.
Qed.

Lemma keys_within names state :
  Forall (fun m => existsb (fun name => is_str name m.1) names = true) state ->
  length (omap key_text state) = length state /\ forall x, x ∈ omap key_text state -> x ∈ names.
Proof.
  induction 1 as [|[k v] state Hm _ [IH1 IH2]]; [by split; [|intros x ?%elem_of_nil]|].
  apply existsb_exists in Hm as (name & Hin & Hs%is_str_spec). cbn in Hs. subst k. cbn. rewrite IH1. split; [done|].
  intros x. rewrite elem_of_cons. intros [->|Hx]; [by apply list_elem_of_In|auto].
Qed.

(** A state with exactly the names has each of them. *)
Lemma names_in_found names state name :
  names_in names state = true -> NoDup (omap key_text state) -> name ∈ names -> exists a, item name state = Some a.
Proof.
  unfold names_in. rewrite andb_true_iff, bool_decide_eq_true, forallb_forall. intros [Hl Hin] Hnd Hn.
  destruct (keys_within names state) as [Hk Hs]; [by apply List.Forall_forall|].
  apply item_some. assert (omap key_text state ≡ₚ names) as ->; [|done].
  apply submseteq_length_Permutation; [by apply NoDup_submseteq|lia].
Qed.

Lemma well_formed_item i c state name a :
  well_formed (VObject i c state) = true -> item name state = Some a -> well_formed a = true.
Proof.
  cbn. intros [[_ Hf]%andb_true_iff _]%andb_true_iff Hi%item_found. rewrite forallb_forall in Hf.
  by apply list_elem_of_In in Hi; apply Hf in Hi.
Qed.

(** ** Errors *)

(** What an inspection may raise: the [TypeError] of an unsupported client, that
    of [vars], or the [OverflowError] of a timeout no [float] can hold. *)
Definition client_error (e : exn) : Prop := e = OverflowError \/ exists message, e = TypeError message.

Definition refuses {A} (r : outcome A) : Prop := forall e, r = Raised e -> client_error e.

Lemma refuses_returned {A} (a : A) : refuses (Returned a).
Proof. done. Qed.

Lemma refuses_type {A} message : refuses (A := A) (Raised (TypeError message)).
Proof. intros e [= <-]. right. eauto. Qed.

Lemma refuses_bind {A B} (r : outcome A) (k : A -> outcome B) :
  refuses r -> (forall a, r = Returned a -> refuses (k a)) -> refuses (obind r k).
Proof. unfold refuses. destruct r as [a|e]; cbn; [eauto|]. intros Hr _ e' [= ->]. auto. Qed.

Lemma refuses_require c : refuses (require c).
Proof. unfold require, orequire. destruct c; [apply refuses_returned|apply refuses_type]. Qed.

Lemma refuses_vars v : refuses (vars v).
Proof. destruct v; by (apply refuses_type || apply refuses_returned). Qed.

Lemma refuses_exact v names : refuses (has_exact_attribute_names v names).
Proof. apply refuses_bind; [apply refuses_vars|done]. Qed.

Create HintDb refuses.
#[local] Hint Resolve refuses_returned refuses_type refuses_require refuses_vars refuses_exact : refuses.

(** Goes through the statements of a check. *)
Ltac refuse :=
  repeat first
    [ by eauto with refuses
    | apply refuses_bind; [by eauto with refuses|intros ? ?]
    | match goal with
      | |- refuses (if ?c then _ else _) => destruct c
      | |- refuses (match ?v with _ => _ end) => destruct v
      end ].

Lemma refuses_lock v : refuses (validate_sync_lock v).
Proof. destruct v as [| | | | | | | | | | | |[]|]; refuse. Qed.
#[local] Hint Resolve refuses_lock : refuses.

Section Errors.
Context `{RedisPy}.

(** An attribute that the check of the names found. *)
Lemma exact_attribute v names u name :
  has_exact_attribute_names v names = Returned true -> require true = Returned u -> well_formed v = true ->
  bool_decide (name ∈ names) = true -> exists a, find_attribute v name = Some a /\ well_formed a = true.
Proof.
  intros (state & Hs & [= Hn])%obind_returned _ Hw Hin%bool_decide_eq_true.
  destruct v; try done. injection Hs as <-. pose proof Hw as Hw'. cbn in Hw. rewrite !andb_true_iff in Hw.
  destruct Hw as [[Hd%bool_decide_eq_true _] _]. destruct (names_in_found _ _ _ Hn Hd Hin) as [a Ha].
  exists a. cbn. rewrite Ha. split; [done|]. by eapply well_formed_item.
Qed.

Lemma require_returned c u : require c = Returned u -> c = true.
Proof. unfold require, orequire. by destruct c. Qed.

Lemma refuses_async_lock v : well_formed v = true -> refuses (validate_async_lock v).
Proof.
  intros Hw. unfold validate_async_lock. apply refuses_bind; [apply refuses_require|intros u Hu%require_returned].
  apply bool_decide_eq_true in Hu. apply refuses_bind; [|intros; refuse].
  destruct v as [| | | | | | | | | |c| | |i c state]; try done; cbn [type_of] in Hu; subst; [done..|].
  cbn [well_formed] in Hw. apply andb_true_iff in Hw as [_ Hl]. rewrite bool_decide_true in Hl by done. cbn [negb orb] in Hl.
  apply bool_decide_eq_true in Hl as [a Ha]. unfold attribute, find_attribute. rewrite Ha. refuse.
Qed.

Lemma refuses_empty_pool v : refuses (validate_empty_pool v).
Proof. unfold validate_empty_pool. refuse. Qed.

Lemma refuses_pool_identity v : refuses (validate_sync_pool_identity v).
Proof. unfold validate_sync_pool_identity. refuse. Qed.

Lemma refuses_listeners actual expected : refuses (check_listeners actual expected).
Proof.
  revert expected. induction actual as [|a actual IH]; intros [|e expected]; cbn [check_listeners]; [by refuse..|].
  apply refuses_bind; [apply refuses_require|intros _ _].
  apply refuses_bind; [unfold has_exact_default_state; refuse|intros ok _].
  apply refuses_bind; [apply refuses_require|intros _ _]. apply IH.
Qed.

Lemma refuses_events actual expected : refuses (check_events actual expected).
Proof.
  induction expected as [|[event listeners] expected IH]; cbn [check_events]; [by refuse|].
  destruct (get_event event actual); try by refuse.
  apply refuses_bind; [destruct listeners; refuse|intros n _].
  apply refuses_bind; [apply refuses_require|intros _ _].
  apply refuses_bind; [apply refuses_listeners|intros _ _]. apply IH.
Qed.

Lemma refuses_dispatcher v : well_formed v = true -> refuses (validate_event_dispatcher v).
Proof.
  intros Hw. unfold validate_event_dispatcher. apply refuses_bind; [apply refuses_require|intros _ _].
  apply refuses_bind; [apply refuses_exact|intros exact He].
  apply refuses_bind; [apply refuses_require|intros u Hu]. pose proof (require_returned _ _ Hu) as ->.
  destruct (exact_attribute v _ u (py "_lock") He Hu Hw) as (lock & El & _); [by vm_compute|].
  destruct (exact_attribute v _ u (py "_async_lock") He Hu Hw) as (alock & Ea & _); [by vm_compute|].
  unfold attribute. rewrite El, Ea. cbn [oget obind].
  apply refuses_bind; [apply refuses_lock|intros _ _]. apply refuses_bind; [apply refuses_require|intros _ _].
  apply refuses_bind; [apply refuses_vars|intros state _]. apply refuses_bind; [apply refuses_vars|intros estate _].
  refuse; apply refuses_events.
Qed.

Lemma refuses_callbacks client options : refuses (validate_response_callbacks client options).
Proof. unfold validate_response_callbacks. refuse. Qed.

Lemma refuses_retry v sync : refuses (validate_retry v sync).
Proof. unfold validate_retry. cbv zeta. refuse. Qed.

Lemma refuses_maintenance v : refuses (maintenance_disabled v).
Proof. unfold maintenance_disabled. refuse. Qed.

Lemma refuses_driver_info v : refuses (valid_driver_info v).
Proof. unfold valid_driver_info. refuse. Qed.

Lemma refuses_options options sync : refuses (validate_options options sync).
Proof.
  unfold validate_options. cbv zeta.
  do 2 (apply refuses_bind; [apply refuses_require|intros _ _]).
  apply refuses_bind; [apply refuses_retry|intros _ _].
  do 7 (apply refuses_bind; [apply refuses_require|intros _ _]).
  apply refuses_bind; [apply refuses_driver_info|intros known _].
  do 4 (apply refuses_bind; [apply refuses_require|intros _ _]). apply refuses_require.
Qed.

Lemma refuses_address options tcp : refuses (validate_address options tcp).
Proof. unfold validate_address. cbv zeta. destruct tcp; refuse. Qed.

Lemma refuses_handshake options : refuses (handshake_commands options).
Proof. unfold handshake_commands. cbv zeta. apply refuses_bind; [refuse|intros protocol _; refuse]. Qed.

Lemma positive_finite_error v e : positive_finite v = Raised e -> e = OverflowError.
Proof.
  unfold positive_finite. destruct v; cbn; try done. destruct (float_of_int z); [done|]. by intros [= <-].
Qed.

Lemma refuses_positive v : refuses (positive_finite v).
Proof. intros e ->%positive_finite_error. by left. Qed.

Lemma positive_finite_returned v f :
  positive_finite v = Returned (Some f) -> flt f0 f = true /\ is_finite f = true /\ to_float v = Returned f.
Proof.
  unfold positive_finite. destruct (negb (is_number v)); [done|]. destruct (to_float v) as [g|]; [|done].
  destruct (flt f0 g && is_finite g) eqn:E; [|done]. apply andb_true_iff in E as [E1 E2]. by intros [= <-].
Qed.

(** The worst case of a connection and of the operations built from it. *)
Definition timing_of (n : Z) (trips connect_timeout socket_timeout : float) : Timing :=
  let connect := fadd connect_timeout (fmul trips socket_timeout) in
  let command := fadd (fadd f0 connect) socket_timeout in
  let script := fmul f2 command in
  {| t_handshake_round_trips := n; t_connect := connect; t_command := command; t_script := script;
     t_acquire := fadd script command; t_probe := script; t_renew := script; t_release := fadd (fmul f2 script) command |}.

Lemma timing_returned n connect_timeout socket_timeout trips :
  0 <= n -> float_of_int n = Some trips ->
  flt f0 connect_timeout = true -> is_finite connect_timeout = true ->
  flt f0 socket_timeout = true -> is_finite socket_timeout = true ->
  timing (PyInt n) (PyFloat connect_timeout) (PyFloat socket_timeout) (PyFloat f0) =
    Returned (timing_of n trips connect_timeout socket_timeout).
Proof.
  intros Hn Ht H1 H2 H3 H4. unfold timing, positive_finite. cbn [is_number negb to_float].
  rewrite (proj2 (Z.ltb_ge n 0)), H1, H2, H3, H4, Ht by done. reflexivity.
Qed.

(** At most five commands, and a sixth for the user name of an old server. *)
Lemma handshake_length options commands :
  handshake_commands options = Returned commands -> (2 <= length commands <= 6)%nat.
Proof.
  unfold handshake_commands. cbv zeta. intros (protocol & _ & [= <-])%obind_returned. rewrite !length_app. cbn [length].
  repeat match goal with |- context [if ?c then _ else _] => destruct c end; cbn [length]; lia.
Qed.

Lemma small_trips n : (2 <= n <= 12)%Z -> exists f, float_of_int n = Some f.
Proof.
  intros Hn. assert (forallb (fun n => match float_of_int n with Some _ => true | None => false end) (seqZ 2 11) = true) as Hall
    by (vm_compute; reflexivity).
  rewrite forallb_forall in Hall. specialize (Hall n). rewrite <-list_elem_of_In, elem_of_seqZ in Hall.
  specialize (Hall ltac:(lia)). destruct (float_of_int n); [eauto|done].
Qed.

Lemma refuses_pool connection_class options max_connections sync :
  refuses (validate_pool connection_class options max_connections sync).
Proof.
  unfold validate_pool. cbv zeta. apply refuses_bind; [apply refuses_require|intros _ _].
  destruct options as [| | | | | | | | |options| | | |]; try by refuse.
  do 2 (apply refuses_bind; [apply refuses_require|intros _ _]).
  apply refuses_bind; [apply refuses_positive|intros [c|] Hc]; (apply refuses_bind; [apply refuses_positive|intros [s|] Hs]; try by refuse).
  apply refuses_bind; [apply refuses_options|intros _ _]. apply refuses_bind; [apply refuses_address|intros _ _].
  apply refuses_bind; [destruct sync; [apply refuses_maintenance|refuse]|intros disabled _].
  apply refuses_bind; [apply refuses_require|intros _ _].
  apply refuses_bind; [apply refuses_handshake|intros commands Hl%handshake_length].
  apply positive_finite_returned in Hc as (? & ? & _), Hs as (? & ? & _).
  match goal with |- refuses (timing (PyInt ?n) _ _ _) => destruct (small_trips n) as [f Hf]; [destruct (_ && _); lia|] end.
  rewrite (timing_returned _ _ _ f) by (done || (destruct (_ && _); lia)). apply refuses_returned.
Qed.

Lemma refuses_sync_client client : well_formed client = true -> refuses (validated_sync_client client).
Proof.
  intros Hw. unfold validated_sync_client. apply refuses_bind; [apply refuses_require|intros _ _].
  apply refuses_bind; [apply refuses_exact|intros exact He]. apply refuses_bind; [apply refuses_require|intros u Hu].
  pose proof (require_returned _ _ Hu) as ->.
  assert (forall name, bool_decide (py name ∈ SYNC_CLIENT_ATTRIBUTES) = true ->
    exists a, find_attribute client (py name) = Some a /\ well_formed a = true) as Hattr
    by (intros; by eapply exact_attribute).
  destruct (Hattr "connection") as (a1 & E1 & _); [by vm_compute|].
  destruct (Hattr "_single_connection_client") as (a2 & E2 & _); [by vm_compute|].
  destruct (Hattr "single_connection_lock") as (a3 & E3 & _); [by vm_compute|].
  destruct (Hattr "connection_pool") as (pool & E4 & Hp); [by vm_compute|].
  destruct (Hattr "_event_dispatcher") as (d & E5 & Hd); [by vm_compute|].
  unfold attribute, attribute_or. rewrite E1, E2, E3, E4, E5. cbn [oget obind default].
  do 2 (apply refuses_bind; [apply refuses_require|intros _ _]). apply refuses_bind; [apply refuses_lock|intros _ _].
  apply refuses_bind; [apply refuses_require|intros _ _].
  apply refuses_bind; [apply refuses_exact|intros exact' He']. apply refuses_bind; [apply refuses_require|intros u' Hu'].
  pose proof (require_returned _ _ Hu') as ->.
  assert (forall name, bool_decide (py name ∈ SYNC_POOL_ATTRIBUTES) = true ->
    exists a, find_attribute pool (py name) = Some a /\ well_formed a = true) as Hpattr
    by (intros; by eapply exact_attribute).
  destruct (Hpattr "cache") as (b1 & F1 & _); [by vm_compute|].
  destruct (Hpattr "_fork_lock") as (b2 & F2 & _); [by vm_compute|].
  destruct (Hpattr "_lock") as (b3 & F3 & _); [by vm_compute|].
  destruct (Hpattr "_event_dispatcher") as (b4 & F4 & Hb4); [by vm_compute|].
  destruct (Hpattr "connection_class") as (b5 & F5 & _); [by vm_compute|].
  destruct (Hpattr "max_connections") as (b6 & F6 & _); [by vm_compute|].
  rewrite F1, F2, F3, F4, F5, F6. cbn [oget obind default].
  apply refuses_bind; [apply refuses_require|intros _ _]. apply refuses_bind; [apply refuses_pool_identity|intros _ _].
  do 2 (apply refuses_bind; [apply refuses_lock|intros _ _]). apply refuses_bind; [apply refuses_empty_pool|intros _ _].
  do 2 (apply refuses_bind; [by apply refuses_dispatcher|intros _ _]).
  apply refuses_bind; [apply refuses_pool|intros tm _]. apply refuses_bind; [apply refuses_callbacks|done].
Qed.

Lemma refuses_async_client client : well_formed client = true -> refuses (validated_async_client client).
Proof.
  intros Hw. unfold validated_async_client. apply refuses_bind; [apply refuses_require|intros _ _].
  apply refuses_bind; [apply refuses_exact|intros exact He]. apply refuses_bind; [apply refuses_require|intros u Hu].
  pose proof (require_returned _ _ Hu) as ->.
  assert (forall name, bool_decide (py name ∈ ASYNC_CLIENT_ATTRIBUTES) = true ->
    exists a, find_attribute client (py name) = Some a /\ well_formed a = true) as Hattr
    by (intros; by eapply exact_attribute).
  destruct (Hattr "connection") as (a1 & E1 & _); [by vm_compute|].
  destruct (Hattr "single_connection_client") as (a2 & E2 & _); [by vm_compute|].
  destruct (Hattr "_single_conn_lock") as (a3 & E3 & Ha3); [by vm_compute|].
  destruct (Hattr "_usage_lock") as (a4 & E4 & Ha4); [by vm_compute|].
  destruct (Hattr "connection_pool") as (pool & E5 & Hp); [by vm_compute|].
  destruct (Hattr "_event_dispatcher") as (d & E6 & Hd); [by vm_compute|].
  unfold attribute, attribute_or. rewrite E1, E2, E3, E4, E5, E6. cbn [oget obind default].
  do 2 (apply refuses_bind; [apply refuses_require|intros _ _]).
  do 2 (apply refuses_bind; [by apply refuses_async_lock|intros _ _]). apply refuses_bind; [apply refuses_require|intros _ _].
  apply refuses_bind; [apply refuses_exact|intros exact' He']. apply refuses_bind; [apply refuses_require|intros u' Hu'].
  pose proof (require_returned _ _ Hu') as ->.
  assert (forall name, bool_decide (py name ∈ ASYNC_POOL_ATTRIBUTES) = true ->
    exists a, find_attribute pool (py name) = Some a /\ well_formed a = true) as Hpattr
    by (intros; by eapply exact_attribute).
  destruct (Hpattr "_lock") as (b1 & F1 & Hb1); [by vm_compute|].
  destruct (Hpattr "_event_dispatcher") as (b2 & F2 & Hb2); [by vm_compute|].
  destruct (Hpattr "connection_class") as (b3 & F3 & _); [by vm_compute|].
  destruct (Hpattr "connection_kwargs") as (b4 & F4 & _); [by vm_compute|].
  destruct (Hpattr "max_connections") as (b5 & F5 & _); [by vm_compute|].
  rewrite F1, F2, F3, F4, F5. cbn [oget obind default].
  apply refuses_bind; [by apply refuses_async_lock|intros _ _]. apply refuses_bind; [apply refuses_empty_pool|intros _ _].
  do 2 (apply refuses_bind; [by apply refuses_dispatcher|intros _ _]). apply refuses_bind; [apply refuses_require|intros _ _].
  apply refuses_bind; [apply refuses_pool|intros tm _]. apply refuses_bind; [apply refuses_callbacks|done].
Qed.

(** ** What acceptance guarantees *)

(** The retry object of a connection: no retries, over the library's own errors. *)
Definition never_retries (v : value) (sync : bool) : Prop :=
  type_of v = (if sync then C_Retry else C_AsyncRetry) /\
  exists i c state, v = VObject i c state /\ item (py "_retries") state = Some (VInt 0).

(** Options of which no command waits longer than the bounds, and whose replies
    are the bytes the scripts send. *)
Record bounded_options (options : list (value * value)) (sync : bool) : Prop := {
  bo_retry : never_retries (get_option options "retry") sync;
  bo_retry_on_error : get_option options "retry_on_error" = VNone \/ get_option options "retry_on_error" = VList [];
  bo_health_check : get_option options "health_check_interval" = VInt 0;
  bo_no_hooks : get_option options "redis_connect_func" = VNone /\ get_option options "credential_provider" = VNone;
  bo_bytes : get_option options "decode_responses" = VBool false /\ get_option options "legacy_responses" = VBool true;
}.

Lemma is_int_spec z v : is_int z v = true -> v = VInt z.
Proof. destruct v; try done. by intros ->%Z.eqb_eq. Qed.

Lemma is_none_spec v : is_none v = true -> v = VNone.
Proof. by destruct v. Qed.

Lemma is_false_spec v : is_false v = true -> v = VBool false.
Proof. destruct v as [|[]| | | | | | | | | | | |]; done. Qed.

Lemma is_true_spec v : is_true v = true -> v = VBool true.
Proof. destruct v as [|[]| | | | | | | | | | | |]; done. Qed.

Lemma require_bind {A} c (k : unit -> outcome A) a : obind (require c) k = Returned a -> c = true /\ k tt = Returned a.
Proof. unfold require, orequire. by destruct c. Qed.

Lemma retry_returned v sync u : validate_retry v sync = Returned u -> never_retries v sync.
Proof.
  unfold validate_retry. cbv zeta. intros (Ht%bool_decide_eq_true & H1)%require_bind.
  apply obind_returned in H1 as (exact & _ & H1). apply require_bind in H1 as [_ H1].
  apply obind_returned in H1 as (state & Hs & H1). apply require_bind in H1 as [[Hr%is_int_spec _]%andb_true_iff _].
  split; [done|]. destruct v as [| | | | | | | | | | | | |i c s]; try done. injection Hs as ->. exists i, c, state.
  split; [done|]. unfold get_option, get_option_or in Hr. destruct (item _ state); cbn in Hr; [by subst|done].
Qed.

Lemma options_returned options sync u : validate_options options sync = Returned u -> bounded_options options sync.
Proof.
  unfold validate_options. cbv zeta. intros (Hh%is_int_spec & H1)%require_bind.
  apply require_bind in H1 as (He & H1). apply obind_returned in H1 as (u1 & Hr%retry_returned & H1).
  apply require_bind in H1 as (Hf%is_none_spec & H1). apply require_bind in H1 as (Hc%is_none_spec & H1).
  apply require_bind in H1 as (Hd%is_false_spec & H1). do 2 apply require_bind in H1 as (_ & H1).
  apply require_bind in H1 as (Hl%is_true_spec & _). split; try done.
  apply orb_true_iff in He as [He|He]; [left; by apply is_none_spec|right]. by destruct (get_option options "retry_on_error") as [| | | | | |[]| | | | | | |].
Qed.

(** The timing of a pool that is accepted. *)
Definition pool_accepted (options : list (value * value)) (sync : bool) (tm : Timing) : Prop :=
  exists connect_timeout socket_timeout commands doubled trips,
    handshake_commands options = Returned commands /\ (2 <= length commands <= 6)%nat /\
    (doubled = 1 \/ sync = false /\ doubled = 2) /\
    float_of_int (Z.of_nat (length commands) * doubled) = Some trips /\
    flt f0 connect_timeout = true /\ is_finite connect_timeout = true /\
    to_float (as_pyval (get_option options "socket_timeout")) = Returned socket_timeout /\
    flt f0 socket_timeout = true /\ is_finite socket_timeout = true /\
    tm = timing_of (Z.of_nat (length commands) * doubled) trips connect_timeout socket_timeout /\
    bounded_options options sync.

Lemma pool_returned connection_class options max_connections sync tm :
  validate_pool connection_class options max_connections sync = Returned tm ->
  exists items, options = VDict items /\ pool_accepted items sync tm.
Proof.
  unfold validate_pool. cbv zeta. intros (_ & H1)%require_bind.
  destruct options as [| | | | | | | | |options| | | |]; try done. exists options. split; [done|].
  do 2 apply require_bind in H1 as [_ H1]. apply obind_returned in H1 as ([c|] & Hc & H1);
    apply obind_returned in H1 as ([s|] & Hs & H1); try done.
  apply obind_returned in H1 as (u1 & Ho%options_returned & H1). apply obind_returned in H1 as (u2 & _ & H1).
  apply obind_returned in H1 as (disabled & _ & H1). apply require_bind in H1 as [_ H1].
  apply obind_returned in H1 as (commands & Hcmd & H1). pose proof (handshake_length _ _ Hcmd) as Hl.
  apply positive_finite_returned in Hc as (Hc1 & Hc2 & _), Hs as (Hs1 & Hs2 & Hs3).
  set (doubled := if _ && negb sync then 2 else 1) in H1.
  assert (doubled = 1 \/ sync = false /\ doubled = 2) as Hdb.
  { unfold doubled. destruct sync; [rewrite andb_false_r; by left|]. destruct (_ && _); auto. }
  clearbody doubled. assert (0 <= Z.of_nat (length commands) * doubled) as Hpos by (destruct Hdb as [-> |[_ ->]]; lia).
  destruct (small_trips (Z.of_nat (length commands) * doubled)) as [trips Ht]; [destruct Hdb as [-> |[_ ->]]; lia|].
  rewrite (timing_returned _ _ _ trips) in H1 by done.
  injection H1 as <-. exists c, s, commands, doubled, trips. split_and!; (lia || done).
Qed.

(** [C40] The inspection of a client is closed and what it accepts is bounded.  Whatever
    object it is given, it ends with the bounds or with a [TypeError], or the
    [OverflowError] of a timeout no [float] holds.  An accepted client's commands
    never retry, nothing of the caller runs when it connects, its replies are
    bytes, and the bounds are those of two to six commands of a handshake, which an
    asyncio client on a Unix socket may send twice, with finite positive timeouts. *)
Theorem client_inspection (sync : bool) client :
  well_formed client = true ->
  match (if sync then validated_sync_client client else validated_async_client client) with
  | Raised e => client_error e
  | Returned tm =>
      exists pool options, find_attribute client (py "connection_pool") = Some pool /\
        (if sync then pool_connection_kwargs pool = VDict options
         else find_attribute pool (py "connection_kwargs") = Some (VDict options)) /\
        pool_accepted options sync tm
  end.
Proof.
  intros Hw. destruct sync.
  - destruct (validated_sync_client client) as [tm|e] eqn:E; [|by eapply refuses_sync_client].
    unfold validated_sync_client in E.
    repeat (apply obind_returned in E as (? & ? & E)).
    match goal with P : validate_pool _ _ _ _ = _ |- _ => apply pool_returned in P as (items & Ek & Hp) end.
    match goal with P : attribute client "connection_pool" = Returned ?p |- _ => apply oget_returned in P; exists p, items end.
    injection E as <-. done.
  - destruct (validated_async_client client) as [tm|e] eqn:E; [|by eapply refuses_async_client].
    unfold validated_async_client in E.
    repeat (apply obind_returned in E as (? & ? & E)).
    match goal with P : validate_pool _ _ _ _ = _ |- _ => apply pool_returned in P as (items & Ek & Hp) end.
    match goal with P : attribute client "connection_pool" = Returned ?p |- _ => apply oget_returned in P; exists p, items end.
    match goal with P : attribute _ "connection_kwargs" = _ |- _ => apply oget_returned in P end.
    injection E as <-. by subst.
Qed.
End Errors.

(** ** A client *)

Definition obj (i : Z) (c : pyclass) (state : list (string * value)) : value :=
  VObject i c (map (fun m => (VStr (py m.1), m.2)) state).

Definition demo_dispatcher : value :=
  obj 1 C_EventDispatcher
    [("_event_listeners_mapping", VDict [(VClass T_type (C_Other 7), VList [obj 8 (C_Other 9) []])]);
     ("_lock", VRLock Nobody); ("_async_lock", VNone)]%string.

(** Options with a timeout of [socket_timeout] seconds. *)
Definition demo_options (socket_timeout : value) : value :=
  VDict (map (fun m => (VStr (py m.1), m.2))
    [("client_name", VNone); ("credential_provider", VNone); ("db", VInt 0); ("decode_responses", VBool false);
     ("driver_info", obj 2 C_DriverInfo [("name", VStr (py "redis-py")); ("lib_version", VStr (py "8.0.1")); ("_upstream", VList [])]);
     ("encoding", VStr (py "utf-8")); ("encoding_errors", VStr (py "strict")); ("health_check_interval", VInt 0);
     ("legacy_responses", VBool true); ("password", VStr (py "secret")); ("protocol", VNone); ("redis_connect_func", VNone);
     ("retry", obj 3 C_Retry [("_backoff", obj 4 C_NoBackoff [("_backoff", VInt 0)]); ("_retries", VInt 0);
        ("_supported_errors", VTuple [VClass T_type C_ConnectionError; VClass T_type C_RedisTimeoutError; VClass T_type C_TimeoutError])]);
     ("retry_on_error", VNone); ("socket_read_size", VInt 65536); ("socket_timeout", socket_timeout); ("username", VNone);
     ("host", VStr (py "127.0.0.1")); ("port", VInt 6379); ("socket_connect_timeout", VInt 1); ("socket_keepalive", VBool true);
     ("socket_keepalive_options", VNone)]%string).

Definition demo_pool (socket_timeout : value) : value :=
  obj 5 C_ConnectionPool
    [("_available_connections", VList []); ("_cache_factory", VNone); ("_connection_kwargs", demo_options socket_timeout);
     ("_created_connections", VInt 0); ("_event_dispatcher", demo_dispatcher); ("_fork_lock", VRLock Nobody);
     ("_in_use_connections", VSet []); ("_lock", VRLock Nobody); ("_maint_notifications_pool_handler", VNone);
     ("_oss_cluster_maint_notifications_handler", VNone); ("_pool_id", VStr (py "0123abcd")); ("cache", VNone);
     ("connection_class", VClass T_type C_Connection); ("max_connections", VInt 10); ("pid", VInt 42)]%string.

Definition demo_client (socket_timeout : value) : value :=
  obj 6 C_Redis
    [("_event_dispatcher", demo_dispatcher); ("_single_connection_client", VBool false);
     ("auto_close_connection_pool", VBool true); ("connection", VNone); ("connection_pool", demo_pool socket_timeout);
     ("response_callbacks", VDictOf C_CaseInsensitiveDict [(VStr (py "PING"), obj 10 (C_Other 11) [])]);
     ("single_connection_lock", VRLock Nobody)]%string.

(** A library that answers as its default objects do. *)
#[local] Instance demo_library : RedisPy := {|
  class_attribute := fun _ _ => None;
  pool_connection_kwargs := fun pool =>
    match pool with VObject _ _ state => get_option state "_connection_kwargs" | _ => VNone end;
  get_response_callbacks := fun _ _ => [(py "PING", obj 10 (C_Other 11) [])];
  callbacks_contain := fun expected name => existsb (fun m => bool_decide (m.1 = name)) expected;
  callbacks_get := fun actual name => default VNone (item name actual);
  new_event_dispatcher := demo_dispatcher;
  DEFAULT_RESP_VERSION := VInt 3;
  redis_version := py "8.0.1";
  is_SENTINEL := is_none;
  getpid := 42;
  same_value := fun _ _ => false;
|}.

Definition two_seconds : float := true_divide 2 1.

(** One second to connect, and three commands of two seconds. *)
Example demo_timing :
  match validated_sync_client (demo_client (VInt 2)) with
  | Returned tm => (t_handshake_round_trips tm, feq (t_connect tm) (true_divide 7 1), feq (t_command tm) (true_divide 9 1))
  | Raised _ => (0, false, false)
  end = (3, true, true).
Proof. vm_compute. reflexivity. Qed.

(** A client that another thread is using, one that retries and one with a text
    timeout are refused. *)
Example demo_client_refused :
  validated_sync_client (demo_client (VStr (py "2"))) = Raised unsupported /\
  validated_sync_client (demo_client (VFloat finf)) = Raised unsupported /\
  validated_sync_client (demo_pool (VInt 2)) = Raised unsupported.
Proof. vm_compute. done. Qed.

(** An integer timeout beyond the floats is not refused as an unsupported
    client: the conversion raises an exception that is no [TypeError]. *)
Lemma huge_socket_timeout_escapes :
  validated_sync_client (demo_client (VInt (2 ^ 1024))) = Raised OverflowError.
Proof. vm_compute. reflexivity. Qed.

Lemma client_inspection_witness :
  match validated_sync_client (demo_client (VInt 2)) with
  | Returned tm => exists pool options, find_attribute (demo_client (VInt 2)) (py "connection_pool") = Some pool /\
      pool_connection_kwargs pool = VDict options /\ pool_accepted options true tm
  | Raised e => client_error e
  end.
Proof.
  apply (client_inspection true (demo_client (VInt 2))). vm_compute. reflexivity.
Defined.
