(* ===== verification/RedisLock.v ===== *)
(** * The Redis lock and its handles ([bluetape/leader/redis/_lock.py], [_elector.py])

    A handle ([_RedisLockLease]) is a small state machine: [ACQUIRED],
    [ENTERED], and the terminal [LOST], [RELEASED] and [UNKNOWN].  It looks at
    its state under its own lock, runs a script outside it, and looks again
    before it acts on the reply, since another thread of the program (the
    renewal worker among them) may have ended it meanwhile. *)

From Stdlib Require Import SpecFloat.
From S2P Require Import Prelude Python Leader LeaseRecord RedisScripts RedisKeys RedisTiming.
Open Scope py_scope.
Open Scope Z_scope.

(** ** The state of a handle *)

Inductive lease_state : Type := ACQUIRED | ENTERED | LOST | RELEASED | UNKNOWN.

#[export] Instance lease_state_eq_dec : EqDecision lease_state.
Proof. solve_decision. Defined.

(** The attributes that change: the state, the failure behind [UNKNOWN], and
    whether a renewal worker is recorded. *)
Record LeaseData : Type := {
  ls_state : lease_state;
  ls_failure : option exn;
  ls_worker : bool;
}.

Definition set_lease_state (d : LeaseData) (s : lease_state) : LeaseData :=
  {| ls_state := s; ls_failure := ls_failure d; ls_worker := ls_worker d |}.

Definition set_worker (d : LeaseData) (b : bool) : LeaseData :=
  {| ls_state := ls_state d; ls_failure := ls_failure d; ls_worker := b |}.

(** [self._state = "UNKNOWN"; self._failure = failure]. *)
Definition set_unknown (d : LeaseData) (failure : exn) : LeaseData :=
  {| ls_state := UNKNOWN; ls_failure := Some failure; ls_worker := ls_worker d |}.

(** [self._state in ("LOST", "RELEASED")]. *)
Definition is_ended (d : LeaseData) : bool :=
  match ls_state d with LOST | RELEASED => true | _ => false end.

(** The statements under the handle's lock: an outcome and the new state. *)
Definition section (A : Type) : Type := LeaseData -> outcome A * LeaseData.

(** [_fail_unknown]. *)
Definition fail_unknown {A} (failure : exn) : section A :=
  fun d => (Raised failure, set_unknown d failure).

(** [_raise_if_unknown], before [f]; the assertion that a failure is recorded
    is [AssertionError], an [Exception]. *)
Definition unless_unknown {A} (f : section A) : section A := fun d =>
  match ls_state d with
  | UNKNOWN =>
      (Raised (match ls_failure d with Some e => e | None => AssertionError end), d)
  | _ => f d
  end.

(** [_finish_terminal_release]: whether the release is already over. *)
Definition finish_terminal_release (scoped : bool) : section bool :=
  unless_unknown (fun d =>
    match ls_state d with
    | RELEASED => if scoped then (Returned true, d) else (Raised LeaderReleaseError, d)
    | LOST => (Raised (if scoped then LeaderLeaseLostError else LeaderReleaseError), d)
    | _ => (Returned false, d)
    end).

(** [_finish_release_status]. *)
Definition finish_release_status (status : pystr) (scoped : bool) : section unit := fun d =>
  if bool_decide (status = py "DELETED") || bool_decide (status = py "MIN_TTL_APPLIED")
  then (Returned tt, set_lease_state d RELEASED)
  else if bool_decide (status = py "NOT_HELD") then
    (Raised (if scoped then LeaderLeaseLostError else LeaderReleaseError), set_lease_state d LOST)
  else fail_unknown LeaderBackendError d.

(** [if self._finish_terminal_release(...): return], then [f]. *)
Definition unless_released (scoped : bool) (f : section unit) : section unit := fun d =>
  match finish_terminal_release scoped d with
  | (Returned true, d') => (Returned tt, d')
  | (Returned false, d') => f d'
  | (Raised e, d') => (Raised e, d')
  end.

(** ** Calls of the server *)

Section Calls.
Context {W : Type}.

(** [try: ... except Exception: failed = True]. *)
Definition attempt {A} (m : M W A) : M W (option A) :=
  try_except (a <- m ;; ret (Some a))
    (fun e => if is_Exception e then Some (ret None) else None).

Inductive attempted (A : Type) : Type :=
| Done (a : A)
| Uncertain
| Failed.
Arguments Done {A}.
Arguments Uncertain {A}.
Arguments Failed {A}.

Definition is_uncertain (e : exn) : bool :=
  is_TimeoutError e || match e with RedisTimeoutError | RedisConnectionError => true | _ => false end.

(** [try: ... except _UNCERTAIN_ERRORS: ... except Exception: ...]. *)
Definition attempt_uncertain {A} (m : M W A) : M W (attempted A) :=
  try_except (a <- m ;; ret (Done a))
    (fun e => if is_uncertain e then Some (ret Uncertain)
              else if is_Exception e then Some (ret Failed) else None).

(** A script on the lease key, and its reply as one of the allowed statuses. *)
Definition run_status_on (commands : redis_commands W) (lease_key : pybytes) (script : script_name)
    (args : list pybytes) (allowed : list pystr) : M W pystr :=
  raw <- run_script commands script [Some lease_key] (Some <$> args) ;;
  pure_outcome (parse_status_response raw allowed).
End Calls.
Arguments Done {A}.
Arguments Uncertain {A}.
Arguments Failed {A}.

(** ** Handles *)

Section Handle.
Context {W : Type}.

(** The objects a handle creates: its changing attributes, and the threading
    objects behind the renewal worker: starting the thread, whether it is alive,
    waiting for its end; the event that tells it to stop, and the event that
    says a start is over. *)
Record handle_objects : Type := {
  ho_data : lens W LeaseData;
  ho_start_thread : M W unit;
  ho_is_alive : M W bool;
  ho_join : float -> M W unit;
  ho_stop_set : M W unit;
  ho_stop_wait : float -> M W bool;
  ho_ready_clear : M W unit;
  ho_ready_set : M W unit;
  ho_ready_wait : float -> M W bool;
}.

(** The constant attributes of a handle. *)
Record RedisLockLease : Type := {
  rl_objects : handle_objects;
  rl_commands : redis_commands W;
  rl_lease : FencedLeaderLease;
  rl_lease_key : pybytes;
  rl_record : LeaseRecord;
  rl_options : LeaderElectionOptions;
  rl_monotonic_ns : M W Z;
  rl_acquired_ns : Z;
  rl_timing : Timing;
}.

(** The state a handle is created in. *)
Definition new_lease_data : LeaseData :=
  {| ls_state := ACQUIRED; ls_failure := None; ls_worker := false |}.

Variable h : RedisLockLease.

(** [with self._lock]. *)
Definition under_lock {A} (f : section A) : M W A := fun w =>
  let '(r, d) := f (lget (ho_data (rl_objects h)) w) in (r, lput (ho_data (rl_objects h)) d w).

Definition run_status (script : script_name) (args : list pybytes) (allowed : list pystr)
    : M W pystr :=
  run_status_on (rl_commands h) (rl_lease_key h) script args allowed.

(** [renew]. *)
Definition renew (lease : option timedelta) : M W RenewOutcome :=
  ended <- under_lock (unless_unknown (fun d => (Returned (is_ended d), d))) ;;
  if (ended : bool) then ret NotHeld
  else
    ttl_ms <- pure_outcome (duration_milliseconds (default (lease_time (rl_options h)) lease)) ;;
    status <- attempt (run_status RENEW_SCRIPT [to_bytes (rl_record h); decimal ttl_ms]
                         [py "RENEWED"; py "NOT_HELD"; py "CORRUPT"]) ;;
    under_lock (unless_unknown (fun d =>
      if is_ended d then (Returned NotHeld, d)
      else
        match status with
        | None => (Returned (RenewBackendFailure LeaderBackendError), set_unknown d LeaderBackendError)
        | Some s =>
            if bool_decide (s = py "RENEWED") then (Returned (Renewed None), d)
            else if bool_decide (s = py "NOT_HELD") then (Returned NotHeld, set_lease_state d LOST)
            else (Returned (RenewBackendFailure LeaderBackendError), set_unknown d LeaderBackendError)
        end)).

Definition is_held : M W bool :=
  ended <- under_lock (unless_unknown (fun d => (Returned (is_ended d), d))) ;;
  if (ended : bool) then ret false
  else
    status <- attempt (run_status PROBE_SCRIPT [to_bytes (rl_record h)]
                         [py "HELD"; py "NOT_HELD"; py "CORRUPT"]) ;;
    under_lock (unless_unknown (fun d =>
      if is_ended d then (Returned false, d)
      else
        match status with
        | None => fail_unknown LeaderBackendError d
        | Some s =>
            if bool_decide (s = py "HELD") then (Returned true, d)
            else if bool_decide (s = py "NOT_HELD") then (Returned false, set_lease_state d LOST)
            else fail_unknown LeaderBackendError d
        end)).

Definition assert_held : M W unit :=
  held <- is_held ;; raise_if (negb held) LeaderLeaseLostError.

Definition remaining_minimum_ms : M W Z :=
  now <- rl_monotonic_ns h ;;
  let remaining_ns := duration_nanoseconds (min_lease_time (rl_options h))
                      - (now - rl_acquired_ns h) in
  ret (if remaining_ns <=? 0 then 0 else (remaining_ns + 999999) / 1000000).

Definition dispatch_release : M W pystr :=
  remaining_ms <- remaining_minimum_ms ;;
  run_status RELEASE_SCRIPT [to_bytes (rl_record h); decimal remaining_ms]
    [py "DELETED"; py "MIN_TTL_APPLIED"; py "NOT_HELD"; py "CORRUPT"].

(** [_reconcile_release]: the reply of a release was lost; ask what the server
    holds, and release once more when it is still this handle's record. *)
Definition reconcile_release (scoped : bool) : M W unit :=
  status <- attempt (raw <- run_reconcile (rl_commands h) (Some (rl_lease_key h)) ;;
                     pure_outcome (parse_reconcile_response raw)) ;;
  repeat_ <- under_lock (fun d =>
    match finish_terminal_release scoped d with
    | (Raised e, d') => (Raised e, d')
    | (Returned true, d') => (Returned false, d')
    | (Returned false, d') =>
        match status with
        | None => fail_unknown LeaderBackendError d'
        | Some StatusAbsent => fail_unknown LeaderReleaseError d'
        | Some StatusReconcileCorrupt => fail_unknown LeaderBackendError d'
        | Some (StatusPresent record) =>
            if bool_decide (owner_token record = owner_token (rl_record h)) then (Returned true, d')
            else (Raised (if scoped then LeaderLeaseLostError else LeaderReleaseError),
                  set_lease_state d' LOST)
        end
    end) ;;
  if negb repeat_ then ret tt
  else
    repeated <- attempt_uncertain dispatch_release ;;
    under_lock (unless_released scoped
      (match repeated with
       | Uncertain => fail_unknown LeaderReleaseError
       | Failed => fail_unknown LeaderBackendError
       | Done status => finish_release_status status scoped
       end)).

(** [_release]. *)
Definition release_handle (scoped : bool) : M W unit :=
  over <- under_lock (finish_terminal_release scoped) ;;
  if (over : bool) then ret tt
  else
    released <- attempt_uncertain dispatch_release ;;
    match released with
    | Uncertain => reconcile_release scoped
    | Failed => under_lock (unless_released scoped (fail_unknown LeaderBackendError))
    | Done status => under_lock (unless_released scoped (finish_release_status status scoped))
    end.

(** ** The renewal worker *)

(** [with self._lock: self._raise_if_unknown(); self._fail_unknown(...)]. *)
Definition worker_stuck : M W unit :=
  under_lock (unless_unknown (fail_unknown LeaderBackendError)).

Definition has_worker : M W bool := under_lock (fun d => (Returned (ls_worker d), d)).

(** [self._timing.renew + 0.1]. *)
Definition worker_patience : float :=
  fadd (t_renew (rl_timing h)) (S754_finite false 7205759403792794 (-56)).

(** [_stop_worker]. *)
Definition stop_worker : M W unit :=
  worker <- has_worker ;;
  if negb worker then ret tt
  else
    ho_stop_set (rl_objects h) ;;
    ready <- ho_ready_wait (rl_objects h) worker_patience ;;
    (if negb ready then worker_stuck else ret tt) ;;
    worker <- has_worker ;;
    if negb worker then ret tt
    else
      ho_join (rl_objects h) worker_patience ;;
      alive <- ho_is_alive (rl_objects h) ;;
      (if (alive : bool) then worker_stuck else ret tt) ;;
      under_lock (fun d => (Returned tt, set_worker d false)).

(** [try: ... except LeaderError as error: failure = error]. *)
Definition leader_failure (m : M W unit) : M W (option exn) :=
  try_except (m ;; ret None) (fun e => if is_LeaderError e then Some (ret (Some e)) else None).

(** [isinstance(e, (KeyboardInterrupt, SystemExit, GeneratorExit))]. *)
Definition is_exit (e : exn) : bool :=
  match e with KeyboardInterrupt | SystemExit | GeneratorExit => true | _ => false end.

(** [_start_worker]. *)
Definition start_worker : M W unit :=
  under_lock (fun d => (Returned tt, set_worker d true)) ;;
  ho_ready_clear (rl_objects h) ;;
  failure <- try_except (ho_start_thread (rl_objects h) ;; ret None) (fun e => Some (ret (Some e))) ;;
  match failure with
  | Some start_failure =>
      started <- ho_is_alive (rl_objects h) ;;
      ho_ready_set (rl_objects h) ;;
      (if (started : bool) then ret tt else under_lock (fun d => (Returned tt, set_worker d false))) ;;
      lifecycle <- leader_failure
        ((if (started : bool) then stop_worker else ret tt) ;; release_handle true) ;;
      if is_exit start_failure then raise start_failure
      else
        match lifecycle with
        | Some e => raise e
        | None => raise LeaderBackendError
        end
  | None =>
      ho_ready_set (rl_objects h) ;;
      terminal <- under_lock (fun d =>
        (Returned (is_ended d || bool_decide (ls_state d = UNKNOWN)), d)) ;;
      if negb terminal then ret tt
      else
        stop_worker ;;
        under_lock (unless_unknown (fun d => (Raised LeaderLeaseLostError, d)))
  end.

(** The loop of [_renew_loop]; each round waits for the stop event. *)
Fixpoint renew_rounds (fuel : nat) (seconds : float) : M W unit :=
  match fuel with
  | O => raise FuelExhausted
  | S fuel' =>
      stop <- ho_stop_wait (rl_objects h) seconds ;;
      if (stop : bool) then ret tt
      else
        outcome <- try_except (r <- renew None ;; ret (Some r)) (fun _ => Some (ret None)) ;;
        match outcome with
        | None =>
            under_lock (fun d =>
              (Returned tt, if bool_decide (ls_state d = UNKNOWN) then d
                            else set_unknown d LeaderBackendError)) ;;
            ho_stop_set (rl_objects h)
        | Some NotHeld | Some (RenewBackendFailure _) => ho_stop_set (rl_objects h)
        | Some (Renewed _) => renew_rounds fuel' seconds
        end
  end.

(** [_renew_loop], the body of the worker's thread. *)
Definition renew_loop (fuel : nat) : M W unit :=
  match renew_interval (rl_options h) with
  | None => raise AssertionError
  | Some interval => renew_rounds fuel (total_seconds interval)
  end.

(** ** The context manager *)

(** [release]. *)
Definition release_method : M W unit := stop_worker ;; release_handle false.

(** [__enter__]. *)
Definition enter : M W unit :=
  under_lock (unless_unknown (fun d =>
    if bool_decide (ls_state d = ACQUIRED) then (Returned tt, set_lease_state d ENTERED)
    else (Raised LeaderLeaseLostError, d))) ;;
  if auto_renew (rl_options h) then
    outcome <- renew None ;;
    match outcome with
    | Renewed _ => start_worker
    | NotHeld => raise LeaderLeaseLostError
    | RenewBackendFailure cause => raise cause
    end
  else
    held <- is_held ;;
    raise_if (negb held) LeaderLeaseLostError.

(** [__exit__] after a body that ended with [exc]: returns, or raises instead. *)
Definition exit (exc : option exn) : M W unit :=
  lifecycle <- leader_failure (stop_worker ;; release_handle true) ;;
  match lifecycle with
  | None => ret tt
  | Some failure =>
      match exc with
      | None => raise failure
      | Some e =>
          if is_exit e then ret tt
          else if is_Exception e then raise (LeaderExecutionError e failure)
          else raise failure
      end
  end.
End Handle.
Arguments handle_objects : clear implicits.
Arguments RedisLockLease : clear implicits.

(** ** The lock *)

Section Lock.
Context {W : Type}.
(** The bytes of a name and the hexadecimal digest of bytes, as in [RedisKeys]. *)
Variable encode : pystr -> pybytes.
Variable sha256 : pybytes -> pystr.

(** The attributes of [RedisDistributedLock], the wall clock and the allocation
    of a handle's objects; [dl_fuel] bounds the attempts of one call. *)
Record RedisDistributedLock : Type := {
  dl_commands : redis_commands W;
  dl_prefix : arg pystr;
  dl_timing : Timing;
  dl_monotonic_ns : M W Z;
  dl_sleep : float -> M W unit;
  dl_jitter : M W pyval;
  dl_token_factory : M W pystr;
  dl_utcnow : M W datetime;
  dl_new_objects : LeaseData -> M W (handle_objects W);
  dl_fuel : nat;
}.

Variable lock : RedisDistributedLock.

(** [_new_handle]. *)
Definition new_handle (lease_key : pybytes) (owner : pystr) (fence : Z)
    (options : LeaderElectionOptions) (acquired_ns : Z) : M W (RedisLockLease W) :=
  elected <- dl_utcnow lock ;;
  until <- pure_outcome (datetime_add elected (lease_time options)) ;;
  lease <- pure_outcome (make_fenced_lease
    (make_leader_lease (Exact (decimal fence)) (Exact <$> node_id options)
       (Some (Exact elected)) (Some (Exact until)))
    (Exact fence)) ;;
  record <- pure_outcome (make_record owner fence) ;;
  objects <- dl_new_objects lock new_lease_data ;;
  ret {| rl_objects := objects;
         rl_commands := dl_commands lock;
         rl_lease := lease;
         rl_lease_key := lease_key;
         rl_record := record;
         rl_options := options;
         rl_monotonic_ns := dl_monotonic_ns lock;
         rl_acquired_ns := acquired_ns;
         rl_timing := dl_timing lock |}.

(** [_reconcile_acquire]: the reply of an acquisition was lost. *)
Definition reconcile_acquire (lease_key : pybytes) (owner : pystr)
    (options : LeaderElectionOptions) (acquired_ns : Z) : M W (RedisLockLease W) :=
  status <- attempt (raw <- run_reconcile (dl_commands lock) (Some lease_key) ;;
                     pure_outcome (parse_reconcile_response raw)) ;;
  match status with
  | Some (StatusPresent record) =>
      if bool_decide (owner_token record = owner)
      then new_handle lease_key owner (fencing_token record) options acquired_ns
      else raise LeaderBackendError
  | _ => raise LeaderBackendError
  end.

(** [0.04] and [0.06]. *)
Definition JITTER_MIN : float := S754_finite false 5764607523034235 (-57).
Definition JITTER_MAX : float := S754_finite false 8646911284551352 (-57).

(** The check of the delay; an [int] is compared by its value, and none lies
    between the bounds. *)
Definition check_jitter (delay : pyval) : outcome float :=
  match delay with
  | PyFloat f =>
      if fle JITTER_MIN f && fle f JITTER_MAX then Returned f
      else Raised (RuntimeError "Redis acquisition jitter is invalid")
  | _ => Raised (RuntimeError "Redis acquisition jitter is invalid")
  end.

(** The loop of [try_acquire]. *)
Fixpoint acquire_loop (fuel : nat) (keys : lock_keys) (owner : pystr) (ttl_ms : Z)
    (options : LeaderElectionOptions) (deadline : Z) (attempted : bool)
    : M W (option (RedisLockLease W)) :=
  match fuel with
  | O => raise FuelExhausted
  | S fuel' =>
      acquired_ns <- dl_monotonic_ns lock ;;
      if attempted && (deadline <=? acquired_ns) then ret None
      else
        tried <- attempt_uncertain
          (let* (o, t) := pure_outcome (validated_script_args owner ttl_ms) in
           raw <- run_script (dl_commands lock) ACQUIRE_SCRIPT
                    [Some (k_lease keys); Some (k_fence keys); Some (k_history keys)]
                    [Some o; Some t] ;;
           pure_outcome (parse_acquire_response raw)) ;;
        match tried with
        | Uncertain =>
            handle <- reconcile_acquire (k_lease keys) owner options acquired_ns ;;
            ret (Some handle)
        | Failed | Done StatusCorrupt => raise LeaderBackendError
        | Done (StatusAcquired fence) =>
            handle <- new_handle (k_lease keys) owner fence options acquired_ns ;;
            ret (Some handle)
        | Done StatusContended =>
            now <- dl_monotonic_ns lock ;;
            let remaining_ns := deadline - now in
            if remaining_ns <=? 0 then ret None
            else
              let remaining := true_divide remaining_ns 1000000000 in
              delay <- dl_jitter lock ;;
              delay <- pure_outcome (check_jitter delay) ;;
              dl_sleep lock (fmin delay remaining) ;;
              acquire_loop fuel' keys owner ttl_ms options deadline true
        end
  end.

(** [try_acquire]. *)
Definition try_acquire (lock_name : arg pystr) (options : LeaderElectionOptions)
    : M W (option (RedisLockLease W)) :=
  options <- pure_outcome (validated_redis_options options (dl_timing lock)) ;;
  keys <- pure_outcome (redis_keys encode sha256 lock_name (dl_prefix lock)) ;;
  owner <- dl_token_factory lock ;;
  ttl_ms <- pure_outcome (duration_milliseconds (lease_time options)) ;;
  started_ns <- dl_monotonic_ns lock ;;
  acquire_loop (dl_fuel lock) keys owner ttl_ms options
    (started_ns + duration_nanoseconds (wait_time options)) false.

(** ** The elector *)

(** [run_if_leader_result]. *)
Definition run_if_leader_result {T} (lock_name : arg pystr) (action : FencedLeaderLease -> M W T)
    (options : LeaderElectionOptions) : M W (LeaderRunResult T FencedLeaderLease) :=
  acquired <- try_acquire lock_name options ;;
  match acquired with
  | None => ret Skipped
  | Some handle =>
      let result_lease := rl_lease handle in
      enter handle ;;
      fun w =>
        let '(r, w') :=
          try_except (v <- action result_lease ;; ret (inl v))
            (fun e => if is_Exception e then Some (ret (inr e)) else None) w in
        match r with
        | Raised FuelExhausted => (Raised FuelExhausted, w')
        | Raised e => (exit handle (Some e) ;; raise e) w'
        | Returned v =>
            try_except
              (exit handle None ;;
               ret (match v with
                    | inl value => Elected value result_lease
                    | inr e => ActionFailed e result_lease
                    end))
              (fun lifecycle_error =>
                 match v with
                 | inr e => if is_LeaderError lifecycle_error
                            then Some (raise (LeaderExecutionError e lifecycle_error)) else None
                 | inl _ => None
                 end) w'
        end
  end.

(** [run_if_leader]. *)
Definition run_if_leader {T} (lock_name : arg pystr) (action : FencedLeaderLease -> M W T)
    (options : LeaderElectionOptions) : M W (option T) :=
  result <- run_if_leader_result lock_name action options ;;
  match result with
  | Skipped => ret None
  | ActionFailed cause _ => raise cause
  | Elected value _ => ret (Some value)
  end.
End Lock.
Arguments RedisDistributedLock : clear implicits.
