(* ===== verification/RedisLockLaws.v ===== *)
(** * What a handle of the Redis lock guarantees

    The lifecycle of a handle as a step relation, followed by every operation
    whatever the server answers and whatever other threads do meanwhile, as long
    as they follow it too. *)

From S2P Require Import Prelude Python Leader LeaseRecord RedisScripts RedisKeys RedisTiming RedisLock.
Open Scope py_scope.
Open Scope Z_scope.

Create HintDb follow.
#[local] Hint Constants Opaque : follow.

(** ** The lifecycle *)

(** A live handle is entered at most once, and ends once; a stuck worker, or one
    that dies, can still turn an ended handle to [UNKNOWN]. *)
Inductive lifecycle_step : LeaseData -> LeaseData -> Prop :=
| step_worker d b : lifecycle_step d (set_worker d b)
| step_enter d : ls_state d = ACQUIRED -> lifecycle_step d (set_lease_state d ENTERED)
| step_end d s :
    ls_state d = ACQUIRED \/ ls_state d = ENTERED -> s = LOST \/ s = RELEASED ->
    lifecycle_step d (set_lease_state d s)
| step_unknown d e : ls_state d <> UNKNOWN -> lifecycle_step d (set_unknown d e).

Abbreviation lifecycle := (rtc lifecycle_step).

(** [UNKNOWN] is final, with its failure; an ended handle is never live again,
    and neither end turns into the other. *)
Lemma unknown_final d d' :
  lifecycle d d' -> ls_state d = UNKNOWN -> ls_state d' = UNKNOWN /\ ls_failure d' = ls_failure d.
Proof.
  intros H Hs. revert H.
  enough (lifecycle d d' -> (ls_state d = UNKNOWN /\ ls_failure d = ls_failure d) ->
          ls_state d' = UNKNOWN /\ ls_failure d' = ls_failure d) by auto.
  intros H. eapply (rtc_invariant _ (fun x => ls_state x = UNKNOWN /\ ls_failure x = ls_failure d));
    [|done]. intros a b [] [Ha Hf]; cbn; intuition congruence.
Qed.

Lemma ended_final d d' s :
  lifecycle d d' -> ls_state d = s -> s = LOST \/ s = RELEASED ->
  ls_state d' = s \/ ls_state d' = UNKNOWN.
Proof.
  intros H Hs Hor. eapply (rtc_invariant _ (fun x => ls_state x = s \/ ls_state x = UNKNOWN));
    [|done|by left]. intros a b [] Ha; cbn in *; intuition congruence.
Qed.

(** A failure is recorded with [UNKNOWN]. *)
Definition failure_recorded (d : LeaseData) : Prop :=
  ls_state d = UNKNOWN -> is_Some (ls_failure d).

Lemma lifecycle_failure_recorded d d' : lifecycle d d' -> failure_recorded d -> failure_recorded d'.
Proof.
  apply rtc_invariant. intros a b [] Ha; unfold failure_recorded in *; cbn; intros; eauto;
    intuition congruence.
Qed.

(** ** Critical sections follow it *)

Definition section_follows {A} (f : section A) : Prop := forall d, lifecycle d (snd (f d)).

Lemma section_unless_unknown {A} (f : section A) :
  (forall d, ls_state d <> UNKNOWN -> lifecycle d (snd (f d))) -> section_follows (unless_unknown f).
Proof. intros Hf d. unfold unless_unknown. destruct (ls_state d) eqn:E; try (apply Hf; congruence); done. Qed.

Lemma fail_unknown_follows {A} e d :
  ls_state d <> UNKNOWN -> lifecycle d (snd (@fail_unknown A e d)).
Proof. intros Hd. by apply rtc_once, step_unknown. Qed.

Lemma not_ended_live d :
  is_ended d = false -> ls_state d <> UNKNOWN -> ls_state d = ACQUIRED \/ ls_state d = ENTERED.
Proof. unfold is_ended. destruct (ls_state d); auto; done. Qed.

Lemma finish_terminal_same scoped d : snd (finish_terminal_release scoped d) = d.
Proof.
  unfold finish_terminal_release, unless_unknown. destruct (ls_state d) eqn:E; rewrite ?E; try done.
  by destruct scoped.
Qed.

Lemma finish_terminal_live scoped d d' :
  finish_terminal_release scoped d = (Returned false, d') ->
  d' = d /\ (ls_state d = ACQUIRED \/ ls_state d = ENTERED).
Proof.
  unfold finish_terminal_release, unless_unknown.
  destruct (ls_state d) eqn:E; rewrite ?E; try done; try (intros [= <-]; auto).
  by destruct scoped.
Qed.

Lemma live_not_unknown d : ls_state d = ACQUIRED \/ ls_state d = ENTERED -> ls_state d <> UNKNOWN.
Proof. intuition congruence. Qed.

Lemma finish_status_follows status scoped d :
  ls_state d = ACQUIRED \/ ls_state d = ENTERED ->
  lifecycle d (snd (finish_release_status status scoped d)).
Proof.
  intros Hd. unfold finish_release_status.
  repeat case_match; try (by apply fail_unknown_follows, live_not_unknown);
    apply rtc_once, step_end; auto.
Qed.

Lemma section_unless_released scoped (f : section unit) :
  (forall d, ls_state d = ACQUIRED \/ ls_state d = ENTERED -> lifecycle d (snd (f d))) ->
  section_follows (unless_released scoped f).
Proof.
  intros Hf d. unfold unless_released. pose proof (finish_terminal_same scoped d) as Hs.
  destruct (finish_terminal_release scoped d) as [[[]|e] d'] eqn:E; cbn in *; subst; try done.
  apply Hf. by eapply finish_terminal_live.
Qed.

(** ** Operations follow it *)

Section Follow.
Context {W : Type} (h : RedisLockLease W) `{!LensLaws (ho_data (rl_objects h))}.

Definition handle_data (w : W) : LeaseData := lget (ho_data (rl_objects h)) w.

Definition follows {A} (m : M W A) : Prop :=
  respects (fun w w' => lifecycle (handle_data w) (handle_data w')) m.

#[local] Instance follows_preorder :
  PreOrder (fun w w' : W => lifecycle (handle_data w) (handle_data w')).
Proof. split; [by intros w|]. intros w1 w2 w3. intros H1 H2. by etrans. Qed.

(** The rest of the program: the server's connection, the clock and the
    threads leave the handle's attributes to the handle's own operations. *)
Record environment_follows : Prop := {
  env_evalsha s ks vs : follows (evalsha (rl_commands h) s ks vs);
  env_eval s ks vs : follows (eval (rl_commands h) s ks vs);
  env_clock : follows (rl_monotonic_ns h);
  env_start : follows (ho_start_thread (rl_objects h));
  env_alive : follows (ho_is_alive (rl_objects h));
  env_join t : follows (ho_join (rl_objects h) t);
  env_stop_set : follows (ho_stop_set (rl_objects h));
  env_stop_wait t : follows (ho_stop_wait (rl_objects h) t);
  env_ready_clear : follows (ho_ready_clear (rl_objects h));
  env_ready_set : follows (ho_ready_set (rl_objects h));
  env_ready_wait t : follows (ho_ready_wait (rl_objects h) t);
}.

Hypothesis env : environment_follows.

Lemma follows_under_lock {A} (f : section A) : section_follows f -> follows (under_lock h f).
Proof.
  intros Hf w. unfold under_lock, handle_data. specialize (Hf (lget (ho_data (rl_objects h)) w)).
  destruct (f _) as [r d]; cbn in *. by rewrite lget_lput.
Qed.

Lemma follows_bind {A B} (m : M W A) (k : A -> M W B) :
  follows m -> (forall a, follows (k a)) -> follows (bind m k).
Proof. by apply respects_bind, _. Qed.

Lemma follows_try_except {A} (m : M W A) handle :
  follows m -> (forall e m', handle e = Some m' -> follows m') -> follows (try_except m handle).
Proof. by apply respects_try_except, _. Qed.

Lemma follows_ret {A} (a : A) : follows (ret a).
Proof. by apply respects_ret, _. Qed.

Lemma follows_raise {A} e : follows (@raise W A e).
Proof. by apply respects_raise, _. Qed.

Lemma follows_raise_if c e : follows (raise_if c e).
Proof. by apply respects_raise_if, _. Qed.

Lemma follows_pure_outcome {A} (r : outcome A) : follows (pure_outcome r).
Proof. by apply respects_pure_outcome, _. Qed.

Lemma follows_attempt {A} (m : M W A) : follows m -> follows (attempt m).
Proof.
  intros Hm. apply follows_try_except; [by apply follows_bind; auto using follows_ret|].
  intros e m'. case_match; [|done]. intros [= <-]. apply follows_ret.
Qed.

Lemma follows_attempt_uncertain {A} (m : M W A) : follows m -> follows (attempt_uncertain m).
Proof.
  intros Hm. apply follows_try_except; [by apply follows_bind; auto using follows_ret|].
  intros e m'. repeat case_match; try done; intros [= <-]; apply follows_ret.
Qed.

Lemma follows_leader_failure (m : M W unit) : follows m -> follows (leader_failure m).
Proof.
  intros Hm. apply follows_try_except; [by apply follows_bind; auto using follows_ret|].
  intros e m'. case_match; [|done]. intros [= <-]. apply follows_ret.
Qed.

Lemma follows_run_script s ks vs : follows (run_script (rl_commands h) s ks vs).
Proof.
  apply follows_bind; [apply follows_pure_outcome|]. intros [k v].
  apply follows_try_except; [apply env|]. intros e m'. case_match; try done.
  intros [= <-]. apply env.
Qed.

Lemma follows_run_reconcile k : follows (run_reconcile (rl_commands h) k).
Proof. apply follows_bind; [apply follows_pure_outcome|]. intros _. apply env. Qed.

Lemma follows_read {A} (f : LeaseData -> A) : follows (under_lock h (fun d => (Returned (f d), d))).
Proof. apply follows_under_lock. by intros d. Qed.

Lemma follows_read_known {A} (f : LeaseData -> A) :
  follows (under_lock h (unless_unknown (fun d => (Returned (f d), d)))).
Proof. by apply follows_under_lock, section_unless_unknown. Qed.

#[local] Hint Resolve follows_bind follows_ret follows_raise follows_raise_if follows_pure_outcome
  follows_attempt follows_attempt_uncertain follows_leader_failure follows_run_script
  follows_run_reconcile follows_read follows_read_known : follow.

(** One statement at a time. *)
Ltac follow :=
  repeat first
    [ solve [eauto with follow]
    | apply follows_bind; [|intros ?]
    | match goal with |- follows (match ?x with _ => _ end) => destruct x end ].

Lemma follows_run_status s args allowed : follows (run_status h s args allowed).
Proof. unfold run_status, run_status_on. follow. Qed.

#[local] Hint Resolve follows_run_status : follow.

Lemma follows_renew lease : follows (renew h lease).
Proof.
  unfold renew. follow.
  - apply follows_under_lock, section_unless_unknown. intros d Hd.
    destruct (is_ended d) eqn:E; [done|]. pose proof (not_ended_live d E Hd) as Hl.
    repeat case_match; cbn; try done; apply rtc_once; by constructor; auto.
Qed.

Lemma follows_is_held : follows (is_held h).
Proof.
  unfold is_held. follow.
  - apply follows_under_lock, section_unless_unknown. intros d Hd.
    destruct (is_ended d) eqn:E; [done|]. pose proof (not_ended_live d E Hd) as Hl.
    repeat case_match; try (by apply fail_unknown_follows); [done|].
    apply rtc_once, step_end; auto.
Qed.

Lemma follows_assert_held : follows (assert_held h).
Proof. unfold assert_held. apply follows_bind; [apply follows_is_held|]. intros ?. follow. Qed.

Lemma follows_dispatch_release : follows (dispatch_release h).
Proof.
  unfold dispatch_release, remaining_minimum_ms. follow. apply env.
Qed.

Lemma follows_finish scoped (f : section unit) :
  (forall d, ls_state d = ACQUIRED \/ ls_state d = ENTERED -> lifecycle d (snd (f d))) ->
  follows (under_lock h (unless_released scoped f)).
Proof. intros Hf. by apply follows_under_lock, section_unless_released. Qed.

Lemma follows_fail_unknown scoped e :
  follows (under_lock h (unless_released scoped (fail_unknown e))).
Proof. apply follows_finish. intros d Hd. by apply fail_unknown_follows, live_not_unknown. Qed.

Lemma follows_finish_status scoped status :
  follows (under_lock h (unless_released scoped (finish_release_status status scoped))).
Proof. apply follows_finish. intros d Hd. by apply finish_status_follows. Qed.

#[local] Hint Resolve follows_renew follows_is_held follows_dispatch_release follows_fail_unknown
  follows_finish_status : follow.

Lemma follows_reconcile_release scoped : follows (reconcile_release h scoped).
Proof.
  unfold reconcile_release. apply follows_bind; [eauto with follow|]. intros status.
  apply follows_bind.
  - apply follows_under_lock. intros d. pose proof (finish_terminal_same scoped d) as Hs.
    destruct (finish_terminal_release scoped d) as [[[]|e] d'] eqn:E; cbn in *; subst; try done.
    apply finish_terminal_live in E as [_ Hl].
    repeat case_match; try (by apply fail_unknown_follows, live_not_unknown); try done;
      apply rtc_once, step_end; auto.
  - intros []; cbn; [|follow]. apply follows_bind; [eauto with follow|].
    intros []; cbn; eauto with follow.
Qed.

Lemma follows_release_handle scoped : follows (release_handle h scoped).
Proof.
  unfold release_handle. apply follows_bind.
  - apply follows_under_lock. intros d. by rewrite finish_terminal_same.
  - intros []; [follow|]. apply follows_bind; [eauto with follow|].
    intros []; cbn; eauto using follows_reconcile_release with follow.
Qed.

Lemma follows_worker_stuck : follows (worker_stuck h).
Proof. apply follows_under_lock, section_unless_unknown. intros d. apply fail_unknown_follows. Qed.

Lemma follows_set_worker b : follows (under_lock h (fun d => (Returned tt, set_worker d b))).
Proof. apply follows_under_lock. intros d. apply rtc_once, step_worker. Qed.

#[local] Hint Resolve follows_release_handle follows_worker_stuck follows_set_worker
  env_evalsha env_eval env_clock env_start env_alive env_join env_stop_set env_stop_wait
  env_ready_clear env_ready_set env_ready_wait : follow.

Lemma follows_stop_worker : follows (stop_worker h).
Proof. unfold stop_worker, has_worker. follow. Qed.

#[local] Hint Resolve follows_stop_worker : follow.

Lemma follows_start_worker : follows (start_worker h).
Proof.
  unfold start_worker. follow.
  - apply follows_try_except; [follow|]. intros e m' [= <-]. follow.
  - apply follows_leader_failure. follow.
  - apply follows_under_lock, section_unless_unknown. by intros d.
Qed.

#[local] Hint Resolve follows_start_worker : follow.

Lemma follows_renew_rounds fuel seconds : follows (renew_rounds h fuel seconds).
Proof.
  induction fuel as [|fuel IH]; cbn; [follow|]. follow.
  - apply follows_try_except; [follow|]. intros e m' [= <-]. follow.
  - apply follows_under_lock. intros d. cbn. case_bool_decide; [done|].
    by apply rtc_once, step_unknown.
Qed.

Lemma follows_enter : follows (enter h).
Proof.
  unfold enter. apply follows_bind.
  - apply follows_under_lock, section_unless_unknown. intros d _. case_bool_decide; [|done].
    by apply rtc_once, step_enter.
  - intros _. follow.
Qed.

Lemma follows_exit exc : follows (exit h exc).
Proof. unfold exit. apply follows_bind; [|intros ?; follow]. apply follows_leader_failure. follow. Qed.

(** ** Any sequence of operations *)

Inductive operation : Type :=
| Renew (lease : option timedelta)
| IsHeld
| AssertHeld
| Release
| Enter
| Exit (exc : option exn)
| RenewLoop (fuel : nat).

Definition run_operation (o : operation) : M W unit :=
  match o with
  | Renew lease => renew h lease ;; ret tt
  | IsHeld => is_held h ;; ret tt
  | AssertHeld => assert_held h
  | Release => release_method h
  | Enter => enter h
  | Exit exc => exit h exc
  | RenewLoop fuel => renew_loop h fuel
  end.

Lemma follows_operation o : follows (run_operation o).
Proof.
  destruct o; cbn; try (by apply follows_bind; eauto with follow);
    auto using follows_assert_held, follows_enter, follows_exit.
  unfold renew_loop. case_match; [apply follows_renew_rounds|eauto with follow].
Qed.

(** The worlds that operations, whatever their outcomes, lead to. *)
Definition operations_lead (os : list operation) (w : W) : W :=
  foldl (fun w o => snd (run_operation o w)) w os.

(** A handle follows its lifecycle: whatever operations run on it and
    whatever the server answers them, a handle that is lost or released is never
    live again and neither state turns into the other, and [UNKNOWN] is final
    with the failure recorded when it was reached. *)
Theorem handle_follows_lifecycle os w :
  let d := handle_data w in
  let d' := handle_data (operations_lead os w) in
  lifecycle d d' /\
  (ls_state d = LOST -> ls_state d' = LOST \/ ls_state d' = UNKNOWN) /\
  (ls_state d = RELEASED -> ls_state d' = RELEASED \/ ls_state d' = UNKNOWN) /\
  (ls_state d = UNKNOWN -> ls_state d' = UNKNOWN /\ ls_failure d' = ls_failure d).
Proof.
  intros d d'. assert (lifecycle d d') as Hl.
  { subst d d'. revert w. induction os as [|o os IH]; intros w; [done|]. cbn.
      etrans; [apply (follows_operation o w)|apply IH]. }
  split; [done|]. split; [|split]; intros Hs.
  - eapply ended_final; eauto.
  - eapply ended_final; eauto.
  - by apply unknown_final.
Qed.
End Follow.

(** ** Handles that are over *)

Section Over.
Context {W : Type} (h : RedisLockLease W) `{!LensLaws (ho_data (rl_objects h))}.

Abbreviation data := (handle_data h).

(** A critical section that leaves the attributes alone leaves the world alone. *)
Lemma under_lock_same {A} (f : section A) w r :
  f (data w) = (r, data w) -> under_lock h f w = (r, w).
Proof.
  unfold under_lock, handle_data. intros ->. by rewrite lput_lget.
Qed.

(** The outcome of an operation on a handle that is over. *)
Definition over_outcome {A} (d : LeaseData) (ended : outcome A) (failure : exn) : outcome A :=
  match ls_state d with UNKNOWN => Raised failure | _ => ended end.

(** A handle that is over is inert: once it is lost, released or unknown,
    [renew], [is_held], the release and [__enter__] neither reach the server nor
    change anything.  A renewal reports that the lease is not held and a probe
    says no; a scoped release accepts a released handle and reports a lost one;
    [__enter__] reports the loss; and in [UNKNOWN] each raises the failure that
    was recorded. *)
Theorem handle_over_is_inert w e lease :
  is_ended (data w) = true \/ ls_state (data w) = UNKNOWN ->
  failure_recorded (data w) -> default LeaderBackendError (ls_failure (data w)) = e ->
  renew h lease w = (over_outcome (data w) (Returned NotHeld) e, w) /\
  is_held h w = (over_outcome (data w) (Returned false) e, w) /\
  release_handle h true w =
    (over_outcome (data w)
       (if bool_decide (ls_state (data w) = RELEASED) then Returned tt
        else Raised LeaderLeaseLostError) e, w) /\
  release_handle h false w = (over_outcome (data w) (Raised LeaderReleaseError) e, w) /\
  enter h w = (over_outcome (data w) (Raised LeaderLeaseLostError) e, w).
Proof.
  intros Hover Hrec He. unfold failure_recorded in Hrec.
  assert (forall A B (f : section A) (k : A -> M W B) r,
            f (data w) = (Raised r, data w) -> bind (under_lock h f) k w = (Raised r, w)) as Hraise.
  { intros A B f k r Hf. unfold bind. by rewrite (under_lock_same f w (Raised r) Hf). }
  assert (forall A B (f : section A) (k : A -> M W B) a r,
            f (data w) = (Returned a, data w) -> k a w = r -> bind (under_lock h f) k w = r) as Hret.
  { intros A B f k a r Hf <-. unfold bind. by rewrite (under_lock_same f w (Returned a) Hf). }
  unfold renew, is_held, release_handle, enter, over_outcome.
  destruct (ls_state (data w)) eqn:E; unfold is_ended in Hover; rewrite ?E in Hover;
    try (by destruct Hover); [..|destruct (Hrec eq_refl) as [e' Hf]; rewrite Hf in He; cbn in He; subst e'];
    (split; [|split; [|split; [|split]]]);
    try (rewrite bool_decide_eq_true_2 by done); try (rewrite bool_decide_eq_false_2 by done);
    solve
      [ apply Hraise; unfold finish_terminal_release, unless_unknown; rewrite E; first [done | by rewrite Hf]
      | eapply Hret;
        [unfold finish_terminal_release, unless_unknown, is_ended; rewrite E; reflexivity|done] ].
Qed.
End Over.

(** ** Handles and the server

    A handle whose connection runs each script on the server at once. *)

(** The script that EVALSHA or EVAL runs, on its keys and arguments. *)
Definition serve {S} `{!Redis S} (script : script_name) (keys args : list pybytes) : M S reply_value :=
  let reply (run : M S (list pybytes)) : M S reply_value :=
    parts <- run ;; ret (ReplyParts (Some <$> parts)) in
  match script, keys, args with
  | ACQUIRE_SCRIPT, [lease; fence; history], [owner; ttl] =>
      reply (acquire_script lease fence history owner ttl)
  | RENEW_SCRIPT, [lease], [record; ttl] => reply (renew_script lease record ttl)
  | PROBE_SCRIPT, [lease], [record] => reply (probe_script lease record)
  | RELEASE_SCRIPT, [lease], [record; ttl] => reply (release_script lease record ttl)
  | RECONCILE_SCRIPT, [lease], [] => reply (reconcile_script lease)
  | _, _, _ => raise RedisResponseError
  end.

(** A computation on one object of the world. *)
Definition on_object {W S A} (l : lens W S) (m : M S A) : M W A := fun w =>
  let '(r, s) := m (lget l w) in (r, lput l s w).

(** A connection to the server at [l]. *)
Definition connection {W S} `{!Redis S} (l : lens W S) : redis_commands W := {|
  evalsha script ks vs := on_object l (serve script ks vs);
  eval script ks vs := on_object l (serve script ks vs);
|}.

(** Two objects of the world that share nothing. *)
Class Apart {W S T} (l : lens W S) (k : lens W T) : Prop := {
  apart_left t w : lget l (lput k t w) = lget l w;
  apart_right s w : lget k (lput l s w) = lget k w;
}.

(** The lock's state says that [r] is held. *)
Definition holds (st : lock_state) (r : LeaseRecord) : bool :=
  match st with Held r' ttl => owns r' ttl r | _ => false end.

Section Server.
Context {S W : Type} `{!Redis S} `{!RedisLaws S} (srv : lens W S) `{!LensLaws srv}.
Context (h : RedisLockLease W) `{!LensLaws (ho_data (rl_objects h))}
  `{!Apart srv (ho_data (rl_objects h))} (ks : lock_keys).
Hypothesis keys_apart : distinct_keys ks.
Hypothesis connected : rl_commands h = connection srv.
Hypothesis lease_key : rl_lease_key h = k_lease ks.
Hypothesis key_nonempty : k_lease ks <> [].
Hypothesis record_valid : valid_record (rl_record h).

Abbreviation server w := (view (lget srv w)).
Abbreviation data := (handle_data h).

Lemma record_dispatch : validate_record_argument (to_bytes (rl_record h)) = Returned tt.
Proof.
  unfold validate_record_argument. assert (parse (to_bytes (rl_record h)) = Returned (rl_record h)) as ->.
  { by apply lease_record_parse. }
  done.
Qed.

Lemma nonempty_part (s : pybytes) : s <> [] -> validate_bytes (Some s) = Returned tt.
Proof. by destruct s. Qed.

Lemma record_nonempty : to_bytes (rl_record h) <> [].
Proof. done. Qed.

Lemma decimal_nonempty n : 0 <= n -> decimal n <> [].
Proof.
  intros Hn. destruct (decide (n = 0)) as [->|]; [done|].
  destruct (decimal_head n) as (c & s & -> & _); [lia|done].
Qed.

Lemma milliseconds_dispatch ms zero :
  (1 <= ms <= MAX_REDIS_INTEGER \/ zero = true /\ ms = 0) ->
  validate_milliseconds (decimal ms) zero = Returned tt.
Proof.
  unfold validate_milliseconds. intros [Hms|[-> ->]]; [|done].
  assert (canonical_positive_decimal (decimal ms) = true) as ->.
  { unfold canonical_positive_decimal. rewrite canonical_decimal by done.
    rewrite is_digit_ascii; [done|]. apply decimal_digits. lia. }
  by destruct (_ && _).
Qed.

(** A status script's reply reaches the handle as the script gave it. *)
Lemma run_status_served script args allowed w status s' :
  validate_dispatch script [Some (rl_lease_key h)] (Some <$> args) = Returned ([k_lease ks], args) ->
  serve script [k_lease ks] args (lget srv w) = (Returned (ReplyParts [Some status]), s') ->
  is_ascii status = true -> status ∈ allowed ->
  run_status h script args allowed w = (Returned status, lput srv s' w).
Proof.
  intros Hv Hs Ha Hin. unfold run_status, run_status_on, run_script. rewrite connected, Hv. cbn [connection evalsha eval].
  unfold bind, pure_outcome, try_except, on_object. rewrite Hs. unfold parse_status_response.
  cbn. rewrite Ha. cbn. by rewrite bool_decide_eq_true_2.
Qed.

Lemma dispatch_probe :
  validate_dispatch PROBE_SCRIPT [Some (rl_lease_key h)] [Some (to_bytes (rl_record h))]
  = Returned ([k_lease ks], [to_bytes (rl_record h)]).
Proof.
  unfold validate_dispatch. rewrite lease_key. cbn [app validate_all].
  rewrite (nonempty_part (k_lease ks)), (nonempty_part (to_bytes _)) by (done || apply record_nonempty).
  cbn [length take drop]. by rewrite record_dispatch.
Qed.

Lemma dispatch_timed script ms :
  script = RENEW_SCRIPT \/ script = RELEASE_SCRIPT ->
  1 <= ms <= MAX_REDIS_INTEGER \/ script = RELEASE_SCRIPT /\ ms = 0 ->
  validate_dispatch script [Some (rl_lease_key h)] [Some (to_bytes (rl_record h)); Some (decimal ms)]
  = Returned ([k_lease ks], [to_bytes (rl_record h); decimal ms]).
Proof.
  intros Hs Hms. unfold validate_dispatch. rewrite lease_key. cbn [app validate_all].
  rewrite (nonempty_part (k_lease ks)), (nonempty_part (to_bytes _)), (nonempty_part (decimal ms))
    by (done || apply record_nonempty || (apply decimal_nonempty; lia)).
  cbn [length take drop].
  destruct Hs as [-> | ->]; rewrite record_dispatch, milliseconds_dispatch; try done;
    destruct Hms as [|[]]; auto; try done.
Qed.

Lemma probe_spec_holds st r :
  probe_spec st r = ([if holds st r then py "HELD" else py "NOT_HELD"], st).
Proof. destruct st as [| |r' ttl]; try done. cbn. by destruct (owns r' ttl r). Qed.

Lemma renew_spec_holds st r ms :
  renew_spec st r ms = ([if holds st r then py "RENEWED" else py "NOT_HELD"],
                        if holds st r then Held r ms else st).
Proof. destruct st as [| |r' ttl]; try done. cbn. by destruct (owns r' ttl r). Qed.

(** The state of a lock after its holder released it with [ms] left. *)
Definition given_up (r : LeaseRecord) (ms : Z) : lock_state :=
  if ms =? 0 then Free (fencing_token r) else Held r ms.

Lemma release_spec_holds st r ms :
  release_spec st r ms =
  ([if holds st r then (if ms =? 0 then py "DELETED" else py "MIN_TTL_APPLIED") else py "NOT_HELD"],
   if holds st r then given_up r ms else st).
Proof.
  unfold given_up. destruct st as [| |r' ttl]; try done. cbn. destruct (owns r' ttl r); [|done].
  by destruct (ms =? 0).
Qed.

(** A status script of the handle, on a lock in state [st]. *)
Lemma status_run script args allowed w status st' (run : M S (list pybytes)) :
  serve script [k_lease ks] args = (parts <- run ;; ret (ReplyParts (Some <$> parts))) ->
  implements ks (lget srv w) (run (lget srv w)) ([status], st') ->
  validate_dispatch script [Some (rl_lease_key h)] (Some <$> args) = Returned ([k_lease ks], args) ->
  is_ascii status = true -> status ∈ allowed ->
  exists s', run_status h script args allowed w = (Returned status, lput srv s' w) /\
    represents (view s') ks st'.
Proof.
  intros Hserve (s' & Hrun & Hst & _) Hv Ha Hin. exists s'. split; [|done].
  apply run_status_served; try done. rewrite Hserve. unfold bind. by rewrite Hrun.
Qed.

Lemma handle_lock_run {A} (f : section A) w :
  under_lock h f w = (fst (f (data w)), lput (ho_data (rl_objects h)) (snd (f (data w))) w).
Proof. unfold under_lock, handle_data. by destruct (f _). Qed.

Lemma data_server s w : data (lput srv s w) = data w.
Proof. unfold handle_data. apply apart_right. Qed.

Lemma server_data d w : server (lput (ho_data (rl_objects h)) d w) = server w.
Proof. by rewrite apart_left. Qed.

Lemma data_data d w : data (lput (ho_data (rl_objects h)) d w) = d.
Proof. unfold handle_data. apply lget_lput. Qed.

Lemma live_known (d : LeaseData) {A} (f : section A) :
  ls_state d = ACQUIRED \/ ls_state d = ENTERED -> unless_unknown f d = f d.
Proof. unfold unless_unknown. by intros [-> | ->]. Qed.

Lemma live_not_ended d : ls_state d = ACQUIRED \/ ls_state d = ENTERED -> is_ended d = false.
Proof. unfold is_ended. by intros [-> | ->]. Qed.

(** What the handle's attributes become when the server's answer is in. *)
Definition after_answer (held : bool) (d : LeaseData) : LeaseData :=
  if held then d else set_lease_state d LOST.

(** A live handle knows whether it holds its lease: with a connection to
    the server, [is_held] answers whether the server holds this handle's record
    with time left, and [renew] extends exactly that lease to the requested
    time.  Neither touches another holder's lease, and a handle that finds its
    lease gone is lost from then on. *)
Theorem handle_knows_its_lease w st lease ms :
  ls_state (data w) = ACQUIRED \/ ls_state (data w) = ENTERED ->
  represents (server w) ks st ->
  duration_milliseconds (default (lease_time (rl_options h)) lease) = Returned ms ->
  ms <= px_limit -> ms <= MAX_REDIS_INTEGER ->
  let held := holds st (rl_record h) in
  (fst (is_held h w) = Returned held /\
   data (snd (is_held h w)) = after_answer held (data w) /\
   represents (server (snd (is_held h w))) ks st) /\
  (fst (renew h lease w) = Returned (if held then Renewed None else NotHeld) /\
   data (snd (renew h lease w)) = after_answer held (data w) /\
   represents (server (snd (renew h lease w))) ks (if held then Held (rl_record h) ms else st)).
Proof.
  intros Hlive Hst Hd Hpx Hmax held.
  assert (forall A B (f : LeaseData -> A) (k : A -> M W B),
            bind (under_lock h (unless_unknown (fun d => (Returned (f d), d)))) k w
            = k (f (data w)) w) as Hread.
  { intros A B f k. unfold bind. rewrite (under_lock_same h _ w (Returned (f (data w)))); [done|].
    by rewrite live_known. }
  pose proof (proj1 (duration_milliseconds_value _ _) Hd) as [_ Hms].
  split.
  - destruct (status_run PROBE_SCRIPT [to_bytes (rl_record h)]
                [py "HELD"; py "NOT_HELD"; py "CORRUPT"] w (if held then py "HELD" else py "NOT_HELD") st
                (probe_script (k_lease ks) (to_bytes (rl_record h)))) as (s' & Hrun & Hst');
      [done| |apply dispatch_probe|by destruct held|destruct held; repeat constructor|].
    { subst held. rewrite <-(probe_spec_holds st). by apply probe_implements. }
    assert (is_held h w = (Returned held, lput (ho_data (rl_objects h)) (after_answer held (data w))
                                            (lput srv s' w))) as ->;
      [|cbn [fst snd]; by rewrite data_data, server_data, lget_lput].
    unfold is_held. rewrite Hread, live_not_ended by done. unfold attempt.
    unfold bind at 1. unfold try_except, bind at 1. rewrite Hrun. cbn [ret].
    rewrite handle_lock_run, data_server, live_known, live_not_ended by done.
    by destruct held.
  - destruct (status_run RENEW_SCRIPT [to_bytes (rl_record h); decimal ms]
                [py "RENEWED"; py "NOT_HELD"; py "CORRUPT"] w
                (if held then py "RENEWED" else py "NOT_HELD")
                (if held then Held (rl_record h) ms else st)
                (renew_script (k_lease ks) (to_bytes (rl_record h)) (decimal ms))) as (s' & Hrun & Hst');
      [done| |apply dispatch_timed; auto; lia|by destruct held|destruct held; repeat constructor|].
    { subst held. rewrite <-(renew_spec_holds st). apply renew_implements; auto. }
    assert (renew h lease w = (Returned (if held then Renewed None else NotHeld),
              lput (ho_data (rl_objects h)) (after_answer held (data w)) (lput srv s' w))) as ->;
      [|cbn [fst snd]; by rewrite data_data, server_data, lget_lput].
    unfold renew. rewrite Hread, live_not_ended, Hd by done. unfold attempt, pure_outcome.
    unfold bind at 1. unfold bind at 1. unfold try_except, bind at 1. rewrite Hrun. cbn [ret].
    rewrite handle_lock_run, data_server, live_known, live_not_ended by done.
    by destruct held.
Qed.

(** The nanoseconds of the minimum lease time that are left at [now]. *)
Definition minimum_left_ns (now : Z) : Z :=
  min_lease_time (rl_options h) * 1000 - (now - rl_acquired_ns h).

(** A release gives the lease up, and only the handle's own: with a
    connection to the server, a live handle that holds its lease ends [RELEASED]
    and the lock is free, or held for what is left of the minimum lease time,
    rounded up to a millisecond.  A handle whose lease is gone ends [LOST],
    raises, and leaves the lock to its holder. *)
Theorem release_gives_up w st now ms scoped :
  ls_state (data w) = ACQUIRED \/ ls_state (data w) = ENTERED ->
  represents (server w) ks st ->
  rl_monotonic_ns h w = (Returned now, w) ->
  ms = Z.max 0 ((minimum_left_ns now + 999999) / 1000000) ->
  ms <= px_limit -> ms <= MAX_REDIS_INTEGER ->
  let held := holds st (rl_record h) in
  let result := release_handle h scoped w in
  fst result = (if held then Returned tt
                else Raised (if scoped then LeaderLeaseLostError else LeaderReleaseError)) /\
  data (snd result) = set_lease_state (data w) (if held then RELEASED else LOST) /\
  represents (server (snd result)) ks (if held then given_up (rl_record h) ms else st) /\
  minimum_left_ns now <= ms * 1000000.
Proof.
  intros Hlive Hst Hclock Hms Hpx Hmax held result.
  assert (finish_terminal_release scoped (data w) = (Returned false, data w)) as Hover.
  { unfold finish_terminal_release. rewrite live_known by done. by destruct Hlive as [-> | ->]. }
  assert (remaining_minimum_ms h w = (Returned ms, w)) as Hrem.
  { unfold remaining_minimum_ms, bind. rewrite Hclock, duration_nanoseconds_value. cbn [ret].
    unfold ret. fold (minimum_left_ns now). do 2 f_equal. subst ms.
    destruct (Z.leb_spec (minimum_left_ns now) 0).
    - assert ((minimum_left_ns now + 999999) / 1000000 < 1) by (apply Z.div_lt_upper_bound; lia). lia.
    - assert (0 <= (minimum_left_ns now + 999999) / 1000000) by (apply Z.div_pos; lia). lia. }
  assert (minimum_left_ns now <= ms * 1000000) as Hleft.
  { pose proof (Z.div_mod (minimum_left_ns now + 999999) 1000000).
    pose proof (Z.mod_pos_bound (minimum_left_ns now + 999999) 1000000). lia. }
  set (status := if held then (if ms =? 0 then py "DELETED" else py "MIN_TTL_APPLIED")
                 else py "NOT_HELD").
  destruct (status_run RELEASE_SCRIPT [to_bytes (rl_record h); decimal ms]
              [py "DELETED"; py "MIN_TTL_APPLIED"; py "NOT_HELD"; py "CORRUPT"] w status
              (if held then given_up (rl_record h) ms else st)
              (release_script (k_lease ks) (to_bytes (rl_record h)) (decimal ms)))
    as (s' & Hrun & Hst');
    [done| |apply dispatch_timed; [by right|]; destruct (decide (ms = 0)); [by right|left; lia]
    |subst status; by destruct held, (ms =? 0)
    |subst status; destruct held, (ms =? 0); repeat constructor|].
  { subst held status. rewrite <-(release_spec_holds st). apply release_implements; auto. lia. }
  assert (result = (if held then Returned tt
                    else Raised (if scoped then LeaderLeaseLostError else LeaderReleaseError),
                    lput (ho_data (rl_objects h))
                      (set_lease_state (data w) (if held then RELEASED else LOST)) (lput srv s' w)))
    as ->; [|cbn [fst snd]; by rewrite data_data, server_data, lget_lput].
  subst result. unfold release_handle. unfold bind at 1.
  rewrite (under_lock_same h _ w (Returned false) Hover).
  unfold bind at 1, attempt_uncertain, try_except, bind at 1, dispatch_release, bind at 1.
  rewrite Hrem, Hrun. cbn [ret]. rewrite handle_lock_run, data_server.
  unfold unless_released. rewrite Hover. subst status. by destruct held, (ms =? 0).
Qed.
End Server.

(** ** A release that returns *)

Section Returns.
Context {W : Type} (h : RedisLockLease W) `{!LensLaws (ho_data (rl_objects h))}.

Abbreviation data := (handle_data h).

Lemma bind_inv {A B} (m : M W A) (k : A -> M W B) w b w' :
  bind m k w = (Returned b, w') -> exists a w1, m w = (Returned a, w1) /\ k a w1 = (Returned b, w').
Proof. unfold bind. destruct (m w) as [[a|e] w1]; [|done]. eauto. Qed.

Lemma under_lock_inv {A} (f : section A) w a w' :
  under_lock h f w = (Returned a, w') -> f (data w) = (Returned a, data w').
Proof.
  unfold under_lock, handle_data. destruct (f _) as [r d]. intros [= -> <-]. by rewrite lget_lput.
Qed.

Lemma finish_terminal_true scoped d d' :
  finish_terminal_release scoped d = (Returned true, d') -> d' = d /\ ls_state d = RELEASED.
Proof.
  unfold finish_terminal_release, unless_unknown. destruct (ls_state d) eqn:E; rewrite ?E; try done.
  destruct scoped; [|done]. by intros [= <-].
Qed.

Lemma finish_status_returned scoped status d d' :
  finish_release_status status scoped d = (Returned tt, d') -> ls_state d' = RELEASED.
Proof. unfold finish_release_status. repeat case_match; try done; by intros [= <-]. Qed.

Lemma unless_released_returned scoped (f : section unit) d d' :
  (forall d1, f d1 = (Returned tt, d') -> ls_state d' = RELEASED) ->
  unless_released scoped f d = (Returned tt, d') -> ls_state d' = RELEASED.
Proof.
  intros Hf. unfold unless_released.
  destruct (finish_terminal_release scoped d) as [[[]|e] d1] eqn:E; try done; [|apply Hf].
  apply finish_terminal_true in E as [-> Hr]. by intros [= <-].
Qed.

Lemma finish_returned scoped (f : section unit) w w' :
  (forall d d', f d = (Returned tt, d') -> ls_state d' = RELEASED) ->
  under_lock h (unless_released scoped f) w = (Returned tt, w') -> ls_state (data w') = RELEASED.
Proof. intros Hf E%under_lock_inv. eapply unless_released_returned; [|exact E]. eauto. Qed.

Lemma reconcile_returned scoped w w' :
  reconcile_release h scoped w = (Returned tt, w') -> ls_state (data w') = RELEASED.
Proof.
  intros (status & w1 & _ & Hrun)%bind_inv. apply bind_inv in Hrun as (again & w2 & Hsec & Hrun).
  apply under_lock_inv in Hsec. destruct again.
  - cbn [negb] in Hrun. apply bind_inv in Hrun as (r & w3 & _ & Hrun). cbn in Hrun.
    eapply finish_returned; [|exact Hrun]. intros d d'. destruct r; try done.
    apply finish_status_returned.
  - injection Hrun as <-.
    destruct (finish_terminal_release scoped (data w1)) as [[[]|e] d1] eqn:E; try done.
    + apply finish_terminal_true in E as [-> Hr]. by injection Hsec as <-.
    + repeat case_match; done.
Qed.

Lemma release_returned scoped w w' :
  release_handle h scoped w = (Returned tt, w') -> ls_state (data w') = RELEASED.
Proof.
  intros (over & w1 & Hsec & Hrun)%bind_inv. apply under_lock_inv in Hsec. destruct over.
  - apply finish_terminal_true in Hsec as [E Hr]. injection Hrun as <-. congruence.
  - apply bind_inv in Hrun as (r & w2 & _ & Hrun). destruct r.
    + eapply finish_returned; [|exact Hrun]. intros d d'. apply finish_status_returned.
    + by apply reconcile_returned in Hrun.
    + eapply finish_returned; [|exact Hrun]. done.
Qed.

Lemma leader_failure_none (m : M W unit) w w' :
  leader_failure m w = (Returned None, w') -> m w = (Returned tt, w').
Proof.
  unfold leader_failure, try_except, bind. destruct (m w) as [[[]|e] w1]; [by intros [= <-]|].
  by destruct e.
Qed.

Lemma exit_returned w w' : exit h None w = (Returned tt, w') -> ls_state (data w') = RELEASED.
Proof.
  intros (failure & w1 & Hl & Hrun)%bind_inv. destruct failure; [done|]. injection Hrun as <-.
  apply leader_failure_none in Hl as (u & w2 & _ & Hrun)%bind_inv. by apply release_returned in Hrun.
Qed.
End Returns.

(** ** Acquisition and the elector *)

Section Acquisition.
Context {W : Type} (encode : pystr -> pybytes) (sha256 : pybytes -> pystr).
Context (lock : RedisDistributedLock W).

(** The handles of a lock have their own attributes. *)
Hypothesis own_attributes : forall d w o w',
  dl_new_objects lock d w = (Returned o, w') -> LensLaws (ho_data o).

Lemma new_handle_attributes key owner fence options ns w hd w' :
  new_handle lock key owner fence options ns w = (Returned hd, w') -> LensLaws (ho_data (rl_objects hd)).
Proof.
  intros (? & ? & _ & H)%bind_inv. apply bind_inv in H as (? & ? & _ & H).
  apply bind_inv in H as (? & ? & _ & H). apply bind_inv in H as (? & ? & _ & H).
  apply bind_inv in H as (? & ? & Ho & H). injection H as <- _. by eapply own_attributes.
Qed.

Lemma acquire_loop_attributes fuel keys owner ttl options deadline b w hd w' :
  acquire_loop lock fuel keys owner ttl options deadline b w = (Returned (Some hd), w') ->
  LensLaws (ho_data (rl_objects hd)).
Proof.
  revert b w. induction fuel as [|fuel IH]; intros b w; [done|]. cbn [acquire_loop].
  intros (ns & w1 & _ & H)%bind_inv. destruct (b && (deadline <=? ns)); [done|].
  apply bind_inv in H as (tried & w2 & _ & H). destruct tried as [[fence| |]| |].
  - apply bind_inv in H as (hd' & w3 & Hn & H). injection H as <- _. by eapply new_handle_attributes.
  - apply bind_inv in H as (now & w3 & _ & H). destruct (deadline - now <=? 0); [done|].
    apply bind_inv in H as (? & ? & _ & H). apply bind_inv in H as (? & ? & _ & H).
    apply bind_inv in H as (? & ? & _ & H). by eapply IH.
  - done.
  - apply bind_inv in H as (hd' & w3 & Hn & H). injection H as <- _.
    apply bind_inv in Hn as (status & w4 & _ & Hn). destruct status as [[record| |]|]; try done.
    case_bool_decide; [|done]. by eapply new_handle_attributes.
  - done.
Qed.

Lemma try_acquire_attributes name options w hd w' :
  try_acquire encode sha256 lock name options w = (Returned (Some hd), w') ->
  LensLaws (ho_data (rl_objects hd)).
Proof.
  intros (? & ? & _ & H)%bind_inv. apply bind_inv in H as (? & ? & _ & H).
  apply bind_inv in H as (? & ? & _ & H). apply bind_inv in H as (? & ? & _ & H).
  apply bind_inv in H as (? & ? & _ & H). by eapply acquire_loop_attributes.
Qed.

(** What a result of the elector says happened. *)
Definition accounts_for {T} (name : arg pystr) (action : FencedLeaderLease -> M W T)
    (options : LeaderElectionOptions) (w w' : W) (result : LeaderRunResult T FencedLeaderLease)
    : Prop :=
  let acquire := try_acquire encode sha256 lock name options in
  (** [action] ran once, inside the scope of a handle with this lease, and ended so. *)
  let covered (lease : FencedLeaderLease) (r : outcome T) :=
    exists hd w1 w2 w3,
      acquire w = (Returned (Some hd), w1) /\ lease = rl_lease hd /\
      enter hd w1 = (Returned tt, w2) /\ action lease w2 = (r, w3) /\
      exit hd None w3 = (Returned tt, w') /\ ls_state (handle_data hd w') = RELEASED in
  match result with
  | Skipped => acquire w = (Returned None, w')
  | Elected value lease => covered lease (Returned value)
  | ActionFailed e lease => is_Exception e = true /\ covered lease (Raised e)
  end.

(** [C20] The elector's results can be trusted.  [Skipped] is reported only when
    the lease was not acquired, and then the action did not run.  [Elected] and
    [ActionFailed] are reported only when the lease was acquired and proved on
    entry, the action then ran once with that lease and ended as reported, and
    the lease was released afterwards: when ownership could not be proved until
    the end, the elector raises instead. *)
Theorem elector_result_accounts {T} name (action : FencedLeaderLease -> M W T) options w result w' :
  run_if_leader_result encode sha256 lock name action options w = (Returned result, w') ->
  accounts_for name action options w w' result.
Proof.
  intros (acquired & w1 & Hacq & H)%bind_inv. destruct acquired as [hd|]; [|by injection H as <- <-].
  pose proof (try_acquire_attributes _ _ _ _ _ Hacq) as Hlaws.
  apply bind_inv in H as ([] & w2 & Hent & H). unfold try_except at 1, bind at 1 in H.
  unfold accounts_for. destruct (action (rl_lease hd) w2) as [[v|e] w3] eqn:Hact; cbn [ret] in H.
  - unfold ret at 1, try_except, bind in H.
    destruct (exit hd None w3) as [[[]|e] w4] eqn:Hexit; cbn in H; [|by destruct e].
    injection H as <- <-. exists hd, w1, w2, w3. repeat split; auto. by apply exit_returned in Hexit.
  - destruct (is_Exception e) eqn:He.
    + destruct e; try done; unfold ret at 1, try_except, bind in H;
        (destruct (exit hd None w3) as [[[]|e'] w4] eqn:Hexit; cbn in H;
         [injection H as <- <-; split; [done|]; exists hd, w1, w2, w3; repeat split; auto;
          by apply exit_returned in Hexit
         |destruct e'; cbn in H; done]).
    + destruct e; try done; cbn in H; unfold bind in H;
        destruct (exit hd _ w3) as [[[]|] ?]; done.
Qed.
End Acquisition.

(** ** An acquisition ends *)

Lemma check_options_wait o o' : check_options o = Returned o' -> wait_time o' = wait_time o.
Proof.
  unfold check_options. intros H. repeat (case_match; simplify_eq/=); done.
Qed.

Lemma validated_options_wait o tm o' :
  validated_redis_options o tm = Returned o' -> wait_time o' = wait_time o.
Proof.
  unfold validated_redis_options. intros H.
  repeat (case_match; simplify_eq/=); try done;
    match goal with E : check_options _ = _ |- _ => by apply check_options_wait in E end.
Qed.

Section Termination.
Context {W : Type} (encode : pystr -> pybytes) (sha256 : pybytes -> pystr).
Context (lock : RedisDistributedLock W).
Variable now : W -> Z.

(** A statement that ends, and the time passes on meanwhile. *)
Definition timely {A} (m : M W A) : Prop :=
  forall w, fst (m w) <> Raised FuelExhausted /\ now w <= now (snd (m w)).

(** The monotonic clock reads a time between the start and the end of the call,
    and a sleep takes time. *)
Record clocked : Prop := {
  ck_evalsha s ks vs : timely (evalsha (dl_commands lock) s ks vs);
  ck_eval s ks vs : timely (eval (dl_commands lock) s ks vs);
  ck_jitter : timely (dl_jitter lock);
  ck_token : timely (dl_token_factory lock);
  ck_utcnow : timely (dl_utcnow lock);
  ck_new d : timely (dl_new_objects lock d);
  ck_clock w : exists t w', dl_monotonic_ns lock w = (Returned t, w') /\ now w <= t <= now w';
  ck_sleep s w : fst (dl_sleep lock s w) <> Raised FuelExhausted /\
                 now w < now (snd (dl_sleep lock s w));
}.

Hypothesis clock : clocked.

(** The call returns or raises: its loop is not cut short. *)
Definition ends {A} (r : outcome A) : Prop := r <> Raised FuelExhausted.

Lemma timely_ret {A} (a : A) : timely (ret a).
Proof. intros w. split; [done|]. cbn. lia. Qed.

Lemma timely_raise {A} e : e <> FuelExhausted -> timely (@raise W A e).
Proof. intros He w. split; [by intros [= ->]|]. cbn. lia. Qed.

Lemma timely_pure {A} (r : outcome A) : r <> Raised FuelExhausted -> timely (pure_outcome r).
Proof. intros Hr w. split; [done|]. cbn. lia. Qed.

Lemma timely_bind {A B} (m : M W A) (k : A -> M W B) :
  timely m -> (forall a, timely (k a)) -> timely (bind m k).
Proof.
  intros Hm Hk w. destruct (Hm w) as [Hf Hn]. unfold bind. destruct (m w) as [[a|e] w1]; cbn in *.
  - destruct (Hk a w1) as [Hf' Hn']. split; [done|lia].
  - split; [|done]. intros [= ->]. by apply Hf.
Qed.

Lemma timely_try_except {A} (m : M W A) handle :
  timely m -> (forall e m', handle e = Some m' -> timely m') -> timely (try_except m handle).
Proof.
  intros Hm Hh w. destruct (Hm w) as [Hf Hn]. unfold try_except.
  destruct (m w) as [[a|e] w1]; cbn in *; [done|].
  destruct (decide (e = FuelExhausted)) as [->|He]; [done|].
  assert (fst (match handle e with Some m' => m' w1 | None => (Raised e, w1) end) <> Raised FuelExhausted
          /\ now w <= now (snd (match handle e with Some m' => m' w1 | None => (Raised e, w1) end))).
  { destruct (handle e) as [m'|] eqn:E; [|split; [by intros [= ->]|done]].
    destruct (Hh e m' E w1). split; [done|lia]. }
  by destruct e.
Qed.

Lemma timely_attempt {A} (m : M W A) : timely m -> timely (attempt m).
Proof.
  intros Hm. apply timely_try_except; [by apply timely_bind; auto using timely_ret|].
  intros e m'. case_match; [|done]. intros [= <-]. apply timely_ret.
Qed.

Lemma timely_attempt_uncertain {A} (m : M W A) : timely m -> timely (attempt_uncertain m).
Proof.
  intros Hm. apply timely_try_except; [by apply timely_bind; auto using timely_ret|].
  intros e m'. repeat case_match; try done; intros [= <-]; apply timely_ret.
Qed.

(** No check of the sources ends with the marker of an exhausted loop. *)
Ltac not_exhausted :=
  let E := fresh in intros E;
  repeat (case_match; simplify_eq/=); try done.

Lemma validate_bytes_ends v : validate_bytes v <> Raised FuelExhausted.
Proof. unfold validate_bytes. not_exhausted. Qed.

Lemma validate_all_ends vs : validate_all vs <> Raised FuelExhausted.
Proof. induction vs as [|v vs IH]; cbn; [done|]. not_exhausted. Qed.

Lemma validate_milliseconds_ends v z : validate_milliseconds v z <> Raised FuelExhausted.
Proof. unfold validate_milliseconds. not_exhausted. Qed.

Lemma validate_record_ends v : validate_record_argument v <> Raised FuelExhausted.
Proof. unfold validate_record_argument. not_exhausted. Qed.

Lemma validate_dispatch_ends s ks vs : validate_dispatch s ks vs <> Raised FuelExhausted.
Proof.
  unfold validate_dispatch. pose proof (validate_all_ends (ks ++ vs)) as Ha.
  destruct (validate_all _) as [values|e]; [|by intros [= ->]].
  pose proof validate_milliseconds_ends as Hm. pose proof validate_record_ends as Hr.
  not_exhausted; naive_solver.
Qed.

Lemma response_parts_ends v : response_parts v <> Raised FuelExhausted.
Proof. unfold response_parts. not_exhausted. Qed.

Lemma parse_acquire_ends v : parse_acquire_response v <> Raised FuelExhausted.
Proof.
  unfold parse_acquire_response. pose proof (response_parts_ends v) as Hp. not_exhausted.
Qed.

Lemma parse_reconcile_ends v : parse_reconcile_response v <> Raised FuelExhausted.
Proof.
  unfold parse_reconcile_response. pose proof (response_parts_ends v) as Hp. not_exhausted.
Qed.

Lemma validated_script_args_ends o t : validated_script_args o t <> Raised FuelExhausted.
Proof. unfold validated_script_args. not_exhausted. Qed.

Lemma make_record_ends o f : make_record o f <> Raised FuelExhausted.
Proof. unfold make_record. not_exhausted. Qed.

Lemma datetime_ends v n : require_optional_utc_datetime v n <> Raised FuelExhausted.
Proof. unfold require_optional_utc_datetime. not_exhausted. Qed.

Lemma make_lease_ends i n e u t :
  make_fenced_lease (make_leader_lease i n e u) t <> Raised FuelExhausted.
Proof.
  unfold make_fenced_lease, make_leader_lease, require_optional, require_exact.
  pose proof datetime_ends as Hd. not_exhausted; naive_solver.
Qed.

Lemma check_options_ends o : check_options o <> Raised FuelExhausted.
Proof. unfold check_options, validate_node_id. not_exhausted. Qed.

Lemma duration_milliseconds_ends d : duration_milliseconds d <> Raised FuelExhausted.
Proof. unfold duration_milliseconds. not_exhausted. Qed.

Lemma validated_options_ends o t : validated_redis_options o t <> Raised FuelExhausted.
Proof.
  unfold validated_redis_options. pose proof check_options_ends as Hc. not_exhausted; naive_solver.
Qed.

Lemma redis_keys_ends n p : redis_keys encode sha256 n p <> Raised FuelExhausted.
Proof. unfold redis_keys, validated_prefix. not_exhausted. Qed.

Lemma check_jitter_ends d : check_jitter d <> Raised FuelExhausted.
Proof. unfold check_jitter. not_exhausted. Qed.

Lemma timely_run_script s ks vs : timely (run_script (dl_commands lock) s ks vs).
Proof.
  apply timely_bind; [apply timely_pure, validate_dispatch_ends|]. intros [k v].
  apply timely_try_except; [apply clock|]. intros e m'. case_match; try done.
  intros [= <-]. apply clock.
Qed.

Lemma timely_new_handle key owner fence options ns :
  timely (new_handle lock key owner fence options ns).
Proof.
  unfold new_handle. apply timely_bind; [apply clock|]. intros at_.
  apply timely_bind; [apply timely_pure; unfold datetime_add; not_exhausted|]. intros end_.
  apply timely_bind; [apply timely_pure, make_lease_ends|]. intros lease.
  apply timely_bind; [apply timely_pure, make_record_ends|]. intros record.
  apply timely_bind; [apply clock|]. intros o. apply timely_ret.
Qed.

Lemma timely_reconcile key owner options ns : timely (reconcile_acquire lock key owner options ns).
Proof.
  unfold reconcile_acquire. apply timely_bind.
  - apply timely_attempt, timely_bind; [|intros; apply timely_pure, parse_reconcile_ends].
    apply timely_bind; [apply timely_pure, validate_bytes_ends|]. intros _. apply clock.
  - intros status. repeat case_match; try (by apply timely_raise). apply timely_new_handle.
Qed.

(** One attempt of the loop. *)
Lemma timely_try keys owner ttl :
  timely (let* (o, t) := pure_outcome (validated_script_args owner ttl) in
          raw <- run_script (dl_commands lock) ACQUIRE_SCRIPT
                   [Some (k_lease keys); Some (k_fence keys); Some (k_history keys)]
                   [Some o; Some t] ;;
          pure_outcome (parse_acquire_response raw)).
Proof.
  apply timely_bind; [apply timely_pure, validated_script_args_ends|]. intros [o t].
  apply timely_bind; [apply timely_run_script|]. intros raw. apply timely_pure, parse_acquire_ends.
Qed.

Lemma bind_ends {A B} (m : M W A) (k : A -> M W B) w :
  timely m -> (forall a w1, now w <= now w1 -> fst (k a w1) <> Raised FuelExhausted) ->
  fst (bind m k w) <> Raised FuelExhausted.
Proof.
  intros Hm Hk. destruct (Hm w) as [Hf Hn]. unfold bind. destruct (m w) as [[a|e] w1]; cbn in *.
  - by apply Hk.
  - intros [= ->]. by apply Hf.
Qed.

Lemma some_handle (m : M W (RedisLockLease W)) w :
  timely m -> fst ((hd <- m ;; ret (Some hd)) w) <> Raised FuelExhausted.
Proof. intros Hm. by apply timely_bind; auto using timely_ret. Qed.

(** An attempt that fails to acquire takes time: the fuel is the time left. *)
Lemma acquire_loop_ends fuel keys owner ttl options deadline b w :
  deadline - now w + 1 <= Z.of_nat fuel -> (1 <= fuel)%nat ->
  fst (acquire_loop lock fuel keys owner ttl options deadline b w) <> Raised FuelExhausted.
Proof.
  revert b w. induction fuel as [|fuel IH]; intros b w Hfuel Hpos; [lia|]. cbn [acquire_loop].
  destruct (ck_clock clock w) as (ns & w1 & Hc & Hn). rewrite (bind_returned _ _ _ _ _ Hc).
  destruct (b && (deadline <=? ns)); [done|].
  apply bind_ends; [apply timely_attempt_uncertain, timely_try|]. intros tried w2 Hw2.
  destruct tried as [[fence| |]| |]; try done.
  - apply some_handle, timely_new_handle.
  - destruct (ck_clock clock w2) as (ns2 & w3 & Hc2 & Hn2). rewrite (bind_returned _ _ _ _ _ Hc2).
    destruct (Z.leb_spec (deadline - ns2) 0); [done|].
    apply bind_ends; [apply clock|]. intros delay w4 Hw4.
    apply bind_ends; [apply timely_pure, check_jitter_ends|]. intros f w5 Hw5.
    unfold bind. destruct (ck_sleep clock (fmin f (true_divide (deadline - ns2) 1000000000)) w5) as [Hs Ht].
    destruct (dl_sleep lock _ w5) as [[[]|e] w6]; cbn in *; [apply IH; lia|].
    intros [= ->]. by apply Hs.
  - apply some_handle, timely_reconcile.
Qed.

(** [try_acquire] ends: contended attempts wait, and once the waiting time
    is over no further attempt is made.  With a clock that moves, a call whose
    fuel is its waiting time in nanoseconds returns or raises: the loop is not
    cut short. *)
Theorem try_acquire_ends name options w :
  (Z.to_nat (wait_time options * 1000) + 1 <= dl_fuel lock)%nat ->
  ends (fst (try_acquire encode sha256 lock name options w)).
Proof.
  intros Hfuel. unfold ends. unfold try_acquire. unfold bind at 1, pure_outcome at 1.
  pose proof (validated_options_ends options (dl_timing lock)) as Hends.
  destruct (validated_redis_options options (dl_timing lock)) as [o|e] eqn:E;
    [|cbn; intros [= ->]; done].
  assert (wait_time o = wait_time options) as Hwait.
  { by eapply validated_options_wait. }
  apply bind_ends; [apply timely_pure, redis_keys_ends|]. intros ks w1 _.
  apply bind_ends; [apply clock|]. intros owner w2 _.
  apply bind_ends; [apply timely_pure, duration_milliseconds_ends|]. intros ms w3 _.
  destruct (ck_clock clock w3) as (ns & w4 & Hc & Hn). rewrite (bind_returned _ _ _ _ _ Hc).
  apply acquire_loop_ends; [|lia]. rewrite duration_nanoseconds_value, Hwait. lia.
Qed.
End Termination.

(** ** Witnesses

    A world of one handle, a server and a clock. *)

Section Demo.
Record demo : Type := { dm_data : LeaseData; dm_server : map_server; dm_now : Z }.

Definition demo_data : lens demo LeaseData := {|
  lget := dm_data;
  lput d w := {| dm_data := d; dm_server := dm_server w; dm_now := dm_now w |};
|}.

Definition demo_server : lens demo map_server := {|
  lget := dm_server;
  lput s w := {| dm_data := dm_data w; dm_server := s; dm_now := dm_now w |};
|}.

#[local] Instance demo_data_laws : LensLaws demo_data.
Proof. constructor; [done|by intros []|done]. Qed.

#[local] Instance demo_server_laws : LensLaws demo_server.
Proof. constructor; [done|by intros []|done]. Qed.

#[local] Instance demo_apart : Apart demo_server demo_data.
Proof. by constructor. Qed.

Definition demo_objects : handle_objects demo := {|
  ho_data := demo_data;
  ho_start_thread := ret tt;
  ho_is_alive := ret false;
  ho_join _ := ret tt;
  ho_stop_set := ret tt;
  ho_stop_wait _ := ret true;
  ho_ready_clear := ret tt;
  ho_ready_set := ret tt;
  ho_ready_wait _ := ret true;
|}.

Definition demo_clock : M demo Z := fun w => (Returned (dm_now w), w).

Definition demo_timing : Timing :=
  match timing (PyInt 2) (PyFloat f1) (PyFloat f1) (PyFloat f0) with
  | Returned t => t
  | Raised _ => {| t_handshake_round_trips := 0; t_connect := f0; t_command := f0; t_script := f0;
                   t_acquire := f0; t_probe := f0; t_renew := f0; t_release := f0 |}
  end.

Definition demo_options : LeaderElectionOptions :=
  {| wait_time := 0; lease_time := 60000000; node_id := None; min_lease_time := 0;
     auto_renew := false; renew_interval := None |}.

Definition demo_lease : FencedLeaderLease :=
  {| fl_lease := {| audit_leader_id := py "1"; lease_node_id := None; elected_at := None;
                    lease_until := None |};
     fl_fencing_token := 1 |}.

Definition demo_handle : RedisLockLease demo := {|
  rl_objects := demo_objects;
  rl_commands := connection demo_server;
  rl_lease := demo_lease;
  rl_lease_key := k_lease w_keys;
  rl_record := w_record 1;
  rl_options := demo_options;
  rl_monotonic_ns := demo_clock;
  rl_acquired_ns := 0;
  rl_timing := demo_timing;
|}.

Definition demo_world (s : lease_state) (server : map_server) : demo :=
  {| dm_data := {| ls_state := s; ls_failure := None; ls_worker := false |};
     dm_server := server; dm_now := 0 |}.

(** The lock held under the handle's record for a second. *)
Definition demo_held : map_server :=
  <[[1] := StringValue (to_bytes (w_record 1)) (Some 1000)]>
    (<[[2] := StringValue (decimal 1) None]> (<[[3] := StringValue (py "v1") None]> ∅)).

Lemma demo_represents : represents (view demo_held) w_keys (Held (w_record 1) 1000).
Proof. split; [apply w_record_valid|]. split; [lia|]. by repeat split. Qed.

Lemma demo_environment : environment_follows demo_handle.
Proof.
  assert (forall A (m : M map_server A), follows demo_handle (on_object demo_server m)) as Hs.
  { intros A m w. unfold on_object. by destruct (m _). }
  constructor; intros; try (by apply Hs); by intros w.
Qed.

Lemma handle_follows_lifecycle_witness :
  let w := demo_world LOST ∅ in
  let w' := operations_lead demo_handle [IsHeld; Enter; Release; Renew None] w in
  ls_state (handle_data demo_handle w') = LOST \/ ls_state (handle_data demo_handle w') = UNKNOWN.
Proof.
  exact (proj1 (proj2 (handle_follows_lifecycle demo_handle demo_environment
    [IsHeld; Enter; Release; Renew None] (demo_world LOST ∅))) eq_refl).
Defined.

Lemma handle_over_is_inert_witness :
  renew demo_handle None (demo_world LOST ∅) = (Returned NotHeld, demo_world LOST ∅).
Proof.
  refine (proj1 (handle_over_is_inert demo_handle (demo_world LOST ∅) LeaderBackendError None _ _ _)).
  - by left.
  - done.
  - done.
Defined.

Lemma handle_knows_its_lease_witness :
  fst (is_held demo_handle (demo_world ENTERED demo_held)) = Returned true.
Proof.
  refine (proj1 (proj1 (handle_knows_its_lease demo_server demo_handle w_keys w_keys_distinct
    eq_refl eq_refl _ w_record_valid (demo_world ENTERED demo_held) (Held (w_record 1) 1000) None 60000
    _ demo_represents eq_refl _ _))).
  - done.
  - by right.
  - done.
  - done.
Defined.

Lemma release_gives_up_witness :
  fst (release_handle demo_handle false (demo_world ENTERED demo_held)) = Returned tt /\
  represents (view (dm_server (snd (release_handle demo_handle false (demo_world ENTERED demo_held)))))
    w_keys (Free 1).
Proof.
  destruct (release_gives_up demo_server demo_handle w_keys w_keys_distinct eq_refl eq_refl
    ltac:(done) w_record_valid (demo_world ENTERED demo_held) (Held (w_record 1) 1000) 0 0 false
    ltac:(by right) demo_represents eq_refl eq_refl ltac:(done) ltac:(done)) as (H1 & _ & H3 & _).
  split; [exact H1|exact H3].
Defined.

(** A lock on that server; every sleep moves the clock. *)
Definition demo_lock : RedisDistributedLock demo := {|
  dl_commands := connection demo_server;
  dl_prefix := Exact (py "bluetape-leader");
  dl_timing := demo_timing;
  dl_monotonic_ns := demo_clock;
  dl_sleep _ := fun w => (Returned tt, {| dm_data := dm_data w; dm_server := dm_server w;
                                          dm_now := dm_now w + 50000000 |});
  dl_jitter := ret (PyFloat JITTER_MIN);
  dl_token_factory := ret w_owner;
  dl_utcnow := ret {| dt_time := 0; dt_zone := KnownZone 0 |};
  dl_new_objects d := fun w =>
    (Returned demo_objects, {| dm_data := d; dm_server := dm_server w; dm_now := dm_now w |});
  dl_fuel := 1;
|}.

Lemma demo_attributes d w o w' :
  dl_new_objects demo_lock d w = (Returned o, w') -> LensLaws (ho_data o).
Proof. intros [= <- _]. apply demo_data_laws. Qed.

(** A run of the elector on a free lock. *)
Definition demo_run : outcome (LeaderRunResult Z FencedLeaderLease) * demo :=
  run_if_leader_result (fun s => s) (fun b => b) demo_lock (Exact (py "job"))
    (fun lease => ret (fl_fencing_token lease)) demo_options (demo_world LOST ∅).

Definition demo_result : LeaderRunResult Z FencedLeaderLease :=
  match fst demo_run with Returned r => r | Raised _ => Skipped end.

Example demo_elected : match demo_result with Elected v _ => v = 1 | _ => False end.
Proof. vm_compute. reflexivity. Qed.

Lemma demo_run_result : demo_run = (Returned demo_result, snd demo_run).
Proof. vm_compute. reflexivity. Qed.

Lemma elector_result_accounts_witness :
  accounts_for (fun s => s) (fun b => b) demo_lock (Exact (py "job"))
    (fun lease => ret (fl_fencing_token lease)) demo_options (demo_world LOST ∅) (snd demo_run)
    demo_result.
Proof.
  exact (elector_result_accounts (fun s => s) (fun b => b) demo_lock demo_attributes (Exact (py "job"))
           (fun lease => ret (fl_fencing_token lease)) demo_options (demo_world LOST ∅) demo_result
           (snd demo_run) demo_run_result).
Defined.

(** A lock whose server always answers that another owner holds it. *)
Definition demo_contended : RedisDistributedLock demo := {|
  dl_commands := {| evalsha _ _ _ := ret (ReplyParts [Some (py "CONTENDED")]);
                    eval _ _ _ := ret (ReplyParts [Some (py "CONTENDED")]) |};
  dl_prefix := dl_prefix demo_lock;
  dl_timing := demo_timing;
  dl_monotonic_ns := demo_clock;
  dl_sleep := dl_sleep demo_lock;
  dl_jitter := dl_jitter demo_lock;
  dl_token_factory := dl_token_factory demo_lock;
  dl_utcnow := dl_utcnow demo_lock;
  dl_new_objects := dl_new_objects demo_lock;
  dl_fuel := 2001;
|}.

Lemma demo_clocked : clocked demo_contended dm_now.
Proof.
  constructor; intros; try (intros w; split; [done|cbn; lia]).
  - exists (dm_now w), w. split; [done|lia].
  - split; [done|]. cbn. lia.
Qed.

Lemma try_acquire_ends_witness :
  ends (fst (try_acquire (fun s => s) (fun b => b) demo_contended (Exact (py "job"))
         {| wait_time := 2; lease_time := 60000000; node_id := None; min_lease_time := 0;
            auto_renew := false; renew_interval := None |} (demo_world LOST ∅))).
Proof.
  apply (try_acquire_ends (fun s => s) (fun b => b) demo_contended dm_now demo_clocked).
  cbn [wait_time dl_fuel demo_contended]. lia.
Defined.

(** A lease of 3,000,000 days ends after the year 9999. *)
Definition far_options : LeaderElectionOptions :=
  {| wait_time := 0; lease_time := 3000000 * MICROSECONDS_PER_DAY; node_id := None;
     min_lease_time := 0; auto_renew := false; renew_interval := None |}.

Definition far_run : outcome (option (RedisLockLease demo)) * demo :=
  try_acquire (fun s => s) (fun b => b) demo_lock (Exact (py "job")) far_options (demo_world LOST ∅).

(** The options are accepted, the server grants the lease, and then the end of
    the lease is no [datetime]: the call raises [OverflowError], and the lease
    stays on the server with no handle that could release it. *)
Theorem far_lease_leaks :
  check_options far_options = Returned far_options /\
  fst far_run = Raised OverflowError /\
  lookup (py "bluetape-leader:{job}:lease") (live (dm_server (snd far_run)))
  = Some (StringValue (to_bytes (w_record 1)) (Some 259200000000000)).
Proof. vm_compute. done. Qed.
End Demo.
