(* ===== verification/AsyncRedisLock.v ===== *)
(** * The asyncio Redis lock and its handles ([bluetape/leader/redis/_async_lock.py], [_async_elector.py])

    The handle of [RedisLock.v] as a set of tasks of one event loop.  It has no
    lock of its own: the statements between two [await]s are one step of the
    loop, and other tasks of the program, its renewal task and its cleanup task
    among them, act inside the [await]s.  A caller waits for those two tasks
    through shields, within an envelope, and keeps the first cancellation that
    reaches it meanwhile.  Notes that the code adds to an exception are left out. *)

From Stdlib Require Import SpecFloat.
From S2P Require Import Prelude Python Leader LeaseRecord RedisScripts RedisKeys RedisTiming RedisLock.
Open Scope py_scope.
Open Scope Z_scope.

(** ** Handles *)

(** The attributes behind the renewal and cleanup tasks: whether the stop event
    is set, the deadline of a renewal in flight, the renewal task, the future it
    sleeps on, and the cleanup task. *)
Record TaskData : Type := {
  td_stop : bool;
  td_renew_deadline : option float;
  td_renew_task : option nat;
  td_renew_wake : option nat;
  td_cleanup_task : option nat;
}.

Definition new_task_data : TaskData := {|
  td_stop := false; td_renew_deadline := None; td_renew_task := None; td_renew_wake := None;
  td_cleanup_task := None;
|}.

Definition set_stop (t : TaskData) : TaskData := {|
  td_stop := true; td_renew_deadline := td_renew_deadline t; td_renew_task := td_renew_task t;
  td_renew_wake := td_renew_wake t; td_cleanup_task := td_cleanup_task t;
|}.

Definition set_renew_deadline (d : option float) (t : TaskData) : TaskData := {|
  td_stop := td_stop t; td_renew_deadline := d; td_renew_task := td_renew_task t;
  td_renew_wake := td_renew_wake t; td_cleanup_task := td_cleanup_task t;
|}.

Definition set_renew_task (n : nat) (t : TaskData) : TaskData := {|
  td_stop := td_stop t; td_renew_deadline := td_renew_deadline t; td_renew_task := Some n;
  td_renew_wake := td_renew_wake t; td_cleanup_task := td_cleanup_task t;
|}.

Definition set_renew_wake (n : option nat) (t : TaskData) : TaskData := {|
  td_stop := td_stop t; td_renew_deadline := td_renew_deadline t; td_renew_task := td_renew_task t;
  td_renew_wake := n; td_cleanup_task := td_cleanup_task t;
|}.

Definition set_cleanup_task (n : nat) (t : TaskData) : TaskData := {|
  td_stop := td_stop t; td_renew_deadline := td_renew_deadline t; td_renew_task := td_renew_task t;
  td_renew_wake := td_renew_wake t; td_cleanup_task := Some n;
|}.

(** [isinstance(e, (asyncio.CancelledError, KeyboardInterrupt, SystemExit, GeneratorExit))]. *)
Definition is_control (e : exn) : bool :=
  match e with CancelledError | KeyboardInterrupt | SystemExit | GeneratorExit => true | _ => false end.

(** [0.1]. *)
Definition TERMINAL_SECONDS : float := S754_finite false 7205759403792794 (-56).

Section Handle.
Context {W : Type}.

(** What a handle uses of asyncio.  Of tasks: creating the renewal and cleanup
    tasks, [done()], [cancel()], [cancelled()], [result()], one await of a task
    through a shield, and [cancelling()] of the current task.  Of futures:
    creating one, the timer that sets its result to false ([call_later]),
    cancelling that timer, awaiting the future, [done()], [set_result(True)].  Of
    [timeout] and [timeout_at]: entering the scope, and leaving it, which says
    whether its own deadline, and no other caller, has cancelled the task. *)
Record async_objects : Type := {
  ao_data : lens W LeaseData;
  ao_tasks : lens W TaskData;
  ao_time : M W float;
  ao_create_renewal : M W nat;
  ao_create_cleanup : bool -> M W nat;
  ao_done : nat -> M W bool;
  ao_cancel : nat -> M W unit;
  ao_cancelled : nat -> M W bool;
  ao_result : nat -> M W unit;
  ao_shield : nat -> M W unit;
  ao_cancelling : M W Z;
  ao_create_future : M W nat;
  ao_call_later : float -> nat -> M W nat;
  ao_cancel_timer : nat -> M W unit;
  ao_await_future : nat -> M W bool;
  ao_future_done : nat -> M W bool;
  ao_set_true : nat -> M W unit;
  ao_timeout : float -> M W nat;
  ao_timeout_at : float -> M W nat;
  ao_leave : nat -> M W bool;
}.

(** The constant attributes of a handle; [ar_fuel] bounds the awaits of one wait.
    The state and the failure are those of [RedisLock.v], whose worker stays
    unset here. *)
Record AsyncRedisLockLease : Type := {
  ar_objects : async_objects;
  ar_commands : redis_commands W;
  ar_lease : FencedLeaderLease;
  ar_lease_key : pybytes;
  ar_record : LeaseRecord;
  ar_options : LeaderElectionOptions;
  ar_monotonic : M W float;
  ar_acquired_at : float;
  ar_timing : Timing;
  ar_fuel : nat;
}.

Variable h : AsyncRedisLockLease.
Abbreviation obj := (ar_objects h).

(** Statements on the state and the failure, in one step of the loop. *)
Definition step {A} (f : section A) : M W A := fun w =>
  let '(r, d) := f (lget (ao_data obj) w) in (r, lput (ao_data obj) d w).

Definition read_state : M W LeaseData := step (fun d => (Returned d, d)).

(** [self._state = "UNKNOWN"; self._failure = failure]. *)
Definition become_unknown (failure : exn) : M W unit :=
  step (fun d => (Returned tt, set_unknown d failure)).

Definition tasks {A} (f : TaskData -> A * TaskData) : M W A := locked (ao_tasks obj) f.

Definition read_tasks : M W TaskData := tasks (fun t => (t, t)).
Definition update_tasks (f : TaskData -> TaskData) : M W unit := tasks (fun t => (tt, f t)).

(** [async with asyncio.timeout(...)]: leaving turns the cancellation of the
    scope's own deadline into [TimeoutError]. *)
Definition timeout_scope {A} (enter : M W nat) (m : M W A) : M W A :=
  scope <- enter ;;
  r <- capture m ;;
  expired <- ao_leave obj scope ;;
  match r with
  | Returned a => ret a
  | Raised CancelledError => raise (if (expired : bool) then TimeoutError else CancelledError)
  | Raised e => raise e
  end.

(** ** Proving and renewing the lease *)

(** [if self._state in ("LOST", "RELEASED"): ...; self._raise_if_unknown()], before [f]. *)
Definition unless_over {A} (ended : A) (f : section A) : section A := fun d =>
  if is_ended d then (Returned ended, d) else unless_unknown f d.

Definition async_run_status (script : script_name) (args : list pybytes) (allowed : list pystr)
    : M W pystr :=
  run_status_on (ar_commands h) (ar_lease_key h) script args allowed.

(** [renew]: an invalid duration is caught with the failures of the server. *)
Definition async_renew (lease : option timedelta) : M W RenewOutcome :=
  ended <- step (unless_unknown (fun d => (Returned (is_ended d), d))) ;;
  if (ended : bool) then ret NotHeld
  else
    status <- attempt
      (ttl_ms <- pure_outcome (duration_milliseconds (default (lease_time (ar_options h)) lease)) ;;
       async_run_status RENEW_SCRIPT [to_bytes (ar_record h); decimal ttl_ms]
         [py "RENEWED"; py "NOT_HELD"; py "CORRUPT"]) ;;
    step (unless_over NotHeld (fun d =>
      match status with
      | None => (Returned (RenewBackendFailure LeaderBackendError), set_unknown d LeaderBackendError)
      | Some s =>
          if bool_decide (s = py "RENEWED") then (Returned (Renewed None), d)
          else if bool_decide (s = py "NOT_HELD") then (Returned NotHeld, set_lease_state d LOST)
          else (Returned (RenewBackendFailure LeaderBackendError), set_unknown d LeaderBackendError)
      end)).

(** [is_held]. *)
Definition async_is_held : M W bool :=
  ended <- step (unless_unknown (fun d => (Returned (is_ended d), d))) ;;
  if (ended : bool) then ret false
  else
    status <- attempt (async_run_status PROBE_SCRIPT [to_bytes (ar_record h)]
                         [py "HELD"; py "NOT_HELD"; py "CORRUPT"]) ;;
    step (unless_over false (fun d =>
      match status with
      | None => fail_unknown LeaderBackendError d
      | Some s =>
          if bool_decide (s = py "HELD") then (Returned true, d)
          else if bool_decide (s = py "NOT_HELD") then (Returned false, set_lease_state d LOST)
          else fail_unknown LeaderBackendError d
      end)).

Definition async_assert_held : M W unit :=
  held <- async_is_held ;; raise_if (negb held) LeaderLeaseLostError.

(** ** Releasing the lease *)

(** [1000] and [0.999999]. *)
Definition MILLIS : float := S754_finite false 8796093022208000 (-43).
Definition ALMOST_ONE : float := S754_finite false 9007190247541737 (-53).

(** [min_lease_time] less what has passed, in milliseconds, rounded up. *)
Definition async_remaining_ms : M W Z :=
  now <- ar_monotonic h ;;
  let remaining := fsub (total_seconds (min_lease_time (ar_options h)))
                        (fsub now (ar_acquired_at h)) in
  if fle remaining f0 then ret 0
  else pure_outcome (int_of_float (fadd (fmul remaining MILLIS) ALMOST_ONE)).

Definition async_dispatch_release : M W pystr :=
  remaining_ms <- async_remaining_ms ;;
  async_run_status RELEASE_SCRIPT [to_bytes (ar_record h); decimal remaining_ms]
    [py "DELETED"; py "MIN_TTL_APPLIED"; py "NOT_HELD"; py "CORRUPT"].

(** [_reconcile_release]. *)
Definition async_reconcile_release (scoped : bool) : M W unit :=
  status <- attempt (raw <- run_reconcile (ar_commands h) (Some (ar_lease_key h)) ;;
                     pure_outcome (parse_reconcile_response raw)) ;;
  step (fun d =>
    match status with
    | None => fail_unknown LeaderBackendError d
    | Some StatusAbsent => fail_unknown LeaderReleaseError d
    | Some StatusReconcileCorrupt => fail_unknown LeaderBackendError d
    | Some (StatusPresent record) =>
        if bool_decide (owner_token record = owner_token (ar_record h)) then (Returned tt, d)
        else (Raised (if scoped then LeaderLeaseLostError else LeaderReleaseError),
              set_lease_state d LOST)
    end) ;;
  repeated <- attempt_uncertain async_dispatch_release ;;
  step (match repeated with
        | Uncertain => fail_unknown LeaderReleaseError
        | Failed => fail_unknown LeaderBackendError
        | Done status => finish_release_status status scoped
        end).

(** [_release], the body of the cleanup task. *)
Definition async_release (scoped : bool) : M W unit :=
  over <- step (finish_terminal_release scoped) ;;
  if (over : bool) then ret tt
  else
    released <- attempt_uncertain async_dispatch_release ;;
    match released with
    | Uncertain => async_reconcile_release scoped
    | Failed => step (fail_unknown LeaderBackendError)
    | Done status => step (finish_release_status status scoped)
    end.

(** ** Waiting for a task *)

(** How one await of a task ends: go on with this first cancellation, the task
    is done, or the time is over. *)
Inductive waited : Type :=
| Again (first_cancel : option exn)
| TaskDone
| TimedOut.

(** One await of the task, for at most [remaining] seconds. *)
Definition wait_round (task : nat) (remaining : float) (first_cancel : option exn) : M W waited :=
  try_except
    (timeout_scope (ao_timeout obj remaining) (ao_shield obj task) ;; ret (Again first_cancel))
    (fun caught =>
       match caught with
       | CancelledError => Some
           (ended <- ao_done obj task ;;
            if (ended : bool) then ret TaskDone
            else
              match first_cancel with
              | Some _ => ret (Again first_cancel)
              | None =>
                  cancelling <- ao_cancelling obj ;;
                  ret (Again (if 0 <? cancelling then Some caught else None))
              end)
       | _ =>
           if is_TimeoutError caught then Some (ret TimedOut)
           else Some (ended <- ao_done obj task ;;
                      if (ended : bool) then ret TaskDone else raise caught)
       end).

(** [_wait_task_until], and the second loop of [_wait_task]. *)
Fixpoint wait_task_until (fuel : nat) (task : nat) (terminal_deadline : float)
    (first_cancel : option exn) : M W (bool * option exn) :=
  match fuel with
  | O => raise FuelExhausted
  | S fuel' =>
      ended <- ao_done obj task ;;
      if (ended : bool) then ret (true, first_cancel)
      else
        now <- ao_time obj ;;
        let remaining := fsub terminal_deadline now in
        if fle remaining f0 then ret (false, first_cancel)
        else
          round <- wait_round task remaining first_cancel ;;
          match round with
          | Again first_cancel => wait_task_until fuel' task terminal_deadline first_cancel
          | TaskDone => ret (true, first_cancel)
          | TimedOut => ended <- ao_done obj task ;; ret (ended, first_cancel)
          end
  end.

(** The first loop of [_wait_task]. *)
Fixpoint wait_envelope (fuel : nat) (task : nat) (deadline : float) (first_cancel : option exn)
    : M W (option exn) :=
  match fuel with
  | O => raise FuelExhausted
  | S fuel' =>
      ended <- ao_done obj task ;;
      if (ended : bool) then ret first_cancel
      else
        now <- ao_time obj ;;
        let remaining := fsub deadline now in
        if fle remaining f0 then ret first_cancel
        else
          round <- wait_round task remaining first_cancel ;;
          match round with
          | Again first_cancel => wait_envelope fuel' task deadline first_cancel
          | TaskDone | TimedOut => ret first_cancel
          end
  end.

(** [_wait_task]. *)
Definition wait_task (task : nat) (envelope : float) (first_cancel : option exn)
    : M W (bool * option exn) :=
  now <- ao_time obj ;;
  let deadline := fadd now envelope in
  first_cancel <- wait_envelope (ar_fuel h) task deadline first_cancel ;;
  ended <- ao_done obj task ;;
  if (ended : bool) then ret (true, first_cancel)
  else
    ao_cancel obj task ;;
    wait_task_until (ar_fuel h) task (fadd deadline TERMINAL_SECONDS) first_cancel.

(** [if not completed: ...], [elif task.cancelled(): ...]: the handle becomes
    unknown; [else: task.result()]. *)
Definition task_failure (completed : bool) (task : nat) : M W (option exn) :=
  if negb completed then become_unknown LeaderBackendError ;; ret (Some LeaderBackendError)
  else
    cancelled <- ao_cancelled obj task ;;
    if (cancelled : bool) then become_unknown LeaderBackendError ;; ret (Some LeaderBackendError)
    else
      result <- capture (ao_result obj task) ;;
      match result with
      | Raised error => ret (Some error)
      | Returned _ => ret None
      end.

(** [assert self._failure is not None]. *)
Definition recorded_failure (d : LeaseData) : M W exn :=
  match ls_failure d with Some e => ret e | None => raise AssertionError end.

(** [_stop_renew_task]. *)
Definition stop_renew_task (first_cancel : option exn) : M W (option exn * option exn) :=
  t <- read_tasks ;;
  match td_renew_task t with
  | None => ret (first_cancel, None)
  | Some task =>
      update_tasks set_stop ;;
      (match td_renew_wake t with
       | None => ret tt
       | Some wake =>
           woken <- ao_future_done obj wake ;;
           if (woken : bool) then ret tt else ao_set_true obj wake
       end) ;;
      t <- read_tasks ;;
      let* (completed, first_cancel) :=
        match td_renew_deadline t with
        | None => wait_task task (t_renew (ar_timing h)) first_cancel
        | Some deadline => wait_task_until (ar_fuel h) task (fadd deadline TERMINAL_SECONDS) first_cancel
        end in
      failure <- task_failure completed task ;;
      match failure with
      | Some error => ret (first_cancel, Some error)
      | None =>
          d <- read_state ;;
          if bool_decide (ls_state d = UNKNOWN) then
            failure <- recorded_failure d ;; ret (first_cancel, Some failure)
          else ret (first_cancel, None)
      end
  end.

(** The cleanup task, created when there is none, or the failure of creating it. *)
Definition get_cleanup_task (scoped : bool) : M W (nat + exn) :=
  t <- read_tasks ;;
  match td_cleanup_task t with
  | Some task => ret (inl task)
  | None =>
      created <- capture (ao_create_cleanup obj scoped) ;;
      match created with
      | Returned task => update_tasks (set_cleanup_task task) ;; ret (inl task)
      | Raised e =>
          if is_control e then become_unknown LeaderBackendError ;; ret (inr e)
          else if is_Exception e then
            become_unknown LeaderBackendError ;; ret (inr LeaderBackendError)
          else raise e
      end
  end.

(** [_await_cleanup]. *)
Definition async_await_cleanup (scoped : bool) (first_cancel : option exn)
    : M W (option exn * option exn) :=
  d <- read_state ;;
  if bool_decide (ls_state d = UNKNOWN) then
    failure <- recorded_failure d ;; ret (first_cancel, Some failure)
  else
    cleanup <- get_cleanup_task scoped ;;
    match cleanup with
    | inr failure => ret (first_cancel, Some failure)
    | inl task =>
        let* (completed, first_cancel) := wait_task task (t_release (ar_timing h)) first_cancel in
        failure <- task_failure completed task ;;
        ret (first_cancel, failure)
    end.

(** ** The renewal task *)

(** One sleep of the renewal task: whether it was woken to stop. *)
Definition sleep_interval (seconds : float) : M W bool :=
  wake <- ao_create_future obj ;;
  update_tasks (set_renew_wake (Some wake)) ;;
  timer <- ao_call_later obj seconds wake ;;
  try_finally (ao_await_future obj wake)
    (ao_cancel_timer obj timer ;; update_tasks (set_renew_wake None)).

(** One renewal within its deadline; [None] when the deadline came first. *)
Definition renew_in_time : M W (option RenewOutcome) :=
  now <- ao_time obj ;;
  let command_deadline := fadd now (t_renew (ar_timing h)) in
  update_tasks (set_renew_deadline (Some command_deadline)) ;;
  try_finally
    (try_except
       (outcome <- timeout_scope (ao_timeout_at obj command_deadline) (async_renew None) ;;
        ret (Some outcome))
       (fun e => if is_TimeoutError e
                 then Some (become_unknown LeaderBackendError ;; update_tasks set_stop ;; ret None)
                 else None))
    (update_tasks (set_renew_deadline None)).

Fixpoint async_renew_rounds (fuel : nat) (seconds : float) : M W unit :=
  match fuel with
  | O => raise FuelExhausted
  | S fuel' =>
      t <- read_tasks ;;
      if td_stop t then ret tt
      else
        stopped <- sleep_interval seconds ;;
        if (stopped : bool) then ret tt
        else
          outcome <- renew_in_time ;;
          match outcome with
          | None => ret tt
          | Some NotHeld | Some (RenewBackendFailure _) => update_tasks set_stop
          | Some (Renewed _) => async_renew_rounds fuel' seconds
          end
  end.

(** [_renew_loop], the body of the renewal task. *)
Definition async_renew_loop (fuel : nat) : M W unit :=
  match renew_interval (ar_options h) with
  | None => raise AssertionError
  | Some interval => async_renew_rounds fuel (total_seconds interval)
  end.

(** ** Release and the context manager *)

(** [renew_failure or cleanup_failure]. *)
Definition first_failure (renew_failure cleanup_failure : option exn) : option exn :=
  match renew_failure with Some e => Some e | None => cleanup_failure end.

(** [release]. *)
Definition async_release_method : M W unit :=
  ended <- step (unless_unknown (fun d => (Returned (is_ended d), d))) ;;
  if (ended : bool) then async_release false
  else
    let* (first_cancel, renew_failure) := stop_renew_task None in
    let* (first_cancel, cleanup_failure) := async_await_cleanup false first_cancel in
    match first_cancel, first_failure renew_failure cleanup_failure with
    | Some cancel, _ => raise cancel
    | None, Some failure => raise failure
    | None, None => ret tt
    end.

(** The [except BaseException as start_failure] of [__aenter__]. *)
Definition start_failed (start_failure : exn) : M W unit :=
  let* (_, cleanup_failure) := async_await_cleanup true None in
  match cleanup_failure with
  | None => raise start_failure
  | Some failure =>
      if is_control start_failure then raise start_failure
      else if is_control failure then raise failure
      else if is_Exception start_failure && is_LeaderError failure then
        raise (LeaderExecutionError start_failure failure)
      else raise start_failure
  end.

(** The body of the [try] of [__aenter__]. *)
Definition prove_entry : M W unit :=
  if auto_renew (ar_options h) then
    outcome <- async_renew None ;;
    match outcome with
    | NotHeld => raise LeaderLeaseLostError
    | RenewBackendFailure cause => raise cause
    | Renewed _ =>
        started <- capture (ao_create_renewal obj) ;;
        match started with
        | Returned task => update_tasks (set_renew_task task)
        | Raised start_failure => start_failed start_failure
        end
    end
  else
    held <- async_is_held ;; raise_if (negb held) LeaderLeaseLostError.

(** [__aenter__]. *)
Definition aenter : M W unit :=
  step (unless_unknown (fun d =>
    if bool_decide (ls_state d = ACQUIRED) then (Returned tt, set_lease_state d ENTERED)
    else (Raised LeaderLeaseLostError, d))) ;;
  try_except prove_entry (fun e =>
    if is_exit e then Some (async_await_cleanup true None ;; raise e)
    else
      match e with
      | CancelledError => Some
          (let* (first_cancel, _) := async_await_cleanup true (Some e) in
           match first_cancel with Some cancel => raise cancel | None => raise AssertionError end)
      | _ => None
      end).

(** [__aexit__] after a body that ended with [exc]: returns, or raises instead. *)
Definition aexit (exc : option exn) : M W unit :=
  let* (first_cancel, renew_failure) :=
    stop_renew_task (match exc with Some CancelledError => exc | _ => None end) in
  let* (first_cancel, cleanup_failure) := async_await_cleanup true first_cancel in
  match exc, first_cancel, first_failure renew_failure cleanup_failure with
  | Some KeyboardInterrupt, _, _ => raise KeyboardInterrupt
  | Some SystemExit, _, _ => raise SystemExit
  | Some GeneratorExit, _, _ => raise GeneratorExit
  | _, Some cancel, _ => raise cancel
  | _, None, None => ret tt
  | None, None, Some failure => raise failure
  | Some e, None, Some failure =>
      if is_control failure then raise failure
      else if is_Exception e then raise (LeaderExecutionError e failure)
      else raise failure
  end.
End Handle.
Arguments async_objects : clear implicits.
Arguments AsyncRedisLockLease : clear implicits.

(** ** The lock *)

Section Lock.
Context {W : Type}.
(** The bytes of a name and the hexadecimal digest of bytes, as in [RedisKeys]. *)
Variable encode : pystr -> pybytes.
Variable sha256 : pybytes -> pystr.

(** The attributes of [AsyncRedisDistributedLock], the wall clock and the
    allocation of a handle's objects; [ad_fuel] bounds the attempts of one call,
    [ad_wait_fuel] the awaits of one wait of its handles. *)
Record AsyncRedisDistributedLock : Type := {
  ad_commands : redis_commands W;
  ad_prefix : arg pystr;
  ad_timing : Timing;
  ad_monotonic : M W float;
  ad_sleep : float -> M W unit;
  ad_jitter : M W pyval;
  ad_token_factory : M W pystr;
  ad_utcnow : M W datetime;
  ad_new_objects : LeaseData -> TaskData -> M W (async_objects W);
  ad_fuel : nat;
  ad_wait_fuel : nat;
}.

Variable lock : AsyncRedisDistributedLock.

(** The lease of a fence won now, and [_new_handle]. *)
Definition async_new_handle (lease_key : pybytes) (owner : pystr) (fence : Z)
    (options : LeaderElectionOptions) (acquired_at : float) : M W (AsyncRedisLockLease W) :=
  elected <- ad_utcnow lock ;;
  until <- pure_outcome (datetime_add elected (lease_time options)) ;;
  lease <- pure_outcome (make_fenced_lease
    (make_leader_lease (Exact (decimal fence)) (Exact <$> node_id options)
       (Some (Exact elected)) (Some (Exact until)))
    (Exact fence)) ;;
  record <- pure_outcome (make_record owner fence) ;;
  objects <- ad_new_objects lock new_lease_data new_task_data ;;
  ret {| ar_objects := objects;
         ar_commands := ad_commands lock;
         ar_lease := lease;
         ar_lease_key := lease_key;
         ar_record := record;
         ar_options := options;
         ar_monotonic := ad_monotonic lock;
         ar_acquired_at := acquired_at;
         ar_timing := ad_timing lock;
         ar_fuel := ad_wait_fuel lock |}.

(** [_reconcile_acquire]. *)
Definition async_reconcile_acquire (lease_key : pybytes) (owner : pystr)
    (options : LeaderElectionOptions) (acquired_at : float) : M W (AsyncRedisLockLease W) :=
  status <- attempt (raw <- run_reconcile (ad_commands lock) (Some lease_key) ;;
                     pure_outcome (parse_reconcile_response raw)) ;;
  match status with
  | Some (StatusPresent record) =>
      if bool_decide (owner_token record = owner)
      then async_new_handle lease_key owner (fencing_token record) options acquired_at
      else raise LeaderBackendError
  | _ => raise LeaderBackendError
  end.

(** The loop of [try_acquire]. *)
Fixpoint async_acquire_loop (fuel : nat) (keys : lock_keys) (owner : pystr) (ttl_ms : Z)
    (options : LeaderElectionOptions) (deadline : float) (attempted : bool)
    : M W (option (AsyncRedisLockLease W)) :=
  match fuel with
  | O => raise FuelExhausted
  | S fuel' =>
      acquired_at <- ad_monotonic lock ;;
      if attempted && fle deadline acquired_at then ret None
      else
        tried <- attempt_uncertain
          (let* (o, t) := pure_outcome (validated_script_args owner ttl_ms) in
           raw <- run_script (ad_commands lock) ACQUIRE_SCRIPT
                    [Some (k_lease keys); Some (k_fence keys); Some (k_history keys)]
                    [Some o; Some t] ;;
           pure_outcome (parse_acquire_response raw)) ;;
        match tried with
        | Uncertain =>
            handle <- async_reconcile_acquire (k_lease keys) owner options acquired_at ;;
            ret (Some handle)
        | Failed | Done StatusCorrupt => raise LeaderBackendError
        | Done (StatusAcquired fence) =>
            handle <- async_new_handle (k_lease keys) owner fence options acquired_at ;;
            ret (Some handle)
        | Done StatusContended =>
            now <- ad_monotonic lock ;;
            let remaining := fsub deadline now in
            if fle remaining f0 then ret None
            else
              delay <- ad_jitter lock ;;
              delay <- pure_outcome (check_jitter delay) ;;
              ad_sleep lock (fmin delay remaining) ;;
              async_acquire_loop fuel' keys owner ttl_ms options deadline true
        end
  end.

(** [try_acquire]. *)
Definition async_try_acquire (lock_name : arg pystr) (options : LeaderElectionOptions)
    : M W (option (AsyncRedisLockLease W)) :=
  options <- pure_outcome (validated_redis_options options (ad_timing lock)) ;;
  keys <- pure_outcome (redis_keys encode sha256 lock_name (ad_prefix lock)) ;;
  owner <- ad_token_factory lock ;;
  ttl_ms <- pure_outcome (duration_milliseconds (lease_time options)) ;;
  started <- ad_monotonic lock ;;
  async_acquire_loop (ad_fuel lock) keys owner ttl_ms options
    (fadd started (total_seconds (wait_time options))) false.

(** ** The elector *)

(** The statements after [try_acquire]: the action inside the handle's context. *)
Definition run_with_handle {T} (handle : AsyncRedisLockLease W) (action : FencedLeaderLease -> M W T)
    : M W (LeaderRunResult T FencedLeaderLease) :=
  let result_lease := ar_lease handle in
  aenter handle ;;
  acted <- capture (try_except (v <- action result_lease ;; ret (inl v))
                      (fun e => if is_Exception e then Some (ret (inr e)) else None)) ;;
  match acted with
  | Raised e => aexit handle (Some e) ;; raise e
  | Returned (inl value) => aexit handle None ;; ret (Elected value result_lease)
  | Returned (inr action_error) =>
      try_except (aexit handle None)
        (fun lifecycle_error => if is_LeaderError lifecycle_error
                                then Some (raise (LeaderExecutionError action_error lifecycle_error))
                                else None) ;;
      ret (ActionFailed action_error result_lease)
  end.

(** [run_if_leader_result]. *)
Definition async_run_if_leader_result {T} (lock_name : arg pystr)
    (action : FencedLeaderLease -> M W T) (options : LeaderElectionOptions)
    : M W (LeaderRunResult T FencedLeaderLease) :=
  acquired <- async_try_acquire lock_name options ;;
  match acquired with
  | None => ret Skipped
  | Some handle => run_with_handle handle action
  end.

(** [run_if_leader]. *)
Definition async_run_if_leader {T} (lock_name : arg pystr) (action : FencedLeaderLease -> M W T)
    (options : LeaderElectionOptions) : M W (option T) :=
  result <- async_run_if_leader_result lock_name action options ;;
  match result with
  | Skipped => ret None
  | ActionFailed cause _ => raise cause
  | Elected value _ => ret (Some value)
  end.
End Lock.
Arguments AsyncRedisDistributedLock : clear implicits.
