(* ===== verification/AsyncRedisLockLaws.v ===== *)
(** * What a handle of the asyncio lock guarantees

    The renewals and probes of a handle are those of the synchronous handle of
    the same server and state.  The rest is about tasks: what their interleaving
    can do to the state of a handle, that waiting for them ends, and what a
    context that was left, or a result of the elector, says. *)

From Stdlib Require Import SpecFloat.
From S2P Require Import Prelude Python Leader LeaseRecord RedisScripts RedisKeys RedisTiming.
From S2P Require Import RedisLock RedisLockLaws AsyncRedisLock.
Open Scope py_scope.
Open Scope Z_scope.

(** ** Agreement with the synchronous handle *)

Section Agreement.
Context {W : Type} (h : AsyncRedisLockLease W).

(** The synchronous handle of the same lease, server, state and failure; its
    renewal worker never starts. *)
Definition sync_handle : RedisLockLease W := {|
  rl_objects := {| ho_data := ao_data (ar_objects h);
                   ho_start_thread := ret tt; ho_is_alive := ret false; ho_join _ := ret tt;
                   ho_stop_set := ret tt; ho_stop_wait _ := ret true; ho_ready_clear := ret tt;
                   ho_ready_set := ret tt; ho_ready_wait _ := ret true |};
  rl_commands := ar_commands h;
  rl_lease := ar_lease h;
  rl_lease_key := ar_lease_key h;
  rl_record := ar_record h;
  rl_options := ar_options h;
  rl_monotonic_ns := ret 0;
  rl_acquired_ns := 0;
  rl_timing := ar_timing h;
|}.

Abbreviation adata := (handle_data sync_handle).

Lemma bind_same {A B} (m : M W A) (k k' : A -> M W B) w :
  (forall a w1, k a w1 = k' a w1) -> bind m k w = bind m k' w.
Proof. intros Hk. unfold bind. by destruct (m w) as [[a|e] w1]. Qed.

Lemma step_under_lock {A} (f g : section A) w :
  (forall d, f d = g d) -> step h f w = under_lock sync_handle g w.
Proof. intros Hf. unfold step, under_lock. cbn. by rewrite Hf. Qed.

(** The two orders in which the handles look at their state again. *)
Lemma unless_over_known {A} (ended : A) (f : section A) d :
  unless_over ended f d
  = unless_unknown (fun d => if is_ended d then (Returned ended, d) else f d) d.
Proof. unfold unless_over, unless_unknown, is_ended. by destruct (ls_state d). Qed.

Lemma ask_agrees {A} (ended : A) (ask : M W (option pystr)) (act act' : option pystr -> section A) w :
  (forall s d, act s d = act' s d) ->
  (over <- step h (unless_unknown (fun d => (Returned (is_ended d), d))) ;;
   if (over : bool) then ret ended else s <- ask ;; step h (unless_over ended (act s))) w
  = (over <- under_lock sync_handle (unless_unknown (fun d => (Returned (is_ended d), d))) ;;
     if (over : bool) then ret ended
     else s <- ask ;;
          under_lock sync_handle (unless_unknown (fun d =>
            if is_ended d then (Returned ended, d) else act' s d))) w.
Proof.
  intros Ha. apply (bind_same (step h _)). intros [] w1; [done|].
  apply bind_same. intros s w2. apply step_under_lock. intros d.
  rewrite unless_over_known. unfold unless_unknown. by rewrite Ha.
Qed.

Lemma renew_agrees lease ms w :
  duration_milliseconds (default (lease_time (ar_options h)) lease) = Returned ms ->
  async_renew h lease w = renew sync_handle lease w.
Proof.
  intros Hms. unfold async_renew, renew. cbn [rl_options sync_handle rl_record]. rewrite Hms.
  apply (ask_agrees NotHeld _ _ (fun s d => match s with
    | None => (Returned (RenewBackendFailure LeaderBackendError), set_unknown d LeaderBackendError)
    | Some s =>
        if bool_decide (s = py "RENEWED") then (Returned (Renewed None), d)
        else if bool_decide (s = py "NOT_HELD") then (Returned NotHeld, set_lease_state d LOST)
        else (Returned (RenewBackendFailure LeaderBackendError), set_unknown d LeaderBackendError)
    end)). done.
Qed.

Lemma is_held_agrees w : async_is_held h w = is_held sync_handle w.
Proof.
  unfold async_is_held, is_held.
  apply (ask_agrees false _ _ (fun s d => match s with
    | None => fail_unknown LeaderBackendError d
    | Some s =>
        if bool_decide (s = py "HELD") then (Returned true, d)
        else if bool_decide (s = py "NOT_HELD") then (Returned false, set_lease_state d LOST)
        else fail_unknown LeaderBackendError d
    end)). done.
Qed.

(** The handles look at their state first. *)
Lemma first_look {A} `{!LensLaws (ao_data (ar_objects h))} (k : bool -> M W A) (w : W) :
  (over <- step h (unless_unknown (fun d => (Returned (is_ended d), d))) ;; k over) w
  = match ls_state (adata w) with
    | UNKNOWN => (Raised (match ls_failure (adata w) with Some e => e | None => AssertionError end), w)
    | _ => k (is_ended (adata w)) w
    end.
Proof.
  unfold bind, step, unless_unknown, handle_data. cbn. by destruct (ls_state _); rewrite lput_lget.
Qed.

(** [C21] An asyncio handle proves its lease as a synchronous handle does: with
    the same state and connection, [is_held] asks the same, answers the same and
    leaves the same state, whatever other tasks do while the server is asked; and
    so does [renew] of a valid duration, and of any duration when the handle is
    over or unknown.  On a live handle they differ in one case, a duration that is
    no positive number of milliseconds: the synchronous handle refuses it with
    [ValueError] and stays as it is, the asyncio handle asks nothing either, but
    reports a failure of the server and becomes unknown. *)
Theorem async_handle_agrees `{!LensLaws (ao_data (ar_objects h))} (lease : option timedelta) (w : W) :
  async_is_held h w = is_held sync_handle w /\
  match duration_milliseconds (default (lease_time (ar_options h)) lease), ls_state (adata w) with
  | Raised e, (ACQUIRED | ENTERED) =>
      e = INVALID_DURATION /\ renew sync_handle lease w = (Raised e, w) /\
      async_renew h lease w
      = (Returned (RenewBackendFailure LeaderBackendError),
         lput (ao_data (ar_objects h)) (set_unknown (adata w) LeaderBackendError) w)
  | _, _ => async_renew h lease w = renew sync_handle lease w
  end.
Proof.
  split; [apply is_held_agrees|].
  destruct (duration_milliseconds _) as [ms|e] eqn:Hd; [by eapply renew_agrees|].
  assert (forall k, (over <- under_lock sync_handle (unless_unknown (fun d => (Returned (is_ended d), d))) ;;
    k over) w = match ls_state (adata w) with
    | UNKNOWN => (Raised (match ls_failure (adata w) with Some e => e | None => AssertionError end), w)
    | _ => k (is_ended (adata w)) w
    end) as Hsync by exact (fun k => first_look (A := RenewOutcome) k w).
  unfold async_renew, renew. cbn [rl_options sync_handle rl_record]. rewrite first_look, Hsync, Hd.
  assert (e = INVALID_DURATION) as ->.
  { unfold duration_milliseconds in Hd. repeat case_match; by simplify_eq. }
  unfold is_ended. destruct (ls_state (adata w)) eqn:E; try done; (split_and!; [done..|]);
    unfold bind, attempt, try_except, pure_outcome, step, unless_over, unless_unknown, is_ended, handle_data in *;
    cbn in *; by rewrite E.
Qed.
End Agreement.

(** ** What interleaving can do to the state *)

(** Any end replaces any other, and [UNKNOWN] too: the statements after an
    [await] of the release write their state without looking. *)
Inductive async_step : LeaseData -> LeaseData -> Prop :=
| as_enter d : ls_state d = ACQUIRED -> async_step d (set_lease_state d ENTERED)
| as_end d s : s = LOST \/ s = RELEASED -> async_step d (set_lease_state d s)
| as_unknown d e : async_step d (set_unknown d e).

Abbreviation async_lifecycle := (rtc async_step).

(** How far a handle is: acquired, entered, over. *)
Definition phase (d : LeaseData) : Z :=
  match ls_state d with ACQUIRED => 0 | ENTERED => 1 | LOST | RELEASED | UNKNOWN => 2 end.

Lemma async_lifecycle_phase d d' : async_lifecycle d d' -> phase d <= phase d'.
Proof.
  induction 1 as [|d1 d2 d3 Hs _ IH]; [done|]. etrans; [|exact IH].
  assert (phase d1 <= 2) by (unfold phase; destruct (ls_state d1); lia).
  destruct Hs as [d E|d s [-> | ->]|d e]; cbn; try lia. unfold phase at 1. rewrite E. cbn. lia.
Qed.

Lemma async_lifecycle_recorded d d' : async_lifecycle d d' -> failure_recorded d -> failure_recorded d'.
Proof.
  apply rtc_invariant. intros a b [d1 E|d1 s [-> | ->]|d1 e] Ha; unfold failure_recorded in *; cbn; done.
Qed.

Definition section_reaches {A} (f : section A) : Prop := forall d, async_lifecycle d (snd (f d)).

Lemma reaches_fail {A} e : section_reaches (@fail_unknown A e).
Proof. intros d. apply rtc_once, as_unknown. Qed.

Lemma reaches_unless_unknown {A} (f : section A) : section_reaches f -> section_reaches (unless_unknown f).
Proof. intros Hf d. unfold unless_unknown. by destruct (ls_state d). Qed.

Lemma reaches_unless_over {A} (a : A) (f : section A) :
  section_reaches f -> section_reaches (unless_over a f).
Proof. intros Hf d. unfold unless_over. destruct (is_ended d); [done|]. by apply reaches_unless_unknown. Qed.

Lemma reaches_finish_status status scoped : section_reaches (finish_release_status status scoped).
Proof.
  intros d. unfold finish_release_status. repeat case_match; try apply reaches_fail;
    apply rtc_once, as_end; auto.
Qed.

Lemma reaches_terminal scoped : section_reaches (finish_terminal_release scoped).
Proof. intros d. by rewrite finish_terminal_same. Qed.

(** ** Waits leave what their steps leave

    [R] is any preorder on worlds that the steps of a wait respect. *)

Section Respecting.
Context {W : Type} (R : relation W) `{!PreOrder R} (h : AsyncRedisLockLease W).
Abbreviation obj := (ar_objects h).

Record wait_steps : Prop := {
  ws_time : respects R (ao_time obj);
  ws_done t : respects R (ao_done obj t);
  ws_cancel t : respects R (ao_cancel obj t);
  ws_cancelled t : respects R (ao_cancelled obj t);
  ws_result t : respects R (ao_result obj t);
  ws_shield t : respects R (ao_shield obj t);
  ws_cancelling : respects R (ao_cancelling obj);
  ws_timeout d : respects R (ao_timeout obj d);
  ws_leave s : respects R (ao_leave obj s);
  ws_unknown e : respects R (become_unknown h e);
}.

Hypothesis env : wait_steps.

(** One statement at a time. *)
Ltac one_by_one :=
  repeat first
    [ apply (ws_time env) | apply (ws_done env) | apply (ws_cancel env) | apply (ws_cancelled env)
    | apply (ws_result env) | apply (ws_shield env) | apply (ws_cancelling env)
    | apply (ws_timeout env) | apply (ws_leave env) | apply (ws_unknown env)
    | apply respects_ret, _ | apply respects_raise, _
    | apply respects_capture
    | apply respects_bind; [done| |intros ?]
    | match goal with |- respects _ (match ?x with _ => _ end) => destruct x end
    | solve [auto] ].

Lemma respects_timeout_scope {A} (enter : M W nat) (m : M W A) :
  respects R enter -> respects R m -> respects R (timeout_scope h enter m).
Proof. intros He Hm. unfold timeout_scope. one_by_one. Qed.

Lemma respects_wait_round task remaining fc : respects R (wait_round h task remaining fc).
Proof.
  unfold wait_round. apply respects_try_except; [done| |].
  - apply respects_bind; [done| |intros ?; one_by_one]. apply respects_timeout_scope; one_by_one.
  - intros e m' Hm. destruct e; cbn in Hm; injection Hm as <-; one_by_one.
Qed.

Lemma respects_wait_until fuel task d fc : respects R (wait_task_until h fuel task d fc).
Proof.
  revert fc. induction fuel as [|fuel IH]; intros fc; cbn; [one_by_one|].
  one_by_one. apply respects_wait_round.
Qed.

Lemma respects_wait_envelope fuel task d fc : respects R (wait_envelope h fuel task d fc).
Proof.
  revert fc. induction fuel as [|fuel IH]; intros fc; cbn; [one_by_one|].
  one_by_one. apply respects_wait_round.
Qed.

Lemma respects_wait_task task envelope fc : respects R (wait_task h task envelope fc).
Proof.
  unfold wait_task. one_by_one; [apply respects_wait_envelope|apply respects_wait_until].
Qed.

Lemma respects_task_failure completed task : respects R (task_failure h completed task).
Proof. unfold task_failure. one_by_one. Qed.
End Respecting.

Create HintDb reach.
#[local] Hint Constants Opaque : reach.
#[local] Hint Resolve reaches_fail reaches_unless_unknown reaches_unless_over reaches_finish_status
  reaches_terminal : reach.

Section Reach.
Context {W : Type} (h : AsyncRedisLockLease W) `{!LensLaws (ao_data (ar_objects h))}.
Hypothesis tasks_apart : forall t w,
  lget (ao_data (ar_objects h)) (lput (ao_tasks (ar_objects h)) t w) = lget (ao_data (ar_objects h)) w.

Definition state_of (w : W) : LeaseData := lget (ao_data (ar_objects h)) w.

Definition reaches {A} (m : M W A) : Prop :=
  respects (fun w w' => async_lifecycle (state_of w) (state_of w')) m.

#[local] Instance reaches_preorder :
  PreOrder (fun w w' : W => async_lifecycle (state_of w) (state_of w')).
Proof. split; [by intros w|]. intros w1 w2 w3 H1 H2. by etrans. Qed.

(** The rest of the program leaves the attributes to the handle's operations,
    which other tasks may run meanwhile. *)
Record loop_reaches : Prop := {
  lr_evalsha s ks vs : reaches (evalsha (ar_commands h) s ks vs);
  lr_eval s ks vs : reaches (eval (ar_commands h) s ks vs);
  lr_clock : reaches (ar_monotonic h);
  lr_time : reaches (ao_time (ar_objects h));
  lr_create_renewal : reaches (ao_create_renewal (ar_objects h));
  lr_create_cleanup scoped : reaches (ao_create_cleanup (ar_objects h) scoped);
  lr_done t : reaches (ao_done (ar_objects h) t);
  lr_cancel t : reaches (ao_cancel (ar_objects h) t);
  lr_cancelled t : reaches (ao_cancelled (ar_objects h) t);
  lr_result t : reaches (ao_result (ar_objects h) t);
  lr_shield t : reaches (ao_shield (ar_objects h) t);
  lr_cancelling : reaches (ao_cancelling (ar_objects h));
  lr_create_future : reaches (ao_create_future (ar_objects h));
  lr_call_later s t : reaches (ao_call_later (ar_objects h) s t);
  lr_cancel_timer t : reaches (ao_cancel_timer (ar_objects h) t);
  lr_await_future t : reaches (ao_await_future (ar_objects h) t);
  lr_future_done t : reaches (ao_future_done (ar_objects h) t);
  lr_set_true t : reaches (ao_set_true (ar_objects h) t);
  lr_timeout d : reaches (ao_timeout (ar_objects h) d);
  lr_timeout_at d : reaches (ao_timeout_at (ar_objects h) d);
  lr_leave s : reaches (ao_leave (ar_objects h) s);
}.

Hypothesis env : loop_reaches.

Lemma reaches_step {A} (f : section A) : section_reaches f -> reaches (step h f).
Proof.
  intros Hf w. unfold step, state_of. specialize (Hf (lget (ao_data (ar_objects h)) w)).
  destruct (f _) as [r d]; cbn in *. by rewrite lget_lput.
Qed.

Lemma reaches_tasks {A} (f : TaskData -> A * TaskData) : reaches (tasks h f).
Proof.
  intros w. unfold tasks, locked, state_of. destruct (f _) as [a t]; cbn. by rewrite tasks_apart.
Qed.

Lemma reaches_bind {A B} (m : M W A) (k : A -> M W B) :
  reaches m -> (forall a, reaches (k a)) -> reaches (bind m k).
Proof. by apply respects_bind, _. Qed.

Lemma reaches_try_except {A} (m : M W A) handle :
  reaches m -> (forall e m', handle e = Some m' -> reaches m') -> reaches (try_except m handle).
Proof. by apply respects_try_except, _. Qed.

Lemma reaches_ret {A} (a : A) : reaches (ret a).
Proof. by apply respects_ret, _. Qed.

Lemma reaches_raise {A} e : reaches (@raise W A e).
Proof. by apply respects_raise, _. Qed.

Lemma reaches_raise_if c e : reaches (raise_if c e).
Proof. by apply respects_raise_if, _. Qed.

Lemma reaches_pure_outcome {A} (r : outcome A) : reaches (pure_outcome r).
Proof. by apply respects_pure_outcome, _. Qed.

Lemma reaches_capture {A} (m : M W A) : reaches m -> reaches (capture m).
Proof. apply respects_capture. Qed.

Lemma reaches_try_finally {A} (m : M W A) f : reaches m -> reaches f -> reaches (try_finally m f).
Proof. by apply respects_try_finally, _. Qed.

Lemma reaches_become_unknown e : reaches (become_unknown h e).
Proof. apply reaches_step. intros d. apply rtc_once, as_unknown. Qed.

Lemma reaches_waits : wait_steps (fun w w' => async_lifecycle (state_of w) (state_of w')) h.
Proof. destruct env. constructor; solve [trivial | intros e; apply reaches_become_unknown]. Qed.

#[local] Hint Resolve reaches_bind reaches_try_except reaches_ret reaches_raise reaches_raise_if
  reaches_pure_outcome reaches_capture reaches_try_finally reaches_step reaches_tasks : reach.
#[local] Hint Resolve lr_evalsha lr_eval lr_clock lr_time lr_create_renewal lr_create_cleanup lr_done
  lr_cancel lr_cancelled lr_result lr_shield lr_cancelling lr_create_future lr_call_later
  lr_cancel_timer lr_await_future lr_future_done lr_set_true lr_timeout lr_timeout_at lr_leave : reach.

(** One statement at a time. *)
Ltac reach :=
  repeat first
    [ solve [eauto with reach]
    | apply reaches_bind; [|intros ?]
    | apply reaches_step
    | apply reaches_try_finally
    | match goal with |- reaches (match ?x with _ => _ end) => destruct x end
    | match goal with |- reaches (try_except _ _) =>
        apply reaches_try_except; [|let Heq := fresh in intros ? ? Heq; repeat case_match; simplify_eq/=] end ].

Lemma reaches_run_status s args allowed : reaches (async_run_status h s args allowed).
Proof.
  unfold async_run_status, run_status_on, run_script. reach.
Qed.

Lemma reaches_attempt {A} (m : M W A) : reaches m -> reaches (attempt m).
Proof. intros Hm. unfold attempt. reach. Qed.

Lemma reaches_attempt_uncertain {A} (m : M W A) : reaches m -> reaches (attempt_uncertain m).
Proof. intros Hm. unfold attempt_uncertain. reach. Qed.

#[local] Hint Resolve reaches_run_status reaches_attempt reaches_attempt_uncertain : reach.

Lemma reaches_timeout_scope {A} (enter : M W nat) (m : M W A) :
  reaches enter -> reaches m -> reaches (timeout_scope h enter m).
Proof. apply respects_timeout_scope; [apply _|apply reaches_waits]. Qed.

Lemma reaches_renew lease : reaches (async_renew h lease).
Proof.
  unfold async_renew. reach; [intros d; apply reaches_unless_unknown; by intros ?|].
  apply reaches_unless_over. intros d. repeat case_match; cbn; try done; apply rtc_once; by constructor; auto.
Qed.

Lemma reaches_is_held : reaches (async_is_held h).
Proof.
  unfold async_is_held. reach; [intros d; apply reaches_unless_unknown; by intros ?|].
  apply reaches_unless_over. intros d. repeat case_match; cbn; try done; apply rtc_once; by constructor; auto.
Qed.

Lemma reaches_dispatch_release : reaches (async_dispatch_release h).
Proof. unfold async_dispatch_release, async_remaining_ms. reach. Qed.

#[local] Hint Resolve reaches_timeout_scope reaches_renew reaches_is_held reaches_dispatch_release : reach.

Lemma reaches_reconcile_release scoped : reaches (async_reconcile_release h scoped).
Proof.
  unfold async_reconcile_release, run_reconcile. reach.
  - intros d. repeat case_match; cbn; try done; apply rtc_once; by constructor; auto.
  - destruct a1; auto with reach.
Qed.

#[local] Hint Resolve reaches_reconcile_release : reach.

Lemma reaches_release scoped : reaches (async_release h scoped).
Proof. unfold async_release. reach. Qed.

Lemma reaches_wait_until fuel task d fc : reaches (wait_task_until h fuel task d fc).
Proof. apply respects_wait_until; [apply _|apply reaches_waits]. Qed.

Lemma reaches_wait_task task envelope fc : reaches (wait_task h task envelope fc).
Proof. apply respects_wait_task; [apply _|apply reaches_waits]. Qed.

Lemma reaches_task_failure completed task : reaches (task_failure h completed task).
Proof. apply respects_task_failure; [apply _|apply reaches_waits]. Qed.

Lemma reaches_recorded d : reaches (recorded_failure d).
Proof. unfold recorded_failure. reach. Qed.

Lemma reaches_read_state : reaches (read_state h).
Proof. apply reaches_step. by intros d. Qed.

#[local] Hint Resolve reaches_release reaches_become_unknown reaches_wait_until reaches_wait_task
  reaches_task_failure reaches_recorded reaches_read_state : reach.

Lemma reaches_stop_renew fc : reaches (stop_renew_task h fc).
Proof. unfold stop_renew_task, read_tasks, update_tasks. reach. Qed.

Lemma reaches_await_cleanup scoped fc : reaches (async_await_cleanup h scoped fc).
Proof. unfold async_await_cleanup, get_cleanup_task, read_tasks, update_tasks. reach. Qed.

#[local] Hint Resolve reaches_stop_renew reaches_await_cleanup : reach.

Lemma reaches_renew_rounds fuel seconds : reaches (async_renew_rounds h fuel seconds).
Proof.
  induction fuel as [|fuel IH]; cbn; [reach|].
  unfold read_tasks, sleep_interval, renew_in_time, update_tasks. reach.
Qed.

Lemma reaches_start_failed e : reaches (start_failed h e).
Proof. unfold start_failed. reach. Qed.

#[local] Hint Resolve reaches_start_failed : reach.

Lemma reaches_prove_entry : reaches (prove_entry h).
Proof. unfold prove_entry, update_tasks. reach. Qed.

Lemma reaches_read {A} (f : LeaseData -> A) :
  reaches (step h (unless_unknown (fun d => (Returned (f d), d)))).
Proof. apply reaches_step, reaches_unless_unknown. by intros d. Qed.

Lemma reaches_aenter : reaches (aenter h).
Proof.
  unfold aenter. apply reaches_bind; [|intros _].
  - apply reaches_step, reaches_unless_unknown. intros d. case_bool_decide; [|done].
    by apply rtc_once, as_enter.
  - apply reaches_try_except; [apply reaches_prove_entry|].
    intros e m' Hm. destruct e; cbn in Hm; simplify_eq; reach.
Qed.

Lemma reaches_aexit exc : reaches (aexit h exc).
Proof. unfold aexit. reach. Qed.

Lemma reaches_release_method : reaches (async_release_method h).
Proof. unfold async_release_method. apply reaches_bind; [apply reaches_read|intros ?]. reach. Qed.

(** ** Any sequence of operations *)

Inductive async_operation : Type :=
| ARenew (lease : option timedelta)
| AIsHeld
| AAssertHeld
| ARelease
| ACleanup (scoped : bool)
| AEnter
| AExit (exc : option exn)
| ARenewLoop (fuel : nat).

Definition run_async_operation (o : async_operation) : M W unit :=
  match o with
  | ARenew lease => async_renew h lease ;; ret tt
  | AIsHeld => async_is_held h ;; ret tt
  | AAssertHeld => async_assert_held h
  | ARelease => async_release_method h
  | ACleanup scoped => async_release h scoped
  | AEnter => aenter h
  | AExit exc => aexit h exc
  | ARenewLoop fuel => async_renew_loop h fuel
  end.

Lemma reaches_operation o : reaches (run_async_operation o).
Proof.
  destruct o; cbn; auto using reaches_release_method, reaches_aenter, reaches_aexit with reach.
  - unfold async_assert_held. reach.
  - unfold async_renew_loop. case_match; [apply reaches_renew_rounds|reach].
Qed.

Definition async_operations_lead (os : list async_operation) (w : W) : W :=
  foldl (fun w o => snd (run_async_operation o w)) w os.

Lemma operations_reach os w : async_lifecycle (state_of w) (state_of (async_operations_lead os w)).
Proof.
  revert w. induction os as [|o os IH]; intros w; [done|]. cbn.
  etrans; [apply (reaches_operation o w)|apply IH].
Qed.

(** Whatever operations run on a handle, whatever the server answers them
    and however the tasks that run them interleave, the handle is entered at most
    once and is never live again once it is over, and [UNKNOWN] always has its
    failure. *)
Theorem async_handle_never_revives os w :
  let d := state_of w in
  let d' := state_of (async_operations_lead os w) in
  phase d <= phase d' /\
  (is_ended d = true \/ ls_state d = UNKNOWN -> is_ended d' = true \/ ls_state d' = UNKNOWN) /\
  (failure_recorded d -> failure_recorded d').
Proof.
  intros d d'. pose proof (operations_reach os w) as Hl.
  pose proof (async_lifecycle_phase _ _ Hl) as Hp.
  split; [done|]. split; [|by apply async_lifecycle_recorded].
  subst d d'. unfold phase, is_ended in *. intros [Hd|Hd]; revert Hp; destruct (ls_state (state_of w)); try done;
    destruct (ls_state _); auto; cbn; lia.
Qed.
End Reach.

(** ** Waiting for a task ends *)

(** A cancellation that was kept stays the first one. *)
Definition kept (first_cancel first_cancel' : option exn) : Prop :=
  first_cancel' = first_cancel \/ first_cancel = None /\ first_cancel' = Some CancelledError.

Lemma kept_trans fc1 fc2 fc3 : kept fc1 fc2 -> kept fc2 fc3 -> kept fc1 fc3.
Proof. intros [->|[-> ->]] [->|[H ->]]; try done; [by left|by right|by right]. Qed.

Section Kept.
Context {W : Type} (h : AsyncRedisLockLease W).

Lemma wait_round_kept task remaining fc w fc' w' :
  wait_round h task remaining fc w = (Returned (Again fc'), w') -> kept fc fc'.
Proof.
  unfold wait_round, try_except. unfold bind at 1.
  destruct (timeout_scope h _ _ w) as [[a|e] w1]; cbn; [intros [= <- _]; by left|].
  assert (forall e', (ended <- ao_done (ar_objects h) task ;;
    if (ended : bool) then ret TaskDone else raise e') w1 <> (Returned (Again fc'), w')) as Hother.
  { intros e'. unfold bind. by destruct (ao_done _ task w1) as [[[]|] ?]. }
  destruct e; cbn; try done; try (intros H; by apply Hother in H).
  unfold bind. destruct (ao_done _ task w1) as [[[]|] w2]; [done| |done].
  destruct fc; [intros [= <- _]; by left|]. destruct (ao_cancelling _ w2) as [[n|] w3]; [|done].
  destruct (0 <? n); intros [= <- _]; [by right|by left].
Qed.

Lemma wait_until_kept fuel task terminal fc w b fc' w' :
  wait_task_until h fuel task terminal fc w = (Returned (b, fc'), w') -> kept fc fc'.
Proof.
  revert fc w. induction fuel as [|fuel IH]; intros fc w; [done|]. cbn [wait_task_until].
  intros (ended & w1 & _ & H)%bind_inv. destruct ended; [injection H as _ <- _; by left|].
  apply bind_inv in H as (now & w2 & _ & H). destruct (fle _ f0); [injection H as _ <- _; by left|].
  apply bind_inv in H as (round & w3 & Hr & H). destruct round as [fc1| |].
  - apply wait_round_kept in Hr. apply IH in H. by eapply kept_trans.
  - injection H as _ <- _. by left.
  - apply bind_inv in H as (? & ? & _ & H). injection H as _ <- _. by left.
Qed.

Lemma wait_envelope_kept fuel task deadline fc w fc' w' :
  wait_envelope h fuel task deadline fc w = (Returned fc', w') -> kept fc fc'.
Proof.
  revert fc w. induction fuel as [|fuel IH]; intros fc w; [done|]. cbn [wait_envelope].
  intros (ended & w1 & _ & H)%bind_inv. destruct ended; [injection H as <- _; by left|].
  apply bind_inv in H as (now & w2 & _ & H). destruct (fle _ f0); [injection H as <- _; by left|].
  apply bind_inv in H as (round & w3 & Hr & H). destruct round as [fc1| |].
  - apply wait_round_kept in Hr. apply IH in H. by eapply kept_trans.
  - injection H as <- _. by left.
  - injection H as <- _. by left.
Qed.

Lemma wait_task_kept task envelope fc w b fc' w' :
  wait_task h task envelope fc w = (Returned (b, fc'), w') -> kept fc fc'.
Proof.
  intros (now & w1 & _ & H)%bind_inv. apply bind_inv in H as (fc1 & w2 & Hw & H).
  apply wait_envelope_kept in Hw. apply bind_inv in H as (ended & w3 & _ & H).
  destruct ended; [by injection H as _ <- _|]. apply bind_inv in H as (u & w4 & _ & H).
  apply wait_until_kept in H. by eapply kept_trans.
Qed.
End Kept.

Section Waiting.
Context {W : Type} (h : AsyncRedisLockLease W) (pending : W -> nat).
Abbreviation obj := (ar_objects h).

(** [m] returns, and adds nothing that wakes a waiter. *)
Definition calm {A} (m : M W A) : Prop := forall w,
  exists a w', m w = (Returned a, w') /\ (pending w' <= pending w)%nat.

(** Only so much can wake the waiter: the end of the task, cancellations and
    deadlines.  An await of a shielded task that ends so uses one of them up. *)
Record waking : Prop := {
  wk_done t : calm (ao_done obj t);
  wk_time : calm (ao_time obj);
  wk_cancel t : calm (ao_cancel obj t);
  wk_cancelling : calm (ao_cancelling obj);
  wk_timeout d : calm (ao_timeout obj d);
  wk_leave s : calm (ao_leave obj s);
  wk_shield t w r w' : ao_shield obj t w = (r, w') ->
    r <> Raised FuelExhausted /\ (pending w' <= pending w)%nat /\
    (r = Returned tt \/ r = Raised CancelledError -> (pending w' < pending w)%nat);
}.

Hypothesis env : waking.

(** The verdict on the task was its last answer, or the time had passed. *)
Definition verdict (task : nat) (terminal : float) (ended : bool) (w' : W) : Prop :=
  (exists w1, ao_done obj task w1 = (Returned ended, w')) \/
  ended = false /\ exists w1 now,
    ao_time obj w1 = (Returned now, w') /\ fle (fsub terminal now) f0 = true.

(** How one await ends. *)
Definition round_ends (task : nat) (w : W) (r : outcome waited * W) : Prop :=
  match r with
  | (Returned (Again _), w') => (pending w' < pending w)%nat
  | (Returned TaskDone, w') =>
      (pending w' <= pending w)%nat /\ exists w1, ao_done obj task w1 = (Returned true, w')
  | (Returned TimedOut, w') => (pending w' <= pending w)%nat
  | (Raised e, w') => e <> FuelExhausted
  end.

(** Runs the calm statement [H] of the goal. *)
Ltac calm_run H :=
  let a := fresh "a" in let w' := fresh "w'" in let E := fresh "E" in let Hp := fresh "Hp" in
  match type of H with
  | calm ?m =>
      match goal with |- context [bind m _ ?w] =>
        destruct (H w) as (a & w' & E & Hp); rewrite (bind_returned _ _ _ _ _ E)
      end
  end.

Lemma scope_ends {A} (enter : M W nat) (m : M W A) w r w' :
  calm enter ->
  (forall w1 r w2, m w1 = (r, w2) -> r <> Raised FuelExhausted /\ (pending w2 <= pending w1)%nat /\
     ((exists a, r = Returned a) \/ r = Raised CancelledError -> (pending w2 < pending w1)%nat)) ->
  timeout_scope h enter m w = (r, w') ->
  r <> Raised FuelExhausted /\ (pending w' <= pending w)%nat /\
  ((exists a, r = Returned a) \/ r = Raised CancelledError -> (pending w' < pending w)%nat).
Proof.
  intros He Hm. unfold timeout_scope. calm_run He.
  destruct (m w'0) as [r1 w2] eqn:Em. destruct (Hm _ _ _ Em) as (Hf & Hle & Hlt).
  assert (capture m w'0 = (Returned r1, w2)) as Hc.
  { unfold capture. rewrite Em. by destruct r1 as [|[]]. }
  rewrite (bind_returned _ _ _ _ _ Hc). pose proof (wk_leave env a) as Hv. calm_run Hv.
  destruct r1 as [b|e].
  - intros [= <- <-]. assert (pending w2 < pending w'0)%nat by eauto. split; [done|]. lia.
  - assert (e = CancelledError \/ e <> CancelledError) as [->|Hne] by (destruct e; auto).
    + intros [= <- <-]. assert (pending w2 < pending w'0)%nat by auto.
      split; [by destruct a0|]. lia.
    + destruct e; try done; intros [= <- <-]; (split; [done|]; split; [lia|]);
        intros [[? ?]|?]; done.
Qed.

Lemma wait_round_ends task remaining fc w :
  round_ends task w (wait_round h task remaining fc w).
Proof.
  unfold wait_round, try_except. unfold bind at 1.
  destruct (timeout_scope h _ _ w) as [r w1] eqn:Es. apply scope_ends in Es as (Hf & Hle & Hlt);
    [|apply (wk_timeout env)|].
  2: { intros w2 r2 w3 E. apply (wk_shield env) in E as (H1 & H2 & H3). split; [done|]. split; [done|].
    intros [[[] ->]| ->]; auto. }
  destruct r as [[]|e]; cbn; [eauto|].
  assert (e = CancelledError \/ e <> CancelledError) as [->|Hne] by (destruct e; auto).
  - pose proof (wk_done env task) as Hd. calm_run Hd. assert (pending w1 < pending w)%nat by auto.
    destruct a; cbn; [split; [lia|eauto]|]. destruct fc; cbn; [lia|].
    pose proof (wk_cancelling env) as Hc. calm_run Hc. cbn. lia.
  - pose proof (wk_done env task) as Hd. destruct (Hd w1) as (ended & w2 & E & Hp).
    assert (forall e', e' <> FuelExhausted -> round_ends task w
      ((ended <- ao_done obj task ;; if (ended : bool) then ret TaskDone else raise e') w1)) as Hother.
    { intros e' He'. rewrite (bind_returned _ _ _ _ _ E). destruct ended; cbn; [split; [lia|eauto]|done]. }
    destruct e; cbn; try done; by apply Hother.
Qed.

Lemma wait_until_ends fuel task terminal fc w :
  (pending w < fuel)%nat ->
  match wait_task_until h fuel task terminal fc w with
  | (Returned (ended, _), w') => verdict task terminal ended w'
  | (Raised e, _) => e <> FuelExhausted
  end.
Proof.
  revert fc w. induction fuel as [|fuel IH]; intros fc w Hfuel; [lia|]. cbn [wait_task_until].
  pose proof (wk_done env task) as Hd. pose proof (wk_time env) as Hn. calm_run Hd.
  destruct a; cbn; [left; eauto|]. calm_run Hn. destruct (fle _ f0) eqn:Ef; cbn; [right; eauto|].
  pose proof (wait_round_ends task (fsub terminal a) fc w'0) as Hr. unfold bind at 1.
  destruct (wait_round h task _ fc w'0) as [[[fc1| |]|e] w3]; cbn in Hr; [| | |done].
  - apply IH. lia.
  - destruct Hr as [_ Hdone]. by left.
  - calm_run Hd. left; eauto.
Qed.

Lemma wait_envelope_ends fuel task deadline fc w :
  (pending w < fuel)%nat ->
  match wait_envelope h fuel task deadline fc w with
  | (Returned _, w') => (pending w' <= pending w)%nat
  | (Raised e, _) => e <> FuelExhausted
  end.
Proof.
  revert fc w. induction fuel as [|fuel IH]; intros fc w Hfuel; [lia|]. cbn [wait_envelope].
  pose proof (wk_done env task) as Hd. pose proof (wk_time env) as Hn. calm_run Hd.
  destruct a; cbn; [done|]. calm_run Hn. destruct (fle _ f0) eqn:Ef; cbn; [lia|].
  pose proof (wait_round_ends task (fsub deadline a) fc w'0) as Hr. unfold bind at 1.
  destruct (wait_round h task _ fc w'0) as [[[fc1| |]|e] w3]; cbn in Hr; [| | |done].
  - specialize (IH fc1 w3 ltac:(lia)). destruct (wait_envelope h fuel task deadline fc1 w3) as [[fc2|e] w4]; [lia|done].
  - destruct Hr as [Hle _]. cbn. lia.
  - cbn. lia.
Qed.

Lemma wait_task_verdict task envelope fc now (w w0 : W) :
  ao_time obj w = (Returned now, w0) -> (pending w < ar_fuel h)%nat ->
  match wait_task h task envelope fc w with
  | (Returned (ended, _), w') => verdict task (fadd (fadd now envelope) TERMINAL_SECONDS) ended w'
  | (Raised e, _) => e <> FuelExhausted
  end.
Proof.
  intros Hnow Hfuel. unfold wait_task. pose proof (wk_done env task) as Hd.
  destruct (wk_time env w) as (now' & w1 & E & Hp). rewrite E in Hnow. injection Hnow as -> ->.
  rewrite (bind_returned _ _ _ _ _ E).
  pose proof (wait_envelope_ends (ar_fuel h) task (fadd now envelope) fc w0 ltac:(lia)) as He.
  unfold bind at 1. destruct (wait_envelope h _ task _ fc w0) as [[fc1|e] w2]; [|done].
  calm_run Hd. destruct a; [left; eauto|]. pose proof (wk_cancel env task) as Hc. calm_run Hc.
  apply wait_until_ends. lia.
Qed.

(** Waiting for the renewal or cleanup task ends, however often the waiter is
    cancelled meanwhile: the fuel need only exceed the number of events that can
    wake it.  The wait reports the task done only when the task said so, and
    gives up only when the task was cancelled and still not done at the end of
    the envelope; and it keeps the first cancellation that reached the waiter. *)
Theorem wait_task_ends task envelope fc now (w w0 : W) :
  ao_time obj w = (Returned now, w0) -> (pending w < ar_fuel h)%nat ->
  match wait_task h task envelope fc w with
  | (Returned (ended, fc'), w') =>
      kept fc fc' /\ verdict task (fadd (fadd now envelope) TERMINAL_SECONDS) ended w'
  | (Raised e, _) => e <> FuelExhausted
  end.
Proof.
  intros Hnow Hfuel. pose proof (wait_task_verdict task envelope fc now w w0 Hnow Hfuel) as Hv.
  destruct (wait_task h task envelope fc w) as [[[ended fc']|e] w'] eqn:Ew; [|done].
  split; [by eapply wait_task_kept|done].
Qed.
End Waiting.

(** ** Leaving a context *)

Section Leaving.
Context {W : Type} (h : AsyncRedisLockLease W) `{!LensLaws (ao_data (ar_objects h))}
  `{!LensLaws (ao_tasks (ar_objects h))}.
Hypothesis tasks_apart : forall t w,
  lget (ao_data (ar_objects h)) (lput (ao_tasks (ar_objects h)) t w) = lget (ao_data (ar_objects h)) w.
Hypothesis env : loop_reaches h.

Abbreviation state := (state_of h).

Definition cleanup_of (w : W) : option nat := td_cleanup_task (lget (ao_tasks (ar_objects h)) w).

(** A recorded cleanup task stays the cleanup task, and a task that has a result
    has run its coroutine to the end, some time before it was asked. *)
Hypothesis cleanup_stays :
  wait_steps (fun w w' => forall t, cleanup_of w = Some t -> cleanup_of w' = Some t) h.
Hypothesis cleanup_result : forall t w w',
  cleanup_of w = Some t -> ao_result (ar_objects h) t w = (Returned tt, w') ->
  exists scoped w0 w1, async_release h scoped w0 = (Returned tt, w1) /\
    async_lifecycle (state w1) (state w').

#[local] Instance cleanup_preorder :
  PreOrder (fun w w' : W => forall t, cleanup_of w = Some t -> cleanup_of w' = Some t).
Proof. split; [by intros w|]. intros w1 w2 w3 H1 H2. auto. Qed.

Lemma step_inv {A} (f : section A) w a w' :
  step h f w = (Returned a, w') -> f (state w) = (Returned a, state w').
Proof.
  unfold step, state_of. destruct (f _) as [r d]. intros [= -> <-]. by rewrite lget_lput.
Qed.

Lemma finish_step scoped status w w' :
  step h (finish_release_status status scoped) w = (Returned tt, w') -> ls_state (state w') = RELEASED.
Proof. intros Hrun%step_inv. by eapply finish_status_returned. Qed.

(** The release returns only when the handle is released. *)
Lemma async_release_returned scoped w w' :
  async_release h scoped w = (Returned tt, w') -> ls_state (state w') = RELEASED.
Proof.
  intros (over & w1 & Hsec & Hrun)%bind_inv. apply step_inv in Hsec. destruct over.
  { apply finish_terminal_true in Hsec as [E Hr]. injection Hrun as <-. congruence. }
  apply bind_inv in Hrun as (r & w2 & _ & Hrun). destruct r as [status| |].
  - by eapply finish_step.
  - apply bind_inv in Hrun as (found & w3 & _ & Hrun). apply bind_inv in Hrun as (u & w4 & _ & Hrun).
    apply bind_inv in Hrun as (again & w5 & _ & Hrun).
    destruct again; [by eapply finish_step|by apply step_inv in Hrun..].
  - by apply step_inv in Hrun.
Qed.

(** A release of the handle ran to its end at some moment before [w], and left it
    released. *)
Definition was_released (w : W) : Prop :=
  exists scoped w0 w1, async_release h scoped w0 = (Returned tt, w1) /\
    ls_state (state w1) = RELEASED /\ async_lifecycle (state w1) (state w).

Lemma task_failure_none completed task w w' :
  cleanup_of w = Some task -> task_failure h completed task w = (Returned None, w') -> was_released w'.
Proof.
  intros Hc. unfold task_failure. destruct completed; cbn [negb]; [|by intros (? & ? & _ & ?)%bind_inv].
  intros (cancelled & w1 & Hcan & H)%bind_inv.
  pose proof (ws_cancelled _ _ cleanup_stays task w task Hc) as Hc1. rewrite Hcan in Hc1. cbn in Hc1.
  destruct cancelled; [by apply bind_inv in H as (? & ? & _ & ?)|].
  apply bind_inv in H as (r & w2 & Hr & H). destruct r as [u|e]; [|done]. injection H as <-.
  assert (ao_result (ar_objects h) task w1 = (Returned tt, w2)) as Hres.
  { destruct u. unfold capture in Hr. by destruct (ao_result _ task w1) as [[|[]] ?]; simplify_eq. }
  destruct (cleanup_result _ _ _ Hc1 Hres) as (scoped & w3 & w4 & Hrel & Hl).
  pose proof (async_release_returned _ _ _ Hrel). by eexists _, _, _.
Qed.

Lemma get_cleanup_recorded scoped w task w' :
  get_cleanup_task h scoped w = (Returned (inl task), w') -> cleanup_of w' = Some task.
Proof.
  intros (t & w1 & Ht & H)%bind_inv. unfold read_tasks, tasks, locked in Ht.
  rewrite lput_lget in Ht. injection Ht as <- <-.
  destruct (td_cleanup_task _) as [task'|] eqn:Et; [by injection H as <- <-|].
  apply bind_inv in H as (created & w2 & _ & H). destruct created as [task'|e].
  - apply bind_inv in H as (u & w3 & Hu & H). injection H as <- <-.
    unfold update_tasks, tasks, locked in Hu. injection Hu as _ <-. unfold cleanup_of. by rewrite lget_lput.
  - destruct (is_control e); [by apply bind_inv in H as (? & ? & _ & ?)|].
    destruct (is_Exception e); [by apply bind_inv in H as (? & ? & _ & ?)|done].
Qed.

Lemma await_cleanup_none scoped fc w fc' w' :
  async_await_cleanup h scoped fc w = (Returned (fc', None), w') -> kept fc fc' /\ was_released w'.
Proof.
  intros (d & w1 & _ & H)%bind_inv. case_bool_decide.
  { by apply bind_inv in H as (? & ? & _ & ?). }
  apply bind_inv in H as (cleanup & w2 & Hg & H). destruct cleanup as [task|e]; [|done].
  apply get_cleanup_recorded in Hg. apply bind_inv in H as ([b fc1] & w3 & Hw & H).
  pose proof (respects_wait_task _ h cleanup_stays task (t_release (ar_timing h)) fc w2 task Hg) as Hg3.
  rewrite Hw in Hg3. cbn in Hg3. apply wait_task_kept in Hw.
  apply bind_inv in H as (failure & w4 & Hf & H). injection H as <- -> <-.
  split; [done|]. by eapply task_failure_none.
Qed.

Lemma stop_renew_kept fc w fc' failure w' :
  stop_renew_task h fc w = (Returned (fc', failure), w') -> kept fc fc'.
Proof.
  intros (t & w1 & _ & H)%bind_inv. destruct (td_renew_task t) as [task|]; [|injection H as <- _ _; by left].
  apply bind_inv in H as (? & ? & _ & H). apply bind_inv in H as (? & ? & _ & H).
  apply bind_inv in H as (t2 & w4 & _ & H). apply bind_inv in H as ([b fc1] & w5 & Hw & H).
  assert (kept fc fc1) as Hk.
  { destruct (td_renew_deadline t2); [by eapply wait_until_kept|by eapply wait_task_kept]. }
  apply bind_inv in H as (f & w6 & _ & H). destruct f; [by injection H as <- _ _|].
  apply bind_inv in H as (d & w7 & _ & H). case_bool_decide; [|by injection H as <- _ _].
  apply bind_inv in H as (? & ? & _ & H). by injection H as <- _ _.
Qed.

Lemma async_exit_returned exc w w' :
  aexit h exc w = (Returned tt, w') ->
  match exc with Some e => is_control e = false | None => True end /\ was_released w'.
Proof.
  intros ([fc1 rf] & w1 & Hs & H)%bind_inv. apply stop_renew_kept in Hs.
  apply bind_inv in H as ([fc2 cf] & w2 & Hc & H).
  assert (fc2 = None /\ rf = None /\ cf = None /\ w2 = w' /\
    match exc with Some KeyboardInterrupt | Some SystemExit | Some GeneratorExit => False | _ => True end)
    as (-> & -> & -> & -> & Hexc).
  { destruct exc as [[]|], fc2, rf, cf; cbn in H; try done; try (by injection H as ->);
      repeat case_match; done. }
  apply await_cleanup_none in Hc as [Hk Hrel]. split; [|done].
  assert (kept (match exc with Some CancelledError => exc | _ => None end) None) as Hk0
    by (by eapply kept_trans).
  destruct exc as [e|]; [|done]. destruct e; try done. by destruct Hk0 as [?|[? ?]].
Qed.

(** A renewal task that was started has ended with a result, and the handle was
    not unknown then. *)
Definition renewal_ended (w : W) : Prop :=
  forall task, td_renew_task (lget (ao_tasks (ar_objects h)) w) = Some task ->
    exists w1 w2, ao_result (ar_objects h) task w1 = (Returned tt, w2) /\ ls_state (state w2) <> UNKNOWN.

Lemma stop_renew_ended fc w fc' w' :
  stop_renew_task h fc w = (Returned (fc', None), w') -> renewal_ended w.
Proof.
  intros (t & w1 & Ht & H)%bind_inv task Htask. unfold read_tasks, tasks, locked in Ht.
  rewrite lput_lget in Ht. injection Ht as <- <-. rewrite Htask in H.
  apply bind_inv in H as (? & ? & _ & H). apply bind_inv in H as (? & ? & _ & H).
  apply bind_inv in H as (t2 & w4 & _ & H). apply bind_inv in H as ([b fc1] & w5 & _ & H).
  apply bind_inv in H as (failure & w6 & Hf & H). destruct failure; [done|].
  apply bind_inv in H as (d & w7 & Hd & H). unfold read_state in Hd. unfold step in Hd. rewrite lput_lget in Hd.
  injection Hd as <- <-. case_bool_decide as Hu; [by apply bind_inv in H as (? & ? & _ & ?)|].
  unfold task_failure in Hf. destruct b; cbn [negb] in Hf; [|by apply bind_inv in Hf as (? & ? & _ & ?)].
  apply bind_inv in Hf as (cancelled & w8 & _ & Hf). destruct cancelled; [by apply bind_inv in Hf as (? & ? & _ & ?)|].
  apply bind_inv in Hf as (r & w9 & Hr & Hf). destruct r as [[]|e]; [|done]. injection Hf as ->.
  exists w8, w6. split; [|done]. unfold capture in Hr. by destruct (ao_result _ task w8) as [[|[]] ?]; simplify_eq.
Qed.

Lemma async_exit_ended exc w w' : aexit h exc w = (Returned tt, w') -> renewal_ended w.
Proof.
  intros ([fc1 rf] & w1 & Hs & H)%bind_inv. apply bind_inv in H as ([fc2 cf] & w2 & Hc & H).
  assert (rf = None) as ->; [|by eapply stop_renew_ended].
  destruct exc as [[]|], fc2, rf, cf; cbn in H; try done; repeat case_match; done.
Qed.

(** ** Entering a context *)

Definition entered (w : W) : W :=
  lput (ao_data (ar_objects h)) (set_lease_state (state w) ENTERED) w.

(** The handle is neither over nor unknown. *)
Definition alive (w : W) : Prop := is_ended (state w) = false /\ ls_state (state w) <> UNKNOWN.

(** A handle that was acquired, then entered, has proved its lease: the server
    answered a probe with [HELD], or a renewal with [RENEWED], after which the
    renewal task was started. *)
Record entry_proved (w w' : W) : Prop := {
  ep_acquired : ls_state (state w) = ACQUIRED;
  ep_proved :
    if auto_renew (ar_options h) then
      exists ms w1 task w2,
        duration_milliseconds (lease_time (ar_options h)) = Returned ms /\
        async_run_status h RENEW_SCRIPT [to_bytes (ar_record h); decimal ms]
          [py "RENEWED"; py "NOT_HELD"; py "CORRUPT"] (entered w) = (Returned (py "RENEWED"), w1) /\ alive w1 /\
        ao_create_renewal (ar_objects h) w1 = (Returned task, w2) /\
        w' = lput (ao_tasks (ar_objects h)) (set_renew_task task (lget (ao_tasks (ar_objects h)) w2)) w2
    else
      async_run_status h PROBE_SCRIPT [to_bytes (ar_record h)] [py "HELD"; py "NOT_HELD"; py "CORRUPT"] (entered w)
      = (Returned (py "HELD"), w') /\ alive w';
}.

Lemma attempt_inv {A} (m : M W A) w a w' : attempt m w = (Returned (Some a), w') -> m w = (Returned a, w').
Proof.
  unfold attempt, try_except, bind, ret. destruct (m w) as [[b|e] w1]; [by intros [= -> ->]|].
  destruct (is_Exception e), e; done.
Qed.

(** The first look at the state, which is not over. *)
Lemma look_inv w ended w' :
  step h (unless_unknown (fun d => (Returned (is_ended d), d))) w = (Returned ended, w') ->
  w' = w /\ ended = is_ended (state w) /\ ls_state (state w) <> UNKNOWN.
Proof.
  unfold step, unless_unknown, state_of. destruct (ls_state _) eqn:E; rewrite ?lput_lget; try done;
    intros [= <- <-]; split_and!; congruence.
Qed.

(** What a second look lets through. *)
Lemma unless_over_inv {A} (ended : A) (f : section A) w a w' :
  step h (unless_over ended f) w = (Returned a, w') -> a <> ended ->
  alive w /\ step h f w = (Returned a, w').
Proof.
  unfold step, unless_over, unless_unknown, alive, is_ended, state_of.
  destruct (ls_state _) eqn:E; intros H Ha; try (by split); injection H; intros; congruence.
Qed.

Lemma renewed_inv lease r w w' :
  async_renew h lease w = (Returned (Renewed r), w') ->
  exists ms, duration_milliseconds (default (lease_time (ar_options h)) lease) = Returned ms /\
    async_run_status h RENEW_SCRIPT [to_bytes (ar_record h); decimal ms]
      [py "RENEWED"; py "NOT_HELD"; py "CORRUPT"] w = (Returned (py "RENEWED"), w') /\ alive w'.
Proof.
  intros (ended & w1 & (-> & _ & _)%look_inv & H)%bind_inv. destruct ended; [done|].
  apply bind_inv in H as (status & w2 & Hask & H). apply unless_over_inv in H as [Halive H]; [|done].
  unfold step in H. destruct status as [s|]; [|done]. cbn beta iota in H.
  case_bool_decide as Hs; [|by case_bool_decide]. rewrite lput_lget in H. injection H as _ <-. subst s.
  apply attempt_inv, bind_inv in Hask as (ms & w3 & Hms & Hask). unfold pure_outcome in Hms.
  injection Hms as Hms <-. by exists ms.
Qed.

Lemma held_inv w w' :
  async_is_held h w = (Returned true, w') ->
  async_run_status h PROBE_SCRIPT [to_bytes (ar_record h)] [py "HELD"; py "NOT_HELD"; py "CORRUPT"] w
  = (Returned (py "HELD"), w') /\ alive w'.
Proof.
  intros (ended & w1 & (-> & _ & _)%look_inv & H)%bind_inv. destruct ended; [done|].
  apply bind_inv in H as (status & w2 & Hask & H). apply unless_over_inv in H as [Halive H]; [|done].
  unfold step in H. destruct status as [s|]; [|done]. cbn beta iota in H.
  case_bool_decide as Hs; [|by case_bool_decide]. rewrite lput_lget in H. injection H as <-. subst s.
  by apply attempt_inv in Hask.
Qed.

Lemma start_failed_never_returns e w w' : start_failed h e w <> (Returned tt, w').
Proof.
  intros ([fc cf] & w1 & _ & H)%bind_inv. destruct cf; repeat case_match; done.
Qed.

Lemma async_enter_returned w w' : aenter h w = (Returned tt, w') -> entry_proved w w'.
Proof.
  intros ([] & w1 & He & H)%bind_inv.
  assert (ls_state (state w) = ACQUIRED /\ w1 = entered w) as [Hacq ->].
  { unfold step, unless_unknown, entered, state_of in *.
    destruct (ls_state _) eqn:E; try done; cbn in He; by injection He as <-. }
  assert (prove_entry h (entered w) = (Returned tt, w')) as Hp.
  { unfold try_except in H. destruct (prove_entry h (entered w)) as [[[]|e] w1]; [done|].
    destruct e; cbn in H; try done; apply bind_inv in H as (? & ? & _ & H); repeat case_match; done. }
  constructor; [done|]. unfold prove_entry in Hp. destruct (auto_renew (ar_options h)).
  - apply bind_inv in Hp as (r & w1 & Hr & Hp). destruct r as [r| |]; try done.
    apply renewed_inv in Hr as (ms & Hms & Hask & Halive).
    apply bind_inv in Hp as (started & w2 & Hc & Hp). destruct started as [task|e];
      [|by apply start_failed_never_returns in Hp].
    exists ms, w1, task, w2. split_and!; [done..| |].
    + unfold capture in Hc. by destruct (ao_create_renewal _ w1) as [[|[]] ?]; simplify_eq.
    + unfold update_tasks, tasks, locked in Hp. by injection Hp as <-.
  - apply bind_inv in Hp as (held & w1 & Hh & Hp). destruct held; [|done]. injection Hp as <-.
    by apply held_inv.
Qed.

(** Leaving the context of an asyncio handle normally means that the lease
    was given up: [__aexit__] returns only when the handle has been released and
    no failure of the renewal task or of the cleanup was seen, and never when
    the body was cancelled or interrupted.  Any other end raises. *)
Lemma async_exit_gives_up exc w w' :
  aexit h exc w = (Returned tt, w') ->
  match exc with Some e => is_control e = false | None => True end /\
  (is_ended (state w') = true \/ ls_state (state w') = UNKNOWN) /\ was_released w'.
Proof.
  intros [He Hrel]%async_exit_returned. split; [done|]. split; [|done].
  destruct Hrel as (scoped & w0 & w1 & _ & Hd & Hl). apply async_lifecycle_phase in Hl.
  unfold phase, is_ended in *. rewrite Hd in Hl. by destruct (ls_state (state w')); auto.
Qed.
End Leaving.

(** ** What a result of the elector says *)

Section Elector.
Context {W : Type} (encode : pystr -> pybytes) (sha256 : pybytes -> pystr).
Context (lock : AsyncRedisDistributedLock W).

(** What the elector relies on of the handles it acquires: attributes that are
    apart, an event loop that leaves them to the handle's operations, and a cleanup
    task whose result is that of [_release]. *)
Record handle_on_loop (h : AsyncRedisLockLease W) : Prop := {
  hl_data : LensLaws (ao_data (ar_objects h));
  hl_tasks : LensLaws (ao_tasks (ar_objects h));
  hl_apart t w :
    lget (ao_data (ar_objects h)) (lput (ao_tasks (ar_objects h)) t w) = lget (ao_data (ar_objects h)) w;
  hl_loop : loop_reaches h;
  hl_cleanup_stays : wait_steps (fun w w' => forall t, cleanup_of h w = Some t -> cleanup_of h w' = Some t) h;
  hl_cleanup_result t w w' :
    cleanup_of h w = Some t -> ao_result (ar_objects h) t w = (Returned tt, w') ->
    exists scoped w0 w1, async_release h scoped w0 = (Returned tt, w1) /\
      async_lifecycle (state_of h w1) (state_of h w');
}.

(** [action] ran once with the lease of a handle that was acquired and had proved
    its lease, and ended so; then the renewal task ended with a result, and the
    handle was released. *)
Definition ran_under_lease {T} (name : arg pystr) (action : FencedLeaderLease -> M W T)
    (options : LeaderElectionOptions) (w w' : W) (lease : FencedLeaderLease) (r : outcome T) : Prop :=
  exists hd w1 w2 w3,
    async_try_acquire encode sha256 lock name options w = (Returned (Some hd), w1) /\
    lease = ar_lease hd /\ entry_proved hd w1 w2 /\ action lease w2 = (r, w3) /\
    renewal_ended hd w3 /\ was_released hd w' /\
    (is_ended (state_of hd w') = true \/ ls_state (state_of hd w') = UNKNOWN).

Definition async_accounts_for {T} (name : arg pystr) (action : FencedLeaderLease -> M W T)
    (options : LeaderElectionOptions) (w w' : W) (result : LeaderRunResult T FencedLeaderLease)
    : Prop :=
  match result with
  | Skipped => async_try_acquire encode sha256 lock name options w = (Returned None, w')
  | Elected value lease => ran_under_lease name action options w w' lease (Returned value)
  | ActionFailed e lease =>
      is_Exception e = true /\ ran_under_lease name action options w w' lease (Raised e)
  end.

Lemma acted_inv {T} (action : M W T) w acted w' :
  capture (try_except (v <- action ;; ret (inl v))
             (fun e => if is_Exception e then Some (ret (inr e)) else None)) w = (Returned acted, w') ->
  match acted with
  | Returned (inl v) => action w = (Returned v, w')
  | Returned (inr e) => is_Exception e = true /\ action w = (Raised e, w')
  | Raised e => is_Exception e = false
  end.
Proof.
  unfold capture, try_except, bind. destruct (action w) as [[v|e] w1]; cbn.
  - by intros [= <- <-].
  - destruct e; cbn; (intros [= <- <-] || done); done.
Qed.

Lemma covered_run {T} name (action : FencedLeaderLease -> M W T) options w w' hd w1 w2 w3 r :
  async_try_acquire encode sha256 lock name options w = (Returned (Some hd), w1) -> handle_on_loop hd ->
  aenter hd w1 = (Returned tt, w2) -> action (ar_lease hd) w2 = (r, w3) ->
  aexit hd None w3 = (Returned tt, w') ->
  ran_under_lease name action options w w' (ar_lease hd) r.
Proof.
  intros Hacq [] Hent Hact Hexit. exists hd, w1, w2, w3. split_and!; [done..| | | | |].
  - by apply async_enter_returned.
  - done.
  - by eapply async_exit_ended.
  - by eapply async_exit_returned.
  - by eapply async_exit_gives_up.
Qed.

(** The objects of an acquired handle are new ones of the lock. *)
Definition of_lock (hd : AsyncRedisLockLease W) : Prop :=
  ar_commands hd = ad_commands lock /\ ar_monotonic hd = ad_monotonic lock /\
  exists w w', ad_new_objects lock new_lease_data new_task_data w = (Returned (ar_objects hd), w').

Lemma new_handle_of_lock key owner fence options acquired_at w hd w' :
  async_new_handle lock key owner fence options acquired_at w = (Returned hd, w') -> of_lock hd.
Proof.
  intros (? & ? & _ & H)%bind_inv. apply bind_inv in H as (? & ? & _ & H).
  apply bind_inv in H as (? & ? & _ & H). apply bind_inv in H as (? & ? & _ & H).
  apply bind_inv in H as (? & ? & Ho & H). injection H as <- _. split_and!; eauto.
Qed.

Lemma acquire_loop_of_lock fuel keys owner ttl options deadline b w hd w' :
  async_acquire_loop lock fuel keys owner ttl options deadline b w = (Returned (Some hd), w') -> of_lock hd.
Proof.
  revert b w. induction fuel as [|fuel IH]; intros b w; [done|]. cbn [async_acquire_loop].
  intros (now & w1 & _ & H)%bind_inv. destruct (b && _); [done|].
  apply bind_inv in H as (tried & w2 & _ & H). destruct tried as [[fence| |]| |]; try done.
  - apply bind_inv in H as (hd' & w3 & Hn & H). injection H as <- _. by eapply new_handle_of_lock.
  - apply bind_inv in H as (? & w3 & _ & H). destruct (fle _ _); [done|].
    apply bind_inv in H as (? & ? & _ & H). apply bind_inv in H as (? & ? & _ & H).
    apply bind_inv in H as (? & ? & _ & H). by eapply IH.
  - apply bind_inv in H as (hd' & w3 & Hn & H). injection H as <- _.
    apply bind_inv in Hn as (status & w4 & _ & Hn). destruct status as [[record| |]|]; try done.
    case_bool_decide; [|done]. by eapply new_handle_of_lock.
Qed.

Lemma try_acquire_of_lock name options w hd w' :
  async_try_acquire encode sha256 lock name options w = (Returned (Some hd), w') -> of_lock hd.
Proof.
  intros (? & ? & _ & H)%bind_inv. apply bind_inv in H as (? & ? & _ & H).
  apply bind_inv in H as (? & ? & _ & H). apply bind_inv in H as (? & ? & _ & H).
  apply bind_inv in H as (? & ? & _ & H). by eapply acquire_loop_of_lock.
Qed.

(** [C16] The results of the asyncio elector can be trusted.  [Skipped] is reported
    only when the lease was not acquired, and then the action did not run.
    [Elected] and [ActionFailed] are reported only when the lease was acquired; the
    server then confirmed it for the entered handle, by a probe or by a renewal
    that started the renewal task; the action ran once with that lease and ended
    as reported; the renewal task ended with a result, with the handle not
    unknown; and a release of the handle ran to its end and left it released.
    When the action is cancelled or interrupted, or the proof, the renewal or the
    cleanup failed, the elector raises instead. *)
Theorem async_elector_accounts {T} name (action : FencedLeaderLease -> M W T) options w result w' :
  (forall hd w1, async_try_acquire encode sha256 lock name options w = (Returned (Some hd), w1) ->
     handle_on_loop hd) ->
  async_run_if_leader_result encode sha256 lock name action options w = (Returned result, w') ->
  async_accounts_for name action options w w' result.
Proof.
  intros Hloop (acquired & w1 & Hacq & H)%bind_inv. destruct acquired as [hd|]; [|by injection H as <- <-].
  apply bind_inv in H as ([] & w2 & Hent & H). apply bind_inv in H as (acted & w3 & Hact & H).
  apply acted_inv in Hact. pose proof (Hloop _ _ Hacq) as Hhd. destruct acted as [[value|e]|e].
  - apply bind_inv in H as ([] & w4 & Hexit & H). injection H as <- <-. by eapply covered_run.
  - destruct Hact as [He Hact]. apply bind_inv in H as ([] & w4 & Hexit & H). injection H as <- <-.
    split; [done|]. eapply covered_run; [done..|]. unfold try_except in Hexit.
    destruct (aexit hd None w3) as [[[]|e'] w5]; [done|]. by destruct e'.
  - by apply bind_inv in H as (? & ? & _ & H).
Qed.
End Elector.

(** ** A loop with one handle

    A handle on the server of [demo_server]; another task may run while the
    reply to a release is on its way. *)

Section Demo.
Record async_demo : Type := {
  an_data : LeaseData;
  an_tasks : TaskData;
  an_server : map_server;
  an_seen : list LeaseData;
}.

Definition an_lens_data : lens async_demo LeaseData := {|
  lget := an_data;
  lput d w := {| an_data := d; an_tasks := an_tasks w; an_server := an_server w; an_seen := an_seen w |};
|}.

Definition an_lens_tasks : lens async_demo TaskData := {|
  lget := an_tasks;
  lput t w := {| an_data := an_data w; an_tasks := t; an_server := an_server w; an_seen := an_seen w |};
|}.

Definition an_lens_server : lens async_demo map_server := {|
  lget := an_server;
  lput s w := {| an_data := an_data w; an_tasks := an_tasks w; an_server := s; an_seen := an_seen w |};
|}.

#[local] Instance an_data_laws : LensLaws an_lens_data.
Proof. constructor; [done|by intros []|done]. Qed.

#[local] Instance an_tasks_laws : LensLaws an_lens_tasks.
Proof. constructor; [done|by intros []|done]. Qed.

(** A loop that runs the cleanup task when its result is asked for. *)
Definition an_objects (cleanup : M async_demo unit) : async_objects async_demo := {|
  ao_data := an_lens_data;
  ao_tasks := an_lens_tasks;
  ao_time := ret f0;
  ao_create_renewal := raise (RuntimeError "no renewal");
  ao_create_cleanup _ := ret 1%nat;
  ao_done _ := ret true;
  ao_cancel _ := ret tt;
  ao_cancelled _ := ret false;
  ao_result _ := cleanup;
  ao_shield _ := ret tt;
  ao_cancelling := ret 0;
  ao_create_future := ret 0%nat;
  ao_call_later _ _ := ret 0%nat;
  ao_cancel_timer _ := ret tt;
  ao_await_future _ := ret true;
  ao_future_done _ := ret true;
  ao_set_true _ := ret tt;
  ao_timeout _ := ret 0%nat;
  ao_timeout_at _ := ret 0%nat;
  ao_leave _ := ret false;
|}.

Definition an_handle_of (key : pybytes) (commands : redis_commands async_demo) (cleanup : M async_demo unit)
    : AsyncRedisLockLease async_demo := {|
  ar_objects := an_objects cleanup;
  ar_commands := commands;
  ar_lease := demo_lease;
  ar_lease_key := key;
  ar_record := w_record 1;
  ar_options := demo_options;
  ar_monotonic := ret f0;
  ar_acquired_at := f0;
  ar_timing := demo_timing;
  ar_fuel := 2;
|}.

Definition an_direct : redis_commands async_demo := connection an_lens_server.

Definition an_task : AsyncRedisLockLease async_demo := an_handle_of (k_lease w_keys) an_direct (ret tt).

(** The handle, whose cleanup task releases the lease and leaves its tasks alone. *)
Definition an_cleanup_of (h : AsyncRedisLockLease async_demo) : M async_demo unit := fun w =>
  let '(r, w') := async_release h true w in (r, lput an_lens_tasks (an_tasks w) w').
Definition an_cleanup : M async_demo unit := an_cleanup_of an_task.

Definition an_handle : AsyncRedisLockLease async_demo :=
  an_handle_of (k_lease w_keys) an_direct an_cleanup.

Definition an_world (s : lease_state) (server : map_server) : async_demo := {|
  an_data := {| ls_state := s; ls_failure := None; ls_worker := false |};
  an_tasks := new_task_data; an_server := server; an_seen := [];
|}.

Lemma an_task_reaches key : loop_reaches (an_handle_of key an_direct (ret tt)).
Proof.
  assert (forall A (m : M map_server A), reaches (an_handle_of key an_direct (ret tt)) (on_object an_lens_server m)) as Hs.
  { intros A m w. unfold on_object. by destruct (m _). }
  constructor; intros; try (by apply Hs); by intros w.
Qed.

(** A handle on this loop, whose cleanup task is a release on the same key. *)
Lemma an_loop_reaches h key :
  ar_objects h = an_objects (an_cleanup_of (an_handle_of key an_direct (ret tt))) ->
  ar_commands h = an_direct -> ar_monotonic h = ret f0 -> loop_reaches h.
Proof.
  intros Ho Hc Hm.
  assert (forall A (m : M map_server A), reaches h (on_object an_lens_server m)) as Hs.
  { intros A m w. unfold on_object, state_of. rewrite Ho. by destruct (m _). }
  constructor; intros; rewrite ?Hc, ?Hm; try (by apply Hs); unfold reaches, state_of; rewrite Ho; try (by intros w).
  intros w. cbn. unfold an_cleanup_of.
  pose proof (reaches_release (an_handle_of key an_direct (ret tt)) (an_task_reaches key) true w) as Hr.
  by destruct (async_release _ true w).
Qed.

Lemma an_reaches : loop_reaches an_handle.
Proof. by apply (an_loop_reaches _ (k_lease w_keys)). Qed.

(** A live handle: the probes agree, a renewal for no time at all does not. *)
Lemma async_handle_agrees_witness :
  async_is_held an_handle (an_world ENTERED demo_held) = is_held (sync_handle an_handle) (an_world ENTERED demo_held) /\
  fst (async_renew an_handle (Some 0) (an_world ENTERED demo_held))
  = Returned (RenewBackendFailure LeaderBackendError).
Proof.
  destruct (async_handle_agrees an_handle (Some 0) (an_world ENTERED demo_held)) as [Hheld Hrenew].
  split; [exact Hheld|]. destruct Hrenew as (_ & _ & ->). reflexivity.
Defined.

Lemma async_handle_never_revives_witness :
  let w := async_operations_lead an_handle [AIsHeld; AExit None; AEnter; ARenew None] (an_world ENTERED demo_held) in
  1 <= phase (state_of an_handle w).
Proof.
  exact (proj1 (async_handle_never_revives an_handle (fun _ _ => eq_refl) an_reaches
    [AIsHeld; AExit None; AEnter; ARenew None] (an_world ENTERED demo_held))).
Defined.

Lemma async_exit_gives_up_witness :
  fst (aexit an_handle None (an_world ENTERED demo_held)) = Returned tt /\
  was_released an_handle (snd (aexit an_handle None (an_world ENTERED demo_held))).
Proof.
  split; [vm_compute; reflexivity|].
  refine (proj2 (proj2 (async_exit_gives_up an_handle _ _ None
    (an_world ENTERED demo_held) _ _))).
  - constructor; intros; intros w t' H; try exact H. cbn. unfold an_cleanup, an_cleanup_of.
    by destruct (async_release an_task true w).
  - intros t w w' _. cbn. unfold an_cleanup, an_cleanup_of.
    destruct (async_release an_task true w) as [r w1] eqn:E. intros [= -> <-].
    exists true, w, w1. split; [exact E|reflexivity].
  - vm_compute. reflexivity.
Defined.

(** A waiter that is cancelled three times before the task is done. *)
Definition wake_objects : async_objects nat := {|
  ao_data := {| lget _ := new_lease_data; lput _ w := w |};
  ao_tasks := {| lget _ := new_task_data; lput _ w := w |};
  ao_time := ret f0;
  ao_create_renewal := ret 1%nat;
  ao_create_cleanup _ := ret 1%nat;
  ao_done _ := fun w => (Returned (Nat.eqb w 0), w);
  ao_cancel _ := ret tt;
  ao_cancelled _ := ret false;
  ao_result _ := ret tt;
  ao_shield _ := fun w => match w with O => (Raised TimeoutError, O) | S n => (Raised CancelledError, n) end;
  ao_cancelling := ret 1;
  ao_create_future := ret 0%nat;
  ao_call_later _ _ := ret 0%nat;
  ao_cancel_timer _ := ret tt;
  ao_await_future _ := ret true;
  ao_future_done _ := ret true;
  ao_set_true _ := ret tt;
  ao_timeout _ := ret 0%nat;
  ao_timeout_at _ := ret 0%nat;
  ao_leave _ := ret false;
|}.

Definition wake_handle : AsyncRedisLockLease nat := {|
  ar_objects := wake_objects;
  ar_commands := {| evalsha _ _ _ := raise RedisConnectionError; eval _ _ _ := raise RedisConnectionError |};
  ar_lease := demo_lease;
  ar_lease_key := k_lease w_keys;
  ar_record := w_record 1;
  ar_options := demo_options;
  ar_monotonic := ret f0;
  ar_acquired_at := f0;
  ar_timing := demo_timing;
  ar_fuel := 4;
|}.

Lemma wake_waking : waking wake_handle (fun w => w).
Proof.
  constructor; try (intros ? w; eexists _, w; split; [reflexivity|cbn; lia]);
    try (intros w; eexists _, w; split; [reflexivity|cbn; lia]).
  intros t [|n] r w' [= <- <-]; (split; [done|]; split; [lia|]); [by intros [|]|lia].
Qed.

Lemma wait_task_ends_witness :
  wait_task wake_handle 1 f1 None 3%nat = (Returned (true, Some CancelledError), 0%nat) /\
  kept None (Some CancelledError) /\ verdict wake_handle 1 (fadd (fadd f0 f1) TERMINAL_SECONDS) true 0%nat.
Proof.
  assert (wait_task wake_handle 1 f1 None 3%nat = (Returned (true, Some CancelledError), 0%nat)) as E
    by (vm_compute; reflexivity).
  split; [exact E|].
  pose proof (wait_task_ends wake_handle (fun w => w) wake_waking 1 f1 None f0 3%nat 3%nat eq_refl
    ltac:(cbn; lia)) as H.
  rewrite E in H. exact H.
Defined.

(** A lock on that server. *)
Definition an_lock : AsyncRedisDistributedLock async_demo := {|
  ad_commands := an_direct;
  ad_prefix := Exact (py "bluetape-leader");
  ad_timing := demo_timing;
  ad_monotonic := ret f0;
  ad_sleep _ := ret tt;
  ad_jitter := ret (PyFloat JITTER_MIN);
  ad_token_factory := ret w_owner;
  ad_utcnow := ret {| dt_time := 0; dt_zone := KnownZone 0 |};
  ad_new_objects d t := fun w =>
    (Returned (an_objects (an_cleanup_of
       (an_handle_of (py "bluetape-leader:{job}:lease") an_direct (ret tt)))),
     {| an_data := d; an_tasks := t; an_server := an_server w; an_seen := an_seen w |});
  ad_fuel := 1;
  ad_wait_fuel := 2;
|}.

(** A run of the elector on a free lock, for leases of one key. *)
Definition an_run : outcome (LeaderRunResult Z FencedLeaderLease) * async_demo :=
  async_run_if_leader_result (fun s => s) (fun b => b) an_lock (Exact (py "job"))
    (fun lease => ret (fl_fencing_token lease)) demo_options (an_world LOST ∅).

Definition an_result : LeaderRunResult Z FencedLeaderLease :=
  match fst an_run with Returned r => r | Raised _ => Skipped end.

Example an_elected : match an_result with Elected v _ => v = 1 | _ => False end.
Proof. vm_compute. reflexivity. Qed.

Lemma an_run_result : an_run = (Returned an_result, snd an_run).
Proof. vm_compute. reflexivity. Qed.

(** The handle that the lock acquires there. *)
Definition an_try : M async_demo (option (AsyncRedisLockLease async_demo)) :=
  async_try_acquire (fun s => s) (fun b => b) an_lock (Exact (py "job")) demo_options.
Definition an_acquired : AsyncRedisLockLease async_demo :=
  match fst (an_try (an_world LOST ∅)) with Returned (Some hd) => hd | _ => an_handle end.

(** Releasing it is what its cleanup task does. *)
Lemma an_same_release h key cleanup :
  ar_objects h = an_objects cleanup -> ar_commands h = an_direct -> ar_monotonic h = ret f0 ->
  ar_lease_key h = key -> ar_record h = w_record 1 -> ar_options h = demo_options -> ar_acquired_at h = f0 ->
  async_release (an_handle_of key an_direct (ret tt)) true = async_release h true.
Proof. intros. destruct h; cbn in *; subst. reflexivity. Qed.

Lemma an_lock_handles hd w1 : an_try (an_world LOST ∅) = (Returned (Some hd), w1) -> handle_on_loop hd.
Proof.
  intros E. pose proof (try_acquire_of_lock _ _ _ _ _ _ _ _ E) as (Hc & Hm & v & v' & Ho).
  cbn in Ho. injection Ho as Ho _.
  assert (hd = an_acquired) as Hhd by (unfold an_acquired; by rewrite E).
  assert (async_release (an_handle_of (py "bluetape-leader:{job}:lease") an_direct (ret tt)) true
          = async_release hd true) as Hrel.
  { eapply an_same_release; [by symmetry|done|done|rewrite Hhd..]; vm_compute; reflexivity. }
  constructor.
  - rewrite <-Ho. apply an_data_laws.
  - rewrite <-Ho. apply an_tasks_laws.
  - by rewrite <-Ho.
  - by eapply an_loop_reaches.
  - unfold cleanup_of. constructor; intros; intros w t' H; rewrite <-?Ho in *; try exact H.
    + cbn. unfold an_cleanup_of. by destruct (async_release _ true w).
    + unfold become_unknown, step. rewrite <-Ho. exact H.
  - intros t w w' _. unfold state_of. rewrite <-Ho. cbn. unfold an_cleanup_of.
    destruct (async_release _ true w) as [r w2] eqn:Er. intros [= -> <-].
    exists true, w, w2. rewrite <-Hrel. split; [exact Er|reflexivity].
Qed.

Lemma async_elector_accounts_witness :
  async_accounts_for (fun s => s) (fun b => b) an_lock (Exact (py "job"))
    (fun lease => ret (fl_fencing_token lease)) demo_options (an_world LOST ∅) (snd an_run) an_result.
Proof.
  exact (async_elector_accounts (fun s => s) (fun b => b) an_lock (Exact (py "job"))
           (fun lease => ret (fl_fencing_token lease)) demo_options (an_world LOST ∅) an_result
           (snd an_run) an_lock_handles an_run_result).
Defined.

(** ** A reply that comes late *)

(** The connection of a release during which another task runs: while the reply
    is on its way, [other] runs to its end, and the state it leaves is noted. *)
Definition an_interleaved (other : M async_demo unit) : redis_commands async_demo := {|
  evalsha script ks vs :=
    reply <- evalsha an_direct script ks vs ;;
    capture other ;;
    (fun w => (Returned reply, {| an_data := an_data w; an_tasks := an_tasks w; an_server := an_server w;
                                  an_seen := an_seen w ++ [an_data w] |}));
  eval := eval an_direct;
|}.

(** Another task of the same handle whose own connection breaks. *)
Definition an_broken : AsyncRedisLockLease async_demo :=
  an_handle_of (k_lease w_keys)
    {| evalsha _ _ _ := raise RedisConnectionError; eval _ _ _ := raise RedisConnectionError |} (ret tt).

Definition late_release (other : M async_demo unit) : outcome unit * async_demo :=
  async_release (an_handle_of (k_lease w_keys) (an_interleaved other) (ret tt)) true
    (an_world ENTERED demo_held).

(** The ends of an asyncio handle are not final.  A task that probes the lease
    while a release is under way leaves the handle lost, or unknown when its own
    request fails; the reply to the release then makes the handle released, and
    the release returns.  The synchronous handle looks at its state again
    before it writes. *)
Theorem late_release_overwrites :
  let lost := late_release (async_is_held an_task ;; ret tt) in
  let unknown := late_release (async_is_held an_broken ;; ret tt) in
  (fst lost = Returned tt /\ ls_state <$> an_seen (snd lost) = [LOST] /\
   ls_state (an_data (snd lost)) = RELEASED) /\
  (fst unknown = Returned tt /\ ls_state <$> an_seen (snd unknown) = [UNKNOWN] /\
   ls_state (an_data (snd unknown)) = RELEASED).
Proof. vm_compute. done. Qed.
End Demo.
