(* ===== verification/Ids.v ===== *)
(** * Identifiers ([bluetape/id])

    ULIDs and version 7 UUIDs: the validated callbacks ([_entropy.py]), the
    base-32 text of a ULID with its parser, the random and the monotonic ULID
    generator ([_ulid.py]), and the version 7 UUID generator with the reader of
    its timestamp ([_uuid.py]).  A generator's section under its lock is one
    function of its state; [uuid.UUID] of the standard library is the 128-bit
    integer it wraps, with its text, its version and its variant. *)

From Stdlib Require Import Sorting.Sorted.
From S2P Require Import Prelude Python.
Open Scope py_scope.
Open Scope Z_scope.

Definition MAX_TIMESTAMP : Z := Z.shiftl 1 48 - 1.
Definition MAX_RANDOMNESS : Z := Z.shiftl 1 80 - 1.
Definition ULID_LENGTH : nat := 26.
Definition ALPHABET : pystr := py "0123456789ABCDEFGHJKMNPQRSTVWXYZ".

(** ** Callbacks *)

(** An argument that may not be callable. *)
Inductive callback (F : Type) : Type :=
| Callable (f : F)
| NotCallable.
Arguments Callable {F} f.
Arguments NotCallable {F}.

Definition require_callback {F} (value : callback F) (message : string) : outcome F :=
  match value with
  | Callable f => Returned f
  | NotCallable => Raised (TypeError message)
  end.

(** The result of the clock. *)
Definition check_timestamp (value : pyval) : outcome Z :=
  match value with
  | PyInt z =>
      if (0 <=? z) && (z <=? MAX_TIMESTAMP) then Returned z
      else Raised (IDOverflowError "clock result exceeds the 48-bit timestamp range")
  | _ => Raised (TypeError "clock result must be an integer")
  end.

(** The result of the source of entropy. *)
Definition check_entropy (value : pyval) : outcome pybytes :=
  match value with
  | PyBytes b =>
      if (length b =? 10)%nat then Returned b
      else Raised (InvalidIDError "entropy result must contain exactly 10 bytes")
  | _ => Raised (TypeError "entropy result must be bytes")
  end.

Definition from_bytes (b : pybytes) : Z := foldl (fun acc c => acc * 256 + c) 0 b.

Section Callbacks.
Context {W : Type}.

Definition read_timestamp (clock : M W pyval) : M W Z :=
  value <- clock ;; pure_outcome (check_timestamp value).

Definition read_entropy (random_bytes : Z -> M W pyval) : M W pybytes :=
  value <- random_bytes 10 ;; pure_outcome (check_entropy value).
End Callbacks.

(** ** The text of a ULID *)

(** The loop of [_encode]: the characters at the indices below [index]. *)
Fixpoint encode_loop (index : nat) (value : Z) (output : pystr) : pystr :=
  match index with
  | O => output
  | S i =>
      encode_loop i (Z.shiftr value 5)
        (<[i := nth (Z.to_nat (Z.land value 31)) ALPHABET 0]> output)
  end.

(** [_encode]. *)
Definition encode (timestamp randomness : Z) : pystr :=
  encode_loop ULID_LENGTH (Z.lor (Z.shiftl timestamp 80) randomness) (replicate ULID_LENGTH 48).

(** [_DECODE[character]]. *)
Definition decode_digit (character : Z) : option Z :=
  (fun found => Z.of_nat (fst found)) <$> list_find (fun c => c = character) ALPHABET.

Fixpoint decode_loop (decoded : Z) (value : pystr) : outcome Z :=
  match value with
  | [] => Returned decoded
  | character :: value' =>
      match decode_digit character with
      | None => Raised (InvalidIDError "value must be a canonical ULID")
      | Some digit => decode_loop (Z.lor (Z.shiftl decoded 5) digit) value'
      end
  end.

(** [_decode]. *)
Definition decode (value : pystr) : outcome Z :=
  match decode_loop 0 value with
  | Raised e => Raised e
  | Returned decoded =>
      if Z.shiftl 1 128 <=? decoded
      then Raised (InvalidIDError "value exceeds the canonical ULID range")
      else Returned decoded
  end.

Definition parse_ulid (value : pyval) : outcome pystr :=
  match value with
  | PyStr s =>
      if negb (length s =? ULID_LENGTH)%nat
      then Raised (InvalidIDError "value must contain exactly 26 ULID characters")
      else match decode s with Raised e => Raised e | Returned _ => Returned s end
  | _ => Raised (TypeError "value must be a string")
  end.

Definition ulid_timestamp_ms (value : pyval) : outcome Z :=
  match parse_ulid value with
  | Raised e => Raised e
  | Returned s =>
      match decode s with Raised e => Raised e | Returned decoded => Returned (Z.shiftr decoded 80) end
  end.

(** ** The generators *)

(** The state of a [MonotonicULIDGenerator]. *)
Record UlidState : Type := {
  us_last_ms : option Z;
  us_randomness : Z;
}.

(** The section of [MonotonicULIDGenerator.new] under the lock. *)
Definition monotonic_section (st : UlidState) (observed_ms fresh_randomness : Z)
    : outcome pystr * UlidState :=
  let next (logical_ms randomness : Z) :=
    (Returned (encode logical_ms randomness),
     {| us_last_ms := Some logical_ms; us_randomness := randomness |}) in
  match us_last_ms st with
  | None => next observed_ms fresh_randomness
  | Some last_ms =>
      if last_ms <? observed_ms then next observed_ms fresh_randomness
      else if us_randomness st =? MAX_RANDOMNESS
      then (Raised (IDOverflowError "monotonic ULID randomness is exhausted"), st)
      else next last_ms (us_randomness st + 1)
  end.

(** ** Version 7 UUIDs *)

Definition RAND_A_MASK : Z := Z.shiftl 1 12 - 1.
Definition RAND_B_MASK : Z := Z.shiftl 1 62 - 1.

(** [uuid.UUID(int=...)]: the integer it wraps. *)
Definition uuid_of_int (n : Z) : outcome Z :=
  if (0 <=? n) && (n <? Z.shiftl 1 128) then Returned n
  else Raised (ValueError "int is out of range (need a 128-bit value)").

(** [value.variant == uuid.RFC_4122], and [value.version] of such a value. *)
Definition is_rfc_4122 (n : Z) : bool := Z.testbit n 63 && negb (Z.testbit n 62).
Definition uuid_version (n : Z) : Z := Z.land (Z.shiftr n 76) 15.

(** The state of a [UUID7Generator]. *)
Record Uuid7State : Type := {
  u7_last_ms : option Z;
  u7_counter : Z;
}.

(** The section of [UUID7Generator.new] under the lock. *)
Definition uuid7_section (st : Uuid7State) (observed_ms seed random_bits : Z)
    : outcome Z * Uuid7State :=
  let next (logical_ms counter : Z) :=
    match uuid_of_int
            (Z.lor (Z.lor (Z.lor (Z.lor (Z.shiftl logical_ms 80) (Z.shiftl 7 76))
              (Z.shiftl counter 64)) (Z.shiftl 2 62)) random_bits) with
    | Raised e => (Raised e, st)
    | Returned value =>
        (Returned value, {| u7_last_ms := Some logical_ms; u7_counter := counter |})
    end in
  match u7_last_ms st with
  | None => next observed_ms seed
  | Some last_ms =>
      if last_ms <? observed_ms then next observed_ms seed
      else if u7_counter st <? RAND_A_MASK then next last_ms (u7_counter st + 1)
      else if MAX_TIMESTAMP <? last_ms + 1
      then (Raised (IDOverflowError "UUIDv7 timestamp range is exhausted"), st)
      else next (last_ms + 1) seed
  end.

(** The two parts of the entropy. *)
Definition entropy_seed (entropy : pybytes) : Z := Z.land (from_bytes (take 2 entropy)) RAND_A_MASK.
Definition entropy_bits (entropy : pybytes) : Z := Z.land (from_bytes (drop 2 entropy)) RAND_B_MASK.

(** [new] of the three generators, whose constructor took [clock] and
    [random_bytes]. *)
Section Generators.
Context {W : Type}.
Variables (clock : M W pyval) (random_bytes : Z -> M W pyval).

Definition ulid_new : M W pystr :=
  timestamp <- read_timestamp clock ;;
  entropy <- read_entropy random_bytes ;;
  ret (encode timestamp (from_bytes entropy)).

Definition monotonic_new (state : lens W UlidState) : M W pystr :=
  observed_ms <- read_timestamp clock ;;
  entropy <- read_entropy random_bytes ;;
  r <- locked state (fun st => monotonic_section st observed_ms (from_bytes entropy)) ;;
  pure_outcome r.

Definition uuid7_new (state : lens W Uuid7State) : M W Z :=
  observed_ms <- read_timestamp clock ;;
  entropy <- read_entropy random_bytes ;;
  r <- locked state (fun st =>
         uuid7_section st observed_ms (entropy_seed entropy) (entropy_bits entropy)) ;;
  pure_outcome r.
End Generators.

(** [__init__] of the generators: the validated callbacks, and the first state
    of the two that keep one. *)
Definition make_generator {W} (clock : callback (M W pyval)) (random_bytes : callback (Z -> M W pyval))
    : outcome (M W pyval * (Z -> M W pyval)) :=
  match require_callback clock "clock must be callable" with
  | Raised e => Raised e
  | Returned c =>
      match require_callback random_bytes "random_bytes must be callable" with
      | Raised e => Raised e
      | Returned r => Returned (c, r)
      end
  end.

Definition fresh_ulid_state : UlidState := {| us_last_ms := None; us_randomness := 0 |}.
Definition fresh_uuid7_state : Uuid7State := {| u7_last_ms := None; u7_counter := 0 |}.

(** The hexadecimal digits of [n], [width] of them. *)
Definition hex_digit (d : Z) : Z := if d <? 10 then 48 + d else 87 + d.

Fixpoint hex (width : nat) (n : Z) : pystr :=
  match width with
  | O => []
  | S w => hex w (Z.shiftr n 4) ++ [hex_digit (Z.land n 15)]
  end.

(** [str(value)] of a UUID. *)
Definition uuid_str (n : Z) : pystr :=
  let h := hex 32 n in
  take 8 h ++ [45] ++ take 4 (drop 8 h) ++ [45] ++ take 4 (drop 12 h) ++ [45]
  ++ take 4 (drop 16 h) ++ [45] ++ drop 20 h.

Definition unhex_digit (c : Z) : option Z :=
  if (48 <=? c) && (c <=? 57) then Some (c - 48)
  else if (97 <=? c) && (c <=? 102) then Some (c - 87)
  else if (65 <=? c) && (c <=? 70) then Some (c - 55)
  else None.

Fixpoint unhex (acc : Z) (s : pystr) : option Z :=
  match s with
  | [] => Some acc
  | c :: s' => d ← unhex_digit c; unhex (acc * 16 + d) s'
  end.

(** [uuid.UUID(value)] of a string, without its dashes.  The class takes more
    (a prefix [urn:], braces, the other numerals of [int]), but none of that
    prints back as it was written, so that the caller below rejects it too. *)
Definition uuid_of_str (value : pystr) : option Z :=
  let digits := filter (fun c => c <> 45) value in
  if (length digits =? 32)%nat then unhex 0 digits else None.

(** [value.lower()] of ASCII characters; another character that has a lower
    case is no digit of a UUID either. *)
Definition lower (s : pystr) : pystr :=
  (fun c => if (65 <=? c) && (c <=? 90) then c + 32 else c) <$> s.

Definition NOT_CANONICAL_UUID : exn :=
  InvalidIDError "value must be a canonical lowercase UUIDv7 string".

(** The argument of [uuid7_timestamp_ms]. *)
Inductive uuid_arg : Type :=
| UuidText (s : pystr)
| UuidValue (n : Z)
| NotUuid.

Definition uuid7_timestamp_ms (value : uuid_arg) : outcome Z :=
  let checked parsed :=
    if negb (is_rfc_4122 parsed && (uuid_version parsed =? 7))
    then Raised (InvalidIDError "value must be an RFC UUIDv7")
    else Returned (Z.shiftr parsed 80) in
  match value with
  | UuidText s =>
      if negb (length s =? 36)%nat || negb (bool_decide (s = lower s)) then Raised NOT_CANONICAL_UUID
      else
        match uuid_of_str s with
        | None => Raised NOT_CANONICAL_UUID
        | Some parsed =>
            if negb (bool_decide (uuid_str parsed = s)) then Raised NOT_CANONICAL_UUID
            else checked parsed
        end
  | UuidValue n => checked n
  | NotUuid => Raised (TypeError "value must be a UUID or canonical UUID string")
  end.

Example ulid_example : encode 1469918176385 0 = py "01ARYZ6S410000000000000000".
Proof. vm_compute. reflexivity. Qed.

Example uuid_text : uuid_str (Z.shiftl 7 76) = py "00000000-0000-7000-0000-000000000000".
Proof. reflexivity. Qed.

#[global] Arguments decode_digit : simpl never.
#[global] Arguments encode : simpl never.

(** ** Bits *)

Lemma testbit_small n b i : 0 <= b < 2 ^ n -> n <= i -> Z.testbit b i = false.
Proof.
  intros Hb Hi. destruct (Z.neg_nonneg_cases n) as [Hn|Hn].
  - rewrite Z.pow_neg_r in Hb by done. lia.
  - rewrite <-(Z.mod_small b (2 ^ n)) by done. by apply Z.mod_pow2_bits_high.
Qed.

(** Disjoint bits: [|] is [+]. *)
Lemma lor_shiftl n a b : 0 <= n -> 0 <= b < 2 ^ n -> Z.lor (Z.shiftl a n) b = a * 2 ^ n + b.
Proof.
  intros Hn Hb. rewrite <-Z.shiftl_mul_pow2, Z.add_nocarry_lxor by
    (done || (apply Z.bits_inj'; intros i Hi; rewrite Z.land_spec, Z.shiftl_spec, Z.bits_0 by done;
     destruct (Z.ltb_spec i n);
       [by rewrite Z.testbit_neg_r by lia|by rewrite (testbit_small n b i), andb_false_r])).
  apply Z.bits_inj'. intros i Hi. rewrite Z.lxor_spec, Z.lor_spec, Z.shiftl_spec by done.
  destruct (Z.ltb_spec i n).
  - by rewrite Z.testbit_neg_r, xorb_false_l by lia.
  - by rewrite (testbit_small n b i), xorb_false_r, orb_false_r.
Qed.

Lemma lor_add n a b : 0 <= n -> (2 ^ n | a) -> 0 <= b < 2 ^ n -> Z.lor a b = a + b.
Proof. intros Hn [q ->] Hb. rewrite <-(Z.shiftl_mul_pow2 q n) at 1 by done. by apply lor_shiftl. Qed.

Lemma land_ones_31 v : Z.land v 31 = v mod 32.
Proof. exact (Z.land_ones v 5 ltac:(lia)). Qed.

Lemma land_ones_15 v : Z.land v 15 = v mod 16.
Proof. exact (Z.land_ones v 4 ltac:(lia)). Qed.

(** ** Base 32 *)

(** Every check of a digit is one evaluation over the 32 digits. *)
Lemma digit_cases (P : Z -> Prop) `{!forall d, Decision (P d)} :
  forallb (fun d => bool_decide (P (Z.of_nat d))) (seq 0 32) = true ->
  forall d, 0 <= d < 32 -> P d.
Proof.
  intros Hc d Hd. rewrite forallb_forall in Hc.
  specialize (Hc (Z.to_nat d)). rewrite Z2Nat.id, bool_decide_eq_true in Hc by lia.
  apply Hc, in_seq. lia.
Qed.

Definition digit (v : Z) : Z := nth (Z.to_nat (Z.land v 31)) ALPHABET 0.

Lemma decode_digit_digit v : decode_digit (digit v) = Some (v mod 32).
Proof.
  unfold digit. rewrite land_ones_31.
  apply (digit_cases (fun d => decode_digit (nth (Z.to_nat d) ALPHABET 0) = Some d)).
  - vm_compute. reflexivity.
  - apply Z.mod_pos_bound. lia.
Qed.

(** A character that decodes is the digit of what it decodes to. *)
Lemma decode_digit_inv c d : decode_digit c = Some d -> 0 <= d < 32 /\ digit d = c.
Proof.
  unfold decode_digit. destruct (list_find _ ALPHABET) as [[i x]|] eqn:E; [|done]. intros [= <-].
  apply list_find_Some in E as (Hi & -> & _). pose proof (lookup_lt_Some _ _ _ Hi) as Hl.
  change (length ALPHABET) with 32%nat in Hl. cbn [fst]. split; [lia|].
  unfold digit. rewrite land_ones_31, Z.mod_small, Nat2Z.id by lia. by apply nth_lookup_Some.
Qed.

(** The last [n] digits of [v]. *)
Fixpoint digits (n : nat) (v : Z) : pystr :=
  match n with
  | O => []
  | S n' => digits n' (Z.shiftr v 5) ++ [digit v]
  end.

Lemma length_digits n v : length (digits n v) = n.
Proof. revert v. induction n as [|n IH]; intros v; cbn; [done|]. rewrite length_app, IH. cbn. lia. Qed.

Lemma encode_loop_digits n v output :
  (n <= length output)%nat -> encode_loop n v output = digits n v ++ drop n output.
Proof.
  revert v output. induction n as [|n IH]; intros v output Hn; [done|].
  cbn [encode_loop digits]. rewrite IH by (rewrite length_insert; lia).
  rewrite <-app_assoc. f_equal. rewrite insert_take_drop by lia.
  by rewrite drop_app_length' by (rewrite length_take; lia).
Qed.

Lemma encode_digits timestamp randomness :
  0 <= randomness <= MAX_RANDOMNESS ->
  encode timestamp randomness = digits 26 (timestamp * 2 ^ 80 + randomness).
Proof.
  intros Hr. unfold encode. rewrite encode_loop_digits by done.
  change MAX_RANDOMNESS with (2 ^ 80 - 1) in Hr. rewrite lor_shiftl by lia. apply app_nil_r.
Qed.

Lemma decode_loop_app acc s t :
  decode_loop acc (s ++ t)
  = match decode_loop acc s with Returned acc' => decode_loop acc' t | Raised e => Raised e end.
Proof. revert acc. induction s as [|c s IH]; intros acc; cbn; [done|]. destruct (decode_digit c); [apply IH|done]. Qed.

Lemma pow_32_S n : 2 ^ (5 * Z.of_nat (S n)) = 32 * 2 ^ (5 * Z.of_nat n).
Proof. rewrite Nat2Z.inj_succ, Z.mul_succ_r, Z.pow_add_r by lia. change (2 ^ 5) with 32. lia. Qed.

Lemma decode_loop_digits n acc v :
  0 <= acc -> 0 <= v < 2 ^ (5 * Z.of_nat n) ->
  decode_loop acc (digits n v) = Returned (acc * 2 ^ (5 * Z.of_nat n) + v).
Proof.
  revert v. induction n as [|n IH]; intros v Ha Hv.
  - cbn in *. f_equal. lia.
  - rewrite pow_32_S in *. cbn [digits]. rewrite decode_loop_app, Z.shiftr_div_pow2 by lia.
    change (2 ^ 5) with 32.
    assert (0 <= v / 32 < 2 ^ (5 * Z.of_nat n)) by
      (split; [apply Z.div_pos|apply Z.div_lt_upper_bound]; lia).
    rewrite IH by done.
    cbn [decode_loop]. rewrite decode_digit_digit. f_equal.
    rewrite lor_shiftl by (try apply Z.mod_pos_bound; lia).
    pose proof (Z.div_mod v 32). change (2 ^ 5) with 32. lia.
Qed.

(** Text that decodes is the digits of what it decodes to. *)
Lemma decode_loop_inv s acc v :
  0 <= acc -> decode_loop acc s = Returned v ->
  exists u, 0 <= u < 2 ^ (5 * Z.of_nat (length s)) /\ s = digits (length s) u /\
            v = acc * 2 ^ (5 * Z.of_nat (length s)) + u.
Proof.
  revert v. induction s as [|c s IH] using rev_ind; intros v Ha H.
  - exists 0. cbn in *. injection H as <-. repeat split; lia.
  - rewrite decode_loop_app in H. destruct (decode_loop acc s) as [v'|] eqn:E; [|done].
    destruct (IH v' Ha eq_refl) as (u & Hu & Hs & ->). cbn in H.
    destruct (decode_digit c) as [d|] eqn:Ed; [|done]. injection H as <-.
    apply decode_digit_inv in Ed as [Hd Hc]. exists (u * 32 + d).
    rewrite length_app, Nat.add_comm. cbn [length Nat.add]. rewrite pow_32_S.
    rewrite lor_shiftl by lia. change (2 ^ 5) with 32. split; [lia|]. split; [|lia].
    cbn [digits]. rewrite Z.shiftr_div_pow2 by lia. change (2 ^ 5) with 32.
    rewrite (Z.div_add_l u 32 d), (Z.div_small d 32), Z.add_0_r by lia. rewrite <-Hs. f_equal.
    rewrite <-Hc. unfold digit. rewrite !land_ones_31. f_equal. f_equal. f_equal.
    rewrite Z.add_comm, Z.mod_add by lia. done.
Qed.

(** ** Order *)

(** Comparison of strings by code points. *)
Fixpoint str_lt (s t : pystr) : bool :=
  match s, t with
  | _, [] => false
  | [], _ :: _ => true
  | c :: s', d :: t' => (c <? d) || ((c =? d) && str_lt s' t')
  end.

Lemma str_lt_app s t u v : length s = length t -> str_lt s t = true -> str_lt (s ++ u) (t ++ v) = true.
Proof.
  revert t. induction s as [|c s IH]; intros [|d t] Hl Hlt; try done. cbn in *.
  apply orb_true_iff in Hlt as [Hlt|[Hc Hlt]%andb_true_iff]; [by rewrite Hlt|].
  rewrite Hc, (IH t); [apply orb_true_r|lia|done].
Qed.

Lemma str_lt_same s u v : str_lt (s ++ u) (s ++ v) = str_lt u v.
Proof. induction s as [|c s IH]; [done|]. cbn. by rewrite Z.ltb_irrefl, Z.eqb_refl, IH. Qed.

Lemma str_lt_trans s t u : str_lt s t = true -> str_lt t u = true -> str_lt s u = true.
Proof.
  revert t u. induction s as [|c s IH]; intros [|d t] [|e u] H1 H2; try done. cbn in *.
  apply orb_true_iff in H1, H2. rewrite !andb_true_iff, !Z.ltb_lt, !Z.eqb_eq in *.
  apply orb_true_iff. rewrite andb_true_iff, Z.ltb_lt, Z.eqb_eq.
  destruct H1 as [?|[-> ?]], H2 as [?|[-> ?]]; [left; lia|by left|by left|right; eauto].
Qed.

#[local] Instance str_lt_transitive : Transitive (fun s t => str_lt s t = true).
Proof. intros s t u. apply str_lt_trans. Qed.

Lemma digit_lt a b : a mod 32 < b mod 32 -> digit a < digit b.
Proof.
  intros Hlt. unfold digit. rewrite !land_ones_31.
  assert (forall d, 0 <= d < 32 -> forall e, 0 <= e < 32 -> d < e ->
    nth (Z.to_nat d) ALPHABET 0 < nth (Z.to_nat e) ALPHABET 0) as Hall.
  { intros d Hd e He Hde.
    assert (forall k, (k < 31)%nat -> nth k ALPHABET 0 < nth (S k) ALPHABET 0) as Hs.
    { intros k Hk. do 31 (destruct k as [|k]; [reflexivity|]). lia. }
    assert (forall n m, (n < m <= 31)%nat -> nth n ALPHABET 0 < nth m ALPHABET 0) as Hm.
    { intros n m. induction m as [|m IH]; intros Hnm; [lia|].
      destruct (decide (n = m)) as [->|]; [apply Hs; lia|].
      etrans; [apply IH; lia|apply Hs; lia]. }
    apply Hm. lia. }
  apply Hall; try apply Z.mod_pos_bound; lia.
Qed.

(** The text of a ULID orders as its number does. *)
Lemma digits_lt n a b :
  0 <= a < b -> b < 2 ^ (5 * Z.of_nat n) -> str_lt (digits n a) (digits n b) = true.
Proof.
  revert a b. induction n as [|n IH]; intros a b Hab Hb; [cbn in Hb; lia|].
  rewrite pow_32_S in Hb. cbn [digits]. rewrite !Z.shiftr_div_pow2 by lia. change (2 ^ 5) with 32.
  pose proof (Z.div_mod a 32). pose proof (Z.div_mod b 32).
  pose proof (Z.mod_pos_bound a 32). pose proof (Z.mod_pos_bound b 32).
  destruct (Z.lt_trichotomy (a / 32) (b / 32)) as [Hlt|[He|Hgt]]; [| |lia].
  - apply str_lt_app; [by rewrite !length_digits|]. apply IH; [|apply Z.div_lt_upper_bound; lia].
    split; [apply Z.div_pos; lia|done].
  - rewrite He, str_lt_same. cbn. rewrite (proj2 (Z.ltb_lt _ _)); [done|]. apply digit_lt. lia.
Qed.

(** ** Minting

    Threads run a generator's section one after another, in any order; [xs] are
    the values returned so far, the latest first. *)
Section Minting.
Context {S R A : Type} (section : S -> R -> outcome A * S) (allowed : R -> Prop).

Inductive mint : S * list A -> S * list A -> Prop :=
| minted st xs r a st' :
    allowed r -> section st r = (Returned a, st') -> mint (st, xs) (st', a :: xs)
| refused st xs r e st' :
    allowed r -> section st r = (Raised e, st') -> mint (st, xs) (st', xs).

(** [after st a]: [st] may be the state that minting [a] left. *)
Lemma mint_sorted (I : S -> Prop) (after : S -> A -> Prop) (lt : relation A) `{!Transitive lt} :
  (forall st r, I st -> allowed r ->
     match section st r with
     | (Returned a, st') => I st' /\ after st' a /\ (forall b, after st b -> lt b a)
     | (Raised _, st') => st' = st
     end) ->
  forall st xs st', I st -> rtc mint (st, []) (st', xs) -> I st' /\ StronglySorted (flip lt) xs.
Proof.
  intros Hstep st xs st' HI Hr.
  assert (I st' /\ Sorted (flip lt) xs /\ (forall b, head xs = Some b -> after st' b)) as (? & ? & _).
  { refine (rtc_invariant mint (fun '(st, xs) =>
      I st /\ Sorted (flip lt) xs /\ (forall b, head xs = Some b -> after st b))
      (st, []) (st', xs) _ Hr _); [|by repeat split; [|constructor|]].
    intros [s1 xs1] [s2 xs2] Hm (H1 & H2 & H3). inversion Hm as [? ? r a ? Ha E|? ? r e ? Ha E]; subst.
    - specialize (Hstep s1 r H1 Ha). rewrite E in Hstep. destruct Hstep as (? & Hk2 & Hlt).
      split; [done|]. split; [|by intros b [= <-]]. constructor; [done|].
      destruct xs1 as [|b xs1]; constructor. by apply Hlt, H3.
    - specialize (Hstep s1 r H1 Ha). rewrite E in Hstep. by subst. }
  split; [done|]. apply Sorted_StronglySorted; [|done].
  intros x y z Hxy Hyz. unfold flip in *. by etrans.
Qed.
End Minting.

(** ** The theorems on ULIDs *)

Definition in_ulid_range (timestamp randomness : Z) : Prop :=
  0 <= timestamp <= MAX_TIMESTAMP /\ 0 <= randomness <= MAX_RANDOMNESS.

Lemma ulid_number ts r :
  in_ulid_range ts r ->
  encode ts r = digits 26 (ts * 2 ^ 80 + r) /\ 0 <= ts * 2 ^ 80 + r < 2 ^ 128.
Proof.
  intros [Ht Hr]. split; [by apply encode_digits|].
  change MAX_TIMESTAMP with (2 ^ 48 - 1) in Ht. change MAX_RANDOMNESS with (2 ^ 80 - 1) in Hr. lia.
Qed.

Lemma decode_encode ts r : in_ulid_range ts r -> decode (encode ts r) = Returned (ts * 2 ^ 80 + r).
Proof.
  intros Hr. destruct (ulid_number ts r Hr) as [-> Hn]. unfold decode.
  rewrite decode_loop_digits by (change (5 * Z.of_nat 26) with 130; lia). rewrite Z.mul_0_l, Z.add_0_l.
  destruct (Z.leb_spec (Z.shiftl 1 128) (ts * 2 ^ 80 + r)) as [Hle|]; [|done].
  change (Z.shiftl 1 128) with (2 ^ 128) in Hle. lia.
Qed.

Lemma length_encode ts r : in_ulid_range ts r -> length (encode ts r) = 26%nat.
Proof. intros Hr. destruct (ulid_number ts r Hr) as [-> _]. apply length_digits. Qed.

Lemma ulid_text ts r :
  in_ulid_range ts r ->
  parse_ulid (PyStr (encode ts r)) = Returned (encode ts r) /\
  ulid_timestamp_ms (PyStr (encode ts r)) = Returned ts.
Proof.
  intros Hq.
  assert (parse_ulid (PyStr (encode ts r)) = Returned (encode ts r)) as Hp
    by (unfold parse_ulid; by rewrite length_encode, decode_encode by done).
  split; [done|]. unfold ulid_timestamp_ms. rewrite Hp, decode_encode by done. f_equal.
  destruct Hq as [_ Hq]. change MAX_RANDOMNESS with (2 ^ 80 - 1) in Hq.
  rewrite Z.shiftr_div_pow2, Z.div_add_l, Z.div_small by lia. lia.
Qed.

(** Round trip.  The text of a timestamp and a randomness parses to itself
    and gives the timestamp back; and text that parses is the text of exactly
    one timestamp and randomness in range. *)
Theorem ulid_roundtrip ts r :
  in_ulid_range ts r ->
  parse_ulid (PyStr (encode ts r)) = Returned (encode ts r) /\
  ulid_timestamp_ms (PyStr (encode ts r)) = Returned ts /\
  (forall s v, parse_ulid (PyStr s) = Returned v ->
     v = s /\ exists ts' r', in_ulid_range ts' r' /\ s = encode ts' r' /\
                             ulid_timestamp_ms (PyStr s) = Returned ts').
Proof.
  intros Hr. destruct (ulid_text ts r Hr) as [H1 H2]. split; [done|]. split; [done|].
  intros s v Hp. unfold parse_ulid in Hp.
  destruct (Nat.eqb_spec (length s) ULID_LENGTH) as [Hl|]; [|done]. unfold decode in Hp. cbn [negb] in Hp.
  destruct (decode_loop 0 s) as [n|] eqn:En; [|done].
  destruct (Z.leb_spec (Z.shiftl 1 128) n) as [|Hn]; [done|]. injection Hp as <-. split; [done|].
  apply decode_loop_inv in En as (u & Hu & Hs & ->); [|done]. rewrite Hl in *.
  change (Z.shiftl 1 128) with (2 ^ 128) in Hn. change (5 * Z.of_nat ULID_LENGTH) with 130 in *.
  assert (in_ulid_range (u / 2 ^ 80) (u mod 2 ^ 80)) as Hur.
  { unfold in_ulid_range. change MAX_TIMESTAMP with (2 ^ 48 - 1).
    change MAX_RANDOMNESS with (2 ^ 80 - 1). pose proof (Z.mod_pos_bound u (2 ^ 80)).
    assert (u / 2 ^ 80 < 2 ^ 48) by (apply Z.div_lt_upper_bound; lia).
    assert (0 <= u / 2 ^ 80) by (apply Z.div_pos; lia). lia. }
  exists (u / 2 ^ 80), (u mod 2 ^ 80). split; [done|].
  assert (s = encode (u / 2 ^ 80) (u mod 2 ^ 80)) as Hs'.
  { destruct (ulid_number _ _ Hur) as [-> _]. rewrite Hs. f_equal. pose proof (Z.div_mod u (2 ^ 80)). lia. }
  split; [done|]. rewrite Hs'. apply (ulid_text _ _ Hur).
Qed.

(** What a generator's section may be called with: a checked timestamp and the
    bits of checked entropy. *)
Definition ulid_request (r : Z * Z) : Prop := in_ulid_range r.1 r.2.

Definition ulid_state_ok (st : UlidState) : Prop :=
  0 <= us_randomness st <= MAX_RANDOMNESS /\
  (forall ms, us_last_ms st = Some ms -> 0 <= ms <= MAX_TIMESTAMP).

Definition ulid_after (st : UlidState) (s : pystr) : Prop :=
  exists ms, us_last_ms st = Some ms /\ s = encode ms (us_randomness st).

Lemma encode_lt t1 r1 t2 r2 :
  in_ulid_range t1 r1 -> in_ulid_range t2 r2 -> t1 < t2 \/ (t1 = t2 /\ r1 < r2) ->
  str_lt (encode t1 r1) (encode t2 r2) = true.
Proof.
  intros H1 H2 Hlt. destruct (ulid_number _ _ H1) as [-> ?], (ulid_number _ _ H2) as [-> ?].
  destruct H1 as [_ H1], H2 as [_ H2]. change MAX_RANDOMNESS with (2 ^ 80 - 1) in *.
  apply digits_lt; change (5 * Z.of_nat 26) with 130; lia.
Qed.

Lemma monotonic_section_step st r :
  ulid_state_ok st -> ulid_request r ->
  match monotonic_section st r.1 r.2 with
  | (Returned a, st') =>
      ulid_state_ok st' /\ ulid_after st' a /\ (forall b, ulid_after st b -> str_lt b a = true)
  | (Raised _, st') => st' = st
  end.
Proof.
  intros [Hr Hms] Hreq. destruct r as [t q]. unfold ulid_request in Hreq. cbn in *.
  assert (forall ms q', in_ulid_range ms q' ->
    (forall b, ulid_after st b -> str_lt b (encode ms q') = true) ->
    let st' := {| us_last_ms := Some ms; us_randomness := q' |} in
    ulid_state_ok st' /\ ulid_after st' (encode ms q') /\
    (forall b, ulid_after st b -> str_lt b (encode ms q') = true)) as Hnext.
  { intros ms q' [H1 H2] Hlt. split; [by split; [|intros ? [= <-]]|]. split; [by exists ms|done]. }
  unfold monotonic_section. destruct (us_last_ms st) as [ms|] eqn:Els.
  - specialize (Hms ms eq_refl). destruct (Z.ltb_spec ms t).
    + apply Hnext; [done|]. intros b (ms' & E & ->). assert (ms' = ms) as -> by congruence.
      apply encode_lt; [by split|done|by left].
    + destruct (Z.eqb_spec (us_randomness st) MAX_RANDOMNESS); [done|].
      apply Hnext; [split; lia|]. intros b (ms' & E & ->). assert (ms' = ms) as -> by congruence.
      apply encode_lt; [by split|split; lia|right; lia].
  - apply Hnext; [done|]. intros b (ms' & E & _). congruence.
Qed.

(** [C24] Monotonic ULIDs.  Whatever the threads that share a generator observe
    on its clock, a clock that goes backwards included, each ULID they get is
    greater, as text, than every one returned before it. *)
Theorem monotonic_ulids_increase st xs :
  rtc (mint (fun st r => monotonic_section st r.1 r.2) ulid_request) (fresh_ulid_state, []) (st, xs) ->
  StronglySorted (fun later earlier => str_lt earlier later = true) xs.
Proof.
  intros Hr. apply (mint_sorted _ _ ulid_state_ok ulid_after (fun s t => str_lt s t = true))
    in Hr as [_ Hs]; [done| |].
  - intros st0 r Hok Hreq. by apply monotonic_section_step.
  - split; [done|]. by intros.
Qed.

(** ** The theorems on version 7 UUIDs *)

Definition uuid7_request (r : Z * Z * Z) : Prop :=
  0 <= r.1.1 <= MAX_TIMESTAMP /\ 0 <= r.1.2 <= RAND_A_MASK /\ 0 <= r.2 <= RAND_B_MASK.

Definition uuid7_number (ms counter bits : Z) : Z :=
  ms * 2 ^ 80 + 7 * 2 ^ 76 + counter * 2 ^ 64 + 2 * 2 ^ 62 + bits.

Lemma uuid7_fields ms counter bits :
  uuid7_request (ms, counter, bits) ->
  Z.lor (Z.lor (Z.lor (Z.lor (Z.shiftl ms 80) (Z.shiftl 7 76)) (Z.shiftl counter 64)) (Z.shiftl 2 62)) bits
  = uuid7_number ms counter bits.
Proof.
  intros (Hm & Hc & Hb). cbn in Hm, Hc, Hb. change RAND_A_MASK with 4095 in Hc.
  change RAND_B_MASK with (2 ^ 62 - 1) in Hb. unfold uuid7_number.
  rewrite !Z.shiftl_mul_pow2 by lia.
  rewrite (lor_add 80 (ms * 2 ^ 80)) by (by exists ms || lia).
  rewrite (lor_add 76 (_ + _)) by ((exists (ms * 2 ^ 4 + 7); lia) || lia).
  rewrite (lor_add 64 (_ + _)) by ((exists (ms * 2 ^ 16 + 7 * 2 ^ 12 + counter); lia) || lia).
  rewrite (lor_add 62 (_ + _))
    by ((exists (ms * 2 ^ 18 + 7 * 2 ^ 14 + counter * 4 + 2); lia) || lia).
  done.
Qed.

Lemma uuid7_number_range ms counter bits :
  uuid7_request (ms, counter, bits) -> 0 <= uuid7_number ms counter bits < 2 ^ 128.
Proof.
  intros (Hm & Hc & Hb). cbn in Hm, Hc, Hb. change RAND_A_MASK with 4095 in Hc.
  change RAND_B_MASK with (2 ^ 62 - 1) in Hb. change MAX_TIMESTAMP with (2 ^ 48 - 1) in Hm.
  unfold uuid7_number. lia.
Qed.

(** A UUID of a generator is of version 7 and of the RFC's variant. *)
Lemma uuid7_number_version ms counter bits :
  uuid7_request (ms, counter, bits) ->
  is_rfc_4122 (uuid7_number ms counter bits) = true /\
  uuid_version (uuid7_number ms counter bits) = 7 /\
  Z.shiftr (uuid7_number ms counter bits) 80 = ms.
Proof.
  intros Hr. pose proof (uuid7_number_range _ _ _ Hr) as Hn. destruct Hr as (Hm & Hc & Hb).
  cbn in Hm, Hc, Hb. change RAND_A_MASK with 4095 in Hc. change RAND_B_MASK with (2 ^ 62 - 1) in Hb.
  unfold is_rfc_4122, uuid_version. rewrite land_ones_15, !Z.shiftr_div_pow2 by lia.
  unfold uuid7_number in *.
  split; [|split; [|symmetry; apply (Z.div_unique _ _ _ (7 * 2 ^ 76 + counter * 2 ^ 64 + 2 * 2 ^ 62 + bits)); lia]].
  - apply andb_true_iff. split; [|apply negb_true_iff].
    + apply Z.testbit_true; [lia|].
      rewrite <-(Z.div_unique _ (2 ^ 63) (ms * 2 ^ 17 + 7 * 2 ^ 13 + counter * 2 + 1) bits) by lia.
      symmetry. apply (Z.mod_unique _ _ (ms * 2 ^ 16 + 7 * 2 ^ 12 + counter)); lia.
    + apply Z.testbit_false; [lia|].
      rewrite <-(Z.div_unique _ (2 ^ 62) (ms * 2 ^ 18 + 7 * 2 ^ 14 + counter * 4 + 2) bits) by lia.
      symmetry. apply (Z.mod_unique _ _ (ms * 2 ^ 17 + 7 * 2 ^ 13 + counter * 2 + 1)); lia.
  - rewrite <-(Z.div_unique _ (2 ^ 76) (ms * 2 ^ 4 + 7) (counter * 2 ^ 64 + 2 * 2 ^ 62 + bits)) by lia.
    symmetry. apply (Z.mod_unique _ _ ms); lia.
Qed.

Definition uuid7_state_ok (st : Uuid7State) : Prop :=
  0 <= u7_counter st <= RAND_A_MASK /\
  (forall ms, u7_last_ms st = Some ms -> 0 <= ms <= MAX_TIMESTAMP).

(** The section answers with the fields it stores, or refuses at the end of the
    48-bit range. *)
Lemma uuid7_section_run st observed seed bits :
  uuid7_state_ok st -> uuid7_request (observed, seed, bits) ->
  (exists e, uuid7_section st observed seed bits = (Raised e, st) /\
             u7_last_ms st = Some MAX_TIMESTAMP /\ u7_counter st = RAND_A_MASK) \/
  (exists ms counter,
     uuid7_section st observed seed bits
     = (Returned (uuid7_number ms counter bits), {| u7_last_ms := Some ms; u7_counter := counter |}) /\
     uuid7_request (ms, counter, bits) /\ observed <= ms /\
     (forall last, u7_last_ms st = Some last -> last < ms \/ (last = ms /\ u7_counter st < counter))).
Proof.
  intros [Hc Hms] Hr. pose proof Hr as (Ho & Hs & Hb). cbn in Ho, Hs, Hb.
  assert (forall ms counter, uuid7_request (ms, counter, bits) ->
    uuid_of_int (Z.lor (Z.lor (Z.lor (Z.lor (Z.shiftl ms 80) (Z.shiftl 7 76)) (Z.shiftl counter 64))
      (Z.shiftl 2 62)) bits) = Returned (uuid7_number ms counter bits)) as Hok.
  { intros ms counter Hreq. rewrite uuid7_fields by done. apply uuid7_number_range in Hreq.
    unfold uuid_of_int. change (Z.shiftl 1 128) with (2 ^ 128).
    by rewrite (proj2 (Z.leb_le _ _)), (proj2 (Z.ltb_lt _ _)) by lia. }
  unfold uuid7_section. destruct (u7_last_ms st) as [last|] eqn:El.
  - specialize (Hms last eq_refl). destruct (Z.ltb_spec last observed) as [Hlt|Hge].
    { rewrite Hok by done. right. exists observed, seed. split_and!; [done|done|lia|].
      intros ? [= <-]. by left. }
    destruct (Z.ltb_spec (u7_counter st) RAND_A_MASK) as [Hroom|Hfull].
    + assert (uuid7_request (last, u7_counter st + 1, bits)) by (repeat split; cbn; lia).
      rewrite Hok by done. right. eexists _, _. split_and!; [done|done|lia|].
      intros ? [= <-]. right. lia.
    + destruct (Z.ltb_spec MAX_TIMESTAMP (last + 1)).
      { left. eexists. split; [done|]. split; [f_equal; lia|lia]. }
      assert (uuid7_request (last + 1, seed, bits)) by (repeat split; cbn; lia).
      rewrite Hok by done. right. eexists _, _. split_and!; [done|done|lia|].
      intros ? [= <-]. left. lia.
  - rewrite Hok by done. right. exists observed, seed. by split_and!.
Qed.

Definition uuid7_after (st : Uuid7State) (n : Z) : Prop :=
  exists ms bits, u7_last_ms st = Some ms /\ uuid7_request (ms, u7_counter st, bits) /\
                  n = uuid7_number ms (u7_counter st) bits.

(** Monotonic UUIDs.  Whatever the threads that share a generator observe
    on its clock, each UUID they get is greater than every one returned before
    it. *)
Theorem uuid7_increase st xs :
  rtc (mint (fun st r => uuid7_section st r.1.1 r.1.2 r.2) uuid7_request)
    (fresh_uuid7_state, []) (st, xs) ->
  StronglySorted (fun later earlier => earlier < later) xs.
Proof.
  intros Hr. apply (mint_sorted _ _ uuid7_state_ok uuid7_after Z.lt) in Hr as [_ Hs]; [done| |].
  - intros st0 [[ms seed] bits] Hok Hreq. cbn [fst snd].
    destruct (uuid7_section_run st0 ms seed bits Hok Hreq)
      as [(e & -> & _)|(ms' & counter & -> & Hreq' & _ & Hlt)]; [done|].
    pose proof Hreq' as (H1 & H2 & H3). cbn in H1, H2, H3.
    split; [by split; [|intros ? [= <-]]|]. split; [by exists ms', bits|].
    intros b (last & bits' & El & (H1' & H2' & H3') & ->). cbn in H1', H2', H3'.
    specialize (Hlt last El). unfold uuid7_number. change RAND_A_MASK with 4095 in *.
    change RAND_B_MASK with (2 ^ 62 - 1) in *. lia.
  - split; [done|]. by intros.
Qed.

(** ** Hexadecimal text *)

Lemma length_hex w n : length (hex w n) = w.
Proof. revert n. induction w as [|w IH]; intros n; cbn; [done|]. rewrite length_app, IH. cbn. lia. Qed.

Lemma hex_digit_shape d :
  0 <= d < 16 -> 48 <= hex_digit d <= 57 \/ 97 <= hex_digit d <= 102.
Proof. intros Hd. unfold hex_digit. destruct (Z.ltb_spec d 10); lia. Qed.

Lemma hex_shape w n : Forall (fun c => 48 <= c <= 57 \/ 97 <= c <= 102) (hex w n).
Proof.
  revert n. induction w as [|w IH]; intros n; cbn; [done|]. apply Forall_app_2; [done|].
  apply Forall_singleton, hex_digit_shape. rewrite land_ones_15.
  apply Z.mod_pos_bound. lia.
Qed.

Lemma unhex_app acc s t :
  unhex acc (s ++ t) = acc' ← unhex acc s; unhex acc' t.
Proof.
  revert acc. induction s as [|c s IH]; intros acc; [done|]. cbn.
  destruct (unhex_digit c); cbn; [apply IH|done].
Qed.

Lemma unhex_hex w acc n :
  0 <= n < 2 ^ (4 * Z.of_nat w) -> unhex acc (hex w n) = Some (acc * 2 ^ (4 * Z.of_nat w) + n).
Proof.
  revert n. induction w as [|w IH]; intros n Hn.
  - cbn in *. f_equal. lia.
  - assert (2 ^ (4 * Z.of_nat (S w)) = 16 * 2 ^ (4 * Z.of_nat w)) as Hp.
    { rewrite Nat2Z.inj_succ, Z.mul_succ_r, Z.pow_add_r by lia. change (2 ^ 4) with 16. lia. }
    rewrite Hp in *. cbn [hex]. rewrite unhex_app, Z.shiftr_div_pow2 by lia. change (2 ^ 4) with 16.
    assert (0 <= n / 16 < 2 ^ (4 * Z.of_nat w)) by
      (split; [apply Z.div_pos|apply Z.div_lt_upper_bound]; lia).
    rewrite IH by done. cbn -[Z.land Z.mul]. rewrite land_ones_15.
    pose proof (Z.mod_pos_bound n 16). pose proof (Z.div_mod n 16). unfold unhex_digit, hex_digit.
    destruct (Z.ltb_spec (n mod 16) 10);
      repeat (rewrite ?(proj2 (Z.leb_le _ _)), ?(proj2 (Z.leb_gt _ _)) by lia; cbn -[Z.mul]);
      f_equal; lia.
Qed.

Lemma filter_id {A} (P : A -> Prop) `{!forall x, Decision (P x)} l : Forall P l -> filter P l = l.
Proof. induction 1 as [|x l Hx _ IH]; [done|]. by rewrite filter_cons_True, IH. Qed.

Lemma take_drop_next {A} i k (l : list A) : take k (drop i l) ++ drop (i + k) l = drop i l.
Proof. by rewrite <-drop_drop, take_drop. Qed.

(** Text of a UUID without its dashes. *)
Lemma uuid_str_digits n : filter (fun c => c <> 45) (uuid_str n) = hex 32 n.
Proof.
  assert (forall s, s `sublist_of` hex 32 n -> filter (fun c => c <> 45) s = s) as Hf.
  { intros s Hs. apply filter_id, Forall_forall. intros x Hx.
    pose proof (hex_shape 32 n) as Hall. rewrite Forall_forall in Hall.
    assert (x ∈ hex 32 n) as Hin by (by eapply elem_of_submseteq; [|apply sublist_submseteq]).
    specialize (Hall x Hin). cbn in Hall. lia. }
  unfold uuid_str. cbv zeta. rewrite !filter_app.
  assert (forall i k, filter (fun c => c <> 45) (take k (drop i (hex 32 n))) = take k (drop i (hex 32 n)))
    as Hm by (intros; apply Hf; etrans; [apply sublist_take|apply sublist_drop]).
  rewrite !Hm, (Hf (take _ _)), (Hf (drop _ _)) by (apply sublist_take || apply sublist_drop).
  change (filter (fun c => c <> 45) [45]) with (@nil Z). cbn [app].
  pose proof (fun i => take_drop_next i 4 (hex 32 n)) as Hn.
  pose proof (Hn 16%nat) as E16. pose proof (Hn 12%nat) as E12. pose proof (Hn 8%nat) as E8.
  change (16 + 4)%nat with 20%nat in E16. change (12 + 4)%nat with 16%nat in E12.
  change (8 + 4)%nat with 12%nat in E8. by rewrite E16, E12, E8, take_drop.
Qed.

Lemma length_uuid_str n : length (uuid_str n) = 36%nat.
Proof.
  unfold uuid_str. cbv zeta. by rewrite !length_app, !length_take, !length_drop, length_hex.
Qed.

Lemma uuid_str_lower n : lower (uuid_str n) = uuid_str n.
Proof.
  assert (Forall (fun c => c < 65 \/ 90 < c) (hex 32 n)) as Hall
    by (eapply Forall_impl; [apply hex_shape|cbn; lia]).
  assert (Forall (fun c => c < 65 \/ 90 < c) (uuid_str n)) as Hs.
  { unfold uuid_str. cbv zeta. repeat apply Forall_app_2; auto using Forall_take, Forall_drop;
      apply Forall_singleton; lia. }
  unfold lower. induction Hs as [|c s Hc _ IH]; [done|]. rewrite fmap_cons, IH. f_equal.
  destruct (Z.leb_spec 65 c), (Z.leb_spec c 90); cbn; lia.
Qed.

Lemma uuid_of_str_str n : 0 <= n < 2 ^ 128 -> uuid_of_str (uuid_str n) = Some n.
Proof.
  intros Hn. unfold uuid_of_str. rewrite uuid_str_digits, length_hex.
  change (32 =? 32)%nat with true. by rewrite unhex_hex.
Qed.

Lemma uuid7_read_value ms counter bits :
  uuid7_request (ms, counter, bits) ->
  uuid7_timestamp_ms (UuidValue (uuid7_number ms counter bits)) = Returned ms.
Proof.
  intros Hr. destruct (uuid7_number_version _ _ _ Hr) as (H1 & H2 & H3).
  unfold uuid7_timestamp_ms. by rewrite H1, H2, H3.
Qed.

Lemma uuid7_read_text n :
  0 <= n < 2 ^ 128 -> uuid7_timestamp_ms (UuidText (uuid_str n)) = uuid7_timestamp_ms (UuidValue n).
Proof.
  intros Hn. unfold uuid7_timestamp_ms. rewrite length_uuid_str, uuid_str_lower, uuid_of_str_str by done.
  rewrite !bool_decide_eq_true_2 by done. done.
Qed.

(** ** What the methods return *)

(** A source of entropy whose [bytes] are bytes. *)
Definition honest_bytes {W} (random_bytes : Z -> M W pyval) : Prop :=
  forall n w b w', random_bytes n w = (Returned (PyBytes b), w') -> Forall (fun c => 0 <= c < 256) b.

Lemma from_bytes_app b c : from_bytes (b ++ [c]) = from_bytes b * 256 + c.
Proof. unfold from_bytes. by rewrite foldl_app. Qed.

Lemma from_bytes_range b :
  Forall (fun c => 0 <= c < 256) b -> 0 <= from_bytes b < 2 ^ (8 * Z.of_nat (length b)).
Proof.
  induction b as [|c b IH] using rev_ind; intros Hb; [cbn; lia|].
  apply Forall_app in Hb as [Hb Hc]. apply Forall_cons in Hc as [Hc _]. specialize (IH Hb).
  rewrite from_bytes_app, length_app, Nat2Z.inj_add, Z.mul_add_distr_l, Z.pow_add_r by lia.
  change (2 ^ (8 * Z.of_nat (length [c]))) with 256. lia.
Qed.

Section Methods.
Context {W : Type}.
Variables (clock : M W pyval) (random_bytes : Z -> M W pyval).

Lemma read_timestamp_returned w t w' :
  read_timestamp clock w = (Returned t, w') ->
  clock w = (Returned (PyInt t), w') /\ 0 <= t <= MAX_TIMESTAMP.
Proof.
  unfold read_timestamp, bind, pure_outcome. destruct (clock w) as [[v|] w1]; [|done].
  destruct v as [| |z| | | |]; cbn; try done.
  destruct (Z.leb_spec 0 z), (Z.leb_spec z MAX_TIMESTAMP); cbn; try done. by intros [= -> ->].
Qed.

Lemma read_entropy_returned w b w' :
  honest_bytes random_bytes -> read_entropy random_bytes w = (Returned b, w') ->
  length b = 10%nat /\ Forall (fun c => 0 <= c < 256) b.
Proof.
  intros Hh. unfold read_entropy, bind, pure_outcome.
  destruct (random_bytes 10 w) as [[v|] w1] eqn:E; [|done]. destruct v as [| | | | |l|]; cbn; try done.
  destruct (Nat.eqb_spec (length l) 10); [|done]. intros [= -> ->]. split; [done|]. by eapply Hh.
Qed.

Lemma entropy_randomness b :
  length b = 10%nat -> Forall (fun c => 0 <= c < 256) b -> 0 <= from_bytes b <= MAX_RANDOMNESS.
Proof.
  intros Hl Hb. apply from_bytes_range in Hb. rewrite Hl in Hb.
  change (8 * Z.of_nat 10) with 80 in Hb. change MAX_RANDOMNESS with (2 ^ 80 - 1). lia.
Qed.

Lemma masked n k : 0 <= k -> 0 <= Z.land n (Z.shiftl 1 k - 1) <= Z.shiftl 1 k - 1.
Proof.
  intros Hk. rewrite Z.shiftl_1_l. change (2 ^ k - 1) with (Z.pred (2 ^ k)).
  rewrite <-Z.ones_equiv, Z.land_ones, Z.ones_equiv by done.
  pose proof (Z.mod_pos_bound n (2 ^ k)). pose proof (Z.pow_pos_nonneg 2 k). lia.
Qed.

(** [C25] Every identifier that [new] returns is well formed.  A ULID parses,
    and its timestamp is the one the clock gave; a UUID is of version 7, and
    its timestamp, read from the value and from its text, lies in 48 bits and is
    no earlier than the clock. *)
Theorem generated_ids_valid (state : lens W Uuid7State) `{!LensLaws state} w w' :
  honest_bytes random_bytes ->
  (forall s, ulid_new clock random_bytes w = (Returned s, w') ->
     parse_ulid (PyStr s) = Returned s /\
     exists t w1, clock w = (Returned (PyInt t), w1) /\ ulid_timestamp_ms (PyStr s) = Returned t) /\
  (forall n, keeps (fun w => uuid7_state_ok (lget state w)) clock ->
     (forall k, keeps (fun w => uuid7_state_ok (lget state w)) (random_bytes k)) ->
     uuid7_state_ok (lget state w) ->
     uuid7_new clock random_bytes state w = (Returned n, w') ->
     exists t w1 ms, clock w = (Returned (PyInt t), w1) /\ t <= ms <= MAX_TIMESTAMP /\
       uuid7_timestamp_ms (UuidValue n) = Returned ms /\
       uuid7_timestamp_ms (UuidText (uuid_str n)) = Returned ms).
Proof.
  intros Hh. split.
  - intros s H. unfold ulid_new, bind in H.
    destruct (read_timestamp clock w) as [[t|] w1] eqn:Et; [|done].
    apply read_timestamp_returned in Et as [Ec Ht].
    destruct (read_entropy random_bytes w1) as [[b|] w2] eqn:Eb; [|done].
    apply read_entropy_returned in Eb as [Hl Hb]; [|done]. injection H as <- _.
    assert (in_ulid_range t (from_bytes b)) as Hr by (split; [done|by apply entropy_randomness]).
    destruct (ulid_text _ _ Hr). eauto 10.
  - intros n Hkc Hkr Hok H. unfold uuid7_new, bind in H.
    destruct (read_timestamp clock w) as [[t|] w1] eqn:Et; [|done].
    apply read_timestamp_returned in Et as [Ec Ht].
    destruct (read_entropy random_bytes w1) as [[b|] w2] eqn:Eb; [|done].
    assert (uuid7_state_ok (lget state w2)) as Hok2.
    { specialize (Hkc w Hok). rewrite Ec in Hkc. apply settled_returned in Hkc.
      specialize (Hkr 10 w1 Hkc). unfold read_entropy, bind, pure_outcome in Eb. cbn in Hkr.
      destruct (random_bytes 10 w1) as [[v|] w3]; [|done]. injection Eb as _ <-.
      by apply settled_returned in Hkr. }
    apply read_entropy_returned in Eb as [Hl Hb]; [|done].
    unfold locked, pure_outcome in H.
    assert (uuid7_request (t, entropy_seed b, entropy_bits b)) as Hreq
      by (split; [done|]; split; apply masked; lia).
    destruct (uuid7_section_run (lget state w2) t _ _ Hok2 Hreq)
      as [(e & E & _)|(ms & counter & E & Hreq' & Hle & _)]; rewrite E in H; [done|].
    injection H as <- _. exists t, w1, ms. split; [done|]. split; [split; [done|apply Hreq']|].
    rewrite uuid7_read_text by by apply uuid7_number_range. by rewrite uuid7_read_value.
Qed.
End Methods.

(** ** Witnesses *)

Section Witnesses.
Lemma ulid_roundtrip_witness : ulid_timestamp_ms (PyStr (encode 1469918176385 7)) = Returned 1469918176385.
Proof.
  apply (ulid_roundtrip 1469918176385 7). unfold in_ulid_range. split; vm_compute; split; discriminate.
Defined.

(** A clock that goes backwards: 5 ms, then 3 ms. *)
Definition iw_state : UlidState := {| us_last_ms := Some 5; us_randomness := 10 |}.

Lemma monotonic_ulids_increase_witness : str_lt (encode 5 9) (encode 5 10) = true.
Proof.
  assert (rtc (mint (fun st r => monotonic_section st r.1 r.2) ulid_request) (fresh_ulid_state, [])
    (iw_state, [encode 5 10; encode 5 9])) as Hr.
  { eapply rtc_l; [apply (minted _ _ fresh_ulid_state [] (5, 9)); [|reflexivity]|].
    - unfold ulid_request, in_ulid_range. split; vm_compute; split; discriminate.
    - eapply rtc_once, (minted _ _ _ _ (3, 44)); [|reflexivity].
      unfold ulid_request, in_ulid_range. split; vm_compute; split; discriminate. }
  pose proof (monotonic_ulids_increase _ _ Hr) as Hs.
  apply StronglySorted_inv in Hs as [_ Hs]. exact (Forall_inv Hs).
Defined.

Definition iw_uuid_state : Uuid7State := {| u7_last_ms := Some 6; u7_counter := 1 |}.

(** The counter is full at 5 ms: the next UUID is of 6 ms. *)
Lemma uuid7_increase_witness : uuid7_number 5 4095 7 < uuid7_number 6 1 2.
Proof.
  assert (rtc (mint (fun st r => uuid7_section st r.1.1 r.1.2 r.2) uuid7_request) (fresh_uuid7_state, [])
    (iw_uuid_state, [uuid7_number 6 1 2; uuid7_number 5 4095 7])) as Hr.
  { eapply rtc_l; [apply (minted _ _ fresh_uuid7_state [] (5, 4095, 7)); [|reflexivity]|].
    - unfold uuid7_request. split_and!; vm_compute; discriminate.
    - eapply rtc_once, (minted _ _ _ _ (5, 1, 2)); [|reflexivity].
      unfold uuid7_request. split_and!; vm_compute; discriminate. }
  pose proof (uuid7_increase _ _ Hr) as Hs.
  apply StronglySorted_inv in Hs as [_ Hs]. exact (Forall_inv Hs).
Defined.

Definition iw_clock : M Uuid7State pyval := ret (PyInt 1469918176385).
Definition iw_bytes (n : Z) : M Uuid7State pyval := ret (PyBytes (replicate (Z.to_nat n) 255)).

Lemma generated_ids_valid_witness :
  exists n w', uuid7_new iw_clock iw_bytes id_lens fresh_uuid7_state = (Returned n, w') /\
  exists t w1 ms, iw_clock fresh_uuid7_state = (Returned (PyInt t), w1) /\ t <= ms <= MAX_TIMESTAMP /\
    uuid7_timestamp_ms (UuidValue n) = Returned ms /\
    uuid7_timestamp_ms (UuidText (uuid_str n)) = Returned ms.
Proof.
  eexists _, _. split; [reflexivity|].
  refine (proj2 (generated_ids_valid iw_clock iw_bytes id_lens fresh_uuid7_state _ _) _ _ _ _ eq_refl).
  - intros n w b w' [= <- _]. apply Forall_replicate. done.
  - apply keeps_ret.
  - intros k. apply keeps_ret.
  - split; [by vm_compute|]. by intros.
Defined.
End Witnesses.
