(* ===== verification/Utf8.v ===== *)
(** * Text as bytes

    [str.encode] and [bytes.decode] of the standard library for the two
    encodings the sources name, ASCII and UTF-8: strict, so that surrogates,
    overlong forms and numbers beyond the last code point are refused.  [None]
    is the [UnicodeEncodeError] or [UnicodeDecodeError]. *)

From S2P Require Import Prelude Python Leader LeaseRecord.
Open Scope Z_scope.

(** [s.encode("ascii")] and [b.decode("ascii")]. *)
Definition ascii_encode (s : pystr) : option pybytes := if is_ascii s then Some s else None.
Definition ascii_decode (b : pybytes) : option pystr := if is_ascii b then Some b else None.

Definition is_surrogate (c : Z) : bool := (55296 <=? c) && (c <=? 57343).

(** The bytes of one character. *)
Definition utf8_char (c : Z) : option pybytes :=
  if (c <? 0) || is_surrogate c || (1114111 <? c) then None
  else if c <? 128 then Some [c]
  else if c <? 2048 then Some [192 + c / 64; 128 + c mod 64]
  else if c <? 65536 then Some [224 + c / 4096; 128 + c / 64 mod 64; 128 + c mod 64]
  else Some [240 + c / 262144; 128 + c / 4096 mod 64; 128 + c / 64 mod 64; 128 + c mod 64].

(** [s.encode("utf-8")]. *)
Fixpoint utf8_encode (s : pystr) : option pybytes :=
  match s with
  | [] => Some []
  | c :: s' => b ← utf8_char c; rest ← utf8_encode s'; Some (b ++ rest)
  end.

(** A continuation byte. *)
Definition is_tail (b : Z) : bool := (128 <=? b) && (b <=? 191).

(** The character of the first byte and the continuation bytes after it, with
    the least number that needs so many. *)
Definition utf8_two (b0 b1 : Z) : option Z :=
  let c := (b0 - 192) * 64 + (b1 - 128) in
  if (192 <=? b0) && (b0 <=? 223) && is_tail b1 && (128 <=? c) then Some c else None.

Definition utf8_three (b0 b1 b2 : Z) : option Z :=
  let c := (b0 - 224) * 4096 + (b1 - 128) * 64 + (b2 - 128) in
  if (224 <=? b0) && (b0 <=? 239) && is_tail b1 && is_tail b2 && (2048 <=? c)
     && negb (is_surrogate c)
  then Some c else None.

Definition utf8_four (b0 b1 b2 b3 : Z) : option Z :=
  let c := (b0 - 240) * 262144 + (b1 - 128) * 4096 + (b2 - 128) * 64 + (b3 - 128) in
  if (240 <=? b0) && (b0 <=? 247) && is_tail b1 && is_tail b2 && is_tail b3 && (65536 <=? c)
     && (c <=? 1114111)
  then Some c else None.

(** [b.decode("utf-8")]. *)
Fixpoint utf8_decode (b : pybytes) : option pystr :=
  match b with
  | [] => Some []
  | b0 :: r0 =>
      if (0 <=? b0) && (b0 <? 128) then cons b0 <$> utf8_decode r0
      else
        match r0 with
        | [] => None
        | b1 :: r1 =>
            match utf8_two b0 b1 with
            | Some c => cons c <$> utf8_decode r1
            | None =>
                match r1 with
                | [] => None
                | b2 :: r2 =>
                    match utf8_three b0 b1 b2 with
                    | Some c => cons c <$> utf8_decode r2
                    | None =>
                        match r2 with
                        | [] => None
                        | b3 :: r3 =>
                            match utf8_four b0 b1 b2 b3 with
                            | Some c => cons c <$> utf8_decode r3
                            | None => None
                            end
                        end
                    end
                end
            end
        end
  end.

Example utf8_euro : utf8_encode [8364; 65; 128512] = Some [226; 130; 172; 65; 240; 159; 152; 128].
Proof. reflexivity. Qed.

Example utf8_euro_back : utf8_decode [226; 130; 172; 65; 240; 159; 152; 128] = Some [8364; 65; 128512].
Proof. reflexivity. Qed.

Example utf8_overlong : utf8_decode [192; 128] = None /\ utf8_decode [237; 160; 128] = None.
Proof. done. Qed.

(** ** Characters *)

Ltac char_bounds := unfold is_surrogate, is_tail in *; repeat (bool_to_prop; match goal with
  | H : _ \/ _ |- _ => destruct H
  | H : _ /\ _ |- _ => destruct H
  end); bool_to_prop.

Ltac divide := Z.to_euclidean_division_equations; lia.

Lemma utf8_two_char b0 b1 c :
  utf8_two b0 b1 = Some c <-> 128 <= c < 2048 /\ b0 = 192 + c / 64 /\ b1 = 128 + c mod 64.
Proof.
  unfold utf8_two. cbv zeta. destruct (_ && _) eqn:E.
  - char_bounds. split; [intros [= <-]; divide|]. intros. f_equal. divide.
  - split; [done|]. intros (Hc & -> & ->). exfalso. revert E. apply not_false_iff_true.
    unfold is_tail. rewrite !andb_true_iff, !Z.leb_le. divide.
Qed.

Lemma utf8_three_char b0 b1 b2 c :
  utf8_three b0 b1 b2 = Some c <->
  2048 <= c < 65536 /\ is_surrogate c = false /\
  b0 = 224 + c / 4096 /\ b1 = 128 + c / 64 mod 64 /\ b2 = 128 + c mod 64.
Proof.
  unfold utf8_three. cbv zeta. set (c' := _ + _). destruct (_ && _) eqn:E.
  - apply andb_true_iff in E as [E Hs]. apply negb_true_iff in Hs. unfold is_tail in E.
    rewrite !andb_true_iff, !Z.leb_le in E. split.
    + intros [= <-]. split; [unfold c'; lia|]. split; [done|]. unfold c'. divide.
    + intros (Hc & _ & Hb0 & Hb1 & Hb2). f_equal. unfold c'. divide.
  - split; [done|]. intros (Hc & Hs & Hb0 & Hb1 & Hb2). exfalso. revert E.
    assert (c' = c) as -> by (unfold c'; divide). apply not_false_iff_true. rewrite Hs.
    unfold is_tail. rewrite !andb_true_iff, !Z.leb_le. split; [|done]. divide.
Qed.

Lemma utf8_four_char b0 b1 b2 b3 c :
  utf8_four b0 b1 b2 b3 = Some c <->
  65536 <= c <= 1114111 /\ b0 = 240 + c / 262144 /\ b1 = 128 + c / 4096 mod 64 /\
  b2 = 128 + c / 64 mod 64 /\ b3 = 128 + c mod 64.
Proof.
  unfold utf8_four. cbv zeta. set (c' := _ + _). destruct (_ && _) eqn:E.
  - unfold is_tail in E. rewrite !andb_true_iff, !Z.leb_le in E. split.
    + intros [= <-]. unfold c' in *. divide.
    + intros (Hc & Hb0 & Hb1 & Hb2 & Hb3). f_equal. unfold c' in *. divide.
  - split; [done|]. intros (Hc & Hb0 & Hb1 & Hb2 & Hb3). exfalso. revert E.
    assert (c' = c) as -> by (unfold c'; divide). apply not_false_iff_true.
    unfold is_tail. rewrite !andb_true_iff, !Z.leb_le. divide.
Qed.

(** The first byte tells how many bytes a character has. *)
Lemma utf8_two_none b0 b1 : 224 <= b0 -> utf8_two b0 b1 = None.
Proof.
  intros Hb. destruct (utf8_two b0 b1) as [c|] eqn:E; [|done].
  apply utf8_two_char in E as (Hc & -> & _). divide.
Qed.

Lemma utf8_three_none b0 b1 b2 : 240 <= b0 -> utf8_three b0 b1 b2 = None.
Proof.
  intros Hb. destruct (utf8_three b0 b1 b2) as [c|] eqn:E; [|done].
  apply utf8_three_char in E as (Hc & _ & -> & _). divide.
Qed.

Lemma not_ascii b0 : 128 <= b0 -> (0 <=? b0) && (b0 <? 128) = false.
Proof. intros. apply andb_false_iff. right. apply Z.ltb_ge. lia. Qed.

Lemma utf8_decode_char c b rest :
  utf8_char c = Some b -> utf8_decode (b ++ rest) = cons c <$> utf8_decode rest.
Proof.
  unfold utf8_char. destruct (_ || _) eqn:E; [done|].
  apply orb_false_iff in E as [[E0 Es]%orb_false_iff Em]. apply Z.ltb_ge in E0, Em.
  destruct (Z.ltb_spec c 128) as [H1|H1].
  { intros [= <-]. cbn -[utf8_two]. by rewrite (proj2 (Z.leb_le _ _)), (proj2 (Z.ltb_lt _ _)) by lia. }
  destruct (Z.ltb_spec c 2048) as [H2|H2].
  { intros [= <-]. cbn -[utf8_two Z.div Z.modulo Z.add].
    rewrite not_ascii by divide. by rewrite (proj2 (utf8_two_char _ _ c)) by done. }
  destruct (Z.ltb_spec c 65536) as [H3|H3].
  - intros [= <-]. cbn -[utf8_two utf8_three Z.div Z.modulo Z.add].
    rewrite not_ascii, utf8_two_none by divide.
    by rewrite (proj2 (utf8_three_char _ _ _ c)) by (split; [lia|done]).
  - intros [= <-]. cbn -[utf8_two utf8_three utf8_four Z.div Z.modulo Z.add].
    rewrite not_ascii, utf8_two_none, utf8_three_none by divide.
    by rewrite (proj2 (utf8_four_char _ _ _ _ c)) by (split; [lia|done]).
Qed.

Lemma utf8_char_two b0 b1 c : utf8_two b0 b1 = Some c -> utf8_char c = Some [b0; b1].
Proof.
  intros (Hc & -> & ->)%utf8_two_char. unfold utf8_char, is_surrogate.
  repeat (rewrite ?(proj2 (Z.ltb_ge _ _)), ?(proj2 (Z.ltb_lt _ _)), ?(proj2 (Z.leb_gt _ _)) by lia; cbn [andb orb]).
  done.
Qed.

Lemma utf8_char_three b0 b1 b2 c : utf8_three b0 b1 b2 = Some c -> utf8_char c = Some [b0; b1; b2].
Proof.
  intros (Hc & Hs & -> & -> & ->)%utf8_three_char. unfold utf8_char. rewrite Hs.
  rewrite !(proj2 (Z.ltb_ge _ _)), (proj2 (Z.ltb_lt _ _)) by lia. done.
Qed.

Lemma utf8_char_four b0 b1 b2 b3 c :
  utf8_four b0 b1 b2 b3 = Some c -> utf8_char c = Some [b0; b1; b2; b3].
Proof.
  intros (Hc & -> & -> & -> & ->)%utf8_four_char. unfold utf8_char, is_surrogate.
  rewrite (proj2 (Z.leb_gt c 57343)), andb_false_r by lia.
  rewrite !(proj2 (Z.ltb_ge _ _)) by lia. done.
Qed.

(** ** Round trips *)

Lemma utf8_decode_encode s b : utf8_encode s = Some b -> utf8_decode b = Some s.
Proof.
  revert b. induction s as [|c s IH]; intros b; cbn; [by intros [= <-]|].
  destruct (utf8_char c) as [bc|] eqn:Ec; [|done]. cbn.
  destruct (utf8_encode s) as [bs|]; [|done]. cbn. intros [= <-].
  by rewrite (utf8_decode_char c bc bs Ec), (IH bs eq_refl).
Qed.

Lemma utf8_encode_decode b s : utf8_decode b = Some s -> utf8_encode s = Some b.
Proof.
  revert s. induction b as [b IH] using (induction_ltof1 _ (@length Z)). unfold ltof in IH. intros s.
  assert (forall pre c rest s, b = pre ++ rest -> pre <> [] -> utf8_char c = Some pre ->
    cons c <$> utf8_decode rest = Some s -> utf8_encode s = Some b) as Hstep.
  { intros pre c rest s' -> Hne Hc. destruct (utf8_decode rest) as [t|] eqn:Et; [|done].
    intros [= <-]. cbn. rewrite Hc. cbn. rewrite (IH rest) with (s := t); [done| |done].
    rewrite length_app. destruct pre; [done|cbn; lia]. }
  destruct b as [|b0 r0]; [by intros [= <-]|]. cbn [utf8_decode].
  destruct (_ && _) eqn:Ea.
  { apply andb_true_iff in Ea as [E1%Z.leb_le E2%Z.ltb_lt]. apply (Hstep [b0]); [done|done|].
    unfold utf8_char, is_surrogate.
    rewrite (proj2 (Z.ltb_ge b0 0)), (proj2 (Z.leb_gt 55296 b0)), (proj2 (Z.ltb_ge 1114111 b0)),
      (proj2 (Z.ltb_lt b0 128)) by lia. done. }
  destruct r0 as [|b1 r1]; [done|]. destruct (utf8_two b0 b1) as [c|] eqn:E2.
  { apply (Hstep [b0; b1]); [done|done|]. by apply utf8_char_two. }
  destruct r1 as [|b2 r2]; [done|]. destruct (utf8_three b0 b1 b2) as [c|] eqn:E3.
  { apply (Hstep [b0; b1; b2]); [done|done|]. by apply utf8_char_three. }
  destruct r2 as [|b3 r3]; [done|]. destruct (utf8_four b0 b1 b2 b3) as [c|] eqn:E4; [|done].
  apply (Hstep [b0; b1; b2; b3]); [done|done|]. by apply utf8_char_four.
Qed.

Lemma ascii_decode_encode s b : ascii_encode s = Some b <-> ascii_decode b = Some s.
Proof.
  unfold ascii_encode, ascii_decode. destruct (is_ascii s) eqn:Es, (is_ascii b) eqn:Eb;
    split; intros [= E]; congruence.
Qed.

(** The length that the leader's options bound is the length of the bytes. *)
Lemma encoded_length_encode s :
  Forall (fun c => 0 <= c <= 1114111) s ->
  encoded_length s = (fun b => Z.of_nat (length b)) <$> utf8_encode s.
Proof.
  induction 1 as [|c s [H0 Hm] _ IH]; [done|]. cbn. rewrite IH. unfold utf8_length, utf8_char, is_surrogate.
  rewrite (proj2 (Z.ltb_ge c 0)), (proj2 (Z.ltb_ge 1114111 c)), orb_false_r by lia. cbn [orb].
  destruct (_ && _); [done|].
  destruct (c <? 128), (c <? 2048), (c <? 65536); cbn; destruct (utf8_encode s); cbn;
    done || (f_equal; lia).
Qed.

(** ** Bytes *)

Definition is_byte (b : Z) : Prop := 0 <= b < 256.

Lemma utf8_char_bytes c b : utf8_char c = Some b -> Forall is_byte b.
Proof.
  unfold utf8_char, is_byte. destruct (_ || _) eqn:E; [done|].
  apply orb_false_iff in E as [[E0%Z.ltb_ge _]%orb_false_iff E1%Z.ltb_ge].
  destruct (Z.ltb_spec c 128); [intros [= <-]; repeat constructor; lia|].
  destruct (Z.ltb_spec c 2048); [intros [= <-]; repeat constructor; divide|].
  destruct (Z.ltb_spec c 65536); intros [= <-]; repeat constructor; divide.
Qed.

Lemma utf8_encode_bytes s b : utf8_encode s = Some b -> Forall is_byte b.
Proof.
  revert b. induction s as [|c s IH]; intros b; cbn; [by intros [= <-]|].
  destruct (utf8_char c) as [bc|] eqn:Ec; [|done]. destruct (utf8_encode s) as [bs|]; [|done].
  cbn. intros [= <-]. apply Forall_app_2; [by eapply utf8_char_bytes|by apply IH].
Qed.
