(* ===== verification/Codec.v ===== *)
(** * Strict text codecs ([bluetape/codec/__init__.py])

    URL-safe Base64 and hexadecimal text.  The decoders accept canonical text
    only: exactly what the encoders print.  [base64] and [binascii] of the
    standard library are modelled as far as the packages use them. *)

From S2P Require Import Prelude Python Leader LeaseRecord Utf8.
Open Scope Z_scope.

(** ** Base64 of the standard library *)

(** The character of a sextet in the URL-safe alphabet, and the sextet of a
    character: [altchars] translates [-] and [_], and leaves [+] and [/] as they are. *)
Definition url_char (v : Z) : Z :=
  if v <? 26 then 65 + v
  else if v <? 52 then 97 + (v - 26)
  else if v <? 62 then 48 + (v - 52)
  else if v =? 62 then 45 else 95.

Definition sextet (c : Z) : option Z :=
  if (65 <=? c) && (c <=? 90) then Some (c - 65)
  else if (97 <=? c) && (c <=? 122) then Some (c - 97 + 26)
  else if (48 <=? c) && (c <=? 57) then Some (c - 48 + 52)
  else if (c =? 45) || (c =? 43) then Some 62
  else if (c =? 95) || (c =? 47) then Some 63
  else None.

(** [base64.urlsafe_b64encode(data).decode("ascii")]; 61 is [=]. *)
Fixpoint urlsafe_b64encode (data : pybytes) : pystr :=
  match data with
  | [] => []
  | [a] => [url_char (a / 4); url_char (a mod 4 * 16); 61; 61]
  | [a; b] => [url_char (a / 4); url_char (a mod 4 * 16 + b / 16); url_char (b mod 16 * 4); 61]
  | a :: b :: c :: rest =>
      url_char (a / 4) :: url_char (a mod 4 * 16 + b / 16) :: url_char (b mod 16 * 4 + c / 64)
      :: url_char (c mod 64) :: urlsafe_b64encode rest
  end.

(** The loop of [binascii.a2b_base64] in strict mode: the position in the group
    of four, the bits left over, and the padding read so far.  [None] is
    [binascii.Error]; the bits left over at the end are dropped. *)
Fixpoint a2b_loop (text : pystr) (quad_pos left pads : Z) : option pybytes :=
  match text with
  | [] => if quad_pos =? 0 then Some [] else None
  | c :: rest =>
      if c =? 61 then
        if (2 <=? quad_pos) && (4 <=? quad_pos + (pads + 1)) then
          match rest with [] => Some [] | _ => None end
        else a2b_loop rest quad_pos left (if 2 <=? quad_pos then pads + 1 else Z.max pads 1)
      else
        match sextet c with
        | None => None
        | Some v =>
            if 0 <? pads then None
            else if quad_pos =? 0 then a2b_loop rest 1 v 0
            else if quad_pos =? 1 then cons (left * 4 + v / 16) <$> a2b_loop rest 2 (v mod 16) 0
            else if quad_pos =? 2 then cons (left * 16 + v / 4) <$> a2b_loop rest 3 (v mod 4) 0
            else cons (left * 64 + v) <$> a2b_loop rest 0 0 0
        end
  end.

(** [base64.b64decode(text, altchars=b"-_", validate=True)] of ASCII text. *)
Definition b64decode (text : pystr) : option pybytes :=
  match text with
  | 61 :: _ => None
  | _ => a2b_loop text 0 0 0
  end.

(** ** The codecs *)

(** [_BASE64URL_ALPHABET] and [_HEX_ALPHABET]. *)
Definition is_base64url (c : Z) : bool :=
  (65 <=? c) && (c <=? 90) || (97 <=? c) && (c <=? 122) || (48 <=? c) && (c <=? 57)
  || (c =? 45) || (c =? 95).

Definition is_hex (c : Z) : bool :=
  (48 <=? c) && (c <=? 57) || (97 <=? c) && (c <=? 102) || (65 <=? c) && (c <=? 70).

(** [s.rstrip("=")]. *)
Fixpoint rstrip_padding (s : pystr) : pystr :=
  match s with
  | [] => []
  | c :: rest =>
      match rstrip_padding rest with
      | [] => if c =? 61 then [] else [c]
      | stripped => c :: stripped
      end
  end.

Definition base64url_encode (data : pybytes) (padded : bool) : pystr :=
  let encoded := urlsafe_b64encode data in
  if padded then encoded else rstrip_padding encoded.

(** [value[:padding_start]] and [value[padding_start:]], [padding_start] the first [=]. *)
Fixpoint split_padding (value : pystr) : pystr * pystr :=
  match value with
  | [] => ([], [])
  | c :: rest =>
      if c =? 61 then ([], value)
      else let '(alphabet, padding) := split_padding rest in (c :: alphabet, padding)
  end.

Definition slen (s : pystr) : Z := Z.of_nat (length s).

(** [base64url_decode] of a string. *)
Definition base64url_decode (value : pystr) (padded : bool) : outcome pybytes :=
  let shape :=
    if padded then
      let '(alphabet, padding) := split_padding value in
      if negb (slen value mod 4 =? 0)
         || (2 <? slen padding) || negb (forallb (fun c => c =? 61) padding)
      then Raised (CodecError "invalid padded URL-safe Base64")
      else Returned (alphabet, value)
    else if existsb (fun c => c =? 61) value || (slen value mod 4 =? 1)
    then Raised (CodecError "invalid unpadded URL-safe Base64")
    else Returned (value, value ++ repeat 61 (Z.to_nat (- slen value mod 4))) in
  match shape with
  | Raised e => Raised e
  | Returned (alphabet, normalized) =>
      if negb (forallb is_base64url alphabet) then Raised (CodecError "invalid URL-safe Base64")
      else
        match b64decode normalized with
        | None => Raised (CodecError "invalid URL-safe Base64")
        | Some decoded =>
            if bool_decide (base64url_encode decoded padded = value) then Returned decoded
            else Raised (CodecError "non-canonical URL-safe Base64")
        end
  end.

(** [hex_encode]: [bytes(data).hex()]. *)
Definition hex_digit (v : Z) : Z := if v <? 10 then 48 + v else 97 + (v - 10).

Fixpoint hex_encode (data : pybytes) : pystr :=
  match data with
  | [] => []
  | b :: rest => hex_digit (b / 16) :: hex_digit (b mod 16) :: hex_encode rest
  end.

Definition hex_value (c : Z) : Z :=
  if c <=? 57 then c - 48 else if c <=? 70 then c - 55 else c - 87.

(** [bytes.fromhex] of pairs of digits. *)
Fixpoint fromhex (value : pystr) : pybytes :=
  match value with
  | a :: b :: rest => hex_value a * 16 + hex_value b :: fromhex rest
  | _ => []
  end.

(** [hex_decode] of a string. *)
Definition hex_decode (value : pystr) : outcome pybytes :=
  if negb (slen value mod 2 =? 0) || negb (forallb is_hex value)
  then Raised (CodecError "invalid hexadecimal text")
  else Returned (fromhex value).

(** ** Round trips *)

Ltac byte_arith :=
  repeat match goal with H : _ /\ _ |- _ => destruct H end; Z.to_euclidean_division_equations; lia.

Lemma sextet_url_char v : 0 <= v < 64 -> sextet (url_char v) = Some v /\ is_base64url (url_char v) = true.
Proof.
  intros Hv. assert (v ∈ seqZ 0 64) as Hin by (apply elem_of_seqZ; lia).
  clear Hv. revert v Hin. apply Forall_forall. vm_compute. repeat constructor.
Qed.

Lemma url_char_not_padding v : 0 <= v < 64 -> (url_char v =? 61) = false.
Proof.
  intros Hv. destruct (sextet_url_char v Hv) as [_ H]. apply Z.eqb_neq. intros E. by rewrite E in H.
Qed.

(** The text before the padding, and the length of the padding. *)
Fixpoint b64_body (data : pybytes) : pystr :=
  match data with
  | [] => []
  | [a] => [url_char (a / 4); url_char (a mod 4 * 16)]
  | [a; b] => [url_char (a / 4); url_char (a mod 4 * 16 + b / 16); url_char (b mod 16 * 4)]
  | a :: b :: c :: rest =>
      url_char (a / 4) :: url_char (a mod 4 * 16 + b / 16) :: url_char (b mod 16 * 4 + c / 64)
      :: url_char (c mod 64) :: b64_body rest
  end.

Fixpoint b64_pads (data : pybytes) : nat :=
  match data with
  | [] => 0
  | [_] => 2
  | [_; _] => 1
  | _ :: _ :: _ :: rest => b64_pads rest
  end.

(** Induction by groups of three bytes. *)
Lemma bytes_ind3 (P : pybytes -> Prop) :
  P [] -> (forall a, P [a]) -> (forall a b, P [a; b]) ->
  (forall a b c rest, P rest -> P (a :: b :: c :: rest)) -> forall data, P data.
Proof.
  intros H0 H1 H2 H3. fix go 1. intros [|a [|b [|c rest]]]; [done|apply H1|apply H2|apply H3, go].
Qed.

Lemma encode_parts data : urlsafe_b64encode data = b64_body data ++ repeat 61 (b64_pads data).
Proof. induction data as [| | |a b c rest IH] using bytes_ind3; cbn; [done..|]. by rewrite IH. Qed.

Lemma body_alphabet data : Forall is_byte data -> forallb is_base64url (b64_body data) = true.
Proof.
  induction data as [|a|a b|a b c rest IH] using bytes_ind3; unfold is_byte; intros H; [done|..];
    repeat match goal with H : Forall _ (_ :: _) |- _ => inversion_clear H end;
    cbn [b64_body forallb];
    repeat match goal with |- context [is_base64url (url_char ?v)] =>
      rewrite (proj2 (sextet_url_char v ltac:(byte_arith))) end; cbn; auto.
Qed.

Lemma body_length data : (slen (b64_body data) + Z.of_nat (b64_pads data)) mod 4 = 0 /\ (b64_pads data <= 2)%nat.
Proof.
  unfold slen. induction data as [| | |a b c rest IH] using bytes_ind3; try (split; [reflexivity|cbn; lia]).
  cbn [b64_body b64_pads length]. destruct IH as [IH1 IH2]. split; [|done].
  rewrite !Nat2Z.inj_succ. Z.to_euclidean_division_equations. lia.
Qed.

Lemma a2b_char v rest quad left pads :
  0 <= v < 64 -> pads = 0 ->
  a2b_loop (url_char v :: rest) quad left pads
  = if quad =? 0 then a2b_loop rest 1 v 0
    else if quad =? 1 then cons (left * 4 + v / 16) <$> a2b_loop rest 2 (v mod 16) 0
    else if quad =? 2 then cons (left * 16 + v / 4) <$> a2b_loop rest 3 (v mod 4) 0
    else cons (left * 64 + v) <$> a2b_loop rest 0 0 0.
Proof.
  intros Hv ->. cbn [a2b_loop]. by rewrite url_char_not_padding, (proj1 (sextet_url_char v Hv)).
Qed.

Lemma b64_roundtrip data : Forall is_byte data -> a2b_loop (urlsafe_b64encode data) 0 0 0 = Some data.
Proof.
  induction data as [|a|a b|a b c rest IH] using bytes_ind3; unfold is_byte; intros H; [done|..];
    repeat match goal with H : Forall _ (_ :: _) |- _ => inversion_clear H end;
    cbn [urlsafe_b64encode]; rewrite !a2b_char by (done || byte_arith); cbn [Z.eqb Pos.eqb];
    rewrite ?IH by done; cbn -[Z.mul Z.div Z.modulo Z.add];
    repeat match goal with |- context [if ?b then _ else _] =>
      let v := eval vm_compute in b in change b with v; cbv iota end;
    cbn [fmap option_fmap option_map]; repeat (done || byte_arith || f_equal).
Qed.

Lemma bytes_head data : Forall is_byte data -> data <> [] -> exists c rest,
  urlsafe_b64encode data = c :: rest /\ c <> 61.
Proof.
  destruct data as [|a [|b [|c rest]]]; unfold is_byte; intros H Hne; [done|..]; cbn [urlsafe_b64encode];
    eexists _, _; (split; [reflexivity|]); apply Z.eqb_neq, url_char_not_padding; inversion H; subst; byte_arith.
Qed.

Lemma b64decode_encode data : Forall is_byte data -> b64decode (urlsafe_b64encode data) = Some data.
Proof.
  intros H. destruct (decide (data = [])) as [->|Hne]; [done|].
  rewrite <-(b64_roundtrip data H). destruct (bytes_head data H Hne) as (c & rest & -> & Hc).
  unfold b64decode. destruct c as [|p|p]; try done. do 6 (destruct p as [p|p|]; try done).
Qed.

Lemma alphabet_no_padding s : forallb is_base64url s = true -> existsb (fun c => c =? 61) s = false.
Proof.
  induction s as [|c s IH]; [done|]. cbn. intros [Hc Hs]%andb_true_iff. rewrite IH by done.
  rewrite orb_false_r. apply Z.eqb_neq. by intros ->.
Qed.

Lemma rstrip_parts s n : existsb (fun c => c =? 61) s = false -> rstrip_padding (s ++ repeat 61 n) = s.
Proof.
  intros Hs. induction s as [|c s IH]; cbn in *.
  - induction n as [|n IHn]; [done|]. cbn. by rewrite IHn.
  - apply orb_false_iff in Hs as [Hc Hs]. rewrite IH by done. rewrite Hc. by destruct s.
Qed.

Lemma split_parts s n :
  existsb (fun c => c =? 61) s = false -> split_padding (s ++ repeat 61 n) = (s, repeat 61 n).
Proof.
  intros Hs. induction s as [|c s IH]; cbn in *.
  - destruct n; reflexivity.
  - apply orb_false_iff in Hs as [Hc Hs]. by rewrite Hc, IH.
Qed.

Lemma b64_values text quad left pads decoded :
  0 <= quad <= 3 -> 0 <= left < 64 -> (quad = 2 -> left < 16) -> (quad = 3 -> left < 4) ->
  a2b_loop text quad left pads = Some decoded -> Forall is_byte decoded.
Proof.
  revert quad left pads decoded. induction text as [|c text IH]; intros quad left pads decoded Hq Hl H2 H3; cbn.
  { case_match; [|done]. intros [= <-]. constructor. }
  destruct (c =? 61).
  { destruct (_ && _); [destruct text; [intros [= <-]; constructor|done]|]. by apply IH. }
  destruct (sextet c) as [v|] eqn:Ev; [|done]. destruct (0 <? pads); [done|].
  assert (0 <= v < 64) as Hv.
  { unfold sextet in Ev. repeat case_match; simplify_eq/=; bool_to_prop; lia. }
  destruct (Z.eqb_spec quad 0) as [->|]; [apply IH; lia|].
  destruct (Z.eqb_spec quad 1) as [->|].
  { intros (d & Hd & ->)%fmap_Some. constructor; [unfold is_byte; byte_arith|].
    eapply IH; [..|exact Hd]; byte_arith. }
  destruct (Z.eqb_spec quad 2) as [->|].
  { intros (d & Hd & ->)%fmap_Some. constructor; [unfold is_byte; specialize (H2 eq_refl); byte_arith|].
    eapply IH; [..|exact Hd]; byte_arith. }
  intros (d & Hd & ->)%fmap_Some. assert (quad = 3) as -> by lia.
  constructor; [unfold is_byte; specialize (H3 eq_refl); byte_arith|]. eapply IH; [..|exact Hd]; lia.
Qed.

Lemma b64decode_bytes text decoded : b64decode text = Some decoded -> Forall is_byte decoded.
Proof.
  intros H. assert (a2b_loop text 0 0 0 = Some decoded) as Ha.
  { unfold b64decode in H. destruct text as [|[|p|p] text]; try done.
    repeat (destruct p as [p|p|]; try done). }
  eapply b64_values; [..|exact Ha]; lia.
Qed.

Lemma encode_full data padded :
  Forall is_byte data ->
  urlsafe_b64encode data
  = base64url_encode data padded ++ (if padded then [] else repeat 61 (b64_pads data)).
Proof.
  intros H. unfold base64url_encode. destruct padded; [by rewrite app_nil_r|].
  by rewrite encode_parts, rstrip_parts by (by apply alphabet_no_padding, body_alphabet).
Qed.

(** What the shape checks make of text that was encoded. *)
Lemma encoded_shape data padded :
  Forall is_byte data -> base64url_decode (base64url_encode data padded) padded = Returned data.
Proof.
  intros H. pose proof (body_alphabet data H) as Ha. pose proof (alphabet_no_padding _ Ha) as Hn.
  destruct (body_length data) as [Hlen Hp]. pose proof (encode_full data padded H) as Hfull.
  assert (slen (urlsafe_b64encode data) mod 4 = 0) as Hl4.
  { rewrite encode_parts. unfold slen in *. by rewrite length_app, repeat_length, Nat2Z.inj_add. }
  unfold base64url_decode. destruct padded.
  - unfold base64url_encode at 1 2 3 4 5. rewrite Hl4. rewrite encode_parts at 1. rewrite split_parts by done.
    rewrite (proj2 (Z.ltb_ge _ _)) by (unfold slen; rewrite repeat_length; lia).
    rewrite (proj2 (forallb_forall _ _)) by (by intros c ->%repeat_spec).
    cbn [Z.eqb negb orb]. rewrite Ha. cbn [negb]. rewrite b64decode_encode by done.
    by rewrite bool_decide_true.
  - assert (base64url_encode data false = b64_body data) as Eb.
    { unfold base64url_encode. by rewrite encode_parts, rstrip_parts. }
    assert (- slen (b64_body data) mod 4 = Z.of_nat (b64_pads data)) as Ep by byte_arith.
    rewrite Eb, Hn. assert ((slen (b64_body data) mod 4 =? 1) = false) as ->
      by (apply Z.eqb_neq; byte_arith).
    cbn [orb]. rewrite Ha, Ep, Nat2Z.id, <-encode_parts. cbn [negb]. rewrite b64decode_encode by done.
    by rewrite Eb, bool_decide_true.
Qed.

(** URL-safe Base64 text and bytes correspond: decoding what was encoded gives
    the bytes back, padded or not, and any text that decodes at all is exactly
    what its bytes encode as; everything else is refused with [CodecError]. *)
Theorem base64url_roundtrip (padded : bool) :
  (forall data, Forall is_byte data -> base64url_decode (base64url_encode data padded) padded = Returned data) /\
  (forall value data, base64url_decode value padded = Returned data ->
     Forall is_byte data /\ value = base64url_encode data padded) /\
  (forall value e, base64url_decode value padded = Raised e -> exists message, e = CodecError message).
Proof.
  split; [|split].
  - intros data H. by apply encoded_shape.
  - intros value data. unfold base64url_decode.
    match goal with |- match ?s with _ => _ end = _ -> _ => destruct s as [[alphabet normalized]|e] end; [|done].
    destruct (negb _); [done|]. destruct (b64decode normalized) as [d|] eqn:Ed; [|done].
    case_bool_decide as Ev; [|done]. intros [= <-]. split; [by eapply b64decode_bytes|done].
  - intros value e. unfold base64url_decode.
    match goal with |- match ?s with _ => _ end = _ -> _ => destruct s as [[alphabet normalized]|e'] eqn:Es end.
    + repeat case_match; intros [= <-]; eauto.
    + destruct padded; [destruct (split_padding value)|]; case_match; simplify_eq; intros [= <-]; eauto.
Qed.

Lemma hex_digits v : 0 <= v < 16 -> is_hex (hex_digit v) = true /\ hex_value (hex_digit v) = v.
Proof.
  intros Hv. unfold hex_digit, is_hex, hex_value. destruct (Z.ltb_spec v 10).
  - rewrite (proj2 (Z.leb_le (48 + v) 57)) by lia. split; [|lia].
    by rewrite (proj2 (Z.leb_le 48 (48 + v))) by lia.
  - rewrite (proj2 (Z.leb_gt (97 + (v - 10)) 57)), (proj2 (Z.leb_gt (97 + (v - 10)) 70)) by lia.
    split; [|lia]. rewrite andb_false_r. cbn [orb].
    by rewrite (proj2 (Z.leb_le 97 (97 + (v - 10)))), (proj2 (Z.leb_le (97 + (v - 10)) 102)) by lia.
Qed.

(** Decoding hexadecimal text of bytes gives the bytes back. *)
Theorem hex_roundtrip data : Forall is_byte data -> hex_decode (hex_encode data) = Returned data.
Proof.
  intros H. unfold hex_decode.
  assert (slen (hex_encode data) mod 2 = 0 /\ forallb is_hex (hex_encode data) = true /\
          fromhex (hex_encode data) = data) as (E1 & E2 & E3).
  { induction H as [|b data Hb _ (IH1 & IH2 & IH3)]; [done|]. cbn [hex_encode fromhex forallb]. unfold is_byte in Hb.
    destruct (hex_digits (b / 16)) as [H1 H2]; [byte_arith|].
    destruct (hex_digits (b mod 16)) as [H3 H4]; [byte_arith|].
    rewrite H1, H2, H3, H4, IH2, IH3. split; [|split; [done|f_equal; byte_arith]].
    unfold slen in *. cbn [length]. byte_arith. }
  by rewrite E1, E2, E3.
Qed.
