(* ===== verification/PyObject.v ===== *)
(** * Python objects and JSON values

    The objects a caller hands to the JSON codecs and the token claims, as far
    as the packages look at them, and the JSON values they stand for. *)

From S2P Require Import Prelude Python.
Open Scope Z_scope.

(** An object as it unfolds from its roots.  Containers have their [id]; a
    container reachable from itself shows up below itself again with the same
    [id], unfolded as deep as anyone looks.  A new object is [None]: its [id]
    differs from every other.  [OMapping] is a mapping of another class than
    [dict] with its items, [OBrokenMapping] one whose items cannot be read. *)
Inductive pyobj : Type :=
| ONone
| OBool (b : bool)
| OInt (z : Z)
| OFloat (f : float)
| OStr (s : pystr)
| OList (id : option Z) (items : list pyobj)
| OTuple (id : option Z) (items : list pyobj)
| ODict (id : option Z) (items : list (pyobj * pyobj))
| OMapping (id : option Z) (items : list (pyobj * pyobj))
| OBrokenMapping (e : exn)
| OOther (n : Z).

Section ObjectInd.
Variable P : pyobj -> Prop.
Hypothesis Hscalar : forall v,
  match v with OList _ _ | OTuple _ _ | ODict _ _ | OMapping _ _ => False | _ => True end -> P v.
Hypothesis Hlist : forall id l, Forall P l -> P (OList id l).
Hypothesis Htuple : forall id l, Forall P l -> P (OTuple id l).
Hypothesis Hdict : forall id l, Forall (fun m : pyobj * pyobj => P m.1 /\ P m.2) l -> P (ODict id l).
Hypothesis Hmapping : forall id l, Forall (fun m : pyobj * pyobj => P m.1 /\ P m.2) l -> P (OMapping id l).

(** Induction with the objects inside containers. *)
Fixpoint pyobj_nested_ind (v : pyobj) : P v :=
  let items := fix go l : Forall P l :=
    match l with [] => Forall_nil_2 _ | a :: l' => Forall_cons_2 _ _ _ (pyobj_nested_ind a) (go l') end in
  let members := fix go (l : list (pyobj * pyobj)) : Forall (fun m => P m.1 /\ P m.2) l :=
    match l with
    | [] => Forall_nil_2 _
    | (k, a) :: l' => Forall_cons_2 (fun m : pyobj * pyobj => P m.1 /\ P m.2) (k, a) l'
        (conj (pyobj_nested_ind k) (pyobj_nested_ind a)) (go l')
    end in
  match v with
  | OList id l => Hlist id l (items l)
  | OTuple id l => Htuple id l (items l)
  | ODict id l => Hdict id l (members l)
  | OMapping id l => Hmapping id l (members l)
  | v => Hscalar v I
  end.
End ObjectInd.

(** JSON values.  An object is its members in order; a [dict] has each key once. *)
Inductive json : Type :=
| JNull
| JBool (b : bool)
| JInt (z : Z)
| JFloat (f : float)
| JString (s : pystr)
| JArray (items : list json)
| JObject (members : list (pystr * json)).

Section JsonInd.
Variable P : json -> Prop.
Hypothesis Hnull : P JNull.
Hypothesis Hbool : forall b, P (JBool b).
Hypothesis Hint : forall z, P (JInt z).
Hypothesis Hfloat : forall f, P (JFloat f).
Hypothesis Hstring : forall s, P (JString s).
Hypothesis Harray : forall l, Forall P l -> P (JArray l).
Hypothesis Hobject : forall l, Forall (fun m => P m.2) l -> P (JObject l).

(** Induction with the values inside arrays and objects. *)
Fixpoint json_nested_ind (v : json) : P v :=
  match v with
  | JNull => Hnull
  | JBool b => Hbool b
  | JInt z => Hint z
  | JFloat f => Hfloat f
  | JString s => Hstring s
  | JArray l => Harray l ((fix go l : Forall P l :=
      match l with [] => Forall_nil_2 _ | a :: l' => Forall_cons_2 _ _ _ (json_nested_ind a) (go l') end) l)
  | JObject l => Hobject l ((fix go (l : list (pystr * json)) : Forall (fun m => P m.2) l :=
      match l with
      | [] => Forall_nil_2 _
      | (k, a) :: l' => Forall_cons_2 (fun m : pystr * json => P m.2) (k, a) l' (json_nested_ind a) (go l')
      end) l)
  end.
End JsonInd.

(** The members of an object with distinct keys, everywhere in a value. *)
Fixpoint distinct_keys (v : json) : bool :=
  match v with
  | JArray l => forallb distinct_keys l
  | JObject l => bool_decide (NoDup l.*1) && forallb (fun m => distinct_keys m.2) l
  | _ => true
  end.

(** How deep containers nest: a scalar is 0 deep. *)
Fixpoint json_depth (v : json) : Z :=
  match v with
  | JArray l => 1 + foldr Z.max 0 (json_depth <$> l)
  | JObject l => 1 + foldr Z.max 0 ((fun m => json_depth m.2) <$> l)
  | _ => 0
  end.

(** How many values there are. *)
Fixpoint json_nodes (v : json) : Z :=
  match v with
  | JArray l => 1 + foldr Z.add 0 (json_nodes <$> l)
  | JObject l => 1 + foldr Z.add 0 ((fun m => json_nodes m.2) <$> l)
  | _ => 1
  end.

(** [dict(pairs)]: a later pair replaces the value of an earlier one. *)
Fixpoint dict_set {V} (k : pystr) (v : V) (d : list (pystr * V)) : list (pystr * V) :=
  match d with
  | [] => [(k, v)]
  | (k', v') :: d' => if bool_decide (k' = k) then (k, v) :: d' else (k', v') :: dict_set k v d'
  end.

(** [name in d] and [d.get(name)]. *)
Fixpoint dict_get {V} (k : pystr) (d : list (pystr * V)) : option V :=
  match d with
  | [] => None
  | (k', v) :: d' => if bool_decide (k' = k) then Some v else dict_get k d'
  end.

Definition dict_has {V} (k : pystr) (d : list (pystr * V)) : bool := bool_decide (is_Some (dict_get k d)).

Lemma dict_get_set {V} k k' (v : V) d :
  dict_get k' (dict_set k v d) = if bool_decide (k = k') then Some v else dict_get k' d.
Proof.
  induction d as [|[k0 v0] d IH]; cbn; [done|].
  destruct (decide (k0 = k)) as [->|Hne].
  - rewrite (bool_decide_true (k = k)) by done. cbn. by case_bool_decide.
  - rewrite (bool_decide_false (k0 = k)) by done. cbn. rewrite IH.
    repeat case_bool_decide; congruence.
Qed.

Lemma dict_get_app {V} k (d1 d2 : list (pystr * V)) :
  dict_get k (d1 ++ d2) = match dict_get k d1 with Some v => Some v | None => dict_get k d2 end.
Proof. induction d1 as [|[k0 v0] d1 IH]; cbn; [done|]. by case_bool_decide. Qed.

Lemma dict_get_in {V} k (v : V) d : dict_get k d = Some v -> (k, v) ∈ d.
Proof.
  induction d as [|[k0 v0] d IH]; cbn; [done|]. rewrite elem_of_cons.
  destruct (decide (k0 = k)) as [->|Hne]; [rewrite bool_decide_true by done; intros [= ->]; by left|].
  rewrite bool_decide_false by done. auto.
Qed.

Lemma dict_get_none {V} k (d : list (pystr * V)) : dict_get k d = None <-> k ∉ d.*1.
Proof.
  induction d as [|[k0 v0] d IH]; cbn; [by split; [intros _; apply not_elem_of_nil|]|].
  rewrite not_elem_of_cons, <-IH. destruct (decide (k0 = k)) as [->|Hne].
  - rewrite bool_decide_true by done. naive_solver.
  - rewrite bool_decide_false by done. naive_solver.
Qed.

Lemma dict_get_member {V} k (v : V) d : NoDup d.*1 -> (k, v) ∈ d -> dict_get k d = Some v.
Proof.
  induction d as [|[k0 v0] d IH]; cbn; [by intros _ ?%elem_of_nil|].
  rewrite NoDup_cons, elem_of_cons. intros [Hk Hd] [[= <- <-]|Hin]; [by rewrite bool_decide_true|].
  rewrite bool_decide_false; [auto|]. intros ->. apply Hk. by apply (list_elem_of_fmap_2 fst) in Hin.
Qed.

Lemma dict_set_fresh {V} k (v : V) d : dict_has k d = false -> dict_set k v d = d ++ [(k, v)].
Proof.
  unfold dict_has. induction d as [|[k' v'] d IH]; cbn; [done|].
  destruct (decide (k' = k)) as [->|Hne].
  { rewrite (bool_decide_true (k = k)) by done. by rewrite bool_decide_true. }
  rewrite !(bool_decide_false (k' = k)) by done. intros Hk. by rewrite IH.
Qed.

Lemma dict_has_keys {V} k (d : list (pystr * V)) : dict_has k d = bool_decide (k ∈ d.*1).
Proof.
  unfold dict_has. apply bool_decide_ext. rewrite <-not_eq_None_Some. rewrite dict_get_none.
  destruct (decide (k ∈ d.*1)); tauto.
Qed.

(** A set of the [id]s of the containers a traversal is inside of: a new object has
    an [id] of its own. *)
Definition with_id (id : option Z) (active : gset Z) : gset Z :=
  match id with Some n => {[n]} ∪ active | None => active end.
Definition without_id (id : option Z) (active : gset Z) : gset Z :=
  match id with Some n => active ∖ {[n]} | None => active end.
Definition is_active (id : option Z) (active : gset Z) : bool :=
  match id with Some n => bool_decide (n ∈ active) | None => false end.

(** [dict(value)] of a [Mapping]; nothing when the value is none. *)
Definition mapping_items (v : pyobj) : option (outcome (list (pyobj * pyobj))) :=
  match v with
  | ODict _ items | OMapping _ items => Some (Returned items)
  | OBrokenMapping e => Some (Raised e)
  | _ => None
  end.
