(* ===== verification/JsonText.v ===== *)
(** * JSON text, as the [json] module of the standard library reads and writes it

    [JSONEncoder(ensure_ascii=False, allow_nan=False, separators=(",", ":"))] and
    [json.loads] with its hooks, which the serde codec and the token provider
    use.  The text of a [float] is a parameter.  The reader recurses on the brackets
    of a text, as far as the interpreter has room for it, and raises
    [RecursionError] beyond; [json.loads] is read with room without end, since the
    callers of it that are modelled bound what they read or handle that error. *)

From Stdlib Require Import SpecFloat.
From S2P Require Import Prelude Python Leader LeaseRecord PyObject.
Open Scope Z_scope.

(** ** Numbers *)

(** [float.__repr__] of a finite [float], and [float] of the text of a number. *)
Class FloatText : Type := {
  float_repr : float -> pystr;
  float_of_text : pystr -> float;
}.

(** [int.__repr__]. *)
Definition int_repr (z : Z) : pystr := if z <? 0 then 45 :: decimal (- z) else decimal z.

(** [int(text)] of a sign and digits. *)
Definition int_of_text (text : pystr) : Z :=
  match text with
  | c :: digits => if c =? 45 then - undecimal digits else undecimal text
  | [] => 0
  end.

Fixpoint span_digits (text : pystr) : pystr * pystr :=
  match text with
  | c :: rest =>
      if is_digit c then let '(digits, rest') := span_digits rest in (c :: digits, rest')
      else ([], text)
  | [] => ([], [])
  end.

(** Digits after a first one; nothing when there is none. *)
Definition scan_fraction (text : pystr) : pystr * pystr :=
  match text with
  | point :: rest =>
      match span_digits rest with
      | ([], _) => ([], text)
      | (digits, rest') => if point =? 46 then (46 :: digits, rest') else ([], text)
      end
  | [] => ([], text)
  end.

Definition scan_exponent (text : pystr) : pystr * pystr :=
  match text with
  | e :: rest =>
      if (e =? 101) || (e =? 69) then
        let '(sign, digits_from) :=
          match rest with
          | s :: rest' => if (s =? 43) || (s =? 45) then ([s], rest') else ([], rest)
          | [] => ([], rest)
          end in
        match span_digits digits_from with
        | ([], _) => ([], text)
        | (digits, rest') => (e :: sign ++ digits, rest')
        end
      else ([], text)
  | [] => ([], text)
  end.

(** A minus sign or none, and a zero or digits that start with another. *)
Definition scan_integer (text : pystr) : option (pystr * pystr) :=
  let '(sign, unsigned) :=
    match text with
    | c :: rest => if c =? 45 then ([45], rest) else ([], text)
    | [] => ([], text)
    end in
  match unsigned with
  | c :: rest =>
      if c =? 48 then Some (sign ++ [48], rest)
      else if is_digit c then let '(digits, rest) := span_digits unsigned in Some (sign ++ digits, rest)
      else None
  | [] => None
  end.

(** ** Writing *)

(** [\u] and four hexadecimal digits, for the control characters. *)
Definition hex_low (v : Z) : Z := if v <? 10 then 48 + v else 97 + (v - 10).

Definition escape_char (c : Z) : pystr :=
  if c =? 34 then [92; 34]
  else if c =? 92 then [92; 92]
  else if c =? 10 then [92; 110]
  else if c =? 13 then [92; 114]
  else if c =? 9 then [92; 116]
  else if c =? 12 then [92; 102]
  else if c =? 8 then [92; 98]
  else if c <? 32 then [92; 117; 48; 48; hex_low (c / 16); hex_low (c mod 16)]
  else [c].

Definition encode_string (s : pystr) : pystr := 34 :: flat_map escape_char s ++ [34].

Section Writing.
Context `{FloatText}.

(** [_make_iterencode]: the chunks of a value.  A scalar inside an array comes in
    one chunk with the bracket or comma before it. *)
Definition scalar_text (v : json) : option pystr :=
  match v with
  | JNull => Some (py "null")
  | JBool true => Some (py "true")
  | JBool false => Some (py "false")
  | JInt z => Some (int_repr z)
  | JFloat f => Some (float_repr f)
  | JString s => Some (encode_string s)
  | JArray _ | JObject _ => None
  end.

Section Containers.
Variable chunks : json -> list pystr.

Fixpoint element_chunks (before : pystr) (items : list json) : list pystr :=
  match items with
  | [] => [py "]"]
  | a :: rest =>
      match scalar_text a with
      | Some text => [before ++ text]
      | None => before :: chunks a
      end ++ element_chunks (py ",") rest
  end.

Fixpoint member_chunks (before : pystr) (members : list (pystr * json)) : list pystr :=
  match members with
  | [] => [py "}"]
  | (key, a) :: rest =>
      [before; encode_string key; py ":"] ++ chunks a ++ member_chunks (py ",") rest
  end.
End Containers.

Fixpoint json_chunks (v : json) : list pystr :=
  match v with
  | JArray [] => [py "[]"]
  | JArray items => element_chunks json_chunks (py "[") items
  | JObject [] => [py "{}"]
  | JObject members => member_chunks json_chunks (py "{") members
  | _ => match scalar_text v with Some text => [text] | None => [] end
  end.

(** The text of a value: its chunks together. *)
Definition json_text (v : json) : pystr := concat (json_chunks v).
End Writing.

(** ** Reading *)

(** What a caller of [json.loads] does with the parts of a document. *)
Record json_hooks : Type := {
  hk_int : pystr -> outcome json;
  hk_float : pystr -> outcome json;
  hk_constant : pystr -> outcome json;
  hk_object : list (pystr * json) -> outcome json;
}.

Definition is_json_space (c : Z) : bool := (c =? 32) || (c =? 9) || (c =? 10) || (c =? 13).

Fixpoint skip_space (text : pystr) : pystr :=
  match text with
  | c :: rest => if is_json_space c then skip_space rest else text
  | [] => []
  end.

Definition hex_digit_value (c : Z) : option Z :=
  if (48 <=? c) && (c <=? 57) then Some (c - 48)
  else if (97 <=? c) && (c <=? 102) then Some (c - 87)
  else if (65 <=? c) && (c <=? 70) then Some (c - 55)
  else None.

Definition four_hex (a b c d : Z) : option Z :=
  a ← hex_digit_value a; b ← hex_digit_value b; c ← hex_digit_value c; d ← hex_digit_value d;
  Some (a * 4096 + b * 256 + c * 16 + d).

Definition is_high (c : Z) : bool := (55296 <=? c) && (c <=? 56319).
Definition is_low (c : Z) : bool := (56320 <=? c) && (c <=? 57343).
Definition join_surrogates (high low : Z) : Z := 65536 + (high - 55296) * 1024 + (low - 56320).

(** The character of an escape of one letter. *)
Definition simple_escape (c : Z) : option Z :=
  if c =? 34 then Some 34
  else if c =? 92 then Some 92
  else if c =? 47 then Some 47
  else if c =? 98 then Some 8
  else if c =? 102 then Some 12
  else if c =? 110 then Some 10
  else if c =? 114 then Some 13
  else if c =? 116 then Some 9
  else None.

Definition push {A} (c : Z) (r : outcome (pystr * A)) : outcome (pystr * A) :=
  match r with Returned (s, rest) => Returned (c :: s, rest) | Raised e => Raised e end.

(** [scanstring] after the opening quote: a high surrogate joins the escape of a
    low one that follows at once. *)
Fixpoint scan_string (text : pystr) : outcome (pystr * pystr) :=
  match text with
  | [] => Raised JSONDecodeError
  | c :: rest =>
      if c =? 34 then Returned ([], rest)
      else if c =? 92 then
        match rest with
        | [] => Raised JSONDecodeError
        | e :: rest =>
            if e =? 117 then
              match rest with
              | a :: b :: c :: d :: rest =>
                  match four_hex a b c d with
                  | None => Raised JSONDecodeError
                  | Some high =>
                      match rest with
                      | s :: u :: a' :: b' :: c' :: d' :: rest' =>
                          if is_high high && (s =? 92) && (u =? 117) then
                            match four_hex a' b' c' d' with
                            | None => Raised JSONDecodeError
                            | Some low =>
                                if is_low low then push (join_surrogates high low) (scan_string rest')
                                else push high (scan_string rest)
                            end
                          else push high (scan_string rest)
                      | _ => push high (scan_string rest)
                      end
                  end
              | _ => Raised JSONDecodeError
              end
            else
              match simple_escape e with
              | Some c => push c (scan_string rest)
              | None => Raised JSONDecodeError
              end
        end
      else if c <? 32 then Raised JSONDecodeError
      else push c (scan_string rest)
  end.

(** [text.startswith(prefix)], with what follows it. *)
Fixpoint after_prefix (prefix text : pystr) : option pystr :=
  match prefix, text with
  | [], _ => Some text
  | p :: prefix', c :: text' => if p =? c then after_prefix prefix' text' else None
  | _ :: _, [] => None
  end.

Section Reading.
Variable hooks : json_hooks.

(** [_match_number_unicode]. *)
Definition scan_number (text : pystr) : outcome (json * pystr) :=
  match scan_integer text with
  | None => Raised JSONDecodeError
  | Some (integer, rest) =>
      let '(fraction, rest) := scan_fraction rest in
      let '(exponent, rest) := scan_exponent rest in
      let value :=
        match fraction ++ exponent with
        | [] => hk_int hooks integer
        | suffix => hk_float hooks (integer ++ suffix)
        end in
      match value with Returned v => Returned (v, rest) | Raised e => Raised e end
  end.

(** The constants, the non-finite ones among them. *)
Definition scan_constant (text : pystr) : option (outcome json * pystr) :=
  match after_prefix (py "null") text with
  | Some rest => Some (Returned JNull, rest)
  | None =>
    match after_prefix (py "true") text with
    | Some rest => Some (Returned (JBool true), rest)
    | None =>
      match after_prefix (py "false") text with
      | Some rest => Some (Returned (JBool false), rest)
      | None =>
        match after_prefix (py "NaN") text with
        | Some rest => Some (hk_constant hooks (py "NaN"), rest)
        | None =>
          match after_prefix (py "Infinity") text with
          | Some rest => Some (hk_constant hooks (py "Infinity"), rest)
          | None =>
            match after_prefix (py "-Infinity") text with
            | Some rest => Some (hk_constant hooks (py "-Infinity"), rest)
            | None => None
            end
          end
        end
      end
    end
  end.

Definition with_rest {A} (r : outcome A) (rest : pystr) : outcome (A * pystr) :=
  match r with Returned a => Returned (a, rest) | Raised e => Raised e end.

(** [text[0] == c], with what follows it. *)
Definition starts (c : Z) (text : pystr) : option pystr :=
  match text with
  | c' :: rest => if c' =? c then Some rest else None
  | [] => None
  end.

(** Entering a bracket, with room for that many inside each other, or without end:
    the room inside, if there is any. *)
Definition nested (room : option nat) : option (option nat) :=
  match room with
  | None => Some None
  | Some O => None
  | Some (S n) => Some (Some n)
  end.

(** [_scan_once_unicode], the elements of an array after its bracket or a comma,
    and the members of an object, likewise. *)
Fixpoint scan_value (fuel : nat) (room : option nat) (text : pystr) : outcome (json * pystr) :=
  match fuel with
  | O => Raised FuelExhausted
  | S fuel' =>
      match starts 34 text with
      | Some rest =>
          match scan_string rest with
          | Returned (s, rest') => Returned (JString s, rest')
          | Raised e => Raised e
          end
      | None =>
          match starts 91 text with
          | Some rest =>
              match nested room with
              | None => Raised RecursionError
              | Some inside =>
                  match starts 93 (skip_space rest) with
                  | Some rest' => Returned (JArray [], rest')
                  | None =>
                      match scan_elements fuel' inside (skip_space rest) with
                      | Returned (items, rest'') => Returned (JArray items, rest'')
                      | Raised e => Raised e
                      end
                  end
              end
          | None =>
              match starts 123 text with
              | Some rest =>
                  match nested room with
                  | None => Raised RecursionError
                  | Some inside =>
                      match starts 125 (skip_space rest) with
                      | Some rest' => with_rest (hk_object hooks []) rest'
                      | None =>
                          match scan_members fuel' inside (skip_space rest) with
                          | Returned (members, rest'') => with_rest (hk_object hooks members) rest''
                          | Raised e => Raised e
                          end
                      end
                  end
              | None =>
                  match scan_constant text with
                  | Some (value, rest) => with_rest value rest
                  | None => scan_number text
                  end
              end
          end
      end
  end
with scan_elements (fuel : nat) (room : option nat) (text : pystr) : outcome (list json * pystr) :=
  match fuel with
  | O => Raised FuelExhausted
  | S fuel' =>
      match scan_value fuel' room text with
      | Raised e => Raised e
      | Returned (item, rest) =>
          match starts 93 (skip_space rest) with
          | Some rest' => Returned ([item], rest')
          | None =>
              match starts 44 (skip_space rest) with
              | Some rest' =>
                  match scan_elements fuel' room (skip_space rest') with
                  | Returned (items, rest'') => Returned (item :: items, rest'')
                  | Raised e => Raised e
                  end
              | None => Raised JSONDecodeError
              end
          end
      end
  end
with scan_members (fuel : nat) (room : option nat) (text : pystr) : outcome (list (pystr * json) * pystr) :=
  match fuel with
  | O => Raised FuelExhausted
  | S fuel' =>
      match starts 34 text with
      | None => Raised JSONDecodeError
      | Some rest =>
          match scan_string rest with
          | Raised e => Raised e
          | Returned (key, rest) =>
              match starts 58 (skip_space rest) with
              | None => Raised JSONDecodeError
              | Some rest =>
                  match scan_value fuel' room (skip_space rest) with
                  | Raised e => Raised e
                  | Returned (value, rest) =>
                      match starts 125 (skip_space rest) with
                      | Some rest' => Returned ([(key, value)], rest')
                      | None =>
                          match starts 44 (skip_space rest) with
                          | Some rest' =>
                              match scan_members fuel' room (skip_space rest') with
                              | Returned (members, rest'') => Returned ((key, value) :: members, rest'')
                              | Raised e => Raised e
                              end
                          | None => Raised JSONDecodeError
                          end
                      end
                  end
              end
          end
      end
  end.

(** Two calls a character are enough. *)
Definition scan_fuel (text : pystr) : nat := S (2 * length text).

(** [json.loads(text, ...)] of a string. *)
Definition json_loads (text : pystr) : outcome json :=
  match starts 65279 text with
  | Some _ => Raised JSONDecodeError
  | None =>
      match scan_value (scan_fuel text) None (skip_space text) with
      | Raised e => Raised e
      | Returned (value, rest) =>
          match skip_space rest with [] => Returned value | _ => Raised JSONDecodeError end
      end
  end.
End Reading.
