(* ===== verification/JsonTextLaws.v ===== *)
(** * Reading JSON text back, and that reading ends

    What was written for a value is read as that value, when the hooks accept its
    numbers and objects; and the reader ends on every text. *)

From Stdlib Require Import SpecFloat.
From S2P Require Import Prelude Python Leader LeaseRecord PyObject JsonText.
Open Scope Z_scope.

(** ** Strings *)

Lemma scan_string_plain c rest :
  c <> 34 -> c <> 92 -> 32 <= c -> scan_string (c :: rest) = push c (scan_string rest).
Proof.
  intros H1 H2 H3. cbn [scan_string].
  by rewrite (proj2 (Z.eqb_neq _ _) H1), (proj2 (Z.eqb_neq _ _) H2), (proj2 (Z.ltb_ge _ _) H3).
Qed.

(** A unit escape that is no high surrogate stands for itself. *)
Lemma scan_unit a b c d unit_ rest :
  four_hex a b c d = Some unit_ -> is_high unit_ = false ->
  scan_string (92 :: 117 :: a :: b :: c :: d :: rest) = push unit_ (scan_string rest).
Proof.
  intros Hu Hh. cbn [scan_string Z.eqb Pos.eqb]. rewrite Hu.
  do 6 (destruct rest as [|? rest]; [reflexivity|]). by rewrite Hh.
Qed.

Lemma control_hex c : 0 <= c < 32 ->
  four_hex 48 48 (hex_low (c / 16)) (hex_low (c mod 16)) = Some c /\ is_high c = false.
Proof.
  intros Hc. assert (c ∈ seqZ 0 32) as Hin by (apply elem_of_seqZ; lia).
  clear Hc. revert c Hin. apply Forall_forall. vm_compute. repeat constructor.
Qed.

Lemma scan_escape c rest : 0 <= c -> scan_string (escape_char c ++ rest) = push c (scan_string rest).
Proof.
  intros Hc. unfold escape_char.
  repeat match goal with |- context [if c =? ?k then _ else _] =>
    destruct (Z.eqb_spec c k) as [->|?]; [reflexivity|] end.
  destruct (Z.ltb_spec c 32); [|by apply scan_string_plain].
  destruct (control_hex c ltac:(lia)). by apply scan_unit.
Qed.

Lemma scan_string_text s rest :
  Forall (Z.le 0) s -> scan_string (flat_map escape_char s ++ 34 :: rest) = Returned (s, rest).
Proof.
  induction 1 as [|c s Hc _ IH]; [done|]. cbn [flat_map]. by rewrite <-app_assoc, scan_escape, IH.
Qed.

(** ** Numbers *)

(** What follows a value inside a document: nothing, a comma or a bracket. *)
Definition stops (rest : pystr) : Prop :=
  match rest with [] => True | c :: _ => c = 44 \/ c = 93 \/ c = 125 end.

Definition digits (ds : pystr) : Prop := forallb is_digit ds = true.

Lemma span_digits_app ds rest :
  digits ds -> match rest with [] => True | c :: _ => is_digit c = false end ->
  span_digits (ds ++ rest) = (ds, rest).
Proof.
  intros Hd Hr. unfold digits in Hd. induction ds as [|d ds IH]; cbn in *.
  - destruct rest as [|c rest]; [done|]. cbn. by rewrite Hr.
  - apply andb_true_iff in Hd as [Hd Hds]. by rewrite Hd, IH.
Qed.

Lemma stops_digit rest : stops rest -> match rest with [] => True | c :: _ => is_digit c = false end.
Proof. destruct rest as [|c rest]; [done|]. by intros [-> |[-> | ->]]. Qed.

Lemma stops_fraction rest : stops rest -> scan_fraction rest = ([], rest).
Proof.
  destruct rest as [|c rest]; [done|]. cbn. intros Hc. destruct (span_digits rest) as [[|d ds] r]; [done|].
  by destruct Hc as [-> |[-> | ->]].
Qed.

Lemma stops_exponent rest : stops rest -> scan_exponent rest = ([], rest).
Proof. destruct rest as [|c rest]; [done|]. by intros [-> |[-> | ->]]. Qed.

(** The digits of an integer: zero, or digits that start with another. *)
Definition unsigned_shape (ds : pystr) : Prop :=
  ds = [48] \/ exists c ds', ds = c :: ds' /\ 49 <= c <= 57 /\ digits ds'.

Definition sign_shape (sign : pystr) : Prop := sign = [] \/ sign = [45].

Lemma scan_integer_app sign ds rest :
  sign_shape sign -> unsigned_shape ds ->
  match rest with [] => True | c :: _ => is_digit c = false end ->
  scan_integer (sign ++ ds ++ rest) = Some (sign ++ ds, rest).
Proof.
  intros Hs Hd Hr. unfold scan_integer.
  assert ((match sign ++ ds ++ rest with
    | c :: rest' => if c =? 45 then ([45], rest') else ([], sign ++ ds ++ rest)
    | [] => ([], sign ++ ds ++ rest)
    end) = (sign, ds ++ rest)) as ->.
  { destruct Hs as [-> | ->]; [|done]. destruct Hd as [-> |(c & ds' & -> & Hc & _)]; [done|]. cbn.
    by rewrite (proj2 (Z.eqb_neq c 45)) by lia. }
  destruct Hd as [-> |(c & ds' & -> & Hc & Hds)]; [done|]. cbn [app].
  rewrite (proj2 (Z.eqb_neq c 48)) by lia.
  assert (is_digit c = true) as Hcd by (unfold is_digit; lia).
  rewrite Hcd. change (c :: ds' ++ rest) with ((c :: ds') ++ rest).
  rewrite span_digits_app; [done| |done]. unfold digits in *. cbn. by rewrite Hcd.
Qed.

Lemma int_repr_shape z : exists sign ds, int_repr z = sign ++ ds /\ sign_shape sign /\ unsigned_shape ds.
Proof.
  assert (forall n, 0 <= n -> unsigned_shape (decimal n)) as Hn.
  { intros n Hn. destruct (Z.eq_dec n 0) as [->|]; [by left|]. right.
    destruct (decimal_head n) as (c & s & E & Hc); [lia|]. exists c, s. split; [done|]. split; [done|].
    pose proof (decimal_digits n Hn) as Hd. rewrite E in Hd. unfold digits. cbn in Hd.
    by apply andb_true_iff in Hd as [_ Hd]. }
  unfold int_repr. destruct (Z.ltb_spec z 0).
  - exists [45], (decimal (- z)). split; [done|]. split; [by right|]. apply Hn. lia.
  - exists [], (decimal z). split; [done|]. split; [by left|]. by apply Hn.
Qed.

(** The text of a [float]: an integer with a fraction, an exponent or both. *)
Definition float_shape (text : pystr) : Prop :=
  exists sign ds fraction exponent,
    text = sign ++ ds ++ fraction ++ exponent /\ sign_shape sign /\ unsigned_shape ds /\
    (fraction = [] \/ exists fs, fraction = 46 :: fs /\ fs <> [] /\ digits fs) /\
    (exponent = [] \/ exists es sgn, exponent = 101 :: sgn ++ es /\ es <> [] /\ digits es /\
       (sgn = [] \/ sgn = [43] \/ sgn = [45])) /\
    fraction ++ exponent <> [].

Lemma scan_fraction_app fraction rest :
  (fraction = [] \/ exists fs, fraction = 46 :: fs /\ fs <> [] /\ digits fs) ->
  match rest with [] => True | c :: _ => is_digit c = false end -> scan_fraction rest = ([], rest) ->
  scan_fraction (fraction ++ rest) = (fraction, rest).
Proof.
  intros [-> |(fs & -> & Hne & Hf)] Hr He; [done|]. cbn. rewrite span_digits_app by done. by destruct fs.
Qed.

Lemma scan_exponent_app exponent rest :
  (exponent = [] \/ exists es sgn, exponent = 101 :: sgn ++ es /\ es <> [] /\ digits es /\
     (sgn = [] \/ sgn = [43] \/ sgn = [45])) ->
  stops rest -> scan_exponent (exponent ++ rest) = (exponent, rest).
Proof.
  intros [-> |(es & sgn & -> & Hne & He & Hs)] Hr; [by apply stops_exponent|].
  assert (span_digits (es ++ rest) = (es, rest)) as Hspan by (apply span_digits_app; [done|by apply stops_digit]).
  unfold scan_exponent. cbn [app Z.eqb Pos.eqb orb].
  destruct es as [|e es]; [done|].
  assert (is_digit e = true) as Hed by (unfold digits in He; cbn in He; by apply andb_true_iff in He as [? _]).
  destruct Hs as [-> |[-> | ->]].
  - cbn [app]. assert ((e =? 43) || (e =? 45) = false) as ->.
    { unfold is_digit in Hed. apply andb_true_iff in Hed as [?%Z.leb_le _].
      apply orb_false_iff. split; apply Z.eqb_neq; lia. }
    change (e :: es ++ rest) with ((e :: es) ++ rest). by rewrite Hspan.
  - cbn [app Z.eqb Pos.eqb orb]. change (e :: es ++ rest) with ((e :: es) ++ rest). by rewrite Hspan.
  - cbn [app Z.eqb Pos.eqb orb]. change (e :: es ++ rest) with ((e :: es) ++ rest). by rewrite Hspan.
Qed.

Section Hooks.
Variable hooks : json_hooks.

Lemma scan_number_int z rest :
  stops rest -> scan_number hooks (int_repr z ++ rest) = with_rest (hk_int hooks (int_repr z)) rest.
Proof.
  intros Hr. destruct (int_repr_shape z) as (sign & ds & E & Hs & Hd). unfold scan_number.
  rewrite E, <-app_assoc, scan_integer_app by (try apply stops_digit; done).
  by rewrite stops_fraction, stops_exponent.
Qed.

Lemma scan_number_float text rest :
  float_shape text -> stops rest ->
  scan_number hooks (text ++ rest) = with_rest (hk_float hooks text) rest.
Proof.
  intros (sign & ds & fraction & exponent & -> & Hs & Hd & Hf & He & Hne) Hr. unfold scan_number.
  rewrite <-!app_assoc.
  assert (match exponent ++ rest with [] => True | c :: _ => is_digit c = false end) as Hdig.
  { destruct He as [-> |(es & sgn & -> & _)]; [by apply stops_digit|done]. }
  assert (match fraction ++ exponent ++ rest with [] => True | c :: _ => is_digit c = false end) as Hdig'.
  { destruct Hf as [-> |(fs & -> & _)]; done. }
  assert (scan_fraction (exponent ++ rest) = ([], exponent ++ rest)) as Hexp.
  { destruct He as [-> |(es & sgn & -> & _)]; [by apply stops_fraction|]. cbn.
    by destruct (span_digits _) as [[] ?]. }
  rewrite scan_integer_app by done. rewrite scan_fraction_app by done. rewrite scan_exponent_app by done.
  destruct (fraction ++ exponent); [done|]. by rewrite <-app_assoc.
Qed.
End Hooks.

(** ** Reading ends *)

Lemma skip_space_length text : (length (skip_space text) <= length text)%nat.
Proof. induction text as [|c text IH]; cbn; [done|]. case_match; cbn; lia. Qed.

Lemma span_digits_length text : (length (span_digits text).2 <= length text)%nat.
Proof.
  induction text as [|c text IH]; cbn; [done|]. case_match; cbn; [|lia].
  destruct (span_digits text). cbn in *. lia.
Qed.

Lemma scan_fraction_length text : (length (scan_fraction text).2 <= length text)%nat.
Proof.
  destruct text as [|c text]; cbn; [done|]. pose proof (span_digits_length text) as Hl.
  destruct (span_digits text) as [[|d ds] r]; cbn in *; [lia|]. case_match; cbn; lia.
Qed.

Lemma scan_exponent_length text : (length (scan_exponent text).2 <= length text)%nat.
Proof.
  destruct text as [|c text]; [done|]. unfold scan_exponent.
  destruct (_ || _); [|done]. destruct text as [|s text]; cbn; [lia|].
  pose proof (span_digits_length text) as H1. pose proof (span_digits_length (s :: text)) as H2.
  destruct ((s =? 43) || (s =? 45)).
  - destruct (span_digits text) as [[|d ds] r]; cbn in *; lia.
  - destruct (span_digits (s :: text)) as [[|d ds] r]; cbn in *; lia.
Qed.

Lemma scan_integer_length text integer rest :
  scan_integer text = Some (integer, rest) -> (length rest < length text)%nat.
Proof.
  unfold scan_integer. intros H.
  destruct text as [|c text]; [done|]. destruct (c =? 45).
  - destruct text as [|c' text]; [done|]. destruct (c' =? 48); [by simplify_eq; cbn; lia|].
    destruct (is_digit c'); [|done]. pose proof (span_digits_length (c' :: text)) as Hl.
    destruct (span_digits _). cbn in *. simplify_eq. lia.
  - destruct (c =? 48); [by simplify_eq; cbn; lia|]. destruct (is_digit c) eqn:Ed; [|done].
    cbn in H. rewrite Ed in H. pose proof (span_digits_length text) as Hl.
    destruct (span_digits text). cbn in *. simplify_eq. lia.
Qed.

Lemma push_returned {A} c (r : outcome (pystr * A)) s rest :
  push c r = Returned (s, rest) -> exists s', r = Returned (s', rest) /\ s = c :: s'.
Proof. destruct r as [[s' r]|]; cbn; intros; simplify_eq; eauto. Qed.

(** A string is read to its closing quote, or refused as a document that is no JSON. *)
Definition string_read (text : pystr) (r : outcome (pystr * pystr)) : Prop :=
  match r with
  | Returned (_, rest) => (length rest < length text)%nat
  | Raised e => e = JSONDecodeError
  end.

Lemma push_read c text text' r :
  (length text' <= length text)%nat -> string_read text' r -> string_read text (push c r).
Proof. destruct r as [[s rest]|e]; cbn; [lia|done]. Qed.

Lemma scan_string_read text : string_read text (scan_string text).
Proof.
  induction text as [text IH] using (induction_ltof1 _ (@length Z)). unfold ltof in IH.
  assert (forall c text', (length text' < length text)%nat -> string_read text (push c (scan_string text'))) as Hp.
  { intros c text' Hl. apply (push_read _ _ text'); [lia|by apply IH]. }
  destruct text as [|c text]; [done|]. cbn [scan_string].
  destruct (c =? 34); [cbn; lia|].
  destruct (c =? 92); [|by destruct (c <? 32); [|apply Hp; cbn; lia]].
  destruct text as [|e text]; [done|]. destruct (e =? 117).
  - do 4 (destruct text as [|? text]; [done|]). destruct (four_hex _ _ _ _); [|done].
    do 6 (destruct text as [|? text]; [apply Hp; cbn; lia|]).
    destruct (_ && _); [|apply Hp; cbn; lia]. destruct (four_hex _ _ _ _); [|done].
    destruct (is_low _); apply Hp; cbn; lia.
  - destruct (simple_escape e); [apply Hp; cbn; lia|done].
Qed.

Lemma starts_length c text rest : starts c text = Some rest -> length text = S (length rest).
Proof. destruct text as [|c' text]; cbn; [done|]. case_match; intros; by simplify_eq. Qed.

Lemma after_prefix_length prefix text rest :
  after_prefix prefix text = Some rest -> length text = (length prefix + length rest)%nat.
Proof.
  revert text. induction prefix as [|p prefix IH]; intros [|c text]; cbn; intros; simplify_eq; try done.
  case_match; [|done]. f_equal. auto.
Qed.

Section Ends.
Variable hooks : json_hooks.
(** What the hooks raise. *)
Variable raised : exn -> Prop.

Definition raises_only {A} (r : outcome A) : Prop := match r with Raised e => raised e | Returned _ => True end.

Record hooks_raise_only : Prop := {
  hooks_int : forall text, raises_only (hk_int hooks text);
  hooks_float : forall text, raises_only (hk_float hooks text);
  hooks_constant : forall text, raises_only (hk_constant hooks text);
  hooks_object : forall members, raises_only (hk_object hooks members);
}.

Hypothesis Hhooks : hooks_raise_only.

(** Reading takes something away, or raises what the decoder and the hooks raise. *)
Definition reads_on {A} (text : pystr) (r : outcome (A * pystr)) : Prop :=
  match r with
  | Returned (_, rest) => (length rest < length text)%nat
  | Raised e => e = JSONDecodeError \/ raised e
  end.

Lemma reads_with_rest {A} text (r : outcome A) rest :
  raises_only r -> (length rest < length text)%nat -> reads_on text (with_rest r rest).
Proof. destruct r; cbn; auto. Qed.

Lemma scan_number_reads text : reads_on text (scan_number hooks text).
Proof.
  unfold scan_number. destruct (scan_integer text) as [[integer rest]|] eqn:Ei; [|by left].
  apply scan_integer_length in Ei. pose proof (scan_fraction_length rest) as Hf.
  destruct (scan_fraction rest) as [fraction rest']. pose proof (scan_exponent_length rest') as He.
  destruct (scan_exponent rest') as [exponent rest'']. cbn in *.
  assert (forall r : outcome json, raises_only r ->
    reads_on text (match r with Returned v => Returned (v, rest'') | Raised e => Raised e end)) as Hr
    by (intros r Hr; apply (reads_with_rest text r rest''); [done|lia]).
  destruct (fraction ++ exponent); apply Hr; apply Hhooks.
Qed.

Lemma scan_constant_reads text r rest :
  scan_constant hooks text = Some (r, rest) -> reads_on text (with_rest r rest).
Proof.
  unfold scan_constant. intros H.
  repeat match type of H with
  | match after_prefix ?p text with _ => _ end = _ =>
      let E := fresh "E" in destruct (after_prefix p text) as [?|] eqn:E;
      [apply after_prefix_length in E; cbn in E; injection H as <- <-; apply reads_with_rest;
       [first [done|apply Hhooks]|lia]|]
  end. done.
Qed.

(** Brackets inside each other take a character each; so a text no longer than the
    room does not run out of it. *)
Definition room_for (room : option nat) (n : nat) : Prop :=
  match room with None => True | Some r => (r < n)%nat -> raised RecursionError end.

Lemma room_less room n m : (m <= n)%nat -> room_for room n -> room_for room m.
Proof. destruct room; cbn; [|done]. intros H1 H2 H3. apply H2. lia. Qed.

Lemma room_nested room n m : (m < n)%nat -> room_for room n ->
  match nested room with None => raised RecursionError | Some inside => room_for inside m end.
Proof. destruct room as [[|r]|]; cbn; [|..|done]; intros H1 H2; [|intros H3]; apply H2; lia. Qed.

Lemma scan_reads fuel :
  (forall room text, room_for room (length text) -> (2 * length text + 1 <= fuel)%nat ->
     reads_on text (scan_value hooks fuel room text)) /\
  (forall room text, room_for room (length text) -> (2 * length text + 2 <= fuel)%nat ->
     reads_on text (scan_elements hooks fuel room text)) /\
  (forall room text, room_for room (length text) -> (2 * length text + 2 <= fuel)%nat ->
     reads_on text (scan_members hooks fuel room text)).
Proof.
  induction fuel as [|fuel (IHv & IHe & IHm)]; [split; [|split]; intros; lia|].
  split; [|split]; intros room text Hroom Hl; cbn [scan_value scan_elements scan_members].
  - destruct (starts 34 text) as [rest|] eqn:E1.
    { apply starts_length in E1. pose proof (scan_string_read rest) as Hs.
      destruct (scan_string rest) as [[s rest']|e]; cbn in *; [lia|by left]. }
    destruct (starts 91 text) as [rest|] eqn:E2.
    { apply starts_length in E2. pose proof (skip_space_length rest) as Hk.
      pose proof (room_nested room (length text) (length (skip_space rest)) ltac:(lia) Hroom) as Hin.
      destruct (nested room) as [inside|]; [|by right].
      destruct (starts 93 _) as [rest'|] eqn:E3; [apply starts_length in E3; cbn; lia|].
      specialize (IHe inside (skip_space rest) Hin ltac:(lia)). destruct (scan_elements _ _ _ _) as [[? ?]|]; cbn in *; [lia|done]. }
    destruct (starts 123 text) as [rest|] eqn:E4.
    { apply starts_length in E4. pose proof (skip_space_length rest) as Hk.
      pose proof (room_nested room (length text) (length (skip_space rest)) ltac:(lia) Hroom) as Hin.
      destruct (nested room) as [inside|]; [|by right].
      destruct (starts 125 _) as [rest'|] eqn:E5.
      { apply starts_length in E5. apply reads_with_rest; [apply Hhooks|lia]. }
      specialize (IHm inside (skip_space rest) Hin ltac:(lia)). destruct (scan_members _ _ _ _) as [[? ?]|]; [|done].
      apply reads_with_rest; [apply Hhooks|cbn in IHm; lia]. }
    destruct (scan_constant hooks text) as [[r rest]|] eqn:E6; [by apply scan_constant_reads|].
    apply scan_number_reads.
  - specialize (IHv room text Hroom ltac:(lia)). destruct (scan_value _ _ _ _) as [[item rest]|]; [|done]. cbn in IHv.
    pose proof (skip_space_length rest) as Hk.
    destruct (starts 93 _) as [rest'|] eqn:E1; [apply starts_length in E1; cbn; lia|].
    destruct (starts 44 _) as [rest'|] eqn:E2; [|by left]. apply starts_length in E2.
    pose proof (skip_space_length rest') as Hk'. specialize (IHe room (skip_space rest') (room_less room (length text) (length (skip_space rest')) ltac:(lia) Hroom) ltac:(lia)).
    destruct (scan_elements _ _ _ _) as [[? ?]|]; cbn in *; [lia|done].
  - destruct (starts 34 text) as [rest|] eqn:E0; [|by left]. apply starts_length in E0.
    pose proof (scan_string_read rest) as Hs. destruct (scan_string rest) as [[key r1]|e]; [|by left].
    cbn in Hs. pose proof (skip_space_length r1) as Hk1.
    destruct (starts 58 _) as [r2|] eqn:E1; [|by left]. apply starts_length in E1.
    pose proof (skip_space_length r2) as Hk2. specialize (IHv room (skip_space r2) (room_less room (length text) (length (skip_space r2)) ltac:(lia) Hroom) ltac:(lia)).
    destruct (scan_value _ _ _ _) as [[value r3]|]; [|done]. cbn in IHv. pose proof (skip_space_length r3) as Hk3.
    destruct (starts 125 _) as [r4|] eqn:E2; [apply starts_length in E2; cbn; lia|].
    destruct (starts 44 _) as [r4|] eqn:E3; [|by left]. apply starts_length in E3.
    pose proof (skip_space_length r4) as Hk4. specialize (IHm room (skip_space r4) (room_less room (length text) (length (skip_space r4)) ltac:(lia) Hroom) ltac:(lia)).
    destruct (scan_members _ _ _ _) as [[? ?]|]; cbn in *; [lia|done].
Qed.

(** Reading a document ends: what it raises is the decoder's error or a hook's. *)
Lemma json_loads_raises text e : json_loads hooks text = Raised e -> e = JSONDecodeError \/ raised e.
Proof.
  unfold json_loads. destruct (starts _ _); [intros [= <-]; by left|].
  destruct (scan_reads (scan_fuel text)) as [Hv _]. pose proof (skip_space_length text) as Hk.
  specialize (Hv None (skip_space text) I). unfold scan_fuel in *.
  specialize (Hv ltac:(lia)). destruct (scan_value _ _ _ _) as [[v rest]|e']; [|by intros [= <-]].
  destruct (skip_space rest); intros [= <-]. by left.
Qed.
End Ends.

(** ** What was written is read *)

Section RoundTrip.
Context `{FloatText}.
Variable hooks : json_hooks.

Definition str_ok (s : pystr) : Prop := Forall (Z.le 0) s.

(** The hooks take the numbers and objects of a value for what they are. *)
Fixpoint readable (v : json) : Prop :=
  match v with
  | JNull | JBool _ => True
  | JInt z => hk_int hooks (int_repr z) = Returned (JInt z)
  | JFloat f => float_shape (float_repr f) /\ hk_float hooks (float_repr f) = Returned (JFloat f)
  | JString s => str_ok s
  | JArray l => foldr (fun a P => readable a /\ P) True l
  | JObject l =>
      hk_object hooks l = Returned (JObject l) /\
      foldr (fun m P => (str_ok m.1 /\ readable m.2) /\ P) True l
  end.

Lemma readable_list {A} (Q : A -> Prop) l : foldr (fun a P => Q a /\ P) True l <-> Forall Q l.
Proof. induction l; cbn; rewrite ?Forall_nil, ?Forall_cons; naive_solver. Qed.

(** What a value starts with is no blank and closes nothing. *)
Definition opens (text : pystr) : Prop :=
  exists c t, text = c :: t /\ is_json_space c = false /\ c <> 93 /\ c <> 125 /\ c <> 65279.

(** A number: a digit, or a minus sign and a digit. *)
Definition number_head (text : pystr) : Prop :=
  exists sign c t, text = sign ++ c :: t /\ sign_shape sign /\ 48 <= c <= 57.

Lemma unsigned_head sign ds t : sign_shape sign -> unsigned_shape ds -> number_head (sign ++ ds ++ t).
Proof.
  intros Hs [-> |(c & ds' & -> & Hc & _)]; [exists sign, 48, t|exists sign, c, (ds' ++ t)];
    (split; [done|split; [done|lia]]).
Qed.

Lemma int_head z : number_head (int_repr z).
Proof.
  destruct (int_repr_shape z) as (sign & ds & -> & Hs & Hd). rewrite <-(app_nil_r ds). by apply unsigned_head.
Qed.

Lemma float_head text : float_shape text -> number_head text.
Proof. intros (sign & ds & f & e & -> & Hs & Hd & _). by apply unsigned_head. Qed.

Lemma number_opens text : number_head text -> opens text.
Proof.
  intros (sign & c & t & -> & [-> | ->] & Hc); [|by exists 45, (c :: t)].
  exists c, t. split; [done|]. unfold is_json_space. repeat split; lia.
Qed.

(** A number goes to the number pattern: no other token starts as it does. *)
Lemma scan_value_number fuel room text rest :
  number_head text ->
  scan_value hooks (S fuel) room (text ++ rest) = scan_number hooks (text ++ rest).
Proof.
  intros (sign & c & t & -> & Hs & Hc). cbn [scan_value].
  assert (forall k, c <> k -> (c =? k) = false) as Hne by (intros; by apply Z.eqb_neq).
  assert (forall k, k <> c -> (k =? c) = false) as Hne' by (intros; by apply Z.eqb_neq).
  destruct Hs as [-> | ->]; unfold scan_constant; cbn [app starts after_prefix py map].
  - rewrite !Hne by lia. rewrite !Hne' by (cbn; lia). done.
  - cbn -[scan_number]. rewrite !Hne' by (cbn; lia). done.
Qed.

Lemma json_text_scalar v text : scalar_text v = Some text -> json_text v = text.
Proof. unfold json_text. destruct v as [|[]| | | | |]; cbn; intros; simplify_eq; try done; by rewrite app_nil_r. Qed.

Lemma element_chunks_cons before a l :
  concat (element_chunks json_chunks before (a :: l)) =
  before ++ json_text a ++ concat (element_chunks json_chunks (py ",") l).
Proof.
  cbn [element_chunks]. destruct (scalar_text a) as [text|] eqn:E.
  - apply json_text_scalar in E. rewrite E. cbn. by rewrite <-app_assoc.
  - cbn. by rewrite concat_app.
Qed.

Lemma member_chunks_cons before k a l :
  concat (member_chunks json_chunks before ((k, a) :: l)) =
  before ++ encode_string k ++ 58 :: json_text a ++ concat (member_chunks json_chunks (py ",") l).
Proof. cbn [member_chunks]. cbn [concat app]. rewrite concat_app. cbn. done. Qed.

Lemma json_text_array a l :
  json_text (JArray (a :: l)) = 91 :: json_text a ++ concat (element_chunks json_chunks (py ",") l).
Proof. unfold json_text at 1. cbn [json_chunks]. by rewrite element_chunks_cons. Qed.

Lemma json_text_object k a l :
  json_text (JObject ((k, a) :: l)) =
  123 :: encode_string k ++ 58 :: json_text a ++ concat (member_chunks json_chunks (py ",") l).
Proof. unfold json_text at 1. cbn [json_chunks]. by rewrite member_chunks_cons. Qed.

Lemma json_text_opens v : readable v -> opens (json_text v).
Proof.
  assert (forall c t, is_json_space c = false -> c <> 93 -> c <> 125 -> c <> 65279 -> opens (c :: t)) as Ho
    by (intros; by eexists _, _).
  destruct v as [|[]|z|f|s|[|a l]|[|[k a] l]]; cbn [readable]; intros Hv;
    rewrite ?json_text_array, ?json_text_object; try by apply Ho.
  - rewrite (json_text_scalar (JInt z) _ eq_refl). apply number_opens, int_head.
  - rewrite (json_text_scalar (JFloat f) _ eq_refl). apply number_opens, float_head, Hv.
Qed.

Lemma opens_skip text rest : opens text -> skip_space (text ++ rest) = text ++ rest.
Proof. intros (c & t & -> & Hc & _). cbn. by rewrite Hc. Qed.

Lemma opens_not text rest c : opens text -> c = 93 \/ c = 125 \/ c = 65279 -> starts c (text ++ rest) = None.
Proof. intros (c' & t & -> & _ & ? & ? & ?) Hc. cbn. rewrite (proj2 (Z.eqb_neq _ _)); [done|]. naive_solver. Qed.

Lemma after_element_stops l rest : stops (concat (element_chunks json_chunks (py ",") l) ++ rest).
Proof. destruct l as [|a l]; [by right; left|]. rewrite element_chunks_cons. by left. Qed.

Lemma after_member_stops l rest : stops (concat (member_chunks json_chunks (py ",") l) ++ rest).
Proof. destruct l as [|[k a] l]; [by right; right|]. rewrite member_chunks_cons. by left. Qed.

Definition reads_back (v : json) : Prop :=
  forall fuel rest, (2 * length (json_text v) + 1 <= fuel)%nat -> stops rest ->
    scan_value hooks fuel None (json_text v ++ rest) = Returned (v, rest).

Lemma after_comma text : skip_space (py "," ++ text) = 44 :: text.
Proof. reflexivity. Qed.

Lemma scan_elements_text a l rest fuel :
  Forall (fun a => readable a /\ reads_back a) (a :: l) ->
  (2 * length (json_text a ++ concat (element_chunks json_chunks (py ",") l)) <= fuel)%nat ->
  scan_elements hooks fuel None (json_text a ++ concat (element_chunks json_chunks (py ",") l) ++ rest) =
    Returned (a :: l, rest).
Proof.
  revert a fuel. induction l as [|b l IH]; intros a fuel [[Ha Hra] Hl]%Forall_cons Hf;
    rewrite ?element_chunks_cons in *; rewrite length_app in Hf;
    (destruct fuel as [|fuel]; [cbn in Hf; lia|]); cbn [scan_elements].
  - rewrite Hra; [done|cbn in Hf; lia|by right; left].
  - rewrite Hra; [|cbn in Hf; lia|by left]. apply Forall_cons in Hl as Hb. destruct Hb as [[Hb _] _].
    rewrite <-!app_assoc, after_comma. cbn [starts Z.eqb Pos.eqb].
    rewrite opens_skip by (by apply json_text_opens).
    rewrite IH; [done|done|]. rewrite !length_app in *. change (length (py ",")) with 1%nat in Hf. lia.
Qed.

Lemma scan_members_text k a l rest fuel :
  Forall (fun m => str_ok m.1 /\ readable m.2 /\ reads_back m.2) ((k, a) :: l) ->
  (2 * length (encode_string k ++ 58%Z :: json_text a ++ concat (member_chunks json_chunks (py ",") l)) <= fuel)%nat ->
  scan_members hooks fuel None
    (encode_string k ++ 58 :: json_text a ++ concat (member_chunks json_chunks (py ",") l) ++ rest) =
    Returned ((k, a) :: l, rest).
Proof.
  revert k a fuel. induction l as [|[k' b] l IH]; intros k a fuel [(Hk & Ha & Hra) Hl]%Forall_cons Hf;
    cbn [fst snd] in Hk, Ha, Hra;
    rewrite ?member_chunks_cons in *; rewrite length_app in Hf; cbn [length] in Hf; rewrite length_app in Hf;
    (destruct fuel as [|fuel]; [cbn in Hf; lia|]); cbn [scan_members]; unfold encode_string at 1;
    cbn [app starts Z.eqb Pos.eqb]; rewrite <-app_assoc; cbn [app]; rewrite scan_string_text by done;
    cbn [skip_space is_json_space orb Z.eqb Pos.eqb starts]; rewrite opens_skip by (by apply json_text_opens).
  - rewrite Hra; [done|lia|by right; right].
  - rewrite Hra; [|lia|by left].
    rewrite <-!app_assoc, after_comma. cbn [starts Z.eqb Pos.eqb].
    change (skip_space (encode_string k' ++ ?x)) with (encode_string k' ++ x). cbn [app]. rewrite <-app_assoc.
    rewrite IH; [done|done|]. rewrite !length_app in *. change (length (py ",")) with 1%nat in Hf.
    cbn [length] in *. rewrite !length_app in *. lia.
Qed.

Lemma scan_value_array fuel room text :
  scan_value hooks (S fuel) room (91 :: text) =
  match nested room with
  | None => Raised RecursionError
  | Some inside =>
      match starts 93 (skip_space text) with
      | Some rest => Returned (JArray [], rest)
      | None =>
          match scan_elements hooks fuel inside (skip_space text) with
          | Returned (items, rest) => Returned (JArray items, rest)
          | Raised e => Raised e
          end
      end
  end.
Proof. reflexivity. Qed.

Lemma scan_value_object fuel room text :
  scan_value hooks (S fuel) room (123 :: text) =
  match nested room with
  | None => Raised RecursionError
  | Some inside =>
      match starts 125 (skip_space text) with
      | Some rest => with_rest (hk_object hooks []) rest
      | None =>
          match scan_members hooks fuel inside (skip_space text) with
          | Returned (members, rest) => with_rest (hk_object hooks members) rest
          | Raised e => Raised e
          end
      end
  end.
Proof. reflexivity. Qed.

Lemma scan_value_text v : readable v -> reads_back v.
Proof.
  induction v as [|[]|z|f|s|l IH|l IH] using json_nested_ind; intros Hv fuel rest Hf Hr;
    (destruct fuel as [|fuel]; [lia|]); try done.
  - rewrite (json_text_scalar (JInt z) _ eq_refl), scan_value_number by apply int_head.
    rewrite scan_number_int by done. cbn in Hv. by rewrite Hv.
  - destruct Hv as [Hs Hv]. rewrite (json_text_scalar (JFloat f) _ eq_refl).
    rewrite scan_value_number by (by apply float_head). rewrite scan_number_float by done. by rewrite Hv.
  - rewrite (json_text_scalar (JString s) _ eq_refl). unfold encode_string. cbn [app].
    rewrite <-app_assoc. cbn [app]. cbn [scan_value starts Z.eqb Pos.eqb]. by rewrite scan_string_text.
  - destruct l as [|a l]; [done|]. cbn [readable] in Hv. apply (readable_list readable) in Hv.
    assert (Forall (fun a => readable a /\ reads_back a) (a :: l)) as Hall.
    { apply Forall_and. split; [done|]. rewrite Forall_forall in *. auto. }
    rewrite json_text_array in *. cbn [app length] in *. rewrite scan_value_array, <-app_assoc. cbn [nested].
    apply Forall_cons in Hv as [Ha _].
    rewrite opens_skip, opens_not by (try apply json_text_opens; tauto).
    by rewrite scan_elements_text by (done || lia).
  - destruct Hv as [Ho Hv]. destruct l as [|[k a] l]; [cbn; by rewrite Ho|].
    apply (readable_list (fun m : pystr * json => str_ok m.1 /\ readable m.2)) in Hv.
    assert (Forall (fun m : pystr * json => str_ok m.1 /\ readable m.2 /\ reads_back m.2) ((k, a) :: l)) as Hall.
    { rewrite Forall_forall in *. intros m Hm. destruct (Hv m Hm). auto. }
    rewrite json_text_object in *. cbn [app length] in *. rewrite scan_value_object, <-app_assoc.
    cbn [app nested]. rewrite <-app_assoc.
    change (skip_space (encode_string k ++ ?x)) with (encode_string k ++ x).
    change (starts 125 (encode_string k ++ ?x)) with (@None pystr).
    rewrite scan_members_text by (done || lia). by rewrite Ho.
Qed.

(** The text of a value is read as the value. *)
Lemma json_loads_text v : readable v -> json_loads hooks (json_text v) = Returned v.
Proof.
  intros Hv. pose proof (json_text_opens v Hv) as Ho. unfold json_loads, scan_fuel.
  pose proof (opens_skip _ [] Ho) as Hk. pose proof (opens_not _ [] 65279 Ho ltac:(tauto)) as Hs.
  rewrite app_nil_r in Hk, Hs. rewrite Hs, Hk.
  pose proof (scan_value_text v Hv (S (2 * length (json_text v))) [] ltac:(lia) I) as Hr.
  rewrite app_nil_r in Hr. by rewrite Hr.
Qed.
End RoundTrip.

(** ** Integers read back *)

Lemma decimal_cons n : 0 <= n -> exists c s, decimal n = c :: s /\ (c =? 45) = false.
Proof.
  intros Hn. destruct (Z.eq_dec n 0) as [->|Hne]; [by exists 48, []|].
  destruct (decimal_head n) as (c & s & -> & Hc); [lia|]. exists c, s. split; [done|]. apply Z.eqb_neq. lia.
Qed.

Lemma int_of_text_repr z : int_of_text (int_repr z) = z.
Proof.
  unfold int_repr. destruct (Z.ltb_spec z 0).
  - cbn [int_of_text Z.eqb Pos.eqb]. rewrite undecimal_decimal by lia. lia.
  - destruct (decimal_cons z) as (c & s & E & Hc); [done|]. unfold int_of_text. rewrite E, Hc, <-E.
    by apply undecimal_decimal.
Qed.
