(* ===== verification/JsonGrammar.v ===== *)
(** * The grammar of the texts that are read

    What [json.loads] takes for a value is a text of this grammar: an abstract
    description of the decoder, by the tokens it consumes.  The properties of what
    a document decodes to are proved by induction on it. *)

From Stdlib Require Import SpecFloat.
From S2P Require Import Prelude Python Leader LeaseRecord PyObject JsonText JsonTextLaws.
Open Scope Z_scope.

(** ** Characters of numbers *)

Definition number_char (c : Z) : bool :=
  is_digit c || (c =? 43) || (c =? 45) || (c =? 46) || (c =? 69) || (c =? 101).

Definition number_text (s : pystr) : bool := forallb number_char s.

Lemma digits_number s : digits s -> number_text s = true.
Proof.
  unfold digits, number_text. induction s as [|c s IH]; cbn; [done|].
  intros [Hc Hs]%andb_true_iff. apply andb_true_iff. split; [unfold number_char; by rewrite Hc|by apply IH].
Qed.

Lemma number_text_app s t : number_text (s ++ t) = number_text s && number_text t.
Proof. apply forallb_app. Qed.

Lemma unsigned_number s : unsigned_shape s -> number_text s = true.
Proof.
  intros [-> |(c & ds & -> & Hc & Hd)]; [done|]. apply (digits_number (c :: ds)). unfold digits in *. cbn.
  rewrite Hd. unfold is_digit. lia.
Qed.

Lemma sign_number s : sign_shape s -> number_text s = true.
Proof. by intros [-> | ->]. Qed.

Lemma int_repr_number z : number_text (int_repr z) = true.
Proof.
  destruct (int_repr_shape z) as (sign & ds & -> & Hs & Hd).
  by rewrite number_text_app, sign_number, unsigned_number.
Qed.

Lemma float_shape_number s : float_shape s -> number_text s = true.
Proof.
  intros (sign & ds & f & e & -> & Hs & Hd & Hf & He & _).
  rewrite !number_text_app, sign_number, unsigned_number by done.
  assert (number_text f = true) as ->
    by (destruct Hf as [-> |(fs & -> & _ & Hfs)]; [done|cbn; by apply digits_number]).
  destruct He as [-> |(es & sgn & -> & _ & Hes & Hsg)]; [done|]. cbn.
  change (number_text (sgn ++ es) = true). rewrite number_text_app, (digits_number es) by done.
  by destruct Hsg as [-> |[-> | ->]].
Qed.

(** A character that neither opens nor closes anything. *)
Definition plain_char (c : Z) : bool :=
  negb ((c =? 34) || (c =? 91) || (c =? 93) || (c =? 123) || (c =? 125)).

Lemma number_text_plain s : number_text s = true -> forallb plain_char s = true.
Proof.
  unfold number_text. rewrite !forallb_forall. intros Hs c Hc. specialize (Hs c Hc).
  unfold number_char, is_digit, plain_char in *. lia.
Qed.

(** ** Tokens *)

Definition blank (s : pystr) : Prop := forallb is_json_space s = true.

Definition low_escape_follows (text : pystr) : Prop :=
  exists a b c d low rest, text = 92 :: 117 :: a :: b :: c :: d :: rest /\
    four_hex a b c d = Some low /\ is_low low = true.

(** A string after its opening quote, with what it stands for. *)
Inductive string_body : pystr -> pystr -> Prop :=
| body_end : string_body [34] []
| body_plain c t s : c <> 34 -> c <> 92 -> 32 <= c -> string_body t s -> string_body (c :: t) (c :: s)
| body_simple e c t s : simple_escape e = Some c -> string_body t s -> string_body (92 :: e :: t) (c :: s)
| body_unit a b c d u t s :
    four_hex a b c d = Some u -> (is_high u = true -> ~ low_escape_follows t) -> string_body t s ->
    string_body (92 :: 117 :: a :: b :: c :: d :: t) (u :: s)
| body_pair a b c d high a' b' c' d' low t s :
    four_hex a b c d = Some high -> is_high high = true ->
    four_hex a' b' c' d' = Some low -> is_low low = true -> string_body t s ->
    string_body (92 :: 117 :: a :: b :: c :: d :: 92 :: 117 :: a' :: b' :: c' :: d' :: t)
      (join_surrogates high low :: s).

Section Grammar.
Variable hooks : json_hooks.

(** Constants and numbers. *)
Definition token_value (v : json) : Prop :=
  v = JNull \/ (exists b, v = JBool b) \/
  (exists sign ds, sign_shape sign /\ digits ds /\ hk_int hooks (sign ++ ds) = Returned v) \/
  (exists t, hk_float hooks t = Returned v \/ hk_constant hooks t = Returned v).

Inductive value_text : pystr -> json -> Prop :=
| vt_string t s : string_body t s -> value_text (34 :: t) (JString s)
| vt_token t v : forallb plain_char t = true -> token_value v -> value_text t v
| vt_empty_array ws : blank ws -> value_text (91 :: ws ++ [93]) (JArray [])
| vt_array ws t items : blank ws -> elements_text t items -> value_text (91 :: ws ++ t) (JArray items)
| vt_empty_object ws v : blank ws -> hk_object hooks [] = Returned v -> value_text (123 :: ws ++ [125]) v
| vt_object ws t members v :
    blank ws -> members_text t members -> hk_object hooks members = Returned v -> value_text (123 :: ws ++ t) v
with elements_text : pystr -> list json -> Prop :=
| et_last t v ws : value_text t v -> blank ws -> elements_text (t ++ ws ++ [93]) [v]
| et_more t v ws1 ws2 t2 items :
    value_text t v -> blank ws1 -> blank ws2 -> elements_text t2 items ->
    elements_text (t ++ ws1 ++ 44 :: ws2 ++ t2) (v :: items)
with members_text : pystr -> list (pystr * json) -> Prop :=
| mt_last k key ws1 ws2 t v ws3 :
    string_body k key -> blank ws1 -> blank ws2 -> value_text t v -> blank ws3 ->
    members_text (34 :: k ++ ws1 ++ 58 :: ws2 ++ t ++ ws3 ++ [125]) [(key, v)]
| mt_more k key ws1 ws2 t v ws3 ws4 t2 members :
    string_body k key -> blank ws1 -> blank ws2 -> value_text t v -> blank ws3 -> blank ws4 ->
    members_text t2 members ->
    members_text (34 :: k ++ ws1 ++ 58 :: ws2 ++ t ++ ws3 ++ 44 :: ws4 ++ t2) ((key, v) :: members).

(** A document: a value between blanks. *)
Definition document_text (text : pystr) (v : json) : Prop :=
  exists ws t ws', text = ws ++ t ++ ws' /\ blank ws /\ blank ws' /\ value_text t v.
End Grammar.

Scheme value_text_mind := Minimality for value_text Sort Prop
with elements_text_mind := Minimality for elements_text Sort Prop
with members_text_mind := Minimality for members_text Sort Prop.
Combined Scheme grammar_ind from value_text_mind, elements_text_mind, members_text_mind.

(** ** The decoder follows the grammar *)

Lemma skip_space_blank text : exists ws, text = ws ++ skip_space text /\ blank ws.
Proof.
  induction text as [|c text (ws & E & Hb)]; [by exists []|]. cbn. destruct (is_json_space c) eqn:Ec; [|by exists []].
  exists (c :: ws). split; [by rewrite E at 1|]. unfold blank in *. cbn. by rewrite Ec.
Qed.

Lemma scan_string_body text s rest :
  scan_string text = Returned (s, rest) -> exists t, text = t ++ rest /\ string_body t s.
Proof.
  revert s rest. induction text as [text IH] using (induction_ltof1 _ (@length Z)). unfold ltof in IH.
  assert (forall c text' s rest, (length text' < length text)%nat -> push c (scan_string text') = Returned (s, rest) ->
    exists s' t, s = c :: s' /\ text' = t ++ rest /\ string_body t s') as Hpush.
  { intros c text' s rest Hl (s' & Hs & ->)%push_returned. destruct (IH text' Hl _ _ Hs) as (t & -> & Ht). eauto. }
  intros s rest H. destruct text as [|c text]; [done|]. cbn [scan_string] in H.
  destruct (Z.eqb_spec c 34) as [->|Hq]; [injection H as <- <-; by exists [34]; split; [|constructor]|].
  destruct (Z.eqb_spec c 92) as [->|Hb].
  2: { destruct (Z.ltb_spec c 32); [done|]. apply Hpush in H as (s' & t & -> & -> & Ht); [|cbn; lia].
       exists (c :: t). split; [done|]. by constructor. }
  destruct text as [|e text]; [done|]. destruct (Z.eqb_spec e 117) as [->|Hu].
  2: { destruct (simple_escape e) as [c|] eqn:Ec; [|done].
       apply Hpush in H as (s' & t & -> & -> & Ht); [|cbn; lia]. exists (92 :: e :: t). split; [done|]. by constructor. }
  destruct text as [|a text]; [done|]. destruct text as [|b text]; [done|].
  destruct text as [|c text]; [done|]. destruct text as [|d text]; [done|].
  destruct (four_hex a b c d) as [high|] eqn:Eh; [|done].
  assert (push high (scan_string text) = Returned (s, rest) ->
    (is_high high = true -> ~ low_escape_follows text) ->
    exists t0, 92 :: 117 :: a :: b :: c :: d :: text = t0 ++ rest /\ string_body t0 s) as Hplain.
  { intros Hr Hh. apply Hpush in Hr as (s' & t & -> & E & Ht); [|cbn; lia]. subst text.
    exists (92 :: 117 :: a :: b :: c :: d :: t). split; [done|]. constructor; [done| |done].
    intros Hi (a1 & b1 & c1 & d1 & l1 & r1 & -> & Hl). apply (Hh Hi). by exists a1, b1, c1, d1, l1, (r1 ++ rest). }
  destruct text as [|x1 [|x2 [|x3 [|x4 [|x5 [|x6 text]]]]]];
    try (apply Hplain; [exact H|intros _ (? & ? & ? & ? & ? & ? & E & _); discriminate E]).
  destruct (is_high high && (x1 =? 92) && (x2 =? 117)) eqn:Ep.
  - apply andb_true_iff in Ep as [[Hh ->%Z.eqb_eq]%andb_true_iff ->%Z.eqb_eq].
    destruct (four_hex x3 x4 x5 x6) as [low|] eqn:El; [|done]. destruct (is_low low) eqn:Ew.
    + apply Hpush in H as (s' & t & -> & -> & Ht); [|cbn; lia].
      eexists. split; [|by eapply body_pair]. done.
    + apply Hplain; [exact H|]. intros _ (? & ? & ? & ? & ? & ? & [= <- <- <- <- <-] & E & Hl). congruence.
  - apply Hplain; [exact H|]. intros Hh (? & ? & ? & ? & ? & ? & [= -> -> _] & _). by rewrite Hh in Ep.
Qed.

Lemma starts_some c text rest : starts c text = Some rest -> text = c :: rest.
Proof. destruct text as [|c' text]; cbn; [done|]. destruct (Z.eqb_spec c' c) as [->|]; [|done]. by intros [= ->]. Qed.

Lemma after_prefix_some prefix text rest : after_prefix prefix text = Some rest -> text = prefix ++ rest.
Proof.
  revert text. induction prefix as [|p prefix IH]; intros [|c text]; cbn; intros H; simplify_eq; try done.
  destruct (Z.eqb_spec p c) as [->|]; [|done]. by rewrite (IH text).
Qed.

Lemma span_digits_some text ds rest : span_digits text = (ds, rest) -> text = ds ++ rest /\ digits ds.
Proof.
  revert ds rest. induction text as [|c text IH]; cbn; intros ds rest H; [by simplify_eq|].
  destruct (is_digit c) eqn:Ec; [|by simplify_eq]. destruct (span_digits text) as [ds' rest'].
  simplify_eq. destruct (IH ds' rest eq_refl) as [-> Hd]. split; [done|]. unfold digits in *. cbn. by rewrite Ec.
Qed.

Lemma scan_fraction_some text f rest : scan_fraction text = (f, rest) -> text = f ++ rest /\ number_text f = true.
Proof.
  unfold scan_fraction. destruct text as [|c text]; [by intros [= <- <-]|].
  destruct (span_digits text) as [ds rest'] eqn:E. apply span_digits_some in E as [-> Hd].
  destruct ds as [|d ds]; [by intros [= <- <-]|]. destruct (Z.eqb_spec c 46) as [->|]; intros [= <- <-]; [|done].
  split; [done|]. change (number_text (46 :: d :: ds)) with (number_text (d :: ds)). by apply digits_number.
Qed.

Lemma scan_exponent_some text f rest : scan_exponent text = (f, rest) -> text = f ++ rest /\ number_text f = true.
Proof.
  unfold scan_exponent. destruct text as [|e text]; [by intros [= <- <-]|].
  destruct ((e =? 101) || (e =? 69)) eqn:Ee; [|by intros [= <- <-]].
  assert (number_char e = true) as He.
  { apply orb_true_iff in Ee as [->%Z.eqb_eq | ->%Z.eqb_eq]; done. }
  destruct (match text with
    | s :: rest' => if (s =? 43) || (s =? 45) then ([s], rest') else ([], text)
    | [] => ([], text)
    end) as [sign from] eqn:Es.
  assert (text = sign ++ from /\ number_text sign = true) as [-> Hs].
  { destruct text as [|s text]; [by simplify_eq|]. destruct ((s =? 43) || (s =? 45)) eqn:Esg; simplify_eq; [|done].
    split; [done|]. apply orb_true_iff in Esg as [->%Z.eqb_eq | ->%Z.eqb_eq]; done. }
  destruct (span_digits from) as [ds rest'] eqn:E. apply span_digits_some in E as [-> Hd].
  destruct ds as [|d ds]; intros [= <- <-]; [done|]. split; [cbn; by rewrite <-app_assoc|].
  cbn. rewrite He. cbn. change (number_text (sign ++ d :: ds) = true).
  by rewrite number_text_app, Hs, digits_number.
Qed.

Lemma scan_integer_some text i rest :
  scan_integer text = Some (i, rest) ->
  exists sign ds, i = sign ++ ds /\ text = i ++ rest /\ sign_shape sign /\ digits ds.
Proof.
  unfold scan_integer.
  destruct (match text with
    | c :: rest' => if c =? 45 then ([45], rest') else ([], text)
    | [] => ([], text)
    end) as [sign from] eqn:Es.
  assert (text = sign ++ from /\ sign_shape sign) as [-> Hs].
  { unfold sign_shape. destruct text as [|s text]; [simplify_eq; auto|]. destruct (Z.eqb_spec s 45); simplify_eq; auto. }
  destruct from as [|c from]; [done|]. destruct (Z.eqb_spec c 48) as [->|].
  { intros [= <- <-]. exists sign, [48]. by rewrite <-app_assoc. }
  destruct (is_digit c); [|done]. destruct (span_digits (c :: from)) as [ds rest'] eqn:E.
  apply span_digits_some in E as [-> Hd]. intros [= <- <-]. exists sign, ds. by rewrite <-app_assoc.
Qed.

Section Sound.
Variable hooks : json_hooks.

(** A value was read off the front of the text. *)
Definition taken {A} (text : pystr) (P : pystr -> A -> Prop) (a : A) (rest : pystr) : Prop :=
  exists t, text = t ++ rest /\ P t a.

Lemma scan_number_taken text v rest :
  scan_number hooks text = Returned (v, rest) -> taken text (value_text hooks) v rest.
Proof.
  unfold scan_number. destruct (scan_integer text) as [[i r1]|] eqn:E1; [|done].
  apply scan_integer_some in E1 as (sign & ds & -> & -> & Hs & Hd). destruct (scan_fraction r1) as [f r2] eqn:E2.
  apply scan_fraction_some in E2 as [-> Hf]. destruct (scan_exponent r2) as [e r3] eqn:E3.
  apply scan_exponent_some in E3 as [-> He]. intros H.
  exists ((sign ++ ds) ++ f ++ e).
  assert (r3 = rest /\ token_value hooks v) as [-> Hv].
  { unfold token_value. destruct (f ++ e); [destruct (hk_int hooks _) eqn:E|destruct (hk_float hooks _) eqn:E];
      simplify_eq; (split; [done|]); eauto 8. }
  split; [by rewrite <-!app_assoc|]. apply vt_token; [|done]. apply number_text_plain.
  by rewrite !number_text_app, sign_number, digits_number, Hf, He.
Qed.

Lemma scan_constant_taken text r v rest0 rest :
  scan_constant hooks text = Some (r, rest0) -> with_rest r rest0 = Returned (v, rest) ->
  taken text (value_text hooks) v rest.
Proof.
  unfold scan_constant. intros H Hr.
  assert (forall p r0 rest1, forallb plain_char p = true -> after_prefix p text = Some rest1 ->
    (forall v, r0 = Returned v -> token_value hooks v) -> Some (r0, rest1) = Some (r, rest0) ->
    taken text (value_text hooks) v rest) as Hgo.
  { intros p r0 rest1 Hp ->%after_prefix_some Hv [= -> ->]. destruct r as [v'|]; [|done]. cbn in Hr.
    injection Hr as -> ->. exists p. split; [done|]. apply vt_token; auto. }
  destruct (after_prefix (py "null") text) eqn:E1.
  { eapply Hgo; [|exact E1| |exact H]; [done|]. intros ? [= <-]. by left. }
  destruct (after_prefix (py "true") text) eqn:E2.
  { eapply Hgo; [|exact E2| |exact H]; [done|]. intros ? [= <-]. right. left. eauto. }
  destruct (after_prefix (py "false") text) eqn:E3.
  { eapply Hgo; [|exact E3| |exact H]; [done|]. intros ? [= <-]. right. left. eauto. }
  destruct (after_prefix (py "NaN") text) eqn:E4.
  { eapply Hgo; [|exact E4| |exact H]; [done|]. intros ? Hv. right. right. right. eauto. }
  destruct (after_prefix (py "Infinity") text) eqn:E5.
  { eapply Hgo; [|exact E5| |exact H]; [done|]. intros ? Hv. right. right. right. eauto. }
  destruct (after_prefix (py "-Infinity") text) eqn:E6; [|done].
  eapply Hgo; [|exact E6| |exact H]; [done|]. intros ? Hv. right. right. right. eauto.
Qed.

Lemma skip_starts c text rest :
  starts c (skip_space text) = Some rest -> exists ws, text = ws ++ c :: rest /\ blank ws.
Proof. intros E%starts_some. destruct (skip_space_blank text) as (ws & E' & Hb). rewrite E in E'. eauto. Qed.

Lemma scan_taken fuel :
  (forall room text v rest, scan_value hooks fuel room text = Returned (v, rest) -> taken text (value_text hooks) v rest) /\
  (forall room text v rest, scan_elements hooks fuel room text = Returned (v, rest) -> taken text (elements_text hooks) v rest) /\
  (forall room text v rest, scan_members hooks fuel room text = Returned (v, rest) -> taken text (members_text hooks) v rest).
Proof.
  induction fuel as [|fuel (IHv & IHe & IHm)]; [done|].
  split; [|split]; intros room text v rest H; cbn [scan_value scan_elements scan_members] in H.
  - destruct (starts 34 text) as [r|] eqn:E1.
    { apply starts_some in E1 as ->. destruct (scan_string r) as [[s r']|] eqn:Es; [|done].
      apply scan_string_body in Es as (t & -> & Ht). injection H as <- <-. exists (34 :: t). split; [done|]. by constructor. }
    destruct (starts 91 text) as [r|] eqn:E2.
    { apply starts_some in E2 as ->. destruct (nested room) as [inside|]; [|done]. destruct (starts 93 _) as [r'|] eqn:E3.
      - apply skip_starts in E3 as (ws & -> & Hb). injection H as <- <-.
        exists (91 :: ws ++ [93]). split; [cbn; by rewrite <-app_assoc|]. by constructor.
      - destruct (scan_elements _ _ _ _) as [[l r']|] eqn:Ee; [|done]. injection H as <- <-.
        apply IHe in Ee as (t & Et & Ht). destruct (skip_space_blank r) as (ws & -> & Hb). rewrite Et.
        exists (91 :: ws ++ t). split; [cbn; by rewrite <-app_assoc|]. by constructor. }
    destruct (starts 123 text) as [r|] eqn:E4.
    { apply starts_some in E4 as ->. destruct (nested room) as [inside|]; [|done]. destruct (starts 125 _) as [r'|] eqn:E5.
      - apply skip_starts in E5 as (ws & -> & Hb). destruct (hk_object _ _) eqn:Eo; [|done]. injection H as <- <-.
        exists (123 :: ws ++ [125]). split; [cbn; by rewrite <-app_assoc|]. by constructor.
      - destruct (scan_members _ _ _ _) as [[l r']|] eqn:Ee; [|done].
        destruct (hk_object hooks l) eqn:Eo; [|done]. injection H as <- <-.
        apply IHm in Ee as (t & Et & Ht). destruct (skip_space_blank r) as (ws & -> & Hb). rewrite Et.
        exists (123 :: ws ++ t). split; [cbn; by rewrite <-app_assoc|]. by econstructor. }
    destruct (scan_constant hooks text) as [[r r']|] eqn:E6; [by eapply scan_constant_taken|].
    by apply scan_number_taken.
  - destruct (scan_value _ _ _ _) as [[a r]|] eqn:Ev; [|done]. apply IHv in Ev as (t & -> & Ht).
    destruct (starts 93 _) as [r'|] eqn:E1.
    { apply skip_starts in E1 as (ws & -> & Hb). injection H as <- <-.
      exists (t ++ ws ++ [93]). split; [by rewrite <-!app_assoc|]. by constructor. }
    destruct (starts 44 _) as [r'|] eqn:E2; [|done]. apply skip_starts in E2 as (ws & -> & Hb).
    destruct (scan_elements _ _ _ _) as [[l r'']|] eqn:Ee; [|done]. injection H as <- <-.
    apply IHe in Ee as (t' & Et & Ht'). destruct (skip_space_blank r') as (ws' & -> & Hb'). rewrite Et.
    exists (t ++ ws ++ 44 :: ws' ++ t'). split; [rewrite <-!app_assoc; cbn; by rewrite <-app_assoc|]. by constructor.
  - destruct (starts 34 text) as [r|] eqn:E0; [|done]. apply starts_some in E0 as ->.
    destruct (scan_string r) as [[key r0]|] eqn:Es; [|done]. apply scan_string_body in Es as (k & -> & Hk).
    destruct (starts 58 _) as [r1|] eqn:E1; [|done]. apply skip_starts in E1 as (ws1 & -> & Hb1).
    destruct (scan_value _ _ _ _) as [[a r2]|] eqn:Ev; [|done]. apply IHv in Ev as (t & Et & Ht).
    destruct (skip_space_blank r1) as (ws2 & -> & Hb2). rewrite Et.
    destruct (starts 125 _) as [r3|] eqn:E2.
    { apply skip_starts in E2 as (ws3 & -> & Hb3). injection H as <- <-.
      exists (34 :: k ++ ws1 ++ 58 :: ws2 ++ t ++ ws3 ++ [125]).
      split; [by do 3 (cbn; rewrite <-?app_assoc)|]. by constructor. }
    destruct (starts 44 _) as [r3|] eqn:E3; [|done]. apply skip_starts in E3 as (ws3 & -> & Hb3).
    destruct (scan_members _ _ _ _) as [[l r4]|] eqn:Em; [|done]. injection H as <- <-.
    apply IHm in Em as (t2 & Et2 & Ht2). destruct (skip_space_blank r3) as (ws4 & -> & Hb4). rewrite Et2.
    exists (34 :: k ++ ws1 ++ 58 :: ws2 ++ t ++ ws3 ++ 44 :: ws4 ++ t2).
    split; [by do 3 (cbn; rewrite <-?app_assoc)|]. by constructor.
Qed.

Lemma skip_space_done text : skip_space text = [] -> blank text.
Proof. intros E. destruct (skip_space_blank text) as (ws & E' & Hb). rewrite E, app_nil_r in E'. by subst. Qed.

(** What [json.loads] returns is the value of a document. *)
Lemma json_loads_document text v : json_loads hooks text = Returned v -> document_text hooks text v.
Proof.
  unfold json_loads. destruct (starts 65279 text); [done|].
  destruct (scan_value _ _ _ _) as [[v' rest]|] eqn:E; [|done].
  apply (proj1 (scan_taken _)) in E as (t & Et & Ht). destruct (skip_space rest) eqn:Er; [|done].
  intros [= <-]. apply skip_space_done in Er. destruct (skip_space_blank text) as (ws & E' & Hb).
  exists ws, t, rest. by rewrite E' at 1; rewrite Et.
Qed.
End Sound.
