(* ===== verification/Decimal.v ===== *)
(** * Decimal arithmetic

    The finite numbers of the standard module [decimal] and the operations that
    [bluetape/money] uses of it, in a context with its precision, its exponent
    range and its traps: the exact result of an operation is fitted to the
    context, and a context that traps [Inexact] and [Rounded] raises where it
    would be rounded.  [InvalidOperation], [DivisionByZero] and [Overflow] are
    trapped in every context here, as they are in the default one; all of them
    are [DecimalException].  The text forms are those of [str], of [format] with
    [f] and of the grammar [_DECIMAL_PATTERN]. *)

From S2P Require Import Prelude Python Leader LeaseRecord PyObject JsonText.
Open Scope Z_scope.

(** ** Numbers and contexts *)

Record dec : Type := Dec { d_sign : bool; d_int : Z; d_exp : Z }.

#[export] Instance dec_eq_dec : EqDecision dec.
Proof. solve_decision. Defined.

(** [len(self._int)] and [self.adjusted()]. *)
Definition num_digits (c : Z) : Z := Z.of_nat (length (decimal c)).
Definition adjusted (d : dec) : Z := d_exp d + num_digits (d_int d) - 1.

Inductive rounding : Type :=
| ROUND_05UP | ROUND_CEILING | ROUND_DOWN | ROUND_FLOOR
| ROUND_HALF_DOWN | ROUND_HALF_EVEN | ROUND_HALF_UP | ROUND_UP.

Record context : Type := {
  c_prec : Z;
  c_rounding : rounding;
  c_Emin : Z;
  c_Emax : Z;
  c_capitals : bool;
  (** [traps[Inexact]] and [traps[Rounded]]. *)
  c_exact : bool;
}.

Definition Etiny (c : context) : Z := c_Emin c - c_prec c + 1.
Definition Etop (c : context) : Z := c_Emax c - c_prec c + 1.

(** Whether a magnitude of [q] units and [r] of [m] parts is rounded away from
    zero. *)
Definition rounds_away (mode : rounding) (sign : bool) (q r m : Z) : bool :=
  match mode with
  | ROUND_DOWN => false
  | ROUND_UP => negb (r =? 0)
  | ROUND_HALF_UP => m <=? 2 * r
  | ROUND_HALF_DOWN => m <? 2 * r
  | ROUND_HALF_EVEN => if 2 * r =? m then Z.odd q else m <? 2 * r
  | ROUND_CEILING => negb sign && negb (r =? 0)
  | ROUND_FLOOR => sign && negb (r =? 0)
  | ROUND_05UP => ((q mod 10 =? 0) || (q mod 10 =? 5)) && negb (r =? 0)
  end.

(** [_rescale]: the number with the exponent [exp]. *)
Definition rescale (mode : rounding) (d : dec) (exp : Z) : dec :=
  if exp <=? d_exp d then Dec (d_sign d) (d_int d * 10 ^ (d_exp d - exp)) exp
  else
    let m := 10 ^ (exp - d_exp d) in
    let q := d_int d / m in
    let r := d_int d mod m in
    Dec (d_sign d) (if rounds_away mode (d_sign d) q r m then q + 1 else q) exp.

(** [_fix]: the number fitted to the context. *)
Definition fit (c : context) (d : dec) : outcome dec :=
  if d_int d =? 0 then Returned (Dec (d_sign d) 0 (Z.min (Z.max (d_exp d) (Etiny c)) (c_Emax c)))
  else
    let exp_min := num_digits (d_int d) + d_exp d - c_prec c in
    if Etop c <? exp_min then Raised DecimalException
    else
      let exp_min := Z.max exp_min (Etiny c) in
      if d_exp d <? exp_min then
        if c_exact c then Raised DecimalException
        else
          let r := rescale (c_rounding c) d exp_min in
          let r :=
            if c_prec c <? num_digits (d_int r) then Dec (d_sign r) (d_int r / 10) (d_exp r + 1) else r in
          if Etop c <? d_exp r then Raised DecimalException else Returned r
      else Returned d.

(** ** Operations *)

Definition is_zero (d : dec) : bool := d_int d =? 0.

(** The number of units of [10 ^ exp] in [d], for an [exp] that is no larger
    than its own exponent. *)
Definition units (d : dec) (exp : Z) : Z :=
  (if d_sign d then -1 else 1) * d_int d * 10 ^ (d_exp d - exp).

(** [__add__]. *)
Definition dec_add (c : context) (a b : dec) : outcome dec :=
  let exp := Z.min (d_exp a) (d_exp b) in
  let sum := units a exp + units b exp in
  let sign := if sum =? 0 then is_zero a && is_zero b && d_sign a && d_sign b else sum <? 0 in
  fit c (Dec sign (Z.abs sum) exp).

Definition copy_negate (d : dec) : dec := Dec (negb (d_sign d)) (d_int d) (d_exp d).
Definition copy_abs (d : dec) : dec := Dec false (d_int d) (d_exp d).

(** [__sub__], [__neg__] and [__abs__], which rounds. *)
Definition dec_sub (c : context) (a b : dec) : outcome dec := dec_add c a (copy_negate b).

Definition is_floor (mode : rounding) : bool := match mode with ROUND_FLOOR => true | _ => false end.

Definition dec_neg (c : context) (a : dec) : outcome dec :=
  fit c (if is_zero a && negb (is_floor (c_rounding c)) then copy_abs a else copy_negate a).

Definition dec_pos (c : context) (a : dec) : outcome dec :=
  fit c (if is_zero a && negb (is_floor (c_rounding c)) then copy_abs a else a).

Definition dec_abs (c : context) (a : dec) : outcome dec := if d_sign a then dec_neg c a else dec_pos c a.

(** [__mul__]. *)
Definition dec_mul (c : context) (a b : dec) : outcome dec :=
  fit c (Dec (xorb (d_sign a) (d_sign b)) (d_int a * d_int b) (d_exp a + d_exp b)).

(** The loop of [__truediv__] that takes zeros off an exact quotient. *)
Fixpoint strip_zeros (fuel : nat) (coeff exp ideal_exp : Z) : Z * Z :=
  match fuel with
  | O => (coeff, exp)
  | S fuel =>
      if (exp <? ideal_exp) && (coeff mod 10 =? 0) then strip_zeros fuel (coeff / 10) (exp + 1) ideal_exp
      else (coeff, exp)
  end.

(** [__truediv__] by a number that is not zero. *)
Definition dec_div (c : context) (a b : dec) : outcome dec :=
  let sign := xorb (d_sign a) (d_sign b) in
  let ideal_exp := d_exp a - d_exp b in
  if is_zero b then Raised DecimalException
  else if is_zero a then fit c (Dec sign 0 ideal_exp)
  else
    let shift := num_digits (d_int b) - num_digits (d_int a) + c_prec c + 1 in
    let exp := ideal_exp - shift in
    let n := if 0 <=? shift then d_int a * 10 ^ shift else d_int a in
    let m := if 0 <=? shift then d_int b else d_int b * 10 ^ (- shift) in
    let coeff := n / m in
    let remainder := n mod m in
    if negb (remainder =? 0) then
      fit c (Dec sign (if coeff mod 5 =? 0 then coeff + 1 else coeff) exp)
    else
      let '(coeff, exp) := strip_zeros (Z.to_nat (ideal_exp - exp)) coeff exp ideal_exp in
      fit c (Dec sign coeff exp).

(** [self.scaleb(n)] of an [int]. *)
Definition dec_scaleb (c : context) (a : dec) (n : Z) : outcome dec :=
  let limit := 2 * (c_Emax c + c_prec c) in
  if (- limit <=? n) && (n <=? limit) then fit c (Dec (d_sign a) (d_int a) (d_exp a + n))
  else Raised DecimalException.

(** [self.quantize(exp, rounding)], of a quantum with the exponent [exp]. *)
Definition dec_quantize (c : context) (mode : rounding) (a : dec) (exp : Z) : outcome dec :=
  if negb ((Etiny c <=? exp) && (exp <=? c_Emax c)) then Raised DecimalException
  else if is_zero a then fit c (Dec (d_sign a) 0 exp)
  else if (c_Emax c <? adjusted a) || (c_prec c <? adjusted a - exp + 1) then Raised DecimalException
  else
    let r := rescale mode a exp in
    if (c_Emax c <? adjusted r) || (c_prec c <? num_digits (d_int r)) then Raised DecimalException
    else if (d_exp a <? exp) && c_exact c then Raised DecimalException
    else fit c r.

(** [_cmp]: numbers by value. *)
Definition dec_compare (a b : dec) : comparison :=
  let exp := Z.min (d_exp a) (d_exp b) in units a exp ?= units b exp.

Definition dec_ltb (a b : dec) : bool := match dec_compare a b with Lt => true | _ => false end.
Definition dec_leb (a b : dec) : bool := match dec_compare a b with Gt => false | _ => true end.
Definition dec_eqb (a b : dec) : bool := match dec_compare a b with Eq => true | _ => false end.

Definition dec_of_int (z : Z) : dec := Dec (z <? 0) (Z.abs z) 0.

(** [int(self)] of a number that may have a fraction. *)
Definition int_of_dec (a : dec) : Z :=
  let s := if d_sign a then -1 else 1 in
  if 0 <=? d_exp a then s * d_int a * 10 ^ d_exp a else s * (d_int a / 10 ^ (- d_exp a)).

(** [self.to_integral_value()]. *)
Definition to_integral_value (c : context) (a : dec) : dec :=
  if 0 <=? d_exp a then a else rescale (c_rounding c) a 0.

(** ** Text *)

Definition sign_text (d : dec) : pystr := if d_sign d then [45] else [].
Definition zeros (n : Z) : pystr := repeat 48 (Z.to_nat n).

(** The digits with the point [dotplace] places from their left. *)
Definition intpart (digits : pystr) (dotplace : Z) : pystr :=
  if dotplace <=? 0 then [48]
  else if Z.of_nat (length digits) <=? dotplace then digits ++ zeros (dotplace - Z.of_nat (length digits))
  else take (Z.to_nat dotplace) digits.

Definition fracpart (digits : pystr) (dotplace : Z) : pystr :=
  if dotplace <=? 0 then zeros (- dotplace) ++ digits
  else if Z.of_nat (length digits) <=? dotplace then []
  else drop (Z.to_nat dotplace) digits.

Definition point (fraction : pystr) : pystr := match fraction with [] => [] | _ => 46 :: fraction end.

(** ["%+d" % n]. *)
Definition signed_text (n : Z) : pystr := if n <? 0 then 45 :: decimal (- n) else 43 :: decimal n.

(** [str(self)]. *)
Definition dec_str (capitals : bool) (d : dec) : pystr :=
  let digits := decimal (d_int d) in
  let leftdigits := d_exp d + Z.of_nat (length digits) in
  let dotplace := if (d_exp d <=? 0) && (-6 <? leftdigits) then leftdigits else 1 in
  sign_text d ++ intpart digits dotplace ++ point (fracpart digits dotplace) ++
  (if leftdigits =? dotplace then [] else (if capitals then 69 else 101) :: signed_text (leftdigits - dotplace)).

(** [format(self, "f")]. *)
Definition dec_format (d : dec) : pystr :=
  let d := if is_zero d && (0 <? d_exp d) then Dec (d_sign d) 0 0 else d in
  let digits := decimal (d_int d) in
  let dotplace := d_exp d + Z.of_nat (length digits) in
  sign_text d ++ intpart digits dotplace ++ point (fracpart digits dotplace).

Definition scan_sign (text : pystr) : bool * pystr :=
  match text with
  | c :: rest => if c =? 45 then (true, rest) else if c =? 43 then (false, rest) else (false, text)
  | [] => (false, [])
  end.

(** The exponent part of the grammar, to the end of the text. *)
Definition scan_power (text : pystr) : option Z :=
  match text with
  | [] => Some 0
  | c :: rest =>
      if (c =? 69) || (c =? 101) then
        let '(negative, rest) := scan_sign rest in
        match span_digits rest with
        | ((_ :: _) as digits, []) => Some (if negative then - undecimal digits else undecimal digits)
        | _ => None
        end
      else None
  end.

(** [_DECIMAL_PATTERN.fullmatch(text)], then [Decimal(text)]. *)
Definition dec_of_text (text : pystr) : option dec :=
  let '(sign, rest) := scan_sign text in
  let '(integer, rest) := span_digits rest in
  let '(fraction, rest) :=
    match rest with
    | c :: rest' => if c =? 46 then span_digits rest' else ([], rest)
    | [] => ([], [])
    end in
  match integer ++ fraction with
  | [] => None
  | all_digits => power ← scan_power rest; Some (Dec sign (undecimal all_digits) (power - Z.of_nat (length fraction)))
  end.
