(* ===== verification/DecimalLaws.v ===== *)
(** * Laws of the decimal numbers

    The rational number a decimal stands for, and that the operations of
    [Decimal.v] are exact in a context that traps [Inexact] and [Rounded]: what
    they return is the exact result, and they return it whenever it fits. *)

From Stdlib Require Import QArith Qpower Qabs.
From S2P Require Import Prelude Python Leader LeaseRecord PyObject JsonText JsonTextLaws Decimal.
Open Scope Z_scope.

(** ** Digits *)

Lemma num_digits_pos c : 0 <= c -> 1 <= num_digits c.
Proof. intros (a & s & E & _)%decimal_cons. unfold num_digits. rewrite E. cbn. lia. Qed.

Lemma num_digits_small c : 0 <= c < 10 -> num_digits c = 1.
Proof. intros H. unfold num_digits. by rewrite decimal_small. Qed.

Lemma num_digits_step c : 10 <= c -> num_digits c = num_digits (c / 10) + 1.
Proof. intros H. unfold num_digits. rewrite decimal_step by done. rewrite length_app. cbn. lia. Qed.

Lemma num_digits_bounds c : 0 < c -> 10 ^ (num_digits c - 1) <= c < 10 ^ num_digits c.
Proof.
  intros Hc. assert (H0 : 0 <= c) by lia. revert c H0 Hc.
  refine (decimal_ind _ _ _); intros c Hc.
  - intros Hp. rewrite num_digits_small by lia. cbn. lia.
  - intros IH Hp. rewrite num_digits_step by lia.
    assert (0 < c / 10) as Hq by (apply Z.div_str_pos; lia).
    specialize (IH Hq). pose proof (num_digits_pos (c / 10) ltac:(lia)).
    replace (num_digits (c / 10) + 1 - 1) with (num_digits (c / 10) - 1 + 1) by lia.
    rewrite !Z.pow_add_r by lia. change (10 ^ 1) with 10.
    pose proof (Z.div_mod c 10 ltac:(lia)). pose proof (Z.mod_pos_bound c 10 ltac:(lia)). lia.
Qed.

Lemma num_digits_le c k : 0 < c -> 0 <= k -> num_digits c <= k <-> c < 10 ^ k.
Proof.
  intros Hc Hk. pose proof (num_digits_bounds c Hc) as [Hl Hu]. split; intros H.
  - eapply Z.lt_le_trans; [exact Hu|]. apply Z.pow_le_mono_r; lia.
  - destruct (decide (num_digits c <= k)) as [|Hn]; [done|].
    assert (10 ^ k <= 10 ^ (num_digits c - 1)) by (apply Z.pow_le_mono_r; lia). lia.
Qed.

Lemma num_digits_shift c k : 0 < c -> 0 <= k -> num_digits (c * 10 ^ k) = num_digits c + k.
Proof.
  intros Hc Hk. pose proof (Z.pow_pos_nonneg 10 k ltac:(lia) Hk). pose proof (num_digits_pos c ltac:(lia)).
  assert (num_digits (c * 10 ^ k) <= num_digits c + k).
  { apply num_digits_le; [nia|lia|]. rewrite Z.pow_add_r by lia.
    pose proof (num_digits_bounds c Hc). nia. }
  assert (~ num_digits (c * 10 ^ k) <= num_digits c + k - 1); [|lia].
  rewrite num_digits_le by nia. replace (num_digits c + k - 1) with (num_digits c - 1 + k) by lia.
  rewrite Z.pow_add_r by lia. pose proof (num_digits_bounds c Hc). nia.
Qed.

(** ** Values *)

Definition signed (d : dec) : Z := (if d_sign d then -1 else 1) * d_int d.

Definition value (d : dec) : Q := (inject_Z (signed d) * 10 ^ d_exp d)%Q.

Lemma ten_pos e : (0 < 10 ^ e)%Q.
Proof. by apply Qpower_0_lt. Qed.

Lemma ten_split a b : (10 ^ (a + b) == 10 ^ a * 10 ^ b)%Q.
Proof. by apply Qpower_plus. Qed.

Lemma ten_inject k : 0 <= k -> (inject_Z (10 ^ k) == 10 ^ k)%Q.
Proof.
  intros Hk. rewrite <-(Z2Nat.id k) by done. generalize (Z.to_nat k) as n. clear k Hk.
  induction n as [|n IH]; [done|]. rewrite Nat2Z.inj_succ, <-Z.add_1_r, Z.pow_add_r, inject_Z_mult by lia.
  rewrite IH, ten_split. by apply Qmult_comp.
Qed.

(** A number by its units: the integers stand for the values. *)
Lemma value_units d exp : exp <= d_exp d -> (value d == inject_Z (units d exp) * 10 ^ exp)%Q.
Proof.
  intros H. unfold value, units, signed. assert (0 <= d_exp d - exp) as Hk by lia.
  rewrite !inject_Z_mult, (ten_inject _ Hk).
  rewrite <-!Qmult_assoc, <-ten_split. by replace (d_exp d - exp + exp) with (d_exp d) by lia.
Qed.

Lemma value_int s c e : (value (Dec s c e) == inject_Z ((if s then -1 else 1) * c) * 10 ^ e)%Q.
Proof. done. Qed.

Lemma inject_scaled a b e : (inject_Z a * 10 ^ e == inject_Z b * 10 ^ e)%Q <-> a = b.
Proof.
  pose proof (ten_pos e) as Hp. split; [|by intros ->].
  intros H. apply Qmult_inj_r in H; [by apply inject_Z_injective|]. intros E. rewrite E in Hp. by apply Qlt_irrefl in Hp.
Qed.

Lemma value_zero d : is_zero d = true -> (value d == 0)%Q.
Proof. unfold is_zero, value, signed. intros ->%Z.eqb_eq. by rewrite Z.mul_0_r, Qmult_0_l. Qed.

(** ** Fitting *)

Definition exponent_fits (c : context) (coeff exp : Z) : Prop :=
  num_digits coeff + exp - c_prec c <= Etop c /\ Z.max (num_digits coeff + exp - c_prec c) (Etiny c) <= exp.

Lemma fit_exact c d r : c_exact c = true -> fit c d = Returned r -> (value r == value d)%Q /\ (is_zero d = false -> r = d).
Proof.
  intros Hx. unfold fit. fold (is_zero d). rewrite Hx. destruct (is_zero d) eqn:Ez.
  { intros [= <-]. split; [|done]. rewrite (value_zero d) by done. by apply value_zero. }
  repeat case_match; by intros [= <-].
Qed.

Lemma fit_nonzero c d : c_exact c = true -> is_zero d = false ->
  fit c d = Returned d /\ exponent_fits c (d_int d) (d_exp d) \/
  fit c d = Raised DecimalException /\ ~ exponent_fits c (d_int d) (d_exp d).
Proof.
  intros Hx Hz. unfold fit, exponent_fits. fold (is_zero d). rewrite Hx, Hz.
  repeat case_match; bool_to_prop; [right|right|left]; (split; [done|lia]).
Qed.

Lemma fit_raised c d e : fit c d = Raised e -> e = DecimalException.
Proof. unfold fit. repeat case_match; by intros [= <-]. Qed.

(** ** Exact results *)

(** A sign and a magnitude that stand for an integer. *)
Lemma signed_abs (zero_sign : bool) z e :
  (value (Dec (if z =? 0 then zero_sign else z <? 0) (Z.abs z) e) == inject_Z z * 10 ^ e)%Q.
Proof.
  rewrite value_int. apply inject_scaled.
  destruct (Z.eqb_spec z 0) as [->|Hz]; [destruct zero_sign; lia|]. destruct (Z.ltb_spec z 0); lia.
Qed.

Lemma units_sum a b exp : exp <= d_exp a -> exp <= d_exp b ->
  (inject_Z (units a exp + units b exp) * 10 ^ exp == value a + value b)%Q.
Proof. intros Ha Hb. by rewrite (value_units a exp), (value_units b exp), inject_Z_plus, Qmult_plus_distr_l. Qed.

Section Exact.
Variable c : context.
Hypothesis exact_context : c_exact c = true.

Lemma dec_add_exact a b r : dec_add c a b = Returned r -> (value r == value a + value b)%Q.
Proof.
  intros [H _]%fit_exact; [|done]. rewrite H, signed_abs. apply units_sum; lia.
Qed.

Lemma value_negate a : (value (copy_negate a) == - value a)%Q.
Proof.
  unfold value, signed, copy_negate. cbn. rewrite !inject_Z_mult. destruct (d_sign a); cbn; ring.
Qed.

Lemma value_abs a : 0 <= d_int a -> (value (copy_abs a) == Qabs (value a))%Q.
Proof.
  intros Ha. unfold value, signed, copy_abs. cbn [d_sign d_int d_exp].
  rewrite Qabs_Qmult, (Qabs_pos (10 ^ _)) by apply Qlt_le_weak, ten_pos.
  apply Qmult_comp; [|done]. unfold Qeq. cbn. destruct (d_sign a); lia.
Qed.

Lemma dec_sub_exact a b r : dec_sub c a b = Returned r -> (value r == value a - value b)%Q.
Proof. intros H%dec_add_exact. by rewrite H, value_negate. Qed.

Lemma dec_neg_exact a r : dec_neg c a = Returned r -> (value r == - value a)%Q.
Proof.
  intros [H _]%fit_exact; [|done]. rewrite H. destruct (is_zero a) eqn:Ez; cbn [andb].
  - rewrite (value_zero a) by done. apply value_zero. by destruct (negb _).
  - apply value_negate.
Qed.

Lemma dec_abs_exact a r : 0 <= d_int a -> dec_abs c a = Returned r -> (value r == Qabs (value a))%Q.
Proof.
  intros Ha. rewrite <-(value_abs a) by done. unfold dec_abs, dec_pos.
  destruct (d_sign a) eqn:Es.
  - intros H%dec_neg_exact. rewrite H. unfold value, signed, copy_abs. cbn. rewrite Es. cbn.
    rewrite !inject_Z_mult. cbn. ring.
  - intros [H _]%fit_exact; [|done]. rewrite H. unfold value, signed, copy_abs.
    destruct (_ && _); cbn; by rewrite ?Es.
Qed.

Lemma value_product s t i j e f :
  (value (Dec (xorb s t) (i * j) (e + f)) == value (Dec s i e) * value (Dec t j f))%Q.
Proof.
  unfold value, signed. cbn. rewrite ten_split, !inject_Z_mult. destruct s, t; cbn; ring.
Qed.

Lemma dec_mul_exact a b r : dec_mul c a b = Returned r -> (value r == value a * value b)%Q.
Proof.
  intros [H _]%fit_exact; [|done]. rewrite H, value_product. by destruct a, b.
Qed.
End Exact.

(** ** Quotients *)

Lemma strip_zeros_spec fuel coeff exp ideal :
  let '(coeff', exp') := strip_zeros fuel coeff exp ideal in
  exp <= exp' /\ coeff = coeff' * 10 ^ (exp' - exp) /\ (exp <= ideal -> exp' <= ideal).
Proof.
  revert coeff exp. induction fuel as [|fuel IH]; intros coeff exp; cbn.
  { rewrite Z.sub_diag. cbn. lia. }
  destruct (_ && _) eqn:E; [|rewrite Z.sub_diag; cbn; lia].
  bool_to_prop. specialize (IH (coeff / 10) (exp + 1)). destruct (strip_zeros _ _ _ _) as [c' e'].
  destruct IH as (He & Hc & Hi). split_and!; [lia| |lia].
  replace (e' - exp) with (e' - (exp + 1) + 1) by lia. rewrite Z.pow_add_r by lia.
  pose proof (Z.div_mod coeff 10 ltac:(lia)). change (10 ^ 1) with 10. lia.
Qed.

(** The scaled operands of a division: a quotient of more digits than the
    context has. *)
Lemma scaled_quotient a b prec :
  0 < a -> 0 < b -> 0 <= prec ->
  let shift := num_digits b - num_digits a + prec + 1 in
  let n := if 0 <=? shift then a * 10 ^ shift else a in
  let m := if 0 <=? shift then b else b * 10 ^ (- shift) in
  0 < m /\ 10 ^ prec <= n / m /\ (inject_Z n * inject_Z b == inject_Z m * inject_Z a * 10 ^ shift)%Q.
Proof.
  intros Ha Hb Hp shift n m. pose proof (num_digits_bounds a Ha). pose proof (num_digits_bounds b Hb).
  pose proof (num_digits_pos a ltac:(lia)). pose proof (num_digits_pos b ltac:(lia)).
  assert (10 ^ prec * 10 ^ num_digits b = 10 ^ (num_digits a - 1) * 10 ^ shift \/ shift < 0) as Hpow.
  { destruct (decide (0 <= shift)); [left|lia]. rewrite <-!Z.pow_add_r by lia. f_equal. lia. }
  pose proof (Z.pow_pos_nonneg 10 prec ltac:(lia) Hp).
  unfold n, m. destruct (Z.leb_spec 0 shift) as [Hs|Hs].
  - pose proof (Z.pow_pos_nonneg 10 shift ltac:(lia) Hs). destruct Hpow as [Hpow|]; [|lia].
    split_and!; [lia|apply Z.div_le_lower_bound; nia|].
    rewrite inject_Z_mult, (ten_inject _ Hs). ring.
  - assert (0 <= - shift) as Hs' by lia. pose proof (Z.pow_pos_nonneg 10 (- shift) ltac:(lia) Hs').
    assert (10 ^ prec * 10 ^ (num_digits b) * 10 ^ (- shift) = 10 ^ (num_digits a - 1)) as Hq.
    { rewrite <-!Z.pow_add_r by lia. f_equal. lia. }
    split_and!; [nia|apply Z.div_le_lower_bound; nia|].
    rewrite inject_Z_mult, (ten_inject _ Hs').
    assert (10 ^ (- shift) * 10 ^ shift == 1)%Q as Hone by (rewrite <-ten_split; by replace (- shift + shift) with 0 by lia).
    transitivity (inject_Z a * inject_Z b * (10 ^ (- shift) * 10 ^ shift))%Q; [rewrite Hone|]; ring.
Qed.

(** A coefficient of too many digits does not fit. *)
Lemma too_many_digits c coeff exp : 0 <= c_prec c -> 10 ^ c_prec c <= coeff -> ~ exponent_fits c coeff exp.
Proof.
  intros Hp Hc [_ H]. assert (~ num_digits coeff <= c_prec c) as Hn; [|lia].
  pose proof (Z.pow_pos_nonneg 10 (c_prec c) ltac:(lia) Hp). rewrite num_digits_le by lia. lia.
Qed.

(** Zeros move between the coefficient and the exponent. *)
Lemma value_shift s coeff e k : 0 <= k -> (value (Dec s (coeff * 10 ^ k) e) == value (Dec s coeff (e + k)))%Q.
Proof.
  intros Hk. rewrite !value_int, Z.mul_assoc, inject_Z_mult, (ten_inject _ Hk), (Z.add_comm e k), ten_split. ring.
Qed.

Lemma exact_quotient s t q n m a b ea eb shift :
  0 < m -> n = m * q -> (inject_Z n * inject_Z b == inject_Z m * inject_Z a * 10 ^ shift)%Q ->
  (value (Dec (xorb s t) q (ea - eb - shift)) * value (Dec t b eb) == value (Dec s a ea))%Q.
Proof.
  intros Hm -> H.
  assert (inject_Z q * inject_Z b == inject_Z a * 10 ^ shift)%Q as Hq.
  { apply (Qmult_inj_l _ _ (inject_Z m)); [unfold Qeq; cbn; lia|]. rewrite !Qmult_assoc, <-inject_Z_mult. exact H. }
  rewrite <-value_product, value_int, value_int.
  replace (ea - eb - shift + eb) with (ea + - shift) by lia. rewrite ten_split, !inject_Z_mult.
  transitivity (inject_Z (if xorb (xorb s t) t then -1 else 1) * (inject_Z q * inject_Z b) * (10 ^ ea * 10 ^ (- shift)))%Q; [ring|].
  rewrite Hq.
  transitivity (inject_Z (if xorb (xorb s t) t then -1 else 1) * inject_Z a * 10 ^ ea * (10 ^ shift * 10 ^ (- shift)))%Q; [ring|].
  rewrite <-ten_split, Z.add_opp_diag_r. change (10 ^ 0)%Q with 1%Q. destruct s, t; cbn; ring.
Qed.

Lemma dec_div_exact c a b r : c_exact c = true -> 0 <= c_prec c -> 0 <= d_int a -> 0 <= d_int b ->
  dec_div c a b = Returned r -> is_zero b = false /\ (value r * value b == value a)%Q.
Proof.
  intros Hx Hp Ha Hb. unfold dec_div. destruct (is_zero b) eqn:Eb; [done|].
  destruct (is_zero a) eqn:Ea.
  { intros [H _]%fit_exact; [|done]. split; [done|]. rewrite H, (value_zero a), (value_zero (Dec _ 0 _)) by done. ring. }
  unfold is_zero in Ea, Eb. bool_to_prop.
  pose proof (scaled_quotient (d_int a) (d_int b) (c_prec c) ltac:(lia) ltac:(lia) Hp) as Hq.
  cbv zeta in *. revert Hq. set (shift := num_digits (d_int b) - _ + _ + 1).
  generalize (if 0 <=? shift then d_int a * 10 ^ shift else d_int a) as n.
  generalize (if 0 <=? shift then d_int b else d_int b * 10 ^ (- shift)) as m.
  intros m n (Hm & Hlong & Hnm). pose proof (Z.div_mod n m ltac:(lia)) as Hdm.
  destruct (Z.eqb_spec (n mod m) 0) as [Hr|Hr]; cbn [negb].
  - match goal with |- context [strip_zeros ?f ?q ?e ?i] => pose proof (strip_zeros_spec f q e i) as Hz end.
    destruct (strip_zeros _ _ _ _) as [coeff exp]. destruct Hz as (He & Hc & _).
    intros [H _]%fit_exact; [|done]. split; [done|]. rewrite H.
    replace exp with (d_exp a - d_exp b - shift + (exp - (d_exp a - d_exp b - shift))) by lia.
    rewrite <-value_shift, <-Hc by lia. destruct a as [s i e], b as [t j f].
    eapply (exact_quotient s t (n / m) n m i j e f shift); [done|lia|exact Hnm].
  - set (coeff := if _ =? 0 then _ else _).
    assert (10 ^ c_prec c <= coeff) as Hc by (unfold coeff; case_match; lia).
    pose proof (Z.pow_pos_nonneg 10 (c_prec c) ltac:(lia) Hp).
    destruct (fit_nonzero c (Dec (xorb (d_sign a) (d_sign b)) coeff (d_exp a - d_exp b - shift)) Hx) as [[_ H0]|[-> _]];
      [apply Z.eqb_neq; cbn; lia|by apply too_many_digits in H0|done].
Qed.

(** ** Rounding *)

(** [r] is [a] rounded to a multiple of [unit], [coefficient] times it. *)
Definition rounded_to (mode : rounding) (a r unit : Q) (coefficient : Z) : Prop :=
  (Qabs (a - r) < unit)%Q /\
  match mode with
  | ROUND_CEILING => (a <= r)%Q
  | ROUND_FLOOR => (r <= a)%Q
  | ROUND_DOWN => (Qabs r <= Qabs a)%Q
  | ROUND_UP => (Qabs a <= Qabs r)%Q
  | ROUND_HALF_UP => (2 * Qabs (a - r) <= unit)%Q /\ (2 * Qabs (a - r) == unit -> Qabs a < Qabs r)%Q
  | ROUND_HALF_DOWN => (2 * Qabs (a - r) <= unit)%Q /\ (2 * Qabs (a - r) == unit -> Qabs r < Qabs a)%Q
  | ROUND_HALF_EVEN => (2 * Qabs (a - r) <= unit)%Q /\ ((2 * Qabs (a - r) == unit)%Q -> Z.even coefficient = true)
  | ROUND_05UP =>
      (~ (a == r)%Q -> coefficient mod 5 <> 0) /\ ((Qabs a < Qabs r)%Q -> coefficient mod 5 = 1)
  end.

(** Integers in units of [10 ^ e]. *)
Definition scaled (x e : Z) : Q := (inject_Z x * 10 ^ e)%Q.

Lemma scaled_le x y e : (scaled x e <= scaled y e)%Q <-> x <= y.
Proof. unfold scaled. rewrite (Qmult_le_r _ _ _ (ten_pos e)), <-Zle_Qle. done. Qed.

Lemma scaled_lt x y e : (scaled x e < scaled y e)%Q <-> x < y.
Proof. unfold scaled. rewrite (Qmult_lt_r _ _ _ (ten_pos e)), <-Zlt_Qlt. done. Qed.

Lemma scaled_eq x y e : (scaled x e == scaled y e)%Q <-> x = y.
Proof. apply inject_scaled. Qed.

Lemma scaled_sub x y e : (scaled x e - scaled y e == scaled (x - y) e)%Q.
Proof. unfold scaled. unfold Z.sub. rewrite inject_Z_plus, inject_Z_opp. ring. Qed.

Lemma scaled_abs x e : (Qabs (scaled x e) == scaled (Z.abs x) e)%Q.
Proof.
  unfold scaled. rewrite Qabs_Qmult, (Qabs_pos (10 ^ e)) by apply Qlt_le_weak, ten_pos. done.
Qed.

Lemma scaled_double x e : (2 * scaled x e == scaled (2 * x) e)%Q.
Proof. unfold scaled. rewrite inject_Z_mult. ring. Qed.

(** The rule in units. *)
Lemma rounded_to_scaled mode x y u e coefficient :
  rounded_to mode (scaled x e) (scaled y e) (scaled u e) coefficient <->
  Z.abs (x - y) < u /\
  match mode with
  | ROUND_CEILING => x <= y
  | ROUND_FLOOR => y <= x
  | ROUND_DOWN => Z.abs y <= Z.abs x
  | ROUND_UP => Z.abs x <= Z.abs y
  | ROUND_HALF_UP => 2 * Z.abs (x - y) <= u /\ (2 * Z.abs (x - y) = u -> Z.abs x < Z.abs y)
  | ROUND_HALF_DOWN => 2 * Z.abs (x - y) <= u /\ (2 * Z.abs (x - y) = u -> Z.abs y < Z.abs x)
  | ROUND_HALF_EVEN => 2 * Z.abs (x - y) <= u /\ (2 * Z.abs (x - y) = u -> Z.even coefficient = true)
  | ROUND_05UP => (x <> y -> coefficient mod 5 <> 0) /\ (Z.abs x < Z.abs y -> coefficient mod 5 = 1)
  end.
Proof.
  unfold rounded_to. destruct mode;
    by rewrite ?scaled_sub, ?scaled_abs, ?scaled_double, ?scaled_lt, ?scaled_le, ?scaled_eq.
Qed.

#[export] Instance rounded_to_proper mode : Proper (Qeq ==> Qeq ==> Qeq ==> eq ==> iff) (rounded_to mode).
Proof.
  intros a a' Ha r r' Hr u u' Hu z ? <-. unfold rounded_to. destruct mode; by rewrite Ha, Hr, Hu.
Qed.

(** Nothing is rounded where the value stays. *)
Lemma rounded_to_refl mode a unit coefficient : (0 < unit)%Q -> rounded_to mode a a unit coefficient.
Proof.
  intros Hu. assert (Qabs (a - a) == 0)%Q as H by (unfold Qminus; by rewrite Qplus_opp_r).
  assert (~ 0 == unit)%Q by (intros E; rewrite <-E in Hu; by apply Qlt_irrefl in Hu).
  unfold rounded_to. destruct mode; rewrite H, ?Qmult_0_r; (split; [done|]); try apply Qle_refl;
    try (split; [by apply Qlt_le_weak|done]).
  split; [done|]. intros Hlt. by apply Qlt_irrefl in Hlt.
Qed.

(** The choice between [q] and [q + 1] units of [m] for [q * m + r]. *)
Lemma rounds_away_spec mode sign q r m :
  0 <= q -> 0 <= r < m ->
  let away := rounds_away mode sign q r m in
  (away = true -> r <> 0) /\
  match mode with
  | ROUND_CEILING => r <> 0 -> away = negb sign
  | ROUND_FLOOR => r <> 0 -> away = sign
  | ROUND_DOWN => away = false
  | ROUND_UP => r <> 0 -> away = true
  | ROUND_HALF_UP => if away then m <= 2 * r else 2 * r < m
  | ROUND_HALF_DOWN => if away then m < 2 * r else 2 * r <= m
  | ROUND_HALF_EVEN =>
      (if away then m <= 2 * r else 2 * r <= m) /\ (2 * r = m -> Z.even (if away then q + 1 else q) = true)
  | ROUND_05UP =>
      (r <> 0 -> (if away then q + 1 else q) mod 5 <> 0) /\ (away = true -> (q + 1) mod 5 = 1)
  end.
Proof.
  intros Hq Hr. unfold rounds_away. destruct mode; cbn zeta.
  - assert ((q mod 10 =? 0) || (q mod 10 =? 5) = (q mod 5 =? 0)) as ->.
    { apply eq_true_iff_eq. rewrite orb_true_iff, !Z.eqb_eq. Z.to_euclidean_division_equations. lia. }
    destruct (Z.eqb_spec (q mod 5) 0), (Z.eqb_spec r 0); cbn; split_and?; try done; Z.to_euclidean_division_equations; lia.
  - destruct (Z.eqb_spec r 0), sign; cbn; naive_solver.
  - done.
  - destruct (Z.eqb_spec r 0), sign; cbn; naive_solver.
  - destruct (Z.ltb_spec m (2 * r)); split; lia.
  - destruct (Z.eqb_spec (2 * r) m).
    + rewrite <-Z.negb_even. destruct (Z.even q) eqn:E; cbn; (split; [lia|]; split; [lia|]); [done|].
      by rewrite Z.even_add, E.
    + destruct (Z.ltb_spec m (2 * r)); split; lia.
  - destruct (Z.leb_spec m (2 * r)); split; lia.
  - destruct (Z.eqb_spec r 0); cbn; naive_solver.
Qed.

Lemma rescale_rounded mode d exp : 0 <= d_int d ->
  rounded_to mode (value d) (value (rescale mode d exp)) (10 ^ exp) (d_int (rescale mode d exp)).
Proof.
  intros Hd. destruct d as [s i e]. cbn [d_int] in Hd. unfold rescale. cbn [d_sign d_int d_exp].
  destruct (Z.leb_spec exp e) as [He|He].
  - assert (value (Dec s (i * 10 ^ (e - exp)) exp) == value (Dec s i e))%Q as Hv.
    { rewrite value_shift by lia. by replace (exp + (e - exp)) with e by lia. }
    rewrite Hv. apply rounded_to_refl, ten_pos.
  - set (m := 10 ^ (exp - e)). set (q := i / m). set (r := i mod m).
    assert (0 < m) as Hm by (apply Z.pow_pos_nonneg; lia).
    pose proof (Z.div_mod i m ltac:(lia)) as Hdm. pose proof (Z.mod_pos_bound i m Hm) as Hr. fold q r in Hdm, Hr.
    set (q' := if rounds_away mode s q r m then q + 1 else q).
    assert (0 <= q) as Hq by (apply Z.div_pos; lia).
    assert (value (Dec s q' exp) == scaled ((if s then -1 else 1) * (q' * m)) e)%Q as Hv.
    { replace exp with (e + (exp - e)) at 1 by lia. rewrite <-value_shift by lia. done. }
    assert (10 ^ exp == scaled m e)%Q as Hu.
    { unfold scaled, m. assert (0 <= exp - e) as Hk by lia. rewrite (ten_inject _ Hk), <-ten_split.
      by replace (exp - e + e) with exp by lia. }
    rewrite Hv, Hu. change (value (Dec s i e)) with (scaled ((if s then -1 else 1) * i) e).
    apply rounded_to_scaled. cbn [d_int]. subst q'. pose proof (rounds_away_spec mode s q r m Hq Hr) as Hs.
    clear Hv Hu. clearbody q r m. subst i. cbv zeta in Hs. destruct Hs as [H0 Hs].
    assert (0 <= q * m) by nia.
    destruct (rounds_away mode s q r m); [specialize (H0 eq_refl)|clear H0]; destruct mode, s;
      rewrite ?Z.mul_add_distr_r; split_and?; try naive_solver lia; lia.
Qed.

(** ** Quantising *)

(** A context with room for the coefficients it allows. *)
Definition good_context (c : context) : Prop := 1 <= c_prec c /\ c_Emin c <= 0 <= c_Emax c.

Lemma fit_inexact c d : c_exact c = false ->
  adjusted d <= c_Emax c -> num_digits (d_int d) <= c_prec c -> Etiny c <= d_exp d <= c_Emax c -> fit c d = Returned d.
Proof.
  intros Hx Ha Hn He. unfold fit, Etop, adjusted in *. destruct (Z.eqb_spec (d_int d) 0) as [E|_].
  - rewrite Z.max_l, Z.min_l by lia. destruct d. cbn in *. by subst.
  - rewrite (proj2 (Z.ltb_ge _ _)), (proj2 (Z.ltb_ge _ _)) by lia. done.
Qed.

Lemma dec_quantize_rescale c mode a exp r : c_exact c = false ->
  dec_quantize c mode a exp = Returned r -> r = rescale mode a exp.
Proof.
  intros Hx. unfold dec_quantize. destruct (_ && _) eqn:He; [|done]. cbn [negb].
  destruct (is_zero a) eqn:Ez.
  { unfold fit. cbn [d_int]. rewrite Z.eqb_refl. cbn [d_sign d_exp]. bool_to_prop.
    rewrite Z.max_l, Z.min_l by lia. intros [= <-]. unfold is_zero in Ez. bool_to_prop. unfold rescale. rewrite Ez.
    destruct (Z.leb_spec exp (d_exp a)); [done|]. rewrite Zdiv_0_l, Zmod_0_l.
    destruct (rounds_away_spec mode (d_sign a) 0 0 (10 ^ (exp - d_exp a))) as [Haway _]; [done| |].
    { split; [done|]. apply Z.pow_pos_nonneg; lia. }
    destruct (rounds_away _ _ _ _ _); [by destruct (Haway eq_refl)|done]. }
  destruct (_ || _); [done|]. destruct (_ || _) eqn:Hr; [done|]. rewrite Hx, andb_false_r. bool_to_prop.
  intros E. assert (d_exp (rescale mode a exp) = exp) as Hexp by (unfold rescale; by case_match).
  rewrite fit_inexact in E; [by injection E|done|lia|lia|lia].
Qed.

(** Rescaling keeps the digits it does not cut. *)
Lemma num_digits_mono a b : 0 < a <= b -> num_digits a <= num_digits b.
Proof.
  intros H. apply num_digits_le; [lia|pose proof (num_digits_pos b ltac:(lia)); lia|].
  pose proof (num_digits_bounds b ltac:(lia)). lia.
Qed.

Lemma rescale_digits mode d exp : 0 < d_int d -> 0 < adjusted d - exp + 1 ->
  adjusted d - exp + 1 <= num_digits (d_int (rescale mode d exp)).
Proof.
  intros Hd Ha. unfold rescale, adjusted in *. destruct (Z.leb_spec exp (d_exp d)) as [He|He]; cbn [d_int].
  - rewrite num_digits_shift by lia. lia.
  - set (m := 10 ^ (exp - d_exp d)).
    assert (0 < m) as Hm by (apply Z.pow_pos_nonneg; lia).
    assert (10 ^ (num_digits (d_int d) - 1 - (exp - d_exp d)) <= d_int d / m) as Hq.
    { apply Z.div_le_lower_bound; [done|]. unfold m. rewrite Z.mul_comm, <-Z.pow_add_r by lia.
      replace (_ - 1 - _ + _) with (num_digits (d_int d) - 1) by lia. apply num_digits_bounds, Hd. }
    set (q := if rounds_away _ _ _ _ _ then _ else _). assert (d_int d / m <= q) as Hq' by (unfold q; case_match; lia).
    pose proof (Z.pow_pos_nonneg 10 (num_digits (d_int d) - 1 - (exp - d_exp d)) ltac:(lia) ltac:(lia)).
    assert (~ num_digits q <= num_digits (d_int d) - 1 - (exp - d_exp d)) as Hn; [|lia].
    rewrite num_digits_le by lia. lia.
Qed.

(** A quantum below one: rounding succeeds exactly when the result has no more
    digits than the context. *)
Lemma dec_quantize_returns c mode a exp : c_exact c = false -> good_context c -> c_prec c <= c_Emax c ->
  0 <= d_int a -> Etiny c <= exp <= 0 ->
  dec_quantize c mode a exp =
  if num_digits (d_int (rescale mode a exp)) <=? c_prec c then Returned (rescale mode a exp) else Raised DecimalException.
Proof.
  intros Hx (Hp & Hmin & Hmax) Hpm Ha He.
  assert (forall r, dec_quantize c mode a exp = Returned r -> r = rescale mode a exp) as Hr
    by (intros r; by apply dec_quantize_rescale).
  assert (d_exp (rescale mode a exp) = exp) as Hexp by (unfold rescale; by case_match).
  revert Hr. unfold dec_quantize. rewrite (proj2 (Z.leb_le _ _)), (proj2 (Z.leb_le exp _)) by lia. cbn [andb negb].
  destruct (is_zero a) eqn:Ez.
  { unfold fit. cbn [d_int]. rewrite Z.eqb_refl. intros Hr. rewrite <-(Hr _ eq_refl). cbn [d_int].
    rewrite num_digits_small by lia. by rewrite (proj2 (Z.leb_le _ _)) by lia. }
  intros _. unfold is_zero in Ez. bool_to_prop. rewrite Hx, andb_false_r.
  assert (0 < adjusted a - exp + 1 -> adjusted a - exp + 1 <= num_digits (d_int (rescale mode a exp))) as Hd
    by (intros; apply rescale_digits; lia).
  assert (adjusted (rescale mode a exp) = exp + num_digits (d_int (rescale mode a exp)) - 1) as Hadj
    by (unfold adjusted; by rewrite Hexp).
  destruct (Z.leb_spec (num_digits (d_int (rescale mode a exp))) (c_prec c)) as [Hn|Hn].
  - rewrite (proj2 (Z.ltb_ge _ _)), (proj2 (Z.ltb_ge (c_prec c) (adjusted a - exp + 1))) by lia.
    rewrite (proj2 (Z.ltb_ge _ _)), (proj2 (Z.ltb_ge _ _)) by lia. cbn [orb].
    apply fit_inexact; [done|lia|lia|lia].
  - destruct (_ || _); [done|]. by rewrite (proj2 (Z.ltb_lt _ _) Hn), orb_true_r.
Qed.

(** ** Comparison *)

Lemma dec_compare_value a b : dec_compare a b = (value a ?= value b)%Q.
Proof.
  unfold dec_compare. set (exp := Z.min (d_exp a) (d_exp b)).
  pose proof (value_units a exp ltac:(lia)) as Ha. pose proof (value_units b exp ltac:(lia)) as Hb.
  symmetry. change (inject_Z (units a exp) * 10 ^ exp)%Q with (scaled (units a exp) exp) in Ha.
  change (inject_Z (units b exp) * 10 ^ exp)%Q with (scaled (units b exp) exp) in Hb.
  destruct (Z.compare_spec (units a exp) (units b exp)) as [E|E|E].
  - apply Qeq_alt. rewrite Ha, Hb. by apply scaled_eq.
  - apply Qlt_alt. rewrite Ha, Hb. by apply scaled_lt.
  - apply Qgt_alt. rewrite Ha, Hb. by apply scaled_lt.
Qed.
