(* ===== verification/DecimalText.v ===== *)
(** * The text forms of decimal numbers

    [str] and the grammar [_DECIMAL_PATTERN] are inverse; the fixed-point form
    that [format] writes is read as the same value, written out. *)

From S2P Require Import Prelude Python Leader LeaseRecord PyObject JsonText JsonTextLaws Decimal DecimalLaws.
Open Scope Z_scope.

(** ** Numerals with zeros *)

Lemma undecimal_app s t : undecimal (s ++ t) = undecimal s * 10 ^ Z.of_nat (length t) + undecimal t.
Proof.
  induction t as [|c t IH] using rev_ind; [rewrite app_nil_r; cbn; lia|].
  rewrite app_assoc, !undecimal_snoc, IH, length_app. cbn [length].
  rewrite Nat2Z.inj_add, Z.pow_add_r by lia. change (10 ^ Z.of_nat 1) with 10. lia.
Qed.

Lemma undecimal_zeros n : undecimal (zeros n) = 0.
Proof.
  unfold zeros. induction (Z.to_nat n) as [|k IH]; [done|]. cbn [repeat].
  change (48 :: repeat 48 k) with ([48] ++ repeat 48 k). by rewrite undecimal_app, IH.
Qed.

Lemma zeros_length n : 0 <= n -> Z.of_nat (length (zeros n)) = n.
Proof. intros Hn. unfold zeros. rewrite repeat_length. lia. Qed.

Lemma zeros_digits n : digits (zeros n).
Proof. unfold digits, zeros. by induction (Z.to_nat n). Qed.

Lemma digits_app s t : digits s -> digits t -> digits (s ++ t).
Proof. unfold digits. intros Hs Ht. by rewrite forallb_app, Hs, Ht. Qed.

Lemma digits_take n s : digits s -> digits (take n s).
Proof.
  unfold digits. rewrite !forallb_forall. intros H c Hc. apply H. eapply list_elem_of_In, subseteq_take, list_elem_of_In, Hc.
Qed.

Lemma digits_drop n s : digits s -> digits (drop n s).
Proof.
  unfold digits. rewrite !forallb_forall. intros H c Hc. apply H. eapply list_elem_of_In, subseteq_drop, list_elem_of_In, Hc.
Qed.

#[export] Hint Resolve zeros_digits digits_app digits_take digits_drop : bluetape.

(** ** The parts of a numeral *)

Section Parts.
Variable ds : pystr.
Hypothesis ds_digits : digits ds.
Hypothesis ds_nonempty : ds <> [].

Lemma intpart_digits dp : digits (intpart ds dp) /\ intpart ds dp <> [].
Proof.
  unfold intpart. destruct (Z.leb_spec dp 0); [done|]. destruct (Z.leb_spec (Z.of_nat (length ds)) dp).
  - split; [auto with bluetape|]. by destruct ds.
  - split; [auto with bluetape|]. destruct (Z.to_nat dp) eqn:E; [lia|]. by destruct ds.
Qed.

Lemma fracpart_digits dp : digits (fracpart ds dp).
Proof. unfold fracpart. repeat case_match; [auto with bluetape|done|auto with bluetape]. Qed.

Lemma fracpart_length dp : Z.of_nat (length (fracpart ds dp)) = Z.max 0 (Z.of_nat (length ds) - dp).
Proof.
  unfold fracpart. destruct (Z.leb_spec dp 0).
  - rewrite length_app, Nat2Z.inj_add, zeros_length; lia.
  - destruct (Z.leb_spec (Z.of_nat (length ds)) dp); [cbn; lia|]. rewrite length_drop. lia.
Qed.

Lemma parts_value dp :
  undecimal (intpart ds dp ++ fracpart ds dp) = undecimal ds * 10 ^ Z.max 0 (dp - Z.of_nat (length ds)).
Proof.
  unfold intpart, fracpart. destruct (Z.leb_spec dp 0).
  - rewrite Z.max_l by lia. rewrite !undecimal_app, undecimal_zeros. cbn. lia.
  - destruct (Z.leb_spec (Z.of_nat (length ds)) dp).
    + rewrite app_nil_r, undecimal_app, undecimal_zeros, zeros_length, Z.max_r by lia. lia.
    + rewrite take_drop, Z.max_l by lia. lia.
Qed.
End Parts.

(** ** Reading the parts *)

Definition power_start (text : pystr) : Prop :=
  match text with [] => True | c :: _ => is_digit c = false /\ (c =? 46) = false end.

Lemma dec_of_parts s ip fp text power :
  digits ip -> ip <> [] -> digits fp -> power_start text -> scan_power text = Some power ->
  dec_of_text (sign_text (Dec s 0 0) ++ ip ++ point fp ++ text) =
  Some (Dec s (undecimal (ip ++ fp)) (power - Z.of_nat (length fp))).
Proof.
  intros Hip Hne Hfp Hstart Hpower.
  assert (scan_sign (sign_text (Dec s 0 0) ++ ip ++ point fp ++ text) = (s, ip ++ point fp ++ text)) as Hsign.
  { destruct s; [done|]. destruct ip as [|c ip]; [done|]. unfold digits in Hip. cbn in *.
    apply andb_true_iff in Hip as [Hc _]. unfold is_digit in Hc.
    by rewrite (proj2 (Z.eqb_neq c 45)), (proj2 (Z.eqb_neq c 43)) by lia. }
  assert (scan_sign (ip ++ point fp ++ text) = (false, ip ++ point fp ++ text)) as Hplain.
  { destruct ip as [|c ip]; [done|]. unfold digits in Hip. cbn in *.
    apply andb_true_iff in Hip as [Hc _]. unfold is_digit in Hc.
    by rewrite (proj2 (Z.eqb_neq c 45)), (proj2 (Z.eqb_neq c 43)) by lia. }
  unfold dec_of_text. rewrite Hsign. clear Hsign Hplain.
  destruct fp as [|f fp]; cbn [point app].
  - rewrite span_digits_app; [|done|destruct text; [done|by destruct Hstart]]. rewrite app_nil_r.
    destruct text as [|c text]; (destruct ip as [|a ip]; [done|]); cbn [app];
      [|destruct Hstart as [_ ->]]; by rewrite Hpower, ?app_nil_r.
  - rewrite span_digits_app by done. cbn [Z.eqb Pos.eqb].
    change (f :: fp ++ text) with ((f :: fp) ++ text).
    rewrite span_digits_app; [|done|destruct text; [done|by destruct Hstart]].
    destruct ip; [done|]. cbn [app]. by rewrite Hpower.
Qed.

Lemma scan_signed_power (capitals : bool) n :
  scan_power ((if capitals then 69 else 101) :: signed_text n) = Some n.
Proof.
  assert (forall k, 0 <= k -> exists c s, decimal k = c :: s /\ span_digits (c :: s) = (c :: s, [])) as Hd.
  { intros k Hk. destruct (decimal_cons k Hk) as (c & s & E & _). exists c, s. split; [done|].
    rewrite <-E. pose proof (span_digits_app (decimal k) [] (decimal_digits k Hk) I) as H. by rewrite app_nil_r in H. }
  assert (scan_power ((if capitals then 69 else 101) :: signed_text n) =
    let '(negative, rest) := scan_sign (signed_text n) in
    match span_digits rest with
    | ((_ :: _) as digits, []) => Some (if negative then - undecimal digits else undecimal digits)
    | _ => None
    end) as -> by (by destruct capitals).
  unfold signed_text. destruct (Z.ltb_spec n 0); cbn [scan_sign Z.eqb Pos.eqb].
  - destruct (Hd (- n)) as (c & s & E & Hs); [lia|]. rewrite E, Hs, <-E, undecimal_decimal by lia. f_equal. lia.
  - destruct (Hd n) as (c & s & E & Hs); [lia|]. by rewrite E, Hs, <-E, undecimal_decimal by lia.
Qed.

(** ** The round trips *)

Lemma dec_str_roundtrip capitals d : 0 <= d_int d -> dec_of_text (dec_str capitals d) = Some d.
Proof.
  intros Hd. unfold dec_str. pose proof (decimal_digits _ Hd) as Hds. pose proof (num_digits_pos _ Hd) as Hlen.
  unfold num_digits in Hlen. assert (decimal (d_int d) <> []) as Hne by (intros E; by rewrite E in Hlen).
  set (left := d_exp d + _). set (dp := if _ && _ then left else 1).
  replace (sign_text d) with (sign_text (Dec (d_sign d) 0 0)) by done.
  rewrite (dec_of_parts _ _ _ _ (left - dp)).
  - rewrite parts_value, undecimal_decimal by done. rewrite fracpart_length by done.
    assert (dp - Z.of_nat (length (decimal (d_int d))) <= 0) as Hdp.
    { unfold dp. destruct (_ && _) eqn:E; bool_to_prop; unfold left; lia. }
    rewrite Z.max_l, Z.max_r by lia. destruct d as [s i e]. cbn [d_sign d_int d_exp] in *. f_equal. f_equal; [lia|].
    unfold left. lia.
  - by apply intpart_digits.
  - by apply intpart_digits.
  - by apply fracpart_digits.
  - destruct (left =? dp); [done|]. by destruct capitals.
  - destruct (Z.eqb_spec left dp) as [E|]; [by rewrite E, Z.sub_diag|]. apply scan_signed_power.
Qed.

(** The number that the fixed-point form spells. *)
Definition written_out (d : dec) : dec :=
  if 0 <? d_exp d then Dec (d_sign d) (d_int d * 10 ^ d_exp d) 0 else d.

Lemma dec_format_roundtrip d : 0 <= d_int d -> dec_of_text (dec_format d) = Some (written_out d).
Proof.
  intros Hd. unfold dec_format, written_out.
  assert (forall s i e, 0 <= i -> 0 < i \/ e <= 0 ->
    let digits := decimal i in let dotplace := e + Z.of_nat (length digits) in
    dec_of_text (sign_text (Dec s 0 0) ++ intpart digits dotplace ++ point (fracpart digits dotplace)) =
    Some (if 0 <? e then Dec s (i * 10 ^ e) 0 else Dec s i e)) as H.
  { intros s i e Hi _ ds dp. pose proof (decimal_digits _ Hi) as Hds. pose proof (num_digits_pos _ Hi) as Hlen.
    unfold num_digits in Hlen. fold ds in Hds, Hlen. assert (ds <> []) as Hne by (by intros E; rewrite E in Hlen).
    rewrite <-(app_nil_r (point _)), (dec_of_parts _ _ _ _ 0); [..|done|done].
    - rewrite parts_value, fracpart_length by done. replace (dp - Z.of_nat (length ds)) with e by (unfold dp; lia).
      replace (Z.of_nat (length ds) - dp) with (- e) by (unfold dp; lia). unfold ds. rewrite undecimal_decimal by done.
      destruct (Z.ltb_spec 0 e); [rewrite !Z.max_r, Z.max_l by lia; done|].
      rewrite Z.max_l, Z.max_r by lia. f_equal. f_equal; lia.
    - by apply intpart_digits.
    - by apply intpart_digits.
    - by apply fracpart_digits. }
  destruct d as [s i e]. cbn [d_sign d_int d_exp is_zero] in *.
  destruct (is_zero (Dec s i e) && (0 <? e)) eqn:E.
  - unfold is_zero in E. cbn in E. bool_to_prop. subst i. cbn [d_sign d_int d_exp].
    rewrite (H s 0 0) by lia. by rewrite (proj2 (Z.ltb_lt 0 e)) by done.
  - apply (H s i e); [done|]. unfold is_zero in E. cbn in E.
    apply andb_false_iff in E as [E|E]; bool_to_prop; lia.
Qed.
