(* ===== verification/MoneyTable.v ===== *)
(** * The currency table ([bluetape/money/_iso4217.py])

    The rows of ISO 4217 that the package knows, in the order of the source:
    code, numeric code, name and the number of decimal places of the minor unit,
    where there is one.  The file is generated from the published list. *)

From S2P Require Import Prelude Python.
Open Scope Z_scope.

Definition row : Type := pystr * pystr * pystr * option Z.

Definition CURRENCY_ROWS : list row := [
  (py "AED", py "784", py "UAE Dirham", Some 2);
  (py "AFN", py "971", py "Afghani", Some 2);
  (py "ALL", py "008", py "Lek", Some 2);
  (py "AMD", py "051", py "Armenian Dram", Some 2);
  (py "AOA", py "973", py "Kwanza", Some 2);
  (py "ARS", py "032", py "Argentine Peso", Some 2);
  (py "AUD", py "036", py "Australian Dollar", Some 2);
  (py "AWG", py "533", py "Aruban Florin", Some 2);
  (py "AZN", py "944", py "Azerbaijan Manat", Some 2);
  (py "BAM", py "977", py "Convertible Mark", Some 2);
  (py "BBD", py "052", py "Barbados Dollar", Some 2);
  (py "BDT", py "050", py "Taka", Some 2);
  (py "BHD", py "048", py "Bahraini Dinar", Some 3);
  (py "BIF", py "108", py "Burundi Franc", Some 0);
  (py "BMD", py "060", py "Bermudian Dollar", Some 2);
  (py "BND", py "096", py "Brunei Dollar", Some 2);
  (py "BOB", py "068", py "Boliviano", Some 2);
  (py "BOV", py "984", py "Mvdol", Some 2);
  (py "BRL", py "986", py "Brazilian Real", Some 2);
  (py "BSD", py "044", py "Bahamian Dollar", Some 2);
  (py "BTN", py "064", py "Ngultrum", Some 2);
  (py "BWP", py "072", py "Pula", Some 2);
  (py "BYN", py "933", py "Belarusian Ruble", Some 2);
  (py "BZD", py "084", py "Belize Dollar", Some 2);
  (py "CAD", py "124", py "Canadian Dollar", Some 2);
  (py "CDF", py "976", py "Congolese Franc", Some 2);
  (py "CHE", py "947", py "WIR Euro", Some 2);
  (py "CHF", py "756", py "Swiss Franc", Some 2);
  (py "CHW", py "948", py "WIR Franc", Some 2);
  (py "CLF", py "990", py "Unidad de Fomento", Some 4);
  (py "CLP", py "152", py "Chilean Peso", Some 0);
  (py "CNY", py "156", py "Yuan Renminbi", Some 2);
  (py "COP", py "170", py "Colombian Peso", Some 2);
  (py "COU", py "970", py "Unidad de Valor Real", Some 2);
  (py "CRC", py "188", py "Costa Rican Colon", Some 2);
  (py "CUP", py "192", py "Cuban Peso", Some 2);
  (py "CVE", py "132", py "Cabo Verde Escudo", Some 2);
  (py "CZK", py "203", py "Czech Koruna", Some 2);
  (py "DJF", py "262", py "Djibouti Franc", Some 0);
  (py "DKK", py "208", py "Danish Krone", Some 2);
  (py "DOP", py "214", py "Dominican Peso", Some 2);
  (py "DZD", py "012", py "Algerian Dinar", Some 2);
  (py "EGP", py "818", py "Egyptian Pound", Some 2);
  (py "ERN", py "232", py "Nakfa", Some 2);
  (py "ETB", py "230", py "Ethiopian Birr", Some 2);
  (py "EUR", py "978", py "Euro", Some 2);
  (py "FJD", py "242", py "Fiji Dollar", Some 2);
  (py "FKP", py "238", py "Falkland Islands Pound", Some 2);
  (py "GBP", py "826", py "Pound Sterling", Some 2);
  (py "GEL", py "981", py "Lari", Some 2);
  (py "GHS", py "936", py "Ghana Cedi", Some 2);
  (py "GIP", py "292", py "Gibraltar Pound", Some 2);
  (py "GMD", py "270", py "Dalasi", Some 2);
  (py "GNF", py "324", py "Guinean Franc", Some 0);
  (py "GTQ", py "320", py "Quetzal", Some 2);
  (py "GYD", py "328", py "Guyana Dollar", Some 2);
  (py "HKD", py "344", py "Hong Kong Dollar", Some 2);
  (py "HNL", py "340", py "Lempira", Some 2);
  (py "HTG", py "332", py "Gourde", Some 2);
  (py "HUF", py "348", py "Forint", Some 2);
  (py "IDR", py "360", py "Rupiah", Some 2);
  (py "ILS", py "376", py "New Israeli Sheqel", Some 2);
  (py "INR", py "356", py "Indian Rupee", Some 2);
  (py "IQD", py "368", py "Iraqi Dinar", Some 3);
  (py "IRR", py "364", py "Iranian Rial", Some 2);
  (py "ISK", py "352", py "Iceland Krona", Some 0);
  (py "JMD", py "388", py "Jamaican Dollar", Some 2);
  (py "JOD", py "400", py "Jordanian Dinar", Some 3);
  (py "JPY", py "392", py "Yen", Some 0);
  (py "KES", py "404", py "Kenyan Shilling", Some 2);
  (py "KGS", py "417", py "Som", Some 2);
  (py "KHR", py "116", py "Riel", Some 2);
  (py "KMF", py "174", py "Comorian Franc", Some 0);
  (py "KPW", py "408", py "North Korean Won", Some 2);
  (py "KRW", py "410", py "Won", Some 0);
  (py "KWD", py "414", py "Kuwaiti Dinar", Some 3);
  (py "KYD", py "136", py "Cayman Islands Dollar", Some 2);
  (py "KZT", py "398", py "Tenge", Some 2);
  (py "LAK", py "418", py "Lao Kip", Some 2);
  (py "LBP", py "422", py "Lebanese Pound", Some 2);
  (py "LKR", py "144", py "Sri Lanka Rupee", Some 2);
  (py "LRD", py "430", py "Liberian Dollar", Some 2);
  (py "LSL", py "426", py "Loti", Some 2);
  (py "LYD", py "434", py "Libyan Dinar", Some 3);
  (py "MAD", py "504", py "Moroccan Dirham", Some 2);
  (py "MDL", py "498", py "Moldovan Leu", Some 2);
  (py "MGA", py "969", py "Malagasy Ariary", Some 2);
  (py "MKD", py "807", py "Denar", Some 2);
  (py "MMK", py "104", py "Kyat", Some 2);
  (py "MNT", py "496", py "Tugrik", Some 2);
  (py "MOP", py "446", py "Pataca", Some 2);
  (py "MRU", py "929", py "Ouguiya", Some 2);
  (py "MUR", py "480", py "Mauritius Rupee", Some 2);
  (py "MVR", py "462", py "Rufiyaa", Some 2);
  (py "MWK", py "454", py "Malawi Kwacha", Some 2);
  (py "MXN", py "484", py "Mexican Peso", Some 2);
  (py "MXV", py "979", py "Mexican Unidad de Inversion (UDI)", Some 2);
  (py "MYR", py "458", py "Malaysian Ringgit", Some 2);
  (py "MZN", py "943", py "Mozambique Metical", Some 2);
  (py "NAD", py "516", py "Namibia Dollar", Some 2);
  (py "NGN", py "566", py "Naira", Some 2);
  (py "NIO", py "558", py "Cordoba Oro", Some 2);
  (py "NOK", py "578", py "Norwegian Krone", Some 2);
  (py "NPR", py "524", py "Nepalese Rupee", Some 2);
  (py "NZD", py "554", py "New Zealand Dollar", Some 2);
  (py "OMR", py "512", py "Rial Omani", Some 3);
  (py "PAB", py "590", py "Balboa", Some 2);
  (py "PEN", py "604", py "Sol", Some 2);
  (py "PGK", py "598", py "Kina", Some 2);
  (py "PHP", py "608", py "Philippine Peso", Some 2);
  (py "PKR", py "586", py "Pakistan Rupee", Some 2);
  (py "PLN", py "985", py "Zloty", Some 2);
  (py "PYG", py "600", py "Guarani", Some 0);
  (py "QAR", py "634", py "Qatari Rial", Some 2);
  (py "RON", py "946", py "Romanian Leu", Some 2);
  (py "RSD", py "941", py "Serbian Dinar", Some 2);
  (py "RUB", py "643", py "Russian Ruble", Some 2);
  (py "RWF", py "646", py "Rwanda Franc", Some 0);
  (py "SAR", py "682", py "Saudi Riyal", Some 2);
  (py "SBD", py "090", py "Solomon Islands Dollar", Some 2);
  (py "SCR", py "690", py "Seychelles Rupee", Some 2);
  (py "SDG", py "938", py "Sudanese Pound", Some 2);
  (py "SEK", py "752", py "Swedish Krona", Some 2);
  (py "SGD", py "702", py "Singapore Dollar", Some 2);
  (py "SHP", py "654", py "Saint Helena Pound", Some 2);
  (py "SLE", py "925", py "Leone", Some 2);
  (py "SOS", py "706", py "Somali Shilling", Some 2);
  (py "SRD", py "968", py "Surinam Dollar", Some 2);
  (py "SSP", py "728", py "South Sudanese Pound", Some 2);
  (py "STN", py "930", py "Dobra", Some 2);
  (py "SVC", py "222", py "El Salvador Colon", Some 2);
  (py "SYP", py "760", py "Syrian Pound", Some 2);
  (py "SZL", py "748", py "Lilangeni", Some 2);
  (py "THB", py "764", py "Baht", Some 2);
  (py "TJS", py "972", py "Somoni", Some 2);
  (py "TMT", py "934", py "Turkmenistan New Manat", Some 2);
  (py "TND", py "788", py "Tunisian Dinar", Some 3);
  (py "TOP", py "776", py "Pa’anga", Some 2);
  (py "TRY", py "949", py "Turkish Lira", Some 2);
  (py "TTD", py "780", py "Trinidad and Tobago Dollar", Some 2);
  (py "TWD", py "901", py "New Taiwan Dollar", Some 2);
  (py "TZS", py "834", py "Tanzanian Shilling", Some 2);
  (py "UAH", py "980", py "Hryvnia", Some 2);
  (py "UGX", py "800", py "Uganda Shilling", Some 0);
  (py "USD", py "840", py "US Dollar", Some 2);
  (py "USN", py "997", py "US Dollar (Next day)", Some 2);
  (py "UYI", py "940", py "Uruguay Peso en Unidades Indexadas (UI)", Some 0);
  (py "UYU", py "858", py "Peso Uruguayo", Some 2);
  (py "UYW", py "927", py "Unidad Previsional", Some 4);
  (py "UZS", py "860", py "Uzbekistan Sum", Some 2);
  (py "VED", py "926", py "Bolívar Soberano", Some 2);
  (py "VES", py "928", py "Bolívar Soberano", Some 2);
  (py "VND", py "704", py "Dong", Some 0);
  (py "VUV", py "548", py "Vatu", Some 0);
  (py "WST", py "882", py "Tala", Some 2);
  (py "XAD", py "396", py "Arab Accounting Dinar", Some 2);
  (py "XAF", py "950", py "CFA Franc BEAC", Some 0);
  (py "XAG", py "961", py "Silver", None);
  (py "XAU", py "959", py "Gold", None);
  (py "XBA", py "955", py "Bond Markets Unit European Composite Unit (EURCO)", None);
  (py "XBB", py "956", py "Bond Markets Unit European Monetary Unit (E.M.U.-6)", None);
  (py "XBC", py "957", py "Bond Markets Unit European Unit of Account 9 (E.U.A.-9)", None);
  (py "XBD", py "958", py "Bond Markets Unit European Unit of Account 17 (E.U.A.-17)", None);
  (py "XCD", py "951", py "East Caribbean Dollar", Some 2);
  (py "XCG", py "532", py "Caribbean Guilder", Some 2);
  (py "XDR", py "960", py "SDR (Special Drawing Right)", None);
  (py "XOF", py "952", py "CFA Franc BCEAO", Some 0);
  (py "XPD", py "964", py "Palladium", None);
  (py "XPF", py "953", py "CFP Franc", Some 0);
  (py "XPT", py "962", py "Platinum", None);
  (py "XSU", py "994", py "Sucre", None);
  (py "XUA", py "965", py "ADB Unit of Account", None);
  (py "YER", py "886", py "Yemeni Rial", Some 2);
  (py "ZAR", py "710", py "Rand", Some 2);
  (py "ZMW", py "967", py "Zambian Kwacha", Some 2);
  (py "ZWG", py "924", py "Zimbabwe Gold", Some 2)
].
