(* ===== verification/MoneyValue.v ===== *)
(** * Money ([bluetape/money])

    Currencies, bounded decimals, money and exchange rates: the constructors with
    their checks, the arithmetic in the package's own context, the text and
    dictionary forms and their readers.  [ambient] is the context of the calling
    thread, which a quantum and [str] are computed in. *)

From S2P Require Import Prelude Python Leader LeaseRecord PyObject JsonText Decimal MoneyTable.
Open Scope Z_scope.
Open Scope py_scope.

(** ** Currencies ([_currency.py]) *)

Record Currency : Type := {
  cu_code : pystr;
  cu_numeric_code : pystr;
  cu_name : pystr;
  cu_minor_unit : option Z;
}.

#[export] Instance Currency_eq_dec : EqDecision Currency.
Proof. solve_decision. Defined.

Definition currency_error : exn := MoneyError Money.InvalidCurrency.
Definition amount_error : exn := MoneyError Money.InvalidAmount.

Definition row_of (c : Currency) : row := (cu_code c, cu_numeric_code c, cu_name c, cu_minor_unit c).

Definition ROWS_BY_CODE : list (pystr * row) :=
  foldl (fun d (r : row) => dict_set r.1.1.1 r d) [] CURRENCY_ROWS.

(** [Currency(code, numeric_code, name, minor_unit)]. *)
Definition make_currency (code numeric_code name : arg pystr) (minor_unit : arg (option Z)) : outcome Currency :=
  match code, numeric_code, name, minor_unit with
  | Exact code, Exact numeric_code, Exact name, Exact minor_unit =>
      let? _ :=
        orequire (bool_decide (dict_get code ROWS_BY_CODE = Some (code, numeric_code, name, minor_unit))) currency_error in
      Returned {| cu_code := code; cu_numeric_code := numeric_code; cu_name := name; cu_minor_unit := minor_unit |}
  | AnotherClass, _, _, _ => Raised (TypeError "code must be a string")
  | _, AnotherClass, _, _ => Raised (TypeError "numeric_code must be a string")
  | _, _, AnotherClass, _ => Raised (TypeError "name must be a string")
  | _, _, _, AnotherClass => Raised (TypeError "minor_unit must be an integer or None")
  end.

Definition currency_of_row (r : row) : outcome Currency :=
  let '(code, numeric_code, name, minor_unit) := r in
  make_currency (Exact code) (Exact numeric_code) (Exact name) (Exact minor_unit).

(** [_CURRENCIES_BY_CODE]: importing the module makes every row a currency. *)
Fixpoint add_currencies (rows : list (pystr * row)) (d : list (pystr * Currency)) : outcome (list (pystr * Currency)) :=
  match rows with
  | [] => Returned d
  | (_, r) :: rows => let? c := currency_of_row r in add_currencies rows (dict_set r.1.1.1 c d)
  end.

Definition CURRENCIES_BY_CODE : list (pystr * Currency) :=
  match add_currencies (map (fun r : row => (r.1.1.1, r)) CURRENCY_ROWS) [] with Returned d => d | Raised _ => [] end.

Definition CURRENCIES_BY_NUMERIC : list (pystr * Currency) :=
  foldl (fun d m => dict_set (cu_numeric_code m.2) m.2 d) [] CURRENCIES_BY_CODE.

(** [f"{n:03d}"] of a number below 1000. *)
Definition three_digits (n : Z) : pystr := [48 + n / 100; 48 + n / 10 mod 10; 48 + n mod 10].

(** [s.upper()] of an ASCII string. *)
Definition upper (s : pystr) : pystr := map (fun c => if (97 <=? c) && (c <=? 122) then c - 32 else c) s.

Inductive code_arg : Type :=
| CodeText (s : pystr)
| CodeInt (z : Z)
| CodeOther.

Definition get_currency (code_or_numeric : code_arg) : outcome Currency :=
  match code_or_numeric with
  | CodeOther => Raised (TypeError "code_or_numeric must be a string or integer")
  | CodeInt n =>
      if negb ((0 <=? n) && (n <=? 999)) then Raised currency_error
      else oget (dict_get (three_digits n) CURRENCIES_BY_NUMERIC) currency_error
  | CodeText s =>
      if bool_decide (s = []) || negb (bool_decide (s = strip s)) then Raised currency_error
      else if (length s =? 3)%nat && is_ascii s then
        oget (if forallb is_digit s then dict_get s CURRENCIES_BY_NUMERIC else dict_get (upper s) CURRENCIES_BY_CODE)
          currency_error
      else Raised currency_error
  end.

(** ** Bounded decimals ([_decimal.py]) *)

Definition MAX_TEXT_LENGTH : Z := 512.
Definition MAX_COEFFICIENT_DIGITS : Z := 256.
Definition MAX_ABS_EXPONENT : Z := 256.

Definition MONEY_CONTEXT : context :=
  {| c_prec := 256; c_rounding := ROUND_HALF_EVEN; c_Emin := -256; c_Emax := 256; c_capitals := true; c_exact := true |}.

(** The copy of it with [Inexact] and [Rounded] not trapped. *)
Definition ROUNDING_CONTEXT : context :=
  {| c_prec := 256; c_rounding := ROUND_HALF_EVEN; c_Emin := -256; c_Emax := 256; c_capitals := true; c_exact := false |}.

Definition bounded (d : dec) : bool :=
  (num_digits (d_int d) <=? MAX_COEFFICIENT_DIGITS) && (Z.abs (d_exp d) <=? MAX_ABS_EXPONENT).

(** [validate_decimal] of a [Decimal]: nothing is an infinity or a NaN. *)
Definition validate_decimal (error : exn) (value : option dec) : outcome dec :=
  match value with
  | None => Raised error
  | Some d => let? _ := orequire (bounded d) error in Returned d
  end.

(** What a caller passes as an amount, a scalar or a rate. *)
Inductive number : Type :=
| NumDecimal (d : option dec)
| NumInt (z : Z)
| NumBool (b : bool)
| NumFloat (f : float)
| NumText (s : pystr)
| NumOther.

Definition not_a_number : exn := TypeError "must be a Decimal, integer, or string".

Definition parse_decimal (error : exn) (value : number) : outcome dec :=
  match value with
  | NumBool _ | NumFloat _ | NumOther => Raised not_a_number
  | NumDecimal d => validate_decimal error d
  | NumInt z => validate_decimal error (Some (dec_of_int z))
  | NumText s =>
      let? _ :=
        orequire (negb (bool_decide (s = [])) && (Z.of_nat (length s) <=? MAX_TEXT_LENGTH) && bool_decide (s = strip s))
          error in
      let? parsed := oget (dec_of_text s) error in
      validate_decimal error (Some parsed)
  end.

Definition calculate (error : exn) (allow_rounding : bool) (operation : context -> outcome dec) : outcome dec :=
  match operation (if allow_rounding then ROUNDING_CONTEXT else MONEY_CONTEXT) with
  | Returned result => validate_decimal error (Some result)
  | Raised e => if bool_decide (e = DecimalException) || is_ValueError e then Raised error else Raised e
  end.

Inductive rounding_arg : Type :=
| RoundingMode (mode : rounding)
| AnotherText
| NotText.

Definition require_rounding (mode : rounding_arg) : outcome rounding :=
  match mode with
  | RoundingMode mode => Returned mode
  | AnotherText => Raised amount_error
  | NotText => Raised (TypeError "rounding must be a string")
  end.

(** ** Money ([_money.py]) *)

Record Money : Type := { mo_amount : dec; mo_currency : Currency }.

#[export] Instance Money_eq_dec : EqDecision Money.
Proof. solve_decision. Defined.

Definition require_currency (currency : arg Currency) : outcome Currency :=
  match currency with Exact c => Returned c | AnotherClass => Raised (TypeError "currency must be a Currency") end.

(** [Money(amount, currency)]; another class of amount is no [Decimal]. *)
Definition make_money (amount : arg (option dec)) (currency : arg Currency) : outcome Money :=
  match amount with
  | AnotherClass => Raised (TypeError "amount must be a Decimal")
  | Exact amount =>
      let? currency := require_currency currency in
      let? amount := validate_decimal amount_error amount in
      Returned {| mo_amount := amount; mo_currency := currency |}
  end.

Definition money (amount : dec) (currency : Currency) : outcome Money :=
  make_money (Exact (Some amount)) (Exact currency).

(** [Money.of]. *)
Definition money_of (value : number) (currency : arg Currency) : outcome Money :=
  let? amount := parse_decimal amount_error value in
  let? currency := require_currency currency in
  money amount currency.

(** [Money.from_minor]; a unit that is no [int] is of another class. *)
Definition from_minor (units : arg Z) (currency : arg Currency) : outcome Money :=
  let? currency := require_currency currency in
  match units with
  | AnotherClass => Raised (TypeError "units must be an integer")
  | Exact units =>
      let? minor_unit := oget (cu_minor_unit currency) currency_error in
      let? amount := calculate amount_error false (fun c => dec_scaleb c (dec_of_int units) (- minor_unit)) in
      money amount currency
  end.

Definition same_currency (self : Money) (other : arg Money) : outcome Money :=
  match other with
  | AnotherClass => Raised (TypeError "operand must be Money")
  | Exact other =>
      let? _ := orequire (bool_decide (mo_currency self = mo_currency other)) (MoneyError Money.CurrencyMismatch) in
      Returned other
  end.

Definition money_add (self : Money) (other : arg Money) : outcome Money :=
  let? other := same_currency self other in
  let? amount := calculate amount_error false (fun c => dec_add c (mo_amount self) (mo_amount other)) in
  money amount (mo_currency self).

Definition money_sub (self : Money) (other : arg Money) : outcome Money :=
  let? other := same_currency self other in
  let? amount := calculate amount_error false (fun c => dec_sub c (mo_amount self) (mo_amount other)) in
  money amount (mo_currency self).

Definition money_neg (self : Money) : outcome Money :=
  let? amount := calculate amount_error false (fun c => dec_neg c (mo_amount self)) in
  money amount (mo_currency self).

Definition money_abs (self : Money) : outcome Money :=
  let? amount := calculate amount_error false (fun c => dec_abs c (mo_amount self)) in
  money amount (mo_currency self).

Definition money_mul (self : Money) (scalar : number) : outcome Money :=
  let? normalized := parse_decimal amount_error scalar in
  let? amount := calculate amount_error false (fun c => dec_mul c (mo_amount self) normalized) in
  money amount (mo_currency self).

Definition money_div (self : Money) (scalar : number) : outcome Money :=
  let? normalized := parse_decimal amount_error scalar in
  if is_zero normalized then Raised ZeroDivisionError
  else
    let? amount := calculate amount_error false (fun c => dec_div c (mo_amount self) normalized) in
    money amount (mo_currency self).

Definition money_lt (self : Money) (other : arg Money) : outcome bool :=
  let? other := same_currency self other in Returned (dec_ltb (mo_amount self) (mo_amount other)).

Definition money_le (self : Money) (other : arg Money) : outcome bool :=
  let? other := same_currency self other in Returned (dec_leb (mo_amount self) (mo_amount other)).

Definition money_gt (self : Money) (other : arg Money) : outcome bool :=
  let? other := same_currency self other in Returned (dec_ltb (mo_amount other) (mo_amount self)).

Definition money_ge (self : Money) (other : arg Money) : outcome bool :=
  let? other := same_currency self other in Returned (dec_leb (mo_amount other) (mo_amount self)).

Section Ambient.
Variable ambient : context.

(** [_quantum], outside the package's context. *)
Definition quantum (self : Money) : outcome dec :=
  let? minor_unit := oget (cu_minor_unit (mo_currency self)) currency_error in
  dec_scaleb ambient (dec_of_int 1) (- minor_unit).

Definition quantize (self : Money) (mode : rounding_arg) : outcome Money :=
  let? quantum := quantum self in
  let? normalized_rounding := require_rounding mode in
  let? amount :=
    calculate amount_error true (fun c => dec_quantize c normalized_rounding (mo_amount self) (d_exp quantum)) in
  money amount (mo_currency self).

Definition minor_units (self : Money) (mode : option rounding_arg) : outcome Z :=
  let? quantum := quantum self in
  let? value :=
    match mode with
    | None => Returned self
    | Some mode => let? mode := require_rounding mode in quantize self (RoundingMode mode)
    end in
  let? scaled := calculate amount_error false (fun c => dec_div c (mo_amount value) quantum) in
  let? _ := orequire (dec_eqb scaled (to_integral_value ambient scaled)) amount_error in
  Returned (int_of_dec scaled).

(** [Money.format]; a [quantize] that is no [bool] is of another class. *)
Definition format_money (self : Money) (to_quantum : arg bool) (mode : rounding_arg) : outcome pystr :=
  match to_quantum with
  | AnotherClass => Raised (TypeError "quantize must be a boolean")
  | Exact to_quantum =>
      let? normalized_rounding := require_rounding mode in
      let? value := if to_quantum then quantize self (RoundingMode normalized_rounding) else Returned self in
      Returned (cu_code (mo_currency value) ++ [32] ++ dec_format (mo_amount value))
  end.

Definition to_dict (self : Money) : list (pystr * pystr) :=
  [(py "amount", dec_str (c_capitals ambient) (mo_amount self)); (py "currency", cu_code (mo_currency self))].
End Ambient.

Fixpoint member (name : pystr) (items : list (pyobj * pyobj)) : option pyobj :=
  match items with
  | [] => None
  | (OStr key, value) :: items => if bool_decide (key = name) then Some value else member name items
  | _ :: items => member name items
  end.

(** [set(value) == {"amount", "currency"}]. *)
Definition is_money_key (key : pyobj) : bool :=
  match key with OStr key => bool_decide (key = py "amount") || bool_decide (key = py "currency") | _ => false end.

(** [Money.from_dict]. *)
Definition from_dict (value : pyobj) : outcome Money :=
  match mapping_items value with
  | None => Raised (TypeError "value must be a mapping")
  | Some (Raised e) => Raised e
  | Some (Returned items) =>
      let? _ := orequire (forallb (fun m => is_money_key m.1) items) amount_error in
      let? amount := oget (member (py "amount") items) amount_error in
      let? currency := oget (member (py "currency") items) amount_error in
      match amount, currency with
      | OStr amount, OStr currency =>
          let? currency := get_currency (CodeText currency) in money_of (NumText amount) (Exact currency)
      | OStr _, _ => Raised (TypeError "currency must be a string")
      | _, _ => Raised (TypeError "amount must be a string")
      end
  end.

(** The values an iterator gives, and the exception it ends with if it does. *)
Definition iteration : Type := list (arg Money) * option exn.

Fixpoint add_all (total : Money) (values : list (arg Money)) (last : option exn) : outcome Money :=
  match values with
  | [] => match last with None => Returned total | Some e => Raised e end
  | AnotherClass :: _ => Raised (TypeError "values must contain only Money values")
  | Exact value :: values => let? total := money_add total (Exact value) in add_all total values last
  end.

Definition sum_money (currency : arg Currency) (values : outcome iteration) : outcome Money :=
  let? currency := require_currency currency in
  match values with
  | Raised (TypeError _) => Raised (TypeError "values must be an iterable of Money")
  | Raised e => Raised e
  | Returned (values, last) =>
      let? total := money_of (NumInt 0) (Exact currency) in add_all total values last
  end.

(** ** Exchange ([_exchange.py]) *)

Definition rate_error : exn := MoneyError Money.InvalidExchangeRate.

Definition validate_rate (rate : option dec) : outcome dec :=
  let? normalized := validate_decimal rate_error rate in
  let? _ := orequire (negb (dec_leb normalized (dec_of_int 0))) rate_error in
  Returned normalized.

Record ExchangeRate : Type := { er_base : Currency; er_quote : Currency; er_rate : dec }.

Definition make_rate (base quote : arg Currency) (rate : arg (option dec)) : outcome ExchangeRate :=
  let? base := require_currency base in
  let? quote := require_currency quote in
  match rate with
  | AnotherClass => Raised (TypeError "rate must be a Decimal")
  | Exact rate =>
      let? rate := validate_rate rate in
      let? _ := orequire (negb (bool_decide (base = quote)) || dec_eqb rate (dec_of_int 1)) rate_error in
      Returned {| er_base := base; er_quote := quote; er_rate := rate |}
  end.

Definition rate_of (base quote : arg Currency) (rate : number) : outcome ExchangeRate :=
  let? parsed := parse_decimal rate_error rate in
  make_rate base quote (Exact (Some parsed)).

Definition convert (value : arg Money) (rate : arg ExchangeRate) : outcome Money :=
  match value, rate with
  | AnotherClass, _ => Raised (TypeError "money must be Money")
  | _, AnotherClass => Raised (TypeError "rate must be an ExchangeRate")
  | Exact m, Exact rate =>
      if decide (mo_currency m = er_base rate) then
        let? amount := calculate amount_error false (fun c => dec_mul c (mo_amount m) (er_rate rate)) in
        money amount (er_quote rate)
      else if decide (mo_currency m = er_quote rate) then
        let? amount := calculate amount_error false (fun c => dec_div c (mo_amount m) (er_rate rate)) in
        money amount (er_base rate)
      else Raised (MoneyError Money.CurrencyMismatch)
  end.

(** ** Text ([_parse.py]) *)

Definition is_letter (c : Z) : bool := (65 <=? c) && (c <=? 90) || (97 <=? c) && (c <=? 122).

(** [parse_money]. *)
Definition parse_money (text : arg pystr) : outcome Money :=
  match text with
  | AnotherClass => Raised (TypeError "text must be a string")
  | Exact text =>
      let? _ := orequire (Z.of_nat (length text) <=? MAX_TEXT_LENGTH + 4) amount_error in
      match text with
      | a :: b :: c :: space :: amount =>
          if is_letter a && is_letter b && is_letter c && (space =? 32) && bool_decide (is_Some (dec_of_text amount)) then
            let? currency := get_currency (CodeText [a; b; c]) in money_of (NumText amount) (Exact currency)
          else Raised amount_error
      | _ => Raised amount_error
      end
  end.
