(* ===== verification/MoneyLaws.v ===== *)
(** * What the money package guarantees

    Every amount is finite and bounded, arithmetic is exact or refused, a
    quantised amount is the amount rounded as the caller asked, minor units count
    it, and the text forms are read back. *)

From Stdlib Require Import QArith Qpower Qabs.
From S2P Require Import Prelude Python Leader LeaseRecord PyObject JsonText JsonTextLaws Decimal DecimalLaws DecimalText MoneyTable MoneyValue.
Open Scope Z_scope.
Open Scope py_scope.

(** ** Validity *)

Definition valid_amount (d : dec) : Prop := 0 <= d_int d /\ bounded d = true.

(** A currency is a row of the table. *)
Definition known (c : Currency) : Prop := dict_get (cu_code c) ROWS_BY_CODE = Some (row_of c).

Definition valid_money (m : Money) : Prop := valid_amount (mo_amount m) /\ known (mo_currency m).

(** A [Decimal] has a coefficient that is no negative number. *)
Definition natural_number (n : number) : Prop :=
  match n with NumDecimal (Some d) => 0 <= d_int d | _ => True end.

Lemma known_minor_unit c mu : known c -> cu_minor_unit c = Some mu -> 0 <= mu <= 4.
Proof.
  unfold known. intros Hk Hm.
  assert (forallb (fun m : pystr * row => match m.2.2 with Some u => (0 <=? u) && (u <=? 4) | None => true end) ROWS_BY_CODE = true)
    as Ht by (vm_compute; reflexivity).
  rewrite forallb_forall in Ht. specialize (Ht (cu_code c, row_of c)). cbn in Ht. rewrite Hm in Ht.
  specialize (Ht (proj1 (list_elem_of_In _ _) (dict_get_in _ _ _ Hk))). bool_to_prop. lia.
Qed.

Lemma undecimal_natural s : digits s -> 0 <= undecimal s.
Proof. intros H. pose proof (foldl_digits s 0 H) as B. cbv zeta in B. unfold undecimal. lia. Qed.

Lemma span_digits_digits text : digits (span_digits text).1.
Proof.
  induction text as [|c text IH]; [done|]. cbn. destruct (is_digit c) eqn:E; [|done].
  destruct (span_digits text). unfold digits in *. cbn in *. by rewrite E.
Qed.

Lemma dec_of_text_natural text d : dec_of_text text = Some d -> 0 <= d_int d.
Proof.
  unfold dec_of_text. destruct (scan_sign text) as [s rest].
  pose proof (span_digits_digits rest) as Hi. destruct (span_digits rest) as [i rest']. cbn in Hi.
  set (p := match rest' with [] => _ | _ => _ end). assert (digits p.1) as Hf.
  { unfold p. destruct rest' as [|c rest']; [done|]. destruct (c =? 46); [apply span_digits_digits|done]. }
  destruct p as [f rest'']. cbn in Hf. destruct (i ++ f) as [|c l] eqn:E; [done|].
  intros (power & _ & [= <-])%bind_Some. cbn [d_int]. apply undecimal_natural. rewrite <-E. by apply digits_app.
Qed.

Lemma validate_returned error value d :
  validate_decimal error value = Returned d <-> value = Some d /\ bounded d = true.
Proof.
  unfold validate_decimal. destruct value as [d'|]; [|split; [done|by intros []]].
  split.
  - intros (u & Hb%orequire_returned & [= ->])%obind_returned. done.
  - intros [[= ->] ->]. done.
Qed.

Lemma parse_decimal_valid error n d :
  natural_number n -> parse_decimal error n = Returned d -> valid_amount d.
Proof.
  intros Hn. unfold valid_amount. destruct n; cbn [parse_decimal]; try done.
  - intros [-> Hb]%validate_returned. by split.
  - intros [[= <-] Hb]%validate_returned. split; [cbn; lia|done].
  - intros (u & _ & (d' & Hp%oget_returned & [[= ->] Hb]%validate_returned)%obind_returned)%obind_returned.
    split; [by eapply dec_of_text_natural|done].
Qed.

Lemma calculate_returned error allow op r :
  calculate error allow op = Returned r <->
  op (if allow then ROUNDING_CONTEXT else MONEY_CONTEXT) = Returned r /\ bounded r = true.
Proof.
  unfold calculate. destruct (op _) as [r'|e].
  - rewrite validate_returned. naive_solver.
  - split; [case_match; done|by intros []].
Qed.

Lemma money_returned d c m :
  money d c = Returned m <-> m = {| mo_amount := d; mo_currency := c |} /\ bounded d = true.
Proof.
  unfold money, make_money. cbn [require_currency obind]. split.
  - intros (d' & [[= <-] Hb]%validate_returned & [= <-])%obind_returned. done.
  - intros [-> Hb]. by rewrite (proj2 (validate_returned _ _ d)).
Qed.

(** An operation of the package: computed in its context, then made money. *)
Lemma calculated error allow op c m :
  (let? amount := calculate error allow op in money amount c) = Returned m <->
  op (if allow then ROUNDING_CONTEXT else MONEY_CONTEXT) = Returned (mo_amount m) /\
  bounded (mo_amount m) = true /\ mo_currency m = c.
Proof.
  split.
  - by intros (r & [Hop Hb]%calculate_returned & [-> _]%money_returned)%obind_returned.
  - destruct m as [r c']. cbn. intros (Hop & Hb & ->).
    rewrite (proj2 (calculate_returned error allow op r)) by done. cbn [obind]. by apply money_returned.
Qed.

(** ** The operations, once computed *)

Lemma fit_natural d r : 0 <= d_int d -> fit MONEY_CONTEXT d = Returned r -> 0 <= d_int r.
Proof.
  intros Hd H. destruct (is_zero d) eqn:Ez.
  - unfold fit in H. fold (is_zero d) in H. rewrite Ez in H. by injection H as <-.
  - apply fit_exact in H as [_ H]; [|done]. by rewrite H.
Qed.

Lemma dec_div_natural a b r : 0 <= d_int a -> 0 <= d_int b -> dec_div MONEY_CONTEXT a b = Returned r -> 0 <= d_int r.
Proof.
  intros Ha Hb. unfold dec_div. destruct (is_zero b) eqn:Eb; [done|]. unfold is_zero in Eb. bool_to_prop.
  destruct (is_zero a); [by apply fit_natural|]. cbv zeta.
  set (shift := num_digits (d_int b) - _ + _ + 1).
  set (n := if 0 <=? shift then d_int a * _ else _). set (m := if 0 <=? shift then d_int b else _).
  assert (0 <= n / m) as Hq.
  { unfold n, m. destruct (Z.leb_spec 0 shift).
    - pose proof (Z.pow_nonneg 10 shift). apply Z.div_pos; nia.
    - pose proof (Z.pow_pos_nonneg 10 (- shift)). apply Z.div_pos; nia. }
  destruct (negb _).
  - apply fit_natural. cbn [d_int]. destruct (_ =? 0); lia.
  - match goal with |- context [strip_zeros ?f ?q ?e ?i] => pose proof (strip_zeros_spec f q e i) as Hz end.
    destruct (strip_zeros _ _ _ _) as [coeff exp]. destruct Hz as (He & Hc & _).
    apply fit_natural. cbn [d_int].
    pose proof (Z.pow_pos_nonneg 10 (exp - (d_exp a - d_exp b - shift)) ltac:(lia) ltac:(lia)). nia.
Qed.

Lemma rescale_natural mode a exp : 0 <= d_int a -> 0 <= d_int (rescale mode a exp).
Proof.
  intros Ha. unfold rescale. destruct (Z.leb_spec exp (d_exp a)); cbn [d_int].
  - pose proof (Z.pow_nonneg 10 (d_exp a - exp)). nia.
  - pose proof (Z.pow_pos_nonneg 10 (exp - d_exp a)). pose proof (Z.div_pos (d_int a) (10 ^ (exp - d_exp a))).
    destruct (rounds_away _ _ _ _ _); lia.
Qed.

(** What an operation on amounts gives for money. *)
Lemma calculated_valid error (allow : bool) op c m :
  known c -> (forall r, op (if allow then ROUNDING_CONTEXT else MONEY_CONTEXT) = Returned r -> 0 <= d_int r) ->
  (let? amount := calculate error allow op in money amount c) = Returned m -> valid_money m.
Proof. intros Hc Hop (Ho & Hb & <-)%calculated. split; [split; [by eapply Hop|done]|done]. Qed.

Lemma dec_neg_natural a r : 0 <= d_int a -> dec_neg MONEY_CONTEXT a = Returned r -> 0 <= d_int r.
Proof. intros Ha. apply fit_natural. by case_match. Qed.

Lemma dec_abs_natural a r : 0 <= d_int a -> dec_abs MONEY_CONTEXT a = Returned r -> 0 <= d_int r.
Proof. intros Ha. unfold dec_abs. case_match; [by apply dec_neg_natural|]. apply fit_natural. by case_match. Qed.

Lemma dec_add_natural a b r : dec_add MONEY_CONTEXT a b = Returned r -> 0 <= d_int r.
Proof. apply fit_natural. cbn. lia. Qed.

Lemma dec_mul_natural a b r : 0 <= d_int a -> 0 <= d_int b -> dec_mul MONEY_CONTEXT a b = Returned r -> 0 <= d_int r.
Proof. intros Ha Hb. apply fit_natural. cbn [d_int]. by apply Z.mul_nonneg_nonneg. Qed.

Lemma same_currency_returned m other m' :
  same_currency m other = Returned m' <-> other = Exact m' /\ mo_currency m = mo_currency m'.
Proof.
  destruct other as [o|]; cbn; [|naive_solver]. split.
  - intros (u & Ho%orequire_returned & [= <-])%obind_returned. by bool_to_prop.
  - intros [[= ->] E]. by rewrite bool_decide_true.
Qed.

(** ** Exactness *)

(** The arithmetic of money and the exchange, as the operations are called. *)
Inductive arithmetic : Money -> outcome Money -> Currency -> Q -> Prop :=
| Added m m' : valid_money m' -> mo_currency m = mo_currency m' ->
    arithmetic m (money_add m (Exact m')) (mo_currency m) (value (mo_amount m) + value (mo_amount m'))
| Subtracted m m' : valid_money m' -> mo_currency m = mo_currency m' ->
    arithmetic m (money_sub m (Exact m')) (mo_currency m) (value (mo_amount m) - value (mo_amount m'))
| Negated m : arithmetic m (money_neg m) (mo_currency m) (- value (mo_amount m))
| Absolute m : arithmetic m (money_abs m) (mo_currency m) (Qabs (value (mo_amount m)))
| Multiplied m n d : natural_number n -> parse_decimal amount_error n = Returned d ->
    arithmetic m (money_mul m n) (mo_currency m) (value (mo_amount m) * value d)
| Divided m n d : natural_number n -> parse_decimal amount_error n = Returned d -> is_zero d = false ->
    arithmetic m (money_div m n) (mo_currency m) (value (mo_amount m) / value d)
| Converted m rate : valid_amount (er_rate rate) -> known (er_quote rate) -> mo_currency m = er_base rate ->
    arithmetic m (convert (Exact m) (Exact rate)) (er_quote rate) (value (mo_amount m) * value (er_rate rate))
| ConvertedBack m rate : valid_amount (er_rate rate) -> is_zero (er_rate rate) = false -> known (er_base rate) ->
    mo_currency m <> er_base rate -> mo_currency m = er_quote rate ->
    arithmetic m (convert (Exact m) (Exact rate)) (er_base rate) (value (mo_amount m) / value (er_rate rate)).

Lemma value_nonzero d : is_zero d = false -> ~ (value d == 0)%Q.
Proof.
  unfold is_zero, value, signed. intros Hz E. bool_to_prop. apply Qmult_integral in E as [E|E].
  - unfold Qeq in E. cbn in E. destruct (d_sign d); lia.
  - pose proof (ten_pos (d_exp d)) as H. rewrite E in H. by apply Qlt_irrefl in H.
Qed.

Lemma quotient_value r a b : is_zero b = false -> (value r * value b == value a)%Q -> (value r == value a / value b)%Q.
Proof. intros Hb%value_nonzero H. rewrite <-H. field. done. Qed.

(** The one way an operation ends without a result. *)
Lemma calculate_raised error (allow : bool) op e :
  (forall e', op (if allow then ROUNDING_CONTEXT else MONEY_CONTEXT) = Raised e' -> e' = DecimalException) ->
  calculate error allow op = Raised e -> e = error.
Proof.
  unfold calculate. intros Hop. destruct (op _) as [r|e']; [cbn|].
  - unfold orequire. case_match; [done|]. by intros [= <-].
  - rewrite (Hop e') by done. rewrite bool_decide_true by done. cbn. by intros [= <-].
Qed.

Lemma calculated_raised op c e :
  (forall e', op MONEY_CONTEXT = Raised e' -> e' = DecimalException) ->
  (let? amount := calculate amount_error false op in money amount c) = Raised e -> e = amount_error.
Proof.
  intros Hop. destruct (calculate _ _ _) as [r|e'] eqn:E; cbn [obind].
  - apply calculate_returned in E as [_ Hb]. by rewrite (proj2 (money_returned r c _) (conj eq_refl Hb)).
  - intros [= <-]. by apply calculate_raised in E.
Qed.

Lemma dec_div_raised c a b e : dec_div c a b = Raised e -> e = DecimalException.
Proof.
  unfold dec_div. destruct (is_zero b); [by intros [= <-]|]. destruct (is_zero a); [by intros ?%fit_raised|]. cbv zeta.
  destruct (negb _); [by intros ?%fit_raised|]. destruct (strip_zeros _ _ _ _). by intros ?%fit_raised.
Qed.

Lemma dec_abs_raised c a e : dec_abs c a = Raised e -> e = DecimalException.
Proof. unfold dec_abs. case_match; apply fit_raised. Qed.

Definition ends_in (currency : Currency) (exact : Q) (result : outcome Money) : Prop :=
  match result with
  | Returned m' => valid_money m' /\ mo_currency m' = currency /\ (value (mo_amount m') == exact)%Q
  | Raised e => e = amount_error
  end.

Lemma calculated_ends op c exact :
  known c ->
  (forall r, op MONEY_CONTEXT = Returned r -> 0 <= d_int r /\ (value r == exact)%Q) ->
  (forall e, op MONEY_CONTEXT = Raised e -> e = DecimalException) ->
  ends_in c exact (let? amount := calculate amount_error false op in money amount c).
Proof.
  intros Hc Hr He. destruct (let? amount := _ in _) as [m|e] eqn:E; cbn; [|by eapply calculated_raised].
  apply (calculated amount_error false) in E as (Ho & Hb & <-). apply Hr in Ho as [Hn Hv]. done.
Qed.

(** [C30] Arithmetic on money never rounds: whatever operation is called on operands
    that fit together, a result is the exact value in the right currency and again
    bounded, and the only error is [InvalidAmountError]. *)
Theorem money_arithmetic_exact m result currency exact :
  valid_money m -> arithmetic m result currency exact -> ends_in currency exact result.
Proof.
  intros [[Hm Hb] Hk] Ha. destruct Ha as [m m' [[Hm' _] _] E|m m' [[Hm' _] _] E|m|m|m n d Hn Hd|m n d Hn Hd Hz|m rate Hr Hq E|m rate Hr Hz Hq Ne E].
  - unfold money_add. rewrite (proj2 (same_currency_returned m (Exact m') m')) by done. cbn [obind].
    apply calculated_ends; [done| |intros e; apply fit_raised].
    intros r H. split; [by eapply dec_add_natural|by apply (dec_add_exact MONEY_CONTEXT)].
  - unfold money_sub. rewrite (proj2 (same_currency_returned m (Exact m') m')) by done. cbn [obind].
    apply calculated_ends; [done| |intros e; apply fit_raised].
    intros r H. split; [by eapply dec_add_natural|by apply (dec_sub_exact MONEY_CONTEXT)].
  - apply calculated_ends; [done| |intros e; apply fit_raised].
    intros r H. split; [by eapply dec_neg_natural|by apply (dec_neg_exact MONEY_CONTEXT)].
  - apply calculated_ends; [done| |intros e; apply dec_abs_raised].
    intros r H. split; [by eapply dec_abs_natural|by apply (dec_abs_exact MONEY_CONTEXT)].
  - unfold money_mul. rewrite Hd. cbn [obind]. apply parse_decimal_valid in Hd as [Hd _]; [|done].
    apply calculated_ends; [done| |intros e; apply fit_raised].
    intros r H. split; [exact (dec_mul_natural _ _ _ Hm Hd H)|by apply (dec_mul_exact MONEY_CONTEXT)].
  - unfold money_div. rewrite Hd. cbn [obind]. rewrite Hz. apply parse_decimal_valid in Hd as [Hd _]; [|done].
    apply calculated_ends; [done| |intros e; apply dec_div_raised].
    intros r H. split; [exact (dec_div_natural _ _ _ Hm Hd H)|]. apply quotient_value; [done|].
    by apply (dec_div_exact MONEY_CONTEXT).
  - unfold convert. rewrite decide_True by done. destruct Hr as [Hr _].
    apply calculated_ends; [done| |intros e; apply fit_raised].
    intros r H. split; [exact (dec_mul_natural _ _ _ Hm Hr H)|by apply (dec_mul_exact MONEY_CONTEXT)].
  - unfold convert. rewrite decide_False, decide_True by done. destruct Hr as [Hr _].
    apply calculated_ends; [done| |intros e; apply dec_div_raised].
    intros r H. split; [exact (dec_div_natural _ _ _ Hm Hr H)|]. apply quotient_value; [done|].
    by apply (dec_div_exact MONEY_CONTEXT).
Qed.

(** Currencies never mix: the operations on two amounts answer nothing but
    [CurrencyMismatchError] when the currencies differ, and so does an exchange with
    a rate of other currencies. *)
Theorem currencies_never_mix m m' rate :
  (mo_currency m <> mo_currency m' ->
    money_add m (Exact m') = Raised (MoneyError Money.CurrencyMismatch) /\
    money_sub m (Exact m') = Raised (MoneyError Money.CurrencyMismatch) /\
    money_lt m (Exact m') = Raised (MoneyError Money.CurrencyMismatch) /\
    money_le m (Exact m') = Raised (MoneyError Money.CurrencyMismatch) /\
    money_gt m (Exact m') = Raised (MoneyError Money.CurrencyMismatch) /\
    money_ge m (Exact m') = Raised (MoneyError Money.CurrencyMismatch)) /\
  (mo_currency m <> er_base rate -> mo_currency m <> er_quote rate ->
    convert (Exact m) (Exact rate) = Raised (MoneyError Money.CurrencyMismatch)).
Proof.
  split.
  - intros Hne. unfold money_add, money_sub, money_lt, money_le, money_gt, money_ge, same_currency.
    by rewrite bool_decide_false.
  - intros Hb Hq. unfold convert. by rewrite !decide_False.
Qed.

(** ** Quantising *)

(** The contexts of a thread that a quantum of up to four places fits. *)
Definition ambient_ok (c : context) : Prop :=
  1 <= c_prec c /\ 0 <= c_Emax c /\ 2 <= c_Emax c + c_prec c /\ Etiny c <= -4.

Lemma quantum_exact ambient m mu :
  ambient_ok ambient -> known (mo_currency m) -> cu_minor_unit (mo_currency m) = Some mu ->
  quantum ambient m = Returned (Dec false 1 (- mu)) /\ 0 <= mu <= 4.
Proof.
  intros (Hp & Hmax & Hsum & Ht) Hk Hmu. pose proof (known_minor_unit _ _ Hk Hmu). split; [|done].
  unfold quantum. rewrite Hmu. cbn [oget obind]. unfold dec_scaleb.
  rewrite (proj2 (Z.leb_le _ (- mu))), (proj2 (Z.leb_le (- mu) _)) by lia. cbn [andb].
  change (dec_of_int 1) with (Dec false 1 0). cbn [d_sign d_int d_exp]. unfold fit. cbn [d_int d_exp Z.eqb].
  rewrite num_digits_small by lia. unfold Etop, Etiny in *.
  rewrite (proj2 (Z.ltb_ge _ _)), (proj2 (Z.ltb_ge _ _)) by lia. done.
Qed.

Lemma rescaled_bounded mode d mu :
  0 <= mu <= 4 -> bounded (rescale mode d (- mu)) = (num_digits (d_int (rescale mode d (- mu))) <=? 256).
Proof.
  intros Hmu. unfold bounded. assert (d_exp (rescale mode d (- mu)) = - mu) as -> by (unfold rescale; by case_match).
  rewrite (proj2 (Z.leb_le (Z.abs _) _)) by (unfold MAX_ABS_EXPONENT; lia). by rewrite andb_true_r.
Qed.

(** [C31] A quantised amount is the amount, rounded as the caller asked to the minor
    unit of its currency and written with its places; it fails exactly when that
    takes more than 256 digits. *)
Theorem quantize_rounds ambient m mode mu :
  ambient_ok ambient -> valid_money m -> cu_minor_unit (mo_currency m) = Some mu ->
  let rounded := rescale mode (mo_amount m) (- mu) in
  quantize ambient m (RoundingMode mode) =
    (if num_digits (d_int rounded) <=? 256
     then Returned {| mo_amount := rounded; mo_currency := mo_currency m |} else Raised amount_error) /\
  d_exp rounded = - mu /\
  rounded_to mode (value (mo_amount m)) (value rounded) (10 ^ (- mu)) (d_int rounded).
Proof.
  intros Ha [[Hn Hb] Hk] Hmu rounded. destruct (quantum_exact ambient m mu Ha Hk Hmu) as [Hq Hr].
  split; [|split; [unfold rounded, rescale; by case_match|by apply rescale_rounded]].
  unfold quantize. rewrite Hq. cbn [obind require_rounding d_exp]. unfold calculate.
  rewrite (dec_quantize_returns ROUNDING_CONTEXT) by (unfold good_context, Etiny; cbn; lia).
  change (c_prec ROUNDING_CONTEXT) with 256. fold rounded. pose proof (rescaled_bounded mode (mo_amount m) mu Hr) as Hbr.
  fold rounded in Hbr. destruct (num_digits (d_int rounded) <=? 256).
  - rewrite (proj2 (validate_returned _ (Some rounded) rounded)) by done. cbn [obind]. by apply money_returned.
  - by rewrite bool_decide_true.
Qed.

(** ** Minor units *)

Lemma dec_eqb_value a b : dec_eqb a b = true <-> (value a == value b)%Q.
Proof.
  unfold dec_eqb. rewrite dec_compare_value, Qeq_alt. destruct (_ ?= _)%Q; naive_solver.
Qed.

Lemma integral_value c a :
  0 <= d_int a -> dec_eqb a (to_integral_value c a) = true -> (value a == inject_Z (int_of_dec a))%Q.
Proof.
  intros Ha. rewrite dec_eqb_value. unfold to_integral_value, int_of_dec. destruct a as [s i e]. cbn [d_sign d_int d_exp] in *.
  destruct (Z.leb_spec 0 e) as [He|He].
  - intros _. unfold value, signed. cbn [d_sign d_int d_exp]. by rewrite (inject_Z_mult _ (10 ^ e)), (ten_inject _ He).
  - unfold rescale. cbn [d_sign d_int d_exp]. rewrite (proj2 (Z.leb_gt 0 e)) by lia.
    set (q := if rounds_away _ _ _ _ _ then _ else _). assert (0 <= - e) as Hk by lia.
    assert (value (Dec s q 0) == value (Dec s (q * 10 ^ (- e)) e))%Q as Hq.
    { symmetry. replace 0 with (e + - e) by lia. by apply value_shift. }
    rewrite Hq, !value_int, inject_scaled. intros E. assert (i = q * 10 ^ (- e)) as Hi by (destruct s; lia).
    pose proof (Z.pow_pos_nonneg 10 (- e) ltac:(lia) Hk). clearbody q. subst i. rewrite Z.div_mul by lia.
    rewrite Z.mul_assoc, inject_Z_mult, (ten_inject _ Hk), <-Qmult_assoc, <-ten_split, Z.add_opp_diag_l. ring.
Qed.

Lemma count_minor_units ambient v mu u :
  0 <= d_int (mo_amount v) -> bounded (mo_amount v) = true ->
  (let? scaled := calculate amount_error false (fun c => dec_div c (mo_amount v) (Dec false 1 (- mu))) in
   let? _ := orequire (dec_eqb scaled (to_integral_value ambient scaled)) amount_error in
   Returned (int_of_dec scaled)) = Returned u ->
  (value (mo_amount v) == scaled u (- mu))%Q.
Proof.
  intros Hn Hb (r & [Hr _]%calculate_returned & (x & Hx%orequire_returned & [= <-])%obind_returned)%obind_returned.
  cbn [d_int] in Hr. pose proof (dec_div_natural _ _ _ Hn (Z.le_0_1 : 0 <= d_int (Dec false 1 (- mu))) Hr) as Hrn.
  apply (dec_div_exact MONEY_CONTEXT) in Hr as [_ Hr]; [|done..]. rewrite <-Hr, (integral_value ambient r Hrn Hx).
  unfold scaled. rewrite value_int. change (inject_Z (1 * 1)) with 1%Q. ring.
Qed.

Lemma minor_bounded s i e : num_digits i <= 256 -> Z.abs e <= 256 -> bounded (Dec s i e) = true.
Proof. intros Hi He. unfold bounded. apply andb_true_iff. by split; apply Z.leb_le. Qed.

Lemma from_minor_returns c mu u :
  known c -> cu_minor_unit c = Some mu -> num_digits (Z.abs u) <= 256 ->
  from_minor (Exact u) (Exact c) = Returned {| mo_amount := Dec (u <? 0) (Z.abs u) (- mu); mo_currency := c |}.
Proof.
  intros Hk Hmu Hd. pose proof (known_minor_unit _ _ Hk Hmu) as Hr.
  pose proof (minor_bounded (u <? 0) (Z.abs u) (- mu) Hd ltac:(lia)) as Hb.
  unfold from_minor. cbn [require_currency obind]. rewrite Hmu. cbn [oget obind].
  apply (calculated amount_error false). cbn [mo_amount mo_currency]. split; [|done].
  unfold dec_scaleb. rewrite (proj2 (Z.leb_le _ (- mu))), (proj2 (Z.leb_le (- mu) _)) by (cbn; lia). cbn [andb].
  unfold dec_of_int. cbn [d_sign d_int d_exp]. rewrite Z.add_0_l. unfold fit, Etop, Etiny. cbn [d_sign d_int d_exp c_prec c_Emin c_Emax MONEY_CONTEXT c_exact].
  destruct (Z.eqb_spec (Z.abs u) 0) as [E|_].
  - rewrite Z.max_l, Z.min_l by lia. by rewrite E.
  - by rewrite (proj2 (Z.ltb_ge _ _)), (proj2 (Z.ltb_ge _ _)) by lia.
Qed.

Lemma strip_zeros_full n i e : strip_zeros n (i * 10 ^ Z.of_nat n) e (e + Z.of_nat n) = (i, e + Z.of_nat n).
Proof.
  revert e. induction n as [|n IH]; intros e; [cbn; f_equal; lia|]. cbn [strip_zeros].
  rewrite Nat2Z.inj_succ, Z.pow_succ_r by lia. replace (i * (10 * 10 ^ Z.of_nat n)) with (i * 10 ^ Z.of_nat n * 10) by lia.
  rewrite (proj2 (Z.ltb_lt _ _)), Z_mod_mult, Z.div_mul by lia. cbn [andb Z.eqb].
  replace (e + Z.succ (Z.of_nat n)) with (e + 1 + Z.of_nat n) by lia. apply IH.
Qed.

Lemma fit_small s i : num_digits i <= 256 -> 0 <= i -> fit MONEY_CONTEXT (Dec s i 0) = Returned (Dec s i 0).
Proof.
  intros Hd Hi. unfold fit, Etop, Etiny. cbn [d_sign d_int d_exp c_prec c_Emin c_Emax MONEY_CONTEXT c_exact].
  destruct (Z.eqb_spec i 0) as [->|_]; [done|]. by rewrite (proj2 (Z.ltb_ge _ _)), (proj2 (Z.ltb_ge _ _)) by lia.
Qed.

(** An amount in minor units, divided by one of them. *)
Lemma divide_by_quantum s i mu :
  0 <= i -> num_digits i <= 256 -> dec_div MONEY_CONTEXT (Dec s i (- mu)) (Dec false 1 (- mu)) = Returned (Dec s i 0).
Proof.
  intros Hi Hd. unfold dec_div. cbn [is_zero d_int d_exp d_sign Z.eqb]. rewrite Z.sub_diag, xorb_false_r.
  unfold is_zero. cbn [d_int]. destruct (Z.eqb_spec i 0) as [->|Hne]; [by apply fit_small|]. cbv zeta.
  change (num_digits 1) with 1. change (c_prec MONEY_CONTEXT) with 256.
  set (shift := 1 - num_digits i + 256 + 1). rewrite (proj2 (Z.leb_le 0 shift)) by (unfold shift; lia).
  rewrite Z.mod_1_r, Z.div_1_r. cbn [Z.eqb negb].
  replace (0 - (0 - shift)) with shift by lia.
  pose proof (strip_zeros_full (Z.to_nat shift) i (- shift)) as H. rewrite !Z2Nat.id in H by (unfold shift; lia).
  rewrite Z.add_opp_diag_l in H. replace (0 - shift) with (- shift) by lia. rewrite H. by apply fit_small.
Qed.

(** Minor units count an amount: a count that [minor_units] returns is the
    amount, or with a rounding the amount so rounded, and [from_minor] of up to 256
    digits is an amount of exactly that count. *)
Theorem minor_units_count ambient m mu :
  ambient_ok ambient -> valid_money m -> cu_minor_unit (mo_currency m) = Some mu ->
  (forall u, minor_units ambient m None = Returned u -> (value (mo_amount m) == scaled u (- mu))%Q) /\
  (forall mode u, minor_units ambient m (Some (RoundingMode mode)) = Returned u ->
     rounded_to mode (value (mo_amount m)) (scaled u (- mu)) (10 ^ (- mu)) (Z.abs u)) /\
  (forall u, num_digits (Z.abs u) <= 256 ->
     exists m', from_minor (Exact u) (Exact (mo_currency m)) = Returned m' /\ valid_money m' /\
       minor_units ambient m' None = Returned u).
Proof.
  intros Ha [[Hn Hb] Hk] Hmu. destruct (quantum_exact ambient m mu Ha Hk Hmu) as [Hq Hr].
  unfold minor_units. split_and!.
  - intros u. rewrite Hq. cbn [obind]. by apply count_minor_units.
  - intros mode u. rewrite Hq. cbn [obind require_rounding].
    destruct (quantize_rounds ambient m mode mu Ha (conj (conj Hn Hb) Hk) Hmu) as (-> & Hexp & Hround).
    pose proof (rescaled_bounded mode (mo_amount m) mu Hr) as Hbr.
    destruct (num_digits (d_int (rescale mode (mo_amount m) (- mu))) <=? 256); [|done]. cbn [obind].
    pose proof (rescale_natural mode (mo_amount m) (- mu) Hn) as Hrn.
    intros Hu%count_minor_units; [|done..]. cbn [mo_amount] in Hu. rewrite <-Hu. replace (Z.abs u) with (d_int (rescale mode (mo_amount m) (- mu))); [done|].
    unfold value in Hu. rewrite Hexp in Hu. apply inject_scaled in Hu. unfold signed in Hu. destruct (d_sign _); lia.
  - intros u Hu. eexists. split; [by eapply from_minor_returns|].
    pose proof (minor_bounded (u <? 0) (Z.abs u) (- mu) Hu ltac:(lia)) as Hbu.
    split; [split; [split; [cbn [mo_amount d_int]; lia|done]|done]|].
    assert (quantum ambient {| mo_amount := Dec (u <? 0) (Z.abs u) (- mu); mo_currency := mo_currency m |} = quantum ambient m) as -> by done.
    rewrite Hq. cbn [obind mo_amount].
    assert (calculate amount_error false (fun c => dec_div c (Dec (u <? 0) (Z.abs u) (- mu)) (Dec false 1 (- mu))) =
      Returned (Dec (u <? 0) (Z.abs u) 0)) as ->.
    { apply calculate_returned. split; [by apply divide_by_quantum; [lia|]|]. apply minor_bounded; lia. }
    cbn [obind]. change (to_integral_value ambient (Dec (u <? 0) (Z.abs u) 0)) with (Dec (u <? 0) (Z.abs u) 0).
    rewrite (proj2 (dec_eqb_value _ _)) by done. cbn [orequire obind]. f_equal. unfold int_of_dec. cbn [d_sign d_int d_exp].
    destruct (Z.ltb_spec u 0); cbn; lia.
Qed.

(** ** Text *)

(** The characters of the text forms are no blanks. *)
Definition plain (c : Z) : Prop := is_space c = false.

Lemma lstrip_plain s : match s with [] => True | c :: _ => plain c end -> lstrip s = s.
Proof. destruct s as [|c s]; [done|]. unfold plain. cbn. by intros ->. Qed.

Lemma strip_plain s : Forall plain s -> strip s = s.
Proof.
  intros H. unfold strip. rewrite (lstrip_plain s), lstrip_plain, rev_involutive; [done| |].
  - apply List.Forall_rev in H. by inversion H.
  - by inversion H.
Qed.

Lemma digits_unspaced s : digits s -> Forall plain s.
Proof.
  unfold digits. rewrite forallb_forall, List.Forall_forall. intros H c Hc%H. unfold is_digit in Hc. unfold plain, is_space. lia.
Qed.

Lemma signed_text_plain n : Forall plain (signed_text n).
Proof.
  unfold signed_text. case_match; bool_to_prop; (constructor; [done|]); apply digits_unspaced, decimal_digits; lia.
Qed.

Lemma parts_plain ds dp : digits ds -> ds <> [] -> Forall plain (intpart ds dp ++ point (fracpart ds dp)).
Proof.
  intros Hd Hne. apply Forall_app. split; [by apply digits_unspaced, intpart_digits|].
  pose proof (digits_unspaced _ (fracpart_digits ds Hd dp)) as Hf. destruct (fracpart ds dp); [done|]. by constructor.
Qed.

Lemma parts_length ds dp : ds <> [] ->
  Z.of_nat (length (intpart ds dp ++ point (fracpart ds dp))) <= Z.max 1 dp + 1 + Z.max 0 (Z.of_nat (length ds) - dp).
Proof.
  intros Hne. rewrite length_app, Nat2Z.inj_add.
  assert (Z.of_nat (length (intpart ds dp)) = Z.max 1 dp) as ->.
  { unfold intpart. destruct (Z.leb_spec dp 0); [cbn; lia|]. destruct (Z.leb_spec (Z.of_nat (length ds)) dp).
    - rewrite length_app, Nat2Z.inj_add, zeros_length; lia.
    - rewrite length_take. lia. }
  assert (Z.of_nat (length (point (fracpart ds dp))) <= 1 + Z.of_nat (length (fracpart ds dp))) as Hp.
  { destruct (fracpart ds dp); cbn; lia. }
  rewrite fracpart_length in Hp. lia.
Qed.

Lemma decimal_text_shape i : 0 <= i -> digits (decimal i) /\ decimal i <> [].
Proof. intros Hi. split; [by apply decimal_digits|]. destruct (decimal_cons i Hi) as (c & s & -> & _). done. Qed.

Lemma dec_str_plain capitals d : 0 <= d_int d -> Forall plain (dec_str capitals d).
Proof.
  intros Hd. destruct (decimal_text_shape _ Hd) as [Hds Hne]. unfold dec_str.
  set (dp := if _ && _ then _ else 1). pose proof (parts_plain _ dp Hds Hne) as Hp. apply Forall_app in Hp as [Hi Hf].
  repeat (apply Forall_app; split); [|done|done|].
  - unfold sign_text. case_match; repeat constructor.
  - case_match; [done|]. constructor; [by case_match|apply signed_text_plain].
Qed.

Lemma signed_text_length n : Z.abs n < 1000 -> (length (signed_text n) <= 4)%nat.
Proof.
  intros Hn. unfold signed_text. assert (forall k, 0 <= k < 1000 -> (length (decimal k) <= 3)%nat) as Hd.
  { intros k Hk. destruct (decide (k = 0)) as [->|]; [cbn; lia|].
    pose proof (proj2 (num_digits_le k 3 ltac:(lia) ltac:(lia)) ltac:(lia)). unfold num_digits in *. lia. }
  destruct (Z.ltb_spec n 0); cbn [length]; [pose proof (Hd (- n))|pose proof (Hd n)]; lia.
Qed.

Lemma dec_str_length capitals d : valid_amount d -> Z.of_nat (length (dec_str capitals d)) <= MAX_TEXT_LENGTH.
Proof.
  intros [Hd Hb]. destruct (decimal_text_shape _ Hd) as [_ Hne]. unfold bounded, MAX_COEFFICIENT_DIGITS, MAX_ABS_EXPONENT in Hb. bool_to_prop.
  unfold num_digits in *. unfold dec_str, MAX_TEXT_LENGTH. set (left := d_exp d + _). set (dp := if _ && _ then left else 1).
  rewrite (app_assoc (intpart _ _)), !length_app, !Nat2Z.inj_add. pose proof (parts_length (decimal (d_int d)) dp Hne) as Hp.
  rewrite length_app, Nat2Z.inj_add in Hp.
  assert (Z.of_nat (length (sign_text d)) <= 1) by (unfold sign_text; case_match; cbn; lia).
  assert (-5 <= dp <= 256) as Hdp.
  { unfold dp. destruct (_ && _) eqn:E; [|lia]. bool_to_prop. unfold left in *. lia. }
  assert (Z.of_nat (length (if left =? dp then [] else (if capitals then 69 else 101) :: signed_text (left - dp))) <= 5); [|lia].
  destruct (left =? dp) eqn:E; [cbn; lia|]. cbn [length]. pose proof (signed_text_length (left - dp)).
  unfold dp, left in *. destruct (_ && _); lia.
Qed.

(** ** The table *)

Definition currency_of (r : row) : Currency :=
  {| cu_code := r.1.1.1; cu_numeric_code := r.1.1.2; cu_name := r.1.2; cu_minor_unit := r.2 |}.

Definition lower (s : pystr) : pystr := map (fun c => if (65 <=? c) && (c <=? 90) then c + 32 else c) s.

Definition finds (r : row) : bool :=
  let found a := match get_currency a with Returned c => bool_decide (c = currency_of r) | Raised _ => false end in
  found (CodeText r.1.1.1) && found (CodeText (lower r.1.1.1)) && found (CodeText r.1.1.2) &&
  found (CodeInt (undecimal r.1.1.2)) && forallb is_letter r.1.1.1 && (length r.1.1.1 =? 3)%nat.

Lemma table_finds : forallb (fun m : pystr * row => finds m.2) ROWS_BY_CODE = true.
Proof. vm_compute. reflexivity. Qed.

Lemma known_finds c : known c -> finds (row_of c) = true.
Proof.
  intros Hk%dict_get_in%list_elem_of_In. pose proof table_finds as Ht. rewrite forallb_forall in Ht. exact (Ht _ Hk).
Qed.

Lemma currencies_known : Forall (fun m => known m.2) CURRENCIES_BY_CODE /\ Forall (fun m => known m.2) CURRENCIES_BY_NUMERIC.
Proof.
  split; apply List.Forall_forall; intros [k c] Hin; cbn; unfold known.
  - assert (forallb (fun m => bool_decide (dict_get (cu_code m.2) ROWS_BY_CODE = Some (row_of m.2))) CURRENCIES_BY_CODE = true) as H
      by (vm_compute; reflexivity).
    rewrite forallb_forall in H. specialize (H _ Hin). by bool_to_prop.
  - assert (forallb (fun m => bool_decide (dict_get (cu_code m.2) ROWS_BY_CODE = Some (row_of m.2))) CURRENCIES_BY_NUMERIC = true) as H
      by (vm_compute; reflexivity).
    rewrite forallb_forall in H. specialize (H _ Hin). by bool_to_prop.
Qed.

(** The table of currencies is consistent: the look-up by a code in either
    case, by the numeric code as a text or as a number finds the one row with it,
    and nothing but rows of the table is ever found or constructed. *)
Theorem currency_lookup :
  (forall c, known c ->
     get_currency (CodeText (cu_code c)) = Returned c /\ get_currency (CodeText (lower (cu_code c))) = Returned c /\
     get_currency (CodeText (cu_numeric_code c)) = Returned c /\
     get_currency (CodeInt (undecimal (cu_numeric_code c))) = Returned c) /\
  (forall a c, get_currency a = Returned c -> known c) /\
  (forall code numeric name minor c, make_currency code numeric name minor = Returned c -> known c).
Proof.
  split_and!.
  - intros c Hf%known_finds. unfold finds in Hf. cbn [row_of fst snd] in Hf.
    assert (currency_of (row_of c) = c) as Hc by (by destruct c). rewrite Hc in Hf.
    destruct (get_currency (CodeText (cu_code c))), (get_currency (CodeText (lower (cu_code c)))),
      (get_currency (CodeText (cu_numeric_code c))), (get_currency (CodeInt (undecimal (cu_numeric_code c))));
      rewrite ?andb_false_r in Hf; try done; bool_to_prop; by subst.
  - intros a c. destruct currencies_known as [Hc Hn]. rewrite List.Forall_forall in Hc, Hn. unfold get_currency.
    destruct a as [s|n|]; [| |done].
    + destruct (_ || _); [done|]. destruct (_ && _); [|done].
      destruct (forallb is_digit s); intros H%oget_returned%dict_get_in%list_elem_of_In; [by apply Hn in H|by apply Hc in H].
    + destruct (negb _); [done|]. intros H%oget_returned%dict_get_in%list_elem_of_In. by apply Hn in H.
  - intros [code|] [numeric|] [name|] [minor|] c; cbn [make_currency]; try done.
    intros (u & Ho%orequire_returned & [= <-])%obind_returned. bool_to_prop. done.
Qed.

(** ** Round trips *)

Lemma parse_text error s d :
  dec_of_text s = Some d -> Forall plain s -> Z.of_nat (length s) <= MAX_TEXT_LENGTH -> bounded d = true ->
  parse_decimal error (NumText s) = Returned d.
Proof.
  intros Hs Hp Hl Hb. cbn [parse_decimal]. rewrite (bool_decide_false (s = [])) by (by intros ->).
  rewrite (strip_plain s Hp), bool_decide_true by done. rewrite (proj2 (Z.leb_le _ _) Hl). cbn [negb andb orequire obind].
  rewrite Hs. cbn [oget obind]. by apply validate_returned.
Qed.

Lemma money_of_text s d c :
  dec_of_text s = Some d -> Forall plain s -> Z.of_nat (length s) <= MAX_TEXT_LENGTH -> bounded d = true ->
  money_of (NumText s) (Exact c) = Returned {| mo_amount := d; mo_currency := c |}.
Proof.
  intros Hs Hp Hl Hb. unfold money_of. rewrite (parse_text _ s d) by done. cbn [obind require_currency]. by apply money_returned.
Qed.

Lemma value_written_out d : (value (written_out d) == value d)%Q.
Proof.
  unfold written_out. destruct (Z.ltb_spec 0 (d_exp d)); [|done]. destruct d as [s i e]. cbn [d_sign d_int d_exp] in *.
  rewrite value_shift by lia. by rewrite Z.add_0_l.
Qed.

(** The number that [format] shows. *)
Definition shown (d : dec) : dec := if is_zero d && (0 <? d_exp d) then Dec (d_sign d) 0 0 else d.

Lemma dec_format_plain d : 0 <= d_int d -> Forall plain (dec_format d).
Proof.
  intros Hd. unfold dec_format. fold (shown d). assert (0 <= d_int (shown d)) as Hs by (unfold shown; by case_match).
  destruct (decimal_text_shape _ Hs) as [Hds Hne].
  apply Forall_app. split; [unfold sign_text; case_match; repeat constructor|]. by apply parts_plain.
Qed.

Lemma dec_format_length d : 0 <= d_int d -> bounded d = true -> bounded (written_out d) = true ->
  Z.of_nat (length (dec_format d)) <= MAX_TEXT_LENGTH.
Proof.
  intros Hd Hb Hw. unfold dec_format. fold (shown d). assert (0 <= d_int (shown d)) as Hs by (unfold shown; by case_match).
  destruct (decimal_text_shape _ Hs) as [_ Hne].
  set (dp := d_exp (shown d) + _). pose proof (parts_length (decimal (d_int (shown d))) dp Hne) as Hp.
  rewrite length_app, Nat2Z.inj_add. assert (Z.of_nat (length (sign_text (shown d))) <= 1) by (unfold sign_text; case_match; cbn; lia).
  unfold MAX_TEXT_LENGTH. assert (-256 <= d_exp (shown d) /\ num_digits (d_int (shown d)) <= 256 /\
    d_exp (shown d) + num_digits (d_int (shown d)) <= 256) as He; [|unfold num_digits, dp in *; lia].
  assert (num_digits (d_int (written_out d)) <= 256) as Hw' by (apply andb_true_iff in Hw as [Hw _]; by apply Z.leb_le in Hw).
  clear Hw. unfold bounded, MAX_COEFFICIENT_DIGITS, MAX_ABS_EXPONENT in Hb. bool_to_prop. unfold shown, is_zero.
  destruct (Z.eqb_spec (d_int d) 0) as [E|Hnz]; cbn [andb].
  - destruct (Z.ltb_spec 0 (d_exp d)); cbn [d_int d_exp]; rewrite ?E, num_digits_small; lia.
  - unfold written_out in Hw'. destruct (Z.ltb_spec 0 (d_exp d)); [|lia].
    cbn [d_int d_exp] in Hw'. rewrite num_digits_shift in Hw' by lia. lia.
Qed.

(** The dictionary as a caller hands it back. *)
Definition dict_object (d : list (pystr * pystr)) : pyobj := ODict None ((fun m => (OStr m.1, OStr m.2)) <$> d).

Lemma known_text c : known c ->
  get_currency (CodeText (cu_code c)) = Returned c /\
  exists a b d, cu_code c = [a; b; d] /\ is_letter a = true /\ is_letter b = true /\ is_letter d = true.
Proof.
  intros Hf%known_finds. unfold finds in Hf. cbn [row_of fst snd] in Hf. apply andb_true_iff in Hf as [Hf Hlen].
  apply andb_true_iff in Hf as [Hf Hl]. split.
  - assert (currency_of (row_of c) = c) as Hc by (by destruct c). rewrite Hc in Hf.
    destruct (get_currency (CodeText (cu_code c))); bool_to_prop; [by subst|done].
  - destruct (cu_code c) as [|a [|b [|d [|]]]]; try done. cbn in Hl. bool_to_prop. by exists a, b, d.
Qed.

Lemma from_dict_object ambient d c :
  from_dict (dict_object (to_dict ambient {| mo_amount := d; mo_currency := c |})) =
  (let? currency := get_currency (CodeText (cu_code c)) in money_of (NumText (dec_str (c_capitals ambient) d)) (Exact currency)).
Proof. reflexivity. Qed.

(** [C32] The text forms of money are read back: the dictionary gives the same money
    in any thread's context, and the line [format] writes the same value in the same
    currency whenever it has no more than 256 digits. *)
Theorem money_text_roundtrip ambient m :
  valid_money m ->
  from_dict (dict_object (to_dict ambient m)) = Returned m /\
  forall mode, exists text,
    format_money ambient m (Exact false) (RoundingMode mode) = Returned text /\
    (bounded (written_out (mo_amount m)) = true -> exists m',
       parse_money (Exact text) = Returned m' /\ mo_currency m' = mo_currency m /\
       mo_amount m' = written_out (mo_amount m) /\ (value (mo_amount m') == value (mo_amount m))%Q).
Proof.
  intros [[Hn Hb] Hk]. destruct m as [d c]. cbn [mo_amount mo_currency] in *.
  destruct (known_text c Hk) as [Hc (a1 & a2 & a3 & Hcode & H1 & H2 & H3)]. split.
  - rewrite from_dict_object, Hc. cbn [obind]. apply money_of_text; [by apply dec_str_roundtrip|by apply dec_str_plain|by apply dec_str_length|done].
  - intros mode. eexists. split; [done|]. cbn [mo_amount mo_currency]. intros Hw.
    pose proof (dec_format_length d Hn Hb Hw) as Hl. pose proof (dec_format_roundtrip d Hn) as Hr.
    exists {| mo_amount := written_out d; mo_currency := c |}. split; [|split; [done|split; [done|apply value_written_out]]].
    rewrite Hcode in Hc |- *. cbn [app parse_money]. rewrite (proj2 (Z.leb_le _ _)) by (cbn [length]; lia).
    cbn [orequire obind]. rewrite H1, H2, H3, Hr. cbn [Z.eqb Pos.eqb andb is_Some]. rewrite bool_decide_true by done.
    rewrite Hc. cbn [obind]. apply money_of_text; [done|by apply dec_format_plain|done|done].
Qed.

(** ** Sums *)

Lemma add_all_exact values total t :
  valid_money total -> Forall (fun m => valid_money m /\ mo_currency m = mo_currency total) values ->
  add_all total (Exact <$> values) None = Returned t ->
  valid_money t /\ mo_currency t = mo_currency total /\
  (value (mo_amount t) == value (mo_amount total) + foldr (fun m s => value (mo_amount m) + s) 0 values)%Q.
Proof.
  revert total. induction values as [|m values IH]; intros total Ht Hv; cbn [fmap list_fmap add_all foldr].
  - intros [= <-]. split_and!; [done|done|]. ring.
  - apply Forall_cons in Hv as [[Hm Hc] Hv]. intros (t1 & H1 & H2)%obind_returned.
    pose proof (calculated_ends (fun c => dec_add c (mo_amount total) (mo_amount m)) (mo_currency total)
      (value (mo_amount total) + value (mo_amount m))%Q (proj2 Ht)) as He.
    unfold money_add in H1. rewrite (proj2 (same_currency_returned total (Exact m) m)) in H1 by done. cbn [obind] in H1.
    rewrite H1 in He. destruct He as (Hv1 & Hc1 & He).
    { intros r Hr. split; [by eapply dec_add_natural|by apply (dec_add_exact MONEY_CONTEXT)]. }
    { intros e. apply fit_raised. }
    apply IH in H2 as (Hv2 & Hc2 & He2); [|done|rewrite Hc1; done].
    split_and!; [done|congruence|]. rewrite He2, He. ring.
Qed.

(** A sum of money is the exact sum, whatever the order, and of no values zero. *)
Lemma sum_money_exact c values t :
  known c -> Forall (fun m => valid_money m /\ mo_currency m = c) values ->
  sum_money (Exact c) (Returned (Exact <$> values, None)) = Returned t ->
  valid_money t /\ mo_currency t = c /\ (value (mo_amount t) == foldr (fun m s => value (mo_amount m) + s) 0 values)%Q.
Proof.
  intros Hk Hv. unfold sum_money. cbn [require_currency obind].
  change (money_of (NumInt 0) (Exact c)) with (Returned {| mo_amount := Dec false 0 0; mo_currency := c |}). cbn [obind].
  intros H. apply add_all_exact in H as (Ht & Hc & He); [|by split|done]. split_and!; [done|done|].
  rewrite He. cbn [mo_amount]. rewrite (value_zero (Dec false 0 0)) by done. ring.
Qed.

(** ** Examples *)

(** The context a thread starts with. *)
Definition DEFAULT_CONTEXT : context :=
  {| c_prec := 28; c_rounding := ROUND_HALF_EVEN; c_Emin := -999999; c_Emax := 999999; c_capitals := true; c_exact := false |}.

Definition demo_currency (code : string) : Currency :=
  match get_currency (CodeText (py code)) with Returned c => c | Raised _ => currency_of ([], [], [], None) end.

Definition demo_money (amount : string) (code : string) : Money :=
  {| mo_amount := default (Dec false 0 0) (dec_of_text (py amount)); mo_currency := demo_currency code |}.

Definition demo_rate : ExchangeRate :=
  {| er_base := demo_currency "USD"; er_quote := demo_currency "EUR"; er_rate := Dec false 925 (-3) |}.

Lemma demo_price_valid : valid_money (demo_money "12.345" "USD").
Proof. split; [split; [discriminate|]|]; vm_compute; reflexivity. Qed.

Lemma demo_known : known (demo_currency "USD") /\ known (demo_currency "EUR").
Proof. split; vm_compute; reflexivity. Qed.

Lemma demo_rate_applies : mo_currency (demo_money "12.345" "USD") = er_base demo_rate.
Proof. reflexivity. Qed.

Lemma demo_rate_valid : valid_amount (er_rate demo_rate).
Proof. split; [discriminate|]. vm_compute. reflexivity. Qed.

Lemma demo_amount : value (mo_amount (demo_money "12.345" "USD")) = value (Dec false 12345 (-3)).
Proof. vm_compute. reflexivity. Qed.

Lemma demo_minor_unit : cu_minor_unit (mo_currency (demo_money "12.345" "USD")) = Some 2.
Proof. vm_compute. reflexivity. Qed.

Lemma demo_currencies_differ : mo_currency (demo_money "1" "USD") <> mo_currency (demo_money "1" "EUR").
Proof. vm_compute. discriminate. Qed.

Lemma money_arithmetic_exact_witness :
  ends_in (demo_currency "EUR") (value (Dec false 12345 (-3)) * value (Dec false 925 (-3)))
    (convert (Exact (demo_money "12.345" "USD")) (Exact demo_rate)) /\
  convert (Exact (demo_money "12.345" "USD")) (Exact demo_rate) = Returned (demo_money "11.419125" "EUR").
Proof.
  split; [|vm_compute; reflexivity].
  rewrite <-demo_amount.
  exact (money_arithmetic_exact (demo_money "12.345" "USD") _ _ _ demo_price_valid
    (Converted (demo_money "12.345" "USD") demo_rate demo_rate_valid (proj2 demo_known) demo_rate_applies)).
Defined.

Lemma currencies_never_mix_witness :
  money_add (demo_money "1" "USD") (Exact (demo_money "1" "EUR")) = Raised (MoneyError Money.CurrencyMismatch).
Proof.
  destruct (currencies_never_mix (demo_money "1" "USD") (demo_money "1" "EUR") demo_rate) as [H _].
  exact (proj1 (H demo_currencies_differ)).
Defined.

Lemma default_ok : ambient_ok DEFAULT_CONTEXT.
Proof. unfold ambient_ok. split_and!; vm_compute; discriminate. Qed.

Lemma quantize_rounds_witness :
  quantize DEFAULT_CONTEXT (demo_money "12.345" "USD") (RoundingMode ROUND_HALF_UP) = Returned (demo_money "12.35" "USD").
Proof.
  destruct (quantize_rounds DEFAULT_CONTEXT (demo_money "12.345" "USD") ROUND_HALF_UP 2 default_ok demo_price_valid demo_minor_unit)
    as [H _]. rewrite H. vm_compute. reflexivity.
Defined.

Lemma minor_units_count_witness :
  rounded_to ROUND_HALF_EVEN (value (Dec false 12345 (-3))) (scaled 1234 (-2)) (10 ^ (-2)) 1234.
Proof.
  destruct (minor_units_count DEFAULT_CONTEXT (demo_money "12.345" "USD") 2 default_ok demo_price_valid demo_minor_unit)
    as (_ & H & _). rewrite <-demo_amount. change 1234 with (Z.abs 1234) at 2. apply (H ROUND_HALF_EVEN 1234).
  vm_compute. reflexivity.
Defined.

Lemma money_text_roundtrip_witness :
  from_dict (dict_object (to_dict DEFAULT_CONTEXT (demo_money "12.345" "USD"))) = Returned (demo_money "12.345" "USD").
Proof. exact (proj1 (money_text_roundtrip DEFAULT_CONTEXT _ demo_price_valid)). Defined.

(** A thread whose context has no exponents below zero quantises to whole units:
    the quantum is computed in the caller's context. *)
Definition INTEGER_CONTEXT : context :=
  {| c_prec := 1; c_rounding := ROUND_HALF_EVEN; c_Emin := 0; c_Emax := 9; c_capitals := true; c_exact := false |}.

Lemma quantum_follows_the_thread :
  quantize INTEGER_CONTEXT (demo_money "12.345" "USD") (RoundingMode ROUND_HALF_EVEN) = Returned (demo_money "12" "USD").
Proof. vm_compute. reflexivity. Qed.

(** The constructor takes amounts that no arithmetic accepts, not even negation. *)
Lemma large_amount_stuck :
  make_money (Exact (Some (Dec false 12 256))) (Exact (demo_currency "USD")) =
    Returned {| mo_amount := Dec false 12 256; mo_currency := demo_currency "USD" |} /\
  money_neg {| mo_amount := Dec false 12 256; mo_currency := demo_currency "USD" |} = Raised amount_error.
Proof. split; vm_compute; reflexivity. Qed.
