(* ===== verification/Measure.v ===== *)
(** * Measures ([bluetape/measure])

    Units with their dimension and ratio, indexes of units by symbol, and finite
    amounts in a unit: the constructors with their checks, the conversions and
    the arithmetic on binary64 numbers, and the text and dictionary forms with
    their readers.  The text of a [float] is the parameter of JsonText.v, and
    [format(amount, spec)] another. *)

From Stdlib Require Import SpecFloat.
From S2P Require Import Prelude Python Leader LeaseRecord PyObject JsonText JsonTextLaws Decimal.
Open Scope Z_scope.
Open Scope py_scope.

(** ** Units ([_units.py]) *)

Definition MAX_UNITS : Z := 256.

Inductive Dimension : Type := LENGTH | TIME | MASS.

#[export] Instance Dimension_eq_dec : EqDecision Dimension.
Proof. solve_decision. Defined.

Definition unit_error : exn := MeasureError Measure.InvalidUnit.
Definition measure_error : exn := MeasureError Measure.InvalidMeasure.
Definition incompatible : exn := MeasureError Measure.IncompatibleUnit.

Definition require_text (value : arg pystr) : outcome pystr :=
  match value with
  | AnotherClass => Raised (TypeError "name must be a string")
  | Exact s => if bool_decide (s = []) || negb (bool_decide (s = strip s)) then Raised unit_error else Returned s
  end.

(** [float(value)], with [InvalidUnitError] or [InvalidMeasureError] for an
    integer that does not fit. *)
Definition normalized (value : pyval) (error : exn) : outcome float :=
  match value with
  | PyInt _ | PyFloat _ =>
      match to_float value with Raised OverflowError => Raised error | r => r end
  | _ => Raised (TypeError "amount must be an integer or float")
  end.

Definition require_positive_number (value : pyval) : outcome float :=
  let? f := normalized value unit_error in
  if negb (is_finite f) || fle f f0 then Raised unit_error else Returned f.

Record Unit : Type := {
  u_name : pystr;
  u_symbol : pystr;
  u_dimension : Dimension;
  u_ratio : float;
}.

(** [Unit(name, symbol, dimension, ratio)]. *)
Definition make_unit (name symbol : arg pystr) (dimension : arg Dimension) (ratio : pyval) : outcome Unit :=
  let? n := require_text name in
  let? s := require_text symbol in
  match dimension with
  | AnotherClass => Raised (TypeError "dimension must be a Dimension")
  | Exact d => let? r := require_positive_number ratio in
               Returned {| u_name := n; u_symbol := s; u_dimension := d; u_ratio := r |}
  end.

(** The literal [n / d] of the source, the nearest [float]. *)
Definition builtin (name symbol : string) (d : Dimension) (n m : Z) : Unit :=
  {| u_name := py name; u_symbol := py symbol; u_dimension := d; u_ratio := true_divide n m |}.

Definition METER : Unit := builtin "meter" "m" LENGTH 1 1.
Definition KILOMETER : Unit := builtin "kilometer" "km" LENGTH 1000 1.
Definition CENTIMETER : Unit := builtin "centimeter" "cm" LENGTH 1 100.
Definition MILLIMETER : Unit := builtin "millimeter" "mm" LENGTH 1 1000.
Definition SECOND : Unit := builtin "second" "s" TIME 1 1.
Definition MILLISECOND : Unit := builtin "millisecond" "ms" TIME 1 1000.
Definition MINUTE : Unit := builtin "minute" "min" TIME 60 1.
Definition HOUR : Unit := builtin "hour" "h" TIME 3600 1.
Definition GRAM : Unit := builtin "gram" "g" MASS 1 1.
Definition KILOGRAM : Unit := builtin "kilogram" "kg" MASS 1000 1.

Definition BUILTIN_UNITS : list Unit :=
  [METER; KILOMETER; CENTIMETER; MILLIMETER; SECOND; MILLISECOND; MINUTE; HOUR; GRAM; KILOGRAM].

(** What iterating over the argument gives: the values, and the exception it ends
    with if it does; [None] cannot be iterated. *)
Definition units_arg : Type := option (list (arg Unit) * option exn).

Definition all_units (units : list Unit) : units_arg := Some (map Exact units, None).

Fixpoint index_loop (position : Z) (units : list (arg Unit)) (last : option exn) (indexed : list (pystr * Unit))
    : outcome (list (pystr * Unit)) :=
  match units with
  | [] => match last with None => Returned indexed | Some e => Raised e end
  | unit :: units =>
      if MAX_UNITS <=? position then Raised measure_error
      else
        match unit with
        | AnotherClass => Raised (TypeError "units must contain only Unit values")
        | Exact u =>
            let? _ := orequire (negb (dict_has (u_symbol u) indexed)) measure_error in
            index_loop (position + 1) units last (dict_set (u_symbol u) u indexed)
        end
  end.

Definition index_units (units : units_arg) : outcome (list (pystr * Unit)) :=
  match units with
  | None => Raised (TypeError "units must be an iterable of Unit values")
  | Some (units, last) => index_loop 0 units last []
  end.

(** ** Measures ([_measure.py]) *)

Definition require_number (value : pyval) : outcome float :=
  let? f := normalized value measure_error in
  if is_finite f then Returned f else Raised measure_error.

Record Measure : Type := { me_amount : float; me_unit : Unit }.

(** [Measure(amount, unit)]. *)
Definition make_measure (amount : pyval) (unit : arg Unit) : outcome Measure :=
  let? a := require_number amount in
  match unit with
  | AnotherClass => Raised (TypeError "unit must be a Unit")
  | Exact u => Returned {| me_amount := a; me_unit := u |}
  end.

(** [Measure.to]. *)
Definition measure_to (self : Measure) (unit : arg Unit) : outcome Measure :=
  match unit with
  | AnotherClass => Raised (TypeError "unit must be a Unit")
  | Exact u =>
      let? _ := orequire (bool_decide (u_dimension (me_unit self) = u_dimension u)) incompatible in
      make_measure (PyFloat (fdiv (fmul (me_amount self) (u_ratio (me_unit self))) (u_ratio u))) (Exact u)
  end.

(** [NotImplemented] from both operands makes the interpreter raise. *)
Definition combine (op : float -> float -> float) (self : Measure) (other : arg Measure) : outcome Measure :=
  match other with
  | AnotherClass => Raised (TypeError "unsupported operand type(s)")
  | Exact other =>
      let? o := measure_to other (Exact (me_unit self)) in
      make_measure (PyFloat (op (me_amount self) (me_amount o))) (Exact (me_unit self))
  end.

Definition measure_add : Measure -> arg Measure -> outcome Measure := combine fadd.
Definition measure_sub : Measure -> arg Measure -> outcome Measure := combine fsub.

Definition measure_mul (self : Measure) (scalar : pyval) : outcome Measure :=
  let? s := require_number scalar in
  make_measure (PyFloat (fmul (me_amount self) s)) (Exact (me_unit self)).

Definition measure_div (self : Measure) (scalar : pyval) : outcome Measure :=
  let? s := require_number scalar in
  if feq s f0 then Raised ZeroDivisionError
  else make_measure (PyFloat (fdiv (me_amount self) s)) (Exact (me_unit self)).

(** [math.isclose] of finite numbers with tolerances that are not negative. *)
Definition is_close (a b rel_tol abs_tol : float) : bool :=
  if feq a b then true
  else
    let diff := SFabs (fsub b a) in
    fle diff (SFabs (fmul rel_tol b)) || fle diff (SFabs (fmul rel_tol a)) || fle diff abs_tol.

(** [Measure.equivalent_to]. *)
Definition equivalent_to (self : Measure) (other : arg Measure) (rel_tol abs_tol : pyval) : outcome bool :=
  match other with
  | AnotherClass => Raised (TypeError "other must be a Measure")
  | Exact other =>
      let? relative := require_number rel_tol in
      let? absolute := require_number abs_tol in
      let? _ := orequire (negb (flt relative f0 || flt absolute f0)) measure_error in
      if bool_decide (u_dimension (me_unit self) = u_dimension (me_unit other)) then
        let? o := measure_to other (Exact (me_unit self)) in
        Returned (is_close (me_amount self) (me_amount o) relative absolute)
      else Returned false
  end.

(** The text after the digits of [_NUMBER_PATTERN]: nothing, or an exponent. *)
Definition power_ok (text : pystr) : bool :=
  match text with
  | [] => true
  | c :: rest =>
      ((c =? 69) || (c =? 101)) &&
      match span_digits (scan_sign rest).2 with (_ :: _, []) => true | _ => false end
  end.

(** [_NUMBER_PATTERN.fullmatch(text) is not None]. *)
Definition is_number (text : pystr) : bool :=
  let '(integer, rest) := span_digits (scan_sign text).2 in
  let '(fraction, rest) :=
    match rest with
    | c :: rest' => if c =? 46 then span_digits rest' else ([], rest)
    | [] => ([], [])
    end in
  negb (bool_decide (integer ++ fraction = [])) && power_ok rest.

Section Text.
Context `{FloatText}.

(** [parse_number]; whatever [require_number] refuses is refused as text. *)
Definition parse_number (value : pystr) : outcome float :=
  if (256 <? Z.of_nat (length value)) || negb (is_number value) then Raised measure_error
  else
    match require_number (PyFloat (float_of_text value)) with
    | Raised e => if is_ValueError e then Raised measure_error else Raised e
    | r => r
    end.

(** [Measure.format]; [spec] is [None] for a value that is no string. *)
Definition measure_format (float_format : float -> pystr -> outcome pystr) (self : Measure)
    (unit : option (arg Unit)) (spec : option pystr) : outcome pystr :=
  match unit, spec with
  | Some AnotherClass, _ => Raised (TypeError "unit must be a Unit or None")
  | _, None => Raised (TypeError "spec must be a string")
  | _, Some spec =>
      let? converted := match unit with None => Returned self | Some u => measure_to self u end in
      let? text := float_format (me_amount converted) spec in
      Returned (text ++ 32 :: u_symbol (me_unit converted))
  end.

(** [Measure.to_dict]. *)
Definition measure_to_dict (self : Measure) : pyobj :=
  ODict None [(OStr (py "amount"), OStr (float_repr (me_amount self))); (OStr (py "unit"), OStr (u_symbol (me_unit self)))].

(** [value[name]]. *)
Fixpoint measure_member (name : pystr) (items : list (pyobj * pyobj)) : option pyobj :=
  match items with
  | [] => None
  | (OStr key, value) :: items => if bool_decide (key = name) then Some value else measure_member name items
  | _ :: items => measure_member name items
  end.

(** [set(value) == {"amount", "unit"}]. *)
Definition is_measure_key (key : pyobj) : bool :=
  match key with OStr key => bool_decide (key = py "amount") || bool_decide (key = py "unit") | _ => false end.

(** [Measure.from_dict]. *)
Definition measure_from_dict (value : pyobj) (units : units_arg) : outcome Measure :=
  match mapping_items value with
  | None => Raised (TypeError "value must be a mapping")
  | Some (Raised e) => Raised e
  | Some (Returned items) =>
      let? _ := orequire (forallb (fun m => is_measure_key m.1) items) measure_error in
      let? amount := oget (measure_member (py "amount") items) measure_error in
      let? symbol := oget (measure_member (py "unit") items) measure_error in
      match amount, symbol with
      | OStr amount, OStr symbol =>
          let? indexed := index_units units in
          let? unit := oget (dict_get symbol indexed) measure_error in
          let? number := parse_number amount in
          make_measure (PyFloat number) (Exact unit)
      | OStr _, _ => Raised (TypeError "unit must be a string")
      | _, _ => Raised (TypeError "amount must be a string")
      end
  end.

(** ** Reading a measure ([_parse.py]) *)

Definition is_blank (c : Z) : bool := (c =? 32) || (c =? 9).

(** The characters before the first blank, and the rest. *)
Fixpoint before_blank (text : pystr) : pystr * pystr :=
  match text with
  | c :: rest => if is_blank c then ([], text) else let '(word, rest') := before_blank rest in (c :: word, rest')
  | [] => ([], [])
  end.

Fixpoint span_blanks (text : pystr) : pystr * pystr :=
  match text with
  | c :: rest => if is_blank c then let '(blanks, rest') := span_blanks rest in (c :: blanks, rest') else ([], text)
  | [] => ([], [])
  end.

(** [_MEASURE_PATTERN.fullmatch(text)]: a number, blanks, and a symbol on one
    line; the symbol gets the last blank when there is nothing else for it. *)
Definition match_measure (text : pystr) : option (pystr * pystr) :=
  let '(amount, rest) := before_blank text in
  let '(blanks, symbol) := span_blanks rest in
  let symbol := match symbol with [] => if (2 <=? length blanks)%nat then drop (length blanks - 1) blanks else [] | _ => symbol end in
  if is_number amount && negb (bool_decide (blanks = [])) && negb (bool_decide (symbol = []))
     && forallb (fun c => negb (c =? 10)) symbol
  then Some (amount, symbol) else None.

(** [parse_measure]. *)
Definition parse_measure (text : arg pystr) (units : units_arg) : outcome Measure :=
  match text with
  | AnotherClass => Raised (TypeError "text must be a string")
  | Exact text =>
      let? _ := orequire (Z.of_nat (length text) <=? 256) measure_error in
      let? (amount, symbol) := oget (match_measure text) measure_error in
      let? indexed := index_units units in
      let? unit := oget (dict_get symbol indexed) measure_error in
      let? number := parse_number amount in
      make_measure (PyFloat number) (Exact unit)
  end.
End Text.

(** ** Arithmetic *)

(** What the constructors leave of a unit. *)
Definition valid_unit (u : Unit) : Prop :=
  u_symbol u <> [] /\ strip (u_symbol u) = u_symbol u /\ is_finite (u_ratio u) = true /\ fle (u_ratio u) f0 = false.

(** An operation on measures that fit, its unit, and the expression it rounds. *)
Inductive operation (m : Measure) : outcome Measure -> Unit -> float -> Prop :=
| op_to u : u_dimension (me_unit m) = u_dimension u ->
    operation m (measure_to m (Exact u)) u (fdiv (fmul (me_amount m) (u_ratio (me_unit m))) (u_ratio u))
| op_add o : u_dimension (me_unit m) = u_dimension (me_unit o) ->
    operation m (measure_add m (Exact o)) (me_unit m)
      (fadd (me_amount m) (fdiv (fmul (me_amount o) (u_ratio (me_unit o))) (u_ratio (me_unit m))))
| op_sub o : u_dimension (me_unit m) = u_dimension (me_unit o) ->
    operation m (measure_sub m (Exact o)) (me_unit m)
      (fsub (me_amount m) (fdiv (fmul (me_amount o) (u_ratio (me_unit o))) (u_ratio (me_unit m))))
| op_mul f : is_finite f = true ->
    operation m (measure_mul m (PyFloat f)) (me_unit m) (fmul (me_amount m) f)
| op_div f : is_finite f = true -> feq f f0 = false ->
    operation m (measure_div m (PyFloat f)) (me_unit m) (fdiv (me_amount m) f).

Lemma make_measure_float f u :
  make_measure (PyFloat f) (Exact u) =
  if is_finite f then Returned {| me_amount := f; me_unit := u |} else Raised measure_error.
Proof. unfold make_measure, require_number. cbn. by destruct (is_finite f). Qed.

Lemma infinite_sum a b : is_finite b = false -> is_finite (fadd a b) = false /\ is_finite (fsub a b) = false.
Proof.
  destruct b as [|t| |]; try done; intros _; destruct a as [|s| |]; try done; destruct s, t; done.
Qed.

Lemma combine_float op m o :
  (forall a b, is_finite b = false -> is_finite (op a b) = false) ->
  u_dimension (me_unit m) = u_dimension (me_unit o) ->
  let exact := op (me_amount m) (fdiv (fmul (me_amount o) (u_ratio (me_unit o))) (u_ratio (me_unit m))) in
  combine op m (Exact o) = if is_finite exact then Returned {| me_amount := exact; me_unit := me_unit m |} else Raised measure_error.
Proof.
  intros Hop Hd exact. unfold combine, measure_to. rewrite bool_decide_true by done. cbn [orequire obind].
  rewrite make_measure_float. destruct (is_finite (fdiv _ _)) eqn:E; cbn [obind]; [by rewrite make_measure_float|].
  apply (Hop (me_amount m)) in E. unfold exact. by rewrite E.
Qed.

(** Arithmetic and conversion compute the expression one expects, each step
    rounded to binary64, in the unit of the receiver or the one asked for, and
    fail exactly when the result is not finite.  Measures of different dimensions
    are never converted, added or subtracted, and are never equivalent. *)
Theorem measure_arithmetic m :
  (forall result u exact, operation m result u exact ->
   result = if is_finite exact then Returned {| me_amount := exact; me_unit := u |} else Raised measure_error) /\
  (forall o, u_dimension (me_unit m) <> u_dimension (me_unit o) ->
   measure_to m (Exact (me_unit o)) = Raised incompatible /\ measure_add m (Exact o) = Raised incompatible /\
   measure_sub m (Exact o) = Raised incompatible /\
   forall rel abs b, equivalent_to m (Exact o) rel abs = Returned b -> b = false).
Proof.
  split.
  - intros result u exact [u' Hd|o Hd|o Hd|f Hf|f Hf Hz].
    + unfold measure_to. rewrite bool_decide_true by done. cbn [orequire obind]. apply make_measure_float.
    + apply combine_float; [|done]. intros a b. apply infinite_sum.
    + apply combine_float; [|done]. intros a b. apply infinite_sum.
    + unfold measure_mul, require_number. cbn [normalized to_float obind]. rewrite Hf. apply make_measure_float.
    + unfold measure_div, require_number. cbn [normalized to_float obind]. rewrite Hf. cbn [obind]. rewrite Hz.
      apply make_measure_float.
  - intros o Hd. assert (forall op, combine op m (Exact o) = Raised incompatible) as Hc.
    { intros op. unfold combine, measure_to. by rewrite bool_decide_false by (intros E; by apply Hd). }
    split_and!; [|apply Hc|apply Hc|].
    + unfold measure_to. by rewrite bool_decide_false.
    + intros rel abs b. unfold equivalent_to. rewrite bool_decide_false by done.
      intros (? & _ & H)%obind_returned. apply obind_returned in H as (? & _ & H).
      by apply obind_returned in H as (? & _ & [= <-]).
Qed.

(** ** Indexes *)

Definition by_symbol (u : Unit) : pystr * Unit := (u_symbol u, u).

Lemma index_loop_returned n units last done_ d :
  n = Z.of_nat (length done_) -> n <= MAX_UNITS -> NoDup (u_symbol <$> done_) ->
  index_loop n units last (by_symbol <$> done_) = Returned d <->
  last = None /\ exists us, units = map Exact us /\ Z.of_nat (length (done_ ++ us)) <= MAX_UNITS /\
    NoDup (u_symbol <$> done_ ++ us) /\ d = by_symbol <$> done_ ++ us.
Proof.
  intros -> Hn Hnd. revert done_ Hn Hnd. induction units as [|[u|] units IH]; intros done_ Hn Hnd; cbn [index_loop].
  - split.
    + destruct last; [done|]. intros [= <-]. split; [done|]. exists []. by rewrite app_nil_r.
    + intros [-> (us & E & _ & _ & ->)]. destruct us; [|done]. by rewrite app_nil_r.
  - destruct (Z.leb_spec MAX_UNITS (Z.of_nat (length done_))) as [Hle|Hlt].
    { split; [done|]. intros [_ (us & E & Hl & _)]. destruct us as [|v us]; [done|].
      rewrite length_app in Hl. cbn in Hl. lia. }
    rewrite dict_has_keys. assert ((by_symbol <$> done_).*1 = u_symbol <$> done_) as -> by (by rewrite <-list_fmap_compose).
    destruct (bool_decide_reflect (u_symbol u ∈ u_symbol <$> done_)) as [Hin|Hin]; cbn [negb orequire obind].
    { split; [done|]. intros [_ (us & E & _ & Hd & _)]. destruct us as [|v us]; [done|]. injection E as -> _.
      rewrite fmap_app, fmap_cons in Hd. apply NoDup_app in Hd as (_ & Hd & _). by destruct (Hd _ Hin); left. }
    rewrite dict_set_fresh by (rewrite dict_has_keys; apply bool_decide_eq_false; by rewrite <-list_fmap_compose).
    change [(u_symbol u, u)] with (by_symbol <$> [u]). rewrite <-fmap_app.
    replace (Z.of_nat (length done_) + 1) with (Z.of_nat (length (done_ ++ [u]))) by (rewrite length_app; cbn; lia).
    rewrite IH.
    + split; intros [Hl (us & E & H1)]; (split; [done|]).
      * exists (u :: us). rewrite <-app_assoc in H1. cbn. by rewrite E.
      * destruct us as [|v us]; [done|]. injection E as -> ->. exists us. rewrite <-app_assoc. done.
    + rewrite length_app. cbn. lia.
    + rewrite fmap_app. apply NoDup_app. split_and!; [done| |apply NoDup_singleton]. intros x Hx Hu%list_elem_of_singleton. by subst.
  - split; [|intros [_ (us & E & _)]; by destruct us]. by destruct (MAX_UNITS <=? _).
Qed.

Lemma dict_get_symbol us s u :
  NoDup (u_symbol <$> us) -> dict_get s (by_symbol <$> us) = Some u <-> u ∈ us /\ u_symbol u = s.
Proof.
  induction us as [|v us IH]; cbn; intros Hnd.
  - split; [done|]. by intros [?%elem_of_nil _].
  - apply NoDup_cons in Hnd as [Hv Hnd]. rewrite elem_of_cons. case_bool_decide as E.
    + split; [intros [= <-]; auto|]. intros [[->|Hin] Hs]; [done|]. destruct Hv. rewrite E, <-Hs.
      by apply list_elem_of_fmap_2.
    + rewrite IH by done. naive_solver.
Qed.

(** An index is made of every iterable of at most 256 units with distinct
    symbols, and of no other; it finds exactly those units, by their symbols. *)
Theorem index_units_complete units d :
  index_units units = Returned d <->
  exists us, units = all_units us /\ Z.of_nat (length us) <= MAX_UNITS /\ NoDup (u_symbol <$> us) /\
    d = by_symbol <$> us /\ forall s u, dict_get s d = Some u <-> u ∈ us /\ u_symbol u = s.
Proof.
  unfold index_units, all_units. destruct units as [[units last]|].
  - change (@nil (pystr * Unit)) with (by_symbol <$> @nil Unit).
    rewrite (index_loop_returned 0 units last [] d) by (done || constructor). cbn [app]. split.
    + intros (-> & us & -> & Hl & Hnd & ->). exists us. split_and!; try done. intros. by apply dict_get_symbol.
    + intros (us & [= -> ->] & Hl & Hnd & -> & _). split; [done|]. by exists us.
  - split; [done|]. by intros (us & ? & _).
Qed.

(** ** Text *)

Lemma lstrip_length s : (length (lstrip s) <= length s)%nat.
Proof. induction s as [|c s IH]; cbn; [done|]. case_match; cbn; lia. Qed.

Lemma trimmed_head c t : strip (c :: t) = c :: t -> is_space c = false.
Proof.
  unfold strip. intros E. apply (f_equal length) in E. rewrite length_rev in E.
  pose proof (lstrip_length (rev (lstrip (c :: t)))) as H1. rewrite length_rev in H1. cbn [lstrip] in *.
  pose proof (lstrip_length t). destruct (is_space c); [cbn in E; lia|done].
Qed.

Lemma blank_space c : is_blank c = true -> is_space c = true.
Proof. unfold is_blank. intros H. apply orb_true_iff in H as [->%Z.eqb_eq | ->%Z.eqb_eq]; reflexivity. Qed.

Lemma digits_not_blank ds : digits ds -> Forall (fun c => is_blank c = false) ds.
Proof.
  unfold digits. rewrite forallb_forall. intros H. apply List.Forall_forall. intros c Hc%H.
  unfold is_digit, is_blank in *. lia.
Qed.

Lemma unsigned_ok ds : unsigned_shape ds -> ds <> [] /\ digits ds /\ forall c t, ds = c :: t -> c <> 45 /\ c <> 43.
Proof.
  intros [-> |(c & ds' & -> & Hc & Hd)]; (split; [done|]).
  - split; [done|]. intros c t [= <- <-]. done.
  - split; [unfold digits in *; cbn; rewrite Hd; unfold is_digit; lia|]. intros c' t [= <- <-]. lia.
Qed.

(** The text of a [float] is in the grammar, and has no blanks. *)
Lemma float_is_number text : float_shape text -> is_number text = true /\ Forall (fun c => is_blank c = false) text.
Proof.
  intros (sign & ds & fraction & exponent & -> & Hs & Hd & Hf & He & _).
  destruct (unsigned_ok ds Hd) as (Hne & Hdg & Hhead). split.
  - assert ((scan_sign (sign ++ ds ++ fraction ++ exponent)).2 = ds ++ fraction ++ exponent) as Esign.
    { destruct Hs as [-> | ->]; [|done]. destruct ds as [|c ds]; [done|]. destruct (Hhead c ds eq_refl).
      cbn. by rewrite !(proj2 (Z.eqb_neq c _)). }
    assert (match exponent with [] => True | c :: _ => is_digit c = false end) as Hx.
    { destruct He as [-> |(es & sgn & -> & _)]; done. }
    assert (power_ok exponent = true) as Hpow.
    { destruct He as [-> |(es & sgn & -> & Hes & Hdes & Hsgn)]; [done|]. unfold power_ok. cbn [Z.eqb Pos.eqb orb andb].
      assert ((scan_sign (sgn ++ es)).2 = es) as ->.
      { destruct Hsgn as [-> |[-> | ->]]; [|done..]. destruct es as [|c es]; [done|].
        unfold digits in Hdes. cbn in Hdes. apply andb_true_iff in Hdes as [Hc _]. unfold is_digit in Hc.
        cbn. by rewrite !(proj2 (Z.eqb_neq c _)) by lia. }
      rewrite <-(app_nil_r es), span_digits_app by done. by destruct es. }
    unfold is_number. rewrite Esign. rewrite span_digits_app;
      [|done|destruct Hf as [-> |(fs & -> & _)]; done].
    destruct Hf as [-> |(fs & -> & Hfs & Hdf)]; cbn [app].
    + destruct exponent as [|c x]; [by destruct ds|].
      destruct He as [?|(es & sgn & E & _)]; [done|]. injection E as -> E. cbn [Z.eqb Pos.eqb]. rewrite Hpow. by destruct ds.
    + cbn [Z.eqb Pos.eqb]. rewrite span_digits_app by done. rewrite Hpow. by destruct ds.
  - apply digits_not_blank in Hdg.
    repeat apply Forall_app_2; [destruct Hs as [-> | ->]; by repeat constructor|done| |].
    + destruct Hf as [-> |(fs & -> & _ & Hdf)]; [constructor|]. constructor; [done|]. by apply digits_not_blank.
    + destruct He as [-> |(es & sgn & -> & _ & Hdes & Hsgn)]; [constructor|]. constructor; [done|].
      apply Forall_app_2; [|by apply digits_not_blank]. destruct Hsgn as [-> |[-> | ->]]; by repeat constructor.
Qed.

Lemma before_blank_app w rest :
  Forall (fun c => is_blank c = false) w -> match rest with [] => True | c :: _ => is_blank c = true end ->
  before_blank (w ++ rest) = (w, rest).
Proof.
  intros Hw Hr. induction Hw as [|c w Hc _ IH]; cbn; [|by rewrite Hc, IH].
  destruct rest as [|c rest]; cbn; [done|]. by rewrite Hr.
Qed.

Lemma span_blanks_app b rest :
  Forall (fun c => is_blank c = true) b -> match rest with [] => True | c :: _ => is_blank c = false end ->
  span_blanks (b ++ rest) = (b, rest).
Proof.
  intros Hb Hr. induction Hb as [|c b Hc _ IH]; cbn; [|by rewrite Hc, IH].
  destruct rest as [|c rest]; cbn; [done|]. by rewrite Hr.
Qed.

Section RoundTrip.
Context `{FloatText}.

(** The text of an amount is that of a [float], and is read as the amount. *)
Definition amount_readable (f : float) : Prop :=
  is_finite f = true /\ float_shape (float_repr f) /\ Z.of_nat (length (float_repr f)) <= 256 /\
  float_of_text (float_repr f) = f.

Lemma parse_number_repr f : amount_readable f -> parse_number (float_repr f) = Returned f.
Proof.
  intros (Hf & Hs & Hl & Ht). unfold parse_number. rewrite (proj1 (float_is_number _ Hs)), Ht.
  rewrite (proj2 (Z.ltb_ge _ _)) by done. unfold require_number. cbn. by rewrite Hf.
Qed.

(** [C37] With an index that has its unit, a measure is read back from its dictionary,
    and from its amount, blanks and its symbol when the symbol is on one line and
    the text is not too long. *)
Theorem measure_text_roundtrip m units d blanks :
  amount_readable (me_amount m) -> valid_unit (me_unit m) ->
  index_units units = Returned d -> dict_get (u_symbol (me_unit m)) d = Some (me_unit m) ->
  measure_from_dict (measure_to_dict m) units = Returned m /\
  (blanks <> [] -> Forall (fun c => is_blank c = true) blanks -> Forall (fun c => c <> 10) (u_symbol (me_unit m)) ->
   let text := float_repr (me_amount m) ++ blanks ++ u_symbol (me_unit m) in
   parse_measure (Exact text) units =
     if Z.of_nat (length text) <=? 256 then Returned m else Raised measure_error).
Proof.
  intros Ha (Hne & Htrim & _) Hi Hg. pose proof (parse_number_repr _ Ha) as Hp. destruct Ha as (Hf & Hs & _).
  assert (make_measure (PyFloat (me_amount m)) (Exact (me_unit m)) = Returned m) as Hm.
  { rewrite make_measure_float, Hf. by destruct m. }
  split.
  - unfold measure_from_dict, measure_to_dict. cbn [mapping_items].
    transitivity (let? indexed := index_units units in
      let? unit := oget (dict_get (u_symbol (me_unit m)) indexed) measure_error in
      let? number := parse_number (float_repr (me_amount m)) in make_measure (PyFloat number) (Exact unit));
      [reflexivity|]. rewrite Hi. cbn [obind]. rewrite Hg. cbn [oget obind]. rewrite Hp. exact Hm.
  - intros Hb Hbl Hnl text. unfold parse_measure. destruct (Z.leb_spec (Z.of_nat (length text)) 256); [|done].
    cbn [orequire obind]. unfold text. destruct (float_is_number _ Hs) as [Hnum Hnb].
    assert (match_measure (float_repr (me_amount m) ++ blanks ++ u_symbol (me_unit m)) =
      Some (float_repr (me_amount m), u_symbol (me_unit m))) as ->.
    { unfold match_measure. rewrite before_blank_app; [|done|destruct blanks; [done|by inversion Hbl]].
      destruct (u_symbol (me_unit m)) as [|c t] eqn:Es; [done|].
      rewrite span_blanks_app; [|done|]; cycle 1.
      { destruct (is_blank c) eqn:E; [|done]. apply blank_space in E. apply trimmed_head in Htrim. congruence. }
      rewrite Hnum, bool_decide_false, bool_decide_false by done. cbn [negb andb].
      rewrite (proj2 (forallb_forall _ _)); [done|]. rewrite List.Forall_forall in Hnl.
      intros x Hx%Hnl. by apply negb_true_iff, Z.eqb_neq. }
    cbn [oget obind]. rewrite Hi. cbn [obind]. rewrite Hg. cbn [oget obind]. rewrite Hp. exact Hm.
Qed.
End RoundTrip.

(** ** Concrete measures *)

(** The built-in units are what the constructor makes of their arguments. *)
Example builtin_units_valid : Forall (fun u =>
    make_unit (Exact (u_name u)) (Exact (u_symbol u)) (Exact (u_dimension u)) (PyFloat (u_ratio u)) = Returned u) BUILTIN_UNITS.
Proof. repeat constructor; vm_compute; reflexivity. Qed.

Definition int_amount (n : Z) : float := match float_of_int n with Some f => f | None => f0 end.
Definition measured (n : Z) (u : Unit) : Measure := {| me_amount := int_amount n; me_unit := u |}.

Example two_kilometers : measure_add (measured 2 KILOMETER) (Exact (measured 500 METER))
  = Returned {| me_amount := true_divide 5 2; me_unit := KILOMETER |}.
Proof. vm_compute. reflexivity. Qed.

(** A conversion goes through the ratio of the unit it comes from, even to the
    unit itself: an amount near the largest [float] cannot be converted to its own
    unit, is not equivalent to itself, and is added from the left only. *)
Lemma same_unit_conversion_overflows :
  let big := measured (10 ^ 306) KILOMETER in
  measure_to big (Exact KILOMETER) = Raised measure_error /\
  equivalent_to big (Exact big) (PyInt 0) (PyInt 0) = Raised measure_error /\
  is_finite (fadd (me_amount big) f1) = true /\
  measure_add big (Exact (measured 1 KILOMETER)) = Returned big /\
  measure_add (measured 1 KILOMETER) (Exact big) = Raised measure_error.
Proof. vm_compute. repeat split. Qed.

Lemma measure_arithmetic_witness :
  measure_add (measured 2 KILOMETER) (Exact (measured 500 METER))
    = Returned {| me_amount := true_divide 5 2; me_unit := KILOMETER |} /\
  measure_add (measured 2 KILOMETER) (Exact (measured 500 GRAM)) = Raised incompatible.
Proof.
  split.
  - rewrite (proj1 (measure_arithmetic (measured 2 KILOMETER)) _ _ _ (op_add (measured 2 KILOMETER) (measured 500 METER) eq_refl)).
    vm_compute. reflexivity.
  - by apply (proj2 (measure_arithmetic (measured 2 KILOMETER)) (measured 500 GRAM)).
Defined.

(** A reader and a writer of the one [float] of the witness. *)
Definition half_text : FloatText := {| float_repr := fun _ => py "2.5"; float_of_text := fun _ => true_divide 5 2 |}.

Lemma half_readable : amount_readable (H := half_text) (true_divide 5 2).
Proof.
  split; [done|]. split; [|done]. exists [], [50], [46; 53], []. split; [done|]. split; [by left|].
  split; [right; by exists 50, []|]. split; [right; by exists [53]|]. split; [by left|done].
Qed.

Lemma kilometer_valid : valid_unit KILOMETER.
Proof. by vm_compute. Qed.

Lemma measure_text_roundtrip_witness :
  measure_from_dict (H := half_text) (measure_to_dict (H := half_text) {| me_amount := true_divide 5 2; me_unit := KILOMETER |}) (all_units BUILTIN_UNITS)
    = Returned {| me_amount := true_divide 5 2; me_unit := KILOMETER |} /\
  parse_measure (H := half_text) (Exact (py "2.5  km")) (all_units BUILTIN_UNITS)
    = Returned {| me_amount := true_divide 5 2; me_unit := KILOMETER |}.
Proof.
  assert (index_units (all_units BUILTIN_UNITS) = Returned (by_symbol <$> BUILTIN_UNITS)) as Hi by (vm_compute; reflexivity).
  assert (dict_get (u_symbol KILOMETER) (by_symbol <$> BUILTIN_UNITS) = Some KILOMETER) as Hg by (vm_compute; reflexivity).
  destruct (measure_text_roundtrip (H := half_text) {| me_amount := true_divide 5 2; me_unit := KILOMETER |}
    _ _ (py "  ") half_readable kilometer_valid Hi Hg) as [H1 H2]. split; [exact H1|].
  apply H2; [done|by repeat constructor|by repeat constructor].
Defined.

Lemma index_units_complete_witness : index_units (all_units BUILTIN_UNITS) = Returned (by_symbol <$> BUILTIN_UNITS).
Proof.
  apply index_units_complete. exists BUILTIN_UNITS. split; [done|]. split; [by vm_compute|].
  split; [by apply (bool_decide_unpack _); vm_compute|]. split; [done|]. intros s u. apply dict_get_symbol.
  by apply (bool_decide_unpack _); vm_compute.
Defined.
