(* ===== verification/AuditEvent.v ===== *)
(** * Audit events ([bluetape/audit])

    Identities, payloads and events with the checks of their constructors, the
    equality of events, the validation against caller-selected limits
    ([_validation.py]) and the helpers for adapter tests ([testing.py]).  What the
    time zone database answers is a parameter.  A [dict] is the list of its items
    in their order; the event keeps a copy of the caller's. *)

From S2P Require Import Prelude Python Leader LeaseRecord PyObject.
Open Scope Z_scope.
Open Scope py_scope.

(** ** Limits *)

Definition MAX_EVENT_ID_CHARS : Z := 128.
Definition MAX_ACTION_CHARS : Z := 128.
Definition MAX_IDENTITY_KIND_CHARS : Z := 64.
Definition MAX_IDENTITY_VALUE_CHARS : Z := 512.
Definition MAX_CORRELATION_ID_CHARS : Z := 128.
Definition MAX_CAUSATION_ID_CHARS : Z := 128.
Definition MAX_CONTENT_TYPE_CHARS : Z := 128.
Definition MAX_SCHEMA_VERSION_CHARS : Z := 64.
Definition MAX_PAYLOAD_BYTES : Z := 1048576.
Definition MAX_METADATA_ENTRIES : Z := 64.
Definition MAX_METADATA_KEY_CHARS : Z := 128.
Definition MAX_METADATA_VALUE_CHARS : Z := 2048.

(** The fields of [AuditLimits]. *)
Inductive limit_field : Type :=
| max_event_id_chars | max_action_chars | max_identity_kind_chars | max_identity_value_chars
| max_correlation_id_chars | max_causation_id_chars | max_content_type_chars | max_schema_version_chars
| max_payload_bytes | max_metadata_entries | max_metadata_key_chars | max_metadata_value_chars.

#[export] Instance limit_field_eq_dec : EqDecision limit_field.
Proof. solve_decision. Defined.

Definition limit_text (f : limit_field) : string :=
  match f with
  | max_event_id_chars => "max_event_id_chars" | max_action_chars => "max_action_chars"
  | max_identity_kind_chars => "max_identity_kind_chars" | max_identity_value_chars => "max_identity_value_chars"
  | max_correlation_id_chars => "max_correlation_id_chars" | max_causation_id_chars => "max_causation_id_chars"
  | max_content_type_chars => "max_content_type_chars" | max_schema_version_chars => "max_schema_version_chars"
  | max_payload_bytes => "max_payload_bytes" | max_metadata_entries => "max_metadata_entries"
  | max_metadata_key_chars => "max_metadata_key_chars" | max_metadata_value_chars => "max_metadata_value_chars"
  end.

Definition LIMIT_CEILINGS : list (limit_field * Z) :=
  [(max_event_id_chars, 128); (max_action_chars, 128); (max_identity_kind_chars, MAX_IDENTITY_KIND_CHARS);
   (max_identity_value_chars, MAX_IDENTITY_VALUE_CHARS); (max_correlation_id_chars, 128); (max_causation_id_chars, 128);
   (max_content_type_chars, MAX_CONTENT_TYPE_CHARS); (max_schema_version_chars, MAX_SCHEMA_VERSION_CHARS);
   (max_payload_bytes, MAX_PAYLOAD_BYTES); (max_metadata_entries, 64); (max_metadata_key_chars, 128);
   (max_metadata_value_chars, 2048)].

(** An [AuditLimits]: what [getattr] answers for a field. *)
Definition AuditLimits : Type := limit_field -> Z.

(** [AuditLimits()]. *)
Definition default_limits : AuditLimits := fun f =>
  match f with
  | max_event_id_chars => 128 | max_action_chars => 128
  | max_identity_kind_chars => MAX_IDENTITY_KIND_CHARS | max_identity_value_chars => MAX_IDENTITY_VALUE_CHARS
  | max_correlation_id_chars => 128 | max_causation_id_chars => 128
  | max_content_type_chars => MAX_CONTENT_TYPE_CHARS | max_schema_version_chars => MAX_SCHEMA_VERSION_CHARS
  | max_payload_bytes => MAX_PAYLOAD_BYTES | max_metadata_entries => 64
  | max_metadata_key_chars => 128 | max_metadata_value_chars => 2048
  end.

(** The loop of [__post_init__]. *)
Fixpoint check_ceilings (ceilings : list (limit_field * Z)) (fields : limit_field -> arg Z) : outcome unit :=
  match ceilings with
  | [] => Returned tt
  | (field, ceiling) :: ceilings =>
      match fields field with
      | AnotherClass => Raised (AuditError Audit.InvalidLimits)
      | Exact value =>
          if (value <=? 0) || (ceiling <? value) then Raised (AuditError Audit.InvalidLimits)
          else check_ceilings ceilings fields
      end
  end.

(** [AuditLimits(...)]. *)
Definition make_limits (fields : limit_field -> arg Z) : outcome AuditLimits :=
  let? _ := check_ceilings LIMIT_CEILINGS fields in
  Returned (fun f => match fields f with Exact value => value | AnotherClass => 0 end).

(** ** Text *)

Definition contains_control (value : pystr) : bool := existsb (fun c => (c <=? 31) || (127 <=? c) && (c <=? 159)) value.

Definition chars (value : pystr) : Z := Z.of_nat (length value).

(** [not value or value.isspace()]. *)
Definition is_blank_text (value : pystr) : bool := forallb is_space value.

Definition require_string (value : arg pystr) (maximum : Z) (message : string) (error : exn) (reject_control : bool)
    : outcome pystr :=
  let? s := require_exact value message in
  if maximum <? chars s then Raised error
  else if is_blank_text s then Raised error
  else if reject_control && contains_control s then Raised error
  else Returned s.

Definition require_optional_string (value : option (arg pystr)) (maximum : Z) (message : string) : outcome (option pystr) :=
  match value with
  | None => Returned None
  | Some value => let? s := require_string value maximum message (AuditError Audit.InvalidEvent) false in Returned (Some s)
  end.

(** ** Times *)

(** The zone of a [datetime]: none, a fixed [timezone], a [ZoneInfo], or an
    object of another class. *)
Inductive tzinfo : Type :=
| Naive
| FixedOffset (offset : Z)
| NamedZone (key : pystr)
| AnotherZone (n : Z).

Record datetime : Type := {
  dt_year : Z; dt_month : Z; dt_day : Z; dt_hour : Z; dt_minute : Z; dt_second : Z; dt_microsecond : Z;
  dt_fold : Z;
  dt_tzinfo : tzinfo;
}.

(** ** Identities, payloads and events *)

Record AuditIdentity : Type := { ai_kind : pystr; ai_value : pystr }.

#[export] Instance AuditIdentity_eq_dec : EqDecision AuditIdentity.
Proof. solve_decision. Defined.

Definition make_identity (kind value : arg pystr) : outcome AuditIdentity :=
  let error := AuditError Audit.InvalidIdentity in
  let? k := require_string kind MAX_IDENTITY_KIND_CHARS "identity kind must be a string" error false in
  let? v := require_string value MAX_IDENTITY_VALUE_CHARS "identity value must be a string" error false in
  Returned {| ai_kind := k; ai_value := v |}.

Record AuditPayload : Type := { ap_data : pybytes; ap_content_type : pystr; ap_schema_version : pystr }.

#[export] Instance AuditPayload_eq_dec : EqDecision AuditPayload.
Proof. solve_decision. Defined.

Definition make_payload (data : arg pybytes) (content_type schema_version : arg pystr) : outcome AuditPayload :=
  let error := AuditError Audit.InvalidPayload in
  let? d := require_exact data "payload data must be bytes" in
  let? _ := orequire (negb (bool_decide (d = []) || (MAX_PAYLOAD_BYTES <? chars d))) error in
  let? c := require_string content_type MAX_CONTENT_TYPE_CHARS "payload content type must be a string" error true in
  let? s := require_string schema_version MAX_SCHEMA_VERSION_CHARS "payload schema version must be a string" error true in
  Returned {| ap_data := d; ap_content_type := c; ap_schema_version := s |}.

Record AuditEvent : Type := {
  ae_event_id : pystr;
  ae_action : pystr;
  ae_occurred_at : datetime;
  ae_subject : AuditIdentity;
  ae_payload : AuditPayload;
  ae_actor : option AuditIdentity;
  ae_correlation_id : option pystr;
  ae_causation_id : option pystr;
  ae_metadata : list (pystr * pystr);
}.

(** The loop over the copied metadata. *)
Fixpoint check_metadata (items : list (arg pystr * arg pystr)) : outcome (list (pystr * pystr)) :=
  match items with
  | [] => Returned []
  | (key, value) :: items =>
      let? k := require_exact key "metadata keys must be strings" in
      let? _ := orequire (negb ((MAX_METADATA_KEY_CHARS <? chars k) || is_blank_text k)) (AuditError Audit.InvalidEvent) in
      let? v := require_exact value "metadata values must be strings" in
      let? _ := orequire (chars v <=? MAX_METADATA_VALUE_CHARS) (AuditError Audit.InvalidEvent) in
      let? rest := check_metadata items in
      Returned ((k, v) :: rest)
  end.

Definition private_metadata (metadata : option (arg (list (arg pystr * arg pystr)))) : outcome (list (pystr * pystr)) :=
  match metadata with
  | None => Returned []
  | Some metadata =>
      let? items := require_exact metadata "metadata must be a dict or None" in
      let? _ := orequire (Z.of_nat (length items) <=? MAX_METADATA_ENTRIES) (AuditError Audit.InvalidEvent) in
      check_metadata items
  end.

Section Audit.
(** [utcoffset()] of a time in a [ZoneInfo]. *)
Variable zone_offset : pystr -> datetime -> outcome (option Z).

Definition utcoffset (value : datetime) : outcome (option Z) :=
  match dt_tzinfo value with
  | FixedOffset offset => Returned (Some offset)
  | NamedZone key => zone_offset key value
  | Naive | AnotherZone _ => Returned None
  end.

(** [_datetime_key] and [_timestamp_key]. *)
Definition datetime_key (value : datetime) : outcome (list Z) :=
  let? offset := utcoffset value in
  let? offset := oget offset AssertionError in
  Returned [dt_year value; dt_month value; dt_day value; dt_hour value; dt_minute value; dt_second value;
            dt_microsecond value; offset; dt_fold value].

(** A time in a [timezone] or a [ZoneInfo] that has an offset there; whatever
    [utcoffset] raises is refused. *)
Definition check_time (occurred_at : arg datetime) : outcome datetime :=
  let? t := require_exact occurred_at "occurrence time must be a datetime" in
  let? _ := orequire (match dt_tzinfo t with FixedOffset _ | NamedZone _ => true | _ => false end) (AuditError Audit.InvalidEvent) in
  match utcoffset t with
  | Raised e => if is_Exception e then Raised (AuditError Audit.InvalidEvent) else Raised e
  | Returned None => Raised (AuditError Audit.InvalidEvent)
  | Returned (Some _) => Returned t
  end.

(** [AuditEvent(...)]. *)
Definition make_event (event_id action : arg pystr) (occurred_at : arg datetime) (subject : arg AuditIdentity)
    (payload : arg AuditPayload) (actor : option (arg AuditIdentity)) (correlation_id causation_id : option (arg pystr))
    (metadata : option (arg (list (arg pystr * arg pystr)))) : outcome AuditEvent :=
  let error := AuditError Audit.InvalidEvent in
  let? i := require_string event_id MAX_EVENT_ID_CHARS "event id must be a string" error false in
  let? a := require_string action MAX_ACTION_CHARS "action must be a string" error false in
  let? t := check_time occurred_at in
  let? s := require_exact subject "subject must be an AuditIdentity" in
  let? p := require_exact payload "payload must be an AuditPayload" in
  let? r := require_optional actor "actor must be an AuditIdentity or None" in
  let? c := require_optional_string correlation_id MAX_CORRELATION_ID_CHARS "correlation id must be a string or None" in
  let? u := require_optional_string causation_id MAX_CAUSATION_ID_CHARS "causation id must be a string or None" in
  let? m := private_metadata metadata in
  Returned {| ae_event_id := i; ae_action := a; ae_occurred_at := t; ae_subject := s; ae_payload := p;
              ae_actor := r; ae_correlation_id := c; ae_causation_id := u; ae_metadata := m |}.

(** [a == b] of two dictionaries. *)
Definition dict_equal (a b : list (pystr * pystr)) : bool :=
  bool_decide (length a = length b) && forallb (fun m => bool_decide (dict_get m.1 b = Some m.2)) a.

(** [AuditEvent.__eq__] of another event; [and] stops at the first difference. *)
Definition event_eq (self other : AuditEvent) : outcome bool :=
  if bool_decide (ae_event_id self = ae_event_id other) && bool_decide (ae_action self = ae_action other) then
    let? k := datetime_key (ae_occurred_at self) in
    let? k' := datetime_key (ae_occurred_at other) in
    Returned (bool_decide (k = k')
      && bool_decide (ae_subject self = ae_subject other) && bool_decide (ae_payload self = ae_payload other)
      && bool_decide (ae_actor self = ae_actor other) && bool_decide (ae_correlation_id self = ae_correlation_id other)
      && bool_decide (ae_causation_id self = ae_causation_id other) && dict_equal (ae_metadata self) (ae_metadata other))
  else Returned false.

(** ** Validation ([_validation.py]) *)

(** [if value > getattr(limits, name): _exceeded(category, name)]. *)
Definition within (limits : AuditLimits) (category : string) (name : limit_field) (value : Z) : outcome unit :=
  orequire (value <=? limits name) (AuditLimitExceededError category (limit_text name)).

Fixpoint validate_metadata (limits : AuditLimits) (items : list (pystr * pystr)) : outcome unit :=
  match items with
  | [] => Returned tt
  | (key, value) :: items =>
      let? _ := within limits "metadata.key" max_metadata_key_chars (chars key) in
      let? _ := within limits "metadata.value" max_metadata_value_chars (chars value) in
      validate_metadata limits items
  end.

Definition validate_audit_event (event : arg AuditEvent) (limits : arg AuditLimits) : outcome AuditEvent :=
  let? e := require_exact event "event must be an AuditEvent" in
  let? l := require_exact limits "limits must be an AuditLimits" in
  let? _ := within l "event_id" max_event_id_chars (chars (ae_event_id e)) in
  let? _ := within l "action" max_action_chars (chars (ae_action e)) in
  let? _ := within l "subject.kind" max_identity_kind_chars (chars (ai_kind (ae_subject e))) in
  let? _ := within l "subject.value" max_identity_value_chars (chars (ai_value (ae_subject e))) in
  let? _ :=
    match ae_actor e with
    | None => Returned tt
    | Some actor =>
        let? _ := within l "actor.kind" max_identity_kind_chars (chars (ai_kind actor)) in
        within l "actor.value" max_identity_value_chars (chars (ai_value actor))
    end in
  let? _ := match ae_correlation_id e with None => Returned tt | Some s => within l "correlation_id" max_correlation_id_chars (chars s) end in
  let? _ := match ae_causation_id e with None => Returned tt | Some s => within l "causation_id" max_causation_id_chars (chars s) end in
  let? _ := within l "payload.content_type" max_content_type_chars (chars (ap_content_type (ae_payload e))) in
  let? _ := within l "payload.schema_version" max_schema_version_chars (chars (ap_schema_version (ae_payload e))) in
  let? _ := within l "payload.data" max_payload_bytes (chars (ap_data (ae_payload e))) in
  let? _ := within l "metadata" max_metadata_entries (Z.of_nat (length (ae_metadata e))) in
  let? _ := validate_metadata l (ae_metadata e) in
  Returned e.

(** ** Helpers for tests ([testing.py]) *)

Definition preserved (c : bool) (category : string) : outcome unit := orequire c (FieldNotPreserved category).

Definition same_actor (a b : option AuditIdentity) : outcome unit :=
  let? _ := preserved (Bool.eqb (bool_decide (a = None)) (bool_decide (b = None))) "actor" in
  match a, b with
  | Some a, Some b =>
      let? _ := preserved (bool_decide (ai_kind a = ai_kind b)) "actor.kind" in
      preserved (bool_decide (ai_value a = ai_value b)) "actor.value"
  | _, _ => Returned tt
  end.

Definition assert_audit_event_preserved (actual expected : arg AuditEvent) : outcome unit :=
  let? a := require_exact actual "actual must be an AuditEvent" in
  let? e := require_exact expected "expected must be an AuditEvent" in
  let? _ := preserved (bool_decide (ae_event_id a = ae_event_id e)) "event_id" in
  let? _ := preserved (bool_decide (ae_action a = ae_action e)) "action" in
  let? k := datetime_key (ae_occurred_at a) in
  let? k' := datetime_key (ae_occurred_at e) in
  let? _ := preserved (bool_decide (k = k')) "occurred_at" in
  let? _ := preserved (bool_decide (ai_kind (ae_subject a) = ai_kind (ae_subject e))) "subject.kind" in
  let? _ := preserved (bool_decide (ai_value (ae_subject a) = ai_value (ae_subject e))) "subject.value" in
  let? _ := same_actor (ae_actor a) (ae_actor e) in
  let? _ := preserved (bool_decide (ae_correlation_id a = ae_correlation_id e)) "correlation_id" in
  let? _ := preserved (bool_decide (ae_causation_id a = ae_causation_id e)) "causation_id" in
  let? _ := preserved (bool_decide (ap_content_type (ae_payload a) = ap_content_type (ae_payload e))) "payload.content_type" in
  let? _ := preserved (bool_decide (ap_schema_version (ae_payload a) = ap_schema_version (ae_payload e))) "payload.schema_version" in
  let? _ := preserved (bool_decide (ap_data (ae_payload a) = ap_data (ae_payload e))) "payload.data" in
  preserved (dict_equal (ae_metadata a) (ae_metadata e)) "metadata".

(** The keyword arguments of [make_audit_event]: those it knows, when given, and
    whether there is another. *)
Record overrides : Type := {
  ov_event_id : option (arg pystr);
  ov_action : option (arg pystr);
  ov_occurred_at : option (arg datetime);
  ov_subject : option (arg AuditIdentity);
  ov_payload : option (arg AuditPayload);
  ov_actor : option (option (arg AuditIdentity));
  ov_correlation_id : option (option (arg pystr));
  ov_causation_id : option (option (arg pystr));
  ov_metadata : option (option (arg (list (arg pystr * arg pystr))));
  ov_unknown : bool;
}.

Definition make_audit_event (o : overrides) : outcome AuditEvent :=
  let? _ := orequire (negb (ov_unknown o)) (TypeError "unknown audit event override") in
  let new_year := {| dt_year := 2026; dt_month := 1; dt_day := 1; dt_hour := 0; dt_minute := 0; dt_second := 0;
                     dt_microsecond := 0; dt_fold := 0; dt_tzinfo := FixedOffset 0 |} in
  let? subject := make_identity (Exact (py "test-subject")) (Exact (py "subject-0001")) in
  let? payload := make_payload (Exact (py "{}")) (Exact (py "application/json")) (Exact (py "1")) in
  let? actor := make_identity (Exact (py "test-actor")) (Exact (py "actor-0001")) in
  make_event (default (Exact (py "evt-test-0001")) (ov_event_id o)) (default (Exact (py "test.action")) (ov_action o))
    (default (Exact new_year) (ov_occurred_at o)) (default (Exact subject) (ov_subject o))
    (default (Exact payload) (ov_payload o)) (default (Some (Exact actor)) (ov_actor o))
    (default (Some (Exact (py "corr-test-0001"))) (ov_correlation_id o))
    (default (Some (Exact (py "cause-test-0001"))) (ov_causation_id o))
    (default (Some (Exact [(Exact (py "source"), Exact (py "bluetape.audit.testing"))])) (ov_metadata o)).

(** ** What the constructors leave *)

Definition text_ok (maximum : Z) (s : pystr) : Prop := chars s <= maximum /\ is_blank_text s = false.

Definition valid_identity (i : AuditIdentity) : Prop :=
  text_ok MAX_IDENTITY_KIND_CHARS (ai_kind i) /\ text_ok MAX_IDENTITY_VALUE_CHARS (ai_value i).

Definition valid_payload (p : AuditPayload) : Prop :=
  ap_data p <> [] /\ chars (ap_data p) <= MAX_PAYLOAD_BYTES /\
  text_ok MAX_CONTENT_TYPE_CHARS (ap_content_type p) /\ contains_control (ap_content_type p) = false /\
  text_ok MAX_SCHEMA_VERSION_CHARS (ap_schema_version p) /\ contains_control (ap_schema_version p) = false.

Definition optional (P : pystr -> Prop) (s : option pystr) : Prop := match s with None => True | Some s => P s end.

Definition valid_event (e : AuditEvent) : Prop :=
  text_ok MAX_EVENT_ID_CHARS (ae_event_id e) /\ text_ok MAX_ACTION_CHARS (ae_action e) /\
  (exists offset, utcoffset (ae_occurred_at e) = Returned (Some offset)) /\
  valid_identity (ae_subject e) /\ valid_payload (ae_payload e) /\
  (forall actor, ae_actor e = Some actor -> valid_identity actor) /\
  optional (text_ok MAX_CORRELATION_ID_CHARS) (ae_correlation_id e) /\
  optional (text_ok MAX_CAUSATION_ID_CHARS) (ae_causation_id e) /\
  Z.of_nat (length (ae_metadata e)) <= MAX_METADATA_ENTRIES /\
  Forall (fun m => text_ok MAX_METADATA_KEY_CHARS m.1 /\ chars m.2 <= MAX_METADATA_VALUE_CHARS) (ae_metadata e) /\
  NoDup (ae_metadata e).*1.

Lemma require_string_returned v maximum message error control s :
  require_string v maximum message error control = Returned s ->
  v = Exact s /\ text_ok maximum s /\ (control = true -> contains_control s = false).
Proof.
  unfold require_string. destruct v as [v|]; [|done]. cbn [require_exact obind].
  destruct (Z.ltb_spec maximum (chars v)); [done|]. destruct (is_blank_text v) eqn:Eb; [done|].
  destruct (control && contains_control v) eqn:Ec; [done|]. intros [= <-]. split_and!; [done|done|].
  intros ->. by destruct (contains_control v).
Qed.

Lemma make_identity_valid kind value i : make_identity kind value = Returned i -> valid_identity i.
Proof.
  unfold make_identity. cbv zeta. intros (k & Hk & H)%obind_returned. apply obind_returned in H as (v & Hv & [= <-]).
  apply require_string_returned in Hk as (_ & Hk & _), Hv as (_ & Hv & _). done.
Qed.

Lemma make_payload_valid data content_type schema_version p :
  make_payload data content_type schema_version = Returned p -> valid_payload p.
Proof.
  unfold make_payload. cbv zeta. intros (d & _ & H)%obind_returned.
  apply obind_returned in H as (u & Hd%orequire_returned & H). apply obind_returned in H as (c & Hc & H).
  apply obind_returned in H as (s & Hs & [= <-]).
  apply require_string_returned in Hc as (_ & Hc & Hc'), Hs as (_ & Hs & Hs').
  apply negb_true_iff, orb_false_iff in Hd as [Hd%bool_decide_eq_false Hl%Z.ltb_ge].
  by split_and!; auto.
Qed.

Lemma optional_text_valid v maximum message s :
  require_optional_string v maximum message = Returned s -> optional (text_ok maximum) s.
Proof.
  destruct v as [v|]; cbn; [|by intros [= <-]]. intros (t & Ht & [= <-])%obind_returned.
  by apply require_string_returned in Ht as (_ & ? & _).
Qed.

Lemma check_metadata_valid items m :
  check_metadata items = Returned m ->
  m.*1 = omap (fun i => match i.1 with Exact k => Some k | AnotherClass => None end) items /\
  Forall (fun m => text_ok MAX_METADATA_KEY_CHARS m.1 /\ chars m.2 <= MAX_METADATA_VALUE_CHARS) m /\ length m = length items.
Proof.
  revert m. induction items as [|[[k|] v] items IH]; intros m; cbn; [by intros [= <-]| |done].
  intros (u & Hk%orequire_returned & H)%obind_returned. apply obind_returned in H as (v' & _ & H).
  apply obind_returned in H as (u' & Hv%orequire_returned%Z.leb_le & H).
  apply obind_returned in H as (rest & Hr & [= <-]). apply IH in Hr as (E & Hf & Hl).
  apply negb_true_iff, orb_false_iff in Hk as [Hk%Z.ltb_ge Hb]. cbn. rewrite E, Hl. by split_and!; [|constructor|].
Qed.

(** The keys of the items of a [dict]. *)
Definition dict_keys (metadata : option (arg (list (arg pystr * arg pystr)))) : list pystr :=
  match metadata with
  | Some (Exact items) => omap (fun i => match i.1 with Exact k => Some k | AnotherClass => None end) items
  | _ => []
  end.

Lemma private_metadata_valid metadata m :
  NoDup (dict_keys metadata) -> private_metadata metadata = Returned m ->
  Z.of_nat (length m) <= MAX_METADATA_ENTRIES /\
  Forall (fun m => text_ok MAX_METADATA_KEY_CHARS m.1 /\ chars m.2 <= MAX_METADATA_VALUE_CHARS) m /\ NoDup m.*1.
Proof.
  intros Hnd. destruct metadata as [[items|]|]; cbn; [|done|].
  - intros (u & Hl%orequire_returned%Z.leb_le & H)%obind_returned. apply check_metadata_valid in H as (E & Hf & El).
    by rewrite E, El.
  - intros [= <-]. split_and!; [done|constructor|constructor].
Qed.

Lemma check_time_returned t t' :
  check_time t = Returned t' -> exists offset, utcoffset t' = Returned (Some offset).
Proof.
  unfold check_time. intros (x & _ & H)%obind_returned. apply obind_returned in H as (u & _ & H).
  destruct (utcoffset x) as [[offset|]|e] eqn:E; [|done|by destruct (is_Exception e)]. injection H as <-. eauto.
Qed.

Lemma make_event_valid event_id action occurred_at subject payload actor correlation_id causation_id metadata e :
  make_event event_id action occurred_at subject payload actor correlation_id causation_id metadata = Returned e ->
  (forall s, subject = Exact s -> valid_identity s) -> (forall p, payload = Exact p -> valid_payload p) ->
  (forall a, actor = Some (Exact a) -> valid_identity a) -> NoDup (dict_keys metadata) -> valid_event e.
Proof.
  unfold make_event. cbv zeta. intros (i & Hi & H)%obind_returned Hs Hp Ha Hnd.
  apply obind_returned in H as (a & Hact & H). apply obind_returned in H as (t & Ht & H).
  apply obind_returned in H as (s & Es & H). apply obind_returned in H as (p & Ep & H).
  apply obind_returned in H as (r & Er & H). apply obind_returned in H as (c & Hc & H).
  apply obind_returned in H as (u & Hu & H). apply obind_returned in H as (m & Hm & [= <-]).
  apply require_string_returned in Hi as (_ & Hi & _), Hact as (_ & Hact & _).
  apply check_time_returned in Ht. apply optional_text_valid in Hc, Hu.
  apply (private_metadata_valid _ _ Hnd) in Hm as (Hl & Hf & Hd).
  destruct subject as [s'|]; [|done]. injection Es as ->. destruct payload as [p'|]; [|done]. injection Ep as ->.
  unfold valid_event. cbn. split_and!; eauto.
  intros actor' ->. destruct actor as [[a'|]|]; cbn in Er; [|done|done]. injection Er as ->. auto.
Qed.

(** ** Validation *)

(** The sizes of an event, each with its category and the limit for it, in the
    order of the checks. *)
Definition identity_sizes (kind value : string) (i : AuditIdentity) : list (string * limit_field * Z) :=
  [(kind, max_identity_kind_chars, chars (ai_kind i)); (value, max_identity_value_chars, chars (ai_value i))].

Definition optional_size (category : string) (f : limit_field) (s : option pystr) : list (string * limit_field * Z) :=
  match s with None => [] | Some s => [(category, f, chars s)] end.

Definition sizes (e : AuditEvent) : list (string * limit_field * Z) :=
  [("event_id", max_event_id_chars, chars (ae_event_id e)); ("action", max_action_chars, chars (ae_action e))]%string
  ++ identity_sizes "subject.kind" "subject.value" (ae_subject e)
  ++ match ae_actor e with None => [] | Some a => identity_sizes "actor.kind" "actor.value" a end
  ++ optional_size "correlation_id" max_correlation_id_chars (ae_correlation_id e)
  ++ optional_size "causation_id" max_causation_id_chars (ae_causation_id e)
  ++ [("payload.content_type", max_content_type_chars, chars (ap_content_type (ae_payload e)));
      ("payload.schema_version", max_schema_version_chars, chars (ap_schema_version (ae_payload e)));
      ("payload.data", max_payload_bytes, chars (ap_data (ae_payload e)));
      ("metadata", max_metadata_entries, Z.of_nat (length (ae_metadata e)))]%string
  ++ flat_map (fun m => [("metadata.key", max_metadata_key_chars, chars m.1);
                         ("metadata.value", max_metadata_value_chars, chars m.2)]%string) (ae_metadata e).

(** Checking sizes one after another. *)
Fixpoint check_sizes (l : AuditLimits) (sizes : list (string * limit_field * Z)) : outcome unit :=
  match sizes with
  | [] => Returned tt
  | (category, name, size) :: sizes => let? _ := within l category name size in check_sizes l sizes
  end.

Lemma check_sizes_app l a b : check_sizes l (a ++ b) = let? _ := check_sizes l a in check_sizes l b.
Proof. induction a as [|[[c n] z] a IH]; [done|]. cbn. rewrite IH. by destruct (within _ _ _ _). Qed.

Lemma validate_metadata_sizes l m :
  validate_metadata l m = check_sizes l (flat_map (fun m => [("metadata.key", max_metadata_key_chars, chars m.1);
    ("metadata.value", max_metadata_value_chars, chars m.2)]%string) m).
Proof. induction m as [|[k v] m IH]; [done|]. cbn. by rewrite IH. Qed.

Lemma validate_sizes e l :
  validate_audit_event (Exact e) (Exact l) = let? _ := check_sizes l (sizes e) in Returned e.
Proof.
  unfold validate_audit_event, sizes. cbn [require_exact obind]. rewrite !check_sizes_app, validate_metadata_sizes.
  destruct (ae_actor e), (ae_correlation_id e), (ae_causation_id e);
    cbn [check_sizes identity_sizes optional_size obind];
    repeat (match goal with |- context [within ?l ?c ?n ?z] => destruct (within l c n z) as [[]|] end;
            cbn [obind]; try reflexivity).
Qed.

Lemma check_sizes_returned l sizes :
  check_sizes l sizes = Returned tt <-> Forall (fun s => s.2 <= l s.1.2) sizes.
Proof.
  induction sizes as [|[[c n] z] sizes IH]; cbn; [by split|]. rewrite Forall_cons, <-IH, obind_returned. cbn.
  unfold within. setoid_rewrite orequire_returned. setoid_rewrite Z.leb_le. split; [by intros (_ & ? & ?)|intros []; by exists tt].
Qed.

Lemma check_sizes_raised l sizes e :
  check_sizes l sizes = Raised e -> exists before c n z after, sizes = before ++ (c, n, z) :: after /\
    e = AuditLimitExceededError c (limit_text n) /\ l n < z /\ Forall (fun s => s.2 <= l s.1.2) before.
Proof.
  induction sizes as [|[[c n] z] sizes IH]; cbn; [done|]. unfold within, orequire.
  destruct (Z.leb_spec z (l n)); cbn [obind].
  - intros (before & c' & n' & z' & after & -> & He & Hl & Hb)%IH. exists ((c, n, z) :: before), c', n', z', after.
    split_and!; [done..|]. by constructor.
  - intros [= <-]. exists [], c, n, z, sizes. by split_and!.
Qed.

(** The ceilings bound a constructed event. *)
Lemma valid_sizes e : valid_event e -> Forall (fun s => s.2 <= default_limits s.1.2) (sizes e).
Proof.
  intros (Hi & Ha & _ & Hs & (_ & Hd & Hc & _ & Hv & _) & Hr & Hcor & Hcau & Hm & Hf & _).
  assert (forall kind value i, valid_identity i -> Forall (fun s => s.2 <= default_limits s.1.2) (identity_sizes kind value i)) as Hid.
  { intros kind value i [[H1 _] [H2 _]]. by repeat constructor. }
  unfold sizes. repeat apply Forall_app_2; auto.
  - repeat constructor; cbn; [apply Hi|apply Ha].
  - destruct (ae_actor e) as [a|]; [|constructor]. auto.
  - destruct (ae_correlation_id e); [|constructor]. repeat constructor. apply Hcor.
  - destruct (ae_causation_id e); [|constructor]. repeat constructor. apply Hcau.
  - repeat constructor; cbn; [apply Hc|apply Hv|done|done].
  - induction Hf as [|[k v] m [[Hk _] Hv'] _ IH]; [constructor|]. cbn. repeat (constructor; [done|]).
    apply IH. cbn in Hm. lia.
Qed.

(** Limits that the constructor accepts are positive and at most the ceilings. *)
Lemma make_limits_returned fields l :
  make_limits fields = Returned l -> forall f, fields f = Exact (l f) /\ 0 < l f <= default_limits f.
Proof.
  unfold make_limits. intros (u & H & [= <-])%obind_returned f.
  assert (forall ceilings, check_ceilings ceilings fields = Returned u ->
    forall ceiling, (f, ceiling) ∈ ceilings -> exists v, fields f = Exact v /\ 0 < v <= ceiling) as Hc.
  { clear H. induction ceilings as [|[g c] ceilings IH]; cbn; intros H ceiling Hin; [by apply elem_of_nil in Hin|].
    destruct (fields g) as [v|] eqn:Ev; [|done]. destruct (_ || _) eqn:Eb; [done|].
    apply orb_false_iff in Eb as [E1%Z.leb_gt E2%Z.ltb_ge].
    apply elem_of_cons in Hin as [[= -> ->]|Hin]; [by exists v|by apply IH]. }
  destruct (Hc _ H (default_limits f)) as (v & -> & Hv); [|done].
  destruct f; unfold LIMIT_CEILINGS; rewrite !elem_of_cons; cbn; tauto.
Qed.

(** [C38] Validation returns the event itself or names the first size that exceeds its
    limit; an event that the constructors accept passes the default limits, which
    are the largest there are; and looser limits accept what stricter ones do. *)
Theorem audit_validation fields l e :
  make_limits fields = Returned l -> valid_event e ->
  (forall f, 0 < l f <= default_limits f) /\
  validate_audit_event (Exact e) (Exact default_limits) = Returned e /\
  (forall l', (forall f, l f <= l' f) ->
   validate_audit_event (Exact e) (Exact l) = Returned e -> validate_audit_event (Exact e) (Exact l') = Returned e) /\
  match validate_audit_event (Exact e) (Exact l) with
  | Returned e' => e' = e /\ Forall (fun s => s.2 <= l s.1.2) (sizes e)
  | Raised x => exists before category name size after, sizes e = before ++ (category, name, size) :: after /\
      x = AuditLimitExceededError category (limit_text name) /\ l name < size /\
      Forall (fun s => s.2 <= l s.1.2) before
  end.
Proof.
  intros Hl He. split; [intros f; by apply (make_limits_returned _ _ Hl)|].
  assert (forall l, validate_audit_event (Exact e) (Exact l) = Returned e <-> Forall (fun s => s.2 <= l s.1.2) (sizes e)) as Hok.
  { intros l'. rewrite validate_sizes, <-check_sizes_returned. destruct (check_sizes l' (sizes e)) as [[]|]; by split. }
  split; [by apply Hok, valid_sizes|]. split.
  - intros l' Hle H. apply Hok. apply Hok in H. eapply Forall_impl; [exact H|]. intros s Hs. cbn in *. specialize (Hle s.1.2). lia.
  - rewrite validate_sizes. destruct (check_sizes l (sizes e)) as [[]|x] eqn:E; cbn [obind].
    + split; [done|]. by apply check_sizes_returned.
    + by apply check_sizes_raised.
Qed.

(** ** Equality *)

Lemma dict_equal_same a b : NoDup a.*1 -> NoDup b.*1 -> dict_equal a b = true <-> forall m, m ∈ a <-> m ∈ b.
Proof.
  intros Ha Hb. assert (forall d : list (pystr * pystr), NoDup d.*1 -> NoDup d) as Hnd by (intros d; apply NoDup_fmap_1).
  unfold dict_equal. rewrite andb_true_iff, bool_decide_eq_true, forallb_forall. split.
  - intros [Hl Hin]. assert (a ⊆ b) as Hab.
    { intros [k v] Hm. apply dict_get_in. apply list_elem_of_In in Hm. by apply Hin, bool_decide_eq_true in Hm. }
    assert (a ≡ₚ b) as Hp by (apply submseteq_length_Permutation; [apply NoDup_submseteq; auto|lia]).
    intros m. by rewrite Hp.
  - intros Hm. assert (a ≡ₚ b) as Hp by (apply NoDup_Permutation; auto). split; [by rewrite Hp|].
    intros [k v] Hin%list_elem_of_In%Hm. by apply bool_decide_eq_true, dict_get_member.
Qed.

Lemma valid_key e : valid_event e -> exists k, datetime_key (ae_occurred_at e) = Returned k.
Proof. intros (_ & _ & (offset & Ho) & _). unfold datetime_key. rewrite Ho. cbn. eauto. Qed.

(** What two equal events have in common. *)
Definition same_event (a b : AuditEvent) : Prop :=
  ae_event_id a = ae_event_id b /\ ae_action a = ae_action b /\
  datetime_key (ae_occurred_at a) = datetime_key (ae_occurred_at b) /\
  ae_subject a = ae_subject b /\ ae_payload a = ae_payload b /\ ae_actor a = ae_actor b /\
  ae_correlation_id a = ae_correlation_id b /\ ae_causation_id a = ae_causation_id b /\
  forall m, m ∈ ae_metadata a <-> m ∈ ae_metadata b.

Lemma event_eq_spec a b : valid_event a -> valid_event b ->
  exists r, event_eq a b = Returned r /\ (r = true <-> same_event a b).
Proof.
  intros Ha Hb. destruct (valid_key a Ha) as [k Hk], (valid_key b Hb) as [k' Hk'].
  assert (NoDup (ae_metadata a).*1 /\ NoDup (ae_metadata b).*1) as [Hna Hnb] by (split; [apply Ha|apply Hb]).
  unfold event_eq, same_event. rewrite Hk, Hk'. cbn [obind].
  assert (Returned k = Returned k' <-> k = k') as Hr by (split; congruence).
  destruct (_ && bool_decide (ae_action a = _)) eqn:E.
  - eexists. split; [done|]. apply andb_true_iff in E as [E1%bool_decide_eq_true E2%bool_decide_eq_true].
    rewrite !andb_true_iff, !bool_decide_eq_true, dict_equal_same, Hr by done. tauto.
  - exists false. split; [done|]. split; [done|]. intros (E1 & E2 & _). by rewrite E1, E2, !bool_decide_true in E.
Qed.

Lemma preserved_bind {A} c category (k : unit -> outcome A) a :
  obind (preserved c category) k = Returned a <-> c = true /\ k tt = Returned a.
Proof. unfold preserved, orequire. destruct c; cbn; [by split; [|intros []]|by split; [|intros []]]. Qed.

Lemma same_actor_returned a b u : same_actor a b = Returned u <-> a = b.
Proof.
  destruct u, a as [[ka va]|], b as [[kb vb]|]; unfold same_actor, preserved, orequire; cbn; try done.
  repeat case_bool_decide; subst; cbn; split; congruence.
Qed.

Lemma same_actor_bind {A} a b (k : unit -> outcome A) x :
  obind (same_actor a b) k = Returned x <-> a = b /\ k tt = Returned x.
Proof.
  rewrite obind_returned. setoid_rewrite same_actor_returned.
  split; [intros ([] & ? & ?); done|intros []; by exists tt].
Qed.

Lemma preserved_returned a b : valid_event a -> valid_event b ->
  assert_audit_event_preserved (Exact a) (Exact b) = Returned tt <-> same_event a b.
Proof.
  intros Ha Hb. destruct (valid_key a Ha) as [k Hk], (valid_key b Hb) as [k' Hk'].
  assert (NoDup (ae_metadata a).*1 /\ NoDup (ae_metadata b).*1) as [Hna Hnb] by (split; [apply Ha|apply Hb]).
  unfold assert_audit_event_preserved, same_event. cbn [require_exact obind]. rewrite Hk, Hk'. cbn [obind].
  rewrite !preserved_bind, same_actor_bind, !preserved_bind. unfold preserved.
  rewrite orequire_returned, !bool_decide_eq_true, (dict_equal_same _ _ Hna Hnb).
  assert (Returned k = Returned k' <-> k = k') as -> by (split; congruence).
  assert (ae_subject a = ae_subject b <-> ai_kind (ae_subject a) = ai_kind (ae_subject b) /\ ai_value (ae_subject a) = ai_value (ae_subject b)) as ->.
  { destruct (ae_subject a), (ae_subject b); cbn; split; [by intros [= -> ->]|by intros [-> ->]]. }
  assert (ae_payload a = ae_payload b <-> ap_content_type (ae_payload a) = ap_content_type (ae_payload b) /\
    ap_schema_version (ae_payload a) = ap_schema_version (ae_payload b) /\ ap_data (ae_payload a) = ap_data (ae_payload b)) as ->.
  { destruct (ae_payload a), (ae_payload b); cbn; split; [by intros [= -> -> ->]|by intros (-> & -> & ->)]. }
  tauto.
Qed.

(** [C39] Events that the constructors accept can always be compared: equality is an
    equivalence, insensitive to the order of the metadata, and the assertion of
    the test helper passes for exactly the events that are equal. *)
Theorem audit_equality a b c :
  valid_event a -> valid_event b -> valid_event c ->
  event_eq a a = Returned true /\ event_eq a b = event_eq b a /\
  (event_eq a b = Returned true -> event_eq b c = Returned true -> event_eq a c = Returned true) /\
  (assert_audit_event_preserved (Exact a) (Exact b) = Returned tt <-> event_eq a b = Returned true) /\
  (forall m, m ≡ₚ ae_metadata a -> event_eq a {| ae_event_id := ae_event_id a; ae_action := ae_action a;
     ae_occurred_at := ae_occurred_at a; ae_subject := ae_subject a; ae_payload := ae_payload a; ae_actor := ae_actor a;
     ae_correlation_id := ae_correlation_id a; ae_causation_id := ae_causation_id a; ae_metadata := m |} = Returned true).
Proof.
  intros Ha Hb Hc. assert (forall a b, valid_event a -> valid_event b -> event_eq a b = Returned true <-> same_event a b) as Heq.
  { intros x y Hx Hy. destruct (event_eq_spec x y Hx Hy) as (r & -> & <-). split; congruence. }
  split_and!.
  - by apply Heq.
  - destruct (event_eq_spec a b Ha Hb) as (r & -> & Hr), (event_eq_spec b a Hb Ha) as (r' & -> & Hr'). f_equal.
    apply eq_bool_prop_intro. rewrite !Is_true_true, Hr, Hr'. unfold same_event. naive_solver.
  - rewrite !Heq by done. unfold same_event. intros H1 H2. destruct_and!. split_and!; try congruence. naive_solver.
  - by rewrite preserved_returned, Heq.
  - intros m Hm. apply Heq; [done| |].
    + unfold valid_event in *. cbn. rewrite Hm. tauto.
    + unfold same_event. cbn. split_and!; try done. intros x. by rewrite Hm.
Qed.
End Audit.

(** ** The event of the test helper *)

Definition no_zones (key : pystr) (t : datetime) : outcome (option Z) := Returned None.

Definition no_overrides : overrides :=
  {| ov_event_id := None; ov_action := None; ov_occurred_at := None; ov_subject := None; ov_payload := None;
     ov_actor := None; ov_correlation_id := None; ov_causation_id := None; ov_metadata := None; ov_unknown := false |}.

Definition test_event : AuditEvent :=
  Eval vm_compute in
  match make_audit_event no_zones no_overrides with Returned e => e | Raised _ =>
    {| ae_event_id := []; ae_action := []; ae_occurred_at := {| dt_year := 0; dt_month := 0; dt_day := 0; dt_hour := 0;
         dt_minute := 0; dt_second := 0; dt_microsecond := 0; dt_fold := 0; dt_tzinfo := Naive |};
       ae_subject := {| ai_kind := []; ai_value := [] |};
       ae_payload := {| ap_data := []; ap_content_type := []; ap_schema_version := [] |};
       ae_actor := None; ae_correlation_id := None; ae_causation_id := None; ae_metadata := [] |} end.

Example test_event_made : make_audit_event no_zones no_overrides = Returned test_event.
Proof. vm_compute. reflexivity. Qed.

Lemma test_event_valid : valid_event no_zones test_event.
Proof.
  unfold valid_event, valid_identity, valid_payload, text_ok. split_and!; try (by vm_compute).
  - by exists 0.
  - intros actor [= <-]. by vm_compute.
  - by repeat constructor.
  - by apply (bool_decide_unpack _); vm_compute.
Qed.

(** Twenty characters for an action are enough, three are not. *)
Definition short_action (n : Z) (f : limit_field) : arg Z := if decide (f = max_action_chars) then Exact n else Exact 64.

Example action_too_long :
  (let? l := make_limits (short_action 3) in validate_audit_event (Exact test_event) (Exact l))
  = Raised (AuditLimitExceededError "action" "max_action_chars").
Proof. vm_compute. reflexivity. Qed.

Lemma audit_validation_witness :
  exists l, make_limits (short_action 20) = Returned l /\
    validate_audit_event (Exact test_event) (Exact l) = Returned test_event /\
    validate_audit_event (Exact test_event) (Exact default_limits) = Returned test_event.
Proof.
  eexists. split; [reflexivity|].
  destruct (audit_validation no_zones (short_action 20) _ test_event eq_refl test_event_valid) as (_ & Hd & _).
  split; [vm_compute; reflexivity|exact Hd].
Defined.

Lemma audit_equality_witness :
  event_eq no_zones test_event test_event = Returned true /\
  assert_audit_event_preserved no_zones (Exact test_event) (Exact test_event) = Returned tt.
Proof.
  destruct (audit_equality no_zones test_event test_event test_event test_event_valid test_event_valid test_event_valid)
    as (H & _ & _ & Hp & _). split; [exact H|by apply Hp].
Defined.
