(* ===== verification/JwtClaims.v ===== *)
(** * Token claims ([bluetape/jwt/_claims.py], [_algorithms.py])

    The claims a caller hands over are checked and copied into immutable values;
    the payload of a token is read back into claims by the same checks.  What a
    caller or a payload supplies is an object ([pyobj]); a frozen value (of tuples
    and mapping proxies) is a JSON value.  A [datetime] in UTC is its distance from
    the epoch in microseconds. *)

From Stdlib Require Import SpecFloat.
From S2P Require Import Prelude Python Leader PyObject.
Import Jwt.
Open Scope py_scope.
Open Scope Z_scope.

(** ** Algorithms *)

Inductive JWSAlgorithm : Type := HS256 | HS384 | HS512 | RS256 | RS384 | RS512 | PS256 | PS384 | PS512.

#[export] Instance JWSAlgorithm_eq_dec : EqDecision JWSAlgorithm.
Proof. solve_decision. Defined.

Inductive AlgorithmFamily : Type := HMAC | RSA.

Definition algorithm_value (a : JWSAlgorithm) : pystr :=
  match a with
  | HS256 => py "HS256" | HS384 => py "HS384" | HS512 => py "HS512"
  | RS256 => py "RS256" | RS384 => py "RS384" | RS512 => py "RS512"
  | PS256 => py "PS256" | PS384 => py "PS384" | PS512 => py "PS512"
  end.

Definition algorithm_family (a : JWSAlgorithm) : AlgorithmFamily :=
  match a with HS256 | HS384 | HS512 => HMAC | _ => RSA end.

Definition minimum_key_bits (a : JWSAlgorithm) : Z :=
  match a with HS256 => 256 | HS384 => 384 | HS512 => 512 | _ => 2048 end.

(** ** Frozen JSON *)

Definition MAX_JSON_DEPTH : Z := 32.
Definition MAX_JSON_NODES : Z := 10000.

Definition REGISTERED_CLAIMS : list pystr :=
  [py "iss"; py "sub"; py "aud"; py "exp"; py "nbf"; py "iat"; py "jti"].

Definition RESERVED_HEADERS : list pystr :=
  [py "alg"; py "kid"; py "typ"; py "crit"; py "jku"; py "jwk"; py "x5u"; py "x5c"; py "x5t";
   py "x5t#S256"; py "cty"; py "b64"; py "zip"].

Definition claim_error : exn := JWTError Claim.
Definition malformed_token_error : exn := JWTError MalformedToken.

(** Not empty, no blanks around it, no NUL. *)
Definition valid_name (s : pystr) : bool :=
  negb (bool_decide (s = [])) && bool_decide (s = strip s) && negb (bool_decide (0 ∈ s)).

Section Freeze.
Variable inbound : bool.

Definition reject_error : exn := if inbound then malformed_token_error else claim_error.

(** The [except] clauses around a container. *)
Definition container_error (e : exn) : exn :=
  if decide (e = claim_error) then e
  else if decide (e = malformed_token_error) then e
  else if is_Exception e then reject_error else e.

Section Items.
Variable freeze : pyobj -> Z -> outcome (json * Z).

Fixpoint freeze_items (items : list pyobj) (nodes : Z) : outcome (list json * Z) :=
  match items with
  | [] => Returned ([], nodes)
  | item :: rest =>
      let? (value, nodes) := freeze item nodes in
      let? (values, nodes) := freeze_items rest nodes in
      Returned (value :: values, nodes)
  end.

Fixpoint freeze_members (items : list (pyobj * pyobj)) (copied : list (pystr * json)) (nodes : Z) :
    outcome (list (pystr * json) * Z) :=
  match items with
  | [] => Returned (copied, nodes)
  | (key, nested) :: rest =>
      match key with
      | OStr name =>
          if valid_name name then
            let? (value, nodes) := freeze nested nodes in
            freeze_members rest (dict_set name value copied) nodes
          else Raised reject_error
      | _ => Raised reject_error
      end
  end.
End Items.

(** [freeze(item, depth)], with the nodes counted so far. *)
Fixpoint freeze (depth : Z) (active : gset Z) (item : pyobj) (nodes : Z) : outcome (json * Z) :=
  let nodes := nodes + 1 in
  if (MAX_JSON_NODES <? nodes) || (MAX_JSON_DEPTH <? depth) then Raised reject_error
  else
    match item with
    | ONone => Returned (JNull, nodes)
    | OBool b => Returned (JBool b, nodes)
    | OInt z => Returned (JInt z, nodes)
    | OStr s => Returned (JString s, nodes)
    | OFloat f => if is_finite f then Returned (JFloat f, nodes) else Raised reject_error
    | ODict identity items | OMapping identity items =>
        if is_active identity active then Raised reject_error
        else
          let? (copied, nodes) :=
            freeze_members (fun a => freeze (depth + 1) (with_id identity active) a) items [] nodes in
          Returned (JObject copied, nodes)
    | OBrokenMapping e => Raised (container_error e)
    | OList identity items | OTuple identity items =>
        if is_active identity active then Raised reject_error
        else
          let? (copied, nodes) :=
            freeze_items (fun a => freeze (depth + 1) (with_id identity active) a) items nodes in
          Returned (JArray copied, nodes)
    | OOther _ => Raised reject_error
    end.

Definition freeze_json (value : pyobj) : outcome json :=
  let? (frozen, _) := freeze 0 ∅ value 0 in Returned frozen.
End Freeze.

(** A JSON value as an object, every container of it new. *)
Fixpoint json_object (mutable : bool) (v : json) : pyobj :=
  match v with
  | JNull => ONone
  | JBool b => OBool b
  | JInt z => OInt z
  | JFloat f => OFloat f
  | JString s => OStr s
  | JArray l => (if mutable then OList None else OTuple None) (json_object mutable <$> l)
  | JObject l =>
      (if mutable then ODict None else OMapping None) ((fun m => (OStr m.1, json_object mutable m.2)) <$> l)
  end.

(** A frozen value: tuples and mapping proxies. *)
Definition frozen_object : json -> pyobj := json_object false.

(** [_thaw_json]: lists and dicts. *)
Definition thaw_json : json -> pyobj := json_object true.

(** ** Strings and audiences *)

Definition validate_string (inbound : bool) (value : pyobj) : outcome pystr :=
  match value with
  | OStr s => if valid_name s then Returned s else Raised (reject_error inbound)
  | _ => Raised (reject_error inbound)
  end.

Fixpoint validate_strings (inbound : bool) (values : list pyobj) : outcome (list pystr) :=
  match values with
  | [] => Returned []
  | value :: rest =>
      let? s := validate_string inbound value in
      let? others := validate_strings inbound rest in
      Returned (s :: others)
  end.

Definition normalize_audience (inbound allow_empty : bool) (value : pyobj) : outcome (list pystr) :=
  let? values :=
    match value with
    | OStr _ => Returned [value]
    | OTuple _ items | OList _ items => Returned items
    | _ => Raised (reject_error inbound)
    end in
  match values with
  | [] => if allow_empty then Returned [] else Raised (reject_error inbound)
  | _ => validate_strings inbound values
  end.

(** ** Dates *)

(** A [datetime] a caller hands over: its wall clock, and what [utcoffset] answers. *)
Record moment : Type := {
  mo_wall : Z;
  mo_offset : outcome (option timedelta);
}.

Definition in_datetime_range (t : Z) : bool := (MIN_DATETIME <=? t) && (t <=? MAX_DATETIME).

(** [now.astimezone(UTC)] of a [datetime] with an offset, and the checks around it:
    [refuse] is what every [Exception] becomes. *)
Definition to_utc (refuse : exn) (now : arg moment) : outcome Z :=
  match now with
  | AnotherClass => Raised refuse
  | Exact d =>
      match mo_offset d with
      | Raised e => if is_Exception e then Raised refuse else Raised e
      | Returned None => Raised refuse
      | Returned (Some offset) =>
          let t := mo_wall d - offset in
          if in_datetime_range t then Returned t else Raised refuse
      end
  end.

(** [_normalize_datetime]: the time in UTC. *)
Definition normalize_datetime (value : arg moment) : outcome Z := to_utc claim_error value.

(** The nearest [int] to a finite [float], ties to even. *)
Definition float_round (f : float) : Z :=
  match f with
  | S754_finite sign m e =>
      let magnitude :=
        if 0 <=? e then Z.pos m * 2 ^ e
        else
          let d := 2 ^ (- e) in
          let q := Z.pos m / d in
          let r := Z.pos m mod d in
          if (d <? 2 * r) || ((2 * r =? d) && Z.odd q) then q + 1 else q in
      if sign then - magnitude else magnitude
  | _ => 0
  end.

(** [modf]: what is left of a finite [float] without its integral part. *)
Definition float_fraction (f : float) : float :=
  match f with
  | S754_finite sign m e =>
      if 0 <=? e then S754_zero sign
      else
        let r := Z.pos m mod 2 ^ (- e) in
        binary_normalize 53 1024 (if sign then - r else r) e sign
  | _ => f
  end.

(** [floor(f)] of a finite [float]. *)
Definition float_floor (f : float) : Z :=
  match f with
  | S754_finite sign m e =>
      let z := if sign then Z.neg m else Z.pos m in
      if 0 <=? e then z * 2 ^ e else z / 2 ^ (- e)
  | _ => 0
  end.

Definition MILLION : float := SpecFloat.binary_normalize 53 1024 1000000 0 false.

(** [datetime.fromtimestamp(value, tz=UTC)]: to the nearest microsecond.  Out of
    range is one of the errors that are caught. *)
Definition from_timestamp (value : pyobj) : option Z :=
  let t :=
    match value with
    | OInt z => z * 1000000
    | OFloat f =>
        match int_of_float f with
        | Returned seconds => seconds * 1000000 + float_round (fmul (float_fraction f) MILLION)
        | Raised _ => MAX_DATETIME + 1
        end
    | _ => MAX_DATETIME + 1
    end in
  if in_datetime_range t then Some t else None.

Definition numeric_date_to_datetime (value : pyobj) : outcome Z :=
  match value with
  | OInt _ => oget (from_timestamp value) malformed_token_error
  | OFloat f =>
      if is_finite f then oget (from_timestamp value) malformed_token_error else Raised malformed_token_error
  | _ => Raised malformed_token_error
  end.

(** [_datetime_to_numeric_date]: [datetime.timestamp()] is a [float]. *)
Definition datetime_to_numeric_date (value : Z) : outcome Z :=
  let timestamp := total_seconds value in
  if is_finite timestamp then Returned (float_floor timestamp) else Raised claim_error.

(** ** Claims *)

Record TokenClaims : Type := {
  tc_issuer : option pystr;
  tc_subject : option pystr;
  tc_audience : list pystr;
  tc_expires_at : option Z;
  tc_not_before : option Z;
  tc_issued_at : option Z;
  tc_jwt_id : option pystr;
  tc_custom : list (pystr * json);
}.

(** [None], or the checked value. *)
Definition optional_string (value : pyobj) : outcome (option pystr) :=
  match value with ONone => Returned None | _ => let? s := validate_string false value in Returned (Some s) end.

Definition optional_datetime (value : option (arg moment)) : outcome (option Z) :=
  match value with None => Returned None | Some d => let? t := normalize_datetime d in Returned (Some t) end.

(** A registered name among the keys. *)
Definition has_registered (items : list (pyobj * pyobj)) : bool :=
  existsb (fun m : pyobj * pyobj => match m.1 with OStr k => bool_decide (k ∈ REGISTERED_CLAIMS) | _ => false end) items.

(** [dict(self.custom)], without a registered claim, frozen. *)
Definition freeze_custom (custom : pyobj) : outcome (list (pystr * json)) :=
  match mapping_items custom with
  | None => Raised claim_error
  | Some (Raised e) => if is_Exception e then Raised claim_error else Raised e
  | Some (Returned items) =>
      if has_registered items then Raised claim_error
      else
        let? frozen := freeze_json false (ODict None items) in
        match frozen with JObject members => Returned members | _ => Raised claim_error end
  end.

(** [TokenClaims(...)]. *)
Definition make_claims (issuer subject audience : pyobj) (expires_at not_before issued_at : option (arg moment))
    (jwt_id custom : pyobj) : outcome TokenClaims :=
  let? issuer := optional_string issuer in
  let? subject := optional_string subject in
  let? jwt_id := optional_string jwt_id in
  let? audience := normalize_audience false true audience in
  let? expires_at := optional_datetime expires_at in
  let? not_before := optional_datetime not_before in
  let? issued_at := optional_datetime issued_at in
  let? custom := freeze_custom custom in
  Returned {| tc_issuer := issuer; tc_subject := subject; tc_audience := audience;
              tc_expires_at := expires_at; tc_not_before := not_before; tc_issued_at := issued_at;
              tc_jwt_id := jwt_id; tc_custom := custom |}.

(** A [datetime] in UTC, a string or [None], a tuple of strings, as arguments. *)
Definition utc_moment (t : Z) : arg moment := Exact {| mo_wall := t; mo_offset := Returned (Some 0) |}.
Definition string_object (s : option pystr) : pyobj := match s with Some s => OStr s | None => ONone end.
Definition strings_object (l : list pystr) : pyobj := OTuple None (OStr <$> l).
Definition custom_object (l : list (pystr * json)) : pyobj := frozen_object (JObject l).

(** ** Payloads *)

Definition set_optional {A} (name : pystr) (value : option A) (as_object : A -> outcome pyobj)
    (payload : list (pystr * pyobj)) : outcome (list (pystr * pyobj)) :=
  match value with
  | None => Returned payload
  | Some a => let? object := as_object a in Returned (dict_set name object payload)
  end.

Definition numeric_date_object (t : Z) : outcome pyobj :=
  let? z := datetime_to_numeric_date t in Returned (OInt z).

Definition claims_to_payload (claims : TokenClaims) : outcome (list (pystr * pyobj)) :=
  let payload := (fun m : pystr * json => (m.1, thaw_json m.2)) <$> tc_custom claims in
  let? payload := set_optional (py "iss") (tc_issuer claims) (fun s => Returned (OStr s)) payload in
  let? payload := set_optional (py "sub") (tc_subject claims) (fun s => Returned (OStr s)) payload in
  let? payload :=
    match tc_audience claims with
    | [] => Returned payload
    | audience => Returned (dict_set (py "aud") (OList None (OStr <$> audience)) payload)
    end in
  let? payload := set_optional (py "exp") (tc_expires_at claims) numeric_date_object payload in
  let? payload := set_optional (py "nbf") (tc_not_before claims) numeric_date_object payload in
  let? payload := set_optional (py "iat") (tc_issued_at claims) numeric_date_object payload in
  set_optional (py "jti") (tc_jwt_id claims) (fun s => Returned (OStr s)) payload.

(** The names of a payload, all of them strings. *)
Fixpoint named_members (items : list (pyobj * pyobj)) : option (list (pystr * pyobj)) :=
  match items with
  | [] => Some []
  | (OStr name, value) :: rest =>
      if valid_name name then cons (name, value) <$> named_members rest else None
  | _ :: _ => None
  end.

Definition inbound_string (name : pystr) (copied : list (pystr * pyobj)) : outcome pyobj :=
  match dict_get name copied with
  | None => Returned ONone
  | Some value => let? s := validate_string true value in Returned (OStr s)
  end.

Definition inbound_date (name : pystr) (copied : list (pystr * pyobj)) : outcome (option (arg moment)) :=
  match dict_get name copied with
  | None => Returned None
  | Some value => let? t := numeric_date_to_datetime value in Returned (Some (utc_moment t))
  end.

Definition claims_from_payload (payload : pyobj) : outcome TokenClaims :=
  match mapping_items payload with
  | None => Raised malformed_token_error
  | Some (Raised e) => if is_Exception e then Raised malformed_token_error else Raised e
  | Some (Returned items) =>
      let? copied := oget (named_members items) malformed_token_error in
      let? audience :=
        match dict_get (py "aud") copied with
        | None => Returned []
        | Some value => normalize_audience true false value
        end in
      let? expires_at := inbound_date (py "exp") copied in
      let? not_before := inbound_date (py "nbf") copied in
      let? issued_at := inbound_date (py "iat") copied in
      let custom := filter (fun m : pystr * pyobj => m.1 ∉ REGISTERED_CLAIMS) copied in
      let? frozen_custom := freeze_json true (ODict None ((fun m => (OStr m.1, m.2)) <$> custom)) in
      let r :=
        let? issuer := inbound_string (py "iss") copied in
        let? subject := inbound_string (py "sub") copied in
        let? jwt_id := inbound_string (py "jti") copied in
        make_claims issuer subject (strings_object audience) expires_at not_before issued_at jwt_id
          (frozen_object frozen_custom) in
      match r with
      | Raised e => if decide (e = claim_error) then Raised malformed_token_error else Raised e
      | Returned claims => Returned claims
      end
  end.

(** ** Verified tokens *)

Record VerifiedToken : Type := {
  vt_kid : pystr;
  vt_algorithm : JWSAlgorithm;
  vt_token_type : pystr;
  vt_issuer : pystr;
  vt_subject : option pystr;
  vt_audience : list pystr;
  vt_expires_at : option Z;
  vt_not_before : option Z;
  vt_issued_at : option Z;
  vt_jwt_id : option pystr;
  vt_custom : list (pystr * json);
  vt_headers : list (pystr * pystr);
}.

Fixpoint freeze_header_items (items : list (pyobj * pyobj)) (frozen : list (pystr * pystr)) :
    outcome (list (pystr * pystr)) :=
  match items with
  | [] => Returned frozen
  | (name, value) :: rest =>
      let? name := validate_string false name in
      if decide (name ∈ RESERVED_HEADERS) then Raised claim_error
      else
        let? value := validate_string false value in
        freeze_header_items rest (dict_set name value frozen)
  end.

Definition freeze_headers (headers : pyobj) : outcome (list (pystr * pystr)) :=
  match mapping_items headers with
  | None => Raised claim_error
  | Some (Raised e) => if is_Exception e then Raised claim_error else Raised e
  | Some (Returned items) => freeze_header_items items []
  end.

(** [VerifiedToken(...)]. *)
Definition make_verified (kid : pyobj) (algorithm : arg JWSAlgorithm) (token_type issuer subject audience : pyobj)
    (expires_at not_before issued_at : option (arg moment)) (jwt_id custom headers : pyobj) :
    outcome VerifiedToken :=
  let? kid := validate_string false kid in
  let? algorithm := match algorithm with Exact a => Returned a | AnotherClass => Raised claim_error end in
  let? token_type := validate_string false token_type in
  let? issuer := validate_string false issuer in
  let? subject := optional_string subject in
  let? audience := normalize_audience false false audience in
  let? expires_at := optional_datetime expires_at in
  let? not_before := optional_datetime not_before in
  let? issued_at := optional_datetime issued_at in
  let? jwt_id := optional_string jwt_id in
  let? custom := freeze_custom custom in
  let? headers := freeze_headers headers in
  Returned {| vt_kid := kid; vt_algorithm := algorithm; vt_token_type := token_type; vt_issuer := issuer;
              vt_subject := subject; vt_audience := audience; vt_expires_at := expires_at;
              vt_not_before := not_before; vt_issued_at := issued_at; vt_jwt_id := jwt_id;
              vt_custom := custom; vt_headers := headers |}.

Definition headers_object (headers : list (pystr * pystr)) : pyobj :=
  ODict None ((fun m => (OStr m.1, OStr m.2)) <$> headers).

Definition to_verified_token (claims : TokenClaims) (kid : pystr) (algorithm : JWSAlgorithm)
    (token_type : pystr) (headers : list (pystr * pystr)) : outcome VerifiedToken :=
  match tc_issuer claims, tc_audience claims with
  | Some issuer, _ :: _ =>
      make_verified (OStr kid) (Exact algorithm) (OStr token_type) (OStr issuer)
        (string_object (tc_subject claims)) (strings_object (tc_audience claims))
        (utc_moment <$> tc_expires_at claims) (utc_moment <$> tc_not_before claims)
        (utc_moment <$> tc_issued_at claims) (string_object (tc_jwt_id claims))
        (custom_object (tc_custom claims)) (headers_object headers)
  | _, _ => Raised claim_error
  end.
