(* ===== verification/JwtClaimsLaws.v ===== *)
(** * Token claims: bounds, immutability and the round trip through a payload *)

From Stdlib Require Import SpecFloat.
From S2P Require Import Prelude Python Leader PyObject JwtClaims.
Import Jwt.
Open Scope py_scope.
Open Scope Z_scope.

(** ** Frozen values *)

(** How far below its root a value reaches. *)
Fixpoint json_height (v : json) : Z :=
  match v with
  | JArray l => foldr Z.max 0 ((fun a => 1 + json_height a) <$> l)
  | JObject l => foldr Z.max 0 ((fun m => 1 + json_height m.2) <$> l)
  | _ => 0
  end.

(** Finite numbers, names that are valid and distinct. *)
Fixpoint frozen_shape (v : json) : bool :=
  match v with
  | JFloat f => is_finite f
  | JArray l => forallb frozen_shape l
  | JObject l => bool_decide (NoDup l.*1) && forallb (fun m => valid_name m.1 && frozen_shape m.2) l
  | _ => true
  end.

Definition frozen_ok (v : json) : Prop :=
  frozen_shape v = true /\ json_height v <= MAX_JSON_DEPTH /\ json_nodes v <= MAX_JSON_NODES.

Lemma json_nodes_positive v : 1 <= json_nodes v.
Proof.
  induction v as [|b|z|f|s|l IH|l IH] using json_nested_ind; cbn; try lia.
  - assert (0 <= foldr Z.add 0 (json_nodes <$> l)) by (induction IH; cbn; lia). lia.
  - assert (0 <= foldr Z.add 0 ((fun m => json_nodes m.2) <$> l)) by (induction IH; cbn; lia). lia.
Qed.

Lemma foldr_max_nonneg l : 0 <= foldr Z.max 0 l.
Proof. induction l; cbn; lia. Qed.

Lemma json_height_nonneg v : 0 <= json_height v.
Proof. destruct v; cbn; try lia; apply foldr_max_nonneg. Qed.

Lemma member_nodes_nonneg l : 0 <= foldr Z.add 0 ((fun m : pystr * json => json_nodes m.2) <$> l).
Proof. induction l as [|m l IH]; cbn; [lia|]. pose proof (json_nodes_positive m.2). lia. Qed.

Lemma item_nodes_nonneg l : 0 <= foldr Z.add 0 (json_nodes <$> l).
Proof. induction l as [|a l IH]; cbn; [lia|]. pose proof (json_nodes_positive a). lia. Qed.

Section Freeze.
Variable inbound : bool.

Lemma freeze_bounds_pass depth nodes :
  nodes + 1 <= MAX_JSON_NODES -> depth <= MAX_JSON_DEPTH ->
  (MAX_JSON_NODES <? nodes + 1) || (MAX_JSON_DEPTH <? depth) = false.
Proof. intros. apply orb_false_iff. split; apply Z.ltb_ge; lia. Qed.

(** A new object of a bounded value is frozen to the value. *)
Lemma freeze_new mutable v : forall depth active nodes,
  frozen_shape v = true -> depth + json_height v <= MAX_JSON_DEPTH -> nodes + json_nodes v <= MAX_JSON_NODES ->
  freeze inbound depth active (json_object mutable v) nodes = Returned (v, nodes + json_nodes v).
Proof.
  induction v as [|b|z|f|s|l IH|l IH] using json_nested_ind; intros depth active nodes Hs Hd Hn;
    cbn [json_height json_nodes frozen_shape] in *.
  1-5: cbn [json_object freeze]; rewrite freeze_bounds_pass by lia; rewrite ?Hs; reflexivity.
  - assert (freeze_items (fun a => freeze inbound (depth + 1) active a) (json_object mutable <$> l) (nodes + 1) =
      Returned (l, nodes + 1 + foldr Z.add 0 (json_nodes <$> l))) as Hi.
    { assert (nodes + 1 + foldr Z.add 0 (json_nodes <$> l) <= MAX_JSON_NODES) as Hn' by lia.
      clear Hn. revert Hn'. generalize (nodes + 1). intros n Hn. revert n Hn.
      induction IH as [|a l Ha _ IHl]; intros n Hn; cbn in Hs, Hd, Hn |- *; [by rewrite Z.add_0_r|].
      apply andb_true_iff in Hs as [Hs1 Hs2]. pose proof (item_nodes_nonneg l).
      rewrite Ha by (done || lia). cbn [obind]. rewrite IHl by (done || lia). cbn [obind]. do 2 f_equal. lia. }
    assert (0 <= foldr Z.add 0 (json_nodes <$> l)) by apply item_nodes_nonneg.
    assert (0 <= foldr Z.max 0 ((fun a => 1 + json_height a) <$> l)) by apply foldr_max_nonneg.
    destruct mutable; cbn [json_object freeze]; rewrite freeze_bounds_pass by lia;
      cbn [is_active with_id]; rewrite Hi; cbn [obind]; do 2 f_equal; lia.
  - apply andb_true_iff in Hs as [Hnd Hs]. apply bool_decide_eq_true in Hnd.
    assert (freeze_members inbound (fun a => freeze inbound (depth + 1) active a)
      ((fun m : pystr * json => (OStr m.1, json_object mutable m.2)) <$> l) [] (nodes + 1) =
      Returned (l, nodes + 1 + foldr Z.add 0 ((fun m => json_nodes m.2) <$> l))) as Hi.
    { assert (nodes + 1 + foldr Z.add 0 ((fun m => json_nodes m.2) <$> l) <= MAX_JSON_NODES) as Hn' by lia.
      clear Hn. revert Hn'. generalize (nodes + 1). intros n Hn.
      change l with ([] ++ l) in Hnd. change (Returned (l, ?x)) with (@Returned (list (pystr * json) * Z) ([] ++ l, x)).
      revert n Hn Hnd. generalize (@nil (pystr * json)).
      induction IH as [|[k a] l Ha _ IHl]; intros copied n Hn Hnd; cbn in Hs, Hd, Hn |- *;
        [by rewrite Z.add_0_r, app_nil_r|].
      apply andb_true_iff in Hs as [[Hk Hs1]%andb_true_iff Hs2]. pose proof (member_nodes_nonneg l).
      cbn [snd] in Ha. rewrite Hk, Ha by (done || lia). cbn [obind]. rewrite dict_set_fresh.
      - rewrite IHl by (rewrite <-?app_assoc; done || lia). rewrite <-app_assoc. do 2 f_equal. lia.
      - rewrite dict_has_keys, bool_decide_false; [done|]. rewrite fmap_app, NoDup_app in Hnd.
        intros Hin. destruct Hnd as (_ & Hdis & _). apply (Hdis k Hin). by left. }
    assert (0 <= foldr Z.add 0 ((fun m => json_nodes m.2) <$> l)) by apply member_nodes_nonneg.
    assert (0 <= foldr Z.max 0 ((fun m => 1 + json_height m.2) <$> l)) by apply foldr_max_nonneg.
    destruct mutable; cbn [json_object freeze]; rewrite freeze_bounds_pass by lia;
      cbn [is_active with_id]; rewrite Hi; cbn [obind]; do 2 f_equal; lia.
Qed.

Lemma freeze_json_new mutable v : frozen_ok v -> freeze_json inbound (json_object mutable v) = Returned v.
Proof. intros (Hs & Hh & Hn). unfold freeze_json. by rewrite freeze_new by (done || lia). Qed.

(** What is frozen is bounded. *)
Definition frozen_at (item : pyobj) : Prop := forall depth active nodes v n,
  freeze inbound depth active item nodes = Returned (v, n) ->
  frozen_shape v = true /\ depth + json_height v <= MAX_JSON_DEPTH /\
  nodes + json_nodes v <= n /\ n <= MAX_JSON_NODES.

Lemma freeze_items_sound depth active l nodes vs n :
  Forall frozen_at l -> depth <= MAX_JSON_DEPTH -> nodes <= MAX_JSON_NODES ->
  freeze_items (freeze inbound (depth + 1) active) l nodes = Returned (vs, n) ->
  forallb frozen_shape vs = true /\ depth + foldr Z.max 0 ((fun a => 1 + json_height a) <$> vs) <= MAX_JSON_DEPTH /\
  nodes + foldr Z.add 0 (json_nodes <$> vs) <= n /\ n <= MAX_JSON_NODES.
Proof.
  intros Hl Hd. revert nodes vs n. induction Hl as [|a l Ha _ IH]; intros nodes vs n Hn H; cbn in H.
  { injection H as <- <-. cbn. split; [done|]. lia. }
  apply obind_returned in H as ([v n1] & Hv & H). apply obind_returned in H as ([vs' n2] & Hvs & [= <- <-]).
  apply Ha in Hv as (Hs1 & Hh1 & Hn1 & Hb1). apply IH in Hvs as (Hs2 & Hh2 & Hn2 & Hb2); [|done].
  cbn. rewrite Hs1, Hs2. split; [done|]. lia.
Qed.

Lemma dict_set_names {V} k (v : V) d : valid_name k = true ->
  forallb (fun m => valid_name m.1) d = true -> forallb (fun m => valid_name m.1) (dict_set k v d) = true.
Proof.
  intros Hk. induction d as [|[k' v'] d IH]; cbn; [by rewrite Hk|]. intros [H1 H2]%andb_true_iff.
  case_bool_decide; cbn; [by rewrite Hk, H2|by rewrite H1, IH].
Qed.

Lemma dict_set_keys {V} k (v : V) d : NoDup d.*1 -> NoDup (dict_set k v d).*1.
Proof.
  intros Hd. destruct (dict_has k d) eqn:E.
  - assert ((dict_set k v d).*1 = d.*1) as ->; [|done]. rewrite dict_has_keys in E. apply bool_decide_eq_true in E.
    clear Hd. induction d as [|[k' v'] d IH]; cbn in *; [by apply elem_of_nil in E|].
    case_bool_decide as Hk; cbn; [by subst|]. f_equal. apply IH. apply elem_of_cons in E as [->|]; done.
  - rewrite dict_set_fresh by done. rewrite dict_has_keys in E. apply bool_decide_eq_false in E.
    rewrite fmap_app, NoDup_app. split; [done|]. split; [|apply NoDup_singleton]. set_solver.
Qed.

(** Replacing a value puts the new one in the place of the old one. *)
Lemma dict_set_measure {V} (f : V -> Z) k v d :
  (forall v, 0 <= f v) ->
  foldr Z.add 0 ((fun m : pystr * V => f m.2) <$> dict_set k v d) <= foldr Z.add 0 ((fun m => f m.2) <$> d) + f v.
Proof.
  intros Hf. induction d as [|[k' v'] d IH]; cbn; [lia|]. case_bool_decide; cbn; [specialize (Hf v'); lia|lia].
Qed.

Lemma dict_set_height {V} (f : V -> Z) k v d :
  foldr Z.max 0 ((fun m : pystr * V => f m.2) <$> dict_set k v d) <=
  Z.max (f v) (foldr Z.max 0 ((fun m => f m.2) <$> d)).
Proof. induction d as [|[k' v'] d IH]; cbn; [lia|]. case_bool_decide; cbn; lia. Qed.

Lemma dict_set_all {V} (P : V -> bool) k v d : P v = true ->
  forallb (fun m : pystr * V => P m.2) d = true -> forallb (fun m => P m.2) (dict_set k v d) = true.
Proof.
  intros Hv. induction d as [|[k' v'] d IH]; cbn; [by rewrite Hv|]. intros [H1 H2]%andb_true_iff.
  case_bool_decide; cbn; [by rewrite Hv, H2|by rewrite H1, IH].
Qed.

Lemma forallb_both {A} (P Q : A -> bool) l :
  forallb (fun a => P a && Q a) l = forallb P l && forallb Q l.
Proof. induction l as [|a l IH]; cbn; [done|]. rewrite IH. by destruct (P a), (Q a), (forallb P l). Qed.

Lemma freeze_members_sound depth active l copied nodes vs n :
  Forall (fun m : pyobj * pyobj => frozen_at m.1 /\ frozen_at m.2) l -> depth <= MAX_JSON_DEPTH ->
  frozen_shape (JObject copied) = true ->
  depth + foldr Z.max 0 ((fun m => 1 + json_height m.2) <$> copied) <= MAX_JSON_DEPTH -> nodes <= MAX_JSON_NODES ->
  freeze_members inbound (freeze inbound (depth + 1) active) l copied nodes = Returned (vs, n) ->
  frozen_shape (JObject vs) = true /\
  depth + foldr Z.max 0 ((fun m => 1 + json_height m.2) <$> vs) <= MAX_JSON_DEPTH /\
  nodes + foldr Z.add 0 ((fun m => json_nodes m.2) <$> vs) <=
    n + foldr Z.add 0 ((fun m => json_nodes m.2) <$> copied) /\ n <= MAX_JSON_NODES.
Proof.
  intros Hl Hd. revert copied nodes vs n.
  induction Hl as [|[k a] l [_ Ha] _ IH]; intros copied nodes vs n Hc Hh Hn H; cbn in H.
  { injection H as <- <-. split; [done|]. lia. }
  destruct k; try done. destruct (valid_name s) eqn:Ek; [|done].
  apply obind_returned in H as ([v n1] & Hv & H). cbn [snd] in Ha.
  apply Ha in Hv as (Hs1 & Hh1 & Hn1 & Hb1). cbn [frozen_shape] in Hc.
  apply andb_true_iff in Hc as [Hnd Hc]. rewrite forallb_both in Hc. apply andb_true_iff in Hc as [Hnames Hc].
  pose proof (dict_set_height (fun a => 1 + json_height a) s v copied) as Hmax. cbv beta in Hmax.
  pose proof (dict_set_measure json_nodes s v copied ltac:(intros w; pose proof (json_nodes_positive w); lia)).
  apply IH in H as (Hs2 & Hh2 & Hn2 & Hb2); [|..|lia|done].
  - split; [done|]. lia.
  - cbn [frozen_shape]. rewrite forallb_both, dict_set_names, dict_set_all by done.
    rewrite bool_decide_true; [done|]. apply dict_set_keys. by apply bool_decide_eq_true in Hnd.
Qed.

Lemma freeze_bounds depth nodes (r : outcome (json * Z)) v n :
  (if (MAX_JSON_NODES <? nodes) || (MAX_JSON_DEPTH <? depth) then Raised (reject_error inbound) else r) = Returned (v, n) ->
  nodes <= MAX_JSON_NODES /\ depth <= MAX_JSON_DEPTH /\ r = Returned (v, n).
Proof.
  destruct ((_ <? _) || _) eqn:E; [done|]. apply orb_false_iff in E as [?%Z.ltb_ge ?%Z.ltb_ge]. done.
Qed.

Lemma freeze_sound item : frozen_at item.
Proof.
  induction item as [item Hs|id l IH|id l IH|id l IH|id l IH] using pyobj_nested_ind; intros depth active nodes v n H.
  - destruct item; try done; cbn [freeze] in H; apply freeze_bounds in H as (Hn & Hd & H); try done.
    4: destruct (is_finite f) eqn:Ef; [|done].
    all: injection H as <- <-; cbn; split; [done|]; lia.
  - cbn [freeze] in H; apply freeze_bounds in H as (Hn & Hd & H); destruct (is_active _ _); [done|].
    apply obind_returned in H as ([vs m] & Hi & [= <- <-]).
    apply freeze_items_sound in Hi as (? & ? & ? & ?); [|done..]. cbn. split; [done|]. lia.
  - cbn [freeze] in H; apply freeze_bounds in H as (Hn & Hd & H); destruct (is_active _ _); [done|].
    apply obind_returned in H as ([vs m] & Hi & [= <- <-]).
    apply freeze_items_sound in Hi as (? & ? & ? & ?); [|done..]. cbn. split; [done|]. lia.
  - cbn [freeze] in H; apply freeze_bounds in H as (Hn & Hd & H); destruct (is_active _ _); [done|].
    apply obind_returned in H as ([vs m] & Hi & [= <- <-]).
    apply freeze_members_sound in Hi as (? & ? & Hc & ?); [|done..|cbn; lia|done]. cbn [json_height json_nodes].
    change (foldr Z.add 0 ((fun m : pystr * json => json_nodes m.2) <$> [])) with 0 in Hc. split; [done|]. lia.
  - cbn [freeze] in H; apply freeze_bounds in H as (Hn & Hd & H); destruct (is_active _ _); [done|].
    apply obind_returned in H as ([vs m] & Hi & [= <- <-]).
    apply freeze_members_sound in Hi as (? & ? & Hc & ?); [|done..|cbn; lia|done]. cbn [json_height json_nodes].
    change (foldr Z.add 0 ((fun m : pystr * json => json_nodes m.2) <$> [])) with 0 in Hc. split; [done|]. lia.
Qed.

Lemma freeze_json_ok item v : freeze_json inbound item = Returned v -> frozen_ok v.
Proof.
  intros ([v' n] & (Hs & Hh & Hn & Hb)%freeze_sound & [= <-])%obind_returned. unfold frozen_ok. split; [done|]. lia.
Qed.
End Freeze.

(** ** Claims *)

Definition valid_option (s : option pystr) : Prop := match s with Some s => valid_name s = true | None => True end.
Definition valid_date (t : option Z) : Prop := match t with Some t => in_datetime_range t = true | None => True end.

(** No registered name. *)
Definition unregistered {V} (l : list (pystr * V)) : Prop := Forall (fun m => m.1 ∉ REGISTERED_CLAIMS) l.

(** What the constructor lets through. *)
Record valid_claims (c : TokenClaims) : Prop := {
  vc_issuer : valid_option (tc_issuer c);
  vc_subject : valid_option (tc_subject c);
  vc_jwt_id : valid_option (tc_jwt_id c);
  vc_audience : Forall (fun s => valid_name s = true) (tc_audience c);
  vc_expires_at : valid_date (tc_expires_at c);
  vc_not_before : valid_date (tc_not_before c);
  vc_issued_at : valid_date (tc_issued_at c);
  vc_custom : frozen_ok (JObject (tc_custom c));
  vc_unregistered : unregistered (tc_custom c);
}.

Lemma validate_string_returned inbound v s :
  validate_string inbound v = Returned s <-> v = OStr s /\ valid_name s = true.
Proof.
  destruct v; cbn; try by split; [|intros [? _]]. destruct (valid_name _) eqn:E; split; try done.
  - by intros [= <-].
  - by intros [[= <-] _].
  - intros [[= <-] ?]. congruence.
Qed.

Lemma validate_strings_returned inbound l r :
  validate_strings inbound l = Returned r <-> l = OStr <$> r /\ Forall (fun s => valid_name s = true) r.
Proof.
  revert r. induction l as [|v l IH]; intros r; cbn.
  { split; [by intros [= <-]|]. intros [Hr _]. by destruct r. }
  split.
  - intros (s & [-> Hs]%validate_string_returned & (r' & [-> Hr]%IH & [= <-])%obind_returned)%obind_returned.
    split; [done|]. by constructor.
  - destruct r as [|s r]; [by intros [? _]|]. intros [[= -> ->] [Hs Hr]%Forall_cons]. cbn. rewrite Hs. cbn.
    rewrite (proj2 (IH r)) by done. done.
Qed.

Lemma normalize_audience_valid inbound allow_empty v r :
  normalize_audience inbound allow_empty v = Returned r ->
  Forall (fun s => valid_name s = true) r /\ (r = [] -> allow_empty = true).
Proof.
  unfold normalize_audience. intros (values & _ & H)%obind_returned. destruct values as [|v' values].
  - destruct allow_empty; [|done]. injection H as <-. done.
  - apply validate_strings_returned in H as [E Hr]. split; [done|]. by intros ->.
Qed.

Lemma normalize_audience_strings inbound allow_empty l :
  Forall (fun s => valid_name s = true) l -> (l = [] -> allow_empty = true) ->
  normalize_audience inbound allow_empty (strings_object l) = Returned l /\
  normalize_audience inbound allow_empty (OList None (OStr <$> l)) = Returned l.
Proof.
  intros Hl He. unfold normalize_audience, strings_object. cbn [obind].
  destruct l as [|s l]; [by rewrite He|].
  by rewrite (proj2 (validate_strings_returned inbound (OStr <$> s :: l) (s :: l))).
Qed.

Lemma optional_string_valid v s : optional_string v = Returned s -> valid_option s.
Proof.
  destruct v; cbn [optional_string]; try (intros (? & [? ?]%validate_string_returned & [= <-])%obind_returned; done).
  by intros [= <-].
Qed.

Lemma optional_string_object s : valid_option s -> optional_string (string_object s) = Returned s.
Proof. destruct s as [s|]; cbn; [|done]. by intros ->. Qed.

Lemma optional_datetime_valid v t : optional_datetime v = Returned t -> valid_date t.
Proof.
  destruct v as [d|]; cbn; [|by intros [= <-]]. intros (t' & Ht & [= <-])%obind_returned. cbn.
  unfold normalize_datetime, to_utc in Ht. repeat case_match; simplify_eq. done.
Qed.

Lemma optional_datetime_utc t : valid_date t -> optional_datetime (utc_moment <$> t) = Returned t.
Proof. destruct t as [t|]; cbn; [|done]. rewrite Z.sub_0_r. by intros ->. Qed.

Lemma has_registered_names {V} (f : V -> pyobj) (l : list (pystr * V)) :
  has_registered ((fun m => (OStr m.1, f m.2)) <$> l) = false <-> unregistered l.
Proof.
  unfold has_registered, unregistered. induction l as [|m l IH]; cbn; [done|].
  rewrite Forall_cons, orb_false_iff, bool_decide_eq_false, <-IH. done.
Qed.

(** Freezing keeps the names. *)
Lemma freeze_members_registered inbound f l copied nodes vs n :
  has_registered l = false -> unregistered copied ->
  freeze_members inbound f l copied nodes = Returned (vs, n) -> unregistered vs.
Proof.
  intros Hl. revert copied nodes. induction l as [|[k a] l IH]; intros copied nodes Hc H; cbn in H.
  { by injection H as <- <-. }
  destruct k; try done. destruct (valid_name s); [|done]. apply obind_returned in H as ([v n1] & _ & H).
  cbn in Hl. apply orb_false_iff in Hl as [Hk%bool_decide_eq_false Hl]. eapply (IH Hl); [|done].
  clear - Hc Hk. unfold unregistered in *. induction copied as [|[k' v'] d IHd]; cbn; [by constructor|].
  apply Forall_cons in Hc as [H1 H2]. case_bool_decide; constructor; auto.
Qed.

Lemma freeze_custom_valid v l : freeze_custom v = Returned l -> frozen_ok (JObject l) /\ unregistered l.
Proof.
  unfold freeze_custom. destruct (mapping_items v) as [[items|e]|]; [|by destruct (is_Exception e)|done].
  destruct (has_registered items) eqn:Er; [done|]. intros (frozen & Hf & H)%obind_returned.
  destruct frozen as [| | | | | |members]; try done. injection H as <-.
  split; [by eapply freeze_json_ok|]. apply obind_returned in Hf as ([v' n] & Hf & [= ->]).
  cbn [freeze] in Hf. apply freeze_bounds in Hf as (_ & _ & Hf). cbn in Hf.
  apply obind_returned in Hf as ([vs m] & Hf & [= <- <-]). eapply freeze_members_registered; [done| |done].
  by constructor.
Qed.

Lemma freeze_custom_object mutable l :
  frozen_ok (JObject l) -> unregistered l -> freeze_custom (json_object mutable (JObject l)) = Returned l.
Proof.
  intros Hok Hr. unfold freeze_custom.
  assert (mapping_items (json_object mutable (JObject l)) =
    Some (Returned ((fun m => (OStr m.1, json_object mutable m.2)) <$> l))) as -> by (by destruct mutable).
  rewrite (proj2 (has_registered_names (json_object mutable) l) Hr).
  assert (freeze_json false (ODict None ((fun m => (OStr m.1, json_object mutable m.2)) <$> l)) = Returned (JObject l)) as ->; [|done].
  pose proof (freeze_json_new false mutable (JObject l) Hok) as Hf. destruct mutable; exact Hf.
Qed.

Lemma make_claims_valid i s a e n t j c r : make_claims i s a e n t j c = Returned r -> valid_claims r.
Proof.
  intros (? & H1%optional_string_valid & (? & H2%optional_string_valid & (? & H3%optional_string_valid & H)%obind_returned)%obind_returned)%obind_returned.
  apply obind_returned in H as (? & [H4 _]%normalize_audience_valid & H).
  apply obind_returned in H as (? & H5%optional_datetime_valid & H).
  apply obind_returned in H as (? & H6%optional_datetime_valid & H).
  apply obind_returned in H as (? & H7%optional_datetime_valid & H).
  apply obind_returned in H as (? & [H8 H9]%freeze_custom_valid & [= <-]). done.
Qed.

(** The constructor takes its own values back unchanged. *)
Lemma make_claims_again c : valid_claims c ->
  make_claims (string_object (tc_issuer c)) (string_object (tc_subject c)) (strings_object (tc_audience c))
    (utc_moment <$> tc_expires_at c) (utc_moment <$> tc_not_before c) (utc_moment <$> tc_issued_at c)
    (string_object (tc_jwt_id c)) (custom_object (tc_custom c)) = Returned c.
Proof.
  intros []. unfold make_claims. rewrite !optional_string_object by done. cbn [obind].
  rewrite (proj1 (normalize_audience_strings false true (tc_audience c) ltac:(done) ltac:(done))). cbn [obind].
  rewrite !optional_datetime_utc by done. cbn [obind]. unfold custom_object, frozen_object.
  rewrite freeze_custom_object by done. by destruct c.
Qed.

(** ** Payloads *)

(** A claim that is there, as a member. *)
Definition entry {A V} (name : pystr) (value : option A) (f : A -> V) : list (pystr * V) :=
  match value with Some a => [(name, f a)] | None => [] end.

Lemma entry_get {A V} name (value : option A) (f : A -> V) k :
  dict_get k (entry name value f) = if decide (name = k) then f <$> value else None.
Proof. destruct value; cbn; [|by destruct (decide _)]. repeat case_decide; repeat case_bool_decide; done. Qed.

Lemma entry_keys {A V} name (value : option A) (f : A -> V) k : k ∈ (entry name value f).*1 -> k = name.
Proof. destruct value; cbn; [|by intros ?%elem_of_nil]. by intros ?%list_elem_of_singleton. Qed.

Lemma set_optional_entry {A} name (value : option A) as_object f payload :
  name ∉ payload.*1 -> (forall a, value = Some a -> as_object a = Returned (f a)) ->
  set_optional name value as_object payload = Returned (payload ++ entry name value f).
Proof.
  intros Hn Ho. destruct value as [a|]; cbn; [|by rewrite app_nil_r]. rewrite (Ho a eq_refl). cbn.
  by rewrite dict_set_fresh by (by rewrite dict_has_keys, bool_decide_false).
Qed.

(** The time a date comes back as: [datetime.timestamp], cut to seconds. *)
Definition on_second (t : Z) : Z := float_floor (total_seconds t) * 1000000.

Definition representable (t : option Z) : Prop :=
  match t with
  | Some t => is_finite (total_seconds t) = true /\ in_datetime_range (on_second t) = true
  | None => True
  end.

Definition on_seconds (c : TokenClaims) : TokenClaims :=
  {| tc_issuer := tc_issuer c; tc_subject := tc_subject c; tc_audience := tc_audience c;
     tc_expires_at := on_second <$> tc_expires_at c; tc_not_before := on_second <$> tc_not_before c;
     tc_issued_at := on_second <$> tc_issued_at c; tc_jwt_id := tc_jwt_id c; tc_custom := tc_custom c |}.

Definition date_object (t : Z) : pyobj := OInt (float_floor (total_seconds t)).

Lemma numeric_date_representable t a :
  representable t -> t = Some a -> numeric_date_object a = Returned (date_object a).
Proof. intros Hr ->. destruct Hr as [Hf _]. unfold numeric_date_object, datetime_to_numeric_date. by rewrite Hf. Qed.

Definition some_audience (l : list pystr) : option (list pystr) := match l with [] => None | _ => Some l end.

Definition claim_entries (c : TokenClaims) : list (pystr * pyobj) :=
  entry (py "iss") (tc_issuer c) OStr ++ entry (py "sub") (tc_subject c) OStr ++
  entry (py "aud") (some_audience (tc_audience c)) (fun l => OList None (OStr <$> l)) ++
  entry (py "exp") (tc_expires_at c) date_object ++ entry (py "nbf") (tc_not_before c) date_object ++
  entry (py "iat") (tc_issued_at c) date_object ++ entry (py "jti") (tc_jwt_id c) OStr.

Definition custom_members (c : TokenClaims) : list (pystr * pyobj) :=
  (fun m : pystr * json => (m.1, thaw_json m.2)) <$> tc_custom c.

Lemma registered_not_custom c k : unregistered (tc_custom c) -> k ∈ REGISTERED_CLAIMS -> k ∉ (custom_members c).*1.
Proof.
  unfold unregistered, custom_members. rewrite Forall_forall. intros Hu Hk Hin.
  rewrite <-list_fmap_compose in Hin. apply list_elem_of_fmap in Hin as (m & -> & Hm). by apply (Hu m).
Qed.

Ltac not_there := rewrite ?fmap_app, ?not_elem_of_app; repeat split;
  [apply registered_not_custom; [done|by apply (bool_decide_unpack _)]|intros ?%entry_keys; discriminate..].

Lemma claims_to_payload_entries c :
  valid_claims c -> representable (tc_expires_at c) -> representable (tc_not_before c) ->
  representable (tc_issued_at c) ->
  claims_to_payload c = Returned (custom_members c ++ claim_entries c).
Proof.
  intros Hv He Hn Hi. pose proof (vc_unregistered c Hv) as Hu. unfold claims_to_payload. fold (custom_members c).
  rewrite (set_optional_entry _ _ _ OStr) by (done || not_there). cbn [obind].
  rewrite (set_optional_entry _ _ _ OStr) by (done || not_there). cbn [obind].
  match goal with |- obind ?r _ = _ => assert (r = Returned (((custom_members c ++ entry (py "iss") (tc_issuer c) OStr) ++
    entry (py "sub") (tc_subject c) OStr) ++ entry (py "aud") (some_audience (tc_audience c)) (fun l => OList None (OStr <$> l)))) as -> end.
  { destruct (tc_audience c) as [|a l]; [by rewrite app_nil_r|]. cbn [some_audience entry].
    rewrite dict_set_fresh; [done|]. rewrite dict_has_keys, bool_decide_false; [done|]. not_there. }
  cbn [obind].
  rewrite (set_optional_entry _ _ _ date_object); [|not_there|by intros a; apply numeric_date_representable]. cbn [obind].
  rewrite (set_optional_entry _ _ _ date_object); [|not_there|by intros a; apply numeric_date_representable]. cbn [obind].
  rewrite (set_optional_entry _ _ _ date_object); [|not_there|by intros a; apply numeric_date_representable]. cbn [obind].
  rewrite (set_optional_entry _ _ _ OStr) by (done || not_there). unfold claim_entries. by rewrite <-!app_assoc.
Qed.

Lemma payload_get c k :
  valid_claims c -> k ∈ REGISTERED_CLAIMS ->
  dict_get k (custom_members c ++ claim_entries c) = dict_get k (claim_entries c).
Proof.
  intros Hv Hk. rewrite dict_get_app. rewrite (proj2 (dict_get_none k (custom_members c))); [done|].
  apply registered_not_custom; [by apply vc_unregistered|done].
Qed.

Lemma named_members_names l :
  forallb (fun m : pystr * pyobj => valid_name m.1) l = true ->
  named_members ((fun m => (OStr m.1, m.2)) <$> l) = Some l.
Proof.
  induction l as [|[k a] l IH]; cbn; [done|]. intros [Hk Hl]%andb_true_iff. by rewrite Hk, IH.
Qed.

Lemma entry_names {A V} name (value : option A) (f : A -> V) :
  valid_name name = true -> forallb (fun m => valid_name m.1) (entry name value f) = true.
Proof. intros Hn. destruct value; cbn; [by rewrite Hn|done]. Qed.

Lemma custom_names c : valid_claims c -> forallb (fun m => valid_name m.1) (custom_members c) = true.
Proof.
  intros Hv. destruct (vc_custom c Hv) as (Hs & _ & _). cbn in Hs. apply andb_true_iff in Hs as [_ Hs].
  rewrite forallb_both in Hs. apply andb_true_iff in Hs as [Hs _]. unfold custom_members.
  induction (tc_custom c) as [|m l IH]; [done|]. cbn in *. apply andb_true_iff in Hs as [-> Hs]. by apply IH.
Qed.

Lemma entry_filter {A} name (value : option A) f :
  name ∈ REGISTERED_CLAIMS -> filter (fun m : pystr * pyobj => m.1 ∉ REGISTERED_CLAIMS) (entry name value f) = [].
Proof. intros Hn. destruct value; [|done]. cbn [entry]. by rewrite filter_cons_False by (cbn; tauto). Qed.

Lemma custom_filter c : valid_claims c ->
  filter (fun m : pystr * pyobj => m.1 ∉ REGISTERED_CLAIMS) (custom_members c) = custom_members c.
Proof.
  intros Hv. pose proof (vc_unregistered c Hv) as Hu. unfold custom_members, unregistered in *.
  induction (tc_custom c) as [|m l IH]; [done|]. apply Forall_cons in Hu as [Hm Hl].
  cbn [fmap list_fmap]. rewrite filter_cons_True by done. f_equal. by apply IH.
Qed.

Lemma inbound_date_entry t (l : list (pystr * pyobj)) name :
  representable t -> dict_get name l = date_object <$> t ->
  inbound_date name l = Returned (utc_moment <$> (on_second <$> t)).
Proof.
  intros Hr Hl. unfold inbound_date. rewrite Hl. destruct t as [t|]; [|done]. destruct Hr as [_ Hr].
  cbn [fmap option_fmap option_map date_object numeric_date_to_datetime].
  assert (from_timestamp (date_object t) = Some (on_second t)) as ->; [|done].
  unfold from_timestamp, date_object. cbv zeta beta iota. fold (on_second t). by rewrite Hr.
Qed.

Lemma inbound_string_entry s (l : list (pystr * pyobj)) name :
  valid_option s -> dict_get name l = OStr <$> s -> inbound_string name l = Returned (string_object s).
Proof. intros Hv Hl. unfold inbound_string. rewrite Hl. destruct s as [s|]; [|done]. cbn in *. by rewrite Hv. Qed.

Lemma on_seconds_valid c :
  valid_claims c -> representable (tc_expires_at c) -> representable (tc_not_before c) ->
  representable (tc_issued_at c) -> valid_claims (on_seconds c).
Proof.
  intros [] He Hn Hi. split; try done; cbn; [destruct (tc_expires_at c)|destruct (tc_not_before c)|destruct (tc_issued_at c)];
    try done; [apply He|apply Hn|apply Hi].
Qed.

(** The claims by name. *)
Definition claim_slots (c : TokenClaims) : list (pystr * option pyobj) :=
  [(py "iss", OStr <$> tc_issuer c); (py "sub", OStr <$> tc_subject c);
   (py "aud", (fun l => OList None (OStr <$> l)) <$> some_audience (tc_audience c));
   (py "exp", date_object <$> tc_expires_at c); (py "nbf", date_object <$> tc_not_before c);
   (py "iat", date_object <$> tc_issued_at c); (py "jti", OStr <$> tc_jwt_id c)].

Definition present (slots : list (pystr * option pyobj)) : list (pystr * pyobj) :=
  concat ((fun s => entry s.1 s.2 id) <$> slots).

Lemma claim_entries_present c : claim_entries c = present (claim_slots c).
Proof.
  assert (forall A name (v : option A) (f : A -> pyobj), entry name v f = entry name (f <$> v) id) as He
    by (intros; by destruct v).
  unfold claim_entries, present, claim_slots. cbn [fmap list_fmap concat fst snd]. rewrite app_nil_r.
  by rewrite <-!He.
Qed.

Lemma dict_get_present k slots : NoDup slots.*1 ->
  dict_get k (present slots) = match dict_get k slots with Some o => o | None => None end.
Proof.
  unfold present. induction slots as [|[name o] slots IH]; cbn [fmap list_fmap concat fst snd]; [done|].
  intros [Hn Hd]%NoDup_cons. rewrite dict_get_app, entry_get, IH by done. cbn [dict_get].
  destruct (decide (name = k)) as [->|Hne].
  - rewrite bool_decide_true by done. rewrite (proj2 (dict_get_none k slots) Hn). by destruct o.
  - by rewrite bool_decide_false.
Qed.

Lemma claim_get c k o : dict_get k (claim_slots c) = Some o -> valid_claims c ->
  dict_get k (custom_members c ++ claim_entries c) = o.
Proof.
  intros Hk Hv.
  assert (k ∈ REGISTERED_CLAIMS) as Hin.
  { apply dict_get_in in Hk. apply (list_elem_of_fmap_2 fst) in Hk. exact Hk. }
  rewrite payload_get, claim_entries_present, dict_get_present by (done || apply (bool_decide_unpack _); reflexivity).
  by rewrite Hk.
Qed.

(** A payload as the object a decoder makes of it. *)
Definition payload_object (payload : list (pystr * pyobj)) : pyobj :=
  ODict None ((fun m => (OStr m.1, m.2)) <$> payload).

Lemma frozen_custom c : valid_claims c ->
  freeze_json true (payload_object (custom_members c)) = Returned (JObject (tc_custom c)).
Proof.
  intros Hv. rewrite <-(freeze_json_new true true (JObject (tc_custom c))) by apply Hv. f_equal.
  unfold payload_object, custom_members. cbn [json_object]. by rewrite <-list_fmap_compose.
Qed.

Lemma claims_from_entries c :
  valid_claims c -> representable (tc_expires_at c) -> representable (tc_not_before c) ->
  representable (tc_issued_at c) ->
  claims_from_payload (payload_object (custom_members c ++ claim_entries c)) = Returned (on_seconds c).
Proof.
  intros Hv He Hn Hi. unfold claims_from_payload, payload_object. cbn [mapping_items].
  rewrite named_members_names.
  2: { unfold claim_entries. rewrite !forallb_app, custom_names by done. by rewrite !entry_names. }
  cbn [oget obind].
  rewrite (claim_get c (py "aud") ((fun l => OList None (OStr <$> l)) <$> some_audience (tc_audience c)) eq_refl Hv).
  assert (match (fun l => OList None (OStr <$> l)) <$> some_audience (tc_audience c) with
    | None => Returned [] | Some value => normalize_audience true false value end = Returned (tc_audience c)) as ->.
  { pose proof (vc_audience c Hv). destruct (tc_audience c) as [|a l]; [done|].
    by apply (normalize_audience_strings true false (a :: l)). }
  cbn [obind].
  rewrite (inbound_date_entry (tc_expires_at c)) by (done || by apply claim_get). cbn [obind].
  rewrite (inbound_date_entry (tc_not_before c)) by (done || by apply claim_get). cbn [obind].
  rewrite (inbound_date_entry (tc_issued_at c)) by (done || by apply claim_get). cbn [obind].
  rewrite filter_app, custom_filter by done.
  assert (filter (fun m : pystr * pyobj => m.1 ∉ REGISTERED_CLAIMS) (claim_entries c) = []) as ->.
  { unfold claim_entries. rewrite !filter_app, !entry_filter; [done|apply (bool_decide_unpack _); reflexivity..]. }
  rewrite app_nil_r. pose proof (frozen_custom c Hv) as Hf. unfold payload_object in Hf. rewrite Hf. cbn [obind].
  rewrite (inbound_string_entry (tc_issuer c)) by (by apply Hv || by apply claim_get). cbn [obind].
  rewrite (inbound_string_entry (tc_subject c)) by (by apply Hv || by apply claim_get). cbn [obind].
  rewrite (inbound_string_entry (tc_jwt_id c)) by (by apply Hv || by apply claim_get). cbn [obind].
  pose proof (make_claims_again (on_seconds c) (on_seconds_valid c Hv He Hn Hi)) as Hm. unfold custom_object in Hm.
  cbn [on_seconds tc_issuer tc_subject tc_audience tc_expires_at tc_not_before tc_issued_at tc_jwt_id tc_custom] in Hm.
  by rewrite Hm.
Qed.

(** ** Errors *)

(** Every mapping can be read: what a JSON decoder makes. *)
Fixpoint readable_object (v : pyobj) : bool :=
  match v with
  | OBrokenMapping _ => false
  | OList _ l | OTuple _ l => forallb readable_object l
  | ODict _ l | OMapping _ l => forallb (fun m : pyobj * pyobj => readable_object m.2) l
  | _ => true
  end.

Lemma freeze_items_error inbound (f : pyobj -> Z -> outcome (json * Z)) l nodes e :
  Forall (fun a => forall n e, f a n = Raised e -> e = reject_error inbound) l ->
  freeze_items f l nodes = Raised e -> e = reject_error inbound.
Proof.
  intros Hl. revert nodes. induction Hl as [|a l Ha _ IH]; intros nodes H; cbn in H; [done|].
  apply obind_raised in H as [H|([v n] & _ & H)]; [by eapply Ha|].
  apply obind_raised in H as [H|([vs m] & _ & H)]; [by eapply IH|done].
Qed.

Lemma freeze_members_error inbound (f : pyobj -> Z -> outcome (json * Z)) l copied nodes e :
  Forall (fun m : pyobj * pyobj => forall n e, f m.2 n = Raised e -> e = reject_error inbound) l ->
  freeze_members inbound f l copied nodes = Raised e -> e = reject_error inbound.
Proof.
  intros Hl. revert copied nodes. induction Hl as [|[k a] l Ha _ IH]; intros copied nodes H; cbn in H; [done|].
  destruct k; try by injection H as <-. destruct (valid_name s); [|by injection H as <-].
  apply obind_raised in H as [H|([v n] & _ & H)]; [by eapply Ha|by eapply IH].
Qed.

Lemma freeze_error inbound item : readable_object item = true ->
  forall depth active nodes e, freeze inbound depth active item nodes = Raised e -> e = reject_error inbound.
Proof.
  induction item as [item Hs|id l IH|id l IH|id l IH|id l IH] using pyobj_nested_ind; intros Hr depth active nodes e H.
  1: destruct item; try done; cbn [freeze] in H; destruct ((_ <? _) || _); try congruence; try done.
  1: by destruct (is_finite f); [|injection H as <-].
  all: cbn [freeze] in H; destruct ((_ <? _) || _); [congruence|]; destruct (is_active _ _); [congruence|];
    apply obind_raised in H as [H|([? ?] & _ & H)]; [|done]; cbn [readable_object] in Hr; rewrite forallb_forall in Hr.
  1, 2: eapply freeze_items_error; [|exact H].
  3, 4: eapply freeze_members_error; [|exact H].
  all: rewrite Forall_forall in *; intros x Hx n e' He; eapply IH; [exact Hx| |exact He];
    apply list_elem_of_In in Hx; by apply Hr.
Qed.

(** What was made of JSON can be read. *)
Lemma frozen_readable mutable v : readable_object (json_object mutable v) = true.
Proof.
  induction v as [| | | | |l IH|l IH] using json_nested_ind; cbn; try done;
    destruct mutable; cbn; induction IH as [|a l Ha _ IHl]; cbn; try done; by rewrite Ha.
Qed.

Lemma freeze_json_error inbound item e :
  readable_object item = true -> freeze_json inbound item = Raised e -> e = reject_error inbound.
Proof. intros Hr [H|([? ?] & _ & H)]%obind_raised; [by eapply freeze_error|done]. Qed.

Lemma validate_string_error inbound v e : validate_string inbound v = Raised e -> e = reject_error inbound.
Proof. destruct v; cbn; try by intros [= <-]. destruct (valid_name _); [done|]. by intros [= <-]. Qed.

Lemma normalize_audience_error inbound allow_empty v e :
  normalize_audience inbound allow_empty v = Raised e -> e = reject_error inbound.
Proof.
  intros [H|(l & _ & H)]%obind_raised; [by destruct v; simplify_eq|].
  assert (validate_strings inbound l = Raised e -> e = reject_error inbound) as Hv.
  { clear H. induction l as [|v' l IH]; [done|]. cbn.
    intros [H|(? & _ & [H|(? & _ & H)]%obind_raised)]%obind_raised; [by eapply validate_string_error|by apply IH|done]. }
  destruct l; [|by apply Hv]. by destruct allow_empty; simplify_eq.
Qed.

Lemma make_claims_error i s a e n t j c err :
  readable_object c = true ->
  (forall d, e = Some d \/ n = Some d \/ t = Some d -> forall x, normalize_datetime d = Raised x -> x = claim_error) ->
  make_claims i s a e n t j c = Raised err -> err = claim_error.
Proof.
  intros Hc Hd.
  assert (forall v x, optional_string v = Raised x -> x = claim_error) as Hs.
  { intros v x. destruct v; cbn [optional_string];
      try (intros [H|(? & _ & H)]%obind_raised; [by apply validate_string_error in H|done]). done. }
  assert (forall d x, (d = e \/ d = n \/ d = t) -> optional_datetime d = Raised x -> x = claim_error) as Ho.
  { intros [d|] x Hin; [|done]. intros [H|(? & _ & H)]%obind_raised; [|done].
    apply (Hd d); [destruct Hin as [<-|[<-|<-]]; auto|done]. }
  intros H. do 3 (apply obind_raised in H as [H|(? & _ & H)]; [by eapply Hs|]).
  apply obind_raised in H as [H|(? & _ & H)]; [by apply normalize_audience_error in H|].
  do 3 (apply obind_raised in H as [H|(? & _ & H)]; [by eapply Ho; [|exact H]; auto|]).
  apply obind_raised in H as [H|(? & _ & H)]; [|done]. unfold freeze_custom in H.
  destruct c; cbn [mapping_items] in H; try congruence; try done;
    (destruct (has_registered _); [congruence|]; apply obind_raised in H as [H|(v & _ & H)];
     [by apply freeze_json_error in H|by destruct v; simplify_eq]).
Qed.

(** ** The theorems *)

(** Freezing is bounded and stable: a value that [_freeze_json] returns is at
    most 32 containers deep, has at most 10,000 values, finite numbers and distinct
    valid names, whatever object (cyclic, shared, hostile) it was made from; and
    freezing it again, thawed or not, gives the same value. *)
Theorem freeze_json_bounded inbound item v :
  freeze_json inbound item = Returned v ->
  json_height v <= 32 /\ json_nodes v <= 10000 /\ frozen_shape v = true /\
  forall inbound', freeze_json inbound' (frozen_object v) = Returned v /\
    freeze_json inbound' (thaw_json v) = Returned v.
Proof.
  intros H%freeze_json_ok. destruct H as (Hs & Hh & Hn) eqn:E. clear E. split; [done|]. split; [done|].
  split; [done|]. intros inbound'. split; by apply freeze_json_new.
Qed.

(** Round trip: the payload made of claims is read back as the same claims,
    with every date cut to the second that [datetime.timestamp] names, when that
    second is one a [datetime] can name. *)
Theorem claims_payload_roundtrip i s a e n t j c claims :
  make_claims i s a e n t j c = Returned claims ->
  representable (tc_expires_at claims) -> representable (tc_not_before claims) ->
  representable (tc_issued_at claims) ->
  exists payload, claims_to_payload claims = Returned payload /\
    claims_from_payload (payload_object payload) = Returned (on_seconds claims).
Proof.
  intros Hv%make_claims_valid He Hn Hi. exists (custom_members claims ++ claim_entries claims).
  split; [by apply claims_to_payload_entries|by apply claims_from_entries].
Qed.

Lemma claims_from_payload_valid payload claims : claims_from_payload payload = Returned claims -> valid_claims claims.
Proof.
  unfold claims_from_payload. destruct (mapping_items payload) as [[items|e]|]; [|by destruct (is_Exception e)|done].
  intros H. do 6 (apply obind_returned in H as (? & _ & H)).
  destruct (obind _ _) as [c|e] eqn:E; [|by case_decide]. injection H as ->.
  do 3 (apply obind_returned in E as (? & _ & E)). by eapply make_claims_valid.
Qed.

Lemma claims_from_payload_error payload e :
  readable_object payload = true -> claims_from_payload payload = Raised e -> e = JWTError MalformedToken.
Proof.
  intros Hr H. unfold claims_from_payload in H.
  destruct (mapping_items payload) as [[items|x]|] eqn:Em; [|by destruct payload|by injection H as <-].
  apply obind_raised in H as [H|(copied & Hc & H)]; [by apply oget_raised in H|].
  apply obind_raised in H as [H|(audience & _ & H)].
  { destruct (dict_get _ _); [by apply normalize_audience_error in H|done]. }
  assert (forall name x, inbound_date name copied = Raised x -> x = malformed_token_error) as Hdate.
  { intros name x. unfold inbound_date. destruct (dict_get name copied) as [v|]; [|done].
    intros [Hx|(? & _ & Hx)]%obind_raised; [|done].
    destruct v; cbn in Hx; try congruence; [|destruct (is_finite _); [|congruence]]; by apply oget_raised in Hx. }
  do 3 (apply obind_raised in H as [H|(? & ? & H)]; [by eapply Hdate|]).
  apply oget_returned in Hc.
  assert (forallb (fun m : pystr * pyobj => readable_object m.2) copied = true) as Hcr.
  { assert (forallb (fun m : pyobj * pyobj => readable_object m.2) items = true) as Hi
      by (destruct payload; try done; cbn in Em, Hr; by simplify_eq).
    clear - Hc Hi. revert copied Hc. induction items as [|[k v] items IH]; intros copied Hc; cbn in Hc, Hi; [by simplify_eq|].
    apply andb_true_iff in Hi as [Hv Hi]. destruct k; try done. destruct (valid_name _); [|done].
    destruct (named_members items) as [rest|]; [|done]. cbn in Hc. simplify_eq. cbn. by rewrite Hv, (IH Hi rest). }
  apply obind_raised in H as [H|(frozen & _ & H)].
  { apply freeze_json_error in H; [done|]. cbn. apply forallb_forall. intros m Hm.
    apply list_elem_of_In, list_elem_of_fmap in Hm as (m' & -> & Hm). apply list_elem_of_filter in Hm as [_ Hm].
    rewrite forallb_forall in Hcr. apply Hcr. by apply list_elem_of_In. }
  destruct (obind _ _) as [c|err] eqn:E; [done|]. case_decide as Hx; injection H as <-; [done|].
  assert (forall name x, inbound_string name copied = Raised x -> x = malformed_token_error) as Hstr.
  { intros name y. unfold inbound_string. destruct (dict_get name copied) as [v|]; [|done].
    intros [Hy|(? & _ & Hy)]%obind_raised; [by apply validate_string_error in Hy|done]. }
  do 3 (apply obind_raised in E as [E|(? & _ & E)]; [by eapply Hstr|]).
  apply make_claims_error in E; [done| |].
  - apply (frozen_readable false).
  - intros d Hd y. assert (exists z, d = utc_moment z) as [z ->].
    { assert (forall name r, inbound_date name copied = Returned (Some r) -> exists z, r = utc_moment z) as Hu.
      { intros name r. unfold inbound_date. destruct (dict_get name copied); [|done].
        intros (z & _ & [= <-])%obind_returned. eauto. }
      destruct Hd as [->|[->| ->]]; eauto. }
    cbn. destruct (in_datetime_range _); [done|]. by intros [= <-].
Qed.

(** Whatever a decoder hands over as a payload, reading it raises nothing but
    [JWTMalformedTokenError]: no error of a claim, of a date or of the language. *)
Theorem claims_from_payload_closed payload e :
  readable_object payload = true -> claims_from_payload payload = Raised e -> e = JWTError MalformedToken.
Proof. apply claims_from_payload_error. Qed.

(** A token that never expires, as [datetime.max] says it: the [float] of its
    timestamp rounds up to the year 10000, which no [datetime] can name, so the
    payload made of the claims is refused as malformed when it is read. *)
Definition forever : TokenClaims :=
  {| tc_issuer := Some (py "issuer"); tc_subject := None; tc_audience := [py "audience"];
     tc_expires_at := Some MAX_DATETIME; tc_not_before := None; tc_issued_at := None; tc_jwt_id := None;
     tc_custom := [] |}.

Theorem latest_expiry_unreadable :
  make_claims (OStr (py "issuer")) ONone (OStr (py "audience")) (Some (utc_moment MAX_DATETIME)) None None ONone
    (ODict None []) = Returned forever /\
  exists payload, claims_to_payload forever = Returned payload /\
    claims_from_payload (payload_object payload) = Raised (JWTError MalformedToken).
Proof.
  split; [vm_compute; reflexivity|]. exists (custom_members forever ++ claim_entries forever).
  split; vm_compute; reflexivity.
Qed.

(** ** At concrete inputs *)

Definition demo_custom : json := JObject [(py "scope", JArray [JString (py "read"); JInt 7; JNull])].

Lemma freeze_json_bounded_witness :
  json_height demo_custom <= 32 /\ json_nodes demo_custom <= 10000 /\ frozen_shape demo_custom = true /\
  forall inbound', freeze_json inbound' (frozen_object demo_custom) = Returned demo_custom /\
    freeze_json inbound' (thaw_json demo_custom) = Returned demo_custom.
Proof.
  apply (freeze_json_bounded false (ODict (Some 1) [(OStr (py "scope"), OList (Some 2) [OStr (py "read"); OInt 7; ONone])])).
  vm_compute. reflexivity.
Defined.

Definition demo_claims : TokenClaims :=
  {| tc_issuer := Some (py "issuer"); tc_subject := None; tc_audience := [py "audience"];
     tc_expires_at := Some 1700003600000000; tc_not_before := None; tc_issued_at := Some 1700000000999999;
     tc_jwt_id := Some (py "id-1"); tc_custom := [(py "scope", JArray [JString (py "read"); JInt 7; JNull])] |}.

Lemma claims_payload_roundtrip_witness :
  exists payload, claims_to_payload demo_claims = Returned payload /\
    claims_from_payload (payload_object payload) = Returned (on_seconds demo_claims).
Proof.
  apply (claims_payload_roundtrip (OStr (py "issuer")) ONone (OTuple None [OStr (py "audience")])
    (Some (utc_moment 1700003600000000)) None (Some (utc_moment 1700000000999999)) (OStr (py "id-1"))
    (frozen_object demo_custom)); [vm_compute; reflexivity|split; vm_compute; reflexivity|exact I|split; vm_compute; reflexivity].
Defined.

Lemma claims_from_payload_closed_witness :
  claims_from_payload (ODict None [(OStr (py "exp"), OStr (py "soon"))]) = Raised (JWTError MalformedToken).
Proof.
  destruct (claims_from_payload (ODict None [(OStr (py "exp"), OStr (py "soon"))])) as [c|e] eqn:E.
  - exfalso. vm_compute in E. discriminate.
  - f_equal. exact (claims_from_payload_closed (ODict None [(OStr (py "exp"), OStr (py "soon"))]) e eq_refl E).
Defined.

Example seconds_kept : on_second 1700003600000000 = 1700003600000000 /\ on_second 1700000000999999 = 1700000000000000.
Proof. vm_compute. done. Qed.
