(* ===== verification/JwtKeys.v ===== *)
(** * Keys ([bluetape/jwt/_keys.py])

    The factories of [JWTKey]: the checks of the identifier, of the algorithm's
    family and of the strength of the material.  The cryptography is that of the
    library the package calls, a parameter of the model ([Jose]). *)

From S2P Require Import Prelude Python Leader PyObject Utf8 JwtClaims.
Import Jwt.
Open Scope py_scope.
Open Scope Z_scope.

Definition key_error : exn := JWTError Jwt.Key.

(** What [RSAKey.import_key] is given. *)
Inductive rsa_material : Type :=
| PemText (s : pystr)
| PemBytes (b : pybytes)
| JwkDict (members : list (pystr * pyobj)).

(** The library: keys, their import and what they show; signing and checking. *)
Class Jose (K : Type) : Type := {
  oct_import : pybytes -> outcome K;
  rsa_import : rsa_material -> option pybytes -> outcome K;
  is_rsa_key : K -> bool;
  public_key_size : K -> Z;
  is_private : K -> bool;
  public_dict : K -> outcome (list (pystr * pyobj));
  jose_encode : list (pystr * pystr) -> list (pystr * pyobj) -> K -> JWSAlgorithm -> list pystr -> outcome pystr;
  jose_decode : pystr -> K -> JWSAlgorithm -> list pystr -> outcome (pyobj * pyobj);
}.

(** ** Identifiers and algorithms *)

Definition valid_kid (kid : pystr) : bool :=
  match utf8_encode kid with
  | Some encoded => valid_name kid && (Z.of_nat (length encoded) <=? 128)
  | None => false
  end.

Definition validate_kid (kid : pyobj) : outcome pystr :=
  match kid with
  | OStr s => if valid_kid s then Returned s else Raised key_error
  | _ => Raised key_error
  end.

Definition validate_algorithm (algorithm : arg JWSAlgorithm) (family : AlgorithmFamily) : outcome JWSAlgorithm :=
  match algorithm with
  | Exact a =>
      match algorithm_family a, family with
      | HMAC, HMAC | RSA, RSA => Returned a
      | _, _ => Raised key_error
      end
  | AnotherClass => Raised key_error
  end.

(** ** JWK metadata *)

(** A member that is there is this very string. *)
Definition check_member (name expected : pystr) (jwk : list (pystr * pyobj)) : outcome unit :=
  match dict_get name jwk with
  | None => Returned tt
  | Some (OStr s) => orequire (bool_decide (s = expected)) key_error
  | Some _ => Raised key_error
  end.

Fixpoint all_strings (l : list pyobj) : option (list pystr) :=
  match l with
  | [] => Some []
  | OStr s :: rest => cons s <$> all_strings rest
  | _ :: _ => None
  end.

Definition validate_jwk_metadata (jwk : list (pystr * pyobj)) (kid : pystr) (algorithm : JWSAlgorithm)
    (private : bool) : outcome unit :=
  let? _ := check_member (py "kty") (py "RSA") jwk in
  let? _ := check_member (py "kid") kid jwk in
  let? _ := check_member (py "alg") (algorithm_value algorithm) jwk in
  let? _ := check_member (py "use") (py "sig") jwk in
  match dict_get (py "key_ops") jwk with
  | None => Returned tt
  | Some (OList _ operations) =>
      let? operations := oget (all_strings operations) key_error in
      let? _ := orequire (bool_decide (NoDup operations)) key_error in
      let expected : gset pystr := if private then {[py "sign"; py "verify"]} else {[py "verify"]} in
      orequire (bool_decide (list_to_set operations = expected)) key_error
  | Some _ => Raised key_error
  end.

(** The material a caller hands over. *)
Inductive key_material : Type :=
| MText (s : pystr)
| MBytes (b : pybytes)
| MObject (v : pyobj).

Fixpoint string_members (items : list (pyobj * pyobj)) : option (list (pystr * pyobj)) :=
  match items with
  | [] => Some []
  | (OStr name, value) :: rest => cons (name, value) <$> string_members rest
  | _ :: _ => None
  end.

Definition copy_rsa_material (material : key_material) (kid : pystr) (algorithm : JWSAlgorithm)
    (private : bool) : outcome rsa_material :=
  match material with
  | MText s | MObject (OStr s) => Returned (PemText s)
  | MBytes b => Returned (PemBytes b)
  | MObject v =>
      match mapping_items v with
      | None => Raised key_error
      | Some (Raised e) => if is_Exception e then Raised key_error else Raised e
      | Some (Returned items) =>
          let? copied := oget (string_members items) key_error in
          let? copied :=
            match dict_get (py "key_ops") copied with
            | None => Returned copied
            | Some (OList _ operations) => Returned (dict_set (py "key_ops") (OList None operations) copied)
            | Some _ => Raised key_error
            end in
          let? _ := validate_jwk_metadata copied kid algorithm private in
          Returned (JwkDict copied)
      end
  end.

(** ** Keys *)

(** Made by the factories only; the class cannot be derived from. *)
Record JWTKey (K : Type) : Type := {
  key_kid : pystr;
  key_algorithm : JWSAlgorithm;
  key_can_sign : bool;
  key_material_of : K;
}.
Arguments key_kid {K}.
Arguments key_algorithm {K}.
Arguments key_can_sign {K}.
Arguments key_material_of {K}.

Definition PRIVATE_RSA_FIELDS : list pystr :=
  [py "d"; py "p"; py "q"; py "dp"; py "dq"; py "qi"; py "oth"].

Section Keys.
Context {K : Type} `{Jose K}.

(** [try: ... except Exception: _raise_key_error()]. *)
Definition or_key_error {A} (r : outcome A) : outcome A :=
  match r with
  | Returned a => Returned a
  | Raised e => if is_Exception e then Raised key_error else Raised e
  end.

Definition import_rsa_key (material : rsa_material) (password : option pybytes) : outcome K :=
  let? key := or_key_error (rsa_import material password) in
  let? _ := orequire (2048 <=? public_key_size key) key_error in
  Returned key.

Definition new_jwt_key (kid : pystr) (algorithm : JWSAlgorithm) (can_sign : bool) (provider_key : K) : JWTKey K :=
  {| key_kid := kid; key_algorithm := algorithm; key_can_sign := can_sign; key_material_of := provider_key |}.

Definition from_hmac_secret (kid : pyobj) (algorithm : arg JWSAlgorithm) (secret : arg pybytes) :
    outcome (JWTKey K) :=
  let? kid := validate_kid kid in
  let? algorithm := validate_algorithm algorithm HMAC in
  match secret with
  | AnotherClass => Raised key_error
  | Exact secret =>
      let? _ := orequire (minimum_key_bits algorithm <=? Z.of_nat (length secret) * 8) key_error in
      let? provider_key := or_key_error (oct_import secret) in
      Returned (new_jwt_key kid algorithm true provider_key)
  end.

Definition from_rsa_private (kid : pyobj) (algorithm : arg JWSAlgorithm) (material : key_material)
    (password : option (arg pybytes)) : outcome (JWTKey K) :=
  let? kid := validate_kid kid in
  let? algorithm := validate_algorithm algorithm RSA in
  let? password :=
    match password with
    | None => Returned None
    | Some (Exact p) => Returned (Some p)
    | Some AnotherClass => Raised key_error
    end in
  let? material := copy_rsa_material material kid algorithm true in
  let? _ :=
    match material, password with
    | JwkDict _, Some _ => Raised key_error
    | _, _ => Returned tt
    end in
  let? provider_key := import_rsa_key material password in
  let? _ := orequire (is_private provider_key) key_error in
  Returned (new_jwt_key kid algorithm true provider_key).

Definition from_rsa_public (kid : pyobj) (algorithm : arg JWSAlgorithm) (material : key_material) :
    outcome (JWTKey K) :=
  let? kid := validate_kid kid in
  let? algorithm := validate_algorithm algorithm RSA in
  let? material := copy_rsa_material material kid algorithm false in
  let? provider_key := import_rsa_key material None in
  let? _ := orequire (negb (is_private provider_key)) key_error in
  Returned (new_jwt_key kid algorithm false provider_key).

(** A fresh projection; a member that is missing is the [KeyError] that is caught. *)
Definition public_jwk (key : JWTKey K) : outcome (list (pystr * pystr)) :=
  let? _ := orequire (is_rsa_key (key_material_of key)) key_error in
  let? public := or_key_error (public_dict (key_material_of key)) in
  match dict_get (py "n") public, dict_get (py "e") public with
  | Some (OStr n), Some (OStr e) =>
      let projection :=
        [(py "kty", py "RSA"); (py "kid", key_kid key); (py "alg", algorithm_value (key_algorithm key));
         (py "n", n); (py "e", e)] in
      let? _ := orequire (negb (existsb (fun m => bool_decide (m.1 ∈ PRIVATE_RSA_FIELDS)) projection)) key_error in
      Returned projection
  | _, _ => Raised key_error
  end.
End Keys.

(** ** What a factory promises *)

(** A key with an identifier, a family and material that go together. *)
Definition sound_key {K} `{Jose K} (key : JWTKey K) : Prop :=
  valid_kid (key_kid key) = true /\
  match algorithm_family (key_algorithm key) with
  | HMAC => key_can_sign key = true
  | RSA => 2048 <= public_key_size (key_material_of key) /\ key_can_sign key = is_private (key_material_of key)
  end.

Section Laws.
Context {K : Type} `{Jose K}.

Lemma validate_kid_returned v kid : validate_kid v = Returned kid <-> v = OStr kid /\ valid_kid kid = true.
Proof.
  destruct v; cbn; try by split; [|intros [? _]]. destruct (valid_kid _) eqn:E; split; try done.
  - by intros [= <-].
  - by intros [[= <-] _].
  - intros [[= <-] ?]. congruence.
Qed.

Lemma validate_algorithm_returned a family r :
  validate_algorithm a family = Returned r -> a = Exact r /\ algorithm_family r = family.
Proof. destruct a as [a|]; cbn; [|done]. by destruct (algorithm_family a) eqn:E, family; intros [= <-]. Qed.

Lemma import_rsa_key_returned m p key : import_rsa_key m p = Returned key -> 2048 <= public_key_size key.
Proof. by intros (k & _ & (u & ?%orequire_returned%Z.leb_le & [= <-])%obind_returned)%obind_returned. Qed.

(** Whatever a factory is given, the key it returns has a valid identifier, an
    algorithm of its family and material of the strength the algorithm needs. *)
Theorem factories_sound :
  (forall kid a s key, from_hmac_secret kid a s = Returned key -> sound_key key /\ algorithm_family (key_algorithm key) = HMAC) /\
  (forall kid a m p key, from_rsa_private kid a m p = Returned key ->
     sound_key key /\ algorithm_family (key_algorithm key) = RSA /\ key_can_sign key = true) /\
  (forall kid a m key, from_rsa_public kid a m = Returned key ->
     sound_key key /\ algorithm_family (key_algorithm key) = RSA /\ key_can_sign key = false).
Proof.
  unfold sound_key. split; [|split].
  - intros kid a s key (k & [-> Hk]%validate_kid_returned & (al & [-> Ha]%validate_algorithm_returned & E)%obind_returned)%obind_returned.
    destruct s; [|done]. apply obind_returned in E as (? & _ & (? & _ & [= <-])%obind_returned). cbn. by rewrite Ha.
  - intros kid a m p key (k & [-> Hk]%validate_kid_returned & (al & [-> Ha]%validate_algorithm_returned & E)%obind_returned)%obind_returned.
    do 3 (apply obind_returned in E as (? & _ & E)). apply obind_returned in E as (pk & Hi%import_rsa_key_returned & E).
    apply obind_returned in E as (? & Hp%orequire_returned & [= <-]). cbn. by rewrite Ha, Hp.
  - intros kid a m key (k & [-> Hk]%validate_kid_returned & (al & [-> Ha]%validate_algorithm_returned & E)%obind_returned)%obind_returned.
    apply obind_returned in E as (? & _ & E). apply obind_returned in E as (pk & Hi%import_rsa_key_returned & E).
    apply obind_returned in E as (? & Hp%orequire_returned & [= <-]). apply negb_true_iff in Hp. cbn. by rewrite Ha, Hp.
Qed.
End Laws.
