(* ===== verification/JwtRepository.v ===== *)
(** * The key repository ([bluetape/jwt/_repository.py])

    Keys are active, retired or revoked; the repository publishes complete
    snapshots, each with an epoch of its own.  A [dict] of entries is the list of
    its members in order.  Every operation runs under the repository's lock, as one
    step; the log records what it reported. *)

From S2P Require Import Prelude Python Leader PyObject Utf8 JwtClaims JwtKeys.
Import Jwt.
Open Scope py_scope.
Open Scope Z_scope.

Definition configuration_error : exn := JWTConfigurationError.
Definition key_state_error : exn := JWTError KeyState.

Inductive KeyStatus : Type := ACTIVE | RETIRED | REVOKED.

#[export] Instance KeyStatus_eq_dec : EqDecision KeyStatus.
Proof. solve_decision. Defined.

Definition repository_kid (kid : pyobj) : outcome pystr :=
  match kid with
  | OStr s => if valid_kid s then Returned s else Raised configuration_error
  | _ => Raised configuration_error
  end.

(** What a transition logs: the operation, and the category of its failure. *)
Inductive log_category : Type := NoError | ConfigurationCategory | KeyStateCategory.
Abbreviation log_record := (string * log_category)%type.

Definition log_failure (operation : string) (e : exn) : log_record :=
  (operation, if decide (e = configuration_error) then ConfigurationCategory else KeyStateCategory).
Definition log_success (operation : string) : log_record := (operation, NoError).

Section Repository.
Context {K : Type}.

Record KeyEntry : Type := {
  ke_status : KeyStatus;
  ke_key : option (JWTKey K);
}.

(** [KeyEntry(status, key)]. *)
Definition make_entry (status : KeyStatus) (key : option (JWTKey K)) : outcome KeyEntry :=
  let? _ :=
    match status, key with
    | REVOKED, Some _ => Raised key_state_error
    | REVOKED, None => Returned tt
    | _, None => Raised key_state_error
    | _, Some _ => Returned tt
    end in
  Returned {| ke_status := status; ke_key := key |}.

Abbreviation key_entries := (list (pystr * KeyEntry)).

Record KeySnapshot : Type := {
  ks_entries : key_entries;
  ks_epoch : Z;
}.

Definition is_active_entry (entry : KeyEntry) : bool := bool_decide (ke_status entry = ACTIVE).

Definition active_entries (entries : key_entries) : key_entries := filter (fun m => is_active_entry m.2 = true) entries.

Definition entry_fits (m : pystr * KeyEntry) : bool :=
  valid_kid m.1 && match ke_key m.2 with Some key => bool_decide (key_kid key = m.1) | None => true end.

(** [KeySnapshot(entries, epoch)]. *)
Definition make_snapshot (entries : key_entries) (epoch : Z) : outcome KeySnapshot :=
  let? _ := orequire (0 <=? epoch) configuration_error in
  let? _ := orequire (forallb entry_fits entries) configuration_error in
  let? _ := orequire (Z.of_nat (length (active_entries entries)) <=? 1) configuration_error in
  Returned {| ks_entries := entries; ks_epoch := epoch |}.

(** [snapshot.active]. *)
Definition active_entry (snapshot : KeySnapshot) : option KeyEntry :=
  snd <$> head (active_entries (ks_entries snapshot)).

(** ** The repository *)

Record Repository : Type := {
  rp_algorithm : option JWSAlgorithm;
  rp_snapshot : KeySnapshot;
  rp_log : list log_record;
}.

(** The verification keys of the constructor, in turn. *)
Fixpoint install_keys (keys : list (arg (JWTKey K))) (algorithm : option JWSAlgorithm) (entries : key_entries) :
    outcome (option JWSAlgorithm * key_entries) :=
  match keys with
  | [] => Returned (algorithm, entries)
  | candidate :: rest =>
      match candidate with
      | AnotherClass => Raised configuration_error
      | Exact key =>
          let? _ := orequire (negb (dict_has (key_kid key) entries)) key_state_error in
          let? algorithm :=
            match algorithm with
            | None => Returned (Some (key_algorithm key))
            | Some a =>
                let? _ := orequire (bool_decide (key_algorithm key = a)) configuration_error in Returned (Some a)
            end in
          let? entry := make_entry RETIRED (Some key) in
          install_keys rest algorithm (dict_set (key_kid key) entry entries)
      end
  end.

(** [InMemoryKeyRepository(active=..., verification_keys=...)]. *)
Definition make_repository (active : option (arg (JWTKey K)))
    (verification_keys : outcome (list (arg (JWTKey K)))) : outcome Repository :=
  let? (algorithm, entries) :=
    match active with
    | None => Returned (None, [])
    | Some AnotherClass => Raised configuration_error
    | Some (Exact key) =>
        let? _ := orequire (key_can_sign key) key_state_error in
        let? entry := make_entry ACTIVE (Some key) in
        Returned (Some (key_algorithm key), [(key_kid key, entry)])
    end in
  let? candidates :=
    match verification_keys with
    | Returned keys => Returned keys
    | Raised e => if is_Exception e then Raised configuration_error else Raised e
    end in
  let? (algorithm, entries) := install_keys candidates algorithm entries in
  let? snapshot := make_snapshot entries 0 in
  Returned {| rp_algorithm := algorithm; rp_snapshot := snapshot; rp_log := [] |}.

(** The entries with the active one retired. *)
Fixpoint retire_active (entries : key_entries) : outcome key_entries :=
  match entries with
  | [] => Returned []
  | (kid, entry) :: rest =>
      let? entry := if is_active_entry entry then make_entry RETIRED (ke_key entry) else Returned entry in
      let? rest := retire_active rest in
      Returned ((kid, entry) :: rest)
  end.

Definition publish (r : Repository) (algorithm : option JWSAlgorithm) (entries : key_entries) : outcome Repository :=
  let? published := make_snapshot entries (ks_epoch (rp_snapshot r) + 1) in
  Returned {| rp_algorithm := algorithm; rp_snapshot := published; rp_log := rp_log r |}.

(** [_mutate_key], under the lock. *)
Definition install_key (r : Repository) (candidate : arg (JWTKey K)) (active : bool) : outcome Repository :=
  match candidate with
  | AnotherClass => Raised configuration_error
  | Exact key =>
      let? _ := orequire (negb active || key_can_sign key) key_state_error in
      let? _ := orequire (negb (dict_has (key_kid key) (ks_entries (rp_snapshot r)))) key_state_error in
      let? _ :=
        match rp_algorithm r with
        | Some a => orequire (bool_decide (key_algorithm key = a)) configuration_error
        | None => Returned tt
        end in
      let? entries :=
        if active then retire_active (ks_entries (rp_snapshot r)) else Returned (ks_entries (rp_snapshot r)) in
      let? entry := make_entry (if active then ACTIVE else RETIRED) (Some key) in
      publish r (match rp_algorithm r with Some a => Some a | None => Some (key_algorithm key) end)
        (dict_set (key_kid key) entry entries)
  end.

(** [_mutate_identifier], under the lock. *)
Definition change_entry (r : Repository) (candidate : pyobj) (retire : bool) : outcome Repository :=
  let? kid := repository_kid candidate in
  match dict_get kid (ks_entries (rp_snapshot r)) with
  | None => Raised key_state_error
  | Some entry =>
      let? replacement :=
        if retire then
          let? _ := orequire (is_active_entry entry) key_state_error in make_entry RETIRED (ke_key entry)
        else
          let? _ := orequire (negb (bool_decide (ke_status entry = REVOKED))) key_state_error in
          make_entry REVOKED None in
      publish r (rp_algorithm r) (dict_set kid replacement (ks_entries (rp_snapshot r)))
  end.

Inductive operation : Type :=
| AddVerificationKey (key : arg (JWTKey K))
| Rotate (key : arg (JWTKey K))
| Retire (kid : pyobj)
| Revoke (kid : pyobj).

Definition operation_name (op : operation) : string :=
  match op with
  | AddVerificationKey _ => "add_verification_key"
  | Rotate _ => "rotate"
  | Retire _ => "retire"
  | Revoke _ => "revoke"
  end.

Definition section (op : operation) (r : Repository) : outcome Repository :=
  match op with
  | AddVerificationKey key => install_key r key false
  | Rotate key => install_key r key true
  | Retire kid => change_entry r kid true
  | Revoke kid => change_entry r kid false
  end.

Definition add_log (record : log_record) (r : Repository) : Repository :=
  {| rp_algorithm := rp_algorithm r; rp_snapshot := rp_snapshot r; rp_log := rp_log r ++ [record] |}.

(** One call: the section, then its record, then the result. *)
Definition call (op : operation) (r : Repository) : outcome KeySnapshot * Repository :=
  match section op r with
  | Returned r' => (Returned (rp_snapshot r'), add_log (log_success (operation_name op)) r')
  | Raised e => (Raised e, add_log (log_failure (operation_name op) e) r)
  end.

Definition add_verification_key (key : arg (JWTKey K)) := call (AddVerificationKey key).
Definition rotate (key : arg (JWTKey K)) := call (Rotate key).
Definition retire (kid : pyobj) := call (Retire kid).
Definition revoke (kid : pyobj) := call (Revoke kid).
End Repository.
Arguments KeyEntry : clear implicits.
Arguments KeySnapshot : clear implicits.
Arguments Repository : clear implicits.
Arguments operation : clear implicits.
