(* ===== verification/JwtRepositoryLaws.v ===== *)
(** * The key repository: its invariant, its epochs and revocation *)

From S2P Require Import Prelude Python Leader PyObject Utf8 JwtClaims JwtKeys JwtRepository.
Import Jwt.
Open Scope py_scope.
Open Scope Z_scope.

Section Laws.
Context {K : Type}.

Implicit Types (r : Repository K) (key : JWTKey K) (entries : list (pystr * KeyEntry K)).

(** An entry as its status says: a tombstone without a key, an active key that signs. *)
Definition entry_ok (entry : KeyEntry K) : Prop :=
  match ke_status entry, ke_key entry with
  | REVOKED, None => True
  | ACTIVE, Some key => key_can_sign key = true
  | RETIRED, Some _ => True
  | _, _ => False
  end.

Record valid_entries (algorithm : option JWSAlgorithm) entries : Prop := {
  ve_distinct : NoDup entries.*1;
  ve_fits : forallb entry_fits entries = true;
  ve_one_active : (length (active_entries entries) <= 1)%nat;
  ve_ok : Forall (fun m => entry_ok m.2) entries;
  ve_algorithm : Forall (fun m => forall key, ke_key m.2 = Some key -> algorithm = Some (key_algorithm key)) entries;
}.

Record valid_repository r : Prop := {
  vr_epoch : 0 <= ks_epoch (rp_snapshot r);
  vr_entries : valid_entries (rp_algorithm r) (ks_entries (rp_snapshot r));
}.

(** ** Entries *)

#[local] Arguments active_entries : simpl never.

Lemma active_entries_nil : active_entries [] = ([] : list (pystr * KeyEntry K)).
Proof. reflexivity. Qed.

Lemma active_entries_cons m entries :
  active_entries (m :: entries) =
  if is_active_entry m.2 then m :: active_entries entries else active_entries entries.
Proof.
  unfold active_entries. destruct (is_active_entry m.2) eqn:E; [by rewrite filter_cons_True|].
  rewrite filter_cons_False; [done|]. by rewrite E.
Qed.

Lemma make_entry_returned status (k : option (JWTKey K)) e :
  make_entry status k = Returned e -> e = {| ke_status := status; ke_key := k |}.
Proof. by intros (? & _ & [= <-])%obind_returned. Qed.

(** Retiring the active entry leaves the names, the keys and the tombstones. *)
Lemma retire_active_spec entries l :
  Forall (fun m => entry_ok m.2) entries -> retire_active entries = Returned l ->
  l.*1 = entries.*1 /\ active_entries l = [] /\
  Forall2 (fun m m' => m'.1 = m.1 /\ ke_key m'.2 = ke_key m.2 /\ entry_ok m'.2 /\
    (ke_status m.2 = REVOKED -> m'.2 = m.2)) entries l.
Proof.
  intros Ho. revert l. induction Ho as [|[kid e] entries He _ IH]; intros l H; cbn in H.
  { injection H as <-. split; [done|]. split; [done|]. constructor. }
  apply obind_returned in H as (e' & Hm & (l' & Hl & [= <-])%obind_returned).
  destruct (IH l' Hl) as (E1 & E2 & E3). cbn [fst snd] in He.
  destruct (is_active_entry e) eqn:Ea.
  - apply make_entry_returned in Hm as ->. split; [cbn; by f_equal|]. split; [by rewrite active_entries_cons|].
    constructor; [|done]. cbn. apply bool_decide_eq_true in Ea. unfold entry_ok in *. rewrite Ea in *. cbn.
    by destruct (ke_key e).
  - injection Hm as <-. split; [cbn; by f_equal|]. split; [by rewrite active_entries_cons; cbn; rewrite Ea|].
    by constructor.
Qed.

Lemma retire_active_total entries :
  Forall (fun m => entry_ok m.2) entries -> exists l, retire_active entries = Returned l.
Proof.
  induction 1 as [|[kid e] entries He _ (l & IH)]; [by exists []|]. cbn. rewrite IH. cbn [fst snd] in He.
  destruct (is_active_entry e) eqn:Ea; cbn; [|eauto].
  apply bool_decide_eq_true in Ea. unfold entry_ok in He. rewrite Ea in He.
  destruct (ke_key e); [cbn; eauto|done].
Qed.

Lemma valid_after_retire algorithm entries l :
  valid_entries algorithm entries -> retire_active entries = Returned l ->
  valid_entries algorithm l /\ active_entries l = [].
Proof.
  intros [Hd Hf Ha Ho Hal] H. destruct (retire_active_spec entries l Ho H) as (E1 & E2 & E3).
  split; [|done]. split.
  - by rewrite E1.
  - clear - E3 Hf. induction E3 as [|m m' entries l (H1 & H2 & _ & _) _ IH]; [done|]. cbn in *.
    apply andb_true_iff in Hf as [Hm Hf]. unfold entry_fits in *. by rewrite H1, H2, Hm, IH.
  - rewrite E2. cbn. lia.
  - clear - E3. induction E3 as [|m m' entries l (_ & _ & H3 & _) _ IH]; by constructor.
  - clear - E3 Hal. induction E3 as [|m m' entries l (_ & H2 & _ & _) _ IH]; [constructor|].
    apply Forall_cons in Hal as [Hm Hl]. constructor; [by rewrite H2|by apply IH].
Qed.

(** A new entry under a fresh name. *)
Lemma valid_install algorithm entries key status :
  valid_entries algorithm entries -> valid_kid (key_kid key) = true -> dict_has (key_kid key) entries = false ->
  match algorithm with Some a => key_algorithm key = a | None => True end ->
  status <> REVOKED -> (status = ACTIVE -> key_can_sign key = true /\ active_entries entries = []) ->
  valid_entries (match algorithm with Some a => Some a | None => Some (key_algorithm key) end)
    (dict_set (key_kid key) {| ke_status := status; ke_key := Some key |} entries).
Proof.
  intros [Hd Hf Ha Ho Hal] Hk Hn Hal' Hr Hact. rewrite dict_set_fresh by done. split.
  - rewrite fmap_app, NoDup_app. split; [done|]. split; [|apply NoDup_singleton].
    rewrite dict_has_keys in Hn. apply bool_decide_eq_false in Hn. set_solver.
  - rewrite forallb_app, Hf. cbn. unfold entry_fits. cbn. by rewrite Hk, bool_decide_true.
  - unfold active_entries in *. rewrite filter_app, length_app. destruct (decide (status = ACTIVE)) as [->|Hs].
    + destruct (Hact eq_refl) as [_ ->]. rewrite filter_cons_True by done. cbn. lia.
    + rewrite filter_cons_False; [cbn; lia|]. cbn. unfold is_active_entry. cbn. by rewrite bool_decide_false.
  - apply Forall_app. split; [done|]. repeat constructor. cbn.
    destruct status; try done. by apply Hact.
  - apply Forall_app. split.
    + eapply Forall_impl; [exact Hal|]. intros m Hm k Hkey. rewrite (Hm k Hkey). done.
    + repeat constructor. cbn. intros k [= <-]. destruct algorithm as [a|]; [by subst|done].
Qed.

(** An entry that takes the place of another, without becoming active. *)
Lemma valid_replace algorithm entries kid old new :
  valid_entries algorithm entries -> dict_get kid entries = Some old -> is_active_entry new = false ->
  entry_ok new -> (forall key, ke_key new = Some key -> ke_key old = Some key) ->
  valid_entries algorithm (dict_set kid new entries).
Proof.
  intros [Hd Hf Ha Ho Hal] Hg Hn Hok Hkey. split.
  - assert ((dict_set kid new entries).*1 = entries.*1) as ->; [|done]. clear - Hg.
    induction entries as [|[k e] entries IH]; cbn in *; [done|]. case_bool_decide; cbn; [by subst|]. f_equal. auto.
  - clear - Hf Hg Hkey. induction entries as [|[k e] entries IH]; cbn in *; [done|].
    apply andb_true_iff in Hf as [He Hf]. case_bool_decide; cbn; [|rewrite He; by apply IH].
    subst. simplify_eq. rewrite Hf, andb_true_r. unfold entry_fits in *. cbn in *.
    apply andb_true_iff in He as [-> He]. destruct (ke_key new) as [key|]; [|done]. by rewrite (Hkey key eq_refl) in He.
  - clear - Ha Hn. induction entries as [|[k e] entries IH]; cbn in *.
    { rewrite active_entries_cons. cbn [snd]. rewrite Hn, active_entries_nil. cbn. lia. }
    rewrite active_entries_cons in Ha. cbn in Ha. case_bool_decide; rewrite active_entries_cons; cbn.
    + rewrite Hn. destruct (is_active_entry e); cbn in Ha; lia.
    + destruct (is_active_entry e); cbn in *; [|by apply IH].
      assert (length (active_entries entries) = 0)%nat as H0 by lia.
      assert (active_entries (dict_set kid new entries) = []) as ->; [|cbn; lia].
      apply nil_length_inv in H0. clear IH Ha. induction entries as [|[k' e'] entries IH]; cbn.
      { by rewrite active_entries_cons; cbn [snd]; rewrite Hn. }
      rewrite active_entries_cons in H0. cbn in H0. destruct (is_active_entry e') eqn:Ee; [done|].
      case_bool_decide; rewrite active_entries_cons; cbn; [by rewrite Hn|]. rewrite Ee. by apply IH.
  - clear - Ho Hok. induction entries as [|[k e] entries IH]; cbn; [by repeat constructor|].
    apply Forall_cons in Ho as [H1 H2]. case_bool_decide; constructor; auto.
  - clear - Hal Hg Hkey. induction entries as [|[k e] entries IH]; cbn in *; [done|].
    apply Forall_cons in Hal as [H1 H2]. case_bool_decide; constructor; auto. cbn in *. simplify_eq. auto.
Qed.

(** ** Operations *)

(** The checks of the snapshot never refuse valid entries. *)
Lemma publish_valid r algorithm entries :
  0 <= ks_epoch (rp_snapshot r) -> valid_entries algorithm entries ->
  publish r algorithm entries =
    Returned {| rp_algorithm := algorithm;
                rp_snapshot := {| ks_entries := entries; ks_epoch := ks_epoch (rp_snapshot r) + 1 |};
                rp_log := rp_log r |}.
Proof.
  intros He [_ Hf Ha _ _]. unfold publish, make_snapshot, orequire.
  rewrite (proj2 (Z.leb_le _ _)) by lia. rewrite Hf. cbn. by rewrite (proj2 (Z.leb_le _ _)) by lia.
Qed.

(** The keys that come in are made by the factories. *)
Definition fit_operation (op : operation K) : Prop :=
  match op with
  | AddVerificationKey (Exact key) | Rotate (Exact key) => valid_kid (key_kid key) = true
  | _ => True
  end.

Definition next_epoch r r' : Prop := ks_epoch (rp_snapshot r') = ks_epoch (rp_snapshot r) + 1.

(** A tombstone stays where it is, and so does its emptiness. *)
Definition tombstones_kept r r' : Prop := forall kid e,
  dict_get kid (ks_entries (rp_snapshot r)) = Some e -> ke_status e = REVOKED ->
  dict_get kid (ks_entries (rp_snapshot r')) = Some e.

Definition section_result r (o : outcome (Repository K)) : Prop :=
  match o with
  | Returned r' => valid_repository r' /\ next_epoch r r' /\ tombstones_kept r r' /\ rp_log r' = rp_log r
  | Raised e => e = configuration_error \/ e = key_state_error
  end.

Lemma retire_active_get entries l kid e :
  Forall (fun m => entry_ok m.2) entries -> retire_active entries = Returned l ->
  dict_get kid entries = Some e -> ke_status e = REVOKED -> dict_get kid l = Some e.
Proof.
  intros Ho H Hg Hs. destruct (retire_active_spec entries l Ho H) as (_ & _ & E). clear - E Hg Hs.
  induction E as [|[k a] [k' a'] entries l (H1 & _ & _ & H4) _ IH]; cbn in *; [done|]. subst.
  case_bool_decide; [simplify_eq; by rewrite H4|auto].
Qed.

Lemma install_key_result r candidate active :
  valid_repository r -> (forall key, candidate = Exact key -> valid_kid (key_kid key) = true) ->
  section_result r (install_key r candidate active).
Proof.
  intros [He Hv] Hk. unfold install_key. destruct candidate as [key|]; [|by left]. specialize (Hk key eq_refl).
  destruct (negb active || key_can_sign key) eqn:Ec; [|by right]. cbn [orequire obind].
  destruct (dict_has (key_kid key) _) eqn:Eh; [by right|]. cbn [negb orequire obind].
  destruct (match rp_algorithm r with Some a => orequire (bool_decide (key_algorithm key = a)) configuration_error | None => Returned tt end)
    as [[]|e] eqn:Ea; cbn [obind].
  2: { left. destruct (rp_algorithm r); [by apply orequire_raised in Ea|done]. }
  assert (match rp_algorithm r with Some a => key_algorithm key = a | None => True end) as Hal.
  { destruct (rp_algorithm r); [|done]. apply orequire_returned in Ea. by apply bool_decide_eq_true in Ea. }
  assert (exists l, (if active then retire_active (ks_entries (rp_snapshot r)) else Returned (ks_entries (rp_snapshot r))) = Returned l /\
    valid_entries (rp_algorithm r) l /\ (active = true -> active_entries l = []) /\ dict_has (key_kid key) l = false /\
    forall kid e, dict_get kid (ks_entries (rp_snapshot r)) = Some e -> ke_status e = REVOKED -> dict_get kid l = Some e)
    as (l & -> & Hl & Hact & Hn & Htomb).
  { destruct active; [|by eexists].
    destruct (retire_active_total _ (ve_ok _ _ Hv)) as (l & El). exists l.
    destruct (valid_after_retire _ _ _ Hv El) as [H1 H2].
    destruct (retire_active_spec _ _ (ve_ok _ _ Hv) El) as (E1 & _). split; [done|]. split; [done|]. split; [done|].
    split; [by rewrite dict_has_keys, E1, <-dict_has_keys|].
    intros kid e. apply (retire_active_get _ _ _ _ (ve_ok _ _ Hv) El). }
  cbn [obind].
  assert (make_entry (if active then ACTIVE else RETIRED) (Some key) =
    Returned {| ke_status := if active then ACTIVE else RETIRED; ke_key := Some key |}) as -> by (by destruct active).
  cbn [obind].
  assert (valid_entries (match rp_algorithm r with Some a => Some a | None => Some (key_algorithm key) end)
    (dict_set (key_kid key) {| ke_status := if active then ACTIVE else RETIRED; ke_key := Some key |} l)) as Hnew.
  { apply valid_install; try done; [by destruct active|]. destruct active; [|done]. intros _. split; [done|by apply Hact]. }
  rewrite publish_valid by done. split; [split; [cbn; lia|done]|]. split; [done|]. split; [|done].
  intros kid e Hg Hs. cbn. rewrite dict_get_set, bool_decide_false; [by apply Htomb|]. intros <-.
  unfold dict_has in Eh. by rewrite Hg in Eh.
Qed.

Lemma change_entry_result r candidate retire :
  valid_repository r -> section_result r (change_entry r candidate retire).
Proof.
  intros [He Hv]. unfold change_entry.
  destruct (repository_kid candidate) as [kid|e] eqn:Ek; cbn [obind].
  2: { left. destruct candidate; cbn in Ek; try congruence. destruct (valid_kid s); congruence. }
  destruct (dict_get kid (ks_entries (rp_snapshot r))) as [entry|] eqn:Eg; [|by right].
  assert (entry_ok entry) as Hok.
  { apply dict_get_in in Eg. pose proof (ve_ok _ _ Hv) as Ho. rewrite Forall_forall in Ho. by apply (Ho _ Eg). }
  assert (forall new, is_active_entry new = false -> entry_ok new -> ke_status entry <> REVOKED ->
    (forall key, ke_key new = Some key -> ke_key entry = Some key) ->
    section_result r (publish r (rp_algorithm r) (dict_set kid new (ks_entries (rp_snapshot r))))) as Hgo.
  { intros new Hn Hnew Hs Hkey. rewrite publish_valid; [|done|by eapply valid_replace].
    split; [split; [cbn; lia|by eapply valid_replace]|]. split; [done|]. split; [|done].
    intros kid' e Hg Hs'. cbn. rewrite dict_get_set, bool_decide_false; [done|]. intros <-. congruence. }
  destruct retire.
  - destruct (is_active_entry entry) eqn:Ea; [|by right]. cbn [orequire obind]. apply bool_decide_eq_true in Ea.
    unfold entry_ok in Hok. rewrite Ea in Hok. destruct (ke_key entry) as [key|] eqn:Eke; [|done]. cbn [make_entry obind].
    apply Hgo; try done. by rewrite Ea.
  - destruct (bool_decide (ke_status entry = REVOKED)) eqn:Er; [by right|]. cbn [negb orequire obind make_entry].
    apply bool_decide_eq_false in Er. by apply Hgo.
Qed.

Lemma section_ok op r : valid_repository r -> fit_operation op -> section_result r (section op r).
Proof.
  intros Hr Hf. destruct op as [c|c|c|c]; cbn [section].
  - apply install_key_result; [done|]. by intros key ->.
  - apply install_key_result; [done|]. by intros key ->.
  - by apply change_entry_result.
  - by apply change_entry_result.
Qed.

(** ** Reachable repositories *)

(** A call of one of the operations, with a key the factories made. *)
Definition repository_step r r' : Prop := exists op, fit_operation op /\ r' = snd (call op r).

Lemma valid_log record r : valid_repository r -> valid_repository (add_log record r).
Proof. by intros []. Qed.

Lemma step_valid r r' : repository_step r r' -> valid_repository r ->
  valid_repository r' /\ tombstones_kept r r' /\
  (rp_snapshot r' = rp_snapshot r \/ ks_epoch (rp_snapshot r) < ks_epoch (rp_snapshot r')).
Proof.
  intros (op & Hop & ->) Hr. pose proof (section_ok op r Hr Hop) as Hs. unfold call.
  destruct (section op r) as [r1|e]; cbn [snd].
  - destruct Hs as (Hv & Hn & Ht & _). split; [by apply valid_log|]. split; [done|]. right. unfold next_epoch in Hn. cbn. lia.
  - split; [by apply valid_log|]. split; [by intros kid e' H _|]. by left.
Qed.

Lemma steps_valid r r' : rtc repository_step r r' -> valid_repository r ->
  valid_repository r' /\ tombstones_kept r r' /\ ks_epoch (rp_snapshot r) <= ks_epoch (rp_snapshot r').
Proof.
  induction 1 as [r|r1 r2 r3 Hstep _ IH]; intros Hr.
  - split; [done|]. split; [by intros kid e H _|lia].
  - destruct (step_valid _ _ Hstep Hr) as (H2 & Ht & He). destruct (IH H2) as (H3 & Ht' & He').
    split; [done|]. split; [intros kid e Hg Hs; apply Ht'; [by apply Ht|done]|].
    destruct He as [He|He]; [rewrite <-He; lia|lia].
Qed.

Lemma install_keys_valid keys algorithm entries a l :
  Forall (fun c => forall key, c = Exact key -> valid_kid (key_kid key) = true) keys ->
  valid_entries algorithm entries -> install_keys keys algorithm entries = Returned (a, l) -> valid_entries a l.
Proof.
  intros Hk. revert algorithm entries. induction Hk as [|c keys Hc _ IH]; intros algorithm entries Hv H; cbn in H.
  { by injection H as <- <-. }
  destruct c as [key|]; [|done]. apply obind_returned in H as (? & Hn%orequire_returned & H).
  apply negb_true_iff in Hn. apply obind_returned in H as (a' & Ha & H).
  apply (IH _ _) in H; [done|].
  assert (a' = match algorithm with Some a => Some a | None => Some (key_algorithm key) end /\
    match algorithm with Some a => key_algorithm key = a | None => True end) as [-> Hal].
  { destruct algorithm as [b|]; [|by injection Ha as <-].
    apply obind_returned in Ha as (? & Ho%orequire_returned & [= <-]). by apply bool_decide_eq_true in Ho. }
  apply valid_install; try done. by apply Hc.
Qed.

Lemma make_repository_valid active keys r :
  (forall key, active = Some (Exact key) -> valid_kid (key_kid key) = true) ->
  (forall l, keys = Returned l -> Forall (fun c => forall key, c = Exact key -> valid_kid (key_kid key) = true) l) ->
  make_repository active keys = Returned r -> valid_repository r.
Proof.
  intros Ha Hk H. unfold make_repository in H.
  apply obind_returned in H as ([a entries] & Hact & H). apply obind_returned in H as (l & Hl & H).
  apply obind_returned in H as ([a' entries'] & Hin & H).
  apply obind_returned in H as (s & Hs & [= <-]).
  assert (valid_entries a entries) as Hv.
  { assert (forall a, valid_entries a []) as Hempty 
      by (intros; split; [apply NoDup_nil_2|done|rewrite active_entries_nil; cbn; lia|constructor|constructor]).
    destruct active as [[key|]|]; [|done|by injection Hact as <- <-].
    apply obind_returned in Hact as (? & Hsign%orequire_returned & (e & ->%make_entry_returned & [= <- <-])%obind_returned).
    apply (valid_install None [] key ACTIVE); try done. by apply Ha. }
  assert (valid_entries a' entries') as Hv'.
  { eapply install_keys_valid; [|exact Hv|exact Hin]. apply Hk. destruct keys as [l'|e]; [by injection Hl as ->|].
    by destruct (is_Exception e). }
  apply obind_returned in Hs as (? & _ & (? & _ & (? & _ & [= <-])%obind_returned)%obind_returned). by split.
Qed.
(** ** What the operations leave *)

Lemma active_entry_signs algorithm s :
  valid_entries algorithm (ks_entries s) -> forall e, active_entry s = Some e ->
  exists key, ke_key e = Some key /\ key_can_sign key = true /\ algorithm = Some (key_algorithm key).
Proof.
  intros Hv e He. unfold active_entry in He. destruct (active_entries (ks_entries s)) as [|[kid e'] l] eqn:E; [done|].
  cbn in He. injection He as ->.
  assert ((kid, e) ∈ active_entries (ks_entries s)) as Hin by (rewrite E; by left).
  apply list_elem_of_filter in Hin as [Ha Hin]. apply bool_decide_eq_true in Ha. cbn in Ha.
  pose proof (ve_ok _ _ Hv) as Ho. rewrite Forall_forall in Ho. specialize (Ho _ Hin). cbn in Ho.
  pose proof (ve_algorithm _ _ Hv) as Hal. rewrite Forall_forall in Hal. specialize (Hal _ Hin). cbn in Hal.
  unfold entry_ok in Ho. rewrite Ha in Ho. destruct (ke_key e) as [key|]; [|done]. eauto.
Qed.

Lemma published r algorithm entries r' : publish r algorithm entries = Returned r' ->
  rp_snapshot r' = {| ks_entries := entries; ks_epoch := ks_epoch (rp_snapshot r) + 1 |}.
Proof.
  intros (s & Hs & [= <-])%obind_returned.
  by apply obind_returned in Hs as (? & _ & (? & _ & (? & _ & [= <-])%obind_returned)%obind_returned).
Qed.

Lemma revoked_entry r kid r' : change_entry r (OStr kid) false = Returned r' ->
  dict_get kid (ks_entries (rp_snapshot r')) = Some {| ke_status := REVOKED; ke_key := None |}.
Proof.
  intros (k & Hk & H)%obind_returned. cbn in Hk. destruct (valid_kid kid); [|done]. injection Hk as <-.
  destruct (dict_get kid _); [|done].
  apply obind_returned in H as (e & (? & _ & [= <-])%obind_returned & ->%published). cbn.
  by rewrite dict_get_set, bool_decide_true.
Qed.

Lemma rotated r key r' : install_key r (Exact key) true = Returned r' ->
  exists l, dict_has (key_kid key) (ks_entries (rp_snapshot r)) = false /\
    retire_active (ks_entries (rp_snapshot r)) = Returned l /\
    rp_snapshot r' = {| ks_entries := dict_set (key_kid key) {| ke_status := ACTIVE; ke_key := Some key |} l;
                        ks_epoch := ks_epoch (rp_snapshot r) + 1 |}.
Proof.
  intros (? & _ & (? & Hn%orequire_returned & (? & _ & (l & Hl & (e & ->%make_entry_returned & ->%published)%obind_returned)%obind_returned)%obind_returned)%obind_returned)%obind_returned.
  exists l. split; [by apply negb_true_iff|done].
Qed.

Lemma retire_active_lookup entries l : retire_active entries = Returned l ->
  forall kid e, dict_get kid entries = Some e ->
  dict_get kid l = Some (if is_active_entry e then {| ke_status := RETIRED; ke_key := ke_key e |} else e).
Proof.
  revert l. induction entries as [|[k a] entries IH]; intros l H kid e Hg; [done|]. cbn in H, Hg.
  apply obind_returned in H as (a' & Ha & (l' & Hl & [= <-])%obind_returned). cbn.
  case_bool_decide; [|by apply IH]. injection Hg as ->. f_equal. destruct (is_active_entry e).
  - by apply make_entry_returned in Ha.
  - by injection Ha.
Qed.

(** ** Runs *)

(** The states of one repository in time. *)
Definition repository_run (f : nat -> Repository K) : Prop :=
  valid_repository (f 0%nat) /\ forall n, f (S n) = f n \/ repository_step (f n) (f (S n)).

Lemma run_step f n m : repository_run f -> (n <= m)%nat -> rtc repository_step (f n) (f m).
Proof.
  intros [_ Hs] Hle. induction Hle as [|m _ IH]; [apply rtc_refl|].
  destruct (Hs m) as [->|H]; [done|]. by eapply rtc_r.
Qed.

Lemma run_valid f n : repository_run f -> valid_repository (f n).
Proof. intros Hf. destruct (steps_valid _ _ (run_step f 0 n Hf ltac:(lia)) (proj1 Hf)) as (? & _). done. Qed.

(** As long as the epoch stays, so does the snapshot. *)
Lemma steps_same_epoch r r' : rtc repository_step r r' -> valid_repository r ->
  ks_epoch (rp_snapshot r) = ks_epoch (rp_snapshot r') -> rp_snapshot r = rp_snapshot r'.
Proof.
  induction 1 as [|r1 r2 r3 Hstep Hsteps IH]; intros Hr E; [done|].
  destruct (step_valid _ _ Hstep Hr) as (H2 & _ & Hs). destruct (steps_valid _ _ Hsteps H2) as (_ & _ & Hle).
  destruct Hs as [Hs|Hs]; [|lia]. rewrite <-Hs. apply IH; [done|]. by rewrite Hs.
Qed.

Lemma run_epoch f n m : repository_run f ->
  ks_epoch (rp_snapshot (f n)) = ks_epoch (rp_snapshot (f m)) -> rp_snapshot (f n) = rp_snapshot (f m).
Proof.
  intros Hf E. destruct (Nat.le_ge_cases n m) as [Hle|Hle].
  - apply steps_same_epoch; [by apply run_step|by apply run_valid|done].
  - symmetry. apply steps_same_epoch; [by apply run_step|by apply run_valid|done].
Qed.

(** The keys a caller may pass to the constructor: those the factories made. *)
Definition fit_key (c : arg (JWTKey K)) : Prop := forall key, c = Exact key -> valid_kid (key_kid key) = true.

(** ** The theorems *)

(** [C28] Every repository that the operations can reach from a constructed one is
    well formed: the identifiers are distinct and name their keys, at most one key is
    active and it can sign, tombstones hold no key, every key has the algorithm the
    repository is bound to, and the epoch has not gone back. *)
Theorem repository_invariant active keys r0 r :
  (forall c, active = Some c -> fit_key c) -> (forall l, keys = Returned l -> Forall fit_key l) ->
  make_repository active keys = Returned r0 -> rtc repository_step r0 r ->
  valid_entries (rp_algorithm r) (ks_entries (rp_snapshot r)) /\
  ks_epoch (rp_snapshot r0) = 0 /\ 0 <= ks_epoch (rp_snapshot r) /\
  (forall e, active_entry (rp_snapshot r) = Some e ->
     exists key, ke_key e = Some key /\ key_can_sign key = true /\ rp_algorithm r = Some (key_algorithm key)).
Proof.
  intros Ha Hk Hm Hs. assert (valid_repository r0) as H0.
  { eapply make_repository_valid; [|exact Hk|exact Hm]. intros key Hc. exact (Ha _ Hc key eq_refl). }
  destruct (steps_valid _ _ Hs H0) as (H & _ & _). split; [apply H|].
  split; [|split; [apply H|intros e He; by apply (active_entry_signs _ _ (vr_entries _ H))]].
  unfold make_repository in Hm. do 3 (apply obind_returned in Hm as ([? ?] & _ & Hm) || apply obind_returned in Hm as (? & _ & Hm)).
  apply obind_returned in Hm as (s & Hs' & [= <-]).
  by apply obind_returned in Hs' as (? & _ & (? & _ & (? & _ & [= <-])%obind_returned)%obind_returned).
Qed.

(** Revocation is for ever: once an operation has revoked an identifier, every
    snapshot published later keeps it as a tombstone without a key, and each operation
    on it (a new key under the identifier, retiring it, revoking it again) fails with
    [JWTKeyStateError] and publishes nothing. *)
Theorem revoked_forever r kid s r1 r2 :
  valid_repository r -> call (Revoke (OStr kid)) r = (Returned s, r1) -> rtc repository_step r1 r2 ->
  dict_get kid (ks_entries (rp_snapshot r2)) = Some {| ke_status := REVOKED; ke_key := None |} /\
  forall op : operation K,
    match op with
    | AddVerificationKey c | Rotate c => exists key, c = Exact key /\ key_kid key = kid
    | Retire v | Revoke v => v = OStr kid
    end ->
    fst (call op r2) = Raised (JWTError KeyState) /\ rp_snapshot (snd (call op r2)) = rp_snapshot r2.
Proof.
  intros Hr Hc Hs.
  assert (valid_repository r1) as H1.
  { replace r1 with (snd (call (Revoke (OStr kid)) r)) by (by rewrite Hc).
    apply (step_valid r); [|done]. by exists (Revoke (OStr kid)). }
  destruct (steps_valid _ _ Hs H1) as (H2 & Ht & _).
  assert (dict_get kid (ks_entries (rp_snapshot r1)) = Some {| ke_status := REVOKED; ke_key := None |}) as Hg.
  { unfold call in Hc. cbn [section] in Hc. destruct (change_entry r (OStr kid) false) as [r'|e] eqn:E; [|done].
    injection Hc as <- <-. cbn. by apply revoked_entry in E. }
  specialize (Ht _ _ Hg eq_refl). split; [done|]. intros op Hop.
  assert (section op r2 = Raised key_state_error) as E; [|by unfold call; rewrite E].
  assert (valid_kid kid = true) as Hv.
  { apply dict_get_in in Hg. pose proof (ve_fits _ _ (vr_entries _ H1)) as Hf. rewrite forallb_forall in Hf.
    specialize (Hf _ (proj1 (list_elem_of_In _ _) Hg)). unfold entry_fits in Hf. by apply andb_true_iff in Hf as [? _]. }
  assert (dict_has kid (ks_entries (rp_snapshot r2)) = true) as Hin by (unfold dict_has; by rewrite Ht).
  destruct op; cbn [section].
  1-2: destruct Hop as (k & -> & <-); cbn; rewrite Hin; by destruct (key_can_sign k).
  all: subst; unfold change_entry, repository_kid; rewrite Hv; cbn [obind]; by rewrite Ht.
Qed.

(** What a call does: it publishes one snapshot, of the next epoch, records the
    success and returns that snapshot; or it raises [JWTConfigurationError] or
    [JWTKeyStateError], records that category and publishes nothing. *)
Theorem call_reports op r :
  valid_repository r -> fit_operation op ->
  match call op r with
  | (Returned s, r') =>
      s = rp_snapshot r' /\ ks_epoch s = ks_epoch (rp_snapshot r) + 1 /\
      rp_log r' = rp_log r ++ [(operation_name op, NoError)]
  | (Raised e, r') =>
      rp_snapshot r' = rp_snapshot r /\ rp_algorithm r' = rp_algorithm r /\
      ((e = JWTConfigurationError /\ rp_log r' = rp_log r ++ [(operation_name op, ConfigurationCategory)]) \/
       (e = JWTError KeyState /\ rp_log r' = rp_log r ++ [(operation_name op, KeyStateCategory)]))
  end.
Proof.
  intros Hr Hop. pose proof (section_ok op r Hr Hop) as Hs. unfold call. destruct (section op r) as [r'|e].
  - destruct Hs as (_ & Hn & _ & Hl). cbn. by rewrite Hl.
  - split; [done|]. split; [done|]. destruct Hs as [-> | ->]; cbn; auto.
Qed.

(** Rotating makes the new key the active one and keeps every other identifier:
    the key that was active still verifies, retired. *)
Theorem rotate_retires key r s r' :
  valid_repository r -> fit_key (Exact key) -> call (Rotate (Exact key)) r = (Returned s, r') ->
  active_entry s = Some {| ke_status := ACTIVE; ke_key := Some key |} /\
  forall kid e, dict_get kid (ks_entries (rp_snapshot r)) = Some e ->
    dict_get kid (ks_entries s) =
      Some (if is_active_entry e then {| ke_status := RETIRED; ke_key := ke_key e |} else e).
Proof.
  intros Hr Hk Hc. unfold call in Hc. cbn [section] in Hc.
  destruct (install_key r (Exact key) true) as [r1|e] eqn:E; [|done]. injection Hc as <- <-.
  destruct (rotated _ _ _ E) as (l & Hn & Hl & ->).
  destruct (valid_after_retire _ _ _ (vr_entries _ Hr) Hl) as [_ Hact].
  destruct (retire_active_spec _ _ (ve_ok _ _ (vr_entries _ Hr)) Hl) as (E1 & _).
  assert (dict_has (key_kid key) l = false) as Hn' by (by rewrite dict_has_keys, E1, <-dict_has_keys).
  split.
  - unfold active_entry. cbn [ks_entries]. rewrite dict_set_fresh by done. unfold active_entries in *.
    rewrite filter_app, Hact. by rewrite filter_cons_True.
  - intros kid e Hg. cbn [ks_entries]. rewrite dict_get_set, bool_decide_false.
    { by apply (retire_active_lookup _ _ Hl). }
    intros <-. unfold dict_has in Hn. by rewrite Hg in Hn.
Qed.
End Laws.
