(* ===== verification/JwtProfiles.v ===== *)
(** * Policies ([bluetape/jwt/_profiles.py], [_issuance.py])

    What an issuer adds to the claims it signs, and what a verifier asks of those it
    accepts.  A profile's clock is a function of the caller; [capture_time] is what
    both sides make of the [datetime] it returns.  The digest is a parameter. *)

From S2P Require Import Prelude Python Leader PyObject Utf8 Codec JsonText JwtClaims JwtKeys.
Import Jwt.
Open Scope py_scope.
Open Scope Z_scope.

(** [hashlib.sha256(data).digest()]. *)
Class Sha256 : Type := sha256 : pybytes -> pybytes.

Definition policy_error : exn := JWTIssuancePolicyError.

(** ** Checks of the constructors *)

Definition policy_name (s : pystr) : bool := valid_name s && bool_decide (is_Some (utf8_encode s)).

Definition validate_name (value : pyobj) : outcome pystr :=
  match value with
  | OStr s => if policy_name s then Returned s else Raised JWTConfigurationError
  | _ => Raised JWTConfigurationError
  end.

Fixpoint validate_names (values : list pyobj) : outcome (list pystr) :=
  match values with
  | [] => Returned []
  | value :: rest =>
      let? name := validate_name value in
      let? names := validate_names rest in
      Returned (name :: names)
  end.

(** [None] is a [str], or no iterable; otherwise what [tuple(value)] gives. *)
Definition normalize_string_set (value : option (outcome (list pyobj))) (nonempty : bool) : outcome (gset pystr) :=
  match value with
  | None => Raised JWTConfigurationError
  | Some (Raised e) => if is_Exception e then Raised JWTConfigurationError else Raised e
  | Some (Returned copied) =>
      let? names := validate_names copied in
      let normalized : gset pystr := list_to_set names in
      let? _ := orequire (negb (nonempty && bool_decide (normalized = ∅))) JWTConfigurationError in
      Returned normalized
  end.

Definition validate_duration (value : option (arg timedelta)) (optional allow_zero : bool) : outcome (option timedelta) :=
  match value with
  | None => if optional then Returned None else Raised JWTConfigurationError
  | Some AnotherClass => Raised JWTConfigurationError
  | Some (Exact d) =>
      if (d <? 0) || (negb allow_zero && (d =? 0)) then Raised JWTConfigurationError else Returned (Some d)
  end.

Definition duration_microseconds (value : timedelta) : Z :=
  (td_days value * 86400 + td_seconds value) * 1000000 + td_microseconds value.

Fixpoint normalize_header_items (items : list (pyobj * pyobj)) (normalized : list (pystr * pystr)) :
    outcome (list (pystr * pystr)) :=
  match items with
  | [] => Returned normalized
  | (name, expected) :: rest =>
      let? validated_name := validate_name name in
      if decide (validated_name ∈ RESERVED_HEADERS) then Raised JWTConfigurationError
      else
        let? value := validate_name expected in
        normalize_header_items rest (dict_set validated_name value normalized)
  end.

Definition normalize_headers (value : pyobj) : outcome (list (pystr * pystr)) :=
  match mapping_items value with
  | None => Raised JWTConfigurationError
  | Some (Raised e) => if is_Exception e then Raised JWTConfigurationError else Raised e
  | Some (Returned items) => normalize_header_items items []
  end.

(** ** Profiles *)

(** Without its clock, which its users are given. *)
Record IssuanceProfile : Type := {
  ip_default_ttl : option timedelta;
  ip_max_ttl : option timedelta;
  ip_add_issued_at : bool;
}.

(** [IssuanceProfile(...)]; the last argument says whether the clock is callable. *)
Definition make_issuance_profile (default_ttl max_ttl : option (arg timedelta)) (add_issued_at : arg bool)
    (callable_clock : bool) : outcome IssuanceProfile :=
  let? default_ttl := validate_duration default_ttl true false in
  let? max_ttl := validate_duration max_ttl true false in
  let? _ :=
    match default_ttl, max_ttl with
    | Some d, Some m => orequire (negb (m <? d)) JWTConfigurationError
    | _, _ => Returned tt
    end in
  match add_issued_at with
  | AnotherClass => Raised JWTConfigurationError
  | Exact b =>
      let? _ := orequire callable_clock JWTConfigurationError in
      Returned {| ip_default_ttl := default_ttl; ip_max_ttl := max_ttl; ip_add_issued_at := b |}
  end.

Record ValidationProfile : Type := {
  vp_token_type : pystr;
  vp_allowed_issuers : gset pystr;
  vp_accepted_audiences : gset pystr;
  vp_required_claims : gset pystr;
  vp_protected_headers : list (pystr * pystr);
  vp_clock_skew : timedelta;
  vp_max_token_age : option timedelta;
  vp_fingerprint : pystr;
}.

(** [sorted] of strings: by code points. *)
Fixpoint str_leb (s t : pystr) : bool :=
  match s, t with
  | [], _ => true
  | _ :: _, [] => false
  | a :: s', b :: t' => (a <? b) || ((a =? b) && str_leb s' t')
  end.

Fixpoint insert_sorted {A} (leb : A -> A -> bool) (a : A) (l : list A) : list A :=
  match l with
  | [] => [a]
  | b :: rest => if leb a b then a :: l else b :: insert_sorted leb a rest
  end.

Definition sorted {A} (leb : A -> A -> bool) (l : list A) : list A := foldr (insert_sorted leb) [] l.

Definition strings_json (l : list pystr) : json := JArray (JString <$> l).

(** Pairs whose names differ are ordered by their names. *)
Definition header_leb (a b : pystr * pystr) : bool := str_leb a.1 b.1.

Section Fingerprint.
Context `{FloatText} `{Sha256}.

Definition policy_json (p : ValidationProfile) : json :=
  JObject [
    (py "accepted_audiences", strings_json (sorted str_leb (elements (vp_accepted_audiences p))));
    (py "allowed_issuers", strings_json (sorted str_leb (elements (vp_allowed_issuers p))));
    (py "clock_skew_us", JInt (duration_microseconds (vp_clock_skew p)));
    (py "max_token_age_us",
      match vp_max_token_age p with None => JNull | Some d => JInt (duration_microseconds d) end);
    (py "protected_headers",
      JArray ((fun m => strings_json [m.1; m.2]) <$> sorted header_leb (vp_protected_headers p)));
    (py "required_claims", strings_json (sorted str_leb (elements (vp_required_claims p))));
    (py "token_type", JString (vp_token_type p))].

(** Every text of a profile can be encoded, so the text of the policy can. *)
Definition policy_fingerprint (p : ValidationProfile) : outcome pystr :=
  let? encoded := oget (utf8_encode (json_text (policy_json p))) UnicodeError in
  Returned (hex_encode (sha256 encoded)).

Definition set_fingerprint (p : ValidationProfile) (fingerprint : pystr) : ValidationProfile :=
  {| vp_token_type := vp_token_type p; vp_allowed_issuers := vp_allowed_issuers p;
     vp_accepted_audiences := vp_accepted_audiences p; vp_required_claims := vp_required_claims p;
     vp_protected_headers := vp_protected_headers p; vp_clock_skew := vp_clock_skew p;
     vp_max_token_age := vp_max_token_age p; vp_fingerprint := fingerprint |}.

(** [ValidationProfile(...)]. *)
Definition make_validation_profile (token_type : pyobj)
    (allowed_issuers accepted_audiences required_claims : option (outcome (list pyobj))) (protected_headers : pyobj)
    (clock_skew max_token_age : option (arg timedelta)) (callable_clock : bool) : outcome ValidationProfile :=
  let? token_type := validate_name token_type in
  let? issuers := normalize_string_set allowed_issuers true in
  let? audiences := normalize_string_set accepted_audiences true in
  let? required := normalize_string_set required_claims false in
  let required := required ∪ {[py "iss"; py "aud"]} in
  let? skew := validate_duration clock_skew false true in
  let? max_token_age := validate_duration max_token_age true false in
  let required := match max_token_age with Some _ => required ∪ {[py "iat"]} | None => required end in
  let? _ := orequire callable_clock JWTConfigurationError in
  let? headers := normalize_headers protected_headers in
  let p := {| vp_token_type := token_type; vp_allowed_issuers := issuers; vp_accepted_audiences := audiences;
              vp_required_claims := required; vp_protected_headers := headers;
              vp_clock_skew := default 0 skew; vp_max_token_age := max_token_age; vp_fingerprint := [] |} in
  let? fingerprint := policy_fingerprint p in
  Returned (set_fingerprint p fingerprint).
End Fingerprint.

(** ** Time *)

(** The clock is read once; a clock that fails is a faulty configuration. *)
Definition capture_time (reading : outcome (arg moment)) : outcome Z :=
  match reading with
  | Raised e => if is_Exception e then Raised JWTConfigurationError else Raised e
  | Returned now => to_utc JWTConfigurationError now
  end.

Definition capture_reference_time : outcome (arg moment) -> outcome Z := capture_time.
Definition capture_issuance_time : outcome (arg moment) -> outcome Z := capture_time.

(** ** Validation *)

Definition present_claims (claims : TokenClaims) : gset pystr :=
  list_to_set (tc_custom claims).*1 ∪
  list_to_set (omap (fun m : pystr * bool => if m.2 then Some m.1 else None) [
    (py "iss", bool_decide (is_Some (tc_issuer claims)));
    (py "sub", bool_decide (is_Some (tc_subject claims)));
    (py "aud", negb (bool_decide (tc_audience claims = [])));
    (py "exp", bool_decide (is_Some (tc_expires_at claims)));
    (py "nbf", bool_decide (is_Some (tc_not_before claims)));
    (py "iat", bool_decide (is_Some (tc_issued_at claims)));
    (py "jti", bool_decide (is_Some (tc_jwt_id claims)))]).

(** A condition on a date that is there. *)
Definition on_date (t : option Z) (f : Z -> bool) : bool := match t with Some t => f t | None => false end.

Definition validate_temporal_claims (claims : TokenClaims) (profile : ValidationProfile) (now : Z) : outcome unit :=
  let skew := vp_clock_skew profile in
  let? _ := orequire (negb (on_date (tc_expires_at claims) (fun e => skew <=? now - e))) (JWTError Expired) in
  let? _ := orequire (negb (on_date (tc_not_before claims) (fun n => skew <? n - now))) (JWTError NotYetValid) in
  let? _ := orequire (negb (on_date (tc_issued_at claims) (fun i => skew <? i - now))) (JWTError NotYetValid) in
  let? _ :=
    orequire (negb (on_date (tc_expires_at claims) (fun e => on_date (tc_not_before claims) (fun n => e <=? n))))
      (JWTError Claim) in
  match vp_max_token_age profile with
  | None => Returned tt
  | Some max_age =>
      match tc_issued_at claims with
      | None => Raised (JWTError Claim)
      | Some issued_at =>
          let token_age := now - issued_at in
          orequire (negb ((max_age <? token_age) && (skew <? token_age - max_age))) (JWTError Expired)
      end
  end.

(** [d1 == d2] of two [dict]s of strings. *)
Definition same_dict (d1 d2 : list (pystr * pystr)) : bool :=
  (length d1 =? length d2)%nat && forallb (fun m => bool_decide (dict_get m.1 d2 = Some m.2)) d1.

(** [_validate_claims]; its callers pass [dict]s as headers. *)
Definition validate_claims (claims : arg TokenClaims) (profile : arg ValidationProfile) (token_type : pystr)
    (protected_headers : list (pystr * pystr)) (now : arg moment) : outcome unit :=
  match claims, profile with
  | Exact claims, Exact profile =>
      let? normalized_now := to_utc (JWTError Claim) now in
      let? _ :=
        orequire (bool_decide (token_type = vp_token_type profile) &&
          same_dict protected_headers (vp_protected_headers profile)) (JWTError UnsupportedToken) in
      let? _ := orequire (bool_decide (vp_required_claims profile ⊆ present_claims claims)) (JWTError Claim) in
      let? _ :=
        orequire (match tc_issuer claims with Some i => bool_decide (i ∈ vp_allowed_issuers profile) | None => false end)
          (JWTError Claim) in
      let? _ :=
        orequire (existsb (fun a => bool_decide (a ∈ vp_accepted_audiences profile)) (tc_audience claims))
          (JWTError Claim) in
      validate_temporal_claims claims profile normalized_now
  | _, _ => Raised (JWTError Claim)
  end.

(** ** Issuance *)

(** [datetime + timedelta]: out of range is an [OverflowError]. *)
Definition add_ttl (t : Z) (ttl : timedelta) : outcome Z :=
  if in_datetime_range (t + ttl) then Returned (t + ttl) else Raised OverflowError.

(** A token expires after it is issued and valid, and not too late. *)
Definition check_expiry (claims : TokenClaims) (profile : IssuanceProfile) (effective_time e : Z) : outcome unit :=
  let? _ := orequire (negb (e <=? effective_time)) policy_error in
  let? _ := orequire (negb (on_date (tc_not_before claims) (fun n => e <=? n))) policy_error in
  orequire (negb (on_date (ip_max_ttl profile) (fun m => m <? e - effective_time))) policy_error.

(** The body of [_apply_issuance_profile], inside its [try]. *)
Definition issuance_body (claims : TokenClaims) (profile : IssuanceProfile) (now : arg moment) : outcome TokenClaims :=
  let? reference_time := to_utc policy_error now in
  let effective_time := default reference_time (tc_issued_at claims) in
  let issued_at :=
    match tc_issued_at claims with
    | Some t => Some t
    | None => if ip_add_issued_at profile then Some reference_time else None
    end in
  let? expires_at :=
    match tc_expires_at claims, ip_default_ttl profile with
    | None, Some ttl => let? t := add_ttl effective_time ttl in Returned (Some t)
    | e, _ => Returned e
    end in
  let? _ :=
    match expires_at with
    | None => Returned tt
    | Some e => check_expiry claims profile effective_time e
    end in
  make_claims (string_object (tc_issuer claims)) (string_object (tc_subject claims))
    (strings_object (tc_audience claims)) (utc_moment <$> expires_at) (utc_moment <$> tc_not_before claims)
    (utc_moment <$> issued_at) (string_object (tc_jwt_id claims)) (custom_object (tc_custom claims)).

Definition apply_issuance_profile (claims : arg TokenClaims) (profile : arg IssuanceProfile) (now : arg moment) :
    outcome TokenClaims :=
  match claims, profile with
  | Exact claims, Exact profile =>
      match issuance_body claims profile now with
      | Returned c => Returned c
      | Raised e => if is_Exception e then Raised policy_error else Raised e
      end
  | _, _ => Raised policy_error
  end.

(** ** Providers *)

Section Providers.
Context {W : Type}.

(** [TokenProvider], the protocol. *)
Record TokenProvider : Type := {
  tp_issue : arg TokenClaims -> M W pystr;
  tp_verify : arg pystr -> M W VerifiedToken;
}.

Record IssuanceProfileProvider : Type := {
  pp_provider : TokenProvider;
  pp_profile : IssuanceProfile;
  pp_clock : M W (arg moment);
}.

(** [IssuanceProfileProvider(provider, profile)]: a provider has both methods. *)
Definition make_profile_provider (provider : arg TokenProvider) (profile : arg IssuanceProfile)
    (clock : M W (arg moment)) : outcome IssuanceProfileProvider :=
  match provider, profile with
  | Exact provider, Exact profile =>
      Returned {| pp_provider := provider; pp_profile := profile; pp_clock := clock |}
  | _, _ => Raised JWTConfigurationError
  end.

Definition profile_issue (self : IssuanceProfileProvider) (claims : arg TokenClaims) : M W pystr :=
  reading <- capture (pp_clock self) ;;
  now <- pure_outcome (capture_issuance_time reading) ;;
  transformed <- pure_outcome (apply_issuance_profile claims (Exact (pp_profile self)) (utc_moment now)) ;;
  tp_issue (pp_provider self) (Exact transformed).

Definition profile_verify (self : IssuanceProfileProvider) (token : arg pystr) : M W VerifiedToken :=
  tp_verify (pp_provider self) token.

(** It is a provider again. *)
Definition profile_provider (self : IssuanceProfileProvider) : TokenProvider :=
  {| tp_issue := profile_issue self; tp_verify := profile_verify self |}.
End Providers.
Arguments TokenProvider : clear implicits.
Arguments IssuanceProfileProvider : clear implicits.
