(* ===== verification/JwtProfilesLaws.v ===== *)
(** * Policies: what a verifier accepts, what an issuer adds, and the fingerprint *)

From S2P Require Import Prelude Python Leader LeaseRecord PyObject Utf8 Codec JsonText JsonTextLaws JwtClaims JwtClaimsLaws JwtKeys JwtProfiles.
Import Jwt.
Open Scope py_scope.
Open Scope Z_scope.

(** ** Profiles *)

Definition encodable (s : pystr) : Prop := is_Some (utf8_encode s).

(** What the constructor lets through. *)
Record valid_profile (p : ValidationProfile) : Prop := {
  vv_type : policy_name (vp_token_type p) = true;
  vv_issuers : set_Forall (fun s => policy_name s = true) (vp_allowed_issuers p);
  vv_audiences : set_Forall (fun s => policy_name s = true) (vp_accepted_audiences p);
  vv_required : set_Forall (fun s => policy_name s = true) (vp_required_claims p);
  vv_iss_aud : {[py "iss"; py "aud"]} ⊆ vp_required_claims p;
  vv_headers : Forall (fun m => policy_name m.1 = true /\ policy_name m.2 = true /\ m.1 ∉ RESERVED_HEADERS) (vp_protected_headers p);
  vv_distinct : NoDup (vp_protected_headers p).*1;
  vv_skew : 0 <= vp_clock_skew p;
  vv_age : forall d, vp_max_token_age p = Some d -> 0 < d /\ py "iat" ∈ vp_required_claims p;
}.

Lemma validate_name_returned v s : validate_name v = Returned s <-> v = OStr s /\ policy_name s = true.
Proof.
  destruct v; cbn; try by split; [|intros [? _]]. destruct (policy_name _) eqn:E; split; try done.
  - by intros [= <-].
  - by intros [[= <-] _].
  - intros [[= <-] ?]. congruence.
Qed.

Lemma validate_names_valid l r : validate_names l = Returned r -> Forall (fun s => policy_name s = true) r.
Proof.
  revert r. induction l as [|v l IH]; intros r; cbn; [by intros [= <-]|].
  intros (s & [-> Hs]%validate_name_returned & (r' & Hr%IH & [= <-])%obind_returned)%obind_returned. by constructor.
Qed.

Lemma normalize_string_set_valid v nonempty r :
  normalize_string_set v nonempty = Returned r -> set_Forall (fun s => policy_name s = true) r.
Proof.
  destruct v as [[l|e]|]; cbn; [|by destruct (is_Exception e)|done].
  intros (names & Hn%validate_names_valid & (? & _ & [= <-])%obind_returned)%obind_returned.
  intros s Hs%elem_of_list_to_set. rewrite Forall_forall in Hn. by apply Hn.
Qed.

Lemma validate_duration_valid v optional allow_zero r :
  validate_duration v optional allow_zero = Returned r ->
  (forall d, r = Some d -> 0 <= d /\ (allow_zero = false -> 0 < d)) /\ (optional = false -> is_Some r).
Proof.
  destruct v as [[d|]|]; cbn; [|done|by destruct optional; [intros [= <-]|]].
  destruct (Z.ltb_spec d 0); [done|]. destruct allow_zero; cbn.
  - intros [= <-]. split; [by intros ? [= <-]|by eexists].
  - destruct (Z.eqb_spec d 0); [done|]. intros [= <-]. split; [intros ? [= <-]; lia|by eexists].
Qed.

Lemma normalize_header_items_valid items l r :
  Forall (fun m => policy_name m.1 = true /\ policy_name m.2 = true /\ m.1 ∉ RESERVED_HEADERS) l -> NoDup l.*1 ->
  normalize_header_items items l = Returned r ->
  Forall (fun m => policy_name m.1 = true /\ policy_name m.2 = true /\ m.1 ∉ RESERVED_HEADERS) r /\ NoDup r.*1.
Proof.
  revert l. induction items as [|[k v] items IH]; intros l Hl Hd; cbn; [by intros [= <-]|].
  intros (name & [-> Hn]%validate_name_returned & H)%obind_returned. case_decide; [done|].
  apply obind_returned in H as (value & [-> Hv]%validate_name_returned & H).
  apply (IH _) in H; [done| |by apply dict_set_keys]. clear - Hl Hn Hv H0.
  induction Hl as [|[k' v'] l Hm Hl IHl]; cbn; [constructor; [done|constructor]|].
  case_bool_decide; by constructor.
Qed.

Section Profiles.
Context `{FloatText} `{Sha256}.

Lemma make_validation_profile_valid t i a r h s m c p :
  make_validation_profile t i a r h s m c = Returned p -> valid_profile p.
Proof.
  unfold make_validation_profile.
  intros (t' & [-> Ht]%validate_name_returned & (i' & Hi%normalize_string_set_valid & (a' & Ha%normalize_string_set_valid & E)%obind_returned)%obind_returned)%obind_returned.
  apply obind_returned in E as (r' & Hr%normalize_string_set_valid & E).
  apply obind_returned in E as (s' & Hs%validate_duration_valid & E).
  apply obind_returned in E as (m' & [Hm _]%validate_duration_valid & E).
  apply obind_returned in E as (? & _ & E). apply obind_returned in E as (h' & Hh & E).
  assert (Forall (fun m => policy_name m.1 = true /\ policy_name m.2 = true /\ m.1 ∉ RESERVED_HEADERS) h' /\ NoDup h'.*1) as [Hh1 Hh2].
  { unfold normalize_headers in Hh. destruct (mapping_items h) as [[items|e]|]; [|by destruct (is_Exception e)|done].
    eapply normalize_header_items_valid; [| |exact Hh]; [constructor|apply NoDup_nil_2]. }
  apply obind_returned in E as (f & _ & [= <-]).
  assert (set_Forall (fun s => policy_name s = true) (r' ∪ {[py "iss"; py "aud"]})) as Hr2.
  { apply set_Forall_union; [done|]. intros y [->%elem_of_singleton| ->%elem_of_singleton]%elem_of_union; by vm_compute. }
  destruct Hs as [Hs1 Hs2]. destruct (Hs2 eq_refl) as [skew ->].
  split; cbn; try done.
  - destruct m'; [|done]. apply set_Forall_union; [done|]. intros y ->%elem_of_singleton. by vm_compute.
  - destruct m'; set_solver.
  - by destruct (Hs1 skew eq_refl).
  - intros d ->. split; [by apply Hm|]. set_solver.
Qed.
End Profiles.

(** ** Validation *)

(** A token that a policy accepts at a time, the way the documentation puts it. *)
Record within_policy (p : ValidationProfile) (c : TokenClaims) (token_type : pystr) (headers : list (pystr * pystr))
    (now : Z) : Prop := {
  wp_type : token_type = vp_token_type p;
  wp_headers : same_dict headers (vp_protected_headers p) = true;
  wp_required : vp_required_claims p ⊆ present_claims c;
  wp_issuer : exists i, tc_issuer c = Some i /\ i ∈ vp_allowed_issuers p;
  wp_audience : exists a, a ∈ tc_audience c /\ a ∈ vp_accepted_audiences p;
  wp_expires_at : forall e, tc_expires_at c = Some e -> now < e + vp_clock_skew p;
  wp_not_before : forall n, tc_not_before c = Some n -> n <= now + vp_clock_skew p;
  wp_issued_at : forall i, tc_issued_at c = Some i -> i <= now + vp_clock_skew p;
  wp_order : forall e n, tc_expires_at c = Some e -> tc_not_before c = Some n -> n < e;
  wp_age : forall m, vp_max_token_age p = Some m ->
    exists i, tc_issued_at c = Some i /\ now <= i + m + vp_clock_skew p;
}.

Lemma obind_tt (r : outcome unit) (k : unit -> outcome unit) u :
  obind r k = Returned u <-> r = Returned tt /\ k tt = Returned u.
Proof. rewrite obind_returned. split; [by intros ([] & ? & ?)|by exists tt]. Qed.

Lemma negb_on_date t f : negb (on_date t f) = true <-> forall x, t = Some x -> f x = false.
Proof. rewrite negb_true_iff. destruct t; cbn; naive_solver. Qed.

Lemma validate_temporal_claims_iff c p now u :
  0 <= vp_clock_skew p -> validate_temporal_claims c p now = Returned u <->
  (forall e, tc_expires_at c = Some e -> now < e + vp_clock_skew p) /\
  (forall n, tc_not_before c = Some n -> n <= now + vp_clock_skew p) /\
  (forall i, tc_issued_at c = Some i -> i <= now + vp_clock_skew p) /\
  (forall e n, tc_expires_at c = Some e -> tc_not_before c = Some n -> n < e) /\
  (forall m, vp_max_token_age p = Some m -> exists i, tc_issued_at c = Some i /\ now <= i + m + vp_clock_skew p).
Proof.
  intros Hs. unfold validate_temporal_claims. rewrite !obind_tt, !orequire_returned, !negb_on_date.
  assert (forall x, (vp_clock_skew p <=? now - x) = false <-> now < x + vp_clock_skew p) as E1
    by (intros x; rewrite Z.leb_gt; lia).
  assert (forall x, (vp_clock_skew p <? x - now) = false <-> x <= now + vp_clock_skew p) as E2
    by (intros x; rewrite Z.ltb_ge; lia).
  setoid_rewrite E1. setoid_rewrite E2. do 3 f_equiv. f_equiv.
  - split; [|intros H e He; specialize (H e); destruct (tc_not_before c); [|done]; cbn; apply Z.leb_gt; auto].
    intros H e n He Hn. specialize (H e He). rewrite Hn in H. cbn in H. by apply Z.leb_gt in H.
  - destruct u, (vp_max_token_age p) as [m|]; [|by split].
    destruct (tc_issued_at c) as [i|]; [|split; [done|by intros H; destruct (H m eq_refl) as (? & ? & _)]].
    rewrite orequire_returned, negb_true_iff, andb_false_iff, !Z.ltb_ge. split.
    + intros H m' [= <-]. exists i. split; [done|lia].
    + intros H. destruct (H m eq_refl) as (i' & [= <-] & Hle). lia.
Qed.

Lemma validate_claims_iff p c token_type headers now u :
  valid_profile p ->
  validate_claims (Exact c) (Exact p) token_type headers (utc_moment now) = Returned u <->
  in_datetime_range now = true /\ within_policy p c token_type headers now.
Proof.
  intros Hp. cbn [validate_claims to_utc utc_moment mo_wall mo_offset]. rewrite Z.sub_0_r.
  destruct (in_datetime_range now); cbn [obind]; [|by split; [|intros [? _]]].
  rewrite !obind_tt, !orequire_returned, validate_temporal_claims_iff by apply Hp.
  rewrite andb_true_iff, !bool_decide_eq_true.
  assert (existsb (fun a => bool_decide (a ∈ vp_accepted_audiences p)) (tc_audience c) = true <->
    exists a, a ∈ tc_audience c /\ a ∈ vp_accepted_audiences p) as ->.
  { rewrite existsb_exists. setoid_rewrite bool_decide_eq_true. by setoid_rewrite <-list_elem_of_In. }
  assert ((match tc_issuer c with Some i => bool_decide (i ∈ vp_allowed_issuers p) | None => false end) = true <->
    exists i, tc_issuer c = Some i /\ i ∈ vp_allowed_issuers p) as ->.
  { destruct (tc_issuer c); [rewrite bool_decide_eq_true|]; naive_solver. }
  split; [|intros [_ []]; tauto]. intros ([? ?] & ? & ? & ? & ? & ? & ? & ? & ?). split; [done|by split].
Qed.

(** The refusals of a policy. *)
Definition policy_refusal (e : exn) : Prop :=
  e = JWTError UnsupportedToken \/ e = JWTError Claim \/ e = JWTError Expired \/ e = JWTError NotYetValid.

Lemma validate_claims_raised p c token_type headers now e :
  validate_claims (Exact c) (Exact p) token_type headers (utc_moment now) = Raised e -> policy_refusal e.
Proof.
  unfold policy_refusal. cbn [validate_claims to_utc utc_moment mo_wall mo_offset]. rewrite Z.sub_0_r.
  destruct (in_datetime_range now); cbn [obind]; [|intros [= <-]; auto]. intros E.
  do 4 (apply obind_raised in E as [E|(? & _ & E)]; [apply orequire_raised in E; auto|]).
  unfold validate_temporal_claims in E.
  do 4 (apply obind_raised in E as [E|(? & _ & E)]; [apply orequire_raised in E; auto|]).
  destruct (vp_max_token_age p); [|done]. destruct (tc_issued_at c); [apply orequire_raised in E; auto|].
  injection E as <-. auto.
Qed.

(** [C29] Validation accepts exactly the claims that are within the policy: the token
    type and the protected headers it names, the claims it requires, an issuer and an
    audience it allows, and a time that is inside the token's validity up to the clock
    skew; others are refused with one of the four errors of a policy. *)
Theorem validate_claims_exact p c token_type headers now :
  valid_profile p -> in_datetime_range now = true ->
  match validate_claims (Exact c) (Exact p) token_type headers (utc_moment now) with
  | Returned _ => within_policy p c token_type headers now
  | Raised e => ~ within_policy p c token_type headers now /\ policy_refusal e
  end.
Proof.
  intros Hp Hn. pose proof (validate_claims_iff p c token_type headers now tt Hp) as Hiff.
  pose proof (validate_claims_raised p c token_type headers now) as He.
  destruct (validate_claims _ _ _ _ _) as [[]|e]; [by apply Hiff|]. split; [|by apply He].
  intros Hw. pose proof (proj2 Hiff (conj Hn Hw)). discriminate.
Qed.

(** ** Issuance *)

(** What an issuer may add to claims. *)
Definition issued_claims (c : TokenClaims) (issued_at expires_at : option Z) : TokenClaims :=
  {| tc_issuer := tc_issuer c; tc_subject := tc_subject c; tc_audience := tc_audience c;
     tc_expires_at := expires_at; tc_not_before := tc_not_before c; tc_issued_at := issued_at;
     tc_jwt_id := tc_jwt_id c; tc_custom := tc_custom c |}.

Lemma make_claims_issued c issued_at expires_at :
  valid_claims c -> valid_date issued_at -> valid_date expires_at ->
  make_claims (string_object (tc_issuer c)) (string_object (tc_subject c)) (strings_object (tc_audience c))
    (utc_moment <$> expires_at) (utc_moment <$> tc_not_before c) (utc_moment <$> issued_at)
    (string_object (tc_jwt_id c)) (custom_object (tc_custom c)) = Returned (issued_claims c issued_at expires_at).
Proof. intros [] Hi He. apply (make_claims_again (issued_claims c issued_at expires_at)). by split. Qed.

(** The time the lifetime of a token is counted from, and the dates it is given. *)
Definition effective_time (c : TokenClaims) (now : Z) : Z := default now (tc_issued_at c).
Definition issued_date (p : IssuanceProfile) (c : TokenClaims) (now : Z) : option Z :=
  match tc_issued_at c with Some t => Some t | None => if ip_add_issued_at p then Some now else None end.
Definition expiry_date (p : IssuanceProfile) (c : TokenClaims) (now : Z) : option Z :=
  match tc_expires_at c with Some e => Some e | None => (fun ttl => effective_time c now + ttl) <$> ip_default_ttl p end.

(** What the policy asks of an expiry date. *)
Definition expiry_allowed (p : IssuanceProfile) (c : TokenClaims) (now e : Z) : Prop :=
  in_datetime_range e = true /\ effective_time c now < e /\
  (forall n, tc_not_before c = Some n -> n < e) /\ (forall m, ip_max_ttl p = Some m -> e - effective_time c now <= m).

Lemma issued_date_valid p c now : valid_claims c -> in_datetime_range now = true -> valid_date (issued_date p c now).
Proof.
  intros Hc Hn. unfold issued_date. pose proof (vc_issued_at _ Hc). destruct (tc_issued_at c); [done|].
  by destruct (ip_add_issued_at p).
Qed.

Lemma check_expiry_allowed p c now e : in_datetime_range e = true ->
  (check_expiry c p (effective_time c now) e = Returned tt /\ expiry_allowed p c now e) \/
  (check_expiry c p (effective_time c now) e = Raised policy_error /\ ~ expiry_allowed p c now e).
Proof.
  intros Hr.
  assert (check_expiry c p (effective_time c now) e = Returned tt <-> expiry_allowed p c now e) as Hiff.
  { unfold check_expiry, expiry_allowed. rewrite !obind_tt, !orequire_returned, !negb_on_date, negb_true_iff, Z.leb_gt.
    setoid_rewrite Z.leb_gt. setoid_rewrite Z.ltb_ge. tauto. }
  destruct (check_expiry c p (effective_time c now) e) as [[]|x] eqn:E; [left; by rewrite <-Hiff|].
  right. rewrite <-Hiff. split; [|done]. f_equal. unfold check_expiry in E.
  apply obind_raised in E as [E|(? & _ & [E|(? & _ & E)]%obind_raised)]; by apply orequire_raised in E.
Qed.

(** Issuance policy: the claims that are signed differ from the caller's in the
    times of issue and of expiry only, these are the caller's where he gave one, and a
    token that expires does so after it is issued, after it becomes valid, and within
    the longest lifetime allowed; claims for which this cannot be had are refused with
    [JWTIssuancePolicyError], and no others. *)
Theorem apply_issuance_profile_exact p c now :
  valid_claims c -> in_datetime_range now = true ->
  (apply_issuance_profile (Exact c) (Exact p) (utc_moment now) =
     Returned (issued_claims c (issued_date p c now) (expiry_date p c now)) /\
   (forall e, expiry_date p c now = Some e -> expiry_allowed p c now e)) \/
  (apply_issuance_profile (Exact c) (Exact p) (utc_moment now) = Raised JWTIssuancePolicyError /\
   exists e, expiry_date p c now = Some e /\ ~ expiry_allowed p c now e).
Proof.
  intros Hc Hn. unfold apply_issuance_profile, issuance_body.
  cbn [to_utc utc_moment mo_wall mo_offset]. rewrite Z.sub_0_r, Hn. cbn [obind].
  fold (effective_time c now). fold (issued_date p c now). pose proof (issued_date_valid p c now Hc Hn) as Hi.
  assert (forall e, in_datetime_range e = true -> expiry_date p c now = Some e ->
    ((let? _ := check_expiry c p (effective_time c now) e in
      make_claims (string_object (tc_issuer c)) (string_object (tc_subject c)) (strings_object (tc_audience c))
        (utc_moment <$> Some e) (utc_moment <$> tc_not_before c) (utc_moment <$> issued_date p c now)
        (string_object (tc_jwt_id c)) (custom_object (tc_custom c))) = Returned (issued_claims c (issued_date p c now) (Some e)) /\
     expiry_allowed p c now e) \/
    ((let? _ := check_expiry c p (effective_time c now) e in
      make_claims (string_object (tc_issuer c)) (string_object (tc_subject c)) (strings_object (tc_audience c))
        (utc_moment <$> Some e) (utc_moment <$> tc_not_before c) (utc_moment <$> issued_date p c now)
        (string_object (tc_jwt_id c)) (custom_object (tc_custom c))) = Raised policy_error /\
     ~ expiry_allowed p c now e)) as Hgo.
  { intros e Hr _. rewrite make_claims_issued by done. destruct (check_expiry_allowed p c now e Hr) as [[-> ?]|[-> ?]]; auto. }
  unfold expiry_date in *. destruct (tc_expires_at c) as [e|] eqn:Ee; cbn [obind].
  - destruct (Hgo e) as [[-> ?]|[-> ?]]; [|done|left|right; split; [done|eauto]].
    + pose proof (vc_expires_at _ Hc) as Hx. by rewrite Ee in Hx.
    + split; [done|]. by intros ? [= <-].
  - destruct (ip_default_ttl p) as [ttl|]; cbn [obind].
    + unfold add_ttl. cbn [fmap option_fmap option_map] in *.
      destruct (in_datetime_range (effective_time c now + ttl)) eqn:Er;
        cbn [obind fmap option_fmap option_map].
      * destruct (Hgo _ Er eq_refl) as [[-> ?]|[-> ?]]; [left; split; [done|by intros ? [= <-]]|right; split; [done|eauto]].
      * right. split; [done|]. eexists. split; [done|]. intros [Hx _]. congruence.
    + left. pose proof (make_claims_issued c (issued_date p c now) None Hc Hi I) as E.
      cbn [fmap option_fmap option_map] in *. rewrite E. by split.
Qed.

(** ** The fingerprint *)

Definition text_ok (s : pystr) : Prop := Forall (fun c => is_Some (utf8_char c)) s.

Lemma encodable_text s : encodable s <-> text_ok s.
Proof.
  unfold encodable, text_ok. induction s as [|c s IH]; [by split; [constructor|by eexists]|].
  rewrite Forall_cons, <-IH. cbn [utf8_encode]. unfold is_Some.
  destruct (utf8_char c), (utf8_encode s); cbn; naive_solver.
Qed.

Lemma text_ok_app s t : text_ok (s ++ t) <-> text_ok s /\ text_ok t.
Proof. apply Forall_app. Qed.

Lemma ascii_ok c : 0 <= c < 128 -> is_Some (utf8_char c).
Proof.
  intros Hc. unfold utf8_char, is_surrogate.
  rewrite (proj2 (Z.ltb_ge c 0)), (proj2 (Z.leb_gt 55296 c)), (proj2 (Z.ltb_ge 1114111 c)), (proj2 (Z.ltb_lt c 128)) by lia.
  by eexists.
Qed.

Lemma utf8_char_nonneg c : is_Some (utf8_char c) -> 0 <= c.
Proof. intros [b Hb]. unfold utf8_char in Hb. destruct (Z.ltb_spec c 0); [done|lia]. Qed.

Lemma policy_name_ok s : policy_name s = true -> text_ok s.
Proof. intros [_ Hs%bool_decide_eq_true]%andb_true_iff. by apply encodable_text. Qed.

Lemma encode_string_ok s : text_ok s -> text_ok (encode_string s).
Proof.
  intros Hs. unfold encode_string. constructor; [by apply ascii_ok|]. apply text_ok_app. split; [|constructor; [by apply ascii_ok|constructor]].
  induction Hs as [|c s Hc _ IH]; cbn; [constructor|]. apply text_ok_app. split; [|done].
  pose proof (utf8_char_nonneg c Hc). unfold escape_char, hex_low.
  repeat (case_match; [repeat constructor; apply ascii_ok; lia|]).
  destruct (Z.ltb_spec c 32); [|by repeat constructor].
  assert (0 <= c / 16 < 2) by (Z.to_euclidean_division_equations; lia).
  assert (0 <= c mod 16 < 16) by (Z.to_euclidean_division_equations; lia).
  repeat constructor; apply ascii_ok; try lia; destruct (_ <? 10); lia.
Qed.

Lemma digits_ok ds : digits ds -> text_ok ds.
Proof.
  intros Hd. apply Forall_forall. intros c Hc. unfold digits in Hd. rewrite forallb_forall in Hd.
  apply list_elem_of_In, Hd in Hc. unfold is_digit in Hc. apply andb_true_iff in Hc as [?%Z.leb_le ?%Z.leb_le].
  apply ascii_ok. lia.
Qed.

Lemma int_repr_ok z : text_ok (int_repr z).
Proof.
  destruct (int_repr_shape z) as (sign & ds & -> & Hs & Hd). apply text_ok_app. split.
  - destruct Hs as [-> | ->]; [constructor|by repeat constructor; apply ascii_ok].
  - destruct Hd as [->|(c & ds' & -> & Hc & Hd)]; [by repeat constructor; apply ascii_ok|].
    constructor; [apply ascii_ok; lia|by apply digits_ok].
Qed.

(** Values without [float]s, whose strings can be encoded. *)
Fixpoint plain_json (v : json) : Prop :=
  match v with
  | JFloat _ => False
  | JString s => text_ok s
  | JArray l => foldr (fun a P => plain_json a /\ P) True l
  | JObject l => foldr (fun m P => (text_ok m.1 /\ plain_json m.2) /\ P) True l
  | _ => True
  end.

Section Plain.
Context `{FloatText}.

Lemma json_text_ok v : plain_json v -> text_ok (json_text v).
Proof.
  induction v as [|[]|z|f|s|l IH|l IH] using json_nested_ind; intros Hv; cbn [plain_json] in Hv;
    try done; try (change (text_ok ?x) with (Forall (fun c => is_Some (utf8_char c)) x); cbn;
      repeat constructor; by apply ascii_ok).
  - rewrite (json_text_scalar (JInt z) _ eq_refl). apply int_repr_ok.
  - rewrite (json_text_scalar (JString s) _ eq_refl). by apply encode_string_ok.
  - rewrite readable_list in Hv. destruct l as [|a l]; [repeat constructor; by apply ascii_ok|].
    rewrite json_text_array. apply Forall_cons in IH as [Ha IH], Hv as [Hva Hv].
    constructor; [by apply ascii_ok|]. apply text_ok_app. split; [by apply Ha|]. clear Ha Hva.
    induction l as [|b l IHl]; [repeat constructor; by apply ascii_ok|]. rewrite element_chunks_cons.
    apply Forall_cons in IH as [Hb IH], Hv as [Hvb Hv]. apply text_ok_app. split; [repeat constructor; by apply ascii_ok|].
    apply text_ok_app. split; [by apply Hb|by apply IHl].
  - rewrite readable_list in Hv. destruct l as [|[k a] l]; [repeat constructor; by apply ascii_ok|].
    rewrite json_text_object. apply Forall_cons in IH as [Ha IH], Hv as [[Hk Hva] Hv].
    constructor; [by apply ascii_ok|]. apply text_ok_app. split; [by apply encode_string_ok|].
    constructor; [by apply ascii_ok|]. apply text_ok_app. split; [by apply Ha|]. clear Ha Hva Hk.
    induction l as [|[k' b] l IHl]; [repeat constructor; by apply ascii_ok|]. rewrite member_chunks_cons.
    apply Forall_cons in IH as [Hb IH], Hv as [[Hk' Hvb] Hv]. apply text_ok_app. split; [repeat constructor; by apply ascii_ok|].
    apply text_ok_app. split; [by apply encode_string_ok|]. constructor; [by apply ascii_ok|].
    apply text_ok_app. split; [by apply Hb|by apply IHl].
Qed.

(** Hooks that take everything for what it is. *)
Definition plain_hooks : json_hooks :=
  {| hk_int := fun text => Returned (JInt (int_of_text text)); hk_float := fun _ => Raised JSONDecodeError;
     hk_constant := fun _ => Raised JSONDecodeError; hk_object := fun l => Returned (JObject l) |}.

Lemma text_str_ok s : text_ok s -> str_ok s.
Proof. intros H'. eapply Forall_impl; [exact H'|]. apply utf8_char_nonneg. Qed.

Lemma plain_readable v : plain_json v -> readable plain_hooks v.
Proof.
  induction v as [|[]|z|f|s|l IH|l IH] using json_nested_ind; cbn [plain_json readable]; intros Hv; try done.
  - cbn. by rewrite int_of_text_repr.
  - by apply text_str_ok.
  - rewrite !readable_list in *. rewrite Forall_forall in *. auto.
  - rewrite readable_list in *. split; [done|]. rewrite Forall_forall in *. intros m Hm.
    destruct (Hv m Hm). split; [by apply text_str_ok|auto].
Qed.

(** The text of such a value is its own. *)
Lemma json_text_injective v1 v2 : plain_json v1 -> plain_json v2 -> json_text v1 = json_text v2 -> v1 = v2.
Proof.
  intros H1%plain_readable H2%plain_readable E. apply json_loads_text in H1, H2. rewrite E in H1. congruence.
Qed.
End Plain.

Lemma insert_sorted_perm {A} (leb : A -> A -> bool) a l : insert_sorted leb a l ≡ₚ a :: l.
Proof. induction l as [|b l IH]; cbn; [done|]. destruct (leb a b); [done|]. rewrite IH. constructor. Qed.

Lemma sorted_perm {A} (leb : A -> A -> bool) l : sorted leb l ≡ₚ l.
Proof. induction l as [|a l IH]; cbn; [done|]. by rewrite insert_sorted_perm, IH. Qed.

Lemma sorted_elements_injective (X Y : gset pystr) :
  sorted str_leb (elements X) = sorted str_leb (elements Y) -> X = Y.
Proof.
  intros E. apply set_eq. intros x. rewrite <-!elem_of_elements.
  by rewrite <-(sorted_perm str_leb (elements X)), E, sorted_perm.
Qed.

Lemma map_injective {A B} (f : A -> B) (l1 l2 : list A) : (forall a b, f a = f b -> a = b) -> f <$> l1 = f <$> l2 -> l1 = l2.
Proof.
  intros Hf. revert l2. induction l1 as [|a l1 IH]; intros [|b l2]; cbn; try done.
  intros [= E1%Hf E2%IH]. by subst.
Qed.

Lemma strings_json_injective l1 l2 : strings_json l1 = strings_json l2 -> l1 = l2.
Proof. intros [= E]. revert E. apply map_injective. by intros ? ? [= ->]. Qed.

Lemma strings_plain l : Forall (fun s => policy_name s = true) l -> plain_json (strings_json l).
Proof.
  intros Hl. cbn [plain_json strings_json]. apply readable_list, Forall_fmap. eapply Forall_impl; [exact Hl|].
  apply policy_name_ok.
Qed.

Lemma sorted_set_names (X : gset pystr) :
  set_Forall (fun s => policy_name s = true) X -> Forall (fun s => policy_name s = true) (sorted str_leb (elements X)).
Proof. intros HX. rewrite sorted_perm. apply Forall_forall. intros s Hs%elem_of_elements. by apply HX. Qed.

Lemma duration_microseconds_eq d : duration_microseconds d = d.
Proof.
  unfold duration_microseconds, td_days, td_seconds, td_microseconds, MICROSECONDS_PER_DAY.
  Z.to_euclidean_division_equations. lia.
Qed.

Lemma policy_plain p : valid_profile p -> plain_json (policy_json p).
Proof.
  intros Hp. unfold policy_json. cbn [plain_json foldr fst snd].
  assert (forall s : string, forallb (fun c => (0 <=? c) && (c <? 128)) (py s) = true -> text_ok (py s)) as Hpy.
  { intros s Hs. apply Forall_forall. intros c Hc. rewrite forallb_forall in Hs. apply list_elem_of_In, Hs in Hc.
    apply ascii_ok. lia. }
  repeat apply conj; try (by apply Hpy; vm_compute); try exact I.
  - apply strings_plain, sorted_set_names, Hp.
  - apply strings_plain, sorted_set_names, Hp.
  - by destruct (vp_max_token_age p).
  - apply readable_list, Forall_fmap. unfold compose. cbn. rewrite (sorted_perm header_leb).
    eapply Forall_impl; [apply Hp|]. intros m (H1 & H2 & _). repeat split; try by apply policy_name_ok.
  - apply strings_plain, sorted_set_names, Hp.
  - apply policy_name_ok, Hp.
Qed.

(** The fingerprint of a policy can always be computed, and it is the policy's
    own: two policies with one fingerprint agree on the token type, the issuers, the
    audiences, the claims they require, the headers, the skew and the age, provided the
    digest has no collisions. *)
Theorem fingerprint_determines_policy `{FloatText} `{Sha256} p1 p2 :
  (forall a b, sha256 a = sha256 b -> a = b) -> (forall a, Forall is_byte a -> Forall is_byte (sha256 a)) ->
  valid_profile p1 -> valid_profile p2 ->
  is_Some (match policy_fingerprint p1 with Returned f => Some f | Raised _ => None end) /\
  (policy_fingerprint p1 = policy_fingerprint p2 ->
   vp_token_type p1 = vp_token_type p2 /\ vp_allowed_issuers p1 = vp_allowed_issuers p2 /\
   vp_accepted_audiences p1 = vp_accepted_audiences p2 /\ vp_required_claims p1 = vp_required_claims p2 /\
   vp_protected_headers p1 ≡ₚ vp_protected_headers p2 /\ vp_clock_skew p1 = vp_clock_skew p2 /\
   vp_max_token_age p1 = vp_max_token_age p2).
Proof.
  intros Hinj Hbytes H1 H2. pose proof (policy_plain p1 H1) as P1. pose proof (policy_plain p2 H2) as P2.
  unfold policy_fingerprint.
  destruct (proj2 (encodable_text _) (json_text_ok _ P1)) as [b1 E1], (proj2 (encodable_text _) (json_text_ok _ P2)) as [b2 E2].
  rewrite E1, E2. cbn [oget obind]. split; [by eexists|]. intros [= E].
  assert (sha256 b1 = sha256 b2) as Es.
  { pose proof (hex_roundtrip _ (Hbytes b1 (utf8_encode_bytes _ _ E1))) as R1.
    rewrite E, hex_roundtrip in R1 by (apply Hbytes; by eapply utf8_encode_bytes). congruence. }
  apply Hinj in Es as ->. apply utf8_decode_encode in E1, E2. assert (policy_json p1 = policy_json p2) as E3 by (apply json_text_injective; [done|done|congruence]).
  clear E1 E2 P1 P2. unfold policy_json in E3. rewrite !duration_microseconds_eq in E3.
  injection E3 as Ea Ei Es Em Eh Er Et.
  repeat match goal with E : JString <$> _ = JString <$> _ |- _ => apply (map_injective JString) in E; [|by intros ? ? [= ->]] end.
  split; [done|]. split; [by apply sorted_elements_injective|]. split; [by apply sorted_elements_injective|].
  split; [by apply sorted_elements_injective|]. split; [|split; [done|]].
  - rewrite <-(sorted_perm header_leb (vp_protected_headers p1)), <-(sorted_perm header_leb (vp_protected_headers p2)).
    apply (map_injective (fun m : pystr * pystr => strings_json [m.1; m.2])) in Eh; [by rewrite Eh|].
    by intros [] [] [= -> ->].
  - destruct (vp_max_token_age p1), (vp_max_token_age p2); try done. injection Em as Em.
    by rewrite !duration_microseconds_eq in Em; subst.
Qed.
