(* ===== verification/JwtCache.v ===== *)
(** * The cache of verified tokens ([bluetape/jwt/_cache.py])

    A result of verification is kept under the digest of the token, the fingerprint
    of the policy and the epoch of the key snapshot.  The cache behind it is a
    protocol, a record of operations; [CacheBackend] says what is asked of it, and the
    synchronous cache of [bluetape/cache/_sync.py] is an instance (JwtCacheLaws.v).
    The lock is re-entrant and held around each operation. *)

From S2P Require Import Prelude Python Leader PyObject Utf8 JwtClaims JwtKeys JwtRepository JwtProfiles.
Import Jwt.
Open Scope py_scope.
Open Scope Z_scope.

Definition cache_error : exn := JWTError Jwt.Cache.

Record VerifiedTokenCacheOptions : Type := {
  to_default_ttl : timedelta;
  to_max_size : Z;
}.

(** [VerifiedTokenCacheOptions(default_ttl, max_size)]. *)
Definition make_cache_options (default_ttl : arg timedelta) (max_size : arg Z) : outcome VerifiedTokenCacheOptions :=
  match default_ttl, max_size with
  | Exact ttl, Exact n =>
      if (ttl <=? 0) || (n <? 1) then Raised JWTConfigurationError
      else Returned {| to_default_ttl := ttl; to_max_size := n |}
  | _, _ => Raised JWTConfigurationError
  end.

(** [_CacheKey]: a digest, a fingerprint and an epoch. *)
Abbreviation cache_key := (pybytes * pystr * Z)%type.

Section Cache.
Context {W : Type}.

(** [_CacheBackend]. *)
Record cache_backend : Type := {
  cb_get : cache_key -> M W (arg VerifiedToken);
  cb_set : cache_key -> VerifiedToken -> float -> M W unit;
  cb_clear : M W unit;
}.

(** [_VerifiedTokenCache]; [tk_failures] holds the operations its log has reported. *)
Record TokenCache : Type := {
  tk_backend : cache_backend;
  tk_default_ttl : float;
  tk_observed : lens W (option Z);
  tk_failures : lens W (list string);
}.

(** [_VerifiedTokenCache(options, cache_factory=...)]: a backend has the three methods. *)
Definition make_token_cache (options : arg VerifiedTokenCacheOptions)
    (cache_factory : arg (float -> Z -> outcome (arg cache_backend)))
    (observed : lens W (option Z)) (failures : lens W (list string)) : outcome TokenCache :=
  match options, cache_factory with
  | Exact options, Exact factory =>
      let default_ttl := total_seconds (to_default_ttl options) in
      match factory default_ttl (to_max_size options) with
      | Raised e => if is_Exception e then Raised JWTConfigurationError else Raised e
      | Returned AnotherClass => Raised JWTConfigurationError
      | Returned (Exact cache) =>
          Returned {| tk_backend := cache; tk_default_ttl := default_ttl;
                      tk_observed := observed; tk_failures := failures |}
      end
  | _, _ => Raised JWTConfigurationError
  end.

Section Operations.
Variable self : TokenCache.

Definition raise_failure {A} (operation : string) : M W A :=
  locked (tk_failures self) (fun log => (tt, log ++ [operation])) ;; raise cache_error.

(** [try: ... except Exception: self._raise_failure(operation)]. *)
Definition or_failure {A} (operation : string) (m : M W A) : M W A :=
  r <- capture m ;;
  match r with
  | Returned a => ret a
  | Raised e => if is_Exception e then raise_failure operation else raise e
  end.

Definition observe (epoch : Z) : M W unit := locked (tk_observed self) (fun _ => (tt, Some epoch)).

Definition observe_epoch (epoch : Z) : M W unit :=
  observed <- locked (tk_observed self) (fun o => (o, o)) ;;
  match observed with
  | None => observe epoch
  | Some o =>
      if o =? epoch then ret tt
      else or_failure "clear" (cb_clear (tk_backend self)) ;; observe epoch
  end.

Context `{Sha256} {K : Type}.

Definition token_key (token : pystr) (profile : ValidationProfile) (snapshot : KeySnapshot K) : outcome cache_key :=
  let? encoded := oget (utf8_encode token) UnicodeError in
  Returned (sha256 encoded, vp_fingerprint profile, ks_epoch snapshot).

(** [get]: a missing key is no failure. *)
Definition token_cache_get (token : pystr) (profile : ValidationProfile) (snapshot : KeySnapshot K) :
    M W (option VerifiedToken) :=
  key <- pure_outcome (token_key token profile snapshot) ;;
  observe_epoch (ks_epoch snapshot) ;;
  r <- capture (cb_get (tk_backend self) key) ;;
  match r with
  | Returned (Exact value) => ret (Some value)
  | Returned AnotherClass => raise_failure "get"
  | Raised KeyError => ret None
  | Raised e => if is_Exception e then raise_failure "get" else raise e
  end.

(** [set]: nothing is kept once the live epoch has left the snapshot's, nor for
    longer than the token lives. *)
Definition token_cache_set (token : pystr) (profile : ValidationProfile) (snapshot : KeySnapshot K)
    (value : VerifiedToken) (now live_epoch : Z) : M W unit :=
  key <- pure_outcome (token_key token profile snapshot) ;;
  observe_epoch live_epoch ;;
  if negb (live_epoch =? ks_epoch snapshot) then ret tt
  else
    match vt_expires_at value with
    | None => or_failure "set" (cb_set (tk_backend self) key value (tk_default_ttl self))
    | Some expires_at =>
        let remaining := total_seconds (expires_at - now) in
        if fle remaining f0 then ret tt
        else or_failure "set" (cb_set (tk_backend self) key value (fmin (tk_default_ttl self) remaining))
    end.
End Operations.
End Cache.
Arguments cache_backend : clear implicits.
Arguments TokenCache : clear implicits.
