(* ===== verification/JwtCacheLaws.v ===== *)
(** * The cache of verified tokens: its contract, and the cache that keeps it

    [CacheBackend] is what the cache of tokens asks of the cache behind it: that it
    holds only what was stored, and nothing after it was cleared.  The synchronous
    cache ([TTLCache], SyncCache.v) is an instance. *)

From S2P Require Import Prelude Python Leader PyObject JwtClaims JwtKeys JwtRepository JwtProfiles JwtCache CacheCore SyncCache.
Import Jwt.
Open Scope py_scope.
Open Scope Z_scope.

(** ** The contract *)

Class CacheBackend {W : Type} (b : cache_backend W) : Type := {
  holds : W -> cache_key -> VerifiedToken -> Prop;
  get_holds key w :
    (forall v, fst (cb_get b key w) = Returned (Exact v) -> holds w key v) /\
    forall k v, holds (snd (cb_get b key w)) k v -> holds w k v;
  set_holds key value ttl w :
    forall k v, holds (snd (cb_set b key value ttl w)) k v -> holds w k v \/ (k = key /\ v = value);
  clear_holds w :
    (forall k v, holds (snd (cb_clear b w)) k v -> holds w k v) /\
    (fst (cb_clear b w) = Returned tt -> forall k v, ~ holds (snd (cb_clear b w)) k v);
}.

(** An attribute that lies outside what the backend keeps. *)
Class Apart {W S : Type} (b : cache_backend W) `{!CacheBackend b} (l : lens W S) : Prop := {
  apart_laws : LensLaws l;
  apart_holds s w k v : holds (lput l s w) k v <-> holds w k v;
  apart_get key w : lget l (snd (cb_get b key w)) = lget l w;
  apart_set key value ttl w : lget l (snd (cb_set b key value ttl w)) = lget l w;
  apart_clear w : lget l (snd (cb_clear b w)) = lget l w;
}.

(** Nothing is held that was not held before. *)
Definition shrinks {W} {b : cache_backend W} `{!CacheBackend b} : relation W :=
  fun w w' => forall k v, holds w' k v -> holds w k v.

#[export] Instance shrinks_preorder {W} {b : cache_backend W} `{!CacheBackend b} : PreOrder shrinks.
Proof. split; [by intros w k v|]. intros w1 w2 w3 H1 H2 k v Hv. by apply H1, H2. Qed.

Section Laws.
Context {W : Type} (c : TokenCache W) `{!CacheBackend (tk_backend c)}.
Context `{!Apart (tk_backend c) (tk_observed c)} `{!Apart (tk_backend c) (tk_failures c)}.

Lemma locked_shrinks {S A} (l : lens W S) `{!Apart (tk_backend c) l} (f : S -> A * S) : respects shrinks (locked l f).
Proof.
  intros w k v. unfold locked. destruct (f (lget l w)) as [a s]. cbn. intros H.
  by apply (proj1 (apart_holds s w k v)) in H.
Qed.

Lemma raise_failure_shrinks {A} operation : respects shrinks (raise_failure (A := A) c operation).
Proof. apply respects_bind; [apply _|by apply locked_shrinks|intros; apply respects_raise, _]. Qed.

Lemma clear_shrinks : respects shrinks (or_failure c "clear" (cb_clear (tk_backend c))).
Proof.
  apply respects_bind; [apply _|apply respects_capture; intros w; exact (proj1 (clear_holds w))|].
  intros [?|e]; [apply respects_ret, _|]. destruct (is_Exception e); [apply raise_failure_shrinks|apply respects_raise, _].
Qed.

Lemma observe_epoch_shrinks epoch : respects shrinks (observe_epoch c epoch).
Proof.
  apply respects_bind; [apply _|by apply locked_shrinks|]. intros [o|]; [|by apply locked_shrinks].
  destruct (o =? epoch); [apply respects_ret, _|].
  apply respects_bind; [apply _|apply clear_shrinks|intros; by apply locked_shrinks].
Qed.

Section Tokens.
Context `{Sha256} {K : Type}.
Implicit Types (s : KeySnapshot K).

Lemma bind_pure {A B} (r : outcome A) (k : A -> M W B) w :
  bind (pure_outcome r) k w = match r with Returned a => k a w | Raised e => (Raised e, w) end.
Proof. by destruct r. Qed.

Lemma bind_eq {A B} (m : M W A) (k : A -> M W B) w :
  bind m k w = match m w with (Returned a, w') => k a w' | (Raised e, w') => (Raised e, w') end.
Proof. reflexivity. Qed.

(** A look-up gives what is held under the key, and holds nothing new. *)
Lemma token_cache_get_sound token p s w :
  shrinks w (snd (token_cache_get c token p s w)) /\
  forall v, fst (token_cache_get c token p s w) = Returned (Some v) ->
    exists key, token_key token p s = Returned key /\ holds w key v.
Proof.
  unfold token_cache_get. rewrite bind_pure. destruct (token_key token p s) as [key|e]; [|by split].
  rewrite bind_eq. pose proof (observe_epoch_shrinks (ks_epoch s) w) as Ho.
  destruct (observe_epoch c (ks_epoch s) w) as [[[]|e] w1]; cbn in Ho; [|by split; [exact Ho|]].
  destruct (get_holds key w1) as [Hg1 Hg2]. rewrite bind_eq. unfold capture.
  destruct (cb_get (tk_backend c) key w1) as [r w2]. cbn in Hg1, Hg2.
  assert (shrinks w w2) as Hs by (intros k v Hv; auto).
  assert (forall op, shrinks w (snd (raise_failure (A := option VerifiedToken) c op w2))) as Hr
    by (intros op; etrans; [exact Hs|apply raise_failure_shrinks]).
  assert (forall op v, fst (raise_failure (A := option VerifiedToken) c op w2) <> Returned (Some v)) as Hn
    by (intros op v; unfold raise_failure, bind, locked, raise; cbn; discriminate).
  destruct r as [[v|]|e]; cbn -[raise_failure];
    [|by split; [apply Hr|intros v Hv; apply Hn in Hv]
     |destruct e; cbn -[raise_failure]; (split; [first [exact Hs|apply Hr]|intros v Hv; first [discriminate Hv|by apply Hn in Hv]])].
  split; [done|]. intros v' [= <-]. exists key. split; [done|]. apply Ho. by apply Hg1.
Qed.

(** Storing adds nothing but the value, and only under the live epoch. *)
Lemma token_cache_set_sound token p s value now live w k v :
  holds (snd (token_cache_set c token p s value now live w)) k v ->
  holds w k v \/ (token_key token p s = Returned k /\ v = value /\ live = ks_epoch s).
Proof.
  unfold token_cache_set. rewrite bind_pure. destruct (token_key token p s) as [key|e]; [|by left].
  rewrite bind_eq. pose proof (observe_epoch_shrinks live w) as Ho.
  destruct (observe_epoch c live w) as [[[]|e] w1]; cbn in Ho; [|intros; left; auto].
  destruct (Z.eqb_spec live (ks_epoch s)) as [->|]; [|intros; left; auto]. cbn [negb].
  assert (forall ttl, holds (snd (or_failure c "set" (cb_set (tk_backend c) key value ttl) w1)) k v ->
    holds w k v \/ (k = key /\ v = value)) as Hset.
  { intros ttl. unfold or_failure, bind, capture. pose proof (set_holds key value ttl w1) as Hs.
    destruct (cb_set (tk_backend c) key value ttl w1) as [r w2]. cbn in Hs.
    assert (holds w2 k v -> holds w k v \/ (k = key /\ v = value)) as Hb by (intros [Hv|]%Hs; auto).
    destruct r as [?|[]]; cbn; try done; intros Hv; apply Hb; by apply (raise_failure_shrinks (A := unit) "set" w2). }
  assert (holds w k v \/ (k = key /\ v = value) ->
    holds w k v \/ (Returned key = Returned k /\ v = value /\ ks_epoch s = ks_epoch s)) as Hgo
    by (intros [|[-> ->]]; auto).
  destruct (vt_expires_at value) as [e|]; [|intros Hv; by eapply Hgo, Hset].
  destruct (fle _ _); [intros Hv; left; auto|intros Hv; by eapply Hgo, Hset].
Qed.

(** ** One epoch at a time *)

(** What is held was kept under the epoch that was observed last. *)
Definition one_epoch (w : W) : Prop := forall k v, holds w k v -> lget (tk_observed c) w = Some k.2.

Context (Hlog : forall log w, lget (tk_observed c) (lput (tk_failures c) log w) = lget (tk_observed c) w).

#[local] Instance observed_laws : LensLaws (tk_observed c).
Proof. exact (apart_laws (b := tk_backend c)). Qed.

Lemma read_observed w : locked (tk_observed c) (fun o => (o, o)) w = (Returned (lget (tk_observed c) w), w).
Proof. unfold locked. by rewrite lput_lget. Qed.

Lemma one_epoch_shrinks w w' : shrinks w w' -> lget (tk_observed c) w' = lget (tk_observed c) w -> one_epoch w -> one_epoch w'.
Proof. intros Hs Ho Hw k v Hv. rewrite Ho. apply (Hw k v), Hs, Hv. Qed.

Lemma raise_failure_epoch {A} operation w : one_epoch w -> one_epoch (snd (raise_failure (A := A) c operation w)).
Proof. intros Hw. eapply one_epoch_shrinks; [apply raise_failure_shrinks|apply Hlog|done]. Qed.

Lemma or_failure_epoch operation (m : M W unit) w :
  one_epoch (snd (m w)) -> one_epoch (snd (or_failure c operation m w)).
Proof.
  unfold or_failure, bind, capture. destruct (m w) as [[a|e] w']; cbn; [done|]. intros Hw.
  destruct e; cbn; try done; by apply (raise_failure_epoch (A := unit) operation w').
Qed.

Lemma observe_lget epoch w : lget (tk_observed c) (snd (observe c epoch w)) = Some epoch.
Proof. apply lget_lput. Qed.

Lemma observe_holds epoch w k v : holds (snd (observe c epoch w)) k v -> holds w k v.
Proof. intros Hv. by apply (proj1 (apart_holds _ _ _ _)) in Hv. Qed.

Lemma observe_empty epoch w : (forall k v, ~ holds w k v) -> one_epoch (snd (observe c epoch w)).
Proof. intros He k v Hv%observe_holds. by apply He in Hv. Qed.

Lemma observe_epoch_one epoch w : one_epoch w ->
  one_epoch (snd (observe_epoch c epoch w)) /\
  (fst (observe_epoch c epoch w) = Returned tt -> lget (tk_observed c) (snd (observe_epoch c epoch w)) = Some epoch).
Proof.
  intros Hw. unfold observe_epoch. rewrite bind_eq, read_observed.
  destruct (lget (tk_observed c) w) as [n|] eqn:E.
  2: { split; [|intros _; apply observe_lget]. apply observe_empty. intros k v Hv. specialize (Hw k v Hv). congruence. }
  destruct (Z.eqb_spec n epoch) as [->|]; [by split; [|intros _]|]. rewrite bind_eq.
  destruct (clear_holds w) as [Hc1 Hc2]. pose proof (apart_clear (l := tk_observed c) w) as Hc3.
  unfold or_failure. rewrite bind_eq. unfold capture. destruct (cb_clear (tk_backend c) w) as [r w1]. cbn in Hc1, Hc2, Hc3.
  assert (one_epoch w1) as Hw1 by (by eapply one_epoch_shrinks).
  destruct r as [[]|e].
  - cbn [ret]. split; [|intros _; apply observe_lget]. apply observe_empty. by apply Hc2.
  - pose proof (raise_failure_epoch (A := unit) "clear" w1 Hw1) as Hf.
    destruct e; cbn in *; split; try done.
Qed.

(** The cache holds the results of one epoch: whatever a look-up or a store of any
    token, under any snapshot, does (its failures included), what is held afterwards was
    kept under the epoch observed last; results of keys that were since rotated or
    revoked are gone, not merely unreachable. *)
Theorem cache_holds_one_epoch token p s value now live w :
  one_epoch w ->
  one_epoch (snd (token_cache_get c token p s w)) /\ one_epoch (snd (token_cache_set c token p s value now live w)).
Proof.
  intros Hw. unfold token_cache_get, token_cache_set. rewrite !bind_pure.
  destruct (token_key token p s) as [key|e] eqn:Ek; [|by split].
  assert (key.2 = ks_epoch s) as Hk by (unfold token_key in Ek; by apply obind_returned in Ek as (? & _ & [= <-])).
  split; rewrite bind_eq.
  - destruct (observe_epoch_one (ks_epoch s) w Hw) as [Ho _]. destruct (observe_epoch c (ks_epoch s) w) as [[[]|e] w1]; [|done].
    cbn in Ho. rewrite bind_eq. unfold capture. destruct (get_holds key w1) as [_ Hg].
    pose proof (apart_get (l := tk_observed c) key w1) as Hg'. destruct (cb_get (tk_backend c) key w1) as [r w2]. cbn in Hg, Hg'.
    assert (one_epoch w2) as Hw2 by (by eapply one_epoch_shrinks).
    pose proof (raise_failure_epoch (A := option VerifiedToken) "get" w2 Hw2) as Hf.
    destruct r as [[v|]|e]; [done|done|destruct e; done].
  - destruct (observe_epoch_one live w Hw) as [Ho Ho']. destruct (observe_epoch c live w) as [[[]|e] w1]; [|done].
    cbn in Ho, Ho'. specialize (Ho' eq_refl). destruct (Z.eqb_spec live (ks_epoch s)) as [->|]; [|done]. cbn [negb].
    assert (forall ttl, one_epoch (snd (or_failure c "set" (cb_set (tk_backend c) key value ttl) w1))) as Hs.
    { intros ttl. apply or_failure_epoch. intros k v [Hv|[-> _]]%set_holds; rewrite apart_set; [by apply (Ho k v)|].
      by rewrite Ho', Hk. }
    destruct (vt_expires_at value) as [e|]; [destruct (fle _ _); [done|apply Hs]|apply Hs].
Qed.
End Tokens.
End Laws.

(** ** The synchronous cache as a backend *)

Section Backend.
Context {W : Type} (o : cache_object cache_key VerifiedToken W) `{!LensLaws (co_cache o)}.
(** Reading the clock does not touch the cache. *)
Context (Hclock : forall w, lget (co_cache o) (snd (co_clock o w)) = lget (co_cache o) w).

Definition ttl_backend : cache_backend W :=
  {| cb_get := fun key => v <- get_method o key ;; ret (Exact v);
     cb_set := fun key value ttl => set_method o key value (PyFloat ttl);
     cb_clear := clear_method o |}.

(** An entry of the cache, expired or not. *)
Definition stored_entry (w : W) (k : cache_key) (v : VerifiedToken) : Prop :=
  exists e, (k, e) ∈ entries (tc_state (lget (co_cache o) w)) /\ CacheCore.value e = v.

Lemma purge_subset (heap : list (heap_record cache_key)) (st : CacheState cache_key VerifiedToken) now owned :
  entries (purge_loop heap st now owned) ⊆ entries st.
Proof.
  revert st. induction heap as [|r heap IH]; intros st; cbn; [done|]. destruct (_ <=? _); [|done].
  etrans; [apply IH|]. apply sublist_subseteq, expire_sublist.
Qed.

Lemma get_subset (st : CacheState cache_key VerifiedToken) key now owned :
  entries (snd (get st key now owned)) ⊆ entries st.
Proof.
  pose proof (purge_subset (expiry_heap st) st now owned) as Hp. unfold get, purge_expired.
  destruct (od_get key _) as [e|] eqn:E; cbn; [|done]. unfold od_move_to_end. rewrite E.
  intros x [Hx|Hx]%elem_of_app; [apply Hp; by apply (sublist_subseteq _ _ (od_delete_sublist _ key)) in Hx|].
  apply list_elem_of_singleton in Hx as ->. apply Hp. by apply od_get_elem.
Qed.

Lemma get_entry (st : CacheState cache_key VerifiedToken) key now owned v :
  fst (get st key now owned) = Returned v -> exists e, (key, e) ∈ entries st /\ CacheCore.value e = v.
Proof.
  unfold get. destruct (od_get key _) as [e|] eqn:E; cbn; [|done]. intros [= <-]. exists e. split; [|done].
  apply (purge_subset (expiry_heap st) st now owned). by apply od_get_elem.
Qed.

Lemma store_subset (st : CacheState cache_key VerifiedToken) key v ttl now owned k e :
  (k, e) ∈ entries (store st key v ttl now owned) -> (k, e) ∈ entries st \/ (k = key /\ CacheCore.value e = v).
Proof.
  rewrite store_stored. cbv zeta.
  set (st1 := stored (purge_expired st now owned) key v (now + ttl)).
  assert (forall x, (k, x) ∈ entries st1 -> (k, x) ∈ entries st \/ (k = key /\ CacheCore.value x = v)) as H1.
  { intros x [Hx|Hx]%elem_of_app.
    - left. apply (purge_subset (expiry_heap st) st now owned). by apply (sublist_subseteq _ _ (od_delete_sublist _ key)) in Hx.
    - apply list_elem_of_singleton in Hx. injection Hx as -> ->. by right. }
  destruct (evict_sub owned (length (entries st1)) st1) as [Hsub _].
  destruct (_ <? _); cbn; intros Hin; apply H1, Hsub, Hin.
Qed.

Lemma supersede_state (cache : TTLCache cache_key VerifiedToken) key : tc_state (supersede cache key) = tc_state cache.
Proof. unfold supersede. by destruct (active_flights cache !! key). Qed.

Lemma get_method_entries key w :
  (forall v, fst (get_method o key w) = Returned v -> stored_entry w key v) /\
  forall k v, stored_entry (snd (get_method o key w)) k v -> stored_entry w k v.
Proof.
  unfold get_method, under_lock, stored_entry. pose proof (Hclock w) as Hc. destruct (co_clock o w) as [tick w']. cbn in Hc.
  rewrite Hc. unfold cache_get, with_now. destruct tick as [t|e]; cbn.
  2: { split; [done|]. intros k v. by rewrite lget_lput. }
  match goal with |- context [get ?s key ?n ?u] =>
    pose proof (get_subset s key n u) as Hs; pose proof (get_entry s key n u) as He; destruct (get s key n u) as [r st']
  end. cbn in *. split.
  - intros v ->. destruct (He v eq_refl) as (e & ? & ?). by exists e.
  - intros k v. rewrite lget_lput. cbn. intros (e & Hin & ?). exists e. split; [|done]. by apply Hs in Hin.
Qed.

Lemma set_method_entries key value ttl w k v :
  stored_entry (snd (set_method o key value (PyFloat ttl) w)) k v -> stored_entry w k v \/ (k = key /\ v = value).
Proof.
  unfold set_method, resolve_ttl. rewrite bind_pure. destruct (ttl_ns (PyFloat ttl) "ttl") as [d|e]; [|by left].
  unfold under_lock, stored_entry. pose proof (Hclock w) as Hc. destruct (co_clock o w) as [tick w']. cbn in Hc.
  rewrite Hc. unfold cache_set, with_now. destruct tick as [t|e]; cbn -[store]; rewrite lget_lput.
  2: { intros H. left. by rewrite supersede_state in H. }
  cbn -[store]. intros (e & Hin%store_subset & <-). cbn in Hin. rewrite supersede_state in Hin.
  destruct Hin as [Hin|[-> Hv]]; [left; by exists e|by right].
Qed.

Lemma clear_method_entries w :
  (forall k v, stored_entry (snd (clear_method o w)) k v -> stored_entry w k v) /\
  (fst (clear_method o w) = Returned tt -> forall k v, ~ stored_entry (snd (clear_method o w)) k v).
Proof.
  unfold clear_method, under_lock, stored_entry. pose proof (Hclock w) as Hc. destruct (co_clock o w) as [tick w']. cbn in Hc.
  rewrite Hc. unfold cache_clear, with_now. destruct tick as [t|e]; cbn; setoid_rewrite lget_lput; cbn; [|by split].
  assert (forall k v, ~ exists e, (k, e) ∈ ([] : list (cache_key * Entry VerifiedToken)) /\ CacheCore.value e = v) as Hn
    by (intros k v (e & Hin & _); by apply elem_of_nil in Hin).
  split; [intros k v Hv; by apply Hn in Hv|by intros _].
Qed.

#[export] Instance ttl_cache_backend : CacheBackend ttl_backend.
Proof.
  refine {| holds := stored_entry |}.
  - intros key w. destruct (get_method_entries key w) as [H1 H2]. cbn. unfold bind.
    destruct (get_method o key w) as [[v|e] w1]; cbn in *; split; try done. intros v' [= <-]. by apply H1.
  - intros key value ttl w. apply set_method_entries.
  - apply clear_method_entries.
Defined.
End Backend.
