(* ===== verification/JwtProvider.v ===== *)
(** * The token provider ([bluetape/jwt/_provider.py])

    Compact JWS tokens under one algorithm, one repository of keys and one policy.
    The repository ([KeyRepository]) and the clock are computations of the caller's
    world, which may let other threads run; the signature is the library's ([Jose]). *)

From S2P Require Import Prelude Python Leader PyObject Utf8 Codec JsonText JwtClaims JwtKeys JwtRepository JwtProfiles JwtCache.
Import Jwt.
Open Scope py_scope.
Open Scope Z_scope.

Definition MAX_TOKEN_BYTES : Z := 16384.
Definition MAX_PROTECTED_HEADER_BYTES : Z := 512.

Definition unsupported_token_error : exn := JWTError UnsupportedToken.
Definition key_unavailable_error : exn := JWTError KeyUnavailable.

(** ** Strict JSON *)

Fixpoint strict_object (pairs : list (pystr * json)) (result : list (pystr * json)) : outcome (list (pystr * json)) :=
  match pairs with
  | [] => Returned result
  | (name, value) :: rest =>
      if dict_has name result then Raised (ValueError "") else strict_object rest (dict_set name value result)
  end.

Definition reject_json_constant (_ : pystr) : outcome json := Raised (ValueError "").

(** [_StrictJSONDecoder]; numbers are those of [json]. *)
Definition strict_decoder `{FloatText} : json_hooks :=
  {| hk_int := fun text => Returned (JInt (int_of_text text));
     hk_float := fun text => Returned (JFloat (float_of_text text));
     hk_constant := reject_json_constant;
     hk_object := fun pairs => let? members := strict_object pairs [] in Returned (JObject members) |}.

(** ** The shape of a token *)

(** [token.split(".")]; 46 is the dot. *)
Fixpoint split_dots (text : pystr) : list pystr :=
  match text with
  | [] => [[]]
  | c :: rest =>
      if c =? 46 then [] :: split_dots rest
      else match split_dots rest with
           | segment :: others => (c :: segment) :: others
           | [] => [[c]]
           end
  end.

Definition segment_ok (segment : pystr) : bool :=
  match segment with [] => false | _ => forallb is_base64url segment end.

Definition validate_token_shape (token : arg pystr) : outcome (pystr * pystr * pystr) :=
  match token with
  | AnotherClass => Raised malformed_token_error
  | Exact token =>
      let? _ := orequire (slen token <=? MAX_TOKEN_BYTES) malformed_token_error in
      let? encoded := oget (utf8_encode token) malformed_token_error in
      let? _ := orequire (slen encoded <=? MAX_TOKEN_BYTES) malformed_token_error in
      match split_dots token with
      | [header; payload; signature] =>
          let? _ := orequire (forallb segment_ok [header; payload; signature]) malformed_token_error in
          Returned (header, payload, signature)
      | _ => Raised malformed_token_error
      end
  end.

(** The members of a header that are strings. *)
Fixpoint string_header (members : list (pystr * json)) : option (list (pystr * pystr)) :=
  match members with
  | [] => Some []
  | (name, JString value) :: rest => cons (name, value) <$> string_header rest
  | _ :: _ => None
  end.

(** [decoded.header != header] is false: a [dict] with the members of the header. *)
Definition header_equal (decoded : pyobj) (header : list (pystr * pystr)) : bool :=
  match decoded with
  | ODict _ items =>
      (length items =? length header)%nat &&
      forallb (fun m : pyobj * pyobj =>
        match m with
        | (OStr name, OStr value) => bool_decide (dict_get name header = Some value)
        | _ => false
        end) items
  | _ => false
  end.

(** ** The provider *)

Section Provider.
Context {W K : Type} `{Jose K} `{FloatText} `{Sha256}.

Record JWSProvider : Type := {
  jp_algorithm : JWSAlgorithm;
  jp_snapshot : M W (arg (KeySnapshot K));
  jp_profile : ValidationProfile;
  jp_clock : M W (arg moment);
  jp_cache : option (TokenCache W);
}.

(** [JWSProvider(algorithm, repository, validation_profile, cache=...)]. *)
Definition make_provider (algorithm : arg JWSAlgorithm) (repository : arg (M W (arg (KeySnapshot K))))
    (validation_profile : arg ValidationProfile) (clock : M W (arg moment))
    (cache : option (arg VerifiedTokenCacheOptions)) (cache_factory : float -> Z -> outcome (arg (cache_backend W)))
    (observed : lens W (option Z)) (failures : lens W (list string)) : outcome JWSProvider :=
  match algorithm, repository, validation_profile with
  | Exact algorithm, Exact snapshot, Exact profile =>
      let? cache :=
        match cache with
        | None => Returned None
        | Some options =>
            let? c := make_token_cache options (Exact cache_factory) observed failures in Returned (Some c)
        end in
      Returned {| jp_algorithm := algorithm; jp_snapshot := snapshot; jp_profile := profile; jp_clock := clock;
                  jp_cache := cache |}
  | _, _, _ => Raised JWTConfigurationError
  end.

Section Operations.
Variable self : JWSProvider.

Definition registered_headers : list pystr := (vp_protected_headers (jp_profile self)).*1.

Definition take_snapshot : M W (KeySnapshot K) :=
  r <- capture (jp_snapshot self) ;;
  match r with
  | Returned (Exact snapshot) => ret snapshot
  | Returned AnotherClass => raise key_unavailable_error
  | Raised e =>
      if is_JWTError e then raise e else if is_Exception e then raise key_unavailable_error else raise e
  end.

Definition live_epoch : M W (option Z) :=
  r <- capture (jp_snapshot self) ;;
  match r with
  | Returned (Exact snapshot) => ret (Some (ks_epoch snapshot))
  | Returned AnotherClass => ret None
  | Raised e => if is_Exception e then ret None else raise e
  end.

Definition signing_key (snapshot : KeySnapshot K) : outcome (JWTKey K) :=
  match active_entry snapshot with
  | None => Raised key_unavailable_error
  | Some entry =>
      match ke_status entry, ke_key entry with
      | ACTIVE, Some key =>
          let? _ := orequire (bool_decide (key_algorithm key = jp_algorithm self) && key_can_sign key) key_unavailable_error in
          Returned key
      | _, _ => Raised key_unavailable_error
      end
  end.

Definition issue_header (key : JWTKey K) : list (pystr * pystr) :=
  [(py "alg", algorithm_value (jp_algorithm self)); (py "kid", key_kid key);
   (py "typ", vp_token_type (jp_profile self))] ++ vp_protected_headers (jp_profile self).

Definition sign_claims (key : JWTKey K) (claims : TokenClaims) : outcome pystr :=
  let r :=
    let? payload := claims_to_payload claims in
    jose_encode (issue_header key) payload (key_material_of key) (jp_algorithm self) registered_headers in
  match r with
  | Returned token => Returned token
  | Raised e => if is_JWTError e then Raised e else if is_Exception e then Raised (JWTError Token) else Raised e
  end.

Definition issue (claims : TokenClaims) : M W pystr :=
  snapshot <- take_snapshot ;;
  key <- pure_outcome (signing_key snapshot) ;;
  pure_outcome (sign_claims key claims).

Definition read_header (encoded : pystr) : outcome (list (pystr * pystr)) :=
  let padding := repeat 61 (Z.to_nat (- slen encoded mod 4)) in
  let? raw := oget (b64decode (encoded ++ padding)) malformed_token_error in
  let? _ := orequire (slen raw <=? MAX_PROTECTED_HEADER_BYTES) malformed_token_error in
  let? text := oget (utf8_decode raw) malformed_token_error in
  let? value :=
    match json_loads strict_decoder text with
    | Returned v => Returned v
    | Raised e => if is_ValueError e then Raised malformed_token_error else Raised e
    end in
  match value with
  | JObject members =>
      let allowed := [py "alg"; py "kid"; py "typ"] ++ registered_headers in
      let expected :=
        [(py "alg", algorithm_value (jp_algorithm self)); (py "typ", vp_token_type (jp_profile self))] ++
        vp_protected_headers (jp_profile self) in
      let? _ := orequire (bool_decide (list_to_set members.*1 =@{gset pystr} list_to_set allowed)) unsupported_token_error in
      let? header := oget (string_header members) unsupported_token_error in
      let? _ :=
        orequire (forallb (fun m => bool_decide (dict_get m.1 header = Some m.2)) expected) unsupported_token_error in
      let? kid := oget (dict_get (py "kid") header) unsupported_token_error in
      let? _ := orequire (valid_kid kid) unsupported_token_error in
      Returned header
  | _ => Raised malformed_token_error
  end.

(** The key a header names, of the snapshot; a tombstone has none. *)
Definition verification_key (snapshot : KeySnapshot K) (header : list (pystr * pystr)) : outcome (JWTKey K) :=
  match (kid ← dict_get (py "kid") header; dict_get kid (ks_entries snapshot)) with
  | None => Raised key_unavailable_error
  | Some entry =>
      match ke_status entry, ke_key entry with
      | REVOKED, _ | _, None => Raised key_unavailable_error
      | _, Some key =>
          let? _ := orequire (bool_decide (key_algorithm key = jp_algorithm self)) unsupported_token_error in
          Returned key
      end
  end.

Definition decode_token (token : pystr) (key : JWTKey K) : outcome (pyobj * pyobj) :=
  match jose_decode token (key_material_of key) (jp_algorithm self) registered_headers with
  | Returned decoded => Returned decoded
  | Raised e =>
      if is_Exception e then
        match e with
        | JoseError BadSignature => Raised (JWTError Signature)
        | JoseError Decode | JoseError InvalidPayload => Raised malformed_token_error
        | JoseError AnotherJose => Raised unsupported_token_error
        | _ => Raised (JWTError Signature)
        end
      else Raised e
  end.

Definition header_value (name : pystr) (header : list (pystr * pystr)) : pystr := default [] (dict_get name header).

Definition custom_headers (header : list (pystr * pystr)) : list (pystr * pystr) :=
  (fun name => (name, header_value name header)) <$> registered_headers.

(** A verification in full, of a token of three segments, at the time [now]. *)
Definition verify_fresh (token encoded_header : pystr) (snapshot : KeySnapshot K) (now : Z) : outcome VerifiedToken :=
  let? header := read_header encoded_header in
  let? key := verification_key snapshot header in
  let? (decoded_header, decoded_claims) := decode_token token key in
  let? _ := orequire (header_equal decoded_header header) malformed_token_error in
  let? claims := claims_from_payload decoded_claims in
  let? _ :=
    validate_claims (Exact claims) (Exact (jp_profile self)) (header_value (py "typ") header) (custom_headers header)
      (utc_moment now) in
  to_verified_token claims (key_kid key) (jp_algorithm self) (header_value (py "typ") header) (custom_headers header).

Definition validate_cached (value : VerifiedToken) (now : Z) : outcome unit :=
  let? claims :=
    make_claims (OStr (vt_issuer value)) (string_object (vt_subject value)) (strings_object (vt_audience value))
      (utc_moment <$> vt_expires_at value) (utc_moment <$> vt_not_before value) (utc_moment <$> vt_issued_at value)
      (string_object (vt_jwt_id value)) (custom_object (vt_custom value)) in
  validate_claims (Exact claims) (Exact (jp_profile self)) (vt_token_type value) (vt_headers value) (utc_moment now).

(** What the cache has, if there is one. *)
Definition cached_token (token : pystr) (snapshot : KeySnapshot K) : M W (option VerifiedToken) :=
  match jp_cache self with
  | None => ret None
  | Some cache => token_cache_get cache token (jp_profile self) snapshot
  end.

Definition keep_token (token : pystr) (snapshot : KeySnapshot K) (verified : VerifiedToken) (now : Z) : M W unit :=
  match jp_cache self with
  | None => ret tt
  | Some cache =>
      live <- live_epoch ;;
      match live with
      | None => ret tt
      | Some epoch => token_cache_set cache token (jp_profile self) snapshot verified now epoch
      end
  end.

Definition verify (token : arg pystr) : M W VerifiedToken :=
  match token, validate_token_shape token with
  | Exact token, Returned (encoded_header, _, _) =>
      snapshot <- take_snapshot ;;
      reading <- capture (jp_clock self) ;;
      now <- pure_outcome (capture_reference_time reading) ;;
      cached <- cached_token token snapshot ;;
      match cached with
      | Some value => pure_outcome (validate_cached value now) ;; ret value
      | None =>
          verified <- pure_outcome (verify_fresh token encoded_header snapshot now) ;;
          keep_token token snapshot verified now ;;
          ret verified
      end
  | _, Raised e => raise e
  | AnotherClass, Returned _ => raise malformed_token_error
  end.
End Operations.
End Provider.
Arguments JWSProvider : clear implicits.
