(* ===== verification/JwtProviderLaws.v ===== *)
(** * The token provider: what it accepts

    A token that [verify] returns was signed under a key that the repository's current
    snapshot has and has not revoked, and is within the policy now; whether the result
    is fresh or comes from the cache, and whatever other threads do to the repository and
    to the cache meanwhile. *)

From S2P Require Import Prelude Python Leader LeaseRecord PyObject Utf8 Codec JsonText JwtClaims JwtClaimsLaws JwtKeys JwtRepository JwtRepositoryLaws JwtProfiles JwtProfilesLaws JwtCache JwtCacheLaws JwtProvider.
Import Jwt.
Open Scope py_scope.
Open Scope Z_scope.

(** ** Verified tokens *)

Definition token_claims (v : VerifiedToken) : TokenClaims :=
  {| tc_issuer := Some (vt_issuer v); tc_subject := vt_subject v; tc_audience := vt_audience v;
     tc_expires_at := vt_expires_at v; tc_not_before := vt_not_before v; tc_issued_at := vt_issued_at v;
     tc_jwt_id := vt_jwt_id v; tc_custom := vt_custom v |}.

Definition headers_ok (headers : list (pystr * pystr)) : Prop :=
  NoDup headers.*1 /\ Forall (fun m => valid_name m.1 = true /\ valid_name m.2 = true /\ m.1 ∉ RESERVED_HEADERS) headers.

Lemma freeze_header_items_object headers frozen :
  NoDup (frozen.*1 ++ headers.*1) ->
  Forall (fun m => valid_name m.1 = true /\ valid_name m.2 = true /\ m.1 ∉ RESERVED_HEADERS) headers ->
  freeze_header_items ((fun m => (OStr m.1, OStr m.2)) <$> headers) frozen = Returned (frozen ++ headers).
Proof.
  revert frozen. induction headers as [|[k v] headers IH]; intros frozen Hd Hf; cbn; [by rewrite app_nil_r|].
  apply Forall_cons in Hf as [(Hk & Hv & Hr) Hf]. cbn in Hk, Hv, Hr. rewrite Hk, Hv. cbn [obind].
  rewrite decide_False by done. cbn [obind]. rewrite dict_set_fresh.
  - rewrite IH; [by rewrite <-app_assoc| |done]. by rewrite fmap_app, <-app_assoc.
  - rewrite dict_has_keys. apply bool_decide_eq_false. apply NoDup_app in Hd as (_ & Hd & _). intros Hin.
    apply (Hd k Hin). by left.
Qed.

Lemma freeze_headers_object headers : headers_ok headers -> freeze_headers (headers_object headers) = Returned headers.
Proof. intros [Hd Hf]. unfold freeze_headers, headers_object. cbn [mapping_items]. by rewrite freeze_header_items_object. Qed.

(** The value made of claims that passed has their fields. *)
Lemma to_verified_token_exact claims issuer kid algorithm token_type headers :
  valid_claims claims -> tc_issuer claims = Some issuer -> tc_audience claims <> [] ->
  valid_name kid = true -> valid_name token_type = true -> headers_ok headers ->
  to_verified_token claims kid algorithm token_type headers =
    Returned {| vt_kid := kid; vt_algorithm := algorithm; vt_token_type := token_type; vt_issuer := issuer;
                vt_subject := tc_subject claims; vt_audience := tc_audience claims;
                vt_expires_at := tc_expires_at claims; vt_not_before := tc_not_before claims;
                vt_issued_at := tc_issued_at claims; vt_jwt_id := tc_jwt_id claims; vt_custom := tc_custom claims;
                vt_headers := headers |}.
Proof.
  intros [] Hi Ha Hk Ht Hh. unfold to_verified_token. rewrite Hi in *. destruct (tc_audience claims) as [|a l] eqn:E; [done|].
  unfold make_verified. cbn [validate_string]. rewrite Hk. cbn [obind]. rewrite Ht. cbn [obind].
  assert (valid_name issuer = true) as -> by done. cbn [obind]. rewrite optional_string_object by done. cbn [obind].
  rewrite (proj1 (normalize_audience_strings false false (a :: l) ltac:(done) ltac:(done))). cbn [obind].
  rewrite !optional_datetime_utc by done. cbn [obind]. rewrite optional_string_object by done. cbn [obind].
  unfold custom_object, frozen_object. rewrite freeze_custom_object by done. cbn [obind].
  by rewrite freeze_headers_object.
Qed.

(** ** A fresh verification *)

Section Fresh.
Context {W K : Type} `{HJ : Jose K} `{HF : FloatText} `{HS : Sha256} (self : JWSProvider W K).
Hypothesis Hprofile : valid_profile (jp_profile self).

(** [v] is what the token says, signed under a key of the snapshot that is not revoked. *)
Definition verified_under (s : KeySnapshot K) (token : pystr) (v : VerifiedToken) : Prop :=
  exists entry key header payload,
    dict_get (vt_kid v) (ks_entries s) = Some entry /\ ke_status entry <> REVOKED /\ ke_key entry = Some key /\
    key_algorithm key = jp_algorithm self /\ vt_algorithm v = jp_algorithm self /\
    jose_decode token (key_material_of key) (jp_algorithm self) (registered_headers self) = Returned (header, payload) /\
    claims_from_payload payload = Returned (token_claims v).

(** What the policy asks of a verified token at a time. *)
Definition accepted_at (v : VerifiedToken) (now : Z) : Prop :=
  within_policy (jp_profile self) (token_claims v) (vt_token_type v) (vt_headers v) now.

Lemma policy_name_valid s : policy_name s = true -> valid_name s = true.
Proof. by intros [? _]%andb_true_iff. Qed.

Lemma valid_kid_name kid : valid_kid kid = true -> valid_name kid = true.
Proof. unfold valid_kid. destruct (utf8_encode kid); [|done]. by intros [? _]%andb_true_iff. Qed.

Lemma profile_headers_ok : headers_ok (vp_protected_headers (jp_profile self)).
Proof.
  split; [apply Hprofile|]. eapply Forall_impl; [apply (vv_headers _ Hprofile)|].
  intros m (? & ? & ?). repeat split; try done; by apply policy_name_valid.
Qed.

(** A header that is read names the algorithm, the type and the headers of the
    policy, and a valid identifier. *)
Lemma read_header_returned encoded header :
  read_header self encoded = Returned header ->
  header_value (py "typ") header = vp_token_type (jp_profile self) /\
  custom_headers self header = vp_protected_headers (jp_profile self) /\
  dict_get (py "alg") header = Some (algorithm_value (jp_algorithm self)) /\
  exists kid, dict_get (py "kid") header = Some kid /\ valid_kid kid = true.
Proof.
  unfold read_header. intros H'. do 3 (apply obind_returned in H' as (? & _ & H')).
  apply obind_returned in H' as (value & _ & H'). destruct value as [| | | | | |members]; try done.
  apply obind_returned in H' as (? & _ & H'). apply obind_returned in H' as (h & _ & H').
  apply obind_returned in H' as (? & Hx%orequire_returned & H').
  apply obind_returned in H' as (kid & Hkid%oget_returned & (? & Hv%orequire_returned & [= <-])%obind_returned).
  rewrite forallb_app in Hx. apply andb_true_iff in Hx as [H1 H2]. cbn [forallb fst snd] in H1.
  rewrite !andb_true_iff, !bool_decide_eq_true in H1. destruct H1 as (Halg & Htyp & _).
  split; [unfold header_value; by rewrite Htyp|]. split; [|split; [done|by exists kid]].
  unfold custom_headers, registered_headers. rewrite <-list_fmap_compose.
  rewrite forallb_forall in H2. clear - H2. induction (vp_protected_headers (jp_profile self)) as [|[k v] l IH]; [done|].
  cbn. f_equal; [|apply IH; intros x Hx; apply H2; by right].
  specialize (H2 (k, v) (or_introl eq_refl)). apply bool_decide_eq_true in H2. cbn in *. unfold header_value. by rewrite H2.
Qed.

Lemma verification_key_returned s header key :
  verification_key self s header = Returned key ->
  exists kid entry, dict_get (py "kid") header = Some kid /\ dict_get kid (ks_entries s) = Some entry /\
    ke_status entry <> REVOKED /\ ke_key entry = Some key /\ key_algorithm key = jp_algorithm self.
Proof.
  unfold verification_key. destruct (dict_get (py "kid") header) as [kid|]; cbn; [|done].
  destruct (dict_get kid (ks_entries s)) as [entry|] eqn:E; [|done].
  assert (forall k, ke_status entry <> REVOKED -> ke_key entry = Some k ->
    obind (orequire (bool_decide (key_algorithm k = jp_algorithm self)) unsupported_token_error) (fun _ => Returned k) = Returned key ->
    exists kid' entry', Some kid = Some kid' /\ dict_get kid' (ks_entries s) = Some entry' /\
      ke_status entry' <> REVOKED /\ ke_key entry' = Some key /\ key_algorithm key = jp_algorithm self) as Hgo.
  { intros k Hs Hk (? & Ha%orequire_returned & [= <-])%obind_returned. apply bool_decide_eq_true in Ha. by exists kid, entry. }
  destruct (ke_status entry) eqn:Es; destruct (ke_key entry) as [k|] eqn:Ek; try done; intros H'; by apply (Hgo k).
Qed.

Lemma decode_token_returned token key r :
  decode_token self token key = Returned r ->
  jose_decode token (key_material_of key) (jp_algorithm self) (registered_headers self) = Returned r.
Proof. unfold decode_token. destruct (jose_decode _ _ _ _) as [?|e]; [done|]. repeat case_match; done. Qed.

Lemma fresh_sound s token encoded now v :
  forallb entry_fits (ks_entries s) = true -> verify_fresh self token encoded s now = Returned v ->
  verified_under s token v /\ accepted_at v now /\ valid_claims (token_claims v).
Proof.
  intros Hfits E. unfold verify_fresh in E. apply obind_returned in E as (header & Hh & E).
  destruct (read_header_returned _ _ Hh) as (Ht & Hc & _ & kid & Hkid & Hvalid).
  apply obind_returned in E as (key & (kid' & entry & Hkid' & Hentry & Hs & Hkey & Halg)%verification_key_returned & E).
  rewrite Hkid in Hkid'. injection Hkid' as <-.
  apply obind_returned in E as ([dh dc] & Hd%decode_token_returned & E). apply obind_returned in E as (? & _ & E).
  apply obind_returned in E as (claims & Hcl & E). pose proof (claims_from_payload_valid _ _ Hcl) as Hv.
  rewrite Ht, Hc in E. apply obind_returned in E as (? & [_ Hw]%(validate_claims_iff _ _ _ _ _ _ Hprofile) & E).
  destruct (wp_issuer _ _ _ _ _ Hw) as (issuer & Hi & _). destruct (wp_audience _ _ _ _ _ Hw) as (a & Ha & _).
  assert (key_kid key = kid) as Hkk.
  { rewrite forallb_forall in Hfits. apply dict_get_in, list_elem_of_In, Hfits in Hentry. unfold entry_fits in Hentry.
    apply andb_true_iff in Hentry as [_ Hentry]. cbn in Hentry. rewrite Hkey in Hentry. by apply bool_decide_eq_true in Hentry. }
  rewrite Hkk in E. rewrite (to_verified_token_exact _ issuer) in E; try done; first last.
  { apply profile_headers_ok. } { apply policy_name_valid, Hprofile. } { by apply valid_kid_name. }
  { intros Hn. rewrite Hn in Ha. by apply elem_of_nil in Ha. }
  assert (token_claims v = claims) as Htc by (injection E as <-; destruct claims; cbn in *; by rewrite Hi).
  split; [|split].
  - exists entry, key, dh, dc. rewrite Htc. injection E as <-. by cbn.
  - unfold accepted_at. rewrite Htc. injection E as <-. by cbn.
  - by rewrite Htc.
Qed.

(** A cached value is checked as a fresh one is. *)
Lemma validate_cached_claims v now : valid_claims (token_claims v) ->
  validate_cached self v now =
  validate_claims (Exact (token_claims v)) (Exact (jp_profile self)) (vt_token_type v) (vt_headers v) (utc_moment now).
Proof.
  intros Hv. unfold validate_cached. pose proof (make_claims_again _ Hv) as E. 
  cbn [token_claims tc_issuer tc_subject tc_audience tc_expires_at tc_not_before tc_issued_at tc_jwt_id tc_custom] in E.
  change (string_object (Some ?x)) with (OStr x) in E. by rewrite E.
Qed.
End Fresh.

(** ** The provider in its world *)

Section Sound.
Context {W K : Type} `{HJ : Jose K} `{HF : FloatText} `{HS : Sha256} (self : JWSProvider W K).
Hypothesis Hprofile : valid_profile (jp_profile self).
Hypothesis Hsha : forall a b, sha256 a = sha256 b -> a = b.

(** The cache, if the provider has one. *)
Context (c : TokenCache W) (Hcache : jp_cache self = None \/ jp_cache self = Some c).
Context `{!CacheBackend (tk_backend c)}.
Context `{!Apart (tk_backend c) (tk_observed c)} `{!Apart (tk_backend c) (tk_failures c)}.

(** The repository: every snapshot it ever hands out has one of the [published]
    states, and an epoch names one state. *)
Context (published : KeySnapshot K -> Prop).
Hypothesis published_fits : forall s, published s -> forallb entry_fits (ks_entries s) = true.
Hypothesis published_epoch : forall s1 s2, published s1 -> published s2 -> ks_epoch s1 = ks_epoch s2 -> s1 = s2.

(** Everything the cache holds was verified, under a published snapshot. *)
Definition vouched (w : W) : Prop := forall k v, holds w k v ->
  exists token s, published s /\ token_key token (jp_profile self) s = Returned k /\
    verified_under self s token v /\ valid_claims (token_claims v).

(** What the calls out of the provider do: they keep what is vouched for, whatever other
    threads do meanwhile; a snapshot is a published one, of those that are current. *)
Context (current : KeySnapshot K -> Prop) (reading : arg moment -> Prop).
Hypothesis snapshot_spec : triple vouched (jp_snapshot self)
  (fun r w => vouched w /\ forall s, r = Returned (Exact s) -> published s /\ current s).
Hypothesis clock_spec : triple vouched (jp_clock self) (fun r w => vouched w /\ forall d, r = Returned d -> reading d).

Lemma take_snapshot_spec : triple vouched (take_snapshot self)
  (fun r w => vouched w /\ forall s, r = Returned s -> published s /\ current s).
Proof.
  intros w Hw. unfold take_snapshot, bind, capture. pose proof (snapshot_spec w Hw) as [H1 H2].
  destruct (jp_snapshot self w) as [r w']. cbn in H1, H2.
  destruct r as [[s|]|e]; [split; [done|]; intros ? [= <-]; by apply H2|by split|].
  destruct e; split; done.
Qed.

Lemma live_epoch_spec : triple vouched (live_epoch self) (fun _ w => vouched w).
Proof.
  intros w Hw. unfold live_epoch, bind, capture. pose proof (snapshot_spec w Hw) as [H1 _].
  destruct (jp_snapshot self w) as [r w']. cbn in H1. destruct r as [[s|]|e]; [done|done|]. by destruct e.
Qed.

Lemma cached_token_spec token s : published s -> triple vouched (cached_token self token s)
  (fun r w => vouched w /\ forall v, r = Returned (Some v) -> verified_under self s token v /\ valid_claims (token_claims v)).
Proof.
  intros Hs w Hw. unfold cached_token. destruct Hcache as [-> | ->]; [by split|].
  destruct (token_cache_get_sound c token (jp_profile self) s w) as [Hsh Hg]. split.
  - intros k v Hv. by apply Hw, Hsh.
  - intros v Hv. destruct (Hg v Hv) as (key & Hk & Hh). destruct (Hw _ _ Hh) as (token' & s' & Hs' & Hk' & Hv' & Hc').
    unfold token_key in Hk, Hk'. apply obind_returned in Hk as (b & Hb%oget_returned & [= <-]).
    apply obind_returned in Hk' as (b' & Hb'%oget_returned & [= E1 E2]). apply Hsha in E1 as ->.
    apply utf8_decode_encode in Hb, Hb'. assert (token' = token) as -> by congruence.
    assert (s' = s) as -> by (by apply published_epoch). done.
Qed.

Lemma keep_token_spec token s v now : published s -> verified_under self s token v -> valid_claims (token_claims v) ->
  triple vouched (keep_token self token s v now) (fun _ w => vouched w).
Proof.
  intros Hs Hv Hc w Hw. unfold keep_token. destruct Hcache as [-> | ->]; [done|]. rewrite bind_eq.
  pose proof (live_epoch_spec w Hw) as Hl. destruct (live_epoch self w) as [[[n|]|e] w']; cbn in Hl; try done.
  intros k v' Hh. destruct (token_cache_set_sound c token (jp_profile self) s v now n w' k v' Hh) as [Hh'|(Hk & -> & _)];
    [by apply Hl|by exists token, s].
Qed.

Lemma verify_returns token : triple vouched (verify self (Exact token))
  (fun r w => vouched w /\ forall v, r = Returned v ->
     exists s d now, published s /\ current s /\ reading d /\ to_utc JWTConfigurationError d = Returned now /\
       verified_under self s token v /\ accepted_at self v now).
Proof.
  intros w Hw. unfold verify. destruct (validate_token_shape (Exact token)) as [[[encoded p] sg]|e]; [|by split].
  rewrite bind_eq. destruct (take_snapshot_spec w Hw) as [H1 Hs]. destruct (take_snapshot self w) as [[s|e] w1]; [|by split].
  cbn in H1, Hs. destruct (Hs s eq_refl) as [Hpub Hcur]. rewrite bind_eq. unfold capture.
  destruct (clock_spec w1 H1) as [H2 Hr]. destruct (jp_clock self w1) as [r w2]. cbn in H2, Hr.
  destruct r as [d|e]; [|destruct e; by split].
  rewrite bind_pure. unfold capture_reference_time, capture_time.
  destruct (to_utc JWTConfigurationError d) as [now|e] eqn:En; [|by split].
  rewrite bind_eq. destruct (cached_token_spec token s Hpub w2 H2) as [H3 Hc].
  destruct (cached_token self token s w2) as [[[v|]|e] w3]; cbn in H3, Hc; [| |by split].
  - rewrite bind_pure. destruct (Hc v eq_refl) as [Hv Hcl]. rewrite (validate_cached_claims self v now Hcl).
    destruct (validate_claims _ _ _ _ _) as [u|e] eqn:Ev; [|by split]. split; [done|]. intros v' [= <-].
    apply (validate_claims_iff _ _ _ _ _ _ Hprofile) in Ev as [_ Ev]. exists s, d, now. by repeat (split; [by auto|]).
  - rewrite bind_pure. destruct (verify_fresh self token encoded s now) as [v|e] eqn:Ev; [|by split].
    destruct (fresh_sound self Hprofile s token encoded now v (published_fits s Hpub) Ev) as (Hv & Ha & Hcl).
    rewrite bind_eq. pose proof (keep_token_spec token s v now Hpub Hv Hcl w3 H3) as H4.
    destruct (keep_token self token s v now w3) as [[u|e] w4]; cbn in H4; [|by split].
    split; [done|]. intros v' [= <-]. exists s, d, now. by repeat (split; [by auto|]).
Qed.
(** [C3] Every token that [verify] returns was signed with a key that the snapshot of
    this call has under the token's identifier and has not revoked, for the algorithm of
    the provider; the value says what the signed payload says; and it is within the
    policy at the time this call read the clock.  A result of the cache is no weaker
    than a fresh one, with other threads verifying, rotating and revoking at any of the
    calls to the repository and the clock. *)
Theorem verify_sound token : triple vouched (verify self (Exact token))
  (fun r w => vouched w /\ forall v, r = Returned v ->
     exists s d now, published s /\ current s /\ reading d /\ to_utc JWTConfigurationError d = Returned now /\
       verified_under self s token v /\ accepted_at self v now).
Proof. apply verify_returns. Qed.
End Sound.

(** ** With the in-memory repository *)

Section Revoked.
Context {W K : Type} `{HJ : Jose K} `{HF : FloatText} `{HS : Sha256} (self : JWSProvider W K).
Hypothesis Hprofile : valid_profile (jp_profile self).
Hypothesis Hsha : forall a b, sha256 a = sha256 b -> a = b.
Context (c : TokenCache W) (Hcache : jp_cache self = None \/ jp_cache self = Some c).
Context `{!CacheBackend (tk_backend c)}.
Context `{!Apart (tk_backend c) (tk_observed c)} `{!Apart (tk_backend c) (tk_failures c)}.

(** The states of the repository in time; the identifier is revoked from [n] on. *)
Context (f : nat -> Repository K) (Hrun : repository_run f) (kid : pystr) (n : nat).
Hypothesis Hrevoked : exists e, dict_get kid (ks_entries (rp_snapshot (f n))) = Some e /\ ke_status e = REVOKED.

Definition published_in_run (s : KeySnapshot K) : Prop := exists m, s = rp_snapshot (f m).
Definition published_since (s : KeySnapshot K) : Prop := exists m, (n <= m)%nat /\ s = rp_snapshot (f m).

Definition vouched_in_run : W -> Prop := vouched self c published_in_run.

(** The calls of [verify] happen after the revocation. *)
Hypothesis snapshot_since : triple vouched_in_run (jp_snapshot self)
  (fun r w => vouched_in_run w /\ forall s, r = Returned (Exact s) -> published_since s).
Hypothesis clock_keeps : triple vouched_in_run (jp_clock self) (fun _ w => vouched_in_run w).

(** [C6] A revoked key is of no use: no verification that starts after its revocation
    returns a token under its identifier, neither fresh nor from the cache that verified
    the token while the key was good, and neither does one that races with it. *)
Theorem revoked_key_rejected token : triple vouched_in_run (verify self (Exact token))
  (fun r w => vouched_in_run w /\ forall v, r = Returned v -> vt_kid v <> kid).
Proof.
  assert (forall s, published_in_run s -> forallb entry_fits (ks_entries s) = true) as Hfits.
  { intros s (m & ->). apply (vr_entries _ (run_valid f m Hrun)). }
  assert (forall s1 s2, published_in_run s1 -> published_in_run s2 -> ks_epoch s1 = ks_epoch s2 -> s1 = s2) as Hepoch.
  { intros s1 s2 (m1 & ->) (m2 & ->). by apply run_epoch. }
  assert (triple vouched_in_run (jp_snapshot self)
    (fun r w => vouched_in_run w /\ forall s, r = Returned (Exact s) -> published_in_run s /\ published_since s)) as Hsnap.
  { intros w Hw. destruct (snapshot_since w Hw) as [H1 H2]. split; [done|]. intros s Hs.
    destruct (H2 s Hs) as (m & Hm & ->). split; [by exists m|by exists m]. }
  assert (triple vouched_in_run (jp_clock self) (fun r w => vouched_in_run w /\ forall d, r = Returned d -> True)) as Hclock
    by (intros w Hw; split; [by apply clock_keeps|done]).
  intros w Hw.
  destruct (verify_returns self Hprofile Hsha c Hcache published_in_run Hfits Hepoch published_since (fun _ => True)
    Hsnap Hclock token w Hw) as [H1 H2].
  split; [done|]. intros v Hv. destruct (H2 v Hv) as (s & d & now & _ & (m & Hm & ->) & _ & _ & Hver & _).
  destruct Hver as (entry & key & header & payload & Hg & Hs & _). intros <-.
  destruct Hrevoked as (e & He & Hrev).
  destruct (steps_valid _ _ (run_step f n m Hrun Hm) (run_valid f n Hrun)) as (_ & Htomb & _).
  rewrite (Htomb _ _ He Hrev) in Hg. by injection Hg as <-.
Qed.
End Revoked.
