(* ===== verification/JwtProviderErrors.v ===== *)
(** * The token provider: the errors of a verification

    Whatever the token, the repository, the clock, the signature library or the cache
    does wrong, the caller of [verify] sees an error of the package, not one of theirs. *)

From S2P Require Import Prelude Python Leader LeaseRecord PyObject Utf8 Codec JsonText JsonTextLaws JwtClaims JwtClaimsLaws JwtKeys JwtRepository JwtProfiles JwtProfilesLaws JwtCache JwtCacheLaws JwtProvider JwtProviderLaws.
Import Jwt.
Open Scope py_scope.
Open Scope Z_scope.

(** An outcome whose exception, if any, is one of the package's. *)
Definition jwt_only {A} (r : outcome A) : Prop := forall e, r = Raised e -> is_JWTError e = true.

(** A computation that raises nothing outside [Exception], in any state. *)
Definition ordinary {W A} (m : M W A) : Prop := forall w e, fst (m w) = Raised e -> is_Exception e = true.

Lemma jwt_only_returned {A} (a : A) : jwt_only (Returned a).
Proof. done. Qed.

Lemma jwt_only_raised {A} e : is_JWTError e = true -> jwt_only (@Raised A e).
Proof. by intros He e' [= <-]. Qed.

Lemma jwt_only_obind {A B} (r : outcome A) (k : A -> outcome B) :
  jwt_only r -> (forall a, r = Returned a -> jwt_only (k a)) -> jwt_only (obind r k).
Proof. intros Hr Hk e [H|(a & Ha & H)]%obind_raised; [by apply Hr|by apply (Hk a)]. Qed.

Lemma jwt_only_require c e : is_JWTError e = true -> jwt_only (orequire c e).
Proof. intros He e' ->%orequire_raised. done. Qed.

Lemma jwt_only_get {A} (x : option A) e : is_JWTError e = true -> jwt_only (oget x e).
Proof. intros He e' ->%oget_raised. done. Qed.

#[local] Hint Resolve jwt_only_returned jwt_only_raised jwt_only_require jwt_only_get : core.

(** ** The pure parts *)

Section Pure.
Context {W K : Type} `{HJ : Jose K} `{HF : FloatText} `{HS : Sha256} (self : JWSProvider W K).
Hypothesis Hprofile : valid_profile (jp_profile self).

Lemma strict_object_raises pairs result e : strict_object pairs result = Raised e -> is_ValueError e = true.
Proof.
  revert result. induction pairs as [|[k v] pairs IH]; intros result; cbn; [done|].
  destruct (dict_has k result); [by intros [= <-]|apply IH].
Qed.

Lemma strict_loads_raises text e : json_loads strict_decoder text = Raised e -> is_ValueError e = true.
Proof.
  intros H. apply (json_loads_raises strict_decoder (fun e => is_ValueError e = true)) in H as [->|H]; [done|done|].
  split; cbn; try done. intros members. unfold raises_only.
  destruct (obind _ _) as [?|e'] eqn:E; [done|]. apply obind_raised in E as [E|(? & _ & E)]; [|done].
  by eapply strict_object_raises.
Qed.

Lemma read_header_closed encoded : jwt_only (read_header self encoded).
Proof.
  unfold read_header. do 3 (apply jwt_only_obind; [by auto|intros ? _]). apply jwt_only_obind.
  { destruct (json_loads strict_decoder _) as [v|e] eqn:E; [done|]. by rewrite (strict_loads_raises _ _ E); auto. }
  intros [| | | | | |members] _; auto. do 5 (apply jwt_only_obind; [by auto|intros ? _]). auto.
Qed.

Lemma verification_key_closed s header : jwt_only (verification_key self s header).
Proof.
  unfold verification_key. destruct (_ ≫= _) as [entry|]; [|by auto].
  destruct (ke_status entry), (ke_key entry); auto; apply jwt_only_obind; auto.
Qed.

(** What is asked of the library: ordinary exceptions, and a payload that can be read. *)
Hypothesis decode_ordinary : forall token key algorithm names,
  match jose_decode token key algorithm names with
  | Raised e => is_Exception e = true
  | Returned (_, payload) => readable_object payload = true
  end.

Lemma decode_token_closed token key : jwt_only (decode_token self token key).
Proof.
  unfold decode_token. pose proof (decode_ordinary token (key_material_of key) (jp_algorithm self) (registered_headers self)) as Hd.
  destruct (jose_decode _ _ _ _) as [?|e]; [done|]. rewrite Hd. repeat case_match; auto.
Qed.

Lemma verify_fresh_closed s token encoded now :
  forallb entry_fits (ks_entries s) = true -> jwt_only (verify_fresh self token encoded s now).
Proof.
  intros Hfits. unfold verify_fresh. apply jwt_only_obind; [apply read_header_closed|]. intros header Hh.
  destruct (read_header_returned self encoded _ Hh) as (-> & -> & _ & kid & Hkid & Hvalid).
  apply jwt_only_obind; [apply verification_key_closed|]. intros key Hkey.
  apply (verification_key_returned self) in Hkey as (kid' & entry & Hkid' & Hentry & _ & Hkey & _).
  assert (valid_name (key_kid key) = true) as Hname.
  { rewrite Hkid in Hkid'. injection Hkid' as <-. rewrite forallb_forall in Hfits.
    apply dict_get_in, list_elem_of_In, Hfits in Hentry. unfold entry_fits in Hentry. cbn in Hentry. rewrite Hkey in Hentry.
    apply andb_true_iff in Hentry as [_ ->%bool_decide_eq_true]. by apply valid_kid_name. }
  apply jwt_only_obind; [apply decode_token_closed|]. intros [dh dc] Hd%decode_token_returned.
  apply jwt_only_obind; [by auto|]. intros ? _. apply jwt_only_obind.
  { intros e He. pose proof (decode_ordinary token (key_material_of key) (jp_algorithm self) (registered_headers self)) as Ho.
    rewrite Hd in Ho. by rewrite (claims_from_payload_error _ _ Ho He). }
  intros claims Hcl%claims_from_payload_valid. apply jwt_only_obind.
  { intros e He%validate_claims_raised. by destruct He as [->|[->|[->| ->]]]. }
  intros u [_ Hw]%(validate_claims_iff _ _ _ _ _ _ Hprofile).
  destruct (wp_issuer _ _ _ _ _ Hw) as (issuer & Hi & _). destruct (wp_audience _ _ _ _ _ Hw) as (aud & Ha & _).
  rewrite (to_verified_token_exact _ issuer); try done.
  - intros E. rewrite E in Ha. by apply elem_of_nil in Ha.
  - by apply policy_name_valid, Hprofile.
  - by apply profile_headers_ok.
Qed.

Lemma validate_cached_closed v now : jwt_only (validate_cached self v now).
Proof.
  unfold validate_cached. apply jwt_only_obind.
  - intros e He. apply make_claims_error in He as ->; [done| |].
    + unfold custom_object, frozen_object. apply (frozen_readable false).
    + intros d Hd x. assert (exists z, d = utc_moment z) as [z ->].
      { destruct Hd as [H|[H|H]]; [destruct (vt_expires_at v)|destruct (vt_not_before v)|destruct (vt_issued_at v)];
          cbn in H; simplify_eq; eauto. }
      cbn. destruct (in_datetime_range _); [done|]. by intros [= <-].
  - intros claims _ e He%validate_claims_raised. by destruct He as [->|[->|[->| ->]]].
Qed.
End Pure.

(** ** The computations *)

Definition jwt_closed {W A} (m : M W A) : Prop := forall w, jwt_only (fst (m w)).

Lemma jwt_closed_bind {W A B} (m : M W A) (k : A -> M W B) :
  jwt_closed m -> (forall a, jwt_closed (k a)) -> jwt_closed (bind m k).
Proof. intros Hm Hk w. rewrite bind_eq. specialize (Hm w). destruct (m w) as [[a|e] w']; [apply Hk|]. apply jwt_only_raised. by apply Hm. Qed.

Lemma jwt_closed_ret {W A} (a : A) : jwt_closed (W := W) (ret a).
Proof. done. Qed.

Lemma jwt_closed_raise {W A} e : is_JWTError e = true -> jwt_closed (W := W) (@raise W A e).
Proof. intros He w. by apply jwt_only_raised. Qed.

Lemma jwt_closed_pure {W A} (r : outcome A) : jwt_only r -> jwt_closed (W := W) (pure_outcome r).
Proof. by intros Hr w. Qed.

Lemma jwt_closed_locked {W S A} (l : lens W S) (f : S -> A * S) : jwt_closed (locked l f).
Proof. intros w. unfold locked. by destruct (f (lget l w)). Qed.

(** What is captured of a computation that raises ordinary exceptions. *)
Lemma jwt_closed_capture {W A B} (m : M W A) (k : outcome A -> M W B) :
  ordinary m -> (forall r, (forall e, r = Raised e -> is_Exception e = true) -> jwt_closed (k r)) ->
  jwt_closed (bind (capture m) k).
Proof.
  intros Hm Hk w. rewrite bind_eq. unfold capture. specialize (Hm w). destruct (m w) as [[a|e] w'].
  - by apply Hk.
  - specialize (Hm e eq_refl). assert (jwt_closed (k (Raised e))) as Hr by (apply Hk; by intros ? [= <-]).
    destruct e; try discriminate; apply Hr.
Qed.

#[local] Hint Resolve jwt_closed_ret jwt_closed_raise jwt_closed_pure jwt_closed_locked : core.

Section Cache.
Context {W K : Type} `{Sha256} (c : TokenCache W).
Hypothesis get_ordinary : forall key, ordinary (cb_get (tk_backend c) key).
Hypothesis set_ordinary : forall key value ttl, ordinary (cb_set (tk_backend c) key value ttl).
Hypothesis clear_ordinary : ordinary (cb_clear (tk_backend c)).

Lemma raise_failure_closed {A} operation : jwt_closed (raise_failure (A := A) c operation).
Proof. apply jwt_closed_bind; auto. Qed.

Lemma or_failure_closed {A} operation (m : M W A) : ordinary m -> jwt_closed (or_failure c operation m).
Proof.
  intros Hm. apply jwt_closed_capture; [done|]. intros [a|e] Hr; [auto|]. rewrite (Hr e eq_refl). apply raise_failure_closed.
Qed.

Lemma observe_epoch_closed epoch : jwt_closed (observe_epoch c epoch).
Proof.
  apply jwt_closed_bind; [auto|]. intros [o|]; [|apply jwt_closed_locked]. destruct (o =? epoch); [auto|].
  apply jwt_closed_bind; [by apply or_failure_closed|intros _; apply jwt_closed_locked].
Qed.

Lemma token_key_closed token p (s : KeySnapshot K) : is_Some (utf8_encode token) -> jwt_only (token_key token p s).
Proof. intros [b Hb]. unfold token_key. by rewrite Hb. Qed.

Lemma token_cache_get_closed token p (s : KeySnapshot K) :
  is_Some (utf8_encode token) -> jwt_closed (token_cache_get c token p s).
Proof.
  intros Hb. apply jwt_closed_bind; [by apply jwt_closed_pure, token_key_closed|]. intros key.
  apply jwt_closed_bind; [apply observe_epoch_closed|]. intros _. apply jwt_closed_capture; [done|].
  intros [[v|]|e] Hr; [auto|apply raise_failure_closed|]. specialize (Hr e eq_refl).
  destruct e; try discriminate; auto; apply raise_failure_closed.
Qed.

Lemma token_cache_set_closed token p (s : KeySnapshot K) value now live :
  is_Some (utf8_encode token) -> jwt_closed (token_cache_set c token p s value now live).
Proof.
  intros Hb. apply jwt_closed_bind; [by apply jwt_closed_pure, token_key_closed|]. intros key.
  apply jwt_closed_bind; [apply observe_epoch_closed|]. intros _. destruct (negb _); [auto|].
  destruct (vt_expires_at value); cbv zeta; [destruct (fle _ _); [auto|]|]; by apply or_failure_closed.
Qed.
End Cache.

Lemma token_shape_closed token : jwt_only (validate_token_shape token).
Proof.
  destruct token as [token|]; cbn [validate_token_shape]; [|by auto].
  do 3 (apply jwt_only_obind; [by auto|intros ? _]).
  destruct (split_dots token) as [|? [|? [|? []]]]; auto. apply jwt_only_obind; auto.
Qed.

Section Provider.
Context {W K : Type} `{HJ : Jose K} `{HF : FloatText} `{HS : Sha256} (self : JWSProvider W K).
Hypothesis Hprofile : valid_profile (jp_profile self).
Hypothesis decode_ordinary : forall token key algorithm names,
  match jose_decode token key algorithm names with
  | Raised e => is_Exception e = true
  | Returned (_, payload) => readable_object payload = true
  end.

(** The repository and the clock raise ordinary exceptions, as does [utcoffset]; a
    snapshot is one that its constructor let through. *)
Hypothesis snapshot_ordinary : ordinary (jp_snapshot self).
Hypothesis snapshot_fits : forall w s, fst (jp_snapshot self w) = Returned (Exact s) -> forallb entry_fits (ks_entries s) = true.
Hypothesis clock_ordinary : ordinary (jp_clock self).
Hypothesis offset_ordinary : forall w d e,
  fst (jp_clock self w) = Returned (Exact d) -> mo_offset d = Raised e -> is_Exception e = true.
Hypothesis cache_ordinary : forall c, jp_cache self = Some c ->
  (forall key, ordinary (cb_get (tk_backend c) key)) /\
  (forall key value ttl, ordinary (cb_set (tk_backend c) key value ttl)) /\ ordinary (cb_clear (tk_backend c)).

Lemma take_snapshot_closed {B} (k : KeySnapshot K -> M W B) :
  (forall s, forallb entry_fits (ks_entries s) = true -> jwt_closed (k s)) -> jwt_closed (bind (take_snapshot self) k).
Proof.
  intros Hk w. rewrite bind_eq. unfold take_snapshot. rewrite bind_eq. unfold capture.
  pose proof (snapshot_ordinary w) as Ho. pose proof (snapshot_fits w) as Hf.
  destruct (jp_snapshot self w) as [[[s|]|e] w']; cbn in Ho, Hf.
  - by apply Hk, Hf.
  - by apply jwt_only_raised.
  - specialize (Ho e eq_refl).
    destruct e; cbn in Ho |- *; try discriminate Ho; by apply jwt_only_raised.
Qed.

Lemma read_clock_closed {B} (k : Z -> M W B) :
  (forall now, jwt_closed (k now)) ->
  jwt_closed (reading <- capture (jp_clock self) ;; now <- pure_outcome (capture_reference_time reading) ;; k now).
Proof.
  intros Hk w. rewrite bind_eq. unfold capture. pose proof (clock_ordinary w) as Ho. pose proof (offset_ordinary w) as Hf.
  destruct (jp_clock self w) as [[[d|]|e] w']; cbn in Ho, Hf; rewrite ?bind_pure.
  - cbn [capture_reference_time capture_time to_utc]. destruct (mo_offset d) as [[offset|]|e] eqn:E.
    + destruct (in_datetime_range _); [apply Hk|by apply jwt_only_raised].
    + by apply jwt_only_raised.
    + rewrite (Hf d e eq_refl E). by apply jwt_only_raised.
  - by apply jwt_only_raised.
  - specialize (Ho e eq_refl). destruct e; try discriminate Ho; rewrite bind_pure; by apply jwt_only_raised.
Qed.

(** [C15] Verification fails closed and in the package's own terms: whatever token it is
    given, and however the repository, the clock, the signature library or the cache
    fail, what [verify] raises is a [JWTError]. *)
Theorem verify_errors_closed token w e :
  fst (verify self token w) = Raised e -> is_JWTError e = true.
Proof.
  revert e. change (jwt_only (fst (verify self token w))). unfold verify.
  destruct (validate_token_shape token) as [[[encoded p] sg]|e] eqn:Eshape.
  2: { pose proof (token_shape_closed token e Eshape). destruct token; rewrite ?Eshape; by apply jwt_only_raised. }
  destruct token as [token|]; [rewrite Eshape|done].
  assert (is_Some (utf8_encode token)) as Henc.
  { cbn in Eshape. apply obind_returned in Eshape as (? & _ & (b & Hb%oget_returned & _)%obind_returned). by exists b. }
  revert w. apply take_snapshot_closed. intros s Hfits. apply read_clock_closed. intros now.
  apply jwt_closed_bind.
  { unfold cached_token. destruct (jp_cache self) as [c|] eqn:Ec; [|auto].
    destruct (cache_ordinary c eq_refl) as (? & ? & ?). by apply token_cache_get_closed. }
  intros [v|].
  - apply jwt_closed_bind; [|auto]. apply jwt_closed_pure, validate_cached_closed.
  - apply jwt_closed_bind; [by apply jwt_closed_pure, verify_fresh_closed|]. intros v. apply jwt_closed_bind; [|auto].
    unfold keep_token. destruct (jp_cache self) as [c|] eqn:Ec; [|auto].
    destruct (cache_ordinary c eq_refl) as (? & ? & ?). unfold live_epoch.
    apply jwt_closed_bind.
    + apply jwt_closed_capture; [done|]. intros [[s'|]|e] Hr; [auto|auto|]. rewrite (Hr e eq_refl). auto.
    + intros [n|]; [by apply token_cache_set_closed|auto].
Qed.
End Provider.
