(* ===== verification/JwtIssueLaws.v ===== *)
(** * Tokens that were issued verify

    The signature library is asked for two things ([JoseLaws]): that it writes the
    compact form of RFC 7515, and that it reads its own tokens back under their key. *)

From S2P Require Import Prelude Python Leader LeaseRecord PyObject Utf8 Codec JsonText JwtClaims JwtClaimsLaws JwtKeys JwtRepository JwtRepositoryLaws JwtProfiles JwtProfilesLaws JwtCache JwtCacheLaws JwtProvider JwtProviderLaws.
Import Jwt.
Open Scope py_scope.
Open Scope Z_scope.

Definition json_members (members : list (pystr * json)) : list (pystr * pyobj) :=
  (fun m => (m.1, thaw_json m.2)) <$> members.

Definition string_members_json (header : list (pystr * pystr)) : list (pystr * json) :=
  (fun m => (m.1, JString m.2)) <$> header.

Class JoseLaws (K : Type) `{Jose K} `{FloatText} : Prop := {
  (** Three segments of base64url; the first is the header, as UTF-8 JSON. *)
  jose_compact header payload key algorithm names token :
    jose_encode header payload key algorithm names = Returned token ->
    exists raw text payload_bytes signature,
      token = base64url_encode raw false ++ 46 :: base64url_encode payload_bytes false ++ 46 :: base64url_encode signature false /\
      Forall is_byte raw /\ Forall is_byte payload_bytes /\ Forall is_byte signature /\
      raw <> [] /\ payload_bytes <> [] /\ signature <> [] /\ utf8_encode text = Some raw /\
      json_loads strict_decoder text = Returned (JObject (string_members_json header));
  (** What was encoded is decoded under the same key. *)
  jose_round_trip header members key algorithm names token :
    NoDup header.*1 -> NoDup members.*1 ->
    jose_encode header (json_members members) key algorithm names = Returned token ->
    jose_decode token key algorithm names = Returned (headers_object header, payload_object (json_members members));
}.

(** ** Segments *)

Lemma alphabet_range c : is_base64url c = true -> 45 <= c < 128 /\ c <> 46.
Proof. unfold is_base64url. lia. Qed.

Lemma split_dots_app a rest : forallb is_base64url a = true -> split_dots (a ++ 46 :: rest) = a :: split_dots rest.
Proof.
  induction a as [|c a IH]; [done|]. cbn. intros [Hc Ha]%andb_true_iff.
  rewrite (proj2 (Z.eqb_neq c 46)) by (apply alphabet_range in Hc; lia). by rewrite (IH Ha).
Qed.

Lemma split_dots_last a : forallb is_base64url a = true -> split_dots a = [a].
Proof.
  induction a as [|c a IH]; [done|]. cbn. intros [Hc Ha]%andb_true_iff.
  rewrite (proj2 (Z.eqb_neq c 46)) by (apply alphabet_range in Hc; lia). by rewrite (IH Ha).
Qed.

Lemma encoded_alphabet data : Forall is_byte data -> forallb is_base64url (base64url_encode data false) = true.
Proof.
  intros Hd. unfold base64url_encode. rewrite encode_parts, rstrip_parts; [by apply body_alphabet|].
  by apply alphabet_no_padding, body_alphabet.
Qed.

Lemma encoded_nonempty data : Forall is_byte data -> data <> [] -> base64url_encode data false <> [].
Proof.
  intros Hd Hn E. pose proof (encoded_shape data false Hd) as Hs. rewrite E in Hs. vm_compute in Hs. congruence.
Qed.

Lemma encoded_segment data : Forall is_byte data -> data <> [] -> segment_ok (base64url_encode data false) = true.
Proof.
  intros Hd Hn. pose proof (encoded_alphabet data Hd) as Ha. pose proof (encoded_nonempty data Hd Hn) as He.
  unfold segment_ok. by destruct (base64url_encode data false).
Qed.

Lemma decode_segment data : Forall is_byte data ->
  let segment := base64url_encode data false in
  b64decode (segment ++ repeat 61 (Z.to_nat (- slen segment mod 4))) = Some data.
Proof.
  intros Hd. cbn zeta. pose proof (encoded_shape data false Hd) as Hs. unfold base64url_decode in Hs.
  destruct (existsb _ _ || _); [done|]. destruct (negb _); [done|]. destruct (b64decode _); [|done].
  case_bool_decide; [|done]. by injection Hs as ->.
Qed.

Lemma ascii_encode_self s : Forall (fun c => 0 <= c < 128) s -> utf8_encode s = Some s.
Proof.
  induction 1 as [|c s Hc _ IH]; [done|]. cbn [utf8_encode]. rewrite IH. unfold utf8_char, is_surrogate.
  rewrite (proj2 (Z.ltb_ge c 0)), (proj2 (Z.leb_gt 55296 c)), (proj2 (Z.ltb_ge 1114111 c)), (proj2 (Z.ltb_lt c 128)) by lia.
  done.
Qed.

Lemma alphabet_ascii s : forallb is_base64url s = true -> Forall (fun c => 0 <= c < 128) s.
Proof.
  intros Hs. apply Forall_forall. intros c Hc. rewrite forallb_forall in Hs. apply list_elem_of_In, Hs, alphabet_range in Hc. lia.
Qed.

(** A compact token of three encoded segments has the shape of a token. *)
Lemma compact_shape a b c :
  Forall is_byte a -> Forall is_byte b -> Forall is_byte c -> a <> [] -> b <> [] -> c <> [] ->
  let token := base64url_encode a false ++ 46 :: base64url_encode b false ++ 46 :: base64url_encode c false in
  slen token <= MAX_TOKEN_BYTES ->
  validate_token_shape (Exact token) =
    Returned (base64url_encode a false, base64url_encode b false, base64url_encode c false).
Proof.
  intros Ha Hb Hc Na Nb Nc token Hl. unfold validate_token_shape. rewrite (proj2 (Z.leb_le _ _)) by done. cbn [orequire obind].
  pose proof (encoded_alphabet a Ha) as Ea. pose proof (encoded_alphabet b Hb) as Eb. pose proof (encoded_alphabet c Hc) as Ec.
  rewrite ascii_encode_self.
  2: { unfold token. rewrite Forall_app, Forall_cons, Forall_app, Forall_cons.
    repeat split; try lia; by apply alphabet_ascii. }
  cbn [oget obind]. rewrite (proj2 (Z.leb_le _ _)) by done. cbn [orequire obind]. unfold token.
  rewrite !split_dots_app, split_dots_last by done. cbn [forallb]. by rewrite !encoded_segment by done.
Qed.

(** ** Headers *)

Lemma string_header_json header : string_header (string_members_json header) = Some header.
Proof. unfold string_members_json. induction header as [|[k v] l IH]; [done|]. cbn. by rewrite IH. Qed.

Lemma header_equal_self header : NoDup header.*1 -> header_equal (headers_object header) header = true.
Proof.
  intros Hd. unfold header_equal, headers_object. rewrite length_fmap, Nat.eqb_refl. cbn [andb].
  apply forallb_forall. intros x Hx. apply list_elem_of_In, list_elem_of_fmap in Hx as ([k v] & -> & Hx). cbn.
  apply bool_decide_eq_true. by apply dict_get_member.
Qed.

(** The members of a payload are JSON. *)
Definition claim_members (c : TokenClaims) : list (pystr * json) :=
  tc_custom c ++ entry (py "iss") (tc_issuer c) JString ++ entry (py "sub") (tc_subject c) JString ++
  entry (py "aud") (some_audience (tc_audience c)) (fun l => JArray (JString <$> l)) ++
  entry (py "exp") (tc_expires_at c) (fun t => JInt (float_floor (total_seconds t))) ++
  entry (py "nbf") (tc_not_before c) (fun t => JInt (float_floor (total_seconds t))) ++
  entry (py "iat") (tc_issued_at c) (fun t => JInt (float_floor (total_seconds t))) ++
  entry (py "jti") (tc_jwt_id c) JString.

Lemma entry_members {A} name (value : option A) (f : A -> json) (g : A -> pyobj) :
  (forall a, thaw_json (f a) = g a) -> json_members (entry name value f) = entry name value g.
Proof. intros Hf. destruct value; cbn; [|done]. by rewrite <-Hf. Qed.

Lemma claim_members_payload c : json_members (claim_members c) = custom_members c ++ claim_entries c.
Proof.
  unfold claim_members, claim_entries, json_members. rewrite !fmap_app. f_equal.
  repeat f_equal; apply entry_members; try done. intros l. cbn. f_equal. by rewrite <-list_fmap_compose.
Qed.

Lemma entry_sublist {A V} name (value : option A) (f : A -> V) : sublist (entry name value f).*1 [name].
Proof. destruct value; cbn; [done|]. constructor. constructor. Qed.

Lemma claim_members_distinct c : valid_claims c -> NoDup (claim_members c).*1.
Proof.
  intros Hv. unfold claim_members. rewrite fmap_app. apply NoDup_app. destruct (vc_custom c Hv) as (Hs & _ & _).
  cbn in Hs. apply andb_true_iff in Hs as [Hd%bool_decide_eq_true _].
  assert (sublist (entry (py "iss") (tc_issuer c) JString ++ entry (py "sub") (tc_subject c) JString ++
    entry (py "aud") (some_audience (tc_audience c)) (fun l => JArray (JString <$> l)) ++
    entry (py "exp") (tc_expires_at c) (fun t => JInt (float_floor (total_seconds t))) ++
    entry (py "nbf") (tc_not_before c) (fun t => JInt (float_floor (total_seconds t))) ++
    entry (py "iat") (tc_issued_at c) (fun t => JInt (float_floor (total_seconds t))) ++
    entry (py "jti") (tc_jwt_id c) JString).*1 REGISTERED_CLAIMS) as Hsub.
  { rewrite !fmap_app. change REGISTERED_CLAIMS with
      ([py "iss"] ++ [py "sub"] ++ [py "aud"] ++ [py "exp"] ++ [py "nbf"] ++ [py "iat"] ++ [py "jti"]).
    repeat apply sublist_app; apply entry_sublist. }
  split; [done|]. split.
  - intros k Hk Hin. pose proof (vc_unregistered c Hv) as Hu. unfold unregistered in Hu. rewrite Forall_forall in Hu.
    apply list_elem_of_fmap in Hk as (m & -> & Hm). apply (Hu m Hm). by eapply elem_of_sublist.
  - eapply sublist_NoDup; [|exact Hsub]. by apply (bool_decide_unpack _).
Qed.

(** ** The round trip *)

Section Issued.
Context {W K : Type} `{HJ : Jose K} `{HF : FloatText} `{HS : Sha256} `{!JoseLaws K} (self : JWSProvider W K).
Hypothesis Hprofile : valid_profile (jp_profile self).

Lemma issue_header_distinct key : NoDup (issue_header self key).*1.
Proof.
  unfold issue_header. rewrite fmap_app. apply NoDup_app. split; [by apply (bool_decide_unpack _)|].
  split; [|apply Hprofile]. intros k Hk Hin. apply list_elem_of_fmap in Hin as (m & -> & Hm).
  pose proof (vv_headers _ Hprofile) as Hh. rewrite Forall_forall in Hh. destruct (Hh m Hm) as (_ & _ & Hr). apply Hr.
  assert ([py "alg"; py "kid"; py "typ"] ⊆ RESERVED_HEADERS) as Hsub; [|by apply Hsub].
  intros x Hx. rewrite !elem_of_cons in Hx. destruct Hx as [->|[->|[->|[]%elem_of_nil]]]; by apply (bool_decide_unpack _).
Qed.

(** The header of an issued token is read back. *)
Lemma read_issued_header key raw text :
  valid_kid (key_kid key) = true -> Forall is_byte raw -> utf8_encode text = Some raw ->
  json_loads strict_decoder text = Returned (JObject (string_members_json (issue_header self key))) ->
  slen raw <= MAX_PROTECTED_HEADER_BYTES ->
  read_header self (base64url_encode raw false) = Returned (issue_header self key).
Proof.
  intros Hk Hb Hu Hj Hl. unfold read_header. rewrite decode_segment by done. cbn [oget obind].
  rewrite (proj2 (Z.leb_le _ _)) by done. cbn [orequire obind]. rewrite (utf8_decode_encode _ _ Hu). cbn [oget obind].
  rewrite Hj. cbn [obind]. pose proof (issue_header_distinct key) as Hd.
  assert (forall m, m ∈ issue_header self key -> dict_get m.1 (issue_header self key) = Some m.2) as Hget
    by (intros [k v] Hm; by apply dict_get_member).
  assert ((string_members_json (issue_header self key)).*1 = [py "alg"; py "kid"; py "typ"] ++ registered_headers self) as ->.
  { unfold string_members_json. rewrite <-list_fmap_compose. unfold issue_header. by rewrite fmap_app. }
  rewrite bool_decide_true by done. cbn [orequire obind]. rewrite string_header_json. cbn [oget obind].
  assert (forallb (fun m => bool_decide (dict_get m.1 (issue_header self key) = Some m.2))
    ([(py "alg", algorithm_value (jp_algorithm self)); (py "typ", vp_token_type (jp_profile self))] ++
     vp_protected_headers (jp_profile self)) = true) as ->.
  { apply forallb_forall. intros m Hm. apply list_elem_of_In in Hm. apply bool_decide_eq_true, Hget.
    unfold issue_header. apply elem_of_app in Hm as [Hm|Hm]; apply elem_of_app; [left|by right].
    rewrite !elem_of_cons in *. tauto. }
  cbn [orequire obind]. pose proof (Hget (py "kid", key_kid key)) as Hkid. cbn [fst snd] in Hkid.
  rewrite Hkid by (unfold issue_header; apply elem_of_app; left; right; left). cbn [oget obind]. by rewrite Hk.
Qed.

Lemma signing_key_returned s key : signing_key self s = Returned key ->
  key_algorithm key = jp_algorithm self /\ exists e, active_entry s = Some e /\ ke_key e = Some key.
Proof.
  unfold signing_key. destruct (active_entry s) as [e|]; [|done]. destruct (ke_status e); try done.
  destruct (ke_key e) as [k|] eqn:Ek; [|done]. intros (? & Ho%orequire_returned & [= <-])%obind_returned.
  apply andb_true_iff in Ho as [Ha%bool_decide_eq_true _]. eauto.
Qed.

(** A signed token: its compact form, and what the library makes of it. *)
Lemma sign_claims_returned key claims token :
  valid_claims claims -> representable (tc_expires_at claims) -> representable (tc_not_before claims) ->
  representable (tc_issued_at claims) -> sign_claims self key claims = Returned token ->
  jose_encode (issue_header self key) (json_members (claim_members claims)) (key_material_of key) (jp_algorithm self)
    (registered_headers self) = Returned token.
Proof.
  intros Hc He Hn Hi. unfold sign_claims. rewrite claims_to_payload_entries by done. cbn [obind].
  rewrite claim_members_payload. destruct (jose_encode _ _ _ _ _) as [t|e]; [done|].
  destruct (is_JWTError e); [done|]. by destruct (is_Exception e).
Qed.

Lemma verification_key_present s header key status :
  dict_get (py "kid") header = Some (key_kid key) ->
  dict_get (key_kid key) (ks_entries s) = Some {| ke_status := status; ke_key := Some key |} -> status <> REVOKED ->
  key_algorithm key = jp_algorithm self -> verification_key self s header = Returned key.
Proof.
  intros Hk Hg Hs Ha. unfold verification_key. rewrite Hk. cbn [mbind option_bind]. rewrite Hg.
  destruct status; cbn [ke_status ke_key]; try done; by rewrite bool_decide_true.
Qed.

(** What verifying it gives. *)
Definition issued_value (key : JWTKey K) (claims : TokenClaims) (issuer : pystr) : VerifiedToken :=
  {| vt_kid := key_kid key; vt_algorithm := jp_algorithm self; vt_token_type := vp_token_type (jp_profile self);
     vt_issuer := issuer; vt_subject := tc_subject claims; vt_audience := tc_audience claims;
     vt_expires_at := tc_expires_at claims; vt_not_before := tc_not_before claims;
     vt_issued_at := tc_issued_at claims; vt_jwt_id := tc_jwt_id claims; vt_custom := tc_custom claims;
     vt_headers := vp_protected_headers (jp_profile self) |}.

Lemma verify_signed s key claims token encoded now issuer status :
  valid_kid (key_kid key) = true -> key_algorithm key = jp_algorithm self ->
  dict_get (key_kid key) (ks_entries s) = Some {| ke_status := status; ke_key := Some key |} -> status <> REVOKED ->
  valid_claims claims -> representable (tc_expires_at claims) -> representable (tc_not_before claims) ->
  representable (tc_issued_at claims) ->
  read_header self encoded = Returned (issue_header self key) ->
  jose_decode token (key_material_of key) (jp_algorithm self) (registered_headers self) =
    Returned (headers_object (issue_header self key), payload_object (json_members (claim_members claims))) ->
  in_datetime_range now = true -> tc_issuer claims = Some issuer ->
  within_policy (jp_profile self) (on_seconds claims) (vp_token_type (jp_profile self))
    (vp_protected_headers (jp_profile self)) now ->
  verify_fresh self token encoded s now = Returned (issued_value key (on_seconds claims) issuer).
Proof.
  intros Hk Ha Hg Hs Hc He Hn Hi Hh Hd Hnow Hiss Hw. unfold verify_fresh. rewrite Hh. cbn [obind].
  pose proof (issue_header_distinct key) as Hdist.
  rewrite (verification_key_present s _ key status); try done.
  cbn [obind]. unfold decode_token. rewrite Hd. cbn [obind].
  rewrite header_equal_self by done. cbn [orequire obind].
  rewrite claim_members_payload, claims_from_entries by done. cbn [obind].
  destruct (read_header_returned self encoded _ Hh) as (-> & -> & _).
  rewrite (proj2 (validate_claims_iff _ _ _ _ _ tt Hprofile) (conj Hnow Hw)). cbn [obind].
  destruct (wp_audience _ _ _ _ _ Hw) as (a & Haud & _).
  apply (to_verified_token_exact (on_seconds claims) issuer); try done.
  - by apply on_seconds_valid.
  - intros E. rewrite E in Haud. by apply elem_of_nil in Haud.
  - by apply valid_kid_name.
  - by apply policy_name_valid, Hprofile.
  - by apply profile_headers_ok.
Qed.

(** When the cache has no answer, a verification is the fresh one. *)
Lemma verify_missed token encoded payload signature s now v w w1 w2 w3 w4 :
  validate_token_shape (Exact token) = Returned (encoded, payload, signature) ->
  in_datetime_range now = true ->
  jp_snapshot self w = (Returned (Exact s), w1) -> jp_clock self w1 = (Returned (utc_moment now), w2) ->
  cached_token self token s w2 = (Returned None, w3) -> verify_fresh self token encoded s now = Returned v ->
  keep_token self token s v now w3 = (Returned tt, w4) ->
  verify self (Exact token) w = (Returned v, w4).
Proof.
  intros Hshape Hnow Hsnap Hclock Hcache Hfresh Hkeep. unfold verify. rewrite Hshape. unfold take_snapshot, bind, capture.
  rewrite Hsnap. cbn [ret]. rewrite Hclock. unfold capture_reference_time, capture_time, utc_moment, pure_outcome.
  cbn [to_utc mo_wall mo_offset]. rewrite Z.sub_0_r, Hnow, Hcache, Hfresh, Hkeep. done.
Qed.

(** [C9] Round trip: a token the provider issues is one it accepts, under these
    conditions, each of which the code needs.  The policy allows the claims at the
    time of the verification; the snapshot of the verification still has the key,
    active or retired; the times of the claims are ones that [datetime] reads back
    from whole seconds; the token has at most 16384 characters and its header at
    most 512 bytes, which [issue] does not check; and the answer is computed and
    not taken from the cache: there is no cache, or it has no entry for the token,
    and storing the entry raises nothing.  Then verification returns the claims
    that were signed, their times cut to seconds, with the identifier of the key
    and the headers of the policy. *)
Theorem issued_token_verifies (r r' : Repository K) claims token now w w1 w' w1' w2' w3' :
  valid_repository r -> valid_repository r' -> in_datetime_range now = true ->
  fst (jp_snapshot self w) = Returned (Exact (rp_snapshot r)) ->
  valid_claims claims -> representable (tc_expires_at claims) -> representable (tc_not_before claims) ->
  representable (tc_issued_at claims) ->
  issue self claims w = (Returned token, w1) ->
  slen token <= 16384 ->
  (forall raw, base64url_decode (hd [] (split_dots token)) false = Returned raw -> slen raw <= 512) ->
  jp_snapshot self w' = (Returned (Exact (rp_snapshot r')), w1') ->
  jp_clock self w1' = (Returned (utc_moment now), w2') ->
  cached_token self token (rp_snapshot r') w2' = (Returned None, w3') ->
  (forall v, fst (keep_token self token (rp_snapshot r') v now w3') = Returned tt) ->
  (forall key, signing_key self (rp_snapshot r) = Returned key ->
     exists status, status <> REVOKED /\
       dict_get (key_kid key) (ks_entries (rp_snapshot r')) = Some {| ke_status := status; ke_key := Some key |}) ->
  within_policy (jp_profile self) (on_seconds claims) (vp_token_type (jp_profile self))
    (vp_protected_headers (jp_profile self)) now ->
  exists key v, signing_key self (rp_snapshot r) = Returned key /\ fst (verify self (Exact token) w') = Returned v /\
    token_claims v = on_seconds claims /\ vt_kid v = key_kid key /\ vt_algorithm v = jp_algorithm self /\
    vt_token_type v = vp_token_type (jp_profile self) /\ vt_headers v = vp_protected_headers (jp_profile self).
Proof.
  intros Hr Hr' Hnow Hsnap Hclaims He Hn Hi Hissue Hlen Hhead Hsnap' Hclock Hcache Hkeep Hkept Hwithin.
  assert (exists key, signing_key self (rp_snapshot r) = Returned key /\ sign_claims self key claims = Returned token)
    as (key & Hkey & Hsign).
  { unfold issue, take_snapshot, bind, capture in Hissue. destruct (jp_snapshot self w) as [rs w0].
    cbn in Hsnap. subst rs. cbn in Hissue.
    destruct (signing_key self (rp_snapshot r)) as [key|]; [|done]. exists key. cbn in Hissue. by injection Hissue. }
  destruct (Hkept key Hkey) as (status & Hs & Hg). destruct (signing_key_returned _ _ Hkey) as [Ha _].
  assert (valid_kid (key_kid key) = true) as Hkid.
  { pose proof (ve_fits _ _ (vr_entries _ Hr')) as Hf. rewrite forallb_forall in Hf.
    apply dict_get_in, list_elem_of_In, Hf in Hg. unfold entry_fits in Hg. by apply andb_true_iff in Hg as [? _]. }
  apply sign_claims_returned in Hsign; try done.
  destruct (jose_compact _ _ _ _ _ _ Hsign) as (raw & text & pb & sg & Et & B1 & B2 & B3 & N1 & N2 & N3 & Hu & Hj).
  assert (slen raw <= MAX_PROTECTED_HEADER_BYTES) as Hl.
  { apply Hhead. rewrite Et, split_dots_app by (by apply encoded_alphabet). by apply encoded_shape. }
  destruct (wp_issuer _ _ _ _ _ Hwithin) as (issuer & Hiss & _). cbn in Hiss.
  set (v := issued_value key (on_seconds claims) issuer). exists key, v. split; [done|]. split; [|split; [|done]].
  - specialize (Hkeep v). destruct (keep_token self token (rp_snapshot r') v now w3') as [u w4] eqn:Ek.
    cbn in Hkeep. subst u.
    rewrite (verify_missed token (base64url_encode raw false) (base64url_encode pb false) (base64url_encode sg false)
      (rp_snapshot r') now v w' w1' w2' w3' w4); try done.
    + rewrite Et. apply compact_shape; try done. by rewrite <-Et.
    + apply (verify_signed _ key claims _ _ _ issuer status); try done.
      * by apply (read_issued_header key raw text).
      * apply jose_round_trip; [by apply issue_header_distinct|by apply claim_members_distinct|done].
  - unfold token_claims, v, issued_value, on_seconds. cbn. by rewrite Hiss.
Qed.
End Issued.
