(* ===== verification/JwtDemo.v ===== *)
(** * The token packages at concrete inputs

    A signature library in full: the compact form of RFC 7515, with the key itself as the
    signature.  It satisfies what the provider asks of a library ([JoseLaws]), so the
    theorems on tokens are not about nothing; each is applied here to one provider with
    its cache, one repository and one token. *)

From S2P Require Import Prelude Python Leader LeaseRecord PyObject Utf8 Codec JsonText JsonTextLaws CacheCore SyncCache JwtClaims JwtClaimsLaws JwtKeys JwtRepository JwtRepositoryLaws JwtProfiles JwtProfilesLaws JwtCache JwtCacheLaws JwtProvider JwtProviderLaws JwtProviderErrors JwtIssueLaws.
Import Jwt.
Open Scope py_scope.
Open Scope Z_scope.

(** ** A library *)

(** No number needs a [float] here; the digest keeps its input. *)
#[export] Instance demo_float_text : FloatText := {| float_repr := fun _ => []; float_of_text := fun _ => f0 |}.
#[export] Instance demo_sha : Sha256 := fun data => data.

Section PlainObjects.
Variable plain : pyobj -> option json.

Fixpoint plain_items (items : list pyobj) : option (list json) :=
  match items with
  | [] => Some []
  | item :: rest =>
      match plain item, plain_items rest with
      | Some v, Some l => Some (v :: l)
      | _, _ => None
      end
  end.

Fixpoint plain_members (items : list (pyobj * pyobj)) : option (list (pystr * json)) :=
  match items with
  | [] => Some []
  | (OStr name, item) :: rest =>
      if bool_decide (encodable name) then
        match plain item, plain_members rest with
        | Some v, Some l => Some ((name, v) :: l)
        | _, _ => None
        end
      else None
  | _ => None
  end.
End PlainObjects.

#[export] Instance encodable_dec s : Decision (encodable s).
Proof. unfold encodable. apply _. Defined.

(** What [json.dumps] makes of an object without [float]s. *)
Fixpoint plain_of (v : pyobj) : option json :=
  match v with
  | ONone => Some JNull
  | OBool b => Some (JBool b)
  | OInt z => Some (JInt z)
  | OStr s => if bool_decide (encodable s) then Some (JString s) else None
  | OList _ items => JArray <$> plain_items plain_of items
  | ODict _ items =>
      match plain_members plain_of items with
      | Some l => if bool_decide (NoDup l.*1) then Some (JObject l) else None
      | None => None
      end
  | _ => None
  end.

Definition unsupported : exn := JoseError AnotherJose.

Definition encode_part (v : pyobj) : outcome pystr :=
  let? j := oget (plain_of v) unsupported in
  let? data := oget (utf8_encode (json_text j)) unsupported in
  Returned (base64url_encode data false).

Definition decode_part (segment : pystr) : outcome pyobj :=
  let? data := base64url_decode segment false in
  let? text := oget (utf8_decode data) (JoseError Decode) in
  let? v := match json_loads strict_decoder text with Returned v => Returned v | Raised _ => Raised (JoseError Decode) end in
  Returned (thaw_json v).

Definition is_byteb (b : Z) : bool := (0 <=? b) && (b <? 256).

#[export] Instance demo_jose : Jose pybytes := {|
  oct_import := fun secret => Returned secret;
  rsa_import := fun _ _ => Raised (ValueError "no RSA here");
  is_rsa_key := fun _ => false;
  public_key_size := fun _ => 0;
  is_private := fun _ => true;
  public_dict := fun _ => Raised (ValueError "no RSA here");
  jose_encode := fun header payload key _ _ =>
    let? h := encode_part (headers_object header) in
    let? p := encode_part (payload_object payload) in
    let? _ := orequire (negb (bool_decide (key = [])) && forallb is_byteb key) unsupported in
    Returned (h ++ 46 :: p ++ 46 :: base64url_encode key false);
  jose_decode := fun token key _ _ =>
    match split_dots token with
    | [h; p; s] =>
        let? _ := orequire (bool_decide (s = base64url_encode key false)) (JoseError BadSignature) in
        let? header := decode_part h in
        let? payload := decode_part p in
        Returned (header, payload)
    | _ => Raised (JoseError Decode)
    end;
|}.

(** ** Its laws *)

Lemma strict_object_distinct l d :
  NoDup (d.*1 ++ l.*1) -> strict_object l d = Returned (d ++ l).
Proof.
  revert d. induction l as [|[k v] l IH]; intros d Hd; cbn; [by rewrite app_nil_r|].
  rewrite dict_has_keys, bool_decide_false.
  2: { apply NoDup_app in Hd as (_ & Hd & _). intros Hin. apply (Hd k Hin). by left. }
  rewrite dict_set_fresh.
  - rewrite IH; [by rewrite <-app_assoc|]. by rewrite fmap_app, <-app_assoc.
  - rewrite dict_has_keys. apply bool_decide_eq_false. apply NoDup_app in Hd as (_ & Hd & _). intros Hin.
    apply (Hd k Hin). by left.
Qed.

Lemma strict_decoder_readable v : plain_json v -> distinct_keys v = true -> readable strict_decoder v.
Proof.
  induction v as [|[]|z|f|s|l IH|l IH] using json_nested_ind; cbn [plain_json distinct_keys readable]; intros Hv Hd; try done.
  - cbn. by rewrite int_of_text_repr.
  - by apply text_str_ok.
  - rewrite !readable_list in *. rewrite forallb_forall in Hd. rewrite Forall_forall in *. intros x Hx.
    apply IH; [done|by apply Hv|]. by apply Hd, list_elem_of_In.
  - apply andb_true_iff in Hd as [Hn%bool_decide_eq_true Hd]. rewrite readable_list in *. split.
    + cbn. by rewrite strict_object_distinct.
    + rewrite forallb_forall in Hd. rewrite Forall_forall in *. intros m Hm. destruct (Hv m Hm) as [H1 H2].
      split; [by apply text_str_ok|]. apply IH; [done|done|]. by apply Hd, list_elem_of_In.
Qed.

(** What it writes is plain, with distinct names, and is the value that was thawed. *)
Definition plain_spec (o : pyobj) : Prop := forall v, plain_of o = Some v -> plain_json v /\ distinct_keys v = true.

Lemma plain_items_spec items l : Forall plain_spec items -> plain_items plain_of items = Some l ->
  Forall plain_json l /\ forallb distinct_keys l = true.
Proof.
  intros Hi. revert l. induction Hi as [|o items Ho _ IH]; intros l H; cbn in H; [by simplify_eq|].
  destruct (plain_of o) as [v|] eqn:E; [|done]. destruct (plain_items plain_of items) as [vs|]; [|done]. simplify_eq.
  destruct (Ho v E) as [H1 H2], (IH vs eq_refl) as [H3 H4]. split; [by constructor|]. cbn. by rewrite H2.
Qed.

Lemma plain_members_spec items l : Forall (fun m : pyobj * pyobj => plain_spec m.1 /\ plain_spec m.2) items ->
  plain_members plain_of items = Some l ->
  Forall (fun m => text_ok m.1 /\ plain_json m.2) l /\ forallb (fun m => distinct_keys m.2) l = true.
Proof.
  intros Hi. revert l. induction Hi as [|[k o] items [_ Ho] _ IH]; intros l H; cbn in H; [by simplify_eq|].
  destruct k; try done. case_bool_decide as He; [|done]. cbn in Ho.
  destruct (plain_of o) as [v|] eqn:E; [|done]. destruct (plain_members plain_of items) as [vs|]; [|done]. simplify_eq.
  destruct (Ho v E) as [H1 H2], (IH vs eq_refl) as [H3 H4].
  split; [constructor; [split; [by apply encodable_text|done]|done]|]. cbn. by rewrite H2.
Qed.

Lemma plain_of_spec o : plain_spec o.
Proof.
  induction o as [o Hs|id l IH|id l IH|id l IH|id l IH] using pyobj_nested_ind; intros v Hv; cbn in Hv.
  - destruct o; cbn in Hv; try done; try (injection Hv as <-; by split). case_bool_decide as He; [|done]. injection Hv as <-.
    split; [by apply encodable_text|done].
  - destruct (plain_items plain_of l) as [vs|] eqn:E; [|done]. cbn in Hv. simplify_eq.
    destruct (plain_items_spec _ _ IH E) as [H1 H2]. split; [|done]. cbn [plain_json]. by apply readable_list.
  - done.
  - destruct (plain_members plain_of l) as [vs|] eqn:E; [|done]. case_bool_decide as Hn; [|done]. simplify_eq.
    destruct (plain_members_spec _ _ IH E) as [H1 H2]. cbn [plain_json distinct_keys]. split; [by apply readable_list|].
    by rewrite bool_decide_true.
  - done.
Qed.

Lemma plain_of_thaw v v' : plain_of (thaw_json v) = Some v' -> v' = v.
Proof.
  revert v'. induction v as [|b|z|f|s|l IH|l IH] using json_nested_ind; intros v' H; cbn in H; try (by simplify_eq).
  - case_bool_decide; by simplify_eq.
  - destruct (plain_items plain_of _) as [vs|] eqn:E; [|done]. cbn in H. simplify_eq. f_equal. clear - IH E.
    revert vs E. induction IH as [|a l Ha _ IHl]; intros vs E; cbn in E; [by simplify_eq|].
    unfold thaw_json in *. destruct (plain_of (json_object true a)) as [v|] eqn:Ea; [|done].
    destruct (plain_items plain_of _) as [r|] eqn:Er; [|done]. simplify_eq. f_equal; [by apply Ha|by apply IHl].
  - destruct (plain_members plain_of _) as [vs|] eqn:E; [|done]. case_bool_decide; [|done]. simplify_eq. f_equal.
    clear - IH E. revert vs E. induction IH as [|[k a] l Ha _ IHl]; intros vs E; cbn in E; [by simplify_eq|].
    unfold thaw_json in *. cbn in Ha. case_bool_decide; [|done].
    destruct (plain_of (json_object true a)) as [v|] eqn:Ea; [|done].
    destruct (plain_members plain_of _) as [r|] eqn:Er; [|done]. simplify_eq. f_equal; [f_equal; by apply Ha|by apply IHl].
Qed.

(** A part of a token: encoded bytes of a text; that of JSON is read back. *)
Lemma encode_part_bytes v segment : encode_part v = Returned segment ->
  exists j data, plain_of v = Some j /\ segment = base64url_encode data false /\ Forall is_byte data /\ data <> [] /\
    utf8_encode (json_text j) = Some data /\ json_loads strict_decoder (json_text j) = Returned j.
Proof.
  unfold encode_part. intros (j & Hj%oget_returned & (data & Hd%oget_returned & [= <-])%obind_returned)%obind_returned.
  pose proof (plain_of_spec _ _ Hj) as [H1 H2].
  pose proof (strict_decoder_readable j H1 H2) as Hr. pose proof (json_loads_text _ j Hr) as Hl.
  exists j, data. split; [done|]. split; [done|]. split; [by eapply utf8_encode_bytes|]. split; [|done].
  intros ->. apply utf8_decode_encode in Hd. cbn in Hd. injection Hd as Hd.
  pose proof (json_text_opens _ j Hr) as (c & t & E & _). by rewrite E in Hd.
Qed.

Lemma decode_part_encoded v segment : encode_part (thaw_json v) = Returned segment ->
  decode_part segment = Returned (thaw_json v).
Proof.
  intros (j & data & ->%plain_of_thaw & -> & Hb & _ & Hd & Hl)%encode_part_bytes.
  unfold decode_part. rewrite encoded_shape by done. cbn [obind]. rewrite (utf8_decode_encode _ _ Hd). cbn [oget obind].
  by rewrite Hl.
Qed.

Lemma headers_thaw header : headers_object header = thaw_json (JObject (string_members_json header)).
Proof. unfold headers_object, thaw_json, string_members_json. cbn. by rewrite <-list_fmap_compose. Qed.

Lemma members_thaw members : payload_object (json_members members) = thaw_json (JObject members).
Proof. unfold payload_object, json_members, thaw_json. cbn. by rewrite <-list_fmap_compose. Qed.

Lemma demo_encode_returned header payload key algorithm names token :
  jose_encode header payload key algorithm names = Returned token ->
  exists h p, encode_part (headers_object header) = Returned h /\ encode_part (payload_object payload) = Returned p /\
    key <> [] /\ Forall is_byte key /\ token = h ++ 46 :: p ++ 46 :: base64url_encode key false.
Proof.
  cbn. intros (h & Hh & (p & Hp & (? & Hk%orequire_returned & [= <-])%obind_returned)%obind_returned)%obind_returned.
  apply andb_true_iff in Hk as [Hn%negb_true_iff%bool_decide_eq_false Hk]. exists h, p. split; [done|]. split; [done|].
  split; [done|]. split; [|done]. apply Forall_forall. intros b Hb. rewrite forallb_forall in Hk.
  apply list_elem_of_In, Hk in Hb. unfold is_byteb in Hb. unfold is_byte. lia.
Qed.

#[export] Instance demo_jose_laws : JoseLaws pybytes.
Proof.
  split.
  - intros header payload key algorithm names token (h & p & Hh & Hp & Hn & Hk & ->)%demo_encode_returned.
    rewrite headers_thaw in Hh. apply encode_part_bytes in Hh as (j & raw & ->%plain_of_thaw & -> & Hb & Hr & Hu & Hl).
    apply encode_part_bytes in Hp as (j' & data & _ & -> & Hb' & Hr' & _). by exists raw, (json_text (JObject (string_members_json header))), data, key.
  - intros header members key algorithm names token _ _ (h & p & Hh & Hp & Hn & Hk & ->)%demo_encode_returned. cbn.
    rewrite headers_thaw in Hh |- *. rewrite members_thaw in Hp |- *.
    pose proof (decode_part_encoded _ _ Hh) as Dh. pose proof (decode_part_encoded _ _ Hp) as Dp.
    apply encode_part_bytes in Hh as (? & raw & _ & -> & Hb & _). apply encode_part_bytes in Hp as (? & data & _ & -> & Hb' & _).
    rewrite !split_dots_app, split_dots_last by (by apply encoded_alphabet). rewrite bool_decide_true by done. cbn [orequire obind].
    by rewrite Dh, Dp.
Qed.

(** ** A world *)

(** The cache with its thread's tokens, the attributes of the token cache, and how far
    the repository has come. *)
Record demo_world : Type := DemoWorld {
  dw_cache : TTLCache cache_key VerifiedToken;
  dw_tokens : gset cache_key;
  dw_observed : option Z;
  dw_failures : list string;
  dw_time : nat;
}.

Definition cache_lens : lens demo_world (TTLCache cache_key VerifiedToken) :=
  Lens _ _ dw_cache (fun c w => DemoWorld c (dw_tokens w) (dw_observed w) (dw_failures w) (dw_time w)).
Definition tokens_lens : lens demo_world (gset cache_key) :=
  Lens _ _ dw_tokens (fun s w => DemoWorld (dw_cache w) s (dw_observed w) (dw_failures w) (dw_time w)).
Definition observed_lens : lens demo_world (option Z) :=
  Lens _ _ dw_observed (fun o w => DemoWorld (dw_cache w) (dw_tokens w) o (dw_failures w) (dw_time w)).
Definition failures_lens : lens demo_world (list string) :=
  Lens _ _ dw_failures (fun l w => DemoWorld (dw_cache w) (dw_tokens w) (dw_observed w) l (dw_time w)).

#[export] Instance cache_lens_laws : LensLaws cache_lens.
Proof. by split; intros; destruct w. Qed.

(** The cache's own clock stands still. *)
Definition demo_object : cache_object cache_key VerifiedToken demo_world :=
  {| co_cache := cache_lens; co_tokens := tokens_lens; co_clock := ret 0; co_wait := fun _ => ret tt; co_thread := 1 |}.

Definition demo_cache : TokenCache demo_world :=
  {| tk_backend := ttl_backend demo_object; tk_default_ttl := total_seconds 300000000;
     tk_observed := observed_lens; tk_failures := failures_lens |}.

#[export] Instance demo_backend : CacheBackend (tk_backend demo_cache) := ttl_cache_backend demo_object (fun w => eq_refl).

Lemma under_lock_frame {A} (f : TTLCache cache_key VerifiedToken -> outcome Z -> outcome A * TTLCache cache_key VerifiedToken) w :
  dw_observed (snd (under_lock demo_object f w)) = dw_observed w /\ dw_failures (snd (under_lock demo_object f w)) = dw_failures w.
Proof. unfold under_lock. cbn. by destruct (f _ _). Qed.

Lemma get_frame key w :
  dw_observed (snd (cb_get (tk_backend demo_cache) key w)) = dw_observed w /\
  dw_failures (snd (cb_get (tk_backend demo_cache) key w)) = dw_failures w.
Proof.
  cbn. unfold bind, get_method. pose proof (under_lock_frame (fun c tick => cache_get c key tick) w) as H.
  by destruct (under_lock _ _ w) as [[?|?] ?].
Qed.

Lemma set_frame key value ttl w :
  dw_observed (snd (cb_set (tk_backend demo_cache) key value ttl w)) = dw_observed w /\
  dw_failures (snd (cb_set (tk_backend demo_cache) key value ttl w)) = dw_failures w.
Proof.
  cbn [demo_cache tk_backend ttl_backend cb_set]. unfold set_method, resolve_ttl. rewrite bind_pure. destruct (ttl_ns _ _); [apply under_lock_frame|done].
Qed.

#[export] Instance observed_apart : Apart (tk_backend demo_cache) observed_lens.
Proof.
  split; [by split; intros; destruct w|done|intros; apply get_frame|intros; apply set_frame|intros; apply under_lock_frame].
Qed.

#[export] Instance failures_apart : Apart (tk_backend demo_cache) failures_lens.
Proof.
  split; [by split; intros; destruct w|done|intros; apply get_frame|intros; apply set_frame|intros; apply under_lock_frame].
Qed.

(** ** A repository in time *)

Definition demo_key (kid : string) (secret : Z) : JWTKey pybytes := new_jwt_key (py kid) HS256 true (repeat secret 32).
Definition key1 : JWTKey pybytes := demo_key "k1" 7.
Definition key2 : JWTKey pybytes := demo_key "k2" 9.

Definition returned {A} (default : A) (r : outcome A) : A := match r with Returned a => a | Raised _ => default end.

Definition empty_repository : Repository pybytes :=
  {| rp_algorithm := None; rp_snapshot := {| ks_entries := []; ks_epoch := 0 |}; rp_log := [] |}.
Definition repository0 : Repository pybytes := returned empty_repository (make_repository (Some (Exact key1)) (Returned [])).
Definition repository1 : Repository pybytes := snd (call (Rotate (Exact key2)) repository0).
Definition repository2 : Repository pybytes := snd (call (Revoke (OStr (py "k1"))) repository1).

(** One key is active; it is retired by another; it is revoked. *)
Definition demo_run (n : nat) : Repository pybytes :=
  match n with O => repository0 | S O => repository1 | _ => repository2 end.

Lemma fit_key1 : fit_key (Exact key1).
Proof. intros key [= <-]. vm_compute. reflexivity. Qed.

Lemma repository0_made : make_repository (Some (Exact key1)) (Returned []) = Returned repository0.
Proof. vm_compute. reflexivity. Qed.

Lemma repository0_valid : valid_repository repository0.
Proof.
  apply (make_repository_valid (Some (Exact key1)) (Returned []) repository0); [|by intros l [= <-]|apply repository0_made].
  intros key [= <-]. vm_compute. reflexivity.
Qed.

Lemma step1 : repository_step repository0 repository1.
Proof. exists (Rotate (Exact key2)). split; [vm_compute; reflexivity|reflexivity]. Qed.

Lemma step2 : repository_step repository1 repository2.
Proof. exists (Revoke (OStr (py "k1"))). split; [exact I|reflexivity]. Qed.

Lemma demo_run_ok : repository_run demo_run.
Proof.
  split; [apply repository0_valid|]. intros [|[|n]]; [right; apply step1|right; apply step2|by left].
Qed.

Lemma repository_invariant_witness :
  valid_entries (rp_algorithm repository2) (ks_entries (rp_snapshot repository2)) /\
  ks_epoch (rp_snapshot repository0) = 0 /\ 0 <= ks_epoch (rp_snapshot repository2) /\
  (forall e, active_entry (rp_snapshot repository2) = Some e ->
     exists key, ke_key e = Some key /\ key_can_sign key = true /\ rp_algorithm repository2 = Some (key_algorithm key)).
Proof.
  apply (repository_invariant (Some (Exact key1)) (Returned []) repository0 repository2).
  - intros c [= <-]. apply fit_key1.
  - intros l [= <-]. constructor.
  - apply repository0_made.
  - exact (run_step demo_run 0 2 demo_run_ok ltac:(lia)).
Defined.

Lemma revoked_forever_witness :
  fst (call (Rotate (Exact (demo_key "k1" 1))) repository2) = Raised (JWTError KeyState).
Proof.
  destruct (revoked_forever repository1 (py "k1") (rp_snapshot repository2) repository2 repository2) as [_ H].
  - exact (run_valid demo_run 1 demo_run_ok).
  - vm_compute. reflexivity.
  - apply rtc_refl.
  - apply (H (Rotate (Exact (demo_key "k1" 1)))). exists (demo_key "k1" 1). split; reflexivity.
Defined.

Lemma call_reports_witness :
  ks_epoch (rp_snapshot repository1) = 1 /\ rp_log repository1 = [("rotate"%string, NoError)].
Proof.
  pose proof (call_reports (Rotate (Exact key2)) repository0 repository0_valid eq_refl) as H.
  vm_compute in H. destruct H as (_ & _ & _). split; vm_compute; reflexivity.
Defined.

Lemma rotate_retires_witness :
  dict_get (py "k1") (ks_entries (rp_snapshot repository1)) = Some {| ke_status := RETIRED; ke_key := Some key1 |}.
Proof.
  destruct (rotate_retires key2 repository0 (rp_snapshot repository1) repository1) as [_ H].
  - apply repository0_valid.
  - intros key [= <-]. vm_compute. reflexivity.
  - vm_compute. reflexivity.
  - exact (H (py "k1") {| ke_status := ACTIVE; ke_key := Some key1 |} eq_refl).
Defined.

(** ** A policy *)

Definition empty_profile : ValidationProfile :=
  {| vp_token_type := []; vp_allowed_issuers := ∅; vp_accepted_audiences := ∅; vp_required_claims := ∅;
     vp_protected_headers := []; vp_clock_skew := 0; vp_max_token_age := None; vp_fingerprint := [] |}.

Definition make_demo_profile (skew : timedelta) : outcome ValidationProfile :=
  make_validation_profile (OStr (py "JWT")) (Some (Returned [OStr (py "issuer")])) (Some (Returned [OStr (py "audience")]))
    (Some (Returned [OStr (py "exp")])) (ODict None [(OStr (py "env"), OStr (py "test"))])
    (Some (Exact skew)) (Some (Exact 3600000000)) true.

Definition demo_profile : ValidationProfile := returned empty_profile (make_demo_profile 1000000).
Definition strict_profile : ValidationProfile := returned empty_profile (make_demo_profile 0).

Lemma make_demo_profile_valid skew p : make_demo_profile skew = Returned p -> valid_profile p.
Proof. apply make_validation_profile_valid. Qed.

Lemma demo_profile_made : make_demo_profile 1000000 = Returned demo_profile.
Proof. vm_compute. reflexivity. Qed.

Lemma strict_profile_made : make_demo_profile 0 = Returned strict_profile.
Proof. vm_compute. reflexivity. Qed.

Lemma demo_profile_valid : valid_profile demo_profile.
Proof. exact (make_demo_profile_valid _ _ demo_profile_made). Qed.

Lemma strict_profile_valid : valid_profile strict_profile.
Proof. exact (make_demo_profile_valid _ _ strict_profile_made). Qed.

Definition demo_now : Z := 1700000100000000.

Lemma demo_within : validate_claims (Exact demo_claims) (Exact demo_profile) (py "JWT") [(py "env", py "test")]
  (utc_moment demo_now) = Returned tt.
Proof. vm_compute. reflexivity. Qed.

Lemma demo_too_old : validate_claims (Exact demo_claims) (Exact demo_profile) (py "JWT") [(py "env", py "test")]
  (utc_moment 1700003602000000) = Raised (JWTError Expired).
Proof. vm_compute. reflexivity. Qed.

(** An hour after it was issued, and a second of skew, the token is too old. *)
Lemma validate_claims_exact_witness :
  within_policy demo_profile demo_claims (py "JWT") [(py "env", py "test")] demo_now /\
  ~ within_policy demo_profile demo_claims (py "JWT") [(py "env", py "test")] 1700003602000000.
Proof.
  split.
  - pose proof (validate_claims_exact demo_profile demo_claims (py "JWT") [(py "env", py "test")] demo_now
      demo_profile_valid eq_refl) as H. rewrite demo_within in H. exact H.
  - pose proof (validate_claims_exact demo_profile demo_claims (py "JWT") [(py "env", py "test")] 1700003602000000
      demo_profile_valid eq_refl) as H. rewrite demo_too_old in H. exact (proj1 H).
Defined.

Lemma demo_claims_valid : valid_claims demo_claims.
Proof.
  apply (make_claims_valid (OStr (py "issuer")) ONone (OTuple None [OStr (py "audience")])
    (Some (utc_moment 1700003600000000)) None (Some (utc_moment 1700000000999999)) (OStr (py "id-1"))
    (frozen_object demo_custom)). vm_compute. reflexivity.
Qed.

Definition demo_issuance : IssuanceProfile :=
  {| ip_default_ttl := Some 600000000; ip_max_ttl := Some 3600000000; ip_add_issued_at := true |}.

(** The token's own lifetime is the longest one allowed, less a microsecond. *)
Lemma apply_issuance_profile_exact_witness :
  apply_issuance_profile (Exact demo_claims) (Exact demo_issuance) (utc_moment demo_now) = Returned demo_claims.
Proof.
  destruct (apply_issuance_profile_exact demo_issuance demo_claims demo_now demo_claims_valid eq_refl) as [[E _]|[E _]];
    [exact E|vm_compute in E; discriminate].
Defined.

Lemma demo_sha_injective : forall a b, sha256 a = sha256 b -> a = b.
Proof. done. Qed.

(** Clock skews tell the fingerprints apart, by the theorem, not by computing them. *)
Lemma fingerprint_determines_policy_witness :
  policy_fingerprint demo_profile <> policy_fingerprint strict_profile.
Proof.
  intros E. destruct (fingerprint_determines_policy demo_profile strict_profile) as [_ H].
  - exact demo_sha_injective.
  - intros a Ha. exact Ha.
  - exact demo_profile_valid.
  - exact strict_profile_valid.
  - destruct (H E) as (_ & _ & _ & _ & _ & Hskew & _). vm_compute in Hskew. discriminate.
Defined.

(** ** The provider *)

Definition demo_provider (cache : option (TokenCache demo_world)) : JWSProvider demo_world pybytes :=
  {| jp_algorithm := HS256;
     jp_snapshot := fun w => (Returned (Exact (rp_snapshot (demo_run (dw_time w)))), w);
     jp_profile := demo_profile;
     jp_clock := ret (utc_moment demo_now);
     jp_cache := cache |}.

Definition fresh_cache : TTLCache cache_key VerifiedToken :=
  {| default_ttl_ns := 300000000000; max_inflight := 8; active_flights := ∅; owned_flights := []; flights := [];
     tc_state := cache_state 8 |}.

(** An empty cache, at a time of the repository. *)
Definition world_at (time : nat) : demo_world := DemoWorld fresh_cache ∅ None [] time.

Lemma vouched_empty published time : vouched (demo_provider (Some demo_cache)) demo_cache published (world_at time).
Proof. intros k v (e & Hin & _). cbn in Hin. by apply elem_of_nil in Hin. Qed.

Definition demo_token : pystr := returned [] (fst (issue (demo_provider None) demo_claims (world_at 0))).

(** The value of the token, and the world after it was verified and kept. *)
Definition verified_world : demo_world := snd (verify (demo_provider (Some demo_cache)) (Exact demo_token) (world_at 1)).

Lemma demo_token_accepted : exists v, fst (verify (demo_provider (Some demo_cache)) (Exact demo_token) (world_at 1)) = Returned v.
Proof. eexists. vm_compute. reflexivity. Qed.

Lemma run_fits s : published_in_run demo_run s -> forallb entry_fits (ks_entries s) = true.
Proof. intros (m & ->). apply (vr_entries _ (run_valid demo_run m demo_run_ok)). Qed.

Lemma run_epochs s1 s2 : published_in_run demo_run s1 -> published_in_run demo_run s2 -> ks_epoch s1 = ks_epoch s2 -> s1 = s2.
Proof. intros (m1 & ->) (m2 & ->). apply run_epoch, demo_run_ok. Qed.

(** The token the first key signed is accepted after the rotation, from a retired key. *)
Lemma verify_sound_witness : exists v,
  fst (verify (demo_provider (Some demo_cache)) (Exact demo_token) (world_at 1)) = Returned v /\
  accepted_at (demo_provider (Some demo_cache)) v demo_now.
Proof.
  destruct demo_token_accepted as [v Hv]. exists v. split; [exact Hv|].
  destruct (verify_sound (demo_provider (Some demo_cache)) demo_profile_valid demo_sha_injective demo_cache
    (or_intror eq_refl) (published_in_run demo_run) run_fits run_epochs (fun _ => True) (fun d => d = utc_moment demo_now)
    ltac:(intros w Hw; split; [exact Hw|intros s [= <-]; split; [by eexists|exact I]])
    ltac:(intros w Hw; split; [exact Hw|by intros d [= <-]])
    demo_token (world_at 1) (vouched_empty _ 1)) as [_ H].
  destruct (H v Hv) as (s & d & now & _ & _ & -> & Hnow & _ & Hacc). cbn in Hnow. injection Hnow as <-. exact Hacc.
Defined.

(** A provider that runs after the revocation. *)
Definition late_provider : JWSProvider demo_world pybytes :=
  {| jp_algorithm := HS256;
     jp_snapshot := fun w => (Returned (Exact (rp_snapshot (demo_run (2 + dw_time w)))), w);
     jp_profile := demo_profile;
     jp_clock := ret (utc_moment demo_now);
     jp_cache := Some demo_cache |}.

(** The cache still has the token of the first key, and vouches for it. *)
Lemma verified_world_vouched : vouched_in_run late_provider demo_cache demo_run verified_world.
Proof.
  destruct (verify_returns (demo_provider (Some demo_cache)) demo_profile_valid demo_sha_injective demo_cache
    (or_intror eq_refl) (published_in_run demo_run) run_fits run_epochs (fun _ => True) (fun d => True)
    ltac:(intros w Hw; split; [exact Hw|intros s [= <-]; split; [by eexists|exact I]])
    ltac:(intros w Hw; split; [exact Hw|done])
    demo_token (world_at 1) (vouched_empty _ 1)) as [H _]. exact H.
Qed.

Example token_kept : length (entries (tc_state (dw_cache verified_world))) = 1%nat.
Proof. vm_compute. reflexivity. Qed.

Lemma revoked_key_rejected_witness :
  match fst (verify late_provider (Exact demo_token) verified_world) with
  | Returned v => vt_kid v <> py "k1"
  | Raised _ => True
  end.
Proof.
  pose proof (revoked_key_rejected late_provider demo_profile_valid demo_sha_injective demo_cache (or_intror eq_refl)
    demo_run demo_run_ok (py "k1") 2
    (ex_intro _ {| ke_status := REVOKED; ke_key := None |} (conj eq_refl eq_refl))
    ltac:(intros w Hw; split; [exact Hw|intros s [= <-]; exists (2 + dw_time w)%nat; split; [lia|reflexivity]])
    ltac:(intros w Hw; exact Hw) demo_token verified_world verified_world_vouched) as [_ H].
  destruct (fst (verify late_provider (Exact demo_token) verified_world)) as [v|e] eqn:E; [exact (H v eq_refl)|exact I].
Defined.

Example revoked_token_refused :
  fst (verify late_provider (Exact demo_token) verified_world) = Raised (JWTError KeyUnavailable).
Proof. vm_compute. reflexivity. Qed.

(** ** One epoch, the round trip and the errors *)

Lemma one_epoch_empty time : one_epoch demo_cache (world_at time).
Proof. intros k v (e & Hin & _). cbn in Hin. by apply elem_of_nil in Hin. Qed.

(** The look-up of the later snapshot empties the cache. *)
Lemma cache_holds_one_epoch_witness :
  one_epoch demo_cache (snd (token_cache_get demo_cache demo_token demo_profile (rp_snapshot repository1) (world_at 1))).
Proof.
  refine (proj1 (cache_holds_one_epoch demo_cache _ demo_token demo_profile (rp_snapshot repository1)
    {| vt_kid := []; vt_algorithm := HS256; vt_token_type := []; vt_issuer := []; vt_subject := None; vt_audience := [];
       vt_expires_at := None; vt_not_before := None; vt_issued_at := None; vt_jwt_id := None; vt_custom := [];
       vt_headers := [] |} 0 0 (world_at 1) (one_epoch_empty 1))).
  intros log w. reflexivity.
Defined.

Lemma demo_signing_key key : signing_key (demo_provider None) (rp_snapshot repository0) = Returned key -> key = key1.
Proof. intros E. vm_compute in E. by injection E as <-. Qed.

Lemma demo_header_short raw : base64url_decode (hd [] (split_dots demo_token)) false = Returned raw -> slen raw <= 512.
Proof.
  assert (match base64url_decode (hd [] (split_dots demo_token)) false with Returned raw => slen raw <=? 512 | Raised _ => true end
    = true) as H by (vm_compute; reflexivity).
  intros E. rewrite E in H. by apply Z.leb_le.
Qed.

(** Issued at the start, verified after the key was retired. *)
Lemma issued_token_verifies_witness : exists v,
  fst (verify (demo_provider None) (Exact demo_token) (world_at 1)) = Returned v /\ token_claims v = on_seconds demo_claims.
Proof.
  destruct (issued_token_verifies (demo_provider None) demo_profile_valid repository0 repository1 demo_claims demo_token
    demo_now (world_at 0) (world_at 0) (world_at 1) (world_at 1) (world_at 1) (world_at 1)) as (key & v & _ & Hv & Hc & _).
  - exact (run_valid demo_run 0 demo_run_ok).
  - exact (run_valid demo_run 1 demo_run_ok).
  - reflexivity.
  - reflexivity.
  - exact demo_claims_valid.
  - split; vm_compute; reflexivity.
  - exact I.
  - split; vm_compute; reflexivity.
  - vm_compute. reflexivity.
  - vm_compute. discriminate.
  - exact demo_header_short.
  - reflexivity.
  - reflexivity.
  - reflexivity.
  - intros v. reflexivity.
  - intros key ->%demo_signing_key. exists RETIRED. split; [discriminate|]. vm_compute. reflexivity.
  - apply (validate_claims_iff demo_profile (on_seconds demo_claims) _ _ demo_now tt demo_profile_valid). vm_compute. reflexivity.
  - exists v. exact (conj Hv Hc).
Defined.

Lemma base64url_decode_raises value padded e : base64url_decode value padded = Raised e -> is_Exception e = true.
Proof.
  unfold base64url_decode. intros H. repeat case_match; simplify_eq; try done.
  all: repeat match goal with H : _ = Raised _ |- _ => repeat case_match; simplify_eq; try done end.
Qed.

Lemma decode_part_result segment :
  match decode_part segment with Raised e => is_Exception e = true | Returned v => readable_object v = true end.
Proof.
  unfold decode_part. destruct (base64url_decode segment false) as [data|e] eqn:E; cbn [obind];
    [|by eapply base64url_decode_raises].
  destruct (utf8_decode data) as [text|]; cbn [oget obind]; [|done].
  destruct (json_loads strict_decoder text); cbn [obind]; [apply frozen_readable|done].
Qed.

Lemma demo_decode_ordinary token key algorithm names :
  match jose_decode token key algorithm names with
  | Raised e => is_Exception e = true
  | Returned (_, payload) => readable_object payload = true
  end.
Proof.
  cbn. destruct (split_dots token) as [|h [|p [|s []]]]; try done.
  destruct (bool_decide _); cbn [orequire obind]; [|done].
  pose proof (decode_part_result h) as Hh. destruct (decode_part h) as [?|e]; cbn [obind]; [|done].
  pose proof (decode_part_result p) as Hp. by destruct (decode_part p).
Qed.

(** The operations of the cache raise the [KeyError] of a key that is not there, and
    errors of a time to live. *)
Lemma under_lock_ordinary {A} (f : TTLCache cache_key VerifiedToken -> outcome Z -> outcome A * TTLCache cache_key VerifiedToken) :
  (forall c e, fst (f c (Returned 0)) = Raised e -> is_Exception e = true) -> ordinary (under_lock demo_object f).
Proof.
  intros Hf w e. unfold under_lock. cbn. specialize (Hf (dw_cache w) e). by destruct (f (dw_cache w) (Returned 0)).
Qed.

Lemma get_ordinary key : ordinary (cb_get (tk_backend demo_cache) key).
Proof.
  assert (ordinary (get_method demo_object key)) as H.
  { apply under_lock_ordinary. intros c e. unfold cache_get, with_now, read_now, clamp_tick, get.
    destruct (od_get _ _); cbn; [done|]. by intros [= <-]. }
  intros w e. cbn [demo_cache tk_backend ttl_backend cb_get]. rewrite bind_eq. specialize (H w e).
  destruct (get_method demo_object key w) as [[v|x] w']; cbn in *; [done|intros [= ->]; by apply H].
Qed.

Lemma ttl_ns_ordinary value e : ttl_ns value "ttl" = Raised e -> is_Exception e = true.
Proof. unfold ttl_ns. intros H. repeat case_match; simplify_eq; done. Qed.

Lemma set_ordinary key value ttl : ordinary (cb_set (tk_backend demo_cache) key value ttl).
Proof.
  intros w e. cbn [demo_cache tk_backend ttl_backend cb_set]. unfold set_method, resolve_ttl. rewrite bind_pure.
  destruct (ttl_ns _ _) as [d|e'] eqn:E; [|intros [= <-]; by eapply ttl_ns_ordinary].
  apply under_lock_ordinary. done.
Qed.

Lemma clear_ordinary : ordinary (cb_clear (tk_backend demo_cache)).
Proof. apply under_lock_ordinary. done. Qed.

Lemma verify_errors_closed_witness :
  match fst (verify late_provider (Exact demo_token) verified_world) with
  | Raised e => is_JWTError e = true
  | Returned _ => False
  end.
Proof.
  pose proof (verify_errors_closed late_provider demo_profile_valid demo_decode_ordinary
    ltac:(intros w e; discriminate) ltac:(intros w s [= <-]; apply run_fits; exists (2 + dw_time w)%nat; reflexivity) ltac:(intros w e; discriminate)
    ltac:(intros w d e [= <-]; discriminate)
    ltac:(intros c [= <-]; split; [exact get_ordinary|split; [exact set_ordinary|exact clear_ordinary]])
    (Exact demo_token) verified_world) as H.
  destruct (fst (verify late_provider (Exact demo_token) verified_world)) as [v|e] eqn:E.
  - vm_compute in E. discriminate.
  - exact (H e eq_refl).
Defined.

(** ** The factories *)

Lemma factories_sound_witness : sound_key key1.
Proof.
  destruct (factories_sound (K := pybytes)) as [H _].
  apply (H (OStr (py "k1")) (Exact HS256) (Exact (repeat 7 32)) key1). vm_compute. reflexivity.
Defined.
