(* ===== verification/EnvelopeFormat.v ===== *)
(** * The binary result envelope ([bluetape/cache/redis/_formats.py])

    A result that a load publishes in Redis is wrapped in an envelope: the token
    of the owner that produced it, the metadata of its serialization, the
    compression of its payload, and the payload.  This file has the validated
    values ([SerializedPayload] and [PayloadMetadata] of
    [bluetape/serde/_contracts.py], [ResultEnvelope] of [_contracts.py]) and the
    strict binary format, whose reader moves a cursor over the bytes. *)

From S2P Require Import Prelude Python Leader LeaseRecord Utf8.
Open Scope py_scope.
Open Scope Z_scope.

(** ** Payloads *)

Inductive TrustProfile : Type := UNTRUSTED | TRUSTED_INTERNAL.

#[export] Instance TrustProfile_eq_dec : EqDecision TrustProfile.
Proof. solve_decision. Defined.

(** [profile.value], and [TrustProfile(value)]. *)
Definition trust_value (p : TrustProfile) : pystr :=
  match p with UNTRUSTED => py "untrusted" | TRUSTED_INTERNAL => py "trusted_internal" end.

Definition trust_of_value (s : pystr) : outcome TrustProfile :=
  if decide (s = trust_value UNTRUSTED) then Returned UNTRUSTED
  else if decide (s = trust_value TRUSTED_INTERNAL) then Returned TRUSTED_INTERNAL
  else Raised (ValueError "not a valid TrustProfile").

Definition lower_digit (c : Z) : bool := (97 <=? c) && (c <=? 122) || (48 <=? c) && (c <=? 57).

(** [_ALLOWED_FORMAT_CHARACTERS], [_TOKEN_CHARACTERS], [_ALGORITHM_CHARACTERS]. *)
Definition format_character (c : Z) : bool := lower_digit c || (45 <=? c) && (c <=? 47) || (c =? 95).
Definition token_character (c : Z) : bool :=
  lower_digit c || (65 <=? c) && (c <=? 90) || (c =? 46) || (c =? 95) || (c =? 126) || (c =? 45).
Definition algorithm_character (c : Z) : bool :=
  lower_digit c || (c =? 45) || (c =? 95) || (c =? 46).

Record PayloadMetadata : Type := {
  pm_format : pystr;
  pm_version : Z;
  pm_content_type : option pystr;
  pm_trust_profile : TrustProfile;
}.

#[export] Instance PayloadMetadata_eq_dec : EqDecision PayloadMetadata.
Proof. solve_decision. Defined.

(** [len(s)] is between 1 and [n], and every character is allowed. *)
Definition short_text (n : nat) (allowed : Z -> bool) (s : pystr) : bool :=
  (1 <=? length s)%nat && (length s <=? n)%nat && forallb allowed s.

(** [PayloadMetadata(...)]. *)
Definition make_metadata (format : arg pystr) (version : arg Z) (content_type : option (arg pystr))
    (trust_profile : arg TrustProfile) : outcome PayloadMetadata :=
  let? f := require_exact format "format must be an exact str" in
  let? v := require_exact version "version must be an exact int" in
  let? c := require_optional content_type "content_type must be an exact str or None" in
  let? t := require_exact trust_profile "trust_profile must be an exact TrustProfile" in
  let? _ := orequire (short_text 64 format_character f && (0 <? v)) InvalidMetadataError in
  Returned {| pm_format := f; pm_version := v; pm_content_type := c; pm_trust_profile := t |}.

Record SerializedPayload : Type := {
  sp_metadata : PayloadMetadata;
  sp_data : pybytes;
}.

(** ** Result envelopes *)

Definition validate_owner_token (token : arg pystr) : outcome pystr :=
  let? t := require_exact token "owner_token must be an exact str" in
  let? _ := orequire (short_text 128 token_character t)
              (ValueError "owner token must be 1..128 allowed ASCII characters") in
  Returned t.

Definition validate_algorithm (algorithm : arg pystr) : outcome pystr :=
  let? a := require_exact algorithm "compression_algorithm must be an exact str" in
  let? _ := orequire (short_text 64 algorithm_character a)
              (ValueError "compression algorithm must be 1..64 allowed ASCII characters") in
  Returned a.

Record ResultEnvelope : Type := {
  re_version : Z;
  re_owner_token : pystr;
  re_metadata : PayloadMetadata;
  re_compression_algorithm : pystr;
  re_payload : pybytes;
}.

#[export] Instance ResultEnvelope_eq_dec : EqDecision ResultEnvelope.
Proof. solve_decision. Defined.

(** [ResultEnvelope(...)]. *)
Definition make_envelope (version : arg Z) (owner_token : arg pystr) (metadata : arg PayloadMetadata)
    (compression_algorithm : arg pystr) (payload : arg pybytes) : outcome ResultEnvelope :=
  let? v := require_exact version "version must be an exact int" in
  let? _ := orequire (0 <? v) (ValueError "version must be positive") in
  let? t := validate_owner_token owner_token in
  let? m := require_exact metadata "metadata must be an exact PayloadMetadata" in
  let? a := validate_algorithm compression_algorithm in
  let? p := require_exact payload "payload must be exact bytes" in
  Returned {| re_version := v; re_owner_token := t; re_metadata := m;
              re_compression_algorithm := a; re_payload := p |}.

(** ** The binary format *)

Definition MAGIC : pybytes := py "BTRE".
Definition ENVELOPE_VERSION : Z := 1.
Definition NULL_LENGTH : Z := 4294967295.
Definition MAX_CONTENT_TYPE_SIZE : Z := 1024.
Definition MAX_U32_VALUE : Z := NULL_LENGTH - 1.

Definition size_limit : exn := EnvelopeSizeError Envelope.ENCODED_SIZE_LIMIT.
Definition malformed : exn := EnvelopeDecodeError Envelope.MALFORMED_ENVELOPE.

(** [len(data)]. *)
Definition blen (data : pybytes) : Z := Z.of_nat (length data).

Definition validate_max_encoded_size (value : arg Z) : outcome Z :=
  let? n := require_exact value "max_encoded_size must be an exact int" in
  let? _ := orequire ((1 <=? n) && (n <=? MAX_U32_VALUE))
              (ValueError "max_encoded_size is outside the supported range") in
  Returned n.

(** [BinaryEnvelopeFormat]: its [max_encoded_size]. *)
Record BinaryEnvelopeFormat : Type := { bf_max_encoded_size : Z }.

Definition make_binary_format (max_encoded_size : arg Z) : outcome BinaryEnvelopeFormat :=
  let? n := validate_max_encoded_size max_encoded_size in
  Returned {| bf_max_encoded_size := n |}.

(** [struct.Struct("!I")]. *)
Definition pack_u32 (n : Z) : outcome pybytes :=
  if (0 <=? n) && (n <=? NULL_LENGTH)
  then Returned [n / 16777216; n / 65536 mod 256; n / 256 mod 256; n mod 256]
  else Raised StructError.

Definition unpack_u32 (raw : pybytes) : outcome Z :=
  match raw with
  | [a; b; c; d] => Returned (a * 16777216 + b * 65536 + c * 256 + d)
  | _ => Raised StructError
  end.

(** [_encoded_text]; [encode] is one of the two encodings. *)
Definition encoded_text (value : pystr) (encode : pystr -> option pybytes) (maximum : Z)
    : outcome pybytes :=
  let? encoded := oget (encode value) (ValueError "field must use its encoding") in
  let? _ := orequire (blen encoded <=? maximum) (ValueError "field exceeds its encoded size limit") in
  Returned encoded.

Definition take_bytes (data : pybytes) (cursor size : Z) : outcome (pybytes * Z) :=
  if (size <? 0) || (blen data - cursor <? size) then Raised malformed
  else Returned (take (Z.to_nat size) (drop (Z.to_nat cursor) data), cursor + size).

Definition read_u32 (data : pybytes) (cursor : Z) : outcome (Z * Z) :=
  let? (raw, cursor) := take_bytes data cursor 4 in
  let? n := unpack_u32 raw in
  Returned (n, cursor).

Definition read_required_text (data : pybytes) (cursor : Z) (decode : pybytes -> option pystr)
    (maximum : Z) : outcome (pystr * Z) :=
  let? (size, cursor) := read_u32 data cursor in
  let? _ := orequire ((1 <=? size) && (size <=? maximum)) malformed in
  let? (raw, cursor) := take_bytes data cursor size in
  let? text := oget (decode raw) malformed in
  Returned (text, cursor).

Definition ensure_bound (size maximum : Z) : outcome unit := orequire (size <=? maximum) size_limit.

(** [output.extend(_U32.pack(len(field))); output.extend(field)]. *)
Definition sized (field : pybytes) : outcome pybytes :=
  let? n := pack_u32 (blen field) in Returned (n ++ field).

(** [output.append(n)]. *)
Definition append_byte (n : Z) : outcome pybytes :=
  if (0 <=? n) && (n <? 256) then Returned [n] else Raised (ValueError "byte must be in range(0, 256)").

(** [BinaryEnvelopeFormat.encode]. *)
Definition binary_encode (format : BinaryEnvelopeFormat) (envelope : arg ResultEnvelope)
    : outcome pybytes :=
  let? e := require_exact envelope "envelope must be an exact ResultEnvelope" in
  let m := re_metadata e in
  let? owner := encoded_text (re_owner_token e) ascii_encode 128 in
  let? serde_format := encoded_text (pm_format m) ascii_encode 64 in
  let? content_type :=
    match pm_content_type m with
    | None => Returned None
    | Some s => let? b := encoded_text s utf8_encode MAX_CONTENT_TYPE_SIZE in Returned (Some b)
    end in
  let? trust_profile := encoded_text (trust_value (pm_trust_profile m)) ascii_encode 64 in
  let? algorithm := encoded_text (re_compression_algorithm e) ascii_encode 64 in
  let fields := [owner; serde_format; trust_profile; algorithm; re_payload e] in
  let? _ := orequire (forallb (fun field => blen field <=? MAX_U32_VALUE) fields) size_limit in
  let size := 5 + 7 * 4 + foldr (fun field n => blen field + n) 0 fields in
  let size := match content_type with None => size | Some c => size + blen c end in
  let? _ := ensure_bound size (bf_max_encoded_size format) in
  let? version := append_byte (re_version e) in
  let? owner := sized owner in
  let? serde_format := sized serde_format in
  let? serde_version := pack_u32 (pm_version m) in
  let? content_type := match content_type with None => pack_u32 NULL_LENGTH | Some c => sized c end in
  let? trust_profile := sized trust_profile in
  let? algorithm := sized algorithm in
  let? payload := sized (re_payload e) in
  let encoded := MAGIC ++ version ++ owner ++ serde_format ++ serde_version ++ content_type
                 ++ trust_profile ++ algorithm ++ payload in
  let? _ := ensure_bound (blen encoded) (bf_max_encoded_size format) in
  Returned encoded.

(** The length of the content type, or the mark that there is none, and the
    content type. *)
Definition read_content_type (data : pybytes) (cursor : Z) : outcome (option pystr * Z) :=
  let? (content_size, cursor) := read_u32 data cursor in
  if content_size =? NULL_LENGTH then Returned (None, cursor)
  else
    let? _ := orequire (content_size <=? MAX_CONTENT_TYPE_SIZE) malformed in
    let? (raw_content, cursor) := take_bytes data cursor content_size in
    let? content_type := oget (utf8_decode raw_content) malformed in
    Returned (Some content_type, cursor).

(** The body of the [try] of [BinaryEnvelopeFormat.decode]. *)
Definition decode_body (data : pybytes) : outcome ResultEnvelope :=
  let? (magic, cursor) := take_bytes data 0 (blen MAGIC) in
  let? _ := orequire (bool_decide (magic = MAGIC)) malformed in
  let? (version_bytes, cursor) := take_bytes data cursor 1 in
  let version := nth 0 version_bytes 0 in
  let? _ := orequire (version =? ENVELOPE_VERSION)
              (EnvelopeDecodeError Envelope.UNSUPPORTED_VERSION) in
  let? (owner, cursor) := read_required_text data cursor ascii_decode 128 in
  let? (serde_format, cursor) := read_required_text data cursor ascii_decode 64 in
  let? (serde_version, cursor) := read_u32 data cursor in
  let? (content_type, cursor) := read_content_type data cursor in
  let? (trust, cursor) := read_required_text data cursor ascii_decode 64 in
  let? (algorithm, cursor) := read_required_text data cursor ascii_decode 64 in
  let? (payload_size, cursor) := read_u32 data cursor in
  let? (payload, cursor) := take_bytes data cursor payload_size in
  let? _ := orequire (cursor =? blen data) malformed in
  let? profile := trust_of_value trust in
  let? metadata := make_metadata (Exact serde_format) (Exact serde_version) (Exact <$> content_type)
                     (Exact profile) in
  make_envelope (Exact version) (Exact owner) (Exact metadata) (Exact algorithm) (Exact payload).

(** [BinaryEnvelopeFormat.decode]. *)
Definition binary_decode (format : BinaryEnvelopeFormat) (data : arg pybytes) : outcome ResultEnvelope :=
  let? d := require_exact data "data must be exact bytes" in
  let? _ := ensure_bound (blen d) (bf_max_encoded_size format) in
  match decode_body d with
  | Returned e => Returned e
  | Raised (EnvelopeDecodeError code) => Raised (EnvelopeDecodeError code)
  | Raised e =>
      if is_TypeError_or_ValueError e || bool_decide (e = StructError) then Raised malformed
      else Raised e
  end.

(** ** Reading back *)

Lemma blen_app a b : blen (a ++ b) = blen a + blen b.
Proof. unfold blen. rewrite length_app. lia. Qed.

(** [rest] is what is left of [data] from [cursor] on. *)
Definition at_cursor (data : pybytes) (cursor : Z) (rest : pybytes) : Prop :=
  0 <= cursor <= blen data /\ drop (Z.to_nat cursor) data = rest.

Lemma at_start data : at_cursor data 0 data.
Proof. split; [unfold blen; lia|done]. Qed.

Lemma at_end data cursor rest : at_cursor data cursor rest -> (cursor =? blen data) = true <-> rest = [].
Proof.
  unfold blen. intros [Hc <-]. rewrite Z.eqb_eq. split.
  - intros ->. by rewrite Nat2Z.id, drop_all.
  - intros E. apply (f_equal length) in E. rewrite length_drop in E. cbn in E. unfold blen in Hc. lia.
Qed.

Lemma take_bytes_iff data cursor rest size s cursor' :
  at_cursor data cursor rest ->
  take_bytes data cursor size = Returned (s, cursor') <->
  exists rest', rest = s ++ rest' /\ blen s = size /\ cursor' = cursor + size /\
                at_cursor data cursor' rest'.
Proof.
  unfold blen. intros [Hc Hr]. unfold take_bytes, blen in *. rewrite Hr. split.
  - destruct (Z.ltb_spec size 0), (Z.ltb_spec (Z.of_nat (length data) - cursor) size); cbn; try done.
    intros [= <- <-]. exists (drop (Z.to_nat size) rest).
    assert (length rest = (length data - Z.to_nat cursor)%nat) as Hlen by (rewrite <-Hr; apply length_drop).
    rewrite take_drop, length_take, Hlen. split; [done|]. split; [lia|]. split; [done|].
    split; [unfold blen; lia|]. rewrite <-Hr, drop_drop. f_equal. lia.
  - intros (rest' & -> & <- & -> & Hc' & _). unfold blen in Hc'.
    rewrite (proj2 (Z.ltb_ge _ _)), (proj2 (Z.ltb_ge _ _)) by lia. cbn.
    by rewrite Nat2Z.id, take_app_length.
Qed.

Lemma pack_u32_length n b : pack_u32 n = Returned b -> blen b = 4.
Proof. unfold pack_u32. destruct (_ && _); [|done]. by intros [= <-]. Qed.

Lemma unpack_pack b n :
  blen b = 4 -> Forall is_byte b -> unpack_u32 b = Returned n <-> pack_u32 n = Returned b.
Proof.
  intros Hl Hb. unfold blen in Hl.
  destruct b as [|a [|b [|c [|d [|]]]]]; try (cbn in Hl; lia). cbn [unpack_u32].
  repeat (apply Forall_cons in Hb as [? Hb]). unfold is_byte in *. unfold pack_u32, NULL_LENGTH.
  destruct (_ && _) eqn:E.
  - clear Hl Hb E. split; intros E; injection E as <-.
    + repeat f_equal; divide.
    + intros. subst. f_equal. divide.
  - split; [|done]. intros [= <-]. apply andb_false_iff in E as [E%Z.leb_gt|E%Z.leb_gt]; lia.
Qed.

Lemma read_u32_iff data cursor rest n cursor' :
  at_cursor data cursor rest -> Forall is_byte rest ->
  read_u32 data cursor = Returned (n, cursor') <->
  exists b rest', pack_u32 n = Returned b /\ rest = b ++ rest' /\ at_cursor data cursor' rest'.
Proof.
  intros Hat Hb. unfold read_u32. rewrite obind_returned. split.
  - intros ([raw c1] & H1 & H2). apply (take_bytes_iff _ _ _ _ _ _ Hat) in H1 as (rest' & -> & Hl & -> & Hat').
    apply obind_returned in H2 as (m & Hm & [= -> <-]). apply Forall_app in Hb as [Hb _].
    apply unpack_pack in Hm; eauto.
  - intros (b & rest' & Hp & -> & Hat'). exists (b, cursor'). pose proof (pack_u32_length _ _ Hp) as Hl.
    apply Forall_app in Hb as [Hb _]. split.
    + apply (take_bytes_iff _ _ _ _ _ _ Hat). exists rest'. split_and!; [done|done| |done].
      destruct Hat as [Hc Hd], Hat' as [Hc' Hd']. apply (f_equal length) in Hd, Hd'.
      rewrite length_drop in Hd, Hd'. rewrite length_app in Hd. unfold blen in *. lia.
    + apply obind_returned. exists n. split; [by apply unpack_pack|done].
Qed.

(** What [sized] writes. *)
Lemma sized_returned field b :
  sized field = Returned b <-> exists n, pack_u32 (blen field) = Returned n /\ b = n ++ field.
Proof. unfold sized. rewrite obind_returned. split; intros (n & Hn & E); exists n; by simplify_eq. Qed.

(** A length, checked by [ok], and that many bytes. *)
Lemma read_sized_iff {A} (ok : Z -> bool) (k : pybytes -> Z -> outcome A) data cursor rest a :
  at_cursor data cursor rest -> Forall is_byte rest ->
  (let? (size, cursor) := read_u32 data cursor in
   let? _ := orequire (ok size) malformed in
   let? (raw, cursor) := take_bytes data cursor size in
   k raw cursor) = Returned a <->
  exists raw b rest' cursor', sized raw = Returned b /\ ok (blen raw) = true /\ rest = b ++ rest' /\
    at_cursor data cursor' rest' /\ k raw cursor' = Returned a.
Proof.
  intros Hat Hb. rewrite obind_returned. split.
  - intros ([n c1] & H1 & H2). apply (read_u32_iff _ _ _ _ _ Hat Hb) in H1 as (b & r1 & Hp & -> & Hat1).
    apply obind_returned in H2 as (u & Hok%orequire_returned & H2).
    apply obind_returned in H2 as ([raw c2] & H2 & H3).
    apply (take_bytes_iff _ _ _ _ _ _ Hat1) in H2 as (r2 & -> & <- & -> & Hat2).
    exists raw, (b ++ raw), r2, (c1 + blen raw). split_and!; try done.
    + apply sized_returned. eauto.
    + by rewrite app_assoc.
  - intros (raw & b & r2 & c2 & (n & Hn & ->)%sized_returned & Hok & -> & Hat2 & Hk).
    rewrite <-app_assoc in Hat. rewrite <-app_assoc in Hb.
    pose proof (pack_u32_length _ _ Hn) as Hl.
    assert (at_cursor data (cursor + 4) (raw ++ r2)) as Hat1.
    { destruct Hat as [Hc Hd]. pose proof (f_equal length Hd) as Hd'.
      rewrite length_drop, length_app in Hd'. unfold blen in *. split; [unfold blen; lia|].
      rewrite Z2Nat.inj_add, <-drop_drop, Hd by lia. apply drop_app_length'. lia. }
    exists (blen raw, cursor + 4). split; [apply (read_u32_iff _ _ _ _ _ Hat Hb); eauto|].
    rewrite (proj2 (orequire_returned _ _ tt) Hok). cbn [obind].
    apply obind_returned. exists (raw, c2). split; [|done].
    apply (take_bytes_iff _ _ _ _ _ _ Hat1). exists r2. split_and!; [done|done| |done].
    destruct Hat1 as [Hc Hd], Hat2 as [Hc' Hd']. apply (f_equal length) in Hd, Hd'.
    rewrite length_drop in Hd, Hd'. rewrite length_app in Hd. unfold blen in *. lia.
Qed.

Lemma at_app data cursor b rest :
  at_cursor data cursor (b ++ rest) -> at_cursor data (cursor + blen b) rest.
Proof.
  intros [Hc Hd]. pose proof (f_equal length Hd) as Hd'. rewrite length_drop, length_app in Hd'.
  unfold at_cursor, blen in *. split; [lia|].
  rewrite Z2Nat.inj_add, <-drop_drop, Hd by lia. apply drop_app_length'. lia.
Qed.

(** ** What the format writes, without its bounds *)

Definition sized_text (value : pystr) (encode : pystr -> option pybytes) (maximum : Z)
    : outcome pybytes :=
  let? b := encoded_text value encode maximum in sized b.

Definition sized_content (content_type : option pystr) : outcome pybytes :=
  match content_type with
  | None => pack_u32 NULL_LENGTH
  | Some s => sized_text s utf8_encode MAX_CONTENT_TYPE_SIZE
  end.

Definition layout (e : ResultEnvelope) : outcome pybytes :=
  let m := re_metadata e in
  let? owner := sized_text (re_owner_token e) ascii_encode 128 in
  let? serde_format := sized_text (pm_format m) ascii_encode 64 in
  let? serde_version := pack_u32 (pm_version m) in
  let? content_type := sized_content (pm_content_type m) in
  let? trust_profile := sized_text (trust_value (pm_trust_profile m)) ascii_encode 64 in
  let? algorithm := sized_text (re_compression_algorithm e) ascii_encode 64 in
  let? payload := sized (re_payload e) in
  Returned (MAGIC ++ [ENVELOPE_VERSION] ++ owner ++ serde_format ++ serde_version ++ content_type
            ++ trust_profile ++ algorithm ++ payload).

Lemma encoded_text_returned s encode maximum b :
  encoded_text s encode maximum = Returned b <-> encode s = Some b /\ blen b <= maximum.
Proof.
  unfold encoded_text. rewrite obind_returned. setoid_rewrite oget_returned.
  setoid_rewrite obind_returned. setoid_rewrite orequire_returned. setoid_rewrite Z.leb_le. split.
  - intros (a & Ha & u & Hm & [= ->]). done.
  - intros [Ha Hm]. exists b. split; [done|]. by exists tt.
Qed.

Lemma sized_text_returned s encode maximum b :
  sized_text s encode maximum = Returned b <->
  exists raw, encode s = Some raw /\ blen raw <= maximum /\ sized raw = Returned b.
Proof.
  unfold sized_text. rewrite obind_returned. setoid_rewrite encoded_text_returned.
  split; [intros (a & [] & ?)|intros (a & ? & ? & ?)]; eauto.
Qed.

Lemma read_text_iff data cursor rest maximum s cursor' :
  at_cursor data cursor rest -> Forall is_byte rest ->
  read_required_text data cursor ascii_decode maximum = Returned (s, cursor') <->
  exists b rest', sized_text s ascii_encode maximum = Returned b /\ s <> [] /\ rest = b ++ rest' /\
    at_cursor data cursor' rest'.
Proof.
  intros Hat Hb. unfold read_required_text.
  rewrite (read_sized_iff (fun size => (1 <=? size) && (size <=? maximum))
    (fun raw cursor => let? text := oget (ascii_decode raw) malformed in Returned (text, cursor))
    data cursor rest (s, cursor') Hat Hb).
  setoid_rewrite sized_text_returned. setoid_rewrite obind_returned. setoid_rewrite oget_returned.
  setoid_rewrite andb_true_iff. setoid_rewrite Z.leb_le. split.
  - intros (raw & b & rest' & c' & Hs & [H1 H2] & -> & Hat' & t & Ht & [= -> ->]).
    apply ascii_decode_encode in Ht. exists b, rest'. split_and!; eauto.
    intros ->. injection Ht as <-. by apply H1.
  - intros (b & rest' & (raw & Hraw & Hm & Hs) & Hne & -> & Hat').
    exists raw, b, rest', cursor'. pose proof Hraw as Ht. apply ascii_decode_encode in Ht.
    split_and!; eauto. unfold ascii_encode in Hraw. destruct (is_ascii s); [|done].
    injection Hraw as <-. destruct s; [done|unfold blen; cbn; lia].
Qed.

Lemma read_content_iff data cursor rest ct cursor' :
  at_cursor data cursor rest -> Forall is_byte rest ->
  read_content_type data cursor = Returned (ct, cursor') <->
  exists b rest', sized_content ct = Returned b /\ rest = b ++ rest' /\ at_cursor data cursor' rest'.
Proof.
  intros Hat Hb.
  assert (forall s, (let? (size, cursor) := read_u32 data cursor in
      let? _ := orequire (size <=? MAX_CONTENT_TYPE_SIZE) malformed in
      let? (raw, cursor) := take_bytes data cursor size in
      let? text := oget (utf8_decode raw) malformed in Returned (Some text, cursor))
      = Returned (Some s, cursor') <->
    exists b rest', sized_content (Some s) = Returned b /\ rest = b ++ rest' /\
      at_cursor data cursor' rest') as Hsome.
  { intros s. rewrite (read_sized_iff (fun size => size <=? MAX_CONTENT_TYPE_SIZE)
      (fun raw cursor => let? text := oget (utf8_decode raw) malformed in Returned (Some text, cursor))
      data cursor rest (Some s, cursor') Hat Hb).
    cbn [sized_content]. setoid_rewrite sized_text_returned. setoid_rewrite obind_returned.
    setoid_rewrite oget_returned. setoid_rewrite Z.leb_le. split.
    - intros (raw & b & rest' & c' & Hs & H2 & -> & Hat' & t & Ht & [= -> ->]).
      apply utf8_encode_decode in Ht. exists b, rest'. eauto 10.
    - intros (b & rest' & (raw & Hraw & Hm & Hs) & -> & Hat').
      exists raw, b, rest', cursor'. apply utf8_decode_encode in Hraw. eauto 10. }
  unfold read_content_type. rewrite obind_returned. split.
  - intros ([n c1] & H1 & H2). destruct (Z.eqb_spec n NULL_LENGTH) as [->|Hn].
    + injection H2 as <- <-. by apply (read_u32_iff _ _ _ _ _ Hat Hb).
    + destruct ct as [s|].
      * apply Hsome. apply obind_returned. eauto.
      * exfalso. apply obind_returned in H2 as (? & _ & H2). apply obind_returned in H2 as ([] & _ & H2).
        apply obind_returned in H2 as (? & _ & H2). done.
  - destruct ct as [s|]; cbn [sized_content].
    + intros H. apply Hsome, obind_returned in H as ([n c1] & H1 & H2). exists (n, c1). split; [done|].
      destruct (Z.eqb_spec n NULL_LENGTH) as [->|]; [done|done].
    + intros H. exists (NULL_LENGTH, cursor'). split; [by apply (read_u32_iff _ _ _ _ _ Hat Hb)|done].
Qed.

(** ** Valid envelopes *)

Definition valid_metadata (m : PayloadMetadata) : Prop :=
  short_text 64 format_character (pm_format m) = true /\ 0 < pm_version m.

(** An envelope that the constructors accept. *)
Definition valid_envelope (e : ResultEnvelope) : Prop :=
  0 < re_version e /\ short_text 128 token_character (re_owner_token e) = true /\
  valid_metadata (re_metadata e) /\
  short_text 64 algorithm_character (re_compression_algorithm e) = true.

Lemma make_metadata_returned f v ct t m :
  make_metadata (Exact f) (Exact v) (Exact <$> ct) (Exact t) = Returned m <->
  m = {| pm_format := f; pm_version := v; pm_content_type := ct; pm_trust_profile := t |} /\
  valid_metadata m.
Proof.
  unfold make_metadata, valid_metadata, require_optional.
  assert (match Exact <$> ct with
          | None => Returned None
          | Some v0 => match require_exact v0 "content_type must be an exact str or None" with
                       | Returned a => Returned (Some a) | Raised e => Raised e end
          end = Returned ct) as -> by by destruct ct.
  cbn [require_exact obind]. unfold orequire.
  destruct (_ && _) eqn:E; cbn [obind].
  - apply andb_true_iff in E as [E1 E2%Z.ltb_lt]. split; [by intros [= <-]|by intros [-> _]].
  - split; [done|]. intros (-> & H1 & H2%Z.ltb_lt). cbn in H1, H2. by rewrite H1, H2 in E.
Qed.

Lemma make_envelope_returned v t m a p e :
  make_envelope (Exact v) (Exact t) (Exact m) (Exact a) (Exact p) = Returned e <->
  e = {| re_version := v; re_owner_token := t; re_metadata := m; re_compression_algorithm := a;
         re_payload := p |} /\
  0 < v /\ short_text 128 token_character t = true /\ short_text 64 algorithm_character a = true.
Proof.
  unfold make_envelope, validate_owner_token, validate_algorithm. cbn. unfold orequire.
  destruct (Z.ltb_spec 0 v); cbn; [|by split; [|intros (_ & ? & _); lia]].
  destruct (short_text 128 token_character t); cbn; [|by split; [|intros (_ & _ & ? & _)]].
  destruct (short_text 64 algorithm_character a); cbn; [|by split; [|intros (_ & _ & _ & ?)]].
  split; [by intros [= <-]|by intros (-> & _)].
Qed.

Lemma trust_of_value_returned s p : trust_of_value s = Returned p <-> s = trust_value p.
Proof.
  unfold trust_of_value. destruct (decide (s = trust_value UNTRUSTED)) as [->|H1].
  - destruct p; split; done.
  - destruct (decide (s = trust_value TRUSTED_INTERNAL)) as [->|H2]; destruct p; split; done.
Qed.

(** ** Readers

    A reader at a cursor, and the bytes [w a] that it reads as [a]. *)

Definition reads {A} (data : pybytes) (p : Z -> outcome (A * Z)) (w : A -> pybytes -> Prop) : Prop :=
  forall cursor rest a cursor', at_cursor data cursor rest -> Forall is_byte rest ->
    p cursor = Returned (a, cursor') <->
    exists b rest', w a b /\ rest = b ++ rest' /\ at_cursor data cursor' rest'.

Section Readers.
Context {A B : Type} (data : pybytes).
Implicit Types (k : A -> Z -> outcome B).

Lemma reads_elim p w k cursor rest e :
  reads data p w -> at_cursor data cursor rest -> Forall is_byte rest ->
  (let? (a, cursor') := p cursor in k a cursor') = Returned e ->
  exists a b rest' cursor', w a b /\ rest = b ++ rest' /\ at_cursor data cursor' rest' /\
    Forall is_byte rest' /\ k a cursor' = Returned e.
Proof.
  intros Hp Hat Hb H. apply obind_returned in H as ([a c] & H & Hk).
  apply (Hp _ _ _ _ Hat Hb) in H as (b & rest' & Hw & -> & Hat').
  apply Forall_app in Hb as [_ Hb]. eauto 10.
Qed.

Lemma reads_intro p w k cursor a b rest e :
  reads data p w -> at_cursor data cursor (b ++ rest) -> Forall is_byte (b ++ rest) -> w a b ->
  (forall cursor', at_cursor data cursor' rest -> Forall is_byte rest -> k a cursor' = Returned e) ->
  (let? (a, cursor') := p cursor in k a cursor') = Returned e.
Proof.
  intros Hp Hat Hb Hw Hk. pose proof (at_app _ _ _ _ Hat) as Hat'. apply obind_returned.
  exists (a, cursor + blen b). split; [apply (Hp _ _ _ _ Hat Hb); eauto|].
  apply Hk; [done|]. by apply Forall_app in Hb as [_ Hb].
Qed.
End Readers.

Section TheReaders.
Context (data : pybytes).

Lemma reads_take n : reads data (fun c => take_bytes data c n) (fun s b => b = s /\ blen s = n).
Proof.
  intros c rest s c' Hat Hb. rewrite (take_bytes_iff _ _ _ _ _ _ Hat). split.
  - intros (r & -> & Hl & -> & Hat'). exists s, r. done.
  - intros (b & r & [-> Hl] & -> & Hat'). exists r. split_and!; [done|done| |done].
    destruct Hat as [Hc Hd], Hat' as [Hc' Hd']. apply (f_equal length) in Hd, Hd'.
    rewrite length_drop in Hd, Hd'. rewrite length_app in Hd. unfold blen in *. lia.
Qed.

Lemma reads_u32 : reads data (read_u32 data) (fun n b => pack_u32 n = Returned b).
Proof. intros c rest n c' Hat Hb. by apply read_u32_iff. Qed.

Lemma reads_text maximum :
  reads data (fun c => read_required_text data c ascii_decode maximum)
    (fun s b => sized_text s ascii_encode maximum = Returned b /\ s <> []).
Proof.
  intros c rest s c' Hat Hb. rewrite (read_text_iff _ _ _ _ _ _ Hat Hb).
  split; [intros (b & r & ? & ? & ? & ?)|intros (b & r & [? ?] & ? & ?)]; eauto 10.
Qed.

Lemma reads_content : reads data (read_content_type data) (fun ct b => sized_content ct = Returned b).
Proof. intros c rest ct c' Hat Hb. by apply read_content_iff. Qed.
End TheReaders.

(** Takes the next reader, or the next check, of [H] apart. *)
Tactic Notation "read_next" uconstr(lem) hyp(H) :=
  match goal with
  | A : at_cursor ?d ?c ?r, B : Forall is_byte ?r |- _ =>
      let a := fresh "a" in let b := fresh "b" in
      apply (fun H => reads_elim _ _ _ _ _ _ _ lem A B H) in H; clear A B;
      destruct H as (a & b & ? & ? & ? & -> & ? & ? & H)
  end.

Ltac check_next H :=
  let E := fresh "E" in apply obind_returned in H as (? & E%orequire_returned & H).

Lemma decode_body_layout d rest e :
  at_cursor d 0 rest -> Forall is_byte rest -> decode_body d = Returned e ->
  layout e = Returned rest /\ valid_envelope e /\ re_version e = ENVELOPE_VERSION.
Proof.
  intros A0 B0 H. unfold decode_body in H.
  read_next (reads_take d _) H. check_next H. read_next (reads_take d _) H. check_next H.
  read_next (reads_text d _) H. read_next (reads_text d _) H. read_next (reads_u32 d) H.
  read_next (reads_content d) H. read_next (reads_text d _) H. read_next (reads_text d _) H.
  read_next (reads_u32 d) H. read_next (reads_take d _) H. check_next H.
  apply bool_decide_eq_true in E as ->. apply Z.eqb_eq in E0.
  match goal with A : at_cursor d ?c ?r |- _ => apply (at_end _ _ _ A) in E1 as -> end.
  destruct_and!. subst.
  apply obind_returned in H as (p & ->%trust_of_value_returned & H).
  apply obind_returned in H as (m & (-> & Hm)%make_metadata_returned & H).
  apply make_envelope_returned in H as (-> & Hv & Ht & Ha). split; [|done].
  match goal with H : blen ?v = 1 |- _ =>
    destruct v as [|v1 [|]]; [done| |unfold blen in H; cbn in H; lia] end.
  unfold layout. cbn [nth re_metadata re_owner_token pm_format pm_version pm_content_type
    pm_trust_profile re_compression_algorithm re_payload] in *. subst v1.
  repeat match goal with H : _ = Returned _ |- _ => rewrite H; cbn [obind]; clear H end.
  rewrite (proj2 (sized_returned a8 _)) by eauto. cbn [obind]. by rewrite app_nil_r.
Qed.

Lemma short_text_nonempty n allowed s : short_text n allowed s = true -> s <> [].
Proof. unfold short_text. rewrite !andb_true_iff. intros [[H _] _] ->. done. Qed.

Lemma trust_value_nonempty p : trust_value p <> [].
Proof. by destruct p. Qed.

(** Runs the next reader, or the next check, of the goal. *)
Tactic Notation "run_reader" uconstr(lem) :=
  match goal with
  | A : at_cursor ?d ?c ?r, B : Forall is_byte ?r |- _ =>
      refine (reads_intro _ _ _ _ _ _ _ _ _ lem A B _ _);
      [eauto using short_text_nonempty, trust_value_nonempty|clear A B; intros ? A B]
  end.

Ltac run_check := rewrite (proj2 (orequire_returned _ _ tt)); [cbn [obind]|].

Lemma layout_decode_body d rest e :
  at_cursor d 0 rest -> Forall is_byte rest ->
  layout e = Returned rest -> valid_envelope e -> re_version e = ENVELOPE_VERSION ->
  decode_body d = Returned e.
Proof.
  intros A0 B0 L (Hpos & Ht & Hm & Ha) Hver. pose proof (short_text_nonempty _ _ _ (proj1 Hm)).
  destruct e as [v owner [fmt sv ct trust] alg payload]. unfold layout in L.
  cbn [re_version re_metadata re_owner_token pm_format pm_version pm_content_type pm_trust_profile
    re_compression_algorithm re_payload] in *. subst v.
  repeat (let b := fresh "b" in apply obind_returned in L as (b & ? & L)).
  apply (f_equal (fun r => match r with Returned x => x | Raised _ => [] end)) in L. subst rest.
  match goal with H : sized payload = _ |- _ => apply sized_returned in H as (n & Hn & ->) end.
  rewrite <-(app_nil_r payload) in B0. rewrite <-(app_nil_r payload) in A0.
  unfold decode_body. run_reader (reads_take d _). run_check; [|by apply bool_decide_eq_true].
  run_reader (reads_take d _). run_check; [|done].
  run_reader (reads_text d _). run_reader (reads_text d _). run_reader (reads_u32 d).
  run_reader (reads_content d). run_reader (reads_text d _). run_reader (reads_text d _).
  run_reader (reads_u32 d). run_reader (reads_take d _).
  run_check; [|match goal with A : at_cursor d _ _ |- _ => by apply (at_end _ _ _ A) end].
  rewrite (proj2 (trust_of_value_returned _ trust)) by done. cbn [obind].
  rewrite (proj2 (make_metadata_returned _ _ _ _ _)) by done. cbn [obind].
  by apply make_envelope_returned.
Qed.

(** ** The format's bounds *)

(** A format that the constructor accepts. *)
Definition valid_format (f : BinaryEnvelopeFormat) : Prop := 1 <= bf_max_encoded_size f <= MAX_U32_VALUE.

Lemma sized_length raw b : sized raw = Returned b -> blen b = 4 + blen raw.
Proof.
  intros (n & Hn & ->)%sized_returned. rewrite blen_app. by rewrite (pack_u32_length _ _ Hn).
Qed.

Lemma blen_nonneg b : 0 <= blen b.
Proof. unfold blen. lia. Qed.

Lemma ensure_bound_returned size maximum u : ensure_bound size maximum = Returned u <-> size <= maximum.
Proof. unfold ensure_bound. rewrite orequire_returned. apply Z.leb_le. Qed.

(** The raw content type, and what becomes of it. *)
Definition raw_content (content_type : option pystr) : outcome (option pybytes) :=
  match content_type with
  | None => Returned None
  | Some s => let? b := encoded_text s utf8_encode MAX_CONTENT_TYPE_SIZE in Returned (Some b)
  end.

Definition write_content (content_type : option pybytes) : outcome pybytes :=
  match content_type with None => pack_u32 NULL_LENGTH | Some c => sized c end.

Lemma sized_content_raw ct : sized_content ct = obind (raw_content ct) write_content.
Proof. destruct ct as [s|]; [|done]. cbn. unfold sized_text. by destruct (encoded_text _ _ _). Qed.

(** Takes every statement of a sequence apart, and puts one together. *)
Ltac statements H :=
  repeat match type of H with
  | obind _ _ = Returned _ => let H' := fresh "S" in apply obind_returned in H as (? & H' & H)
  end.

Ltac replay :=
  repeat match goal with H : ?m = Returned _ |- context [?m] => rewrite H; cbn [obind] end.

Lemma binary_encode_layout f e d :
  valid_format f -> re_version e = ENVELOPE_VERSION ->
  binary_encode f (Exact e) = Returned d <-> layout e = Returned d /\ blen d <= bf_max_encoded_size f.
Proof.
  intros Hf Hv. unfold binary_encode, layout, sized_text. cbn [require_exact obind]. rewrite Hv.
  fold (raw_content (pm_content_type (re_metadata e))).
  rewrite sized_content_raw. change (append_byte ENVELOPE_VERSION) with (@Returned pybytes [ENVELOPE_VERSION]).
  cbn [obind]. split.
  - intros H. statements H. unfold write_content. replay.
    injection H as <-. split; [done|].
    match goal with B : ensure_bound (blen (_ ++ _)) _ = _ |- _ => by apply ensure_bound_returned in B end.
  - intros [H Hb]. statements H.
    repeat match goal with S : obind _ _ = Returned _ |- _ => statements S end.
    replay. unfold write_content in *.
    assert (forall l, Forall (fun field => blen field <= MAX_U32_VALUE) l ->
      orequire (forallb (fun field => blen field <=? MAX_U32_VALUE) l) size_limit = Returned tt) as Hall.
    { intros l Hl. apply orequire_returned. induction Hl as [|y l Hy _ IH]; [done|].
      cbn. by rewrite (proj2 (Z.leb_le _ _) Hy). }
    assert (match x8 with None => 4 | Some c => 4 + blen c end = blen x2) as Hct.
    { destruct x8; [by rewrite (sized_length _ _ S2)|by rewrite (pack_u32_length _ _ S2)]. }
    apply (f_equal (fun r => match r with Returned x => x | Raised _ => [] end)) in H as Hd.
    apply (f_equal blen) in Hd as Hlen. rewrite !blen_app in Hlen.
    repeat match goal with S : sized _ = _ |- _ => apply sized_length in S end.
    apply pack_u32_length in S1. change (blen MAGIC) with 4 in Hlen.
    change (blen [ENVELOPE_VERSION]) with 1 in Hlen. unfold valid_format in Hf.
    pose proof blen_nonneg as Hn. pose proof (Hn x10). pose proof (Hn x9). pose proof (Hn x7).
    pose proof (Hn x6). pose proof (Hn (re_payload e)). pose proof (Hn x2).
    rewrite Hall by (repeat constructor; lia). cbn [obind foldr].
    rewrite (proj2 (ensure_bound_returned _ _ tt)) by (destruct x8; lia). cbn [obind].
    replay. rewrite Hd, (proj2 (ensure_bound_returned _ _ tt)) by done. done.
Qed.

(** ** Bytes *)

Lemma ascii_encode_bytes s b : ascii_encode s = Some b -> Forall is_byte b.
Proof.
  unfold ascii_encode, is_ascii. destruct (forallb _ s) eqn:E; [|done]. intros [= <-].
  rewrite forallb_forall in E.
  apply List.Forall_forall. intros c Hc%E. unfold is_byte. lia.
Qed.

Lemma pack_u32_bytes n b : pack_u32 n = Returned b -> Forall is_byte b.
Proof.
  unfold pack_u32, NULL_LENGTH, is_byte. destruct (_ && _) eqn:E; [|done].
  apply andb_true_iff in E as [E1%Z.leb_le E2%Z.leb_le]. intros [= <-]. repeat constructor; divide.
Qed.

Lemma sized_bytes raw b : Forall is_byte raw -> sized raw = Returned b -> Forall is_byte b.
Proof. intros Hr (n & Hn & ->)%sized_returned. apply Forall_app_2; eauto using pack_u32_bytes. Qed.

Lemma sized_text_bytes s encode maximum b :
  (forall raw, encode s = Some raw -> Forall is_byte raw) ->
  sized_text s encode maximum = Returned b -> Forall is_byte b.
Proof. intros He (raw & Hraw & _ & Hs)%sized_text_returned. eauto using sized_bytes. Qed.

Lemma layout_bytes e d : Forall is_byte (re_payload e) -> layout e = Returned d -> Forall is_byte d.
Proof.
  intros Hp H. unfold layout in H. statements H.
  apply (f_equal (fun r => match r with Returned x => x | Raised _ => [] end)) in H. subst d.
  repeat apply Forall_app_2; eauto using sized_text_bytes, ascii_encode_bytes, pack_u32_bytes, sized_bytes.
  - repeat constructor; done.
  - repeat constructor; done.
  - destruct (pm_content_type _); cbn [sized_content] in *;
      [eapply sized_text_bytes, S2; apply utf8_encode_bytes|by eapply pack_u32_bytes].
Qed.

(** ** The theorems *)

Lemma binary_decode_body f d e :
  binary_decode f (Exact d) = Returned e <->
  blen d <= bf_max_encoded_size f /\ decode_body d = Returned e.
Proof.
  unfold binary_decode. cbn [require_exact obind]. rewrite obind_returned.
  setoid_rewrite ensure_bound_returned. split.
  - intros (_ & Hb & H). split; [done|]. destruct (decode_body d); repeat case_match; congruence.
  - intros [Hb ->]. by exists tt.
Qed.

(** Round trip, both ways.  A format that encodes a valid envelope of
    version 1 stays within its bound, and decodes the bytes to the envelope; and
    the only bytes it decodes to an envelope are those it encodes it as, so that
    no two texts name one result. *)
Theorem binary_format_roundtrip f d e :
  valid_format f ->
  (valid_envelope e -> re_version e = ENVELOPE_VERSION -> Forall is_byte (re_payload e) ->
   binary_encode f (Exact e) = Returned d ->
   blen d <= bf_max_encoded_size f /\ binary_decode f (Exact d) = Returned e) /\
  (Forall is_byte d -> binary_decode f (Exact d) = Returned e ->
   valid_envelope e /\ re_version e = ENVELOPE_VERSION /\ binary_encode f (Exact e) = Returned d).
Proof.
  intros Hf. split.
  - intros Hval Hv Hp [Hl Hb]%binary_encode_layout; [|done..]. split; [done|].
    apply binary_decode_body. split; [done|].
    eapply layout_decode_body; eauto using at_start, layout_bytes.
  - intros Hd [Hb H]%binary_decode_body. apply decode_body_layout with (rest := d) in H as (Hl & Hval & Hv);
      [|apply at_start|done]. split_and!; [done|done|]. by apply binary_encode_layout.
Qed.

(** The exceptions of the body of [decode]'s [try]. *)
Definition body_error (e : exn) : bool :=
  match e with EnvelopeDecodeError _ => true | _ => is_TypeError_or_ValueError e || bool_decide (e = StructError) end.

Lemma obind_error {A B} (r : outcome A) (k : A -> outcome B) e :
  obind r k = Raised e -> (forall e, r = Raised e -> body_error e = true) ->
  (forall a e, r = Returned a -> k a = Raised e -> body_error e = true) -> body_error e = true.
Proof. destruct r as [a|e']; cbn; [eauto|]. intros [= ->]. auto. Qed.

(** Every statement of the body raises a decoding error or one that the handler
    turns into one. *)
Ltac body_errors :=
  repeat first
    [ done
    | match goal with
      | |- forall _, _ => intros; cbv beta in *
      | H : obind _ _ = Raised _ |- _ => eapply obind_error; [exact H| |]; clear H
      | H : (let '(_, _) := ?p in _) = Raised _ |- _ => destruct p
      | H : orequire ?c _ = Raised _ |- _ => unfold orequire in H; destruct c; [done|injection H as <-]
      | H : oget ?x _ = Raised _ |- _ => destruct x; [done|injection H as <-]
      | H : Returned _ = Raised _ |- _ => done
      end ].

Lemma take_bytes_error data cursor size e : take_bytes data cursor size = Raised e -> body_error e = true.
Proof. unfold take_bytes. destruct (_ || _); [|done]. by intros [= <-]. Qed.

Lemma unpack_error raw e : unpack_u32 raw = Raised e -> body_error e = true.
Proof. destruct raw as [|? [|? [|? [|? [|]]]]]; try done; by intros [= <-]. Qed.

Lemma read_u32_error data cursor e : read_u32 data cursor = Raised e -> body_error e = true.
Proof. unfold read_u32. intros H. body_errors; eauto using take_bytes_error, unpack_error. Qed.

Lemma read_text_error data cursor maximum e :
  read_required_text data cursor ascii_decode maximum = Raised e -> body_error e = true.
Proof.
  unfold read_required_text. intros H. body_errors; eauto using take_bytes_error, read_u32_error.
Qed.

Lemma read_content_error data cursor e : read_content_type data cursor = Raised e -> body_error e = true.
Proof.
  unfold read_content_type. intros H. eapply obind_error; [exact H|apply read_u32_error|].
  clear H. intros [n c] e' _ H. destruct (_ =? _); [done|]. body_errors; eauto using take_bytes_error.
Qed.

Lemma trust_error s e : trust_of_value s = Raised e -> body_error e = true.
Proof. unfold trust_of_value. repeat case_decide; try done. by intros [= <-]. Qed.

Lemma make_metadata_error f v ct t e :
  make_metadata (Exact f) (Exact v) (Exact <$> ct) (Exact t) = Raised e -> body_error e = true.
Proof. unfold make_metadata. intros H. destruct ct; cbn in H; body_errors. Qed.

Lemma make_envelope_error v t m a p e :
  make_envelope (Exact v) (Exact t) (Exact m) (Exact a) (Exact p) = Raised e -> body_error e = true.
Proof.
  unfold make_envelope, validate_owner_token, validate_algorithm. cbn [require_exact obind].
  intros H. body_errors.
Qed.

Lemma decode_body_error d e : decode_body d = Raised e -> body_error e = true.
Proof.
  unfold decode_body. intros H. body_errors;
    eauto using take_bytes_error, read_u32_error, read_text_error, read_content_error, trust_error,
      make_metadata_error, make_envelope_error.
Qed.

(** Decoding is total and closed: any bytes either decode to an envelope
    that the constructors accept, or raise one of the envelope errors; no other
    exception escapes, and bytes beyond the bound are refused unread. *)
Theorem binary_decode_closed f d :
  Forall is_byte d ->
  match binary_decode f (Exact d) with
  | Returned e => valid_envelope e /\ blen d <= bf_max_encoded_size f
  | Raised e => is_EnvelopeError e = true /\ (bf_max_encoded_size f < blen d -> e = size_limit)
  end.
Proof.
  intros Hd. destruct (binary_decode f (Exact d)) as [e|e] eqn:E.
  - apply binary_decode_body in E as [Hb H].
    apply decode_body_layout with (rest := d) in H as (_ & ? & _); auto using at_start.
  - unfold binary_decode in E. cbn [require_exact obind] in E. unfold ensure_bound, orequire in E.
    destruct (Z.leb_spec (blen d) (bf_max_encoded_size f)); cbn [obind] in E; [|by injection E as <-].
    split; [|lia]. destruct (decode_body d) as [|e'] eqn:Eb; [done|].
    apply decode_body_error in Eb. unfold body_error in Eb.
    destruct e'; rewrite ?Eb in E; by injection E as <-.
Qed.

(** ** What the format refuses *)

Definition demo_metadata (version : Z) : PayloadMetadata :=
  {| pm_format := py "json"; pm_version := version; pm_content_type := Some [233];
     pm_trust_profile := UNTRUSTED |}.

Definition demo_envelope (version : Z) : ResultEnvelope :=
  {| re_version := 1; re_owner_token := py "owner"; re_metadata := demo_metadata version;
     re_compression_algorithm := py "identity"; re_payload := [1; 2; 255] |}.

Definition demo_format : BinaryEnvelopeFormat := {| bf_max_encoded_size := 1024 |}.

(** A serialization version of more than 32 bits, which [PayloadMetadata] takes,
    makes [encode] raise [struct.error], an exception that is no envelope error. *)
Theorem wide_serde_version_leaks :
  valid_envelope (demo_envelope 4294967296) /\
  binary_encode demo_format (Exact (demo_envelope 4294967296)) = Raised StructError /\
  is_EnvelopeError StructError = false.
Proof. unfold valid_envelope, valid_metadata. vm_compute. done. Qed.

Example demo_bytes :
  binary_encode demo_format (Exact (demo_envelope 2)) = Returned
    (py "BTRE" ++ [1; 0; 0; 0; 5] ++ py "owner" ++ [0; 0; 0; 4] ++ py "json" ++ [0; 0; 0; 2]
     ++ [0; 0; 0; 2; 195; 169] ++ [0; 0; 0; 9] ++ py "untrusted" ++ [0; 0; 0; 8] ++ py "identity"
     ++ [0; 0; 0; 3; 1; 2; 255]).
Proof. vm_compute. reflexivity. Qed.

Lemma binary_format_roundtrip_witness :
  exists d, binary_encode demo_format (Exact (demo_envelope 2)) = Returned d /\
            binary_decode demo_format (Exact d) = Returned (demo_envelope 2).
Proof.
  eexists. split; [apply demo_bytes|].
  assert (valid_format demo_format) as Hf by (unfold valid_format; vm_compute; split; discriminate).
  eapply (proj1 (binary_format_roundtrip demo_format _ (demo_envelope 2) Hf)).
  - unfold valid_envelope, valid_metadata. vm_compute. done.
  - reflexivity.
  - repeat constructor; vm_compute; discriminate.
  - apply demo_bytes.
Defined.

Lemma binary_decode_closed_witness :
  binary_decode demo_format (Exact [66; 84]) = Raised malformed /\ is_EnvelopeError malformed = true.
Proof.
  assert (binary_decode demo_format (Exact [66; 84]) = Raised malformed) as E by reflexivity.
  split; [done|]. pose proof (binary_decode_closed demo_format [66; 84]) as H. rewrite E in H.
  apply H. repeat constructor; done.
Defined.
