(* ===== verification/SerdeJson.v ===== *)
(** * Strict JSON payloads ([bluetape/serde/_json.py])

    [json_serialize] checks an object graph before the encoder sees it, and cuts
    the output off at its limit; [json_deserialize] checks the metadata, the size
    and the nesting of a payload before the decoder sees it, and refuses what
    JSON leaves open (duplicate keys, numbers that are not finite, unpaired
    surrogates).  Both raise a fresh error of the class and code they caught
    ([_fresh_serde_error]), which is the same error here. *)

From Stdlib Require Import SpecFloat.
From S2P Require Import Prelude Python Leader LeaseRecord Utf8 PyObject JsonText EnvelopeFormat.
Import Serde.
Open Scope py_scope.
Open Scope Z_scope.

Definition DEFAULT_MAX_INPUT_SIZE : Z := 16777216.
Definition DEFAULT_MAX_OUTPUT_SIZE : Z := 16777216.
Definition DEFAULT_MAX_NESTING_DEPTH : Z := 100.
Definition MAX_SUPPORTED_NESTING_DEPTH : Z := 256.
Definition MAX_JSON_INTEGER_DIGITS : Z := 640.
Definition MAX_JSON_INTEGER_MAGNITUDE : Z := 10 ^ MAX_JSON_INTEGER_DIGITS.

(** [sys.maxsize]. *)
Definition MAXSIZE : Z := 9223372036854775807.

Definition unsupported_value_error : exn := SerdeError SerdeEncode UNSUPPORTED_VALUE.

(** ** The check of an object graph *)

(** At least so many bytes in UTF-8, with the quotes. *)
Fixpoint string_lower_bound (value : pystr) (encoded_lower_bound : Z) : outcome Z :=
  match value with
  | [] => Returned encoded_lower_bound
  | code_point :: rest =>
      if is_surrogate code_point then Raised unsupported_value_error
      else
        string_lower_bound rest
          (encoded_lower_bound +
           (if code_point <=? 127 then 1 else if code_point <=? 2047 then 2
            else if code_point <=? 65535 then 3 else 4))
  end.

Definition validate_unicode_scalar_string (value : pystr) : outcome Z := string_lower_bound value 2.

(** What [_list_values] and [_dict_values] have still to yield. *)
Inductive traversal : Type :=
| ListValues (items : list pyobj)
| DictValues (items : list (pyobj * pyobj)).

(** [next(iterator)]; nothing is [StopIteration]. *)
Definition next_item (iterator : traversal) : outcome (option (pyobj * Z * traversal)) :=
  match iterator with
  | ListValues [] | DictValues [] => Returned None
  | ListValues (item :: items) => Returned (Some (item, 0, ListValues items))
  | DictValues ((OStr key, item) :: items) =>
      let? key_lower_bound := validate_unicode_scalar_string key in
      Returned (Some (item, key_lower_bound + 1, DictValues items))
  | DictValues (_ :: _) => Raised unsupported_value_error
  end.

Abbreviation frame := (option Z * traversal)%type.

Section Preflight.
Variables max_nesting_depth max_output_size : Z.

(** The checks of one value, with what it adds to the lower bound. *)
Definition check_value (current : pyobj) (depth : Z) (active : gset Z) : outcome Z :=
  match current with
  | ONone | OBool _ => Returned 1
  | OInt z =>
      let? _ := orequire (negb ((MAX_JSON_INTEGER_MAGNITUDE <=? z) || (z <=? - MAX_JSON_INTEGER_MAGNITUDE)))
                  (SerdeError PayloadLimit INTEGER_DIGIT_LIMIT) in
      Returned 1
  | OStr s => validate_unicode_scalar_string s
  | OFloat f =>
      let? _ := orequire (is_finite f) (SerdeError SerdeEncode ENCODE_NON_FINITE_NUMBER) in Returned 1
  | OList id _ | ODict id _ =>
      let? _ := orequire (depth + 1 <=? max_nesting_depth) (SerdeError PayloadLimit NESTING_LIMIT) in
      let? _ := orequire (negb (is_active id active)) (SerdeError SerdeEncode CIRCULAR_REFERENCE) in
      Returned 1
  | _ => Raised unsupported_value_error
  end.

(** The container a value is, with the iterator over it. *)
Definition container (current : pyobj) : option frame :=
  match current with
  | OList id items => Some (id, ListValues items)
  | ODict id items => Some (id, DictValues items)
  | _ => None
  end.

Definition add_bound (bound more : Z) : outcome Z :=
  let? _ := orequire (bound + more <=? max_output_size) (SerdeError PayloadLimit OUTPUT_LIMIT) in
  Returned (bound + more).

(** The loop over the stack: the next value, and what is left of the stack. *)
Fixpoint advance (active : gset Z) (stack : list frame) :
    outcome (option (pyobj * Z * gset Z * list frame)) :=
  match stack with
  | [] => Returned None
  | (container_id, iterator) :: below =>
      let? item := next_item iterator in
      match item with
      | None => advance (without_id container_id active) below
      | Some (current, pending, iterator) =>
          Returned (Some (current, pending, active, (container_id, iterator) :: below))
      end
  end.

Fixpoint preflight_loop (fuel : nat) (current : pyobj) (pending bound : Z) (active : gset Z)
    (stack : list frame) : outcome unit :=
  match fuel with
  | O => Raised FuelExhausted
  | S fuel =>
      let? lower := check_value current (Z.of_nat (length stack)) active in
      let? bound := add_bound bound (pending + lower) in
      let '(active, stack) :=
        match container current with
        | Some (container_id, iterator) => (with_id container_id active, (container_id, iterator) :: stack)
        | None => (active, stack)
        end in
      let? step := advance active stack in
      match step with
      | None => Returned tt
      | Some (current, pending, active, stack) => preflight_loop fuel current pending bound active stack
      end
  end.
End Preflight.

(** How many objects there are below a root, the root included. *)
Fixpoint object_nodes (v : pyobj) : nat :=
  match v with
  | OList _ items | OTuple _ items => S (list_sum (object_nodes <$> items))
  | ODict _ items | OMapping _ items =>
      S (list_sum ((fun m : pyobj * pyobj => object_nodes m.2) <$> items))
  | _ => 1
  end.

(** One round of the loop an object. *)
Definition preflight_json_value (value : pyobj) (max_nesting_depth max_output_size : Z) : outcome unit :=
  preflight_loop max_nesting_depth max_output_size (object_nodes value) value 0 0 ∅ [].

(** ** Metadata *)

Definition validate_configuration (metadata : arg PayloadMetadata) (max_output_size max_nesting_depth : arg Z) :
    outcome (PayloadMetadata * Z * Z) :=
  let? metadata := require_exact metadata "metadata must be an exact PayloadMetadata" in
  let? max_output_size := require_exact max_output_size "max_output_size must be an exact int" in
  let? max_nesting_depth := require_exact max_nesting_depth "max_nesting_depth must be an exact int" in
  let? _ := orequire ((0 <=? max_output_size) && (max_output_size <? MAXSIZE))
              (ValueError "max_output_size must be between 0 and sys.maxsize - 1") in
  let? _ := orequire ((0 <=? max_nesting_depth) && (max_nesting_depth <=? MAX_SUPPORTED_NESTING_DEPTH))
              (ValueError "max_nesting_depth must be between 0 and MAX_SUPPORTED_NESTING_DEPTH") in
  Returned (metadata, max_output_size, max_nesting_depth).

Definition validate_json_metadata (metadata : PayloadMetadata) : outcome unit :=
  let? _ := orequire (bool_decide (pm_format metadata = py "json"))
              (SerdeError FormatMismatch FORMAT_MISMATCH) in
  let? _ := orequire (bool_decide (pm_content_type metadata = Some (py "application/json")))
              (SerdeError ContentTypeMismatch CONTENT_TYPE_MISMATCH) in
  orequire (pm_version metadata =? 1) (SerdeError UnsupportedVersion Serde.UNSUPPORTED_VERSION).

Definition validate_deserialize_configuration (payload : arg SerializedPayload)
    (expected_metadata : arg PayloadMetadata) (max_input_size max_nesting_depth : arg Z) :
    outcome (SerializedPayload * PayloadMetadata * Z * Z) :=
  let? payload := require_exact payload "payload must be an exact SerializedPayload" in
  let? expected := require_exact expected_metadata "expected_metadata must be an exact PayloadMetadata" in
  let? max_input_size := require_exact max_input_size "max_input_size must be an exact int" in
  let? max_nesting_depth := require_exact max_nesting_depth "max_nesting_depth must be an exact int" in
  let? _ := orequire ((0 <=? max_input_size) && (max_input_size <? MAXSIZE))
              (ValueError "max_input_size must be between 0 and sys.maxsize - 1") in
  let? _ := orequire ((0 <=? max_nesting_depth) && (max_nesting_depth <=? MAX_SUPPORTED_NESTING_DEPTH))
              (ValueError "max_nesting_depth must be between 0 and MAX_SUPPORTED_NESTING_DEPTH") in
  Returned (payload, expected, max_input_size, max_nesting_depth).

Definition validate_actual_metadata (actual expected : PayloadMetadata) : outcome unit :=
  let? _ := orequire (bool_decide (pm_format actual = pm_format expected))
              (SerdeError FormatMismatch FORMAT_MISMATCH) in
  let? _ := orequire (bool_decide (pm_content_type actual = pm_content_type expected))
              (SerdeError ContentTypeMismatch CONTENT_TYPE_MISMATCH) in
  let? _ := orequire (pm_version actual =? pm_version expected)
              (SerdeError UnsupportedVersion Serde.UNSUPPORTED_VERSION) in
  orequire (bool_decide (pm_trust_profile actual = pm_trust_profile expected))
    (SerdeError TrustProfileMismatch TRUST_PROFILE_MISMATCH).

(** ** The check of a text *)

(** [in_string], [escaped] and [depth]. *)
Abbreviation text_state := (bool * bool * Z)%type.

Definition text_step (max_nesting_depth : Z) (state : text_state) (character : Z) : outcome text_state :=
  let '(in_string, escaped, depth) := state in
  if in_string then
    if escaped then Returned (true, false, depth)
    else if character =? 92 then Returned (true, true, depth)
    else if character =? 34 then Returned (false, escaped, depth)
    else Returned state
  else if character =? 34 then Returned (true, escaped, depth)
  else if (character =? 91) || (character =? 123) then
    let? _ := orequire (depth + 1 <=? max_nesting_depth) (JsonSignalError NestingLimit) in
    Returned (false, escaped, depth + 1)
  else if ((character =? 93) || (character =? 125)) && (0 <? depth) then
    Returned (false, escaped, depth - 1)
  else Returned state.

Fixpoint text_run (max_nesting_depth : Z) (state : text_state) (text : pystr) : outcome text_state :=
  match text with
  | [] => Returned state
  | character :: rest =>
      let? state := text_step max_nesting_depth state character in text_run max_nesting_depth state rest
  end.

Definition preflight_json_text (text : pystr) (max_nesting_depth : Z) : outcome unit :=
  let? _ := text_run max_nesting_depth (false, false, 0) text in Returned tt.

(** ** The hooks of the decoder *)

Fixpoint reject_duplicate_keys (pairs : list (pystr * json)) (value : list (pystr * json)) :
    outcome (list (pystr * json)) :=
  match pairs with
  | [] => Returned value
  | (key, item) :: rest =>
      if dict_has key value then Raised (JsonSignalError DuplicateKey)
      else reject_duplicate_keys rest (dict_set key item value)
  end.

Definition reject_non_finite_constant (_ : pystr) : outcome json :=
  Raised (JsonSignalError NonFiniteNumber).

Definition parse_finite_float `{FloatText} (value : pystr) : outcome json :=
  let parsed := float_of_text value in
  if is_finite parsed then Returned (JFloat parsed) else Raised (JsonSignalError NonFiniteNumber).

Definition parse_limited_int (value : pystr) : outcome json :=
  let digit_count := blen value - (match value with 45 :: _ => 1 | _ => 0 end) in
  if MAX_JSON_INTEGER_DIGITS <? digit_count then Raised (JsonSignalError IntegerDigitLimit)
  else Returned (JInt (int_of_text value)).

Definition strict_hooks `{FloatText} : json_hooks :=
  {| hk_int := parse_limited_int;
     hk_float := parse_finite_float;
     hk_constant := reject_non_finite_constant;
     hk_object := fun pairs => let? value := reject_duplicate_keys pairs [] in Returned (JObject value) |}.

(** ** Surrogates of the decoded strings *)

(** The character list is built as it is read; the code keeps the string it was
    given when nothing was joined, which is the same text. *)
Fixpoint normalize_unicode_scalar_string (value : pystr) : outcome pystr :=
  match value with
  | [] => Returned []
  | code_point :: rest =>
      if is_high code_point then
        match rest with
        | [] => Raised (JsonSignalError UnpairedSurrogate)
        | low_surrogate :: rest =>
            if is_low low_surrogate then
              let? tail := normalize_unicode_scalar_string rest in
              Returned (join_surrogates code_point low_surrogate :: tail)
            else Raised (JsonSignalError UnpairedSurrogate)
        end
      else if is_low code_point then Raised (JsonSignalError UnpairedSurrogate)
      else let? tail := normalize_unicode_scalar_string rest in Returned (code_point :: tail)
  end.

(** [value.pop(key)] of a key that is there, and [value[normalized] = ...]. *)
Definition dict_pop {V} (key : pystr) (d : list (pystr * V)) : list (pystr * V) :=
  filter (fun m => m.1 <> key) d.

Fixpoint rename_keys {V} (updates : list (pystr * pystr)) (d : list (pystr * V)) : list (pystr * V) :=
  match updates with
  | [] => d
  | (key, normalized) :: rest =>
      rename_keys rest
        (match dict_get key d with
         | Some item => dict_set normalized item (dict_pop key d)
         | None => d
         end)
  end.

Section Members.
Variable normalize : json -> outcome json.

Fixpoint normalize_items (items : list json) : outcome (list json) :=
  match items with
  | [] => Returned []
  | item :: rest =>
      let? item := normalize item in
      let? rest := normalize_items rest in
      Returned (item :: rest)
  end.

(** The members in turn: a key that changes may not be one the [dict] has. *)
Fixpoint normalize_members (keys : list pystr) (members : list (pystr * json)) :
    outcome (list (pystr * json) * list (pystr * pystr)) :=
  match members with
  | [] => Returned ([], [])
  | (key, item) :: rest =>
      let? item := normalize item in
      let? normalized_key := normalize_unicode_scalar_string key in
      let? update :=
        if decide (normalized_key = key) then Returned []
        else if decide (normalized_key ∈ keys) then Raised (JsonSignalError DuplicateKey)
        else Returned [(key, normalized_key)] in
      let? others := normalize_members keys rest in
      Returned ((key, item) :: others.1, update ++ others.2)
  end.
End Members.

Fixpoint normalize_decoded_strings (value : json) : outcome json :=
  match value with
  | JString s => let? s := normalize_unicode_scalar_string s in Returned (JString s)
  | JArray items => let? items := normalize_items normalize_decoded_strings items in Returned (JArray items)
  | JObject members =>
      let? result := normalize_members normalize_decoded_strings members.*1 members in
      Returned (JObject (rename_keys result.2 result.1))
  | _ => Returned value
  end.

(** ** Decoding *)

(** The [except] clauses around the decoder, in their order. *)
Definition replace_decode_error (e : exn) : exn :=
  match e with
  | JsonSignalError DuplicateKey => SerdeError MalformedPayload DUPLICATE_KEY
  | JsonSignalError NonFiniteNumber => SerdeError MalformedPayload DECODE_NON_FINITE_NUMBER
  | JsonSignalError IntegerDigitLimit => SerdeError PayloadLimit INTEGER_DIGIT_LIMIT
  | RecursionError => SerdeError MalformedPayload INVALID_JSON
  | _ => if is_ValueError e then SerdeError MalformedPayload INVALID_JSON else e
  end.

Definition replace_error {A} (f : exn -> exn) (r : outcome A) : outcome A :=
  match r with Returned a => Returned a | Raised e => Raised (f e) end.

Definition replace_nesting_error (e : exn) : exn :=
  match e with JsonSignalError NestingLimit => SerdeError PayloadLimit NESTING_LIMIT | _ => e end.

Section Codec.
Context `{FloatText}.

Definition json_deserialize (payload : arg SerializedPayload) (expected_metadata : arg PayloadMetadata)
    (max_input_size max_nesting_depth : arg Z) : outcome json :=
  let? c := validate_deserialize_configuration payload expected_metadata max_input_size max_nesting_depth in
  let '(payload, expected, max_input_size, max_nesting_depth) := c in
  let? _ := validate_json_metadata expected in
  let? _ := validate_actual_metadata (sp_metadata payload) expected in
  let? _ := orequire (blen (sp_data payload) <=? max_input_size) (SerdeError PayloadLimit INPUT_LIMIT) in
  let? text := oget (utf8_decode (sp_data payload)) (SerdeError MalformedPayload INVALID_UTF8) in
  let? _ := replace_error replace_nesting_error (preflight_json_text text max_nesting_depth) in
  replace_error replace_decode_error
    (let? result := json_loads strict_hooks text in normalize_decoded_strings result).

(** ** Encoding *)

(** The JSON value an object stands for, when it is made of the exact types. *)
Fixpoint as_json (v : pyobj) : option json :=
  match v with
  | ONone => Some JNull
  | OBool b => Some (JBool b)
  | OInt z => Some (JInt z)
  | OFloat f => Some (JFloat f)
  | OStr s => Some (JString s)
  | OList _ items => JArray <$> mapM as_json items
  | ODict _ items =>
      JObject <$> mapM (fun m : pyobj * pyobj =>
        match m.1 with OStr key => a ← as_json m.2; Some (key, a) | _ => None end) items
  | _ => None
  end.

Fixpoint write_chunks (max_output_size : Z) (output : pybytes) (chunks : list pystr) : outcome pybytes :=
  match chunks with
  | [] => Returned output
  | chunk :: rest =>
      let? encoded := oget (utf8_encode chunk) (SerdeError SerdeEncode UNSUPPORTED_VALUE) in
      let? _ := orequire (blen encoded <=? max_output_size - blen output)
                  (SerdeError PayloadLimit OUTPUT_LIMIT) in
      write_chunks max_output_size (output ++ encoded) rest
  end.

(** The encoder sees exact types only, once the graph is checked. *)
Definition json_serialize (value : pyobj) (metadata : arg PayloadMetadata)
    (max_output_size max_nesting_depth : arg Z) : outcome SerializedPayload :=
  let? c := validate_configuration metadata max_output_size max_nesting_depth in
  let '(metadata, max_output_size, max_nesting_depth) := c in
  let? _ := validate_json_metadata metadata in
  let? _ := preflight_json_value value max_nesting_depth max_output_size in
  let? v := oget (as_json value) (SerdeError SerdeEncode UNSUPPORTED_VALUE) in
  let? output := write_chunks max_output_size [] (json_chunks v) in
  Returned {| sp_metadata := metadata; sp_data := output |}.
End Codec.
