(* ===== verification/SerdeJsonCheck.v ===== *)
(** * What the check of an object graph accepts

    The loop over a stack of iterators ends and agrees with the recursion over
    the object; it accepts the objects that stand for a JSON value within the
    limits, and no others. *)

From Stdlib Require Import SpecFloat.
From S2P Require Import Prelude Python Leader LeaseRecord Utf8 PyObject JsonText EnvelopeFormat SerdeJson.
Import Serde.
Open Scope py_scope.
Open Scope Z_scope.

(** ** The recursion the loop stands for *)

Section Reference.
Variables max_nesting_depth max_output_size : Z.

Section Items.
Variable check : pyobj -> Z -> Z -> outcome Z.

Fixpoint graph_items (items : list pyobj) (bound : Z) : outcome Z :=
  match items with
  | [] => Returned bound
  | item :: rest => let? bound := check item 0 bound in graph_items rest bound
  end.

Fixpoint graph_members (items : list (pyobj * pyobj)) (bound : Z) : outcome Z :=
  match items with
  | [] => Returned bound
  | (OStr key, item) :: rest =>
      let? lower := validate_unicode_scalar_string key in
      let? bound := check item (lower + 1) bound in graph_members rest bound
  | _ :: _ => Raised unsupported_value_error
  end.

Definition graph_rest (rest : traversal) (bound : Z) : outcome Z :=
  match rest with ListValues l => graph_items l bound | DictValues l => graph_members l bound end.
End Items.

Fixpoint check_graph (depth : Z) (active : gset Z) (v : pyobj) (pending bound : Z) : outcome Z :=
  let? lower := check_value max_nesting_depth v depth active in
  let? bound := add_bound max_output_size bound (pending + lower) in
  match v with
  | OList id items => graph_items (fun a => check_graph (depth + 1) (with_id id active) a) items bound
  | ODict id items => graph_members (fun a => check_graph (depth + 1) (with_id id active) a) items bound
  | _ => Returned bound
  end.

(** ** The loop agrees with the recursion *)

Definition stack_ids (stack : list frame) : gset Z := foldr (fun f ids => with_id f.1 ids) ∅ stack.

(** The containers on the stack are different ones. *)
Fixpoint stack_distinct (stack : list frame) : Prop :=
  match stack with
  | [] => True
  | f :: below => is_active f.1 (stack_ids below) = false /\ stack_distinct below
  end.

Definition rest_nodes (rest : traversal) : nat :=
  match rest with
  | ListValues l => list_sum (object_nodes <$> l)
  | DictValues l => list_sum ((fun m : pyobj * pyobj => object_nodes m.2) <$> l)
  end.

Definition stack_nodes (stack : list frame) : nat := list_sum ((fun f : frame => rest_nodes f.2) <$> stack).

Lemma stack_nodes_cons f below : stack_nodes (f :: below) = (rest_nodes f.2 + stack_nodes below)%nat.
Proof. reflexivity. Qed.

(** What is still to do once the current value is checked. *)
Fixpoint finish (bound : Z) (stack : list frame) : outcome Z :=
  match stack with
  | [] => Returned bound
  | f :: below =>
      let? bound := graph_rest (check_graph (Z.of_nat (length stack)) (stack_ids stack)) f.2 bound in
      finish bound below
  end.

Lemma without_with id ids : is_active id ids = false -> without_id id (with_id id ids) = ids.
Proof. destruct id as [n|]; cbn; [|done]. intros Hn%bool_decide_eq_false. set_solver. Qed.

Definition agrees (fuel : nat) : Prop := forall v pending bound stack,
  stack_distinct stack -> (object_nodes v + stack_nodes stack <= fuel)%nat ->
  preflight_loop max_nesting_depth max_output_size fuel v pending bound (stack_ids stack) stack =
  (let? bound := check_graph (Z.of_nat (length stack)) (stack_ids stack) v pending bound in
   let? _ := finish bound stack in Returned tt).

Lemma advance_finish fuel bound stack :
  agrees fuel -> stack_distinct stack -> (stack_nodes stack <= fuel)%nat ->
  (let? step := advance (stack_ids stack) stack in
   match step with
   | None => Returned tt
   | Some (current, pending, active, stack) =>
       preflight_loop max_nesting_depth max_output_size fuel current pending bound active stack
   end) = (let? _ := finish bound stack in Returned tt).
Proof.
  intros IH. induction stack as [|[id rest] below IHs]; intros Hd Hf; [done|].
  assert (forall a pending rest', (object_nodes a + rest_nodes rest' <= rest_nodes rest)%nat ->
    preflight_loop max_nesting_depth max_output_size fuel a pending bound
      (stack_ids ((id, rest) :: below)) ((id, rest') :: below) =
    (let? bound := check_graph (Z.of_nat (length ((id, rest) :: below))) (stack_ids ((id, rest) :: below)) a pending bound in
     let? _ := finish bound ((id, rest') :: below) in Returned tt)) as Hstep.
  { intros a pending rest' Hn. apply (IH a pending bound ((id, rest') :: below)); [done|].
    rewrite stack_nodes_cons in *. cbn [fst snd] in *. lia. }
  cbn [advance]. destruct rest as [[|a l]|[|[k a] l]].
  1, 3: cbn -[stack_ids]; cbn [stack_ids foldr fst]; rewrite without_with by apply Hd;
        apply IHs; [apply Hd|rewrite stack_nodes_cons in Hf; lia].
  - cbn [next_item obind]. rewrite Hstep by apply Nat.le_refl. cbn -[check_graph].
    rewrite !obind_assoc. apply obind_ext. intros b _. by rewrite obind_assoc.
  - cbn [next_item]. destruct k; try done. cbn [finish graph_rest snd graph_members].
    rewrite !obind_assoc. apply obind_ext. intros lower _. cbn [obind].
    rewrite Hstep by apply Nat.le_refl. cbn -[check_graph].
    rewrite !obind_assoc. apply obind_ext. intros b _. by rewrite obind_assoc.
Qed.

Lemma loop_agrees fuel : agrees fuel.
Proof.
  induction fuel as [|fuel IH]; intros v pending bound stack Hd Hf.
  { destruct v; cbn in Hf; lia. }
  cbn [preflight_loop].
  assert (check_graph (Z.of_nat (length stack)) (stack_ids stack) v pending bound =
    (let? lower := check_value max_nesting_depth v (Z.of_nat (length stack)) (stack_ids stack) in
     let? bound := add_bound max_output_size bound (pending + lower) in
     match container v with
     | Some (id, rest) =>
         graph_rest (check_graph (Z.of_nat (length stack) + 1) (with_id id (stack_ids stack))) rest bound
     | None => Returned bound
     end)) as -> by (by destruct v).
  rewrite obind_assoc. apply obind_ext. intros lower Hl. rewrite obind_assoc. apply obind_ext. intros b _.
  destruct (container v) as [[id rest]|] eqn:Ec; cbn [obind].
  - etransitivity; [apply (advance_finish fuel b ((id, rest) :: stack) IH)|].
    + split; [|done]. cbn. destruct v; cbn in Ec; simplify_eq; cbn in Hl;
        destruct (_ <=? _); try done; cbn in Hl; by destruct (is_active id _).
    + destruct v; cbn in Ec; simplify_eq; rewrite stack_nodes_cons; cbn in *; lia.
    + cbn [finish snd]. rewrite obind_assoc.
      replace (Z.of_nat (length ((id, rest) :: stack))) with (Z.of_nat (length stack) + 1) by (cbn; lia). done.
  - apply (advance_finish fuel b stack IH); [done|]. destruct v; cbn in *; lia.
Qed.
End Reference.

(** ** What is accepted *)

(** A string without surrogates. *)
Definition scalar_string (s : pystr) : bool := forallb (fun c => negb (is_surrogate c)) s.

(** Integers in their limit, finite numbers, strings without surrogates. *)
Fixpoint clean (v : json) : bool :=
  match v with
  | JNull | JBool _ => true
  | JInt z => (- MAX_JSON_INTEGER_MAGNITUDE <? z) && (z <? MAX_JSON_INTEGER_MAGNITUDE)
  | JFloat f => is_finite f
  | JString s => scalar_string s
  | JArray l => forallb clean l
  | JObject l => forallb (fun m => scalar_string m.1 && clean m.2) l
  end.

(** No container is inside itself. *)
Fixpoint acyclic (active : gset Z) (v : pyobj) : bool :=
  match v with
  | OList id l | OTuple id l => negb (is_active id active) && forallb (fun a => acyclic (with_id id active) a) l
  | ODict id l | OMapping id l =>
      negb (is_active id active) && forallb (fun m : pyobj * pyobj => acyclic (with_id id active) m.2) l
  | _ => true
  end.

Definition char_lower_bound (c : Z) : Z :=
  if c <=? 127 then 1 else if c <=? 2047 then 2 else if c <=? 65535 then 3 else 4.

Definition text_lower_bound (s : pystr) : Z := 2 + foldr Z.add 0 (char_lower_bound <$> s).

Fixpoint json_lower (v : json) : Z :=
  match v with
  | JString s => text_lower_bound s
  | JArray l => 1 + foldr Z.add 0 (json_lower <$> l)
  | JObject l => 1 + foldr Z.add 0 ((fun m => text_lower_bound m.1 + 1 + json_lower m.2) <$> l)
  | _ => 1
  end.

Lemma string_lower_scalar s n :
  string_lower_bound s n =
  if scalar_string s then Returned (n + foldr Z.add 0 (char_lower_bound <$> s))
  else Raised unsupported_value_error.
Proof.
  revert n. induction s as [|c s IH]; intros n; cbn; [by rewrite Z.add_0_r|].
  destruct (is_surrogate c); [done|]. cbn. rewrite IH. fold (char_lower_bound c).
  destruct (scalar_string s) eqn:E; unfold scalar_string in E; rewrite E; [|done]. f_equal. lia.
Qed.

Lemma validate_scalar s :
  validate_unicode_scalar_string s =
  if scalar_string s then Returned (text_lower_bound s) else Raised unsupported_value_error.
Proof. apply string_lower_scalar. Qed.

Lemma text_lower_positive s : 0 < text_lower_bound s.
Proof.
  unfold text_lower_bound. induction s as [|c s IH]; cbn; [lia|].
  assert (0 < char_lower_bound c) by (unfold char_lower_bound; repeat case_match; lia). lia.
Qed.

Lemma json_lower_positive v : 0 < json_lower v.
Proof.
  induction v as [|b|z|f|s|l IH|l IH] using json_nested_ind; cbn; try lia; [apply text_lower_positive| |].
  - assert (0 <= foldr Z.add 0 (json_lower <$> l)) by (induction IH; cbn; lia). lia.
  - assert (0 <= foldr Z.add 0 ((fun m => text_lower_bound m.1 + 1 + json_lower m.2) <$> l)); [|lia].
    induction IH as [|m l Hm _ IHl]; cbn; [lia|]. pose proof (text_lower_positive m.1). lia.
Qed.

#[local] Arguments add_bound : simpl never.
#[local] Arguments scalar_string : simpl never.
#[local] Arguments text_lower_bound : simpl never.
#[local] Arguments MAX_JSON_INTEGER_MAGNITUDE : simpl never.

Section Accepted.
Variables max_nesting_depth max_output_size : Z.

Notation add_bound := (add_bound max_output_size).
Notation check_graph := (check_graph max_nesting_depth max_output_size).

Lemma add_bound_add bound a b :
  0 <= b -> obind (add_bound bound a) (fun bound => add_bound bound b) = add_bound bound (a + b).
Proof.
  intros Hb. unfold SerdeJson.add_bound, orequire. cbn.
  destruct (Z.leb_spec (bound + a) max_output_size); cbn;
    destruct (Z.leb_spec (bound + (a + b)) max_output_size); cbn; try lia; try done.
  - rewrite (proj2 (Z.leb_le _ _)) by lia. cbn. f_equal. lia.
  - by rewrite (proj2 (Z.leb_gt _ _)) by lia.
Qed.

Lemma add_bound_zero bound : bound <= max_output_size -> add_bound bound 0 = Returned bound.
Proof. intros Hb. unfold SerdeJson.add_bound, orequire. rewrite (proj2 (Z.leb_le _ _)) by lia. cbn. f_equal. lia. Qed.

Lemma add_bound_returned bound a b : add_bound bound a = Returned b <-> b = bound + a /\ b <= max_output_size.
Proof.
  unfold SerdeJson.add_bound, orequire. destruct (Z.leb_spec (bound + a) max_output_size); cbn; split; try done.
  - intros [= <-]. lia.
  - intros [-> _]. done.
  - lia.
Qed.

(** An object that stands for a JSON value is accepted up to the size, if ... *)
Definition complete_at (v : pyobj) : Prop := forall depth active j pending bound,
  as_json v = Some j -> clean j = true -> acyclic active v = true ->
  depth <= max_nesting_depth -> depth + json_depth j <= max_nesting_depth ->
  check_graph depth active v pending bound = add_bound bound (pending + json_lower j).

Lemma graph_items_complete depth active l js bound :
  Forall complete_at l -> mapM as_json l = Some js -> forallb clean js = true ->
  forallb (acyclic active) l = true -> depth <= max_nesting_depth ->
  depth + foldr Z.max 0 (json_depth <$> js) <= max_nesting_depth -> bound <= max_output_size ->
  graph_items (check_graph depth active) l bound = add_bound bound (foldr Z.add 0 (json_lower <$> js)).
Proof.
  intros Hl. revert js bound. induction Hl as [|a l Ha _ IH]; intros js bound Hj Hc Hac Hd Hd' Hb; cbn in Hj.
  { injection Hj as <-. cbn. by rewrite add_bound_zero. }
  destruct (as_json a) as [j|] eqn:Ej; [|done]. cbn in Hj.
  destruct (mapM as_json l) as [js'|] eqn:Ejs; [|done]. cbn in Hj. injection Hj as <-.
  cbn in Hc, Hac, Hd' |- *. apply andb_true_iff in Hc as [Hc1 Hc2]. apply andb_true_iff in Hac as [Hac1 Hac2].
  rewrite (Ha depth active j) by (done || lia). rewrite Z.add_0_l.
  rewrite <-add_bound_add.
  - apply obind_ext. intros b Hb'%add_bound_returned. apply IH; try done; lia.
  - assert (0 <= foldr Z.add 0 (json_lower <$> js')); [|lia].
    clear. induction js' as [|j js' IH]; cbn; [lia|]. pose proof (json_lower_positive j). lia.
Qed.

Abbreviation as_member := (fun m : pyobj * pyobj =>
  match m.1 with OStr key => a ← as_json m.2; Some (key, a) | _ => None end).

Lemma graph_members_complete depth active l js bound :
  Forall (fun m : pyobj * pyobj => complete_at m.1 /\ complete_at m.2) l ->
  mapM as_member l = Some js -> forallb (fun m => scalar_string m.1 && clean m.2) js = true ->
  forallb (fun m : pyobj * pyobj => acyclic active m.2) l = true -> depth <= max_nesting_depth ->
  depth + foldr Z.max 0 ((fun m => json_depth m.2) <$> js) <= max_nesting_depth -> bound <= max_output_size ->
  graph_members (check_graph depth active) l bound =
  add_bound bound (foldr Z.add 0 ((fun m => text_lower_bound m.1 + 1 + json_lower m.2) <$> js)).
Proof.
  intros Hl. revert js bound. induction Hl as [|[k a] l [_ Ha] _ IH]; intros js bound Hj Hc Hac Hd Hd' Hb; cbn in Hj.
  { injection Hj as <-. cbn. by rewrite add_bound_zero. }
  destruct k; try done. cbn in Ha. destruct (as_json a) as [j|] eqn:Ej; [|done]. cbn in Hj.
  destruct (mapM as_member l) as [js'|] eqn:Ejs; [|done]. cbn in Hj. injection Hj as <-.
  cbn in Hc, Hac, Hd' |- *. apply andb_true_iff in Hc as [[Hk Hc1]%andb_true_iff Hc2], Hac as [Hac1 Hac2].
  rewrite validate_scalar, Hk. cbn [obind].
  rewrite (Ha depth active j) by (done || lia). rewrite <-(add_bound_add _ (text_lower_bound s + 1 + json_lower j)).
  - apply obind_ext. intros b Hb'%add_bound_returned. apply IH; try done; lia.
  - assert (0 <= foldr Z.add 0 ((fun m => text_lower_bound m.1 + 1 + json_lower m.2) <$> js')); [|lia].
    clear. induction js' as [|[k j] js' IH]; cbn; [lia|].
    pose proof (json_lower_positive j). pose proof (text_lower_positive k). lia.
Qed.

Lemma check_graph_complete v : complete_at v.
Proof.
  induction v as [v Hs|id l IH|id l IH|id l IH|id l IH] using pyobj_nested_ind;
    intros depth active j pending bound Hj Hc Ha Hd Hd'.
  - destruct v; try done; cbn in Hj; simplify_eq; cbn in Hc |- *.
    1, 2: by destruct (add_bound _ _).
    + rewrite !andb_true_iff, !Z.ltb_lt in Hc. unfold orequire.
      rewrite !(proj2 (Z.leb_gt _ _)) by lia. cbn. by destruct (add_bound _ _).
    + rewrite Hc. cbn. by destruct (add_bound _ _).
    + rewrite validate_scalar, Hc. cbn. by destruct (add_bound _ _).
  - cbn in Hj. destruct (mapM as_json l) as [js|] eqn:Ej; [|done]. cbn in Hj. simplify_eq.
    cbn in Hc, Ha, Hd'. apply andb_true_iff in Ha as [Hid Ha]. cbn. unfold orequire.
    assert (0 <= foldr Z.max 0 (json_depth <$> js)) by (clear; induction js; cbn; lia).
    rewrite (proj2 (Z.leb_le _ _)) by lia. rewrite Hid. cbn [obind].
    replace (pending + (1 + _)) with (pending + 1 + foldr Z.add 0 (json_lower <$> js)) by lia.
    rewrite <-(add_bound_add _ (pending + 1)).
    + apply obind_ext. intros b Hb%add_bound_returned. apply graph_items_complete; try done; lia.
    + clear. induction js as [|j js IH]; cbn; [lia|]. pose proof (json_lower_positive j). lia.
  - done.
  - cbn in Hj. destruct (mapM _ l) as [js|] eqn:Ej; [|done]. cbn in Hj. simplify_eq.
    cbn in Hc, Ha, Hd'. apply andb_true_iff in Ha as [Hid Ha]. cbn. unfold orequire.
    assert (0 <= foldr Z.max 0 ((fun m => json_depth m.2) <$> js)) by (clear; induction js; cbn; lia).
    rewrite (proj2 (Z.leb_le _ _)) by lia. rewrite Hid. cbn [obind].
    replace (pending + (1 + _)) with
      (pending + 1 + foldr Z.add 0 ((fun m => text_lower_bound m.1 + 1 + json_lower m.2) <$> js)) by lia.
    rewrite <-(add_bound_add _ (pending + 1)).
    + apply obind_ext. intros b Hb%add_bound_returned. apply graph_members_complete; try done; lia.
    + clear. induction js as [|[k j] js IH]; cbn; [lia|].
      pose proof (json_lower_positive j). pose proof (text_lower_positive k). lia.
  - done.
Qed.

(** ... and nothing else is. *)
Definition sound_at (v : pyobj) : Prop := forall depth active pending bound b,
  depth <= max_nesting_depth -> check_graph depth active v pending bound = Returned b ->
  exists j, as_json v = Some j /\ clean j = true /\ acyclic active v = true /\
    depth + json_depth j <= max_nesting_depth.

Lemma graph_items_sound depth active l bound b :
  Forall sound_at l -> depth <= max_nesting_depth ->
  graph_items (check_graph depth active) l bound = Returned b ->
  exists js, mapM as_json l = Some js /\ forallb clean js = true /\ forallb (acyclic active) l = true /\
    depth + foldr Z.max 0 (json_depth <$> js) <= max_nesting_depth.
Proof.
  intros Hl Hd. revert bound. induction Hl as [|a l Ha _ IH]; intros bound H; cbn in H.
  { exists []. split; [done|]. cbn. split; [done|]. split; [done|]. lia. }
  apply obind_returned in H as (b' & Ha' & (js & Ej & Hc & Hac & Hd')%IH).
  apply Ha in Ha' as (j & Ej' & Hc' & Hac' & Hd''); [|done].
  exists (j :: js). cbn. rewrite Ej', Ej, Hc', Hc, Hac', Hac. split; [done|]. split; [done|]. split; [done|]. lia.
Qed.

Lemma graph_members_sound depth active l bound b :
  Forall (fun m : pyobj * pyobj => sound_at m.1 /\ sound_at m.2) l -> depth <= max_nesting_depth ->
  graph_members (check_graph depth active) l bound = Returned b ->
  exists js, mapM as_member l = Some js /\ forallb (fun m => scalar_string m.1 && clean m.2) js = true /\
    forallb (fun m : pyobj * pyobj => acyclic active m.2) l = true /\
    depth + foldr Z.max 0 ((fun m => json_depth m.2) <$> js) <= max_nesting_depth.
Proof.
  intros Hl Hd. revert bound. induction Hl as [|[k a] l [_ Ha] _ IH]; intros bound H; cbn in H.
  { exists []. split; [done|]. cbn. split; [done|]. split; [done|]. lia. }
  destruct k; try done. rewrite validate_scalar in H. destruct (scalar_string s) eqn:Es; [|done]. cbn [obind] in H.
  apply obind_returned in H as (b' & Ha' & (js & Ej & Hc & Hac & Hd')%IH).
  apply Ha in Ha' as (j & Ej' & Hc' & Hac' & Hd''); [|done]. cbn in Ej', Hac'.
  exists ((s, j) :: js). cbn. rewrite Ej'. cbn. rewrite Ej, Es, Hc', Hc, Hac', Hac.
  split; [done|]. split; [done|]. split; [done|]. lia.
Qed.

Lemma check_graph_sound v : sound_at v.
Proof.
  induction v as [v Hs|id l IH|id l IH|id l IH|id l IH] using pyobj_nested_ind;
    intros depth active pending bound b Hd H; [destruct v; try done|..]; cbn in H.
  1, 2: eexists; split; [done|]; cbn; split; [done|]; split; [done|]; lia.
  - apply obind_returned in H as (lower & Hz & _). apply obind_returned in Hz as (u & Hz%orequire_returned & _).
    apply negb_true_iff, orb_false_iff in Hz as [Hz1%Z.leb_gt Hz2%Z.leb_gt].
    exists (JInt z). split; [done|]. cbn. split; [|split; [done|lia]].
    rewrite andb_true_iff, !Z.ltb_lt. lia.
  - apply obind_returned in H as (lower & Hz & _). apply obind_returned in Hz as (u & Hz%orequire_returned & _).
    exists (JFloat f). split; [done|]. split; [done|]. split; [done|]. cbn. lia.
  - rewrite validate_scalar in H. destruct (scalar_string s) eqn:Es; [|done].
    exists (JString s). split; [done|]. split; [done|]. split; [done|]. cbn. lia.
  - apply obind_returned in H as (lower & Hz & H). apply obind_returned in Hz as (u & Hz%orequire_returned & Hi).
    apply obind_returned in Hi as (u' & Hi%orequire_returned & _). apply Z.leb_le in Hz.
    apply obind_returned in H as (b' & _ & (js & Ej & Hc & Hac & Hd')%graph_items_sound); [|done|lia].
    exists (JArray js). cbn. rewrite Ej. split; [done|]. split; [done|]. split; [by apply andb_true_iff|lia].
  - done.
  - apply obind_returned in H as (lower & Hz & H). apply obind_returned in Hz as (u & Hz%orequire_returned & Hi).
    apply obind_returned in Hi as (u' & Hi%orequire_returned & _). apply Z.leb_le in Hz.
    apply obind_returned in H as (b' & _ & (js & Ej & Hc & Hac & Hd')%graph_members_sound); [|done|lia].
    exists (JObject js). cbn. rewrite Ej. split; [done|]. split; [done|]. split; [by apply andb_true_iff|lia].
  - done.
Qed.

(** The check of a whole graph is the recursion from its root. *)
Lemma preflight_check v :
  preflight_json_value v max_nesting_depth max_output_size =
  (let? _ := check_graph 0 ∅ v 0 0 in Returned tt).
Proof.
  unfold preflight_json_value.
  etransitivity; [apply (loop_agrees _ _ (object_nodes v) v 0 0 []); [done|cbn; lia]|]. done.
Qed.

(** An object graph passes the check exactly when it stands for a JSON value
    within the limits and no container is inside itself. *)
Lemma preflight_accepts v :
  0 <= max_nesting_depth ->
  preflight_json_value v max_nesting_depth max_output_size = Returned tt <->
  exists j, as_json v = Some j /\ clean j = true /\ acyclic ∅ v = true /\
    json_depth j <= max_nesting_depth /\ json_lower j <= max_output_size.
Proof.
  intros Hm. rewrite preflight_check. split.
  - intros (b & Hb & _)%obind_returned.
    destruct (check_graph_sound v 0 ∅ 0 0 b Hm Hb) as (j & Ej & Hc & Ha & Hd).
    exists j. split; [done|]. split; [done|]. split; [done|]. split; [lia|].
    rewrite (check_graph_complete v 0 ∅ j 0 0) in Hb by done. by apply add_bound_returned in Hb as [-> ?].
  - intros (j & Ej & Hc & Ha & Hd & Hl). rewrite (check_graph_complete v 0 ∅ j 0 0) by done.
    unfold SerdeJson.add_bound, orequire. by rewrite (proj2 (Z.leb_le _ _)).
Qed.

(** One that does but for its size is refused for its size. *)
Lemma preflight_refuses_size v j :
  0 <= max_nesting_depth -> as_json v = Some j -> clean j = true -> acyclic ∅ v = true ->
  json_depth j <= max_nesting_depth -> max_output_size < json_lower j ->
  preflight_json_value v max_nesting_depth max_output_size = Raised (SerdeError PayloadLimit OUTPUT_LIMIT).
Proof.
  intros Hm Hj Hc Ha Hd Hl. rewrite preflight_check, (check_graph_complete v 0 ∅ j 0 0) by done.
  unfold SerdeJson.add_bound, orequire. by rewrite (proj2 (Z.leb_gt _ _)) by lia.
Qed.
End Accepted.
