(* ===== verification/SerdeJsonLaws.v ===== *)
(** * JSON payloads: the encoder's output, and reading it back

    What [json_serialize] returns is the UTF-8 text of the value, no longer than
    its limit; [json_deserialize] reads it as the value it was made from. *)

From Stdlib Require Import SpecFloat.
From S2P Require Import Prelude Python Leader LeaseRecord Utf8 PyObject JsonText JsonTextLaws JsonGrammar EnvelopeFormat SerdeJson SerdeJsonCheck.
Import Serde.
Open Scope py_scope.
Open Scope Z_scope.

#[local] Arguments blen : simpl never.

(** ** Values as Python has them *)

Definition code_point (c : Z) : bool := (0 <=? c) && (c <=? 1114111).

(** A [float] of binary64; strings of code points; a key once in a [dict]. *)
Fixpoint python_value (v : json) : bool :=
  match v with
  | JFloat f => valid_binary 53 1024 f
  | JString s => forallb code_point s
  | JArray l => forallb python_value l
  | JObject l => bool_decide (NoDup l.*1) && forallb (fun m => forallb code_point m.1 && python_value m.2) l
  | _ => true
  end.

(** [repr] of a finite [float] is a JSON number that [float] reads back, and
    [float] of a text is a number of binary64. *)
Class FloatLaws `{FloatText} : Prop := {
  float_repr_shape f : is_finite f = true -> valid_binary 53 1024 f = true -> float_shape (float_repr f);
  float_repr_read f : is_finite f = true -> valid_binary 53 1024 f = true -> float_of_text (float_repr f) = f;
  float_of_text_valid t : valid_binary 53 1024 (float_of_text t) = true;
}.

(** ** The bytes of a text *)

(** A text that has an encoding, of so many bytes at least. *)
Definition encodes (s : pystr) (n : Z) : Prop := exists b, utf8_encode s = Some b /\ n <= blen b.

Lemma utf8_encode_app s t b c :
  utf8_encode s = Some b -> utf8_encode t = Some c -> utf8_encode (s ++ t) = Some (b ++ c).
Proof.
  revert b. induction s as [|x s IH]; intros b Hs Ht; cbn in Hs |- *; [by simplify_eq|].
  destruct (utf8_char x) as [bx|]; [|done]. cbn in Hs |- *.
  destruct (utf8_encode s) as [bs|]; [|done]. cbn in Hs. simplify_eq.
  rewrite (IH bs) by done. cbn. by rewrite app_assoc.
Qed.

Lemma utf8_encode_split s t b :
  utf8_encode (s ++ t) = Some b -> exists b1 b2, utf8_encode s = Some b1 /\ utf8_encode t = Some b2 /\ b = b1 ++ b2.
Proof.
  revert b. induction s as [|x s IH]; intros b Hb; cbn in Hb |- *; [by exists [], b|].
  destruct (utf8_char x) as [bx|]; [|done]. cbn in Hb |- *.
  destruct (utf8_encode (s ++ t)) as [bs|] eqn:E; [|done]. cbn in Hb. simplify_eq.
  destruct (IH bs eq_refl) as (b1 & b2 & -> & -> & ->). exists (bx ++ b1), b2. by rewrite app_assoc.
Qed.

Lemma encodes_app s t n m : encodes s n -> encodes t m -> encodes (s ++ t) (n + m).
Proof.
  intros (b & Hb & Hn) (c & Hc & Hm). exists (b ++ c). rewrite blen_app. split; [by apply utf8_encode_app|lia].
Qed.

Lemma encodes_le s n m : encodes s n -> m <= n -> encodes s m.
Proof. intros (b & Hb & Hn) Hm. exists b. split; [done|lia]. Qed.

Lemma encodes_cons c s n : 0 <= c <= 127 -> encodes s n -> encodes (c :: s) (1 + n).
Proof.
  intros Hc Hs. apply (encodes_app [c]); [|done]. exists [c]. split; [|done]. cbn. unfold utf8_char, is_surrogate.
  rewrite (proj2 (Z.ltb_ge c 0)), (proj2 (Z.leb_gt 55296 c)), (proj2 (Z.ltb_ge 1114111 c)),
    (proj2 (Z.ltb_lt c 128)) by lia. done.
Qed.

Lemma encodes_ascii s : Forall (fun c => 0 <= c <= 127) s -> encodes s (Z.of_nat (length s)).
Proof.
  induction 1 as [|c s Hc _ IH]; [by exists []|].
  replace (Z.of_nat _) with (1 + Z.of_nat (length s)) by (cbn; lia). by apply encodes_cons.
Qed.

Lemma number_text_ascii s : number_text s = true -> Forall (fun c => 0 <= c <= 127) s.
Proof.
  unfold number_text. rewrite forallb_forall, Forall_forall. intros H c Hc. apply list_elem_of_In in Hc.
  specialize (H c Hc). unfold number_char, is_digit in H. lia.
Qed.

Lemma encodes_char c : code_point c = true -> is_surrogate c = false -> encodes [c] (char_lower_bound c).
Proof.
  intros Hc Hs. unfold encodes. cbn. unfold utf8_char, code_point, char_lower_bound in *. rewrite Hs.
  rewrite (proj2 (Z.ltb_ge c 0)), (proj2 (Z.ltb_ge 1114111 c)) by lia. cbn [orb].
  repeat match goal with |- context [if c <? ?k then _ else _] => destruct (Z.ltb_spec c k) end;
    (eexists; split; [done|]; rewrite app_nil_r;
     repeat match goal with |- context [if c <=? ?k then _ else _] => destruct (Z.leb_spec c k) end;
     unfold blen; cbn [length]; lia).
Qed.

Lemma encodes_escape c :
  code_point c = true -> is_surrogate c = false -> encodes (escape_char c) (char_lower_bound c).
Proof.
  intros Hc Hs. unfold escape_char.
  repeat match goal with |- context [if c =? ?k then _ else _] =>
    destruct (Z.eqb_spec c k) as [->|?]; [apply encodes_le with 2; [by eexists|done]|] end.
  destruct (Z.ltb_spec c 32); [|by apply encodes_char].
  assert (forall v, 0 <= v < 16 -> 0 <= hex_low v <= 127) as Hh by (intros v Hv; unfold hex_low; case_match; lia).
  apply encodes_le with 6; [|unfold char_lower_bound; repeat case_match; lia].
  apply (encodes_ascii [92; 117; 48; 48; hex_low (c / 16); hex_low (c mod 16)]).
  unfold code_point in Hc. repeat (constructor; [first [lia|apply Hh; Z.to_euclidean_division_equations; lia]|]). done.
Qed.

Lemma encodes_string s :
  forallb code_point s = true -> scalar_string s = true -> encodes (encode_string s) (text_lower_bound s).
Proof.
  intros Hc Hs. unfold encode_string, text_lower_bound.
  replace (2 + _) with (1 + (foldr Z.add 0 (char_lower_bound <$> s) + 1)) by lia. apply encodes_cons; [lia|].
  apply encodes_app; [|by exists [34]].
  induction s as [|c s IH]; [by exists []|]. cbn in Hc. unfold scalar_string in Hs. cbn in Hs.
  apply andb_true_iff in Hc as [Hc Hcs]. apply andb_true_iff in Hs as [Hs Hss]. apply negb_true_iff in Hs.
  cbn [flat_map fmap list_fmap foldr]. apply encodes_app; [by apply encodes_escape|by apply IH].
Qed.

Section Encode.
Context `{FloatLaws}.

Lemma encodes_elements a l :
  Forall (fun a => encodes (json_text a) (json_lower a)) (a :: l) ->
  encodes (json_text a ++ concat (element_chunks json_chunks (py ",") l)) (foldr Z.add 0 (json_lower <$> a :: l)).
Proof.
  revert a. induction l as [|b l IH]; intros a [Ha Hl]%Forall_cons; cbn [fmap list_fmap foldr];
    (apply encodes_app; [done|]); [by apply encodes_le with 1; [eexists|]|].
  rewrite element_chunks_cons. apply encodes_le with (1 + foldr Z.add 0 (json_lower <$> b :: l)); [|cbn; lia].
  apply (encodes_cons 44); [lia|by apply IH].
Qed.

Lemma encodes_members_text k a l :
  Forall (fun m => encodes (encode_string m.1) (text_lower_bound m.1) /\ encodes (json_text m.2) (json_lower m.2))
    ((k, a) :: l) ->
  encodes (encode_string k ++ 58 :: json_text a ++ concat (member_chunks json_chunks (py ",") l))
    (foldr Z.add 0 ((fun m => text_lower_bound m.1 + 1 + json_lower m.2) <$> (k, a) :: l)).
Proof.
  revert k a. induction l as [|[k' b] l IH]; intros k a [[Hk Ha] Hl]%Forall_cons; cbn [fmap list_fmap foldr fst snd] in *;
    match goal with |- encodes _ (?x + 1 + ?y + ?z) => replace (x + 1 + y + z) with (x + (1 + (y + z))) by lia end;
    (apply encodes_app; [done|]); (apply encodes_cons; [lia|]); (apply encodes_app; [done|]);
    [by apply encodes_le with 1; [eexists|]|].
  rewrite member_chunks_cons.
  apply encodes_le with (1 + foldr Z.add 0 ((fun m => text_lower_bound m.1 + 1 + json_lower m.2) <$> (k', b) :: l));
    [|cbn; lia].
  apply (encodes_cons 44); [lia|by apply IH].
Qed.

(** The text of a value that passed the check has an encoding, as long as the
    lower bound of the check at least. *)
Lemma encodes_json v : clean v = true -> python_value v = true -> encodes (json_text v) (json_lower v).
Proof.
  assert (forall s, number_text s = true -> s <> [] -> encodes s 1) as Hnum.
  { intros s Hs Hne. apply encodes_le with (Z.of_nat (length s)); [by apply encodes_ascii, number_text_ascii|].
    destruct s; [done|cbn; lia]. }
  induction v as [|[]|z|f|s|l IH|l IH] using json_nested_ind; cbn [clean python_value]; intros Hc Hp.
  1-3: by apply encodes_le with 4; [eexists|].
  all: try by apply encodes_le with 5; [eexists|].
  - rewrite (json_text_scalar (JInt z) _ eq_refl). apply Hnum; [apply int_repr_number|].
    destruct (int_head z) as (sign & c & t & -> & _). by destruct sign.
  - rewrite (json_text_scalar (JFloat f) _ eq_refl). pose proof (float_repr_shape f Hc Hp) as Hs.
    apply Hnum; [by apply float_shape_number|]. destruct (float_head _ Hs) as (sign & c & t & -> & _). by destruct sign.
  - rewrite (json_text_scalar (JString s) _ eq_refl). by apply encodes_string.
  - destruct l as [|a l]; [by apply encodes_le with 2; [eexists|]|]. rewrite json_text_array.
    apply encodes_cons; [lia|]. apply encodes_elements. rewrite Forall_forall in *.
    rewrite forallb_forall in *. intros x Hx. apply IH; [done|apply Hc|apply Hp]; by apply list_elem_of_In.
  - destruct l as [|[k a] l]; [by apply encodes_le with 2; [eexists|]|]. rewrite json_text_object.
    apply andb_true_iff in Hp as [_ Hp].
    apply encodes_cons; [lia|]. apply (encodes_members_text k a l). rewrite Forall_forall in *.
    rewrite forallb_forall in *. intros x Hx. apply list_elem_of_In in Hx as Hx'.
    specialize (Hc x Hx'). specialize (Hp x Hx'). apply andb_true_iff in Hc as [Hc1 Hc2], Hp as [Hp1 Hp2].
    split; [by apply encodes_string|auto].
Qed.

(** ** The chunks and the limit of the output *)

Lemma write_chunks_spec limit output chunks b :
  utf8_encode (concat chunks) = Some b -> blen output <= limit ->
  write_chunks limit output chunks =
  if blen output + blen b <=? limit then Returned (output ++ b)
  else Raised (SerdeError PayloadLimit OUTPUT_LIMIT).
Proof.
  revert output b. induction chunks as [|c chunks IH]; intros output b Hb Ho; cbn in Hb |- *.
  - injection Hb as <-. rewrite app_nil_r, (proj2 (Z.leb_le _ _)) by (unfold blen at 2; cbn; lia). done.
  - apply utf8_encode_split in Hb as (b1 & b2 & Hb1 & Hb2 & ->). rewrite Hb1, blen_app. cbn. unfold orequire.
    pose proof (blen_nonneg b1). pose proof (blen_nonneg b2).
    destruct (Z.leb_spec (blen b1) (limit - blen output)); cbn.
    + rewrite (IH _ b2) by (rewrite ?blen_app; done || lia). rewrite blen_app, app_assoc.
      by rewrite Z.add_assoc.
    + by rewrite (proj2 (Z.leb_gt _ _)) by lia.
Qed.

Definition limits_ok (size depth : Z) : Prop := 0 <= size < MAXSIZE /\ 0 <= depth <= MAX_SUPPORTED_NESTING_DEPTH.

Definition json_metadata (m : PayloadMetadata) : Prop :=
  pm_format m = py "json" /\ pm_content_type m = Some (py "application/json") /\ pm_version m = 1.

Lemma validate_json_metadata_returned m u : validate_json_metadata m = Returned u <-> json_metadata m.
Proof.
  unfold validate_json_metadata, json_metadata. rewrite obind_returned. split.
  - intros ([] & Hf%orequire_returned & ([] & Hc%orequire_returned & Hv%orequire_returned)%obind_returned).
    apply bool_decide_eq_true in Hf, Hc. apply Z.eqb_eq in Hv. done.
  - intros (Hf & Hc & Hv). exists tt. rewrite !bool_decide_true, Hv by done. by destruct u.
Qed.

Lemma limits_check size depth : limits_ok size depth <->
  ((0 <=? size) && (size <? MAXSIZE) = true /\
   (0 <=? depth) && (depth <=? MAX_SUPPORTED_NESTING_DEPTH) = true).
Proof. unfold limits_ok. rewrite !andb_true_iff, !Z.leb_le, Z.ltb_lt. done. Qed.

Lemma validate_configuration_returned m size depth r :
  validate_configuration (Exact m) (Exact size) (Exact depth) = Returned r <->
  limits_ok size depth /\ r = (m, size, depth).
Proof.
  rewrite limits_check. unfold validate_configuration. cbn [require_exact obind].
  destruct (_ && _); [|by split; [|intros [[? _] _]]]. destruct (_ && _); cbn; [|by split; [|intros [[_ ?] _]]].
  split; [by intros [= <-]|by intros [_ ->]].
Qed.

(** What [json_serialize] returns, and when. *)
Lemma json_serialize_returned v m size depth p :
  (forall j, as_json v = Some j -> python_value j = true) ->
  json_serialize v (Exact m) (Exact size) (Exact depth) = Returned p <->
  limits_ok size depth /\ json_metadata m /\
  exists j b, as_json v = Some j /\ clean j = true /\ acyclic ∅ v = true /\ json_depth j <= depth /\
    utf8_encode (json_text j) = Some b /\ blen b <= size /\ p = {| sp_metadata := m; sp_data := b |}.
Proof.
  intros Hp. unfold json_serialize. rewrite obind_returned. setoid_rewrite validate_configuration_returned.
  split.
  - intros (? & [Hl ->] & (u & Hm%validate_json_metadata_returned & H')%obind_returned).
    apply obind_returned in H' as ([] & (j & Hj & Hc & Ha & Hd & Hs)%preflight_accepts & H'); [|apply Hl].
    rewrite Hj in H'. cbn [oget obind] in H'.
    destruct (encodes_json j Hc (Hp j Hj)) as (b & Hb & _).
    rewrite (write_chunks_spec _ _ _ b) in H' by (done || apply Hl).
    destruct (Z.leb_spec (blen [] + blen b) size); [|done]. cbn in H'. injection H' as <-.
    split; [done|]. split; [done|]. by exists j, b.
  - intros (Hl & Hm & j & b & Hj & Hc & Ha & Hd & Hb & Hs & ->).
    exists (m, size, depth). split; [done|]. rewrite (proj2 (validate_json_metadata_returned m tt) Hm). cbn [obind].
    destruct (encodes_json j Hc (Hp j Hj)) as (b' & Hb' & Hn). assert (b' = b) as -> by congruence.
    rewrite (proj2 (preflight_accepts depth size v ltac:(apply Hl))).
    + rewrite Hj. cbn [oget obind]. rewrite (write_chunks_spec _ _ _ b) by (done || apply Hl).
      by rewrite (proj2 (Z.leb_le _ _)).
    + exists j. split; [done|]. split; [done|]. split; [done|]. split; [done|]. lia.
Qed.

(** The output limit is exact: an acyclic object that stands for a JSON value
    within the other limits is encoded as the UTF-8 text of the value when that
    fits, and refused for its size when it does not; the check of the object graph
    never refuses one that fits. *)
Theorem json_serialize_exact_limit v m size depth j :
  limits_ok size depth -> json_metadata m -> as_json v = Some j -> python_value j = true -> clean j = true ->
  acyclic ∅ v = true -> json_depth j <= depth ->
  exists b, utf8_encode (json_text j) = Some b /\
    json_serialize v (Exact m) (Exact size) (Exact depth) =
    if blen b <=? size then Returned {| sp_metadata := m; sp_data := b |}
    else Raised (SerdeError PayloadLimit OUTPUT_LIMIT).
Proof.
  intros Hl Hm Hj Hp Hc Ha Hd. destruct (encodes_json j Hc Hp) as (b & Hb & Hn). exists b. split; [done|].
  unfold json_serialize.
  rewrite (proj2 (validate_configuration_returned m size depth _) (conj Hl eq_refl)). cbn [obind].
  rewrite (proj2 (validate_json_metadata_returned m tt) Hm). cbn [obind].
  destruct (Z.le_gt_cases (json_lower j) size) as [Hs|Hs].
  - rewrite (proj2 (preflight_accepts depth size v ltac:(apply Hl))) by (by exists j).
    rewrite Hj. cbn [oget obind]. rewrite (write_chunks_spec _ _ _ b) by (done || apply Hl).
    change (blen []) with 0. rewrite Z.add_0_l. by destruct (_ <=? _).
  - rewrite (preflight_refuses_size depth size v j) by (done || apply Hl).
    by rewrite (proj2 (Z.leb_gt _ _)) by lia.
Qed.
End Encode.

(** ** Nesting of a text *)

Lemma text_run_app limit state s t :
  text_run limit state (s ++ t) = obind (text_run limit state s) (fun state => text_run limit state t).
Proof. revert state. induction s as [|c s IH]; intros state; cbn; [done|]. rewrite obind_assoc. by apply obind_ext. Qed.

Lemma text_step_plain limit escaped depth c :
  plain_char c = true -> text_step limit (false, escaped, depth) c = Returned (false, escaped, depth).
Proof.
  unfold plain_char, text_step. rewrite negb_true_iff, !orb_false_iff. intros [[[[-> ->] ->] ->] ->]. done.
Qed.

Lemma text_run_plain limit escaped depth s :
  forallb plain_char s = true -> text_run limit (false, escaped, depth) s = Returned (false, escaped, depth).
Proof.
  induction s as [|c s IH]; [done|]. cbn [forallb text_run]. intros [Hc Hs]%andb_true_iff.
  rewrite text_step_plain by done. by apply IH.
Qed.

Lemma control_plain c : 0 <= c < 32 ->
  forallb plain_char [48; hex_low (c / 16); hex_low (c mod 16)] = true /\
  (hex_low (c / 16) =? 92) = false /\ (hex_low (c mod 16) =? 92) = false.
Proof.
  intros Hc. assert (c ∈ seqZ 0 32) as Hin by (apply elem_of_seqZ; lia).
  clear Hc. revert c Hin. apply Forall_forall. vm_compute. repeat constructor.
Qed.

(** Inside a string, what is neither a quote nor a backslash is passed over. *)
Lemma text_step_inside limit depth c :
  (c =? 92) = false -> (c =? 34) = false ->
  text_step limit (true, false, depth) c = Returned (true, false, depth).
Proof. intros H1 H2. cbn. by rewrite H1, H2. Qed.

Lemma plain_not_quote c : plain_char c = true -> (c =? 34) = false.
Proof. unfold plain_char. by destruct (c =? 34). Qed.

Lemma text_run_escape limit depth c :
  0 <= c -> text_run limit (true, false, depth) (escape_char c) = Returned (true, false, depth).
Proof.
  intros Hc. unfold escape_char.
  repeat match goal with |- context [if c =? ?k then _ else _] =>
    destruct (Z.eqb_spec c k) as [->|?]; [reflexivity|] end.
  destruct (Z.ltb_spec c 32).
  - destruct (control_plain c ltac:(lia)) as (Hp & H1 & H2).
    cbn [forallb] in Hp. rewrite !andb_true_iff in Hp. destruct Hp as (_ & Hq1 & Hq2 & _).
    change (text_run limit (true, false, depth) [hex_low (c / 16); hex_low (c mod 16)] = Returned (true, false, depth)).
    cbn [text_run]. rewrite text_step_inside by (done || by apply plain_not_quote). cbn [obind].
    by rewrite text_step_inside by (done || by apply plain_not_quote).
  - cbn [text_run]. rewrite text_step_inside; [done|by apply Z.eqb_neq|by apply Z.eqb_neq].
Qed.

Lemma text_run_string limit depth s :
  Forall (Z.le 0) s -> text_run limit (false, false, depth) (encode_string s) = Returned (false, false, depth).
Proof.
  intros Hs. change (text_run limit (true, false, depth) (flat_map escape_char s ++ [34]) = Returned (false, false, depth)).
  rewrite text_run_app.
  assert (text_run limit (true, false, depth) (flat_map escape_char s) = Returned (true, false, depth)) as ->; [|done].
  induction Hs as [|c s Hc _ IH]; [done|]. cbn [flat_map]. rewrite text_run_app, text_run_escape by done. apply IH.
Qed.

Lemma code_points_nonneg s : forallb code_point s = true -> Forall (Z.le 0) s.
Proof.
  rewrite forallb_forall, Forall_forall. intros Hs c Hc%list_elem_of_In. apply Hs in Hc.
  unfold code_point in Hc. lia.
Qed.

Section Nesting.
Context `{FloatLaws}.
Variable limit : Z.

(** The depth comes back to where it was, and stays below the limit. *)
Definition nests (v : json) : Prop := forall depth,
  0 <= depth -> depth + json_depth v <= limit ->
  text_run limit (false, false, depth) (json_text v) = Returned (false, false, depth).

Lemma text_run_empty depth text :
  0 <= depth -> depth + 1 <= limit -> text = py "[]" \/ text = py "{}" ->
  text_run limit (false, false, depth) text = Returned (false, false, depth).
Proof.
  intros Hd Hlim Ht. assert (depth + 1 - 1 = depth) as Hback by lia.
  destruct Ht as [-> | ->]; [change (py "[]") with [91; 93]|change (py "{}") with [123; 125]];
    cbn [text_run text_step Z.eqb Pos.eqb orb andb]; unfold orequire;
    rewrite (proj2 (Z.leb_le (depth + 1) limit)) by done; cbn [obind text_step Z.eqb Pos.eqb orb andb];
    rewrite (proj2 (Z.ltb_lt 0 (depth + 1))) by lia; cbn [obind]; by rewrite Hback.
Qed.

Lemma text_run_elements a l depth :
  Forall nests (a :: l) -> 0 < depth ->
  depth + foldr Z.max 0 (json_depth <$> a :: l) <= limit ->
  text_run limit (false, false, depth) (json_text a ++ concat (element_chunks json_chunks (py ",") l)) =
  Returned (false, false, depth - 1).
Proof.
  revert a. induction l as [|b l IH]; intros a [Ha Hl]%Forall_cons Hd Hlim; cbn [fmap list_fmap foldr] in Hlim;
    rewrite text_run_app, Ha by lia; cbn [obind].
  - cbn. by rewrite (proj2 (Z.ltb_lt _ _)).
  - rewrite element_chunks_cons, text_run_app.
    change (text_run limit (false, false, depth) (py ",")) with (@Returned text_state (false, false, depth)).
    cbn [obind]. apply IH; [done|done|]. cbn [fmap list_fmap foldr]. lia.
Qed.

Lemma text_run_members k a l depth :
  Forall (fun m => Forall (Z.le 0) m.1 /\ nests m.2) ((k, a) :: l) -> 0 < depth ->
  depth + foldr Z.max 0 ((fun m => json_depth m.2) <$> (k, a) :: l) <= limit ->
  text_run limit (false, false, depth)
    (encode_string k ++ 58 :: json_text a ++ concat (member_chunks json_chunks (py ",") l)) =
  Returned (false, false, depth - 1).
Proof.
  revert k a. induction l as [|[k' b] l IH]; intros k a [[Hk Ha] Hl]%Forall_cons Hd Hlim;
    cbn [fmap list_fmap foldr fst snd] in *; rewrite text_run_app, text_run_string by done;
    cbn [obind]; change (58 :: ?x) with ([58] ++ x); rewrite text_run_app; cbn [text_run obind];
    rewrite text_step_plain by done; cbn [obind]; rewrite text_run_app, Ha by lia; cbn [obind].
  - cbn. by rewrite (proj2 (Z.ltb_lt _ _)).
  - rewrite member_chunks_cons, text_run_app.
    change (text_run limit (false, false, depth) (py ",")) with (@Returned text_state (false, false, depth)).
    cbn [obind]. apply IH; [done|done|]. cbn [fmap list_fmap foldr fst snd]. lia.
Qed.

Lemma json_text_nests v : clean v = true -> python_value v = true -> nests v.
Proof.
  induction v as [|[]|z|f|s|l IH|l IH] using json_nested_ind; cbn [clean python_value]; intros Hc Hp depth Hd Hlim;
    try done.
  - rewrite (json_text_scalar (JInt z) _ eq_refl). by apply text_run_plain, number_text_plain, int_repr_number.
  - rewrite (json_text_scalar (JFloat f) _ eq_refl). apply text_run_plain, number_text_plain, float_shape_number.
    by apply float_repr_shape.
  - rewrite (json_text_scalar (JString s) _ eq_refl). by apply text_run_string, code_points_nonneg.
  - cbn [json_depth] in Hlim. assert (0 <= foldr Z.max 0 (json_depth <$> l)) by (clear; induction l; cbn; lia).
    destruct l as [|a l].
    { apply text_run_empty; [done|cbn in Hlim; lia|by left]. }
    rewrite json_text_array. cbn [text_run text_step Z.eqb Pos.eqb orb]. unfold orequire.
    rewrite (proj2 (Z.leb_le _ _)) by lia. cbn [obind].
    rewrite text_run_elements; [do 2 f_equal; lia| |lia|lia].
    rewrite Forall_forall in *. rewrite forallb_forall in *.
    intros x Hx. apply IH; [done|apply Hc|apply Hp]; by apply list_elem_of_In.
  - apply andb_true_iff in Hp as [_ Hp]. cbn [json_depth] in Hlim.
    assert (0 <= foldr Z.max 0 ((fun m => json_depth m.2) <$> l)) by (clear; induction l; cbn; lia).
    destruct l as [|[k a] l].
    { apply text_run_empty; [done|cbn in Hlim; lia|by right]. }
    rewrite json_text_object. cbn [text_run text_step Z.eqb Pos.eqb orb]. unfold orequire.
    rewrite (proj2 (Z.leb_le _ _)) by lia. cbn [obind].
    rewrite text_run_members; [do 2 f_equal; lia| |lia|lia].
    rewrite Forall_forall in *. rewrite forallb_forall in *. intros x Hx. apply list_elem_of_In in Hx as Hx'.
    specialize (Hc x Hx'). specialize (Hp x Hx'). apply andb_true_iff in Hc as [_ Hc2], Hp as [Hp1 Hp2].
    split; [by apply code_points_nonneg|auto].
Qed.
End Nesting.

(** ** Reading the text back *)

Lemma decimal_length n k : 0 <= n < 10 ^ k -> 0 < k -> blen (decimal n) <= k.
Proof.
  intros Hn. assert (0 <= n) as H0 by lia. revert k Hn. revert n H0. apply (decimal_ind (fun n => forall k, 0 <= n < 10 ^ k -> 0 < k -> blen (decimal n) <= k)).
  - intros n Hn k _ Hk. rewrite decimal_small by lia. unfold blen. cbn. lia.
  - intros n H10 IH k Hn Hk. rewrite decimal_step by lia. rewrite blen_app. unfold blen at 2. cbn [length].
    assert (k <> 1) by (intros ->; lia). rewrite <-(Z.sub_simpl_r k 1) in Hn. rewrite Z.pow_add_r in Hn by lia.
    enough (blen (decimal (n / 10)) <= k - 1) by lia.
    apply IH; [Z.to_euclidean_division_equations; lia|lia].
Qed.

Lemma parse_limited_int_repr z :
  - MAX_JSON_INTEGER_MAGNITUDE < z < MAX_JSON_INTEGER_MAGNITUDE ->
  parse_limited_int (int_repr z) = Returned (JInt z).
Proof.
  intros Hz. unfold parse_limited_int. rewrite int_of_text_repr.
  assert (forall n, 0 <= n < MAX_JSON_INTEGER_MAGNITUDE -> blen (decimal n) <= MAX_JSON_INTEGER_DIGITS) as Hlen
    by (intros n Hn; by apply decimal_length).
  rewrite (proj2 (Z.ltb_ge _ _)); [done|]. unfold int_repr. destruct (Z.ltb_spec z 0).
  - specialize (Hlen (- z) ltac:(lia)). change (45 :: ?s) with ([45] ++ s). rewrite blen_app.
    change (blen [45]) with 1. cbn [app]. lia.
  - specialize (Hlen z ltac:(lia)). repeat case_match; lia.
Qed.

Lemma reject_duplicate_keys_spec l d :
  NoDup d.*1 ->
  reject_duplicate_keys l d =
  if bool_decide (NoDup (d ++ l).*1) then Returned (d ++ l) else Raised (JsonSignalError DuplicateKey).
Proof.
  revert d. induction l as [|[k v] l IH]; intros d Hd; cbn.
  { by rewrite app_nil_r, bool_decide_true. }
  rewrite dict_has_keys. destruct (decide (k ∈ d.*1)) as [Hk|Hk].
  - rewrite bool_decide_true by done. rewrite bool_decide_false; [done|].
    rewrite fmap_app, NoDup_app. intros (_ & Hdis & _). apply (Hdis k Hk). by left.
  - rewrite (bool_decide_false (k ∈ _)) by done.
    rewrite dict_set_fresh by (by rewrite dict_has_keys, bool_decide_false).
    assert (NoDup (d ++ [(k, v)]).*1) as Hd'.
    { rewrite fmap_app, NoDup_app. split; [done|]. split; [|apply NoDup_singleton]. set_solver. }
    rewrite IH by done. by rewrite <-app_assoc.
Qed.

Lemma normalize_scalar s : scalar_string s = true -> normalize_unicode_scalar_string s = Returned s.
Proof.
  unfold scalar_string. induction s as [|c s IH]; [done|]. cbn [forallb normalize_unicode_scalar_string].
  intros [Hc%negb_true_iff Hs]%andb_true_iff.
  assert (is_high c = false) as -> by (unfold is_high, is_surrogate in *; lia).
  assert (is_low c = false) as -> by (unfold is_low, is_surrogate in *; lia).
  by rewrite IH.
Qed.

Lemma normalize_clean v : clean v = true -> normalize_decoded_strings v = Returned v.
Proof.
  induction v as [|b|z|f|s|l IH|l IH] using json_nested_ind; cbn [clean normalize_decoded_strings]; intros Hc; try done.
  - by rewrite normalize_scalar.
  - assert (normalize_items normalize_decoded_strings l = Returned l) as ->; [|done].
    induction IH as [|a l Ha _ IHl]; [done|]. cbn in Hc |- *. apply andb_true_iff in Hc as [Hc1 Hc2].
    by rewrite Ha, IHl.
  - assert (forall keys, normalize_members normalize_decoded_strings keys l = Returned (l, [])) as ->; [|done].
    intros keys. induction IH as [|[k a] l Ha _ IHl]; [done|]. cbn in Hc |- *.
    apply andb_true_iff in Hc as [[Hk Hc1]%andb_true_iff Hc2]. cbn in Ha. rewrite Ha by done. cbn [obind].
    rewrite normalize_scalar by done. cbn [obind]. rewrite decide_True by done. cbn [obind]. by rewrite IHl.
Qed.

Section Decode.
Context `{FloatLaws}.

Lemma strict_readable v : clean v = true -> python_value v = true -> readable strict_hooks v.
Proof.
  induction v as [|[]|z|f|s|l IH|l IH] using json_nested_ind; cbn [clean python_value readable]; intros Hc Hp; try done.
  - apply andb_true_iff in Hc as [H1%Z.ltb_lt H2%Z.ltb_lt]. by apply parse_limited_int_repr.
  - split; [by apply float_repr_shape|]. cbn. unfold parse_finite_float. by rewrite float_repr_read, Hc.
  - by apply code_points_nonneg.
  - apply readable_list. rewrite Forall_forall in *. rewrite forallb_forall in *.
    intros x Hx. apply IH; [done|apply Hc|apply Hp]; by apply list_elem_of_In.
  - apply andb_true_iff in Hp as [Hn Hp]. split.
    + cbn. rewrite reject_duplicate_keys_spec by constructor. cbn. by rewrite Hn.
    + apply (readable_list (fun m : pystr * json => str_ok m.1 /\ readable strict_hooks m.2)).
      rewrite Forall_forall in *. rewrite forallb_forall in *. intros x Hx. apply list_elem_of_In in Hx as Hx'.
      specialize (Hc x Hx'). specialize (Hp x Hx'). apply andb_true_iff in Hc as [_ Hc2], Hp as [Hp1 Hp2].
      split; [by apply code_points_nonneg|auto].
Qed.

Lemma validate_deserialize_returned p m size depth r :
  validate_deserialize_configuration (Exact p) (Exact m) (Exact size) (Exact depth) = Returned r <->
  limits_ok size depth /\ r = (p, m, size, depth).
Proof.
  rewrite limits_check. unfold validate_deserialize_configuration. cbn [require_exact obind].
  destruct (_ && _); [|by split; [|intros [[? _] _]]]. destruct (_ && _); cbn; [|by split; [|intros [[_ ?] _]]].
  split; [by intros [= <-]|by intros [_ ->]].
Qed.

Lemma validate_actual_returned actual expected u :
  validate_actual_metadata actual expected = Returned u <-> actual = expected.
Proof.
  unfold validate_actual_metadata. split.
  - intros ([] & H1%orequire_returned & ([] & H2%orequire_returned & H3)%obind_returned)%obind_returned.
    apply obind_returned in H3 as ([] & H3%orequire_returned & H4%orequire_returned).
    apply bool_decide_eq_true in H1, H2, H4. apply Z.eqb_eq in H3. destruct actual, expected; cbn in *; congruence.
  - intros ->. rewrite !bool_decide_true, Z.eqb_refl by done. by destruct u.
Qed.

(** [C12] Round trip: whatever [json_serialize] returned, [json_deserialize] reads
    as the JSON value it was made from, under the same metadata, with limits that
    are no smaller than the payload and the nesting limit of the encoder. *)
Theorem json_payload_roundtrip v j m size depth size' depth' p :
  as_json v = Some j -> python_value j = true ->
  json_serialize v (Exact m) (Exact size) (Exact depth) = Returned p ->
  blen (sp_data p) <= size' -> depth <= depth' -> limits_ok size' depth' ->
  json_deserialize (Exact p) (Exact m) (Exact size') (Exact depth') = Returned j.
Proof.
  intros Hj Hp Hs Hlen Hdepth Hlim.
  apply json_serialize_returned in Hs as (Hl & Hm & j' & b & Hj' & Hc & _ & Hd & Hb & _ & ->); [|intros; by simplify_eq].
  assert (j' = j) as -> by congruence. cbn [sp_data] in Hlen.
  unfold json_deserialize.
  rewrite (proj2 (validate_deserialize_returned _ m size' depth' _) (conj Hlim eq_refl)). cbn [obind].
  rewrite (proj2 (validate_json_metadata_returned m tt) Hm). cbn [obind sp_metadata sp_data].
  rewrite (proj2 (validate_actual_returned m m tt) eq_refl). cbn [obind]. unfold orequire at 1.
  rewrite (proj2 (Z.leb_le _ _) Hlen). cbn [obind]. rewrite (utf8_decode_encode _ _ Hb). cbn [oget obind].
  unfold preflight_json_text. rewrite (json_text_nests depth' j Hc Hp 0) by lia. cbn [obind replace_error].
  rewrite json_loads_text by (by apply strict_readable). cbn [obind].
  by rewrite normalize_clean.
Qed.
End Decode.
