(* ===== verification/SerdeJsonSound.v ===== *)
(** * JSON payloads: what is decoded is a value within the limits

    Whatever the bytes are: a value that [json_deserialize] returns nests no
    deeper than the limit, has finite numbers, integers within the digits, each
    key once and no surrogate; otherwise the error is one of the documented. *)

From Stdlib Require Import SpecFloat.
From S2P Require Import Prelude Python Leader LeaseRecord Utf8 PyObject JsonText JsonTextLaws JsonGrammar EnvelopeFormat SerdeJson SerdeJsonCheck SerdeJsonLaws.
Import Serde.
Open Scope py_scope.
Open Scope Z_scope.

#[local] Arguments scalar_string : simpl never.

(** ** The nesting of a document *)

Lemma hex_digit_inside c v : hex_digit_value c = Some v -> (c =? 92) = false /\ (c =? 34) = false.
Proof.
  unfold hex_digit_value. intros H. split; apply Z.eqb_neq; intros ->; by vm_compute in H.
Qed.

Lemma four_hex_inside a b c d u limit depth t :
  four_hex a b c d = Some u ->
  text_run limit (true, false, depth) (92 :: 117 :: a :: b :: c :: d :: t) = text_run limit (true, false, depth) t.
Proof.
  unfold four_hex. intros H.
  destruct (hex_digit_value a) as [va|] eqn:Ea; [|done]. destruct (hex_digit_value b) as [vb|] eqn:Eb; [|done].
  destruct (hex_digit_value c) as [vc|] eqn:Ec; [|done]. destruct (hex_digit_value d) as [vd|] eqn:Ed; [|done].
  apply hex_digit_inside in Ea as [], Eb as [], Ec as [], Ed as [].
  cbn [text_run]. change (text_step limit (true, false, depth) 92) with (@Returned text_state (true, true, depth)).
  cbn [obind]. change (text_step limit (true, true, depth) 117) with (@Returned text_state (true, false, depth)).
  cbn [obind]. do 4 (rewrite text_step_inside by done; cbn [obind]). done.
Qed.

Lemma string_body_run t s limit depth :
  string_body t s -> text_run limit (true, false, depth) t = Returned (false, false, depth).
Proof.
  induction 1 as [|c t s H1 H2 _ _ IH|e c t s He _ IH|a b c d u t s Hu _ _ IH|a b c d h a' b' c' d' l t s Hh _ Hl _ _ IH].
  - done.
  - cbn [text_run]. by rewrite text_step_inside by (by apply Z.eqb_neq).
  - exact IH.
  - by rewrite (four_hex_inside _ _ _ _ _ _ _ _ Hu).
  - by rewrite (four_hex_inside _ _ _ _ _ _ _ _ Hh), (four_hex_inside _ _ _ _ _ _ _ _ Hl).
Qed.

Lemma blank_plain s : blank s -> forallb plain_char s = true.
Proof.
  unfold blank. rewrite !forallb_forall. intros Hs c Hc. specialize (Hs c Hc).
  unfold is_json_space, plain_char in *. lia.
Qed.

Lemma blank_run limit depth s : blank s -> text_run limit (false, false, depth) s = Returned (false, false, depth).
Proof. intros. by apply text_run_plain, blank_plain. Qed.

Lemma run_open limit depth c t st :
  c = 91 \/ c = 123 -> text_run limit (false, false, depth) (c :: t) = Returned st ->
  depth + 1 <= limit /\ text_run limit (false, false, depth + 1) t = Returned st.
Proof.
  intros Hc H. cbn [text_run] in H. apply obind_returned in H as (st' & Hst & H).
  assert (depth + 1 <= limit /\ st' = (false, false, depth + 1)) as [Hl ->]; [|done].
  destruct Hc as [-> | ->]; cbn [text_step Z.eqb Pos.eqb orb] in Hst;
    (apply obind_returned in Hst as ([] & Hl%orequire_returned%Z.leb_le & [= <-])); done.
Qed.

Lemma run_close limit depth c t :
  c = 93 \/ c = 125 -> 0 < depth ->
  text_run limit (false, false, depth) (c :: t) = text_run limit (false, false, depth - 1) t.
Proof.
  intros Hc Hd. cbn [text_run].
  assert (text_step limit (false, false, depth) c = Returned (false, false, depth - 1)) as ->; [|done].
  destruct Hc as [-> | ->]; cbn [text_step Z.eqb Pos.eqb orb andb]; by rewrite (proj2 (Z.ltb_lt _ _)).
Qed.

Lemma run_pass limit depth c t :
  plain_char c = true ->
  text_run limit (false, false, depth) (c :: t) = text_run limit (false, false, depth) t.
Proof. intros Hc. cbn [text_run]. by rewrite text_step_plain. Qed.

Lemma run_quote limit depth t :
  text_run limit (false, false, depth) (34 :: t) = text_run limit (true, false, depth) t.
Proof. reflexivity. Qed.

Section Depth.
Variable hooks : json_hooks.

(** The hooks make no deeper values than they are given. *)
Record hooks_flat : Prop := {
  flat_int t v : hk_int hooks t = Returned v -> json_depth v <= 0;
  flat_float t v : hk_float hooks t = Returned v -> json_depth v <= 0;
  flat_constant t v : hk_constant hooks t = Returned v -> json_depth v <= 0;
  flat_object l v : hk_object hooks l = Returned v -> json_depth v <= json_depth (JObject l);
}.

Hypothesis Hflat : hooks_flat.
Variable limit : Z.

Lemma token_flat v : token_value hooks v -> json_depth v <= 0.
Proof.
  intros [-> |[(b & ->)|[(sign & ds & _ & _ & Hv)|(t & [Hv|Hv])]]]; [cbn; lia|cbn; lia|..].
  - by eapply flat_int.
  - by eapply flat_float.
  - by eapply flat_constant.
Qed.

Lemma grammar_depth :
  (forall t v, value_text hooks t v -> forall depth st rest, 0 <= depth <= limit ->
    text_run limit (false, false, depth) (t ++ rest) = Returned st ->
    text_run limit (false, false, depth) rest = Returned st /\ depth + json_depth v <= limit) /\
  (forall t l, elements_text hooks t l -> forall depth st rest, 0 < depth <= limit ->
    text_run limit (false, false, depth) (t ++ rest) = Returned st ->
    text_run limit (false, false, depth - 1) rest = Returned st /\
    depth + foldr Z.max 0 (json_depth <$> l) <= limit) /\
  (forall t l, members_text hooks t l -> forall depth st rest, 0 < depth <= limit ->
    text_run limit (false, false, depth) (t ++ rest) = Returned st ->
    text_run limit (false, false, depth - 1) rest = Returned st /\
    depth + foldr Z.max 0 ((fun m => json_depth m.2) <$> l) <= limit).
Proof.
  apply grammar_ind.
  - intros t s Hb depth st rest Hd H. cbn [app] in H. rewrite run_quote, text_run_app in H.
    rewrite (string_body_run _ _ _ _ Hb) in H. cbn in H |- *. split; [done|lia].
  - intros t v Hp Hv depth st rest Hd H. rewrite text_run_app, text_run_plain in H by done.
    apply token_flat in Hv. split; [done|lia].
  - intros ws Hb depth st rest Hd H. cbn [app] in H. apply run_open in H as [Hl H]; [|by left].
    rewrite <-app_assoc, text_run_app, blank_run in H by done. cbn [obind app] in H.
    rewrite run_close in H by (try (by left); lia). rewrite Z.add_simpl_r in H. split; [done|cbn; lia].
  - intros ws t items Hb _ IH depth st rest Hd H. cbn [app] in H. apply run_open in H as [Hl H]; [|by left].
    rewrite <-app_assoc, text_run_app, blank_run in H by done. cbn [obind] in H.
    apply IH in H as [H Hm]; [|lia]. rewrite Z.add_simpl_r in H. split; [done|cbn [json_depth]; lia].
  - intros ws v Hb Hv depth st rest Hd H. cbn [app] in H. apply run_open in H as [Hl H]; [|by right].
    rewrite <-app_assoc, text_run_app, blank_run in H by done. cbn [obind app] in H.
    rewrite run_close in H by (try (by right); lia). rewrite Z.add_simpl_r in H.
    apply (flat_object Hflat) in Hv. cbn in Hv. split; [done|lia].
  - intros ws t l v Hb _ IH Hv depth st rest Hd H. cbn [app] in H. apply run_open in H as [Hl H]; [|by right].
    rewrite <-app_assoc, text_run_app, blank_run in H by done. cbn [obind] in H.
    apply IH in H as [H Hm]; [|lia]. rewrite Z.add_simpl_r in H. apply (flat_object Hflat) in Hv.
    cbn [json_depth] in Hv. split; [done|lia].
  - intros t v ws _ IH Hb depth st rest Hd H. rewrite <-!app_assoc in H. apply IH in H as [H Hm]; [|lia].
    rewrite text_run_app, blank_run in H by done. cbn [obind app] in H.
    rewrite run_close in H by (try (by left); lia). split; [done|cbn; lia].
  - intros t v ws1 ws2 t2 items _ IH Hb1 Hb2 _ IHl depth st rest Hd H. rewrite <-!app_assoc in H.
    apply IH in H as [H Hm]; [|lia]. rewrite text_run_app, blank_run in H by done. cbn [obind app] in H.
    rewrite run_pass in H by done. rewrite <-app_assoc, text_run_app, blank_run in H by done. cbn [obind] in H.
    apply IHl in H as [H Hm2]; [|lia]. split; [done|cbn [fmap list_fmap foldr]; lia].
  - intros k key ws1 ws2 t v ws3 Hk Hb1 Hb2 _ IH Hb3 depth st rest Hd H. cbn [app] in H. rewrite run_quote in H.
    rewrite <-!app_assoc, text_run_app, (string_body_run _ _ _ _ Hk) in H. cbn [obind] in H.
    rewrite text_run_app, blank_run in H by done. cbn [obind app] in H. rewrite run_pass in H by done.
    rewrite <-!app_assoc, text_run_app, blank_run in H by done. cbn [obind] in H.
    apply IH in H as [H Hm]; [|lia]. rewrite text_run_app, blank_run in H by done. cbn [obind app] in H.
    rewrite run_close in H by (try (by right); lia). split; [done|cbn; lia].
  - intros k key ws1 ws2 t v ws3 ws4 t2 l Hk Hb1 Hb2 _ IH Hb3 Hb4 _ IHl depth st rest Hd H.
    cbn [app] in H. rewrite run_quote in H.
    rewrite <-!app_assoc, text_run_app, (string_body_run _ _ _ _ Hk) in H. cbn [obind] in H.
    rewrite text_run_app, blank_run in H by done. cbn [obind app] in H. rewrite run_pass in H by done.
    rewrite <-!app_assoc, text_run_app, blank_run in H by done. cbn [obind] in H.
    apply IH in H as [H Hm]; [|lia]. rewrite text_run_app, blank_run in H by done. cbn [obind app] in H.
    rewrite run_pass in H by done. rewrite <-!app_assoc, text_run_app, blank_run in H by done. cbn [obind] in H.
    apply IHl in H as [H Hm2]; [|lia]. split; [done|cbn [fmap list_fmap foldr snd]; lia].
Qed.

(** A document that passed the check of its text nests no deeper than the limit. *)
Lemma document_depth text v :
  0 <= limit -> preflight_json_text text limit = Returned tt -> document_text hooks text v -> json_depth v <= limit.
Proof.
  intros Hl H (ws & t & ws' & -> & Hb & _ & Hv). apply obind_returned in H as (st & H & _).
  rewrite text_run_app, blank_run in H by done. cbn [obind] in H.
  apply (proj1 grammar_depth _ _ Hv) in H as [_ H]; lia.
Qed.
End Depth.

(** ** What a document stands for *)

Lemma scalar_char_iff s :
  forallb code_point s = true /\ scalar_string s = true <->
  Forall (fun c => code_point c = true /\ is_surrogate c = false) s.
Proof.
  unfold scalar_string. rewrite Forall_forall, !forallb_forall. setoid_rewrite <-list_elem_of_In.
  setoid_rewrite negb_true_iff. naive_solver.
Qed.

(** No high surrogate is followed by a low one: the decoder joined them. *)
Fixpoint unjoined (s : pystr) : bool :=
  match s with
  | c :: rest => match rest with d :: _ => negb (is_high c && is_low d) | [] => true end && unjoined rest
  | [] => true
  end.

Lemma hex_digit_bound c v : hex_digit_value c = Some v -> 0 <= v <= 15.
Proof. unfold hex_digit_value. repeat case_match; intros; simplify_eq; lia. Qed.

Lemma four_hex_bound a b c d u : four_hex a b c d = Some u -> 0 <= u <= 65535.
Proof.
  unfold four_hex. intros H.
  destruct (hex_digit_value a) as [va|] eqn:Ea; [|done]. destruct (hex_digit_value b) as [vb|] eqn:Eb; [|done].
  destruct (hex_digit_value c) as [vc|] eqn:Ec; [|done]. destruct (hex_digit_value d) as [vd|] eqn:Ed; [|done].
  apply hex_digit_bound in Ea, Eb, Ec, Ed. cbn in H. simplify_eq. lia.
Qed.

Lemma join_bound h l : is_high h = true -> is_low l = true -> 65536 <= join_surrogates h l <= 1114111.
Proof. unfold is_high, is_low, join_surrogates. lia. Qed.

Lemma simple_escape_bound e c : simple_escape e = Some c -> 0 <= c <= 92.
Proof. unfold simple_escape. repeat case_match; intros; simplify_eq; lia. Qed.

Lemma low_head t s l : string_body t (l :: s) -> is_low l = true -> forallb (fun c => negb (is_surrogate c)) t = true ->
  low_escape_follows t.
Proof.
  intros Hb Hl Ht. inversion Hb as [|c t1 s1 H1 H2 H3 _|e c t1 s1 He _|a b c d u t1 s1 Hu _ _|a b c d h a1 b1 c1 d1 l1 t1 s1 Hh Hh1 Hl1 Hl2 _]; subst.
  - cbn in Ht. unfold is_low, is_surrogate in *. lia.
  - apply simple_escape_bound in He. unfold is_low in Hl. lia.
  - by exists a, b, c, d, l, t1.
  - pose proof (join_bound _ _ Hh1 Hl2). unfold is_low in Hl. lia.
Qed.

(** The string of a text without raw surrogates. *)
Lemma string_body_chars t s :
  string_body t s -> Forall (fun c => code_point c = true /\ is_surrogate c = false) t ->
  forallb code_point s = true /\ unjoined s = true.
Proof.
  assert (forall c s, unjoined s = true -> is_high c = false \/ (forall l s', s = l :: s' -> is_low l = false) ->
    unjoined (c :: s) = true) as Hcons.
  { intros c w Hs Hc. cbn. rewrite Hs, andb_true_r. destruct w as [|l w]; [done|].
    apply negb_true_iff, andb_false_iff. destruct Hc as [Hc|Hc]; [by left|right]. by eapply Hc. }
  induction 1 as [|c t s H1 H2 H3 _ IH|e c t s He _ IH|a b c d u t s Hu Hh Hb IH|a b c d h a' b' c' d' l t s Hh Hh' Hl Hl' _ IH];
    intros Ht; rewrite ?Forall_cons in Ht.
  - done.
  - destruct Ht as [[Hc Hs] [Hcp Hu]%IH]. cbn [forallb]. rewrite Hc, Hcp. split; [done|].
    apply Hcons; [done|left]. unfold is_high, is_surrogate in *. lia.
  - destruct Ht as (_ & _ & [Hcp Hu]%IH). apply simple_escape_bound in He. cbn [forallb].
    split; [rewrite Hcp; unfold code_point; lia|]. apply Hcons; [done|left]. unfold is_high. lia.
  - destruct Ht as (_ & _ & _ & _ & _ & _ & Ht). destruct (IH Ht) as [Hcp Huj]. apply four_hex_bound in Hu.
    cbn [forallb]. split; [rewrite Hcp; unfold code_point; lia|]. apply Hcons; [done|].
    destruct (is_high u) eqn:Eu; [right|by left]. intros l s' ->. destruct (is_low l) eqn:El; [|done].
    destruct (Hh eq_refl). eapply low_head; [done..|]. apply scalar_char_iff in Ht as [_ Ht]. exact Ht.
  - destruct Ht as (_ & _ & _ & _ & _ & _ & _ & _ & _ & _ & _ & _ & [Hcp Hu]%IH).
    pose proof (join_bound _ _ Hh' Hl'). cbn [forallb]. split; [rewrite Hcp; unfold code_point; lia|].
    apply Hcons; [done|left]. unfold is_high. lia.
Qed.

Definition text_ok (s : pystr) : bool := forallb code_point s && unjoined s.

(** A value as the strict hooks make it. *)
Fixpoint decoded (v : json) : bool :=
  match v with
  | JNull | JBool _ => true
  | JInt z => (- MAX_JSON_INTEGER_MAGNITUDE <? z) && (z <? MAX_JSON_INTEGER_MAGNITUDE)
  | JFloat f => is_finite f && valid_binary 53 1024 f
  | JString s => text_ok s
  | JArray l => forallb decoded l
  | JObject l => bool_decide (NoDup l.*1) && forallb (fun m => text_ok m.1 && decoded m.2) l
  end.

Lemma undecimal_bound ds : digits ds -> 0 <= undecimal ds < 10 ^ blen ds.
Proof.
  unfold digits. induction ds as [|d ds IH] using rev_ind; [done|].
  rewrite forallb_app, andb_true_iff. cbn. rewrite andb_true_r. intros [Hds Hd]. specialize (IH Hds).
  rewrite undecimal_snoc, blen_app. change (blen [d]) with 1. rewrite Z.pow_add_r by (apply blen_nonneg || lia).
  unfold is_digit in Hd. lia.
Qed.

Lemma parse_limited_int_decoded sign ds v :
  sign_shape sign -> digits ds -> parse_limited_int (sign ++ ds) = Returned v ->
  exists z, v = JInt z /\ - MAX_JSON_INTEGER_MAGNITUDE < z < MAX_JSON_INTEGER_MAGNITUDE.
Proof.
  intros Hs Hd H. pose proof (undecimal_bound ds Hd) as Hb.
  assert (blen ds <= MAX_JSON_INTEGER_DIGITS -> undecimal ds < MAX_JSON_INTEGER_MAGNITUDE) as Hlim.
  { intros Hl. unfold MAX_JSON_INTEGER_MAGNITUDE. eapply Z.lt_le_trans; [apply Hb|].
    apply Z.pow_le_mono_r; [lia|done]. }
  unfold parse_limited_int in H. destruct Hs as [-> | ->].
  - cbn [app] in H.
    assert (match ds with 45 :: _ => 1 | _ => 0 end = 0 /\ int_of_text ds = undecimal ds) as [E1 E2].
    { destruct ds as [|d ds]; [done|]. assert (d <> 45) as Hne.
      { intros ->. unfold digits in Hd. by cbn in Hd. }
      split; [repeat case_match; congruence|]. cbn [int_of_text]. by rewrite (proj2 (Z.eqb_neq _ _) Hne). }
    rewrite E1, E2 in H. destruct (Z.ltb_spec MAX_JSON_INTEGER_DIGITS (blen ds - 0)); [done|].
    injection H as <-. eexists. split; [done|]. lia.
  - cbn [app] in H. replace (blen (45 :: ds) - 1) with (blen ds) in H by (unfold blen; cbn [length]; lia).
    destruct (Z.ltb_spec MAX_JSON_INTEGER_DIGITS (blen ds)); [done|]. injection H as <-.
    eexists. split; [done|]. cbn [int_of_text Z.eqb Pos.eqb]. lia.
Qed.

Section Decoded.
Context `{FloatLaws}.

Lemma strict_flat : hooks_flat strict_hooks.
Proof.
  split; cbn; unfold parse_limited_int, parse_finite_float; intros t v Hv.
  - destruct (_ <? _); [done|]. injection Hv as <-. cbn. lia.
  - destruct (is_finite _); [|done]. injection Hv as <-. cbn. lia.
  - done.
  - rewrite reject_duplicate_keys_spec in Hv by constructor. cbn in Hv.
    destruct (bool_decide _); [|done]. cbn in Hv. injection Hv as <-. cbn. lia.
Qed.

Lemma token_decoded v : token_value strict_hooks v -> decoded v = true.
Proof.
  intros [-> |[(b & ->)|[(sign & ds & Hs & Hd & Hv)|(t & [Hv|Hv])]]]; [done|done|..].
  - destruct (parse_limited_int_decoded _ _ _ Hs Hd Hv) as (z & -> & Hz). cbn.
    rewrite andb_true_iff, !Z.ltb_lt. lia.
  - cbn in Hv. unfold parse_finite_float in Hv. destruct (is_finite _) eqn:Ef; [|done]. injection Hv as <-.
    cbn. by rewrite Ef, float_of_text_valid.
  - done.
Qed.

Lemma object_decoded l v :
  forallb (fun m => text_ok m.1 && decoded m.2) l = true -> hk_object strict_hooks l = Returned v -> decoded v = true.
Proof.
  intros Hl Hv. cbn in Hv. rewrite reject_duplicate_keys_spec in Hv by constructor. cbn in Hv.
  destruct (bool_decide _) eqn:E; [|done]. injection Hv as <-. cbn. by rewrite E, Hl.
Qed.

Definition scalars (t : pystr) : Prop := Forall (fun c => code_point c = true /\ is_surrogate c = false) t.

Lemma string_decoded t s : string_body t s -> scalars t -> text_ok s = true.
Proof. intros Hb Ht. destruct (string_body_chars _ _ Hb Ht) as [H1 H2]. unfold text_ok. by rewrite H1, H2. Qed.

Lemma grammar_decoded :
  (forall t v, value_text strict_hooks t v -> scalars t -> decoded v = true) /\
  (forall t l, elements_text strict_hooks t l -> scalars t -> forallb decoded l = true) /\
  (forall t l, members_text strict_hooks t l -> scalars t ->
     forallb (fun m => text_ok m.1 && decoded m.2) l = true).
Proof.
  unfold scalars. apply grammar_ind.
  - intros t s Hb [_ Ht]%Forall_cons. by apply (string_decoded t).
  - intros t v _ Hv _. by apply token_decoded.
  - done.
  - intros ws t items _ _ IH [_ [_ Ht]%Forall_app]%Forall_cons. by apply IH.
  - intros ws v _ Hv _. by apply (object_decoded [] v).
  - intros ws t l v _ _ IH Hv [_ [_ Ht]%Forall_app]%Forall_cons. apply (object_decoded l v); auto.
  - intros t v ws _ IH _ [Ht _]%Forall_app. cbn. by rewrite IH.
  - intros t v ws1 ws2 t2 items _ IH _ _ _ IHl [Ht [_ [_ [_ Ht2]%Forall_app]%Forall_cons]%Forall_app]%Forall_app.
    cbn. by rewrite IH, IHl.
  - intros k key ws1 ws2 t v ws3 Hk _ _ _ IH _ [_ [Hks [_ [_ [_ [Ht _]%Forall_app]%Forall_app]%Forall_cons]%Forall_app]%Forall_app]%Forall_cons.
    cbn. by rewrite (string_decoded _ _ Hk), IH.
  - intros k key ws1 ws2 t v ws3 ws4 t2 l Hk _ _ _ IH _ _ _ IHl
      [_ [Hks [_ [_ [_ [Ht [_ [_ [_ Ht2]%Forall_app]%Forall_cons]%Forall_app]%Forall_app]%Forall_app]%Forall_cons]%Forall_app]%Forall_app]%Forall_cons.
    cbn. by rewrite (string_decoded _ _ Hk), IH, IHl.
Qed.

(** ** Joining surrogates changes nothing: it only refuses *)

Lemma normalize_unjoined s s' :
  unjoined s = true -> normalize_unicode_scalar_string s = Returned s' -> s' = s /\ scalar_string s = true.
Proof.
  revert s'. induction s as [|c s IH]; intros s' Hu Hn; [by injection Hn as <-|].
  cbn [normalize_unicode_scalar_string] in Hn. destruct (is_high c) eqn:Eh.
  { destruct s as [|l s]; [done|]. cbn in Hu. rewrite Eh in Hu. by destruct (is_low l). }
  destruct (is_low c) eqn:El; [done|]. apply obind_returned in Hn as (tail & Ht & [= <-]).
  cbn in Hu. apply andb_true_iff in Hu as [_ Hu]. destruct (IH _ Hu Ht) as [-> Hs].
  split; [done|]. unfold scalar_string in *. cbn. rewrite Hs.
  unfold is_surrogate, is_high, is_low in *. lia.
Qed.

Lemma normalize_decoded v v' :
  decoded v = true -> normalize_decoded_strings v = Returned v' ->
  v' = v /\ clean v = true /\ python_value v = true.
Proof.
  revert v'. induction v as [|b|z|f|s|l IH|l IH] using json_nested_ind; intros v' Hd Hn; cbn in Hd, Hn.
  1-3: by injection Hn as <-.
  - injection Hn as <-. by apply andb_true_iff in Hd as [].
  - apply andb_true_iff in Hd as [Hc Hu]. apply obind_returned in Hn as (s' & Hs & [= <-]).
    by destruct (normalize_unjoined s s' Hu Hs) as [-> ?].
  - apply obind_returned in Hn as (l' & Hl & [= <-]).
    enough (l' = l /\ forallb clean l = true /\ forallb python_value l = true) as (-> & ? & ?) by done.
    revert l' Hl. induction IH as [|a l Ha _ IHl]; intros l' Hl; cbn in Hl; [by injection Hl as <-|].
    apply obind_returned in Hl as (a' & Hna & (l'' & Hnl & [= <-])%obind_returned).
    cbn in Hd. apply andb_true_iff in Hd as [Hda Hdl].
    destruct (Ha a' Hda Hna) as (-> & Hc & Hp). destruct (IHl Hdl l'' Hnl) as (-> & Hcl & Hpl).
    cbn. by rewrite Hc, Hp.
  - apply obind_returned in Hn as ([l' updates] & Hl & [= <-]). apply andb_true_iff in Hd as [Hnd Hd].
    cbn [clean python_value fst snd]. rewrite Hnd.
    enough (l' = l /\ updates = [] /\ forallb (fun m => scalar_string m.1 && clean m.2) l = true /\
      forallb (fun m => forallb code_point m.1 && python_value m.2) l = true) as (-> & -> & -> & ->) by done.
    clear Hnd. revert Hl. generalize (l.*1). intros keys. revert l' updates.
    induction IH as [|[k a] l Ha _ IHl]; intros l' updates Hl; cbn in Hl; [by injection Hl as <- <-|].
    apply obind_returned in Hl as (a' & Hna & Hl). apply obind_returned in Hl as (k' & Hnk & Hl).
    apply obind_returned in Hl as (u & Hu & Hl). apply obind_returned in Hl as ([l'' us] & Hnl & [= <- <-]).
    cbn in Hd. apply andb_true_iff in Hd as [[Hdk Hda]%andb_true_iff Hdl].
    apply andb_true_iff in Hdk as [Hck Huk]. destruct (normalize_unjoined k k' Huk Hnk) as [-> Hsk].
    rewrite decide_True in Hu by done. injection Hu as <-. cbn [snd] in Ha.
    destruct (Ha a' Hda Hna) as (-> & Hc & Hp). destruct (IHl Hdl l'' us Hnl) as (-> & -> & Hcl & Hpl).
    cbn. by rewrite Hsk, Hck, Hc, Hp.
Qed.

Lemma utf8_encoded_scalars s b : utf8_encode s = Some b -> scalars s.
Proof.
  revert b. induction s as [|c s IH]; intros b Hb; [constructor|]. cbn in Hb.
  destruct (utf8_char c) as [bc|] eqn:Ec; [|done]. cbn in Hb. destruct (utf8_encode s) as [bs|]; [|done].
  constructor; [|by eapply IH]. unfold utf8_char in Ec.
  destruct ((c <? 0) || is_surrogate c || (1114111 <? c)) eqn:E; [done|].
  rewrite !orb_false_iff in E. unfold code_point. destruct E as [[E1 E2] E3]. split; [lia|done].
Qed.

(** ** The theorems *)

(** The documented errors of [json_deserialize]. *)
Definition decode_error (e : exn) : bool :=
  match e with
  | TypeError _ | ValueError _ => true
  | SerdeError FormatMismatch FORMAT_MISMATCH
  | SerdeError ContentTypeMismatch CONTENT_TYPE_MISMATCH
  | SerdeError UnsupportedVersion Serde.UNSUPPORTED_VERSION
  | SerdeError TrustProfileMismatch TRUST_PROFILE_MISMATCH
  | SerdeError PayloadLimit (INPUT_LIMIT | NESTING_LIMIT | INTEGER_DIGIT_LIMIT)
  | SerdeError MalformedPayload (INVALID_UTF8 | DUPLICATE_KEY | DECODE_NON_FINITE_NUMBER | INVALID_JSON) => true
  | _ => false
  end.

Lemma require_exact_error {A} (a : arg A) m e : require_exact a m = Raised e -> e = TypeError m.
Proof. by destruct a; [|intros [= <-]]. Qed.

Lemma text_run_error limit state text e :
  text_run limit state text = Raised e -> e = JsonSignalError NestingLimit.
Proof.
  revert state. induction text as [|c text IH]; intros state; cbn [text_run]; [done|].
  intros [H1|(a & _ & H1)]%obind_raised; [|by eapply IH].
  destruct state as [[inside escaped] depth]. unfold text_step in H1.
  repeat case_match; simplify_eq; apply obind_raised in H1 as [H1|(? & _ & ?)]; [by eapply orequire_raised|done].
Qed.

(** What the hooks of the decoder raise. *)
Definition signal (e : exn) : Prop :=
  e = JsonSignalError DuplicateKey \/ e = JsonSignalError NonFiniteNumber \/ e = JsonSignalError IntegerDigitLimit \/
  e = JsonSignalError UnpairedSurrogate.

Lemma strict_hooks_signal : hooks_raise_only strict_hooks signal.
Proof.
  unfold signal. split; cbn; unfold raises_only, parse_limited_int, parse_finite_float; intros t.
  - destruct (_ <? _); [|done]. auto.
  - destruct (is_finite _); [done|]. auto.
  - auto.
  - rewrite reject_duplicate_keys_spec by constructor. cbn. destruct (bool_decide _); cbn; auto.
Qed.

Lemma normalize_string_signal s e : normalize_unicode_scalar_string s = Raised e -> signal e.
Proof.
  unfold signal.
  revert e. induction s as [s IH] using (induction_ltof1 _ (@length Z)). unfold ltof in IH. intros e.
  destruct s as [|c s]; [done|]. cbn. destruct (is_high c).
  - destruct s as [|l s]; [intros [= <-]; auto|]. destruct (is_low l); [|intros [= <-]; auto].
    intros [Hs|(? & _ & ?)]%obind_raised; [|done]. eapply IH; [|done]. cbn. lia.
  - destruct (is_low c); [intros [= <-]; auto|].
    intros [Hs|(? & _ & ?)]%obind_raised; [|done]. eapply IH; [|done]. cbn. lia.
Qed.

Lemma normalize_signal v e : normalize_decoded_strings v = Raised e -> signal e.
Proof.
  revert e. induction v as [|b|z|f|s|l IH|l IH] using json_nested_ind; intros e Hn; cbn in Hn; try done.
  - apply obind_raised in Hn as [Hn|(? & _ & ?)]; [by eapply normalize_string_signal|done].
  - apply obind_raised in Hn as [Hn|(? & _ & ?)]; [|done].
    revert e Hn. induction IH as [|a l Ha _ IHl]; intros e Hn; cbn in Hn; [done|].
    apply obind_raised in Hn as [Hn|(? & _ & Hn)]; [by apply Ha|].
    apply obind_raised in Hn as [Hn|(? & _ & ?)]; [by apply IHl|done].
  - apply obind_raised in Hn as [Hn|(? & _ & ?)]; [|done]. revert e Hn. generalize (l.*1). intros keys.
    induction IH as [|[k a] l Ha _ IHl]; intros e Hn; cbn in Hn; [done|].
    apply obind_raised in Hn as [Hn|(? & _ & Hn)]; [by apply Ha|].
    apply obind_raised in Hn as [Hn|(? & _ & Hn)]; [by eapply normalize_string_signal|].
    apply obind_raised in Hn as [Hn|(? & _ & Hn)].
    + unfold signal. repeat case_decide; try done. injection Hn as <-. auto.
    + apply obind_raised in Hn as [Hn|(? & _ & ?)]; [by apply IHl|done].
Qed.

(** [C27] Whatever the payload and the arguments are, [json_deserialize] raises only
    the [TypeError] or [ValueError] of a bad argument or a [SerdeError] of the
    documented class and code: the private signals of the hooks and the errors of
    the decoder never leave it, and the reader never runs out of fuel. *)
Theorem json_deserialize_closed payload expected size depth :
  match json_deserialize payload expected size depth with
  | Returned _ => True
  | Raised e => decode_error e = true
  end.
Proof.
  destruct (json_deserialize _ _ _ _) as [|e] eqn:E; [done|]. revert e E.
  apply obind_closed.
  { intros e Hc. unfold validate_deserialize_configuration in Hc. revert e Hc.
    repeat (apply obind_closed; [by intros e ->%require_exact_error|intros ?]).
    repeat (apply obind_closed; [by intros e ->%orequire_raised|intros ?]). done. }
  intros [[[p m] n] d]. unfold validate_json_metadata, validate_actual_metadata.
  apply obind_closed.
  { repeat (apply obind_closed; [by intros e ->%orequire_raised|intros ?]). by intros e ->%orequire_raised. }
  intros _. apply obind_closed.
  { repeat (apply obind_closed; [by intros e ->%orequire_raised|intros ?]). by intros e ->%orequire_raised. }
  intros _. apply obind_closed; [by intros e ->%orequire_raised|intros _].
  apply obind_closed; [by intros e ->%oget_raised|intros text].
  apply obind_closed.
  { intros e. unfold preflight_json_text. destruct (text_run _ _ _) as [|e'] eqn:Et; cbn; [done|].
    apply text_run_error in Et as ->. by intros [= <-]. }
  intros _ e He.
  destruct (obind _ _) as [|e'] eqn:Ej; cbn in He; [done|]. injection He as <-.
  assert (e' = JSONDecodeError \/ signal e') as Hs.
  { apply obind_raised in Ej as [Ej|(v & _ & Ej)]; [|right; by eapply normalize_signal].
    by apply (json_loads_raises strict_hooks signal strict_hooks_signal) in Ej. }
  by destruct Hs as [-> |[-> |[-> |[-> | ->]]]].
Qed.

(** [C7] Whatever the bytes of the payload are, a value that [json_deserialize]
    returns nests no deeper than the limit, has integers of at most 640 digits,
    finite numbers, strings without surrogates, and each key of an object once. *)
Theorem json_deserialize_sound p m size depth v :
  json_deserialize (Exact p) (Exact m) (Exact size) (Exact depth) = Returned v ->
  json_depth v <= depth /\ clean v = true /\ python_value v = true.
Proof.
  intros Hv. apply obind_returned in Hv as (c & [Hl ->]%validate_deserialize_returned & Hv).
  apply obind_returned in Hv as (_ & _ & (_ & _ & (_ & _ & Hv)%obind_returned)%obind_returned).
  apply obind_returned in Hv as (text & Ht%oget_returned & Hv). apply utf8_encode_decode in Ht.
  apply obind_returned in Hv as ([] & Hp & Hv).
  assert (preflight_json_text text depth = Returned tt) as Hp' by (destruct (preflight_json_text _ _) as [[]|]; done).
  destruct (obind _ _) as [v'|] eqn:E; [|done]. injection Hv as ->.
  apply obind_returned in E as (v0 & Hload%json_loads_document & Hn).
  destruct Hload as (ws & t & ws' & -> & Hb & Hb' & Hvt).
  assert (decoded v0 = true) as Hd.
  { apply (proj1 grammar_decoded _ _ Hvt). apply utf8_encoded_scalars in Ht. unfold scalars in *.
    apply Forall_app in Ht as [_ [Ht _]%Forall_app]. done. }
  destruct (normalize_decoded _ _ Hd Hn) as (-> & Hc & Hpy). split; [|done].
  eapply (document_depth strict_hooks strict_flat depth); [apply Hl|exact Hp'|]. by exists ws, t, ws'.
Qed.
End Decoded.

(** ** At concrete inputs *)

Definition exponent_mark : pystr := [46; 48; 101].

(** A [repr] that is a JSON number: the sign, the mantissa and the exponent of the
    [float] itself. *)
Definition demo_repr (f : float) : pystr :=
  match f with
  | S754_zero s => (if s then [45] else []) ++ py "0.0e0"
  | S754_finite s m e => (if s then [45] else []) ++ decimal (Zpos m) ++ exponent_mark ++ int_repr e
  | _ => py "0.0"
  end.

Definition demo_float (text : pystr) : float :=
  match scan_integer text with
  | Some (integer, rest) =>
      let sign := match integer with 45 :: _ => true | _ => false end in
      match scan_exponent (scan_fraction rest).2 with
      | (_ :: exponent, _) =>
          match Z.abs (int_of_text integer) with
          | Zpos m =>
              let f := S754_finite sign m (int_of_text exponent) in
              if valid_binary 53 1024 f then f else f0
          | _ => S754_zero sign
          end
      | _ => S754_zero sign
      end
  | None => f0
  end.

#[export] Instance demo_text : FloatText := {| float_repr := demo_repr; float_of_text := demo_float |}.

Lemma unsigned_digits ds : unsigned_shape ds -> ds <> [] /\ digits ds.
Proof.
  intros [-> |(c & ds' & -> & Hc & Hd)]; [done|]. split; [done|]. unfold digits in *. cbn. rewrite Hd.
  unfold is_digit. lia.
Qed.

Definition exponent_shape (x : pystr) : Prop :=
  x = [] \/ exists es sgn, x = 101 :: sgn ++ es /\ es <> [] /\ digits es /\ (sgn = [] \/ sgn = [43] \/ sgn = [45]).

Lemma exponent_int e : exponent_shape (101 :: int_repr e).
Proof.
  destruct (int_repr_shape e) as (sgn & ds & -> & Hs & Hd). apply unsigned_digits in Hd as [Hne Hd].
  right. exists ds, sgn. split; [done|]. split; [done|]. split; [done|]. destruct Hs; auto.
Qed.

Lemma decimal_shape m : unsigned_shape (decimal (Zpos m)).
Proof.
  destruct (decimal_head (Zpos m)) as (c & s & E & Hc); [lia|].
  pose proof (decimal_digits (Zpos m)) as Hd. rewrite E in *. right. exists c, s. split; [done|]. split; [done|].
  specialize (Hd ltac:(lia)). cbn in Hd. by apply andb_true_iff in Hd as [_ Hd].
Qed.

Definition demo_sign (s : bool) : pystr := if s then [45] else [].

Lemma demo_sign_shape s : sign_shape (demo_sign s).
Proof. destruct s; [by right|by left]. Qed.

Lemma demo_repr_shape f : is_finite f = true -> float_shape (demo_repr f).
Proof.
  intros Hf. destruct f as [s| | |s m e]; try done.
  - exists (demo_sign s), [48], [46; 48], [101; 48]. split; [done|]. split; [apply demo_sign_shape|]. split; [by left|].
    split; [right; by exists [48]|]. split; [|done]. right. exists [48], []. auto.
  - exists (demo_sign s), (decimal (Zpos m)), [46; 48], (101 :: int_repr e). split; [done|].
    split; [apply demo_sign_shape|]. split; [apply decimal_shape|]. split; [right; by exists [48]|].
    split; [apply exponent_int|done].
Qed.

Lemma scan_demo s ds x :
  unsigned_shape ds -> exponent_shape (101 :: x) ->
  scan_integer (demo_sign s ++ ds ++ exponent_mark ++ x) = Some (demo_sign s ++ ds, exponent_mark ++ x) /\
  scan_exponent (scan_fraction (exponent_mark ++ x)).2 = (101 :: x, []).
Proof.
  intros Hd Hx. split; [apply scan_integer_app; [apply demo_sign_shape|done|done]|].
  change (scan_fraction (exponent_mark ++ x)) with (([46; 48], 101 :: x) : pystr * pystr). cbn [snd].
  pose proof (scan_exponent_app (101 :: x) [] Hx I) as H. by rewrite app_nil_r in H.
Qed.

#[export] Instance demo_laws : FloatLaws.
Proof.
  split.
  - intros f Hf _. by apply demo_repr_shape.
  - intros f Hf Hv. cbn. destruct f as [[]| | |s m e]; try done. unfold demo_repr, demo_float.
    change (if s then [45] else []) with (demo_sign s).
    destruct (scan_demo s (decimal (Zpos m)) (int_repr e) (decimal_shape m) (exponent_int e)) as [-> ->].
    assert (int_of_text (demo_sign s ++ decimal (Zpos m)) = if s then Zneg m else Zpos m) as ->.
    { destruct s; cbn [demo_sign app]; [change (45 :: decimal (Zpos m)) with (int_repr (Zneg m))|
        change (decimal (Zpos m)) with (int_repr (Zpos m))]; apply int_of_text_repr. }
    rewrite int_of_text_repr.
    assert ((match demo_sign s ++ decimal (Zpos m) with 45 :: _ => true | _ => false end) = s) as ->.
    { destruct s; [done|]. cbn [demo_sign app]. destruct (decimal_head (Zpos m)) as (c & t & -> & Hc); [lia|].
      repeat case_match; try done; lia. }
    replace (Z.abs (if s then Zneg m else Zpos m)) with (Zpos m) by (by destruct s). by rewrite Hv.
  - intros t. cbn. unfold demo_float. repeat case_match; done.
Qed.

Definition demo_json_metadata : PayloadMetadata :=
  {| pm_format := py "json"; pm_version := 1; pm_content_type := Some (py "application/json");
     pm_trust_profile := UNTRUSTED |}.

(** [{"a": [1, -0.5, None], "\n": True}] and its text. *)
Definition demo_object : pyobj :=
  ODict (Some 1)
    [(OStr (py "a"), OList (Some 2) [OInt 1; OFloat (S754_finite true 4503599627370496 (-53)); ONone]);
     (OStr [10], OBool true)].

Definition demo_json : json :=
  JObject [(py "a", JArray [JInt 1; JFloat (S754_finite true 4503599627370496 (-53)); JNull]); ([10], JBool true)].

Definition demo_json_payload : SerializedPayload :=
  {| sp_metadata := demo_json_metadata;
     sp_data := 123 :: encode_string (py "a") ++ py ":[1,-4503599627370496.0e-53,null]," ++ encode_string [10]
       ++ py ":true}" |}.

Lemma demo_serialized :
  json_serialize demo_object (Exact demo_json_metadata) (Exact 100) (Exact 2) = Returned demo_json_payload.
Proof. vm_compute. reflexivity. Qed.

Lemma json_payload_roundtrip_witness :
  json_deserialize (Exact demo_json_payload) (Exact demo_json_metadata) (Exact 100) (Exact 3) = Returned demo_json.
Proof.
  apply (json_payload_roundtrip demo_object demo_json demo_json_metadata 100 2);
    [reflexivity|vm_compute; reflexivity|exact demo_serialized|vm_compute; discriminate|lia|].
  unfold limits_ok, MAXSIZE, MAX_SUPPORTED_NESTING_DEPTH. lia.
Defined.

Lemma json_serialize_exact_limit_witness :
  exists b, utf8_encode (json_text demo_json) = Some b /\
    json_serialize demo_object (Exact demo_json_metadata) (Exact 10) (Exact 2) =
    if blen b <=? 10 then Returned {| sp_metadata := demo_json_metadata; sp_data := b |}
    else Raised (SerdeError PayloadLimit OUTPUT_LIMIT).
Proof.
  apply json_serialize_exact_limit; try (vm_compute; (reflexivity || discriminate)).
  - unfold limits_ok, MAXSIZE, MAX_SUPPORTED_NESTING_DEPTH. lia.
  - done.
Defined.

Lemma json_deserialize_sound_witness :
  json_depth demo_json <= 3 /\ clean demo_json = true /\ python_value demo_json = true.
Proof.
  apply (json_deserialize_sound demo_json_payload demo_json_metadata 100). vm_compute. reflexivity.
Defined.

(** Refused: a key twice, a number out of range, an unpaired surrogate, a container inside itself. *)
Definition raw_payload (text : pystr) : SerializedPayload := {| sp_metadata := demo_json_metadata; sp_data := text |}.

Definition read_raw (text : pystr) : outcome json :=
  json_deserialize (Exact (raw_payload text)) (Exact demo_json_metadata) (Exact 100) (Exact 2).

Definition quoted (text : pystr) : pystr := 34 :: text ++ [34].

Example refused_documents :
  read_raw (123 :: quoted (py "k") ++ py ":1," ++ quoted (py "k") ++ py ":2}") =
    Raised (SerdeError MalformedPayload DUPLICATE_KEY) /\
  read_raw (py "[NaN]") = Raised (SerdeError MalformedPayload DECODE_NON_FINITE_NUMBER) /\
  read_raw (py "[[[1]]]") = Raised (SerdeError PayloadLimit NESTING_LIMIT) /\
  read_raw (quoted (py "\ud800")) = Raised (SerdeError MalformedPayload INVALID_JSON) /\
  read_raw (quoted (py "\ud83d\ude00")) = Returned (JString [128512]) /\
  read_raw (py "[1,]") = Raised (SerdeError MalformedPayload INVALID_JSON) /\
  preflight_json_value (OList (Some 7) [OList (Some 7) []]) 5 100 = Raised (SerdeError SerdeEncode CIRCULAR_REFERENCE).
Proof. vm_compute. done. Qed.
