(* ===== verification/EnvelopeCodec.v ===== *)
(** * The result codec ([bluetape/cache/redis/_envelope.py])

    [ResultEnvelopeCodec] composes three parts of the caller's choice: a payload
    codec, an envelope format and a compressor with further decompressors.  They
    are records of callbacks here; [ReadsBack] is what a format promises, and the
    binary format keeps it. *)

From stdpp Require Import gmap.
From S2P Require Import Prelude Python Leader LeaseRecord Utf8 EnvelopeFormat.
Open Scope py_scope.
Open Scope Z_scope.

(** [try: m except EnvelopeError: raise except Exception: raise e]. *)
Definition or_raise {W A} (e : exn) (m : M W A) : M W A :=
  try_except m (fun error =>
    if is_EnvelopeError error then None else if is_Exception error then Some (raise e) else None).

(** [try: m except Exception: raise e]. *)
Definition or_raise_any {W A} (e : exn) (m : M W A) : M W A :=
  try_except m (fun error => if is_Exception error then Some (raise e) else None).

(** A result that must be of an exact class. *)
Definition exact_or {W A} (e : exn) (value : arg A) : M W A :=
  match value with Exact a => ret a | AnotherClass => raise e end.

Section Codec.
Context {W T : Type}.

(** The callbacks; [cp_algorithm] reads the attribute. *)
Record Compressor : Type := {
  cp_algorithm : M W (arg pystr);
  cp_compress : pybytes -> M W (arg pybytes);
  cp_decompress : pybytes -> M W (arg pybytes);
}.

Record PayloadCodec : Type := {
  pc_encode : T -> M W (arg SerializedPayload);
  pc_decode : SerializedPayload -> M W T;
}.

(** [ef_bound] is the [max_encoded_size] of a built-in format. *)
Record EnvelopeFormat : Type := {
  ef_bound : option Z;
  ef_encode : ResultEnvelope -> M W (arg pybytes);
  ef_decode : pybytes -> M W (arg ResultEnvelope);
}.

(** A [BinaryEnvelopeFormat] as a format. *)
Definition binary_format (f : BinaryEnvelopeFormat) : EnvelopeFormat := {|
  ef_bound := Some (bf_max_encoded_size f);
  ef_encode e := b <- pure_outcome (binary_encode f (Exact e)) ;; ret (Exact b);
  ef_decode b := e <- pure_outcome (binary_decode f (Exact b)) ;; ret (Exact e);
|}.

Definition identity : pystr := py "identity".

(** [_algorithm_for]. *)
Definition algorithm_for (compressor : Compressor) : M W pystr :=
  algorithm <- or_raise_any (ValueError "compressor algorithm cannot be read") (cp_algorithm compressor) ;;
  a <- pure_outcome (validate_algorithm algorithm) ;;
  raise_if (bool_decide (a = identity)) (ValueError "compressor algorithm identity is reserved") ;;
  ret a.

(** The loop of [_build_reader_registry]. *)
Fixpoint register_all (compressors : list Compressor) (registry : gmap pystr Compressor)
    : M W (gmap pystr Compressor) :=
  match compressors with
  | [] => ret registry
  | compressor :: rest =>
      algorithm <- algorithm_for compressor ;;
      raise_if (bool_decide (is_Some (registry !! algorithm)))
        (ValueError "compressor algorithm must be unique") ;;
      register_all rest (<[algorithm := compressor]> registry)
  end.

Definition build_reader_registry (writer : option Compressor) (readers : list Compressor)
    : M W (gmap pystr Compressor) :=
  register_all (option_list writer ++ readers) ∅.

(** [_validated_envelope]. *)
Definition validated_envelope (value : arg ResultEnvelope) : outcome ResultEnvelope :=
  match value with
  | AnotherClass => Raised (EnvelopeDecodeError Envelope.UNSUPPORTED_FORMAT)
  | Exact v =>
      match make_envelope (Exact (re_version v)) (Exact (re_owner_token v)) (Exact (re_metadata v))
              (Exact (re_compression_algorithm v)) (Exact (re_payload v)) with
      | Returned e => Returned e
      | Raised e => if is_TypeError_or_ValueError e then Raised malformed else Raised e
      end
  end.

Record ResultEnvelopeCodec : Type := {
  rc_payload_codec : PayloadCodec;
  rc_envelope_format : EnvelopeFormat;
  rc_compressor : option Compressor;
  rc_decompressors : list Compressor;
  rc_max_encoded_size : Z;
  rc_readers : gmap pystr Compressor;
}.

(** [ResultEnvelopeCodec(...)]; [decompressors] is [None] for a value that
    cannot be iterated. *)
Definition make_codec (payload_codec : PayloadCodec) (envelope_format : EnvelopeFormat)
    (compressor : option Compressor) (decompressors : option (list Compressor))
    (max_encoded_size : arg Z) : M W ResultEnvelopeCodec :=
  n <- pure_outcome (validate_max_encoded_size max_encoded_size) ;;
  readers <- pure_outcome (oget decompressors (TypeError "decompressors must be iterable")) ;;
  raise_if (match ef_bound envelope_format with Some bound => bound <? n | None => false end)
    (ValueError "built-in format bound must cover codec bound") ;;
  registry <- build_reader_registry compressor readers ;;
  ret {| rc_payload_codec := payload_codec; rc_envelope_format := envelope_format;
         rc_compressor := compressor; rc_decompressors := readers; rc_max_encoded_size := n;
         rc_readers := registry |}.

Variable c : ResultEnvelopeCodec.

(** The algorithm and the payload that [encode] writes. *)
Definition compressed (data : pybytes) : M W (pystr * pybytes) :=
  match rc_compressor c with
  | None => ret (identity, data)
  | Some compressor =>
      algorithm <- algorithm_for compressor ;;
      let failed := EnvelopeEncodeError Envelope.COMPRESSION_FAILURE in
      result <- or_raise_any failed (cp_compress compressor data) ;;
      payload <- exact_or failed result ;;
      ret (algorithm, payload)
  end.

(** [encode]. *)
Definition encode_value (owner_token : arg pystr) (value : T) : M W pybytes :=
  token <- pure_outcome (validate_owner_token owner_token) ;;
  let codec_failed := EnvelopeEncodeError Envelope.PAYLOAD_CODEC_FAILURE in
  result <- or_raise codec_failed (pc_encode (rc_payload_codec c) value) ;;
  serialized <- exact_or codec_failed result ;;
  let* (algorithm, payload) := compressed (sp_data serialized) in
  envelope <- pure_outcome (make_envelope (Exact 1) (Exact token) (Exact (sp_metadata serialized))
                              (Exact algorithm) (Exact payload)) ;;
  let format_failed := EnvelopeEncodeError Envelope.UNSUPPORTED_FORMAT in
  result <- or_raise format_failed (ef_encode (rc_envelope_format c) envelope) ;;
  encoded <- exact_or format_failed result ;;
  raise_if (rc_max_encoded_size c <? blen encoded) size_limit ;;
  ret encoded.

(** The logical bytes of an envelope. *)
Definition decompressed (envelope : ResultEnvelope) : M W pybytes :=
  if decide (re_compression_algorithm envelope = identity) then ret (re_payload envelope)
  else
    match rc_readers c !! re_compression_algorithm envelope with
    | None => raise (EnvelopeDecodeError Envelope.UNKNOWN_ALGORITHM)
    | Some reader =>
        let failed := EnvelopeDecodeError Envelope.COMPRESSION_FAILURE in
        result <- or_raise_any failed (cp_decompress reader (re_payload envelope)) ;;
        exact_or failed result
    end.

(** [decode_matching]. *)
Definition decode_matching (data : arg pybytes) (expected_owner_token : arg pystr) : M W (option T) :=
  d <- pure_outcome (require_exact data "data must be exact bytes") ;;
  token <- pure_outcome (validate_owner_token expected_owner_token) ;;
  raise_if (rc_max_encoded_size c <? blen d) size_limit ;;
  result <- or_raise (EnvelopeDecodeError Envelope.UNSUPPORTED_FORMAT)
              (ef_decode (rc_envelope_format c) d) ;;
  envelope <- pure_outcome (validated_envelope result) ;;
  raise_if (negb (re_version envelope =? 1)) (EnvelopeDecodeError Envelope.UNSUPPORTED_VERSION) ;;
  if bool_decide (re_owner_token envelope <> token) then ret None
  else
    logical <- decompressed envelope ;;
    value <- or_raise (EnvelopeDecodeError Envelope.PAYLOAD_CODEC_FAILURE)
               (pc_decode (rc_payload_codec c)
                  {| sp_metadata := re_metadata envelope; sp_data := logical |}) ;;
    ret (Some value).

(** [decode]: a mismatch and a decoded [None] both read as [None]. *)
Definition decode_value (data : arg pybytes) (expected_owner_token : arg pystr) (none : T) : M W T :=
  found <- decode_matching data expected_owner_token ;;
  ret (default none found).
End Codec.
Arguments Compressor : clear implicits.
Arguments PayloadCodec : clear implicits.
Arguments EnvelopeFormat : clear implicits.
Arguments ResultEnvelopeCodec : clear implicits.

(** ** What a format promises *)

(** An envelope that a format wrote reads back as it was. *)
Class ReadsBack {W} (f : EnvelopeFormat W) : Prop := reads_back :
  forall e w b w', valid_envelope e -> re_version e = ENVELOPE_VERSION -> Forall is_byte (re_payload e) ->
    ef_encode f e w = (Returned (Exact b), w') ->
    forall w2, exists w3, ef_decode f b w2 = (Returned (Exact e), w3).

#[export] Instance binary_format_reads_back {W} (f : BinaryEnvelopeFormat) :
  valid_format f -> ReadsBack (@binary_format W f).
Proof.
  intros Hf e w b w' Hval Hv Hp H w2. exists w2. cbn [ef_encode ef_decode binary_format] in *. unfold bind, pure_outcome, ret in *.
  destruct (binary_encode f (Exact e)) as [b'|] eqn:E; [|done]. injection H as -> _.
  apply binary_encode_layout in E as [Hl Hb]; [|done..].
  assert (binary_decode f (Exact b) = Returned e) as ->; [|done].
  apply binary_decode_body. split; [done|].
  eapply layout_decode_body; eauto using at_start, layout_bytes.
Qed.

(** ** Callbacks that always give one answer *)

Definition answers {W A} (m : M W A) (a : A) : Prop := forall w, exists w', m w = (Returned a, w').

Section Answers.
Context {W : Type}.

Lemma answers_ret {A} (a : A) : answers (W := W) (ret a) a.
Proof. intros w. by exists w. Qed.

Lemma answers_pure {A} (r : outcome A) a : r = Returned a -> answers (W := W) (pure_outcome r) a.
Proof. intros -> w. by exists w. Qed.

Lemma answers_raise_if e : answers (W := W) (raise_if false e) tt.
Proof. intros w. by exists w. Qed.

Lemma answers_bind {A B} (m : M W A) (k : A -> M W B) a b :
  answers m a -> answers (k a) b -> answers (bind m k) b.
Proof. intros Hm Hk w. destruct (Hm w) as [w1 E]. unfold bind. rewrite E. apply Hk. Qed.

Lemma answers_or_raise {A} e (m : M W A) a : answers m a -> answers (or_raise e m) a.
Proof. intros Hm w. destruct (Hm w) as [w1 E]. exists w1. unfold or_raise, try_except. by rewrite E. Qed.

Lemma answers_or_raise_any {A} e (m : M W A) a : answers m a -> answers (or_raise_any e m) a.
Proof. intros Hm w. destruct (Hm w) as [w1 E]. exists w1. unfold or_raise_any, try_except. by rewrite E. Qed.

Lemma codec_bind_inv {A B} (m : M W A) (k : A -> M W B) w b w' :
  bind m k w = (Returned b, w') -> exists a w1, m w = (Returned a, w1) /\ k a w1 = (Returned b, w').
Proof. unfold bind. destruct (m w) as [[a|] w1] eqn:E; [eauto|done]. Qed.

Lemma answers_inv {A} (m : M W A) a w b w' : answers m a -> m w = (Returned b, w') -> b = a.
Proof. intros Hm E. destruct (Hm w) as [w1 E1]. congruence. Qed.

Lemma or_raise_inv {A} e (m : M W A) w a w' :
  or_raise e m w = (Returned a, w') -> exists w1, m w = (Returned a, w1).
Proof.
  unfold or_raise, try_except. destruct (m w) as [[b|e'] w1]; [intros [= -> ->]; eauto|].
  destruct e'; cbn; repeat case_match; done.
Qed.

Lemma or_raise_any_inv {A} e (m : M W A) w a w' :
  or_raise_any e m w = (Returned a, w') -> exists w1, m w = (Returned a, w1).
Proof.
  unfold or_raise_any, try_except. destruct (m w) as [[b|e'] w1]; [intros [= -> ->]; eauto|].
  destruct e'; cbn; repeat case_match; done.
Qed.

Lemma raise_if_inv c e (w : W) u w' : raise_if c e w = (Returned u, w') -> c = false /\ w' = w.
Proof. destruct c; [done|]. by intros [= _ ->]. Qed.

Lemma exact_or_inv {A} e (v : arg A) (w : W) a w' : exact_or e v w = (Returned a, w') -> v = Exact a /\ w' = w.
Proof. destruct v; [by intros [= -> ->]|done]. Qed.
End Answers.

(** ** Round trip *)

Section RoundTrip.
Context {W T : Type}.

(** A compressor that gives the data back. *)
Definition faithful_compressor (k : Compressor W) (data : pybytes) : Prop :=
  exists a z, answers (cp_algorithm k) (Exact a) /\ answers (cp_compress k data) (Exact z) /\
    Forall is_byte z /\ answers (cp_decompress k z) (Exact data).

(** A payload codec that gives the value back. *)
Definition faithful_codec (pc : PayloadCodec W T) (v : T) (sp : SerializedPayload) : Prop :=
  answers (pc_encode pc v) (Exact sp) /\ answers (pc_decode pc sp) v /\
  valid_metadata (sp_metadata sp) /\ Forall is_byte (sp_data sp).

Lemma algorithm_for_inv (k : Compressor W) a w b w' :
  answers (cp_algorithm k) (Exact a) -> algorithm_for k w = (Returned b, w') ->
  b = a /\ a <> identity /\ short_text 64 algorithm_character a = true.
Proof.
  intros Ha (x & w1 & [w2 E1]%or_raise_any_inv & H)%codec_bind_inv.
  apply (answers_inv _ _ _ _ _ Ha) in E1 as ->. apply codec_bind_inv in H as (b' & w3 & E2 & H).
  apply codec_bind_inv in H as (u & w4 & [E3 _]%raise_if_inv & [= -> _]).
  apply bool_decide_eq_false in E3. unfold pure_outcome, validate_algorithm, orequire in E2. cbn in E2.
  destruct (short_text 64 algorithm_character a) eqn:Es; [|done]. by injection E2 as -> _.
Qed.

Lemma register_all_keeps (cs : list (Compressor W)) (reg : gmap pystr (Compressor W)) w reg' w' a k :
  register_all cs reg w = (Returned reg', w') -> reg !! a = Some k -> reg' !! a = Some k.
Proof.
  revert reg w. induction cs as [|x cs IH]; intros reg w; cbn [register_all]; [by intros [= -> _]|].
  intros (b & w1 & _ & H)%codec_bind_inv Hk. apply codec_bind_inv in H as (u & w2 & [Hn _]%raise_if_inv & H).
  apply bool_decide_eq_false in Hn. eapply IH; [exact H|]. rewrite lookup_insert_ne; [done|].
  intros ->. apply Hn. eauto.
Qed.

(** The codec reads what its own compressor wrote. *)
Lemma make_codec_reads pc ef k decs n w (c : ResultEnvelopeCodec W T) w' a :
  make_codec pc ef (Some k) decs n w = (Returned c, w') ->
  answers (cp_algorithm k) (Exact a) -> rc_readers c !! a = Some k.
Proof.
  intros (m & w1 & _ & H)%codec_bind_inv Ha. apply codec_bind_inv in H as (rs & w2 & _ & H).
  apply codec_bind_inv in H as (u & w3 & _ & H). apply codec_bind_inv in H as (reg & w4 & Hreg & [= <- _]).
  unfold build_reader_registry in Hreg. cbn in Hreg |- *.
  apply codec_bind_inv in Hreg as (b & w5 & Hb & Hreg). apply (algorithm_for_inv _ _ _ _ _ Ha) in Hb as [-> _].
  apply codec_bind_inv in Hreg as (u' & w6 & _ & Hreg).
  eapply register_all_keeps; [exact Hreg|]. apply lookup_insert_eq.
Qed.

Lemma make_codec_fields pc ef comp decs n w (c : ResultEnvelopeCodec W T) w' :
  make_codec pc ef comp decs n w = (Returned c, w') ->
  rc_payload_codec c = pc /\ rc_envelope_format c = ef /\ rc_compressor c = comp.
Proof.
  intros (m & w1 & _ & H)%codec_bind_inv. apply codec_bind_inv in H as (rs & w2 & _ & H).
  apply codec_bind_inv in H as (u & w3 & _ & H). by apply codec_bind_inv in H as (reg & w4 & _ & [= <- _]).
Qed.

(** What [compressed] wrote, [decompressed] reads. *)
Lemma compressed_reads_back pc ef comp decs n w0 (c : ResultEnvelopeCodec W T) w0' data w alg z w' e :
  make_codec pc ef comp decs n w0 = (Returned c, w0') ->
  match comp with Some k => faithful_compressor k data | None => Forall is_byte data end ->
  compressed c data w = (Returned (alg, z), w') ->
  short_text 64 algorithm_character alg = true /\ Forall is_byte z /\
  (re_compression_algorithm e = alg -> re_payload e = z -> answers (decompressed c e) data).
Proof.
  intros Hc Hk H. destruct (make_codec_fields _ _ _ _ _ _ _ _ Hc) as (_ & _ & Ecomp).
  unfold compressed, decompressed in *. rewrite Ecomp in H. destruct comp as [k|].
  - destruct Hk as (a & z' & Ha & Hz & Hb & Hd).
    apply codec_bind_inv in H as (b & w1 & E1 & H). apply (algorithm_for_inv _ _ _ _ _ Ha) in E1 as (-> & Hi & Hs).
    apply codec_bind_inv in H as (x & w2 & [w3 E2]%or_raise_any_inv & H).
    apply (answers_inv _ _ _ _ _ Hz) in E2 as ->. apply codec_bind_inv in H as (y & w4 & [[= ->] _]%exact_or_inv & [= <- <- _]).
    split_and!; [done|done|]. intros -> ->. rewrite decide_False by done.
    rewrite (make_codec_reads _ _ _ _ _ _ _ _ _ Hc Ha).
    eapply answers_bind; [by apply answers_or_raise_any|]. apply answers_ret.
  - injection H as <- <- _. split_and!; [done|done|]. intros -> ->. rewrite decide_True by done.
    apply answers_ret.
Qed.

Lemma validate_token_returned t t' :
  validate_owner_token (Exact t) = Returned t' <-> t' = t /\ short_text 128 token_character t = true.
Proof.
  unfold validate_owner_token, orequire. cbn.
  destruct (short_text 128 token_character t); cbn; split; try done; try (by intros [= ->]); by intros [-> ?].
Qed.

Lemma validated_valid e : valid_envelope e -> validated_envelope (Exact e) = Returned e.
Proof.
  intros (Hv & Ht & _ & Ha). unfold validated_envelope.
  rewrite (proj2 (make_envelope_returned _ _ _ _ _ e)); [done|]. by destruct e.
Qed.

(** What a successful [encode_value] went through. *)
Lemma encode_value_inv (c : ResultEnvelopeCodec W T) token v sp w b w' :
  answers (pc_encode (rc_payload_codec c) v) (Exact sp) ->
  encode_value c (Exact token) v w = (Returned b, w') ->
  blen b <= rc_max_encoded_size c /\ short_text 128 token_character token = true /\
  exists alg z w1 w2 w3 w4,
    compressed c (sp_data sp) w1 = (Returned (alg, z), w2) /\
    ef_encode (rc_envelope_format c)
      {| re_version := 1; re_owner_token := token; re_metadata := sp_metadata sp;
         re_compression_algorithm := alg; re_payload := z |} w3 = (Returned (Exact b), w4).
Proof.
  intros Hpc (t & w1 & [= E _] & H)%codec_bind_inv. apply validate_token_returned in E as [-> Ht].
  apply codec_bind_inv in H as (x & w2 & [w3 E]%or_raise_inv & H). apply (answers_inv _ _ _ _ _ Hpc) in E as ->.
  apply codec_bind_inv in H as (s & w4 & [[= <-] _]%exact_or_inv & H).
  apply codec_bind_inv in H as ([alg z] & w5 & Hcomp & H).
  apply codec_bind_inv in H as (e & w6 & [= He _] & H). apply make_envelope_returned in He as (-> & _).
  apply codec_bind_inv in H as (y & w7 & [w8 E]%or_raise_inv & H).
  apply codec_bind_inv in H as (b' & w9 & [-> _]%exact_or_inv & H).
  apply codec_bind_inv in H as (u & w10 & [Hb%Z.ltb_ge _]%raise_if_inv & [= -> _]).
  split; [done|]. split; [done|]. eauto 10.
Qed.

(** What was encoded reads as an envelope of its owner. *)
Definition after_envelope (c : ResultEnvelopeCodec W T) (e : ResultEnvelope) (token : pystr) : M W (option T) :=
  if bool_decide (re_owner_token e <> token) then ret None
  else
    logical <- decompressed c e ;;
    value <- or_raise (EnvelopeDecodeError Envelope.PAYLOAD_CODEC_FAILURE)
               (pc_decode (rc_payload_codec c)
                  {| sp_metadata := re_metadata e; sp_data := logical |}) ;;
    ret (Some value).

Lemma encoded_decodes pc ef comp decs n w0 (c : ResultEnvelopeCodec W T) w0' token v sp w b w' :
  make_codec pc ef comp decs n w0 = (Returned c, w0') ->
  ReadsBack ef -> faithful_codec pc v sp ->
  (forall k, comp = Some k -> faithful_compressor k (sp_data sp)) ->
  encode_value c (Exact token) v w = (Returned b, w') ->
  blen b <= rc_max_encoded_size c /\ short_text 128 token_character token = true /\
  exists e, re_owner_token e = token /\ answers (after_envelope c e token) (Some v) /\
    forall other r, short_text 128 token_character other = true -> answers (after_envelope c e other) r ->
      answers (decode_matching c (Exact b) (Exact other)) r.
Proof.
  intros Hc Hrb (Henc & Hdec & Hmeta & Hdata) Hk H.
  pose proof (make_codec_fields _ _ _ _ _ _ _ _ Hc) as (Epc & Eef & _). rewrite <-Epc in Henc, Hdec.
  destruct (encode_value_inv _ _ _ _ _ _ _ Henc H) as (Hb & Ht & alg & z & w1 & w2 & w3 & w4 & Hcomp & Hef).
  rewrite Eef in Hef. split; [done|]. split; [done|].
  set (e := Build_ResultEnvelope _ _ _ _ _) in Hef.
  destruct (compressed_reads_back pc ef comp decs n w0 c w0' (sp_data sp) w1 alg z w2 e Hc)
    as (Hs & Hz & Hread); [destruct comp; auto|exact Hcomp|].
  assert (valid_envelope e) as Hval by by split_and!.
  exists e. split; [done|]. split.
  - unfold after_envelope. rewrite bool_decide_eq_false_2 by (intros Hne; by apply Hne).
    eapply answers_bind; [by apply Hread|].
    eapply answers_bind; [apply answers_or_raise; by destruct sp|]. apply answers_ret.
  - intros other r Hother Hr. unfold decode_matching.
    eapply answers_bind; [by apply answers_pure|].
    eapply answers_bind; [by apply answers_pure, validate_token_returned|].
    rewrite (proj2 (Z.ltb_ge _ _) Hb). eapply answers_bind; [apply answers_raise_if|].
    eapply answers_bind; [apply answers_or_raise; rewrite Eef; intros w5; by apply (reads_back e w3 b w4)|].
    eapply answers_bind; [by apply answers_pure, validated_valid|].
    eapply answers_bind; [apply answers_raise_if|]. exact Hr.
Qed.

(** What a codec encodes for an owner reads back, for that owner, as nothing else. *)
Lemma encoded_reads_only pc ef comp decs n w0 (c : ResultEnvelopeCodec W T) w0' token v sp w b w' w1 v' w1' :
  make_codec pc ef comp decs n w0 = (Returned c, w0') ->
  ReadsBack ef -> faithful_codec pc v sp ->
  (forall k, comp = Some k -> faithful_compressor k (sp_data sp)) ->
  encode_value c (Exact token) v w = (Returned b, w') ->
  decode_matching c (Exact b) (Exact token) w1 = (Returned (Some v'), w1') -> v' = v.
Proof.
  intros Hc Hrb Hpc Hk H Hd.
  destruct (encoded_decodes _ _ _ _ _ _ _ _ _ _ _ _ _ _ Hc Hrb Hpc Hk H) as (_ & Ht & e & _ & Ha & Hdec).
  specialize (Hdec token _ Ht Ha). by apply (answers_inv _ _ _ _ _ Hdec) in Hd as [= ->].
Qed.

(** Round trip of results.  A codec over a format that reads back what it
    writes, and over a payload codec and a compressor that give their input
    back, decodes what it encoded for an owner: with the owner's token it finds
    the value, with another token it finds none. *)
Theorem codec_roundtrip pc ef comp decs n w0 (c : ResultEnvelopeCodec W T) w0' token v sp w b w' :
  make_codec pc ef comp decs n w0 = (Returned c, w0') ->
  ReadsBack ef -> faithful_codec pc v sp ->
  (forall k, comp = Some k -> faithful_compressor k (sp_data sp)) ->
  encode_value c (Exact token) v w = (Returned b, w') ->
  blen b <= rc_max_encoded_size c /\
  answers (decode_matching c (Exact b) (Exact token)) (Some v) /\
  (forall other, short_text 128 token_character other = true -> other <> token ->
     answers (decode_matching c (Exact b) (Exact other)) None).
Proof.
  intros Hc Hrb Hpc Hk H.
  destruct (encoded_decodes _ _ _ _ _ _ _ _ _ _ _ _ _ _ Hc Hrb Hpc Hk H) as (Hb & Ht & e & He & Ha & Hdec).
  split; [done|]. split; [by apply Hdec|]. intros other Hother Hne. apply Hdec; [done|].
  unfold after_envelope. rewrite bool_decide_eq_true_2 by congruence. apply answers_ret.
Qed.

(** An exception that [decode_matching] may raise: an envelope error, or one of
    the callbacks that no [except Exception] takes. *)
Definition decode_error (e : exn) : Prop := is_EnvelopeError e = true \/ is_Exception e = false.

Definition raises_only {W' A} (P : exn -> Prop) (m : M W' A) : Prop :=
  forall w e w', m w = (Raised e, w') -> P e.

Lemma raises_only_bind {A B} P (m : M W A) (k : A -> M W B) :
  raises_only P m -> (forall a w w1, m w = (Returned a, w1) -> raises_only P (k a)) ->
  raises_only P (bind m k).
Proof.
  intros Hm Hk w e w'. unfold bind. destruct (m w) as [[a|e'] w1] eqn:E.
  - intros H. by eapply Hk.
  - intros [= -> ->]. by eapply Hm.
Qed.

Lemma raises_only_wrapped {A} (m : M W A) handle :
  (forall e, handle e = None -> decode_error e) ->
  (forall e h, handle e = Some h -> raises_only decode_error h) ->
  raises_only decode_error (try_except m handle).
Proof.
  intros Hn Hs w e w'. unfold try_except. destruct (m w) as [[a|e'] w1]; [done|].
  assert (match handle e' with Some h => h w1 | None => (Raised e', w1) end = (Raised e, w') ->
          decode_error e) as Hh.
  { destruct (handle e') as [h|] eqn:E; [by eapply Hs|]. intros [= <- _]. auto. }
  destruct e'; try exact Hh. intros [= <- _]. by right.
Qed.

Lemma raises_only_or_raise {A} (m : M W A) code :
  raises_only decode_error (or_raise (EnvelopeDecodeError code) m).
Proof.
  apply raises_only_wrapped.
  - intros e. destruct (is_EnvelopeError e) eqn:E1; [by left|]. destruct (is_Exception e) eqn:E2; [done|]. by right.
  - intros e h. destruct (is_EnvelopeError e), (is_Exception e); try done.
    intros [= <-] w e' w' [= <- _]. by left.
Qed.

Lemma raises_only_or_raise_any {A} (m : M W A) code :
  raises_only decode_error (or_raise_any (EnvelopeDecodeError code) m).
Proof.
  apply raises_only_wrapped.
  - intros e. destruct (is_Exception e) eqn:E2; [done|]. by right.
  - intros e h. destruct (is_Exception e); try done. intros [= <-] w e' w' [= <- _]. by left.
Qed.

Lemma raises_only_ret {A} P (a : A) : raises_only P (ret (W := W) a).
Proof. by intros w e w'. Qed.

Lemma raises_only_raise {A} (P : exn -> Prop) e : P e -> raises_only P (@raise W A e).
Proof. by intros He w e' w' [= <- _]. Qed.

Lemma make_envelope_value_error v t m a p e :
  make_envelope (Exact v) (Exact t) (Exact m) (Exact a) (Exact p) = Raised e ->
  is_TypeError_or_ValueError e = true.
Proof.
  unfold make_envelope, validate_owner_token, validate_algorithm. cbn [require_exact obind].
  unfold orequire. destruct (0 <? v); cbn [obind]; [|by intros [= <-]].
  destruct (short_text 128 _ t); cbn [obind]; [|by intros [= <-]].
  destruct (short_text 64 _ a); cbn [obind]; [done|by intros [= <-]].
Qed.

Lemma validated_envelope_error value e : validated_envelope value = Raised e -> decode_error e.
Proof.
  unfold validated_envelope. destruct value as [v|]; [|intros [= <-]; by left].
  destruct (make_envelope _ _ _ _ _) as [|e'] eqn:E; [done|]. apply make_envelope_value_error in E.
  rewrite E. intros [= <-]. by left.
Qed.

Lemma raises_only_pure {A} (P : exn -> Prop) (r : outcome A) :
  (forall e, r = Raised e -> P e) -> raises_only P (@pure_outcome W A r).
Proof. intros Hr w e w' [= E _]. auto. Qed.

Lemma raises_only_raise_if (P : exn -> Prop) c e : P e -> raises_only P (@raise_if W c e).
Proof. destruct c; [apply raises_only_raise|intros _; apply raises_only_ret]. Qed.

(** Whatever bytes Redis holds and whatever the caller's callbacks do,
    decoding ends with a value, with no match, or with an exception that is an
    envelope error or no [Exception] at all: the errors of a codec, of a
    compressor or of a format never reach the caller bare. *)
Theorem decode_matching_closed (c : ResultEnvelopeCodec W T) d token w :
  short_text 128 token_character token = true ->
  match fst (decode_matching c (Exact d) (Exact token) w) with
  | Returned _ => blen d <= rc_max_encoded_size c
  | Raised e => is_EnvelopeError e = true \/ is_Exception e = false
  end.
Proof.
  intros Ht. destruct (decode_matching c (Exact d) (Exact token) w) as [[v|e] w'] eqn:E; cbn.
  - apply codec_bind_inv in E as (? & ? & [= <- _] & E). apply codec_bind_inv in E as (? & ? & _ & E).
    by apply codec_bind_inv in E as (? & ? & [E%Z.ltb_ge _]%raise_if_inv & _).
  - revert w e w' E. change (raises_only decode_error (decode_matching c (Exact d) (Exact token))).
    apply raises_only_bind; [by apply raises_only_pure|]. intros x _ _ _.
    apply raises_only_bind; [|intros t _ _ _].
    { apply raises_only_pure. intros e. by rewrite (proj2 (validate_token_returned token token)). }
    apply raises_only_bind; [apply raises_only_raise_if; by left|intros _ _ _ _].
    apply raises_only_bind; [apply raises_only_or_raise|intros r _ _ _].
    apply raises_only_bind; [apply raises_only_pure, validated_envelope_error|intros e _ _ _].
    apply raises_only_bind; [apply raises_only_raise_if; by left|intros _ _ _ _].
    destruct (bool_decide _); [apply raises_only_ret|].
    apply raises_only_bind; [|intros l _ _ _].
    + unfold decompressed. destruct (decide _); [apply raises_only_ret|].
      destruct (_ !! _); [|apply raises_only_raise; by left].
      apply raises_only_bind; [apply raises_only_or_raise_any|intros v _ _ _].
      destruct v; [apply raises_only_ret|apply raises_only_raise; by left].
    + apply raises_only_bind; [apply raises_only_or_raise|intros v _ _ _]. apply raises_only_ret.
Qed.
End RoundTrip.

(** ** Witnesses *)

Section Witnesses.
(** Texts as their own payload, and a compressor that writes the bytes twice. *)
Definition text_codec : PayloadCodec unit pybytes := {|
  pc_encode v := ret (Exact {| sp_metadata := demo_metadata 2; sp_data := v |});
  pc_decode sp := ret (sp_data sp);
|}.

Definition twice : Compressor unit := {|
  cp_algorithm := ret (Exact (py "twice"));
  cp_compress d := ret (Exact (d ++ d));
  cp_decompress z := ret (Exact (take (length z / 2) z));
|}.

Definition demo_codec : ResultEnvelopeCodec unit pybytes := {|
  rc_payload_codec := text_codec; rc_envelope_format := binary_format demo_format;
  rc_compressor := Some twice; rc_decompressors := []; rc_max_encoded_size := 512;
  rc_readers := {[py "twice" := twice]};
|}.

Lemma demo_codec_made :
  make_codec text_codec (binary_format demo_format) (Some twice) (Some []) (Exact 512) tt
  = (Returned demo_codec, tt).
Proof. reflexivity. Qed.

Lemma codec_roundtrip_witness :
  exists b, encode_value demo_codec (Exact (py "me")) [7; 8] tt = (Returned b, tt) /\
    answers (decode_matching demo_codec (Exact b) (Exact (py "me"))) (Some [7; 8]).
Proof.
  eexists. split; [vm_compute; reflexivity|].
  eapply (codec_roundtrip text_codec _ (Some twice) _ _ _ demo_codec _ (py "me") [7; 8]
    {| sp_metadata := demo_metadata 2; sp_data := [7; 8] |} tt _ tt demo_codec_made).
  - apply binary_format_reads_back. unfold valid_format. vm_compute. by split.
  - split; [intros w; by eexists|]. split; [intros w; by eexists|]. split; [by vm_compute|].
    repeat constructor; done.
  - intros k [= <-]. exists (py "twice"), [7; 8; 7; 8]. split; [intros w; by eexists|].
    split; [intros w; by eexists|]. split; [repeat constructor; done|intros w; by eexists].
  - vm_compute. reflexivity.
Defined.

Lemma decode_matching_closed_witness :
  fst (decode_matching demo_codec (Exact [66; 84]) (Exact (py "me")) tt) = Raised malformed /\
  (is_EnvelopeError malformed = true \/ is_Exception malformed = false).
Proof.
  split; [reflexivity|].
  exact (decode_matching_closed demo_codec [66; 84] (py "me") tt eq_refl).
Defined.
End Witnesses.
