(* ===== verification/EnvelopeJson.v ===== *)
(** * The JSON result envelope ([bluetape/cache/redis/_formats.py])

    The second built-in format of EnvelopeCodec.v: one compact ASCII document
    whose keys come in a fixed order.  Reading goes through the decoder of the
    standard library (JsonText.v) with a hook that refuses repeated keys, and with
    the room that the interpreter has left for brackets inside each other. *)

From Stdlib Require Import SpecFloat.
From S2P Require Import Prelude Python Leader LeaseRecord Utf8 Codec PyObject JsonText JsonTextLaws EnvelopeFormat EnvelopeCodec.
Open Scope py_scope.
Open Scope Z_scope.

(** ** The standard library *)

(** [base64.b64encode] and [base64.b64decode(text, validate=True)] with the
    standard alphabet, which has [+] and [/] where the other has [-] and [_]. *)
Definition std_char (c : Z) : Z := if c =? 45 then 43 else if c =? 95 then 47 else c.

Definition b64encode_std (data : pybytes) : pystr := map std_char (urlsafe_b64encode data).

Definition b64decode_std (text : pystr) : option pybytes :=
  if existsb (fun c => (c =? 45) || (c =? 95)) text then None else b64decode text.

(** How many brackets inside each other the decoder may enter before the
    interpreter raises [RecursionError]: some hundreds, and two at least. *)
Class RecursionRoom : Type := {
  recursion_room : nat;
  recursion_room_two : (2 <= recursion_room)%nat;
}.

(** The interpreter converts integers of at most 4300 digits to text and back. *)
Definition MAX_STR_DIGITS : Z := 4300.

Definition digit_count (text : pystr) : Z := slen (List.filter is_digit text).

Definition int_limit : exn := ValueError "Exceeds the limit (4300 digits) for integer string conversion".

(** [str(value).encode("ascii")] of an integer. *)
Definition str_int (value : Z) : outcome pystr :=
  let? _ := orequire (digit_count (int_repr value) <=? MAX_STR_DIGITS) int_limit in
  Returned (int_repr value).

(** [\uXXXX]. *)
Definition unit_escape (u : Z) : pystr :=
  [92; 117; hex_low (u / 4096); hex_low (u / 256 mod 16); hex_low (u / 16 mod 16); hex_low (u mod 16)].

(** A character of a string that is written with [ensure_ascii=True]. *)
Definition ascii_escape (c : Z) : pystr :=
  if c =? 34 then [92; 34]
  else if c =? 92 then [92; 92]
  else if c =? 10 then [92; 110]
  else if c =? 13 then [92; 114]
  else if c =? 9 then [92; 116]
  else if c =? 12 then [92; 102]
  else if c =? 8 then [92; 98]
  else if (32 <=? c) && (c <=? 126) then [c]
  else if c <? 65536 then unit_escape c
  else unit_escape (55296 + (c - 65536) / 1024) ++ unit_escape (56320 + (c - 65536) mod 1024).

(** ** The format *)

(** [_json_string]. *)
Definition json_string (value : pystr) : pybytes := 34 :: flat_map ascii_escape value ++ [34].

(** [_object_no_duplicates]; the keys of a document are strings. *)
Fixpoint collect_members (pairs result : list (pystr * json)) : outcome (list (pystr * json)) :=
  match pairs with
  | [] => Returned result
  | (key, value) :: rest =>
      let? _ := orequire (negb (bool_decide (key ∈ result.*1))) malformed in
      collect_members rest (result ++ [(key, value)])
  end.

Definition object_no_duplicates (pairs : list (pystr * json)) : outcome json :=
  let? members := collect_members pairs [] in Returned (JObject members).

(** [JsonEnvelopeFormat]: its [max_encoded_size]. *)
Record JsonEnvelopeFormat : Type := { jf_max_encoded_size : Z }.

Definition make_json_format (max_encoded_size : arg Z) : outcome JsonEnvelopeFormat :=
  let? n := validate_max_encoded_size max_encoded_size in
  Returned {| jf_max_encoded_size := n |}.

(** The check of the content type before anything is written. *)
Definition check_content_type (content_type : option pystr) : outcome unit :=
  match content_type with
  | None => Returned tt
  | Some s =>
      let? content_bytes := oget (utf8_encode s) UnicodeError in
      orequire (blen content_bytes <=? MAX_CONTENT_TYPE_SIZE) (ValueError "content type exceeds its encoded size limit")
  end.

(** Everything before the payload. *)
Definition json_prefix (e : ResultEnvelope) : outcome pybytes :=
  let m := re_metadata e in
  let owner := json_string (re_owner_token e) in
  let serde_format := json_string (pm_format m) in
  let content_type := match pm_content_type m with None => py "null" | Some s => json_string s end in
  let trust_profile := json_string (trust_value (pm_trust_profile m)) in
  let algorithm := json_string (re_compression_algorithm e) in
  let? version := str_int (re_version e) in
  let? serde_version := str_int (pm_version m) in
  Returned ([123; 34] ++ py "version" ++ [34; 58] ++ version
    ++ [44; 34] ++ py "owner_token" ++ [34; 58] ++ owner
    ++ [44; 34] ++ py "metadata" ++ [34; 58; 123; 34] ++ py "format" ++ [34; 58] ++ serde_format
    ++ [44; 34] ++ py "version" ++ [34; 58] ++ serde_version
    ++ [44; 34] ++ py "content_type" ++ [34; 58] ++ content_type
    ++ [44; 34] ++ py "trust_profile" ++ [34; 58] ++ trust_profile
    ++ [125; 44; 34] ++ py "compression" ++ [34; 58] ++ algorithm
    ++ [44; 34] ++ py "payload" ++ [34; 58; 34]).

(** [JsonEnvelopeFormat.encode]. *)
Definition json_envelope_encode (format : JsonEnvelopeFormat) (envelope : arg ResultEnvelope) : outcome pybytes :=
  let? e := require_exact envelope "envelope must be an exact ResultEnvelope" in
  let? _ := check_content_type (pm_content_type (re_metadata e)) in
  let payload_length := 4 * ((blen (re_payload e) + 2) / 3) in
  let? prefix := json_prefix e in
  let predicted_size := blen prefix + payload_length + 2 in
  let? _ := ensure_bound predicted_size (jf_max_encoded_size format) in
  let encoded := prefix ++ b64encode_std (re_payload e) ++ [34; 125] in
  let? _ := ensure_bound (blen encoded) (jf_max_encoded_size format) in
  Returned encoded.

Section Decoding.
Context `{FloatText} `{RecursionRoom}.

(** The hooks of [JSONDecoder(object_pairs_hook=...)], the other three its own. *)
Definition parse_int (text : pystr) : outcome json :=
  let? _ := orequire (digit_count text <=? MAX_STR_DIGITS) int_limit in
  Returned (JInt (int_of_text text)).

Definition parse_constant (text : pystr) : outcome json :=
  Returned (JFloat
    (if bool_decide (text = py "NaN") then S754_nan
     else S754_infinity (bool_decide (text = py "-Infinity")))).

Definition envelope_hooks : json_hooks :=
  {| hk_int := parse_int;
     hk_float := fun text => Returned (JFloat (float_of_text text));
     hk_constant := parse_constant;
     hk_object := object_no_duplicates |}.

Definition DOCUMENT_KEYS : list pystr :=
  [py "version"; py "owner_token"; py "metadata"; py "compression"; py "payload"].
Definition METADATA_KEYS : list pystr := [py "format"; py "version"; py "content_type"; py "trust_profile"].

(** [type(value) is not dict or list(value) != keys]. *)
Definition object_with (keys : list pystr) (value : json) : outcome (list (pystr * json)) :=
  match value with
  | JObject members => let? _ := orequire (bool_decide (members.*1 = keys)) malformed in Returned members
  | _ => Raised malformed
  end.

(** [document[key]]. *)
Fixpoint subscript (members : list (pystr * json)) (key : pystr) : outcome json :=
  match members with
  | [] => Raised KeyError
  | (k, value) :: rest => if bool_decide (k = key) then Returned value else subscript rest key
  end.

(** [type(value) is not str], [type(value) is not int]. *)
Definition exact_str (value : json) : outcome pystr :=
  match value with JString s => Returned s | _ => Raised malformed end.
Definition exact_int (value : json) : outcome Z :=
  match value with JInt n => Returned n | _ => Raised malformed end.

(** The payload of its canonical Base64 text. *)
Definition decode_payload (payload_text : pystr) : outcome pybytes :=
  let? _ := orequire (is_ascii payload_text) malformed in
  let? payload := oget (b64decode_std payload_text) malformed in
  let? _ := orequire (bool_decide (b64encode_std payload = payload_text)) malformed in
  Returned payload.

Definition decode_content_type (value : json) : outcome (option pystr) :=
  match value with
  | JNull => Returned None
  | JString s =>
      let? encoded := oget (utf8_encode s) UnicodeError in
      let? _ := orequire (blen encoded <=? MAX_CONTENT_TYPE_SIZE) malformed in
      Returned (Some s)
  | _ => Raised malformed
  end.

(** The body of the [try] of [JsonEnvelopeFormat.decode] after the text is read. *)
Definition envelope_of_document (value : json) : outcome ResultEnvelope :=
  let? document := object_with DOCUMENT_KEYS value in
  let? metadata_value := subscript document (py "metadata") in
  let? metadata_document := object_with METADATA_KEYS metadata_value in
  let? version := obind (subscript document (py "version")) exact_int in
  let? _ := orequire (version =? ENVELOPE_VERSION) (EnvelopeDecodeError Envelope.UNSUPPORTED_VERSION) in
  let? owner_token := obind (subscript document (py "owner_token")) exact_str in
  let? compression := obind (subscript document (py "compression")) exact_str in
  let? payload_text := obind (subscript document (py "payload")) exact_str in
  let? payload := decode_payload payload_text in
  let? serde_format := obind (subscript metadata_document (py "format")) exact_str in
  let? serde_version := obind (subscript metadata_document (py "version")) exact_int in
  let? content_type := obind (subscript metadata_document (py "content_type")) decode_content_type in
  let? trust := obind (subscript metadata_document (py "trust_profile")) exact_str in
  let? profile := trust_of_value trust in
  let? metadata := make_metadata (Exact serde_format) (Exact serde_version) (Exact <$> content_type) (Exact profile) in
  make_envelope (Exact version) (Exact owner_token) (Exact metadata) (Exact compression) (Exact payload).

(** [decoder.raw_decode(text)], which must take all of the text. *)
Definition read_document (text : pystr) : outcome json :=
  let? (document, rest) := scan_value envelope_hooks (scan_fuel text) (Some recursion_room) text in
  match rest with [] => Returned document | _ => Raised malformed end.

Definition json_decode_body (data : pybytes) : outcome ResultEnvelope :=
  let? text := oget (utf8_decode data) UnicodeError in
  let? document := read_document text in
  envelope_of_document document.

(** [JsonEnvelopeFormat.decode]. *)
Definition json_envelope_decode (format : JsonEnvelopeFormat) (data : arg pybytes) : outcome ResultEnvelope :=
  let? d := require_exact data "data must be exact bytes" in
  let? _ := ensure_bound (blen d) (jf_max_encoded_size format) in
  match json_decode_body d with
  | Returned e => Returned e
  | Raised (EnvelopeDecodeError code) => Raised (EnvelopeDecodeError code)
  | Raised e => if is_TypeError_or_ValueError e then Raised malformed else Raised e
  end.

(** A [JsonEnvelopeFormat] as a format of the result codec. *)
Definition json_format {W} (f : JsonEnvelopeFormat) : EnvelopeFormat W := {|
  ef_bound := Some (jf_max_encoded_size f);
  ef_encode e := b <- pure_outcome (json_envelope_encode f (Exact e)) ;; ret (Exact b);
  ef_decode b := e <- pure_outcome (json_envelope_decode f (Exact b)) ;; ret (Exact e);
|}.
End Decoding.

(** ** Strings *)

(** A character that UTF-8 can encode. *)
Definition scalar (c : Z) : Prop := 0 <= c <= 1114111 /\ is_surrogate c = false.

Lemma hex_low_value v : 0 <= v < 16 -> hex_digit_value (hex_low v) = Some v /\ 48 <= hex_low v <= 102.
Proof.
  intros Hv. assert (v ∈ seqZ 0 16) as Hin by (apply elem_of_seqZ; lia).
  clear Hv. revert v Hin. apply Forall_forall. vm_compute. repeat constructor; discriminate.
Qed.

Lemma unit_hex u : 0 <= u < 65536 ->
  four_hex (hex_low (u / 4096)) (hex_low (u / 256 mod 16)) (hex_low (u / 16 mod 16)) (hex_low (u mod 16)) = Some u.
Proof.
  intros Hu. unfold four_hex. rewrite !(fun v H => proj1 (hex_low_value v H)) by divide. cbn. f_equal. divide.
Qed.

Lemma unit_escape_ascii u : 0 <= u < 65536 -> Forall (fun c => 0 <= c < 128) (unit_escape u).
Proof.
  intros Hu. pose proof (fun v H => proj2 (hex_low_value v H)) as Hh. unfold unit_escape.
  pose proof (Hh (u / 4096) ltac:(divide)). pose proof (Hh (u / 256 mod 16) ltac:(divide)).
  pose proof (Hh (u / 16 mod 16) ltac:(divide)). pose proof (Hh (u mod 16) ltac:(divide)).
  repeat constructor; lia.
Qed.

Lemma scan_pair high low rest :
  0 <= high < 65536 -> 0 <= low < 65536 -> is_high high = true -> is_low low = true ->
  scan_string (unit_escape high ++ unit_escape low ++ rest) = push (join_surrogates high low) (scan_string rest).
Proof.
  intros Hh Hl Eh El. unfold unit_escape. cbn [app scan_string Z.eqb Pos.eqb].
  rewrite !unit_hex by done. by rewrite Eh, El.
Qed.

Lemma scalar_bounds c : scalar c <-> 0 <= c <= 1114111 /\ (c < 55296 \/ 57343 < c).
Proof. unfold scalar, is_surrogate. rewrite andb_false_iff, !Z.leb_gt. done. Qed.

Lemma scan_ascii_escape c rest :
  scalar c -> scan_string (ascii_escape c ++ rest) = push c (scan_string rest).
Proof.
  intros [Hc Hs]%scalar_bounds. unfold ascii_escape.
  repeat match goal with |- context [if c =? ?k then _ else _] =>
    destruct (Z.eqb_spec c k) as [->|?]; [reflexivity|] end.
  destruct (Z.leb_spec 32 c), (Z.leb_spec c 126); cbn [andb]; [apply scan_string_plain; lia|..].
  all: destruct (Z.ltb_spec c 65536);
    [unfold unit_escape; cbn [app]; apply scan_unit; [apply unit_hex; lia|unfold is_high; lia]
    |rewrite <-app_assoc, scan_pair by (unfold is_high, is_low; divide); f_equal; unfold join_surrogates; divide].
Qed.

Lemma ascii_escape_ascii c : scalar c -> Forall (fun c => 0 <= c < 128) (ascii_escape c).
Proof.
  intros [Hc Hs]%scalar_bounds. unfold ascii_escape.
  repeat match goal with |- context [if c =? ?k then _ else _] =>
    destruct (Z.eqb_spec c k); [repeat constructor; done|] end.
  destruct (Z.leb_spec 32 c), (Z.leb_spec c 126); cbn [andb]; [repeat constructor; lia|..].
  all: destruct (Z.ltb_spec c 65536); [apply unit_escape_ascii; lia|].
  all: apply Forall_app_2; apply unit_escape_ascii; divide.
Qed.

Lemma json_string_ascii s : Forall scalar s -> Forall (fun c => 0 <= c < 128) (json_string s).
Proof.
  intros Hs. unfold json_string. constructor; [done|]. apply Forall_app_2; [|by repeat constructor].
  induction Hs as [|c s Hc _ IH]; [done|]. apply Forall_app_2; [by apply ascii_escape_ascii|done].
Qed.

Lemma scan_json_string s rest :
  Forall scalar s -> scan_string (flat_map ascii_escape s ++ 34 :: rest) = Returned (s, rest).
Proof.
  induction 1 as [|c s Hc _ IH]; [done|]. cbn [flat_map]. by rewrite <-app_assoc, scan_ascii_escape, IH.
Qed.

Lemma utf8_encode_scalar s b : utf8_encode s = Some b -> Forall scalar s.
Proof.
  revert b. induction s as [|c s IH]; intros b; cbn; [done|]. destruct (utf8_char c) as [bc|] eqn:Ec; [|done].
  cbn. destruct (utf8_encode s) as [bs|]; [|done]. intros _. constructor; [|by eapply IH].
  unfold utf8_char in Ec. destruct (_ || _) eqn:E; [done|]. unfold scalar.
  destruct (is_surrogate c); bool_to_prop; [done|]. split; [lia|done].
Qed.

Lemma ascii_scalar c : 0 <= c < 128 -> scalar c.
Proof. unfold scalar, is_surrogate. intros. split; [lia|]. apply andb_false_iff. left. apply Z.leb_gt. lia. Qed.

Lemma utf8_decode_ascii s : Forall (fun c => 0 <= c < 128) s -> utf8_decode s = Some s.
Proof.
  induction 1 as [|c s Hc _ IH]; [done|]. cbn -[utf8_two].
  rewrite (proj2 (Z.leb_le _ _)), (proj2 (Z.ltb_lt _ _)) by lia. cbn. by rewrite IH.
Qed.

(** ** Base64 with the standard alphabet *)

Lemma sextet_std c : sextet (std_char c) = sextet c.
Proof.
  unfold std_char. destruct (Z.eqb_spec c 45) as [->|]; [done|]. by destruct (Z.eqb_spec c 95) as [->|].
Qed.

Lemma std_padding c : (std_char c =? 61) = (c =? 61).
Proof.
  unfold std_char. destruct (Z.eqb_spec c 45) as [->|]; [done|]. by destruct (Z.eqb_spec c 95) as [->|].
Qed.

Lemma a2b_std text quad left pads : a2b_loop (map std_char text) quad left pads = a2b_loop text quad left pads.
Proof.
  revert quad left pads. induction text as [|c text IH]; intros; [done|]. cbn [map a2b_loop].
  rewrite std_padding, sextet_std, !IH.
  destruct (c =? 61); [destruct (_ && _); [by destruct text|done]|].
  destruct (sextet c); [|done]. by rewrite !IH.
Qed.

Lemma std_not_url text : existsb (fun c => (c =? 45) || (c =? 95)) (map std_char text) = false.
Proof.
  induction text as [|c text IH]; [done|]. cbn [map existsb]. rewrite IH, orb_false_r. unfold std_char.
  destruct (Z.eqb_spec c 45); [done|]. destruct (Z.eqb_spec c 95); [done|]. lia.
Qed.

Lemma b64decode_loop text : (forall rest, text <> 61 :: rest) -> b64decode text = a2b_loop text 0 0 0.
Proof.
  intros H. unfold b64decode. destruct text as [|c rest]; [done|].
  destruct (Z.eq_dec c 61) as [->|Hc]; [by destruct (H rest)|].
  destruct c as [|p|p]; try done. do 6 (destruct p as [p|p|]; try done).
Qed.

Lemma b64_std_roundtrip data : Forall is_byte data -> b64decode_std (b64encode_std data) = Some data.
Proof.
  intros Hd. unfold b64decode_std, b64encode_std. rewrite std_not_url.
  rewrite b64decode_loop, a2b_std by
    (intros rest E; pose proof (bytes_head data Hd) as Hh; destruct data; [done|];
     destruct (Hh ltac:(done)) as (c & r & Ec & Hc); rewrite Ec in E; injection E as E _;
     apply Hc, Z.eqb_eq; rewrite <-std_padding; by apply Z.eqb_eq).
  by apply b64_roundtrip.
Qed.

Lemma b64decode_std_bytes text data : b64decode_std text = Some data -> Forall is_byte data.
Proof. unfold b64decode_std. destruct (existsb _ _); [done|]. apply b64decode_bytes. Qed.

(** A character that a JSON string has as it is. *)
Definition plain (c : Z) : Prop := 32 <= c <= 126 /\ c <> 34 /\ c <> 92.

Lemma ascii_escape_plain s : Forall plain s -> flat_map ascii_escape s = s.
Proof.
  induction 1 as [|c s (Hc & H1 & H2) _ IH]; [done|]. cbn [flat_map]. rewrite IH. unfold ascii_escape.
  repeat match goal with |- context [c =? ?k] => rewrite (proj2 (Z.eqb_neq c k)) by lia end.
  by rewrite !(proj2 (Z.leb_le _ _)) by lia.
Qed.

Lemma b64_plain data : Forall is_byte data -> Forall plain (b64encode_std data).
Proof.
  intros Hd. unfold b64encode_std. rewrite encode_parts. pose proof (body_alphabet data Hd) as Ha.
  rewrite map_app. apply Forall_app_2.
  - apply Forall_map. rewrite forallb_forall in Ha. apply List.Forall_forall. intros c Hc%Ha.
    unfold is_base64url, std_char, plain in *. destruct (Z.eqb_spec c 45); [lia|]. destruct (Z.eqb_spec c 95); lia.
  - apply Forall_map, List.Forall_forall. by intros c ->%repeat_spec.
Qed.

Lemma b64_std_length data : blen (b64encode_std data) = 4 * ((blen data + 2) / 3).
Proof.
  unfold b64encode_std, blen. rewrite length_map.
  induction data as [| | |a b c rest IH] using bytes_ind3; [done..|].
  cbn [urlsafe_b64encode length]. rewrite !Nat2Z.inj_succ. divide.
Qed.

(** ** Reading what is written *)

Section Reading.
Context `{FloatText} `{RecursionRoom}.

(** [text] is read as [v] where a value can end, with [n] calls to spare, and room
    for [deep] brackets. *)
Definition reads_as (text : pystr) (v : json) (n deep : nat) : Prop :=
  forall fuel room rest, (n <= fuel)%nat -> (deep <= room)%nat -> stops rest ->
    skip_space (text ++ rest) = text ++ rest /\
    scan_value envelope_hooks fuel (Some room) (text ++ rest) = Returned (v, rest).

Lemma reads_as_more text v n n' deep deep' :
  (n <= n')%nat -> (deep <= deep')%nat -> reads_as text v n deep -> reads_as text v n' deep'.
Proof. intros Hn Hd H1 fuel room rest Hf Hr. apply H1; lia. Qed.

Lemma reads_string s : Forall scalar s -> reads_as (json_string s) (JString s) 1 0.
Proof.
  intros Hs [|fuel] room rest Hf _ _; [lia|]. split; [done|]. unfold json_string. cbn [app]. rewrite <-app_assoc.
  cbn [app scan_value starts Z.eqb Pos.eqb]. by rewrite scan_json_string.
Qed.

Lemma reads_int z t : str_int z = Returned t -> reads_as t (JInt z) 1 0.
Proof.
  unfold str_int. intros ([] & Hl & [= <-])%obind_returned [|fuel] room rest Hf _ Hr; [lia|].
  split; [apply opens_skip, number_opens, int_head|].
  rewrite scan_value_number, scan_number_int by (done || apply int_head). cbn [hk_int envelope_hooks].
  unfold parse_int. rewrite Hl. cbn. by rewrite int_of_text_repr.
Qed.

Lemma reads_null : reads_as (py "null") JNull 1 0.
Proof. by intros [|fuel] room rest Hf _ Hr; [lia|]. Qed.

Lemma reads_content_value ct : (forall s, ct = Some s -> Forall scalar s) ->
  reads_as (match ct with None => py "null" | Some s => json_string s end)
    (match ct with None => JNull | Some s => JString s end) 1 0.
Proof. destruct ct; intros Hs; [by apply reads_string, Hs|apply reads_null]. Qed.

(** The members of an object after its bracket. *)
Fixpoint members_text (ms : list (pystr * pystr)) : pystr :=
  match ms with
  | [] => [125]
  | (k, t) :: rest =>
      json_string k ++ 58 :: t ++ match rest with [] => [125] | _ => 44 :: members_text rest end
  end.

Definition member_reads (n deep : nat) (m : pystr * pystr) (v : pystr * json) : Prop :=
  v.1 = m.1 /\ Forall scalar m.1 /\ reads_as m.2 v.2 n deep.

Lemma members_open ms rest : ms <> [] -> exists t, members_text ms ++ rest = 34 :: t.
Proof. destruct ms as [|[k t] ms]; [done|]. intros _. cbn [members_text]. unfold json_string. cbn. eauto. Qed.

Lemma scan_members_reads n deep ms vs fuel room rest :
  Forall2 (member_reads n deep) ms vs -> ms <> [] -> (n + length ms <= fuel)%nat -> (deep <= room)%nat ->
  scan_members envelope_hooks fuel (Some room) (members_text ms ++ rest) = Returned (vs, rest).
Proof.
  intros Hall. revert fuel. induction Hall as [|[k t] [k' v] ms vs (Hk & Hs & Hv) Hall IH]; intros fuel Hne Hf Hroom; [done|].
  cbn in Hk, Hs, Hv, Hf. subst k'. destruct fuel as [|fuel]; [lia|]. cbn [members_text].
  assert (forall tail, json_string k ++ tail = 34 :: flat_map ascii_escape k ++ 34 :: tail) as Hj.
  { intros. unfold json_string. cbn. by rewrite <-app_assoc. }
  rewrite <-app_assoc, Hj. cbn [scan_members starts Z.eqb Pos.eqb]. rewrite scan_json_string by done.
  cbn [app skip_space is_json_space starts Z.eqb Pos.eqb orb]. rewrite <-app_assoc.
  assert (forall tail, stops tail -> skip_space (t ++ tail) = t ++ tail /\
    scan_value envelope_hooks fuel (Some room) (t ++ tail) = Returned (v, tail)) as Hread
    by (intros; apply Hv; [lia|done|done]).
  destruct ms as [|m ms].
  - inversion Hall; subst vs. destruct (Hread ([125] ++ rest)) as [-> ->]; [by right; right|]. done.
  - destruct (Hread ((44 :: members_text (m :: ms)) ++ rest)) as [-> ->]; [by left|].
    cbn [app skip_space is_json_space starts Z.eqb Pos.eqb orb].
    destruct (members_open (m :: ms) rest ltac:(done)) as [tail Et].
    rewrite Et. cbn [skip_space is_json_space Z.eqb Pos.eqb orb]. rewrite <-Et, IH by (done || cbn in *; lia). done.
Qed.

Lemma reads_object n deep ms vs v :
  Forall2 (member_reads n deep) ms vs -> ms <> [] -> object_no_duplicates vs = Returned v ->
  reads_as (123 :: members_text ms) v (S (n + length ms)) (S deep).
Proof.
  intros Hall Hne Hv [|fuel] [|room] rest Hf Hr _; try lia. split; [done|]. cbn [app]. rewrite scan_value_object.
  cbn [nested].
  destruct (members_open ms rest Hne) as [tail Et]. rewrite Et. cbn [skip_space is_json_space starts Z.eqb Pos.eqb orb].
  rewrite <-Et, (scan_members_reads n deep ms vs) by (done || lia). cbn [hk_object envelope_hooks]. by rewrite Hv.
Qed.
End Reading.

(** ** The document of an envelope *)

Definition metadata_members (m : PayloadMetadata) (serde_version : pystr) : list (pystr * pystr) :=
  [(py "format", json_string (pm_format m)); (py "version", serde_version);
   (py "content_type", match pm_content_type m with None => py "null" | Some s => json_string s end);
   (py "trust_profile", json_string (trust_value (pm_trust_profile m)))].

Definition document_members (e : ResultEnvelope) (version serde_version : pystr) : list (pystr * pystr) :=
  [(py "version", version); (py "owner_token", json_string (re_owner_token e));
   (py "metadata", 123 :: members_text (metadata_members (re_metadata e) serde_version));
   (py "compression", json_string (re_compression_algorithm e));
   (py "payload", json_string (b64encode_std (re_payload e)))].

Definition metadata_values (m : PayloadMetadata) : list (pystr * json) :=
  [(py "format", JString (pm_format m)); (py "version", JInt (pm_version m));
   (py "content_type", match pm_content_type m with None => JNull | Some s => JString s end);
   (py "trust_profile", JString (trust_value (pm_trust_profile m)))].

Definition document_values (e : ResultEnvelope) : list (pystr * json) :=
  [(py "version", JInt (re_version e)); (py "owner_token", JString (re_owner_token e));
   (py "metadata", JObject (metadata_values (re_metadata e)));
   (py "compression", JString (re_compression_algorithm e));
   (py "payload", JString (b64encode_std (re_payload e)))].

Lemma encoded_document e prefix :
  Forall is_byte (re_payload e) -> json_prefix e = Returned prefix ->
  exists version serde_version, str_int (re_version e) = Returned version /\
    str_int (pm_version (re_metadata e)) = Returned serde_version /\
    prefix ++ b64encode_std (re_payload e) ++ [34; 125] = 123 :: members_text (document_members e version serde_version).
Proof.
  intros Hp (version & Hv & (serde_version & Hs & Hd)%obind_returned)%obind_returned.
  exists version, serde_version. split_and!; [done|done|].
  apply (f_equal (fun r => match r with Returned x => x | Raised _ => [] end)) in Hd. subst prefix.
  assert (json_string (b64encode_std (re_payload e)) = 34 :: b64encode_std (re_payload e) ++ [34]) as E.
  { unfold json_string. by rewrite ascii_escape_plain by (by apply b64_plain). }
  unfold document_members, metadata_members. rewrite E. cbn [members_text].
  change (json_string (py ?k)) with ([34] ++ py k ++ [34]).
  rewrite <-!app_assoc. cbn [app]. repeat (rewrite <-!app_assoc; cbn [app]). reflexivity.
Qed.

Lemma short_text_scalar n allowed s :
  (forall c, allowed c = true -> 0 <= c < 128) -> short_text n allowed s = true -> Forall scalar s.
Proof.
  unfold short_text. intros Ha [_ Hs]%andb_true_iff. rewrite forallb_forall in Hs.
  apply List.Forall_forall. intros c Hc%Hs. by apply ascii_scalar, Ha.
Qed.

Lemma token_ascii c : token_character c = true -> 0 <= c < 128.
Proof. unfold token_character, lower_digit. lia. Qed.

Lemma format_ascii c : format_character c = true -> 0 <= c < 128.
Proof. unfold format_character, lower_digit. lia. Qed.

Lemma algorithm_ascii c : algorithm_character c = true -> 0 <= c < 128.
Proof. unfold algorithm_character, lower_digit. lia. Qed.

Lemma trust_scalar p : Forall scalar (trust_value p).
Proof. destruct p; repeat constructor; vm_compute; done. Qed.

Lemma key_scalar (k : string) : forallb (fun c => (0 <=? c) && (c <? 128)) (py k) = true -> Forall scalar (py k).
Proof. rewrite forallb_forall. intros H. apply List.Forall_forall. intros c Hc%H. apply ascii_scalar. lia. Qed.

(** What the check of the content type leaves. *)
Lemma check_content_returned ct u :
  check_content_type ct = Returned u ->
  forall s, ct = Some s -> exists b, utf8_encode s = Some b /\ (blen b <=? MAX_CONTENT_TYPE_SIZE) = true.
Proof.
  intros H s ->. cbn in H. apply obind_returned in H as (b & Hb%oget_returned & Hl%orequire_returned). eauto.
Qed.

Section Laws.
Context `{FloatText} `{RecursionRoom}.

Lemma read_document_text e version serde_version u :
  valid_envelope e -> Forall is_byte (re_payload e) -> check_content_type (pm_content_type (re_metadata e)) = Returned u ->
  str_int (re_version e) = Returned version -> str_int (pm_version (re_metadata e)) = Returned serde_version ->
  read_document (123 :: members_text (document_members e version serde_version)) =
  Returned (JObject (document_values e)).
Proof.
  intros (Hpos & Ht & [Hf _] & Ha) Hp Hc Hv Hs.
  assert (forall n deep k v t, Forall scalar (py k) -> reads_as t v n deep -> member_reads n deep (py k, t) (py k, v)) as Hm
    by (by intros).
  assert (Forall scalar (b64encode_std (re_payload e))) as Hb.
  { eapply Forall_impl; [by apply b64_plain|]. intros c [Hr _]. apply ascii_scalar. lia. }
  assert (Forall2 (member_reads 1 0) (metadata_members (re_metadata e) serde_version) (metadata_values (re_metadata e))) as H1.
  { repeat (apply Forall2_cons_2; [apply Hm; [by apply key_scalar|]|]); auto using reads_string, reads_int, trust_scalar.
    - eapply reads_string, short_text_scalar, Hf; apply format_ascii.
    - apply reads_content_value. intros s Es. destruct (check_content_returned _ _ Hc s Es) as (b & Eb & _).
      by eapply utf8_encode_scalar. }
  apply reads_object with (v := JObject (metadata_values (re_metadata e))) in H1; [|done|done].
  assert (Forall2 (member_reads 6 1) (document_members e version serde_version) (document_values e)) as H2.
  { pose proof (fun t v => reads_as_more t v 1 6 0 1 ltac:(lia) ltac:(lia)) as Hmore.
    repeat (apply Forall2_cons_2; [apply Hm; [by apply key_scalar|]|]); auto using reads_string, reads_int.
    - eapply Hmore, reads_string, short_text_scalar, Ht; apply token_ascii.
    - eapply Hmore, reads_string, short_text_scalar, Ha; apply algorithm_ascii. }
  apply reads_object with (v := JObject (document_values e)) in H2; [|done|done].
  unfold read_document. specialize (H2 (scan_fuel (123 :: members_text (document_members e version serde_version))) recursion_room []).
  rewrite app_nil_r in H2. destruct H2 as [_ ->]; [|apply recursion_room_two|done|done].
  unfold scan_fuel, document_members. cbn [members_text].
  cbn [length]. rewrite length_app. change (length (json_string (py "version"))) with 9%nat. lia.
Qed.

Lemma envelope_of_values e u :
  valid_envelope e -> re_version e = ENVELOPE_VERSION -> Forall is_byte (re_payload e) ->
  check_content_type (pm_content_type (re_metadata e)) = Returned u ->
  envelope_of_document (JObject (document_values e)) = Returned e.
Proof.
  intros (Hpos & Ht & Hm & Ha) Hver Hp Hc. destruct e as [v owner [fmt sv ct trust] alg payload].
  cbn [re_version re_metadata re_owner_token pm_format pm_version pm_content_type pm_trust_profile
    re_compression_algorithm re_payload] in *. subst v.
  assert (decode_payload (b64encode_std payload) = Returned payload) as Hpay.
  { unfold decode_payload. assert (is_ascii (b64encode_std payload) = true) as ->.
    { unfold is_ascii. apply forallb_forall. intros c Hin. pose proof (b64_plain payload Hp) as Hall.
      rewrite List.Forall_forall in Hall. destruct (Hall c Hin) as [Hr _]. lia. }
    rewrite b64_std_roundtrip by done. cbn. by rewrite bool_decide_true. }
  assert (decode_content_type (match ct with None => JNull | Some s => JString s end) = Returned ct) as Hct.
  { destruct ct as [s|]; [|done]. destruct (check_content_returned _ _ Hc s eq_refl) as (b & Eb & El).
    unfold decode_content_type. rewrite Eb. cbn [oget obind]. by rewrite El. }
  transitivity (let? payload' := decode_payload (b64encode_std payload) in
    let? content_type := decode_content_type (match ct with None => JNull | Some s => JString s end) in
    let? profile := trust_of_value (trust_value trust) in
    let? metadata := make_metadata (Exact fmt) (Exact sv) (Exact <$> content_type) (Exact profile) in
    make_envelope (Exact ENVELOPE_VERSION) (Exact owner) (Exact metadata) (Exact alg) (Exact payload')).
  { reflexivity. }
  rewrite Hpay, Hct. cbn [obind]. rewrite (proj2 (trust_of_value_returned _ trust)) by done. cbn [obind].
  rewrite (proj2 (make_metadata_returned _ _ _ _ _)) by done. cbn [obind].
  by apply make_envelope_returned.
Qed.
End Laws.

(** ** Errors *)

(** What the handler of [decode] turns into an error of the envelope. *)
Definition handled {A} (r : outcome A) : Prop := forall e, r = Raised e -> is_TypeError_or_ValueError e = true.

Lemma handled_returned {A} (a : A) : handled (Returned a).
Proof. done. Qed.

Lemma handled_raised {A} e : is_TypeError_or_ValueError e = true -> handled (A := A) (Raised e).
Proof. by intros He e' [= <-]. Qed.

Lemma handled_bind {A B} (r : outcome A) (k : A -> outcome B) :
  handled r -> (forall a, r = Returned a -> handled (k a)) -> handled (obind r k).
Proof. unfold handled. destruct r as [a|e]; cbn; [eauto|]. intros Hr _ e' [= ->]. auto. Qed.

Lemma handled_require c e : is_TypeError_or_ValueError e = true -> handled (orequire c e).
Proof. intros He. unfold orequire. destruct c; [apply handled_returned|by apply handled_raised]. Qed.

Lemma handled_get {A} (x : option A) e : is_TypeError_or_ValueError e = true -> handled (oget x e).
Proof. intros He. destruct x; [apply handled_returned|by apply handled_raised]. Qed.

(** A key that the check of the keys found is there. *)
Lemma subscript_found members keys key :
  object_with keys (JObject members) = Returned members -> bool_decide (key ∈ keys) = true ->
  exists v, subscript members key = Returned v.
Proof.
  cbn. intros (u & Hk%orequire_returned%bool_decide_eq_true & _)%obind_returned Hin%bool_decide_eq_true.
  rewrite <-Hk in Hin. clear Hk keys u. induction members as [|[k v] members IH]; [by apply elem_of_nil in Hin|].
  cbn in *. case_bool_decide; [eauto|]. apply elem_of_cons in Hin as [->|Hin]; [done|auto].
Qed.

Lemma object_with_returned keys v members :
  object_with keys v = Returned members -> v = JObject members.
Proof. destruct v; cbn; try done. by intros ([] & _ & [= <-])%obind_returned. Qed.

Lemma handled_object keys v : handled (object_with keys v).
Proof. destruct v; cbn; try by apply handled_raised. apply handled_bind; [by apply handled_require|done]. Qed.

Lemma handled_str v : handled (exact_str v).
Proof. destruct v; by (apply handled_raised || apply handled_returned). Qed.

Lemma handled_int v : handled (exact_int v).
Proof. destruct v; by (apply handled_raised || apply handled_returned). Qed.

Lemma handled_field {A} keys v members key (k : json -> outcome A) :
  object_with keys v = Returned members -> bool_decide (key ∈ keys) = true -> (forall v, handled (k v)) ->
  handled (obind (subscript members key) k).
Proof.
  intros Ho Hin Hk. pose proof (object_with_returned _ _ _ Ho) as ->.
  destruct (subscript_found _ _ _ Ho Hin) as [w ->]. apply Hk.
Qed.

Lemma handled_payload text : handled (decode_payload text).
Proof.
  apply handled_bind; [by apply handled_require|intros _ _].
  apply handled_bind; [by apply handled_get|intros data _]. apply handled_bind; [by apply handled_require|done].
Qed.

Lemma handled_content v : handled (decode_content_type v).
Proof.
  destruct v; try by (apply handled_raised || apply handled_returned).
  apply handled_bind; [by apply handled_get|intros data _]. apply handled_bind; [by apply handled_require|done].
Qed.

Lemma handled_trust s : handled (trust_of_value s).
Proof. unfold trust_of_value. repeat case_decide; by (apply handled_raised || apply handled_returned). Qed.

Lemma handled_metadata f v ct t : handled (make_metadata (Exact f) (Exact v) (Exact <$> ct) (Exact t)).
Proof.
  unfold make_metadata. cbn [require_exact obind]. destruct ct; cbn [require_optional fmap option_fmap option_map require_exact obind];
    (apply handled_bind; [by apply handled_require|done]).
Qed.

Lemma handled_envelope v t m a p : handled (make_envelope (Exact v) (Exact t) (Exact m) (Exact a) (Exact p)).
Proof.
  unfold make_envelope, validate_owner_token, validate_algorithm. cbn [require_exact obind].
  apply handled_bind; [by apply handled_require|intros _ _].
  apply handled_bind; [apply handled_bind; [by apply handled_require|done]|intros t' _].
  apply handled_bind; [apply handled_bind; [by apply handled_require|done]|done].
Qed.

Section Closed.
Context `{FloatText} `{RecursionRoom}.

Lemma handled_document v : handled (envelope_of_document v).
Proof.
  apply handled_bind; [apply handled_object|intros document Hd].
  destruct (subscript_found document DOCUMENT_KEYS (py "metadata")) as [mv Em];
    [by rewrite (object_with_returned _ _ _ Hd) in Hd|by vm_compute|]. rewrite Em. cbn [obind].
  apply handled_bind; [apply handled_object|intros meta Hm].
  apply handled_bind; [by eapply handled_field, handled_int|intros version _].
  apply handled_bind; [by apply handled_require|intros _ _].
  apply handled_bind; [by eapply handled_field, handled_str|intros owner _].
  apply handled_bind; [by eapply handled_field, handled_str|intros compression _].
  apply handled_bind; [by eapply handled_field, handled_str|intros payload_text _].
  apply handled_bind; [apply handled_payload|intros payload _].
  apply handled_bind; [by eapply handled_field, handled_str|intros fmt _].
  apply handled_bind; [by eapply handled_field, handled_int|intros sv _].
  apply handled_bind; [by eapply handled_field, handled_content|intros ct _].
  apply handled_bind; [by eapply handled_field, handled_str|intros trust _].
  apply handled_bind; [apply handled_trust|intros profile _].
  apply handled_bind; [apply handled_metadata|intros metadata _]. apply handled_envelope.
Qed.

Lemma handled_pairs pairs result : handled (collect_members pairs result).
Proof.
  revert result. induction pairs as [|[k v] pairs IH]; intros result; [done|].
  apply handled_bind; [by apply handled_require|intros _ _; apply IH].
Qed.

(** Runs out of room, in a text of more than [n] characters. *)
Definition too_deep (n : nat) (e : exn) : Prop := e = RecursionError /\ (recursion_room < n)%nat.

(** The reader ends: its two calls a character are enough. *)
Lemma handled_read text e :
  read_document text = Raised e -> is_TypeError_or_ValueError e = true \/ too_deep (length text) e.
Proof.
  unfold read_document. set (raised e := is_TypeError_or_ValueError e = true \/ too_deep (length text) e).
  assert (hooks_raise_only envelope_hooks raised) as Hh.
  { split; intros x; cbn; try done.
    - unfold parse_int, orequire. case_match; [done|by left].
    - unfold object_no_duplicates. pose proof (handled_pairs x []) as Hp.
      destruct (collect_members x []); cbn; [done|left; by apply Hp]. }
  destruct (scan_reads envelope_hooks _ Hh (scan_fuel text)) as [Hv _]. unfold scan_fuel in *.
  specialize (Hv (Some recursion_room) text ltac:(intros Hl; by right) ltac:(lia)).
  destruct (scan_value _ _ _ _) as [[v rest]|e']; cbn in *.
  - destruct rest; [done|]. intros [= <-]. by left.
  - intros [= <-]. destruct Hv as [->|Hv]; [by left|done].
Qed.

Lemma utf8_decode_length d text : utf8_decode d = Some text -> (length text <= length d)%nat.
Proof.
  intros E%utf8_encode_decode. revert d E. induction text as [|c text IH]; intros d E; [cbn; lia|].
  cbn in E. destruct (utf8_char c) as [b|] eqn:Ec; [|done]. destruct (utf8_encode text) as [r|]; [|done].
  cbn in E. injection E as <-. specialize (IH r eq_refl). rewrite length_app. cbn [length].
  enough (length b <> 0%nat) by lia. unfold utf8_char in Ec. repeat case_match; simplify_eq; done.
Qed.

Lemma handled_body d e :
  json_decode_body d = Raised e -> is_TypeError_or_ValueError e = true \/ too_deep (length d) e.
Proof.
  unfold json_decode_body. destruct (utf8_decode d) as [text|] eqn:Et; cbn [oget obind]; [|intros [= <-]; by left].
  destruct (read_document text) as [document|e'] eqn:Er; cbn [obind].
  - intros Hd. left. by eapply handled_document.
  - intros [= <-]. apply handled_read in Er as [Hr|[-> Hl]]; [by left|right; split; [done|]].
    apply utf8_decode_length in Et. lia.
Qed.

(** Brackets that are opened beyond the room. *)
Lemma scan_brackets n room fuel :
  (room < n)%nat -> (2 * n <= fuel)%nat ->
  scan_value envelope_hooks fuel (Some room) (repeat 91 n) = Raised RecursionError.
Proof.
  revert room fuel. induction n as [|n IH]; intros room fuel Hn Hf; [lia|].
  destruct fuel as [|[|fuel]]; [lia..|]. cbn [repeat]. rewrite scan_value_array.
  destruct room as [|room]; [done|]. cbn [nested]. destruct n as [|n]; [lia|].
  cbn [repeat skip_space is_json_space starts Z.eqb Pos.eqb orb].
  specialize (IH room fuel ltac:(lia) ltac:(lia)). cbn [repeat] in IH. cbn [scan_elements]. by rewrite IH.
Qed.

Lemma envelope_of_document_valid v e :
  envelope_of_document v = Returned e ->
  valid_envelope e /\ re_version e = ENVELOPE_VERSION /\ Forall is_byte (re_payload e).
Proof.
  unfold envelope_of_document. intros H1. statements H1.
  match goal with S : make_metadata _ _ _ _ = _ |- _ => apply make_metadata_returned in S as [-> Hm] end.
  apply make_envelope_returned in H1 as (-> & Hp & Ht & Ha). cbn.
  match goal with S : orequire (_ =? ENVELOPE_VERSION) _ = _ |- _ => apply orequire_returned, Z.eqb_eq in S as -> end.
  split_and!; [done..|]. match goal with S : decode_payload _ = _ |- _ => unfold decode_payload in S; statements S end.
  match goal with S : oget (b64decode_std _) _ = _ |- _ => apply oget_returned, b64decode_std_bytes in S end.
  match goal with S : Returned _ = Returned _ |- _ => by injection S as <- end.
Qed.

Lemma json_decode_bound f d e :
  json_envelope_decode f (Exact d) = Returned e <->
  blen d <= jf_max_encoded_size f /\ json_decode_body d = Returned e.
Proof.
  unfold json_envelope_decode. cbn [require_exact obind]. rewrite obind_returned.
  setoid_rewrite ensure_bound_returned. split.
  - intros (_ & Hb & H1). split; [done|]. destruct (json_decode_body d); repeat case_match; congruence.
  - intros [Hb ->]. by exists tt.
Qed.

(** [C36] Decoding a JSON envelope ends and is closed, but for the depth: it gives
    an envelope of version 1 that the constructors accept, whose payload is bytes,
    or raises an error of the envelope, or lets [RecursionError] escape, and that
    only from data longer than the interpreter has room for brackets; data over the
    bound is refused unread.  It does escape: data of opening brackets within the
    bound, one more of them than there is room for, or any more. *)
Theorem json_envelope_decode_closed f d :
  match json_envelope_decode f (Exact d) with
  | Returned e => valid_envelope e /\ re_version e = ENVELOPE_VERSION /\ Forall is_byte (re_payload e) /\
                  blen d <= jf_max_encoded_size f
  | Raised e => (is_EnvelopeError e = true \/ e = RecursionError /\ (recursion_room < length d)%nat) /\
                (jf_max_encoded_size f < blen d -> e = size_limit)
  end /\
  forall n, (recursion_room < n)%nat -> Z.of_nat n <= jf_max_encoded_size f ->
    json_envelope_decode f (Exact (repeat 91 n)) = Raised RecursionError.
Proof.
  split.
  - destruct (json_envelope_decode f (Exact d)) as [e|e] eqn:E.
    + apply json_decode_bound in E as [Hb H1]. unfold json_decode_body in H1. statements H1.
      apply envelope_of_document_valid in H1 as (? & ? & ?). done.
    + unfold json_envelope_decode in E. cbn [require_exact obind] in E. unfold ensure_bound, orequire in E.
      destruct (Z.leb_spec (blen d) (jf_max_encoded_size f)); cbn [obind] in E; [|injection E as <-; auto].
      split; [|lia]. destruct (json_decode_body d) as [|e'] eqn:Eb; [done|].
      destruct (handled_body d e' Eb) as [Hh|[-> Hl]]; [left|right; by injection E as <-].
      destruct e'; rewrite ?Hh in E; by injection E as <-.
  - intros n Hn Hb. unfold json_envelope_decode. cbn [require_exact obind].
    assert (blen (repeat 91 n) = Z.of_nat n) as Hl by (unfold blen; by rewrite repeat_length).
    unfold ensure_bound, orequire. rewrite Hl, (proj2 (Z.leb_le _ _)) by done. cbn [obind].
    unfold json_decode_body. rewrite utf8_decode_ascii.
    2: { apply List.Forall_forall. intros c ->%repeat_spec. lia. }
    cbn [oget obind]. unfold read_document, scan_fuel. rewrite repeat_length, scan_brackets by lia. done.
Qed.

(** ** Round trip *)

Lemma json_prefix_ascii e prefix :
  valid_envelope e -> (forall s, pm_content_type (re_metadata e) = Some s -> Forall scalar s) ->
  json_prefix e = Returned prefix -> Forall (fun c => 0 <= c < 128) prefix.
Proof.
  intros (_ & Ht & [Hf _] & Ha) Hc (version & Hv & (sv & Hs & Hd)%obind_returned)%obind_returned.
  assert (forall z t, str_int z = Returned t -> Forall (fun c => 0 <= c < 128) t) as Hint.
  { intros z t (_ & _ & [= <-])%obind_returned. destruct (int_repr_shape z) as (sign & ds & -> & Hsg & Hds).
    apply Forall_app_2; [destruct Hsg as [-> | ->]; by repeat constructor|].
    destruct Hds as [-> |(c & ds' & -> & Hr & Hdg)]; [by repeat constructor|]. constructor; [lia|].
    unfold digits in Hdg. rewrite forallb_forall in Hdg. apply List.Forall_forall. intros x Hx%Hdg.
    unfold is_digit in Hx. lia. }
  apply (f_equal (fun r => match r with Returned x => x | Raised _ => [] end)) in Hd. subst prefix.
  assert (forall l : pystr, is_ascii l = true -> Forall (fun c => 0 <= c < 128) l) as Hk.
  { unfold is_ascii. intros l. rewrite forallb_forall. intros H1. apply List.Forall_forall. intros c Hin%H1. lia. }
  repeat apply Forall_app_2; try (by apply Hk); eauto; try (apply json_string_ascii).
  - eapply short_text_scalar, Ht; apply token_ascii.
  - eapply short_text_scalar, Hf; apply format_ascii.
  - destruct (pm_content_type _) as [s|]; [by apply json_string_ascii, Hc|by apply Hk].
  - apply trust_scalar.
  - eapply short_text_scalar, Ha; apply algorithm_ascii.
Qed.

Lemma encoded_ascii e prefix :
  valid_envelope e -> (forall s, pm_content_type (re_metadata e) = Some s -> Forall scalar s) ->
  Forall is_byte (re_payload e) -> json_prefix e = Returned prefix ->
  Forall (fun c => 0 <= c < 128) (prefix ++ b64encode_std (re_payload e) ++ [34; 125]).
Proof.
  intros Hval Hc Hp Hpre. apply Forall_app_2; [by eapply json_prefix_ascii|].
  apply Forall_app_2; [|by repeat constructor]. eapply Forall_impl; [by apply b64_plain|]. intros c [Hr _]. lia.
Qed.

(** What a successful encoding is made of. *)
Lemma json_encode_returned f e d :
  json_envelope_encode f (Exact e) = Returned d ->
  exists u prefix, check_content_type (pm_content_type (re_metadata e)) = Returned u /\
    json_prefix e = Returned prefix /\ d = prefix ++ b64encode_std (re_payload e) ++ [34; 125] /\
    blen d <= jf_max_encoded_size f.
Proof.
  unfold json_envelope_encode. cbn [require_exact obind]. intros (u & Hc & H1)%obind_returned.
  apply obind_returned in H1 as (prefix & Hpre & H1). apply obind_returned in H1 as (u1 & _ & H1).
  apply obind_returned in H1 as (u2 & Hb%ensure_bound_returned & [= <-]). eauto 10.
Qed.

Lemma json_encode_ascii f e d :
  valid_envelope e -> Forall is_byte (re_payload e) -> json_envelope_encode f (Exact e) = Returned d ->
  Forall (fun c => 0 <= c < 128) d.
Proof.
  intros Hval Hp (u & prefix & Hc & Hpre & -> & _)%json_encode_returned. apply encoded_ascii; [done| |done..].
  intros s Es. destruct (check_content_returned _ _ Hc s Es) as (b & Eb & _). by eapply utf8_encode_scalar.
Qed.

Lemma json_decode_encode f e d :
  valid_envelope e -> re_version e = ENVELOPE_VERSION -> Forall is_byte (re_payload e) ->
  json_envelope_encode f (Exact e) = Returned d -> json_envelope_decode f (Exact d) = Returned e.
Proof.
  intros Hval Hver Hp H1. pose proof (json_encode_ascii f e d Hval Hp H1) as Ha.
  apply json_encode_returned in H1 as (u & prefix & Hc & Hpre & -> & Hb).
  apply json_decode_bound. split; [done|]. unfold json_decode_body. rewrite utf8_decode_ascii by done. cbn [oget obind].
  destruct (encoded_document e prefix Hp Hpre) as (version & sv & Hv & Hs & ->).
  rewrite (read_document_text e version sv u) by done. cbn [obind]. by eapply envelope_of_values.
Qed.

(** [C35] A format reads an envelope of version 1 back from what it wrote for it, and
    that text is ASCII; the size predicted from the payload is the size, so that
    any format writes the envelope the same way or, exactly when the text is over
    its bound, refuses it. *)
Theorem json_envelope_roundtrip f e d :
  valid_envelope e -> re_version e = ENVELOPE_VERSION -> Forall is_byte (re_payload e) ->
  json_envelope_encode f (Exact e) = Returned d ->
  json_envelope_decode f (Exact d) = Returned e /\ is_ascii d = true /\
  forall f', json_envelope_encode f' (Exact e) = if blen d <=? jf_max_encoded_size f' then Returned d else Raised size_limit.
Proof.
  intros Hval Hver Hp H1. split_and!; [by apply json_decode_encode| |].
  - apply (json_encode_ascii f e d Hval Hp) in H1. unfold is_ascii. apply forallb_forall.
    rewrite List.Forall_forall in H1. intros c Hin%H1. lia.
  - apply json_encode_returned in H1 as (u & prefix & Hc & Hpre & -> & _). intros f'.
    unfold json_envelope_encode. cbn [require_exact obind]. rewrite Hc, Hpre. cbn [obind].
    assert (blen (prefix ++ b64encode_std (re_payload e) ++ [34; 125]) =
      blen prefix + 4 * ((blen (re_payload e) + 2) / 3) + 2) as ->
      by (rewrite !blen_app, b64_std_length; change (blen [34; 125]) with 2; lia).
    unfold ensure_bound, orequire. by destruct (_ <=? _).
Qed.

(** The result codec may use the format. *)
#[export] Instance json_format_reads_back {W} (f : JsonEnvelopeFormat) : ReadsBack (@json_format _ _ W f).
Proof.
  intros e w b w' Hval Hv Hp H1 w2. exists w2. cbn [ef_encode ef_decode json_format] in *.
  unfold bind, pure_outcome, ret in *.
  destruct (json_envelope_encode f (Exact e)) as [b'|] eqn:E; [|done]. injection H1 as -> _.
  by rewrite (json_decode_encode f e b Hval Hv Hp E).
Qed.
End Closed.

(** ** A document *)

(** A reader of floats that a document without any never asks. *)
Definition no_floats : FloatText := {| float_repr := fun _ => []; float_of_text := fun _ => S754_nan |}.
#[local] Existing Instance no_floats.

Definition some_room : RecursionRoom.
Proof. by exists 900%nat; lia. Defined.
#[local] Existing Instance some_room.

Definition demo_json_format : JsonEnvelopeFormat := {| jf_max_encoded_size := 1024 |}.

Definition dq (text : string) : pystr := map (fun c => if c =? 39 then 34 else c) (py text).

Example demo_document :
  json_envelope_encode demo_json_format (Exact (demo_envelope 2)) = Returned (dq
    "{'version':1,'owner_token':'owner','metadata':{'format':'json','version':2,'content_type':'\u00e9','trust_profile':'untrusted'},'compression':'identity','payload':'AQL/'}").
Proof. vm_compute. reflexivity. Qed.

Example demo_document_bounds :
  (let? d := json_envelope_encode demo_json_format (Exact (demo_envelope 2)) in
   json_envelope_encode {| jf_max_encoded_size := blen d - 1 |} (Exact (demo_envelope 2))) = Raised size_limit.
Proof. vm_compute. reflexivity. Qed.

(** Brackets beyond the room; as many as there is room for are malformed. *)
Example demo_too_deep :
  json_envelope_decode demo_json_format (Exact (repeat 91 901)) = Raised RecursionError /\
  json_envelope_decode demo_json_format (Exact (repeat 91 900)) = Raised malformed.
Proof. vm_compute. split; reflexivity. Qed.

(** A repeated key, a reordered key and a key in upper case are refused, whatever else is right. *)
Example demo_refused :
  Forall (fun text => json_envelope_decode demo_json_format (Exact (dq text)) = Raised malformed)
    ["{'version':1,'version':1,'owner_token':'o','metadata':null,'compression':'identity','payload':''}";
     "{'owner_token':'o','version':1,'metadata':null,'compression':'identity','payload':''}";
     "{'version':true,'owner_token':'o','metadata':{'format':'json','version':1,'content_type':null,'trust_profile':'untrusted'},'compression':'identity','payload':''}";
     "{'version':1,'owner_token':'o','metadata':{'format':'json','version':1,'content_type':'\ud800','trust_profile':'untrusted'},'compression':'identity','payload':''}";
     "{'version':1,'owner_token':'o','metadata':{'format':'json','version':1,'content_type':null,'trust_profile':'untrusted'},'compression':'identity','payload':'AR=='}"]%string.
Proof. repeat constructor; vm_compute; reflexivity. Qed.

Lemma json_envelope_roundtrip_witness :
  exists d, json_envelope_encode demo_json_format (Exact (demo_envelope 2)) = Returned d /\
    json_envelope_decode demo_json_format (Exact d) = Returned (demo_envelope 2).
Proof.
  eexists. split; [apply demo_document|].
  eapply (json_envelope_roundtrip demo_json_format (demo_envelope 2)).
  - unfold valid_envelope, valid_metadata. vm_compute. done.
  - reflexivity.
  - repeat constructor; vm_compute; discriminate.
  - apply demo_document.
Defined.
