(* ===== verification/RedisProvider.v ===== *)
(** * The Redis byte provider ([bluetape/cache/redis/_provider.py])

    [SyncRedisProvider] runs byte commands on a redis-py client.  Every command
    is admitted under the provider's condition, counted while it runs, and
    observed once when it ends; [close] refuses new commands, waits for the
    admitted ones and closes a client that the provider owns.  The client, the
    clock and the wait on the condition are callbacks. *)

From Stdlib Require Import SpecFloat.
From S2P Require Import Prelude Python Leader.
Open Scope py_scope.
Open Scope Z_scope.
Import Redis.

(** ** Contracts ([_contracts.py]) *)

Definition DEFAULT_MAX_ENCODED_SIZE : Z := 16777216.
Definition MAX_COORDINATION_MARKER_SIZE : Z := 138.

Inductive RedisMode : Type := SYNC | ASYNC.
Inductive RedisOutcome : Type := SUCCESS | FAILURE | CANCELLED.

Record RedisEvent : Type := {
  ev_mode : RedisMode;
  ev_operation : RedisOperation;
  ev_outcome : RedisOutcome;
  ev_error_code : option RedisErrorCode;
  ev_elapsed_ns : Z;
}.

(** [RedisEvent(...)] of members of the enumerations. *)
Definition make_redis_event (mode : RedisMode) (operation : RedisOperation) (out : RedisOutcome)
    (error_code : option RedisErrorCode) (elapsed_ns : Z) : outcome RedisEvent :=
  if elapsed_ns <? 0 then Raised (ValueError "elapsed_ns must be non-negative")
  else Returned {| ev_mode := mode; ev_operation := operation; ev_outcome := out;
                   ev_error_code := error_code; ev_elapsed_ns := elapsed_ns |}.

(** [_finite_positive]. *)
Definition contract_finite_positive (value : pyval) : outcome float :=
  if is_bool value || negb (is_int_or_float value) then Raised (TypeError "field must be a real number")
  else
    match to_float value with
    | Raised e => Raised e
    | Returned f =>
        if negb (is_finite f) || fle f f0 then Raised (ValueError "field must be finite and positive")
        else Returned f
    end.

(** A [RedisCommandPolicy], whose [max_retries] is 0: its two timeouts as
    [float]s, which is how [max_command_time] reads them. *)
Record RedisCommandPolicy : Type := {
  connect_timeout : float;
  socket_timeout : float;
}.

Definition make_command_policy (connect socket : pyval) : outcome RedisCommandPolicy :=
  match contract_finite_positive connect with
  | Raised e => Raised e
  | Returned c =>
      match contract_finite_positive socket with
      | Raised e => Raised e
      | Returned s => Returned {| connect_timeout := c; socket_timeout := s |}
      end
  end.

Definition max_command_time (p : RedisCommandPolicy) : float :=
  fadd (connect_timeout p) (socket_timeout p).

Record RedisCoordinationSnapshot : Type := {
  cs_marker : option pybytes;
  cs_result : option pybytes;
  cs_marker_oversized : bool;
  cs_result_oversized : bool;
}.

(** ** Arguments *)

Definition control_character (c : Z) : bool := (c <? 32) || (c =? 127).

(** [_validate_key]. *)
Definition validate_key (key : arg pystr) : outcome pystr :=
  match key with
  | AnotherClass => Raised (TypeError "key must be an exact str")
  | Exact k =>
      if bool_decide (k = []) || negb (bool_decide (k = strip k))
         || existsb (fun c => is_space c || control_character c) k
      then Raised (ValueError "key must be non-blank without whitespace or control characters")
      else Returned k
  end.

(** [_validate_value]. *)
Definition validate_value (value : arg pybytes) : outcome pybytes := require_exact value "exact bytes".

(** [math.ceil] of a [float]. *)
Definition fceil (f : float) : outcome Z :=
  let scaled (m : Z) (e : Z) : Z := if 0 <=? e then m * 2 ^ e else - ((- m) / 2 ^ (- e)) in
  match f with
  | S754_zero _ => Returned 0
  | S754_finite false m e => Returned (scaled (Z.pos m) e)
  | S754_finite true m e => Returned (scaled (Z.neg m) e)
  | S754_infinity _ => Raised OverflowError
  | S754_nan => Raised (ValueError "cannot convert float NaN to integer")
  end.

Definition f1000 : float := S754_finite false 8796093022208000 (-43).

(** [math.isfinite(ttl)], [ttl <= 0] and [math.ceil(ttl * 1000)] of a number. *)
Definition number_is_finite (v : pyval) : outcome bool :=
  match to_float v with Returned f => Returned (is_finite f) | Raised e => Raised e end.
Definition number_not_positive (v : pyval) : bool :=
  match v with PyInt z => z <=? 0 | PyFloat f => fle f f0 | _ => false end.
Definition ceil_thousand (v : pyval) : outcome Z :=
  match v with PyInt z => Returned (z * 1000) | PyFloat f => fceil (fmul f f1000) | _ => Returned 0 end.

(** [_ttl_milliseconds]. *)
Definition ttl_milliseconds (ttl : pyval) : outcome Z :=
  if is_bool ttl || negb (is_int_or_float ttl) then Raised (TypeError "ttl must be a real number")
  else
    match number_is_finite ttl with
    | Raised e => Raised e
    | Returned finite =>
        if negb finite || number_not_positive ttl
        then Raised (ValueError "ttl must be finite and positive")
        else
          match ceil_thousand ttl with
          | Raised e => Raised e
          | Returned milliseconds =>
              if 9223372036854775807 <? milliseconds
              then Raised (ValueError "ttl is outside the supported Redis range")
              else Returned milliseconds
          end
    end.

(** [_validate_size_limit]. *)
Definition validate_size_limit (value : arg Z) (maximum : Z) : outcome Z :=
  match value with
  | AnotherClass => Raised (TypeError "field must be an exact int")
  | Exact n =>
      if (1 <=? n) && (n <=? maximum) then Returned n
      else Raised (ValueError "field is outside its supported range")
  end.

(** ** Replies *)

(** What the client returns. *)
Inductive reply : Type :=
| Plain (v : pyval)
| ListReply (vs : list pyval).

Definition invalid_response (operation : RedisOperation) : exn :=
  RedisProviderError operation Redis.INVALID_RESPONSE.

(** [_snapshot_part]. *)
Definition snapshot_part (exists_ length_ value : pyval) (maximum : Z) (operation : RedisOperation)
    : outcome (option pybytes * bool) :=
  match exists_ with
  | PyInt n =>
      if negb ((n =? 0) || (n =? 1)) then Raised (invalid_response operation)
      else
        match length_, value with
        | PyInt len, PyBytes b =>
            if len <? 0 then Raised (invalid_response operation)
            else if n =? 0 then
              if negb (len =? 0) || negb (bool_decide (b = [])) then Raised (invalid_response operation)
              else Returned (None, false)
            else
              let oversized := maximum <? len in
              let expected_size := if oversized then maximum else len in
              if negb (Z.of_nat (length b) =? expected_size) then Raised (invalid_response operation)
              else Returned (Some b, oversized)
        | _, _ => Raised (invalid_response operation)
        end
  | _ => Raised (invalid_response operation)
  end.

(** [_coordination_snapshot]. *)
Definition parse_coordination_snapshot (response : reply) (max_marker_size max_result_size : Z)
    : outcome RedisCoordinationSnapshot :=
  match response with
  | ListReply [v0; v1; v2; v3; v4; v5] =>
      match snapshot_part v0 v1 v2 max_marker_size COORDINATION_SNAPSHOT with
      | Raised e => Raised e
      | Returned (marker, marker_oversized) =>
          match snapshot_part v3 v4 v5 max_result_size COORDINATION_SNAPSHOT with
          | Raised e => Raised e
          | Returned (result, result_oversized) =>
              Returned {| cs_marker := marker; cs_result := result;
                          cs_marker_oversized := marker_oversized;
                          cs_result_oversized := result_oversized |}
          end
      end
  | _ => Raised (invalid_response COORDINATION_SNAPSHOT)
  end.

(** [_deleted]. *)
Definition deleted (response : reply) (operation : RedisOperation) : outcome bool :=
  match response with
  | Plain (PyInt n) =>
      if (n =? 0) || (n =? 1) then Returned (n =? 1) else Raised (invalid_response operation)
  | _ => Raised (invalid_response operation)
  end.

(** ** The client *)

Inductive provider_script : Type :=
| COMPARE_AND_DELETE_SCRIPT | COORDINATION_SNAPSHOT_SCRIPT | PUBLISH_IF_VALUE_SCRIPT.

(** A value of the pool's [connection_kwargs]: missing or [None], an empty list,
    tuple or set, or any other. *)
Inductive error_list : Type := NoErrors | EmptyErrors | SomeErrors.

Record connection_kwargs : Type := {
  kw_decode_responses : pyval;
  kw_retry_on_timeout : option pyval;
  kw_retry_on_error : error_list;
  kw_retry : pyval;
  kw_socket_connect_timeout : pyval;
  kw_socket_timeout : pyval;
}.

(** What the provider reads of a client: whether its pool has a [timeout], and
    the [connection_kwargs] when they are a mapping. *)
Record client_attributes : Type := {
  ca_pool_timeout : bool;
  ca_kwargs : option connection_kwargs;
}.

Record redis_client (W : Type) : Type := {
  rc_get : pystr -> M W reply;
  rc_set : pystr -> pybytes -> Z -> M W reply;
  rc_set_nx : pystr -> pybytes -> Z -> M W reply;
  rc_delete : pystr -> M W reply;
  rc_eval : provider_script -> list pystr -> list pyval -> M W reply;
  rc_close : M W unit;
}.
Arguments rc_get {W} r. Arguments rc_set {W} r. Arguments rc_set_nx {W} r.
Arguments rc_delete {W} r. Arguments rc_eval {W} r. Arguments rc_close {W} r.

(** [_error_code]. *)
Definition error_code (error : exn) : RedisErrorCode :=
  match error with
  | RedisTimeoutError => TIMEOUT
  | RedisConnectionError => CONNECTION
  | _ => PROVIDER_FAILURE
  end.

(** [_validate_binary_client]. *)
Definition validate_binary_client (c : client_attributes) : outcome unit :=
  match ca_kwargs c with
  | Some options =>
      if decide (kw_decode_responses options = PyBool true)
      then Raised (ValueError "decode_responses=True is incompatible with the binary provider")
      else Returned tt
  | None => Returned tt
  end.

(** [_discover_command_policy]. *)
Definition discover_command_policy (c : client_attributes) : outcome (option RedisCommandPolicy) :=
  if ca_pool_timeout c then Returned None
  else
    match ca_kwargs c with
    | None => Returned None
    | Some options =>
        if match kw_retry_on_timeout options with
           | Some v => negb (bool_decide (v = PyBool false))
           | None => false
           end
        then Returned None
        else
          match kw_retry_on_error options, kw_retry options with
          | SomeErrors, _ => Returned None
          | _, PyNone =>
              match make_command_policy (kw_socket_connect_timeout options) (kw_socket_timeout options) with
              | Returned p => Returned (Some p)
              | Raised e => if is_TypeError_or_ValueError e then Returned None else Raised e
              end
          | _, _ => Returned None
          end
    end.

(** ** The actions of the commands

    What a command does once it is admitted: it checks its arguments, sends one
    request and reads the reply. *)

Section Actions.
Context {W : Type}.
Variable c : redis_client W.

Definition get_action (key : arg pystr) : M W (option pybytes) :=
  k <- pure_outcome (validate_key key) ;;
  response <- rc_get c k ;;
  match response with
  | Plain PyNone => ret None
  | Plain (PyBytes b) => ret (Some b)
  | _ => raise (invalid_response GET)
  end.

Definition set_action (key : arg pystr) (value : arg pybytes) (ttl : pyval) : M W unit :=
  k <- pure_outcome (validate_key key) ;;
  v <- pure_outcome (validate_value value) ;;
  milliseconds <- pure_outcome (ttl_milliseconds ttl) ;;
  response <- rc_set c k v milliseconds ;;
  match response with Plain (PyBool true) => ret tt | _ => raise (invalid_response SET) end.

Definition set_if_absent_action (key : arg pystr) (value : arg pybytes) (ttl : pyval) : M W bool :=
  k <- pure_outcome (validate_key key) ;;
  v <- pure_outcome (validate_value value) ;;
  milliseconds <- pure_outcome (ttl_milliseconds ttl) ;;
  response <- rc_set_nx c k v milliseconds ;;
  match response with
  | Plain (PyBool true) => ret true
  | Plain PyNone => ret false
  | _ => raise (invalid_response SET_IF_ABSENT)
  end.

Definition delete_action (key : arg pystr) : M W bool :=
  k <- pure_outcome (validate_key key) ;;
  response <- rc_delete c k ;;
  pure_outcome (deleted response DELETE).

Definition delete_if_value_action (key : arg pystr) (expected_value : arg pybytes) : M W bool :=
  k <- pure_outcome (validate_key key) ;;
  v <- pure_outcome (validate_value expected_value) ;;
  response <- rc_eval c COMPARE_AND_DELETE_SCRIPT [k] [PyBytes v] ;;
  pure_outcome (deleted response DELETE_IF_VALUE).

Definition snapshot_action (marker_key result_key : arg pystr) (max_marker_size max_result_size : arg Z)
    : M W RedisCoordinationSnapshot :=
  mk <- pure_outcome (validate_key marker_key) ;;
  rk <- pure_outcome (validate_key result_key) ;;
  raise_if (bool_decide (mk = rk)) (ValueError "marker_key and result_key must be distinct") ;;
  marker_limit <- pure_outcome (validate_size_limit max_marker_size MAX_COORDINATION_MARKER_SIZE) ;;
  result_limit <- pure_outcome (validate_size_limit max_result_size DEFAULT_MAX_ENCODED_SIZE) ;;
  response <- rc_eval c COORDINATION_SNAPSHOT_SCRIPT [mk; rk]
                [PyInt marker_limit; PyInt result_limit] ;;
  pure_outcome (parse_coordination_snapshot response marker_limit result_limit).

Definition publish_action (condition_key : arg pystr) (expected_value : arg pybytes)
    (result_key : arg pystr) (result_value completion_value : arg pybytes) (ttl : pyval) : M W bool :=
  ck <- pure_outcome (validate_key condition_key) ;;
  rk <- pure_outcome (validate_key result_key) ;;
  raise_if (bool_decide (ck = rk)) (ValueError "condition_key and result_key must be distinct") ;;
  expected <- pure_outcome (validate_value expected_value) ;;
  result <- pure_outcome (validate_value result_value) ;;
  completion <- pure_outcome (validate_value completion_value) ;;
  milliseconds <- pure_outcome (ttl_milliseconds ttl) ;;
  response <- rc_eval c PUBLISH_IF_VALUE_SCRIPT [ck; rk]
                [PyBytes expected; PyBytes result; PyInt milliseconds; PyBytes completion] ;;
  pure_outcome (deleted response PUBLISH_IF_VALUE).

End Actions.

(** ** The provider *)

Inductive lifecycle : Type := Open | Closing | Closed.

#[export] Instance lifecycle_eq_dec : EqDecision lifecycle.
Proof. solve_decision. Defined.

(** What the condition guards, and how often [notify_all] was called on it. *)
Record ProviderState : Type := {
  ps_state : lifecycle;
  ps_active : Z;
  ps_terminal_close_error : option exn;
  ps_notified : nat;
}.

Definition open_state : ProviderState :=
  {| ps_state := Open; ps_active := 0; ps_terminal_close_error := None; ps_notified := 0 |}.

Definition ps_set_state (s : ProviderState) (x : lifecycle) : ProviderState :=
  {| ps_state := x; ps_active := ps_active s; ps_terminal_close_error := ps_terminal_close_error s;
     ps_notified := ps_notified s |}.
Definition ps_add_active (n : Z) (s : ProviderState) : ProviderState :=
  {| ps_state := ps_state s; ps_active := ps_active s + n;
     ps_terminal_close_error := ps_terminal_close_error s; ps_notified := ps_notified s |}.
Definition ps_set_terminal_close_error (s : ProviderState) (e : option exn) : ProviderState :=
  {| ps_state := ps_state s; ps_active := ps_active s; ps_terminal_close_error := e;
     ps_notified := ps_notified s |}.

(** [condition.notify_all()]. *)
Definition notify_all (s : ProviderState) : ProviderState :=
  {| ps_state := ps_state s; ps_active := ps_active s; ps_terminal_close_error := ps_terminal_close_error s;
     ps_notified := S (ps_notified s) |}.

Section Provider.
Context {W : Type}.

(** [pv_clock] is [perf_counter_ns]; [pv_wait] is [condition.wait()], during
    which other threads run; [pv_fuel] bounds the wake-ups. *)
Record SyncRedisProvider : Type := {
  pv_client : redis_client W;
  pv_observer : option (RedisEvent -> M W unit);
  pv_command_policy : option RedisCommandPolicy;
  pv_owned : bool;
  pv_data : lens W ProviderState;
  pv_clock : M W Z;
  pv_wait : M W unit;
  pv_fuel : nat;
}.

(** [_emit_to]. *)
Definition emit_to (observer : option (RedisEvent -> M W unit)) (event : RedisEvent) : M W unit :=
  match observer with
  | None => ret tt
  | Some on_event => try_except (on_event event) (fun e => if is_Exception e then Some (ret tt) else None)
  end.

(** [__init__] on a client with these attributes: the policy it finds. *)
Definition init_provider (c : client_attributes) : outcome (option RedisCommandPolicy) :=
  match validate_binary_client c with
  | Raised e => Raised e
  | Returned _ => discover_command_policy c
  end.

(** [from_url], whose keyword options say whether they hold a
    [connection_pool] and what [decode_responses] they ask for; [create] is
    [from_url] of redis-py.  The provider owns the client it returns. *)
Definition from_url (mode : RedisMode) (clock : M W Z) (url : arg pystr) (connection_pool : bool)
    (decode_responses : option pyval) (observer : option (RedisEvent -> M W unit))
    (create : M W (redis_client W * client_attributes))
    : M W (redis_client W * option RedisCommandPolicy) :=
  let report started out code :=
    now <- clock ;;
    event <- pure_outcome (make_redis_event mode CREATE out code (now - started)) ;;
    emit_to observer event in
  started <- clock ;;
  u <- pure_outcome (require_exact url "url must be an exact str") ;;
  raise_if (bool_decide (u = []) || negb (bool_decide (u = strip u)))
    (ValueError "url must be non-blank without surrounding whitespace") ;;
  raise_if connection_pool (TypeError "connection_pool cannot be supplied to from_url") ;;
  raise_if (bool_decide (decode_responses = Some (PyBool true)))
    (ValueError "decode_responses=True is incompatible with the binary provider") ;;
  client <- try_except create (fun cause =>
    if is_Exception cause
    then Some (report started FAILURE (Some (error_code cause)) ;;
               raise (RedisProviderError CREATE (error_code cause)))
    else None) ;;
  policy <- pure_outcome (init_provider (snd client)) ;;
  report started SUCCESS None ;;
  ret (fst client, policy).

Variable p : SyncRedisProvider.

(** [_emit]. *)
Definition emit_redis (operation : RedisOperation) (out : RedisOutcome)
    (code : option RedisErrorCode) (started : Z) : M W unit :=
  now <- pv_clock p ;;
  event <- pure_outcome (make_redis_event SYNC operation out code (now - started)) ;;
  emit_to (pv_observer p) event.

(** The section of [_admit]. *)
Definition admit_section (operation : RedisOperation) (s : ProviderState) : outcome unit * ProviderState :=
  if decide (ps_state s = Open) then (Returned tt, ps_add_active 1 s)
  else (Raised (ProviderClosedError operation), s).

Definition admit_operation (operation : RedisOperation) : M W unit :=
  r <- locked (pv_data p) (admit_section operation) ;; pure_outcome r.

(** The section of [_release]; it wakes the closers when nothing is active. *)
Definition leave_section (s : ProviderState) : unit * ProviderState :=
  let s' := ps_add_active (-1) s in
  (tt, if ps_active s' =? 0 then notify_all s' else s').

Definition release_operation : M W unit := locked (pv_data p) leave_section.

(** The handlers of [_execute], of an action that raised. *)
Definition execute_failure {R} (operation : RedisOperation) (started : Z) (error : exn) : M W R :=
  release_operation ;;
  match error with
  | RedisProviderError _ code =>
      emit_redis operation FAILURE (Some code) started ;; raise error
  | ProviderClosedError _ =>
      emit_redis operation FAILURE (Some CLOSED) started ;; raise error
  | _ =>
      if is_TypeError_or_ValueError error then
        emit_redis operation FAILURE (Some INVALID_INPUT) started ;; raise error
      else if is_Exception error then
        emit_redis operation FAILURE (Some (error_code error)) started ;;
        raise (RedisProviderError operation (error_code error))
      else raise error
  end.

(** [_execute]. *)
Definition execute {R} (operation : RedisOperation) (action : M W R) : M W R :=
  started <- pv_clock p ;;
  try_except (admit_operation operation)
    (fun e =>
       match e with
       | ProviderClosedError _ =>
           Some (emit_redis operation FAILURE (Some CLOSED) started ;; raise e)
       | _ => None
       end) ;;
  result <- try_except action (fun error => Some (execute_failure operation started error)) ;;
  release_operation ;;
  emit_redis operation SUCCESS None started ;;
  ret result.

(** ** The commands *)

Definition provider_get (key : arg pystr) : M W (option pybytes) :=
  execute GET (get_action (pv_client p) key).

Definition provider_set (key : arg pystr) (value : arg pybytes) (ttl : pyval) : M W unit :=
  execute SET (set_action (pv_client p) key value ttl).

Definition set_if_absent (key : arg pystr) (value : arg pybytes) (ttl : pyval) : M W bool :=
  execute SET_IF_ABSENT (set_if_absent_action (pv_client p) key value ttl).

Definition provider_delete (key : arg pystr) : M W bool :=
  execute DELETE (delete_action (pv_client p) key).

Definition delete_if_value (key : arg pystr) (expected_value : arg pybytes) : M W bool :=
  execute DELETE_IF_VALUE (delete_if_value_action (pv_client p) key expected_value).

Definition coordination_snapshot (marker_key result_key : arg pystr) (max_marker_size max_result_size : arg Z)
    : M W RedisCoordinationSnapshot :=
  execute COORDINATION_SNAPSHOT (snapshot_action (pv_client p) marker_key result_key max_marker_size max_result_size).

Definition publish_if_value (condition_key : arg pystr) (expected_value : arg pybytes)
    (result_key : arg pystr) (result_value completion_value : arg pybytes) (ttl : pyval) : M W bool :=
  execute PUBLISH_IF_VALUE (publish_action (pv_client p) condition_key expected_value result_key
       result_value completion_value ttl).

(** ** Closing *)

Inductive close_role : Type := CloseLeader | CloseFollower | CloseDone.

(** The first section of [close]. *)
Definition begin_close (s : ProviderState) : close_role * ProviderState :=
  match ps_state s with
  | Closed => (CloseDone, s)
  | Closing => (CloseFollower, s)
  | Open => (CloseLeader, ps_set_state s Closing)
  end.

(** [while condition: self._condition.wait()]. *)
Fixpoint wait_until (fuel : nat) (done : ProviderState -> bool) : M W ProviderState :=
  match fuel with
  | O => raise FuelExhausted
  | S fuel' =>
      s <- locked (pv_data p) (fun s => (s, s)) ;;
      if done s then ret s else pv_wait p ;; wait_until fuel' done
  end.

(** The section that ends the leader's close. *)
Definition end_close (terminal : option exn) (s : ProviderState) : unit * ProviderState :=
  (tt, notify_all (ps_set_state (ps_set_terminal_close_error s terminal) Closed)).

(** The leader closes the client it owns: the error to report, if any. *)
Definition close_client : M W (option exn) :=
  if pv_owned p then
    try_except (rc_close (pv_client p) ;; ret None)
      (fun cause => if is_Exception cause
                    then Some (ret (Some (RedisProviderError CLOSE (error_code cause)))) else None)
  else ret None.

(** [close]. *)
Definition provider_close : M W unit :=
  started <- pv_clock p ;;
  role <- locked (pv_data p) begin_close ;;
  terminal <-
    match role with
    | CloseDone => ret None
    | CloseFollower =>
        s <- wait_until (pv_fuel p) (fun s => bool_decide (ps_state s = Closed)) ;;
        ret (ps_terminal_close_error s)
    | CloseLeader =>
        wait_until (pv_fuel p) (fun s => ps_active s =? 0) ;;
        closed <- capture close_client ;;
        match closed with
        | Returned terminal => locked (pv_data p) (end_close terminal) ;; ret terminal
        | Raised e => locked (pv_data p) (end_close None) ;; raise e
        end
    end ;;
  emit_redis CLOSE (match terminal with Some _ => FAILURE | None => SUCCESS end)
    (match terminal with Some (RedisProviderError _ code) => Some code | _ => None end) started ;;
  match terminal with Some e => raise e | None => ret tt end.

(** [__enter__] and [__exit__]. *)
Definition provider_enter : M W unit :=
  s <- locked (pv_data p) (fun s => (s, s)) ;;
  raise_if (negb (bool_decide (ps_state s = Open))) (ProviderClosedError GET).

Definition provider_exit : M W unit := provider_close.
End Provider.
Arguments SyncRedisProvider : clear implicits.
