(* ===== verification/RedisProviderLaws.v ===== *)
(** * What the Redis byte provider guarantees

    A command never leaks its count, and reports one event that names its
    outcome; [from_url] reports what it made.  The lifecycle and the close are in
    ProviderClosing.v. *)

From Stdlib Require Import SpecFloat.
From S2P Require Import Prelude Python Leader RedisProvider.
Open Scope py_scope.
Open Scope Z_scope.
Import Redis.

(** ** One command *)

Section Balance.
Context {W R : Type} (p : SyncRedisProvider W) `{!LensLaws (pv_data p)}.

Definition active_is (n : Z) (w : W) : Prop := ps_active (lget (pv_data p) w) = n.

(** Callbacks that leave the count as it was; the commands of the provider
    itself are such callbacks, by the theorem below. *)
Hypothesis clock_keeps : forall n, keeps (active_is n) (pv_clock p).
Hypothesis observer_keeps :
  forall on_event e n, pv_observer p = Some on_event -> keeps (active_is n) (on_event e).

Lemma emit_keeps operation out code started n :
  keeps (active_is n) (emit_redis p operation out code started).
Proof.
  unfold emit_redis, emit_to. apply keeps_bind; [apply clock_keeps|intros now].
  apply keeps_bind; [apply keeps_pure_outcome|intros e].
  destruct (pv_observer p) as [on_event|] eqn:Eo; [|apply keeps_ret].
  apply keeps_try_except; [by apply observer_keeps|].
  intros error h. destruct (is_Exception error); [|done]. intros [= <-]. apply keeps_ret.
Qed.

(** From one more in the count to [n]. *)
Definition gives_back {A} (n : Z) (m : M W A) : Prop :=
  triple (active_is (n + 1)) m (settled (active_is n)).

Lemma give_back_then {A} n (k : M W A) :
  keeps (active_is n) k -> gives_back n (release_operation p ;; k).
Proof.
  intros Hk. apply triple_bind with (R := fun _ => active_is n); [|intros _; apply Hk].
  apply triple_locked. intros w Hw. unfold active_is in *. cbn. rewrite lget_lput. destruct (_ =? 0); cbn; lia.
Qed.

Lemma then_raise {A} n (m : M W unit) e :
  keeps (active_is n) m -> triple (active_is n) (m ;; raise (A := A) e) (raised (active_is n)).
Proof.
  intros Hm. apply triple_keeps_bind; [done| |].
  - intros e' w [[= ->]|Hw]; [by left|by right].
  - intros _. apply triple_raise. intros w Hw. by right.
Qed.

Lemma failure_gives_back operation started error n :
  triple (active_is (n + 1)) (execute_failure (R := R) p operation started error) (raised (active_is n)).
Proof.
  apply triple_bind with (R := fun _ => active_is n).
  - apply triple_locked. intros w Hw. unfold active_is in *. cbn. rewrite lget_lput. destruct (_ =? 0); cbn; lia.
  - intros _. assert (forall e, triple (active_is n) (raise (A := R) e) (raised (active_is n))).
    { intros e. apply triple_raise. intros w Hw. by right. }
    destruct error; cbn; repeat case_match; auto using then_raise, emit_keeps.
Qed.

Lemma execute_keeps operation (action : M W R) n :
  (forall k, keeps (active_is k) action) -> keeps (active_is n) (execute p operation action).
Proof.
  intros Ha. unfold execute. apply keeps_bind; [apply clock_keeps|intros started].
  apply triple_bind with (R := fun _ => active_is (n + 1)).
  - apply triple_try_except with (E := fun _ => active_is n).
    + apply triple_bind with (R := fun r w =>
        match r with Returned _ => active_is (n + 1) w | Raised _ => active_is n w end).
      * apply triple_locked. intros w Hw. unfold admit_section, active_is in *.
        destruct (decide _); cbn; rewrite lget_lput; cbn; lia.
      * intros [[]|e] w Hw; done.
    + intros e h _ Hh. destruct e; try done. injection Hh as <-.
      apply triple_keeps_bind; [apply emit_keeps| |].
      * intros e' w [[= ->]|Hw]; [by left|by right].
      * intros _. apply triple_raise. intros w Hw. by right.
    + intros e w _ Hw. by right.
  - intros _. apply triple_bind with (R := fun _ => active_is (n + 1)).
    + apply triple_try_except with (E := fun e w => e = FuelExhausted \/ active_is (n + 1) w).
      * eapply triple_conseq; [apply Ha|done|].
        intros [r|e] w Hs; [by apply settled_returned in Hs|]. destruct Hs as [[= ->]|Hs]; auto.
      * intros e h Hne [= <-] w [->|Hw]; [done|].
        pose proof (failure_gives_back operation started e n w Hw) as Hg.
        by destruct (execute_failure p operation started e w) as [[] ?].
      * intros e w [Hn|Hf] [Hf'|Hw]; subst; try done; by left.
    + intros r. apply give_back_then. apply keeps_bind; [apply emit_keeps|intros _; apply keeps_ret].
Qed.
End Balance.

(** A command of the provider gives its place in the count back on every
    path: when it is refused, when its arguments are, when the client fails,
    answers nonsense or is interrupted, and when the observer raises; so that
    [close] never waits for a command that has ended. *)
Theorem execute_leaks_nothing {W R} (p : SyncRedisProvider W) `{!LensLaws (pv_data p)}
    operation (action : M W R) n :
  (forall k, keeps (active_is p k) (pv_clock p)) ->
  (forall on_event e k, pv_observer p = Some on_event -> keeps (active_is p k) (on_event e)) ->
  (forall k, keeps (active_is p k) action) ->
  keeps (active_is p n) (execute p operation action).
Proof. intros Hc Ho Ha. by apply execute_keeps. Qed.

(** ** What a command answers and reports *)

Section Report.
Context {E R : Type}.

(** A world of the provider's state, the events observed so far, and the rest,
    which tells the time. *)
Abbreviation observed_world := (ProviderState * list RedisEvent * E)%type.

Definition observed_state : lens observed_world ProviderState :=
  Lens _ _ (fun w => w.1.1) (fun s w => (s, w.1.2, w.2)).

Variables (client : redis_client observed_world) (time : E -> Z).

Definition observed_provider : SyncRedisProvider observed_world := {|
  pv_client := client;
  pv_observer := Some (fun ev w => (Returned tt, (w.1.1, w.1.2 ++ [ev], w.2)));
  pv_command_policy := None;
  pv_owned := false;
  pv_data := observed_state;
  pv_clock := fun w => (Returned (time w.2), w);
  pv_wait := ret tt;
  pv_fuel := 0;
|}.

(** The specification: the caller's outcome, and the code of the event, unless
    the command was interrupted. *)
Definition report (operation : RedisOperation) (r : outcome R)
    : outcome R * option (RedisOutcome * option RedisErrorCode) :=
  match r with
  | Returned a => (r, Some (SUCCESS, None))
  | Raised (RedisProviderError _ code) => (r, Some (FAILURE, Some code))
  | Raised (ProviderClosedError _) => (r, Some (FAILURE, Some CLOSED))
  | Raised e =>
      if is_TypeError_or_ValueError e then (r, Some (FAILURE, Some INVALID_INPUT))
      else if is_Exception e then
        (Raised (RedisProviderError operation (error_code e)), Some (FAILURE, Some (error_code e)))
      else (r, None)
  end.

Definition events_of (operation : RedisOperation) (elapsed : Z)
    (reported : option (RedisOutcome * option RedisErrorCode)) : list RedisEvent :=
  match reported with
  | None => []
  | Some (out, code) =>
      [{| ev_mode := SYNC; ev_operation := operation; ev_outcome := out; ev_error_code := code;
          ev_elapsed_ns := elapsed |}]
  end.

(** The state a command that was admitted leaves. *)
Definition left_state (s : ProviderState) : ProviderState := snd (leave_section (ps_add_active 1 s)).

Lemma emit_observed operation out code started (w : observed_world) :
  started <= time w.2 ->
  emit_redis observed_provider operation out code started w
  = (Returned tt, (w.1.1, w.1.2 ++ events_of operation (time w.2 - started) (Some (out, code)), w.2)).
Proof.
  intros Ht. unfold emit_redis, emit_to, bind, pure_outcome, make_redis_event. cbn.
  by rewrite (proj2 (Z.ltb_ge _ _)) by lia.
Qed.

(** The commands implement their specification.  An open provider runs the
    action once and answers as [report] says: a provider's error and a bad
    argument pass, any other exception of the client becomes a provider error
    with the code of its class; one event tells how it ended and how long it
    took, none when it was interrupted.  A provider that is closing or closed
    refuses without running the action. *)
Theorem execute_reports operation (action : M observed_world R) w :
  fst (action (ps_add_active 1 w.1.1, w.1.2, w.2)) <> Raised FuelExhausted ->
  (forall w, (snd (action w)).1 = w.1 /\ time w.2 <= time (snd (action w)).2) ->
  execute observed_provider operation action w =
  if decide (ps_state w.1.1 = Open) then
    let '(r, w1) := action (ps_add_active 1 w.1.1, w.1.2, w.2) in
    let '(answer, reported) := report operation r in
    (answer, (left_state w.1.1, w.1.2 ++ events_of operation (time w1.2 - time w.2) reported, w1.2))
  else
    (Raised (ProviderClosedError operation),
     (w.1.1, w.1.2 ++ events_of operation 0 (Some (FAILURE, Some CLOSED)), w.2)).
Proof.
  intros Hf Ha. destruct w as [[st log] env]. cbn [fst snd] in *.
  unfold execute, bind at 1. cbn [pv_clock observed_provider fst snd].
  unfold admit_operation, locked, admit_section. cbn [lget lput pv_data observed_provider observed_state].
  unfold bind at 1, try_except at 1, bind at 1. cbn [fst snd].
  destruct (decide (ps_state st = Open)) as [Eo|Eo]; cbn [pure_outcome fst snd].
  - specialize (Ha (ps_add_active 1 st, log, env)). cbn [fst snd] in Ha. unfold pure_outcome, bind at 1, try_except.
    destruct (action (ps_add_active 1 st, log, env)) as [r [st_log env1]]. cbn [fst snd] in *.
    destruct Ha as [-> Ht].
    assert (forall {A} (k : M observed_world A), (release_operation observed_provider ;; k)
      (ps_add_active 1 st, log, env1) = k (left_state st, log, env1)) as Hrel by done.
    assert (forall {A} out code (k : M observed_world A),
      (emit_redis observed_provider operation out code (time env) ;; k) (left_state st, log, env1)
      = k (left_state st, log ++ events_of operation (time env1 - time env) (Some (out, code)), env1)) as Hemit.
    { intros A out code k. unfold bind. by rewrite emit_observed. }
    destruct r as [a|e]; cbn [report].
    + by rewrite Hrel, Hemit.
    + destruct e; try done; unfold execute_failure; rewrite ?Hrel; cbn; rewrite ?Hemit;
        try done; cbn; by rewrite ?app_nil_r.
  - unfold bind at 1. unfold bind at 1. rewrite emit_observed by (cbn; lia). cbn [fst snd raise].
    by rewrite Z.sub_diag.
Qed.
End Report.

(** ** A time to live beyond the floats *)

Definition huge_ttl : float := S754_finite false 4503599627370496 970.

(** A finite, positive time to live whose milliseconds are beyond the largest
    float is no [ValueError], as one beyond the range of Redis is: [math.ceil]
    raises [OverflowError], and the command blames the provider for it. *)
Theorem huge_ttl_blames_provider :
  is_finite huge_ttl = true /\
  ttl_milliseconds (PyFloat huge_ttl) = Raised OverflowError /\
  report (R := unit) SET (Raised OverflowError)
    = (Raised (RedisProviderError SET PROVIDER_FAILURE), Some (FAILURE, Some PROVIDER_FAILURE)) /\
  ttl_milliseconds (PyInt 9223372036854775807)
    = Raised (ValueError "ttl is outside the supported Redis range").
Proof. vm_compute. done. Qed.

(** ** Factories *)

(** [from_url] checks its arguments before it reports anything; a client that
    cannot be made is a provider error with the code of its class, reported once;
    a client that is made is owned and reported once. *)
Lemma from_url_answers {W} mode (clock : M W Z) url pool decode observer create w w1 w2 started :
  url <> [] -> url = strip url -> pool = false -> decode <> Some (PyBool true) ->
  clock w = (Returned started, w1) ->
  let report out code :=
    now <- clock ;;
    event <- pure_outcome (make_redis_event mode CREATE out code (now - started)) ;;
    emit_to observer event in
  (forall cause, create w1 = (Raised cause, w2) -> is_Exception cause = true ->
     from_url mode clock (Exact url) pool decode observer create w
     = (report FAILURE (Some (error_code cause)) ;; raise (RedisProviderError CREATE (error_code cause))) w2) /\
  (forall c attributes policy, create w1 = (Returned (c, attributes), w2) ->
     init_provider attributes = Returned policy ->
     from_url mode clock (Exact url) pool decode observer create w
     = (report SUCCESS None ;; ret (c, policy)) w2).
Proof.
  intros Hne Hs -> Hd Hclock report.
  assert (from_url mode clock (Exact url) false decode observer create w
    = (client <- try_except create (fun cause =>
         if is_Exception cause
         then Some (report FAILURE (Some (error_code cause)) ;;
                    raise (RedisProviderError CREATE (error_code cause)))
         else None) ;;
       policy <- pure_outcome (init_provider (snd client)) ;;
       report SUCCESS None ;; ret (fst client, policy)) w1) as ->.
  { unfold from_url. rewrite (bind_returned _ _ _ _ _ Hclock), (bind_returned _ _ _ url w1) by done.
    rewrite (bool_decide_eq_false_2 _ Hne), (bool_decide_eq_true_2 _ Hs), (bool_decide_eq_false_2 _ Hd). done. }
  split; [intros cause E He|intros c attributes policy E Hi].
  - unfold bind at 1, try_except. rewrite E, He.
    destruct ((report FAILURE (Some (error_code cause)) ;;
               raise (A := redis_client W * client_attributes) (RedisProviderError CREATE (error_code cause))) w2)
      as [[r|e] w3] eqn:Er; unfold bind in Er |- *; destruct (report _ _ w2) as [[[]|] ?]; try done;
      injection Er as <- <-; by destruct cause.
  - rewrite (bind_returned _ _ _ (c, attributes) w2) by (unfold try_except; by rewrite E). cbn [fst snd].
    by rewrite Hi.
Qed.

(** A socket timeout beyond the floats escapes the discovery of the policy:
    [float] raises [OverflowError], which the handler does not name, and
    [from_url] drops the client it has just made. *)
Definition huge_timeout_client : client_attributes :=
  {| ca_pool_timeout := false;
     ca_kwargs := Some {| kw_decode_responses := PyBool false; kw_retry_on_timeout := None;
       kw_retry_on_error := NoErrors; kw_retry := PyNone; kw_socket_connect_timeout := PyInt (10 ^ 400);
       kw_socket_timeout := PyInt 1 |} |}.

Lemma huge_timeout_escapes : init_provider huge_timeout_client = Raised OverflowError.
Proof. vm_compute. reflexivity. Qed.

Example half_second : ttl_milliseconds (PyFloat (S754_finite false 4503599627370496 (-53))) = Returned 500.
Proof. vm_compute. reflexivity. Qed.

(** ** Witnesses *)

Section Witnesses.
Abbreviation pw_world := (ProviderState * list RedisEvent * Z)%type.

Definition pw_client : redis_client pw_world := {|
  rc_get _ := ret (Plain (PyBytes [1]));
  rc_set _ _ _ := raise RedisTimeoutError;
  rc_set_nx _ _ _ := ret (Plain PyNone);
  rc_delete _ := ret (Plain (PyInt 1));
  rc_eval _ _ _ := ret (Plain (PyInt 1));
  rc_close := ret tt;
|}.

Definition pw_provider : SyncRedisProvider pw_world := observed_provider pw_client (fun t => t).

Lemma execute_leaks_nothing_witness :
  keeps (active_is pw_provider 0) (execute pw_provider SET (raise (A := unit) RedisTimeoutError)).
Proof.
  assert (LensLaws (pv_data pw_provider)) by (constructor; [done|by intros [[]]|done]).
  refine (execute_leaks_nothing pw_provider SET _ 0 _ _ _).
  - intros k w Hw. by right.
  - intros on_event e k [= <-] w Hw. right. exact Hw.
  - intros k. apply keeps_raise.
Defined.

Lemma execute_reports_witness :
  provider_set pw_provider (Exact (py "k")) (Exact [1]) (PyInt 1) (open_state, [], 0)
  = (Raised (RedisProviderError SET TIMEOUT),
     (notify_all open_state, [{| ev_mode := SYNC; ev_operation := SET; ev_outcome := FAILURE;
                      ev_error_code := Some TIMEOUT; ev_elapsed_ns := 0 |}], 0)).
Proof.
  unfold provider_set. rewrite (execute_reports pw_client (fun t => t) SET); [reflexivity|discriminate|].
  intros w. split; [reflexivity|]. apply Z.le_refl.
Defined.
End Witnesses.
