(* ===== verification/ProviderClosing.v ===== *)
(** * The lifecycle of the Redis byte provider under interference

    [execute] and [close] of [RedisProvider.v], run by any number of threads.  A
    book, kept beside the world, says how many admitted commands the other
    threads run and whether one of them leads a close; an operation may rely on
    the others entering there what they do, and guarantees to leave the book true.
    The client records the state of the provider each time it is closed. *)

From Stdlib Require Import SpecFloat.
From S2P Require Import Prelude Python Leader RedisProvider.
Open Scope py_scope.
Open Scope Z_scope.
Import Redis.

(** ** The books *)

(** How far the leader of a close is: it waits for the commands, it has seen that
    there are none, the client is closed. *)
Inductive leading : Type := NotLeading | Draining | Drained | ClientClosed.

(** What calls in progress hold: admitted commands, and the lead of a close. *)
Record holdings : Type := Holdings {
  hd_commands : nat;
  hd_leading : leading;
}.

Definition leads (x : leading) (mine : holdings) : holdings := Holdings (hd_commands mine) x.

(** The lead is held by one at most. *)
Definition one_leads (a b : leading) : option leading :=
  match a, b with
  | NotLeading, x | x, NotLeading => Some x
  | _, _ => None
  end.

(** The record of a client that was closed as it should: once, if the provider
    owns it, and then with no command running. *)
Definition closed_once (owned : bool) (closings : list ProviderState) : Prop :=
  if owned then exists s, closings = [s] /\ ps_active s = 0 /\ ps_state s = Closing else closings = [].

(** The error that a close leaves for the closers that follow it. *)
Definition close_error (terminal : option exn) : Prop :=
  match terminal with None => True | Some e => exists code, e = RedisProviderError CLOSE code end.

(** With [n] admitted commands and a close that is [lead]. *)
Record books (owned : bool) (n : nat) (lead : leading) (closings : list ProviderState)
    (s : ProviderState) : Prop := {
  bk_active : ps_active s = Z.of_nat n;
  bk_terminal : close_error (ps_terminal_close_error s);
  bk_phase :
    match lead with
    | NotLeading => ps_state s = Open /\ closings = [] \/
                    ps_state s = Closed /\ n = 0%nat /\ closed_once owned closings
    | Draining => ps_state s = Closing /\ closings = []
    | Drained => ps_state s = Closing /\ n = 0%nat /\ closings = []
    | ClientClosed => ps_state s = Closing /\ n = 0%nat /\ closed_once owned closings
    end;
}.

Definition rank (x : lifecycle) : Z := match x with Open => 0 | Closing => 1 | Closed => 2 end.

(** What may have happened between two states.  The lifecycle only moves on, and
    once it has left [Open] no command is admitted.  Whatever a closer waits for
    is announced when it becomes true, and a closing provider announces nothing
    else: first that no command is left, then that it is closed. *)
Record since (s0 s : ProviderState) : Prop := {
  sn_rank : rank (ps_state s0) <= rank (ps_state s);
  sn_active : ps_state s0 <> Open -> ps_active s <= ps_active s0;
  sn_notified : (ps_notified s0 <= ps_notified s)%nat;
  sn_drained : ps_active s <= 0 -> ps_active s0 <= 0 \/ (ps_notified s0 < ps_notified s)%nat;
  sn_closed : ps_state s = Closed -> ps_state s0 = Closed \/ (ps_notified s0 < ps_notified s)%nat;
  sn_first : ps_state s0 <> Open -> (ps_notified s0 < ps_notified s)%nat -> ps_active s <= 0;
  sn_second : ps_state s0 <> Open -> ps_active s0 <= 0 -> (ps_notified s0 < ps_notified s)%nat ->
              ps_state s = Closed;
}.

Lemma rank_open s : ps_state s <> Open <-> 1 <= rank (ps_state s).
Proof. unfold rank. destruct (ps_state s); split; (done || lia). Qed.

Lemma rank_closed s : ps_state s = Closed <-> 2 <= rank (ps_state s).
Proof. unfold rank. destruct (ps_state s); split; (done || lia). Qed.

#[export] Instance since_preorder : PreOrder since.
Proof.
  split; [intros s; constructor; try lia; auto; lia|].
  intros s1 s2 s3 [] []. rewrite ?rank_open, ?rank_closed in *.
  constructor; rewrite ?rank_open, ?rank_closed; try lia.
Qed.

(** ** The critical sections *)

Section Sections.
Variables (owned : bool) (l : list ProviderState).

Lemma admit_books operation n lead s s' :
  books owned n lead l s -> admit_section operation s = (Returned tt, s') ->
  books owned (S n) lead l s' /\ since s s'.
Proof.
  intros [Ha Ht Hp] E. unfold admit_section in E. destruct (decide _) as [Eo|]; [|done]. injection E as <-.
  split; [|constructor; cbn; rewrite ?Eo; (done || lia || auto)].
  constructor; cbn; [lia|done|]. destruct lead; rewrite Eo in *; try by destruct Hp.
  left. by destruct Hp as [[_ ->]|[? _]].
Qed.

Lemma refused_books operation s s' e : admit_section operation s = (Raised e, s') -> s' = s.
Proof. unfold admit_section. destruct (decide _); [done|]. by intros [= _ <-]. Qed.

Lemma leave_books n lead s :
  books owned (S n) lead l s ->
  books owned n lead l (snd (leave_section s)) /\ since s (snd (leave_section s)).
Proof.
  intros [Ha Ht Hp].
  assert (ps_state s <> Closed /\ lead <> Drained /\ lead <> ClientClosed) as (Hs & H1 & H2).
  { destruct lead; try (destruct Hp as [-> _]; done); try (by destruct Hp as (_ & ? & _)).
    by destruct Hp as [[-> _]|(_ & ? & _)]. }
  assert (forall s', ps_state s' = ps_state s -> ps_active s' = Z.of_nat n ->
    ps_terminal_close_error s' = ps_terminal_close_error s -> books owned n lead l s') as Hb.
  { intros s' E1 E2 E3. constructor; [done|by rewrite E3|]. rewrite E1. destruct lead; try done.
    destruct Hp as [?|[? _]]; [by left|done]. }
  unfold leave_section. cbn [snd]. destruct (Z.eqb_spec (ps_active (ps_add_active (-1) s)) 0) as [E|E]; cbn in E;
    (split; [apply Hb; cbn; (done || lia)|constructor; cbn; (done || lia || auto)]).
Qed.

Lemma begin_books n lead s s' :
  books owned n lead l s -> begin_close s = (CloseLeader, s') ->
  lead = NotLeading /\ books owned n Draining l s' /\ since s s'.
Proof.
  intros [Ha Ht Hp] E. unfold begin_close in E. destruct (ps_state s) eqn:Eo; try done. injection E as <-.
  assert (lead = NotLeading /\ l = []) as [-> Hl].
  { destruct lead; try by destruct Hp. by destruct Hp as [[_ ->]|[? _]]. }
  split; [done|]. split; [by constructor|]. constructor; cbn; rewrite ?Eo; (done || lia || auto).
Qed.

Lemma end_books n terminal s :
  close_error terminal -> books owned n ClientClosed l s ->
  books owned n NotLeading l (snd (end_close terminal s)) /\ since s (snd (end_close terminal s)).
Proof.
  intros He [Ha Ht (Es & -> & Hl)]. split; [constructor; cbn; [done|done|by right]|].
  constructor; cbn; rewrite ?Es; cbn; try (done || lia).
Qed.
End Sections.

Lemma one_leads_free a b : one_leads a b = Some NotLeading -> a = NotLeading /\ b = NotLeading.
Proof. by destruct a, b. Qed.

Lemma one_leads_mine a x : a <> NotLeading -> forall b, one_leads a b = Some x -> x = a /\ b = NotLeading.
Proof. intros Ha b. destruct a, b; try done; by intros [= <-]. Qed.

(** ** The operations *)

Section Interference.
Context {W : Type} (p : SyncRedisProvider W) `{!LensLaws (pv_data p)}.

(** What the other threads hold, and the record of the client. *)
Context (others : W -> holdings) `{!Framed (pv_data p) others}.
Context (closings : lens W (list ProviderState)) `{!LensLaws closings} `{!Framed closings others}
  `{!Framed closings (lget (pv_data p))} `{!Framed (pv_data p) (lget closings)}.

Abbreviation provider_of := (lget (pv_data p)).

Definition ledger (mine : holdings) (w : W) : Prop :=
  exists lead, one_leads (hd_leading mine) (hd_leading (others w)) = Some lead /\
    books (pv_owned p) (hd_commands mine + hd_commands (others w)) lead (lget closings w) (provider_of w).

(** The books are true, and [s0] has become the present state in a proper way. *)
Definition ledger_since (mine : holdings) (s0 : ProviderState) (w : W) : Prop :=
  ledger mine w /\ since s0 (provider_of w).

(** A computation that takes nothing of the calls around it and leaves the books
    true, whoever runs inside it. *)
Definition considerate {A} (m : M W A) : Prop :=
  forall mine s0, keeps (ledger_since mine s0) m.

(** What a client does when it is closed: it records the state of the provider,
    then closes its connections, while other threads run. *)
Definition records_closing (body : M W unit) : Prop :=
  forall w, rc_close (pv_client p) w = body (lput closings (lget closings w ++ [provider_of w]) w).

Hypothesis clock_considerate : considerate (pv_clock p).
Hypothesis observer_considerate :
  forall on_event e, pv_observer p = Some on_event -> considerate (on_event e).

Lemma emit_considerate operation out code started :
  considerate (emit_redis p operation out code started).
Proof.
  intros mine s0. unfold emit_redis, emit_to. apply keeps_bind; [apply clock_considerate|intros now].
  apply keeps_bind; [apply keeps_pure_outcome|intros e].
  destruct (pv_observer p) as [on_event|] eqn:Eo; [|apply keeps_ret].
  apply keeps_try_except; [by apply observer_considerate|].
  intros error h. destruct (is_Exception error); [|done]. intros [= <-]. apply keeps_ret.
Qed.

(** A critical section that changes what this call holds. *)
Lemma section_moves {A} (f : ProviderState -> A * ProviderState) mine mine' s0 w :
  ledger_since mine s0 w ->
  (forall lead, one_leads (hd_leading mine) (hd_leading (others w)) = Some lead ->
     books (pv_owned p) (hd_commands mine + hd_commands (others w)) lead (lget closings w) (provider_of w) ->
     exists lead', one_leads (hd_leading mine') (hd_leading (others w)) = Some lead' /\
       books (pv_owned p) (hd_commands mine' + hd_commands (others w)) lead' (lget closings w)
         (snd (f (provider_of w))) /\ since (provider_of w) (snd (f (provider_of w)))) ->
  ledger_since mine' s0 (lput (pv_data p) (snd (f (provider_of w))) w).
Proof.
  intros [(lead & Hl & Hb) Hs] Hf. destruct (Hf lead Hl Hb) as (lead' & Hl' & Hb' & Hs').
  split; [|rewrite lget_lput; by etrans].
  exists lead'. rewrite lget_lput, (framed (g := others)), (framed (g := lget closings)). done.
Qed.

Lemma release_moves {A} mine n s0 (k : M W A) Q :
  hd_commands mine = S n ->
  triple (ledger_since (Holdings n (hd_leading mine)) s0) k Q ->
  triple (ledger_since mine s0) (release_operation p ;; k) Q.
Proof.
  intros Hn Hk. apply triple_bind with (R := fun _ => ledger_since (Holdings n (hd_leading mine)) s0); [|done].
  apply triple_locked. intros w Hw. eapply section_moves; [exact Hw|]. cbn. intros lead Hl Hb.
  rewrite Hn in Hb. exists lead. split; [done|]. by apply leave_books.
Qed.

Lemma considerate_raise {A} (m : M W unit) e mine s0 :
  considerate m -> triple (ledger_since mine s0) (m ;; raise (A := A) e) (raised (ledger_since mine s0)).
Proof.
  intros Hm. apply triple_keeps_bind; [apply Hm|intros e' w; apply settled_raised|].
  intros _. apply triple_raise. by right.
Qed.

Lemma failure_moves {R} operation started error mine n s0 :
  hd_commands mine = S n ->
  triple (ledger_since mine s0) (execute_failure (R := R) p operation started error)
    (raised (ledger_since (Holdings n (hd_leading mine)) s0)).
Proof.
  intros Hn. unfold execute_failure. eapply release_moves; [done|].
  assert (forall e, triple (ledger_since (Holdings n (hd_leading mine)) s0) (raise (A := R) e)
            (raised (ledger_since (Holdings n (hd_leading mine)) s0))).
  { intros e. apply triple_raise. by right. }
  destruct error; cbn; repeat case_match; auto using considerate_raise, emit_considerate.
Qed.

(** [execute] runs its action as one admitted command, and gives that up. *)
Lemma execute_considerate {R} operation (action : M W R) :
  (forall mine s0, (1 <= hd_commands mine)%nat -> keeps (ledger_since mine s0) action) ->
  considerate (execute p operation action).
Proof.
  intros Ha mine s0. unfold execute. apply keeps_bind; [apply clock_considerate|intros started].
  set (more := Holdings (S (hd_commands mine)) (hd_leading mine)).
  assert (forall s w, ledger_since (Holdings (hd_commands mine) (hd_leading mine)) s w = ledger_since mine s w) as Eta
    by (intros; by destruct mine).
  apply triple_bind with (R := fun _ => ledger_since more s0).
  - apply triple_try_except with (E := fun _ => ledger_since mine s0).
    + apply triple_bind with (R := fun r w =>
        match r with Returned _ => ledger_since more s0 w | Raised _ => ledger_since mine s0 w end).
      * apply triple_locked. intros w Hw.
        destruct (admit_section operation (provider_of w)) as [[[]|e] s'] eqn:E; cbn.
        { change s' with (snd (@Returned unit tt, s')). rewrite <-E. eapply section_moves; [exact Hw|].
          rewrite E. cbn. intros lead Hl Hb. exists lead. split; [done|]. by eapply admit_books. }
        apply refused_books in E as ->. by rewrite lput_lget.
      * intros [[]|e] w Hw; done.
    + intros e h _ Hh. destruct e; try done. injection Hh as <-.
      eapply triple_conseq; [apply considerate_raise, emit_considerate|done|].
      intros [] w; [done|apply settled_raised].
    + intros e w _ Hw. by right.
  - intros _. apply triple_bind with (R := fun _ => ledger_since more s0).
    + apply triple_try_except with (E := fun e => settled (ledger_since more s0) (@Raised R e)).
      * eapply triple_conseq; [apply (Ha more s0); unfold more; cbn; lia|done|]. by intros [r|e] w; [intros [[=]|]|].
      * intros e h _ [= <-] w [[= ->]|Hw]; [by left|].
        pose proof (failure_moves (R := R) operation started e more (hd_commands mine) s0 eq_refl w Hw) as Hf.
        destruct (execute_failure p operation started e w) as [[]]; cbn in *; [done|].
        unfold settled in *. by rewrite Eta in Hf.
      * intros e w [[=]| ->] ?. by left.
    + intros r. apply (release_moves more (hd_commands mine)); [done|]. cbn.
      eapply triple_conseq with (P' := ledger_since mine s0) (Q' := settled (ledger_since mine s0));
        [|by intros w; rewrite Eta|done].
      apply keeps_bind; [apply emit_considerate|intros _; apply keeps_ret].
Qed.

(** ** Closing *)

Variable body : M W unit.
Hypothesis client_records : records_closing body.
Hypothesis body_considerate : considerate body.
Hypothesis wait_considerate : considerate (pv_wait p).

(** [Condition.wait] and [perf_counter_ns] raise nothing. *)
Hypothesis wait_returns : forall w e w', pv_wait p w = (Raised e, w') -> e = FuelExhausted.
Hypothesis clock_returns : forall w e w', pv_clock p w = (Raised e, w') -> e = FuelExhausted.

(** A closed provider stays closed. *)
Definition ledger_closed (mine : holdings) (s0 : ProviderState) (w : W) : Prop :=
  ledger_since mine s0 w /\ ps_state (provider_of w) = Closed.

Lemma since_then mine s0 s w :
  since s0 s -> ledger_since mine s w -> ledger_since mine s0 w.
Proof. intros H [Hl Hs]. split; [done|]. by etrans. Qed.

Lemma keeps_closed {A} (m : M W A) mine s0 : considerate m -> keeps (ledger_closed mine s0) m.
Proof.
  intros Hm w [[Hl Hs] Hc].
  destruct (Hm mine (provider_of w) w) as [H|[Hl' Hs']]; [by split|by left|]. right.
  split; [split; [done|by etrans]|]. apply sn_rank in Hs'. rewrite rank_closed in *. lia.
Qed.

(** A wait ends in a state that is [done], with the lock held. *)
Lemma wait_until_done fuel done_ mine s0 :
  triple (ledger_since mine s0) (wait_until p fuel done_)
    (fun r w => match r with
                | Returned s => ledger_since mine s0 w /\ s = provider_of w /\ done_ s = true
                | Raised e => e = FuelExhausted
                end).
Proof.
  induction fuel as [|fuel IH]; [by apply triple_raise|]. cbn [wait_until].
  apply triple_bind with (R := fun s w => ledger_since mine s0 w /\ s = provider_of w).
  { apply triple_locked. intros w Hw. cbn. by rewrite lput_lget. }
  intros s. destruct (done_ s) eqn:E; [apply triple_ret; by intros w []|].
  apply triple_bind with (R := fun _ => ledger_since mine s0); [|intros _; apply IH].
  intros w [Hw _]. pose proof (wait_considerate mine s0 w Hw) as Hk. pose proof (wait_returns w) as Hr.
  destruct (pv_wait p w) as [[[]|e] w']; cbn in *; [by destruct Hk|]. by eapply Hr.
Qed.

Lemma triple_capture {A} P I (m : M W A) :
  triple P m (settled I) ->
  triple P (capture m) (fun r w => match r with Returned _ => I w | Raised e => e = FuelExhausted end).
Proof.
  intros Hm w Hw. specialize (Hm w Hw). unfold capture.
  destruct (m w) as [[a|e] w']; cbn in *; [by destruct Hm|].
  destruct Hm as [[= ->]|Hm]; [done|]. by destruct e.
Qed.

(** The client is recorded as closed with no command running. *)
Lemma client_moves mine s0 :
  pv_owned p = true ->
  triple (ledger_since (leads Drained mine) s0) (rc_close (pv_client p))
    (settled (ledger_since (leads ClientClosed mine) s0)).
Proof.
  intros Eo w [(lead & Hl & [Ha Ht Hp]) Hs]. apply one_leads_mine in Hl as [-> Hno]; [|done].
  cbn in Hp. destruct Hp as (Est & Hn & Hlog). rewrite client_records, Hlog. cbn [app].
  apply body_considerate. split; [exists ClientClosed|by rewrite (framed (g := lget (pv_data p)))].
  rewrite (framed (g := others)), (framed (g := lget (pv_data p))), lget_lput, Hno, Eo. split; [done|].
  constructor; [done|done|]. split; [done|]. split; [done|]. exists (provider_of w).
  split; [done|]. split; [|done]. rewrite Ha. cbn. lia.
Qed.

(** The leader closes the client, once it has seen that nothing is active. *)
Lemma close_client_moves mine s0 :
  triple (ledger_since (leads Drained mine) s0) (close_client p)
    (settled (ledger_since (leads ClientClosed mine) s0)).
Proof.
  unfold close_client. destruct (pv_owned p) eqn:Eo.
  - apply triple_try_except with
      (E := fun e => settled (ledger_since (leads ClientClosed mine) s0) (@Raised unit e)).
    + apply triple_bind with (R := fun _ => ledger_since (leads ClientClosed mine) s0).
      * eapply triple_conseq; [by apply client_moves|done|]. by intros [r|e] w; [intros [[=]|]|].
      * intros _. apply triple_ret. by right.
    + intros e h _. destruct (is_Exception e) eqn:Ee; [|done]. intros [= <-]. apply triple_ret.
      intros w [[= ->]|Hw]; [done|by right].
    + intros e w _. apply settled_raised.
  - apply triple_ret. intros w [(lead & Hl & [Ha Ht Hp]) Hs]. right. split; [|done].
    apply one_leads_mine in Hl as [-> Hno]; [|done]. exists ClientClosed. rewrite Hno. split; [done|].
    destruct Hp as (Est & Hn & Hlog). constructor; [done|done|]. unfold closed_once. by rewrite Eo.
Qed.

Lemma close_client_error w terminal w' : close_client p w = (Returned terminal, w') -> close_error terminal.
Proof.
  unfold close_client. destruct (pv_owned p); [|by intros [= <- _]].
  unfold try_except, bind, ret. destruct (rc_close (pv_client p) w) as [[[]|e] v]; [by intros [= <- _]|].
  destruct (is_Exception e); destruct e; try done; intros [= <- _]; by eexists.
Qed.

(** The leader's part of [close], after its first section. *)
Lemma leader_closes mine s0 :
  hd_leading mine = NotLeading ->
  triple (ledger_since (leads Draining mine) s0)
    (wait_until p (pv_fuel p) (fun s => ps_active s =? 0) ;;
     closed <- capture (close_client p) ;;
     match closed with
     | Returned terminal => locked (pv_data p) (end_close terminal) ;; ret terminal
     | Raised e => locked (pv_data p) (end_close None) ;; raise e
     end)
    (settled (ledger_closed mine s0)).
Proof.
  intros Hm. apply triple_bind with (R := fun _ => ledger_since (leads Drained mine) s0).
  { eapply triple_conseq; [apply wait_until_done|done|]. intros [s|e] w; [|by intros ->; left].
    intros ([(lead & Hl & Hb) Hs] & -> & Hz%Z.eqb_eq). split; [|done].
    apply one_leads_mine in Hl as [-> Hno]; [|done]. exists Drained. rewrite Hno. split; [done|].
    destruct Hb as [Ha Ht Hp]. cbn in Hp. destruct Hp as [Hp1 Hp2]. constructor; [done|done|]. cbn in Ha |- *.
    split; [done|]. split; [lia|done]. }
  intros _. apply triple_bind with (R := fun closed w => ledger_since (leads ClientClosed mine) s0 w /\
    match closed with Returned terminal => close_error terminal | Raised _ => True end).
  { intros w Hw. pose proof (triple_capture _ _ _ (close_client_moves mine s0) w Hw) as Hc.
    pose proof (close_client_error w) as He. unfold capture in *.
    destruct (close_client p w) as [[t|[]] w']; cbn in *; try (by split); [split; [done|by eapply He]|by left]. }
  assert (forall terminal (k : M W (option exn)), close_error terminal -> (forall w, snd (k w) = w) ->
    triple (ledger_since (leads ClientClosed mine) s0) (locked (pv_data p) (end_close terminal) ;; k)
      (settled (ledger_closed mine s0))) as Hend.
  { intros terminal k He Hk. apply triple_bind with (R := fun _ => ledger_closed mine s0).
    - apply triple_locked. intros w Hw. split; [|by rewrite lget_lput].
      eapply section_moves; [exact Hw|]. intros lead Hl Hb. apply one_leads_mine in Hl as [-> Hno]; [|done].
      exists NotLeading. rewrite Hm, Hno. split; [done|]. by apply end_books.
    - intros _ w Hw. right. by rewrite Hk. }
  intros [terminal|e] w [Hw He]; by apply Hend.
Qed.

(** The first section of [close] gives the lead to one closer. *)
Lemma begin_moves mine s0 :
  triple (ledger_since mine s0) (locked (pv_data p) begin_close) (fun r w =>
    match r with
    | Returned CloseLeader => hd_leading mine = NotLeading /\ ledger_since (leads Draining mine) s0 w
    | Returned CloseFollower => ledger_since mine s0 w /\ ps_state (provider_of w) = Closing
    | Returned CloseDone => ledger_closed mine s0 w
    | Raised _ => False
    end).
Proof.
  apply triple_locked. intros w Hw. destruct (begin_close (provider_of w)) as [role s'] eqn:E; cbn.
  unfold begin_close in E. destruct (ps_state (provider_of w)) eqn:Es; injection E as <- <-.
  - assert (begin_close (provider_of w) = (CloseLeader, ps_set_state (provider_of w) Closing)) as E
      by (unfold begin_close; by rewrite Es).
    destruct Hw as [(lead & Hl & Hb) Hs]. destruct (begin_books _ _ _ _ _ _ Hb E) as (-> & _).
    destruct (one_leads_free _ _ Hl) as [Hm Hno]. split; [done|].
    change (ps_set_state (provider_of w) Closing) with (snd (CloseLeader, ps_set_state (provider_of w) Closing)).
    rewrite <-E. eapply (section_moves begin_close mine); [split; [by exists NotLeading|done]|].
    rewrite E. intros lead' Hl' Hb'. exists Draining. cbn. rewrite Hno. split; [done|].
    by destruct (begin_books _ _ _ _ _ _ Hb' E) as (_ & ? & ?).
  - by rewrite lput_lget.
  - rewrite lput_lget. by split.
Qed.

(** [close] leaves the provider closed, and holds nothing in the end. *)
Lemma close_closes mine s0 :
  triple (ledger_since mine s0) (provider_close p) (settled (ledger_closed mine s0)).
Proof.
  unfold provider_close. apply triple_bind with (R := fun _ => ledger_since mine s0).
  { intros w Hw. pose proof (clock_considerate mine s0 w Hw) as Hk. pose proof (clock_returns w) as Hr.
    destruct (pv_clock p w) as [[t|e] w']; cbn in *; [by destruct Hk|]. left. f_equal. by eapply Hr. }
  intros started.
  apply triple_bind with (R := fun role w =>
    match role with
    | CloseLeader => hd_leading mine = NotLeading /\ ledger_since (leads Draining mine) s0 w
    | CloseFollower => ledger_since mine s0 w
    | CloseDone => ledger_closed mine s0 w
    end).
  { eapply triple_conseq; [apply begin_moves|done|]. intros [[]|e] w; try done. by intros []. }
  intros role. apply triple_bind with (R := fun _ => ledger_closed mine s0).
  - destruct role.
    + intros w [Hm Hw]. pose proof (leader_closes mine s0 Hm w Hw) as H. revert H.
      match goal with |- settled _ _ (snd (?m w)) -> _ => destruct (m w) as [[t|e] w'] end; [by intros [[=]|H]|].
      by intros [[= ->]|H]; [left|right].
    + apply triple_bind with (R := fun s w => ledger_closed mine s0 w);
        [|intros s; by apply triple_ret].
      eapply triple_conseq; [apply wait_until_done|done|]. intros [s|e] w; [|by intros ->; left].
      by intros (Hw & -> & Hc%bool_decide_eq_true).
    + by apply triple_ret.
  - intros terminal. apply keeps_bind; [apply keeps_closed, emit_considerate|intros _].
    destruct terminal; [apply keeps_raise|apply keeps_ret].
Qed.

(** What is to be seen of a provider whose books are true. *)
Record orderly (mine : holdings) (w : W) : Prop := {
  od_counted : ps_active (provider_of w) = Z.of_nat (hd_commands mine + hd_commands (others w));
  od_recorded : Forall (fun s => ps_active s = 0 /\ ps_state s = Closing) (lget closings w);
  od_at_most_once : (length (lget closings w) <= if pv_owned p then 1 else 0)%nat;
  od_closed : ps_state (provider_of w) = Closed ->
    ps_active (provider_of w) = 0 /\ length (lget closings w) = if pv_owned p then 1%nat else 0%nat;
  od_refuses : forall operation, ps_state (provider_of w) <> Open ->
    fst (admit_operation p operation w) = Raised (ProviderClosedError operation);
}.

Lemma ledger_orderly mine w : ledger mine w -> orderly mine w.
Proof.
  intros (lead & _ & [Ha Ht Hp]).
  assert (closed_once (pv_owned p) (lget closings w) ->
    Forall (fun s => ps_active s = 0 /\ ps_state s = Closing) (lget closings w) /\
    length (lget closings w) = if pv_owned p then 1%nat else 0%nat) as Honce.
  { unfold closed_once. destruct (pv_owned p); [intros (s & -> & Hs)|intros ->]; auto. }
  assert (lget closings w = [] \/ closed_once (pv_owned p) (lget closings w)) as Hc.
  { destruct lead; [destruct Hp as [[_ ?]|(_ & _ & ?)]|destruct Hp|destruct Hp as (_ & _ & ?)|destruct Hp as (_ & _ & ?)]; auto. }
  constructor; [done| | | |].
  - destruct Hc as [->|Hc]; [done|by apply Honce].
  - destruct Hc as [->|Hc]; [cbn; lia|]. destruct (Honce Hc) as [_ ->]. lia.
  - intros Ec. rewrite Ec in Hp. destruct lead; [|by destruct Hp..].
    destruct Hp as [[? _]|(_ & Hn & Hl)]; [done|]. split; [lia|by apply Honce].
  - intros operation Ho. unfold admit_operation, bind, locked, admit_section. by rewrite decide_False by done.
Qed.

(** ** No closer waits for ever *)

(** A call that ends within the fuel of its loops. *)
Definition concludes {A} (m : M W A) : Prop := forall w, fst (m w) <> Raised FuelExhausted.

Lemma concludes_bind {A B} (m : M W A) (k : A -> M W B) :
  concludes m -> (forall a, concludes (k a)) -> concludes (bind m k).
Proof.
  intros Hm Hk w. specialize (Hm w). unfold bind. destruct (m w) as [[a|e] w']; cbn in *; [apply Hk|by intros [= ->]].
Qed.

Lemma emit_concludes operation out code started :
  concludes (pv_clock p) ->
  (forall on_event e, pv_observer p = Some on_event -> concludes (on_event e)) ->
  concludes (emit_redis p operation out code started).
Proof.
  intros Hc Ho. apply concludes_bind; [done|intros now]. apply concludes_bind.
  { intros w. unfold pure_outcome, make_redis_event. by destruct (_ <? 0). }
  intros e w. unfold emit_to. destruct (pv_observer p) as [on_event|] eqn:Eo; [|done].
  specialize (Ho on_event e eq_refl w). unfold try_except. destruct (on_event e w) as [[[]|x] w']; cbn in *; [done|].
  destruct (is_Exception x); by destruct x.
Qed.

Lemma ledger_now mine w : ledger mine w -> ledger_since mine (provider_of w) w.
Proof. by split. Qed.

(** The other threads end what they hold: while one of them runs a command or
    leads a close, [Condition.wait] returns, after a [notify_all]. *)
Definition others_progress : Prop :=
  forall mine w, hd_commands mine = 0%nat -> ledger mine w ->
    hd_commands (others w) <> 0%nat \/ hd_leading (others w) <> NotLeading ->
    exists w', pv_wait p w = (Returned tt, w') /\ (ps_notified (provider_of w) < ps_notified (provider_of w'))%nat.

Hypothesis progress : others_progress.

Lemma one_look fuel done_ w :
  wait_until p (S fuel) done_ w =
  if done_ (provider_of w) then (Returned (provider_of w), w)
  else (pv_wait p ;; wait_until p fuel done_) w.
Proof. cbn [wait_until]. unfold bind at 1, locked. rewrite lput_lget. by destruct (done_ _). Qed.

(** A wait moves the books on. *)
Lemma one_wait {A} mine w (k : M W A) :
  hd_commands mine = 0%nat -> ledger mine w ->
  hd_commands (others w) <> 0%nat \/ hd_leading (others w) <> NotLeading ->
  exists w', (pv_wait p ;; k) w = k w' /\ ledger mine w' /\ since (provider_of w) (provider_of w') /\
    (ps_notified (provider_of w) < ps_notified (provider_of w'))%nat.
Proof.
  intros Hm Hw Ho. destruct (progress mine w Hm Hw Ho) as (w' & E & Hn). exists w'.
  pose proof (wait_considerate mine _ w (ledger_now mine w Hw)) as Hk. rewrite E in Hk.
  destruct Hk as [[=]|[Hl Hs]]. unfold bind. by rewrite E.
Qed.

Lemma leader_waits fuel mine w :
  hd_commands mine = 0%nat -> ledger (leads Draining mine) w ->
  exists s w', wait_until p (S (S fuel)) (fun s => ps_active s =? 0) w = (Returned s, w').
Proof.
  intros Hm Hw. rewrite one_look. destruct (Z.eqb_spec (ps_active (provider_of w)) 0) as [|Hn]; [by eauto|].
  pose proof Hw as (lead & Hl & [Ha _ Hp]). apply one_leads_mine in Hl as [-> _]; [|done]. cbn in Ha.
  destruct (one_wait (leads Draining mine) w (wait_until p (S fuel) (fun s => ps_active s =? 0)))
    as (w1 & -> & (lead & _ & [Ha1 _ _]) & Hs & Hn1); [done|done|left; lia|].
  apply sn_first in Hs; [|by rewrite (proj1 Hp)|done]. rewrite one_look.
  destruct (Z.eqb_spec (ps_active (provider_of w1)) 0); [by eauto|lia].
Qed.

Lemma others_lead mine w :
  hd_leading mine = NotLeading -> ledger mine w -> ps_state (provider_of w) = Closing ->
  hd_leading (others w) <> NotLeading.
Proof.
  intros Hm (lead & Hl & [_ _ Hp]) Hs Ho. rewrite Hm, Ho in Hl. injection Hl as <-.
  destruct Hp as [[? _]|[? _]]; congruence.
Qed.

Lemma follower_waits fuel mine w :
  hd_commands mine = 0%nat -> hd_leading mine = NotLeading -> ledger mine w ->
  ps_state (provider_of w) <> Open ->
  exists s w', wait_until p (S (S (S fuel))) (fun s => bool_decide (ps_state s = Closed)) w = (Returned s, w').
Proof.
  intros Hm Hl Hw Ho. set (d := fun s : ProviderState => bool_decide (ps_state s = Closed)).
  assert (forall w, ledger mine w -> ps_state (provider_of w) <> Open -> d (provider_of w) = false ->
    hd_leading (others w) <> NotLeading) as Hlead.
  { intros v Hv Hv1 Hv2%bool_decide_eq_false. apply (others_lead mine); [done..|].
    by destruct (ps_state (provider_of v)). }
  rewrite one_look. destruct (d (provider_of w)) eqn:E; [by eauto|].
  destruct (one_wait mine w (wait_until p (S (S fuel)) d)) as (w1 & -> & Hw1 & Hs1 & Hn1);
    [done|done|right; by apply Hlead|].
  rewrite one_look. destruct (d (provider_of w1)) eqn:E1; [by eauto|].
  assert (ps_state (provider_of w1) <> Open) as Ho1.
  { rewrite rank_open in Ho |- *. apply sn_rank in Hs1. lia. }
  destruct (one_wait mine w1 (wait_until p (S fuel) d)) as (w2 & -> & Hw2 & Hs2 & Hn2);
    [done|done|right; by apply Hlead|].
  apply sn_second in Hs2; [|done|by apply Hs1|done].
  rewrite one_look. unfold d at 1. rewrite bool_decide_eq_true_2 by done. by eauto.
Qed.

Lemma close_client_concludes : concludes (rc_close (pv_client p)) -> concludes (close_client p).
Proof.
  intros Hc w. unfold close_client. destruct (pv_owned p); [|done]. specialize (Hc w).
  unfold try_except, bind, ret. destruct (rc_close (pv_client p) w) as [[[]|e] w']; cbn in *; [done|].
  destruct (is_Exception e); by destruct e.
Qed.

Lemma emit_terminal_concludes terminal started :
  concludes (pv_clock p) ->
  (forall on_event e, pv_observer p = Some on_event -> concludes (on_event e)) ->
  close_error terminal ->
  concludes
    (emit_redis p CLOSE (match terminal with Some _ => FAILURE | None => SUCCESS end)
       (match terminal with Some (RedisProviderError _ code) => Some code | _ => None end) started ;;
     match terminal with Some e => raise e | None => ret tt end).
Proof.
  intros Hc Ho He. apply concludes_bind; [by apply emit_concludes|intros _].
  destruct terminal as [e|]; [|done]. by destruct He as [code ->].
Qed.

Lemma leader_concludes mine w :
  (3 <= pv_fuel p)%nat -> concludes (rc_close (pv_client p)) ->
  hd_commands mine = 0%nat -> ledger (leads Draining mine) w ->
  match fst ((wait_until p (pv_fuel p) (fun s => ps_active s =? 0) ;;
     closed <- capture (close_client p) ;;
     match closed with
     | Returned terminal => locked (pv_data p) (end_close terminal) ;; ret terminal
     | Raised e => locked (pv_data p) (end_close None) ;; raise e
     end) w) with
  | Returned terminal => close_error terminal
  | Raised e => e <> FuelExhausted
  end.
Proof.
  intros Hfuel Hclient Hm Hw. destruct (pv_fuel p) as [|[|fuel]]; try lia.
  destruct (leader_waits fuel mine w Hm Hw) as (s & w1 & E). rewrite (bind_returned _ _ _ _ _ E).
  pose proof (close_client_concludes Hclient w1) as Hc. pose proof (close_client_error w1) as He.
  unfold bind at 1, capture. destruct (close_client p w1) as [[t|e] w2]; cbn in *; [by eapply He|].
  destruct e; by intros [=].
Qed.

Lemma close_ends w :
  (3 <= pv_fuel p)%nat -> concludes (pv_clock p) ->
  (forall on_event e, pv_observer p = Some on_event -> concludes (on_event e)) ->
  concludes (rc_close (pv_client p)) ->
  ledger (Holdings 0 NotLeading) w -> fst (provider_close p w) <> Raised FuelExhausted.
Proof.
  set (idle := Holdings 0 NotLeading). intros Hfuel Hclock Hobs Hclient Hw. unfold provider_close.
  pose proof (Hclock w) as Hc. pose proof (clock_returns w) as Hr.
  pose proof (clock_considerate idle _ w (ledger_now _ _ Hw)) as [Hk|Hw1]; [done|].
  unfold bind at 1. destruct (pv_clock p w) as [[started|e] w1]; cbn in *; [|by rewrite (Hr e w1) in Hc].
  clear Hw Hc Hr. pose proof (begin_moves idle _ w1 Hw1) as Hb.
  unfold bind at 1. destruct (locked _ _ w1) as [[role|e] w2]; cbn [fst snd] in Hb; [|by destruct Hb].
  match goal with |- fst ((?m ;; _) w2) <> _ =>
    assert (match fst (m w2) with Returned t => close_error t | Raised e => e <> FuelExhausted end) as Hm end.
  - destruct role; [|destruct Hb as [[Hl Hs] Hst]|done].
    + apply (leader_concludes idle); [done..|]. apply Hb.
    + destruct (pv_fuel p) as [|[|[|fuel]]]; try lia.
      destruct (follower_waits fuel idle w2) as (s & w3 & E); [done|done|done|by rewrite Hst|].
      rewrite (bind_returned _ _ _ _ _ E). cbn.
      pose proof (wait_until_done (S (S (S fuel))) (fun s => bool_decide (ps_state s = Closed)) idle _ w2
        (ledger_now _ _ Hl)) as Hd. rewrite E in Hd.
      destruct Hd as ([(lead & _ & [_ Ht _]) _] & -> & _). exact Ht.
  - unfold bind at 1. destruct ((match role with _ => _ end) w2) as [[t|e] w3]; cbn [fst] in *; [|by intros [= ->]].
    by apply emit_terminal_concludes.
Qed.

(** [C17] The lifecycle of the provider, over [execute] and [close] as they are
    run by any number of threads that keep a true book of the commands they were
    admitted for and of the close they lead.  Whatever the outcome of a call, the
    count of active commands is the number of commands in the book; the client was
    closed at most once, only when the provider owns it, and in a state of the
    provider with no command running, though other threads run between the wait
    for the commands and the close of the client; a provider that has left [Open]
    never opens again and admits no command; and after [close] it is closed, with
    no command running and its own client closed.  That an interrupt hits the wait
    itself is left out. *)
Theorem provider_lifecycle :
  (forall R operation (action : M W R),
     (forall mine s0, (1 <= hd_commands mine)%nat -> keeps (ledger_since mine s0) action) ->
     forall mine w r w', ledger mine w -> execute p operation action w = (r, w') ->
     r = Raised FuelExhausted \/
     ledger mine w' /\ orderly mine w' /\ since (provider_of w) (provider_of w')) /\
  (forall mine w r w', ledger mine w -> provider_close p w = (r, w') ->
     r = Raised FuelExhausted \/
     ledger mine w' /\ orderly mine w' /\ since (provider_of w) (provider_of w') /\
     ps_state (provider_of w') = Closed).
Proof.
  split.
  - intros R operation action Ha mine w r w' Hw E.
    pose proof (execute_considerate operation action Ha mine _ w (ledger_now _ _ Hw)) as H. rewrite E in H.
    destruct H as [H|[Hl Hs]]; [by left|right]. auto using ledger_orderly.
  - intros mine w r w' Hw E. pose proof (close_closes mine _ w (ledger_now _ _ Hw)) as H. rewrite E in H.
    destruct H as [H|[[Hl Hs] Hc]]; [by left|right]. auto using ledger_orderly.
Qed.

(** The section wakes the closers when what they wait for becomes true. *)
Definition announces {A} (f : ProviderState -> A * ProviderState) : Prop :=
  forall s, let s' := snd (f s) in
    (0 < ps_active s -> ps_active s' <= 0 -> (ps_notified s < ps_notified s')%nat) /\
    (ps_state s <> Closed -> ps_state s' = Closed -> (ps_notified s < ps_notified s')%nat).

End Interference.

(** ** Witnesses *)

Section Witnesses.
(** A provider, the commands that other threads run, and the record of its client. *)
Definition cw_world : Type := ProviderState * nat * list ProviderState.

Definition cw_data : lens cw_world ProviderState := Lens _ _ (fun w => w.1.1) (fun s w => (s, w.1.2, w.2)).
Definition cw_closings : lens cw_world (list ProviderState) := Lens _ _ snd (fun l w => (w.1, l)).
Definition cw_others (w : cw_world) : holdings := Holdings w.1.2 NotLeading.

(** During a wait the commands of the other threads end, if there are any. *)
Definition cw_wait : M cw_world unit := fun w =>
  match w.1.2 with
  | O => (Raised FuelExhausted, w)
  | n => (Returned tt, (Nat.iter n (fun s => snd (leave_section s)) w.1.1, 0%nat, w.2))
  end.

Definition cw_client : redis_client cw_world := {|
  rc_get _ := ret (Plain PyNone);
  rc_set _ _ _ := ret (Plain (PyBool true));
  rc_set_nx _ _ _ := ret (Plain PyNone);
  rc_delete _ := ret (Plain (PyInt 1));
  rc_eval _ _ _ := ret (Plain (PyInt 1));
  rc_close := fun w => (Returned tt, lput cw_closings (lget cw_closings w ++ [lget cw_data w]) w);
|}.

Definition cw_provider : SyncRedisProvider cw_world := {|
  pv_client := cw_client;
  pv_observer := None;
  pv_command_policy := None;
  pv_owned := true;
  pv_data := cw_data;
  pv_clock := ret 0;
  pv_wait := cw_wait;
  pv_fuel := 3;
|}.

#[local] Instance cw_data_laws : LensLaws cw_data.
Proof. split; [done|by intros [[] ]|done]. Qed.
#[local] Instance cw_closings_laws : LensLaws cw_closings.
Proof. split; [done|by intros [[] ]|done]. Qed.
#[local] Instance cw_data_others : Framed cw_data cw_others.
Proof. by intros s w. Qed.
#[local] Instance cw_closings_others : Framed cw_closings cw_others.
Proof. by intros s w. Qed.
#[local] Instance cw_closings_data : Framed cw_closings (lget cw_data).
Proof. by intros s w. Qed.
#[local] Instance cw_data_closings : Framed cw_data (lget cw_closings).
Proof. by intros s w. Qed.

Lemma cw_leave owned n k lead l s :
  books owned (n + k) lead l s ->
  let s' := Nat.iter n (fun s => snd (leave_section s)) s in books owned k lead l s' /\ since s s'.
Proof.
  revert k. induction n as [|n IH]; intros k Hb; [by split|].
  destruct (IH (S k)) as [H1 H2]; [by rewrite Nat.add_succ_r|].
  apply leave_books in H1 as [H3 H4]. split; [done|]. by etrans.
Qed.

Lemma cw_wait_considerate : considerate cw_provider cw_others cw_closings cw_wait.
Proof.
  intros mine s0 [[s n] l] [(lead & Hl & Hb) Hs]. unfold cw_wait. cbn [fst snd]. destruct n as [|n]; [by left|].
  right. cbn in Hl, Hb, Hs. rewrite Nat.add_comm in Hb. apply cw_leave in Hb as [Hb Hs'].
  split; [|cbn; by etrans]. exists lead. split; [done|]. cbn. by rewrite Nat.add_0_r.
Qed.

Lemma cw_progress : others_progress cw_provider cw_others cw_closings.
Proof.
  intros mine [[s n] l] Hm (lead & Hl & Hb) Ho. cbn in Hl, Hb, Ho. rewrite Hm in Hb.
  destruct Ho as [Ho|Ho]; [|done]. destruct n as [|n]; [done|]. eexists. split; [reflexivity|].
  pose proof (bk_active _ _ _ _ _ Hb) as Ha. cbn in Hb. rewrite <-(Nat.add_0_r (S n)) in Hb.
  apply cw_leave in Hb as [Hb Hs]. destruct (sn_drained _ _ Hs); [|lia|done].
  apply bk_active in Hb. cbn in Hb |- *. lia.
Qed.

Lemma cw_pure {A} (r : outcome A) : considerate cw_provider cw_others cw_closings (pure_outcome r).
Proof. intros mine s0. apply keeps_pure_outcome. Qed.

Definition cw_start : cw_world := (ps_add_active 1 open_state, 1%nat, []).

Lemma cw_ledger : ledger cw_provider cw_others cw_closings (Holdings 0 NotLeading) cw_start.
Proof. exists NotLeading. split; [done|]. constructor; [done|done|by left]. Qed.

Lemma cw_records : records_closing cw_provider cw_closings (ret tt).
Proof. done. Qed.

Lemma cw_observer on_event e :
  pv_observer cw_provider = Some on_event -> considerate cw_provider cw_others cw_closings (on_event e).
Proof. done. Qed.

Lemma cw_wait_returns w e w' : pv_wait cw_provider w = (Raised e, w') -> e = FuelExhausted.
Proof. cbn. unfold cw_wait. destruct w.1.2; [by intros [= <- _]|done]. Qed.

Lemma cw_clock_returns w e w' : pv_clock cw_provider w = (Raised e, w') -> e = FuelExhausted.
Proof. done. Qed.

(** The close waits for the command of another thread, then closes the client. *)
Lemma provider_lifecycle_witness :
  exists w', provider_close cw_provider cw_start = (Returned tt, w') /\
    orderly cw_provider cw_others cw_closings (Holdings 0 NotLeading) w' /\
    map ps_active (lget cw_closings w') = [0].
Proof.
  eexists. split; [vm_compute; reflexivity|]. split; [|reflexivity].
  destruct (provider_lifecycle cw_provider cw_others cw_closings (cw_pure (Returned 0)) cw_observer
    (ret tt) cw_records (cw_pure (Returned tt)) cw_wait_considerate cw_wait_returns cw_clock_returns) as [_ H].
  destruct (H _ cw_start (Returned tt) _ cw_ledger eq_refl) as [H'|(_ & Ho & _)]; [discriminate|exact Ho].
Defined.

End Witnesses.
