(* ===== verification/AsyncRedisProvider.v ===== *)
(** * The asyncio Redis byte provider ([bluetape/cache/redis/_async_provider.py])

    [AsyncRedisProvider] runs the commands of [RedisProvider.v] on an asyncio
    client.  It binds to the first event loop that uses it.  No task suspends
    while it holds the condition, whose only wait gives it up, so a section is
    one step of the loop and is never cancelled; other tasks act inside the
    client, inside the wait and while a closer awaits the cleanup task. *)

From Stdlib Require Import SpecFloat.
From S2P Require Import Prelude Python Leader RedisProvider RedisProviderLaws.
Open Scope py_scope.
Open Scope Z_scope.
Import Redis.

Section Provider.
Context {W : Type}.

(** [ap_loop] is [_loop] with its condition, [ap_close_task] the cleanup task in
    flight; [ap_running_loop] is [asyncio.get_running_loop()], [ap_wait]
    [condition.wait()].  [ap_create_task] starts the cleanup task; [ap_done],
    [ap_shield] and [ap_exception] are [done()] of a task, one await of it
    through a shield, and the exception it ended with. *)
Record AsyncRedisProvider : Type := {
  ap_client : redis_client W;
  ap_observer : option (RedisEvent -> M W unit);
  ap_command_policy : option RedisCommandPolicy;
  ap_owned : bool;
  ap_data : lens W ProviderState;
  ap_loop : lens W (option Z);
  ap_close_task : lens W (option nat);
  ap_clock : M W Z;
  ap_running_loop : M W Z;
  ap_wait : M W unit;
  ap_create_task : M W nat;
  ap_done : nat -> M W bool;
  ap_shield : nat -> M W unit;
  ap_exception : nat -> M W (option exn);
  ap_fuel : nat;
}.

Variable p : AsyncRedisProvider.

(** [_emit]. *)
Definition async_emit (operation : RedisOperation) (out : RedisOutcome)
    (code : option RedisErrorCode) (started : Z) : M W unit :=
  now <- ap_clock p ;;
  event <- pure_outcome (make_redis_event ASYNC operation out code (now - started)) ;;
  emit_to (ap_observer p) event.

(** [_bind_loop]. *)
Definition bind_loop : M W unit :=
  loop <- ap_running_loop p ;;
  bound <- locked (ap_loop p) (fun l =>
    match l with
    | None => (true, Some loop)
    | Some loop' => (loop =? loop', l)
    end) ;;
  raise_if (negb bound) (RuntimeError "async Redis provider is bound to a different event loop").

(** [_admit] and [_release]. *)
Definition async_admit (operation : RedisOperation) : M W unit :=
  bind_loop ;;
  r <- locked (ap_data p) (admit_section operation) ;; pure_outcome r.

Definition async_release_operation : M W unit :=
  bind_loop ;;
  locked (ap_data p) leave_section.

(** The handlers of [_execute], of an action that raised. *)
Definition async_execute_failure {R} (operation : RedisOperation) (started : Z) (error : exn) : M W R :=
  async_release_operation ;;
  match error with
  | CancelledError => async_emit operation CANCELLED None started ;; raise error
  | RedisProviderError _ code => async_emit operation FAILURE (Some code) started ;; raise error
  | ProviderClosedError _ => async_emit operation FAILURE (Some CLOSED) started ;; raise error
  | _ =>
      if is_TypeError_or_ValueError error then
        async_emit operation FAILURE (Some INVALID_INPUT) started ;; raise error
      else if is_Exception error then
        async_emit operation FAILURE (Some (error_code error)) started ;;
        raise (RedisProviderError operation (error_code error))
      else raise error
  end.

(** [_execute]; the errors of an admission are the provider's and the loop's. *)
Definition async_execute {R} (operation : RedisOperation) (action : M W R) : M W R :=
  started <- ap_clock p ;;
  try_except (async_admit operation)
    (fun e =>
       match e with
       | ProviderClosedError _ => Some (async_emit operation FAILURE (Some CLOSED) started ;; raise e)
       | RuntimeError _ => Some (async_emit operation FAILURE (Some INVALID_INPUT) started ;; raise e)
       | _ => None
       end) ;;
  result <- try_except action (fun error => Some (async_execute_failure operation started error)) ;;
  async_release_operation ;;
  async_emit operation SUCCESS None started ;;
  ret result.

(** ** The commands *)

Definition async_get (key : arg pystr) : M W (option pybytes) :=
  async_execute GET (get_action (ap_client p) key).

Definition async_set (key : arg pystr) (value : arg pybytes) (ttl : pyval) : M W unit :=
  async_execute SET (set_action (ap_client p) key value ttl).

Definition async_set_if_absent (key : arg pystr) (value : arg pybytes) (ttl : pyval) : M W bool :=
  async_execute SET_IF_ABSENT (set_if_absent_action (ap_client p) key value ttl).

Definition async_delete (key : arg pystr) : M W bool :=
  async_execute DELETE (delete_action (ap_client p) key).

Definition async_delete_if_value (key : arg pystr) (expected_value : arg pybytes) : M W bool :=
  async_execute DELETE_IF_VALUE (delete_if_value_action (ap_client p) key expected_value).

Definition async_coordination_snapshot (marker_key result_key : arg pystr)
    (max_marker_size max_result_size : arg Z) : M W RedisCoordinationSnapshot :=
  async_execute COORDINATION_SNAPSHOT
    (snapshot_action (ap_client p) marker_key result_key max_marker_size max_result_size).

Definition async_publish_if_value (condition_key : arg pystr) (expected_value : arg pybytes)
    (result_key : arg pystr) (result_value completion_value : arg pybytes) (ttl : pyval) : M W bool :=
  async_execute PUBLISH_IF_VALUE
    (publish_action (ap_client p) condition_key expected_value result_key result_value completion_value ttl).

(** ** Closing *)

(** [while self._active: await condition.wait()]. *)
Fixpoint async_drain (fuel : nat) : M W unit :=
  match fuel with
  | O => raise FuelExhausted
  | S fuel' =>
      s <- locked (ap_data p) (fun s => (s, s)) ;;
      if ps_active s =? 0 then ret tt else ap_wait p ;; async_drain fuel'
  end.

(** [_cleanup], the body of the close task. *)
Definition async_cleanup : M W unit :=
  bind_loop ;;
  closed <- capture (try_except
    (async_drain (ap_fuel p) ;;
     (if ap_owned p then rc_close (ap_client p) else ret tt) ;;
     ret None)
    (fun cause => if is_Exception cause
                  then Some (ret (Some (RedisProviderError CLOSE (error_code cause)))) else None)) ;;
  let terminal := match closed with Returned t => t | Raised _ => None end in
  locked (ap_data p) (end_close terminal) ;;
  locked (ap_close_task p) (fun _ => (tt, None)) ;;
  match closed with
  | Raised e => raise e
  | Returned (Some error) => raise error
  | Returned None => ret tt
  end.

(** [_get_or_create_close_task]. *)
Definition get_or_create_close_task : M W (option nat) :=
  bind_loop ;;
  s <- locked (ap_data p) (fun s => (s, s)) ;;
  match ps_state s with
  | Closed => ret None
  | Open =>
      locked (ap_data p) (fun s => (tt, ps_set_state s Closing)) ;;
      task <- ap_create_task p ;;
      locked (ap_close_task p) (fun _ => (tt, Some task)) ;;
      ret (Some task)
  | Closing =>
      task <- locked (ap_close_task p) (fun t => (t, t)) ;;
      match task with
      | Some t => ret (Some t)
      | None => raise AssertionError
      end
  end.

(** [while not cleanup.done(): ...]: whether this caller was cancelled. *)
Fixpoint await_cleanup (fuel : nat) (task : nat) (cancelled : bool) : M W bool :=
  match fuel with
  | O => raise FuelExhausted
  | S fuel' =>
      ended <- ap_done p task ;;
      if (ended : bool) then ret cancelled
      else
        again <- try_except (ap_shield p task ;; ret (Some cancelled))
                   (fun e => match e with
                             | CancelledError => Some (ret (Some true))
                             | _ => if is_Exception e then Some (ret None) else None
                             end) ;;
        match again with
        | Some cancelled => await_cleanup fuel' task cancelled
        | None => ret cancelled
        end
  end.

(** [isinstance(e, RedisProviderError)], with its code. *)
Definition provider_error_code (e : option exn) : option RedisErrorCode :=
  match e with
  | Some (RedisProviderError _ code) => Some code
  | Some (ProviderClosedError _) => Some CLOSED
  | _ => None
  end.

(** [aclose]. *)
Definition aclose : M W unit :=
  started <- ap_clock p ;;
  cleanup <- get_or_create_close_task ;;
  match cleanup with
  | None => async_emit CLOSE SUCCESS None started
  | Some task =>
      cancelled <- await_cleanup (ap_fuel p) task false ;;
      close_error <- ap_exception p task ;;
      if (cancelled : bool) then
        async_emit CLOSE CANCELLED (provider_error_code close_error) started ;; raise CancelledError
      else
        match close_error, provider_error_code close_error with
        | Some e, Some code => async_emit CLOSE FAILURE (Some code) started ;; raise e
        | Some e, None => raise e
        | None, _ => async_emit CLOSE SUCCESS None started
        end
  end.

(** [__aenter__] and [__aexit__]. *)
Definition async_provider_enter : M W unit :=
  bind_loop ;;
  s <- locked (ap_data p) (fun s => (s, s)) ;;
  raise_if (negb (bool_decide (ps_state s = Open))) (ProviderClosedError GET).

Definition async_provider_exit : M W unit := aclose.
End Provider.
Arguments AsyncRedisProvider : clear implicits.

(** ** Commands of the two providers agree *)

(** The event, as the asyncio provider reports it. *)
Definition as_async (ev : RedisEvent) : RedisEvent :=
  {| ev_mode := ASYNC; ev_operation := ev_operation ev; ev_outcome := ev_outcome ev;
     ev_error_code := ev_error_code ev; ev_elapsed_ns := ev_elapsed_ns ev |}.

(** The synchronous provider of the same client, state, clock and observer. *)
Definition sync_twin {W} (p : AsyncRedisProvider W) : SyncRedisProvider W := {|
  pv_client := ap_client p;
  pv_observer := (fun on_event ev => on_event (as_async ev)) <$> ap_observer p;
  pv_command_policy := ap_command_policy p;
  pv_owned := ap_owned p;
  pv_data := ap_data p;
  pv_clock := ap_clock p;
  pv_wait := ap_wait p;
  pv_fuel := ap_fuel p;
|}.

Section Agreement.
Context {W R : Type} (p : AsyncRedisProvider W) `{!LensLaws (ap_data p)}.

(** The provider is bound to the loop that runs. *)
Definition on_own_loop (w : W) : Prop := bind_loop p w = (Returned tt, w).

Hypothesis clock_loop : forall w, on_own_loop w -> on_own_loop (snd (ap_clock p w)).
Hypothesis state_loop : forall s w, on_own_loop w -> on_own_loop (lput (ap_data p) s w).

Lemma bind_agrees {A B} (m m' : M W A) (k k' : A -> M W B) w :
  m w = m' w -> (forall a w1, m' w = (Returned a, w1) -> k a w1 = k' a w1) -> bind m k w = bind m' k' w.
Proof. intros Hm H. unfold bind. rewrite Hm. destruct (m' w) as [[a|e] w1]; [by apply H|done]. Qed.

Lemma then_raises {A B} (m : M W A) e w (b : B) w' : (m ;; raise e) w <> (Returned b, w').
Proof. unfold bind. by destruct (m w) as [[]]. Qed.

Lemma failure_raises operation started e w (r : R) w' :
  execute_failure (sync_twin p) operation started e w <> (Returned r, w').
Proof.
  unfold execute_failure, bind at 1. destruct (release_operation (sync_twin p) w) as [[u|x] w1]; [|done].
  destruct e; cbn; done || apply then_raises.
Qed.

Lemma emit_agrees operation out code started w :
  async_emit p operation out code started w = emit_redis (sync_twin p) operation out code started w.
Proof.
  unfold async_emit, emit_redis, emit_to, bind. cbn [sync_twin pv_clock pv_observer].
  destruct (ap_clock p w) as [[now|e] w1]; [|done]. unfold pure_outcome, make_redis_event.
  destruct (now - started <? 0); [done|]. by destruct (ap_observer p).
Qed.

Lemma emit_then_agrees {A} operation out code started (k : M W A) w :
  (async_emit p operation out code started ;; k) w = (emit_redis (sync_twin p) operation out code started ;; k) w.
Proof. unfold bind. by rewrite emit_agrees. Qed.

Lemma release_agrees {A} (k : unit -> M W A) w :
  on_own_loop w ->
  bind (async_release_operation p) k w = bind (release_operation (sync_twin p)) k w.
Proof. intros Hw. unfold bind at 1, async_release_operation. by rewrite (bind_returned _ _ _ _ _ Hw). Qed.

Lemma admit_agrees operation w :
  on_own_loop w -> async_admit p operation w = admit_operation (sync_twin p) operation w.
Proof. intros Hw. unfold async_admit. by rewrite (bind_returned _ _ _ _ _ Hw). Qed.

Lemma failure_agrees operation started e w :
  on_own_loop w -> e <> CancelledError ->
  async_execute_failure (R := R) p operation started e w
  = execute_failure (sync_twin p) operation started e w.
Proof.
  intros Hw He. unfold async_execute_failure, execute_failure. rewrite release_agrees by done.
  apply bind_agrees; [done|]. intros u w1 _. destruct e; cbn; rewrite ?emit_then_agrees; done.
Qed.

Lemma admit_outcome operation w :
  on_own_loop w ->
  on_own_loop (snd (admit_operation (sync_twin p) operation w)) /\
  forall e w2, admit_operation (sync_twin p) operation w = (Raised e, w2) -> e = ProviderClosedError operation.
Proof.
  intros Hw. unfold admit_operation, bind, locked, pure_outcome, admit_section. cbn [sync_twin pv_data].
  destruct (decide _); cbn; (split; [by apply state_loop|]); [done|]. by intros e w2 [= <- _].
Qed.

(** On the loop it is bound to, a command of the asyncio provider does what
    the synchronous provider does: the same admission, request, answer, count and
    event, unless it is cancelled; a cancellation inside the action gives the
    place back, is reported as such and passes. *)
Theorem async_execute_agrees operation (action : M W R) w :
  on_own_loop w -> (forall w, on_own_loop w -> on_own_loop (snd (action w))) ->
  ((forall w1 e w2, action w1 = (Raised e, w2) -> e <> CancelledError) ->
   async_execute p operation action w = execute (sync_twin p) operation action w) /\
  (forall started w1 w2 w3, ap_clock p w = (Returned started, w1) ->
   admit_operation (sync_twin p) operation w1 = (Returned tt, w2) ->
   action w2 = (Raised CancelledError, w3) ->
   async_execute p operation action w =
     (release_operation (sync_twin p) ;; async_emit p operation CANCELLED None started ;;
      raise CancelledError) w3).
Proof.
  intros Hw Ha. split; [intros Hc|intros started w1 w2 w3 E1 E2 E3].
  2: { pose proof (clock_loop w Hw) as Hw1. rewrite E1 in Hw1. cbn in Hw1.
    pose proof (admit_outcome operation w1 Hw1) as [Hw2 _]. rewrite E2 in Hw2. cbn in Hw2.
    specialize (Ha w2 Hw2). rewrite E3 in Ha. cbn in Ha.
    unfold async_execute. rewrite (bind_returned _ _ _ _ _ E1).
    rewrite <-(admit_agrees operation w1 Hw1) in E2.
    rewrite (bind_returned _ _ _ tt w2); [|by unfold try_except; rewrite E2].
    assert (try_except action (fun error => Some (async_execute_failure p operation started error)) w2
      = (release_operation (sync_twin p) ;; async_emit p operation CANCELLED None started ;;
         raise (A := R) CancelledError) w3) as Hc.
    { unfold try_except. rewrite E3. by apply release_agrees. }
    unfold bind at 1. rewrite Hc. clear Hc.
    unfold bind. destruct (release_operation (sync_twin p) w3) as [[v|e] w4]; [|done].
    by destruct (async_emit p operation CANCELLED None started w4) as [[]]. }
  unfold async_execute, execute. cbn [sync_twin pv_clock].
  apply bind_agrees; [done|]. intros started w1 E1.
  pose proof (clock_loop w Hw) as Hw1. rewrite E1 in Hw1. cbn in Hw1.
  pose proof (admit_outcome operation w1 Hw1) as [Hw2 Hadm].
  apply bind_agrees; [|intros u w2 E2].
  { unfold try_except. rewrite admit_agrees by done.
    destruct (admit_operation (sync_twin p) operation w1) as [[u|e] w2] eqn:Ea; [done|].
    rewrite (Hadm e w2 eq_refl). apply emit_then_agrees. }
  assert (on_own_loop w2) as Hown.
  { unfold try_except in E2. destruct (admit_operation (sync_twin p) operation w1) as [[u'|e] w2'] eqn:Ea.
    - by injection E2 as _ <-.
    - rewrite (Hadm e w2' eq_refl) in E2. by apply then_raises in E2. }
  specialize (Ha w2 Hown). specialize (Hc w2).
  apply bind_agrees; [|intros r w3 E3].
  { unfold try_except. destruct (action w2) as [[r|e] w3] eqn:E3; [done|]. cbn [snd] in Ha.
    pose proof (failure_agrees operation started e w3 Ha (Hc e w3 eq_refl)) as Hf. destruct e; done. }
  assert (on_own_loop w3) as Hown3.
  { unfold try_except in E3. destruct (action w2) as [[r'|e] w3'] eqn:Ea; cbn [snd] in Ha.
    - by injection E3 as _ <-.
    - destruct e; try done; by apply failure_raises in E3. }
  rewrite release_agrees by done. apply bind_agrees; [done|]. intros v w4 _. apply emit_then_agrees.
Qed.
End Agreement.

(** ** Closing *)

Section Closing.
Context {W : Type} (p : AsyncRedisProvider W) `{!LensLaws (ap_data p)}.
Hypothesis task_apart : forall t w, lget (ap_data p) (lput (ap_close_task p) t w) = lget (ap_data p) w.

(** However the drain and the client end, the close task leaves the provider
    closed. *)
Lemma async_cleanup_closes w :
  on_own_loop p w -> fst (async_cleanup p w) <> Raised FuelExhausted ->
  ps_state (lget (ap_data p) (snd (async_cleanup p w))) = Closed.
Proof.
  intros Hw. unfold async_cleanup. rewrite (bind_returned _ _ _ _ _ Hw).
  match goal with |- context [bind (capture ?m) _ w] =>
    destruct (capture m w) as [[closed|e] w1] eqn:Ec; [rewrite (bind_returned _ _ _ _ _ Ec)|] end.
  2: { rewrite (bind_raised _ _ _ _ _ Ec). unfold capture in Ec.
    match type of Ec with context [try_except ?m ?h w] => destruct (try_except m h w) as [[|[]] ?] end;
    try done. by injection Ec as <- _. }
  clear Ec.
  assert (forall terminal (k : M W unit), (forall w, snd (k w) = w) ->
    ps_state (lget (ap_data p) (snd ((locked (ap_data p) (end_close terminal) ;;
      locked (ap_close_task p) (fun _ => (tt, None)) ;; k) w1))) = Closed) as Hclosed.
  { intros terminal k Hk. unfold bind, locked, end_close. cbn. rewrite Hk, task_apart. by rewrite lget_lput. }
  intros _. destruct closed as [[t|]|e]; by apply Hclosed.
Qed.
End Closing.

(** ** Witnesses *)

Section Witnesses.
(** A world of the provider's state and the events observed, on loop 0. *)
Abbreviation aw_world := (ProviderState * list RedisEvent)%type.

Definition aw_state : lens aw_world ProviderState := Lens _ _ fst (fun s w => (s, snd w)).

Definition aw_client : redis_client aw_world := {|
  rc_get _ := ret (Plain (PyBytes [1]));
  rc_set _ _ _ := raise RedisTimeoutError;
  rc_set_nx _ _ _ := ret (Plain PyNone);
  rc_delete _ := raise CancelledError;
  rc_eval _ _ _ := ret (Plain (PyInt 1));
  rc_close := ret tt;
|}.

Definition aw_provider : AsyncRedisProvider aw_world := {|
  ap_client := aw_client;
  ap_observer := Some (fun ev w => (Returned tt, (fst w, snd w ++ [ev])));
  ap_command_policy := None; ap_owned := false; ap_data := aw_state;
  ap_loop := {| lget _ := Some 0; lput _ w := w |};
  ap_close_task := {| lget _ := None; lput _ w := w |};
  ap_clock := ret 0; ap_running_loop := ret 0; ap_wait := ret tt; ap_create_task := ret 0%nat;
  ap_done _ := ret true; ap_shield _ := ret tt; ap_exception _ := ret None; ap_fuel := 0;
|}.

Lemma async_execute_agrees_witness :
  async_execute aw_provider GET (get_action aw_client (Exact (py "k"))) (open_state, [])
  = execute (sync_twin aw_provider) GET (get_action aw_client (Exact (py "k"))) (open_state, []) /\
  async_delete aw_provider (Exact (py "k")) (open_state, [])
  = (Raised CancelledError,
     (notify_all open_state, [{| ev_mode := ASYNC; ev_operation := DELETE; ev_outcome := CANCELLED;
                      ev_error_code := None; ev_elapsed_ns := 0 |}])).
Proof.
  assert (LensLaws (ap_data aw_provider)) by (constructor; [done|by intros []|done]).
  split.
  - refine (proj1 (async_execute_agrees aw_provider _ _ GET (get_action aw_client (Exact (py "k"))) (open_state, []) _ _) _);
      [done|done|done|done|]. intros w1 e w2. cbn. discriminate.
  - change (async_delete aw_provider (Exact (py "k")))
      with (async_execute aw_provider DELETE (delete_action aw_client (Exact (py "k")))).

    rewrite (proj2 (async_execute_agrees aw_provider ltac:(done) ltac:(done) DELETE
      (delete_action aw_client (Exact (py "k"))) (open_state, []) eq_refl ltac:(done)) 0 (open_state, [])
      (ps_add_active 1 open_state, []) (ps_add_active 1 open_state, []) eq_refl eq_refl eq_refl).
    reflexivity.
Defined.
End Witnesses.
