(* ===== verification/CoordinationScripts.v ===== *)
(** * The Lua scripts of the byte provider ([bluetape/cache/redis/_provider.py])

    The three fixed scripts the provider runs on the Redis server, each
    atomically.  The server is a class of string commands with their documented
    laws, stated on what its keys hold; expiry is not a step of a command but of
    the server ([CoordinationProtocol.v]). *)

From stdpp Require Import gmap.
From S2P Require Import Prelude Python RedisScripts RedisProvider.
Open Scope py_scope.
Open Scope Z_scope.

(** ** The server *)

(** The commands the scripts and [SET ... NX PX] use.  [keys] is what the
    server holds; [max_px] the longest time to live it takes. *)
Class StringServer (S : Type) := {
  keys : S -> gmap pystr redis_entry;
  max_px : Z;
  cmd_GET : pystr -> M S (option pybytes);
  cmd_SET_PX : pystr -> pybytes -> Z -> M S unit;
  cmd_SET_NX_PX : pystr -> pybytes -> Z -> M S bool;
  cmd_DEL : pystr -> M S Z;
  cmd_EXISTS : pystr -> M S Z;
  cmd_STRLEN : pystr -> M S Z;
  cmd_GETRANGE : pystr -> Z -> Z -> M S pybytes;
}.

(** A command on strings: the value of a missing key is [None]; a key of
    another kind is the error WRONGTYPE. *)
Definition string_at (e : option redis_entry) : outcome (option pybytes) :=
  match e with
  | None => Returned None
  | Some (StringValue v _) => Returned (Some v)
  | Some (OtherValue _ _) => Raised RedisResponseError
  end.

Definition omap_outcome {A B} (f : A -> B) (r : outcome A) : outcome B :=
  match r with Returned a => Returned (f a) | Raised e => Raised e end.

(** The documented behaviour: GET, STRLEN and GETRANGE read a string, a missing
    key reads as none or as the empty string; EXISTS and DEL count keys; SET
    replaces whatever the key held, and with NX only when there is no key. *)
Class StringServerLaws (S : Type) `{!StringServer S} : Prop := {
  an_hour_fits : 3600000 <= max_px;
  cmd_get_law k s : cmd_GET k s = (string_at (keys s !! k), s);
  cmd_strlen_law k s :
    cmd_STRLEN k s = (omap_outcome (fun v => Z.of_nat (length (default [] v))) (string_at (keys s !! k)), s);
  cmd_getrange_law k n s : 1 <= n ->
    cmd_GETRANGE k 0 (n - 1) s
    = (omap_outcome (fun v => take (Z.to_nat n) (default [] v)) (string_at (keys s !! k)), s);
  cmd_exists_law k s :
    cmd_EXISTS k s = (Returned (if bool_decide (keys s !! k = None) then 0 else 1), s);
  cmd_del_law k s : exists s',
    cmd_DEL k s = (Returned (if bool_decide (keys s !! k = None) then 0 else 1), s') /\ keys s' = delete k (keys s);
  cmd_set_px_law k v n s : 1 <= n <= max_px -> exists s',
    cmd_SET_PX k v n s = (Returned tt, s') /\ keys s' = <[k := StringValue v (Some n)]> (keys s);
  cmd_set_nx_px_law k v n s : 1 <= n <= max_px -> exists s',
    cmd_SET_NX_PX k v n s = (Returned (bool_decide (keys s !! k = None)), s') /\
    keys s' = match keys s !! k with
              | None => <[k := StringValue v (Some n)]> (keys s)
              | Some _ => keys s
              end;
}.

(** ** The scripts *)

Section Scripts.
Context {S : Type} `{!StringServer S}.

(** [redis.call('get', k) == v]: GET of a missing key is [false]. *)
Definition holds_value (k : pystr) (v : pybytes) : M S bool :=
  current <- cmd_GET k ;; ret (bool_decide (current = Some v)).

Definition compare_and_delete (k1 : pystr) (argv1 : pybytes) : M S Z :=
  same <- holds_value k1 argv1 ;;
  if (same : bool) then cmd_DEL k1 else ret 0.

(** [string.sub(s, 1, n)]. *)
Definition lua_prefix (n : Z) (s : pybytes) : pybytes := take (Z.to_nat n) s.

(** The limits are sent as decimals and read back by [tonumber] and by the
    subtraction. *)
Definition snapshot_script (k1 k2 : pystr) (argv1 argv2 : Z) : M S (list pyval) :=
  marker_exists <- cmd_EXISTS k1 ;;
  marker_length <- cmd_STRLEN k1 ;;
  let marker_limit := argv1 in
  let marker_read_limit := if marker_limit <? 7 then 7 else marker_limit in
  marker_probe <- cmd_GETRANGE k1 0 (marker_read_limit - 1) ;;
  let marker_value := lua_prefix marker_limit marker_probe in
  if bool_decide (lua_prefix 7 marker_probe = py "active:") then
    ret [PyInt marker_exists; PyInt marker_length; PyBytes marker_value; PyInt 0; PyInt 0; PyBytes []]
  else
    result_exists <- cmd_EXISTS k2 ;;
    result_length <- cmd_STRLEN k2 ;;
    result_value <- cmd_GETRANGE k2 0 (argv2 - 1) ;;
    ret [PyInt marker_exists; PyInt marker_length; PyBytes marker_value;
         PyInt result_exists; PyInt result_length; PyBytes result_value].

Definition publish_script (k1 k2 : pystr) (argv1 argv2 : pybytes) (argv3 : Z) (argv4 : pybytes) : M S Z :=
  same <- holds_value k1 argv1 ;;
  if (same : bool) then
    cmd_SET_PX k2 argv2 argv3 ;;
    cmd_SET_PX k1 argv4 argv3 ;;
    ret 1
  else ret 0.

(** EVAL of a script with its keys and arguments. *)
Definition eval_script (script : provider_script) (ks : list pystr) (args : list pyval) : M S reply :=
  match script, ks, args with
  | COMPARE_AND_DELETE_SCRIPT, [k1], [PyBytes v] =>
      n <- compare_and_delete k1 v ;; ret (Plain (PyInt n))
  | COORDINATION_SNAPSHOT_SCRIPT, [k1; k2], [PyInt n1; PyInt n2] =>
      r <- snapshot_script k1 k2 n1 n2 ;; ret (ListReply r)
  | PUBLISH_IF_VALUE_SCRIPT, [k1; k2], [PyBytes v; PyBytes result; PyInt ms; PyBytes completion] =>
      n <- publish_script k1 k2 v result ms completion ;; ret (Plain (PyInt n))
  | _, _, _ => raise RedisResponseError
  end.

(** SET with NX and PX, as redis-py reports it. *)
Definition set_nx_reply (k : pystr) (v : pybytes) (ms : Z) : M S reply :=
  set <- cmd_SET_NX_PX k v ms ;; ret (Plain (if (set : bool) then PyBool true else PyNone)).

(** ** What the scripts do *)

Context `{!StringServerLaws S}.
Implicit Types (s : S).

Lemma holds_value_run k v s :
  holds_value k v s
  = (omap_outcome (fun c => bool_decide (c = Some v)) (string_at (keys s !! k)), s).
Proof. unfold holds_value, bind. rewrite cmd_get_law. by destruct (string_at _). Qed.

(** [k] holds the string [v]. *)
Definition is_string (ks : gmap pystr redis_entry) (k : pystr) (v : pybytes) : Prop :=
  exists ttl, ks !! k = Some (StringValue v ttl).

Lemma string_at_is_string (m : gmap pystr redis_entry) k v :
  string_at (m !! k) = Returned (Some v) <-> is_string m k v.
Proof.
  unfold is_string, string_at. split.
  - destruct (m !! k) as [[v' ttl|]|] eqn:E; try done. intros [= ->]. eauto.
  - by intros [ttl ->].
Qed.

(** A script that compares first: it changes the keys only when the key holds
    the expected value, and its reply tells. *)
Lemma compare_and_delete_run k v s : exists r s',
  compare_and_delete k v s = (r, s') /\
  (is_string (keys s) k v /\ r = Returned 1 /\ keys s' = delete k (keys s) \/
   r <> Returned 1 /\ keys s' = keys s).
Proof.
  unfold compare_and_delete, bind. rewrite holds_value_run.
  destruct (string_at (keys s !! k)) as [c|e] eqn:E; cbn; [|by eauto 10].
  case_bool_decide as Hc; [|by eauto 10]. subst c. apply string_at_is_string in E as Hs.
  destruct (cmd_del_law k s) as (s' & -> & Hk). eexists _, s'. split; [done|].
  left. split_and!; [done| |done]. case_bool_decide as Hn; [|done]. by rewrite Hn in E.
Qed.

Lemma publish_run k1 k2 v result ms completion s : 1 <= ms <= max_px -> exists r s',
  publish_script k1 k2 v result ms completion s = (r, s') /\
  (is_string (keys s) k1 v /\ r = Returned 1 /\
   keys s' = <[k1 := StringValue completion (Some ms)]> (<[k2 := StringValue result (Some ms)]> (keys s)) \/
   r <> Returned 1 /\ keys s' = keys s).
Proof.
  intros Hms. unfold publish_script, bind. rewrite holds_value_run.
  destruct (string_at (keys s !! k1)) as [c|e] eqn:E; cbn; [|by eauto 10].
  case_bool_decide as Hc; [|by eauto 10]. subst c. apply string_at_is_string in E as Hs.
  destruct (cmd_set_px_law k2 result ms s Hms) as (s1 & -> & Hk1).
  destruct (cmd_set_px_law k1 completion ms s1 Hms) as (s2 & -> & Hk2).
  eexists _, s2. split; [done|]. left. split_and!; [done|done|by rewrite Hk2, Hk1].
Qed.

(** ** Snapshots *)

(** A value and whether it is longer than the limit, of which only a prefix is
    read. *)
Definition bounded_value (limit : Z) (v : option pybytes) : option pybytes * bool :=
  match v with
  | None => (None, false)
  | Some b => (Some (take (Z.to_nat limit) b), limit <? Z.of_nat (length b))
  end.

(** What a snapshot is meant to tell: the marker, and the result unless a load
    is under way. *)
Definition snapshot_of_values (marker result : option pybytes) (limit1 limit2 : Z)
    : RedisCoordinationSnapshot :=
  let hidden := match marker with Some b => bool_decide (take 7 b = py "active:") | None => false end in
  let '(m, big_m) := bounded_value limit1 marker in
  let '(r, big_r) := bounded_value limit2 (if hidden then None else result) in
  {| cs_marker := m; cs_result := r; cs_marker_oversized := big_m; cs_result_oversized := big_r |}.

Lemma entry_missing (m : gmap pystr redis_entry) k v :
  string_at (m !! k) = Returned v -> bool_decide (m !! k = None) = bool_decide (v = None).
Proof. destruct (m !! k) as [[]|]; cbn; try done; by intros [= <-]. Qed.

(** The three values a script reads of one key. *)
Lemma snapshot_part_bounded v limit op : 1 <= limit ->
  snapshot_part (PyInt (if bool_decide (v = None) then 0 else 1))
    (PyInt (Z.of_nat (length (default [] v)))) (PyBytes (take (Z.to_nat limit) (default [] v))) limit op
  = Returned (bounded_value limit v).
Proof.
  intros Hl. unfold snapshot_part. destruct v as [b|]; cbn; [|by rewrite take_nil].
  rewrite length_take. replace (Z.of_nat (length b) <? 0) with false by (symmetry; apply Z.ltb_ge; lia).
  rewrite (proj2 (Z.eqb_eq _ _)); [done|]. destruct (Z.ltb_spec limit (Z.of_nat (length b))); lia.
Qed.

Lemma lua_prefix_take n m (b : pybytes) :
  n <= m -> lua_prefix n (take (Z.to_nat m) b) = take (Z.to_nat n) b.
Proof. intros H. unfold lua_prefix. rewrite take_take. f_equal. lia. Qed.

(** A marker that hides the result from the script. *)
Definition hides_result (marker : option pybytes) : bool :=
  match marker with Some b => bool_decide (take 7 b = py "active:") | None => false end.

Lemma hides_result_default marker :
  hides_result marker = bool_decide (take 7 (default [] marker) = py "active:").
Proof. by destruct marker. Qed.

(** The script answers what the provider's parser reads as the snapshot, and
    changes nothing; it does not look at the result of a load under way. *)
Lemma snapshot_run k1 k2 n1 n2 s marker result :
  1 <= n1 -> 1 <= n2 ->
  string_at (keys s !! k1) = Returned marker ->
  (hides_result marker = false -> string_at (keys s !! k2) = Returned result) ->
  exists reply, eval_script COORDINATION_SNAPSHOT_SCRIPT [k1; k2] [PyInt n1; PyInt n2] s = (Returned reply, s) /\
  parse_coordination_snapshot reply n1 n2 = Returned (snapshot_of_values marker result n1 n2).
Proof.
  intros H1 H2 Hm Hr. unfold eval_script, snapshot_script, bind.
  rewrite cmd_exists_law, cmd_strlen_law, Hm. cbn [omap_outcome].
  set (limit := if n1 <? 7 then 7 else n1).
  assert (7 <= limit /\ n1 <= limit) as [L1 L2] by (unfold limit; destruct (Z.ltb_spec n1 7); lia).
  rewrite cmd_getrange_law, Hm by lia. cbn [omap_outcome].
  rewrite (lua_prefix_take n1), (lua_prefix_take 7), (entry_missing _ _ _ Hm) by lia.
  unfold snapshot_of_values. fold (hides_result marker). rewrite hides_result_default in *.
  change (Z.to_nat 7) with 7%nat. case_bool_decide as Ha.
  - eexists. split; [done|]. cbn [parse_coordination_snapshot].
    rewrite snapshot_part_bounded by done. by destruct (bounded_value n1 marker).
  - specialize (Hr eq_refl). rewrite cmd_exists_law, cmd_strlen_law, Hr. cbn [omap_outcome].
    rewrite cmd_getrange_law, Hr by lia.
    cbn [omap_outcome]. eexists. split; [done|]. cbn [parse_coordination_snapshot].
    rewrite snapshot_part_bounded, (entry_missing _ _ _ Hr), snapshot_part_bounded by done.
    by destruct (bounded_value n1 marker), (bounded_value n2 result).
Qed.

(** A key of another kind than a string ends the script. *)
Lemma snapshot_run_wrong_kind k1 k2 n1 n2 s e :
  1 <= n1 ->
  string_at (keys s !! k1) = Raised e \/
  (exists marker, string_at (keys s !! k1) = Returned marker /\ hides_result marker = false /\
     string_at (keys s !! k2) = Raised e) ->
  eval_script COORDINATION_SNAPSHOT_SCRIPT [k1; k2] [PyInt n1; PyInt n2] s = (Raised e, s).
Proof.
  intros H1 H. unfold eval_script, snapshot_script, bind. rewrite cmd_exists_law, cmd_strlen_law.
  destruct H as [->|(marker & Hm & Hh & Hr)]; [done|]. rewrite Hm. cbn [omap_outcome].
  set (limit := if n1 <? 7 then 7 else n1).
  assert (7 <= limit /\ n1 <= limit) as [L1 L2] by (unfold limit; destruct (Z.ltb_spec n1 7); lia).
  rewrite cmd_getrange_law, Hm by lia. cbn [omap_outcome].
  rewrite (lua_prefix_take 7) by lia. rewrite hides_result_default in Hh.
  change (Z.to_nat 7) with 7%nat. case_bool_decide as Ha; [done|].
  by rewrite cmd_exists_law, cmd_strlen_law, Hr.
Qed.
End Scripts.
