(* ===== verification/RedisCoordination.v ===== *)
(** * Coordinated loads ([bluetape/cache/redis/_coordination.py], [_contracts.py])

    A load of one key that many processes may start at once: one of them takes a
    lease in Redis and runs the loader, the others poll for the result it
    publishes.  The flight talks to Redis through a backend of four commands, to
    time and randomness through callbacks; its own counters ([_FlightState])
    belong to no other thread, so they ride along with the world. *)

From Stdlib Require Import SpecFloat.
From S2P Require Import Prelude Python Leader LeaseRecord Utf8 EnvelopeFormat EnvelopeCodec.
From S2P Require Import RedisProvider CacheCore SyncCache.
Open Scope py_scope.
Open Scope Z_scope.
Import Coordination.

(** ** Options *)

Definition MAX_COORDINATION_DURATION : float := S754_finite false 7916483719987200 (-41).
Definition MIN_POLL_INTERVAL : float := S754_finite false 4611686018427388 (-62).
Definition MAX_POLL_BUDGET : Z := 10000.

Record RedisLoadOptions : Type := {
  ro_namespace : pystr;
  ro_lease_ttl : pyval;
  ro_result_ttl : pyval;
  ro_poll_interval : pyval;
  ro_max_poll_interval : pyval;
  ro_wait_timeout : pyval;
  ro_max_attempts : Z;
  ro_max_polls : Z;
  ro_redis_io_timeout : pyval;
}.

(** The [float] a duration stands for in arithmetic; an [int] up to 3600 equals
    its [float]. *)
Definition seconds (v : pyval) : float :=
  match to_float v with Returned f => f | Raised _ => f0 end.

Definition namespace_ok (namespace encoded : pystr) : bool :=
  negb (bool_decide (namespace = [])) && bool_decide (namespace = strip namespace)
  && negb (existsb control_character namespace)
  && (1 <=? Z.of_nat (length encoded)) && (Z.of_nat (length encoded) <=? 256).

Fixpoint normalize_all (values : list pyval) : outcome (list float) :=
  match values with
  | [] => Returned []
  | v :: rest =>
      let? f := contract_finite_positive v in
      let? fs := normalize_all rest in
      Returned (f :: fs)
  end.

Definition bounded_count (value : arg Z) (maximum : Z) : outcome Z :=
  let? n := require_exact value "an exact int" in
  let? _ := orequire ((1 <=? n) && (n <=? maximum)) (ValueError "outside the supported range") in
  Returned n.

(** [RedisLoadOptions(...)]. *)
Definition make_load_options (namespace : arg pystr)
    (lease_ttl result_ttl poll_interval max_poll_interval wait_timeout : pyval)
    (max_attempts max_polls : arg Z) (redis_io_timeout : pyval) : outcome RedisLoadOptions :=
  let? ns := require_exact namespace "namespace must be an exact str" in
  let? encoded := oget (utf8_encode ns) UnicodeError in
  let? _ := orequire (namespace_ok ns encoded) (ValueError "namespace must be 1..256 UTF-8 bytes") in
  let? normalized := normalize_all [lease_ttl; result_ttl; poll_interval; max_poll_interval;
                                    wait_timeout; redis_io_timeout] in
  let? _ := orequire (negb (existsb (fun value => flt MAX_COORDINATION_DURATION value) normalized))
              (ValueError "coordination durations must not exceed 3600 seconds") in
  let? _ := orequire (negb (flt (seconds poll_interval) MIN_POLL_INTERVAL))
              (ValueError "poll_interval is below the minimum") in
  let? _ := orequire (negb (flt (seconds max_poll_interval) (seconds poll_interval)))
              (ValueError "poll_interval must not exceed max_poll_interval") in
  let? _ := orequire (negb (flt (seconds wait_timeout) (seconds max_poll_interval)))
              (ValueError "max_poll_interval must not exceed wait_timeout") in
  let? _ := orequire (negb (flt (seconds result_ttl) (seconds max_poll_interval)))
              (ValueError "max_poll_interval must not exceed result_ttl") in
  let? attempts := bounded_count max_attempts 100 in
  let? polls := bounded_count max_polls MAX_POLL_BUDGET in
  Returned {| ro_namespace := ns; ro_lease_ttl := lease_ttl; ro_result_ttl := result_ttl;
              ro_poll_interval := poll_interval; ro_max_poll_interval := max_poll_interval;
              ro_wait_timeout := wait_timeout; ro_max_attempts := attempts; ro_max_polls := polls;
              ro_redis_io_timeout := redis_io_timeout |}.

(** ** Events *)

Inductive RedisCoordinationOutcome : Type :=
| LOADED | RESULT_REUSED | LEASE_LOST | CO_TIMEOUT | CO_FAILURE | CO_CANCELLED.

(** An event; its operation is always [GET_OR_LOAD]. *)
Record RedisCoordinationEvent : Type := {
  ce_mode : RedisMode;
  ce_outcome : RedisCoordinationOutcome;
  ce_error_code : option RedisCoordinationErrorCode;
  ce_attempts : Z;
  ce_polls : Z;
  ce_cleanup_failed : bool;
  ce_elapsed_ns : Z;
}.

(** [RedisCoordinationEvent(...)] of exact arguments. *)
Definition make_coordination_event (e : RedisCoordinationEvent) : outcome RedisCoordinationEvent :=
  if (ce_attempts e <? 0) || (ce_polls e <? 0) || (ce_elapsed_ns e <? 0)
  then Raised (ValueError "field must be non-negative") else Returned e.

(** [_FlightState]. *)
Record FlightState : Type := {
  st_started_ns : Z;
  st_attempts : Z;
  st_polls : Z;
  st_cleanup_failed : bool;
}.

Definition fresh_flight (started : Z) : FlightState :=
  {| st_started_ns := started; st_attempts := 0; st_polls := 0; st_cleanup_failed := false |}.
Definition add_attempt (s : FlightState) : FlightState :=
  {| st_started_ns := st_started_ns s; st_attempts := st_attempts s + 1; st_polls := st_polls s;
     st_cleanup_failed := st_cleanup_failed s |}.
Definition add_poll (s : FlightState) : FlightState :=
  {| st_started_ns := st_started_ns s; st_attempts := st_attempts s; st_polls := st_polls s + 1;
     st_cleanup_failed := st_cleanup_failed s |}.
Definition fail_cleanup (s : FlightState) : FlightState :=
  {| st_started_ns := st_started_ns s; st_attempts := st_attempts s; st_polls := st_polls s;
     st_cleanup_failed := true |}.

(** ** Keys, markers and delays *)

(** [_validate_logical_key]. *)
Definition validate_logical_key (key : arg pystr) : outcome pystr :=
  let? k := require_exact key "key must be an exact str" in
  let? encoded := oget (utf8_encode k) UnicodeError in
  let? _ := orequire (Z.of_nat (length encoded) <=? 4096)
              (ValueError "key must not exceed 4096 UTF-8 bytes") in
  Returned k.

Section Keys.
(** The hexadecimal digest of bytes. *)
Variable sha256 : pybytes -> pystr.

(** [_coordination_keys]: the lease key and the result key. *)
Definition coordination_keys (namespace_id logical_key : pystr) : outcome (pystr * pystr) :=
  let? encoded := oget (utf8_encode logical_key) UnicodeError in
  let key_id := sha256 encoded in
  let slot := py "{" ++ namespace_id ++ py ":" ++ key_id ++ py "}" in
  let prefix := py "bluetape:cache:coord:" ++ namespace_id ++ py ":" ++ slot in
  Returned (prefix ++ py ":lease", prefix ++ py ":result").

(** [__init__]: the namespace identifier; the first three arguments tell
    whether the cache, the provider and the codec are of their classes. *)
Definition init_coordinator (cache provider codec : bool) (options : arg RedisLoadOptions)
    (observer_callable : bool) (policy : option RedisCommandPolicy) : outcome pystr :=
  let? _ := orequire cache (TypeError "cache must be a TTLCache") in
  let? _ := orequire provider (TypeError "provider must be a SyncRedisProvider") in
  let? _ := orequire codec (TypeError "codec must be a ResultEnvelopeCodec") in
  let? o := require_exact options "options must be an exact RedisLoadOptions" in
  let? _ := orequire observer_callable (TypeError "observer must provide on_event") in
  let? bounds := oget policy (ValueError "provider must expose a bounded no-retry policy") in
  let? _ := orequire (negb (flt (seconds (ro_redis_io_timeout o)) (max_command_time bounds)))
              (ValueError "provider command policy exceeds redis_io_timeout") in
  let? encoded := oget (utf8_encode (ro_namespace o)) UnicodeError in
  Returned (sha256 encoded).
End Keys.

Inductive marker_state : Type := Active | Completed.

(** [s.split(":", 1)] when there is a colon. *)
Fixpoint split_once (s : pystr) : option (pystr * pystr) :=
  match s with
  | [] => None
  | c :: s' =>
      if c =? 58 then Some ([], s')
      else match split_once s' with Some (a, b) => Some (c :: a, b) | None => None end
  end.

Definition invalid_artifact : exn := RedisCoordinationError INVALID_ARTIFACT.

(** [_parse_marker]. *)
Definition parse_marker (marker : pybytes) : outcome (marker_state * pystr) :=
  let? text := oget (ascii_decode marker) invalid_artifact in
  let? (state, token) := oget (split_once text) invalid_artifact in
  let? st := (if bool_decide (state = py "active") then Returned Active
              else if bool_decide (state = py "completed") then Returned Completed
              else Raised invalid_artifact) in
  match validate_owner_token (Exact token) with
  | Returned _ => Returned (st, token)
  | Raised e => if is_TypeError_or_ValueError e then Raised invalid_artifact else Raised e
  end.

(** [2 ** exponent] as the factor of a float. *)
Definition two_to (exponent : Z) : float := SpecFloat.binary_normalize 53 1024 1 exponent false.

(** [_poll_delay]; [log2] is [math.log2]. *)
Definition poll_delay (log2 : float -> float) (o : RedisLoadOptions) (polls : Z) (remaining : float)
    : outcome float :=
  let? max_exponent := fceil (log2 (fdiv (seconds (ro_max_poll_interval o)) (seconds (ro_poll_interval o)))) in
  let exponent := Z.min (polls - 1) max_exponent in
  Returned (fmin (fmin (fmul (seconds (ro_poll_interval o)) (two_to exponent))
                       (seconds (ro_max_poll_interval o))) remaining).

(** ** Flights *)

(** The commands a flight sends to Redis. *)
Record coordination_backend (W : Type) : Type := {
  cb_set_if_absent : arg pystr -> arg pybytes -> pyval -> M W bool;
  cb_coordination_snapshot : arg pystr -> arg pystr -> arg Z -> M W RedisCoordinationSnapshot;
  cb_publish_if_value :
    arg pystr -> arg pybytes -> arg pystr -> arg pybytes -> arg pybytes -> pyval -> M W bool;
  cb_delete_if_value : arg pystr -> arg pybytes -> M W bool;
}.
Arguments cb_set_if_absent {W} c. Arguments cb_coordination_snapshot {W} c.
Arguments cb_publish_if_value {W} c. Arguments cb_delete_if_value {W} c.

(** The synchronous provider as a backend; the marker bound is the default. *)
Definition sync_backend {W} (p : SyncRedisProvider W) : coordination_backend W := {|
  cb_set_if_absent := set_if_absent p;
  cb_coordination_snapshot marker_key result_key :=
    coordination_snapshot p marker_key result_key (Exact MAX_COORDINATION_MARKER_SIZE);
  cb_publish_if_value := publish_if_value p;
  cb_delete_if_value := delete_if_value p;
|}.

(** The modules' [_clock], [_sleep], [_jitter], [_new_token] and
    [time.perf_counter_ns]; [math.log2]; the hexadecimal SHA-256 digest. *)
Record coordination_platform (W : Type) : Type := {
  pl_clock : M W float;
  pl_sleep : float -> M W unit;
  pl_jitter : M W float;
  pl_new_token : M W pystr;
  pl_perf_counter_ns : M W Z;
  pl_log2 : float -> float;
  pl_sha256 : pybytes -> pystr;
}.
Arguments pl_clock {W} c. Arguments pl_sleep {W} c. Arguments pl_jitter {W} c.
Arguments pl_new_token {W} c. Arguments pl_perf_counter_ns {W} c. Arguments pl_log2 {W} c.
Arguments pl_sha256 {W} c.

(** A computation of the world inside a flight, and the flight's own state. *)
Definition lift {W A} (m : M W A) : M (FlightState * W) A := fun '(s, w) =>
  let '(r, w') := m w in (r, (s, w')).
Definition read_flight {W} : M (FlightState * W) FlightState := fun '(s, w) => (Returned s, (s, w)).
Definition update_flight {W} (f : FlightState -> FlightState) : M (FlightState * W) unit :=
  fun '(s, w) => (Returned tt, (f s, w)).

(** [_timeout]. *)
Definition coordination_timeout (code : RedisCoordinationErrorCode) : exn :=
  RedisCoordinationTimeoutError code.

Definition active_marker_of (token : pystr) : pystr := py "active:" ++ token.
Definition completion_marker_of (token : pystr) : pystr := py "completed:" ++ token.

Section Coordinator.
Context {W V : Type}.

(** [cd_release] is the cleanup of a failed owner, which the synchronous and
    the asyncio coordinator write differently: it deletes the lease that holds
    its marker, and notes a failure in the flight. *)
Record RedisLoadCoordinator : Type := {
  cd_mode : RedisMode;
  cd_backend : coordination_backend W;
  cd_codec : ResultEnvelopeCodec W V;
  cd_options : RedisLoadOptions;
  cd_observer : option (RedisCoordinationEvent -> M W unit);
  cd_namespace_id : pystr;
  cd_platform : coordination_platform W;
  cd_release : pystr -> pybytes -> M (FlightState * W) unit;
}.

Variable cd : RedisLoadCoordinator.
Abbreviation options := (cd_options cd).
Abbreviation platform := (cd_platform cd).

(** [_emit]. *)
Definition emit_coordination (s : FlightState) (out : RedisCoordinationOutcome)
    (code : option RedisCoordinationErrorCode) : M W unit :=
  match cd_observer cd with
  | None => ret tt
  | Some on_event =>
      now <- pl_perf_counter_ns platform ;;
      event <- pure_outcome (make_coordination_event
        {| ce_mode := cd_mode cd; ce_outcome := out; ce_error_code := code;
           ce_attempts := st_attempts s; ce_polls := st_polls s;
           ce_cleanup_failed := st_cleanup_failed s;
           ce_elapsed_ns := Z.max 0 (now - st_started_ns s) |}) ;;
      try_except (on_event event) (fun e => if is_Exception e then Some (ret tt) else None)
  end.

(** [if _clock() >= deadline: raise self._timeout(DEADLINE_EXCEEDED)]. *)
Definition check_deadline (deadline : float) : M (FlightState * W) unit :=
  now <- lift (pl_clock platform) ;;
  raise_if (fle deadline now) (coordination_timeout DEADLINE_EXCEEDED).

(** What the [try] of [_run_owner] ends with. *)
Inductive owner_end : Type :=
| OwnerReturns (v : V)
| OwnerPublishes (v : V) (published : bool).

(** [_run_owner]. *)
Definition run_owner (key : pystr) (loader : pystr -> M W V) (lease_key result_key : pystr)
    (active_marker completion_marker : pybytes) (lease_deadline : float)
    : M (FlightState * W) (V * RedisCoordinationOutcome) :=
  ended <- try_except
    (value <- lift (loader key) ;;
     now <- lift (pl_clock platform) ;;
     if fle lease_deadline now then ret (OwnerReturns value)
     else
       token <- pure_outcome (oget (ascii_decode (drop 7 active_marker)) UnicodeError) ;;
       encoded <- lift (encode_value (cd_codec cd) (Exact token) value) ;;
       now <- lift (pl_clock platform) ;;
       if fle lease_deadline now then ret (OwnerReturns value)
       else
         published <- lift (cb_publish_if_value (cd_backend cd) (Exact lease_key) (Exact active_marker)
                        (Exact result_key) (Exact encoded) (Exact completion_marker)
                        (ro_result_ttl options)) ;;
         ret (OwnerPublishes value published))
    (fun primary => Some (cd_release cd lease_key active_marker ;; raise primary)) ;;
  ret (match ended with
       | OwnerReturns value => (value, LEASE_LOST)
       | OwnerPublishes value published => (value, if (published : bool) then LOADED else LEASE_LOST)
       end).

(** The inner loop of [_run_flight]: [None] is its [break]. *)
Fixpoint poll_loop (fuel : nat) (deadline : float) (lease_key result_key : pystr)
    : M (FlightState * W) (option (V * RedisCoordinationOutcome)) :=
  match fuel with
  | O => raise FuelExhausted
  | S fuel' =>
      check_deadline deadline ;;
      snapshot <- lift (cb_coordination_snapshot (cd_backend cd) (Exact lease_key) (Exact result_key)
                          (Exact (rc_max_encoded_size (cd_codec cd)))) ;;
      check_deadline deadline ;;
      raise_if (cs_marker_oversized snapshot || cs_result_oversized snapshot) invalid_artifact ;;
      match cs_marker snapshot with
      | None => ret None
      | Some marker =>
          let* (state, token) := pure_outcome (parse_marker marker) in
          found <- match state, cs_result snapshot with
                   | Active, _ => ret None
                   | Completed, None => raise invalid_artifact
                   | Completed, Some result =>
                       lift (decode_matching (cd_codec cd) (Exact result) (Exact token))
                   end ;;
          match found with
          | Some value => ret (Some (value, RESULT_REUSED))
          | None =>
              update_flight add_poll ;;
              s <- read_flight ;;
              raise_if (ro_max_polls options <=? st_polls s) (coordination_timeout POLLS_EXHAUSTED) ;;
              now <- lift (pl_clock platform) ;;
              let remaining := fsub deadline now in
              raise_if (fle remaining f0) (coordination_timeout DEADLINE_EXCEEDED) ;;
              cap <- pure_outcome (poll_delay (pl_log2 platform) options (st_polls s) remaining) ;;
              jitter <- lift (pl_jitter platform) ;;
              lift (pl_sleep platform (fmul cap jitter)) ;;
              poll_loop fuel' deadline lease_key result_key
          end
      end
  end.

(** [_run_flight]; [poll_fuel] bounds the rounds of one inner loop. *)
Fixpoint run_flight (fuel poll_fuel : nat) (key : pystr) (loader : pystr -> M W V) (deadline : float)
    (lease_key result_key : pystr) : M (FlightState * W) (V * RedisCoordinationOutcome) :=
  match fuel with
  | O => raise FuelExhausted
  | S fuel' =>
      check_deadline deadline ;;
      s <- read_flight ;;
      raise_if (ro_max_attempts options <=? st_attempts s) (coordination_timeout ATTEMPTS_EXHAUSTED) ;;
      token <- lift (pl_new_token platform) ;;
      pure_outcome (validate_owner_token (Exact token)) ;;
      active_marker <- pure_outcome (oget (ascii_encode (active_marker_of token)) UnicodeError) ;;
      completion_marker <- pure_outcome (oget (ascii_encode (completion_marker_of token)) UnicodeError) ;;
      check_deadline deadline ;;
      update_flight add_attempt ;;
      acquired <- lift (cb_set_if_absent (cd_backend cd) (Exact lease_key) (Exact active_marker)
                          (ro_lease_ttl options)) ;;
      if (acquired : bool) then
        now <- lift (pl_clock platform) ;;
        if fle deadline now then
          cd_release cd lease_key active_marker ;; raise (coordination_timeout DEADLINE_EXCEEDED)
        else
          now <- lift (pl_clock platform) ;;
          run_owner key loader lease_key result_key active_marker completion_marker
            (fadd now (seconds (ro_lease_ttl options)))
      else
        check_deadline deadline ;;
        polled <- poll_loop poll_fuel deadline lease_key result_key ;;
        match polled with
        | Some found => ret found
        | None => run_flight fuel' poll_fuel key loader deadline lease_key result_key
        end
  end.

(** The outcome and the error code an exception is reported with. *)
Definition failure_report (e : exn) : RedisCoordinationOutcome * option RedisCoordinationErrorCode :=
  match e, cd_mode cd with
  | CancelledError, ASYNC => (CO_CANCELLED, None)
  | RedisCoordinationTimeoutError code, _ => (CO_TIMEOUT, Some code)
  | RedisCoordinationError code, _ => (CO_FAILURE, Some code)
  | RedisProviderError _ _, _ | ProviderClosedError _, _ => (CO_FAILURE, Some PROVIDER_FAILURE)
  | _, _ => if is_EnvelopeError e then (CO_FAILURE, Some ENVELOPE_FAILURE)
            else (CO_FAILURE, Some LOADER_FAILURE)
  end.

(** [_distributed_load].  A flight makes at most [max_attempts] attempts, and one
    round more to see that they are spent; its polls are bounded likewise. *)
Definition distributed_load (key : pystr) (loader : pystr -> M W V) : M W V :=
  started <- pl_perf_counter_ns platform ;;
  now <- pl_clock platform ;;
  let deadline := fadd now (seconds (ro_wait_timeout options)) in
  let* (lease_key, result_key) := pure_outcome (coordination_keys (pl_sha256 platform) (cd_namespace_id cd) key) in
  fun w =>
    let '(r, (s, w')) :=
      run_flight (Z.to_nat (ro_max_attempts options) + 1) (Z.to_nat (ro_max_polls options))
        key loader deadline lease_key result_key (fresh_flight started, w) in
    match r with
    | Returned (value, out) => (emit_coordination s out None ;; ret value) w'
    | Raised FuelExhausted => (Raised FuelExhausted, w')
    | Raised e => let '(out, code) := failure_report e in (emit_coordination s out code ;; raise e) w'
    end.

(** [get_or_load]: a local hit, or a local load that is a flight. *)
Definition coordinated_get_or_load (cache : cache_object pystr V W) (key : arg pystr)
    (loader : option (pystr -> M W V)) (ttl : pyval) : M W V :=
  k <- pure_outcome (validate_logical_key key) ;;
  load <- pure_outcome (oget loader (TypeError "loader must be callable")) ;;
  get_or_load cache k (fun logical_key => distributed_load logical_key load) ttl.
End Coordinator.
Arguments RedisLoadCoordinator : clear implicits.

(** ** The synchronous coordinator *)

Section Sync.
Context {W V : Type} (p : SyncRedisProvider W).

(** [_cleanup]: it notes the failure on the primary exception and re-raises. *)
Definition sync_cleanup (lease_key : pystr) (active_marker : pybytes) : M W unit :=
  delete_if_value p (Exact lease_key) (Exact active_marker) ;; ret tt.

(** [try: self._cleanup(...) except BaseException: state.cleanup_failed = True]. *)
Definition release_owner (lease_key : pystr) (active_marker : pybytes) : M (FlightState * W) unit :=
  try_except (lift (sync_cleanup lease_key active_marker)) (fun _ => Some (update_flight fail_cleanup)).

Definition SyncRedisLoadCoordinator (codec : ResultEnvelopeCodec W V) (options : RedisLoadOptions)
    (observer : option (RedisCoordinationEvent -> M W unit)) (namespace_id : pystr)
    (platform : coordination_platform W) : RedisLoadCoordinator W V := {|
  cd_mode := SYNC;
  cd_backend := sync_backend p;
  cd_codec := codec;
  cd_options := options;
  cd_observer := observer;
  cd_namespace_id := namespace_id;
  cd_platform := platform;
  cd_release := release_owner;
|}.
End Sync.
