(* ===== verification/CoordinationProtocol.v ===== *)
(** * The protocol of coordinated loads

    The specification of what the coordinators of all processes do to the two keys
    of a load, as a step relation on what the server holds, which the runs of the
    scripts refine (ProviderStore.v); its invariant, that a completed marker and a
    result belong to one owner; the histories of a server that runs the scripts
    themselves, in which only the holder of the lease publishes; and what a backend
    of commands promises a coordinator ([CoordinationStore]), which the synchronous
    provider keeps over any client that runs its scripts on the server. *)

From stdpp Require Import gmap relations.
From S2P Require Import Prelude Python Leader LeaseRecord Utf8 EnvelopeFormat EnvelopeCodec.
From S2P Require Import RedisScripts RedisProvider CoordinationScripts CacheCore SyncCache.
From S2P Require Import RedisCoordination.
Open Scope py_scope.
Open Scope Z_scope.

(** ** Markers *)

Lemma active_not_completed t t' : active_marker_of t <> completion_marker_of t'.
Proof. done. Qed.

Lemma completion_marker_inj t t' : completion_marker_of t = completion_marker_of t' -> t = t'.
Proof. apply app_inv_head. Qed.

Lemma active_marker_inj t t' : active_marker_of t = active_marker_of t' -> t = t'.
Proof. apply app_inv_head. Qed.

Lemma split_once_join s a b : split_once s = Some (a, b) -> s = a ++ 58 :: b.
Proof.
  revert a b. induction s as [|c s IH]; intros a b; [done|]. cbn.
  destruct (Z.eqb_spec c 58) as [->|]; [by intros [= <- <-]|].
  destruct (split_once s) as [[x y]|]; [|done]. intros [= <- <-]. by rewrite (IH x y).
Qed.

(** A marker that parses is the one its owner wrote. *)
Lemma parse_marker_completed marker t :
  parse_marker marker = Returned (Completed, t) -> marker = completion_marker_of t.
Proof.
  unfold parse_marker. intros (text & Ht%oget_returned & H)%obind_returned.
  unfold ascii_decode in Ht. destruct (is_ascii marker); [|done]. injection Ht as ->.
  apply obind_returned in H as ([state token] & Hs%oget_returned & H).
  apply obind_returned in H as (st & Hst & H).
  apply split_once_join in Hs as ->. case_bool_decide as Ha; [|case_bool_decide as Hc; [|done]].
  - injection Hst as <-. destruct (validate_owner_token _) as [|e]; [|destruct e]; done.
  - destruct (validate_owner_token _) as [|e]; [|destruct e; done].
    injection H as -> ->. by rewrite Hc.
Qed.

(** ** The protocol *)

(** The abstract view of what coordinators do to the server, that the scripts
    implement: one owner takes the lease, its publication completes it; a failed owner, or the server when the time has
    come, deletes a key; other keys are none of the load's business. *)
Inductive coordination_event : Type :=
| Acquires (token : pystr)
| Publishes (token : pystr) (result : pybytes)
| Deletes (key : pystr)
| Elsewhere (key : pystr).

Section Protocol.
Context {V : Type} (lease_key result_key : pystr).
(** [reads result token value]: the result, read for the token's owner, is the
    value.  [loaded]: the values that loaders of the key return. *)
Variables (reads : pybytes -> pystr -> V -> Prop) (loaded : V -> Prop).
Abbreviation server_keys := (gmap pystr redis_entry).

Definition honest (token : pystr) (result : pybytes) : Prop :=
  forall v, reads result token v -> loaded v.

Inductive coordination_step : coordination_event -> relation server_keys :=
| step_acquires m token ttl :
    m !! lease_key = None ->
    coordination_step (Acquires token) m (<[lease_key := StringValue (active_marker_of token) ttl]> m)
| step_publishes m token result ttl :
    is_string m lease_key (active_marker_of token) -> honest token result ->
    coordination_step (Publishes token result) m
      (<[lease_key := StringValue (completion_marker_of token) ttl]>
        (<[result_key := StringValue result ttl]> m))
| step_deletes m k : coordination_step (Deletes k) m (delete k m)
| step_elsewhere m k e :
    k <> lease_key -> k <> result_key -> coordination_step (Elsewhere k) m (<[k := e]> m).

(** Runs of the protocol, with their events in order. *)
Inductive coordination_run : list coordination_event -> relation server_keys :=
| run_nil m : coordination_run [] m m
| run_snoc es e m1 m2 m3 :
    coordination_run es m1 m2 -> coordination_step e m2 m3 -> coordination_run (es ++ [e]) m1 m3.

Definition leads_to (m m' : server_keys) : Prop := exists es, coordination_run es m m'.

Lemma run_app es1 es2 m1 m2 m3 :
  coordination_run es1 m1 m2 -> coordination_run es2 m2 m3 -> coordination_run (es1 ++ es2) m1 m3.
Proof.
  intros H1 H2. revert m1 es1 H1. induction H2 as [|es e m2 m3 m4 _ IH Hs]; intros m1 es1 H1.
  - by rewrite app_nil_r.
  - rewrite app_assoc. econstructor; eauto.
Qed.

#[export] Instance leads_to_preorder : PreOrder leads_to.
Proof.
  split; [intros m; exists []; constructor|].
  intros m1 m2 m3 [es1 H1] [es2 H2]. exists (es1 ++ es2). by eapply run_app.
Qed.

Lemma step_leads e m m' : coordination_step e m m' -> leads_to m m'.
Proof. intros H. exists [e]. apply (run_snoc [] e m m m'); [constructor|done]. Qed.

(** A completed load and its result belong together. *)
Definition coherent (m : server_keys) : Prop :=
  forall token result, is_string m lease_key (completion_marker_of token) ->
    is_string m result_key result -> honest token result.

Hypothesis keys_differ : lease_key <> result_key.

Lemma is_string_insert_eq (m : server_keys) k v v' ttl :
  is_string (<[k := StringValue v ttl]> m) k v' <-> v' = v.
Proof. unfold is_string. rewrite lookup_insert_eq. split; [by intros [? [= -> _]]|intros ->; eauto]. Qed.

Lemma is_string_insert_ne (m : server_keys) k k' e v :
  k <> k' -> is_string (<[k := e]> m) k' v <-> is_string m k' v.
Proof. intros H. unfold is_string. by rewrite lookup_insert_ne. Qed.

Lemma is_string_delete (m : server_keys) k k' v : is_string (delete k m) k' v -> k <> k' /\ is_string m k' v.
Proof. intros [ttl [H1 H2]%lookup_delete_Some]. split; [done|by exists ttl]. Qed.

Lemma coordination_step_coherent e m m' : coordination_step e m m' -> coherent m -> coherent m'.
Proof.
  intros Hs Hc token result Ht Hr. destruct Hs as [m t ttl Hm|m t r ttl Hm Hh|m k|m k x H1 H2].
  - by apply is_string_insert_eq in Ht.
  - apply is_string_insert_eq in Ht as ->%completion_marker_inj.
    apply is_string_insert_ne, is_string_insert_eq in Hr as ->; done.
  - apply is_string_delete in Ht as [_ Ht], Hr as [_ Hr]. by eapply Hc.
  - rewrite is_string_insert_ne in Ht, Hr by done. by eapply Hc.
Qed.

Lemma leads_to_coherent m m' : leads_to m m' -> coherent m -> coherent m'.
Proof.
  intros [es H]. induction H as [|es e m1 m2 m3 _ IH Hs]; [done|].
  intros Hm. eapply coordination_step_coherent; eauto.
Qed.
End Protocol.

(** ** Histories of the scripts

    What one server runs for the coordinators of one load: their commands, as the
    coordinators send them, in any order and with any tokens, results and times to
    live; while keys expire at any time and others write their own keys. *)

Section Histories.
Context {S : Type} `{!StringServer S} `{!StringServerLaws S} (lease_key result_key : pystr).

Inductive coordinator_call : Type :=
| CallAcquire (token : pystr) (ms : Z)
| CallPublish (token : pystr) (result : pybytes) (ms : Z)
| CallRelease (token : pystr)
| CallSnapshot (marker_limit result_limit : Z).

(** The command of a call. *)
Definition run_coordinator_call (c : coordinator_call) : M S reply :=
  match c with
  | CallAcquire token ms => set_nx_reply lease_key (active_marker_of token) ms
  | CallPublish token result ms =>
      eval_script PUBLISH_IF_VALUE_SCRIPT [lease_key; result_key]
        [PyBytes (active_marker_of token); PyBytes result; PyInt ms; PyBytes (completion_marker_of token)]
  | CallRelease token => eval_script COMPARE_AND_DELETE_SCRIPT [lease_key] [PyBytes (active_marker_of token)]
  | CallSnapshot n1 n2 =>
      eval_script COORDINATION_SNAPSHOT_SCRIPT [lease_key; result_key] [PyInt n1; PyInt n2]
  end.

(** The ranges that the provider checks before it sends the command. *)
Definition call_in_range (c : coordinator_call) : Prop :=
  match c with
  | CallAcquire _ ms | CallPublish _ _ ms => 1 <= ms <= max_px
  | CallRelease _ => True
  | CallSnapshot n1 n2 => 1 <= n1 /\ 1 <= n2
  end.

Inductive server_event : Type :=
| Called (c : coordinator_call) (r : outcome reply)
| Expired (key : pystr)
| Wrote (key : pystr).

Inductive server_step : server_event -> relation S :=
| step_called c s r s' :
    call_in_range c -> run_coordinator_call c s = (r, s') -> server_step (Called c r) s s'
| step_expired k s s' : keys s' = delete k (keys s) -> server_step (Expired k) s s'
| step_wrote k e s s' :
    k <> lease_key -> k <> result_key -> keys s' = <[k := e]> (keys s) -> server_step (Wrote k) s s'.

(** Histories, with their events in order. *)
Inductive server_history : list server_event -> relation S :=
| history_nil s : server_history [] s s
| history_snoc h ev s1 s2 s3 :
    server_history h s1 s2 -> server_step ev s2 s3 -> server_history (h ++ [ev]) s1 s3.

(** What the replies tell: who took the lease, who published, and whether the
    lease was given up or expired. *)
Definition took (ev : server_event) : option pystr :=
  match ev with
  | Called (CallAcquire token _) (Returned (Plain (PyBool true))) => Some token
  | _ => None
  end.
Definition published (ev : server_event) : option pystr :=
  match ev with
  | Called (CallPublish token _ _) (Returned (Plain (PyInt 1))) => Some token
  | _ => None
  end.
Definition freed (ev : server_event) : bool :=
  match ev with
  | Called (CallRelease _) (Returned (Plain (PyInt 1))) => true
  | Expired k => bool_decide (k = lease_key)
  | _ => false
  end.

Lemma took_acquired ev token :
  took ev = Some token -> exists ms, ev = Called (CallAcquire token ms) (Returned (Plain (PyBool true))).
Proof. unfold took. repeat case_match; try done. intros [= ->]. eauto. Qed.

(** The lease stays with its owner. *)
Definition keeps_lease (ev : server_event) : Prop :=
  took ev = None /\ published ev = None /\ freed ev = false.

Abbreviation holds_lease s token := (is_string (keys s) lease_key (active_marker_of token)).

Hypothesis keys_differ : lease_key <> result_key.

Lemma snapshot_keeps n1 n2 s : 1 <= n1 -> 1 <= n2 ->
  keys (snd (run_coordinator_call (CallSnapshot n1 n2) s)) = keys s.
Proof.
  intros H1 H2. cbn [run_coordinator_call].
  destruct (string_at (keys s !! lease_key)) as [marker|e] eqn:Em;
    [|by rewrite (snapshot_run_wrong_kind _ _ _ _ _ e) by auto].
  destruct (hides_result marker) eqn:Eh.
  - destruct (snapshot_run lease_key result_key n1 n2 s marker None) as (reply & -> & _); [done..|by rewrite Eh|done].
  - destruct (string_at (keys s !! result_key)) as [result|e] eqn:Er;
      [|by rewrite (snapshot_run_wrong_kind _ _ _ _ _ e) by eauto].
    by destruct (snapshot_run lease_key result_key n1 n2 s marker result) as (reply & -> & _).
Qed.

Lemma publish_answers token result ms s r s' :
  1 <= ms <= max_px -> run_coordinator_call (CallPublish token result ms) s = (r, s') ->
  (r = Returned (Plain (PyInt 1)) /\ holds_lease s token /\ exists ttl,
     keys s' = <[lease_key := StringValue (completion_marker_of token) ttl]>
                 (<[result_key := StringValue result ttl]> (keys s))) \/
  (r <> Returned (Plain (PyInt 1)) /\ keys s' = keys s).
Proof.
  intros Hms E. cbn [run_coordinator_call] in E. unfold eval_script, bind in E.
  destruct (publish_run lease_key result_key (active_marker_of token) result ms
    (completion_marker_of token) s Hms) as (r1 & s1 & E1 & Hk). rewrite E1 in E.
  destruct Hk as [(Ha & -> & Hk)|[Hr Hk]]; [injection E as <- <-; eauto|].
  right. destruct r1 as [n|e]; injection E as <- <-; [|done]. split; [|done]. intros [= ->]. done.
Qed.

(** What a step does, told by its reply. *)
Lemma step_effect ev s s' :
  server_step ev s s' ->
  match took ev, published ev with
  | Some token, _ => keys s !! lease_key = None /\ exists ttl,
      keys s' = <[lease_key := StringValue (active_marker_of token) ttl]> (keys s)
  | None, Some token => holds_lease s token /\ exists result ttl,
      keys s' = <[lease_key := StringValue (completion_marker_of token) ttl]>
                  (<[result_key := StringValue result ttl]> (keys s))
  | None, None =>
      if freed ev then keys s' !! lease_key = None
      else forall token, holds_lease s' token -> holds_lease s token
  end.
Proof.
  intros H. destruct H as [c s r s' Hc E|k s s' E|k e s s' H1 H2 E].
  - destruct c as [token ms|token result ms|token|n1 n2].
    + cbn [run_coordinator_call] in E. unfold set_nx_reply, bind in E.
      destruct (cmd_set_nx_px_law lease_key (active_marker_of token) ms s Hc) as (s1 & E1 & Hk). rewrite E1 in E.
      injection E as <- <-. case_bool_decide as Hn; cbn; [rewrite Hn in Hk; eauto|].
      rewrite Hk. by destruct (keys s !! lease_key).
    + destruct (publish_answers token result ms s r s' Hc E) as [(-> & Ha & ttl & Hk)|[Hr Hk]]; cbn; [eauto|].
      repeat case_match; subst; try done; by rewrite Hk.
    + cbn [run_coordinator_call] in E. unfold eval_script, bind in E.
      destruct (compare_and_delete_run lease_key (active_marker_of token) s) as (r1 & s1 & E1 & Hk).
      rewrite E1 in E. destruct Hk as [(Ha & -> & Hk)|[Hr Hk]].
      * injection E as <- <-. cbn. rewrite Hk. apply lookup_delete_eq.
      * destruct r1 as [n|e]; injection E as <- <-; cbn; rewrite Hk; [|done]. repeat case_match; by subst.
    + destruct Hc as [H1 H2]. pose proof (snapshot_keeps n1 n2 s H1 H2) as Hk. rewrite E in Hk. cbn in Hk |- *.
      by rewrite Hk.
  - cbn. rewrite E. case_bool_decide as Hk; [subst; apply lookup_delete_eq|].
    by intros token [_ Ht]%is_string_delete.
  - cbn. rewrite E. intros token. by rewrite is_string_insert_ne.
Qed.

(** Who holds the lease after a step took it in that step or held it before. *)
Lemma step_holder ev s s' token :
  server_step ev s s' -> holds_lease s' token ->
  took ev = Some token \/ keeps_lease ev /\ holds_lease s token.
Proof.
  intros H%step_effect Ht. unfold keeps_lease. destruct (took ev) as [t|].
  - destruct H as (_ & ttl & E). rewrite E in Ht. apply is_string_insert_eq in Ht as ->%active_marker_inj. by left.
  - destruct (published ev) as [t'|].
    + destruct H as (_ & result & ttl & E). rewrite E in Ht. by apply is_string_insert_eq in Ht.
    + destruct (freed ev); [|by auto]. destruct Ht as [ttl Ht]. congruence.
Qed.

(** Who holds the lease took it, and nothing has happened to it since. *)
Lemma holder_took h s s' token :
  server_history h s s' -> keys s !! lease_key = None -> holds_lease s' token ->
  exists before ev since, h = before ++ ev :: since /\ took ev = Some token /\ Forall keeps_lease since.
Proof.
  intros H Hs. induction H as [s|h ev s1 s2 s3 _ IH Hstep]; intros Ht; [destruct Ht as [ttl Ht]; congruence|].
  destruct (step_holder _ _ _ _ Hstep Ht) as [Htook|[Hk Ht2]]; [by exists h, ev, []|].
  destruct (IH Hs Ht2) as (before & ev' & since & -> & Htook & Hf). exists before, ev', (since ++ [ev]).
  by rewrite <-app_assoc, Forall_app, Forall_singleton.
Qed.

Lemma history_split h1 ev h2 s s' :
  server_history (h1 ++ ev :: h2) s s' -> exists s1 s2, server_history h1 s s1 /\ server_step ev s1 s2.
Proof.
  revert s'. induction h2 as [|e' h2 IH] using rev_ind; intros s' H.
  - inversion H as [|h0 e0 s1 s2 s3 Hr Hs Heq]; [by destruct h1|].
    apply app_inj_tail in Heq as [-> ->]. eauto.
  - rewrite app_comm_cons, app_assoc in H.
    inversion H as [|h0 e0 s1 s2 s3 Hr Hs Heq]; [by destruct h1|].
    apply app_inj_tail in Heq as [-> ->]. by apply IH in Hr.
Qed.

(** The tokens of the owners that took the lease, and of those that published. *)
Definition takers : list server_event -> list pystr := omap took.
Definition publishers : list server_event -> list pystr := omap published.

Lemma publishers_took h s s' :
  server_history h s s' -> keys s !! lease_key = None -> NoDup (takers h) ->
  NoDup (publishers h) /\ publishers h ⊆ takers h /\
  (forall t, holds_lease s' t -> t ∈ takers h /\ t ∉ publishers h).
Proof.
  intros H Hs. induction H as [s|h ev s1 s2 s3 _ IH Hstep]; intros Hnd.
  - split_and!; [constructor|done|]. intros t [ttl Ht]. congruence.
  - unfold takers, publishers in *. rewrite !omap_app in *. cbn in *. apply NoDup_app in Hnd as (Hnd & Hdis & _).
    destruct (IH Hs Hnd) as (Hp & Hsub & Hact). pose proof (step_effect _ _ _ Hstep) as He.
    pose proof (fun t => step_holder _ _ _ t Hstep) as Hh. unfold keeps_lease in Hh.
    destruct (took ev) as [t|] eqn:Et, (published ev) as [t'|] eqn:Ep; rewrite ?app_nil_r.
    + by destruct ev as [[] [[[]|]|]| |].
    + split_and!; [done|set_solver|]. intros t2 Ht2. destruct (Hh t2 Ht2) as [[= <-]|[([=] & _) _]].
      split; [set_solver|]. intros Hin. apply (Hdis t); set_solver.
    + destruct He as [Ha _], (Hact t' Ha) as [Ht Hnt]. split_and!.
      * apply NoDup_app. split_and!; [done| |apply NoDup_singleton]. by intros x Hx ->%list_elem_of_singleton.
      * set_solver.
      * intros t2 Ht2. by destruct (Hh t2 Ht2) as [[=]|[(_ & [=] & _) _]].
    + split_and!; [done..|]. intros t2 Ht2. destruct (Hh t2 Ht2) as [[=]|[_ Ht]]. by apply Hact.
Qed.

(** [C10] No stale owner publishes.  In every history of a server that runs the
    coordinators' commands, of any number of coordinators and with keys that
    expire at any time: a publication that the script accepts comes from an owner
    that took the lease with its token, and since then the lease was not taken,
    published under, released or expired; an owner whose tokens are not taken
    twice publishes once at most; and a publication that the script refuses
    changes no key. *)
Theorem publication_needs_lease h s s' :
  server_history h s s' -> keys s !! lease_key = None ->
  (forall h1 token result ms h2,
     h = h1 ++ Called (CallPublish token result ms) (Returned (Plain (PyInt 1))) :: h2 ->
     exists before ms' since,
       h1 = before ++ Called (CallAcquire token ms') (Returned (Plain (PyBool true))) :: since /\
       Forall keeps_lease since) /\
  (NoDup (takers h) -> NoDup (publishers h)) /\
  (forall token result ms s1 r s2,
     1 <= ms <= max_px -> run_coordinator_call (CallPublish token result ms) s1 = (r, s2) ->
     r <> Returned (Plain (PyInt 1)) -> keys s2 = keys s1).
Proof.
  intros H Hs. split; [|split; [intros Hnd; by eapply publishers_took|]].
  - intros h1 token result ms h2 ->. apply history_split in H as (s1 & s2 & Hh & Hstep%step_effect).
    destruct Hstep as [Ha _]. destruct (holder_took _ _ _ _ Hh Hs Ha) as (before & ev & since & -> & Ht & Hf).
    apply took_acquired in Ht as [ms' ->]. eauto.
  - intros token result ms s1 r s2 Hms E Hr. by destruct (publish_answers _ _ _ _ _ _ Hms E) as [[-> _]|[_ ?]].
Qed.
End Histories.

(** ** Computations that follow the protocol

    [moves m Q]: from a coherent server [m] leads to another along the protocol,
    and what it returns satisfies [Q]. *)

Section Moves.
Context {V World : Type} (lease_key result_key : pystr).
Context (reads : pybytes -> pystr -> V -> Prop) (loaded : V -> Prop).
Hypothesis keys_differ : lease_key <> result_key.
Variable server : World -> gmap pystr redis_entry.

Abbreviation leads := (leads_to lease_key result_key reads loaded).

Definition sound (w : World) : Prop := coherent lease_key result_key reads loaded (server w).

Definition moves {A} (m : M World A) (Q : A -> Prop) : Prop := forall w, sound w ->
  leads (server w) (server (snd (m w))) /\
  match fst (m w) with Returned a => Q a | Raised _ => True end.

Lemma moves_sound {A} (m : M World A) Q w : moves m Q -> sound w -> sound (snd (m w)).
Proof. intros Hm Hw. eapply leads_to_coherent; [done|by apply Hm|done]. Qed.

Lemma moves_weaken {A} (m : M World A) (Q Q' : A -> Prop) :
  moves m Q -> (forall a, Q a -> Q' a) -> moves m Q'.
Proof. intros Hm HQ w Hw. specialize (Hm w Hw) as [Hl Hq]. split; [done|]. destruct (fst (m w)); auto. Qed.

Lemma moves_ret {A} (a : A) (Q : A -> Prop) : Q a -> moves (ret a) Q.
Proof. intros H w _. by split. Qed.

Lemma moves_raise {A} e (Q : A -> Prop) : moves (raise e) Q.
Proof. intros w _. by split. Qed.

Lemma moves_pure {A} (r : outcome A) (Q : A -> Prop) :
  (forall a, r = Returned a -> Q a) -> moves (pure_outcome r) Q.
Proof. intros H w _. split; [done|]. cbn. destruct r; auto. Qed.

Lemma moves_raise_if c e (Q : unit -> Prop) : (c = false -> Q tt) -> moves (raise_if c e) Q.
Proof. intros H. destruct c; [apply moves_raise|by apply moves_ret, H]. Qed.

Lemma moves_bind {A B} (m : M World A) (k : A -> M World B) (P : A -> Prop) (Q : B -> Prop) :
  moves m P -> (forall a, P a -> moves (k a) Q) -> moves (bind m k) Q.
Proof.
  intros Hm Hk w Hw. unfold bind. pose proof (moves_sound m P w Hm Hw) as Hw1.
  specialize (Hm w Hw) as [Hl HP]. destruct (m w) as [[a|e] w1]; cbn in *; [|by split].
  destruct (Hk a HP w1 Hw1) as [Hl2 HQ]. split; [|done]. by etrans.
Qed.

Lemma moves_then {A B} (m : M World A) (k : A -> M World B) (Q : B -> Prop) :
  moves m (fun _ => True) -> (forall a, moves (k a) Q) -> moves (bind m k) Q.
Proof. intros Hm Hk. eapply moves_bind; [exact Hm|]. auto. Qed.

Lemma moves_pure_bind {A B} (r : outcome A) (k : A -> M World B) (Q : B -> Prop) :
  (forall a, r = Returned a -> moves (k a) Q) -> moves (bind (pure_outcome r) k) Q.
Proof.
  intros H. apply moves_bind with (P := fun a => r = Returned a); [by apply moves_pure|]. apply H.
Qed.

Lemma moves_try_except {A} (m : M World A) handle (Q : A -> Prop) :
  moves m Q -> (forall e h, handle e = Some h -> moves h Q) -> moves (try_except m handle) Q.
Proof.
  intros Hm Hh w Hw. unfold try_except. pose proof (moves_sound m Q w Hm Hw) as Hw1.
  specialize (Hm w Hw) as [Hl HQ]. destruct (m w) as [[a|e] w1]; cbn in *; [done|].
  assert (forall r, r = match handle e with Some h => h w1 | None => (Raised e, w1) end ->
    leads (server w) (server (snd r)) /\ match fst r with Returned a => Q a | Raised _ => True end) as Hd.
  { intros r ->. destruct (handle e) as [h|] eqn:E; [|by split].
    destruct (Hh e h E w1 Hw1) as [Hl2 HQ2]. split; [by etrans|done]. }
  destruct e; try (by apply Hd); by split.
Qed.

Lemma moves_locked {S A} (l : lens World S) (f : S -> A * S) :
  (forall s w, server (lput l s w) = server w) -> moves (locked l f) (fun _ => True).
Proof. intros H w _. unfold locked. destruct (f (lget l w)); cbn. split; [by rewrite H|done]. Qed.

Lemma moves_pure_any {A} (r : outcome A) : moves (pure_outcome r) (fun _ => True).
Proof. by apply moves_pure. Qed.
End Moves.

#[export] Hint Resolve moves_ret moves_raise moves_pure_any moves_raise_if moves_then moves_locked : bluetape.

(** ** What a backend promises *)

Class CoordinationStore {V W : Type} (lease_key result_key : pystr)
    (reads : pybytes -> pystr -> V -> Prop) (loaded : V -> Prop)
    (server : W -> gmap pystr redis_entry) (valid_ttl : pyval -> Prop)
    (b : coordination_backend W) : Prop := {
  store_acquires token ttl : valid_ttl ttl ->
    moves lease_key result_key reads loaded server
      (cb_set_if_absent b (Exact lease_key) (Exact (active_marker_of token)) ttl) (fun _ => True);
  store_snapshots limit :
    moves lease_key result_key reads loaded server
      (cb_coordination_snapshot b (Exact lease_key) (Exact result_key) limit)
      (fun s => cs_marker_oversized s = false -> cs_result_oversized s = false ->
         forall token result, cs_marker s = Some (completion_marker_of token) ->
           cs_result s = Some result -> honest reads loaded token result);
  store_publishes token result ttl : valid_ttl ttl -> honest reads loaded token result ->
    moves lease_key result_key reads loaded server
      (cb_publish_if_value b (Exact lease_key) (Exact (active_marker_of token)) (Exact result_key)
         (Exact result) (Exact (completion_marker_of token)) ttl) (fun _ => True);
  store_deletes token :
    moves lease_key result_key reads loaded server
      (cb_delete_if_value b (Exact lease_key) (Exact (active_marker_of token))) (fun _ => True);
}.
