(* ===== verification/ProviderStore.v ===== *)
(** * The synchronous provider as a store of coordinated loads

    The four commands a coordinator sends through [SyncRedisProvider] keep the
    promises of [CoordinationStore], over any client that runs the provider's
    scripts on a server, whatever other processes do there before and after, and
    whether or not the reply arrives. *)

From stdpp Require Import gmap relations.
From S2P Require Import Prelude Python Leader EnvelopeFormat EnvelopeCodec RedisScripts.
From S2P Require Import RedisProvider CoordinationScripts RedisCoordination CoordinationProtocol.
Open Scope py_scope.
Open Scope Z_scope.
Import Redis.

Section Store.
Context {V W S : Type} `{!StringServer S} `{!StringServerLaws S}.
Context (lease_key result_key : pystr) (reads : pybytes -> pystr -> V -> Prop) (loaded : V -> Prop).
Hypothesis keys_differ : lease_key <> result_key.
Variable server : W -> gmap pystr redis_entry.

Abbreviation leads := (leads_to lease_key result_key reads loaded).
Abbreviation world_moves := (moves lease_key result_key reads loaded server).
Abbreviation server_moves := (moves lease_key result_key reads loaded (keys (S := S))).

(** The client runs a command at one instant between steps of others, and
    answers what it answered; or it fails, with the command run or not. *)
Definition performs {A} (m : M W A) (command : M S A) : Prop := forall w, exists s1 s2,
  leads (server w) (keys s1) /\ leads (keys s2) (server (snd (m w))) /\
  (s2 = snd (command s1) /\ fst (m w) = fst (command s1) \/
   (s2 = snd (command s1) \/ s2 = s1) /\ exists e, fst (m w) = Raised e).

Lemma performs_moves {A} (m : M W A) (command : M S A) Q :
  performs m command -> server_moves command Q -> world_moves m Q.
Proof.
  intros Hp Hc w Hw. destruct (Hp w) as (s1 & s2 & H1 & H2 & H).
  assert (coherent lease_key result_key reads loaded (keys s1)) as Hs1 by (by eapply leads_to_coherent).
  destruct (Hc s1 Hs1) as [Hl HQ]. destruct H as [[-> Hr]|[Hs [e He]]].
  - split; [by etrans; [exact H1|]; etrans|]. by rewrite Hr.
  - rewrite He. split; [|done]. etrans; [exact H1|]. etrans; [|exact H2].
    destruct Hs as [->| ->]; [done|reflexivity].
Qed.

(** ** The commands on the server *)

Lemma set_nx_moves token ms : 1 <= ms <= max_px ->
  server_moves (set_nx_reply lease_key (active_marker_of token) ms) (fun _ => True).
Proof.
  intros Hms s _. unfold set_nx_reply, bind.
  destruct (cmd_set_nx_px_law lease_key (active_marker_of token) ms s Hms) as (s' & -> & Hk).
  cbn. split; [|done]. rewrite Hk. destruct (keys s !! lease_key) as [e|] eqn:E; [reflexivity|].
  eapply step_leads. by constructor.
Qed.

Lemma compare_and_delete_moves v :
  server_moves (eval_script COMPARE_AND_DELETE_SCRIPT [lease_key] [PyBytes v]) (fun _ => True).
Proof.
  intros s _. unfold eval_script, bind.
  destruct (compare_and_delete_run lease_key v s) as (r & s' & -> & Hk).
  assert (leads (keys s) (keys s')).
  { destruct Hk as [(_ & _ & ->)|[_ ->]]; [|reflexivity]. eapply step_leads. constructor. }
  by destruct r.
Qed.

Lemma publish_moves token result ms : 1 <= ms <= max_px -> honest reads loaded token result ->
  server_moves (eval_script PUBLISH_IF_VALUE_SCRIPT [lease_key; result_key]
    [PyBytes (active_marker_of token); PyBytes result; PyInt ms; PyBytes (completion_marker_of token)])
    (fun _ => True).
Proof.
  intros Hms Hh s _. unfold eval_script, bind.
  destruct (publish_run lease_key result_key (active_marker_of token) result ms
              (completion_marker_of token) s Hms) as (r & s' & -> & Hk).
  assert (leads (keys s) (keys s')).
  { destruct Hk as [(Ha & _ & ->)|[_ ->]]; [|reflexivity]. eapply step_leads. by constructor. }
  by destruct r.
Qed.

(** A value that is not reported as oversized is the whole value. *)
Lemma bounded_value_whole limit v b :
  bounded_value limit v = (Some b, false) -> v = Some b.
Proof.
  destruct v as [c|]; [|done]. cbn. intros [= <- H%Z.ltb_ge]. by rewrite take_ge by lia.
Qed.

Lemma snapshot_values_whole marker result limit1 limit2 s :
  s = snapshot_of_values marker result limit1 limit2 ->
  cs_marker_oversized s = false -> cs_result_oversized s = false ->
  forall m r, cs_marker s = Some m -> cs_result s = Some r ->
  marker = Some m /\ result = Some r /\ hides_result marker = false.
Proof.
  intros -> Hm Hr m r Em Er. unfold snapshot_of_values in *. fold (hides_result marker) in *.
  destruct (bounded_value limit1 marker) as [m' big_m] eqn:E1.
  destruct (bounded_value limit2 _) as [r' big_r] eqn:E2. cbn in *. subst.
  apply bounded_value_whole in E1 as ->. apply bounded_value_whole in E2.
  by destruct (hides_result (Some m)).
Qed.

Definition snapshot_honest (s : RedisCoordinationSnapshot) : Prop :=
  cs_marker_oversized s = false -> cs_result_oversized s = false ->
  forall token result, cs_marker s = Some (completion_marker_of token) ->
    cs_result s = Some result -> honest reads loaded token result.

Lemma snapshot_moves limit1 limit2 : 1 <= limit1 -> 1 <= limit2 ->
  server_moves (eval_script COORDINATION_SNAPSHOT_SCRIPT [lease_key; result_key] [PyInt limit1; PyInt limit2])
    (fun reply => forall s, parse_coordination_snapshot reply limit1 limit2 = Returned s -> snapshot_honest s).
Proof.
  intros H1 H2 w Hw.
  destruct (string_at (keys w !! lease_key)) as [marker|e] eqn:Em.
  2: { rewrite (snapshot_run_wrong_kind _ _ _ _ _ e) by auto. by split. }
  destruct (string_at (keys w !! result_key)) as [result|e] eqn:Er.
  - destruct (snapshot_run lease_key result_key limit1 limit2 w marker result) as (reply & -> & Hp); [done..|].
    split; [reflexivity|]. cbn. rewrite Hp. intros s [= Hs] Hbm Hbr token r Hm Hr.
    destruct (snapshot_values_whole _ _ _ _ _ (eq_sym Hs) Hbm Hbr _ _ Hm Hr) as (-> & -> & _).
    apply Hw; by apply string_at_is_string.
  - destruct (hides_result marker) eqn:Eh.
    + destruct (snapshot_run lease_key result_key limit1 limit2 w marker None) as (reply & -> & Hp);
        [done..|by rewrite Eh|].
      split; [reflexivity|]. cbn. rewrite Hp. intros s [= Hs] Hbm Hbr token r Hm Hr.
      destruct (snapshot_values_whole _ _ _ _ _ (eq_sym Hs) Hbm Hbr _ _ Hm Hr) as (_ & ? & _). done.
    + rewrite (snapshot_run_wrong_kind _ _ _ _ _ e) by eauto. by split.
Qed.

(** ** The actions of the provider's commands *)

Definition valid_time_to_live (ttl : pyval) : Prop :=
  exists ms, ttl_milliseconds ttl = Returned ms /\ 1 <= ms <= max_px.

(** A client that runs the provider's commands on the server. *)
Record runs_commands (c : redis_client W) : Prop := {
  runs_eval script ks args : performs (rc_eval c script ks args) (eval_script script ks args);
  runs_set_nx k v ms : performs (rc_set_nx c k v ms) (set_nx_reply k v ms);
}.

Lemma validate_key_same k k' : validate_key (Exact k) = Returned k' -> k' = k.
Proof. unfold validate_key. case_match; [done|]. by intros [= ->]. Qed.

Section Actions.
Variable c : redis_client W.
Hypothesis runs : runs_commands c.

Lemma acquire_action_moves token ttl : valid_time_to_live ttl ->
  world_moves (set_if_absent_action c (Exact lease_key) (Exact (active_marker_of token)) ttl) (fun _ => True).
Proof.
  intros (ms & Hms & Hb).
  apply moves_pure_bind; [done|]. intros k ->%validate_key_same.
  apply moves_pure_bind; [done|]. intros v [= <-].
  apply moves_pure_bind; [done|]. rewrite Hms. intros m [= <-].
  apply moves_then; [done|eapply performs_moves; [apply (runs_set_nx c runs)|by apply set_nx_moves]|].
  intros response. repeat case_match; (by apply moves_ret) || apply moves_raise.
Qed.

Lemma delete_action_moves token :
  world_moves (delete_if_value_action c (Exact lease_key) (Exact (active_marker_of token))) (fun _ => True).
Proof.
  apply moves_pure_bind; [done|]. intros k ->%validate_key_same.
  apply moves_pure_bind; [done|]. intros v [= <-].
  apply moves_then; [done| |intros response; apply moves_pure_any].
  eapply performs_moves; [apply (runs_eval c runs)|apply compare_and_delete_moves].
Qed.

Lemma size_limit_positive v n m : validate_size_limit v n = Returned m -> 1 <= m.
Proof.
  destruct v as [v|]; [|done]. cbn. destruct (1 <=? v) eqn:E; cbn; [|done].
  case_match; [|done]. intros [= ->]. lia.
Qed.

Lemma snapshot_action_moves limit1 limit2 :
  world_moves (snapshot_action c (Exact lease_key) (Exact result_key) limit1 limit2) snapshot_honest.
Proof.
  apply moves_pure_bind; [done|]. intros k ->%validate_key_same.
  apply moves_pure_bind; [done|]. intros k' ->%validate_key_same.
  apply moves_then; [done|by apply moves_raise_if|intros _].
  apply moves_pure_bind; [done|]. intros n1 Hn1%size_limit_positive.
  apply moves_pure_bind; [done|]. intros n2 Hn2%size_limit_positive.
  eapply moves_bind; [done| |].
  - eapply performs_moves; [apply (runs_eval c runs)|]. by apply snapshot_moves.
  - intros response Hresp. by apply moves_pure.
Qed.

Lemma publish_action_moves token result ttl : valid_time_to_live ttl -> honest reads loaded token result ->
  world_moves (publish_action c (Exact lease_key) (Exact (active_marker_of token)) (Exact result_key)
    (Exact result) (Exact (completion_marker_of token)) ttl) (fun _ => True).
Proof.
  intros (ms & Hms & Hb) Hh.
  apply moves_pure_bind; [done|]. intros k ->%validate_key_same.
  apply moves_pure_bind; [done|]. intros k' ->%validate_key_same.
  apply moves_then; [done|by apply moves_raise_if|intros _].
  apply moves_pure_bind; [done|]. intros v1 [= <-].
  apply moves_pure_bind; [done|]. intros v2 [= <-].
  apply moves_pure_bind; [done|]. intros v3 [= <-].
  apply moves_pure_bind; [done|]. rewrite Hms. intros m [= <-].
  apply moves_then; [done| |intros response; apply moves_pure_any].
  eapply performs_moves; [apply (runs_eval c runs)|by apply publish_moves].
Qed.
End Actions.

(** ** The provider's commands *)

(** A client connected to the server, through a provider whose other callbacks
    do no more to the server than other processes do. *)
Record connected (p : SyncRedisProvider W) : Prop := {
  connected_runs : runs_commands (pv_client p);
  connected_clock : world_moves (pv_clock p) (fun _ => True);
  connected_observer on_event e :
    pv_observer p = Some on_event -> world_moves (on_event e) (fun _ => True);
  connected_state s w : server (lput (pv_data p) s w) = server w;
}.

Section Provider.
Variable p : SyncRedisProvider W.
Hypothesis conn : connected p.

Lemma emit_moves operation out code started :
  world_moves (emit_redis p operation out code started) (fun _ => True).
Proof.
  unfold emit_redis, emit_to. apply moves_then; [done|apply (connected_clock p conn)|intros now].
  apply moves_then; [done|apply moves_pure_any|intros event].
  destruct (pv_observer p) as [on_event|] eqn:E; [|by apply moves_ret].
  apply moves_try_except; [done|by apply (connected_observer p conn)|].
  intros e h. case_match; [|done]. intros [= <-]. by apply moves_ret.
Qed.

Lemma locked_moves {A} (f : ProviderState -> A * ProviderState) :
  world_moves (locked (pv_data p) f) (fun _ => True).
Proof. apply moves_locked, (connected_state p conn). Qed.

Lemma emit_raise_moves {R} operation out code started e (Q : R -> Prop) :
  world_moves (emit_redis p operation out code started ;; raise e) Q.
Proof. apply moves_then; [done|apply emit_moves|intros _; apply moves_raise]. Qed.

Lemma execute_moves {R} operation (action : M W R) Q :
  world_moves action Q -> world_moves (execute p operation action) Q.
Proof.
  intros Ha. unfold execute. apply moves_then; [done|apply (connected_clock p conn)|intros started].
  apply moves_then; [done| |intros _].
  { apply moves_try_except; [done| |].
    - unfold admit_operation. apply moves_then; [done|apply locked_moves|intros r]. apply moves_pure_any.
    - intros e h Hh. destruct e; try done. injection Hh as <-. apply emit_raise_moves. }
  apply moves_bind with (P := Q); [done| |].
  { apply moves_try_except; [done..|]. intros e h [= <-].
    unfold execute_failure. apply moves_then; [done|apply locked_moves|intros _].
    destruct e; repeat case_match; auto using emit_raise_moves, moves_raise. }
  intros r Hr. apply moves_then; [done|apply locked_moves|intros _].
  apply moves_then; [done|apply emit_moves|intros _]. by apply moves_ret.
Qed.

#[export] Instance sync_backend_store :
  CoordinationStore lease_key result_key reads loaded server valid_time_to_live (sync_backend p).
Proof.
  pose proof (connected_runs p conn) as Hruns. constructor.
  - intros token ttl Httl. by apply execute_moves, acquire_action_moves.
  - intros limit. by apply execute_moves, snapshot_action_moves.
  - intros token result ttl Httl Hh. by apply execute_moves, publish_action_moves.
  - intros token. by apply execute_moves, delete_action_moves.
Qed.
End Provider.
End Store.
