(* ===== verification/CoordinationDemo.v ===== *)
(** * A server, a client and a coordinator to run

    An instance of the server class, as a map that nobody else uses, a client
    that runs the scripts on it, and a coordinator over it: the theorems about
    coordinated loads apply to it, and its runs evaluate; and a history of two
    owners on that server. *)

From Stdlib Require Import SpecFloat.
From stdpp Require Import gmap.
From S2P Require Import Prelude Python Leader LeaseRecord Utf8 EnvelopeFormat EnvelopeCodec.
From S2P Require Import RedisScripts RedisProvider CoordinationScripts CacheCore SyncCache.
From S2P Require Import RedisCoordination CoordinationProtocol ProviderStore.
Open Scope py_scope.
Open Scope Z_scope.

(** ** A server *)

Abbreviation string_map := (gmap pystr redis_entry).

Definition map_read {A} (f : option pybytes -> A) (k : pystr) : M string_map A :=
  fun m => (omap_outcome f (string_at (m !! k)), m).

#[export] Instance map_string_server : StringServer string_map := {|
  keys m := m;
  max_px := 2 ^ 62;
  cmd_GET := map_read (fun v => v);
  cmd_SET_PX k v n m := (Returned tt, <[k := StringValue v (Some n)]> m);
  cmd_SET_NX_PX k v n m :=
    (Returned (bool_decide (m !! k = None)),
     match m !! k with None => <[k := StringValue v (Some n)]> m | Some _ => m end);
  cmd_DEL k m := (Returned (if bool_decide (m !! k = None) then 0 else 1), delete k m);
  cmd_EXISTS k m := (Returned (if bool_decide (m !! k = None) then 0 else 1), m);
  cmd_STRLEN := map_read (fun v => Z.of_nat (length (default [] v)));
  cmd_GETRANGE k a b := map_read (fun v => take (Z.to_nat (b - a + 1)) (drop (Z.to_nat a) (default [] v))) k;
|}.

#[export] Instance map_string_server_laws : StringServerLaws string_map.
Proof.
  constructor; try done; cbn; try (unfold map_read; eauto; fail).
  - intros k s. unfold map_read. by destruct (string_at _).
  - intros k n s Hn. by replace (n - 1 - 0 + 1) with n by lia.
Qed.

(** ** A coordinator *)

Record demo_world : Type := {
  dw_server : string_map;
  dw_provider : ProviderState;
  dw_log : list RedisCoordinationEvent;
}.

Definition demo_start (m : string_map) : demo_world :=
  {| dw_server := m; dw_provider := open_state; dw_log := [] |}.

Definition on_server {A} (m : M string_map A) : M demo_world A := fun w =>
  let '(r, s) := m (dw_server w) in
  (r, {| dw_server := s; dw_provider := dw_provider w; dw_log := dw_log w |}).

Definition demo_provider_state : lens demo_world ProviderState := {|
  lget := dw_provider;
  lput s w := {| dw_server := dw_server w; dw_provider := s; dw_log := dw_log w |};
|}.

Definition demo_client : redis_client demo_world := {|
  rc_get _ := ret (Plain PyNone);
  rc_set _ _ _ := ret (Plain (PyBool true));
  rc_set_nx k v ms := on_server (set_nx_reply k v ms);
  rc_delete _ := ret (Plain (PyInt 0));
  rc_eval script ks args := on_server (eval_script script ks args);
  rc_close := ret tt;
|}.

Definition demo_provider : SyncRedisProvider demo_world := {|
  pv_client := demo_client;
  pv_observer := None;
  pv_command_policy := None;
  pv_owned := false;
  pv_data := demo_provider_state;
  pv_clock := ret 0;
  pv_wait := ret tt;
  pv_fuel := 0;
|}.

(** Texts as their own payload, in binary envelopes, uncompressed. *)
Definition demo_payload : PayloadCodec demo_world pybytes := {|
  pc_encode v := ret (Exact {| sp_metadata := demo_metadata 2; sp_data := v |});
  pc_decode sp := ret (sp_data sp);
|}.

Definition demo_result_codec : ResultEnvelopeCodec demo_world pybytes := {|
  rc_payload_codec := demo_payload; rc_envelope_format := binary_format demo_format;
  rc_compressor := None; rc_decompressors := []; rc_max_encoded_size := 512; rc_readers := ∅;
|}.

Definition half : float := S754_finite false 4503599627370496 (-53).
Definition ten : float := S754_finite false 5629499534213120 (-49).

Definition demo_load_options : RedisLoadOptions := {|
  ro_namespace := py "demo"; ro_lease_ttl := PyInt 5; ro_result_ttl := PyInt 1;
  ro_poll_interval := PyFloat half; ro_max_poll_interval := PyFloat half; ro_wait_timeout := PyInt 10;
  ro_max_attempts := 3; ro_max_polls := 2; ro_redis_io_timeout := PyInt 1;
|}.

Example demo_options_valid :
  make_load_options (Exact (py "demo")) (PyInt 5) (PyInt 1) (PyFloat half) (PyFloat half) (PyInt 10)
    (Exact 3) (Exact 2) (PyInt 1) = Returned demo_load_options.
Proof. vm_compute. reflexivity. Qed.

Definition demo_platform : coordination_platform demo_world := {|
  pl_clock := ret f0;
  pl_sleep _ := ret tt;
  pl_jitter := ret half;
  pl_new_token := ret (py "me");
  pl_perf_counter_ns := ret 0;
  pl_log2 _ := f0;
  pl_sha256 _ := py "00ff";
|}.

Definition demo_observer (ev : RedisCoordinationEvent) : M demo_world unit := fun w =>
  (Returned tt, {| dw_server := dw_server w; dw_provider := dw_provider w; dw_log := dw_log w ++ [ev] |}).

Definition demo_coordinator : RedisLoadCoordinator demo_world pybytes :=
  SyncRedisLoadCoordinator demo_provider demo_result_codec demo_load_options (Some demo_observer)
    (py "00ff") demo_platform.

Definition demo_lease_key : pystr := py "bluetape:cache:coord:00ff:{00ff:00ff}:lease".
Definition demo_result_key : pystr := py "bluetape:cache:coord:00ff:{00ff:00ff}:result".

Example demo_keys :
  coordination_keys (pl_sha256 demo_platform) (py "00ff") (py "key") = Returned (demo_lease_key, demo_result_key).
Proof. reflexivity. Qed.

Definition demo_loader (key : pystr) : M demo_world pybytes := ret [7; 8].

(** The first process loads and publishes; the second reuses its result. *)
Definition first_load : outcome pybytes * demo_world :=
  distributed_load demo_coordinator (py "key") demo_loader (demo_start ∅).

Definition second_load : outcome pybytes * demo_world :=
  distributed_load demo_coordinator (py "key") (fun _ => raise KeyError) (snd first_load).

Example first_load_publishes :
  fst first_load = Returned [7; 8] /\
  ce_outcome <$> dw_log (snd first_load) = [LOADED] /\
  match dw_server (snd first_load) !! demo_lease_key with
  | Some (StringValue v _) => v = completion_marker_of (py "me")
  | _ => False
  end.
Proof. vm_compute. split_and!; reflexivity. Qed.

Example second_load_reuses :
  fst second_load = Returned [7; 8] /\
  ce_outcome <$> dw_log (snd second_load) = [LOADED; RESULT_REUSED].
Proof. vm_compute. split; reflexivity. Qed.

(** The demo codec only reads and answers. *)
Lemma binary_encode_still f e : respects eq (ef_encode (@binary_format demo_world f) e).
Proof. apply respects_bind; [apply _|by apply respects_pure_outcome, _|intros x; by apply respects_ret, _]. Qed.

Lemma binary_decode_still f d : respects eq (ef_decode (@binary_format demo_world f) d).
Proof. apply respects_bind; [apply _|by apply respects_pure_outcome, _|intros x; by apply respects_ret, _]. Qed.

Lemma or_raise_still {A} e (m : M demo_world A) : respects eq m -> respects eq (or_raise e m).
Proof.
  intros H. apply respects_try_except; [apply _|done|]. intros e' h. repeat case_match; try done.
  intros [= <-]. by apply respects_raise, _.
Qed.

Ltac still_step :=
  apply respects_bind; [apply _|first [by apply respects_pure_outcome, _|by apply respects_raise_if, _
    |apply or_raise_still; 
      first [by apply respects_ret, _|apply binary_encode_still|apply binary_decode_still]]|intros ?].

Lemma exact_or_still {A} e (v : arg A) : respects eq (exact_or (W := demo_world) e v).
Proof. destruct v; [by apply respects_ret, _|by apply respects_raise, _]. Qed.

Lemma demo_encode_still token v : respects eq (encode_value demo_result_codec (Exact token) v).
Proof.
  unfold encode_value. do 2 still_step. apply respects_bind; [apply _|apply exact_or_still|intros s].
  apply respects_bind; [apply _|by apply respects_ret, _|intros [alg z]]. do 2 still_step.
  apply respects_bind; [apply _|apply exact_or_still|intros b]. still_step. by apply respects_ret, _.
Qed.

Lemma demo_decode_still result token : respects eq (decode_matching demo_result_codec (Exact result) (Exact token)).
Proof.
  unfold decode_matching. do 6 still_step. case_match; [by apply respects_ret, _|].
  apply respects_bind; [apply _| |intros b; still_step; by apply respects_ret, _].
  unfold decompressed. case_match; [by apply respects_ret, _|]. cbn [demo_result_codec rc_readers].
  rewrite lookup_empty. by apply respects_raise, _.
Qed.

(** ** A history of two owners *)

(** The second owner publishes without the lease, and is refused. *)
Definition two_owners : list server_event :=
  [Called (CallAcquire (py "a") 1000) (Returned (Plain (PyBool true)));
   Called (CallPublish (py "b") [9] 1000) (Returned (Plain (PyInt 0)));
   Called (CallPublish (py "a") [1] 1000) (Returned (Plain (PyInt 1)));
   Expired demo_lease_key;
   Called (CallAcquire (py "b") 1000) (Returned (Plain (PyBool true)))].

Abbreviation demo_history := (server_history (S := string_map) demo_lease_key demo_result_key).
Abbreviation demo_run := (run_coordinator_call (S := string_map) demo_lease_key demo_result_key).

Lemma history_call h m m1 c r :
  demo_history h m m1 -> call_in_range (S := string_map) c -> fst (demo_run c m1) = r ->
  demo_history (h ++ [Called c r]) m (snd (demo_run c m1)).
Proof. intros H Hc <-. eapply history_snoc; [done|]. apply step_called; [done|apply surjective_pairing]. Qed.

Lemma history_expired h m m1 k : demo_history h m m1 -> demo_history (h ++ [Expired k]) m (delete k m1).
Proof. intros H. eapply history_snoc; [done|]. by apply step_expired. Qed.

Lemma two_owners_run : exists m, demo_history two_owners ∅ m.
Proof.
  eexists. refine (history_call _ _ _ _ _ (history_expired _ _ _ _ (history_call _ _ _ _ _
    (history_call _ _ _ _ _ (history_call _ _ _ _ _ (history_nil _ _ _) _ _) _ _) _ _)) _ _);
    solve [cbn; lia | vm_compute; reflexivity].
Qed.

Lemma publication_needs_lease_witness :
  NoDup (publishers two_owners) /\
  exists before ms since,
    [Called (CallAcquire (py "a") 1000) (Returned (Plain (PyBool true)));
     Called (CallPublish (py "b") [9] 1000) (Returned (Plain (PyInt 0)))]
    = before ++ Called (CallAcquire (py "a") ms) (Returned (Plain (PyBool true))) :: since /\
    Forall (keeps_lease demo_lease_key) since.
Proof.
  destruct two_owners_run as [m H].
  destruct (publication_needs_lease demo_lease_key demo_result_key ltac:(discriminate) two_owners ∅ m H eq_refl)
    as (Hlease & Honce & _).
  split.
  - apply Honce. apply (bool_decide_unpack (NoDup (takers two_owners))). vm_compute. exact I.
  - eapply Hlease. reflexivity.
Defined.
