(* ===== verification/RedisCoordinationLaws.v ===== *)
(** * What coordinated loads guarantee

    A flight follows the protocol and returns only values that a loader of its
    key returned; it ends within its budget of attempts and polls; and it reports
    one event that tells how it ended. *)

From stdpp Require Import gmap relations.
From S2P Require Import Prelude Python Leader LeaseRecord Utf8 EnvelopeFormat EnvelopeCodec.
From S2P Require Import RedisScripts RedisProvider CoordinationScripts CacheCore SyncCache.
From S2P Require Import RedisCoordination CoordinationProtocol ProviderStore CoordinationDemo.
Open Scope py_scope.
Open Scope Z_scope.
Import Coordination.

(** ** Keys *)

Lemma coordination_keys_differ sha256 ns key lk rk :
  coordination_keys sha256 ns key = Returned (lk, rk) -> lk <> rk.
Proof.
  unfold coordination_keys. intros (b & _ & H)%obind_returned Heq.
  assert (forall x : pystr, x ++ py ":lease" <> x ++ py ":result") as Hx.
  { intros x Hx. by apply app_inv_head in Hx. }
  refine (Hx (py "bluetape:cache:coord:" ++ ns ++ py ":" ++ py "{" ++ ns ++ py ":" ++ sha256 b ++ py "}") _).
  assert (forall p q r s : pystr, Returned (p, q) = Returned (r, s) -> r = s -> p = q) as Hpq by congruence.
  exact (Hpq _ _ _ _ H Heq).
Qed.

(** ** Values *)

Section Values.
Context {V W : Type} (cd : RedisLoadCoordinator W V).
Context (lease_key result_key : pystr) (loaded : V -> Prop) (valid_ttl : pyval -> Prop).
Hypothesis keys_differ : lease_key <> result_key.
Variable server : W -> gmap pystr redis_entry.

(** What the coordinator's codec makes of a result. *)
Definition codec_reads (codec : ResultEnvelopeCodec W V) (result : pybytes) (token : pystr) (v : V) : Prop :=
  exists w w', decode_matching codec (Exact result) (Exact token) w = (Returned (Some v), w').

Abbreviation reads := (codec_reads (cd_codec cd)).
Abbreviation world_moves := (moves lease_key result_key reads loaded server).
Abbreviation flight_server := (fun sw : FlightState * W => server sw.2).
Abbreviation flight_moves := (moves lease_key result_key reads loaded flight_server).

(** The codec gives back the loaded values it encodes. *)
Definition codec_faithful : Prop := forall token v w result w' v', loaded v ->
  encode_value (cd_codec cd) (Exact token) v w = (Returned result, w') ->
  reads result token v' -> v' = v.

(** The callbacks do no more to the server than other processes do. *)
Record environment_moves : Prop := {
  env_clock : world_moves (pl_clock (cd_platform cd)) (fun _ => True);
  env_sleep d : world_moves (pl_sleep (cd_platform cd) d) (fun _ => True);
  env_jitter : world_moves (pl_jitter (cd_platform cd)) (fun _ => True);
  env_new_token : world_moves (pl_new_token (cd_platform cd)) (fun _ => True);
  env_perf_counter : world_moves (pl_perf_counter_ns (cd_platform cd)) (fun _ => True);
  env_observer on_event e : cd_observer cd = Some on_event -> world_moves (on_event e) (fun _ => True);
  env_encode token v : world_moves (encode_value (cd_codec cd) (Exact token) v) (fun _ => True);
  env_decode result token :
    world_moves (decode_matching (cd_codec cd) (Exact result) (Exact token)) (fun _ => True);
  env_release token : flight_moves (cd_release cd lease_key (active_marker_of token)) (fun _ => True);
}.

Hypothesis env : environment_moves.
Hypothesis faithful : codec_faithful.
Context `{!CoordinationStore lease_key result_key reads loaded server valid_ttl (cd_backend cd)}.
Hypothesis lease_ttl_valid : valid_ttl (ro_lease_ttl (cd_options cd)).
Hypothesis result_ttl_valid : valid_ttl (ro_result_ttl (cd_options cd)).

Lemma moves_lift {A} (m : M W A) Q : world_moves m Q -> flight_moves (lift m) Q.
Proof.
  intros Hm [s w] Hw. unfold lift. specialize (Hm w Hw). by destruct (m w) as [r w'].
Qed.

Lemma moves_read_flight : flight_moves read_flight (fun _ => True).
Proof. by intros [s w] _. Qed.

Lemma moves_update_flight f : flight_moves (update_flight f) (fun _ => True).
Proof. by intros [s w] _. Qed.

(** The codec on honest results and loaded values. *)
Lemma encode_moves token v : loaded v ->
  world_moves (encode_value (cd_codec cd) (Exact token) v) (honest reads loaded token).
Proof.
  intros Hv w Hw. destruct (env_encode env token v w Hw) as [Hl _]. split; [done|].
  destruct (encode_value _ _ _ w) as [[e|] w'] eqn:E; cbn; [|done].
  intros v' Hr. by rewrite (faithful _ _ _ _ _ _ Hv E Hr).
Qed.

Lemma decode_moves token result : honest reads loaded token result ->
  world_moves (decode_matching (cd_codec cd) (Exact result) (Exact token))
    (fun found => forall v, found = Some v -> loaded v).
Proof.
  intros Hh w Hw. destruct (env_decode env result token w Hw) as [Hl _]. split; [done|].
  destruct (decode_matching _ _ _ w) as [[found|] w'] eqn:E; cbn; [|done].
  intros v ->. apply Hh. by exists w, w'.
Qed.

Lemma check_deadline_moves deadline : flight_moves (check_deadline cd deadline) (fun _ => True).
Proof.
  apply moves_then; [done|by apply moves_lift, (env_clock env)|intros now]. by apply moves_raise_if.
Qed.

Definition found_loaded (r : V * RedisCoordinationOutcome) : Prop := loaded (fst r).

Lemma ascii_encode_same t b : ascii_encode t = Some b -> b = t.
Proof. unfold ascii_encode. case_match; [by intros [= ->]|done]. Qed.

Lemma owner_token_of_marker token b :
  ascii_decode (drop 7 (active_marker_of token)) = Some b -> b = token.
Proof.
  change (drop 7 (active_marker_of token)) with token. unfold ascii_decode.
  case_match; [by intros [= ->]|done].
Qed.

Lemma run_owner_moves key loader token lease_deadline :
  world_moves (loader key) loaded ->
  flight_moves (run_owner cd key loader lease_key result_key (active_marker_of token)
    (completion_marker_of token) lease_deadline) found_loaded.
Proof.
  intros Hload. unfold run_owner.
  set (P := fun e => match e with OwnerReturns v | OwnerPublishes v _ => loaded v end).
  apply moves_bind with (P := P); [done| |intros [v|v []] Hv; by apply moves_ret].
  apply moves_try_except; [done| |].
  2: { intros e h [= <-]. apply moves_then; [done|apply (env_release env)|intros _; apply moves_raise]. }
  eapply moves_bind; [done|by apply moves_lift|]. intros v Hv.
  apply moves_then; [done|by apply moves_lift, (env_clock env)|intros now].
  case_match; [by apply moves_ret|]. apply moves_pure_bind; [done|]. intros b ->%oget_returned%owner_token_of_marker.
  eapply moves_bind; [done|by apply moves_lift, encode_moves|]. intros e He.
  apply moves_then; [done|by apply moves_lift, (env_clock env)|intros now'].
  case_match; [by apply moves_ret|].
  apply moves_then; [done|by apply moves_lift, (store_publishes (valid_ttl := valid_ttl))|].
  intros published. by apply moves_ret.
Qed.

Lemma poll_loop_moves fuel deadline :
  flight_moves (poll_loop cd fuel deadline lease_key result_key)
    (fun r => forall found, r = Some found -> found_loaded found).
Proof.
  induction fuel as [|fuel IH]; [apply moves_raise|]. cbn [poll_loop].
  apply moves_then; [done|apply check_deadline_moves|intros _].
  eapply moves_bind; [done|by apply moves_lift, (store_snapshots (valid_ttl := valid_ttl))|].
  intros s Hs. apply moves_then; [done|apply check_deadline_moves|intros _].
  eapply moves_bind with (P := fun _ => cs_marker_oversized s = false /\ cs_result_oversized s = false); [done| |].
  { apply moves_raise_if. by intros [??]%orb_false_iff. }
  intros _ [Hm Hr]. specialize (Hs Hm Hr). destruct (cs_marker s) as [marker|] eqn:Em; [|by apply moves_ret].
  apply moves_pure_bind; [done|]. intros [state token] Hp.
  apply moves_bind with (P := fun found : option V => forall v, found = Some v -> loaded v); [done| |].
  { destruct state; [by apply moves_ret|]. apply parse_marker_completed in Hp as ->.
    destruct (cs_result s) as [result|] eqn:Er; [|apply moves_raise].
    apply moves_lift, decode_moves. by eapply Hs. }
  intros [v|] Hv; [apply moves_ret; intros ? [= <-]; by apply Hv|].
  apply moves_then; [done|apply moves_update_flight|intros _].
  apply moves_then; [done|apply moves_read_flight|intros st].
  apply moves_then; [done|by apply moves_raise_if|intros _].
  apply moves_then; [done|by apply moves_lift, (env_clock env)|intros now].
  apply moves_then; [done|by apply moves_raise_if|intros _].
  apply moves_then; [done|apply moves_pure_any|intros cap].
  apply moves_then; [done|by apply moves_lift, (env_jitter env)|intros j].
  apply moves_then; [done|by apply moves_lift, (env_sleep env)|intros _]. exact IH.
Qed.

Lemma run_flight_moves fuel poll_fuel key loader deadline :
  world_moves (loader key) loaded ->
  flight_moves (run_flight cd fuel poll_fuel key loader deadline lease_key result_key) found_loaded.
Proof.
  intros Hload. induction fuel as [|fuel IH]; [apply moves_raise|]. cbn [run_flight].
  apply moves_then; [done|apply check_deadline_moves|intros _].
  apply moves_then; [done|apply moves_read_flight|intros st].
  apply moves_then; [done|by apply moves_raise_if|intros _].
  apply moves_then; [done|by apply moves_lift, (env_new_token env)|intros token].
  apply moves_then; [done|apply moves_pure_any|intros _].
  apply moves_pure_bind; [done|]. intros active ->%oget_returned%ascii_encode_same.
  apply moves_pure_bind; [done|]. intros completion ->%oget_returned%ascii_encode_same.
  apply moves_then; [done|apply check_deadline_moves|intros _].
  apply moves_then; [done|apply moves_update_flight|intros _].
  apply moves_then; [done|by apply moves_lift, (store_acquires (valid_ttl := valid_ttl))|intros acquired].
  destruct acquired.
  - apply moves_then; [done|by apply moves_lift, (env_clock env)|intros now]. case_match.
    + apply moves_then; [done|apply (env_release env)|intros _; apply moves_raise].
    + apply moves_then; [done|by apply moves_lift, (env_clock env)|intros now']. by apply run_owner_moves.
  - apply moves_then; [done|apply check_deadline_moves|intros _].
    eapply moves_bind; [done|apply poll_loop_moves|]. intros [found|] Hf; [|exact IH].
    apply moves_ret. by apply Hf.
Qed.

Lemma emit_coordination_moves s out code : world_moves (emit_coordination cd s out code) (fun _ => True).
Proof.
  unfold emit_coordination. destruct (cd_observer cd) as [on_event|] eqn:E; [|by apply moves_ret].
  apply moves_then; [done|apply (env_perf_counter env)|intros now].
  apply moves_then; [done|apply moves_pure_any|intros event].
  apply moves_try_except; [done|by apply (env_observer env)|].
  intros e h. case_match; [|done]. intros [= <-]. by apply moves_ret.
Qed.

Lemma distributed_load_moves key loader :
  coordination_keys (pl_sha256 (cd_platform cd)) (cd_namespace_id cd) key = Returned (lease_key, result_key) ->
  world_moves (loader key) loaded -> world_moves (distributed_load cd key loader) loaded.
Proof.
  intros Hk Hload. unfold distributed_load.
  apply moves_then; [done|apply (env_perf_counter env)|intros started].
  apply moves_then; [done|apply (env_clock env)|intros now].
  apply moves_pure_bind; [done|]. intros [lk rk]. rewrite Hk. intros [= <- <-].
  intros w Hw. pose proof (run_flight_moves (Z.to_nat (ro_max_attempts (cd_options cd)) + 1)
    (Z.to_nat (ro_max_polls (cd_options cd))) key loader
    (fadd now (seconds (ro_wait_timeout (cd_options cd)))) Hload) as Hrun.
  pose proof (moves_sound _ _ _ _ keys_differ _ _ _ (fresh_flight started, w) Hrun Hw) as Hw'.
  specialize (Hrun (fresh_flight started, w) Hw) as [Hl HQ].
  destruct (run_flight _ _ _ _ _ _ _ _ _) as [r [s w']]. cbn in *.
  assert (forall m, world_moves m loaded -> leads_to lease_key result_key reads loaded (server w) (server (snd (m w')))
     /\ match fst (m w') with Returned a => loaded a | Raised _ => True end) as Hthen.
  { intros m Hm. destruct (Hm w' Hw') as [Hl2 HQ2]. split; [by etrans|done]. }
  destruct r as [[v out]|e].
  - apply Hthen. apply moves_then; [done|apply emit_coordination_moves|intros _]. by apply moves_ret.
  - assert (forall out code, world_moves (emit_coordination cd s out code ;; raise (A := V) e) loaded) as He.
    { intros out code. apply moves_then; [done|apply emit_coordination_moves|intros _; apply moves_raise]. }
    destruct (failure_report cd e) as [out code]. destruct e; apply (Hthen _ (He out code)) || by split.
Qed.
End Values.

(** ** The synchronous coordinator *)

Section Sync.
Context {V W S : Type} `{!StringServer S} `{!StringServerLaws S}.
Context (p : SyncRedisProvider W) (codec : ResultEnvelopeCodec W V) (options : RedisLoadOptions).
Context (observer : option (RedisCoordinationEvent -> M W unit)) (namespace_id : pystr).
Context (platform : coordination_platform W).
Context (lease_key result_key : pystr) (loaded : V -> Prop).
Variable server : W -> gmap pystr redis_entry.

Abbreviation cd := (SyncRedisLoadCoordinator p codec options observer namespace_id platform).
Abbreviation reads := (codec_reads codec).
Abbreviation world_moves := (moves lease_key result_key reads loaded server).

(** The callbacks of the platform, of the codec and the observer do no more to
    the server than other processes do. *)
Record callbacks_move : Prop := {
  cm_clock : world_moves (pl_clock platform) (fun _ => True);
  cm_sleep d : world_moves (pl_sleep platform d) (fun _ => True);
  cm_jitter : world_moves (pl_jitter platform) (fun _ => True);
  cm_new_token : world_moves (pl_new_token platform) (fun _ => True);
  cm_perf_counter : world_moves (pl_perf_counter_ns platform) (fun _ => True);
  cm_observer on_event e : observer = Some on_event -> world_moves (on_event e) (fun _ => True);
  cm_encode token v : world_moves (encode_value codec (Exact token) v) (fun _ => True);
  cm_decode result token : world_moves (decode_matching codec (Exact result) (Exact token)) (fun _ => True);
}.

Lemma release_owner_moves token :
  lease_key <> result_key -> connected (S := S) lease_key result_key reads loaded server p ->
  moves lease_key result_key reads loaded (fun sw : FlightState * W => server sw.2)
    (release_owner p lease_key (active_marker_of token)) (fun _ => True).
Proof.
  intros Hne Hconn. pose proof (sync_backend_store _ _ _ _ Hne _ p Hconn) as Hstore.
  apply moves_try_except; [done| |].
  - apply (moves_lift cd). apply moves_then; [done|apply (store_deletes (b := sync_backend p))|intros _].
    by apply moves_ret.
  - intros e h [= <-]. apply (moves_update_flight cd).
Qed.

Lemma sync_environment :
  lease_key <> result_key -> connected (S := S) lease_key result_key reads loaded server p ->
  callbacks_move -> environment_moves cd lease_key result_key loaded server.
Proof. intros Hne Hconn []. constructor; auto. intros token. by apply release_owner_moves. Qed.
End Sync.

(** [C4] Coordinated loads return loaded values.  Whatever other processes of the
    library do to the two keys of a load, whenever keys expire, replies are lost
    and commands fail: if every loader of the key returns values of [loaded] and
    a completed result in Redis was published by the owner that its marker
    names, then a flight keeps that so, changes the keys only along the
    protocol, and returns a value of [loaded], whether it ran the loader or
    reused the result of another. *)
Theorem coordinated_load_sound {V W S} `{!StringServer S} `{!StringServerLaws S}
    (p : SyncRedisProvider W) (codec : ResultEnvelopeCodec W V)
    (options : RedisLoadOptions) (observer : option (RedisCoordinationEvent -> M W unit)) (ns : pystr)
    (platform : coordination_platform W) (loaded : V -> Prop) (server : W -> gmap pystr redis_entry)
    (key : pystr) (loader : pystr -> M W V) (lease_key result_key : pystr) (w : W) :
  let cd := SyncRedisLoadCoordinator p codec options observer ns platform in
  let reads := codec_reads codec in
  coordination_keys (pl_sha256 platform) ns key = Returned (lease_key, result_key) ->
  connected (S := S) lease_key result_key reads loaded server p ->
  callbacks_move codec observer platform lease_key result_key loaded server ->
  codec_faithful cd loaded ->
  valid_time_to_live (S := S) (ro_lease_ttl options) -> valid_time_to_live (S := S) (ro_result_ttl options) ->
  moves lease_key result_key reads loaded server (loader key) loaded ->
  coherent lease_key result_key reads loaded (server w) ->
  let '(r, w') := distributed_load cd key loader w in
  leads_to lease_key result_key reads loaded (server w) (server w') /\
  coherent lease_key result_key reads loaded (server w') /\
  match r with Returned v => loaded v | Raised _ => True end.
Proof.
  intros cd reads Hk Hconn Hcb Hf Hl1 Hl2 Hload Hw.
  pose proof (coordination_keys_differ _ _ _ _ _ Hk) as Hne.
  pose proof (sync_backend_store _ _ _ _ Hne _ p Hconn) as Hstore.
  pose proof (distributed_load_moves cd lease_key result_key loaded (valid_time_to_live (S := S)) Hne server
    (sync_environment p codec options observer ns platform _ _ _ _ Hne Hconn Hcb) Hf Hl1 Hl2 key loader Hk Hload) as Hm.
  pose proof (moves_sound _ _ _ _ Hne _ _ _ w Hm Hw) as Hs. specialize (Hm w Hw) as [Hlead HQ].
  destruct (distributed_load cd key loader w) as [r w']. by split_and!.
Qed.

(** ** Witnesses *)

Section Witnesses.
Definition is_demo_value (v : pybytes) : Prop := v = [7; 8].

Abbreviation demo_reads := (codec_reads demo_result_codec).
Abbreviation demo_moves := (moves demo_lease_key demo_result_key demo_reads is_demo_value dw_server).

Lemma on_server_performs {A} (m : M string_map A) :
  performs demo_lease_key demo_result_key demo_reads is_demo_value dw_server (on_server m) m.
Proof.
  intros w. exists (dw_server w), (snd (m (dw_server w))). unfold on_server. cbn.
  destruct (m (dw_server w)) as [r s]. cbn. split_and!; [reflexivity|reflexivity|by left].
Qed.

Lemma demo_still {A} (m : M demo_world A) :
  (forall w, dw_server (snd (m w)) = dw_server w) -> demo_moves m (fun _ => True).
Proof. intros H w _. rewrite H. split; [reflexivity|by case_match]. Qed.

Lemma demo_connected :
  connected (S := string_map) demo_lease_key demo_result_key demo_reads is_demo_value dw_server demo_provider.
Proof.
  constructor; [constructor; intros; apply on_server_performs| |done|done]. by apply demo_still.
Qed.

Lemma still_moves {A} (m : M demo_world A) : respects eq m -> demo_moves m (fun _ => True).
Proof. intros H. apply demo_still. intros w. by rewrite <-(H w). Qed.

Lemma demo_callbacks : callbacks_move demo_result_codec (Some demo_observer) demo_platform
  demo_lease_key demo_result_key is_demo_value dw_server.
Proof.
  constructor; try (intros; by apply demo_still).
  - intros on_event e [= <-]. by apply demo_still.
  - intros token v. apply still_moves, demo_encode_still.
  - intros result token. apply still_moves, demo_decode_still.
Qed.

Lemma demo_faithful : codec_faithful demo_coordinator is_demo_value.
Proof.
  intros token v w result w' v' -> H (w1 & w1' & Hd).
  refine (encoded_reads_only demo_payload (binary_format demo_format) None (Some []) (Exact 512) w
    demo_result_codec w token [7; 8] {| sp_metadata := demo_metadata 2; sp_data := [7; 8] |}
    w result w' w1 v' w1' eq_refl _ _ _ H Hd).
  - apply binary_format_reads_back. unfold valid_format. vm_compute. by split.
  - split; [intros x; by eexists|]. split; [intros x; by eexists|]. split; [by vm_compute|].
    repeat constructor; done.
  - done.
Qed.

Lemma coordinated_load_sound_witness :
  match fst first_load with Returned v => is_demo_value v | Raised _ => False end.
Proof.
  assert (coherent demo_lease_key demo_result_key demo_reads is_demo_value (∅ : string_map)) as Hc.
  { by intros token result [ttl Ht]. }
  pose proof (coordinated_load_sound (S := string_map) demo_provider demo_result_codec demo_load_options
    (Some demo_observer) (py "00ff") demo_platform is_demo_value dw_server (py "key") demo_loader
    demo_lease_key demo_result_key (demo_start ∅) eq_refl demo_connected demo_callbacks demo_faithful) as H.
  unfold first_load, demo_coordinator. destruct (distributed_load _ _ _ _) as [[v|e] w'] eqn:E; cbn.
  - apply H; [exists 5000; by split|exists 1000; by split|by split|exact Hc].
  - exfalso. clear H. vm_compute in E. discriminate E.
Defined.
End Witnesses.
