(* ===== verification/CoordinationBudget.v ===== *)
(** * The budget and the report of a coordinated load

    A flight ends after at most [max_attempts] attempts and [max_polls] polls,
    whatever the server, the clock and the callbacks do; and it reports exactly
    one event, with its counts and with what became of it. *)

From stdpp Require Import gmap.
From S2P Require Import Prelude Python Leader LeaseRecord Utf8 EnvelopeFormat EnvelopeCodec.
From S2P Require Import RedisScripts RedisProvider CoordinationScripts CacheCore SyncCache.
From S2P Require Import RedisCoordination CoordinationDemo.
Open Scope py_scope.
Open Scope Z_scope.
Import Coordination.

(** A computation that is no loop of the model out of fuel. *)
Definition ends_well {W A} (m : M W A) : Prop := forall w, fst (m w) <> Raised FuelExhausted.

Section EndsWell.
Context {W : Type}.

Lemma ends_ret {A} (a : A) : ends_well (W := W) (ret a).
Proof. done. Qed.

Lemma ends_raise {A} e : e <> FuelExhausted -> ends_well (@raise W A e).
Proof. intros H w [= ->]. done. Qed.

Lemma ends_pure {A} (r : outcome A) : r <> Raised FuelExhausted -> ends_well (W := W) (pure_outcome r).
Proof. intros H w. exact H. Qed.

Lemma ends_bind {A B} (m : M W A) (k : A -> M W B) :
  ends_well m -> (forall a, ends_well (k a)) -> ends_well (bind m k).
Proof.
  intros Hm Hk w. unfold bind. specialize (Hm w). destruct (m w) as [[a|e] w']; cbn in *; [apply Hk|congruence].
Qed.

Lemma ends_locked {S A} (l : lens W S) (f : S -> A * S) : ends_well (locked l f).
Proof. intros w. unfold locked. by destruct (f (lget l w)). Qed.

Lemma ends_raise_if c e : e <> FuelExhausted -> ends_well (W := W) (raise_if c e).
Proof. intros H. destruct c; [by apply ends_raise|apply ends_ret]. Qed.

Lemma ends_try_except {A} (m : M W A) handle :
  ends_well m -> (forall e h, e <> FuelExhausted -> handle e = Some h -> ends_well h) ->
  ends_well (try_except m handle).
Proof.
  intros Hm Hh w. unfold try_except. specialize (Hm w). destruct (m w) as [[a|e] w']; cbn in *; [done|].
  assert (e <> FuelExhausted) as He by congruence.
  assert (forall r, r = match handle e with Some h => h w' | None => (Raised e, w') end ->
    fst r <> Raised FuelExhausted) as Hd.
  { intros r ->. destruct (handle e) eqn:E; [by eapply Hh|cbn; congruence]. }
  destruct e; try (by apply Hd); done.
Qed.
End EndsWell.

#[export] Hint Resolve ends_ret ends_raise ends_pure ends_bind ends_locked ends_raise_if
  ends_try_except : bluetape.

(** ** The provider's commands end when the client's do *)

Lemma validate_key_ends k : validate_key k <> Raised FuelExhausted.
Proof. destruct k; cbn; repeat case_match; done. Qed.
Lemma validate_value_ends v : validate_value v <> Raised FuelExhausted.
Proof. by destruct v. Qed.
Lemma ttl_milliseconds_ends ttl : ttl_milliseconds ttl <> Raised FuelExhausted.
Proof.
  unfold ttl_milliseconds, number_is_finite, ceil_thousand, to_float, fceil.
  repeat case_match; simplify_eq; done.
Qed.
Lemma size_limit_ends v n : validate_size_limit v n <> Raised FuelExhausted.
Proof. destruct v; cbn; repeat case_match; done. Qed.
Lemma deleted_ends r op : deleted r op <> Raised FuelExhausted.
Proof. unfold deleted. repeat case_match; done. Qed.
Lemma snapshot_part_ends a b c n op : snapshot_part a b c n op <> Raised FuelExhausted.
Proof. unfold snapshot_part. repeat case_match; done. Qed.
Lemma parse_snapshot_ends r n m : parse_coordination_snapshot r n m <> Raised FuelExhausted.
Proof.
  unfold parse_coordination_snapshot. repeat case_match; try done;
    intros [= ->]; by eapply snapshot_part_ends.
Qed.

Section Actions.
Context {W : Type} (c : redis_client W).

Record client_ends : Prop := {
  ce_set_nx k v ms : ends_well (rc_set_nx c k v ms);
  ce_eval script ks args : ends_well (rc_eval c script ks args);
}.

Hypothesis cends : client_ends.

Lemma set_action_ends k v ttl : ends_well (set_if_absent_action c k v ttl).
Proof.
  apply ends_bind; [apply ends_pure, validate_key_ends|intros k'].
  apply ends_bind; [apply ends_pure, validate_value_ends|intros v'].
  apply ends_bind; [apply ends_pure, ttl_milliseconds_ends|intros ms].
  apply ends_bind; [apply (ce_set_nx cends)|intros r]. repeat case_match; done.
Qed.

Lemma delete_action_ends k v : ends_well (delete_if_value_action c k v).
Proof.
  apply ends_bind; [apply ends_pure, validate_key_ends|intros k'].
  apply ends_bind; [apply ends_pure, validate_value_ends|intros v'].
  apply ends_bind; [apply (ce_eval cends)|intros r]. apply ends_pure, deleted_ends.
Qed.

Lemma snapshot_action_ends k1 k2 n1 n2 : ends_well (snapshot_action c k1 k2 n1 n2).
Proof.
  do 2 (apply ends_bind; [apply ends_pure, validate_key_ends|intros ?]).
  apply ends_bind; [by apply ends_raise_if|intros _].
  do 2 (apply ends_bind; [apply ends_pure, size_limit_ends|intros ?]).
  apply ends_bind; [apply (ce_eval cends)|intros r]. apply ends_pure, parse_snapshot_ends.
Qed.

Lemma publish_action_ends k1 v1 k2 v2 v3 ttl : ends_well (publish_action c k1 v1 k2 v2 v3 ttl).
Proof.
  do 2 (apply ends_bind; [apply ends_pure, validate_key_ends|intros ?]).
  apply ends_bind; [by apply ends_raise_if|intros _].
  do 3 (apply ends_bind; [apply ends_pure, validate_value_ends|intros ?]).
  apply ends_bind; [apply ends_pure, ttl_milliseconds_ends|intros ms].
  apply ends_bind; [apply (ce_eval cends)|intros r]. apply ends_pure, deleted_ends.
Qed.
End Actions.

Section Provider.
Context {W : Type} (p : SyncRedisProvider W).

Record provider_ends : Prop := {
  pe_clock : ends_well (pv_clock p);
  pe_observer on_event e : pv_observer p = Some on_event -> ends_well (on_event e);
  pe_client : client_ends (pv_client p);
}.

Hypothesis ends : provider_ends.

Lemma emit_redis_ends operation out code started : ends_well (emit_redis p operation out code started).
Proof.
  unfold emit_redis, emit_to. apply ends_bind; [apply (pe_clock ends)|intros now].
  apply ends_bind; [apply ends_pure; unfold make_redis_event; by case_match|intros e].
  destruct (pv_observer p) as [on_event|] eqn:E; [|done].
  apply ends_try_except; [by apply (pe_observer ends)|]. intros x h _. case_match; [|done]. by intros [= <-].
Qed.

Lemma emit_then_raise_ends {R} operation out code started e :
  e <> FuelExhausted -> ends_well (emit_redis p operation out code started ;; raise (A := R) e).
Proof. intros H. apply ends_bind; [apply emit_redis_ends|intros _; by apply ends_raise]. Qed.

Lemma admit_operation_ends operation : ends_well (admit_operation p operation).
Proof.
  intros w. unfold admit_operation, bind, locked, admit_section, pure_outcome.
  by destruct (decide _).
Qed.

Lemma execute_ends {R} operation (action : M W R) : ends_well action -> ends_well (execute p operation action).
Proof.
  intros Ha. unfold execute. apply ends_bind; [apply (pe_clock ends)|intros started].
  apply ends_bind; [|intros _].
  { apply ends_try_except; [apply admit_operation_ends|]. intros e h He Hh.
    destruct e; try done. injection Hh as <-. by apply emit_then_raise_ends. }
  apply ends_bind; [|intros r].
  { apply ends_try_except; [done|]. intros e h He [= <-].
    unfold execute_failure. apply ends_bind; [apply ends_locked|intros _].
    destruct e; repeat case_match; auto using emit_then_raise_ends, ends_raise. }
  apply ends_bind; [apply ends_locked|intros _].
  apply ends_bind; [apply emit_redis_ends|intros _]. apply ends_ret.
Qed.

Lemma set_if_absent_ends k v ttl : ends_well (set_if_absent p k v ttl).
Proof. apply execute_ends, set_action_ends, (pe_client ends). Qed.

Lemma delete_if_value_ends k v : ends_well (delete_if_value p k v).
Proof. apply execute_ends, delete_action_ends, (pe_client ends). Qed.

Lemma coordination_snapshot_ends k1 k2 n1 n2 : ends_well (coordination_snapshot p k1 k2 n1 n2).
Proof. apply execute_ends, snapshot_action_ends, (pe_client ends). Qed.

Lemma publish_if_value_ends k1 v1 k2 v2 v3 ttl : ends_well (publish_if_value p k1 v1 k2 v2 v3 ttl).
Proof. apply execute_ends, publish_action_ends, (pe_client ends). Qed.
End Provider.

(** ** The budget of a flight *)

Section Budget.
Context {W V : Type} (cd : RedisLoadCoordinator W V).
Abbreviation options := (cd_options cd).
Variable started : Z.

(** The counts of a flight never pass their bounds. *)
Definition within (s : FlightState) : Prop :=
  st_started_ns s = started /\ 0 <= st_attempts s <= ro_max_attempts options /\
  0 <= st_polls s <= ro_max_polls options.

(** [budgeted P m R]: from a flight of [P], [m] ends, within the budget, and
    leaves a flight of [R] when it returns. *)
Definition budgeted {A} (P : FlightState -> Prop) (m : M (FlightState * W) A)
    (R : A -> FlightState -> Prop) : Prop := forall s w, P s ->
  match m (s, w) with
  | (Returned a, (s', _)) => R a s'
  | (Raised e, (s', _)) => e <> FuelExhausted /\ within s'
  end.

Lemma budgeted_weaken {A} (P P' : FlightState -> Prop) (m : M (FlightState * W) A) R R' :
  budgeted P' m R' -> (forall s, P s -> P' s) -> (forall a s, R' a s -> R a s) -> budgeted P m R.
Proof.
  intros H HP HR s w Hs. specialize (H s w (HP s Hs)). destruct (m (s, w)) as [[a|e] [s' w']]; auto.
Qed.

Lemma budgeted_ret {A} (a : A) (P : FlightState -> Prop) (R : A -> FlightState -> Prop) :
  (forall s, P s -> R a s) -> budgeted P (ret a) R.
Proof. intros H s w. apply H. Qed.

Lemma budgeted_raise {A} e (P : FlightState -> Prop) (R : A -> FlightState -> Prop) :
  e <> FuelExhausted -> (forall s, P s -> within s) -> budgeted P (raise e) R.
Proof. intros He HP s w Hs. split; [done|by apply HP]. Qed.

Lemma budgeted_bind {A B} (P : FlightState -> Prop) (m : M (FlightState * W) A) k R
    (R' : B -> FlightState -> Prop) :
  budgeted P m R -> (forall a, budgeted (R a) (k a) R') -> budgeted P (bind m k) R'.
Proof.
  intros Hm Hk s w Hs. unfold bind. specialize (Hm s w Hs).
  destruct (m (s, w)) as [[a|e] [s' w']]; [by apply Hk|done].
Qed.

Lemma budgeted_lift {A} (P : FlightState -> Prop) (m : M W A) :
  ends_well m -> (forall s, P s -> within s) -> budgeted P (lift m) (fun _ => P).
Proof.
  intros Hm HP s w Hs. unfold lift. specialize (Hm w).
  destruct (m w) as [[a|e] w']; cbn in *; [done|]. split; [congruence|auto].
Qed.

Lemma budgeted_pure {A} (P : FlightState -> Prop) (r : outcome A) :
  r <> Raised FuelExhausted -> (forall s, P s -> within s) -> budgeted P (pure_outcome r) (fun _ => P).
Proof. intros Hr HP s w Hs. cbn. destruct r; [done|]. split; [congruence|auto]. Qed.

Lemma budgeted_raise_if (P : FlightState -> Prop) (c : bool) e :
  e <> FuelExhausted -> (forall s, P s -> within s) ->
  budgeted P (raise_if c e) (fun _ s => P s /\ c = false).
Proof.
  intros He HP. destruct c; [by apply budgeted_raise|]. by apply budgeted_ret.
Qed.

Lemma budgeted_try_except {A} (P : FlightState -> Prop) (m : M (FlightState * W) A) handle R :
  budgeted P m R -> (forall e h, handle e = Some h -> e <> FuelExhausted -> budgeted within h R) ->
  budgeted P (try_except m handle) R.
Proof.
  intros Hm Hh s w Hs. unfold try_except. specialize (Hm s w Hs).
  destruct (m (s, w)) as [[a|e] [s' w']]; [done|]. destruct Hm as [He Hw].
  assert (match (match handle e with Some h => h (s', w') | None => (Raised e, (s', w')) end) with
          | (Returned a, (s', _)) => R a s'
          | (Raised e, (s', _)) => e <> FuelExhausted /\ within s' end) as Hd.
  { destruct (handle e) as [h|] eqn:E; [|done]. by apply (Hh e h E He). }
  destruct e; done.
Qed.

(** The callbacks, the codec and the commands end. *)
Record coordinator_ends : Prop := {
  ce_clock : ends_well (pl_clock (cd_platform cd));
  ce_sleep d : ends_well (pl_sleep (cd_platform cd) d);
  ce_jitter : ends_well (pl_jitter (cd_platform cd));
  ce_new_token : ends_well (pl_new_token (cd_platform cd));
  ce_perf_counter : ends_well (pl_perf_counter_ns (cd_platform cd));
  ce_observer on_event e : cd_observer cd = Some on_event -> ends_well (on_event e);
  ce_encode token v : ends_well (encode_value (cd_codec cd) (Exact token) v);
  ce_decode result token : ends_well (decode_matching (cd_codec cd) (Exact result) (Exact token));
  ce_set k v ttl : ends_well (cb_set_if_absent (cd_backend cd) k v ttl);
  ce_snapshot k1 k2 n : ends_well (cb_coordination_snapshot (cd_backend cd) k1 k2 n);
  ce_publish k1 v1 k2 v2 v3 ttl : ends_well (cb_publish_if_value (cd_backend cd) k1 v1 k2 v2 v3 ttl);
  ce_release k v : budgeted within (cd_release cd k v) (fun _ => within);
}.

Hypothesis ends : coordinator_ends.
Hypothesis attempts_positive : 0 <= ro_max_attempts options.
Hypothesis polls_positive : 1 <= ro_max_polls options.

Lemma check_deadline_budgeted (P : FlightState -> Prop) deadline :
  (forall s, P s -> within s) -> budgeted P (check_deadline cd deadline) (fun _ => P).
Proof.
  intros HP. eapply budgeted_bind; [apply budgeted_lift; [apply (ce_clock ends)|exact HP]|intros now].
  eapply budgeted_weaken; [by apply budgeted_raise_if|done|]. by intros ? s [? _].
Qed.

Lemma raise_after_release k v e {A} (R : A -> FlightState -> Prop) :
  e <> FuelExhausted -> budgeted within (cd_release cd k v ;; raise e) R.
Proof.
  intros He. eapply budgeted_bind; [apply (ce_release ends)|intros ?]. by apply budgeted_raise.
Qed.

(** How a flight that returns is reported. *)
Definition returning (out : RedisCoordinationOutcome) : Prop :=
  out = LOADED \/ out = RESULT_REUSED \/ out = LEASE_LOST.

Definition flight_returns (r : V * RedisCoordinationOutcome) (s : FlightState) : Prop :=
  within s /\ returning (snd r).

Lemma run_owner_budgeted key loader lk rk active completion lease_deadline :
  ends_well (loader key) ->
  budgeted within (run_owner cd key loader lk rk active completion lease_deadline) flight_returns.
Proof.
  intros Hl. unfold run_owner.
  apply budgeted_bind with (R := fun _ => within).
  2: { unfold flight_returns, returning. intros [v|v []]; apply budgeted_ret; cbn; auto. }
  apply budgeted_try_except with (R := fun _ => within);
    [|intros e h [= <-] He; by apply raise_after_release].
  eapply budgeted_bind; [by apply budgeted_lift|intros v].
  eapply budgeted_bind; [apply budgeted_lift; [apply (ce_clock ends)|done]|intros now].
  case_match; [by apply budgeted_ret|].
  eapply budgeted_bind; [apply budgeted_pure; [by destruct (ascii_decode _)|done]|intros token].
  eapply budgeted_bind; [apply budgeted_lift; [apply (ce_encode ends)|done]|intros encoded].
  eapply budgeted_bind; [apply budgeted_lift; [apply (ce_clock ends)|done]|intros now'].
  case_match; [by apply budgeted_ret|].
  eapply budgeted_bind; [apply budgeted_lift; [apply (ce_publish ends)|done]|intros b].
  by apply budgeted_ret.
Qed.

Lemma parse_marker_ends marker : parse_marker marker <> Raised FuelExhausted.
Proof.
  unfold parse_marker, invalid_artifact, validate_owner_token, orequire.
  destruct (ascii_decode marker); cbn; [|done]. destruct (split_once _) as [[]|]; cbn; [|done].
  repeat (case_bool_decide; cbn); repeat (case_match; cbn in *; simplify_eq); done.
Qed.

Lemma poll_delay_ends log2 o n r : poll_delay log2 o n r <> Raised FuelExhausted.
Proof.
  unfold poll_delay, fceil. destruct (log2 _) as [[]|[]| |[] m e]; done.
Qed.

(** The flights between two attempts that have made [n] attempts. *)
Definition polling (n : Z) (s : FlightState) : Prop :=
  within s /\ st_attempts s = n /\ st_polls s < ro_max_polls options.

Lemma poll_loop_budgeted fuel deadline lk rk n :
  budgeted (fun s => polling n s /\ ro_max_polls options - st_polls s <= Z.of_nat fuel)
    (poll_loop cd fuel deadline lk rk)
    (fun r s => match r with None => polling n s | Some found => flight_returns found s end).
Proof.
  induction fuel as [|fuel IH].
  { intros s w [(_ & _ & ?) ?]. lia. }
  set (P := fun s => polling n s /\ ro_max_polls options - st_polls s <= Z.of_nat (S fuel)) in *.
  assert (forall s, P s -> within s) as HP by (by intros s [[? _] _]).
  cbn [poll_loop].
  eapply budgeted_bind; [by apply check_deadline_budgeted|intros ?].
  eapply budgeted_bind; [by apply budgeted_lift; [apply (ce_snapshot ends)|]|intros snapshot].
  eapply budgeted_bind; [by apply check_deadline_budgeted|intros ?].
  eapply budgeted_bind; [by apply budgeted_raise_if|intros ?].
  eapply budgeted_weaken with (P' := P); [|by intros s [? _]|by intros ? ? Ha; exact Ha].
  destruct (cs_marker snapshot) as [marker|]; [|by apply budgeted_ret; intros s [? _]].
  eapply budgeted_bind; [by apply budgeted_pure; [apply parse_marker_ends|]|intros [state token]].
  eapply budgeted_bind with (R := fun _ => P).
  { destruct state; [by apply budgeted_ret|]. destruct (cs_result snapshot); [|by apply budgeted_raise].
    apply budgeted_lift; [apply (ce_decode ends)|done]. }
  intros [v|]; [apply budgeted_ret; intros s Hs; split; [by apply HP|by right; left]|].
  set (Q := fun s => within s /\ st_attempts s = n /\ ro_max_polls options - st_polls s <= Z.of_nat fuel).
  eapply budgeted_bind with (R := fun _ => Q).
  { intros s w [((Hs & Ha & Hp) & Hn & Hlt) Hf]. unfold Q, within. cbn. split_and!; try done; lia. }
  intros ?. eapply budgeted_bind with (R := fun st s => Q s /\ st_polls st = st_polls s);
    [by intros s w Hs|intros st].
  eapply budgeted_bind; [apply budgeted_raise_if; [done|by intros s [[? _] _]]|intros ?].
  eapply budgeted_weaken with (P' := fun s => polling n s /\ ro_max_polls options - st_polls s <= Z.of_nat fuel);
    [|intros s [[(Hw & Hn & Hf) Hst] Hlt%Z.leb_gt]; unfold polling; split_and!; done || lia|by intros ? ? Ha; exact Ha].
  assert (forall s, polling n s /\ ro_max_polls options - st_polls s <= Z.of_nat fuel -> within s) as HQ
    by (by intros s [[? _] _]).
  eapply budgeted_bind; [by apply budgeted_lift; [apply (ce_clock ends)|]|intros now].
  eapply budgeted_bind; [by apply budgeted_raise_if|intros ?].
  eapply budgeted_weaken; [|by intros s [Hs _]; exact Hs|by intros ? ? Ha; exact Ha].
  eapply budgeted_bind; [by apply budgeted_pure; [apply poll_delay_ends|]|intros cap].
  eapply budgeted_bind; [by apply budgeted_lift; [apply (ce_jitter ends)|]|intros j].
  eapply budgeted_bind; [by apply budgeted_lift; [apply (ce_sleep ends)|]|intros ?]. exact IH.
Qed.

(** A round more than there are attempts left is enough. *)
Lemma run_flight_budgeted fuel key loader deadline lk rk n :
  ends_well (loader key) -> ro_max_attempts options - n < Z.of_nat fuel ->
  budgeted (polling n)
    (run_flight cd fuel (Z.to_nat (ro_max_polls options)) key loader deadline lk rk) flight_returns.
Proof.
  intros Hl. revert n. induction fuel as [|fuel IH]; intros n Hn.
  { intros s w [(_ & Ha & _) [<- _]]. lia. }
  cbn [run_flight].
  assert (forall m s, polling m s -> within s) as HP by (by intros m s [? _]).
  eapply budgeted_bind; [apply check_deadline_budgeted; exact (HP n)|intros ?].
  eapply budgeted_bind with (R := fun st s => polling n s /\ st_attempts st = n);
    [by intros s w (? & ? & ?)|intros st].
  eapply budgeted_bind; [apply budgeted_raise_if; [done|by intros s [[? _] _]]|intros ?].
  eapply budgeted_weaken with (P' := fun s => polling n s /\ n < ro_max_attempts options);
    [|intros s [[Hs Hst] Hlt%Z.leb_gt]; split; [done|lia]|by intros ? ? Ha; exact Ha].
  set (P := fun s => polling n s /\ n < ro_max_attempts options).
  assert (forall s, P s -> within s) as HPw by (by intros s [[? _] _]).
  eapply budgeted_bind; [by apply budgeted_lift; [apply (ce_new_token ends)|]|intros token].
  eapply budgeted_bind.
  { apply budgeted_pure; [|exact HPw]. unfold validate_owner_token, orequire. cbn. by case_match. }
  intros ?. eapply budgeted_bind; [by apply budgeted_pure; [by destruct (ascii_encode _)|]|intros active].
  eapply budgeted_bind; [by apply budgeted_pure; [by destruct (ascii_encode _)|]|intros completion].
  eapply budgeted_bind; [by apply check_deadline_budgeted|intros ?].
  eapply budgeted_bind with (R := fun _ => polling (n + 1)).
  { intros s w [((Hs & Ha & Hp) & Hn' & Hlt) Hm]. unfold polling, within. cbn. split_and!; try done; lia. }
  intros ?. eapply budgeted_bind; [by apply budgeted_lift; [apply (ce_set ends)|apply HP]|intros acquired].
  destruct acquired.
  - eapply budgeted_bind; [by apply budgeted_lift; [apply (ce_clock ends)|apply HP]|intros now].
    case_match.
    + apply budgeted_weaken with (P' := within) (R' := flight_returns); [by apply raise_after_release|apply HP|done].
    + eapply budgeted_bind; [by apply budgeted_lift; [apply (ce_clock ends)|apply HP]|intros now'].
      apply budgeted_weaken with (P' := within) (R' := flight_returns); [by apply run_owner_budgeted|apply HP|done].
  - eapply budgeted_bind; [apply check_deadline_budgeted; apply HP|intros ?].
    eapply budgeted_bind.
    + eapply budgeted_weaken; [apply (poll_loop_budgeted _ deadline lk rk (n + 1))| |by intros ? ? Ha; exact Ha].
      intros s Hs. split; [done|]. destruct Hs as [(_ & _ & Hp) _]. lia.
    + intros [found|]; [by apply budgeted_ret|]. apply IH. lia.
Qed.

Lemma make_event_ends e : make_coordination_event e <> Raised FuelExhausted.
Proof. unfold make_coordination_event. by case_match. Qed.

Lemma emit_coordination_ends s out code : ends_well (emit_coordination cd s out code).
Proof.
  unfold emit_coordination. destruct (cd_observer cd) as [on_event|] eqn:E; [|done].
  apply ends_bind; [apply (ce_perf_counter ends)|intros now].
  apply ends_bind; [apply ends_pure, make_event_ends|intros event].
  apply ends_try_except; [by apply (ce_observer ends)|].
  intros e h _. case_match; [|done]. by intros [= <-].
Qed.

Lemma coordination_keys_ends sha256 ns key : coordination_keys sha256 ns key <> Raised FuelExhausted.
Proof. unfold coordination_keys. by destruct (utf8_encode key). Qed.

Lemma fresh_polling : polling 0 (fresh_flight started).
Proof. unfold polling, within. cbn. split_and!; done || lia. Qed.

(** The flight that [distributed_load] runs. *)
Lemma flight_budgeted key loader deadline lk rk w :
  ends_well (loader key) ->
  match run_flight cd (Z.to_nat (ro_max_attempts options) + 1) (Z.to_nat (ro_max_polls options))
          key loader deadline lk rk (fresh_flight started, w) with
  | (Returned found, (s', _)) => flight_returns found s'
  | (Raised e, (s', _)) => e <> FuelExhausted /\ within s'
  end.
Proof.
  intros Hl. apply (run_flight_budgeted _ key loader deadline lk rk 0); [done|lia|apply fresh_polling].
Qed.
End Budget.

Lemma distributed_load_ends_well {W V} (cd : RedisLoadCoordinator W V) key loader :
  (forall started, coordinator_ends cd started) ->
  0 <= ro_max_attempts (cd_options cd) -> 1 <= ro_max_polls (cd_options cd) ->
  ends_well (loader key) -> ends_well (distributed_load cd key loader).
Proof.
  intros He Ha Hp Hl. unfold distributed_load.
  apply ends_bind; [apply (ce_perf_counter _ _ (He 0))|intros started].
  apply ends_bind; [apply (ce_clock _ _ (He 0))|intros now].
  apply ends_bind; [apply ends_pure, coordination_keys_ends|intros [lk rk]].
  intros w. pose proof (flight_budgeted cd started (He started) Ha Hp key loader
    (fadd now (seconds (ro_wait_timeout (cd_options cd)))) lk rk w Hl) as Hf.
  destruct (run_flight _ _ _ _ _ _ _ _ _) as [[[v out]|e] [s w']].
  - apply ends_bind; [by apply (emit_coordination_ends cd started)|done].
  - destruct Hf as [Hne _]. destruct (failure_report cd e) as [out code].
    assert (ends_well (emit_coordination cd s out code ;; raise (A := V) e)) as Hend.
    { apply ends_bind; [by apply (emit_coordination_ends cd started)|intros _; by apply ends_raise]. }
    destruct e; done || apply Hend.
Qed.

(** ** The synchronous coordinator ends *)

(** Options that were made are within their ranges. *)
Lemma load_options_bounds ns a b c d e n1 n2 f o :
  make_load_options ns a b c d e n1 n2 f = Returned o ->
  1 <= ro_max_attempts o <= 100 /\ 1 <= ro_max_polls o <= 10000.
Proof.
  assert (forall v m n, bounded_count v m = Returned n -> 1 <= n <= m) as Hb.
  { intros v m n (x & _ & H)%obind_returned. apply obind_returned in H as (u & H%orequire_returned & [= <-]). lia. }
  unfold make_load_options. intros (x1 & _ & H)%obind_returned.
  do 8 apply obind_returned in H as (? & _ & H).
  apply obind_returned in H as (at_ & Ha & H). apply obind_returned in H as (po & Hp & [= <-]).
  apply Hb in Ha, Hp. unfold MAX_POLL_BUDGET in Hp. done.
Qed.

Record callbacks_end {W V} (codec : ResultEnvelopeCodec W V)
    (observer : option (RedisCoordinationEvent -> M W unit)) (platform : coordination_platform W) : Prop := {
  cl_clock : ends_well (pl_clock platform);
  cl_sleep d : ends_well (pl_sleep platform d);
  cl_jitter : ends_well (pl_jitter platform);
  cl_new_token : ends_well (pl_new_token platform);
  cl_perf_counter : ends_well (pl_perf_counter_ns platform);
  cl_observer on_event e : observer = Some on_event -> ends_well (on_event e);
  cl_encode token v : ends_well (encode_value codec (Exact token) v);
  cl_decode result token : ends_well (decode_matching codec (Exact result) (Exact token));
}.

Lemma release_owner_budgeted {W V} (p : SyncRedisProvider W) (cd : RedisLoadCoordinator W V) started k v :
  provider_ends p ->
  budgeted cd started (within cd started) (release_owner p k v) (fun _ => within cd started).
Proof.
  intros Hp. apply budgeted_try_except.
  - eapply budgeted_lift; [|done]. apply ends_bind; [by apply delete_if_value_ends|done].
  - intros e h [= <-] _ s w Hs. exact Hs.
Qed.

Lemma sync_coordinator_ends {W V} p codec o observer ns platform started :
  provider_ends p -> callbacks_end codec observer platform ->
  coordinator_ends (W := W) (V := V) (SyncRedisLoadCoordinator p codec o observer ns platform) started.
Proof.
  intros Hp []. constructor; cbn; auto using set_if_absent_ends, coordination_snapshot_ends,
    publish_if_value_ends. intros k v. by apply release_owner_budgeted.
Qed.

(** [C14] A coordinated load ends.  Given options that were accepted, and a loader,
    a client and callbacks that return or raise, a flight makes a bounded number
    of attempts and of polls whatever Redis answers and whatever the clocks say:
    the rounds the model gives its loops are always enough. *)
Theorem coordinated_load_ends {W V} (p : SyncRedisProvider W) (codec : ResultEnvelopeCodec W V)
    (o : RedisLoadOptions) observer ns (platform : coordination_platform W) key loader n a b c d e n1 n2 f w :
  make_load_options n a b c d e n1 n2 f = Returned o ->
  provider_ends p -> callbacks_end codec observer platform -> ends_well (loader key) ->
  fst (distributed_load (SyncRedisLoadCoordinator p codec o observer ns platform) key loader w)
  <> Raised FuelExhausted.
Proof.
  intros [Ha Hp]%load_options_bounds Hpe Hcb Hl.
  apply distributed_load_ends_well; [intros started; by apply sync_coordinator_ends|cbn; lia|cbn; lia|done].
Qed.

(** ** The report of a flight *)

Section Report.
Context {W V : Type} (cd : RedisLoadCoordinator W V).
Variable observed : W -> list RedisCoordinationEvent.

Definition same_log (w w' : W) : Prop := observed w = observed w'.
Definition same_flight_log (a b : FlightState * W) : Prop := observed a.2 = observed b.2.

#[local] Instance same_log_preorder : PreOrder same_log.
Proof. split; unfold same_log; congruence. Qed.
#[local] Instance same_flight_log_preorder : PreOrder same_flight_log.
Proof. split; unfold same_flight_log; congruence. Qed.

(** Everything but the observer leaves the log alone. *)
Record coordinator_quiet : Prop := {
  cq_clock : respects same_log (pl_clock (cd_platform cd));
  cq_sleep d : respects same_log (pl_sleep (cd_platform cd) d);
  cq_jitter : respects same_log (pl_jitter (cd_platform cd));
  cq_new_token : respects same_log (pl_new_token (cd_platform cd));
  cq_perf_counter : respects same_log (pl_perf_counter_ns (cd_platform cd));
  cq_encode token v : respects same_log (encode_value (cd_codec cd) (Exact token) v);
  cq_decode result token : respects same_log (decode_matching (cd_codec cd) (Exact result) (Exact token));
  cq_set k v ttl : respects same_log (cb_set_if_absent (cd_backend cd) k v ttl);
  cq_snapshot k1 k2 n : respects same_log (cb_coordination_snapshot (cd_backend cd) k1 k2 n);
  cq_publish k1 v1 k2 v2 v3 ttl : respects same_log (cb_publish_if_value (cd_backend cd) k1 v1 k2 v2 v3 ttl);
  cq_release k v : respects same_flight_log (cd_release cd k v);
}.

Hypothesis quiet : coordinator_quiet.

Lemma respects_lift {A} (m : M W A) : respects same_log m -> respects same_flight_log (lift m).
Proof. intros H [s w]. unfold lift, same_flight_log. specialize (H w). by destruct (m w). Qed.

Lemma respects_read : respects same_flight_log read_flight.
Proof. by intros [s w]. Qed.

Lemma respects_update f : respects same_flight_log (update_flight f).
Proof. by intros [s w]. Qed.

#[local] Hint Resolve respects_lift respects_read respects_update cq_clock cq_sleep cq_jitter cq_new_token
  cq_encode cq_decode cq_set cq_snapshot cq_publish cq_release : bluetape.

Ltac quiet_step :=
  apply respects_bind; [apply _|auto with bluetape typeclass_instances|intros ?].

Lemma check_deadline_quiet deadline : respects same_flight_log (check_deadline cd deadline).
Proof. unfold check_deadline. quiet_step. auto using respects_raise_if with typeclass_instances. Qed.

Lemma run_owner_quiet key loader lk rk active completion lease_deadline :
  respects same_log (loader key) ->
  respects same_flight_log (run_owner cd key loader lk rk active completion lease_deadline).
Proof.
  intros Hl. unfold run_owner. apply respects_bind; [apply _| |intros [v|v b]; by apply respects_ret, _].
  apply respects_try_except; [apply _| |].
  - do 2 quiet_step. case_match; [by apply respects_ret, _|]. do 3 quiet_step.
    case_match; [by apply respects_ret, _|]. quiet_step. by apply respects_ret, _.
  - intros e h [= <-]. quiet_step. by apply respects_raise, _.
Qed.

Lemma poll_loop_quiet fuel deadline lk rk : respects same_flight_log (poll_loop cd fuel deadline lk rk).
Proof.
  induction fuel as [|fuel IH]; [by apply respects_raise, _|]. cbn [poll_loop].
  apply respects_bind; [apply _|apply check_deadline_quiet|intros _]. quiet_step.
  apply respects_bind; [apply _|apply check_deadline_quiet|intros _]. quiet_step.
  case_match; [|by apply respects_ret, _].
  apply respects_bind; [apply _|auto with bluetape typeclass_instances|intros [state token]].
  apply respects_bind; [apply _| |intros [v|]].
  - destruct state; [by apply respects_ret, _|]. destruct (cs_result _); [auto with bluetape typeclass_instances|by apply respects_raise, _].
  - by apply respects_ret, _.
  - do 8 quiet_step. exact IH.
Qed.

Lemma run_flight_quiet fuel poll_fuel key loader deadline lk rk :
  respects same_log (loader key) ->
  respects same_flight_log (run_flight cd fuel poll_fuel key loader deadline lk rk).
Proof.
  intros Hl. induction fuel as [|fuel IH]; [by apply respects_raise, _|]. cbn [run_flight].
  apply respects_bind; [apply _|apply check_deadline_quiet|intros _]. do 6 quiet_step.
  apply respects_bind; [apply _|apply check_deadline_quiet|intros _]. do 2 quiet_step. case_match.
  - quiet_step. case_match.
    + quiet_step. by apply respects_raise, _.
    + quiet_step. by apply run_owner_quiet.
  - apply respects_bind; [apply _|apply check_deadline_quiet|intros _].
    apply respects_bind; [apply _|apply poll_loop_quiet|intros [found|]]; [by apply respects_ret, _|exact IH].
Qed.

(** An observer that logs what it is told, and may fail. *)
Definition logs_events (on_event : RedisCoordinationEvent -> M W unit) : Prop := forall ev w,
  observed (snd (on_event ev w)) = observed w ++ [ev] /\
  match fst (on_event ev w) with Returned _ => True | Raised e => is_Exception e = true end.

Definition returns_always {A} (m : M W A) : Prop := forall w, exists a w', m w = (Returned a, w').

(** What an event tells of a flight. *)
Definition event_tells (s : FlightState) (out : RedisCoordinationOutcome)
    (code : option RedisCoordinationErrorCode) (ev : RedisCoordinationEvent) : Prop :=
  ce_mode ev = cd_mode cd /\ ce_outcome ev = out /\ ce_error_code ev = code /\
  ce_attempts ev = st_attempts s /\ ce_polls ev = st_polls s /\
  ce_cleanup_failed ev = st_cleanup_failed s /\ 0 <= ce_elapsed_ns ev.

Lemma emit_logs on_event s out code w :
  cd_observer cd = Some on_event -> logs_events on_event ->
  returns_always (pl_perf_counter_ns (cd_platform cd)) ->
  0 <= st_attempts s -> 0 <= st_polls s ->
  exists ev w', emit_coordination cd s out code w = (Returned tt, w') /\
    observed w' = observed w ++ [ev] /\ event_tells s out code ev.
Proof.
  intros Ho Hlog Hperf Ha Hp. unfold emit_coordination. rewrite Ho.
  destruct (Hperf w) as (now & w1 & Ew). rewrite (bind_returned _ _ _ _ _ Ew).
  pose proof (cq_perf_counter quiet w) as Hq. rewrite Ew in Hq. cbn in Hq.
  set (ev := Build_RedisCoordinationEvent _ _ _ _ _ _ _).
  assert (make_coordination_event ev = Returned ev) as Hev.
  { unfold make_coordination_event. subst ev. cbn. rewrite !(proj2 (Z.ltb_ge _ _)) by lia. done. }
  rewrite Hev. unfold bind, pure_outcome, try_except. destruct (Hlog ev w1) as [Hl Hr].
  destruct (on_event ev w1) as [[[]|e] w2]; cbn in Hl, Hr.
  - exists ev, w2. split; [done|]. split; [by rewrite Hl, Hq|]. subst ev. unfold event_tells. cbn. split_and!; done || lia.
  - exists ev, w2. split; [by destruct e|]. split; [by rewrite Hl, Hq|]. subst ev. unfold event_tells. cbn. split_and!; done || lia.
Qed.
End Report.

(** One flight, one event.  A flight that starts ends, within its budget of
    attempts and polls; it tells the observer exactly once how: with the counts
    of the flight, no error code when it returns a value that was loaded, reused
    or not published, and the class of the exception when it raises, whatever
    the server, the clock, the loader and the observer itself do. *)
Theorem flight_reports_once {W V} (cd : RedisLoadCoordinator W V) (observed : W -> list RedisCoordinationEvent)
    on_event key loader lk rk w :
  (forall started, coordinator_ends cd started) -> coordinator_quiet cd observed ->
  cd_observer cd = Some on_event -> logs_events observed on_event ->
  returns_always (pl_perf_counter_ns (cd_platform cd)) -> returns_always (pl_clock (cd_platform cd)) ->
  coordination_keys (pl_sha256 (cd_platform cd)) (cd_namespace_id cd) key = Returned (lk, rk) ->
  0 <= ro_max_attempts (cd_options cd) -> 1 <= ro_max_polls (cd_options cd) ->
  ends_well (loader key) -> respects (same_log observed) (loader key) ->
  let '(r, w') := distributed_load cd key loader w in
  exists ev, observed w' = observed w ++ [ev] /\
    0 <= ce_attempts ev <= ro_max_attempts (cd_options cd) /\
    0 <= ce_polls ev <= ro_max_polls (cd_options cd) /\ 0 <= ce_elapsed_ns ev /\
    match r with
    | Returned _ => returning (ce_outcome ev) /\ ce_error_code ev = None
    | Raised e => e <> FuelExhausted /\ (ce_outcome ev, ce_error_code ev) = failure_report cd e
    end.
Proof.
  intros He Hq Ho Hlog Hperf Hclock Hk Ha Hp Hl Hlq. unfold distributed_load.
  destruct (Hperf w) as (started & w1 & E1). rewrite (bind_returned _ _ _ _ _ E1).
  destruct (Hclock w1) as (now & w2 & E2). rewrite (bind_returned _ _ _ _ _ E2).
  pose proof (cq_perf_counter _ _ Hq w) as Q1. pose proof (cq_clock _ _ Hq w1) as Q2.
  rewrite E1 in Q1. rewrite E2 in Q2. cbn in Q1, Q2. unfold same_log in Q1, Q2.
  rewrite Hk. unfold pure_outcome, bind at 1.
  set (deadline := fadd now _).
  pose proof (flight_budgeted cd started (He started) Ha Hp key loader deadline lk rk w2 Hl) as Hf.
  pose proof (run_flight_quiet cd observed Hq (Z.to_nat (ro_max_attempts (cd_options cd)) + 1)
    (Z.to_nat (ro_max_polls (cd_options cd))) key loader deadline lk rk Hlq (fresh_flight started, w2)) as Q3.
  unfold same_flight_log in Q3.
  destruct (run_flight _ _ _ _ _ _ _ _ _) as [[[v out]|e] [s w3]]; cbn in Q3.
  - destruct Hf as [(Hs & Hat & Hpo) Hret].
    destruct (emit_logs cd observed Hq on_event s out None w3) as (ev & w4 & E4 & Hev & Hm & Hout & Hcode & Eat & Epo & _ & Hel);
      [done..|lia|lia|]. unfold bind. rewrite E4. cbn. exists ev. rewrite Hev, <-Q3, <-Q2, <-Q1, Hout, Hcode, Eat, Epo.
    split_and!; done || lia.
  - destruct Hf as [Hne (Hs & Hat & Hpo)]. destruct (failure_report cd e) as [out code] eqn:Er.
    destruct (emit_logs cd observed Hq on_event s out code w3) as (ev & w4 & E4 & Hev & Hm & Hout & Hcode & Eat & Epo & _ & Hel);
      [done..|lia|lia|].
    assert ((emit_coordination cd s out code ;; raise (A := V) e) w3 = (Raised e, w4)) as Hrun.
    { by rewrite (bind_returned _ _ _ _ _ E4). }
    assert (exists ev, observed w4 = observed w ++ [ev] /\
      0 <= ce_attempts ev <= ro_max_attempts (cd_options cd) /\
      0 <= ce_polls ev <= ro_max_polls (cd_options cd) /\ 0 <= ce_elapsed_ns ev /\
      e <> FuelExhausted /\ (ce_outcome ev, ce_error_code ev) = failure_report cd e) as Hgoal.
    { exists ev. rewrite Hev, <-Q3, <-Q2, <-Q1, Hout, Hcode, Eat, Epo. split_and!; done || lia. }
    destruct e; try done; rewrite Hrun; exact Hgoal.
Qed.

(** ** Witnesses *)

Section Witnesses.
Lemma demo_ends {A} (m : M demo_world A) : (forall w, exists a w', m w = (Returned a, w')) -> ends_well m.
Proof. intros H w. destruct (H w) as (a & w' & ->). done. Qed.

Lemma on_server_ends {A} (m : M string_map A) : ends_well m -> ends_well (on_server m).
Proof. intros H w. unfold on_server. specialize (H (dw_server w)). by destruct (m _). Qed.

Lemma map_read_ends {A} (g : option pybytes -> A) k : ends_well (map_read g k).
Proof. intros m. unfold map_read, string_at. cbn. repeat case_match; done. Qed.

Lemma eval_script_ends script ks args : ends_well (eval_script (S := string_map) script ks args).
Proof.
  assert (forall (k : pystr) v, ends_well (holds_value (S := string_map) k v)) as Hh.
  { intros k v. apply ends_bind; [apply map_read_ends|done]. }
  unfold eval_script. destruct script; repeat (case_match; try (by apply ends_raise)).
  - apply ends_bind; [|done]. apply ends_bind; [apply Hh|intros []; done].
  - apply ends_bind; [|done]. unfold snapshot_script. apply ends_bind; [done|intros ?].
    do 2 (apply ends_bind; [apply map_read_ends|intros ?]). case_match; [done|].
    apply ends_bind; [done|intros ?]. by do 2 (apply ends_bind; [apply map_read_ends|intros ?]).
  - apply ends_bind; [|done]. apply ends_bind; [apply Hh|intros []; done].
Qed.

Lemma demo_provider_ends : provider_ends demo_provider.
Proof.
  constructor; [done|done|constructor].
  - intros k v ms. apply on_server_ends, ends_bind; [done|intros b]. by destruct b.
  - intros script ks args. apply on_server_ends, eval_script_ends.
Qed.

Definition oends {A} (r : outcome A) : Prop := r <> Raised FuelExhausted.

Lemma oends_bind {A B} (r : outcome A) (k : A -> outcome B) : oends r -> (forall a, oends (k a)) -> oends (obind r k).
Proof. intros Hr Hk. destruct r as [a|e]; [apply Hk|]. unfold oends in *. cbn. congruence. Qed.

Lemma oends_require c e : e <> FuelExhausted -> oends (orequire c e).
Proof. unfold orequire, oends. case_match; congruence. Qed.

Lemma oends_get {A} (x : option A) e : e <> FuelExhausted -> oends (oget x e).
Proof. unfold oget, oends. case_match; congruence. Qed.

Lemma pack_u32_ends n : oends (pack_u32 n).
Proof. unfold pack_u32, oends. by case_match. Qed.

Lemma sized_ends b : oends (sized b).
Proof. apply oends_bind; [apply pack_u32_ends|done]. Qed.

Lemma encoded_text_ends s encode n : oends (encoded_text s encode n).
Proof. unfold encoded_text. apply oends_bind; [by apply oends_get|intros b]. apply oends_bind; [by apply oends_require|done]. Qed.

Lemma binary_encode_ends f e : oends (binary_encode f e).
Proof.
  unfold binary_encode. apply oends_bind; [by destruct e|intros x].
  repeat (apply oends_bind; [first [apply encoded_text_ends|by apply oends_require|apply sized_ends|apply pack_u32_ends
    |by (unfold append_byte, oends; case_match)
    |case_match; [apply oends_bind; [apply encoded_text_ends|done]|done]
    |case_match; [apply sized_ends|apply pack_u32_ends]]|intros ?]). done.
Qed.

Lemma binary_decode_ends f d : oends (binary_decode f d).
Proof.
  unfold binary_decode. apply oends_bind; [by destruct d|intros b]. apply oends_bind; [by apply oends_require|intros _].
  destruct (decode_body b) as [|e] eqn:E; [done|]. apply decode_body_error in E. by destruct e.
Qed.

Lemma token_ends token : oends (validate_owner_token token).
Proof. apply oends_bind; [by destruct token|intros t]. apply oends_bind; [by apply oends_require|done]. Qed.

Lemma algorithm_ends a : oends (validate_algorithm a).
Proof. apply oends_bind; [by destruct a|intros t]. apply oends_bind; [by apply oends_require|done]. Qed.

Lemma make_envelope_ends v t m a p :
  oends (make_envelope (Exact v) (Exact t) (Exact m) (Exact a) (Exact p)).
Proof.
  destruct (make_envelope _ _ _ _ _) as [|e] eqn:E; [done|]. apply make_envelope_error in E. by destruct e.
Qed.

Lemma or_raise_ends {W A} e (m : M W A) : e <> FuelExhausted -> ends_well m -> ends_well (or_raise e m).
Proof.
  intros He Hm. apply ends_try_except; [done|]. intros e' h _. repeat case_match; try done.
  intros [= <-]. by apply ends_raise.
Qed.

Lemma exact_or_ends {W A} e (v : arg A) : e <> FuelExhausted -> ends_well (W := W) (exact_or e v).
Proof. intros He. destruct v; [done|by apply ends_raise]. Qed.

Lemma demo_encode_ends token v : ends_well (encode_value demo_result_codec (Exact token) v).
Proof.
  unfold encode_value. apply ends_bind; [apply ends_pure, token_ends|intros t].
  apply ends_bind; [by apply or_raise_ends|intros r]. apply ends_bind; [by apply exact_or_ends|intros s].
  apply ends_bind; [done|intros [alg z]]. apply ends_bind; [apply ends_pure, make_envelope_ends|intros e].
  apply ends_bind; [|intros x; apply ends_bind; [by apply exact_or_ends|intros b; by apply ends_bind; [apply ends_raise_if|]]].
  apply or_raise_ends; [done|]. apply ends_bind; [apply ends_pure, binary_encode_ends|done].
Qed.

Lemma demo_decode_ends d token : ends_well (decode_matching demo_result_codec (Exact d) (Exact token)).
Proof.
  unfold decode_matching. apply ends_bind; [by apply ends_pure|intros x].
  apply ends_bind; [apply ends_pure, token_ends|intros t]. apply ends_bind; [by apply ends_raise_if|intros _].
  apply ends_bind; [|intros r].
  { apply or_raise_ends; [done|]. apply ends_bind; [apply ends_pure, binary_decode_ends|done]. }
  apply ends_bind; [|intros e].
  { apply ends_pure. unfold validated_envelope. destruct r as [v|]; [|done].
    destruct (make_envelope _ _ _ _ _) as [|e] eqn:E; [done|]. apply make_envelope_error in E. by destruct e. }
  apply ends_bind; [by apply ends_raise_if|intros _]. case_match; [done|].
  apply ends_bind; [|intros b; by apply ends_bind; [apply or_raise_ends|]].
  unfold decompressed. case_match; [done|]. cbn [demo_result_codec rc_readers].
  rewrite lookup_empty. by apply ends_raise.
Qed.

Lemma demo_callbacks_end : callbacks_end demo_result_codec (Some demo_observer) demo_platform.
Proof.
  constructor; try done; [by intros f e [= <-]|apply demo_encode_ends|apply demo_decode_ends].
Qed.

Lemma coordinated_load_ends_witness :
  fst (distributed_load demo_coordinator (py "key") (fun _ => raise KeyError) (demo_start ∅)) <> Raised FuelExhausted.
Proof.
  apply (coordinated_load_ends demo_provider demo_result_codec demo_load_options _ _ demo_platform _ _ _ _ _ _ _ _ _ _ _ _
    demo_options_valid demo_provider_ends demo_callbacks_end). by apply ends_raise.
Defined.

(** The demo provider leaves the log alone. *)
Lemma demo_execute_quiet {R} operation (action : M demo_world R) :
  respects (same_log dw_log) action -> respects (same_log dw_log) (execute demo_provider operation action).
Proof.
  intros Ha. assert (PreOrder (same_log dw_log)) by (split; unfold same_log; congruence).
  assert (forall out code started, respects (same_log dw_log) (emit_redis demo_provider operation out code started)) as He.
  { intros out code started. apply respects_bind; [done|by intros w|intros now].
    apply respects_bind; [done|by apply respects_pure_outcome|intros e]. by apply respects_ret. }
  assert (forall (A : Type) (f : ProviderState -> A * ProviderState),
    respects (same_log dw_log) (locked (pv_data demo_provider) f)) as Hl.
  { intros A f w. unfold locked. by destruct (f _). }
  assert (forall e A out code started, respects (same_log dw_log)
    (emit_redis demo_provider operation out code started ;; raise (A := A) e)) as Hr.
  { intros. apply respects_bind; [done|apply He|intros _]. by apply respects_raise. }
  unfold execute. apply respects_bind; [done|by intros w|intros started].
  apply respects_bind; [done| |intros _].
  { apply respects_try_except; [done| |intros e h Hh; destruct e; try done; injection Hh as <-; apply Hr].
    apply respects_bind; [done|apply Hl|intros r]. by apply respects_pure_outcome. }
  apply respects_bind; [done| |intros r].
  { apply respects_try_except; [done..|]. intros e h [= <-]. apply respects_bind; [done|apply Hl|intros _].
    destruct e; repeat case_match; auto using respects_raise. }
  apply respects_bind; [done|apply Hl|intros _]. apply respects_bind; [done|apply He|intros _]. by apply respects_ret.
Qed.

Lemma on_server_quiet {A} (m : M string_map A) : respects (same_log dw_log) (on_server m).
Proof. intros w. unfold on_server. by destruct (m _). Qed.

Lemma still_quiet {A} (m : M demo_world A) : respects eq m -> respects (same_log dw_log) m.
Proof. intros H w. unfold same_log. by rewrite <-(H w). Qed.

Ltac quiet_command :=
  repeat (apply respects_bind; [apply _|first [by apply respects_pure_outcome, _|by apply respects_raise_if, _
    |apply on_server_quiet]|intros ?]);
  first [by apply respects_pure_outcome, _|repeat case_match; first [by apply respects_ret, _|by apply respects_raise, _]].

Lemma demo_quiet : coordinator_quiet demo_coordinator dw_log.
Proof.
  assert (PreOrder (same_log dw_log)) by (split; unfold same_log; congruence).
  constructor; try (by intros; intros w).
  - intros token v. apply still_quiet, demo_encode_still.
  - intros result token. apply still_quiet, demo_decode_still.
  - intros k v ttl. apply demo_execute_quiet. quiet_command.
  - intros k1 k2 n. apply demo_execute_quiet. quiet_command.
  - intros k1 v1 k2 v2 v3 ttl. apply demo_execute_quiet. quiet_command.
  - intros k v. assert (PreOrder (same_flight_log (W := demo_world) dw_log)) by (split; unfold same_flight_log; congruence).
    apply respects_try_except; [done| |].
    + intros [s w]. unfold lift, same_flight_log. cbn [snd].
      assert (respects (same_log dw_log) (sync_cleanup demo_provider k v)) as H'.
      { apply respects_bind; [done| |intros b; by apply respects_ret]. apply demo_execute_quiet. quiet_command. }
      specialize (H' w). by destruct (sync_cleanup _ _ _ w).
    + intros e h [= <-]. by intros [s w].
Qed.

Lemma flight_reports_once_witness :
  exists ev, dw_log (snd first_load) = [ev] /\ 0 <= ce_attempts ev <= 3 /\ returning (ce_outcome ev).
Proof.
  pose proof (flight_reports_once demo_coordinator dw_log demo_observer (py "key") demo_loader demo_lease_key
    demo_result_key (demo_start ∅)) as H.
  unfold first_load. destruct (distributed_load _ _ _ _) as [r w'] eqn:E.
  destruct H as (ev & Hlog & Ha & _ & _ & Hr); try done.
  - intros started. by apply sync_coordinator_ends; [apply demo_provider_ends|apply demo_callbacks_end].
  - exact demo_quiet.
  - intros w. by eexists _, _.
  - intros w. by eexists _, _.
  - exists ev. split; [exact Hlog|]. split; [exact Ha|].
    assert (r = Returned [7; 8]) as -> by (vm_compute in E; congruence). apply Hr.
Defined.
End Witnesses.
