(* ===== verification/AsyncRedisCoordination.v ===== *)
(** * Coordinated loads under asyncio ([bluetape/cache/redis/_async_coordination.py])

    The asyncio coordinator runs the flight of [RedisCoordination.v] on the
    asyncio provider.  It differs in three places: its events say so, a
    cancelled flight is reported as cancelled, and the cleanup of an owner is a
    task that the cancellation of the flight does not reach. *)

From stdpp Require Import gmap.
From S2P Require Import Prelude Python Leader LeaseRecord Utf8 EnvelopeFormat EnvelopeCodec.
From S2P Require Import RedisScripts RedisProvider RedisProviderLaws AsyncRedisProvider.
From S2P Require Import CoordinationScripts CacheCore SyncCache RedisCoordination.
From S2P Require Import CoordinationProtocol ProviderStore CoordinationDemo RedisCoordinationLaws.
From S2P Require Import CoordinationBudget.
Open Scope py_scope.
Open Scope Z_scope.
Import Coordination.

Section Coordinator.
Context {W V : Type} (p : AsyncRedisProvider W).

(** The asyncio provider as a backend; the marker bound is the default. *)
Definition async_backend : coordination_backend W := {|
  cb_set_if_absent := async_set_if_absent p;
  cb_coordination_snapshot marker_key result_key :=
    async_coordination_snapshot p marker_key result_key (Exact MAX_COORDINATION_MARKER_SIZE);
  cb_publish_if_value := async_publish_if_value p;
  cb_delete_if_value := async_delete_if_value p;
|}.

(** [_cleanup_primary]: the task is awaited through a shield until it is done,
    and a cancellation that arrives meanwhile is absorbed, so that its outcome is
    that of the command. *)
Definition cleanup_primary (lease_key : pystr) (active_marker : pybytes) : M (FlightState * W) unit :=
  cleanup <- capture (lift (async_delete_if_value p (Exact lease_key) (Exact active_marker))) ;;
  match cleanup with
  | Returned _ => ret tt
  | Raised _ => update_flight fail_cleanup
  end.

Definition AsyncRedisLoadCoordinator (codec : ResultEnvelopeCodec W V) (options : RedisLoadOptions)
    (observer : option (RedisCoordinationEvent -> M W unit)) (namespace_id : pystr)
    (platform : coordination_platform W) : RedisLoadCoordinator W V := {|
  cd_mode := ASYNC;
  cd_backend := async_backend;
  cd_codec := codec;
  cd_options := options;
  cd_observer := observer;
  cd_namespace_id := namespace_id;
  cd_platform := platform;
  cd_release := cleanup_primary;
|}.

(** [_emit], [_run_owner], [_run_flight] and [_distributed_load] of the asyncio
    coordinator. *)
Definition async_emit_coordination codec options observer ns platform :=
  emit_coordination (AsyncRedisLoadCoordinator codec options observer ns platform).
Definition async_run_owner codec options observer ns platform :=
  run_owner (AsyncRedisLoadCoordinator codec options observer ns platform).
Definition async_run_flight codec options observer ns platform :=
  run_flight (AsyncRedisLoadCoordinator codec options observer ns platform).
Definition async_distributed_load codec options observer ns platform :=
  distributed_load (AsyncRedisLoadCoordinator codec options observer ns platform).
End Coordinator.

(** ** The asyncio provider as a store *)

Section Store.
Context {V W S : Type} `{!StringServer S} `{!StringServerLaws S}.
Context (lease_key result_key : pystr) (reads : pybytes -> pystr -> V -> Prop) (loaded : V -> Prop).
Hypothesis keys_differ : lease_key <> result_key.
Variable server : W -> gmap pystr redis_entry.
Variable p : AsyncRedisProvider W.

Abbreviation world_moves := (moves lease_key result_key reads loaded server).

Record async_connected : Prop := {
  ac_runs : runs_commands (S := S) lease_key result_key reads loaded server (ap_client p);
  ac_clock : world_moves (ap_clock p) (fun _ => True);
  ac_loop : world_moves (ap_running_loop p) (fun _ => True);
  ac_observer on_event e : ap_observer p = Some on_event -> world_moves (on_event e) (fun _ => True);
  ac_state s w : server (lput (ap_data p) s w) = server w;
  ac_binding l w : server (lput (ap_loop p) l w) = server w;
}.

Hypothesis conn : async_connected.

Lemma async_emit_moves operation out code started :
  world_moves (async_emit p operation out code started) (fun _ => True).
Proof.
  unfold async_emit. apply moves_then; [done|apply (ac_clock conn)|intros now].
  apply moves_then; [done|apply moves_pure_any|intros event].
  destruct (ap_observer p) as [on_event|] eqn:E; [|by apply moves_ret].
  apply moves_try_except; [done|by apply (ac_observer conn)|].
  intros e h. case_match; [|done]. intros [= <-]. by apply moves_ret.
Qed.

Lemma async_emit_raise_moves {R} operation out code started e (Q : R -> Prop) :
  world_moves (async_emit p operation out code started ;; raise e) Q.
Proof. apply moves_then; [done|apply async_emit_moves|intros _; apply moves_raise]. Qed.

Lemma bind_loop_moves : world_moves (bind_loop p) (fun _ => True).
Proof.
  apply moves_then; [done|apply (ac_loop conn)|intros loop].
  apply moves_then; [done|apply moves_locked, (ac_binding conn)|intros bound]. by apply moves_raise_if.
Qed.

Lemma async_state_moves {A} (f : ProviderState -> A * ProviderState) :
  world_moves (bind_loop p ;; locked (ap_data p) f) (fun _ => True).
Proof. apply moves_then; [done|apply bind_loop_moves|intros _; apply moves_locked, (ac_state conn)]. Qed.

Lemma async_execute_moves {R} operation (action : M W R) Q :
  world_moves action Q -> world_moves (async_execute p operation action) Q.
Proof.
  intros Ha. unfold async_execute. apply moves_then; [done|apply (ac_clock conn)|intros started].
  apply moves_then; [done| |intros _].
  { apply moves_try_except; [done| |].
    - unfold async_admit. apply moves_then; [done|apply bind_loop_moves|intros _].
      apply moves_then; [done|apply moves_locked, (ac_state conn)|intros r]. apply moves_pure_any.
    - intros e h Hh. destruct e; try done; injection Hh as <-; apply async_emit_raise_moves. }
  apply moves_bind with (P := Q); [done| |].
  { apply moves_try_except; [done..|]. intros e h [= <-].
    unfold async_execute_failure. apply moves_then; [done|apply async_state_moves|intros _].
    destruct e; repeat case_match; auto using async_emit_raise_moves, moves_raise. }
  intros r Hr. apply moves_then; [done|apply async_state_moves|intros _].
  apply moves_then; [done|apply async_emit_moves|intros _]. by apply moves_ret.
Qed.

#[export] Instance async_backend_store :
  CoordinationStore lease_key result_key reads loaded server (valid_time_to_live (S := S)) (async_backend p).
Proof.
  pose proof (ac_runs conn) as Hruns. constructor.
  - intros token ttl Httl. by eapply async_execute_moves, acquire_action_moves.
  - intros limit. by eapply async_execute_moves, snapshot_action_moves.
  - intros token result ttl Httl Hh. by eapply async_execute_moves, publish_action_moves.
  - intros token. by eapply async_execute_moves, delete_action_moves.
Qed.
End Store.

(** ** Values *)

Section Values.
Context {V W S : Type} `{!StringServer S} `{!StringServerLaws S}.
Context (p : AsyncRedisProvider W) (codec : ResultEnvelopeCodec W V) (options : RedisLoadOptions).
Context (observer : option (RedisCoordinationEvent -> M W unit)) (namespace_id : pystr).
Context (platform : coordination_platform W).
Context (lease_key result_key : pystr) (loaded : V -> Prop).
Variable server : W -> gmap pystr redis_entry.

Abbreviation cd := (AsyncRedisLoadCoordinator p codec options observer namespace_id platform).
Abbreviation reads := (codec_reads codec).

Lemma moves_capture {World A : Type} (at_ : World -> gmap pystr redis_entry) (m : M World A) (Q : A -> Prop) :
  moves lease_key result_key reads loaded at_ m Q ->
  moves lease_key result_key reads loaded at_ (capture m) (fun _ => True).
Proof.
  intros Hm w Hw. specialize (Hm w Hw) as [Hl _]. unfold capture.
  destruct (m w) as [[a|[]] w']; by split.
Qed.

Lemma cleanup_primary_moves token :
  lease_key <> result_key -> async_connected (S := S) lease_key result_key reads loaded server p ->
  moves lease_key result_key reads loaded (fun sw : FlightState * W => server sw.2)
    (cleanup_primary p lease_key (active_marker_of token)) (fun _ => True).
Proof.
  intros Hne Hconn. pose proof (async_backend_store _ _ _ _ Hne _ p Hconn) as Hstore.
  apply moves_then; [done| |intros [b|e]; [by apply moves_ret|apply (moves_update_flight cd)]].
  apply moves_capture with (Q := fun _ => True).
  apply (moves_lift cd), (store_deletes (b := async_backend p)).
Qed.

Lemma async_environment :
  lease_key <> result_key -> async_connected (S := S) lease_key result_key reads loaded server p ->
  callbacks_move codec observer platform lease_key result_key loaded server ->
  environment_moves cd lease_key result_key loaded server.
Proof. intros Hne Hconn []. constructor; auto. intros token. by apply cleanup_primary_moves. Qed.
End Values.

(** [C23] Coordinated loads under asyncio return loaded values: what
    [coordinated_load_sound] says of the synchronous coordinator holds of this
    one, wherever its flight is cancelled. *)
Theorem async_coordinated_load_sound {V W S} `{!StringServer S} `{!StringServerLaws S}
    (p : AsyncRedisProvider W) (codec : ResultEnvelopeCodec W V)
    (options : RedisLoadOptions) (observer : option (RedisCoordinationEvent -> M W unit)) (ns : pystr)
    (platform : coordination_platform W) (loaded : V -> Prop) (server : W -> gmap pystr redis_entry)
    (key : pystr) (loader : pystr -> M W V) (lease_key result_key : pystr) (w : W) :
  let reads := codec_reads codec in
  coordination_keys (pl_sha256 platform) ns key = Returned (lease_key, result_key) ->
  async_connected (S := S) lease_key result_key reads loaded server p ->
  callbacks_move codec observer platform lease_key result_key loaded server ->
  codec_faithful (AsyncRedisLoadCoordinator p codec options observer ns platform) loaded ->
  valid_time_to_live (S := S) (ro_lease_ttl options) -> valid_time_to_live (S := S) (ro_result_ttl options) ->
  moves lease_key result_key reads loaded server (loader key) loaded ->
  coherent lease_key result_key reads loaded (server w) ->
  let '(r, w') := async_distributed_load p codec options observer ns platform key loader w in
  leads_to lease_key result_key reads loaded (server w) (server w') /\
  coherent lease_key result_key reads loaded (server w') /\
  match r with Returned v => loaded v | Raised _ => True end.
Proof.
  intros reads Hk Hconn Hcb Hf Hl1 Hl2 Hload Hw.
  pose proof (coordination_keys_differ _ _ _ _ _ Hk) as Hne.
  pose proof (async_backend_store _ _ _ _ Hne _ p Hconn) as Hstore.
  pose proof (distributed_load_moves (AsyncRedisLoadCoordinator p codec options observer ns platform)
    lease_key result_key loaded (valid_time_to_live (S := S)) Hne server
    (async_environment p codec options observer ns platform _ _ _ _ Hne Hconn Hcb) Hf Hl1 Hl2 key loader Hk Hload) as Hm.
  pose proof (moves_sound _ _ _ _ Hne _ _ _ w Hm Hw) as Hs. specialize (Hm w Hw) as [Hlead HQ].
  unfold async_distributed_load. destruct (distributed_load _ key loader w) as [r w']. by split_and!.
Qed.

(** ** Ends *)

Section Ends.
Context {W V : Type} (p : AsyncRedisProvider W).

Record async_provider_ends : Prop := {
  ape_clock : ends_well (ap_clock p);
  ape_loop : ends_well (ap_running_loop p);
  ape_observer on_event e : ap_observer p = Some on_event -> ends_well (on_event e);
  ape_client : client_ends (ap_client p);
}.

Hypothesis ends : async_provider_ends.

Lemma async_emit_ends operation out code started : ends_well (async_emit p operation out code started).
Proof.
  unfold async_emit. apply ends_bind; [apply (ape_clock ends)|intros now].
  apply ends_bind; [apply ends_pure; unfold make_redis_event; by case_match|intros e].
  destruct (ap_observer p) as [on_event|] eqn:E; [|done].
  apply ends_try_except; [by apply (ape_observer ends)|]. intros x h _. case_match; [|done]. by intros [= <-].
Qed.

Lemma async_emit_raise_ends {R} operation out code started e :
  e <> FuelExhausted -> ends_well (async_emit p operation out code started ;; raise (A := R) e).
Proof. intros H. apply ends_bind; [apply async_emit_ends|intros _; by apply ends_raise]. Qed.

Lemma bind_loop_ends : ends_well (bind_loop p).
Proof.
  apply ends_bind; [apply (ape_loop ends)|intros l]. apply ends_bind; [apply ends_locked|intros b].
  by apply ends_raise_if.
Qed.

Lemma async_release_ends : ends_well (async_release_operation p).
Proof. apply ends_bind; [apply bind_loop_ends|intros _; apply ends_locked]. Qed.

Lemma async_execute_ends {R} operation (action : M W R) :
  ends_well action -> ends_well (async_execute p operation action).
Proof.
  intros Ha. unfold async_execute. apply ends_bind; [apply (ape_clock ends)|intros started].
  apply ends_bind; [|intros _].
  { apply ends_try_except.
    - apply ends_bind; [apply bind_loop_ends|intros _]. intros w.
      unfold bind, locked, admit_section, pure_outcome. by destruct (decide _).
    - intros e h He Hh. destruct e; try done; injection Hh as <-; by apply async_emit_raise_ends. }
  apply ends_bind; [|intros r].
  { apply ends_try_except; [done|]. intros e h He [= <-].
    apply ends_bind; [apply async_release_ends|intros _].
    destruct e; repeat case_match; auto using async_emit_raise_ends, ends_raise. }
  apply ends_bind; [apply async_release_ends|intros _].
  apply ends_bind; [apply async_emit_ends|intros _]. apply ends_ret.
Qed.

Lemma cleanup_primary_budgeted (cd : RedisLoadCoordinator W V) started k v :
  budgeted cd started (within cd started) (cleanup_primary p k v) (fun _ => within cd started).
Proof.
  pose proof (ape_client ends) as Hc. intros s w Hs. unfold cleanup_primary, bind, capture, lift.
  assert (ends_well (async_delete_if_value p (Exact k) (Exact v))) as Hd
    by by apply async_execute_ends, delete_action_ends.
  specialize (Hd w). destruct (async_delete_if_value p _ _ w) as [[b|[]] w']; try done; cbn in *; try exact Hs.
Qed.

Lemma async_coordinator_ends codec o observer ns platform started :
  callbacks_end codec observer platform ->
  coordinator_ends (V := V) (AsyncRedisLoadCoordinator p codec o observer ns platform) started.
Proof.
  pose proof (ape_client ends) as Hc. intros []. constructor; cbn; auto.
  - intros. by apply async_execute_ends, set_action_ends.
  - intros. by apply async_execute_ends, snapshot_action_ends.
  - intros. by apply async_execute_ends, publish_action_ends.
  - intros k v. apply cleanup_primary_budgeted.
Qed.

(** As [coordinated_load_ends], under asyncio. *)
Lemma async_coordinated_load_ends (codec : ResultEnvelopeCodec W V) o observer ns platform key loader n a b c d e n1 n2 f w :
  make_load_options n a b c d e n1 n2 f = Returned o ->
  callbacks_end codec observer platform -> ends_well (loader key) ->
  fst (async_distributed_load p codec o observer ns platform key loader w) <> Raised FuelExhausted.
Proof.
  intros [Ha Hp]%load_options_bounds Hcb Hl.
  apply distributed_load_ends_well; [intros started; by apply async_coordinator_ends|cbn; lia|cbn; lia|done].
Qed.
End Ends.

(** ** Witnesses *)

Section Witnesses.
(** The demo world under one event loop, to which the provider is bound. *)
Definition async_demo_provider : AsyncRedisProvider demo_world := {|
  ap_client := demo_client;
  ap_observer := None;
  ap_command_policy := None;
  ap_owned := false;
  ap_data := demo_provider_state;
  ap_loop := {| lget _ := Some 0; lput _ w := w |};
  ap_close_task := {| lget _ := None; lput _ w := w |};
  ap_clock := ret 0;
  ap_running_loop := ret 0;
  ap_wait := ret tt;
  ap_create_task := ret 0%nat;
  ap_done _ := ret true;
  ap_shield _ := ret tt;
  ap_exception _ := ret None;
  ap_fuel := 0;
|}.

Definition async_first_load : outcome pybytes * demo_world :=
  async_distributed_load async_demo_provider demo_result_codec demo_load_options (Some demo_observer)
    (py "00ff") demo_platform (py "key") demo_loader (demo_start ∅).

Example async_load_reported :
  fst async_first_load = Returned [7; 8] /\
  (fun ev => (ce_mode ev, ce_outcome ev)) <$> dw_log (snd async_first_load) = [(ASYNC, LOADED)].
Proof. vm_compute. split; reflexivity. Qed.

Lemma async_demo_connected :
  async_connected (S := string_map) demo_lease_key demo_result_key (codec_reads demo_result_codec) is_demo_value
    dw_server async_demo_provider.
Proof.
  constructor; [constructor; intros; apply on_server_performs|by apply demo_still|by apply demo_still|done..].
Qed.

Lemma async_demo_faithful :
  codec_faithful (AsyncRedisLoadCoordinator async_demo_provider demo_result_codec demo_load_options
    (Some demo_observer) (py "00ff") demo_platform) is_demo_value.
Proof. exact demo_faithful. Qed.

Lemma async_coordinated_load_sound_witness :
  match fst async_first_load with Returned v => is_demo_value v | Raised _ => False end.
Proof.
  assert (coherent demo_lease_key demo_result_key (codec_reads demo_result_codec) is_demo_value (∅ : string_map)) as Hc.
  { by intros token result [ttl Ht]. }
  pose proof (async_coordinated_load_sound (S := string_map) async_demo_provider demo_result_codec demo_load_options
    (Some demo_observer) (py "00ff") demo_platform is_demo_value dw_server (py "key") demo_loader
    demo_lease_key demo_result_key (demo_start ∅) eq_refl async_demo_connected demo_callbacks async_demo_faithful) as H.
  unfold async_first_load. destruct (async_distributed_load _ _ _ _ _ _ _ _ _) as [[v|e] w'] eqn:E; cbn.
  - apply H; [exists 5000; by split|exists 1000; by split|by split|exact Hc].
  - exfalso. clear H. vm_compute in E. discriminate E.
Defined.
End Witnesses.
